(* ===== verification/_CoqProject ===== *)
-Q . S2P
Prelude.v
GoTime.v
Charset.v
Schema.v
Rbr.v
RbrFacts.v
RbrDecimal.v
RbrTime.v
RbrSafe.v
Identifier.v
InternalTables.v
Delta.v
DeltaSpec.v
DeltaRefine.v
DeltaFlush.v
Models.v
Filtering.v
Updater.v
QueryVars.v
RowAppend.v
RowDecode.v
ReplaySpec.v
PgDecode.v
CatalogErrors.v
Base64.v
GoJson.v
Comment.v
Quotes.v
Session.v
Pool.v
Logrepl.v
Regexp.v
SqlText.v
PsqlCommands.v
PgConfig.v
Rewrite.v
RewriteFacts.v
SqlTextFacts.v
TypeMapping.v
CatalogTable.v
CatalogDatabase.v
Provider.v
Controller.v
Inserter.v
CatalogFacts.v
CatalogModel.v
Subscriptions.v
Backup.v
PgHandler.v
PgHandlerFacts.v
InPlaceFacts.v
LogreplRows.v
LogreplReplay.v
PoolFacts.v
Applier.v
ApplierFacts.v
Durability.v
Replay.v
EngineModel.v
PgModel.v
CellClaims.v
CatalogClaims.v
DeltaClaims.v
ReplicaClaims.v
ApplierClaims.v
ReplayClaims.v
LogreplClaims.v
PoolClaims.v
SubscriptionClaims.v
PgHandlerClaims.v
InPlaceClaims.v
FrontClaims.v
SchemaClaims.v
Scram.v
JsonBinary.v
LoadData.v
DataLoader.v
Executor.v
MySession.v
Startup.v
