(* ===== verification/Prelude.v ===== *)
(** * MyDuck Server: a verification of its replication, catalog and front-end core

    MyDuck Server is a MySQL and PostgreSQL server on top of DuckDB, and a
    replica of either.  This development verifies the parts that must not go
    wrong silently: how the binary log of a MySQL or MariaDB source and the
    logical replication stream of a PostgreSQL primary become rows in DuckDB,
    how MySQL's schemas are kept in DuckDB's catalog, and how the front ends
    answer their clients.

    ** The program

    Binlog.  A stream of binlog events reaches [binlogReplicaApplier]
    (src/binlogreplication/binlog_replica_applier.go).  A row event is decoded
    cell by cell ([CellValue], src/binlog/rbr.go, with src/charset) straight
    into Arrow builders, one set per table ([DeltaAppender],
    src/delta/delta.go): every row becomes one or two actions, stamped with the
    transaction and statement.  Transactions are batched; a commit flushes the
    builders ([DeltaController], src/delta/controller.go): an Arrow view is
    registered with DuckDB, condensed to the last action of each key and merged
    into the base table by one of five sequences of SQL statements; then the
    position is stored (binlog_position_store.go, src/catalog/internal_tables.go)
    and the transaction committed.  Events with partial row images take another
    path, row by row ([tableUpdater], src/replica/updater.go).  Filters
    (binlog_replica_filtering.go) decide which tables are replicated.  The
    controller (binlog_replica_controller.go) starts and stops the applier, which
    connects to its source and reads events through a goroutine of its own
    (binlog_replica_event_producer.go).

    Logical replication.  [LogicalReplicator.StartReplication]
    (src/pgserver/logrepl/replication.go) is a loop over messages, ticks and
    errors of a replication connection; rows are decoded by decode.go into the
    same delta buffer, batches are committed with the position of their last
    transaction, which is then acknowledged to the primary.  Subscriptions
    (subscription.go, subscription_handler.go) start and stop replicators.  The
    session of the loop is the connection pool (src/catalog/connpool.go,
    src/backend/session.go, src/adapter).

    Front ends.  A PostgreSQL client is authenticated
    (src/pgserver/authentication_scram.go); [ConnectionHandler]
    (connection_handler.go) reads its messages.  Statements are recognised by
    regular expressions and text functions (stmt.go, copy.go, backup_handler.go,
    restore_handler.go, full_match_handler.go) or the PostgreSQL parser, answered in
    place (in_place_handler.go, pgconfig) or run by DuckDB; COPY loads through a
    pipe (dataloader.go).  A MySQL client's plans reach src/backend/executor.go,
    which gives them to DuckDB or to go-mysql-server; LOAD DATA is rewritten
    (loaddata.go).

    Catalog.  src/catalog keeps MySQL's schemas in DuckDB: types are mapped
    (type_mapping.go), what DuckDB has no place for goes into comments
    (comment.go), tables and databases are changed by SQL statements (table.go,
    database.go), rows are inserted through temporary tables (inserter.go), and the
    provider (provider.go) creates and attaches the database files.

    ** The files

    - Prelude: Go's outcomes (return or panic), machine integers, byte slices
      with length and capacity, little- and big-endian readers; the tactics
      [go_step], [go_inv], [concrete] and the hint database [go].
    - GoTime, Charset, Schema: the pieces of package time that are used, the
      character sets, the column types and their Arrow types, the builders.
    - Rbr: [CellLength] and [CellValue], one definition per case.  RbrFacts:
      one cell per call, agreement of lengths, integers.  RbrDecimal and
      RbrTime: round trips of the packed formats.  RbrSafe: no panics.
    - Identifier, InternalTables: quoting and the SQL text of the catalog.
      CatalogErrors: the kinds of DuckDB errors by their text.
    - Delta: the appender, the SQL of every statement, the handlers and
      [Flush].  DeltaSpec: the specification, what a list of actions means for
      a table.  DeltaRefine: the handlers implement it, from the laws
      [SqlLaws] of the statements.  DeltaFlush: the same for all tables at
      once ([FlushLaws]).
    - Filtering, Updater, QueryVars (status variables of a query event),
      RowAppend (row events into the buffer), RowDecode (decoding does not
      depend on what the builders already hold).
    - Applier: the state of the applier and its handlers, the event loop and
      the relation [run].  ApplierFacts: commits, the loop invariant, schema
      changes.  Durability: rows and position reach the disk together, from
      the laws [EngineLaws] of the session; what a failed flush leaves, from
      [RollbackLaws].
    - ReplaySpec: what a row event with full images does to a list of rows.
      Replay: histories of transactions, the [stream]s of loop inputs that
      present them as MariaDB (a GTID that begins the transaction) or MySQL (a GTID
      and a BEGIN query) does, and the invariant that ties the applier's state to the
      history seen so far ([replay_stream]), from the laws [ReplayLaws].
    - PgDecode: the decoder of PostgreSQL values.  Session: the
      interface between replication and its connections, with the helpers of
      src/adapter.  Pool, PoolFacts: the connection pool over database/sql
      ([Driver]) and that it is such a session.  Logrepl: the replication state,
      every message and the loop.  LogreplRows: a message adds its rows.
      LogreplReplay: publications, the inputs that present them and the
      invariant of the loop, from the laws [PgLaws].
    - Regexp: regular expressions with the leftmost-first matching and the
      groups of Go's regexp package; reading back what a pattern was made from.
      Subscriptions: the statements on subscriptions, the
      subscription map and the goroutines of its replicators.
    - SqlText, SqlTextFacts: statement tags, comments, COPY and its options.
      Backup: BACKUP and RESTORE.  PsqlCommands: the queries of
      psql that are replaced.
    - PgConfig: the configuration parameters of PostgreSQL.  Rewrite,
      RewriteFacts: the rewriting of catalog names and functions by
      regular expressions.
    - PgHandler: the connection handler with the statements handled in place;
      one definition per handler.  PgHandlerFacts: what every handler preserves
      (the messages not yet read, the replies sent, one READY per operation, the
      ownership of statements).  InPlaceFacts: settings that are set, shown and
      reset.
    - Base64, GoJson: encoding/base64 and the part of
      encoding/json the catalog uses, with their round trips.  Comment, Quotes,
      TypeMapping: the catalog's comments, the translation of quotes, and the types.
    - CatalogTable, CatalogDatabase, Inserter, Provider: tables, databases, the
      inserter and the provider over a DuckDB that is the class [CatalogDB].
      CatalogFacts: what the operations keep, from the laws [CommentLaws],
      [SequenceLaws], [TableLaws] and [RowLaws].  CatalogModel: instances.
    - Controller: the replica controller, its files, the connection to the source
      and the start position; the goroutine that reads events.
    - Scram: authentication.  Startup: the start of a connection, which relies
      on it.  JsonBinary: MySQL's binary JSON and a reader of it.
      LoadData, Executor, MySession: LOAD DATA, the routing of plans, transactions
      and persisted variables of the MySQL side.  DataLoader: the pipe of COPY FROM, with
      all its states, and COPY TO STDOUT.
    - Models, EngineModel and PgModel: a concrete Arrow library, codecs, an
      in-memory database that runs the statements, an engine and a wire format
      over it; instances of the laws, on which the witnesses are evaluated.
    - CellClaims, CatalogClaims, DeltaClaims, ReplicaClaims, ApplierClaims,
      ReplayClaims, LogreplClaims, PoolClaims, SubscriptionClaims,
      PgHandlerClaims, InPlaceClaims, FrontClaims, SchemaClaims and the ends of
      QueryVars, Controller, Scram, Startup, JsonBinary and DataLoader: the properties, each with a concrete instance.

    ** How code is modelled

    A function that can panic returns [outcome]; an error is part of what it
    returns, together with the state it leaves behind, as errors in this
    program do not undo what was done before them.  The connection handler
    recovers panics, so its monad [M] keeps the state of a panic.  Go integers
    are [Z] with their wrap-around written out where it can occur.  Maps are
    [gmap] and [gset]; the tables of the buffer are an association list, whose
    order stands for the order of Go's map iteration, and the theorems hold for
    every order; the filters that controller and applier share are addresses of a
    heap.  The [atomic.Bool] that a prepared statement shares with its
    portals is a cell of a store.  Texts are bytes, and what the code does with
    letters is modelled for ASCII.  Locks are left out: every operation of the
    controller, the filters and the subscription map holds its lock from start
    to end.  Goroutines are steps of their own, taken at any time after the one
    that starts them: a replicator's ([arrive]), the applier's ([cstep]), the event
    producer's ([pstep]), the reader's and the writer's of a pipe ([lstep]).

    What is outside the repository is a parameter: Arrow's decimals
    ([ArrowLib], with [ArrowLaws] and [ArrowLaws256]), the x/text codecs ([Codecs]), vitess's predicates and JSON
    ([VitessLib]), DuckDB ([DuckDB]), the engine, session and catalog
    ([Engine]), the wire format of pgoutput ([PgLogRepl]), the codecs of pgx
    ([PgCodecs]), database/sql ([Driver]), the primary of a subscription
    ([Outside]), the PostgreSQL parser and net/url ([PgParser]).  Their laws say
    what the statements and calls are documented to do: [SqlLaws] gives each SQL
    text of the controller its relational meaning on rows, a view and a
    temporary table; [EngineLaws] says that a transaction sees its own writes
    and COMMIT makes them durable; [ReplayLaws] and [PgLaws] say that opening a
    transaction, flushing and saving the position leave the catalog and what is
    durable alone; [RollbackLaws] says that a rollback restores what is durable; [DriverLaws] says the same of database/sql, and that a
    connection can always be opened and a transaction begun on an idle one.  The class [Backend] is the interface between
    the connection handler and what runs its statements (DuckHandler, the
    loaders of COPY, the statements handled in place); [BackendLaws] says that
    none of these sends the READY that is the handler's to send, and
    [SessionVarLaws] what the session variables of go-mysql-server do.  For the catalog:
    the types and schemas of go-mysql-server ([SqlTypes], [SchemaLib],
    [PkSchemaLib]), DuckDB's statements ([CatalogDB]), the files and the storage of the provider
    ([ProviderEnv]).  For the rest: the mysql database, files and variables
    ([ReplicaEnv], [FileLaws]), the source's network ([SourceNetwork]), positions
    ([PositionLib], [DumpLib]), SCRAM's cryptography ([Rfc5802]), the environments of LOAD DATA, the
    executor, the session and the start of a connection ([LoadEnv], [ExecEnv],
    [SessionEnv], [StartEnv]).

    Fuel: [pad_loop] gets the number of digits wanted, and each turn uses 19;
    [vars_loop] gets the length of the block, and each turn advances by one or
    stops ([vars_loop_fuel]: more fuel changes nothing); [read_path] gets the
    number of names; [leading] and [pieces] get the length of the text, and
    each turn takes a character; a star of a regular expression gets the length
    of the text, as an iteration that takes nothing ends it; the JSON parser gets
    the length of its text ([parse_enough]); [connect_loop] gets more than the
    attempts allowed ([connect_terminates]); [decode] of binary JSON the depth of the
    document; [explore] finds all states of a pipe in 25 rounds, as the proof that they are
    closed under steps shows; [serve] gets any number, and the claims about it hold
    for all.

    ** What is shown

    - Streams: from a replica that agrees with its source, any stream of
      transactions with full row images (any tables, clock and batching), as MariaDB
      or MySQL sends them, leaves exactly the source's rows and position; at any
      moment in between, what is durable is a prefix of the history with the position
      of that prefix.  No tick falls between a GTID event of MySQL and its BEGIN, where
      the code commits a position that is too far ([tick_before_begin_skips]).
      Tables must differ in more than case, as the applier caches their schemas
      by lower-cased name.
    - Logical replication: the same for the messages of a publication, with
      reconnections anywhere, whichever session is used and in particular the
      pool's; the position acknowledged is always durable; a transaction becomes
      durable by the next tick; the loop never fails by itself and ends when the
      primary stays away.  The streams are those in which no tick or deadline
      drops a message of a transaction that was read (keepalives may be dropped), no
      transaction is streamed or truncates, no value is an unchanged TOAST, and the
      columns of a key are the first ones; what happens otherwise is stated by lemmas
      of their own.
    - Sessions: the pool keeps sessions apart.
    - Subscriptions: after any sequence of updates, each of which could create its
      slots and found the goroutines started before it running, the running
      replicators are those the table enables; statements are read back from their text; a statement that fails
      leaves the replicators alone.
    - Connections: a batch of the extended protocol is answered by one READY, and one
      more for every Flush in it, and a simple query by one, whatever fails; DuckDB statements are closed at most
      once; rows are delivered once and in order; a prepared query is run with
      the values that were bound, when they are not NULL; a setting that was set is
      shown, when it has no quote in it.
    - Authentication: a client is accepted only with a proof for the key of the
      role over the messages and nonces of its session; a client that follows
      RFC 5802 and knows the key is accepted; no connection is ready for queries
      without such a proof.
    - Catalog: a column comes back from DuckDB's catalog with the type and default
      it was created with; the copy of the table's information agrees with the stored
      comment whatever statement fails; an INSERT changes all of its rows or none;
      strings are translated between the quoting rules, and back when there are no
      backslashes.
    - Replica: at most one applier runs when starts do not overtake its
      goroutine, and START and RESET respect it; the running state is read back.
    - Encodings: a JSON document within the bounds of the encoder is read back from
      its binary form.
    - Loading: however the routines of a COPY interleave and whatever fails, it ends,
      unless the pipe cannot be opened to rescue a blocked writer, and it is
      reported as done only when DuckDB has taken the rows.
    - Cells: every case appends one value or fails without touching the
      builder, reports the length [CellLength] computes, never panics on a
      cell as MySQL writes it, and inverts MySQL's encoding for integers, decimals
      and the fractional time formats.  PostgreSQL values are stored in the
      class of their column and within its bounds.
    - Buffer: a row event adds exactly its rows and keeps the invariant
      (rectangular columns, truthful counters, increasing stamps per key); the
      handlers, whichever is chosen, leave the table as applying the actions
      one by one would; a flush does so for every table.
    - Applier: what a commit leaves on every path; rows and position become
      durable together; a schema change is isolated and drops stale appenders;
      the flags of the loop are consistent over every run.
    - Text: quoted names, index names, connection strings and COPY options are
      read back; comments are removed and nothing else.
    - Defects: properties that state what the code does where it differs from
      what it means to do (old TIME format, DECIMAL(p,0), SQL mode zero, rows
      of a failed flush, poisoned buffers, several sources, the row-by-row
      writer, unescaped names, messages dropped at a tick, TRUNCATE, streamed
      transactions, statements handled in place, failed uploads, filters after
      RESET REPLICA ALL, two starts, authorization identities, dropped columns,
      repeated auto increments, long keys and values of binary JSON, files beside
      the allowed directory); the others are lemmas beside their component.

    ** Not modelled

    SQL translation (transpiler/translate.go: an AST of vitess and SQLGlot in a
    Python process); the Flight SQL server (an adaptation of Arrow's example); the
    parts of the front ends that are sockets, iterators over DuckDB's rows, Arrow
    files and calls into go-mysql-server (listener, server, iter.go, the Arrow
    loader and writer, duck_handler.go's preparation of statements, backend/handler.go
    and iter.go); uploads and downloads of backups; the tables of initial data and
    the SQL of internal macros and views, which are data; logging; the program's
    flags and wiring, tools and test support. *)

From Stdlib Require Export ZArith Lia Btauto.
From stdpp Require Export base list gmap strings.

#[global] Open Scope Z_scope.

(** ** Go outcomes

    A Go function either returns or panics (index out of range, failed type
    assertion, an explicit [panic]).  Errors are ordinary return values and are
    modelled as [option]s inside [A]. *)
Inductive outcome (A : Type) : Type :=
| Ret (a : A)
| Panic.
Arguments Ret {A} a.
Arguments Panic {A}.

#[export] Instance outcome_ret : MRet outcome := fun A a => Ret a.
#[export] Instance outcome_bind : MBind outcome :=
  fun A B f m => match m with Ret a => f a | Panic => Panic end.

Definition returns {A} (m : outcome A) : Prop := exists a, m = Ret a.

Lemma bind_Ret {A B} (f : A -> outcome B) a : mbind f (Ret a) = f a.
Proof. reflexivity. Qed.

Lemma bind_Ret_inv {A B} (f : A -> outcome B) m b :
  mbind f m = Ret b -> exists a, m = Ret a /\ f a = Ret b.
Proof. destruct m; [eauto | discriminate]. Qed.

(** ** Machine integers

    A [w]-bit unsigned value is a [Z] in [0, 2^w); [uN] is the conversion that
    wraps, [iN] reads the same bits as a signed value. *)
Definition u8 (z : Z) : Z := z mod 2 ^ 8.
Definition u16 (z : Z) : Z := z mod 2 ^ 16.
Definition u32 (z : Z) : Z := z mod 2 ^ 32.
Definition u64 (z : Z) : Z := z mod 2 ^ 64.
Definition signed (w z : Z) : Z := let r := z mod 2 ^ w in if r <? 2 ^ (w - 1) then r else r - 2 ^ w.
Definition i8 (z : Z) : Z := signed 8 z.
Definition i16 (z : Z) : Z := signed 16 z.
Definition i32 (z : Z) : Z := signed 32 z.
Definition i64 (z : Z) : Z := signed 64 z.

Definition is_byte (b : Z) : Prop := 0 <= b < 256.

Lemma signed_id w z : 0 < w -> - 2 ^ (w - 1) <= z < 2 ^ (w - 1) -> signed w z = z.
Proof.
  intros Hw Hz. unfold signed.
  assert (E : 2 ^ w = 2 * 2 ^ (w - 1)) by (rewrite <- Z.pow_succ_r by lia; f_equal; lia).
  assert (0 < 2 ^ (w - 1)) by (apply Z.pow_pos_nonneg; lia).
  destruct (Z.ltb_spec z 0).
  - replace (z mod 2 ^ w) with (z + 2 ^ w).
    + destruct (Z.ltb_spec (z + 2 ^ w) (2 ^ (w - 1))); lia.
    + apply Z.mod_unique with (-1); lia.
  - rewrite Z.mod_small by lia. destruct (Z.ltb_spec z (2 ^ (w - 1))); lia.
Qed.

Lemma signed_mod w z : 0 < w -> signed w (z mod 2 ^ w) = signed w z.
Proof. intros. unfold signed. rewrite Z.mod_mod by (apply Z.pow_nonzero; lia). reflexivity. Qed.

(** [lor_shiftl_add]: the idiom [lo | hi << k] is addition when [lo] has at
    most [k] bits. *)
Lemma lor_shiftl_add lo hi k :
  0 <= k -> 0 <= lo < 2 ^ k -> Z.lor lo (Z.shiftl hi k) = lo + hi * 2 ^ k.
Proof.
  intros Hk Hlo. rewrite Z.shiftl_mul_pow2 by lia.
  assert (E : Z.land lo (hi * 2 ^ k) = 0).
  { apply Z.bits_inj'. intros n Hn. rewrite Z.land_spec, Z.bits_0.
    destruct (Z.ltb_spec n k).
    - rewrite Z.mul_pow2_bits_low by lia. apply andb_false_r.
    - rewrite <- (Z.mod_small lo (2 ^ k)), Z.mod_pow2_bits_high by lia. reflexivity. }
  rewrite <- Z.lxor_lor by exact E. symmetry. apply Z.add_nocarry_lxor, E.
Qed.

(** ** Byte slices

    [s_mem] is the part of the backing array the slice can reach (its length is
    Go's [cap]); [s_len] is Go's [len].  Indexing is checked against [len] and
    re-slicing against [cap], as in the language. *)
Record slice : Type := Slice { s_mem : list Z; s_len : nat }.

Definition slice_wf (s : slice) : Prop :=
  (s_len s <= length (s_mem s))%nat /\ Forall is_byte (s_mem s).

(** The slice that covers the whole of [l]. *)
Definition of_bytes (l : list Z) : slice := Slice l (length l).
Definition bytes_of (s : slice) : list Z := take (s_len s) (s_mem s).

Definition index (s : slice) (i : Z) : outcome Z :=
  if (0 <=? i) && (i <? Z.of_nat (s_len s)) then
    match s_mem s !! Z.to_nat i with Some b => Ret b | None => Panic end
  else Panic.

Definition subslice (s : slice) (i j : Z) : outcome slice :=
  if (0 <=? i) && (i <=? j) && (j <=? Z.of_nat (length (s_mem s))) then
    Ret (Slice (drop (Z.to_nat i) (s_mem s)) (Z.to_nat (j - i)))
  else Panic.

Lemma index_spec s i b :
  index s i = Ret b <-> 0 <= i < Z.of_nat (s_len s) /\ s_mem s !! Z.to_nat i = Some b.
Proof.
  unfold index. split.
  - destruct (Z.leb_spec 0 i), (Z.ltb_spec i (Z.of_nat (s_len s))); simpl; try discriminate.
    destruct (s_mem s !! Z.to_nat i); [intros [= ->]; auto | discriminate].
  - intros [Hi Hb]. destruct (Z.leb_spec 0 i), (Z.ltb_spec i (Z.of_nat (s_len s))); try lia.
    simpl. rewrite Hb. reflexivity.
Qed.

Lemma index_byte s i b : slice_wf s -> index s i = Ret b -> is_byte b.
Proof.
  intros [_ Hf] [_ Hb]%index_spec. rewrite Forall_lookup in Hf. eauto.
Qed.

Lemma index_returns s i :
  slice_wf s -> 0 <= i < Z.of_nat (s_len s) -> exists b, index s i = Ret b /\ is_byte b.
Proof.
  intros Hwf Hi. destruct (lookup_lt_is_Some_2 (s_mem s) (Z.to_nat i)) as [b Hb].
  { destruct Hwf; lia. }
  exists b. assert (E : index s i = Ret b) by (apply index_spec; auto).
  split; [exact E | eapply index_byte; eauto].
Qed.

Lemma index_panics s i : Z.of_nat (s_len s) <= i -> index s i = Panic.
Proof.
  intros. unfold index. destruct (Z.ltb_spec i (Z.of_nat (s_len s))); [lia|].
  rewrite andb_false_r. reflexivity.
Qed.

Lemma subslice_spec s i j t :
  subslice s i j = Ret t <->
  0 <= i <= j /\ j <= Z.of_nat (length (s_mem s)) /\
  t = Slice (drop (Z.to_nat i) (s_mem s)) (Z.to_nat (j - i)).
Proof.
  unfold subslice.
  destruct (Z.leb_spec 0 i), (Z.leb_spec i j), (Z.leb_spec j (Z.of_nat (length (s_mem s))));
    simpl; split; try (intros [= <-]; repeat split; lia); try discriminate; intros (? & ? & ->);
    first [lia | reflexivity].
Qed.

Lemma subslice_wf s i j t : slice_wf s -> subslice s i j = Ret t -> slice_wf t.
Proof.
  intros [Hl Hf] (Hij & Hj & ->)%subslice_spec. split; simpl.
  - rewrite length_drop. lia.
  - apply Forall_drop, Hf.
Qed.

Lemma subslice_returns s i j :
  0 <= i <= j -> j <= Z.of_nat (length (s_mem s)) ->
  subslice s i j = Ret (Slice (drop (Z.to_nat i) (s_mem s)) (Z.to_nat (j - i))).
Proof. intros. apply subslice_spec. auto. Qed.

Lemma length_bytes_of s : slice_wf s -> length (bytes_of s) = s_len s.
Proof. intros [H _]. unfold bytes_of. rewrite length_take. lia. Qed.

(** ** Byte order *)

(** [le_nat], [be_nat]: the number a byte string denotes. *)
Fixpoint le_nat (l : list Z) : Z :=
  match l with [] => 0 | b :: l' => b + 256 * le_nat l' end.
Definition be_nat (l : list Z) : Z := foldl (fun acc b => acc * 256 + b) 0 l.

(** Encoders, used to state round trips. *)
Fixpoint le_bytes (n : nat) (z : Z) : list Z :=
  match n with O => [] | S n' => z mod 256 :: le_bytes n' (z / 256) end.
Definition be_bytes (n : nat) (z : Z) : list Z := rev (le_bytes n z).

#[global] Arguments be_bytes : simpl never.

Lemma length_le_bytes n z : length (le_bytes n z) = n.
Proof. revert z. induction n; simpl; auto. Qed.

Lemma length_be_bytes n z : length (be_bytes n z) = n.
Proof. unfold be_bytes. rewrite length_rev. apply length_le_bytes. Qed.

Lemma le_bytes_byte n z : Forall is_byte (le_bytes n z).
Proof.
  revert z. induction n; simpl; intros; constructor; auto.
  apply Z.mod_pos_bound. lia.
Qed.

Lemma be_bytes_byte n z : Forall is_byte (be_bytes n z).
Proof. unfold be_bytes. apply Forall_rev, le_bytes_byte. Qed.

Lemma le_nat_bytes n z : le_nat (le_bytes n z) = z mod 256 ^ Z.of_nat n.
Proof.
  revert z. induction n as [|n IH]; intros z.
  - simpl. rewrite Z.mod_1_r. reflexivity.
  - simpl le_bytes. simpl le_nat. rewrite IH, Nat2Z.inj_succ, Z.pow_succ_r by lia.
    rewrite Z.rem_mul_r by lia. lia.
Qed.

Lemma be_nat_app l1 l2 : be_nat (l1 ++ l2) = be_nat l1 * 256 ^ Z.of_nat (length l2) + be_nat l2.
Proof.
  unfold be_nat. rewrite foldl_app. generalize (foldl (fun acc b => acc * 256 + b) 0 l1).
  induction l2 as [|b l2 IH]; intros acc; simpl length; simpl foldl.
  - simpl. lia.
  - rewrite (IH (acc * 256 + b)), (IH (0 * 256 + b)), Nat2Z.inj_succ, Z.pow_succ_r by lia. lia.
Qed.

Lemma be_nat_rev l : be_nat (rev l) = le_nat l.
Proof.
  induction l as [|b l IH]; [reflexivity|].
  simpl rev. rewrite be_nat_app, IH. simpl. unfold be_nat. simpl. lia.
Qed.

Lemma be_nat_bytes n z : be_nat (be_bytes n z) = z mod 256 ^ Z.of_nat n.
Proof. unfold be_bytes. rewrite be_nat_rev. apply le_nat_bytes. Qed.

Lemma le_nat_bound l : Forall is_byte l -> 0 <= le_nat l < 256 ^ Z.of_nat (length l).
Proof.
  induction 1 as [|b l Hb _ IH]; simpl length; simpl le_nat.
  - simpl. lia.
  - rewrite Nat2Z.inj_succ, Z.pow_succ_r by lia. unfold is_byte in Hb. lia.
Qed.

Lemma be_nat_bound l : Forall is_byte l -> 0 <= be_nat l < 256 ^ Z.of_nat (length l).
Proof.
  intros H. rewrite <- (rev_involutive l), be_nat_rev, length_rev.
  apply le_nat_bound, Forall_rev, H.
Qed.

(** ** [encoding/binary] readers *)
Definition read_bytes (s : slice) (n : nat) : outcome (list Z) :=
  foldr (fun i acc => b ← index s (Z.of_nat i); l ← acc; Ret (b :: l)) (Ret []) (seq 0 n).
Definition LittleEndian_Uint16 (s : slice) : outcome Z := l ← read_bytes s 2; Ret (le_nat l).
Definition LittleEndian_Uint32 (s : slice) : outcome Z := l ← read_bytes s 4; Ret (le_nat l).
Definition LittleEndian_Uint64 (s : slice) : outcome Z := l ← read_bytes s 8; Ret (le_nat l).
Definition BigEndian_Uint32 (s : slice) : outcome Z := l ← read_bytes s 4; Ret (be_nat l).
Definition BigEndian_Uint64 (s : slice) : outcome Z := l ← read_bytes s 8; Ret (be_nat l).

(** [window s pos l]: the bytes of [s] from [pos] on start with [l]. *)
Definition window (s : slice) (pos : Z) (l : list Z) : Prop :=
  0 <= pos /\ pos + Z.of_nat (length l) <= Z.of_nat (s_len s) /\
  take (length l) (drop (Z.to_nat pos) (s_mem s)) = l.

Lemma window_of_bytes l : window (of_bytes l) 0 l.
Proof. unfold window, of_bytes. simpl. rewrite firstn_all. repeat split; lia. Qed.

Lemma window_index s pos l i b :
  window s pos l -> 0 <= i -> l !! Z.to_nat i = Some b -> index s (pos + i) = Ret b.
Proof.
  intros (Hp & Hl & E) Hi Hb. pose proof (lookup_lt_Some _ _ _ Hb).
  apply index_spec. split; [lia|].
  rewrite <- E in Hb. rewrite lookup_take_lt, lookup_drop in Hb by lia.
  rewrite Z2Nat.inj_add by lia. exact Hb.
Qed.

Lemma window_app s pos l1 l2 :
  window s pos (l1 ++ l2) -> window s pos l1 /\ window s (pos + Z.of_nat (length l1)) l2.
Proof.
  intros (Hp & Hl & E). rewrite length_app in *. split; repeat split; try lia.
  - apply (f_equal (take (length l1))) in E.
    rewrite take_take, take_app_length, Nat.min_l in E by lia. exact E.
  - apply (f_equal (drop (length l1))) in E.
    rewrite drop_app_length, <- take_drop_commute, drop_drop in E.
    rewrite Z2Nat.inj_add, Nat2Z.id by lia. exact E.
Qed.

Lemma window_subslice s pos l n :
  slice_wf s -> window s pos l -> (n <= length l)%nat ->
  exists t, subslice s pos (pos + Z.of_nat n) = Ret t /\ bytes_of t = take n l /\
            slice_wf t /\ s_len t = n /\ window t 0 (take n l).
Proof.
  intros Hwf (Hp & Hl & E) Hn. destruct Hwf as [Hlen Hb].
  assert (Hs : subslice s pos (pos + Z.of_nat n) =
          Ret (Slice (drop (Z.to_nat pos) (s_mem s)) n)).
  { rewrite subslice_returns by lia. do 3 f_equal. lia. }
  assert (Et : take n (drop (Z.to_nat pos) (s_mem s)) = take n l).
  { rewrite <- E, take_take. f_equal. lia. }
  eexists. split; [exact Hs|]. repeat split; simpl; auto.
  - rewrite length_drop. lia.
  - apply Forall_drop, Hb.
  - lia.
  - rewrite length_take. lia.
  - rewrite drop_0, length_take, Nat.min_l by lia. exact Et.
Qed.

Lemma read_bytes_spec s n l :
  read_bytes s n = Ret l <->
  length l = n /\ forall i b, l !! i = Some b -> index s (Z.of_nat i) = Ret b.
Proof.
  unfold read_bytes. rewrite <- (Nat.add_0_l n) at 2.
  cut (forall k, foldr (fun i acc => b ← index s (Z.of_nat i); l ← acc; Ret (b :: l)) (Ret []) (seq k n) = Ret l
       <-> length l = n /\ forall i b, l !! i = Some b -> index s (Z.of_nat (k + i)) = Ret b).
  { intros H. exact (H 0%nat). }
  revert l. induction n as [|n IH]; intros l k; simpl.
  - split; [intros [= <-]; split; [reflexivity|intros i b Hi; rewrite lookup_nil in Hi; discriminate]|].
    intros [Hl _]. destruct l; [reflexivity | discriminate].
  - split.
    + intros (b & Hb & (l' & Hl & [= <-])%bind_Ret_inv)%bind_Ret_inv.
      apply IH in Hl. destruct Hl as [Hl Hi]. split; [simpl; lia|].
      intros [|i] c; simpl; [intros [= <-]; rewrite Nat.add_0_r; exact Hb|].
      intros Hc. specialize (Hi _ _ Hc). rewrite Nat.add_succ_r. exact Hi.
    + intros [Hl Hi]. destruct l as [|b l]; [discriminate|].
      pose proof (Hi 0%nat b eq_refl) as H0. rewrite Nat.add_0_r in H0. rewrite H0. simpl.
      assert (E : foldr (fun i acc => b ← index s (Z.of_nat i); l ← acc; Ret (b :: l)) (Ret []) (seq (S k) n) = Ret l).
      { apply IH. split; [simpl in Hl; lia|]. intros i c Hc.
        specialize (Hi (S i) c Hc). rewrite Nat.add_succ_r in Hi. exact Hi. }
      rewrite E. reflexivity.
Qed.

Lemma read_bytes_window s l : window s 0 l -> read_bytes s (length l) = Ret l.
Proof.
  intros H. apply read_bytes_spec. split; [reflexivity|]. intros i b Hb.
  rewrite <- (Z.add_0_l (Z.of_nat i)). eapply window_index; [exact H | lia |].
  rewrite Nat2Z.id. exact Hb.
Qed.

(** A prefix of a window read through a sub-slice, the shape of every
    fixed-width read of the source: [binary.X(data[pos : pos+n])]. *)
Lemma read_window {B} s pos l n (k : list Z -> outcome B) :
  slice_wf s -> window s pos l -> (n <= length l)%nat ->
  (t ← subslice s pos (pos + Z.of_nat n); l ← read_bytes t n; k l) = k (take n l).
Proof.
  intros Hwf Hw Hn. destruct (window_subslice s pos l n Hwf Hw Hn) as (t & -> & _ & _ & _ & Ht).
  simpl. rewrite <- (firstn_length_le l Hn) at 1. rewrite (read_bytes_window _ _ Ht).
  reflexivity.
Qed.

(** [n] bytes through [binary.LittleEndian]. *)
Lemma le_read_window {B} s pos v n (k : Z -> outcome B) :
  slice_wf s -> window s pos (le_bytes n v) ->
  (t ← subslice s pos (pos + Z.of_nat n); val ← (l ← read_bytes t n; Ret (le_nat l)); k val)
  = k (v mod 256 ^ Z.of_nat n).
Proof.
  intros Hwf Hw.
  transitivity (t ← subslice s pos (pos + Z.of_nat n); l ← read_bytes t n; k (le_nat l)).
  { destruct (subslice s pos (pos + Z.of_nat n)) as [t|]; [|reflexivity]. simpl.
    destruct (read_bytes t n); reflexivity. }
  rewrite (read_window s pos _ n (fun l => k (le_nat l)) Hwf Hw) by (rewrite length_le_bytes; lia).
  rewrite take_ge, le_nat_bytes by (rewrite length_le_bytes; lia). reflexivity.
Qed.

Lemma be_read_window {B} s pos v n (k : Z -> outcome B) :
  slice_wf s -> window s pos (be_bytes n v) ->
  (t ← subslice s pos (pos + Z.of_nat n); val ← (l ← read_bytes t n; Ret (be_nat l)); k val)
  = k (v mod 256 ^ Z.of_nat n).
Proof.
  intros Hwf Hw.
  transitivity (t ← subslice s pos (pos + Z.of_nat n); l ← read_bytes t n; k (be_nat l)).
  { destruct (subslice s pos (pos + Z.of_nat n)) as [t|]; [|reflexivity]. simpl.
    destruct (read_bytes t n); reflexivity. }
  rewrite (read_window s pos _ n (fun l => k (be_nat l)) Hwf Hw) by (rewrite length_be_bytes; lia).
  rewrite take_ge, be_nat_bytes by (rewrite length_be_bytes; lia). reflexivity.
Qed.

(** Every slice long enough has a window of each length. *)
Lemma window_exists s pos n :
  slice_wf s -> 0 <= pos -> pos + Z.of_nat n <= Z.of_nat (s_len s) ->
  exists l, window s pos l /\ length l = n /\ Forall is_byte l.
Proof.
  intros [Hl Hb] Hp Hn. exists (take n (drop (Z.to_nat pos) (s_mem s))).
  assert (E : length (take n (drop (Z.to_nat pos) (s_mem s))) = n).
  { rewrite length_take, length_drop. lia. }
  split; [|split; [exact E | apply Forall_take, Forall_drop, Hb]].
  unfold window. rewrite E. repeat split; lia.
Qed.

(** A boolean fact about bytes is decided on the 256 of them. *)
Lemma byte_forall (P : Z -> bool) :
  forallb P (map Z.of_nat (seq 0 256)) = true -> forall b, is_byte b -> P b = true.
Proof.
  unfold is_byte. rewrite forallb_forall. intros HP b Hb. apply HP.
  rewrite in_map_iff. exists (Z.to_nat b). split; [lia|]. apply in_seq. lia.
Qed.

(** ** Automation

    [go_inv] opens a hypothesis [m = Ret r]: binds, returns, panics and the
    conditionals on the way. *)
Ltac go_step :=
  match goal with
  | H : Panic = Ret _ |- _ => discriminate H
  | H : Ret _ = Ret _ |- _ => injection H; clear H; intros; subst
  | H : mbind _ _ = Ret _ |- _ => apply bind_Ret_inv in H; destruct H as (? & ? & H)
  | H : (let '(_, _) := ?p in _) = Ret _ |- _ => destruct p eqn:?
  | H : (if ?c then _ else _) = Ret _ |- _ => destruct c eqn:?
  | H : (match ?c with _ => _ end) = Ret _ |- _ => destruct c eqn:?
  end.
Ltac go_inv := repeat go_step.

(** [beqs] turns boolean tests in the context into propositions. *)
Ltac beqs :=
  repeat match goal with
  | H : (_ || _)%bool = true |- _ => apply orb_true_iff in H
  | H : (_ || _)%bool = false |- _ => apply orb_false_iff in H; destruct H
  | H : (_ && _)%bool = true |- _ => apply andb_true_iff in H; destruct H
  | H : (_ =? _) = true |- _ => apply Z.eqb_eq in H
  | H : (_ =? _) = false |- _ => apply Z.eqb_neq in H
  | H : (_ <? _) = true |- _ => apply Z.ltb_lt in H
  | H : (_ <? _) = false |- _ => apply Z.ltb_ge in H
  | H : (_ <=? _) = true |- _ => apply Z.leb_le in H
  | H : (_ <=? _) = false |- _ => apply Z.leb_gt in H
  | H : negb _ = true |- _ => apply negb_true_iff in H
  | H : negb _ = false |- _ => apply negb_false_iff in H
  end.

(** [concrete] evaluates a closed hypothesis of a witness. *)
Ltac concrete :=
  intros;
  lazymatch goal with
  | |- Forall _ [] => apply Forall_nil_2
  | |- Forall _ (_ :: _) => apply Forall_cons_2; concrete
  | |- Forall _ ?l => let l' := eval vm_compute in l in change l with l'; concrete
  | |- _ /\ _ => split; concrete
  | |- _ => vm_compute; first [ reflexivity | discriminate | repeat split; first [ reflexivity | discriminate ] ]
  end.

(** ** Hints

    [go]: well-formedness of slices and bytes, and the frame facts of the
    components. *)
Create HintDb go.
#[export] Hint Resolve index_byte subslice_wf : go.
