(* ===== verification/GoTime.v ===== *)
(** * The part of Go's [time] package the decoders use

    A [time.Time] in UTC is its Unix second and its nanosecond; [time_Date] and
    [time_Unix] are [time.Date(..., time.UTC)] and [time.Unix(...).UTC()], with
    the normalisation of out-of-range fields the standard library documents
    ("October 32 converts to November 1").  Seconds wrap at 64 bits. *)

From S2P Require Import Prelude.

Record GoTime : Type := mkTime { unix_sec : Z; unix_nsec : Z }.

#[export] Instance GoTime_eq_dec : EqDecision GoTime.
Proof. solve_decision. Defined.

Definition isLeap (y : Z) : bool :=
  (y mod 4 =? 0) && (negb (y mod 100 =? 0) || (y mod 400 =? 0)).

(** Days of a common year before its 0-based month [m]. *)
Definition daysBefore (m : Z) : Z :=
  nth (Z.to_nat m) [0; 31; 59; 90; 120; 151; 181; 212; 243; 273; 304; 334] 0.

(** Days from 1970-01-01 to January 1 of year [y] (proleptic Gregorian). *)
Definition daysToYear (y : Z) : Z :=
  365 * (y - 1970) + ((y - 1) / 4 - (y - 1) / 100 + (y - 1) / 400 - 477).

Definition daysSinceEpoch (year month day : Z) : Z :=
  let y := year + (month - 1) / 12 in
  let m := (month - 1) mod 12 in
  daysToYear y + daysBefore m + (if isLeap y && (2 <=? m) then 1 else 0) + (day - 1).

Definition time_Unix (sec nsec : Z) : GoTime :=
  mkTime (i64 (sec + nsec / 1000000000)) (nsec mod 1000000000).

Definition time_Date (year month day hour min sec nsec : Z) : GoTime :=
  time_Unix (daysSinceEpoch year month day * 86400 + hour * 3600 + min * 60 + sec) nsec.

(** Durations are [int64] nanoseconds. *)
Definition time_Microsecond : Z := 1000.
Definition time_Second : Z := 1000000000.
Definition Duration_Microseconds (d : Z) : Z := Z.quot d 1000.

(** Known calendar points. *)
Example epoch_date : time_Date 1970 1 1 0 0 0 0 = mkTime 0 0.
Proof. reflexivity. Qed.
Example leap_day_date : time_Date 2024 2 29 12 30 15 5000 = mkTime 1709209815 5000.
Proof. reflexivity. Qed.
Example october_32_date : time_Date 2023 10 32 0 0 0 0 = time_Date 2023 11 1 0 0 0 0.
Proof. reflexivity. Qed.
Example month_zero_date : time_Date 2000 0 1 0 0 0 0 = time_Date 1999 12 1 0 0 0 0.
Proof. reflexivity. Qed.

(** A year is 365 days, or 366 when it is a leap year. *)
Lemma daysToYear_step y : daysToYear (y + 1) = daysToYear y + if isLeap y then 366 else 365.
Proof.
  unfold daysToYear, isLeap.
  replace (y + 1 - 1) with y by lia.
  destruct (Z.eqb_spec (y mod 4) 0), (Z.eqb_spec (y mod 100) 0), (Z.eqb_spec (y mod 400) 0);
    simpl; Z.to_euclidean_division_equations; lia.
Qed.
