(* ===== verification/Charset.v ===== *)
(** * Character sets (src/charset/charset.go)

    The character-set identifiers the source names, the table from identifiers
    to text encodings, and the encode/decode entry points.  The encodings
    themselves come from golang.org/x/text and are a parameter ([Codecs]). *)

From S2P Require Import Prelude.

(** [sql.CharacterSetID]: the identifiers charset.go names, and any other. *)
Inductive CharacterSetID : Type :=
| CharacterSet_Unspecified | CharacterSet_ascii | CharacterSet_latin1
| CharacterSet_utf8mb3 | CharacterSet_utf8mb4
| CharacterSet_ucs2 | CharacterSet_utf16 | CharacterSet_utf16le | CharacterSet_utf32
| CharacterSet_gb2312 | CharacterSet_gbk | CharacterSet_gb18030 | CharacterSet_big5
| CharacterSet_other (id : Z).

Inductive Encoding : Type :=
| Nop | Windows1252 | UTF16BE | UTF16LE | UTF32BE | GBK | GB18030 | Big5.

#[export] Instance CharacterSetID_eq_dec : EqDecision CharacterSetID.
Proof. solve_decision. Defined.
#[export] Instance Encoding_eq_dec : EqDecision Encoding.
Proof. solve_decision. Defined.

(** The codecs of golang.org/x/text: [None] is a conversion error. *)
Class Codecs : Type := {
  new_encoder : Encoding -> list Z -> option (list Z);
  new_decoder : Encoding -> list Z -> option (list Z);
}.

(** What the package relies on: decoding undoes encoding (documented for every
    encoding of x/text that can represent the text). *)
Class CodecLaws `{Codecs} : Prop := {
  decode_encode : forall en s t, new_encoder en s = Some t -> new_decoder en t = Some s;
}.

Inductive CharsetError : Type := ErrUnsupported (id : CharacterSetID) | ErrCodec.

Definition IsSupported (id : CharacterSetID) : bool :=
  match id with
  | CharacterSet_Unspecified
  | CharacterSet_ascii
  | CharacterSet_latin1
  | CharacterSet_utf8mb3 | CharacterSet_utf8mb4
  | CharacterSet_ucs2 | CharacterSet_utf16 | CharacterSet_utf16le
  | CharacterSet_utf32
  | CharacterSet_gb2312 | CharacterSet_gbk | CharacterSet_gb18030
  | CharacterSet_big5 => true
  | _ => false
  end.

Definition IsUTF8 (id : CharacterSetID) : bool :=
  match id with
  | CharacterSet_Unspecified | CharacterSet_ascii | CharacterSet_utf8mb3 | CharacterSet_utf8mb4 => true
  | _ => false
  end.

Definition IsSupportedNonUTF8 (id : CharacterSetID) : bool := IsSupported id && negb (IsUTF8 id).

Definition getEncoding (id : CharacterSetID) : Encoding * option CharsetError :=
  match id with
  | CharacterSet_Unspecified | CharacterSet_ascii | CharacterSet_utf8mb3 | CharacterSet_utf8mb4 => (Nop, None)
  | CharacterSet_latin1 => (Windows1252, None)
  | CharacterSet_ucs2 | CharacterSet_utf16 => (UTF16BE, None)
  | CharacterSet_utf16le => (UTF16LE, None)
  | CharacterSet_utf32 => (UTF32BE, None)
  | CharacterSet_gb2312 | CharacterSet_gbk => (GBK, None)
  | CharacterSet_gb18030 => (GB18030, None)
  | CharacterSet_big5 => (Big5, None)
  | CharacterSet_other _ => (Nop, Some (ErrUnsupported id))
  end.

Section Codec.
Context `{Codecs}.

(** The result is the bytes and the error; on a codec error the bytes are the
    empty slice the codec returns. *)
Definition codec_result (r : option (list Z)) : list Z * option CharsetError :=
  match r with Some t => (t, None) | None => ([], Some ErrCodec) end.

Definition EncodeBytes (id : CharacterSetID) (utf8 : list Z) : list Z * option CharsetError :=
  match getEncoding id with
  | (_, Some err) => (utf8, Some err)
  | (en, None) => if decide (en = Nop) then (utf8, None) else codec_result (new_encoder en utf8)
  end.

Definition DecodeBytes (id : CharacterSetID) (encoded : list Z) : list Z * option CharsetError :=
  match getEncoding id with
  | (_, Some err) => (encoded, Some err)
  | (en, None) => if decide (en = Nop) then (encoded, None) else codec_result (new_decoder en encoded)
  end.

(** A character set is supported exactly when it has an encoding. *)
Lemma getEncoding_supported id : IsSupported id = true <-> snd (getEncoding id) = None.
Proof. destruct id; simpl; split; congruence. Qed.

Lemma DecodeBytes_utf8 id bs : IsUTF8 id = true -> DecodeBytes id bs = (bs, None).
Proof. destruct id; simpl; try discriminate; reflexivity. Qed.

Lemma DecodeBytes_unsupported id bs :
  IsSupported id = false -> exists e, DecodeBytes id bs = (bs, Some e).
Proof. destruct id; simpl; try discriminate. eexists. reflexivity. Qed.

Lemma decode_encode_bytes `{!CodecLaws} id s t :
  EncodeBytes id s = (t, None) -> DecodeBytes id t = (s, None).
Proof.
  unfold EncodeBytes, DecodeBytes. destruct (getEncoding id) as [en [e|]]; [discriminate|].
  case_decide; [congruence|]. unfold codec_result.
  destruct (new_encoder en s) eqn:E; [|discriminate].
  intros [= ->]. rewrite (decode_encode _ _ _ E). reflexivity.
Qed.
End Codec.
