(* ===== verification/Schema.v ===== *)
(** * Column types and Arrow builders

    The binlog type codes (src/binlog/constants.go), the row event kinds
    (src/binlog/events.go), SQL columns, the PostgreSQL types of
    src/pgtypes/pgtypes.go, the mapping of column types to Arrow types
    (src/myarrow/schema.go), and Arrow builders as the log of the values
    appended to them. *)

From S2P Require Import Prelude GoTime Charset.

(** ** Binlog type codes (MYSQL_TYPE_xxx) *)
Definition TypeDecimal : Z := 0.
Definition TypeTiny : Z := 1.
Definition TypeShort : Z := 2.
Definition TypeLong : Z := 3.
Definition TypeFloat : Z := 4.
Definition TypeDouble : Z := 5.
Definition TypeNull : Z := 6.
Definition TypeTimestamp : Z := 7.
Definition TypeLongLong : Z := 8.
Definition TypeInt24 : Z := 9.
Definition TypeDate : Z := 10.
Definition TypeTime : Z := 11.
Definition TypeDateTime : Z := 12.
Definition TypeYear : Z := 13.
Definition TypeNewDate : Z := 14.
Definition TypeVarchar : Z := 15.
Definition TypeBit : Z := 16.
Definition TypeTimestamp2 : Z := 17.
Definition TypeDateTime2 : Z := 18.
Definition TypeTime2 : Z := 19.
Definition TypeVector : Z := 242.
Definition TypeJSON : Z := 245.
Definition TypeNewDecimal : Z := 246.
Definition TypeEnum : Z := 247.
Definition TypeSet : Z := 248.
Definition TypeTinyBlob : Z := 249.
Definition TypeMediumBlob : Z := 250.
Definition TypeLongBlob : Z := 251.
Definition TypeBlob : Z := 252.
Definition TypeVarString : Z := 253.
Definition TypeString : Z := 254.
Definition TypeGeometry : Z := 255.

(** ** Row events: the numeric order is part of the contract *)
Inductive RowEventType : Type := DeleteRowEvent | UpdateRowEvent | InsertRowEvent.

Definition RowEventType_code (e : RowEventType) : Z :=
  match e with DeleteRowEvent => 0 | UpdateRowEvent => 1 | InsertRowEvent => 2 end.

Definition RowEventType_String (e : RowEventType) : string :=
  match e with DeleteRowEvent => "DELETE" | UpdateRowEvent => "UPDATE" | InsertRowEvent => "INSERT" end.

#[export] Instance RowEventType_eq_dec : EqDecision RowEventType.
Proof. solve_decision. Defined.

(** ** SQL types

    [qtype] are the values of [querypb.Type] the source names. *)
Inductive qtype : Type :=
| Q_NULL | Q_INT8 | Q_UINT8 | Q_INT16 | Q_UINT16 | Q_INT24 | Q_UINT24 | Q_INT32 | Q_UINT32
| Q_INT64 | Q_UINT64 | Q_FLOAT32 | Q_FLOAT64 | Q_TIMESTAMP | Q_DATE | Q_TIME | Q_DATETIME
| Q_YEAR | Q_DECIMAL | Q_TEXT | Q_BLOB | Q_VARCHAR | Q_VARBINARY | Q_CHAR | Q_BINARY | Q_BIT
| Q_ENUM | Q_SET | Q_JSON | Q_GEOMETRY | Q_other (code : Z).

#[export] Instance qtype_eq_dec : EqDecision qtype.
Proof. solve_decision. Defined.

(** [pgtype.Type]: its OID and, when its codec is an [ArrayCodec], the element type. *)
Inductive PgType : Type := mkPgType (oid : Z) (elem : option PgType).
Definition pg_oid (t : PgType) : Z := let 'mkPgType oid _ := t in oid.

Record PostgresType : Type := mkPostgresType {
  PG : PgType; Precision : Z; Scale : Z; Size : Z; Fallback : bool
}.

(** A [sql.Type] of a column: a MySQL type of go-mysql-server, or a
    [PostgresType].  The partial fields are the interfaces the source asserts
    ([sql.StringType], [sql.EnumType], [sql.SetType], [sql.DatetimeType],
    [sql.DecimalType]); [None] is a failed assertion. *)
Record MySQLType : Type := mkMySQLType {
  t_type : qtype;
  t_charset : option CharacterSetID;
  t_enum_at : option (Z -> option (list Z));
  t_set_bits : option (Z -> option (list Z));
  t_datetime_precision : option Z;
  t_decimal : option (Z * Z);
}.
Inductive SqlType : Type := TMySQL (t : MySQLType) | TPostgres (p : PostgresType).

Record Column : Type := mkColumn {
  col_name : string; col_type : SqlType; col_pk : bool
}.

(** [column.Type.Type()]; [PostgresType.Type] panics ("not implemented"). *)
Definition Type_of (t : SqlType) : outcome qtype :=
  match t with TMySQL m => Ret (t_type m) | TPostgres _ => Panic end.

Definition assert_some {A} (o : option A) : outcome A :=
  match o with Some a => Ret a | None => Panic end.
Definition as_mysql (t : SqlType) : outcome MySQLType :=
  match t with TMySQL m => Ret m | TPostgres _ => Panic end.
(** [t.(sql.StringType).CharacterSet()], [t.(sql.EnumType).At], [t.(sql.SetType).BitsToString]. *)
Definition CharacterSet_of (t : SqlType) : outcome CharacterSetID := m ← as_mysql t; assert_some (t_charset m).
Definition EnumAt_of (t : SqlType) : outcome (Z -> option (list Z)) := m ← as_mysql t; assert_some (t_enum_at m).
Definition SetBits_of (t : SqlType) : outcome (Z -> option (list Z)) := m ← as_mysql t; assert_some (t_set_bits m).

(** ** Arrow types and builders *)
Inductive TimeUnit : Type := Second | Millisecond | Microsecond | Nanosecond.

Inductive DataType : Type :=
| ABoolean | AInt8 | AUint8 | AInt16 | AUint16 | AInt32 | AUint32 | AInt64 | AUint64
| AFloat32 | AFloat64
| ATimestamp (unit : TimeUnit) (tz : string) | ADate32 | ATime64ns | ADuration (unit : TimeUnit)
| AString | ABinary | AFixedSizeBinary (width : Z)
| ADecimal128 (prec scale : Z) | ADecimal256 (prec scale : Z)
| AStruct (fields : list (string * DataType)) | AList (elem : DataType)
| ADictionary (index value : DataType).

(** The builder classes the source asserts. *)
Inductive BuilderClass : Type :=
| Int8Builder | Uint8Builder | Int16Builder | Uint16Builder | Int32Builder | Uint32Builder
| Int64Builder | Uint64Builder | Float32Builder | Float64Builder | TimestampBuilder
| Date32Builder | DurationBuilder | StringBuilder | BinaryBuilder
| Decimal128Builder | Decimal256Builder | BinaryDictionaryBuilder
| BooleanBuilder | Time64Builder | FixedSizeBinaryBuilder | ListBuilder | OtherBuilder.

#[export] Instance BuilderClass_eq_dec : EqDecision BuilderClass.
Proof. solve_decision. Defined.

(** The class of the builder [array.NewRecordBuilder] makes for a field type. *)
Definition builder_class (t : DataType) : BuilderClass :=
  match t with
  | AInt8 => Int8Builder | AUint8 => Uint8Builder | AInt16 => Int16Builder | AUint16 => Uint16Builder
  | AInt32 => Int32Builder | AUint32 => Uint32Builder | AInt64 => Int64Builder | AUint64 => Uint64Builder
  | AFloat32 => Float32Builder | AFloat64 => Float64Builder
  | ATimestamp _ _ => TimestampBuilder | ADate32 => Date32Builder | ADuration _ => DurationBuilder
  | AString => StringBuilder | ABinary => BinaryBuilder
  | ADecimal128 _ _ => Decimal128Builder | ADecimal256 _ _ => Decimal256Builder
  | ADictionary _ AString | ADictionary _ ABinary => BinaryDictionaryBuilder
  | ABoolean => BooleanBuilder | ATime64ns => Time64Builder | AFixedSizeBinary _ => FixedSizeBinaryBuilder
  | AList _ => ListBuilder
  | AStruct _ | ADictionary _ _ => OtherBuilder
  end.

(** The argument of one [Append] call; for a list builder, the element values
    appended since the call that opened the list. *)
Inductive cell (N128 N256 : Type) : Type :=
| CNull
| CInt (z : Z)
| CFloat32bits (bits : Z)
| CFloat64bits (bits : Z)
| CTime (t : GoTime)
| CDate32 (d : Z)
| CDuration (us : Z)
| CBytes (bs : list Z)
| CDecimal128 (n : N128)
| CDecimal256 (n : N256)
| CBool (b : bool)
| CTime64 (ns : Z)
| CList (elems : list (cell N128 N256)).
Arguments CNull {_ _}.
Arguments CInt {_ _} z.
Arguments CFloat32bits {_ _} bits.
Arguments CFloat64bits {_ _} bits.
Arguments CTime {_ _} t.
Arguments CDate32 {_ _} d.
Arguments CDuration {_ _} us.
Arguments CBytes {_ _} bs.
Arguments CDecimal128 {_ _} n.
Arguments CDecimal256 {_ _} n.
Arguments CBool {_ _} b.
Arguments CTime64 {_ _} ns.
Arguments CList {_ _} elems.

(** The functions of Apache Arrow the decoders call on values. *)
Class ArrowLib : Type := {
  num128 : Type;
  num256 : Type;
  decimal128_FromBigInt : Z -> outcome num128;
  decimal128_Negate : num128 -> num128;
  decimal256_FromBigInt : Z -> outcome num256;
  decimal256_Negate : num256 -> num256;
  Date32FromTime : GoTime -> Z;
}.

(** What the decoders rely on: [decimal128.FromBigInt] is exact below 2^127
    (it panics on a wider value) and [Negate] negates. *)
Class ArrowLaws `{ArrowLib} : Type := {
  value128 : num128 -> Z;
  decimal128_FromBigInt_exact : forall z, Z.abs z < 2 ^ 127 ->
    exists n, decimal128_FromBigInt z = Ret n /\ value128 n = z;
  decimal128_Negate_exact : forall n, Z.abs (value128 n) < 2 ^ 127 ->
    value128 (decimal128_Negate n) = - value128 n;
}.
(** The same of [decimal256], below 2^255. *)
Class ArrowLaws256 `{ArrowLib} : Type := {
  value256 : num256 -> Z;
  decimal256_FromBigInt_exact : forall z, Z.abs z < 2 ^ 255 ->
    exists n, decimal256_FromBigInt z = Ret n /\ value256 n = z;
  decimal256_Negate_exact : forall n, Z.abs (value256 n) < 2 ^ 255 ->
    value256 (decimal256_Negate n) = - value256 n;
}.

Section Builder.
Context `{ArrowLib}.

Record builder : Type := mkBuilder { b_type : DataType; b_cells : list (cell num128 num256) }.

Definition new_builder (t : DataType) : builder := mkBuilder t [].
Definition b_append (c : cell num128 num256) (b : builder) : builder :=
  mkBuilder (b_type b) (b_cells b ++ [c]).
Definition AppendNull (b : builder) : builder := b_append CNull b.

(** [Append] of [v] after the type assertion to the builder class [cl]. *)
Definition append_as (cl : BuilderClass) (c : cell num128 num256) (b : builder) : outcome builder :=
  if decide (builder_class (b_type b) = cl) then Ret (b_append c b) else Panic.

(** [builder.Type().(arrow.DecimalType).GetScale()]. *)
Definition decimal_scale (b : builder) : outcome Z :=
  match b_type b with ADecimal128 _ s | ADecimal256 _ s => Ret s | _ => Panic end.

Lemma append_as_spec cl c b b' :
  append_as cl c b = Ret b' <-> builder_class (b_type b) = cl /\ b' = b_append c b.
Proof. unfold append_as. case_decide; split; [intros [= <-]; auto | intros [_ ->]; auto | discriminate | tauto]. Qed.

Lemma append_as_ok cl c b : builder_class (b_type b) = cl -> append_as cl c b = Ret (b_append c b).
Proof. intros. apply append_as_spec. auto. Qed.
End Builder.
Arguments builder {_}.

(** ** Column types to Arrow types *)

(** OIDs of the built-in PostgreSQL types (pg_type.dat). *)
Definition BoolOID : Z := 16.
Definition ByteaOID : Z := 17.
Definition QCharOID : Z := 18.
Definition NameOID : Z := 19.
Definition Int8OID : Z := 20.
Definition Int2OID : Z := 21.
Definition Int4OID : Z := 23.
Definition TextOID : Z := 25.
Definition OIDOID : Z := 26.
Definition TIDOID : Z := 27.
Definition XIDOID : Z := 28.
Definition CIDOID : Z := 29.
Definition JSONOID : Z := 114.
Definition XMLOID : Z := 142.
Definition PointOID : Z := 600.
Definition Float4OID : Z := 700.
Definition Float8OID : Z := 701.
Definition UnknownOID : Z := 705.
Definition Macaddr8OID : Z := 774.
Definition MacaddrOID : Z := 829.
Definition BPCharOID : Z := 1042.
Definition VarcharOID : Z := 1043.
Definition DateOID : Z := 1082.
Definition TimeOID : Z := 1083.
Definition TimestampOID : Z := 1114.
Definition TimestamptzOID : Z := 1184.
Definition IntervalOID : Z := 1186.
Definition NumericArrayOID : Z := 1231.
Definition TimetzOID : Z := 1266.
Definition NumericOID : Z := 1700.
Definition UUIDOID : Z := 2950.
Definition JSONBOID : Z := 3802.

Definition postgresTypeSizes : list (Z * Z) :=
  [(BoolOID, 1); (NameOID, 64); (Int8OID, 8); (Int2OID, 2); (Int4OID, 4); (OIDOID, 4); (TIDOID, 6);
   (XIDOID, 4); (CIDOID, 4); (PointOID, 8); (Float4OID, 4); (Float8OID, 8); (UnknownOID, -2);
   (MacaddrOID, 6); (Macaddr8OID, 8); (DateOID, 4); (TimeOID, 8); (TimetzOID, 12);
   (TimestampOID, 8); (TimestamptzOID, 8); (IntervalOID, 16); (UUIDOID, 16)].

Definition PostgresTypeSize (oid : Z) : Z :=
  match list_find (fun p => fst p = oid) postgresTypeSizes with
  | Some (_, (_, s)) => s
  | None => -1
  end.

Definition DecodePrecisionScale (typmod : Z) : Z * Z * bool :=
  if 0 <? typmod then
    let typmod := typmod - 4 in
    (i32 (Z.land (Z.shiftr typmod 16) 0xFFFF), i32 (Z.land typmod 0xFFFF), true)
  else (0, 0, false).

(** [TypeForOID] is the registry's lookup. *)
Definition NewPostgresType (TypeForOID : Z -> option PgType) (oid modifier : Z) : option PostgresType :=
  match TypeForOID oid with
  | None => None
  | Some t =>
      let '(precision, scale) :=
        if (oid =? NumericOID) || (oid =? NumericArrayOID)
        then fst (DecodePrecisionScale modifier) else (0, 0) in
      Some (mkPostgresType t precision scale (PostgresTypeSize oid) false)
  end.

Fixpoint pgTypeToArrowType (pt : PgType) (precision scale : Z) : DataType :=
  let 'mkPgType oid elem := pt in
  if oid =? BoolOID then ABoolean
  else if oid =? QCharOID then AUint8
  else if oid =? ByteaOID then ABinary
  else if (oid =? NameOID) || (oid =? TextOID) || (oid =? VarcharOID) || (oid =? BPCharOID)
       || (oid =? JSONOID) || (oid =? JSONBOID) || (oid =? XMLOID) then AString
  else if oid =? Int8OID then AInt64
  else if oid =? Int2OID then AInt16
  else if oid =? Int4OID then AInt32
  else if oid =? OIDOID then AUint32
  else if oid =? TIDOID then AUint64
  else if oid =? Float4OID then AFloat32
  else if oid =? Float8OID then AFloat64
  else if oid =? DateOID then ADate32
  else if (oid =? TimeOID) || (oid =? TimetzOID) then ATime64ns
  else if oid =? TimestampOID then ATimestamp Microsecond ""
  else if oid =? TimestamptzOID then ATimestamp Microsecond "UTC"
  else if oid =? NumericOID then
    if (0 <? precision) && (0 <=? scale) then
      if precision <=? 38 then ADecimal128 precision scale else AString
    else AString
  else if oid =? UUIDOID then AString
  else if oid =? PointOID then AStruct [("x", AFloat64); ("y", AFloat64)]
  else match elem with
       | Some e => AList (pgTypeToArrowType e precision scale)
       | None => ABinary
       end.

Definition PostgresTypeToArrowType (p : PostgresType) : DataType :=
  pgTypeToArrowType (PG p) (Precision p) (Scale p).

(** The final [panic("unsupported data type")] and the failed assertions are [Panic]. *)
Definition toArrowType (t : SqlType) : outcome DataType :=
  match t with
  | TPostgres p => Ret (PostgresTypeToArrowType p)
  | TMySQL m =>
      match t_type m with
      | Q_UINT8 => Ret AUint8 | Q_INT8 => Ret AInt8
      | Q_UINT16 => Ret AUint16 | Q_INT16 => Ret AInt16
      | Q_UINT24 => Ret AUint32 | Q_INT24 => Ret AInt32
      | Q_UINT32 => Ret AUint32 | Q_INT32 => Ret AInt32
      | Q_UINT64 => Ret AUint64 | Q_INT64 => Ret AInt64
      | Q_FLOAT32 => Ret AFloat32 | Q_FLOAT64 => Ret AFloat64
      | Q_TIMESTAMP =>
          p ← assert_some (t_datetime_precision m);
          Ret (if p =? 0 then ATimestamp Second "UTC"
               else if (p =? 1) || (p =? 2) || (p =? 3) then ATimestamp Millisecond "UTC"
               else ATimestamp Microsecond "UTC")
      | Q_DATE => Ret ADate32
      | Q_TIME => Ret (ADuration Microsecond)
      | Q_DATETIME =>
          p ← assert_some (t_datetime_precision m);
          let unit := if p =? 0 then Second
                      else if (p =? 1) || (p =? 2) || (p =? 3) then Millisecond else Microsecond in
          Ret (ATimestamp unit "")
      | Q_YEAR => Ret AUint16
      | Q_DECIMAL =>
          '(prec, scale) ← assert_some (t_decimal m);
          if 38 <? prec then Ret (ADecimal256 prec scale) else Ret (ADecimal128 prec scale)
      | Q_TEXT => Ret AString | Q_BLOB => Ret ABinary
      | Q_VARCHAR => Ret AString | Q_VARBINARY => Ret ABinary
      | Q_CHAR => Ret AString | Q_BINARY => Ret ABinary
      | Q_BIT => Ret AUint64
      | Q_ENUM => Ret AString | Q_SET => Ret AString | Q_JSON => Ret AString
      | Q_GEOMETRY => Ret ABinary
      | Q_NULL | Q_other _ => Panic
      end
  end.

(** [ToArrowSchema]'s rewriting of the dictionary-encoded fields. *)
Definition dictionary_encode (fields : list DataType) (dictionary : list nat) : list DataType :=
  foldl (fun fs i => alter (fun t => ADictionary AUint32 t) i fs) fields dictionary.

Definition ToArrowSchema (types : list SqlType) (dictionary : list nat) : outcome (list DataType) :=
  fields ← foldr (fun t acc => at_ ← toArrowType t; l ← acc; Ret (at_ :: l)) (Ret []) types;
  Ret (dictionary_encode fields dictionary).

(** The numeric typmod packs precision and scale: what PostgreSQL stores for
    [numeric(p, s)] decodes to [p] and [s]. *)
Lemma DecodePrecisionScale_roundtrip p s :
  0 <= p < 2 ^ 15 -> 0 <= s < 2 ^ 15 -> 0 < p ->
  DecodePrecisionScale (p * 2 ^ 16 + s + 4) = (p, s, true).
Proof.
  intros Hp Hs H0. unfold DecodePrecisionScale.
  destruct (Z.ltb_spec 0 (p * 2 ^ 16 + s + 4)); [|lia].
  replace (p * 2 ^ 16 + s + 4 - 4) with (p * 2 ^ 16 + s) by lia.
  change 0xFFFF with (Z.ones 16). rewrite !Z.land_ones, Z.shiftr_div_pow2 by lia.
  rewrite Z.div_add_l, (Z.div_small s), Z.add_0_r, (Z.mod_small p) by lia.
  replace ((p * 2 ^ 16 + s) mod 2 ^ 16) with s
    by (rewrite Z.add_comm, Z.mod_add by lia; symmetry; apply Z.mod_small; lia).
  unfold i32. rewrite !signed_id by lia. reflexivity.
Qed.
