(* ===== verification/Rbr.v ===== *)
(** * Decoding of row-based binlog cells (src/binlog/rbr.go)

    [CellLength] and [CellValue]: the number of bytes a cell takes, and its
    decoding into an Arrow builder.  Each case of the two [switch]es of the
    source is a definition of its own.  Results are [outcome]s: a return with
    the length and the error, or a panic. *)

From S2P Require Import Prelude GoTime Charset Schema.

Inductive CellError : Type :=
| ErrBlobMetadata (metadata : Z)
| ErrGeometryMetadata (metadata : Z)
| ErrUnsupportedType (typ : Z)
| ErrBuilderType
| ErrFractionalDigits (got desired : Z)
| ErrEnumSize (size : Z)
| ErrEnumNotFound (idx : Z)
| ErrSetBits (bits : Z)
| ErrDecodeString (e : CharsetError).

Definition dig2bytes : list Z := [0; 1; 1; 2; 2; 3; 3; 4; 4; 4].
(** [dig2bytes[i]] on a Go slice: out of range panics. *)
Definition dig2bytes_at (i : Z) : outcome Z :=
  if (0 <=? i) then match dig2bytes !! Z.to_nat i with Some b => Ret b | None => Panic end else Panic.

Definition powerOf10s : list Z :=
  [1; 10; 100; 1000; 10000; 100000; 1000000; 10000000; 100000000; 1000000000;
   10000000000; 100000000000; 1000000000000; 10000000000000; 100000000000000;
   1000000000000000; 10000000000000000; 100000000000000000; 1000000000000000000;
   10000000000000000000].
Definition powerOf10s_at (i : Z) : outcome Z :=
  if (0 <=? i) then match powerOf10s !! Z.to_nat i with Some b => Ret b | None => Panic end else Panic.

(** ** Little- and big-endian reads written out with shifts *)
Definition le2 (data : slice) (pos : Z) : outcome Z :=
  b0 ← index data pos; b1 ← index data (pos + 1);
  Ret (Z.lor b0 (Z.shiftl b1 8)).
Definition le3 (data : slice) (pos : Z) : outcome Z :=
  b0 ← index data pos; b1 ← index data (pos + 1); b2 ← index data (pos + 2);
  Ret (Z.lor (Z.lor b0 (Z.shiftl b1 8)) (Z.shiftl b2 16)).
Definition le4 (data : slice) (pos : Z) : outcome Z :=
  b0 ← index data pos; b1 ← index data (pos + 1); b2 ← index data (pos + 2); b3 ← index data (pos + 3);
  Ret (u32 (Z.lor (Z.lor (Z.lor b0 (Z.shiftl b1 8)) (Z.shiftl b2 16)) (Z.shiftl b3 24))).
Definition be2 (data : slice) (pos : Z) : outcome Z :=
  b0 ← index data pos; b1 ← index data (pos + 1);
  Ret (Z.shiftl b0 8 + b1).
Definition be3 (data : slice) (pos : Z) : outcome Z :=
  b0 ← index data pos; b1 ← index data (pos + 1); b2 ← index data (pos + 2);
  Ret (Z.shiftl b0 16 + Z.shiftl b1 8 + b2).

(** The three-byte value of MEDIUMINT, DATE and TIME, by addition. *)
Definition sum3 (data : slice) (pos : Z) : outcome Z :=
  b0 ← index data pos; b1 ← index data (pos + 1); b2 ← index data (pos + 2);
  Ret (b0 + Z.shiftl b1 8 + Z.shiftl b2 16).
(** The same with the sign extended: [int32(... + uint32(255)<<24)]. *)
Definition sum3_neg (data : slice) (pos : Z) : outcome Z :=
  v ← sum3 data pos; Ret (i32 (u32 (v + u32 (Z.shiftl 255 24)))).

(** The length prefix of a blob: [metadata] is the number of its bytes. *)
Definition blob_length (data : slice) (pos metadata : Z) : outcome (option Z) :=
  if metadata =? 1 then l ← index data pos; Ret (Some l)
  else if metadata =? 2 then l ← le2 data pos; Ret (Some l)
  else if metadata =? 3 then l ← le3 data pos; Ret (Some l)
  else if metadata =? 4 then l ← le4 data pos; Ret (Some l)
  else Ret None.

(** Bytes of a DECIMAL with [metadata] = precision * 256 + scale. *)
Definition decimal_length (metadata : Z) : outcome Z :=
  let precision := Z.shiftr metadata 8 in
  let scale := Z.land metadata 255 in
  let intg := precision - scale in
  let intg0 := Z.quot intg 9 in
  let frac0 := Z.quot scale 9 in
  let intg0x := intg - intg0 * 9 in
  let frac0x := scale - frac0 * 9 in
  di ← dig2bytes_at intg0x;
  df ← dig2bytes_at frac0x;
  Ret (intg0 * 4 + di + frac0 * 4 + df).

(** [nbits := ((metadata >> 8) * 8) + (metadata & 0xFF)] on [uint16]. *)
Definition bit_length (metadata : Z) : Z :=
  let nbits := u16 (u16 (Z.shiftr metadata 8 * 8) + Z.land metadata 255) in
  Z.quot (nbits + 7) 8.

(** The maximal length packed in the metadata of a STRING column. *)
Definition string_max (metadata : Z) : Z :=
  u16 (Z.lxor (Z.land (Z.shiftr metadata 4) 0x300) 0x300 + Z.land metadata 255).

Definition CellLength (data : slice) (pos typ metadata : Z) : outcome (Z * option CellError) :=
  if typ =? TypeNull then Ret (0, None)
  else if (typ =? TypeTiny) || (typ =? TypeYear) then Ret (1, None)
  else if typ =? TypeShort then Ret (2, None)
  else if typ =? TypeInt24 then Ret (3, None)
  else if (typ =? TypeLong) || (typ =? TypeFloat) || (typ =? TypeTimestamp) then Ret (4, None)
  else if (typ =? TypeLongLong) || (typ =? TypeDouble) then Ret (8, None)
  else if (typ =? TypeDate) || (typ =? TypeTime) || (typ =? TypeNewDate) then Ret (3, None)
  else if typ =? TypeDateTime then Ret (8, None)
  else if (typ =? TypeVarchar) || (typ =? TypeVarString) then
    if 255 <? metadata then l ← le2 data pos; Ret (l + 2, None)
    else l ← index data pos; Ret (l + 1, None)
  else if typ =? TypeBit then Ret (bit_length metadata, None)
  else if typ =? TypeTimestamp2 then Ret (4 + Z.quot (metadata + 1) 2, None)
  else if typ =? TypeDateTime2 then Ret (5 + Z.quot (metadata + 1) 2, None)
  else if typ =? TypeTime2 then Ret (3 + Z.quot (metadata + 1) 2, None)
  else if typ =? TypeNewDecimal then l ← decimal_length metadata; Ret (l, None)
  else if (typ =? TypeEnum) || (typ =? TypeSet) then Ret (Z.land metadata 255, None)
  else if (typ =? TypeJSON) || (typ =? TypeTinyBlob) || (typ =? TypeMediumBlob) || (typ =? TypeLongBlob)
       || (typ =? TypeBlob) || (typ =? TypeGeometry) || (typ =? TypeVector) then
    l ← blob_length data pos metadata;
    match l with
    | Some l => Ret (metadata + l, None)
    | None => Ret (0, Some (ErrBlobMetadata metadata))
    end
  else if typ =? TypeString then
    let t := Z.shiftr metadata 8 in
    if (t =? TypeEnum) || (t =? TypeSet) then Ret (Z.land metadata 255, None)
    else if 255 <? string_max metadata then l ← le2 data pos; Ret (l + 2, None)
    else l ← index data pos; Ret (l + 1, None)
  else Ret (0, Some (ErrUnsupportedType typ)).

(** ** Third-party functions of the decoder

    [IsSigned] and [IsBinary] of vitess/sqltypes, and the JSON parsers of
    vitess; [None] is a parse error, on which the source panics. *)
Class VitessLib : Type := {
  IsSigned : qtype -> bool;
  IsBinary : qtype -> bool;
  ParseBinaryJSON_Marshal : list Z -> option (list Z);
  ParseJSON_Marshal : list Z -> option (list Z);
}.

Section CellValue.
Context `{ArrowLib} `{Codecs} `{VitessLib}.

(** What [CellValue] leaves behind: the builder, the length and the error. *)
Definition cell_result : Type := builder * Z * option CellError.
Definition done (n : Z) (b : builder) : outcome cell_result := Ret (b, n, None).
Definition fail (n : Z) (e : CellError) (b : builder) : outcome cell_result := Ret (b, n, Some e).

Definition cell_Tiny (data : slice) (pos : Z) (ftype : qtype) (b : builder) : outcome cell_result :=
  v ← index data pos;
  b' ← (if IsSigned ftype then append_as Int8Builder (CInt (i8 v)) b
        else append_as Uint8Builder (CInt v) b);
  done 1 b'.

Definition cell_Year (data : slice) (pos : Z) (b : builder) : outcome cell_result :=
  val ← index data pos;
  b' ← (if val =? 0 then append_as Uint16Builder (CInt 0) b
        else append_as Uint16Builder (CInt (u16 (val + 1900))) b);
  done 1 b'.

Definition cell_Short (data : slice) (pos : Z) (ftype : qtype) (b : builder) : outcome cell_result :=
  s ← subslice data pos (pos + 2);
  val ← LittleEndian_Uint16 s;
  b' ← (if IsSigned ftype then append_as Int16Builder (CInt (i16 val)) b
        else append_as Uint16Builder (CInt val) b);
  done 2 b'.

(** The sign bit is read only for a signed column, as [&&] short-circuits. *)
Definition cell_Int24 (data : slice) (pos : Z) (ftype : qtype) (b : builder) : outcome cell_result :=
  negative ← (if IsSigned ftype then b2 ← index data (pos + 2); Ret (0 <? Z.land b2 128) else Ret false);
  if negative : bool then
    val ← sum3_neg data pos;
    b' ← append_as Int32Builder (CInt val) b;
    done 3 b'
  else
    val ← sum3 data pos;
    match builder_class (b_type b) with
    | Int32Builder => done 3 (b_append (CInt (i32 val)) b)
    | Uint32Builder => done 3 (b_append (CInt (u32 val)) b)
    | _ => fail 0 ErrBuilderType b
    end.

Definition cell_Long (data : slice) (pos : Z) (ftype : qtype) (b : builder) : outcome cell_result :=
  s ← subslice data pos (pos + 4);
  val ← LittleEndian_Uint32 s;
  b' ← (if IsSigned ftype then append_as Int32Builder (CInt (i32 val)) b
        else append_as Uint32Builder (CInt val) b);
  done 4 b'.

Definition cell_Float (data : slice) (pos : Z) (b : builder) : outcome cell_result :=
  s ← subslice data pos (pos + 4);
  val ← LittleEndian_Uint32 s;
  b' ← append_as Float32Builder (CFloat32bits val) b;
  done 4 b'.

Definition cell_Double (data : slice) (pos : Z) (b : builder) : outcome cell_result :=
  s ← subslice data pos (pos + 8);
  val ← LittleEndian_Uint64 s;
  b' ← append_as Float64Builder (CFloat64bits val) b;
  done 8 b'.

Definition cell_Timestamp (data : slice) (pos : Z) (b : builder) : outcome cell_result :=
  s ← subslice data pos (pos + 4);
  val ← LittleEndian_Uint32 s;
  b' ← append_as TimestampBuilder (CTime (time_Unix val 0)) b;
  done 4 b'.

Definition cell_LongLong (data : slice) (pos : Z) (ftype : qtype) (b : builder) : outcome cell_result :=
  s ← subslice data pos (pos + 8);
  val ← LittleEndian_Uint64 s;
  b' ← (if IsSigned ftype then append_as Int64Builder (CInt (i64 val)) b
        else append_as Uint64Builder (CInt val) b);
  done 8 b'.

Definition cell_Date (data : slice) (pos : Z) (b : builder) : outcome cell_result :=
  val ← sum3 data pos;
  let day := Z.land val 31 in
  let month := Z.land (Z.shiftr val 5) 15 in
  let year := Z.shiftr val 9 in
  let t := time_Date year month day 0 0 0 0 in
  b' ← append_as Date32Builder (CDate32 (Date32FromTime t)) b;
  done 3 b'.

(** [hour], [minute], [second] are [int32]; division truncates. *)
Definition cell_Time (data : slice) (pos : Z) (b : builder) : outcome cell_result :=
  b2 ← index data (pos + 2);
  '(hour, minute, second) ←
    (if 0 <? Z.land b2 128 then
       val ← sum3_neg data pos;
       Ret (Z.quot val 10000, i32 (- Z.quot (Z.rem val 10000) 100), i32 (- Z.rem val 100))
     else
       val ← sum3 data pos;
       Ret (Z.quot val 10000, Z.quot (Z.rem val 10000) 100, Z.rem val 100));
  let duration := i64 (i32 (i32 (hour * 3600) + i32 (minute * 60) + second) * time_Second) in
  b' ← append_as DurationBuilder (CDuration (Duration_Microseconds duration)) b;
  done 3 b'.

Definition cell_DateTime (data : slice) (pos : Z) (b : builder) : outcome cell_result :=
  s ← subslice data pos (pos + 8);
  val ← LittleEndian_Uint64 s;
  let d := val / 1000000 in
  let t := val mod 1000000 in
  let year := d / 10000 in
  let month := (d mod 10000) / 100 in
  let day := d mod 100 in
  let hour := t / 10000 in
  let minute := (t mod 10000) / 100 in
  let second := t mod 100 in
  b' ← append_as TimestampBuilder (CTime (time_Date year month day hour minute second 0)) b;
  done 8 b'.

(** Appending text decoded from the character set of the column. *)
Definition append_text (ctype : SqlType) (src : list Z) (n : Z) (b : builder) : outcome cell_result :=
  cs ← CharacterSet_of ctype;
  match DecodeBytes cs src with
  | (_, Some e) => fail n (ErrDecodeString e) b
  | (utf8str, None) => b' ← append_as StringBuilder (CBytes utf8str) b; done n b'
  end.

Definition cell_Varchar (data : slice) (pos metadata : Z) (ctype : SqlType) (ftype : qtype) (b : builder)
  : outcome cell_result :=
  let typeToUse :=
    if decide (ftype = Q_VARBINARY \/ ftype = Q_BINARY \/ ftype = Q_BLOB) then ftype else Q_VARCHAR in
  '(size, src) ←
    (if 255 <? metadata then
       l ← le2 data pos; src ← subslice data (pos + 2) (pos + 2 + l); Ret (l + 2, src)
     else
       l ← index data pos; src ← subslice data (pos + 1) (pos + 1 + l); Ret (l + 1, src));
  if decide (typeToUse = Q_VARCHAR) then append_text ctype (bytes_of src) size b
  else b' ← append_as BinaryBuilder (CBytes (bytes_of src)) b; done size b'.

(** [copy(buf[8-l:], data[pos:pos+l])]: a field longer than 8 bytes panics. *)
Definition cell_Bit (data : slice) (pos metadata : Z) (b : builder) : outcome cell_result :=
  let l := bit_length metadata in
  if 8 <? l then Panic else
  s ← subslice data pos (pos + l);
  let buf := replicate (Z.to_nat (8 - l)) 0 ++ bytes_of s in
  b' ← append_as Uint64Builder (CInt (be_nat buf)) b;
  done l b'.

(** The fractional part of TIMESTAMP2 and DATETIME2: [metadata] decimals from
    [pos] on, as the number of units, the unit in microseconds, and the bytes. *)
Definition frac_part (data : slice) (pos metadata : Z) : outcome (Z * Z * Z) :=
  if metadata =? 1 then d ← index data pos; Ret (Z.quot d 10, 100000, 1)
  else if metadata =? 2 then d ← index data pos; Ret (d, 10000, 1)
  else if metadata =? 3 then d ← be2 data pos; Ret (Z.quot d 10, 1000, 2)
  else if metadata =? 4 then d ← be2 data pos; Ret (d, 100, 2)
  else if metadata =? 5 then d ← be3 data pos; Ret (Z.quot d 10, 10, 3)
  else if metadata =? 6 then d ← be3 data pos; Ret (d, 1, 3)
  else Ret (0, 0, 0).

Definition cell_Timestamp2 (data : slice) (pos metadata : Z) (b : builder) : outcome cell_result :=
  s ← subslice data pos (pos + 4);
  second ← BigEndian_Uint32 s;
  '(frac, mul, n) ← frac_part data (pos + 4) metadata;
  let frac := frac * mul in
  b' ← append_as TimestampBuilder (CTime (time_Unix second (frac * 1000))) b;
  done (4 + n) b'.

Definition cell_DateTime2 (data : slice) (pos metadata : Z) (b : builder) : outcome cell_result :=
  b0 ← index data pos; b1 ← index data (pos + 1); b2 ← index data (pos + 2);
  b3 ← index data (pos + 3); b4 ← index data (pos + 4);
  let ymdhms := u64 (Z.lor (Z.lor (Z.lor (Z.lor (Z.shiftl b0 32) (Z.shiftl b1 24)) (Z.shiftl b2 16))
                                  (Z.shiftl b3 8)) b4 - 0x8000000000) in
  let ymd := Z.shiftr ymdhms 17 in
  let ym := Z.shiftr ymd 5 in
  let hms := ymdhms mod 2 ^ 17 in
  let day := ymd mod 2 ^ 5 in
  let month := ym mod 13 in
  let year := ym / 13 in
  let second := hms mod 2 ^ 6 in
  let minute := Z.shiftr hms 6 mod 2 ^ 6 in
  let hour := Z.shiftr hms 12 in
  '(frac, mul, n) ← frac_part data (pos + 5) metadata;
  let frac := frac * mul in
  b' ← append_as TimestampBuilder (CTime (time_Date year month day hour minute second (frac * 1000))) b;
  done (5 + n) b'.

(** One [case] of the fractional part of TIME2: a negative value with a
    non-zero fraction is stored in complement, borrowing one second. *)
Definition time2_frac (sign hms frac modulus : Z) : Z * Z :=
  if (sign =? -1) && negb (frac =? 0) then (hms - 1, modulus - frac) else (hms, frac).

Definition time2_be2 (data : slice) (pos : Z) : outcome Z :=
  b0 ← index data pos; b1 ← index data (pos + 1); Ret (Z.lor (Z.shiftl b0 8) b1).
Definition time2_be3 (data : slice) (pos : Z) : outcome Z :=
  b0 ← index data pos; b1 ← index data (pos + 1); b2 ← index data (pos + 2);
  Ret (Z.lor (Z.lor (Z.shiftl b0 16) (Z.shiftl b1 8)) b2).

(** The switch of TIME2: the seconds after the borrow, the units and the unit. *)
Definition time2_switch (data : slice) (pos metadata sign hms : Z) : outcome (Z * Z * Z) :=
  if metadata =? 1 then
    f ← index data (pos + 3); let '(hms, frac) := time2_frac sign hms f 0x100 in
    Ret (hms, Z.quot frac 10, 100000)
  else if metadata =? 2 then
    f ← index data (pos + 3); let '(hms, frac) := time2_frac sign hms f 0x100 in
    Ret (hms, frac, 10000)
  else if metadata =? 3 then
    f ← time2_be2 data (pos + 3); let '(hms, frac) := time2_frac sign hms f 0x10000 in
    Ret (hms, Z.quot frac 10, 1000)
  else if metadata =? 4 then
    f ← time2_be2 data (pos + 3); let '(hms, frac) := time2_frac sign hms f 0x10000 in
    Ret (hms, frac, 100)
  else if metadata =? 5 then
    f ← time2_be3 data (pos + 3); let '(hms, frac) := time2_frac sign hms f 0x1000000 in
    Ret (hms, Z.quot frac 10, 10)
  else if metadata =? 6 then
    f ← time2_be3 data (pos + 3); let '(hms, frac) := time2_frac sign hms f 0x1000000 in
    Ret (hms, frac, 1)
  else Ret (hms, 0, 0).

Definition cell_Time2 (data : slice) (pos metadata : Z) (b : builder) : outcome cell_result :=
  v ← time2_be3 data pos;
  let hms := v - 0x800000 in
  let '(hms, sign) := if hms <? 0 then (- hms, -1) else (hms, 1) in
  '(hms, frac, mul) ← time2_switch data pos metadata sign hms;
  let frac := frac * mul in
  let hour := Z.rem (Z.shiftr hms 12) (2 ^ 10) in
  let minute := Z.rem (Z.shiftr hms 6) (2 ^ 6) in
  let second := Z.rem hms (2 ^ 6) in
  let duration := i64 (i64 ((hour * 3600 + minute * 60 + second) * time_Second)
                       + i64 (frac * time_Microsecond)) in
  let micros := i64 (sign * Duration_Microseconds duration) in
  b' ← append_as DurationBuilder (CDuration micros) b;
  done (3 + Z.quot (metadata + 1) 2) b'.

(** ** NEWDECIMAL *)

(** [n] big-endian bytes of the local buffer [d] from [pos] on. *)
Definition be_at (d : list Z) (pos n : Z) : outcome Z :=
  if (0 <=? pos) && (0 <=? n) && (pos + n <=? Z.of_nat (length d)) then
    Ret (be_nat (take (Z.to_nat n) (drop (Z.to_nat pos) d)))
  else Panic.

(** The loops over full groups: 4 bytes hold 9 digits. *)
Fixpoint digits_loop (n : nat) (d : list Z) (pos coeff : Z) : outcome (Z * Z) :=
  match n with
  | O => Ret (pos, coeff)
  | S n' =>
      val ← be_at d pos 4;
      digits_loop n' d (pos + 4) (coeff * 1000000000 + val)
  end.

(** The partial fractional digits: [frac0x] of them, in [dig2bytes[frac0x]] bytes. *)
Definition partial_frac (d : list Z) (pos frac0x coeff : Z) : outcome Z :=
  n ← dig2bytes_at frac0x;
  if n =? 0 then Ret coeff
  else if n =? 1 then
    val ← be_at d pos 1; Ret (coeff * (if frac0x =? 1 then 10 else 100) + val)
  else if n =? 2 then
    val ← be_at d pos 2; Ret (coeff * (if frac0x =? 3 then 1000 else 10000) + val)
  else if n =? 3 then
    val ← be_at d pos 3; Ret (coeff * (if frac0x =? 5 then 100000 else 1000000) + val)
  else
    val ← be_at d pos 4; Ret (coeff * (if frac0x =? 7 then 10000000 else 100000000) + val).

(** [for fp+19 < desired { coeff *= 10^19; fp += 19 }]. *)
Fixpoint pad_loop (fuel : nat) (coeff fp desired : Z) : Z * Z :=
  match fuel with
  | O => (coeff, fp)
  | S fuel' =>
      if fp + 19 <? desired then pad_loop fuel' (coeff * 10000000000000000000) (fp + 19) desired
      else (coeff, fp)
  end.

Definition pad_digits (coeff fp desired : Z) : outcome (Z + CellError) :=
  if fp <? desired then
    let '(coeff, fp) := pad_loop (Z.to_nat desired) coeff fp desired in
    p ← powerOf10s_at (desired - fp);
    Ret (inl (coeff * p))
  else if desired <? fp then Ret (inr (ErrFractionalDigits fp desired))
  else Ret (inl coeff).

(** The [switch] on the builder that appends the decimal. *)
Definition append_decimal (isNegative : bool) (coeff l : Z) (b : builder) : outcome cell_result :=
  match builder_class (b_type b) with
  | Decimal128Builder =>
      num ← decimal128_FromBigInt coeff;
      done l (b_append (CDecimal128 (if isNegative then decimal128_Negate num else num)) b)
  | Decimal256Builder =>
      num ← decimal256_FromBigInt coeff;
      done l (b_append (CDecimal256 (if isNegative then decimal256_Negate num else num)) b)
  | _ => fail l ErrBuilderType b
  end.

(** The local copy of the cell with the sign undone: the first bit is
    inverted, and every byte of a negative number. *)
Definition decimal_unsign (d : list Z) : outcome (bool * list Z) :=
  match d with
  | [] => Panic
  | d0 :: d' =>
      let isNegative := Z.land d0 128 =? 0 in
      let d := Z.lxor d0 128 :: d' in
      Ret (isNegative, if isNegative then map (fun x => Z.lxor x 255) d else d)
  end.

Definition cell_NewDecimal (data : slice) (pos metadata : Z) (b : builder) : outcome cell_result :=
  let precision := Z.shiftr metadata 8 in
  let scale := Z.land metadata 255 in
  let intg := precision - scale in
  let intg0 := Z.quot intg 9 in
  let intg0x := intg - intg0 * 9 in
  let frac0 := Z.quot scale 9 in
  let frac0x := scale - frac0 * 9 in
  di ← dig2bytes_at intg0x;
  df ← dig2bytes_at frac0x;
  let l := intg0 * 4 + di + frac0 * 4 + df in
  if 40 <? l then Panic else (* make([]byte, l, 40) *)
  s ← subslice data pos (pos + l);
  '(isNegative, d) ← decimal_unsign (bytes_of s);
  val ← be_at d 0 di;
  '(pos, coeff) ← digits_loop (Z.to_nat intg0) d di val;
  if scale =? 0 then append_decimal isNegative coeff l b
  else
    '(pos, coeff) ← digits_loop (Z.to_nat frac0) d pos coeff;
    coeff ← partial_frac d pos frac0x coeff;
    let fp := 9 * frac0 + frac0x in
    desired ← decimal_scale b;
    r ← pad_digits coeff fp desired;
    match r with
    | inr e => fail l e b
    | inl coeff => append_decimal isNegative coeff l b
    end.

(** ** ENUM and SET *)
Definition cell_Enum (data : slice) (pos metadata : Z) (ctype : SqlType) (b : builder) : outcome cell_result :=
  let l := Z.land metadata 255 in
  if (l =? 1) || (l =? 2) then
    idx ← (if l =? 1 then index data pos else s ← subslice data pos (pos + 2); LittleEndian_Uint16 s);
    at_ ← EnumAt_of ctype;
    match at_ idx with
    | None => fail l (ErrEnumNotFound idx) b
    | Some val => b' ← append_as StringBuilder (CBytes val) b; done l b'
    end
  else fail 0 (ErrEnumSize l) b.

(** [for i := range l { val += uint64(data[pos+i]) << (uint(i) * 8) }] *)
Fixpoint set_bits (n : nat) (data : slice) (pos : Z) (i val : Z) : outcome Z :=
  match n with
  | O => Ret val
  | S n' =>
      v ← index data (pos + i);
      set_bits n' data pos (i + 1) (u64 (val + u64 (Z.shiftl v (i * 8))))
  end.

Definition cell_Set (data : slice) (pos metadata : Z) (ctype : SqlType) (b : builder) : outcome cell_result :=
  let l := Z.land metadata 255 in
  val ← set_bits (Z.to_nat l) data pos 0 0;
  bits ← SetBits_of ctype;
  match bits val with
  | None => fail l (ErrSetBits val) b
  | Some s => b' ← append_as StringBuilder (CBytes s) b; done l b'
  end.

(** ** BLOB, JSON, GEOMETRY, STRING *)
Definition cell_Blob (data : slice) (pos typ metadata : Z) (ctype : SqlType) (ftype : qtype) (b : builder)
  : outcome cell_result :=
  l ← blob_length data pos metadata;
  match l with
  | None => fail 0 (ErrBlobMetadata metadata) b
  | Some l =>
      let pos := pos + metadata in
      let n := l + metadata in
      if typ =? TypeJSON then
        s ← subslice data pos (pos + l);
        d ← assert_some (ParseBinaryJSON_Marshal (bytes_of s));
        b' ← append_as StringBuilder (CBytes d) b; done n b'
      else if decide (ftype = Q_JSON) then
        s ← subslice data pos (pos + l);
        d ← assert_some (ParseJSON_Marshal (bytes_of s));
        b' ← append_as StringBuilder (CBytes d) b; done n b'
      else match builder_class (b_type b) with
        | BinaryBuilder =>
            s ← subslice data pos (pos + l);
            done n (b_append (CBytes (bytes_of s)) b)
        | StringBuilder =>
            cs ← CharacterSet_of ctype;
            s ← subslice data pos (pos + l);
            match DecodeBytes cs (bytes_of s) with
            | (_, Some e) => fail l (ErrDecodeString e) b
            | (utf8str, None) => done n (b_append (CBytes utf8str) b)
            end
        | _ => fail 0 ErrBuilderType b
        end
  end.

(** Right padding of fixed-length BINARY values with nulls. *)
Definition pad_binary (max : Z) (mdata : list Z) : list Z :=
  mdata ++ replicate (Z.to_nat max - length mdata) 0.

Definition cell_String (data : slice) (pos metadata : Z) (ctype : SqlType) (ftype : qtype) (b : builder)
  : outcome cell_result :=
  let t := Z.shiftr metadata 8 in
  if t =? TypeEnum then cell_Enum data pos metadata ctype b
  else if t =? TypeSet then cell_Set data pos metadata ctype b
  else
    let max := string_max metadata in
    if 255 <? max then
      l ← le2 data pos;
      s ← subslice data (pos + 2) (pos + 2 + l);
      append_text ctype (bytes_of s) (l + 2) b
    else
      l ← index data pos;
      s ← subslice data (pos + 1) (pos + 1 + l);
      let mdata := bytes_of s in
      if IsBinary ftype then
        let mdata := if (l <? max) && bool_decide (ftype = Q_BINARY) then pad_binary max mdata else mdata in
        if decide (builder_class (b_type b) = BinaryBuilder) then
          done (l + 1) (b_append (CBytes mdata) b)
        else append_text ctype mdata (l + 1) b
      else append_text ctype mdata (l + 1) b.

Definition cell_Geometry (data : slice) (pos metadata : Z) (b : builder) : outcome cell_result :=
  l ← blob_length data pos metadata;
  match l with
  | None => fail 0 (ErrGeometryMetadata metadata) b
  | Some l =>
      let pos := pos + metadata in
      s ← subslice data pos (pos + l);
      b' ← append_as BinaryBuilder (CBytes (bytes_of s)) b;
      done (l + metadata) b'
  end.

(** ** The dispatch of [CellValue] *)
Definition CellValue (data : slice) (pos typ metadata : Z) (column : Column) (b : builder)
  : outcome cell_result :=
  let ctype := col_type column in
  ftype ← Type_of ctype;
  if typ =? TypeTiny then cell_Tiny data pos ftype b
  else if typ =? TypeYear then cell_Year data pos b
  else if typ =? TypeShort then cell_Short data pos ftype b
  else if typ =? TypeInt24 then cell_Int24 data pos ftype b
  else if typ =? TypeLong then cell_Long data pos ftype b
  else if typ =? TypeFloat then cell_Float data pos b
  else if typ =? TypeDouble then cell_Double data pos b
  else if typ =? TypeTimestamp then cell_Timestamp data pos b
  else if typ =? TypeLongLong then cell_LongLong data pos ftype b
  else if (typ =? TypeDate) || (typ =? TypeNewDate) then cell_Date data pos b
  else if typ =? TypeTime then cell_Time data pos b
  else if typ =? TypeDateTime then cell_DateTime data pos b
  else if (typ =? TypeVarchar) || (typ =? TypeVarString) then cell_Varchar data pos metadata ctype ftype b
  else if typ =? TypeBit then cell_Bit data pos metadata b
  else if typ =? TypeTimestamp2 then cell_Timestamp2 data pos metadata b
  else if typ =? TypeDateTime2 then cell_DateTime2 data pos metadata b
  else if typ =? TypeTime2 then cell_Time2 data pos metadata b
  else if typ =? TypeNewDecimal then cell_NewDecimal data pos metadata b
  else if typ =? TypeEnum then cell_Enum data pos metadata ctype b
  else if typ =? TypeSet then cell_Set data pos metadata ctype b
  else if (typ =? TypeJSON) || (typ =? TypeTinyBlob) || (typ =? TypeMediumBlob) || (typ =? TypeLongBlob)
       || (typ =? TypeBlob) || (typ =? TypeVector) then cell_Blob data pos typ metadata ctype ftype b
  else if typ =? TypeString then cell_String data pos metadata ctype ftype b
  else if typ =? TypeGeometry then cell_Geometry data pos metadata b
  else fail 0 (ErrUnsupportedType typ) b.
End CellValue.
