(* ===== verification/RbrFacts.v ===== *)
(** * Properties of the cell decoders *)

From S2P Require Import Prelude GoTime Charset Schema Rbr.

Section Facts.
Context `{ArrowLib} `{Codecs} `{VitessLib}.

(** What a decoder may do to the builder: one value appended on success, and
    nothing on an error. *)
Definition appends (b : builder) (r : cell_result) : Prop :=
  let '(b', _, e) := r in
  match e with
  | None => exists c, b' = b_append c b
  | Some _ => b' = b
  end.

Lemma append_as_appends cl c b b' n : append_as cl c b = Ret b' -> appends b (b', n, None).
Proof. intros [_ ->]%append_as_spec. simpl. eauto. Qed.

Ltac solve_appends :=
  repeat intro; unfold append_text, append_decimal, done, fail in *; go_inv;
  first [ eapply append_as_appends; eassumption | simpl; eauto ].

Lemma cell_Enum_appends data pos md ct b r : cell_Enum data pos md ct b = Ret r -> appends b r.
Proof. unfold cell_Enum. solve_appends. Qed.

Lemma cell_Set_appends data pos md ct b r : cell_Set data pos md ct b = Ret r -> appends b r.
Proof. unfold cell_Set. solve_appends. Qed.

Lemma append_decimal_appends neg coeff l b r : append_decimal neg coeff l b = Ret r -> appends b r.
Proof. unfold append_decimal. solve_appends. Qed.

Lemma cell_NewDecimal_appends data pos md b r : cell_NewDecimal data pos md b = Ret r -> appends b r.
Proof.
  unfold cell_NewDecimal. intros. go_inv; try (eapply append_decimal_appends; eassumption).
  unfold fail in *. go_inv. reflexivity.
Qed.

Lemma cell_String_appends data pos md ct ft b r : cell_String data pos md ct ft b = Ret r -> appends b r.
Proof.
  unfold cell_String. destruct (_ =? TypeEnum); [apply cell_Enum_appends|].
  destruct (_ =? TypeSet); [apply cell_Set_appends|]. solve_appends.
Qed.

Lemma CellValue_appends data pos typ md col b r :
  CellValue data pos typ md col b = Ret r -> appends b r.
Proof.
  unfold CellValue. intros Hc. apply bind_Ret_inv in Hc. destruct Hc as (ft & _ & Hc).
  repeat match type of Hc with
  | (if ?c then _ else _) = _ => destruct c; [| revert Hc; intros Hc]
  end;
  first [ eapply cell_NewDecimal_appends; eassumption
        | eapply cell_Enum_appends; eassumption
        | eapply cell_Set_appends; eassumption
        | eapply cell_String_appends; eassumption
        | revert Hc;
          unfold cell_Tiny, cell_Year, cell_Short, cell_Int24, cell_Long, cell_Float, cell_Double,
            cell_Timestamp, cell_LongLong, cell_Date, cell_Time, cell_DateTime, cell_Varchar, cell_Bit,
            cell_Timestamp2, cell_DateTime2, cell_Time2, cell_Blob, cell_Geometry; solve_appends ].
Qed.

(** ** Length agreement *)

(** The decimals a fractional-seconds column can have (MySQL: 0 to 6). *)
Definition fsp_ok (typ metadata : Z) : Prop :=
  typ = TypeTimestamp2 \/ typ = TypeDateTime2 -> 0 <= metadata <= 6.

(** [cell_len k m r]: a successful [r] has length [m]. *)
Definition has_length (n : outcome Z) (r : cell_result) : Prop :=
  let '(_, k, e) := r in e = None -> n = Ret k.

Lemma frac_part_length data pos md f m n :
  0 <= md <= 6 -> frac_part data pos md = Ret (f, m, n) -> n = Z.quot (md + 1) 2.
Proof.
  unfold frac_part. intros Hmd Hf. go_inv; beqs; subst; try reflexivity.
  assert (md = 0) as -> by lia. reflexivity.
Qed.

Ltac solve_length :=
  unfold append_text, append_decimal, done, fail in *; go_inv; simpl; intros; try discriminate;
  try (f_equal; lia); auto.

Lemma cell_Enum_length data pos md ct b r :
  cell_Enum data pos md ct b = Ret r -> has_length (Ret (Z.land md 255)) r.
Proof. unfold cell_Enum. intros. solve_length. Qed.

Lemma cell_Set_length data pos md ct b r :
  cell_Set data pos md ct b = Ret r -> has_length (Ret (Z.land md 255)) r.
Proof. unfold cell_Set. intros. solve_length. Qed.

Lemma append_decimal_length neg coeff l b r :
  append_decimal neg coeff l b = Ret r -> has_length (Ret l) r.
Proof. unfold append_decimal. intros. solve_length. Qed.

Lemma cell_NewDecimal_length data pos md b r :
  cell_NewDecimal data pos md b = Ret r -> has_length (decimal_length md) r.
Proof.
  unfold cell_NewDecimal, decimal_length. intros Hc.
  apply bind_Ret_inv in Hc. destruct Hc as (di & -> & Hc).
  apply bind_Ret_inv in Hc. destruct Hc as (df & -> & Hc). rewrite !bind_Ret.
  go_inv; try (eapply append_decimal_length; eassumption).
  unfold fail in *. go_inv. simpl. discriminate.
Qed.

(** The length of a string cell is that of its prefix. *)
Definition string_length (data : slice) (pos max : Z) : outcome Z :=
  if 255 <? max then l ← le2 data pos; Ret (l + 2) else l ← index data pos; Ret (l + 1).

Lemma cell_Varchar_length data pos md ct ft b r :
  cell_Varchar data pos md ct ft b = Ret r -> has_length (string_length data pos md) r.
Proof.
  unfold cell_Varchar, string_length. intros Hc.
  destruct (255 <? md); go_inv;
    repeat match goal with E : _ = Ret _ |- _ => rewrite E; clear E end; rewrite ?bind_Ret;
    try (unfold append_text, done, fail in *; go_inv; simpl; congruence).
Qed.

Lemma cell_String_length data pos md ct ft b r :
  cell_String data pos md ct ft b = Ret r ->
  has_length (if (Z.shiftr md 8 =? TypeEnum) || (Z.shiftr md 8 =? TypeSet) then Ret (Z.land md 255)
              else string_length data pos (string_max md)) r.
Proof.
  unfold cell_String.
  destruct (_ =? TypeEnum); [apply cell_Enum_length|].
  destruct (_ =? TypeSet); [apply cell_Set_length|]. simpl orb. cbv iota.
  unfold string_length. intros Hc.
  destruct (255 <? string_max md); go_inv;
    repeat match goal with E : _ = Ret _ |- _ => rewrite E; clear E end; rewrite ?bind_Ret;
    unfold append_text, done, fail in *; go_inv; simpl; congruence.
Qed.

(** The blob and geometry cells: the prefix and what it announces. *)
Definition blob_announces (data : slice) (pos md : Z) (r : cell_result) : Prop :=
  snd r = None -> exists l, blob_length data pos md = Ret (Some l) /\ snd (fst r) = md + l.

Ltac solve_blob :=
  intros Hc He; apply bind_Ret_inv in Hc; destruct Hc as (l & -> & Hc);
  unfold append_text, done, fail in *; go_inv; simpl in *; try discriminate; eauto with lia.

Lemma cell_Blob_length data pos typ md ct ft b r :
  cell_Blob data pos typ md ct ft b = Ret r -> blob_announces data pos md r.
Proof. unfold cell_Blob, blob_announces. solve_blob. Qed.

Lemma cell_Geometry_length data pos md b r :
  cell_Geometry data pos md b = Ret r -> blob_announces data pos md r.
Proof. unfold cell_Geometry, blob_announces. solve_blob. Qed.

Lemma cell_Timestamp2_length data pos md b r :
  0 <= md <= 6 -> cell_Timestamp2 data pos md b = Ret r -> has_length (Ret (4 + Z.quot (md + 1) 2)) r.
Proof.
  unfold cell_Timestamp2. intros Hmd Hc. go_inv.
  match goal with E : frac_part _ _ _ = Ret _ |- _ => apply frac_part_length in E; [subst | exact Hmd] end.
  solve_length.
Qed.

Lemma cell_DateTime2_length data pos md b r :
  0 <= md <= 6 -> cell_DateTime2 data pos md b = Ret r -> has_length (Ret (5 + Z.quot (md + 1) 2)) r.
Proof.
  unfold cell_DateTime2. intros Hmd Hc. go_inv.
  match goal with E : frac_part _ _ _ = Ret _ |- _ => apply frac_part_length in E; [subst | exact Hmd] end.
  solve_length.
Qed.

(** The cells of fixed length. *)
Lemma fixed_length data pos ft b r :
  (cell_Tiny data pos ft b = Ret r -> has_length (Ret 1) r) /\
  (cell_Year data pos b = Ret r -> has_length (Ret 1) r) /\
  (cell_Short data pos ft b = Ret r -> has_length (Ret 2) r) /\
  (cell_Int24 data pos ft b = Ret r -> has_length (Ret 3) r) /\
  (cell_Long data pos ft b = Ret r -> has_length (Ret 4) r) /\
  (cell_Float data pos b = Ret r -> has_length (Ret 4) r) /\
  (cell_Double data pos b = Ret r -> has_length (Ret 8) r) /\
  (cell_Timestamp data pos b = Ret r -> has_length (Ret 4) r) /\
  (cell_LongLong data pos ft b = Ret r -> has_length (Ret 8) r) /\
  (cell_Date data pos b = Ret r -> has_length (Ret 3) r) /\
  (cell_Time data pos b = Ret r -> has_length (Ret 3) r) /\
  (cell_DateTime data pos b = Ret r -> has_length (Ret 8) r).
Proof.
  unfold cell_Tiny, cell_Year, cell_Short, cell_Int24, cell_Long, cell_Float, cell_Double,
    cell_Timestamp, cell_LongLong, cell_Date, cell_Time, cell_DateTime, done, fail.
  repeat split; intros; go_inv; simpl; congruence.
Qed.

Lemma CellLength_of_cell data pos typ md col b r :
  fsp_ok typ md -> CellValue data pos typ md col b = Ret r ->
  snd r = None -> CellLength data pos typ md = Ret (snd (fst r), None).
Proof.
  intros Hf Hc He.
  assert (Hfix := fun ft => fixed_length data pos ft b r).
  unfold CellValue in Hc. apply bind_Ret_inv in Hc. destruct Hc as (ft & _ & Hc).
  destruct (Hfix ft) as (F1&F2&F3&F4&F5&F6&F7&F8&F9&F10&F11&F12). clear Hfix.
  assert (K : forall n, has_length (Ret n) r -> n = snd (fst r)).
  { intros n. destruct r as [[b' k] e]. simpl in *. intros Hn. specialize (Hn He). congruence. }
  assert (K' : forall o, has_length o r -> o = Ret (snd (fst r))).
  { intros o. destruct r as [[b' k] e]. simpl in *. auto. }
  repeat match type of Hc with
  | (if ?c then _ else _) = _ => destruct c eqn:?
  end; beqs; repeat match goal with E : _ \/ _ |- _ => destruct E as [E|E]; beqs end; try subst typ;
  unfold CellLength; cbn -[le2 index subslice blob_length decimal_length bit_length string_max Z.quot Z.land Z.shiftr];
  first
  [ unfold fail in Hc; go_inv; discriminate He
  | do 2 f_equal; apply K; solve [auto | eapply cell_Enum_length; eassumption | eapply cell_Set_length; eassumption
        | eapply cell_Timestamp2_length; [apply Hf; auto | eassumption]
        | eapply cell_DateTime2_length; [apply Hf; auto | eassumption]]
  | apply cell_NewDecimal_length, K' in Hc; rewrite Hc; reflexivity
  | apply cell_Varchar_length, K' in Hc; unfold string_length in Hc; destruct (255 <? md); go_inv;
    repeat match goal with E : _ = Ret _ |- _ => rewrite E; clear E end; rewrite ?bind_Ret; congruence
  | apply cell_String_length, K' in Hc; unfold string_length in Hc;
    destruct (_ || _); [|destruct (255 <? string_max md)]; go_inv;
    repeat match goal with E : _ = Ret _ |- _ => rewrite E; clear E end; rewrite ?bind_Ret; congruence
  | revert Hc; unfold cell_Bit, cell_Time2; intros; do 2 f_equal; apply K; solve_length
  | first [apply cell_Blob_length in Hc | apply cell_Geometry_length in Hc];
    destruct (Hc He) as (l & -> & ->); reflexivity ].
Qed.

(** ** Reads of a known window *)
Lemma window_index0 s pos b l : window s pos (b :: l) -> index s pos = Ret b.
Proof. intros Hw. rewrite <- (Z.add_0_r pos). eapply window_index; [exact Hw | lia | reflexivity]. Qed.

Lemma le2_window s pos b0 b1 :
  is_byte b0 -> is_byte b1 -> window s pos [b0; b1] -> le2 s pos = Ret (le_nat [b0; b1]).
Proof.
  unfold is_byte. intros H0' H1' Hw. unfold le2.
  rewrite (window_index0 _ _ _ _ Hw), (window_index _ _ _ 1 b1 Hw ltac:(lia) eq_refl).
  rewrite !bind_Ret, lor_shiftl_add by lia. f_equal; simpl; lia.
Qed.

Lemma sum3_window s pos b0 b1 b2 :
  window s pos [b0; b1; b2] -> sum3 s pos = Ret (le_nat [b0; b1; b2]).
Proof.
  intros Hw. unfold sum3.
  rewrite (window_index0 _ _ _ _ Hw), (window_index _ _ _ 1 b1 Hw ltac:(lia) eq_refl),
    (window_index _ _ _ 2 b2 Hw ltac:(lia) eq_refl).
  rewrite !bind_Ret, !Z.shiftl_mul_pow2 by lia. f_equal; simpl; lia.
Qed.

Lemma be2_window s pos b0 b1 : window s pos [b0; b1] -> be2 s pos = Ret (be_nat [b0; b1]).
Proof.
  intros Hw. unfold be2.
  rewrite (window_index0 _ _ _ _ Hw), (window_index _ _ _ 1 b1 Hw ltac:(lia) eq_refl).
  rewrite !bind_Ret, !Z.shiftl_mul_pow2 by lia. f_equal; unfold be_nat; simpl; lia.
Qed.

Lemma be3_window s pos b0 b1 b2 : window s pos [b0; b1; b2] -> be3 s pos = Ret (be_nat [b0; b1; b2]).
Proof.
  intros Hw. unfold be3.
  rewrite (window_index0 _ _ _ _ Hw), (window_index _ _ _ 1 b1 Hw ltac:(lia) eq_refl),
    (window_index _ _ _ 2 b2 Hw ltac:(lia) eq_refl).
  rewrite !bind_Ret, !Z.shiftl_mul_pow2 by lia. f_equal; unfold be_nat; simpl; lia.
Qed.

Lemma time2_be2_window s pos b0 b1 :
  is_byte b0 -> is_byte b1 -> window s pos [b0; b1] -> time2_be2 s pos = Ret (be_nat [b0; b1]).
Proof.
  unfold is_byte. intros H0' H1' Hw. unfold time2_be2.
  rewrite (window_index0 _ _ _ _ Hw), (window_index _ _ _ 1 b1 Hw ltac:(lia) eq_refl).
  rewrite !bind_Ret, Z.lor_comm, lor_shiftl_add by lia. f_equal; unfold be_nat; simpl; lia.
Qed.

Lemma time2_be3_window s pos b0 b1 b2 :
  is_byte b0 -> is_byte b1 -> is_byte b2 -> window s pos [b0; b1; b2] ->
  time2_be3 s pos = Ret (be_nat [b0; b1; b2]).
Proof.
  unfold is_byte. intros H0' H1' H2' Hw. unfold time2_be3.
  rewrite (window_index0 _ _ _ _ Hw), (window_index _ _ _ 1 b1 Hw ltac:(lia) eq_refl),
    (window_index _ _ _ 2 b2 Hw ltac:(lia) eq_refl).
  rewrite !bind_Ret, (Z.lor_comm _ b2), (Z.lor_comm (Z.shiftl b0 16)), Z.lor_assoc.
  rewrite (lor_shiftl_add b2) by lia.
  rewrite lor_shiftl_add by lia.
  f_equal; unfold be_nat; simpl; lia.
Qed.

(** ** Integers *)

(** The integer types: code, bytes, and the builders of the signed and the
    unsigned column. *)
Inductive int_type : Z -> nat -> BuilderClass -> BuilderClass -> Prop :=
| int_Tiny : int_type TypeTiny 1 Int8Builder Uint8Builder
| int_Short : int_type TypeShort 2 Int16Builder Uint16Builder
| int_Int24 : int_type TypeInt24 3 Int32Builder Uint32Builder
| int_Long : int_type TypeLong 4 Int32Builder Uint32Builder
| int_LongLong : int_type TypeLongLong 8 Int64Builder Uint64Builder.

Definition int_range (sg : bool) (n : nat) (v : Z) : Prop :=
  if sg then - 2 ^ (8 * Z.of_nat n - 1) <= v < 2 ^ (8 * Z.of_nat n - 1)
  else 0 <= v < 2 ^ (8 * Z.of_nat n).

Lemma land_128 b : is_byte b -> (0 <? Z.land b 128) = (128 <=? b).
Proof.
  intros Hb. apply eqb_prop. revert b Hb. apply byte_forall. vm_compute. reflexivity.
Qed.

Lemma cell_Int24_window data pos ft b v :
  slice_wf data -> window data pos (le_bytes 3 v) -> int_range (IsSigned ft) 3 v ->
  builder_class (b_type b) = (if IsSigned ft then Int32Builder else Uint32Builder) ->
  cell_Int24 data pos ft b = Ret (b_append (CInt v) b, 3, None).
Proof.
  intros Hwf Hw Hr Hb. unfold cell_Int24, sum3_neg.
  assert (Hs : sum3 data pos = Ret (v mod 2 ^ 24)).
  { simpl in Hw. rewrite (sum3_window _ _ _ _ _ Hw). f_equal.
    exact (le_nat_bytes 3 v). }
  assert (H2 : index data (pos + 2) = Ret (v / 256 / 256 mod 256)).
  { eapply window_index; [exact Hw | lia | reflexivity]. }
  rewrite Hs, H2. unfold int_range in Hr. change (8 * Z.of_nat 3) with 24 in Hr.
  destruct (IsSigned ft).
  - rewrite !bind_Ret, land_128 by (apply Z.mod_pos_bound; lia).
    rewrite Z.div_div by lia.
    assert (Hm : v mod 2 ^ 24 = if v <? 0 then v + 2 ^ 24 else v).
    { destruct (Z.ltb_spec v 0); [|apply Z.mod_small; lia].
      symmetry. apply Z.mod_unique with (-1); lia. }
    destruct (Z.leb_spec 128 (v / (256 * 256) mod 256)).
    + assert (v < 0) by (Z.to_euclidean_division_equations; lia).
      destruct (Z.ltb_spec v 0); [|lia]. rewrite Hm.
      change (u32 (Z.shiftl 255 24)) with (255 * 2 ^ 24).
      replace (i32 (u32 (v + 2 ^ 24 + 255 * 2 ^ 24))) with v.
      * rewrite append_as_ok by exact Hb. reflexivity.
      * unfold i32, u32. rewrite signed_mod by lia. replace (v + 2 ^ 24 + 255 * 2 ^ 24) with (v + 1 * 2 ^ 32) by lia.
        rewrite <- (signed_mod 32), Z.mod_add, signed_mod, signed_id; lia.
    + assert (0 <= v) by (Z.to_euclidean_division_equations; lia).
      destruct (Z.ltb_spec v 0); [lia|]. rewrite Hm, Hb.
      unfold i32. rewrite signed_id by lia. reflexivity.
  - rewrite !bind_Ret, Hb. unfold u32.
    rewrite (Z.mod_small v) by lia. rewrite Z.mod_small by lia. reflexivity.
Qed.

Theorem CellValue_int_window data pos typ n sgn uns md col ft b v :
  int_type typ n sgn uns -> Type_of (col_type col) = Ret ft ->
  slice_wf data -> window data pos (le_bytes n v) -> int_range (IsSigned ft) n v ->
  builder_class (b_type b) = (if IsSigned ft then sgn else uns) ->
  CellValue data pos typ md col b = Ret (b_append (CInt v) b, Z.of_nat n, None).
Proof.
  intros Ht Hft Hwf Hw Hr Hb. unfold CellValue. rewrite Hft, bind_Ret.
  assert (Hz : 256 ^ Z.of_nat n = 2 ^ (8 * Z.of_nat n)) by (change 256 with (2 ^ 8); rewrite <- Z.pow_mul_r; lia).
  assert (Hv : (if IsSigned ft then signed (8 * Z.of_nat n) (v mod 256 ^ Z.of_nat n) else v mod 256 ^ Z.of_nat n) = v).
  { rewrite Hz. unfold int_range in Hr. destruct (IsSigned ft).
    - destruct Ht; rewrite signed_mod, signed_id by lia; reflexivity.
    - apply Z.mod_small, Hr. }
  destruct Ht; cbn -[Z.of_nat cell_Tiny cell_Short cell_Int24 cell_Long cell_LongLong];
    try (apply cell_Int24_window; assumption);
    unfold cell_Tiny, cell_Short, cell_Long, cell_LongLong, LittleEndian_Uint16, LittleEndian_Uint32,
      LittleEndian_Uint64, i8, i16, i32, i64.
  1: rewrite (window_index0 _ _ _ _ Hw), bind_Ret; change (v mod 256) with (v mod 256 ^ Z.of_nat 1).
  2: change (pos + 2) with (pos + Z.of_nat 2).
  3: change (pos + 4) with (pos + Z.of_nat 4).
  4: change (pos + 8) with (pos + Z.of_nat 8).
  2-4: rewrite (le_read_window data pos v _ _ Hwf Hw).
  all: destruct (IsSigned ft); rewrite append_as_ok by exact Hb; unfold done; rewrite bind_Ret;
    do 4 f_equal; f_equal; exact Hv.
Qed.
End Facts.
