(* ===== verification/RbrDecimal.v ===== *)
(** * NEWDECIMAL: the decoder inverts MySQL's packed decimal format

    [decimal_encode] is the documented storage format (groups of nine digits in
    four big-endian bytes, leftover digits in [dig2bytes] bytes, the first bit
    inverted, and every byte of a negative number).  The theorems say that
    [cell_NewDecimal] reads back the coefficient, rescaled to the builder. *)

From S2P Require Import Prelude GoTime Charset Schema Rbr RbrFacts.

(** ** The storage format *)
Definition group : Z := 10 ^ 9.

(** [n] groups of nine digits of [z], most significant first. *)
Fixpoint encode_groups (n : nat) (z : Z) : list Z :=
  match n with
  | O => []
  | S n' => be_bytes 4 (z / group ^ Z.of_nat n') ++ encode_groups n' (z mod group ^ Z.of_nat n')
  end.

(** Bytes for [k] leftover digits ([0 <= k <= 9]). *)
Definition leftover_bytes (k : Z) : nat := Z.to_nat (nth (Z.to_nat k) dig2bytes 0).

Definition encode_raw (p s coeff : Z) : list Z :=
  let ip := coeff / 10 ^ s in
  let fr := coeff mod 10 ^ s in
  let intg := p - s in
  let intg0 := Z.to_nat (intg / 9) in
  let frac0 := Z.to_nat (s / 9) in
  let i1 := ip / group ^ Z.of_nat intg0 in
  let i2 := ip mod group ^ Z.of_nat intg0 in
  let f1 := fr / 10 ^ (s mod 9) in
  let f2 := fr mod 10 ^ (s mod 9) in
  be_bytes (leftover_bytes (intg mod 9)) i1 ++ encode_groups intg0 i2
  ++ encode_groups frac0 f1 ++ be_bytes (leftover_bytes (s mod 9)) f2.

Definition sign_bytes (neg : bool) (raw : list Z) : list Z :=
  match (if neg then map (fun x => Z.lxor x 255) raw else raw) with
  | [] => []
  | d0 :: d => Z.lxor d0 128 :: d
  end.

Definition decimal_encode (p s : Z) (neg : bool) (coeff : Z) : list Z := sign_bytes neg (encode_raw p s coeff).

(** ** Reading groups back *)
Lemma length_encode_groups n z : length (encode_groups n z) = (4 * n)%nat.
Proof. revert z. induction n; intros; cbn -[Nat.mul be_bytes]; [reflexivity|]. rewrite length_app, IHn, length_be_bytes. lia. Qed.

Lemma encode_groups_byte n z : Forall is_byte (encode_groups n z).
Proof.
  revert z. induction n; intros; cbn -[be_bytes]; [constructor|].
  apply Forall_app. split; [apply be_bytes_byte | auto].
Qed.

Lemma be_at_app pre k z post pos :
  pos = Z.of_nat (length pre) ->
  be_at (pre ++ be_bytes k z ++ post) pos (Z.of_nat k) = Ret (z mod 256 ^ Z.of_nat k).
Proof.
  intros ->. unfold be_at. rewrite !length_app, length_be_bytes.
  destruct (Z.leb_spec 0 (Z.of_nat (length pre))), (Z.leb_spec 0 (Z.of_nat k)),
    (Z.leb_spec (Z.of_nat (length pre) + Z.of_nat k) (Z.of_nat (length pre + (k + length post)))); try lia.
  simpl. rewrite !Nat2Z.id, drop_app_length.
  rewrite take_app_le, take_ge, be_nat_bytes by (rewrite length_be_bytes; lia). reflexivity.
Qed.

Lemma digits_loop_groups n : forall pre z post pos coeff,
  pos = Z.of_nat (length pre) -> 0 <= z < group ^ Z.of_nat n ->
  digits_loop n (pre ++ encode_groups n z ++ post) pos coeff
  = Ret (pos + 4 * Z.of_nat n, coeff * group ^ Z.of_nat n + z).
Proof.
  induction n as [|n IH]; intros pre z post pos coeff Hp Hz.
  - simpl in *. do 2 f_equal; lia.
  - cbn [encode_groups digits_loop]. rewrite <- app_assoc.
    assert (Hg : 0 < group ^ Z.of_nat n) by (apply Z.pow_pos_nonneg; unfold group; lia).
    rewrite Nat2Z.inj_succ, Z.pow_succ_r in Hz by lia.
    change 4 with (Z.of_nat 4) at 1. rewrite be_at_app, bind_Ret by exact Hp.
    rewrite (Z.mod_small (z / group ^ Z.of_nat n)).
    2: { split; [apply Z.div_pos; lia|]. apply Z.lt_trans with group; [|unfold group; simpl; lia].
         apply Z.div_lt_upper_bound; lia. }
    rewrite app_assoc, IH.
    + rewrite (Nat2Z.inj_succ n), Z.pow_succ_r by lia. f_equal. f_equal; [lia|].
      change 1000000000 with group. pose proof (Z.div_mod z (group ^ Z.of_nat n)). lia.
    + rewrite length_app, length_be_bytes. lia.
    + apply Z.mod_pos_bound. lia.
Qed.

(** ** Leftover digits *)
Lemma leftover_cases k : 0 <= k <= 9 ->
  dig2bytes_at k = Ret (Z.of_nat (leftover_bytes k)) /\ (leftover_bytes k <= 4)%nat /\
  10 ^ k <= 256 ^ Z.of_nat (leftover_bytes k) /\
  (k <= 8 -> 2 * 10 ^ k <= 256 ^ Z.of_nat (leftover_bytes k) \/ k = 0) /\
  (leftover_bytes k = 0%nat <-> k = 0).
Proof.
  intros Hk.
  assert (Hc : k = 0 \/ k = 1 \/ k = 2 \/ k = 3 \/ k = 4 \/ k = 5 \/ k = 6 \/ k = 7 \/ k = 8 \/ k = 9) by lia.
  repeat destruct Hc as [-> | Hc]; [..|subst k]; vm_compute; repeat split; intros; auto;
    try discriminate; try lia; try (left; discriminate).
Qed.

Lemma partial_frac_bytes pre k z post pos coeff :
  0 <= k <= 8 -> pos = Z.of_nat (length pre) -> 0 <= z < 10 ^ k ->
  partial_frac (pre ++ be_bytes (leftover_bytes k) z ++ post) pos k coeff = Ret (coeff * 10 ^ k + z).
Proof.
  intros Hk Hp Hz. destruct (leftover_cases k ltac:(lia)) as (Hd & _ & H256 & _).
  pose proof (be_at_app pre (leftover_bytes k) z post pos Hp) as Hb.
  rewrite Z.mod_small in Hb by lia. unfold partial_frac. rewrite Hd, bind_Ret.
  assert (Hc : k = 0 \/ k = 1 \/ k = 2 \/ k = 3 \/ k = 4 \/ k = 5 \/ k = 6 \/ k = 7 \/ k = 8) by lia.
  repeat destruct Hc as [-> | Hc]; [..|subst k];
    match goal with |- context [leftover_bytes ?k] =>
      let v := eval vm_compute in (leftover_bytes k) in
      let w := eval vm_compute in (Z.of_nat v) in
      change (leftover_bytes k) with v in *; change (Z.of_nat v) with w in * end;
    cbn -[be_at be_bytes Z.mul] in *; try (rewrite Hb; reflexivity).
  f_equal. lia.
Qed.

(** ** Padding to the scale of the builder *)
Lemma powerOf10s_at_pow k : 0 <= k <= 19 -> powerOf10s_at k = Ret (10 ^ k).
Proof.
  intros Hk. rewrite <- (Z2Nat.id k) by lia.
  assert (Hn : (Z.to_nat k <= 19)%nat) by lia. revert Hn. generalize (Z.to_nat k). clear k Hk.
  intros n Hn. do 20 (destruct n as [|n]; [vm_compute; reflexivity|]). lia.
Qed.

Lemma pad_loop_spec fuel : forall coeff fp desired,
  fp < desired -> (Z.to_nat (desired - fp) <= fuel)%nat ->
  exists c f, pad_loop fuel coeff fp desired = (c, f) /\ fp <= f /\ 0 < desired - f <= 19 /\
              c * 10 ^ (desired - f) = coeff * 10 ^ (desired - fp).
Proof.
  induction fuel as [|fuel IH]; intros coeff fp desired Hlt Hf; [lia|]. simpl.
  destruct (Z.ltb_spec (fp + 19) desired).
  - destruct (IH (coeff * 10000000000000000000) (fp + 19) desired) as (c & f & E & Hle & Hr & Hc); [lia|lia|].
    exists c, f. split; [exact E|]. repeat split; try lia. rewrite Hc.
    replace (desired - fp) with (19 + (desired - (fp + 19))) by lia.
    rewrite (Z.pow_add_r 10 19) by lia. change (10 ^ 19) with 10000000000000000000. lia.
  - exists coeff, fp. repeat split; lia.
Qed.

Lemma pad_digits_scale coeff fp desired :
  0 <= fp <= desired -> pad_digits coeff fp desired = Ret (inl (coeff * 10 ^ (desired - fp))).
Proof.
  intros Hd. unfold pad_digits. destruct (Z.ltb_spec fp desired).
  - destruct (pad_loop_spec (Z.to_nat desired) coeff fp desired) as (c & f & -> & _ & Hr & Hc); [lia|lia|].
    rewrite powerOf10s_at_pow, bind_Ret by lia. rewrite Hc. reflexivity.
  - destruct (Z.ltb_spec desired fp); [lia|]. replace (desired - fp) with 0 by lia. rewrite Z.mul_1_r. reflexivity.
Qed.

(** ** The sign *)
Definition head_small (raw : list Z) : Prop := exists d0 d, raw = d0 :: d /\ 0 <= d0 < 128.

Lemma sign_roundtrip neg raw :
  head_small raw -> Forall is_byte raw -> decimal_unsign (sign_bytes neg raw) = Ret (neg, raw).
Proof.
  intros (d0 & d & -> & Hd0) Hb.
  assert (Hx : forall x, is_byte x -> Z.lxor (Z.lxor x 255) 255 = x).
  { intros. rewrite Z.lxor_assoc. apply Z.lxor_0_r. }
  assert (Hx8 : forall x, Z.lxor (Z.lxor x 128) 128 = x).
  { intros. rewrite Z.lxor_assoc. apply Z.lxor_0_r. }
  assert (Hs : (if d0 <? 128 then (Z.land (Z.lxor (Z.lxor d0 255) 128) 128 =? 0)
                                  && negb (Z.land (Z.lxor d0 128) 128 =? 0) else true) = true).
  { apply (byte_forall (fun d0 => if d0 <? 128 then (Z.land (Z.lxor (Z.lxor d0 255) 128) 128 =? 0)
                                  && negb (Z.land (Z.lxor d0 128) 128 =? 0) else true));
      [vm_compute; reflexivity | unfold is_byte; lia]. }
  destruct (Z.ltb_spec d0 128); [|lia]. beqs.
  inversion Hb as [|? ? Hb0 Hbd]; subst.
  unfold sign_bytes, decimal_unsign. destruct neg; simpl.
  - rewrite (proj2 (Z.eqb_eq _ _)) by assumption. rewrite Hx8, Hx by exact Hb0.
    do 3 f_equal. clear -Hbd Hx. induction Hbd; simpl; [reflexivity|]. rewrite Hx by assumption. congruence.
  - rewrite (proj2 (Z.eqb_neq _ _)) by assumption. rewrite Hx8. reflexivity.
Qed.

Lemma be_bytes_head k z :
  (0 < k)%nat -> 0 <= z -> 2 * z < 256 ^ Z.of_nat k -> head_small (be_bytes k z).
Proof.
  intros Hk Hz Hlt. destruct k as [|k]; [lia|].
  assert (E : forall k z, le_bytes (S k) z = le_bytes k z ++ [z / 256 ^ Z.of_nat k mod 256]).
  { clear. induction k as [|k IH]; intros z.
    - simpl. rewrite Z.div_1_r. reflexivity.
    - change (le_bytes (S (S k)) z) with (z mod 256 :: le_bytes (S k) (z / 256)).
      rewrite IH, Z.div_div, (Nat2Z.inj_succ k), Z.pow_succ_r by (lia || apply Z.pow_pos_nonneg; lia).
      reflexivity. }
  exists (z / 256 ^ Z.of_nat k mod 256), (rev (le_bytes k z)). split.
  - unfold be_bytes. rewrite E, rev_app_distr. reflexivity.
  - rewrite Nat2Z.inj_succ, Z.pow_succ_r in Hlt by lia.
    assert (0 < 256 ^ Z.of_nat k) by (apply Z.pow_pos_nonneg; lia).
    assert (0 <= z / 256 ^ Z.of_nat k) by (apply Z.div_pos; lia).
    assert (z / 256 ^ Z.of_nat k < 128) by (apply Z.div_lt_upper_bound; lia).
    rewrite Z.mod_small by lia. lia.
Qed.

Lemma head_small_app l1 l2 : head_small l1 -> head_small (l1 ++ l2).
Proof. intros (d0 & d & -> & Hd). exists d0, (d ++ l2). auto. Qed.

Lemma encode_groups_head n z : (0 < n)%nat -> 0 <= z < group ^ Z.of_nat n -> head_small (encode_groups n z).
Proof.
  destruct n as [|n]; [lia|]. intros _ Hz. cbn [encode_groups]. apply head_small_app.
  rewrite Nat2Z.inj_succ, Z.pow_succ_r in Hz by lia.
  assert (0 < group ^ Z.of_nat n) by (apply Z.pow_pos_nonneg; unfold group; lia).
  assert (z / group ^ Z.of_nat n < group) by (apply Z.div_lt_upper_bound; lia).
  apply be_bytes_head; [lia | apply Z.div_pos; lia |].
  change (256 ^ Z.of_nat 4) with 4294967296. unfold group in *. lia.
Qed.

(** The parts of an encoded decimal and their ranges. *)
Lemma group_pow n : 0 <= n -> group ^ n = 10 ^ (9 * n).
Proof. intros. unfold group. rewrite <- Z.pow_mul_r by lia. reflexivity. Qed.

Lemma split_range a k m : 0 <= k -> 0 <= m -> 0 <= a < 10 ^ (k + m) ->
  0 <= a / 10 ^ m < 10 ^ k /\ 0 <= a mod 10 ^ m < 10 ^ m /\ a = a / 10 ^ m * 10 ^ m + a mod 10 ^ m.
Proof.
  intros Hk Hm Ha. assert (0 < 10 ^ m) by (apply Z.pow_pos_nonneg; lia). rewrite Z.pow_add_r in Ha by lia.
  repeat split; try (apply Z.mod_pos_bound; lia).
  - apply Z.div_pos; lia.
  - apply Z.div_lt_upper_bound; lia.
  - pose proof (Z.div_mod a (10 ^ m)). lia.
Qed.

Lemma int_part_range p s coeff :
  0 <= s <= p -> 0 <= coeff < 10 ^ p -> 0 <= coeff / 10 ^ s < 10 ^ (p - s).
Proof.
  intros Hs Hc.
  assert (0 < 10 ^ s) by (apply Z.pow_pos_nonneg; lia). split; [apply Z.div_pos; lia|].
  apply Z.div_lt_upper_bound; [lia|]. rewrite <- Z.pow_add_r by lia. replace (s + (p - s)) with p by lia. lia.
Qed.

(** Bytes of a DECIMAL(p, s). *)
Definition decimal_size (p s : Z) : Z :=
  4 * ((p - s) / 9) + Z.of_nat (leftover_bytes ((p - s) mod 9))
  + 4 * (s / 9) + Z.of_nat (leftover_bytes (s mod 9)).

Lemma length_encode_raw p s coeff :
  0 <= s <= p -> Z.of_nat (length (encode_raw p s coeff)) = decimal_size p s.
Proof.
  intros. unfold encode_raw, decimal_size.
  rewrite !length_app, !length_encode_groups, !length_be_bytes.
  pose proof (Z.div_pos (p - s) 9). pose proof (Z.div_pos s 9). lia.
Qed.

Lemma encode_raw_byte p s coeff : Forall is_byte (encode_raw p s coeff).
Proof.
  unfold encode_raw. rewrite !Forall_app.
  repeat split; try apply encode_groups_byte; apply be_bytes_byte.
Qed.

Lemma length_sign_bytes neg raw : length (sign_bytes neg raw) = length raw.
Proof. unfold sign_bytes. destruct neg, raw; simpl; rewrite ?length_map; reflexivity. Qed.

Section Decode.
Context (p s coeff : Z).
Hypothesis Hs : 0 <= s <= p.
Hypothesis Hp : 0 < p.
Hypothesis Hc : 0 <= coeff < 10 ^ p.

Let n_int := Z.to_nat ((p - s) / 9).
Let n_frac := Z.to_nat (s / 9).
Let ip := coeff / 10 ^ s.
Let fr := coeff mod 10 ^ s.
Let i1 := ip / group ^ Z.of_nat n_int.
Let i2 := ip mod group ^ Z.of_nat n_int.
Let f1 := fr / 10 ^ (s mod 9).
Let f2 := fr mod 10 ^ (s mod 9).

Lemma n_int_Z : Z.of_nat n_int = (p - s) / 9.
Proof. unfold n_int. rewrite Z2Nat.id; [reflexivity | apply Z.div_pos; lia]. Qed.
Lemma n_frac_Z : Z.of_nat n_frac = s / 9.
Proof. unfold n_frac. rewrite Z2Nat.id; [reflexivity | apply Z.div_pos; lia]. Qed.

Lemma int_split :
  0 <= i1 < 10 ^ ((p - s) mod 9) /\ 0 <= i2 < group ^ Z.of_nat n_int /\ ip = i1 * group ^ Z.of_nat n_int + i2.
Proof.
  unfold i1, i2. rewrite n_int_Z, group_pow by (apply Z.div_pos; lia).
  pose proof (Z.div_mod (p - s) 9 ltac:(lia)). pose proof (Z.mod_pos_bound (p - s) 9 ltac:(lia)).
  pose proof (Z.div_pos (p - s) 9 ltac:(lia) ltac:(lia)).
  apply split_range; [lia | lia |].
  replace ((p - s) mod 9 + 9 * ((p - s) / 9)) with (p - s) by lia. apply int_part_range; assumption.
Qed.

Lemma frac_split :
  0 <= f1 < group ^ Z.of_nat n_frac /\ 0 <= f2 < 10 ^ (s mod 9) /\ fr = f1 * 10 ^ (s mod 9) + f2.
Proof.
  unfold f1, f2. rewrite n_frac_Z, group_pow by (apply Z.div_pos; lia).
  pose proof (Z.div_mod s 9 ltac:(lia)). pose proof (Z.mod_pos_bound s 9 ltac:(lia)).
  pose proof (Z.div_pos s 9 ltac:(lia) ltac:(lia)).
  apply split_range; [lia | lia |].
  replace (9 * (s / 9) + s mod 9) with s by lia. apply Z.mod_pos_bound, Z.pow_pos_nonneg; lia.
Qed.

Lemma encode_raw_eq : encode_raw p s coeff =
  be_bytes (leftover_bytes ((p - s) mod 9)) i1 ++ encode_groups n_int i2
  ++ encode_groups n_frac f1 ++ be_bytes (leftover_bytes (s mod 9)) f2.
Proof. reflexivity. Qed.

Lemma encode_raw_head : head_small (encode_raw p s coeff).
Proof.
  rewrite encode_raw_eq. destruct int_split as (H1 & H2 & _), frac_split as (H3 & H4 & _).
  pose proof (Z.mod_pos_bound (p - s) 9 ltac:(lia)). pose proof (Z.mod_pos_bound s 9 ltac:(lia)).
  destruct (leftover_cases ((p - s) mod 9) ltac:(lia)) as (_ & _ & _ & L1 & L1z).
  destruct (leftover_cases (s mod 9) ltac:(lia)) as (_ & _ & _ & L2 & L2z).
  destruct (decide (leftover_bytes ((p - s) mod 9) = 0%nat)) as [E1|N1].
  2: { destruct L1; [lia | | tauto]. apply head_small_app, be_bytes_head; lia. }
  rewrite E1. change (be_bytes 0 i1) with (@nil Z). simpl app. apply L1z in E1.
  destruct (decide (n_int = 0%nat)) as [E2|N2]; [|apply head_small_app, encode_groups_head; lia].
  pose proof n_int_Z as HnI. rewrite E2 in *. change (encode_groups 0 i2) with (@nil Z). simpl app.
  destruct (decide (n_frac = 0%nat)) as [E3|N3]; [|apply head_small_app, encode_groups_head; lia].
  pose proof n_frac_Z as HnF. rewrite E3 in *. change (encode_groups 0 f1) with (@nil Z). simpl app.
  pose proof (Z.div_mod (p - s) 9 ltac:(lia)). pose proof (Z.div_mod s 9 ltac:(lia)).
  destruct (decide (leftover_bytes (s mod 9) = 0%nat)) as [E4|N4]; [apply L2z in E4; lia|].
  destruct L2; [lia | | tauto]. apply be_bytes_head; lia.
Qed.

(** The three passes over the digits rebuild the coefficient. *)
Lemma decode_int :
  (val ← be_at (encode_raw p s coeff) 0 (Z.of_nat (leftover_bytes ((p - s) mod 9)));
   digits_loop n_int (encode_raw p s coeff) (Z.of_nat (leftover_bytes ((p - s) mod 9))) val)
  = Ret (Z.of_nat (leftover_bytes ((p - s) mod 9)) + 4 * Z.of_nat n_int, ip).
Proof.
  rewrite encode_raw_eq. destruct int_split as (H1 & H2 & H3).
  pose proof (Z.mod_pos_bound (p - s) 9 ltac:(lia)).
  destruct (leftover_cases ((p - s) mod 9) ltac:(lia)) as (_ & _ & L & _).
  pose proof (be_at_app [] (leftover_bytes ((p - s) mod 9)) i1
    (encode_groups n_int i2 ++ encode_groups n_frac f1 ++ be_bytes (leftover_bytes (s mod 9)) f2) 0 eq_refl) as E.
  rewrite app_nil_l in E. rewrite E, bind_Ret, (Z.mod_small i1) by lia.
  rewrite digits_loop_groups; [| rewrite length_be_bytes; lia | lia]. rewrite <- H3. reflexivity.
Qed.

Lemma decode_frac :
  ('(pos, c) ← digits_loop n_frac (encode_raw p s coeff)
      (Z.of_nat (leftover_bytes ((p - s) mod 9)) + 4 * Z.of_nat n_int) ip;
   partial_frac (encode_raw p s coeff) pos (s mod 9) c) = Ret coeff.
Proof.
  rewrite encode_raw_eq. destruct frac_split as (H1 & H2 & H3).
  pose proof (Z.mod_pos_bound s 9 ltac:(lia)).
  rewrite (app_assoc (be_bytes _ _)).
  rewrite digits_loop_groups; [| rewrite length_app, length_be_bytes, length_encode_groups; lia | lia].
  rewrite bind_Ret. rewrite app_assoc, <- (app_nil_r (be_bytes (leftover_bytes (s mod 9)) f2)).
  rewrite partial_frac_bytes; [| lia | rewrite !length_app, length_be_bytes, !length_encode_groups; lia | lia].
  f_equal. rewrite n_frac_Z, group_pow by (apply Z.div_pos; lia).
  transitivity (ip * 10 ^ s + fr).
  - rewrite H3. rewrite Z.mul_add_distr_r, <- Z.mul_assoc, <- Z.pow_add_r by (try apply Z.mul_nonneg_nonneg; try apply Z.div_pos; lia).
    rewrite <- (Z.div_mod s 9) by lia. lia.
  - unfold ip, fr. pose proof (Z.div_mod coeff (10 ^ s)). assert (0 < 10 ^ s) by (apply Z.pow_pos_nonneg; lia). lia.
Qed.
End Decode.

Section Cell.
Context `{ArrowLib} `{Codecs} `{VitessLib}.

Lemma metadata_split p s : 0 <= p < 256 -> 0 <= s < 256 ->
  Z.shiftr (p * 256 + s) 8 = p /\ Z.land (p * 256 + s) 255 = s.
Proof.
  intros Hp Hs. change 255 with (Z.ones 8). rewrite Z.land_ones, Z.shiftr_div_pow2 by lia.
  change (2 ^ 8) with 256. split.
  - rewrite Z.div_add_l, Z.div_small by lia. lia.
  - rewrite Z.add_comm, Z.mod_add, Z.mod_small by lia. reflexivity.
Qed.

(** What [cell_NewDecimal] does once the digits are read. *)
Definition finish_decimal (neg : bool) (coeff s l : Z) (b : builder) : outcome cell_result :=
  if s =? 0 then append_decimal neg coeff l b
  else desired ← decimal_scale b;
       r ← pad_digits coeff s desired;
       match r with inr e => fail l e b | inl c => append_decimal neg c l b end.

Lemma cell_NewDecimal_digits data pos p s neg coeff b :
  0 <= s <= p -> 0 < p < 256 -> 0 <= coeff < 10 ^ p -> decimal_size p s <= 40 ->
  slice_wf data -> window data pos (decimal_encode p s neg coeff) ->
  cell_NewDecimal data pos (p * 256 + s) b = finish_decimal neg coeff s (decimal_size p s) b.
Proof.
  intros Hs Hp Hc Hl Hwf Hw. unfold cell_NewDecimal.
  destruct (metadata_split p s) as [-> ->]; [lia | lia |].
  rewrite !Z.quot_div_nonneg by lia.
  replace (p - s - (p - s) / 9 * 9) with ((p - s) mod 9) by (rewrite Z.mod_eq; lia).
  replace (s - s / 9 * 9) with (s mod 9) by (rewrite Z.mod_eq; lia).
  pose proof (Z.mod_pos_bound (p - s) 9 ltac:(lia)). pose proof (Z.mod_pos_bound s 9 ltac:(lia)).
  destruct (leftover_cases ((p - s) mod 9) ltac:(lia)) as (-> & _).
  destruct (leftover_cases (s mod 9) ltac:(lia)) as (-> & _). rewrite !bind_Ret.
  assert (EL : (p - s) / 9 * 4 + Z.of_nat (leftover_bytes ((p - s) mod 9)) + s / 9 * 4
               + Z.of_nat (leftover_bytes (s mod 9)) = decimal_size p s) by (unfold decimal_size; lia).
  rewrite EL. destruct (Z.ltb_spec 40 (decimal_size p s)); [lia|].
  assert (Hlen : Z.of_nat (length (decimal_encode p s neg coeff)) = decimal_size p s).
  { unfold decimal_encode. rewrite length_sign_bytes. apply length_encode_raw. lia. }
  destruct (window_subslice data pos _ (length (decimal_encode p s neg coeff)) Hwf Hw ltac:(lia))
    as (t & Ht & Hbt & _). rewrite Hlen in Ht. rewrite Ht, bind_Ret, Hbt, firstn_all.
  unfold decimal_encode. rewrite sign_roundtrip, bind_Ret;
    [| apply encode_raw_head; lia | apply encode_raw_byte].
  pose proof (decode_int p s coeff Hs ltac:(lia) Hc) as Ei.
  apply bind_Ret_inv in Ei. destruct Ei as (v & -> & Ei). rewrite bind_Ret, Ei, bind_Ret.
  unfold finish_decimal. destruct (Z.eqb_spec s 0) as [->|]; [rewrite Z.div_1_r; reflexivity|].
  pose proof (decode_frac p s coeff Hs ltac:(lia)) as Ef.
  apply bind_Ret_inv in Ef. destruct Ef as ([q c] & -> & Ef). rewrite bind_Ret, Ef, bind_Ret.
  replace (9 * (s / 9) + s mod 9) with s by (pose proof (Z.div_mod s 9); lia). reflexivity.
Qed.

(** MySQL's limits keep a cell below the size of the local buffer. *)
Lemma decimal_size_bound p s : 0 <= s <= p -> p <= 65 -> decimal_size p s <= 40.
Proof.
  intros Hs Hp. unfold decimal_size. pose proof (Z.mod_pos_bound (p - s) 9 ltac:(lia)). pose proof (Z.mod_pos_bound s 9 ltac:(lia)).
  destruct (leftover_cases ((p - s) mod 9) ltac:(lia)) as (_ & L1 & _). destruct (leftover_cases (s mod 9) ltac:(lia)) as (_ & L2 & _).
  pose proof (Z.div_mod (p - s) 9 ltac:(lia)). pose proof (Z.div_mod s 9 ltac:(lia)). lia.
Qed.

(** The decimal builders: the scale of their numbers and how many bits they hold. *)
Inductive decimal_builder : DataType -> Z -> Z -> Prop :=
| Builder128 P S : decimal_builder (ADecimal128 P S) S 127
| Builder256 P S : decimal_builder (ADecimal256 P S) S 255.

Section Append.
Context `{!ArrowLaws} `{!ArrowLaws256}.
Definition decimal_value (c : cell num128 num256) : option Z :=
  match c with CDecimal128 n => Some (value128 n) | CDecimal256 n => Some (value256 n) | _ => None end.

Lemma append_decimal_value neg coeff l b S w : decimal_builder (b_type b) S w -> 0 <= coeff < 2 ^ w ->
  exists c, append_decimal neg coeff l b = Ret (b_append c b, l, None) /\ decimal_value c = Some (if neg then - coeff else coeff).
Proof.
  intros Hb Hc. unfold append_decimal. destruct Hb; cbn [builder_class].
  - destruct (decimal128_FromBigInt_exact coeff) as (n & -> & Hn); [lia|]. rewrite bind_Ret. eexists. split; [reflexivity|]. cbn [decimal_value]. destruct neg; [rewrite decimal128_Negate_exact by lia|]; rewrite Hn; reflexivity.
  - destruct (decimal256_FromBigInt_exact coeff) as (n & -> & Hn); [lia|]. rewrite bind_Ret. eexists. split; [reflexivity|]. cbn [decimal_value]. destruct neg; [rewrite decimal256_Negate_exact by lia|]; rewrite Hn; reflexivity.
Qed.

(** The digits as the builder gets them: a fraction is padded to the builder's scale; a
    number without one is taken as it is. *)
Definition padded (s S coeff : Z) : Z := if s =? 0 then coeff else coeff * 10 ^ (S - s).

Lemma finish_decimal_value neg coeff s l b S w : decimal_builder (b_type b) S w -> 0 <= s -> 0 <= coeff ->
  if (0 <? s) && (S <? s) then finish_decimal neg coeff s l b = Ret (b, l, Some (ErrFractionalDigits s S))
  else padded s S coeff < 2 ^ w -> exists c, finish_decimal neg coeff s l b = Ret (b_append c b, l, None)
         /\ decimal_value c = Some (if neg then - padded s S coeff else padded s S coeff).
Proof.
  intros Hb Hs Hc. unfold finish_decimal, padded. destruct (Z.eqb_spec s 0) as [->|E].
  { cbn [Z.ltb Z.compare andb]. intros Hr. apply (append_decimal_value neg coeff l b S w Hb). lia. }
  assert (Es : decimal_scale b = Ret S) by (unfold decimal_scale; destruct Hb; reflexivity). rewrite Es, bind_Ret.
  destruct (Z.ltb_spec 0 s); [|lia]. destruct (Z.ltb_spec S s); cbn [andb].
  - unfold pad_digits. destruct (Z.ltb_spec s S); [lia|]. destruct (Z.ltb_spec S s); [reflexivity | lia].
  - intros Hr. rewrite pad_digits_scale by lia. rewrite bind_Ret. apply (append_decimal_value _ _ l b S w Hb). split; [|exact Hr]. apply Z.mul_nonneg_nonneg; [lia | apply Z.pow_nonneg; lia].
Qed.

Lemma CellValue_decimal_window data pos p s neg coeff col ft b S w :
  Type_of (col_type col) = Ret ft -> decimal_builder (b_type b) S w ->
  0 <= s <= p -> 0 < p <= 65 -> 0 <= coeff < 10 ^ p -> slice_wf data -> window data pos (decimal_encode p s neg coeff) ->
  if (0 <? s) && (S <? s) then CellValue data pos TypeNewDecimal (p * 256 + s) col b = Ret (b, decimal_size p s, Some (ErrFractionalDigits s S))
  else padded s S coeff < 2 ^ w -> exists c, CellValue data pos TypeNewDecimal (p * 256 + s) col b = Ret (b_append c b, decimal_size p s, None)
         /\ decimal_value c = Some (if neg then - padded s S coeff else padded s S coeff).
Proof.
  intros Hft Hb Hs Hp Hc Hwf Hw. unfold CellValue. rewrite Hft, bind_Ret. cbn -[cell_NewDecimal padded Z.ltb].
  rewrite (cell_NewDecimal_digits _ _ p s neg coeff); [|assumption|lia|assumption|apply decimal_size_bound; lia|assumption|assumption].
  apply finish_decimal_value; [exact Hb | lia | lia].
Qed.

(** A column declared as at the source always has room. *)
Lemma declared_decimal_fits m at_ p s coeff : t_type m = Q_DECIMAL -> t_decimal m = Some (p, s) -> toArrowType (TMySQL m) = Ret at_ ->
  0 <= s <= p -> p <= 65 -> 0 <= coeff < 10 ^ p -> exists w, decimal_builder at_ s w /\ padded s s coeff < 2 ^ w.
Proof.
  intros Ht Hd Ha Hs Hp Hc. assert (Ep : padded s s coeff = coeff) by (unfold padded; rewrite Z.sub_diag, Z.mul_1_r; destruct (s =? 0); reflexivity). rewrite Ep.
  cbn [toArrowType] in Ha. rewrite Ht, Hd in Ha. cbn [assert_some] in Ha. rewrite bind_Ret in Ha. destruct (Z.ltb_spec 38 p); injection Ha as <-.
  - exists 255. split; [constructor|]. assert (10 ^ p <= 10 ^ 65) by (apply Z.pow_le_mono_r; lia). assert (10 ^ 65 < 2 ^ 255) by reflexivity. lia.
  - exists 127. split; [constructor|]. assert (10 ^ p <= 10 ^ 38) by (apply Z.pow_le_mono_r; lia). assert (10 ^ 38 < 2 ^ 127) by reflexivity. lia.
Qed.
End Append.
End Cell.
