(* ===== verification/RbrTime.v ===== *)
(** * Temporal cells: the decoders invert MySQL's packed formats

    [time2_encode], [datetime2_encode], [timestamp2_encode] and [date_encode]
    are the documented storage formats; the theorems state what the decoders
    read back, and that the pre-5.6 TIME decoder gets negative values wrong. *)

From S2P Require Import Prelude GoTime Charset Schema Rbr RbrFacts.

(** ** Fractional seconds *)

(** [fsp] decimals take [frac_bytes fsp] bytes, in units of 10000, 100 or 1 microseconds. *)
Definition frac_bytes (fsp : Z) : nat := Z.to_nat ((fsp + 1) / 2).
Definition frac_unit (fsp : Z) : Z := 100 ^ (3 - Z.of_nat (frac_bytes fsp)).
Definition frac_encode (fsp us : Z) : Z := us / frac_unit fsp.
(** A value of a column with [fsp] decimals. *)
Definition frac_ok (fsp us : Z) : Prop := 0 <= fsp <= 6 /\ 0 <= us < 1000000 /\ us mod 10 ^ (6 - fsp) = 0.

Definition time2_encode (fsp : Z) (neg : bool) (h m s us : Z) : list Z :=
  let n := frac_bytes fsp in
  let total := (h * 2 ^ 12 + m * 2 ^ 6 + s) * 256 ^ Z.of_nat n + frac_encode fsp us in
  be_bytes (3 + n) (0x800000 * 256 ^ Z.of_nat n + if neg then - total else total).

Definition datetime2_encode (fsp y mo d h m s us : Z) : list Z :=
  be_bytes 5 (0x8000000000 + ((y * 13 + mo) * 2 ^ 22 + d * 2 ^ 17 + h * 2 ^ 12 + m * 2 ^ 6 + s))
  ++ be_bytes (frac_bytes fsp) (frac_encode fsp us).

Definition timestamp2_encode (fsp sec us : Z) : list Z :=
  be_bytes 4 sec ++ be_bytes (frac_bytes fsp) (frac_encode fsp us).

Definition date_encode (y mo d : Z) : list Z := le_bytes 3 (y * 512 + mo * 32 + d).

(** ** Splitting big-endian numbers *)
Lemma le_bytes_app a b z : le_bytes (a + b) z = le_bytes a z ++ le_bytes b (z / 256 ^ Z.of_nat a).
Proof.
  revert z. induction a as [|a IH]; intros z; simpl.
  - rewrite Z.div_1_r. reflexivity.
  - rewrite IH, (Nat2Z.inj_succ a), Z.pow_succ_r, Z.div_div by (lia || apply Z.pow_pos_nonneg; lia). reflexivity.
Qed.

Lemma be_bytes_app a b z : be_bytes (a + b) z = be_bytes a (z / 256 ^ Z.of_nat b) ++ be_bytes b z.
Proof. unfold be_bytes. rewrite Nat.add_comm, le_bytes_app, rev_app_distr. reflexivity. Qed.

Lemma be_bytes_mod n z : be_bytes n (z mod 256 ^ Z.of_nat n) = be_bytes n z.
Proof.
  unfold be_bytes. f_equal. revert z. induction n as [|n IH]; intros z; [reflexivity|].
  cbn [le_bytes]. rewrite Nat2Z.inj_succ, Z.pow_succ_r by lia.
  assert (0 < 256 ^ Z.of_nat n) by (apply Z.pow_pos_nonneg; lia).
  rewrite Z.rem_mul_r by lia. f_equal.
  - rewrite Z.mul_comm, Z.mod_add, Z.mod_mod by lia. reflexivity.
  - rewrite <- (IH (z / 256)). f_equal.
    rewrite Z.mul_comm, Z.div_add, Z.div_small by (try apply Z.mod_pos_bound; lia). lia.
Qed.

Lemma fsp_cases fsp : 0 <= fsp <= 6 ->
  fsp = 0 \/ fsp = 1 \/ fsp = 2 \/ fsp = 3 \/ fsp = 4 \/ fsp = 5 \/ fsp = 6.
Proof. lia. Qed.

(** The reads of one, two and three bytes agree with [be_nat]. *)
Lemma be_nat_window1 s pos z : window s pos (be_bytes 1 z) -> index s pos = Ret (z mod 256).
Proof. intros Hw. exact (window_index0 _ _ _ _ Hw). Qed.

Lemma be2_bytes s pos z : window s pos (be_bytes 2 z) -> be2 s pos = Ret (z mod 65536).
Proof. intros Hw. rewrite (be2_window _ _ _ _ Hw). f_equal. exact (be_nat_bytes 2 z). Qed.

Lemma be3_bytes s pos z : window s pos (be_bytes 3 z) -> be3 s pos = Ret (z mod 16777216).
Proof. intros Hw. rewrite (be3_window _ _ _ _ _ Hw). f_equal. exact (be_nat_bytes 3 z). Qed.

Lemma time2_be2_bytes s pos z : window s pos (be_bytes 2 z) -> time2_be2 s pos = Ret (z mod 65536).
Proof.
  intros Hw. rewrite (time2_be2_window _ _ _ _ ltac:(apply Z.mod_pos_bound; lia) ltac:(apply Z.mod_pos_bound; lia) Hw).
  f_equal. exact (be_nat_bytes 2 z).
Qed.

Lemma time2_be3_bytes s pos z : window s pos (be_bytes 3 z) -> time2_be3 s pos = Ret (z mod 16777216).
Proof.
  intros Hw. rewrite (time2_be3_window _ _ _ _ _ ltac:(apply Z.mod_pos_bound; lia)
    ltac:(apply Z.mod_pos_bound; lia) ltac:(apply Z.mod_pos_bound; lia) Hw).
  f_equal. exact (be_nat_bytes 3 z).
Qed.

(** [frac_consts k] evaluates the constants of [k] decimals. *)
Ltac frac_consts k :=
  let u := eval vm_compute in (100 ^ (3 - Z.of_nat (frac_bytes k))) in
  let n := eval vm_compute in (frac_bytes k) in
  let z := eval vm_compute in (Z.of_nat n) in
  let d := eval vm_compute in (10 ^ (6 - k)) in
  let m := eval vm_compute in (256 ^ z) in
  change (100 ^ (3 - Z.of_nat (frac_bytes k))) with u in *;
  change (frac_bytes k) with n in *; change (Z.of_nat n) with z in *;
  change (256 ^ z) with m in *; change (10 ^ (6 - k)) with d in *.

Lemma frac_part_bytes data pos fsp us :
  frac_ok fsp us -> window data pos (be_bytes (frac_bytes fsp) (frac_encode fsp us)) ->
  exists f m, frac_part data pos fsp = Ret (f, m, Z.of_nat (frac_bytes fsp)) /\ f * m = us.
Proof.
  intros (Hf & Hu & Hm) Hw. unfold frac_part, frac_encode, frac_unit in *.
  destruct (fsp_cases fsp Hf) as [-> | [-> | [-> | [-> | [-> | [-> | ->]]]]]];
    match type of Hf with _ <= ?k <= _ => frac_consts k end;
    cbn -[be_bytes Z.div Z.modulo index be2 be3] in *.
  1: exists 0, 0; split; [reflexivity | Z.to_euclidean_division_equations; lia].
  1-2: rewrite (be_nat_window1 _ _ _ Hw), bind_Ret.
  3-4: rewrite (be2_bytes _ _ _ Hw), bind_Ret.
  5-6: rewrite (be3_bytes _ _ _ Hw), bind_Ret.
  all: rewrite Z.mod_small by (Z.to_euclidean_division_equations; lia).
  all: eexists _, _; split; [reflexivity | Z.to_euclidean_division_equations; lia].
Qed.

Section Temporal.
Context `{ArrowLib} `{Codecs} `{VitessLib}.

Lemma cell_Timestamp2_window data pos fsp sec us b :
  frac_ok fsp us -> 0 <= sec < 2 ^ 32 -> builder_class (b_type b) = TimestampBuilder ->
  slice_wf data -> window data pos (timestamp2_encode fsp sec us) ->
  cell_Timestamp2 data pos fsp b
  = Ret (b_append (CTime (time_Unix sec (us * 1000))) b, 4 + Z.of_nat (frac_bytes fsp), None).
Proof.
  intros Hf Hs Hb Hwf Hw. unfold timestamp2_encode in Hw. apply window_app in Hw. destruct Hw as [Hw1 Hw2].
  rewrite length_be_bytes in Hw2. destruct (frac_part_bytes _ _ _ _ Hf Hw2) as (f & m & Hfp & Hfm).
  unfold cell_Timestamp2, BigEndian_Uint32. change (pos + 4) with (pos + Z.of_nat 4).
  rewrite (be_read_window data pos sec _ _ Hwf Hw1), Z.mod_small by (simpl; lia).
  rewrite Hfp, bind_Ret, Hfm, append_as_ok by exact Hb. reflexivity.
Qed.

Lemma lor5 b0 b1 b2 b3 b4 :
  is_byte b0 -> is_byte b1 -> is_byte b2 -> is_byte b3 -> is_byte b4 ->
  Z.lor (Z.lor (Z.lor (Z.lor (Z.shiftl b0 32) (Z.shiftl b1 24)) (Z.shiftl b2 16)) (Z.shiftl b3 8)) b4
  = be_nat [b0; b1; b2; b3; b4].
Proof.
  unfold is_byte. intros.
  assert (E : forall a b k, 0 <= k -> 0 <= b < 2 ^ k -> Z.lor (Z.shiftl a k) b = a * 2 ^ k + b).
  { intros. rewrite Z.lor_comm, lor_shiftl_add by lia. lia. }
  assert (E8 : forall a b k k', k' = k + 8 -> 0 <= k -> 0 <= b < 256 ->
            Z.lor (Z.shiftl a k') (Z.shiftl b k) = Z.shiftl (a * 256 + b) k).
  { intros a b k k' -> Hk Hb. rewrite Z.add_comm, <- Z.shiftl_shiftl, <- Z.shiftl_lor, E by lia. reflexivity. }
  rewrite (E8 b0 b1 24 32), (E8 _ b2 16 24), (E8 _ b3 8 16), E by lia. unfold be_nat. simpl. lia.
Qed.

Lemma cell_DateTime2_window data pos fsp y mo d h m s us b :
  frac_ok fsp us -> 0 <= y <= 9999 -> 0 <= mo <= 12 -> 0 <= d <= 31 -> 0 <= h < 24 -> 0 <= m < 60 -> 0 <= s < 60 ->
  builder_class (b_type b) = TimestampBuilder ->
  slice_wf data -> window data pos (datetime2_encode fsp y mo d h m s us) ->
  cell_DateTime2 data pos fsp b
  = Ret (b_append (CTime (time_Date y mo d h m s (us * 1000))) b, 5 + Z.of_nat (frac_bytes fsp), None).
Proof.
  intros Hf Hy Hmo Hd Hh Hm Hs Hb Hwf Hw. unfold datetime2_encode in Hw.
  apply window_app in Hw. destruct Hw as [Hw1 Hw2].
  rewrite length_be_bytes in Hw2. destruct (frac_part_bytes _ _ _ _ Hf Hw2) as (f & mu & Hfp & Hfm).
  set (N := (y * 13 + mo) * 2 ^ 22 + d * 2 ^ 17 + h * 2 ^ 12 + m * 2 ^ 6 + s) in *.
  set (E := 0x8000000000 + N) in *.
  pose proof (be_nat_bytes 5 E) as HE. rewrite Z.mod_small in HE by (unfold E, N; simpl; lia).
  pose proof (be_bytes_byte 5 E) as HB.
  assert (exists b0 b1 b2 b3 b4, be_bytes 5 E = [b0; b1; b2; b3; b4]) as (b0 & b1 & b2 & b3 & b4 & Eb).
  { do 5 eexists. unfold be_bytes. simpl. reflexivity. }
  rewrite Eb in *. repeat (apply Forall_cons in HB; destruct HB as [? HB]).
  unfold cell_DateTime2.
  rewrite (window_index0 _ _ _ _ Hw1), (window_index _ _ _ 1 b1 Hw1 ltac:(lia) eq_refl),
    (window_index _ _ _ 2 b2 Hw1 ltac:(lia) eq_refl), (window_index _ _ _ 3 b3 Hw1 ltac:(lia) eq_refl),
    (window_index _ _ _ 4 b4 Hw1 ltac:(lia) eq_refl), !bind_Ret.
  rewrite lor5, HE by assumption.
  replace (u64 (E - 0x8000000000)) with N by (unfold u64, E; rewrite Z.mod_small; unfold N; lia).
  change (pos + 5) with (pos + Z.of_nat 5). rewrite Hfp, bind_Ret, Hfm, append_as_ok by exact Hb.
  rewrite bind_Ret. unfold done. rewrite !Z.shiftr_div_pow2 by lia. do 4 f_equal.
  assert (E1 : N / 2 ^ 17 = (y * 13 + mo) * 32 + d) by (symmetry; apply Z.div_unique with (h * 2 ^ 12 + m * 2 ^ 6 + s); unfold N; lia).
  assert (E2 : N mod 2 ^ 17 = h * 2 ^ 12 + m * 2 ^ 6 + s) by (symmetry; apply Z.mod_unique with ((y * 13 + mo) * 32 + d); unfold N; lia).
  rewrite E1, E2. clear -Hy Hmo Hd Hh Hm Hs. f_equal. f_equal; Z.to_euclidean_division_equations; lia.
Qed.

Lemma land_date y mo d : 0 <= y -> 0 <= mo < 16 -> 0 <= d < 32 ->
  Z.land (y * 512 + mo * 32 + d) 31 = d /\ Z.land (Z.shiftr (y * 512 + mo * 32 + d) 5) 15 = mo /\
  Z.shiftr (y * 512 + mo * 32 + d) 9 = y.
Proof.
  intros. change 31 with (Z.ones 5). change 15 with (Z.ones 4).
  rewrite !Z.land_ones, !Z.shiftr_div_pow2 by lia.
  repeat split; Z.to_euclidean_division_equations; lia.
Qed.

Lemma cell_Date_window data pos y mo d b :
  0 <= y <= 9999 -> 0 <= mo <= 12 -> 0 <= d <= 31 -> builder_class (b_type b) = Date32Builder ->
  window data pos (date_encode y mo d) ->
  cell_Date data pos b = Ret (b_append (CDate32 (Date32FromTime (time_Date y mo d 0 0 0 0))) b, 3, None).
Proof.
  intros Hy Hmo Hd Hb Hw. unfold cell_Date, date_encode in *.
  assert (E : sum3 data pos = Ret (y * 512 + mo * 32 + d)).
  { cbn [le_bytes] in Hw. rewrite (sum3_window _ _ _ _ _ Hw). f_equal.
    etransitivity; [exact (le_nat_bytes 3 _)|]. apply Z.mod_small. simpl. lia. }
  destruct (land_date y mo d) as (E1 & E2 & E3); [lia..|].
  rewrite E, bind_Ret, E1, E2, E3, append_as_ok by exact Hb. reflexivity.
Qed.

(** ** TIME2 *)

(** The switch, on the complement [f] of a fraction that borrowed a second, or
    on the fraction itself. *)
Lemma time2_switch_bytes data pos fsp us sign hms hms' f :
  frac_ok fsp us -> 0 <= f < 256 ^ Z.of_nat (frac_bytes fsp) ->
  window data (pos + 3) (be_bytes (frac_bytes fsp) f) ->
  time2_frac sign hms f (256 ^ Z.of_nat (frac_bytes fsp)) = (hms', frac_encode fsp us) ->
  exists fr mul h, time2_switch data pos fsp sign hms = Ret (h, fr, mul) /\ fr * mul = us /\
                   (0 < fsp -> h = hms') /\ (fsp = 0 -> h = hms /\ us = 0).
Proof.
  intros (Hf & Hu & Hm) Hfr Hw Ht. unfold time2_switch, frac_encode, frac_unit in *.
  destruct (fsp_cases fsp Hf) as [-> | [-> | [-> | [-> | [-> | [-> | ->]]]]]];
    match type of Hf with _ <= ?k <= _ => frac_consts k end;
    cbn -[be_bytes Z.div Z.modulo index time2_be2 time2_be3 time2_frac] in *.
  1: exists 0, 0, hms; repeat split; try (Z.to_euclidean_division_equations; lia); reflexivity.
  1-2: rewrite (be_nat_window1 _ _ _ Hw), bind_Ret.
  3-4: rewrite (time2_be2_bytes _ _ _ Hw), bind_Ret.
  5-6: rewrite (time2_be3_bytes _ _ _ Hw), bind_Ret.
  all: rewrite Z.mod_small by lia; rewrite Ht.
  all: eexists _, _, _; repeat split; try reflexivity; try lia; Z.to_euclidean_division_equations; lia.
Qed.

(** The two halves of an encoded TIME2: the seconds and the fraction. *)
Lemma time2_encode_split fsp neg h m s us :
  let n := frac_bytes fsp in
  let hms := h * 2 ^ 12 + m * 2 ^ 6 + s in
  let f := frac_encode fsp us in
  0 <= f < 256 ^ Z.of_nat n ->
  time2_encode fsp neg h m s us =
  if neg && negb (f =? 0)
  then be_bytes 3 (0x800000 - hms - 1) ++ be_bytes n (256 ^ Z.of_nat n - f)
  else be_bytes 3 (0x800000 + if neg then - hms else hms) ++ be_bytes n f.
Proof.
  intros n hms f Hf. unfold time2_encode. fold n hms f.
  rewrite be_bytes_app. rewrite <- (be_bytes_mod n).
  assert (HB : 0 < 256 ^ Z.of_nat n) by (apply Z.pow_pos_nonneg; lia).
  destruct neg; simpl andb.
  - destruct (Z.eqb_spec f 0) as [E|E]; simpl negb; cbv iota.
    + rewrite E. f_equal; f_equal; symmetry;
        [apply Z.div_unique with 0 | apply Z.mod_unique with (0x800000 - hms)]; lia.
    + f_equal; f_equal; symmetry;
        [apply Z.div_unique with (256 ^ Z.of_nat n - f) | apply Z.mod_unique with (0x800000 - hms - 1)]; lia.
  - f_equal; f_equal; symmetry; [apply Z.div_unique with f | apply Z.mod_unique with (0x800000 + hms)]; lia.
Qed.

Lemma frac_encode_range fsp us : frac_ok fsp us ->
  0 <= frac_encode fsp us < 256 ^ Z.of_nat (frac_bytes fsp) /\ (frac_encode fsp us = 0 -> us = 0).
Proof.
  intros (Hf & Hu & Hm). unfold frac_encode, frac_unit in *.
  destruct (fsp_cases fsp Hf) as [-> | [-> | [-> | [-> | [-> | [-> | ->]]]]]];
    match type of Hf with _ <= ?k <= _ => frac_consts k end;
    split; intros; cbn -[Z.div] in *; Z.to_euclidean_division_equations; lia.
Qed.

(** [cell_Time2] after the switch. *)
Definition time2_micros (sign hms frac : Z) : Z :=
  let hour := Z.rem (Z.shiftr hms 12) (2 ^ 10) in
  let minute := Z.rem (Z.shiftr hms 6) (2 ^ 6) in
  let second := Z.rem hms (2 ^ 6) in
  i64 (sign * Duration_Microseconds
    (i64 (i64 ((hour * 3600 + minute * 60 + second) * time_Second) + i64 (frac * time_Microsecond)))).

Lemma time2_micros_spec sign h m s us :
  sign = 1 \/ sign = -1 -> 0 <= h < 1024 -> 0 <= m < 60 -> 0 <= s < 60 -> 0 <= us < 1000000 ->
  time2_micros sign (h * 2 ^ 12 + m * 2 ^ 6 + s) us = sign * ((h * 3600 + m * 60 + s) * 1000000 + us).
Proof.
  intros Hsg Hh Hm Hs Hu. unfold time2_micros, time_Second, time_Microsecond, Duration_Microseconds, i64.
  rewrite !Z.shiftr_div_pow2 by lia. set (N := h * 2 ^ 12 + m * 2 ^ 6 + s).
  assert (E1 : N / 2 ^ 12 = h) by (symmetry; apply Z.div_unique with (m * 2 ^ 6 + s); unfold N; lia).
  assert (E2 : N / 2 ^ 6 = h * 64 + m) by (symmetry; apply Z.div_unique with s; unfold N; lia).
  rewrite E1, E2, !Z.rem_mod_nonneg by (unfold N; lia).
  rewrite (Z.mod_small h) by lia.
  replace ((h * 64 + m) mod 2 ^ 6) with m by (apply Z.mod_unique with h; lia).
  replace (N mod 2 ^ 6) with s by (apply Z.mod_unique with (h * 64 + m); unfold N; lia).
  rewrite (signed_id 64 ((h * 3600 + m * 60 + s) * 1000000000)) by lia.
  rewrite (signed_id 64 (us * 1000)) by lia. rewrite (signed_id 64 (_ + us * 1000)) by lia.
  rewrite Z.quot_div_nonneg by lia.
  replace (((h * 3600 + m * 60 + s) * 1000000000 + us * 1000) / 1000)
    with ((h * 3600 + m * 60 + s) * 1000000 + us) by (apply Z.div_unique with 0; lia).
  rewrite signed_id by lia. reflexivity.
Qed.

(** A TIME2 cell from its two halves [v] and [f0], once the sign and the borrow
    are known to give back [h:m:s] and [us]. *)
Lemma cell_Time2_halves data pos fsp h m s us b v sign hms0 f0 :
  frac_ok fsp us -> 0 <= h < 1024 -> 0 <= m < 60 -> 0 <= s < 60 ->
  builder_class (b_type b) = DurationBuilder ->
  window data pos (be_bytes 3 v ++ be_bytes (frac_bytes fsp) f0) -> 0 <= v < 2 ^ 24 ->
  0 <= f0 < 256 ^ Z.of_nat (frac_bytes fsp) ->
  (if v - 0x800000 <? 0 then (- (v - 0x800000), -1) else (v - 0x800000, 1)) = (hms0, sign) ->
  time2_frac sign hms0 f0 (256 ^ Z.of_nat (frac_bytes fsp))
  = (h * 2 ^ 12 + m * 2 ^ 6 + s, frac_encode fsp us) ->
  (fsp = 0 -> hms0 = h * 2 ^ 12 + m * 2 ^ 6 + s) -> sign = 1 \/ sign = -1 ->
  cell_Time2 data pos fsp b
  = Ret (b_append (CDuration (sign * ((h * 3600 + m * 60 + s) * 1000000 + us))) b, 3 + Z.quot (fsp + 1) 2, None).
Proof.
  intros Hf Hh Hm Hs Hb Hwv Hv Hf0 Hsg Htf Hz Hs1. apply window_app in Hwv. destruct Hwv as [W1 W2].
  rewrite length_be_bytes in W2. change (pos + Z.of_nat 3) with (pos + 3) in W2.
  destruct (time2_switch_bytes _ _ _ _ _ _ _ _ Hf Hf0 W2 Htf) as (fr & mul & hh & E & Efr & Eh1 & Eh0).
  assert (hh = h * 2 ^ 12 + m * 2 ^ 6 + s) as ->.
  { destruct (Z.eq_dec fsp 0) as [E0|]; [destruct (Eh0 E0); rewrite <- (Hz E0); auto | apply Eh1; destruct Hf; lia]. }
  unfold cell_Time2. rewrite (time2_be3_bytes _ _ _ W1), bind_Ret, (Z.mod_small v) by lia.
  rewrite Hsg, E, bind_Ret, Efr.
  pose proof (time2_micros_spec sign h m s us Hs1 Hh Hm Hs (proj1 (proj2 Hf))) as Hmic.
  unfold time2_micros in Hmic. rewrite Hmic, append_as_ok by exact Hb. reflexivity.
Qed.

(** With no decimals there is no fraction. *)
Lemma frac_ok_0 us : frac_ok 0 us -> us = 0.
Proof. intros (_ & Hu & Hm). change (us mod 1000000 = 0) in Hm. rewrite Z.mod_small in Hm by lia. exact Hm. Qed.

Lemma cell_Time2_window data pos fsp neg h m s us b :
  frac_ok fsp us -> 0 <= h < 1024 -> 0 <= m < 60 -> 0 <= s < 60 ->
  builder_class (b_type b) = DurationBuilder ->
  window data pos (time2_encode fsp neg h m s us) ->
  cell_Time2 data pos fsp b
  = Ret (b_append (CDuration ((if neg then -1 else 1) * ((h * 3600 + m * 60 + s) * 1000000 + us))) b,
         3 + Z.quot (fsp + 1) 2, None).
Proof.
  intros Hf Hh Hm Hs Hb Hw. destruct (frac_encode_range _ _ Hf) as [Hfr Hz].
  rewrite time2_encode_split in Hw by exact Hfr.
  pose proof (fun v sign hms0 f0 => cell_Time2_halves data pos fsp h m s us b v sign hms0 f0 Hf Hh Hm Hs Hb) as K.
  set (hms := h * 2 ^ 12 + m * 2 ^ 6 + s) in *. set (f := frac_encode fsp us) in *.
  assert (Hhms : 0 <= hms < 2 ^ 22) by (unfold hms; lia).
  destruct neg; simpl andb in Hw.
  - destruct (Z.eqb_spec f 0) as [Ef|Ef]; simpl negb in Hw; cbv iota in Hw.
    + destruct (Z.eq_dec hms 0) as [Eh|Eh].
      * rewrite (K _ 1 0 f Hw); try lia; [| rewrite Eh; reflexivity | unfold time2_frac; simpl; congruence].
        unfold hms in Eh. assert (h = 0 /\ m = 0 /\ s = 0) as (-> & -> & ->) by lia.
        rewrite (Hz Ef). reflexivity.
      * apply (K _ (-1) hms f Hw); try lia.
        -- destruct (Z.ltb_spec (0x800000 + - hms - 0x800000) 0); [f_equal; lia | lia].
        -- unfold time2_frac. rewrite Ef. reflexivity.
    + assert (Hz0 : fsp <> 0).
      { intros ->. apply Ef. unfold f. rewrite (frac_ok_0 us Hf). reflexivity. }
      apply (K _ (-1) (hms + 1) (256 ^ Z.of_nat (frac_bytes fsp) - f) Hw); try lia.
      * destruct (Z.ltb_spec (0x800000 - hms - 1 - 0x800000) 0); [f_equal; lia | lia].
      * unfold time2_frac. destruct (Z.eqb_spec (256 ^ Z.of_nat (frac_bytes fsp) - f) 0); [lia|]. simpl. f_equal; lia.
  - apply (K _ 1 hms f Hw); try lia; [|reflexivity].
    destruct (Z.ltb_spec (0x800000 + hms - 0x800000) 0); [lia | f_equal; lia].
Qed.

(** ** The pre-5.6 TIME format *)

(** A TIME is stored as the number [hhmmss], negated for a negative value, in
    three little-endian bytes. *)
Definition time_encode (neg : bool) (h m s : Z) : list Z :=
  le_bytes 3 ((if neg then -1 else 1) * (h * 10000 + m * 100 + s)).

(** The duration of hours that carry the sign and of positive minutes and
    seconds, without overflow. *)
Lemma time_duration sg h m s :
  sg = 1 \/ sg = -1 -> 0 <= h <= 838 -> 0 <= m < 60 -> 0 <= s < 60 ->
  Duration_Microseconds (i64 (i32 (i32 (sg * h * 3600) + i32 (m * 60) + s) * time_Second))
  = (sg * (h * 3600) + m * 60 + s) * 1000000.
Proof.
  intros Hsg Hh Hm Hs. unfold Duration_Microseconds, i64, i32, time_Second.
  rewrite (signed_id 32 (_ * h * 3600)) by lia. rewrite (signed_id 32 (m * 60)) by lia.
  rewrite (signed_id 32 (_ + _ + s)) by lia. rewrite signed_id by lia.
  destruct Hsg as [-> | ->]; Z.to_euclidean_division_equations; lia.
Qed.

(** The digits of a signed [hhmmss]: every component has the sign. *)
Lemma hhmmss_digits sg h m s :
  sg = 1 \/ sg = -1 -> 0 <= h -> 0 <= m < 60 -> 0 <= s < 60 ->
  let v := sg * (h * 10000 + m * 100 + s) in
  Z.quot v 10000 = sg * h /\ Z.quot (Z.rem v 10000) 100 = sg * m /\ Z.rem v 100 = sg * s.
Proof. intros [-> | ->] Hh Hm Hs v; unfold v; repeat split; Z.to_euclidean_division_equations; lia. Qed.

Lemma cell_Time_value data pos neg h m s b :
  0 <= h <= 838 -> 0 <= m < 60 -> 0 <= s < 60 -> h * 10000 + m * 100 + s <> 0 \/ neg = false ->
  builder_class (b_type b) = DurationBuilder -> window data pos (time_encode neg h m s) ->
  cell_Time data pos b
  = Ret (b_append (CDuration (((if neg then -1 else 1) * (h * 3600) + m * 60 + s) * 1000000)) b, 3, None).
Proof.
  intros Hh Hm Hs Hn Hb Hw. unfold time_encode in Hw. set (sg := if neg then -1 else 1) in *.
  assert (Hsg : sg = 1 \/ sg = -1) by (unfold sg; destruct neg; auto).
  destruct (hhmmss_digits sg h m s Hsg) as (Q1 & Q2 & Q3); [lia..|].
  set (N := h * 10000 + m * 100 + s) in *. assert (HN : 0 <= N <= 8385959) by (unfold N; lia).
  set (v := sg * N) in *.
  assert (Hs3 : sum3 data pos = Ret (v mod 2 ^ 24)).
  { cbn [le_bytes] in Hw. rewrite (sum3_window _ _ _ _ _ Hw). f_equal. exact (le_nat_bytes 3 v). }
  assert (H2' : index data (pos + 2) = Ret (v / 256 / 256 mod 256)).
  { eapply window_index; [exact Hw | lia | reflexivity]. }
  unfold cell_Time, sum3_neg. rewrite H2', Hs3, !bind_Ret, land_128, Z.div_div by (lia || apply Z.mod_pos_bound; lia).
  pose proof (time_duration sg h m s Hsg Hh Hm Hs) as Fin.
  destruct neg; unfold sg in v; unfold v in *.
  - assert ((128 <=? -1 * N / (256 * 256) mod 256) = true) as -> by (apply Z.leb_le; Z.to_euclidean_division_equations; lia).
    replace (-1 * N mod 2 ^ 24) with (2 ^ 24 - N) by (apply Z.mod_unique with (-1); lia).
    change (u32 (Z.shiftl 255 24)) with (255 * 2 ^ 24).
    replace (i32 (u32 (2 ^ 24 - N + 255 * 2 ^ 24))) with (-1 * N).
    2: { unfold i32, u32. replace (2 ^ 24 - N + 255 * 2 ^ 24) with (-1 * N + 1 * 2 ^ 32) by lia.
         rewrite Z.mod_add, signed_mod, signed_id; lia. }
    rewrite bind_Ret, Q1, Q2, Q3. replace (i32 (- (sg * m))) with m by (unfold i32, sg; rewrite signed_id; lia).
    replace (i32 (- (sg * s))) with s by (unfold i32, sg; rewrite signed_id; lia).
    rewrite Fin, append_as_ok by exact Hb. reflexivity.
  - assert ((128 <=? 1 * N / (256 * 256) mod 256) = false) as -> by (apply Z.leb_gt; Z.to_euclidean_division_equations; lia).
    rewrite (Z.mod_small (1 * N)), bind_Ret, Q1, Q2, Q3 by lia.
    replace (sg * m) with m by (unfold sg; lia). replace (sg * s) with s by (unfold sg; lia).
    rewrite Fin, append_as_ok by exact Hb. reflexivity.
Qed.
End Temporal.
