(* ===== verification/RbrSafe.v ===== *)
(** * The decoder does not panic on well-typed cells

    A column's Arrow builder is the one [toArrowType] chooses.  For every
    binlog type that a column of a SQL type can have, and data that holds the
    whole cell, [CellValue] returns: no index is out of range, no type
    assertion fails.  Of a DECIMAL the bytes have to be those of a number of
    the declared precision, of a JSON document they have to be one that the
    parser takes: on others the decoder panics. *)

From S2P Require Import Prelude GoTime Charset Schema Rbr RbrFacts RbrDecimal.

(** Signedness and binary-ness as sqltypes documents them. *)
Class VitessLaws `{VitessLib} : Prop := {
  IsSigned_signed : forall q, In q [Q_INT8; Q_INT16; Q_INT24; Q_INT32; Q_INT64] -> IsSigned q = true;
  IsSigned_unsigned : forall q, In q [Q_UINT8; Q_UINT16; Q_UINT24; Q_UINT32; Q_UINT64] -> IsSigned q = false;
  IsBinary_BINARY : IsBinary Q_BINARY = true;
}.

(** [compat typ metadata t]: MySQL logs columns of type [t] with the type code
    [typ] and this metadata. *)
Inductive compat : Z -> Z -> MySQLType -> Prop :=
| compat_Tiny md t : In (t_type t) [Q_INT8; Q_UINT8] -> compat TypeTiny md t
| compat_Short md t : In (t_type t) [Q_INT16; Q_UINT16] -> compat TypeShort md t
| compat_Int24 md t : In (t_type t) [Q_INT24; Q_UINT24] -> compat TypeInt24 md t
| compat_Long md t : In (t_type t) [Q_INT32; Q_UINT32] -> compat TypeLong md t
| compat_LongLong md t : In (t_type t) [Q_INT64; Q_UINT64] -> compat TypeLongLong md t
| compat_Year md t : t_type t = Q_YEAR -> compat TypeYear md t
| compat_Float md t : t_type t = Q_FLOAT32 -> compat TypeFloat md t
| compat_Double md t : t_type t = Q_FLOAT64 -> compat TypeDouble md t
| compat_Timestamp md t : t_type t = Q_TIMESTAMP -> compat TypeTimestamp md t
| compat_DateTime md t : t_type t = Q_DATETIME -> compat TypeDateTime md t
| compat_Timestamp2 md t : t_type t = Q_TIMESTAMP -> 0 <= md <= 6 -> compat TypeTimestamp2 md t
| compat_DateTime2 md t : t_type t = Q_DATETIME -> 0 <= md <= 6 -> compat TypeDateTime2 md t
| compat_Date typ md t : typ = TypeDate \/ typ = TypeNewDate -> t_type t = Q_DATE -> compat typ md t
| compat_Time md t : t_type t = Q_TIME -> compat TypeTime md t
| compat_Time2 md t : t_type t = Q_TIME -> 0 <= md <= 6 -> compat TypeTime2 md t
| compat_Varchar typ md t : typ = TypeVarchar \/ typ = TypeVarString ->
    (t_type t = Q_VARCHAR /\ is_Some (t_charset t)) \/ t_type t = Q_VARBINARY -> compat typ md t
| compat_Bit md t : t_type t = Q_BIT -> bit_length md <= 8 -> compat TypeBit md t
| compat_Enum md t : t_type t = Q_ENUM -> is_Some (t_enum_at t) -> compat TypeEnum md t
| compat_Set md t : t_type t = Q_SET -> is_Some (t_set_bits t) -> compat TypeSet md t
| compat_StringEnum md t : Z.shiftr md 8 = TypeEnum -> t_type t = Q_ENUM -> is_Some (t_enum_at t) -> compat TypeString md t
| compat_StringSet md t : Z.shiftr md 8 = TypeSet -> t_type t = Q_SET -> is_Some (t_set_bits t) -> compat TypeString md t
| compat_Char md t : Z.shiftr md 8 <> TypeEnum -> Z.shiftr md 8 <> TypeSet ->
    t_type t = Q_CHAR -> is_Some (t_charset t) -> compat TypeString md t
| compat_Binary md t : Z.shiftr md 8 <> TypeEnum -> Z.shiftr md 8 <> TypeSet ->
    t_type t = Q_BINARY -> string_max md <= 255 -> compat TypeString md t
| compat_Blob typ md t : In typ [TypeTinyBlob; TypeMediumBlob; TypeLongBlob; TypeBlob; TypeVector] ->
    (t_type t = Q_TEXT /\ is_Some (t_charset t)) \/ t_type t = Q_BLOB -> compat typ md t
| compat_Geometry md t : t_type t = Q_GEOMETRY -> compat TypeGeometry md t.

(** ** Reads inside the data *)
Section Reads.
Context (data : slice).
Hypothesis Hwf : slice_wf data.

Lemma read_in_range {B} pos n (f : list Z -> Z) (k : Z -> outcome B) :
  0 <= pos -> pos + Z.of_nat n <= Z.of_nat (s_len data) ->
  exists v, (t ← subslice data pos (pos + Z.of_nat n); val ← (l ← read_bytes t n; Ret (f l)); k val) = k v.
Proof.
  intros Hp Hn. destruct (window_exists data pos n Hwf Hp Hn) as (l & Hw & Hl & _).
  exists (f l). transitivity (t ← subslice data pos (pos + Z.of_nat n); l ← read_bytes t n; k (f l)).
  { destruct (subslice data pos (pos + Z.of_nat n)) as [t|]; [|reflexivity]. simpl.
    destruct (read_bytes t n); reflexivity. }
  rewrite (read_window data pos l n (fun l => k (f l)) Hwf Hw) by lia.
  rewrite take_ge by lia. reflexivity.
Qed.

Lemma subslice_in_range i j :
  0 <= i <= j -> j <= Z.of_nat (s_len data) -> returns (subslice data i j).
Proof. intros. eexists. apply subslice_returns; [lia | destruct Hwf; lia]. Qed.

Lemma le2_in_range pos : 0 <= pos -> pos + 2 <= Z.of_nat (s_len data) -> returns (le2 data pos).
Proof.
  intros. unfold le2.
  destruct (index_returns data pos Hwf ltac:(lia)) as (? & -> & _).
  destruct (index_returns data (pos + 1) Hwf ltac:(lia)) as (? & -> & _). eexists. reflexivity.
Qed.

Lemma sum3_in_range pos : 0 <= pos -> pos + 3 <= Z.of_nat (s_len data) -> returns (sum3 data pos).
Proof.
  intros. unfold sum3.
  destruct (index_returns data pos Hwf ltac:(lia)) as (? & -> & _).
  destruct (index_returns data (pos + 1) Hwf ltac:(lia)) as (? & -> & _).
  destruct (index_returns data (pos + 2) Hwf ltac:(lia)) as (? & -> & _). eexists. reflexivity.
Qed.

Ltac eval_quot Hl :=
  match type of Hl with context [Z.quot (?k + 1) 2] =>
    let q := eval vm_compute in (Z.quot (k + 1) 2) in change (Z.quot (k + 1) 2) with q in Hl end.

Lemma frac_part_in_range pos md :
  0 <= md <= 6 -> 0 <= pos -> pos + Z.quot (md + 1) 2 <= Z.of_nat (s_len data) -> returns (frac_part data pos md).
Proof.
  intros Hmd Hp Hl. unfold frac_part.
  assert (md = 0 \/ md = 1 \/ md = 2 \/ md = 3 \/ md = 4 \/ md = 5 \/ md = 6) as Hc by lia.
  repeat destruct Hc as [-> | Hc]; [..|subst md]; eval_quot Hl; cbn -[index be2 be3 Z.add] in *;
    try (eexists; reflexivity); unfold be2, be3;
    repeat match goal with |- context [index data ?i] =>
      destruct (index_returns data i Hwf ltac:(lia)) as (? & -> & _); cbn -[index Z.add time2_frac] end; eexists; reflexivity.
Qed.

Lemma time2_switch_in_range pos md sign hms :
  0 <= md <= 6 -> 0 <= pos -> pos + 3 + Z.quot (md + 1) 2 <= Z.of_nat (s_len data) ->
  returns (time2_switch data pos md sign hms).
Proof.
  intros Hmd Hp Hl. unfold time2_switch.
  assert (md = 0 \/ md = 1 \/ md = 2 \/ md = 3 \/ md = 4 \/ md = 5 \/ md = 6) as Hc by lia.
  repeat destruct Hc as [-> | Hc]; [..|subst md]; eval_quot Hl; cbn -[index time2_be2 time2_be3 Z.add time2_frac] in *;
    try (eexists; reflexivity); unfold time2_be2, time2_be3;
    repeat match goal with |- context [index data ?i] =>
      destruct (index_returns data i Hwf ltac:(lia)) as (? & -> & _); cbn -[index Z.add time2_frac] end;
    destruct (time2_frac _ _ _ _); eexists; reflexivity.
Qed.

Lemma set_bits_in_range n : forall pos i val, 0 <= pos + i ->
  pos + i + Z.of_nat n <= Z.of_nat (s_len data) -> returns (set_bits n data pos i val).
Proof.
  induction n as [|n IH]; intros pos i val Hp Hl; simpl; [eexists; reflexivity|].
  destruct (index_returns data (pos + i) Hwf ltac:(lia)) as (? & -> & _). rewrite bind_Ret. apply IH; lia.
Qed.

Lemma blob_length_nonneg pos md l : blob_length data pos md = Ret (Some l) -> 0 <= l.
Proof.
  unfold blob_length, le2, le3, le4. intros. go_inv;
    repeat match goal with E : index data _ = Ret _ |- _ => apply (index_byte _ _ _ Hwf) in E; unfold is_byte in E end;
    try (apply Z.mod_pos_bound; lia);
    repeat (apply Z.lor_nonneg; split); try apply Z.shiftl_nonneg; try discriminate; lia.
Qed.
End Reads.

Section Safe.
Context `{ArrowLib} `{Codecs} `{VitessLib} `{!VitessLaws}.
Context (data : slice) (pos : Z) (b : builder).
Hypothesis Hwf : slice_wf data.
Hypothesis Hpos : 0 <= pos.

Lemma append_as_returns cl c n : builder_class (b_type b) = cl -> returns (b' ← append_as cl c b; done n b').
Proof. intros E. rewrite append_as_ok by exact E. eexists. reflexivity. Qed.

Lemma append_text_returns ct src n cs :
  CharacterSet_of ct = Ret cs -> builder_class (b_type b) = StringBuilder -> returns (append_text ct src n b).
Proof.
  intros Hcs Hb. unfold append_text. rewrite Hcs, bind_Ret.
  destruct (DecodeBytes cs src) as [u [e|]]; [eexists; reflexivity|].
  apply append_as_returns, Hb.
Qed.

(** Fixed-width cells. *)
Lemma sized_int_safe n ft sgn uns (conv : Z -> Z) k :
  pos + Z.of_nat n <= Z.of_nat (s_len data) ->
  builder_class (b_type b) = (if IsSigned ft then sgn else uns) ->
  returns (t ← subslice data pos (pos + Z.of_nat n); val ← (l ← read_bytes t n; Ret (le_nat l));
           b' ← (if IsSigned ft then append_as sgn (CInt (conv val)) b else append_as uns (CInt val) b);
           done k b').
Proof.
  intros Hl Hb. destruct (read_in_range data Hwf pos n le_nat (fun val =>
    b' ← (if IsSigned ft then append_as sgn (CInt (conv val)) b else append_as uns (CInt val) b); done k b') Hpos Hl)
    as (v & ->).
  destruct (IsSigned ft); apply append_as_returns, Hb.
Qed.

Lemma sized_cell_safe n (f : list Z -> Z) cl (mk : Z -> cell num128 num256) k :
  pos + Z.of_nat n <= Z.of_nat (s_len data) -> builder_class (b_type b) = cl ->
  returns (t ← subslice data pos (pos + Z.of_nat n); val ← (l ← read_bytes t n; Ret (f l));
           b' ← append_as cl (mk val) b; done k b').
Proof.
  intros Hl Hb. destruct (read_in_range data Hwf pos n f (fun val => b' ← append_as cl (mk val) b; done k b') Hpos Hl)
    as (v & ->). apply append_as_returns, Hb.
Qed.

Lemma cell_Tiny_safe ft : pos + 1 <= Z.of_nat (s_len data) ->
  builder_class (b_type b) = (if IsSigned ft then Int8Builder else Uint8Builder) -> returns (cell_Tiny data pos ft b).
Proof.
  intros Hl Hb. unfold cell_Tiny. destruct (index_returns data pos Hwf ltac:(lia)) as (v & -> & _).
  rewrite bind_Ret. destruct (IsSigned ft); apply append_as_returns, Hb.
Qed.

Lemma cell_Year_safe : pos + 1 <= Z.of_nat (s_len data) ->
  builder_class (b_type b) = Uint16Builder -> returns (cell_Year data pos b).
Proof.
  intros Hl Hb. unfold cell_Year. destruct (index_returns data pos Hwf ltac:(lia)) as (v & -> & _).
  rewrite bind_Ret. destruct (v =? 0); apply append_as_returns, Hb.
Qed.

Lemma cell_Int24_safe ft : pos + 3 <= Z.of_nat (s_len data) ->
  builder_class (b_type b) = (if IsSigned ft then Int32Builder else Uint32Builder) -> returns (cell_Int24 data pos ft b).
Proof.
  intros Hl Hb. unfold cell_Int24, sum3_neg.
  destruct (index_returns data (pos + 2) Hwf ltac:(lia)) as (v & -> & _).
  destruct (sum3_in_range data Hwf pos Hpos Hl) as (w & ->).
  destruct (IsSigned ft); rewrite !bind_Ret; [destruct (0 <? Z.land v 128); rewrite ?bind_Ret|];
    [apply append_as_returns, Hb | rewrite Hb; eexists; reflexivity | rewrite Hb; eexists; reflexivity].
Qed.

Lemma cell_Date_safe : pos + 3 <= Z.of_nat (s_len data) ->
  builder_class (b_type b) = Date32Builder -> returns (cell_Date data pos b).
Proof.
  intros Hl Hb. unfold cell_Date. destruct (sum3_in_range data Hwf pos Hpos Hl) as (w & ->).
  rewrite bind_Ret. apply append_as_returns, Hb.
Qed.

Lemma cell_Time_safe : pos + 3 <= Z.of_nat (s_len data) ->
  builder_class (b_type b) = DurationBuilder -> returns (cell_Time data pos b).
Proof.
  intros Hl Hb. unfold cell_Time, sum3_neg. destruct (index_returns data (pos + 2) Hwf ltac:(lia)) as (v & -> & _).
  destruct (sum3_in_range data Hwf pos Hpos Hl) as (w & ->).
  rewrite !bind_Ret. destruct (0 <? Z.land v 128); rewrite bind_Ret; apply append_as_returns, Hb.
Qed.

Lemma cell_Timestamp2_safe md : 0 <= md <= 6 -> pos + 4 + Z.quot (md + 1) 2 <= Z.of_nat (s_len data) ->
  builder_class (b_type b) = TimestampBuilder -> returns (cell_Timestamp2 data pos md b).
Proof.
  intros Hmd Hl Hb. assert (0 <= Z.quot (md + 1) 2) by (apply Z.quot_pos; lia).
  unfold cell_Timestamp2, BigEndian_Uint32. change (subslice data pos (pos + 4)) with (subslice data pos (pos + Z.of_nat 4)).
  destruct (frac_part_in_range data Hwf (pos + 4) md Hmd ltac:(lia) ltac:(lia)) as ([[f m] n] & ->).
  match goal with |- returns (mbind (fun t => mbind ?k _) _) =>
    destruct (read_in_range data Hwf pos 4 be_nat k Hpos ltac:(lia)) as (v & ->) end.
  rewrite bind_Ret. apply append_as_returns, Hb.
Qed.

Lemma cell_DateTime2_safe md : 0 <= md <= 6 -> pos + 5 + Z.quot (md + 1) 2 <= Z.of_nat (s_len data) ->
  builder_class (b_type b) = TimestampBuilder -> returns (cell_DateTime2 data pos md b).
Proof.
  intros Hmd Hl Hb. assert (0 <= Z.quot (md + 1) 2) by (apply Z.quot_pos; lia). unfold cell_DateTime2.
  destruct (frac_part_in_range data Hwf (pos + 5) md Hmd ltac:(lia) ltac:(lia)) as ([[f m] n] & ->).
  repeat match goal with |- context [index data ?i] =>
    destruct (index_returns data i Hwf ltac:(lia)) as (? & -> & _); rewrite bind_Ret end.
  rewrite bind_Ret. apply append_as_returns, Hb.
Qed.

Lemma cell_Time2_safe md : 0 <= md <= 6 -> pos + 3 + Z.quot (md + 1) 2 <= Z.of_nat (s_len data) ->
  builder_class (b_type b) = DurationBuilder -> returns (cell_Time2 data pos md b).
Proof.
  intros Hmd Hl Hb. assert (0 <= Z.quot (md + 1) 2) by (apply Z.quot_pos; lia). unfold cell_Time2, time2_be3.
  repeat match goal with |- context [index data ?i] =>
    destruct (index_returns data i Hwf ltac:(lia)) as (? & -> & _); rewrite bind_Ret end.
  rewrite bind_Ret. destruct (if _ <? 0 then _ else _) as [hms sign].
  destruct (time2_switch_in_range data Hwf pos md sign hms Hmd Hpos Hl) as ([[h f] m] & ->).
  rewrite bind_Ret. apply append_as_returns, Hb.
Qed.

(** Cells with a computed or prefixed length. *)
Lemma bit_length_nonneg md : 0 <= md -> 0 <= bit_length md.
Proof.
  intros. unfold bit_length. apply Z.quot_pos; [|lia].
  assert (0 <= u16 (u16 (Z.shiftr md 8 * 8) + Z.land md 255)) by (apply Z.mod_pos_bound; lia). lia.
Qed.

Lemma cell_Bit_safe md : 0 <= md -> bit_length md <= 8 -> pos + bit_length md <= Z.of_nat (s_len data) ->
  builder_class (b_type b) = Uint64Builder -> returns (cell_Bit data pos md b).
Proof.
  intros Hmd H8 Hl Hb. unfold cell_Bit. pose proof (bit_length_nonneg md Hmd).
  destruct (Z.ltb_spec 8 (bit_length md)); [lia|].
  destruct (subslice_in_range data Hwf pos (pos + bit_length md)) as (t & ->); [lia | lia |].
  rewrite bind_Ret. apply append_as_returns, Hb.
Qed.

Lemma land_255_nonneg md : 0 <= md -> 0 <= Z.land md 255.
Proof. intros. apply Z.land_nonneg. lia. Qed.

Lemma cell_Enum_safe md ct at_ : 0 <= md -> pos + Z.land md 255 <= Z.of_nat (s_len data) ->
  EnumAt_of ct = Ret at_ -> builder_class (b_type b) = StringBuilder -> returns (cell_Enum data pos md ct b).
Proof.
  intros Hmd Hl Hat Hb. unfold cell_Enum. rewrite Hat.
  destruct (Z.eqb_spec (Z.land md 255) 1) as [E1|E1]; [|destruct (Z.eqb_spec (Z.land md 255) 2) as [E2|E2]];
    simpl orb; cbv iota; [..|eexists; reflexivity].
  - destruct (index_returns data pos Hwf ltac:(lia)) as (v & -> & _). rewrite !bind_Ret.
    destruct (at_ v); [apply append_as_returns, Hb | eexists; reflexivity].
  - destruct (read_in_range data Hwf pos 2 le_nat Ret Hpos ltac:(lia)) as (v & E).
    assert (Er : (s ← subslice data pos (pos + 2); LittleEndian_Uint16 s) = Ret v).
    { rewrite <- E. unfold LittleEndian_Uint16. change (pos + 2) with (pos + Z.of_nat 2).
      destruct (subslice _ _ _) as [t|]; [|reflexivity]. simpl. destruct (read_bytes t 2); reflexivity. }
    rewrite Er, !bind_Ret. destruct (at_ v); [apply append_as_returns, Hb | eexists; reflexivity].
Qed.

Lemma cell_Set_safe md ct bits : 0 <= md -> pos + Z.land md 255 <= Z.of_nat (s_len data) ->
  SetBits_of ct = Ret bits -> builder_class (b_type b) = StringBuilder -> returns (cell_Set data pos md ct b).
Proof.
  intros Hmd Hl Hat Hb. pose proof (land_255_nonneg md Hmd). unfold cell_Set. rewrite Hat.
  destruct (set_bits_in_range data Hwf (Z.to_nat (Z.land md 255)) pos 0 0 ltac:(lia) ltac:(lia)) as (v & ->).
  rewrite !bind_Ret. destruct (bits v); [apply append_as_returns, Hb | eexists; reflexivity].
Qed.

Lemma le2_nonneg p v : le2 data p = Ret v -> 0 <= v.
Proof.
  unfold le2. intros. go_inv.
  repeat match goal with E : index data _ = Ret _ |- _ => apply (index_byte _ _ _ Hwf) in E; unfold is_byte in E end.
  apply Z.lor_nonneg. rewrite Z.shiftl_nonneg. lia.
Qed.

Lemma cell_Varchar_safe md ct ft n : string_length data pos md = Ret n -> pos + n <= Z.of_nat (s_len data) ->
  (ft = Q_VARCHAR /\ builder_class (b_type b) = StringBuilder /\ returns (CharacterSet_of ct)) \/
  (ft = Q_VARBINARY /\ builder_class (b_type b) = BinaryBuilder) -> returns (cell_Varchar data pos md ct ft b).
Proof.
  intros Hn Hl Hft. unfold cell_Varchar, string_length in *.
  assert (Fin : forall src size, returns
    (if decide ((if decide (ft = Q_VARBINARY \/ ft = Q_BINARY \/ ft = Q_BLOB) then ft else Q_VARCHAR) = Q_VARCHAR)
     then append_text ct src size b else b' ← append_as BinaryBuilder (CBytes src) b; done size b')).
  { intros src size. destruct Hft as [(-> & Hb & (cs & Hcs)) | (-> & Hb)]; simpl.
    - eapply append_text_returns; eassumption.
    - apply append_as_returns, Hb. }
  destruct (255 <? md); go_inv.
  - match goal with E : le2 _ _ = _ |- _ => pose proof (le2_nonneg _ _ E); rewrite E, bind_Ret end.
    destruct (subslice_in_range data Hwf (pos + 2) (pos + 2 + x)) as (t & ->); [lia | lia |]. apply Fin.
  - match goal with E : index _ _ = _ |- _ => pose proof (index_byte _ _ _ Hwf E) as Hx; rewrite E, bind_Ret end.
    unfold is_byte in Hx.
    destruct (subslice_in_range data Hwf (pos + 1) (pos + 1 + x)) as (t & ->); [lia | lia |]. apply Fin.
Qed.

(** CHAR and BINARY. *)
Lemma cell_String_safe md ct ft n : Z.shiftr md 8 <> TypeEnum -> Z.shiftr md 8 <> TypeSet ->
  string_length data pos (string_max md) = Ret n -> pos + n <= Z.of_nat (s_len data) ->
  (ft = Q_CHAR /\ builder_class (b_type b) = StringBuilder /\ returns (CharacterSet_of ct)) \/
  (ft = Q_BINARY /\ builder_class (b_type b) = BinaryBuilder /\ string_max md <= 255) ->
  returns (cell_String data pos md ct ft b).
Proof.
  intros N1 N2 Hn Hl Hft. unfold cell_String, string_length in *.
  destruct (Z.eqb_spec (Z.shiftr md 8) TypeEnum), (Z.eqb_spec (Z.shiftr md 8) TypeSet); try contradiction.
  destruct (Z.ltb_spec 255 (string_max md)); go_inv.
  - destruct Hft as [(-> & Hb & (cs & Hcs)) | (_ & _ & Hmax)]; [|lia].
    match goal with E : le2 _ _ = _ |- _ => pose proof (le2_nonneg _ _ E); rewrite E, bind_Ret end.
    destruct (subslice_in_range data Hwf (pos + 2) (pos + 2 + x)) as (t & ->); [lia | lia |].
    eapply append_text_returns; eassumption.
  - match goal with E : index _ _ = _ |- _ => pose proof (index_byte _ _ _ Hwf E) as Hx; rewrite E, bind_Ret end.
    unfold is_byte in Hx.
    destruct (subslice_in_range data Hwf (pos + 1) (pos + 1 + x)) as (t & ->); [lia | lia |]. rewrite bind_Ret.
    destruct Hft as [(-> & Hb & (cs & Hcs)) | (-> & Hb & Hmax)].
    + destruct (IsBinary Q_CHAR); [destruct (decide _) as [E|_]; [congruence|]|]; eapply append_text_returns; eassumption.
    + rewrite IsBinary_BINARY. destruct (decide _); [eexists; reflexivity | contradiction].
Qed.

Lemma cell_Blob_safe typ md ct ft l : typ <> TypeJSON -> 0 <= md -> blob_length data pos md = Ret (Some l) ->
  pos + (md + l) <= Z.of_nat (s_len data) ->
  (ft = Q_TEXT /\ builder_class (b_type b) = StringBuilder /\ returns (CharacterSet_of ct)) \/
  (ft = Q_BLOB /\ builder_class (b_type b) = BinaryBuilder) -> returns (cell_Blob data pos typ md ct ft b).
Proof.
  intros Hj Hmd Hb Hl Hft. pose proof (blob_length_nonneg data Hwf _ _ _ Hb).
  unfold cell_Blob. rewrite Hb, bind_Ret. destruct (Z.eqb_spec typ TypeJSON); [contradiction|].
  destruct (subslice_in_range data Hwf (pos + md) (pos + md + l)) as (t & Ht); [lia | lia |].
  destruct Hft as [(-> & Hbb & (cs & Hcs)) | (-> & Hbb)]; simpl decide; cbv iota; rewrite Hbb.
  - destruct (decide _) as [E|_]; [discriminate|]. rewrite Hcs, Ht, !bind_Ret.
    destruct (DecodeBytes cs (bytes_of t)) as [u [e|]]; eexists; reflexivity.
  - destruct (decide _) as [E|_]; [discriminate|]. rewrite Ht. eexists. reflexivity.
Qed.

Lemma cell_Geometry_safe md l : 0 <= md -> blob_length data pos md = Ret (Some l) ->
  pos + (md + l) <= Z.of_nat (s_len data) -> builder_class (b_type b) = BinaryBuilder ->
  returns (cell_Geometry data pos md b).
Proof.
  intros Hmd Hb Hl Hbb. pose proof (blob_length_nonneg data Hwf _ _ _ Hb).
  unfold cell_Geometry. rewrite Hb, bind_Ret.
  destruct (subslice_in_range data Hwf (pos + md) (pos + md + l)) as (t & ->); [lia | lia |].
  rewrite bind_Ret. apply append_as_returns, Hbb.
Qed.
End Safe.

Section Main.
Context `{ArrowLib} `{Codecs} `{VitessLib} `{!VitessLaws}.

(** The builder class [toArrowType] gives a column type. *)
Definition class_for (q : qtype) : BuilderClass :=
  match q with
  | Q_INT8 => Int8Builder | Q_UINT8 => Uint8Builder | Q_INT16 => Int16Builder | Q_UINT16 | Q_YEAR => Uint16Builder
  | Q_INT24 | Q_INT32 => Int32Builder | Q_UINT24 | Q_UINT32 => Uint32Builder
  | Q_INT64 => Int64Builder | Q_UINT64 | Q_BIT => Uint64Builder
  | Q_FLOAT32 => Float32Builder | Q_FLOAT64 => Float64Builder
  | Q_TIMESTAMP | Q_DATETIME => TimestampBuilder | Q_DATE => Date32Builder | Q_TIME => DurationBuilder
  | Q_TEXT | Q_VARCHAR | Q_CHAR | Q_ENUM | Q_SET | Q_JSON => StringBuilder
  | Q_BLOB | Q_VARBINARY | Q_BINARY | Q_GEOMETRY => BinaryBuilder
  | _ => OtherBuilder
  end.

Lemma toArrowType_class m at_ : toArrowType (TMySQL m) = Ret at_ -> t_type m <> Q_DECIMAL ->
  builder_class at_ = class_for (t_type m).
Proof.
  simpl. intros Ht Hd. destruct (t_type m); try congruence; go_inv; simpl; repeat case_match; reflexivity || congruence.
Qed.

Lemma string_length_CellLength data pos max n :
  (if 255 <? max then l ← le2 data pos; Ret (l + 2, None) else l ← index data pos; Ret (l + 1, None))
  = Ret (n, None : option CellError) -> string_length data pos max = Ret n.
Proof.
  unfold string_length. destruct (255 <? max); intros; go_inv;
    repeat match goal with E : _ = Ret _ |- _ => rewrite E; clear E end; rewrite ?bind_Ret; congruence.
Qed.

Lemma blob_length_CellLength data pos md n :
  (l ← blob_length data pos md;
   match l with Some l => Ret (md + l, None) | None => Ret (0, Some (ErrBlobMetadata md)) end) = Ret (n, None) ->
  exists l, blob_length data pos md = Ret (Some l) /\ n = md + l.
Proof.
  intros Hl. apply bind_Ret_inv in Hl. destruct Hl as ([l|] & E & Hl); [|discriminate].
  go_inv. eauto.
Qed.

Ltac side := first [eassumption | lia | match goal with Hint : forall q sgn uns, _ |- _ => apply Hint; simpl; tauto end].

Theorem CellValue_safe data pos typ md col m b n :
  slice_wf data -> 0 <= pos -> 0 <= md -> col_type col = TMySQL m -> compat typ md m ->
  toArrowType (col_type col) = Ret (b_type b) ->
  CellLength data pos typ md = Ret (n, None) -> pos + n <= Z.of_nat (s_len data) ->
  returns (CellValue data pos typ md col b).
Proof.
  intros Hwf Hpos Hmd Hcol Hc Ht HL Hl. rewrite Hcol in Ht.
  assert (Hcl : t_type m <> Q_DECIMAL -> builder_class (b_type b) = class_for (t_type m))
    by (intros; apply toArrowType_class; assumption).
  assert (Hsig := IsSigned_signed). assert (Huns := IsSigned_unsigned).
  assert (Hcs : is_Some (t_charset m) -> returns (CharacterSet_of (col_type col))).
  { intros (cs & E). exists cs. rewrite Hcol. unfold CharacterSet_of. simpl. rewrite E. reflexivity. }
  assert (Hen : is_Some (t_enum_at m) -> returns (EnumAt_of (col_type col))).
  { intros (cs & E). exists cs. rewrite Hcol. unfold EnumAt_of. simpl. rewrite E. reflexivity. }
  assert (Hse : is_Some (t_set_bits m) -> returns (SetBits_of (col_type col))).
  { intros (cs & E). exists cs. rewrite Hcol. unfold SetBits_of. simpl. rewrite E. reflexivity. }
  unfold CellValue. assert (E : Type_of (col_type col) = Ret (t_type m)) by (rewrite Hcol; reflexivity).
  rewrite E, bind_Ret. clear E Hcol.
  clear Ht. assert (Hint : forall q sgn uns, In q [Q_INT8; Q_INT16; Q_INT24; Q_INT32; Q_INT64] /\ builder_class (b_type b) = sgn \/
      In q [Q_UINT8; Q_UINT16; Q_UINT24; Q_UINT32; Q_UINT64] /\ builder_class (b_type b) = uns ->
      builder_class (b_type b) = if IsSigned q then sgn else uns).
  { intros q sgn uns [[Hq Hb] | [Hq Hb]]; [rewrite (Hsig _ Hq) | rewrite (Huns _ Hq)]; exact Hb. }
  destruct Hc;
    repeat match goal with
    | E : In _ (_ :: _) |- _ => destruct E as [E|E]
    | E : In _ [] |- _ => destruct E
    | E : _ \/ _ |- _ => destruct E as [E|E]
    | E : _ /\ _ |- _ => destruct E
    end; subst;
    match goal with E : t_type _ = _ |- _ => rewrite E in * | E : _ = t_type _ |- _ => rewrite <- E in * end;
    specialize (Hcl ltac:(discriminate)); unfold CellLength in HL; simpl in HL;
    try (injection HL as <-);
    cbn -[cell_Tiny cell_Year cell_Short cell_Int24 cell_Long cell_Float cell_Double cell_Timestamp cell_LongLong
          cell_Date cell_Time cell_DateTime cell_Varchar cell_Bit cell_Timestamp2 cell_DateTime2 cell_Time2
          cell_Enum cell_Set cell_Blob cell_String cell_Geometry];
    first
    [ apply cell_Tiny_safe; side
    | apply (sized_int_safe data pos b Hwf Hpos 2); side
    | apply (sized_int_safe data pos b Hwf Hpos 4); side
    | apply (sized_int_safe data pos b Hwf Hpos 8); side
    | apply cell_Int24_safe; side
    | apply (sized_cell_safe data pos b Hwf Hpos 4); side
    | apply (sized_cell_safe data pos b Hwf Hpos 8); side
    | apply cell_Year_safe; side
    | apply cell_Date_safe; side
    | apply cell_Time_safe; side
    | apply cell_Timestamp2_safe; side
    | apply cell_DateTime2_safe; side
    | apply cell_Time2_safe; side
    | apply cell_Bit_safe; side
    | eapply cell_Varchar_safe; [assumption.. | apply string_length_CellLength; exact HL | exact Hl | tauto]
    | destruct (Hen ltac:(assumption)) as (f & Hf); eapply cell_Enum_safe; side
    | destruct (Hse ltac:(assumption)) as (f & Hf); eapply cell_Set_safe; side
    | apply blob_length_CellLength in HL; destruct HL as (l & HL & ->);
      first [eapply cell_Blob_safe; [assumption.. | discriminate | assumption | exact HL | exact Hl | tauto]
            | eapply cell_Geometry_safe; side]
    | match goal with Hs : Z.shiftr md 8 = _ |- _ => unfold cell_String; rewrite Hs in * end; simpl in *;
      injection HL as <-;
      first [destruct (Hen ltac:(assumption)) as (f & Hf); eapply cell_Enum_safe; side
            | destruct (Hse ltac:(assumption)) as (f & Hf); eapply cell_Set_safe; side]
    | rewrite (proj2 (Z.eqb_neq _ TypeEnum)), (proj2 (Z.eqb_neq _ TypeSet)) in HL by assumption;
      eapply cell_String_safe;
      [assumption.. | apply string_length_CellLength; exact HL | exact Hl | tauto] ].
Qed.
(** The bytes of a cell as the source logs it: any bytes of the cell's length for most
    types; for a DECIMAL, declared here as at the source, the packed digits of a number;
    for JSON, in MySQL's binary format or as text, a document that the parser takes. *)
Definition blob_body (data : slice) (pos md : Z) (doc : list Z) : Prop :=
  exists l t, blob_length data pos md = Ret (Some l) /\ subslice data (pos + md) (pos + md + l) = Ret t /\ bytes_of t = doc.
Inductive logged (data : slice) (pos : Z) : Z -> Z -> MySQLType -> Prop :=
| logged_bytes typ md m : compat typ md m -> logged data pos typ md m
| logged_decimal p s neg coeff m : t_type m = Q_DECIMAL -> t_decimal m = Some (p, s) -> 0 <= s <= p -> 0 < p <= 65 -> 0 <= coeff < 10 ^ p ->
    window data pos (decimal_encode p s neg coeff) -> logged data pos TypeNewDecimal (p * 256 + s) m
| logged_json md m doc : t_type m = Q_JSON -> blob_body data pos md doc -> is_Some (ParseBinaryJSON_Marshal doc) -> logged data pos TypeJSON md m
| logged_json_text typ md m doc : t_type m = Q_JSON -> In typ [TypeTinyBlob; TypeMediumBlob; TypeLongBlob; TypeBlob] ->
    blob_body data pos md doc -> is_Some (ParseJSON_Marshal doc) -> logged data pos typ md m.

Lemma cell_Blob_json data pos typ md ct doc b : builder_class (b_type b) = StringBuilder -> blob_body data pos md doc ->
  is_Some (if typ =? TypeJSON then ParseBinaryJSON_Marshal doc else ParseJSON_Marshal doc) -> returns (cell_Blob data pos typ md ct Q_JSON b).
Proof.
  intros Hb (l & t & Hl & Ht & <-) (d & Hd). unfold cell_Blob. rewrite Hl, bind_Ret. cbn zeta. destruct (typ =? TypeJSON); [|rewrite decide_True by reflexivity]; rewrite Ht, bind_Ret, Hd; cbn [assert_some]; rewrite bind_Ret; apply append_as_returns, Hb.
Qed.

Theorem CellValue_safe_logged `{!ArrowLaws} `{!ArrowLaws256} data pos typ md col m b n :
  slice_wf data -> 0 <= pos -> 0 <= md -> col_type col = TMySQL m -> logged data pos typ md m ->
  toArrowType (col_type col) = Ret (b_type b) ->
  CellLength data pos typ md = Ret (n, None) -> pos + n <= Z.of_nat (s_len data) ->
  returns (CellValue data pos typ md col b).
Proof.
  intros Hwf Hpos Hmd Hcol Hlog Ht HL Hl. assert (E : Type_of (col_type col) = Ret (t_type m)) by (rewrite Hcol; reflexivity).
  destruct Hlog as [typ md m Hc|p s neg coeff m Hq Hd Hs Hp Hc Hw|md m doc Hq Hdoc Hj|typ md m doc Hq Hin Hdoc Hj].
  - eapply CellValue_safe; eassumption.
  - rewrite Hcol in Ht. destruct (declared_decimal_fits m _ p s coeff Hq Hd Ht Hs ltac:(lia) Hc) as (w & Hb & Hfit).
    pose proof (CellValue_decimal_window data pos p s neg coeff col _ b s w E Hb Hs Hp Hc Hwf Hw) as H'. rewrite Z.ltb_irrefl, andb_false_r in H'.
    destruct (H' Hfit) as (c & -> & _). eexists. reflexivity.
  - rewrite Hcol in Ht. assert (Hcl : builder_class (b_type b) = StringBuilder) by (rewrite (toArrowType_class m _ Ht), Hq by congruence; reflexivity).
    unfold CellValue. rewrite E, bind_Ret, Hq. exact (cell_Blob_json data pos TypeJSON md _ doc b Hcl Hdoc Hj).
  - rewrite Hcol in Ht. assert (Hcl : builder_class (b_type b) = StringBuilder) by (rewrite (toArrowType_class m _ Ht), Hq by congruence; reflexivity).
    unfold CellValue. rewrite E, bind_Ret, Hq. cbn [In] in Hin. repeat destruct Hin as [Hin|Hin]; try contradiction; subst typ;
    match goal with _ : CellLength _ _ ?typ _ = _ |- _ => exact (cell_Blob_json data pos typ md _ doc b Hcl Hdoc Hj) end.
Qed.
End Main.
