(* ===== verification/InternalTables.v ===== *)
(** * Statements over the internal tables (src/catalog/internal_tables.go)

    The prepared statements the position store, the subscription table and the
    persisted variables use.  [placeholders] counts the parameters of a
    statement, which must be the arguments its callers pass. *)

From S2P Require Import Prelude Identifier.

Record InternalTable : Type := mkInternalTable {
  it_Schema : string; it_Name : string; KeyColumns : list string; ValueColumns : list string; DDL : string
}.

Definition QualifiedName (it : InternalTable) : string := it_Schema it +:+ "." +:+ it_Name it.

Definition eq_param (c : string) : string := c +:+ " = ?".

(** [cs[0]] and then the rest, each with its prefix; an empty slice is an index panic. *)
Definition first_then (sep : string) (f : string -> string) (cs : list string) : outcome string :=
  match cs with
  | [] => Panic
  | c :: cs' => Ret (f c +:+ foldr String.append EmptyString (map (fun c => sep +:+ f c) cs'))
  end.

Definition UpdateStmt (it : InternalTable) (keyColumns valueColumns : list string) : outcome string :=
  sets ← first_then ", " eq_param valueColumns;
  keys ← first_then ", " eq_param keyColumns;
  Ret ("UPDATE " +:+ QualifiedName it +:+ " SET " +:+ sets +:+ " WHERE " +:+ keys).

Definition UpdateAllStmt (it : InternalTable) (valueColumns : list string) : outcome string :=
  sets ← first_then ", " eq_param valueColumns;
  Ret ("UPDATE " +:+ QualifiedName it +:+ " SET " +:+ sets).

Definition UpsertStmt (it : InternalTable) : outcome string :=
  match KeyColumns it with
  | [] => Panic
  | _ :: keys =>
      Ret ("INSERT OR REPLACE INTO " +:+ QualifiedName it +:+ " VALUES (?"
           +:+ foldr String.append EmptyString (map (fun _ => ", ?") keys)
           +:+ foldr String.append EmptyString (map (fun _ => ", ?") (ValueColumns it)) +:+ ")")
  end.

(** The conditions after the first have no separator. *)
Definition DeleteStmt (it : InternalTable) : outcome string :=
  keys ← first_then EmptyString eq_param (KeyColumns it);
  Ret ("DELETE FROM " +:+ QualifiedName it +:+ " WHERE " +:+ keys).

Definition DeleteAllStmt (it : InternalTable) : string := "DELETE FROM " +:+ QualifiedName it.

Definition SelectColumnsStmt (it : InternalTable) (valueColumns : list string) : outcome string :=
  cols ← first_then ", " id valueColumns;
  keys ← first_then " AND " eq_param (KeyColumns it);
  Ret ("SELECT " +:+ cols +:+ " FROM " +:+ QualifiedName it +:+ " WHERE " +:+ keys).

Definition SelectStmt (it : InternalTable) : outcome string :=
  cols ← first_then ", " id (ValueColumns it);
  keys ← first_then " AND " eq_param (KeyColumns it);
  Ret ("SELECT " +:+ cols +:+ " FROM " +:+ QualifiedName it +:+ " WHERE " +:+ keys).

Definition SelectAllStmt (it : InternalTable) : string := "SELECT * FROM " +:+ QualifiedName it.
Definition CountAllStmt (it : InternalTable) : string := "SELECT COUNT(*)" +:+ " FROM " +:+ QualifiedName it.

Definition PersistentVariable : InternalTable :=
  mkInternalTable "__sys__" "persistent_variable" ["name"] ["value"; "vtype"] "name TEXT PRIMARY KEY, value TEXT, vtype TEXT".
Definition BinlogPosition : InternalTable :=
  mkInternalTable "__sys__" "binlog_position" ["channel"] ["position"] "channel TEXT PRIMARY KEY, position TEXT".
Definition PgSubscription : InternalTable :=
  mkInternalTable "__sys__" "pg_subscription" ["subname"] ["subconninfo"; "subpublication"; "subskiplsn"; "subenabled"]
    "subname TEXT PRIMARY KEY, subconninfo TEXT, subpublication TEXT, subskiplsn TEXT, subenabled BOOLEAN".
Definition GlobalStatus : InternalTable :=
  mkInternalTable "performance_schema" "global_status" ["VARIABLE_NAME"] ["VARIABLE_VALUE"]
    "VARIABLE_NAME TEXT PRIMARY KEY, VARIABLE_VALUE TEXT".

(** ** Parameters *)
Definition qmark : Ascii.ascii := Ascii.ascii_of_nat 63.

Fixpoint placeholders (s : string) : nat :=
  match s with
  | EmptyString => 0
  | String c s' => ((if Ascii.eqb c qmark then 1 else 0) + placeholders s')%nat
  end.

(** [count_params] evaluates the parameters of literal text. *)
Ltac count_params :=
  repeat match goal with
  | |- context [placeholders (String ?c ?s)] =>
      let n := eval vm_compute in (placeholders (String c s)) in change (placeholders (String c s)) with n
  end.

Lemma placeholders_app s1 s2 : placeholders (s1 +:+ s2) = (placeholders s1 + placeholders s2)%nat.
Proof. induction s1 as [|c s1 IH]; simpl; [reflexivity|]. rewrite IH. lia. Qed.

Lemma placeholders_concat {A} (f : A -> string) n l : (forall x, placeholders (f x) = n) ->
  placeholders (foldr String.append EmptyString (map f l)) = (n * length l)%nat.
Proof.
  intros Hf. induction l as [|x l IH]; simpl; [lia|].
  fold (foldr String.append EmptyString). rewrite placeholders_app, Hf. simpl in IH. rewrite IH. lia.
Qed.

(** Names without a question mark. *)
Definition plain_names (it : InternalTable) : Prop :=
  Forall (fun c => placeholders c = 0%nat) (it_Schema it :: it_Name it :: KeyColumns it ++ ValueColumns it).

Lemma placeholders_name it : plain_names it -> placeholders (QualifiedName it) = 0%nat.
Proof.
  intros Hp. inversion Hp as [|? ? Hs Hp']; subst. inversion Hp' as [|? ? Hn _]; subst.
  unfold QualifiedName. rewrite !placeholders_app, Hs, Hn. reflexivity.
Qed.

Lemma placeholders_params sep cs s : Forall (fun c => placeholders c = 0%nat) cs -> placeholders sep = 0%nat ->
  first_then sep eq_param cs = Ret s -> placeholders s = length cs.
Proof.
  intros Hc Hsep. destruct cs as [|c cs]; [discriminate|]. simpl. intros [= <-].
  inversion Hc as [|? ? H0 Hcs]; subst. rewrite placeholders_app. unfold eq_param at 1.
  rewrite placeholders_app, H0. change (placeholders " = ?") with 1%nat.
  assert (E : placeholders (foldr String.append EmptyString (map (fun c => sep +:+ eq_param c) cs)) = length cs); [|lia].
  clear H0 Hc c. induction Hcs as [|c cs Hc Hcs IH]; [reflexivity|]. cbn [map foldr length].
  rewrite !placeholders_app, IH, Hsep. unfold eq_param. rewrite placeholders_app, Hc. reflexivity.
Qed.
