(* ===== verification/Delta.v ===== *)
(** * The delta buffer (src/delta)

    [DeltaAppender] (delta.go): one Arrow builder per column of the augmented
    schema, and the counters of what was appended.  [DeltaController]
    (controller.go): the appenders by table, the SQL texts it builds, and
    [Flush], which writes every buffered change through one DuckDB
    transaction.  DuckDB is a parameter ([DuckDB]). *)

From S2P Require Import Prelude GoTime Charset Schema Identifier.
From stdpp Require Import pretty.

#[local] Open Scope Z_scope.

(** ** Flush reasons (flush_reason.go) *)
Inductive FlushReason : Type :=
| UnknownFlushReason | DDLStmtFlushReason | DMLStmtFlushReason | RowCountLimitFlushReason
| MemoryLimitFlushReason | TimeTickFlushReason | QueryFlushReason | InitFlushReason | OnCloseFlushReason.

#[export] Instance FlushReason_eq_dec : EqDecision FlushReason.
Proof. solve_decision. Defined.

Definition FlushReason_String (r : FlushReason) : string :=
  match r with
  | DDLStmtFlushReason => "DDLStmt"
  | DMLStmtFlushReason => "DMLStmt"
  | RowCountLimitFlushReason => "RowCountLimit"
  | MemoryLimitFlushReason => "MemoryLimit"
  | TimeTickFlushReason => "TimeTick"
  | QueryFlushReason => "Query"
  | InitFlushReason => "Init"
  | OnCloseFlushReason => "OnClose"
  | UnknownFlushReason => "Unknown"
  end.

(** [configuration.IsReplicationWithoutIndex] on the value of the environment variable. *)
Definition toLower (c : Ascii.ascii) : Ascii.ascii :=
  let n := Ascii.nat_of_ascii c in
  if (65 <=? n)%nat && (n <=? 90)%nat then Ascii.ascii_of_nat (n + 32) else c.
Fixpoint strings_ToLower (s : string) : string :=
  match s with EmptyString => EmptyString | String c s' => String (toLower c) (strings_ToLower s') end.

Definition IsReplicationWithoutIndex (env : string) : bool :=
  bool_decide (strings_ToLower env ∈ [EmptyString; "y"; "t"; "1"; "on"; "yes"; "true"]).

(** ** Table identifiers *)
Record tableIdentifier : Type := mkTableId { dbName : string; tableName : string }.

#[export] Instance tableIdentifier_eq_dec : EqDecision tableIdentifier.
Proof. solve_decision. Defined.

(** ** Counters *)
Record Counters : Type := mkCounters {
  event_delete : Z; event_insert : Z; event_update : Z; action_delete : Z; action_insert : Z
}.
Definition zeroCounters : Counters := mkCounters 0 0 0 0 0.

Section Delta.
Context `{ArrowLib}.

(** ** The appender *)
Record DeltaAppender : Type := mkAppender {
  a_schema : list Column;       (* augmented *)
  a_fields : list builder;      (* of the augmented schema *)
  a_counters : Counters
}.

(** The SQL types of the augmented columns: Int8, Text, Blob, Text, Uint64, Uint64. *)
Definition plain_type (q : qtype) : SqlType := TMySQL (mkMySQLType q None None None None None).
Definition augmentedColumns : list Column :=
  [ mkColumn "action" (plain_type Q_INT8) false;
    mkColumn "txn_tag" (plain_type Q_TEXT) false;
    mkColumn "txn_server" (plain_type Q_BLOB) false;
    mkColumn "txn_group" (plain_type Q_TEXT) false;
    mkColumn "txn_seq" (plain_type Q_UINT64) false;
    mkColumn "txn_stmt" (plain_type Q_UINT64) false ].
Definition AugmentedColumnList : string := "action, txn_tag, txn_server, txn_group, txn_seq, txn_stmt".

Definition newDeltaAppender (schema : list Column) : outcome DeltaAppender :=
  let augmented := augmentedColumns ++ schema in
  types ← ToArrowSchema (map col_type augmented) [1; 2; 3]%nat;
  Ret (mkAppender augmented (map new_builder types) zeroCounters).

Definition NumAugmentedFields : nat := 6.
Definition Schema (a : DeltaAppender) : list Column := a_schema a.
Definition BaseSchema (a : DeltaAppender) : list Column := drop 6 (a_schema a).
Definition Fields (a : DeltaAppender) : list builder := drop 6 (a_fields a).

(** [Action().Len()]; the type assertion holds for every appender [newDeltaAppender] makes. *)
Definition RowCount (a : DeltaAppender) : nat :=
  match a_fields a with f :: _ => length (b_cells f) | [] => O end.

Definition UpdateActionStats (action : RowEventType) (count : Z) (c : Counters) : Counters :=
  match action with
  | DeleteRowEvent => mkCounters (event_delete c) (event_insert c) (event_update c) (action_delete c + count) (action_insert c)
  | InsertRowEvent => mkCounters (event_delete c) (event_insert c) (event_update c) (action_delete c) (action_insert c + count)
  | UpdateRowEvent => c
  end.

(** The event counters count events; [count] is not used. *)
Definition ObserveEvents (event : RowEventType) (count : Z) (c : Counters) : Counters :=
  match event with
  | DeleteRowEvent => mkCounters (event_delete c + 1) (event_insert c) (event_update c) (action_delete c) (action_insert c)
  | InsertRowEvent => mkCounters (event_delete c) (event_insert c + 1) (event_update c) (action_delete c) (action_insert c)
  | UpdateRowEvent => mkCounters (event_delete c) (event_insert c) (event_update c + 1) (action_delete c) (action_insert c)
  end.

Definition set_counters (f : Counters -> Counters) (a : DeltaAppender) : DeltaAppender :=
  mkAppender (a_schema a) (a_fields a) (f (a_counters a)).
Definition ResetCounters (a : DeltaAppender) : DeltaAppender := set_counters (fun _ => zeroCounters) a.

(** An [arrow.Record]: field names and columns. *)
Record ArrowRecord : Type := mkRecord { r_names : list string; r_columns : list (list (cell num128 num256)) }.

(** [RecordBuilder.NewRecord] empties the builders, and panics when the columns
    have different lengths. *)
Definition Build (a : DeltaAppender) : outcome (ArrowRecord * DeltaAppender) :=
  let cols := map b_cells (a_fields a) in
  if decide (Forall (fun c => length c = RowCount a) cols) then
    Ret (mkRecord (map col_name (a_schema a)) cols,
         mkAppender (a_schema a) (map (fun f => new_builder (b_type f)) (a_fields a)) (a_counters a))
  else Panic.

(** The rows of a record. *)
Definition row_at (r : ArrowRecord) (i : nat) : list (cell num128 num256) :=
  omap (fun c => c !! i) (r_columns r).
Definition rows_of (r : ArrowRecord) : list (list (cell num128 num256)) :=
  match r_columns r with
  | [] => []
  | c :: _ => map (row_at r) (seq 0 (length c))
  end.

(** ** SQL texts *)

(** [types.IsTimestampType] of go-mysql-server holds of the TIMESTAMP base type. *)
Definition isTimestampType (t : SqlType) : bool :=
  match t with
  | TMySQL m => bool_decide (t_type m = Q_TIMESTAMP)
  | TPostgres p => pg_oid (PG p) =? TimestampOID
  end.

Definition columnItem (col : Column) : string :=
  QuoteIdentifierANSI (col_name col) +:+ (if isTimestampType (col_type col) then "::TIMESTAMP" else EmptyString).

Definition buildColumnList (schema : list Column) : string := strings_Join ", " (map columnItem schema).

Fixpoint pk_indices_from (i : nat) (schema : list Column) : list nat :=
  match schema with
  | [] => []
  | col :: s => if col_pk col then i :: pk_indices_from (S i) s else pk_indices_from (S i) s
  end.
Definition getPrimaryKeyIndices (a : DeltaAppender) : list nat :=
  pk_indices_from NumAugmentedFields (BaseSchema a).

Definition pk_names (schema : list Column) : list string :=
  map (fun c => QuoteIdentifierANSI (col_name c)) (List.filter col_pk schema).

Definition getPrimaryKeyStruct (schema : list Column) : string :=
  match pk_names schema with
  | [] => EmptyString
  | [pk] => pk
  | pks => "row(" +:+ strings_Join ", " pks +:+ ")"
  end.

Definition getPrimaryKeyList (schema : list Column) : string := strings_Join ", " (pk_names schema).

Definition strconv_Itoa (n : nat) : string := pretty n.

(** [, r[k] AS "name"] for the [i]-th column after the first. *)
Definition condenseItem (i : nat) (col : Column) : string :=
  ", r[" +:+ strconv_Itoa (i + 2) +:+ "]"
  +:+ (if isTimestampType (col_type col) then "::TIMESTAMP" else EmptyString)
  +:+ " AS " +:+ QuoteIdentifierANSI (col_name col).

Definition buildCondenseDeltaSQL (viewName : string) (a : DeltaAppender) : string :=
  let pkList := getPrimaryKeyList (BaseSchema a) in
  match Schema a with
  | [] => EmptyString (* augmentedSchema[0]: an appender always has the six columns *)
  | c0 :: cols =>
      "SELECT " +:+ "r[1] AS " +:+ QuoteIdentifierANSI (col_name c0)
      +:+ foldr String.append EmptyString (imap condenseItem cols)
      +:+ " FROM (SELECT " +:+ pkList
      +:+ ", LAST(ROW(*COLUMNS(*)) ORDER BY txn_group, txn_seq, txn_stmt, action) AS r"
      +:+ " FROM " +:+ viewName +:+ " GROUP BY " +:+ pkList +:+ ")"
  end.

(** The statements of the five ways to write a delta. *)
Definition qualifiedName (t : tableIdentifier) : string := ConnectIdentifiersANSI [dbName t; tableName t].

Definition insertOnlySQL (t : tableIdentifier) (a : DeltaAppender) (viewName : string) : string :=
  "INSERT INTO " +:+ qualifiedName t +:+ " SELECT " +:+ buildColumnList (BaseSchema a) +:+ " FROM " +:+ viewName.

Definition deleteOnlySQL (t : tableIdentifier) (a : DeltaAppender) (viewName : string) : string :=
  let pk := getPrimaryKeyStruct (BaseSchema a) in
  "DELETE FROM " +:+ qualifiedName t +:+ " WHERE " +:+ pk +:+ " IN (SELECT " +:+ pk +:+ " FROM " +:+ viewName +:+ ")".

Definition zeroDeleteSQL (t : tableIdentifier) (a : DeltaAppender) (viewName : string) : string :=
  "INSERT OR REPLACE INTO " +:+ qualifiedName t +:+ " SELECT * EXCLUDE (" +:+ AugmentedColumnList +:+ ") FROM ("
  +:+ buildCondenseDeltaSQL viewName a +:+ ")".

Definition materializeSQL (a : DeltaAppender) (viewName : string) : string :=
  "CREATE OR REPLACE TEMP TABLE delta AS " +:+ buildCondenseDeltaSQL viewName a.

Definition dropDeltaSQL : string := "DROP TABLE IF EXISTS temp.main.delta".

Definition generalInsertSQL (t : tableIdentifier) : string :=
  "INSERT OR REPLACE INTO " +:+ qualifiedName t +:+ " SELECT * EXCLUDE (" +:+ AugmentedColumnList
  +:+ ") FROM temp.main.delta WHERE action = " +:+ strconv_Itoa (Z.to_nat (RowEventType_code InsertRowEvent)).

Definition generalDeleteSQL (t : tableIdentifier) (a : DeltaAppender) : string :=
  let inTuple := getPrimaryKeyStruct (BaseSchema a) in
  "DELETE FROM " +:+ qualifiedName t +:+ " WHERE " +:+ inTuple +:+ " IN (SELECT " +:+ inTuple
  +:+ "FROM temp.main.delta WHERE action = " +:+ strconv_Itoa (Z.to_nat (RowEventType_code DeleteRowEvent)) +:+ ")".

Definition noIndexDeleteSQL (t : tableIdentifier) (a : DeltaAppender) : string :=
  let inTuple := getPrimaryKeyStruct (BaseSchema a) in
  "DELETE FROM " +:+ qualifiedName t +:+ " WHERE " +:+ inTuple +:+ " IN (SELECT " +:+ inTuple
  +:+ "FROM temp.main.delta)".

Definition noIndexInsertSQL (t : tableIdentifier) : string :=
  "INSERT INTO " +:+ qualifiedName t +:+ " SELECT * EXCLUDE (" +:+ AugmentedColumnList +:+ ") "
  +:+ "FROM temp.main.delta WHERE action = " +:+ strconv_Itoa (Z.to_nat (RowEventType_code InsertRowEvent)).

(** ** DuckDB

    What the controller calls on its connection: making an Arrow handle,
    registering a record as a view, releasing the view, and executing a
    statement, which gives the affected rows or an error. *)
Class DuckDB : Type := {
  db : Type;
  NewArrowFromConn : db -> bool;
  RegisterView : string -> ArrowRecord -> db -> option db;
  ReleaseView : string -> db -> db;
  ExecContext : string -> db -> db * option Z;
}.
End Delta.
Arguments DeltaAppender {_}.
Arguments ArrowRecord {_}.
Arguments DuckDB {_}.

(** ** The controller *)
Inductive FlushError : Type := ErrNoActiveTransaction | ErrArrow | ErrRegisterView | ErrExec (sql : string).

Record FlushStats : Type := mkStats { DeltaSize : Z; Insertions : Z; Deletions : Z }.
Definition zeroStats : FlushStats := mkStats 0 0 0.
Definition add_stats (size ins del : Z) (s : FlushStats) : FlushStats :=
  mkStats (DeltaSize s + size) (Insertions s + ins) (Deletions s + del).

Section Controller.
Context `{ArrowLib} `{!DuckDB}.
(** [strconv.FormatUint(maphash.String(seed, s), 16)]. *)
Context (viewHash : string -> string).

Definition viewNameOf (t : tableIdentifier) : string :=
  "__sys_view_arrow_delta_" +:+ viewHash (dbName t +:+ String Ascii.zero EmptyString +:+ tableName t) +:+ "__".

(** What a handler leaves: the database, the appender, the statistics and the error. *)
Definition flush_result : Type := db * DeltaAppender * FlushStats * option FlushError.

(** The projection of the record before it is registered. *)
Definition project (fieldOffset : nat) (fieldIndices : list nat) (r : ArrowRecord) : ArrowRecord :=
  if (0 <? fieldOffset)%nat then mkRecord (drop fieldOffset (r_names r)) (drop fieldOffset (r_columns r))
  else if (0 <? length fieldIndices)%nat then
    mkRecord (omap (fun i => r_names r !! i) fieldIndices) (omap (fun i => r_columns r !! i) fieldIndices)
  else r.

Definition prepareArrowView (t : tableIdentifier) (a : DeltaAppender) (fieldOffset : nat)
    (fieldIndices : list nat) (d : db) : outcome (DeltaAppender * (db * string + FlushError)) :=
  '(record, a) ← Build a;
  if NewArrowFromConn d then
    let viewName := viewNameOf t in
    match RegisterView viewName (project fieldOffset fieldIndices record) d with
    | Some d' => Ret (a, inl (d', viewName))
    | None => Ret (a, inr ErrRegisterView)
    end
  else Ret (a, inr ErrArrow).

(** The deferred [close]: its errors are ignored. *)
Definition closeView (viewName : string) (d : db) : db :=
  ReleaseView viewName (fst (ExecContext ("DROP VIEW IF EXISTS " +:+ viewName) d)).

(** [tx.ExecContext] followed by [RowsAffected]. *)
Definition exec (sql : string) (d : db) : db * (Z + FlushError) :=
  match ExecContext sql d with
  | (d', Some n) => (d', inl n)
  | (d', None) => (d', inr (ErrExec sql))
  end.

(** A handler that runs one statement over the view. *)
Definition handleView (fieldOffset : nat) (fieldIndices : DeltaAppender -> list nat)
    (mk_sql : DeltaAppender -> string -> string) (upd : Z -> FlushStats -> FlushStats)
    (t : tableIdentifier) (a : DeltaAppender) (st : FlushStats) (d : db) : outcome flush_result :=
  '(a, r) ← prepareArrowView t a fieldOffset (fieldIndices a) d;
  match r with
  | inr e => Ret (d, a, st, Some e)
  | inl (d, viewName) =>
      match exec (mk_sql a viewName) d with
      | (d, inr e) => Ret (closeView viewName d, a, st, Some e)
      | (d, inl affected) => Ret (closeView viewName d, a, upd affected st, None)
      end
  end.

Definition handleInsertOnly (t : tableIdentifier) : DeltaAppender -> FlushStats -> db -> outcome flush_result :=
  handleView NumAugmentedFields (fun _ => []) (insertOnlySQL t) (fun n => add_stats n n 0) t.

Definition handleDeleteOnly (t : tableIdentifier) : DeltaAppender -> FlushStats -> db -> outcome flush_result :=
  handleView 0 getPrimaryKeyIndices (deleteOnlySQL t) (fun n => add_stats n 0 n) t.

Definition handleZeroDelete (t : tableIdentifier) : DeltaAppender -> FlushStats -> db -> outcome flush_result :=
  handleView 0 (fun _ => []) (zeroDeleteSQL t) (fun n => add_stats n n 0) t.

Definition materializeCondensedDelta (t : tableIdentifier) : DeltaAppender -> FlushStats -> db -> outcome flush_result :=
  handleView 0 (fun _ => []) materializeSQL (fun n => add_stats n 0 0) t.

Definition dropDelta (d : db) : db := fst (ExecContext dropDeltaSQL d).

Definition handleGeneralCase (t : tableIdentifier) (a : DeltaAppender) (st : FlushStats) (d : db) : outcome flush_result :=
  '(d, a, st, e) ← materializeCondensedDelta t a st d;
  match e with
  | Some e => Ret (d, a, st, Some e)
  | None =>
      match exec (generalInsertSQL t) d with
      | (d, inr e) => Ret (dropDelta d, a, st, Some e)
      | (d, inl affected) =>
          let st := add_stats 0 affected 0 st in
          match exec (generalDeleteSQL t a) d with
          | (d, inr e) => Ret (dropDelta d, a, st, Some e)
          | (d, inl affected) => Ret (dropDelta d, a, add_stats 0 0 affected st, None)
          end
      end
  end.

Definition handleWithoutIndex (t : tableIdentifier) (a : DeltaAppender) (st : FlushStats) (d : db) : outcome flush_result :=
  '(d, a, st, e) ← materializeCondensedDelta t a st d;
  match e with
  | Some e => Ret (d, a, st, Some e)
  | None =>
      match exec (noIndexDeleteSQL t a) d with
      | (d, inr e) => Ret (dropDelta d, a, st, Some e)
      | (d, inl affected) =>
          let st := add_stats 0 0 affected st in
          match exec (noIndexInsertSQL t) d with
          | (d, inr e) => Ret (dropDelta d, a, st, Some e)
          | (d, inl affected) => Ret (dropDelta d, a, add_stats 0 affected 0 st, None)
          end
      end
  end.

(** [tx] is whether there is a transaction; [env] the value of REPLICATION_WITHOUT_INDEX. *)
Definition updateTable (tx : bool) (env : string) (t : tableIdentifier) (a : DeltaAppender)
    (st : FlushStats) (d : db) : outcome flush_result :=
  if negb tx then Ret (d, a, st, Some ErrNoActiveTransaction) else
  let c := a_counters a in
  let hasInserts := 0 <? event_insert c in
  let hasDeletes := 0 <? event_delete c in
  let hasUpdates := 0 <? event_update c in
  let withoutIndex := IsReplicationWithoutIndex env in
  '(d, a, st, e) ←
    (if hasInserts && negb hasDeletes && negb hasUpdates then handleInsertOnly t a st d
     else if hasDeletes && negb hasInserts && negb hasUpdates then handleDeleteOnly t a st d
     else if (action_delete c =? 0) && negb withoutIndex then handleZeroDelete t a st d
     else if withoutIndex then handleWithoutIndex t a st d
     else handleGeneralCase t a st d);
  Ret (d, ResetCounters a, st, e).

(** [1 << bits.Len64(uint64(n)-1)]: the rows reserved for the next delta. *)
Definition growTo (n : nat) : Z := Z.shiftl 1 (if (n <=? 1)%nat then 0 else Z.log2 (Z.of_nat n - 1) + 1).

(** The tables, in the order the map iteration visits them. *)
Definition Tables : Type := list (tableIdentifier * DeltaAppender).

Fixpoint lookup_table (id : tableIdentifier) (ts : Tables) : option DeltaAppender :=
  match ts with
  | [] => None
  | (id', a) :: ts' => if decide (id = id') then Some a else lookup_table id ts'
  end.

(** [None] for the error of [newDeltaAppender] cannot happen: [ToArrowType] panics instead. *)
Definition GetDeltaAppender (id : tableIdentifier) (schema : list Column) (ts : Tables)
    : outcome (DeltaAppender * Tables) :=
  match lookup_table id ts with
  | Some a => Ret (a, ts)
  | None => a ← newDeltaAppender schema; Ret (a, ts ++ [(id, a)])
  end.

(** Writing an appender back: the source mutates it through the pointer. *)
Fixpoint update_table (id : tableIdentifier) (f : DeltaAppender -> DeltaAppender) (ts : Tables) : Tables :=
  match ts with
  | [] => []
  | (id', a) :: ts' => if decide (id = id') then (id', f a) :: ts' else (id', a) :: update_table id f ts'
  end.

Definition Close (ts : Tables) : Tables := [].

Fixpoint Flush (tx : bool) (env : string) (reason : FlushReason) (ts : Tables) (st : FlushStats) (d : db)
    : outcome (db * Tables * FlushStats * option FlushError) :=
  match ts with
  | [] => Ret (d, [], st, None)
  | (t, a) :: ts' =>
      '(d, a, st, e) ← (if (0 <? RowCount a)%nat then updateTable tx env t a st d else Ret (d, a, st, None));
      match e with
      | Some e => Ret (d, (t, a) :: ts', st, Some e)
      | None =>
          '(d, ts', st, e) ← Flush tx env reason ts' st d;
          Ret (d, (if decide (reason = DDLStmtFlushReason) then ts' else (t, a) :: ts'), st, e)
      end
  end.
End Controller.
