(* ===== verification/DeltaSpec.v ===== *)
(** * What a flush means

    The specification of a delta is the sequence of its row actions: a DELETE
    removes the row with the key, an INSERT puts the row in the place of the
    one with its key.  [SqlLaws] states, per statement the controller builds,
    what DuckDB documents of it.  The theorems: every way [updateTable] writes
    a delta has the effect of applying the actions one by one, and the
    intermediate objects (view, temporary table) do not matter. *)

From S2P Require Import Prelude GoTime Charset Schema Identifier Delta.

(** ** Order of delta rows: txn_group, txn_seq, txn_stmt, action *)
Fixpoint lex {A} (c : A -> A -> comparison) (a b : list A) : comparison :=
  match a, b with
  | [], [] => Eq
  | [], _ => Lt
  | _, [] => Gt
  | x :: a', y :: b' => match c x y with Eq => lex c a' b' | r => r end
  end.

(** A total preorder given by its comparison. *)
Record good_cmp {A} (c : A -> A -> comparison) : Prop := mkGoodCmp {
  g_antisym : forall x y, c y x = CompOpp (c x y);
  g_eq : forall x y z, c x y = Eq -> c x z = c y z;
  g_trans : forall x y z, c x y = Lt -> c y z = Lt -> c x z = Lt
}.

Lemma good_refl {A} (c : A -> A -> comparison) x : good_cmp c -> c x x = Eq.
Proof. intros Hc. pose proof (g_antisym _ Hc x x). destruct (c x x); auto; discriminate. Qed.

(** First by [c1], ties by [c2]. *)
Lemma good_then {A} (c1 c2 : A -> A -> comparison) : good_cmp c1 -> good_cmp c2 ->
  good_cmp (fun x y => match c1 x y with Eq => c2 x y | r => r end).
Proof.
  intros G1 G2. split.
  - intros x y. rewrite (g_antisym _ G1 x y). destruct (c1 x y); simpl; [apply (g_antisym _ G2) | reflexivity..].
  - intros x y z. destruct (c1 x y) eqn:E1; try discriminate. intros E2.
    rewrite (g_eq _ G1 x y z E1), (g_eq _ G2 x y z E2). reflexivity.
  - intros x y z. destruct (c1 x y) eqn:E1; try discriminate.
    + rewrite (g_eq _ G1 x y z E1). destruct (c1 y z); try discriminate; auto. apply (g_trans _ G2).
    + intros _. destruct (c1 y z) eqn:E2; try discriminate; intros _.
      * assert (E2' : c1 z y = Eq) by (rewrite (g_antisym _ G1 y z), E2; reflexivity).
        pose proof (g_antisym _ G1 x z) as A1. rewrite (g_eq _ G1 z y x E2'), (g_antisym _ G1 x y), E1 in A1.
        destruct (c1 x z); simpl in A1; auto; discriminate.
      * rewrite (g_trans _ G1 x y z E1 E2). reflexivity.
Qed.

Lemma good_pull {A B} (f : A -> B) (c : B -> B -> comparison) : good_cmp c -> good_cmp (fun x y => c (f x) (f y)).
Proof. intros G. split; intros; [apply (g_antisym _ G) | apply (g_eq _ G); assumption | eapply (g_trans _ G); eassumption]. Qed.

Lemma Z_good : good_cmp Z.compare.
Proof.
  split; intros.
  - apply Z.compare_antisym.
  - apply Z.compare_eq in H. congruence.
  - rewrite Z.compare_lt_iff in *. lia.
Qed.

Lemma lex_good {A} (c : A -> A -> comparison) : good_cmp c -> good_cmp (lex c).
Proof.
  intros G. split.
  - induction x as [|x a IH]; intros [|y b]; simpl; auto. rewrite (g_antisym _ G x y). destruct (c x y); simpl; auto.
  - induction x as [|x a IH]; intros [|y b] [|z d]; simpl; try discriminate; auto.
    + destruct (c x y) eqn:E; try discriminate. intros Hl. rewrite (g_eq _ G x y z E). rewrite (IH b d Hl). reflexivity.
  - induction x as [|x a IH]; intros [|y b] [|z d]; simpl; try discriminate; auto.
    destruct (c x y) eqn:E1; try discriminate.
    + rewrite (g_eq _ G x y z E1). destruct (c y z); try discriminate; auto. apply IH.
    + intros _. destruct (c y z) eqn:E2; try discriminate; intros _.
      * assert (E2' : c z y = Eq) by (rewrite (g_antisym _ G y z), E2; reflexivity).
        pose proof (g_antisym _ G x z) as A1. rewrite (g_eq _ G z y x E2'), (g_antisym _ G x y), E1 in A1.
        destruct (c x z); simpl in A1; auto; discriminate.
      * rewrite (g_trans _ G x y z E1 E2). reflexivity.
Qed.

Section Spec.
Context `{ArrowLib} `{!EqDecision (cell num128 num256)}.

Abbreviation row := (list (cell num128 num256)).

(** ORDER BY on one column: numbers, byte strings, NULLS LAST.  A column has
    values of one kind; the kinds are ranked so that the order is total. *)
Definition cell_rank (c : cell num128 num256) : Z :=
  match c with
  | CInt _ => 0 | CFloat32bits _ => 1 | CFloat64bits _ => 2 | CTime _ => 3 | CDate32 _ => 4 | CDuration _ => 5
  | CBytes _ => 6 | CDecimal128 _ => 7 | CDecimal256 _ => 8 | CBool _ => 9 | CTime64 _ => 10 | CList _ => 11
  | CNull => 12
  end.
Definition cell_content (c : cell num128 num256) : list Z :=
  match c with CInt z => [z] | CDate32 z => [z] | CDuration z => [z] | CBytes bs => bs | _ => [] end.
Definition cell_cmp (a b : cell num128 num256) : comparison :=
  match cell_rank a ?= cell_rank b with Eq => lex Z.compare (cell_content a) (cell_content b) | r => r end.
Definition cells_cmp : list (cell num128 num256) -> list (cell num128 num256) -> comparison := lex cell_cmp.

Lemma cell_good : good_cmp cell_cmp.
Proof.
  apply good_then; [apply (good_pull cell_rank), Z_good | apply (good_pull cell_content), lex_good, Z_good].
Qed.
Lemma cells_good : good_cmp cells_cmp.
Proof. apply lex_good, cell_good. Qed.

(** The augmented part of a delta row and the row of the base table. *)
Definition col (i : nat) (d : row) : cell num128 num256 := nth i d CNull.
Definition action_of (d : row) : cell num128 num256 := col 0 d.
Definition base_of (d : row) : row := drop NumAugmentedFields d.
Definition order_key (d : row) : list (cell num128 num256) := [col 3 d; col 4 d; col 5 d; col 0 d].
Definition before (d1 d2 : row) : Prop := cells_cmp (order_key d1) (order_key d2) = Lt.

Definition is_delete (d : row) : Prop := action_of d = CInt (RowEventType_code DeleteRowEvent).
Definition is_insert (d : row) : Prop := action_of d = CInt (RowEventType_code InsertRowEvent).

#[global] Instance is_delete_dec d : Decision (is_delete d).
Proof. unfold is_delete. apply _. Defined.
#[global] Instance is_insert_dec d : Decision (is_insert d).
Proof. unfold is_insert. apply _. Defined.

Lemma before_good : good_cmp (fun d1 d2 => cells_cmp (order_key d1) (order_key d2)).
Proof. apply (good_pull order_key), cells_good. Qed.

#[global] Instance before_asymmetric : Asymmetric before.
Proof.
  intros x y H1 H2. unfold before in *. pose proof (g_antisym _ before_good x y) as E. cbn beta in E.
  rewrite H1, H2 in E. discriminate.
Qed.

Lemma before_trans d1 d2 d3 : before d1 d2 -> before d2 d3 -> before d1 d3.
Proof. exact (g_trans _ before_good d1 d2 d3). Qed.

(** What is not before [d1] is not before a row that precedes it. *)
Lemma not_before_trans d1 d2 d3 : ~ before d2 d1 -> ~ before d3 d2 -> ~ before d3 d1.
Proof.
  unfold before. intros H1 H2 H3. pose proof before_good as G.
  destruct (cells_cmp (order_key d3) (order_key d2)) eqn:E; [|congruence|].
  - rewrite (g_eq _ G d3 d2 d1 E) in H3. congruence.
  - assert (E' : cells_cmp (order_key d2) (order_key d3) = Lt).
    { pose proof (g_antisym _ G d3 d2) as A. cbn beta in A. rewrite E in A. exact A. }
    apply H1. exact (g_trans _ G d2 d3 d1 E' H3).
Qed.

#[global] Instance before_dec d1 d2 : Decision (before d1 d2).
Proof. unfold before. apply _. Defined.

Lemma before_irrefl d : ~ before d d.
Proof. intros Hd. exact (asymmetry Hd Hd). Qed.

(** ** Keys *)
Section Keys.
Context (schema : list Column). (* the base schema *)

Definition key (r : row) : list (cell num128 num256) := omap (fun i => r !! i) (pk_indices_from 0 schema).
Definition dkey (d : row) : list (cell num128 num256) := key (base_of d).

(** ** The specification *)
Definition remove (k : list (cell num128 num256)) (tbl : list row) : list row :=
  filter (fun r => key r <> k) tbl.

Definition apply_action (tbl : list row) (d : row) : list row :=
  if decide (is_delete d) then remove (dkey d) tbl else remove (dkey d) tbl ++ [base_of d].

Definition apply_delta (ds : list row) (tbl : list row) : list row := foldl apply_action tbl ds.

(** The same rows. *)
Definition same_rows (t1 t2 : list row) : Prop := forall r, r ∈ t1 <-> r ∈ t2.
Definition unique_keys (tbl : list row) : Prop := NoDup (map key tbl).

#[global] Instance same_rows_equivalence : Equivalence same_rows.
Proof. unfold same_rows. split; repeat intro; [reflexivity | symmetry; auto | etransitivity; eauto]. Qed.

Lemma Permutation_same_rows t1 t2 : t1 ≡ₚ t2 -> same_rows t1 t2.
Proof. intros E r. rewrite E. reflexivity. Qed.

(** The last action on a key. *)
Definition last_for (k : list (cell num128 num256)) (ds : list row) : option row :=
  last (filter (fun d => dkey d = k) ds).

Lemma elem_of_remove r k tbl : r ∈ remove k tbl <-> r ∈ tbl /\ key r <> k.
Proof. unfold remove. rewrite list_elem_of_filter. tauto. Qed.

(** The characterisation of the specification: the last action decides. *)
Lemma apply_delta_spec ds : forall tbl r, r ∈ apply_delta ds tbl <->
  match last_for (key r) ds with
  | Some d => ~ is_delete d /\ r = base_of d
  | None => r ∈ tbl
  end.
Proof.
  induction ds as [|d ds IH] using rev_ind; intros tbl r; [reflexivity|].
  unfold apply_delta, last_for. rewrite foldl_app, filter_app. simpl foldl.
  specialize (IH tbl r). unfold apply_delta, last_for in IH.
  rewrite filter_cons, filter_nil. unfold apply_action at 1.
  destruct (decide (dkey d = key r)) as [E|E].
  - rewrite last_snoc. case_decide as Hd; rewrite ?elem_of_app, elem_of_remove, ?list_elem_of_singleton.
    + split; [intros [_ N]; congruence | tauto].
    + split; [intros [[_ N]|N]; [congruence | auto] | intros [_ ->]; auto].
  - rewrite app_nil_r, <- IH. case_decide as Hd; rewrite ?elem_of_app, elem_of_remove, ?list_elem_of_singleton.
    + split; [tauto | intros; split; [assumption | congruence]].
    + split; [intros [[Hr _]|Hr]; [exact Hr | exfalso; apply E; rewrite Hr; reflexivity]
             | intros; left; split; [assumption | congruence]].
Qed.

Lemma unique_remove k tbl : unique_keys tbl -> unique_keys (remove k tbl).
Proof.
  unfold unique_keys, remove. induction tbl as [|r tbl IH]; intros Hu; [constructor|].
  rewrite filter_cons. inversion Hu as [|? ? Hn Hu']; subst. case_decide; [|auto].
  simpl. constructor; [|auto]. intros Hin. apply Hn.
  apply list_elem_of_In, in_map_iff in Hin. destruct Hin as (r' & E & Hr').
  apply list_elem_of_In, list_elem_of_filter in Hr'. rewrite <- E. apply list_elem_of_In, in_map, list_elem_of_In, Hr'.
Qed.

(** ** Condensed deltas *)

(** [T] is a result of LAST(... ORDER BY ...) GROUP BY the key: one row of every
    group, and no row of the group comes after it.  Where two rows of a group
    tie, any of them may be chosen. *)
Definition condensed (ds T : list row) : Prop :=
  NoDup (map dkey T) /\
  (forall d, d ∈ T -> d ∈ ds /\ forall d', d' ∈ ds -> dkey d' = dkey d -> ~ before d d') /\
  (forall d, d ∈ ds -> exists d', d' ∈ T /\ dkey d' = dkey d).

(** The order of the buffer: the actions on one key come in increasing order. *)
Definition ordered (ds : list row) : Prop :=
  forall i j d1 d2, (i < j)%nat -> ds !! i = Some d1 -> ds !! j = Some d2 -> dkey d1 = dkey d2 -> before d1 d2.

Lemma last_for_Some k ds d : last_for k ds = Some d ->
  dkey d = k /\ exists i, ds !! i = Some d /\ forall j d', (i < j)%nat -> ds !! j = Some d' -> dkey d' <> k.
Proof.
  unfold last_for. induction ds as [|e ds IH] using rev_ind; [discriminate|].
  rewrite filter_app, filter_cons, filter_nil. case_decide as E.
  - rewrite last_snoc. intros [= <-]. split; [exact E|]. exists (length ds).
    split; [apply list_lookup_middle; reflexivity|]. intros j d' Hj Hd'.
    apply lookup_lt_Some in Hd'. rewrite length_app in Hd'. simpl in Hd'. lia.
  - rewrite app_nil_r. intros Hl. destruct (IH Hl) as (Hk & i & Hi & Hafter). split; [exact Hk|].
    exists i. split; [apply lookup_app_l_Some, Hi|]. intros j d' Hj Hd'.
    apply lookup_app_Some in Hd'. destruct Hd' as [Hd'|[Hlen Hd']]; [eapply Hafter; eauto|].
    apply list_lookup_singleton_Some in Hd'. destruct Hd' as [_ <-]. exact E.
Qed.

Lemma last_for_is_Some d ds : d ∈ ds -> is_Some (last_for (dkey d) ds).
Proof.
  intros Hd. unfold last_for. apply last_is_Some. intros E.
  assert (Hin : d ∈ filter (fun d' => dkey d' = dkey d) ds) by (apply list_elem_of_filter; auto).
  rewrite E in Hin. inversion Hin.
Qed.

Lemma last_for_elem k ds d : last_for k ds = Some d -> d ∈ ds.
Proof. intros Hl. apply last_for_Some in Hl. destruct Hl as (_ & i & Hi & _). eapply list_elem_of_lookup_2; eauto. Qed.

(** On an ordered delta the condensed rows are the last actions. *)
Lemma condensed_last ds T d : ordered ds -> condensed ds T -> d ∈ T <-> last_for (dkey d) ds = Some d.
Proof.
  intros Ho (_ & Hmax & Hall).
  assert (Hfwd : forall d, d ∈ T -> last_for (dkey d) ds = Some d).
  { intros e He. destruct (Hmax e He) as [Hin Hno].
    destruct (last_for_is_Some e ds Hin) as [l Hl]. rewrite Hl. f_equal.
    destruct (last_for_Some _ _ _ Hl) as (Hk & i & Hi & Hafter).
    apply list_elem_of_lookup in Hin. destruct Hin as [j Hj].
    destruct (Nat.lt_trichotomy i j) as [Hij|[->|Hij]]; [|congruence|].
    - destruct (Hafter j e Hij Hj). reflexivity.
    - destruct (Hno l); [eapply list_elem_of_lookup_2; eauto | exact Hk | eapply Ho; eauto]. }
  split; [apply Hfwd|]. intros Hl.
  destruct (Hall d (last_for_elem _ _ _ Hl)) as (d' & Hd' & Hk).
  pose proof (Hfwd d' Hd') as Hl'. rewrite Hk, Hl in Hl'. congruence.
Qed.

(** Inserts and deletes of a condensed delta rebuild the specification. *)
Lemma condensed_writes ds T tbl tbl' :
  ordered ds -> condensed ds T -> Forall (fun d => is_delete d \/ is_insert d) ds ->
  (forall r, r ∈ tbl' <-> (exists d, d ∈ T /\ is_insert d /\ r = base_of d) \/
                          (r ∈ tbl /\ ~ exists d, d ∈ T /\ dkey d = key r)) ->
  same_rows tbl' (apply_delta ds tbl).
Proof.
  intros Ho HT Hact Hw r. rewrite Hw, apply_delta_spec.
  assert (HTl : forall d, d ∈ T <-> last_for (dkey d) ds = Some d).
  { intros d. apply condensed_last; assumption. }
  assert (Hid : forall d, is_insert d -> ~ is_delete d) by (intros d H1 H2; unfold is_insert, is_delete in *; rewrite H1 in H2; discriminate).
  destruct (last_for (key r) ds) as [d|] eqn:El.
  - pose proof (proj1 (last_for_Some _ _ _ El)) as Hk.
    assert (Hd : d ∈ T) by (apply HTl; rewrite Hk; exact El).
    split.
    + intros [(d' & Hd' & Hi & ->) | [_ Hn]]; [|exfalso; apply Hn; eauto].
      apply HTl in Hd'. unfold dkey in Hd'. rewrite El in Hd'. injection Hd' as ->. auto.
    + intros [Hnd ->]. left. exists d. repeat split; auto.
      pose proof (last_for_elem _ _ _ El) as Hin.
      rewrite Forall_forall in Hact. destruct (Hact d) as [?|?]; [exact Hin | tauto | assumption].
  - split.
    + intros [(d' & Hd' & _ & ->) | [Hr _]]; [|exact Hr].
      apply HTl in Hd'. unfold dkey in Hd'. congruence.
    + intros Hr. right. split; [exact Hr|]. intros (d & Hd & Hk). apply HTl in Hd. congruence.
Qed.
End Keys.
End Spec.
