(* ===== verification/DeltaRefine.v ===== *)
(** * The controller implements the specification of a delta

    [SqlLaws] says what DuckDB does with the statements the controller sends
    for one table; the theorems of this file show that each handler of
    controller.go, and [updateTable] which chooses among them, leaves in the
    table the rows that applying the delta action by action leaves. *)

From S2P Require Import Prelude GoTime Charset Schema Identifier Delta DeltaSpec.

Section Refine.
Context `{ArrowLib} `{!EqDecision (cell num128 num256)} `{!DuckDB}.
Context (viewHash : string -> string).
(** The table, its schema, and whether the physical table has its primary-key index. *)
Context (t : tableIdentifier) (schema : list Column) (indexed : bool).

Abbreviation row := (list (cell num128 num256)).
Abbreviation key := (key schema).
Abbreviation dkey := (dkey schema).
Abbreviation viewName := (viewNameOf viewHash t).

Definition delta_schema : list Column := augmentedColumns ++ schema.
Definition no_null (k : row) : Prop := CNull ∉ k.
Definition names (s : list Column) : list string := map col_name s.

Definition without (ks : list row) (tbl : list row) : list row := filter (fun r => key r ∉ ks) tbl.
Definition upsert (rows tbl : list row) : list row := without (map key rows) tbl ++ rows.
Definition deletes (T : list row) : list row := filter is_delete T.
Definition inserts (T : list row) : list row := filter is_insert T.
Definition affected (tbl tbl' : list row) : Z := Z.of_nat (length tbl) - Z.of_nat (length tbl').

(** What DuckDB documents of the statements, on the rows of the table ([base]),
    of the registered view ([view]) and of the temporary table ([temp]).  The
    casts to TIMESTAMP keep the value in a session whose time zone is UTC.
    Deleting and inserting the same key in one transaction is left open on an
    indexed table, as DuckDB's limitation on ART indexes leaves it. *)
Class SqlLaws : Type := {
  base : db -> list row;
  view : db -> option ArrowRecord;
  temp : db -> option (list row);
  arrow_law : forall d, NewArrowFromConn d = true;
  register_law : forall r d, exists d', RegisterView viewName r d = Some d' /\ base d' = base d /\ view d' = Some r;
  drop_view_law : forall d, let d' := fst (ExecContext ("DROP VIEW IF EXISTS " +:+ viewName) d) in
    base d' = base d /\ temp d' = temp d;
  release_law : forall d, base (ReleaseView viewName d) = base d /\ temp (ReleaseView viewName d) = temp d;
  drop_temp_law : forall d, base (fst (ExecContext dropDeltaSQL d)) = base d;
  insert_only_law : forall a r d, Schema a = delta_schema -> view d = Some r -> r_names r = names schema ->
    (indexed = true -> unique_keys schema (base d ++ rows_of r)) ->
    exists d', ExecContext (insertOnlySQL t a viewName) d = (d', Some (Z.of_nat (length (rows_of r)))) /\
      base d' ≡ₚ base d ++ rows_of r;
  delete_only_law : forall a r d, Schema a = delta_schema -> view d = Some r ->
    r_names r = names (List.filter col_pk schema) -> r_names r <> [] -> Forall no_null (rows_of r) ->
    exists d', ExecContext (deleteOnlySQL t a viewName) d = (d', Some (affected (base d) (base d'))) /\
      base d' ≡ₚ without (rows_of r) (base d);
  zero_delete_law : forall a r d, indexed = true -> Schema a = delta_schema -> view d = Some r ->
    r_names r = names delta_schema -> Forall (fun d => no_null (dkey d)) (rows_of r) ->
    exists d' T, ExecContext (zeroDeleteSQL t a viewName) d = (d', Some (Z.of_nat (length T))) /\
      condensed schema (rows_of r) T /\ base d' ≡ₚ upsert (map base_of T) (base d);
  materialize_law : forall a r d, Schema a = delta_schema -> view d = Some r -> r_names r = names delta_schema ->
    exists d' T, ExecContext (materializeSQL a viewName) d = (d', Some (Z.of_nat (length T))) /\
      condensed schema (rows_of r) T /\ temp d' = Some T /\ base d' = base d;
  general_insert_law : forall T d, indexed = true -> temp d = Some T -> Forall (fun d => no_null (dkey d)) T ->
    NoDup (map dkey T) ->
    exists d', ExecContext (generalInsertSQL t) d = (d', Some (Z.of_nat (length (inserts T)))) /\
      temp d' = Some T /\ base d' ≡ₚ upsert (map base_of (inserts T)) (base d);
  general_delete_law : forall a T d, Schema a = delta_schema -> List.filter col_pk schema <> [] ->
    temp d = Some T -> Forall (fun d => no_null (dkey d)) T ->
    exists d', ExecContext (generalDeleteSQL t a) d = (d', Some (affected (base d) (base d'))) /\
      base d' ≡ₚ without (map dkey (deletes T)) (base d);
  no_index_delete_law : forall a T d, Schema a = delta_schema -> List.filter col_pk schema <> [] ->
    temp d = Some T -> Forall (fun d => no_null (dkey d)) T ->
    exists d', ExecContext (noIndexDeleteSQL t a) d = (d', Some (affected (base d) (base d'))) /\
      temp d' = Some T /\ base d' ≡ₚ without (map dkey T) (base d);
  no_index_insert_law : forall T d, indexed = false -> temp d = Some T ->
    exists d', ExecContext (noIndexInsertSQL t) d = (d', Some (Z.of_nat (length (inserts T)))) /\
      base d' ≡ₚ base d ++ map base_of (inserts T)
}.

(** ** The rows of a projected record *)
Definition rectangular (n : nat) (cols : list (list (cell num128 num256))) : Prop :=
  Forall (fun c => length c = n) cols.

Lemma rectangular_lookup n cols i : rectangular n cols -> (i < n)%nat ->
  Forall (fun c : list (cell num128 num256) => is_Some (c !! i)) cols.
Proof. intros Hr Hi. eapply Forall_impl; [exact Hr|]. intros c Hc. apply lookup_lt_is_Some. simpl in Hc. lia. Qed.

Lemma omap_drop {A B} (f : A -> option B) k : forall l, Forall (fun x => is_Some (f x)) l ->
  omap f (drop k l) = drop k (omap f l).
Proof.
  induction k as [|k IH]; intros l Hl; [reflexivity|].
  destruct l as [|x l]; [reflexivity|]. inversion Hl as [|? ? [y Hy] Hl']; subst.
  cbn -[omap]. cbn [omap list_omap]. rewrite Hy. apply IH, Hl'.
Qed.

Lemma omap_lookup_all {A B} (f : A -> option B) : forall l j, Forall (fun x => is_Some (f x)) l ->
  omap f l !! j = l !! j ≫= f.
Proof.
  induction l as [|x l IH]; intros j Hl; [reflexivity|]. inversion Hl as [|? ? [y Hy] Hl']; subst.
  cbn [omap list_omap]. rewrite Hy. destruct j as [|j]; simpl; [auto | apply IH, Hl'].
Qed.

Lemma omap_omap {A B C} (f : A -> option B) (g : B -> option C) (l : list A) :
  omap g (omap f l) = omap (fun x => f x ≫= g) l.
Proof.
  induction l as [|x l IH]; [reflexivity|]. cbn [omap list_omap]. destruct (f x) as [y|]; simpl; [|exact IH].
  destruct (g y); simpl; rewrite <- IH; reflexivity.
Qed.

Lemma omap_ext_in {A B} (f g : A -> option B) (l : list A) : (forall x, f x = g x) -> omap f l = omap g l.
Proof. intros E. induction l as [|x l IH]; [reflexivity|]. cbn [omap list_omap]. rewrite E, IH. reflexivity. Qed.

Lemma rows_of_rectangular r n : rectangular n (r_columns r) -> r_columns r <> [] ->
  rows_of r = map (row_at r) (seq 0 n).
Proof.
  unfold rows_of. destruct (r_columns r) as [|c cols]; [congruence|]. intros Hr _.
  inversion Hr; subst. reflexivity.
Qed.

Lemma rows_of_drop r n k : rectangular n (r_columns r) -> (k < length (r_columns r))%nat ->
  rows_of (mkRecord (drop k (r_names r)) (drop k (r_columns r))) = map (drop k) (rows_of r).
Proof.
  intros Hr Hk. assert (Hne : r_columns r <> []) by (destruct (r_columns r); simpl in *; [lia | discriminate]).
  rewrite (rows_of_rectangular r n Hr Hne), (rows_of_rectangular _ n); simpl.
  - rewrite map_map. apply map_ext_in. intros i Hi. apply in_seq in Hi.
    apply omap_drop. eapply rectangular_lookup; [exact Hr | lia].
  - apply Forall_drop, Hr.
  - intros E. apply (f_equal length) in E. rewrite length_drop in E. simpl in E. lia.
Qed.

Lemma row_at_project ns idx r n i : rectangular n (r_columns r) -> (i < n)%nat ->
  row_at (mkRecord ns (omap (fun j => r_columns r !! j) idx)) i = omap (fun j => row_at r i !! j) idx.
Proof.
  intros Hr Hi. unfold row_at. simpl. rewrite omap_omap. apply omap_ext_in. intros j.
  symmetry. apply omap_lookup_all. eapply rectangular_lookup; eauto.
Qed.

(** ** The appender *)
Record appender_ok (a : DeltaAppender) : Prop := mkAppenderOk {
  ok_schema : Schema a = delta_schema;
  ok_width : length (a_fields a) = length delta_schema;
  ok_rect : rectangular (RowCount a) (map b_cells (a_fields a))
}.

Definition record_of (a : DeltaAppender) : ArrowRecord := mkRecord (names (a_schema a)) (map b_cells (a_fields a)).
Definition delta_rows (a : DeltaAppender) : list row := rows_of (record_of a).
Definition emptied (a : DeltaAppender) : DeltaAppender :=
  mkAppender (a_schema a) (map (fun f => new_builder (b_type f)) (a_fields a)) (a_counters a).

Lemma Build_ok a : appender_ok a -> Build a = Ret (record_of a, emptied a).
Proof. intros [_ _ Hr]. unfold Build. rewrite decide_True by exact Hr. reflexivity. Qed.

Lemma delta_rows_emptied a : delta_rows (emptied a) = [].
Proof. unfold delta_rows, rows_of, record_of. simpl. destruct (a_fields a); reflexivity. Qed.

Lemma appender_ok_emptied a : appender_ok a -> appender_ok (emptied a).
Proof.
  intros [Hs Hw Hr]. split; [exact Hs | simpl; rewrite length_map; exact Hw |].
  unfold rectangular, RowCount, emptied. simpl. rewrite !map_map.
  destruct (a_fields a); simpl; repeat constructor; try (apply Forall_map, Forall_true; intros; reflexivity).
Qed.

Lemma columns_length a : appender_ok a -> length (r_columns (record_of a)) = (6 + length schema)%nat.
Proof. intros [_ Hw _]. simpl. rewrite length_map, Hw. reflexivity. Qed.

(** The view of [handleInsertOnly]: the base part of every row. *)
Lemma project_offset a : appender_ok a -> schema <> [] ->
  r_names (project NumAugmentedFields [] (record_of a)) = names schema /\
  rows_of (project NumAugmentedFields [] (record_of a)) = map base_of (delta_rows a).
Proof.
  intros Ha Hs. pose proof (columns_length a Ha) as Hl. destruct Ha as [Es _ Hr]. unfold project. simpl.
  split; [unfold names; change (a_schema a) with (Schema a); rewrite Es; reflexivity|].
  apply (rows_of_drop (record_of a) (RowCount a) 6 Hr). rewrite Hl. destruct schema; simpl; [congruence | lia].
Qed.

Lemma pk_indices_shift s : forall i, pk_indices_from (6 + i) s = map (Nat.add 6) (pk_indices_from i s).
Proof.
  induction s as [|c s IH]; intros i; [reflexivity|]. cbn [pk_indices_from].
  change (S (6 + i)) with (6 + S i)%nat. rewrite IH. destruct (col_pk c); reflexivity.
Qed.

Lemma pk_names_at s : forall i (ns : list string), (forall j, (ns !! (i + j))%nat = names s !! j) ->
  omap (fun j => ns !! j) (pk_indices_from i s) = names (List.filter col_pk s).
Proof.
  induction s as [|c s IH]; intros i ns Hn; [reflexivity|]. cbn [pk_indices_from List.filter].
  assert (Hn' : forall j, ns !! (S i + j)%nat = names s !! j).
  { intros j. replace (S i + j)%nat with (i + S j)%nat by lia. apply (Hn (S j)). }
  destruct (col_pk c); [|apply IH, Hn']. cbn [omap list_omap].
  pose proof (Hn 0%nat) as H0'. rewrite Nat.add_0_r in H0'. rewrite H0'. simpl. f_equal. apply IH, Hn'.
Qed.

Lemma pk_indices_range s : forall i j, j ∈ pk_indices_from i s -> (i <= j < i + length s)%nat.
Proof.
  induction s as [|c s IH]; intros i j Hj; [inversion Hj|]. simpl in *.
  destruct (col_pk c); [apply elem_of_cons in Hj; destruct Hj as [->|Hj]; [lia|]|]; apply IH in Hj; lia.
Qed.

Lemma pk_indices_nil s : forall i, pk_indices_from i s = [] -> List.filter col_pk s = [].
Proof. induction s as [|c s IH]; intros i; simpl; [auto|]. destruct (col_pk c); [discriminate | apply IH]. Qed.

Lemma omap_fmap' {A B C} (f : A -> B) (g : B -> option C) (l : list A) : omap g (map f l) = omap (fun x => g (f x)) l.
Proof. induction l as [|x l IH]; [reflexivity|]. cbn [map omap list_omap]. rewrite IH. reflexivity. Qed.

Lemma getPrimaryKeyIndices_eq a : Schema a = delta_schema ->
  getPrimaryKeyIndices a = map (Nat.add 6) (pk_indices_from 0 schema).
Proof.
  intros Es. unfold getPrimaryKeyIndices, BaseSchema. change (a_schema a) with (Schema a). rewrite Es.
  apply (pk_indices_shift schema 0).
Qed.

(** The view of [handleDeleteOnly]: the key of every row. *)
Lemma project_keys a : appender_ok a -> List.filter col_pk schema <> [] ->
  r_names (project 0 (getPrimaryKeyIndices a) (record_of a)) = names (List.filter col_pk schema) /\
  rows_of (project 0 (getPrimaryKeyIndices a) (record_of a)) = map dkey (delta_rows a).
Proof.
  intros Ha Hpk. pose proof (columns_length a Ha) as Hl. destruct Ha as [Es Hw Hr].
  rewrite (getPrimaryKeyIndices_eq a Es). unfold project.
  assert (Hne : pk_indices_from 0 schema <> []) by (intros E; apply Hpk, (pk_indices_nil _ 0%nat), E).
  destruct (pk_indices_from 0 schema) as [|i0 is0] eqn:Ei; [congruence|]. cbn [length map Nat.ltb Nat.leb].
  rewrite <- Ei in *. change (6 + i0 :: map (Nat.add 6) is0)%nat with (map (Nat.add 6) (i0 :: is0)). rewrite <- Ei.
  split.
  - cbn [r_names]. rewrite <- (pk_indices_shift schema 0). apply pk_names_at. intros j. unfold record_of. cbn [r_names].
    change (a_schema a) with (Schema a). rewrite Es. reflexivity.
  - assert (Hcols : rectangular (RowCount a) (omap (fun j => r_columns (record_of a) !! j) (map (Nat.add 6) (pk_indices_from 0 schema)))).
    { apply Forall_forall. intros c Hc. apply list_elem_of_omap in Hc. destruct Hc as (j & _ & Hc).
      unfold rectangular in Hr. rewrite Forall_forall in Hr. apply Hr. eapply list_elem_of_lookup_2, Hc. }
    rewrite (rows_of_rectangular _ (RowCount a)); [|exact Hcols|].
    + unfold delta_rows. rewrite (rows_of_rectangular (record_of a) (RowCount a) Hr) by (intros E; rewrite E in Hl; discriminate).
      rewrite map_map. apply map_ext_in. intros i Hi. apply in_seq in Hi.
      rewrite (row_at_project _ _ _ (RowCount a)) by (auto; lia). rewrite omap_fmap'.
      apply omap_ext_in. intros j. unfold base_of, NumAugmentedFields. symmetry. apply lookup_drop.
    + cbn [r_columns]. rewrite Ei. cbn [map omap list_omap].
      assert (Hi0 : (i0 < length schema)%nat) by (pose proof (pk_indices_range schema 0 i0); rewrite Ei in *; specialize (H1 ltac:(left)); lia).
      destruct (r_columns (record_of a) !! (6 + i0)%nat) eqn:E; [discriminate|].
      apply lookup_ge_None in E. rewrite Hl in E. lia.
Qed.

(** ** Sets of rows *)
Lemma elem_of_without r ks tbl : r ∈ without ks tbl <-> r ∈ tbl /\ key r ∉ ks.
Proof. unfold without. rewrite list_elem_of_filter. tauto. Qed.

Lemma elem_of_upsert r rows tbl : r ∈ upsert rows tbl <-> (r ∈ tbl /\ key r ∉ map key rows) \/ r ∈ rows.
Proof. unfold upsert. rewrite elem_of_app, elem_of_without. reflexivity. Qed.

Lemma elem_of_map {A B} (f : A -> B) l y : y ∈ map f l <-> exists x, y = f x /\ x ∈ l.
Proof.
  rewrite list_elem_of_In, in_map_iff. setoid_rewrite list_elem_of_In.
  split; intros (x & ? & ?); exists x; auto.
Qed.

Lemma map_key_base T : map key (map base_of T) = map dkey T.
Proof. rewrite map_map. reflexivity. Qed.

Lemma unique_without ks tbl : unique_keys schema tbl -> unique_keys schema (without ks tbl).
Proof.
  unfold unique_keys, without. induction tbl as [|r tbl IH]; intros Hu; [constructor|].
  rewrite filter_cons. inversion Hu as [|? ? Hn Hu']; subst. case_decide; [|auto].
  simpl. constructor; [|auto]. rewrite elem_of_map in *. intros (r' & E & Hr').
  apply Hn. apply list_elem_of_filter in Hr'. exists r'. tauto.
Qed.

Lemma unique_upsert rows tbl : unique_keys schema tbl -> NoDup (map key rows) -> unique_keys schema (upsert rows tbl).
Proof.
  intros Hu Hn. unfold unique_keys, upsert. rewrite map_app. apply NoDup_app.
  split; [apply unique_without, Hu | split; [|exact Hn]].
  intros k Hk. apply elem_of_map in Hk. destruct Hk as (r & -> & Hr). apply elem_of_without in Hr. tauto.
Qed.

#[local] Instance unique_keys_proper : Proper ((≡ₚ) ==> iff) (unique_keys schema).
Proof. intros t1 t2 E. unfold unique_keys. rewrite E. reflexivity. Qed.

Lemma NoDup_map_filter (P : row -> Prop) `{!forall x, Decision (P x)} T :
  NoDup (map dkey T) -> NoDup (map dkey (filter P T)).
Proof.
  induction T as [|d T IH]; intros Hn; [constructor|]. inversion Hn as [|? ? Hd Hn']; subst.
  rewrite filter_cons. case_decide; [|auto]. simpl. constructor; [|auto].
  rewrite elem_of_map in *. intros (d' & E & Hd'). apply Hd. apply list_elem_of_filter in Hd'. exists d'. tauto.
Qed.

Lemma NoDup_dkey T d1 d2 : NoDup (map dkey T) -> d1 ∈ T -> d2 ∈ T -> dkey d1 = dkey d2 -> d1 = d2.
Proof.
  induction T as [|d T IH]; intros Hn H1 H2 E; [inversion H1|]. inversion Hn as [|? ? Hd Hn']; subst.
  rewrite elem_of_map in Hd. apply elem_of_cons in H1, H2. destruct H1 as [->|H1], H2 as [->|H2]; auto.
  - destruct Hd. eauto.
  - destruct Hd. eauto.
Qed.

(** ** The deltas of each case *)

(** What the source guarantees of its inserts: the key is free when the row comes. *)
Fixpoint source_valid (ds tbl : list row) : Prop :=
  match ds with
  | [] => True
  | d :: ds' => (is_insert d -> dkey d ∉ map key tbl) /\ source_valid ds' (apply_action schema tbl d)
  end.

Lemma remove_absent k tbl : k ∉ map key tbl -> remove schema k tbl = tbl.
Proof.
  intros Hk. unfold remove. induction tbl as [|r tbl IH]; [reflexivity|].
  rewrite elem_of_map in Hk. rewrite filter_cons, decide_True.
  - rewrite IH; [reflexivity|]. rewrite elem_of_map. intros (r' & E & Hr'). apply Hk. exists r'. split; [auto | right; auto].
  - intros E. apply Hk. exists r. split; [auto | left].
Qed.

Lemma insert_not_delete d : is_insert d -> ~ is_delete d.
Proof. unfold is_insert, is_delete. intros H1 H2. rewrite H1 in H2. discriminate. Qed.

Lemma insert_only_delta ds : forall tbl, Forall is_insert ds -> source_valid ds tbl ->
  unique_keys schema tbl ->
  apply_delta schema ds tbl = tbl ++ map base_of ds /\ unique_keys schema (tbl ++ map base_of ds).
Proof.
  induction ds as [|d ds IH]; intros tbl Hi Hv Hu; [rewrite app_nil_r; auto|].
  inversion Hi as [|? ? Hd Hi']; subst. destruct Hv as [Hfree Hv]. specialize (Hfree Hd).
  unfold apply_delta in *. cbn [foldl]. unfold apply_action in *.
  rewrite decide_False in * by (apply insert_not_delete, Hd). rewrite remove_absent in * by exact Hfree.
  assert (Hu' : unique_keys schema (tbl ++ [base_of d])).
  { unfold unique_keys. rewrite map_app. apply NoDup_app. split; [exact Hu|]. split.
    - intros k Hk E. apply list_elem_of_singleton in E. subst. exact (Hfree Hk).
    - apply NoDup_singleton. }
  destruct (IH _ Hi' Hv Hu') as [E Hu'']. rewrite <- app_assoc in *. split; [exact E | exact Hu''].
Qed.

Lemma delete_only_delta ds : forall tbl, Forall is_delete ds -> apply_delta schema ds tbl = without (map dkey ds) tbl.
Proof.
  induction ds as [|d ds IH]; intros tbl Hi.
  - unfold apply_delta, without. simpl. induction tbl as [|r tbl IH]; [reflexivity|].
    rewrite filter_cons, decide_True by (intros Hn; inversion Hn). f_equal. exact IH.
  - inversion Hi as [|? ? Hd Hi']; subst. unfold apply_delta in *. cbn [foldl]. rewrite (IH _ Hi').
    unfold apply_action. rewrite decide_True by exact Hd. unfold without, remove. rewrite list_filter_filter.
    apply list_filter_iff. intros r. cbn [map]. rewrite not_elem_of_cons. tauto.
Qed.

Definition actions_ok (ds : list row) : Prop := Forall (fun d => is_delete d \/ is_insert d) ds.

(** INSERT OR REPLACE of the condensed inserts, then DELETE of the condensed deletes. *)
Lemma insert_then_delete ds T tbl : ordered schema ds -> condensed schema ds T -> actions_ok ds ->
  same_rows (without (map dkey (deletes T)) (upsert (map base_of (inserts T)) tbl)) (apply_delta schema ds tbl).
Proof.
  intros Ho HT Hact. pose proof HT as (Hn & Hmax & _).
  eapply condensed_writes; eauto. intros r.
  rewrite elem_of_without, elem_of_upsert, map_key_base, !elem_of_map. unfold deletes, inserts.
  setoid_rewrite list_elem_of_filter. split.
  - intros [[[Hr Hni]|(d & -> & Hi & Hd)] Hnd]; [right | left; eauto].
    split; [exact Hr|]. intros (d & Hd & Hk). unfold actions_ok in Hact. rewrite Forall_forall in Hact.
    destruct (Hact d) as [Ha|Ha]; [apply Hmax, Hd | apply Hnd | apply Hni]; exists d; auto.
  - intros [(d & Hd & Hi & ->)|[Hr Hn']].
    + split; [right; eauto|]. intros (d' & Hk & Hdel & Hd').
      rewrite <- (NoDup_dkey T d d' Hn Hd Hd' Hk) in Hdel. exact (insert_not_delete d Hi Hdel).
    + split; [left; split; [exact Hr|]|]; intros (d & Hk & _ & Hd); apply Hn'; eauto.
Qed.

(** DELETE of every condensed key, then INSERT of the condensed inserts. *)
Lemma delete_then_insert ds T tbl : ordered schema ds -> condensed schema ds T -> actions_ok ds ->
  same_rows (without (map dkey T) tbl ++ map base_of (inserts T)) (apply_delta schema ds tbl).
Proof.
  intros Ho HT Hact. eapply condensed_writes; eauto. intros r.
  rewrite elem_of_app, elem_of_without, !elem_of_map. unfold inserts. setoid_rewrite list_elem_of_filter.
  split.
  - intros [[Hr Hn]|(d & -> & Hi & Hd)]; [right | left; eauto].
    split; [exact Hr|]. intros (d & Hd & Hk). apply Hn. eauto.
  - intros [(d & Hd & Hi & ->)|[Hr Hn]]; [right; eauto | left].
    split; [exact Hr|]. intros (d & Hk & Hd). apply Hn. eauto.
Qed.

(** INSERT OR REPLACE alone, where the delta has no deletes. *)
Lemma upsert_only ds T tbl : ordered schema ds -> condensed schema ds T -> Forall is_insert ds ->
  same_rows (upsert (map base_of T) tbl) (apply_delta schema ds tbl).
Proof.
  intros Ho HT Hi. pose proof HT as (_ & Hmax & _). rewrite Forall_forall in Hi.
  eapply condensed_writes; eauto; [apply Forall_forall; auto|]. intros r.
  rewrite elem_of_upsert, map_key_base, !elem_of_map. split.
  - intros [[Hr Hn]|(d & -> & Hd)]; [right | left; exists d; split; [exact Hd|]; split; [apply Hi, Hmax, Hd | auto]].
    split; [exact Hr|]. intros (d & Hd & Hk). apply Hn. eauto.
  - intros [(d & Hd & _ & ->)|[Hr Hn]]; [right; eauto | left].
    split; [exact Hr|]. intros (d & Hk & Hd). apply Hn. eauto.
Qed.

Lemma condensed_no_null ds T : condensed schema ds T -> Forall (fun d => no_null (dkey d)) ds ->
  Forall (fun d => no_null (dkey d)) T.
Proof. intros (_ & Hmax & _) Hn. rewrite Forall_forall in *. intros d Hd. apply Hn, Hmax, Hd. Qed.

(** ** The handlers *)
Section Handlers.
Context `{!SqlLaws}.

(** The frame of a handler: build, register the view, run, drop the view. *)
Lemma handleView_ok off fi mk upd a st d (Q : Z -> list row -> option (list row) -> Prop) :
  appender_ok a ->
  (forall d1, view d1 = Some (project off (fi a) (record_of a)) -> base d1 = base d ->
     exists d2 n, ExecContext (mk (emptied a) viewName) d1 = (d2, Some n) /\ Q n (base d2) (temp d2)) ->
  exists d' n, handleView viewHash off fi mk upd t a st d = Ret (d', emptied a, upd n st, None) /\
    Q n (base d') (temp d').
Proof.
  intros Ha Hrun. unfold handleView, prepareArrowView. rewrite (Build_ok a Ha). cbn [mbind outcome_bind].
  rewrite arrow_law. destruct (register_law (project off (fi a) (record_of a)) d) as (d1 & -> & Hb & Hv).
  destruct (Hrun d1 Hv Hb) as (d2 & n & E & HQ). cbn [mbind outcome_bind]. unfold exec. rewrite E.
  eexists _, n. split; [reflexivity|]. unfold closeView.
  destruct (release_law (ExecContext ("DROP VIEW IF EXISTS " +:+ viewName) d2).1) as [-> ->].
  destruct (drop_view_law d2) as [-> ->]. exact HQ.
Qed.

Lemma handleInsertOnly_ok a st d : appender_ok a -> schema <> [] -> unique_keys schema (base d) ->
  Forall is_insert (delta_rows a) -> source_valid (delta_rows a) (base d) ->
  exists d', handleInsertOnly viewHash t a st d =
      Ret (d', emptied a, let n := Z.of_nat (length (delta_rows a)) in add_stats n n 0 st, None) /\
    same_rows (base d') (apply_delta schema (delta_rows a) (base d)) /\ unique_keys schema (base d').
Proof.
  intros Ha Hs Hu Hi Hv. destruct (project_offset a Ha Hs) as [En Er].
  destruct (insert_only_delta _ _ Hi Hv Hu) as [E Hu'].
  destruct (handleView_ok NumAugmentedFields (fun _ => []) (insertOnlySQL t) (fun n => add_stats n n 0) a st d
    (fun n b _ => n = Z.of_nat (length (delta_rows a)) /\ b ≡ₚ base d ++ map base_of (delta_rows a)) Ha)
    as (d' & n & Eh & -> & Hb).
  - intros d1 Hview Hb. destruct (insert_only_law (emptied a) _ d1 (ok_schema _ Ha) Hview En) as (d2 & Ex & Hb2).
    + rewrite Er, Hb. auto.
    + rewrite Er, Hb in Hb2. rewrite Er, length_map in Ex. eauto.
  - exists d'. split; [exact Eh|]. rewrite E. split; [apply Permutation_same_rows, Hb | rewrite Hb; exact Hu'].
Qed.

Lemma handleDeleteOnly_ok a st d : appender_ok a -> List.filter col_pk schema <> [] -> unique_keys schema (base d) ->
  Forall is_delete (delta_rows a) -> Forall (fun r => no_null (dkey r)) (delta_rows a) ->
  exists d', handleDeleteOnly viewHash t a st d =
      Ret (d', emptied a, let n := affected (base d) (base d') in add_stats n 0 n st, None) /\
    same_rows (base d') (apply_delta schema (delta_rows a) (base d)) /\ unique_keys schema (base d').
Proof.
  intros Ha Hpk Hu Hi Hnn. destruct (project_keys a Ha Hpk) as [En Er].
  destruct (handleView_ok 0 getPrimaryKeyIndices (deleteOnlySQL t) (fun n => add_stats n 0 n) a st d
    (fun n b _ => n = affected (base d) b /\ b ≡ₚ without (map dkey (delta_rows a)) (base d)) Ha)
    as (d' & n & Eh & -> & Hb).
  - intros d1 Hview Hb. destruct (delete_only_law (emptied a) _ d1 (ok_schema _ Ha) Hview En) as (d2 & Ex & Hb2).
    + rewrite En. destruct (List.filter col_pk schema); [congruence | discriminate].
    + rewrite Er. apply Forall_map, Hnn.
    + rewrite Er, Hb in Hb2. rewrite Hb in Ex. eauto.
  - exists d'. split; [exact Eh|]. rewrite delete_only_delta by exact Hi.
    split; [apply Permutation_same_rows, Hb | rewrite Hb; apply unique_without, Hu].
Qed.

Lemma handleZeroDelete_ok a st d : indexed = true -> appender_ok a -> unique_keys schema (base d) ->
  Forall is_insert (delta_rows a) -> ordered schema (delta_rows a) ->
  Forall (fun r => no_null (dkey r)) (delta_rows a) ->
  exists d' n, handleZeroDelete viewHash t a st d = Ret (d', emptied a, add_stats n n 0 st, None) /\
    same_rows (base d') (apply_delta schema (delta_rows a) (base d)) /\ unique_keys schema (base d').
Proof.
  intros Hix Ha Hu Hi Ho Hnn.
  destruct (handleView_ok 0 (fun _ => []) (zeroDeleteSQL t) (fun n => add_stats n n 0) a st d
    (fun _ b _ => exists T, condensed schema (delta_rows a) T /\ b ≡ₚ upsert (map base_of T) (base d)) Ha)
    as (d' & n & Eh & T & HT & Hb).
  - intros d1 Hview Hb. destruct (zero_delete_law (emptied a) _ d1 Hix (ok_schema _ Ha) Hview) as (d2 & T & Ex & HT & Hb2).
    + unfold names. rewrite <- (ok_schema _ Ha). reflexivity.
    + exact Hnn.
    + rewrite Hb in Hb2. eauto 6.
  - exists d', n. split; [exact Eh|]. split.
    + rewrite (Permutation_same_rows _ _ Hb). apply upsert_only; assumption.
    + rewrite Hb. apply unique_upsert; [exact Hu|]. rewrite map_key_base. apply HT.
Qed.

Lemma materialize_ok a st d : appender_ok a ->
  exists d' T, materializeCondensedDelta viewHash t a st d =
      Ret (d', emptied a, add_stats (Z.of_nat (length T)) 0 0 st, None) /\
    condensed schema (delta_rows a) T /\ temp d' = Some T /\ base d' = base d.
Proof.
  intros Ha.
  destruct (handleView_ok 0 (fun _ => []) materializeSQL (fun n => add_stats n 0 0) a st d
    (fun n b tmp => exists T, n = Z.of_nat (length T) /\ condensed schema (delta_rows a) T /\ tmp = Some T /\ b = base d) Ha)
    as (d' & n & Eh & T & -> & HT & Htmp & Hb).
  - intros d1 Hview Hb. destruct (materialize_law (emptied a) _ d1 (ok_schema _ Ha) Hview) as (d2 & T & Ex & HT & Htmp & Hb2).
    + unfold names. rewrite <- (ok_schema _ Ha). reflexivity.
    + rewrite Hb in Hb2. eauto 10.
  - eauto 6.
Qed.

Lemma handleGeneralCase_ok a st d : indexed = true -> appender_ok a -> List.filter col_pk schema <> [] ->
  unique_keys schema (base d) -> actions_ok (delta_rows a) -> ordered schema (delta_rows a) ->
  Forall (fun r => no_null (dkey r)) (delta_rows a) ->
  exists d' st', handleGeneralCase viewHash t a st d = Ret (d', emptied a, st', None) /\
    same_rows (base d') (apply_delta schema (delta_rows a) (base d)) /\ unique_keys schema (base d').
Proof.
  intros Hix Ha Hpk Hu Hact Ho Hnn. unfold handleGeneralCase.
  destruct (materialize_ok a st d Ha) as (d1 & T & -> & HT & Htmp & Hb1). cbn [mbind outcome_bind].
  pose proof (condensed_no_null _ _ HT Hnn) as HnT. pose proof (proj1 HT) as HnD.
  destruct (general_insert_law T d1 Hix Htmp HnT HnD) as (d2 & Ex2 & Htmp2 & Hb2). unfold exec. rewrite Ex2.
  destruct (general_delete_law (emptied a) T d2 (ok_schema _ Ha) Hpk Htmp2 HnT) as (d3 & Ex3 & Hb3). rewrite Ex3.
  eexists _, _. split; [reflexivity|]. unfold dropDelta. rewrite drop_temp_law.
  assert (Hb : base d3 ≡ₚ without (map dkey (deletes T)) (upsert (map base_of (inserts T)) (base d))).
  { rewrite Hb3. unfold without at 1. rewrite Hb2, Hb1. reflexivity. }
  split.
  - rewrite (Permutation_same_rows _ _ Hb). apply insert_then_delete; assumption.
  - rewrite Hb. apply unique_without, unique_upsert; [exact Hu|].
    rewrite map_key_base. apply NoDup_map_filter, HnD.
Qed.

Lemma handleWithoutIndex_ok a st d : indexed = false -> appender_ok a -> List.filter col_pk schema <> [] ->
  unique_keys schema (base d) -> actions_ok (delta_rows a) -> ordered schema (delta_rows a) ->
  Forall (fun r => no_null (dkey r)) (delta_rows a) ->
  exists d' st', handleWithoutIndex viewHash t a st d = Ret (d', emptied a, st', None) /\
    same_rows (base d') (apply_delta schema (delta_rows a) (base d)) /\ unique_keys schema (base d').
Proof.
  intros Hix Ha Hpk Hu Hact Ho Hnn. unfold handleWithoutIndex.
  destruct (materialize_ok a st d Ha) as (d1 & T & -> & HT & Htmp & Hb1). cbn [mbind outcome_bind].
  pose proof (condensed_no_null _ _ HT Hnn) as HnT.
  destruct (no_index_delete_law (emptied a) T d1 (ok_schema _ Ha) Hpk Htmp HnT) as (d2 & Ex2 & Htmp2 & Hb2).
  unfold exec. rewrite Ex2.
  destruct (no_index_insert_law T d2 Hix Htmp2) as (d3 & Ex3 & Hb3). rewrite Ex3.
  eexists _, _. split; [reflexivity|]. unfold dropDelta. rewrite drop_temp_law.
  assert (Hb : base d3 ≡ₚ without (map dkey T) (base d) ++ map base_of (inserts T)) by (rewrite Hb3, Hb2, Hb1; reflexivity).
  split.
  - rewrite (Permutation_same_rows _ _ Hb). apply delete_then_insert; assumption.
  - rewrite Hb. unfold unique_keys. rewrite map_app, map_key_base. apply NoDup_app.
    split; [apply unique_without, Hu|]. split; [|apply NoDup_map_filter, HT].
    intros k Hk Hk'. apply elem_of_map in Hk, Hk'. destruct Hk as (r & -> & Hr), Hk' as (d' & E & Hd').
    apply elem_of_without in Hr. apply Hr. rewrite E. apply elem_of_map.
    exists d'. split; [auto|]. apply list_elem_of_filter in Hd'. tauto.
Qed.

(** ** The counters tell the truth about the buffered rows *)
Record counters_ok (a : DeltaAppender) : Prop := mkCountersOk {
  ok_nonneg : 0 <= event_delete (a_counters a) /\ 0 <= event_insert (a_counters a) /\ 0 <= event_update (a_counters a) /\
    0 <= action_delete (a_counters a);
  ok_no_delete : event_delete (a_counters a) = 0 -> event_update (a_counters a) = 0 -> Forall is_insert (delta_rows a);
  ok_no_insert : event_insert (a_counters a) = 0 -> event_update (a_counters a) = 0 -> Forall is_delete (delta_rows a);
  ok_zero_delete : action_delete (a_counters a) = 0 -> Forall is_insert (delta_rows a)
}.

(** A buffered delta that can be written. *)
Record delta_ok (a : DeltaAppender) (tbl : list row) : Prop := mkDeltaOk {
  d_appender : appender_ok a;
  d_counters : counters_ok a;
  d_actions : actions_ok (delta_rows a);
  d_ordered : ordered schema (delta_rows a);
  d_keys : Forall (fun r => no_null (dkey r)) (delta_rows a);
  d_source : event_delete (a_counters a) = 0 -> event_update (a_counters a) = 0 -> source_valid (delta_rows a) tbl
}.

Lemma reset_after a (P : db -> FlushStats -> Prop) (o : outcome flush_result) :
  (exists d' st', o = Ret (d', emptied a, st', None) /\ P d' st') ->
  exists d' st', ('(d, a, st, e) ← o; Ret (d, ResetCounters a, st, e)) = Ret (d', ResetCounters (emptied a), st', None) /\ P d' st'.
Proof. intros (d' & st' & -> & HP). exists d', st'. split; [reflexivity | exact HP]. Qed.

Lemma updateTable_ok env a st d :
  List.filter col_pk schema <> [] -> indexed = negb (IsReplicationWithoutIndex env) ->
  unique_keys schema (base d) -> delta_ok a (base d) ->
  exists d' st', updateTable viewHash true env t a st d = Ret (d', ResetCounters (emptied a), st', None) /\
    same_rows (base d') (apply_delta schema (delta_rows a) (base d)) /\ unique_keys schema (base d').
Proof.
  intros Hpk Hix Hu [Ha [(Hd0 & Hi0 & Hu0 & Ha0) Hins Hdel Hzero] Hact Ho Hnn Hsrc].
  assert (Hs : schema <> []) by (destruct schema; [exfalso; apply Hpk; reflexivity | discriminate]).
  unfold updateTable. cbn [negb]. apply reset_after.
  destruct (0 <? event_insert (a_counters a)) eqn:Ei, (0 <? event_delete (a_counters a)) eqn:Ed,
    (0 <? event_update (a_counters a)) eqn:Eu; cbn [negb andb];
    rewrite ?Z.ltb_lt, ?Z.ltb_ge in *.
  all: try (destruct (handleInsertOnly_ok a st d) as (d' & E & HP); eauto; [apply Hins; lia | apply Hsrc; lia]).
  all: try (destruct (handleDeleteOnly_ok a st d) as (d' & E & HP); eauto; apply Hdel; lia).
  all: destruct (IsReplicationWithoutIndex env) eqn:Ew; cbn [negb andb];
    rewrite ?andb_false_r, ?andb_true_r; try (apply handleWithoutIndex_ok; assumption).
  all: destruct (action_delete (a_counters a) =? 0) eqn:Ez; [|apply handleGeneralCase_ok; assumption].
  all: apply Z.eqb_eq in Ez; destruct (handleZeroDelete_ok a st d) as (d' & n & E & HP); eauto.
Qed.
End Handlers.
End Refine.
