(* ===== verification/DeltaFlush.v ===== *)
(** * Flushing every table

    [FlushLaws] extends what DuckDB promises for one table to a family of
    tables: the statements of one leave the rows of the others alone.  [Flush]
    then writes every buffered delta, whatever the order the map is visited in,
    and leaves the buffers empty. *)

From S2P Require Import Prelude GoTime Charset Schema Identifier Delta DeltaSpec DeltaRefine.

Section Frame.
Context `{ArrowLib} `{!EqDecision (cell num128 num256)} `{!DuckDB}.
Context (viewHash : string -> string).

(** The statements the controller sends for a table. *)
Definition controller_statements (t : tableIdentifier) (a : DeltaAppender) : list string :=
  let v := viewNameOf viewHash t in
  [ "DROP VIEW IF EXISTS " +:+ v; dropDeltaSQL; insertOnlySQL t a v; deleteOnlySQL t a v; zeroDeleteSQL t a v;
    materializeSQL a v; generalInsertSQL t; generalDeleteSQL t a; noIndexDeleteSQL t a; noIndexInsertSQL t ].

(** [f] is not changed by what the controller does for [t] with the schema of [a]. *)
Record untouched {X} (f : db -> X) (t : tableIdentifier) (s : list Column) : Prop := mkUntouched {
  u_register : forall r d d', RegisterView (viewNameOf viewHash t) r d = Some d' -> f d' = f d;
  u_release : forall d, f (ReleaseView (viewNameOf viewHash t) d) = f d;
  u_exec : forall a sql d, Schema a = s -> sql ∈ controller_statements t a -> f (fst (ExecContext sql d)) = f d
}.

Lemma frame_exec {X} (f : db -> X) t s (Hu : untouched f t s) a sql d d' r : Schema a = s -> sql ∈ controller_statements t a -> exec sql d = (d', r) -> f d' = f d.
Proof.
  intros Hs Hin E. pose proof (u_exec _ _ _ Hu a sql d Hs Hin) as Hf. unfold exec in E.
  destruct (ExecContext sql d) as [d1 [n|]]; simplify_eq; exact Hf.
Qed.

Lemma frame_close {X} (f : db -> X) t s (Hu : untouched f t s) a d : Schema a = s -> f (closeView (viewNameOf viewHash t) d) = f d.
Proof.
  intros Hs. unfold closeView. rewrite (u_release _ _ _ Hu). apply (u_exec _ _ _ Hu a); [exact Hs | left].
Qed.

Lemma frame_drop {X} (f : db -> X) t s (Hu : untouched f t s) a d : Schema a = s -> f (dropDelta d) = f d.
Proof. intros Hs. unfold dropDelta. apply (u_exec _ _ _ Hu a); [exact Hs | right; left]. Qed.

Lemma Build_schema a r a' : Build a = Ret (r, a') -> Schema a' = Schema a.
Proof. unfold Build. intros E. case_decide; [|discriminate]. injection E as <- <-. reflexivity. Qed.

Lemma frame_handleView {X} (f : db -> X) t s (Hu : untouched f t s) off fi mk upd a st d d' a' st' e : Schema a = s ->
  (forall a, Schema a = s -> mk a (viewNameOf viewHash t) ∈ controller_statements t a) ->
  handleView viewHash off fi mk upd t a st d = Ret (d', a', st', e) -> f d' = f d /\ Schema a' = s.
Proof.
  intros Hs Hmk E. unfold handleView, prepareArrowView in E.
  apply bind_Ret_inv in E. destruct E as ([a1 r] & Ep & E).
  apply bind_Ret_inv in Ep. destruct Ep as ([rec a2] & Eb & Ep).
  pose proof (Build_schema _ _ _ Eb) as Hs2. rewrite Hs in Hs2.
  destruct (NewArrowFromConn d); [|injection Ep as <- <-; injection E as <- <- <- <-; auto].
  destruct (RegisterView _ _ d) as [d1|] eqn:Er; [|injection Ep as <- <-; injection E as <- <- <- <-; auto].
  injection Ep as <- <-. pose proof (u_register _ _ _ Hu _ _ _ Er) as Hf1.
  destruct (exec _ d1) as [d2 [n|x]] eqn:Ex; injection E as <- <- <- <-; rewrite (frame_close _ _ _ Hu a2) by assumption;
    (split; [|assumption]); rewrite <- Hf1; eapply (frame_exec _ _ _ Hu); eauto.
Qed.

Ltac in_statements := intros; repeat first [ left; fail | apply list_elem_of_here | apply list_elem_of_further ].

Lemma frame_two {X} (f : db -> X) t s (Hu : untouched f t s) mk1 mk2 (g1 g2 : Z -> FlushStats -> FlushStats) a st d d' a' st' e : Schema a = s ->
  (forall a, Schema a = s -> mk1 a ∈ controller_statements t a) -> (forall a, Schema a = s -> mk2 a ∈ controller_statements t a) ->
  ('(d, a, st, e) ← materializeCondensedDelta viewHash t a st d;
   match e with
   | Some e => Ret (d, a, st, Some e)
   | None =>
       match exec (mk1 a) d with
       | (d, inr e) => Ret (dropDelta d, a, st, Some e)
       | (d, inl n) =>
           let st := g1 n st in
           match exec (mk2 a) d with
           | (d, inr e) => Ret (dropDelta d, a, st, Some e)
           | (d, inl n) => Ret (dropDelta d, a, g2 n st, None)
           end
       end
   end) = Ret (d', a', st', e) -> f d' = f d.
Proof.
  intros Hs Hm1 Hm2 E. apply bind_Ret_inv in E. destruct E as ([[[d1 a1] st1] e1] & Em & E).
  apply (frame_handleView _ _ _ Hu) in Em; [|exact Hs | intros; in_statements]. destruct Em as [Hf1 Hs1].
  destruct e1; [injection E as <- <- <- <-; exact Hf1|].
  destruct (exec (mk1 a1) d1) as [d2 [n|x]] eqn:E1; (apply (frame_exec _ _ _ Hu a1) in E1; [|exact Hs1 | apply Hm1, Hs1]).
  2: { injection E as <- <- <- <-. rewrite (frame_drop _ _ _ Hu a1) by exact Hs1. congruence. }
  cbn zeta in E. destruct (exec (mk2 a1) d2) as [d3 [n2|x]] eqn:E2; (apply (frame_exec _ _ _ Hu a1) in E2; [|exact Hs1 | apply Hm2, Hs1]);
    injection E as <- <- <- <-; rewrite (frame_drop _ _ _ Hu a1) by exact Hs1; congruence.
Qed.

Lemma frame_updateTable {X} (f : db -> X) t s (Hu : untouched f t s) tx env a st d d' a' st' e : Schema a = s ->
  updateTable viewHash tx env t a st d = Ret (d', a', st', e) -> f d' = f d.
Proof.
  intros Hs E. unfold updateTable in E. destruct tx; cbn [negb] in E; [|injection E as <- <- <- <-; reflexivity].
  apply bind_Ret_inv in E. destruct E as ([[[d1 a1] st1] e1] & Eh & E). injection E as <- <- <- <-.
  revert Eh. repeat match goal with |- context [if ?c then _ else _] => destruct c end; intros Eh.
  - apply (frame_handleView _ _ _ Hu) in Eh; [apply Eh | exact Hs | in_statements].
  - apply (frame_handleView _ _ _ Hu) in Eh; [apply Eh | exact Hs | in_statements].
  - apply (frame_handleView _ _ _ Hu) in Eh; [apply Eh | exact Hs | in_statements].
  - eapply (frame_two _ _ _ Hu (noIndexDeleteSQL t) (fun _ => noIndexInsertSQL t) (fun n => add_stats 0 0 n) (fun n => add_stats 0 n 0));
      [exact Hs | in_statements | in_statements | exact Eh].
  - eapply (frame_two _ _ _ Hu (fun _ => generalInsertSQL t) (generalDeleteSQL t) (fun n => add_stats 0 n 0) (fun n => add_stats 0 0 n));
      [exact Hs | in_statements | in_statements | exact Eh].
Qed.

(** ** A family of tables *)
Section Family.
Context {T : Type} (tab : T -> tableIdentifier) (schema_of : T -> list Column) (indexed : bool).

Class FlushLaws : Type := {
  table_laws : forall i, SqlLaws viewHash (tab i) (schema_of i) indexed;
  frame_law : forall i j, tab i <> tab j ->
    untouched (base _ _ _ _ (SqlLaws := table_laws j)) (tab i) (delta_schema (schema_of i))
}.

Context `{!FlushLaws}.

(** The rows of table [i]. *)
Definition rows_in (i : T) (d : db) : list (list (cell num128 num256)) := base _ _ _ _ (SqlLaws := table_laws i) d.

(** What a flush leaves in an appender. *)
Definition flushed (a : DeltaAppender) : DeltaAppender :=
  if (0 <? RowCount a)%nat then ResetCounters (emptied a) else a.

Definition buffered : Type := list (T * DeltaAppender).
Definition tables_of (ts : buffered) : Tables := map (fun p => (tab p.1, p.2)) ts.

(** Every buffered delta can be written into its table. *)
Definition flushable (ts : buffered) (d : db) : Prop :=
  forall i a, (i, a) ∈ ts -> List.filter col_pk (schema_of i) <> [] /\
    unique_keys (schema_of i) (rows_in i d) /\ delta_ok (schema_of i) a (rows_in i d).

Lemma empty_delta i a : appender_ok (schema_of i) a -> RowCount a = 0%nat -> delta_rows a = [].
Proof.
  intros Ha E. unfold delta_rows. rewrite (rows_of_rectangular (record_of a) (RowCount a) (ok_rect _ _ Ha)).
  - rewrite E. reflexivity.
  - intros E0. pose proof (columns_length (schema_of i) a Ha) as Hl. rewrite E0 in Hl. discriminate.
Qed.

(** What no table's statements touch, a flush does not touch. *)
Lemma Flush_frame env {X} (f : db -> X) reason ts : (forall i, untouched f (tab i) (delta_schema (schema_of i))) ->
  (forall i a, (i, a) ∈ ts -> Schema a = delta_schema (schema_of i)) ->
  forall st d d' tbs st' e, Flush viewHash true env reason (tables_of ts) st d = Ret (d', tbs, st', e) -> f d' = f d.
Proof.
  intros Hu. induction ts as [|[i a] ts IH]; intros Hs st d d' tbs st' e E; cbn [tables_of map Flush fst snd] in E;
    [injection E as <- <- <- <-; reflexivity|].
  apply bind_Ret_inv in E. destruct E as ([[[d1 a1] st1] e1] & E1 & E).
  assert (Hd1 : f d1 = f d).
  { destruct (0 <? RowCount a)%nat; [|injection E1 as <- <- <- <-; reflexivity].
    eapply (frame_updateTable f _ _ (Hu i)); [apply (Hs i a); left | exact E1]. }
  destruct e1; [injection E as <- <- <- <-; exact Hd1|].
  apply bind_Ret_inv in E. destruct E as ([[[d2 ts2] st2] e2] & E2 & E). injection E as <- <- <- <-.
  rewrite <- Hd1. eapply IH; [|exact E2]. intros j b Hj. apply Hs. right. exact Hj.
Qed.

Lemma Flush_writes env reason : indexed = negb (IsReplicationWithoutIndex env) ->
  forall ts st d, NoDup (map (fun p => tab p.1) ts) -> flushable ts d ->
  exists d' st', Flush viewHash true env reason (tables_of ts) st d =
      Ret (d', (if decide (reason = DDLStmtFlushReason) then [] else map (fun p => (tab p.1, flushed p.2)) ts), st', None) /\
    (forall i a, (i, a) ∈ ts -> same_rows (rows_in i d') (apply_delta (schema_of i) (delta_rows a) (rows_in i d)) /\
                               unique_keys (schema_of i) (rows_in i d')) /\
    (forall j, tab j ∉ map (fun p => tab p.1) ts -> rows_in j d' = rows_in j d).
Proof.
  intros Hix. induction ts as [|[i a] ts IH]; intros st d Hnd Hfl.
  - exists d, st. split; [cbn; case_decide; reflexivity|]. split; [intros i a Hin; inversion Hin | auto].
  - cbn [map] in Hnd. inversion Hnd as [|? ? Hni Hnd']; subst.
    destruct (Hfl i a (list_elem_of_here _ _)) as (Hpk & Hu & Hd).
    assert (Hone : exists d1 st1, (if (0 <? RowCount a)%nat then updateTable viewHash true env (tab i) a st d else Ret (d, a, st, None)) =
        Ret (d1, flushed a, st1, None) /\
        same_rows (rows_in i d1) (apply_delta (schema_of i) (delta_rows a) (rows_in i d)) /\ unique_keys (schema_of i) (rows_in i d1) /\
        (forall j, tab j <> tab i -> rows_in j d1 = rows_in j d)).
    { unfold flushed. destruct (Nat.ltb_spec 0 (RowCount a)) as [Hc|Hc].
      - destruct (updateTable_ok viewHash (tab i) (schema_of i) indexed (H1 := table_laws i) env a st d Hpk Hix Hu Hd)
          as (d1 & st1 & E & Hsame & Hu1).
        exists d1, st1. split; [exact E|]. split; [exact Hsame|]. split; [exact Hu1|].
        intros j Hj. assert (Hne : tab i <> tab j) by congruence.
        exact (frame_updateTable _ _ _ (frame_law i j Hne) _ _ _ _ _ _ _ _ _ (ok_schema _ _ (d_appender _ _ _ Hd)) E).
      - exists d, st. split; [reflexivity|]. rewrite (empty_delta i a (d_appender _ _ _ Hd)) by lia.
        split; [reflexivity|]. split; [exact Hu | auto]. }
    destruct Hone as (d1 & st1 & E1 & Hsame & Hu1 & Hframe).
    assert (Hfl1 : flushable ts d1).
    { intros j b Hjb. assert (Hj : tab j <> tab i).
      { intros Ej. apply Hni. apply elem_of_map. exists (j, b). split; [symmetry; exact Ej | exact Hjb]. }
      rewrite (Hframe j Hj). apply Hfl. right. exact Hjb. }
    destruct (IH st1 d1 Hnd' Hfl1) as (d2 & st2 & E2 & Hall & Hother).
    exists d2, st2. split.
    + cbn [tables_of map fst snd Flush]. unfold flush_result in *. rewrite E1. cbn [mbind outcome_bind]. unfold tables_of in E2. rewrite E2.
      cbn [mbind outcome_bind]. case_decide; reflexivity.
    + split.
      * intros j b Hjb. apply elem_of_cons in Hjb. destruct Hjb as [Hjb|Hjb].
        -- injection Hjb as -> ->. rewrite (Hother i Hni). auto.
        -- assert (Hj : tab j <> tab i).
           { intros Ej. apply Hni. apply elem_of_map. exists (j, b). split; [symmetry; exact Ej | exact Hjb]. }
           rewrite <- (Hframe j Hj). apply Hall, Hjb.
      * intros j Hj. cbn [map] in Hj. apply not_elem_of_cons in Hj. destruct Hj as [Hj1 Hj2].
        rewrite (Hother j Hj2). apply Hframe, Hj1.
Qed.
End Family.
End Frame.
