(* ===== verification/Models.v ===== *)
(** * A concrete world

    Instances of the parameters: Arrow numbers as integers, identity codecs,
    sqltypes' predicates, and a small in-memory database that runs the
    controller's statements on one table.  They show that the laws the
    development assumes can hold together, and the witnesses evaluate on them. *)

From S2P Require Import Prelude GoTime Charset Schema Rbr RbrSafe Identifier Delta DeltaSpec DeltaRefine DeltaFlush.

#[export] Instance cell_eq_dec {A B} `{!EqDecision A} `{!EqDecision B} : EqDecision (cell A B).
Proof.
  refine (fix go (c d : cell A B) {struct c} : Decision (c = d) :=
    match c, d with
    | CNull, CNull => left eq_refl
    | CInt x, CInt y => cast_if (decide (x = y))
    | CFloat32bits x, CFloat32bits y => cast_if (decide (x = y))
    | CFloat64bits x, CFloat64bits y => cast_if (decide (x = y))
    | CTime x, CTime y => cast_if (decide (x = y))
    | CDate32 x, CDate32 y => cast_if (decide (x = y))
    | CDuration x, CDuration y => cast_if (decide (x = y))
    | CBytes x, CBytes y => cast_if (decide (x = y))
    | CDecimal128 x, CDecimal128 y => cast_if (decide (x = y))
    | CDecimal256 x, CDecimal256 y => cast_if (decide (x = y))
    | CBool x, CBool y => cast_if (decide (x = y))
    | CTime64 x, CTime64 y => cast_if (decide (x = y))
    | CList x, CList y => cast_if (@list_eq_dec _ go x y)
    | _, _ => right _
    end); abstract congruence.
Defined.

(** ** Libraries *)
#[export] Instance arrow_model : ArrowLib := {|
  num128 := Z;
  num256 := Z;
  decimal128_FromBigInt z := if Z.abs z <? 2 ^ 127 then Ret z else Panic;
  decimal128_Negate z := - z;
  decimal256_FromBigInt z := if Z.abs z <? 2 ^ 255 then Ret z else Panic;
  decimal256_Negate z := - z;
  Date32FromTime t := unix_sec t / 86400
|}.

#[export] Instance arrow_model_laws : ArrowLaws.
Proof.
  refine {| value128 := fun z : num128 => z |}.
  - intros z Hz. exists z. simpl. destruct (Z.ltb_spec (Z.abs z) (2 ^ 127)); [auto | lia].
  - reflexivity.
Defined.

#[export] Instance arrow_model_laws256 : ArrowLaws256.
Proof.
  refine {| value256 := fun z : num256 => z |}.
  - intros z Hz. exists z. simpl. destruct (Z.ltb_spec (Z.abs z) (2 ^ 255)); [auto | lia].
  - reflexivity.
Defined.

#[export] Instance codec_model : Codecs := {| new_encoder _ s := Some s; new_decoder _ s := Some s |}.
#[export] Instance codec_model_laws : CodecLaws.
Proof. constructor. simpl. congruence. Qed.

#[export] Instance vitess_model : VitessLib := {|
  IsSigned q := match q with Q_INT8 | Q_INT16 | Q_INT24 | Q_INT32 | Q_INT64 => true | _ => false end;
  IsBinary q := match q with Q_BINARY | Q_VARBINARY | Q_BLOB => true | _ => false end;
  ParseBinaryJSON_Marshal bs := Some bs;
  ParseJSON_Marshal bs := Some bs
|}.
#[export] Instance vitess_model_laws : VitessLaws.
Proof. split; simpl; intuition (subst; reflexivity). Qed.

#[export] Instance cell_model_eq_dec : EqDecision (cell num128 num256) := cell_eq_dec.

(** ** The database *)
Abbreviation row := (list (cell num128 num256)).

Definition t0 : tableIdentifier := mkTableId "db" "t".
Definition schema_with (t : SqlType) : list Column := [ mkColumn "id" t true; mkColumn "v" t false ].
Definition schema0 : list Column := schema_with (plain_type Q_INT32).
Definition hash0 (s : string) : string := "a1b2".
Definition appender0 : DeltaAppender := mkAppender (delta_schema schema0) [] zeroCounters.

(** Rows as the open transaction and as a restart sees them, the stored
    position, the view, the temporary table, whether the session has a transaction
    and whether that transaction can still be committed. *)
Record mem : Type := mkMem {
  m_rows : list row; m_pos : string; m_view : option (@ArrowRecord arrow_model); m_temp : option (list row);
  m_durable : list row * string; m_open : bool; m_live : bool
}.

(** LAST(... ORDER BY ...) GROUP BY key, by insertion. *)
Fixpoint put_latest (d : row) (T : list row) : list row :=
  match T with
  | [] => [d]
  | e :: T' => if decide (dkey schema0 e = dkey schema0 d) then (if decide (before d e) then e else d) :: T'
               else e :: put_latest d T'
  end.
Definition condense (ds : list row) : list row := foldl (fun T d => put_latest d T) [] ds.

Definition statements0 : list string := controller_statements hash0 t0 appender0.
Definition statement_no (sql : string) : option nat := fst <$> list_find (fun s => s = sql) statements0.

Definition set_rows (rs : list row) (m : mem) : mem := mkMem rs (m_pos m) (m_view m) (m_temp m) (m_durable m) (m_open m) (m_live m).
Definition set_view (v : option ArrowRecord) (m : mem) : mem := mkMem (m_rows m) (m_pos m) v (m_temp m) (m_durable m) (m_open m) (m_live m).
Definition set_temp (T : option (list row)) (m : mem) : mem := mkMem (m_rows m) (m_pos m) (m_view m) T (m_durable m) (m_open m) (m_live m).

Definition del (ks : list row) (m : mem) : mem * option Z :=
  let rs := without schema0 ks (m_rows m) in (set_rows rs m, Some (affected (m_rows m) rs)).
Definition ins (rs : list row) (m : mem) : mem * option Z := (set_rows (m_rows m ++ rs) m, Some (Z.of_nat (length rs))).
Definition ups (rs : list row) (m : mem) : mem * option Z :=
  (set_rows (upsert schema0 rs (m_rows m)) m, Some (Z.of_nat (length rs))).

Definition run_statement (n : nat) (m : mem) : mem * option Z :=
  match n, m_view m, m_temp m with
  | 0, _, _ => (set_view None m, Some 0%Z)
  | 1, _, _ => (set_temp None m, Some 0%Z)
  | 2, Some r, _ => ins (rows_of r) m
  | 3, Some r, _ => del (rows_of r) m
  | 4, Some r, _ =>
      (* a NULL in the key violates the constraint of the table *)
      if decide (Forall (fun d => no_null (dkey schema0 d)) (rows_of r)) then ups (map base_of (condense (rows_of r))) m else (m, None)
  | 5, Some r, _ => let T := condense (rows_of r) in (set_temp (Some T) m, Some (Z.of_nat (length T)))
  | 6, _, Some T => ups (map base_of (inserts T)) m
  | 7, _, Some T => del (map (dkey schema0) (deletes T)) m
  | 8, _, Some T => del (map (dkey schema0) T) m
  | 9, _, Some T => ins (map base_of (inserts T)) m
  | _, _, _ => (m, None)
  end%nat.

#[export] Instance duckdb_model : DuckDB := {|
  db := mem;
  NewArrowFromConn _ := true;
  RegisterView _ r m := Some (set_view (Some r) m);
  ReleaseView _ m := m;
  ExecContext sql m := match statement_no sql with Some n => run_statement n m | None => (m, None) end
|}.

(** ** Its laws *)
Definition keys_of (T : list row) : list row := map (dkey schema0) T.

Lemma put_latest_keys d T : keys_of (put_latest d T) = if decide (dkey schema0 d ∈ keys_of T) then keys_of T else keys_of T ++ [dkey schema0 d].
Proof.
  induction T as [|e T IH]; [rewrite decide_False by (intros Hn; inversion Hn); reflexivity|].
  cbn [put_latest]. destruct (decide (dkey schema0 e = dkey schema0 d)) as [E|E].
  - destruct (decide (dkey schema0 d ∈ keys_of (e :: T))) as [_|Hno]; [|exfalso; apply Hno; rewrite <- E; left].
    unfold keys_of. destruct (decide (before d e)); cbn [map]; congruence.
  - change (keys_of (e :: put_latest d T)) with (dkey schema0 e :: keys_of (put_latest d T)).
    change (keys_of (e :: T)) with (dkey schema0 e :: keys_of T). rewrite IH.
    destruct (decide (dkey schema0 d ∈ keys_of T)) as [Hin|Hin].
    + rewrite decide_True by (right; exact Hin). reflexivity.
    + rewrite decide_False; [reflexivity|]. rewrite elem_of_cons. intros [H1|H1]; [congruence | exact (Hin H1)].
Qed.

(** One step keeps the condensed rows the latest of what was seen. *)
Lemma put_latest_condensed ds d T : condensed schema0 ds T -> condensed schema0 (ds ++ [d]) (put_latest d T).
Proof.
  intros (Hn & Hmax & Hall).
  assert (Hsub : forall e, e ∈ put_latest d T -> e ∈ T \/ e = d).
  { clear. induction T as [|x T IH]; intros e He; [apply list_elem_of_singleton in He; auto|].
    cbn [put_latest] in He. destruct (decide _).
    - apply elem_of_cons in He. destruct He as [->|He]; [destruct (decide _); [left; left | right; reflexivity] | left; right; exact He].
    - apply elem_of_cons in He. destruct He as [->|He]; [left; left|]. destruct (IH e He); [left; right; assumption | auto]. }
  assert (Hkey : forall e e', e ∈ put_latest d T -> e' = d -> dkey schema0 e' = dkey schema0 e -> ~ before e e').
  { intros e e' He -> Hk. revert He Hk. clear - Hn. induction T as [|x T IH]; intros He Hk.
    - apply list_elem_of_singleton in He. subst. apply before_irrefl.
    - cbn [put_latest] in He. inversion Hn as [|? ? Hx Hn']; subst. destruct (decide (dkey schema0 x = dkey schema0 d)) as [E|E].
      + apply elem_of_cons in He. destruct He as [->|He].
        * destruct (decide (before d x)) as [Hb|Hb]; [intros Hb'; exact (before_asymmetric _ _ Hb Hb') | apply before_irrefl].
        * exfalso. apply Hx. rewrite E, Hk. apply elem_of_map. exists e. auto.
      + apply elem_of_cons in He. destruct He as [->|He]; [congruence|]. apply IH; assumption. }
  split; [|split].
  - change (NoDup (keys_of (put_latest d T))). rewrite put_latest_keys. case_decide as Hin; [exact Hn|].
    apply NoDup_app. split; [exact Hn|]. split; [|apply NoDup_singleton].
    intros k Hk Hk'. apply list_elem_of_singleton in Hk'. subst. exact (Hin Hk).
  - intros e He. split.
    + apply elem_of_app. destruct (Hsub e He) as [H1| ->]; [left; apply Hmax, H1 | right; left].
    + intros e' He' Hk. apply elem_of_app in He'. destruct He' as [He'|He'].
      2: { apply list_elem_of_singleton in He'. eapply Hkey; eauto. }
      destruct (Hsub e He) as [H1| ->]; [apply Hmax; assumption|].
      (* d replaced the row of its key *)
      destruct (Hall e' He') as (x & Hx & Hxk).
      assert (Hbx : ~ before x e') by (apply (proj2 (Hmax x Hx)); [exact He' | congruence]).
      assert (Hdx : ~ before d x).
      { clear - He Hx Hxk Hk Hn. intros Hb. revert He Hx. induction T as [|y T IH]; intros He Hx; [inversion Hx|].
        inversion Hn as [|? ? Hy Hn']; subst. cbn [put_latest] in He.
        destruct (decide (dkey schema0 y = dkey schema0 d)) as [E|E].
        - assert (x = y) as ->.
          { apply elem_of_cons in Hx. destruct Hx as [->|Hx]; [reflexivity|]. exfalso. apply Hy. rewrite E, <- Hk, <- Hxk.
            apply elem_of_map. eauto. }
          rewrite decide_True in He by exact Hb. apply elem_of_cons in He. destruct He as [He|He].
          + subst. exact (before_irrefl _ Hb).
          + apply Hy. rewrite E. apply elem_of_map. eauto.
        - apply elem_of_cons in He. destruct He as [->|He]; [congruence|].
          apply elem_of_cons in Hx. destruct Hx as [->|Hx]; [congruence|]. exact (IH Hn' He Hx). }
      exact (not_before_trans e' x d Hbx Hdx).
  - intros e He. assert (Hk : dkey schema0 e ∈ keys_of (put_latest d T)).
    { rewrite put_latest_keys. apply elem_of_app in He. destruct He as [He|He].
      - destruct (Hall e He) as (x & Hx & <-). assert (dkey schema0 x ∈ keys_of T) by (apply elem_of_map; eauto).
        case_decide; [assumption | apply elem_of_app; auto].
      - apply list_elem_of_singleton in He. subst. case_decide; [assumption | apply elem_of_app; right; left]. }
    apply elem_of_map in Hk. destruct Hk as (x & -> & Hx). eauto.
Qed.

Lemma condense_condensed ds : condensed schema0 ds (condense ds).
Proof.
  induction ds as [|d ds IH] using rev_ind.
  - split; [constructor|]. split; intros ? Hn; inversion Hn.
  - unfold condense. rewrite foldl_app. apply put_latest_condensed, IH.
Qed.

Lemma statements_eq t a : isTimestampType t = false -> Schema a = delta_schema (schema_with t) -> controller_statements hash0 t0 a = statements0.
Proof. destruct a as [sch fs c]. intros Ht E. cbn in E. subst sch. lazy -[isTimestampType]. rewrite !Ht. reflexivity. Qed.

Lemma statement_numbers : imap (fun i s => bool_decide (statement_no s = Some i)) statements0 = replicate 10 true.
Proof. vm_compute. reflexivity. Qed.

Lemma exec_statement t a n sql m : isTimestampType t = false -> Schema a = delta_schema (schema_with t) ->
  controller_statements hash0 t0 a !! n = Some sql -> ExecContext sql m = run_statement n m.
Proof.
  intros Ht Hs Hn. rewrite (statements_eq t a Ht Hs) in Hn.
  assert (E : statement_no sql = Some n).
  { pose proof statement_numbers as Hall. apply (f_equal (fun l => l !! n)) in Hall.
    pose proof (lookup_lt_Some _ _ _ Hn) as Hlt. cbv beta in Hall.
    rewrite list_lookup_imap, Hn, lookup_replicate_2 in Hall by exact Hlt. injection Hall as Hall. apply bool_decide_eq_true in Hall. exact Hall. }
  simpl. rewrite E. reflexivity.
Qed.

(** The laws hold for both kinds of table. *)
Lemma sql_model_laws_with t indexed : isTimestampType t = false -> SqlLaws hash0 t0 (schema_with t) indexed.
Proof.
  intros Hts. refine {| base := m_rows : db -> _; view := m_view : db -> _; temp := m_temp : db -> _ |}.
  - reflexivity.
  - intros r d. exists (set_view (Some r) d). repeat split.
  - intros d d'. unfold d'. rewrite (exec_statement (plain_type Q_INT32) appender0 0) by reflexivity. split; reflexivity.
  - intros d. split; reflexivity.
  - intros d. rewrite (exec_statement (plain_type Q_INT32) appender0 1) by reflexivity. reflexivity.
  - intros a r d Hs Hv _ _. rewrite (exec_statement t a 2) by (exact Hts || exact Hs || reflexivity).
    cbn [run_statement]. rewrite Hv. eexists. split; reflexivity.
  - intros a r d Hs Hv _ _ _. rewrite (exec_statement t a 3) by (exact Hts || exact Hs || reflexivity).
    cbn [run_statement]. rewrite Hv. exists (set_rows (without schema0 (rows_of r) (m_rows d)) d). split; reflexivity.
  - intros a r d _ Hs Hv _ Hnn. rewrite (exec_statement t a 4) by (exact Hts || exact Hs || reflexivity).
    cbn [run_statement]. rewrite Hv, decide_True by exact Hnn. eexists _, (condense (rows_of r)). unfold ups. rewrite length_map.
    split; [reflexivity|]. split; [apply condense_condensed | reflexivity].
  - intros a r d Hs Hv _. rewrite (exec_statement t a 5) by (exact Hts || exact Hs || reflexivity).
    cbn [run_statement]. rewrite Hv. eexists _, (condense (rows_of r)).
    split; [reflexivity|]. split; [apply condense_condensed | split; reflexivity].
  - intros T d _ Ht _ _. rewrite (exec_statement (plain_type Q_INT32) appender0 6) by reflexivity.
    cbn [run_statement]. rewrite Ht. destruct (m_view d); (eexists; unfold ups; rewrite length_map; split; [reflexivity|]; split; [exact Ht | reflexivity]).
  - intros a T d Hs _ Ht _. rewrite (exec_statement t a 7) by (exact Hts || exact Hs || reflexivity).
    cbn [run_statement]. rewrite Ht.
    destruct (m_view d); exists (set_rows (without schema0 (map (dkey schema0) (deletes T)) (m_rows d)) d); split; reflexivity.
  - intros a T d Hs _ Ht _. rewrite (exec_statement t a 8) by (exact Hts || exact Hs || reflexivity).
    cbn [run_statement]. rewrite Ht.
    destruct (m_view d); (exists (set_rows (without schema0 (map (dkey schema0) T) (m_rows d)) d);
      split; [reflexivity|]; split; [exact Ht | reflexivity]).
  - intros T d _ Ht. rewrite (exec_statement (plain_type Q_INT32) appender0 9) by reflexivity.
    cbn [run_statement]. rewrite Ht. destruct (m_view d); (eexists; unfold ins; rewrite length_map; split; reflexivity).
Defined.

#[export] Instance sql_model_laws indexed : SqlLaws hash0 t0 schema0 indexed := sql_model_laws_with (plain_type Q_INT32) indexed eq_refl.

Definition tab0 (_ : unit) : tableIdentifier := t0.
Definition schema_of0 (_ : unit) : list Column := schema0.
Definition schema_of_with (t : SqlType) (_ : unit) : list Column := schema_with t.

Lemma flush_model_laws_with t indexed : isTimestampType t = false -> FlushLaws hash0 tab0 (schema_of_with t) indexed.
Proof. intros Ht. refine {| table_laws _ := sql_model_laws_with t indexed Ht |}. intros i j Hne. destruct Hne. reflexivity. Defined.
#[export] Instance flush_model_laws indexed : FlushLaws hash0 tab0 schema_of0 indexed := flush_model_laws_with (plain_type Q_INT32) indexed eq_refl.

(** ** Transactions *)
Definition open_txn (m : mem) : mem := mkMem (m_rows m) (m_pos m) (m_view m) (m_temp m) (m_durable m) true true.
Definition end_txn (m : mem) : mem := mkMem (m_rows m) (m_pos m) (m_view m) (m_temp m) (m_durable m) false (m_live m).
Definition make_durable (m : mem) : mem :=
  mkMem (m_rows m) (m_pos m) (m_view m) (m_temp m) (m_rows m, m_pos m) (m_open m) false.
Definition undo_txn (m : mem) : mem :=
  mkMem (fst (m_durable m)) (snd (m_durable m)) (m_view m) None (m_durable m) false false.
Definition store_position (p : string) (m : mem) : mem := mkMem (m_rows m) p (m_view m) (m_temp m) (m_durable m) (m_open m) (m_live m).

(** The controller's statements and views leave what is durable and the
    transaction alone. *)
Definition outside (m : mem) : list row * string * bool * bool := (m_durable m, m_open m, m_live m).

Lemma run_statement_outside n m : outside (fst (run_statement n m)) = outside m.
Proof.
  do 10 (destruct n as [|n]; [destruct m as [rs p [r|] [t|] du o l]; cbn [run_statement m_view m_temp]; try destruct (decide _); reflexivity|]).
  destruct m as [rs p [r|] [t|] du o l]; reflexivity.
Qed.

Lemma outside_untouched {X} (f : list row * string * bool * bool -> X) s : untouched hash0 (fun m : db => f (outside m)) t0 s.
Proof.
  split.
  - intros r d d' E. cbn in E. injection E as <-. reflexivity.
  - reflexivity.
  - intros a sql d _ _. cbn [ExecContext duckdb_model]. destruct (statement_no sql); [|reflexivity].
    f_equal. apply run_statement_outside.
Qed.
