(* ===== verification/Filtering.v ===== *)
(** * Replication filters (src/binlogreplication/binlog_replica_filtering.go)

    The four rule sets of CHANGE REPLICATION FILTER, how the setters build
    them, and [isTableFilteredOut], which the applier asks before it reads the
    rows of an event.  Go's maps to empty structs are [gset]s; the order in
    which the getters list them is the map's iteration order, so the theorems
    speak of membership. *)

From S2P Require Import Prelude Delta.
From stdpp Require Import gmap strings.

Record filterConfiguration : Type := mkFilters {
  doDatabases : gset string;
  ignoreDatabases : gset string;
  doTables : gmap string (gset string);
  ignoreTables : gmap string (gset string)
}.

Definition newFilterConfiguration : filterConfiguration := mkFilters ∅ ∅ ∅ ∅.

(** [sql.UnresolvedTable]: the name of its database and its own. *)
Record UnresolvedTable : Type := mkUrt { urt_database : string; urt_name : string }.

Inductive FilterError : Type := ErrNoDatabaseSpecified (table : string).

Definition setDoDatabases (databases : list string) (fc : filterConfiguration) : filterConfiguration :=
  mkFilters (list_to_set (map strings_ToLower databases)) (ignoreDatabases fc) (doTables fc) (ignoreTables fc).

Definition setIgnoreDatabases (databases : list string) (fc : filterConfiguration) : filterConfiguration :=
  mkFilters (doDatabases fc) (list_to_set (map strings_ToLower databases)) (doTables fc) (ignoreTables fc).

Fixpoint verifyAllTablesAreQualified (urts : list UnresolvedTable) : option FilterError :=
  match urts with
  | [] => None
  | urt :: urts' =>
      if decide (urt_database urt = EmptyString) then Some (ErrNoDatabaseSpecified (urt_name urt))
      else verifyAllTablesAreQualified urts'
  end.

(** One turn of the setters' loop. *)
Definition addTable (m : gmap string (gset string)) (urt : UnresolvedTable) : gmap string (gset string) :=
  let table := strings_ToLower (urt_name urt) in
  let db := strings_ToLower (urt_database urt) in
  <[db := {[table]} ∪ default ∅ (m !! db)]> m.

Definition setDoTables (urts : list UnresolvedTable) (fc : filterConfiguration) : filterConfiguration * option FilterError :=
  match verifyAllTablesAreQualified urts with
  | Some err => (fc, Some err)
  | None => (mkFilters (doDatabases fc) (ignoreDatabases fc) (foldl addTable ∅ urts) (ignoreTables fc), None)
  end.

Definition setIgnoreTables (urts : list UnresolvedTable) (fc : filterConfiguration) : filterConfiguration * option FilterError :=
  match verifyAllTablesAreQualified urts with
  | Some err => (fc, Some err)
  | None => (mkFilters (doDatabases fc) (ignoreDatabases fc) (doTables fc) (foldl addTable ∅ urts), None)
  end.

Definition getDoDatabases (fc : filterConfiguration) : list string := elements (doDatabases fc).
Definition getIgnoreDatabases (fc : filterConfiguration) : list string := elements (ignoreDatabases fc).

Definition convertFilterMapToStringSlice (m : gmap string (gset string)) : list string :=
  map_to_list m ≫= fun '(db, tables) => map (fun t => db +:+ "." +:+ t) (elements tables).
Definition getDoTables (fc : filterConfiguration) : list string := convertFilterMapToStringSlice (doTables fc).
Definition getIgnoreTables (fc : filterConfiguration) : list string := convertFilterMapToStringSlice (ignoreTables fc).

(** The source tests [len(m) > 0]. *)
Definition nonempty {A} `{Size A} (m : A) : bool := (0 <? size m)%nat.

(** [None] is the nil receiver. *)
Definition isTableFilteredOut (fc : option filterConfiguration) (database name : string) : bool :=
  match fc with
  | None => false
  | Some fc =>
      let table := strings_ToLower name in
      let db := strings_ToLower database in
      if nonempty (doDatabases fc) && negb (bool_decide (db ∈ doDatabases fc)) then true
      else if negb (nonempty (doDatabases fc)) && nonempty (ignoreDatabases fc) && bool_decide (db ∈ ignoreDatabases fc)
      then true
      else if nonempty (doTables fc) &&
              match doTables fc !! db with Some ts => negb (bool_decide (table ∈ ts)) | None => false end
      then true
      else if nonempty (ignoreTables fc) &&
              match ignoreTables fc !! db with Some ts => bool_decide (table ∈ ts) | None => false end
      then true
      else false
  end.

(** ** Case does not matter *)
Lemma toLower_idemp c : toLower (toLower c) = toLower c.
Proof. destruct c as [[] [] [] [] [] [] [] []]; reflexivity. Qed.

Lemma ToLower_idemp s : strings_ToLower (strings_ToLower s) = strings_ToLower s.
Proof. induction s as [|c s IH]; simpl; rewrite ?toLower_idemp, ?IH; reflexivity. Qed.

(** ** The rules, read off the sets *)
Lemma addTable_lookup m urt db t :
  (exists ts, addTable m urt !! db = Some ts /\ t ∈ ts) <->
  (db = strings_ToLower (urt_database urt) /\ t = strings_ToLower (urt_name urt)) \/
  (exists ts, m !! db = Some ts /\ t ∈ ts).
Proof.
  unfold addTable. destruct (decide (db = strings_ToLower (urt_database urt))) as [->|E].
  - rewrite lookup_insert_eq. split.
    + intros (ts & [= <-] & Ht). apply elem_of_union in Ht. destruct Ht as [Ht|Ht]; [left; set_solver|].
      right. destruct (m !! _) as [ts|]; [eauto | set_solver].
    + intros [[_ ->]|(ts & -> & Ht)]; eexists; (split; [reflexivity|]); set_solver.
  - rewrite lookup_insert_ne by congruence. split; [eauto | intros [[? _]|?]; [congruence | assumption]].
Qed.

Definition listed (db t : string) (urt : UnresolvedTable) : Prop :=
  db = strings_ToLower (urt_database urt) /\ t = strings_ToLower (urt_name urt).

Lemma addTables_lookup urts : forall m db t,
  (exists ts, foldl addTable m urts !! db = Some ts /\ t ∈ ts) <->
  Exists (listed db t) urts \/ (exists ts, m !! db = Some ts /\ t ∈ ts).
Proof.
  induction urts as [|urt urts IH]; intros m db t; cbn [foldl].
  - split; [auto | intros [Hx|?]; [inversion Hx | assumption]].
  - rewrite IH, addTable_lookup, Exists_cons. unfold listed at 2. tauto.
Qed.

Lemma addTables_db urts : forall m db,
  is_Some (foldl addTable m urts !! db) <->
  Exists (fun urt => db = strings_ToLower (urt_database urt)) urts \/ is_Some (m !! db).
Proof.
  induction urts as [|urt urts IH]; intros m db; cbn [foldl].
  - split; [auto | intros [Hx|?]; [inversion Hx | assumption]].
  - rewrite IH, Exists_cons. unfold addTable.
    destruct (decide (db = strings_ToLower (urt_database urt))) as [->|E].
    + rewrite lookup_insert_eq. split; [auto|]. intros _. right. eauto.
    + rewrite lookup_insert_ne by congruence. tauto.
Qed.

Lemma nonempty_lookup (m : gmap string (gset string)) db ts : m !! db = Some ts -> nonempty m = true.
Proof.
  intros Hm. unfold nonempty. apply Nat.ltb_lt. destruct (size m) as [|n] eqn:E; [|lia].
  apply map_size_empty_inv in E. subst. rewrite lookup_empty in Hm. discriminate.
Qed.

Lemma nonempty_set (s : gset string) : nonempty s = false <-> s = ∅.
Proof.
  unfold nonempty. rewrite Nat.ltb_ge. split.
  - intros Hs. apply leibniz_equiv, size_empty_inv. lia.
  - intros ->. rewrite size_empty. lia.
Qed.

(** The decision as a formula over the four sets. *)
Definition passes (fc : filterConfiguration) (db table : string) : Prop :=
  (doDatabases fc = ∅ \/ db ∈ doDatabases fc) /\
  (doDatabases fc = ∅ -> db ∉ ignoreDatabases fc) /\
  (forall ts, doTables fc !! db = Some ts -> table ∈ ts) /\
  (forall ts, ignoreTables fc !! db = Some ts -> table ∉ ts).

Lemma ignored_test m db table :
  nonempty m && match m !! db with Some ts => bool_decide (table ∈ ts) | None => false end = false <->
  (forall ts : gset string, (m : gmap string (gset string)) !! db = Some ts -> table ∉ ts).
Proof.
  destruct (m !! db) as [ts|] eqn:E.
  - rewrite (nonempty_lookup m db ts E). simpl. rewrite bool_decide_eq_false. split; [congruence | auto].
  - rewrite andb_false_r. split; congruence.
Qed.

Lemma listed_test m db table :
  nonempty m && match m !! db with Some ts => negb (bool_decide (table ∈ ts)) | None => false end = false <->
  (forall ts : gset string, (m : gmap string (gset string)) !! db = Some ts -> table ∈ ts).
Proof.
  destruct (m !! db) as [ts|] eqn:E.
  - rewrite (nonempty_lookup m db ts E). simpl. rewrite negb_false_iff, bool_decide_eq_true. split; [congruence | auto].
  - rewrite andb_false_r. split; congruence.
Qed.

Lemma isTableFilteredOut_false fc database name :
  isTableFilteredOut (Some fc) database name = false <->
  passes fc (strings_ToLower database) (strings_ToLower name).
Proof.
  unfold passes. cbn [isTableFilteredOut].
  set (db := strings_ToLower database). set (table := strings_ToLower name).
  rewrite <- listed_test, <- ignored_test.
  destruct (nonempty (doDatabases fc)) eqn:Ed.
  - assert (Hne : doDatabases fc <> ∅) by (intros E; apply nonempty_set in E; congruence).
    case_bool_decide as Hin; simpl; [|split; [discriminate | tauto]].
    destruct (nonempty (doTables fc) && _); [split; [discriminate | intuition discriminate]|].
    destruct (nonempty (ignoreTables fc) && _); split; intuition (try discriminate; try tauto).
  - apply nonempty_set in Ed. simpl.
    assert (Hig : nonempty (ignoreDatabases fc) && bool_decide (db ∈ ignoreDatabases fc) = false <-> db ∉ ignoreDatabases fc).
    { destruct (nonempty (ignoreDatabases fc)) eqn:Ei; simpl; [apply bool_decide_eq_false|].
      apply nonempty_set in Ei. rewrite Ei. split; [intros _; set_solver | auto]. }
    destruct (nonempty (ignoreDatabases fc) && bool_decide (db ∈ ignoreDatabases fc)).
    { split; [discriminate|]. intros (_ & Hn & _). apply Hig in Hn; [discriminate | exact Ed]. }
    destruct (nonempty (doTables fc) && _); [split; [discriminate | intuition discriminate]|].
    destruct (nonempty (ignoreTables fc) && _); split; intuition (try discriminate; try tauto).
Qed.
