(* ===== verification/Updater.v ===== *)
(** * The row-by-row table writer (src/replica/updater.go)

    The path of events whose row image is not full, or whose table has no
    primary key: [newTableUpdater] builds a prepared statement from the column
    bitmaps of the event, [Insert], [Delete] and [Update] run it for every row.
    A [mysql.Bitmap] is the list of its bits; statements run on a parameter. *)

From S2P Require Import Prelude Schema Identifier.

Module Updater.

Definition Bitmap : Type := list bool.
Definition Bit (b : Bitmap) (i : nat) : outcome bool := match b !! i with Some x => Ret x | None => Panic end.
Definition BitCount (b : Bitmap) : nat := length (List.filter id b).

Inductive UpdaterError : Type := ErrPartialPrimaryKeyUpdate | ErrPrepare (sql : string) | ErrExecStmt (sql : string) | ErrEquals.

(** Identifiers are put between quotes, and not escaped. *)
Definition quoteIdentifier (identifier : string) : string := dquote +:+ identifier +:+ dquote.

Fixpoint isPkUpdate (schema : list Column) (i : nat) (identifyColumns dataColumns : Bitmap) : outcome bool :=
  match schema with
  | [] => Ret false
  | c :: schema' =>
      if col_pk c then
        x ← Bit identifyColumns i;
        if x : bool then
          y ← Bit dataColumns i;
          if y : bool then Ret true else isPkUpdate schema' (S i) identifyColumns dataColumns
        else isPkUpdate schema' (S i) identifyColumns dataColumns
      else isPkUpdate schema' (S i) identifyColumns dataColumns
  end.

(** The loop of [getPrimaryKeyIndices], from column [i] on with [count] columns seen. *)
Fixpoint pkIndices_loop (schema : list Column) (columns : Bitmap) (i count : nat) (indices : list nat) : list nat :=
  match schema with
  | [] => indices
  | c :: schema' =>
      let set := match columns !! i with Some b => b | None => false end in
      if col_pk c && negb set then []
      else pkIndices_loop schema' columns (S i) (if set then S count else count)
             (if col_pk c && set then indices ++ [count] else indices)
  end.
Definition getPrimaryKeyIndices (schema : list Column) (columns : Bitmap) : list nat :=
  pkIndices_loop schema columns 0 0 [].

Definition buildInsertTemplate (tableName : string) (columnCount : nat) (replace : bool) : string * nat :=
  ("INSERT" +:+ (if replace then " OR REPLACE" else EmptyString) +:+ " INTO " +:+ tableName +:+ " VALUES ("
   +:+ strings_Join ", " (replicate columnCount "?") +:+ ")", columnCount).

Definition condition (name : string) : string := quoteIdentifier name +:+ " = ?".

(** The names of the columns at the given positions; an absent position is an index panic. *)
Fixpoint names_at (schema : list Column) (idx : list nat) : outcome (list string) :=
  match idx with
  | [] => Ret []
  | i :: idx' =>
      match schema !! i with
      | Some c => ns ← names_at schema idx'; Ret (col_name c :: ns)
      | None => Panic
      end
  end.

(** The positions below [columnCount] whose bit is set. *)
Fixpoint set_positions (b : Bitmap) (ps : list nat) : outcome (list nat) :=
  match ps with
  | [] => Ret []
  | i :: ps' => x ← Bit b i; l ← set_positions b ps'; Ret (if x : bool then i :: l else l)
  end.

Definition where_columns (columnCount : nat) (schema : list Column) (pkColumns : list nat) (identifyColumns : Bitmap)
    : outcome (list string) :=
  match pkColumns with
  | [] => ps ← set_positions identifyColumns (seq 0 columnCount); names_at schema ps
  | _ => names_at schema pkColumns
  end.

Definition buildDeleteTemplate (tableName : string) (columnCount : nat) (schema : list Column) (pkColumns : list nat)
    (identifyColumns : Bitmap) : outcome (string * nat) :=
  cols ← where_columns columnCount schema pkColumns identifyColumns;
  Ret ("DELETE FROM " +:+ tableName +:+ " WHERE " +:+ strings_Join " AND " (map condition cols), length cols).

Definition buildUpdateTemplate (tableName : string) (columnCount : nat) (schema : list Column) (pkColumns : list nat)
    (identifyColumns dataColumns : Bitmap) : outcome (string * nat) :=
  ps ← set_positions dataColumns (seq 0 columnCount);
  sets ← names_at schema ps;
  cols ← where_columns columnCount schema pkColumns identifyColumns;
  Ret ("UPDATE " +:+ tableName +:+ " SET " +:+ strings_Join ", " (map condition sets)
       +:+ " WHERE " +:+ strings_Join " AND " (map condition cols),
       match pkColumns with
       | [] => (BitCount dataColumns + BitCount identifyColumns)%nat
       | _ => (BitCount dataColumns + length pkColumns)%nat
       end).

(** [tx] and [pkSubSchema] are fields of the struct that [newTableUpdater] does not set. *)
Record tableUpdater : Type := mkUpdater {
  tu_tx : bool; (* not nil *)
  tu_stmt : string;
  tu_replace : bool;
  tu_cleanup : string;
  tu_paramCount : nat;
  tu_pkSubSchema : list Column;
  tu_pkIndicesInIdentify : list nat;
  tu_pkIndicesInData : list nat
}.

Section Writer.
Context {W value : Type}.
(** [txn.PrepareContext] succeeds; [stmt.ExecContext] with its arguments. *)
Context (prepare : string -> W -> bool) (run : string -> list value -> W -> option W).
(** [sql.Row.Equals] of go-mysql-server. *)
Context (row_Equals : list value -> list value -> list Column -> option bool).
(** The nil interface value. *)
Context (nil_value : value).

Definition newTableUpdater (databaseName tableName : string) (schema : list Column) (pkOrdinals : list nat)
    (columnCount : nat) (identifyColumns dataColumns : Bitmap) (eventType : RowEventType) (w : W)
    : outcome (tableUpdater + UpdaterError) :=
  let pkIndicesInIdentify := getPrimaryKeyIndices schema identifyColumns in
  let pkIndicesInData := getPrimaryKeyIndices schema dataColumns in
  let pkColumns := match pkIndicesInIdentify with [] => [] | _ => pkOrdinals end in
  (* pkSubSchema[i] = schema[idx], for the panic of a wrong ordinal only *)
  _ ← names_at schema pkColumns;
  let fullTableName := quoteIdentifier databaseName +:+ "." +:+ quoteIdentifier tableName in
  let keyCount := BitCount identifyColumns in
  let dataCount := BitCount dataColumns in
  r ← match eventType with
      | DeleteRowEvent =>
          '(sql, n) ← buildDeleteTemplate fullTableName columnCount schema pkColumns identifyColumns;
          Ret (inl (sql, n, false, EmptyString))
      | UpdateRowEvent =>
          pkUpdate ← isPkUpdate schema 0 identifyColumns dataColumns;
          if pkUpdate : bool then
            if (length pkIndicesInIdentify =? 0)%nat || (length pkIndicesInData =? 0)%nat then
              Ret (inr ErrPartialPrimaryKeyUpdate)
            else
              let '(sql, n) := buildInsertTemplate fullTableName columnCount true in
              '(cleanup, _) ← buildDeleteTemplate fullTableName columnCount schema pkColumns identifyColumns;
              Ret (inl (sql, n, true, cleanup))
          else if (keyCount <? columnCount)%nat || (dataCount <? columnCount)%nat then
            '(sql, n) ← buildUpdateTemplate fullTableName columnCount schema pkColumns identifyColumns dataColumns;
            Ret (inl (sql, n, false, EmptyString))
          else let '(sql, n) := buildInsertTemplate fullTableName columnCount true in
               Ret (inl (sql, n, true, EmptyString))
      | InsertRowEvent =>
          let '(sql, n) := buildInsertTemplate fullTableName columnCount false in
          Ret (inl (sql, n, false, EmptyString))
      end;
  match r with
  | inr e => Ret (inr e)
  | inl (sql, paramCount, replace, cleanup) =>
      if prepare sql w then
        Ret (inl (mkUpdater false sql replace cleanup paramCount [] pkIndicesInIdentify pkIndicesInData))
      else Ret (inr (ErrPrepare sql))
  end.

(** A statement run on a list of argument rows: it stops at the first error. *)
Fixpoint run_all (sql : string) (args : list (list value)) (w : W) : W * option UpdaterError :=
  match args with
  | [] => (w, None)
  | a :: args' => match run sql a w with Some w' => run_all sql args' w' | None => (w, Some (ErrExecStmt sql)) end
  end.

Definition Insert (tu : tableUpdater) (rows : list (list value)) (w : W) : W * option UpdaterError :=
  run_all (tu_stmt tu) rows w.

(** [row[idx]] for every index. *)
Fixpoint pick (idx : list nat) (row : list value) : outcome (list value) :=
  match idx with
  | [] => Ret []
  | i :: idx' => match row !! i with Some v => vs ← pick idx' row; Ret (v :: vs) | None => Panic end
  end.

Fixpoint Delete (tu : tableUpdater) (keyRows : list (list value)) (w : W) : outcome (W * option UpdaterError) :=
  match keyRows with
  | [] => Ret (w, None)
  | row :: rows =>
      keys ← match tu_pkIndicesInIdentify tu with [] => Ret row | idx => pick idx row end;
      match run (tu_stmt tu) keys w with
      | Some w' => Delete tu rows w'
      | None => Ret (w, Some (ErrExecStmt (tu_stmt tu)))
      end
  end.

(** [beforeKey[j] = before[idx]]: the buffer has one slot per column of [pkSubSchema]. *)
Definition fill_key (slots : nat) (idx : list nat) (row : list value) : outcome (list value) :=
  vs ← pick idx row;
  if (length vs <=? slots)%nat then Ret (vs ++ replicate (slots - length vs) nil_value) else Panic.

Fixpoint delete_modified (tu : tableUpdater) (beforeRows afterRows : list (list value)) (w : W)
    : outcome (W * option UpdaterError) :=
  match beforeRows with
  | [] => Ret (w, None)
  | before :: beforeRows' =>
      match afterRows with
      | [] => Panic
      | after :: afterRows' =>
          beforeKey ← fill_key (length (tu_pkSubSchema tu)) (tu_pkIndicesInIdentify tu) before;
          afterKey ← fill_key (length (tu_pkSubSchema tu)) (tu_pkIndicesInData tu) after;
          match row_Equals beforeKey afterKey (tu_pkSubSchema tu) with
          | None => Ret (w, Some ErrEquals)
          | Some true => delete_modified tu beforeRows' afterRows' w
          | Some false =>
              match run (tu_cleanup tu) beforeKey w with
              | None => Ret (w, Some (ErrExecStmt (tu_cleanup tu)))
              | Some w' => delete_modified tu beforeRows' afterRows' w'
              end
          end
      end
  end.

Definition doInsertThenDelete (tu : tableUpdater) (beforeRows afterRows : list (list value)) (w : W)
    : outcome (W * option UpdaterError) :=
  match Insert tu afterRows w with
  | (w, Some e) => Ret (w, Some e)
  | (w, None) =>
      if tu_tx tu then
        if prepare (tu_cleanup tu) w then delete_modified tu beforeRows afterRows w
        else Ret (w, Some (ErrPrepare (tu_cleanup tu)))
      else Panic (* tx.PrepareContext on a nil tx *)
  end.

(** [copy(buf, values)], [buf[len(values)+j] = keys[idx]] and [buf[:len(values)+len(keys)]]. *)
Definition update_args (tu : tableUpdater) (values keys : list value) : outcome (list value) :=
  kvs ← match tu_pkIndicesInIdentify tu with
        | [] => Ret keys
        | idx => vs ← pick idx keys;
                 if (length values + length vs <=? tu_paramCount tu)%nat then Ret vs else Panic
        end;
  let used := take (tu_paramCount tu) (values ++ kvs) in
  let buf := used ++ replicate (tu_paramCount tu - length used) nil_value in
  if (length values + length keys <=? tu_paramCount tu)%nat then Ret (take (length values + length keys) buf) else Panic.

Fixpoint update_rows (tu : tableUpdater) (keyRows valueRows : list (list value)) (w : W)
    : outcome (W * option UpdaterError) :=
  match valueRows with
  | [] => Ret (w, None)
  | values :: valueRows' =>
      match keyRows with
      | [] => Panic
      | keys :: keyRows' =>
          args ← update_args tu values keys;
          match run (tu_stmt tu) args w with
          | Some w' => update_rows tu keyRows' valueRows' w'
          | None => Ret (w, Some (ErrExecStmt (tu_stmt tu)))
          end
      end
  end.

Definition Update (tu : tableUpdater) (keyRows valueRows : list (list value)) (w : W) : outcome (W * option UpdaterError) :=
  if tu_replace tu && bool_decide (tu_cleanup tu = EmptyString) then Ret (Insert tu valueRows w)
  else if negb (bool_decide (tu_cleanup tu = EmptyString)) then doInsertThenDelete tu keyRows valueRows w
  else update_rows tu keyRows valueRows w.

(** ** What the writer does *)

Lemma names_at_length schema idx ns : names_at schema idx = Ret ns -> length ns = length idx.
Proof.
  revert ns. induction idx as [|i idx IH]; intros ns E; simpl in E; [injection E as <-; reflexivity|].
  destruct (schema !! i); [|discriminate]. go_inv. simpl. f_equal. eapply IH; eauto.
Qed.

Lemma set_positions_all b ps l : Forall (fun i => b !! i = Some true) ps -> set_positions b ps = Ret l -> l = ps.
Proof.
  revert l. induction ps as [|i ps IH]; intros l Hb E; simpl in E; [injection E as <-; reflexivity|].
  inversion Hb as [|? ? Hi Hb']; subst. unfold Bit in E. rewrite Hi in E. go_inv. f_equal. eapply IH; eauto.
Qed.

Lemma set_positions_length b ps l : set_positions b ps = Ret l -> (length l <= length ps)%nat.
Proof.
  revert l. induction ps as [|i ps IH]; intros l E; simpl in E; [injection E as <-; simpl; lia|].
  go_inv. specialize (IH _ ltac:(eassumption)). destruct x; simpl; lia.
Qed.

Lemma BitCount_le b : (BitCount b <= length b)%nat.
Proof. unfold BitCount. induction b as [|[] b IH]; simpl in *; lia. Qed.

(** The cells the updater passes are the cells of the rows it was given. *)
Lemma update_args_wide tu values keys :
  (tu_paramCount tu < length values + length keys)%nat -> update_args tu values keys = Panic.
Proof.
  intros Hlt. unfold update_args.
  assert (Hl : (length values + length keys <=? tu_paramCount tu)%nat = false) by (apply Nat.leb_gt; exact Hlt).
  rewrite Hl. clear Hl. destruct (tu_pkIndicesInIdentify tu) as [|i idx]; [reflexivity|].
  destruct (pick (i :: idx) keys) as [vs|]; [|reflexivity]. cbn [mbind outcome_bind].
  destruct (_ <=? _)%nat; reflexivity.
Qed.

(** The parameters of an UPDATE template: fewer than the two full row images. *)
Lemma update_template_params fullName columnCount schema pkColumns identifyColumns dataColumns sql n :
  length identifyColumns = columnCount -> length dataColumns = columnCount ->
  (BitCount identifyColumns < columnCount \/ BitCount dataColumns < columnCount)%nat ->
  (length pkColumns <= BitCount identifyColumns)%nat ->
  buildUpdateTemplate fullName columnCount schema pkColumns identifyColumns dataColumns = Ret (sql, n) ->
  (n < columnCount + columnCount)%nat.
Proof.
  intros Hi Hd Hlt Hpk E. unfold buildUpdateTemplate in E. go_inv; simplify_eq.
  all: destruct pkColumns; pose proof (BitCount_le identifyColumns); pose proof (BitCount_le dataColumns); simpl in *; lia.
Qed.

Lemma update_rows_wide tu keys keyRows values valueRows w :
  (tu_paramCount tu < length values + length keys)%nat ->
  update_rows tu (keys :: keyRows) (values :: valueRows) w = Panic.
Proof. intros Hlt. simpl. rewrite update_args_wide by exact Hlt. reflexivity. Qed.

Lemma pkIndices_positions schema columns : forall i count acc l,
  pkIndices_loop schema columns i count acc = l -> l <> [] ->
  (length acc <= count)%nat -> (length l <= count + BitCount (drop i columns))%nat.
Proof.
  induction schema as [|c schema IH]; intros i count acc l E Hne Hacc; simpl in E.
  - subst. lia.
  - destruct (columns !! i) as [b|] eqn:Eb.
    + rewrite (drop_S _ _ _ Eb). unfold BitCount. destruct b; cbn [List.filter id] in *.
      * rewrite andb_true_r, andb_false_r in E. apply IH in E; [|assumption|].
        -- unfold BitCount in E. simpl. lia.
        -- destruct (col_pk c); rewrite ?length_app; simpl; lia.
      * rewrite andb_true_r, andb_false_r in E. destruct (col_pk c); [congruence|].
        apply IH in E; [|assumption|exact Hacc]. unfold BitCount in E. lia.
    + rewrite andb_true_r, andb_false_r in E. destruct (col_pk c); [congruence|].
      apply IH in E; [|assumption|exact Hacc]. apply lookup_ge_None in Eb.
      rewrite drop_ge by lia. rewrite drop_ge in E by lia. exact E.
Qed.

(** An UPDATE whose image is partial: the arguments never fit the buffer. *)
Lemma partial_update_panics databaseName tableName schema pkOrdinals identifyColumns dataColumns tu w
    keys keyRows values valueRows :
  let columnCount := length schema in
  length identifyColumns = columnCount -> length dataColumns = columnCount ->
  length keys = columnCount -> length values = columnCount ->
  length pkOrdinals = length (getPrimaryKeyIndices schema identifyColumns) \/ getPrimaryKeyIndices schema identifyColumns = [] ->
  (BitCount identifyColumns < columnCount \/ BitCount dataColumns < columnCount)%nat ->
  newTableUpdater databaseName tableName schema pkOrdinals columnCount identifyColumns dataColumns UpdateRowEvent w = Ret (inl tu) ->
  tu_replace tu = false ->
  Update tu (keys :: keyRows) (values :: valueRows) w = Panic.
Proof.
  cbn zeta. intros Hi Hd Hk Hv Hpk Hlt E Hrep. unfold newTableUpdater in E. cbn zeta in E.
  go_inv; simplify_eq; simpl in *; try discriminate; unfold Update; cbn [tu_replace tu_cleanup andb].
  rewrite bool_decide_true by reflexivity. cbn [negb].
  apply update_rows_wide. cbn [tu_paramCount]. rewrite Hk, Hv.
  eapply update_template_params; [exact Hi | exact Hd | exact Hlt | | eassumption].
  destruct (getPrimaryKeyIndices schema identifyColumns) as [|p ps] eqn:Ep; simpl; [lia|].
  destruct Hpk as [Hpk|Hpk]; [|discriminate]. rewrite Hpk.
  apply (pkIndices_positions schema identifyColumns 0 0 [] (p :: ps)) in Ep; simpl; [exact Ep | discriminate | lia].
Qed.

(** An UPDATE that carries the primary key in both images: the transaction handle is nil. *)
Lemma pk_update_panics databaseName tableName schema pkOrdinals columnCount identifyColumns dataColumns tu w w'
    keyRows valueRows :
  newTableUpdater databaseName tableName schema pkOrdinals columnCount identifyColumns dataColumns UpdateRowEvent w = Ret (inl tu) ->
  isPkUpdate schema 0 identifyColumns dataColumns = Ret true ->
  Insert tu valueRows w = (w', None) ->
  Update tu keyRows valueRows w = Panic.
Proof.
  intros E Epk Hins. unfold newTableUpdater in E. cbn zeta in E. rewrite Epk in E.
  go_inv; simplify_eq; simpl in *; try discriminate. unfold Update. cbn [tu_replace tu_cleanup andb].
  rewrite bool_decide_false by (intros ->; unfold buildDeleteTemplate in *; go_inv; simplify_eq). cbn [negb]. unfold doInsertThenDelete. rewrite Hins. reflexivity.
Qed.
End Writer.
End Updater.
