(* ===== verification/QueryVars.v ===== *)
(** * Status variables of a query event (binlog_replica_applier.go, [parseQueryEventVars])

    The applier reads the session flags and the SQL mode of a QUERY_EVENT from
    its status-variable block.  The loop is written with fuel, and
    [vars_loop_fuel] shows that the length of the block is always enough.
    [vars_block] is the layout MySQL documents. *)

From S2P Require Import Prelude.

(** The codes of the block (MySQL's Query_event_status_vars). *)
Definition QFlags2Code : Z := 0.
Definition QSQLModeCode : Z := 1.
Definition QCatalog : Z := 2.
Definition QAutoIncrement : Z := 3.
Definition QCharsetCode : Z := 4.
Definition QCatalogNZCode : Z := 6.

(** [s[i:]]. *)
Definition slice_from (s : slice) (i : Z) : outcome slice := subslice s i (Z.of_nat (s_len s)).

Fixpoint vars_loop (fuel : nat) (vars : slice) (pos flags mode : Z) : outcome (Z * Z) :=
  match fuel with
  | O => Ret (flags, mode)
  | S fuel' =>
      if pos <? Z.of_nat (s_len vars) then
        code ← index vars pos;
        let pos := pos + 1 in
        if code =? QFlags2Code then
          t ← subslice vars pos (pos + 4);
          flags ← LittleEndian_Uint32 t;
          vars_loop fuel' vars (pos + 4) flags mode
        else if code =? QSQLModeCode then
          t ← subslice vars pos (pos + 8);
          mode ← LittleEndian_Uint64 t;
          vars_loop fuel' vars pos flags mode
        else if code =? QAutoIncrement then vars_loop fuel' vars (pos + 4) flags mode
        else if code =? QCatalog then
          n ← index vars pos;
          vars_loop fuel' vars (pos + (1 + n + 1)) flags mode
        else if code =? QCatalogNZCode then
          n ← index vars pos;
          vars_loop fuel' vars (pos + (1 + n)) flags mode
        else if code =? QCharsetCode then vars_loop fuel' vars (pos + 6) flags mode
        else Ret (flags, mode)
      else Ret (flags, mode)
  end.

(** [bytes] is the whole event, [headerLength] the format's. *)
Definition parseQueryEventVars (headerLength : Z) (bytes : slice) : outcome (Z * Z) :=
  data ← slice_from bytes headerLength;
  t ← subslice data 11 13;
  varsLen ← LittleEndian_Uint16 t;
  vars ← subslice data 13 (13 + varsLen);
  vars_loop (S (s_len vars)) vars 0 0 0.

(** ** Termination *)

(** Every turn of the loop moves past at least one byte, so any fuel above what
    is left gives the same result. *)
Lemma vars_loop_fuel vars : slice_wf vars -> forall f1 f2 pos flags mode, 0 <= pos ->
  Z.of_nat (s_len vars) - pos < Z.of_nat f1 -> Z.of_nat (s_len vars) - pos < Z.of_nat f2 ->
  vars_loop f1 vars pos flags mode = vars_loop f2 vars pos flags mode.
Proof.
  intros Hwf. induction f1 as [|f1 IH]; intros f2 pos flags mode Hp H1 H2.
  - assert (Hge : (pos <? Z.of_nat (s_len vars)) = false) by (apply Z.ltb_ge; lia).
    destruct f2; simpl; [reflexivity|]. rewrite Hge. reflexivity.
  - destruct f2 as [|f2]; cbn [vars_loop]; destruct (Z.ltb_spec pos (Z.of_nat (s_len vars))); try lia; try reflexivity.
    destruct (index vars pos) as [code|]; [|reflexivity]. cbn [mbind outcome_bind].
    repeat match goal with |- context [if ?c then _ else _] => destruct c end; try reflexivity.
    + destruct (subslice vars (pos + 1) (pos + 1 + 4)) as [t|]; [|reflexivity]. cbn [mbind outcome_bind].
      destruct (LittleEndian_Uint32 t); [|reflexivity]. apply IH; lia.
    + destruct (subslice vars (pos + 1) (pos + 1 + 8)) as [t|]; [|reflexivity]. cbn [mbind outcome_bind].
      destruct (LittleEndian_Uint64 t); [|reflexivity]. apply IH; lia.
    + apply IH; lia.
    + destruct (index vars (pos + 1)) as [n|] eqn:En; [|reflexivity].
      pose proof (index_byte _ _ _ Hwf En) as Hn. unfold is_byte in Hn. apply IH; lia.
    + destruct (index vars (pos + 1)) as [n|] eqn:En; [|reflexivity].
      pose proof (index_byte _ _ _ Hwf En) as Hn. unfold is_byte in Hn. apply IH; lia.
    + apply IH; lia.
Qed.

(** ** The layout of the block *)
Inductive status_var : Type :=
| VFlags2 (flags : Z)
| VAutoIncrement (bytes : list Z)  (* increment and offset *)
| VCatalog (name : list Z)         (* NUL terminated *)
| VCatalogNZ (name : list Z)
| VCharset (bytes : list Z).       (* three collation numbers *)

Definition var_bytes (v : status_var) : list Z :=
  match v with
  | VFlags2 f => QFlags2Code :: le_bytes 4 f
  | VAutoIncrement bs => QAutoIncrement :: bs
  | VCatalog n => QCatalog :: Z.of_nat (length n) :: n ++ [0]
  | VCatalogNZ n => QCatalogNZCode :: Z.of_nat (length n) :: n
  | VCharset bs => QCharsetCode :: bs
  end.
Definition var_wf (v : status_var) : Prop :=
  match v with
  | VFlags2 f => 0 <= f < 2 ^ 32
  | VAutoIncrement bs => length bs = 4%nat
  | VCatalog n | VCatalogNZ n => (length n < 256)%nat
  | VCharset bs => length bs = 6%nat
  end.
Definition vars_block (vs : list status_var) : list Z := concat (map var_bytes vs).
Definition var_flags (flags : Z) (v : status_var) : Z := match v with VFlags2 f => f | _ => flags end.

(** The first code that ends the loop: the end of the block or a code it does not know. *)
Definition known_code (c : Z) : bool := (0 <=? c) && (c <=? 4) || (c =? 6).

Lemma window_head vars pos b l : window vars pos (b :: l) -> index vars pos = Ret b /\ window vars (pos + 1) l.
Proof.
  intros Hw. split.
  - rewrite <- (Z.add_0_r pos). eapply window_index; [exact Hw | lia | reflexivity].
  - change (b :: l) with ([b] ++ l) in Hw. apply window_app in Hw. apply Hw.
Qed.

(** One variable is consumed as it was laid out. *)
Lemma vars_loop_var fuel vars pos v rest flags mode : slice_wf vars -> var_wf v ->
  window vars pos (var_bytes v ++ rest) ->
  exists pos', vars_loop (S fuel) vars pos flags mode = vars_loop fuel vars pos' (var_flags flags v) mode /\
    pos' = pos + Z.of_nat (length (var_bytes v)) /\ window vars pos' rest.
Proof.
  intros Hwf Hv Hw. eexists. split; [|split; [reflexivity | apply (window_app _ _ _ _ Hw)]].
  pose proof Hw as (Hp & Hl & _). rewrite length_app in Hl. cbn [vars_loop].
  assert (Hlt : (pos <? Z.of_nat (s_len vars)) = true).
  { apply Z.ltb_lt. destruct v; simpl in Hl; lia. }
  rewrite Hlt. destruct v; cbn [var_bytes app] in Hw; apply window_head in Hw; destruct Hw as [-> Hw];
    cbn [mbind outcome_bind]; unfold QFlags2Code, QSQLModeCode, QAutoIncrement, QCatalog, QCatalogNZCode, QCharsetCode;
    cbn [Z.eqb Pos.eqb]; cbn [var_flags var_bytes var_wf length] in *.
  - unfold LittleEndian_Uint32. change (pos + 1 + 4) with (pos + 1 + Z.of_nat 4). apply window_app in Hw.
    rewrite (le_read_window vars (pos + 1) flags0 4 (fun f => vars_loop fuel vars (pos + 1 + Z.of_nat 4) f mode) Hwf (proj1 Hw)).
    rewrite Z.mod_small by exact Hv. f_equal. rewrite length_le_bytes. lia.
  - f_equal. rewrite Hv. lia.
  - apply window_head in Hw. destruct Hw as [-> _]. cbn [mbind outcome_bind]. f_equal. rewrite length_app. simpl. lia.
  - apply window_head in Hw. destruct Hw as [-> _]. cbn [mbind outcome_bind]. f_equal. lia.
  - f_equal. rewrite Hv. lia.
Qed.

Lemma vars_loop_vars vars mode vs : forall fuel pos rest flags, slice_wf vars -> Forall var_wf vs ->
  window vars pos (vars_block vs ++ rest) ->
  exists pos', vars_loop (length vs + fuel) vars pos flags mode = vars_loop fuel vars pos' (foldl var_flags flags vs) mode /\
    pos' = pos + Z.of_nat (length (vars_block vs)) /\ window vars pos' rest.
Proof.
  induction vs as [|v vs IH]; intros fuel pos rest flags Hwf Hvs Hw.
  - exists pos. split; [reflexivity|]. split; [simpl; lia | exact Hw].
  - inversion Hvs as [|? ? Hv Hvs']; subst. unfold vars_block in Hw. cbn [map concat] in Hw. rewrite <- app_assoc in Hw.
    destruct (vars_loop_var (length vs + fuel) vars pos v _ flags mode Hwf Hv Hw) as (pos1 & E1 & -> & Hw1).
    destruct (IH fuel _ rest (var_flags flags v) Hwf Hvs' Hw1) as (pos2 & E2 & -> & Hw2).
    eexists. split; [cbn [length Nat.add]; rewrite E1; exact E2|]. split; [|exact Hw2].
    unfold vars_block. cbn [map concat]. rewrite length_app. lia.
Qed.

(** ** The whole event *)

(** A query event: header, thread id, time, database length and error code (11
    bytes), the length of the block, the block, then the database and the SQL. *)
Definition query_event (header fixed block tail : list Z) : list Z :=
  header ++ fixed ++ le_bytes 2 (Z.of_nat (length block)) ++ block ++ tail.

Lemma parse_vars_slice header fixed block tail :
  length fixed = 11%nat -> Z.of_nat (length block) < 2 ^ 16 ->
  Forall is_byte (query_event header fixed block tail) ->
  parseQueryEventVars (Z.of_nat (length header)) (of_bytes (query_event header fixed block tail)) =
  vars_loop (S (length block)) (Slice (block ++ tail) (length block)) 0 0 0.
Proof.
  intros Hf Hb Hbytes. unfold parseQueryEventVars, slice_from, of_bytes, query_event in *.
  cbn [s_len s_mem]. set (rest := le_bytes 2 (Z.of_nat (length block)) ++ block ++ tail).
  assert (Hr : length rest = (2 + length block + length tail)%nat)
    by (unfold rest; rewrite !length_app, length_le_bytes; lia).
  rewrite subslice_returns by (cbn [s_mem]; rewrite !length_app; lia). cbn [mbind outcome_bind s_mem].
  rewrite Nat2Z.id, drop_app_length.
  set (data := Slice (fixed ++ rest) _).
  assert (Hd : data = of_bytes (fixed ++ rest)).
  { unfold data, of_bytes. f_equal. rewrite !length_app. lia. }
  rewrite Hd. clear data Hd. apply Forall_app in Hbytes. destruct Hbytes as [_ Hbytes]. fold rest in Hbytes.
  assert (Hwf : slice_wf (of_bytes (fixed ++ rest))) by (split; [simpl; lia | exact Hbytes]).
  assert (Hw : window (of_bytes (fixed ++ rest)) 11 (le_bytes 2 (Z.of_nat (length block)))).
  { pose proof (window_of_bytes (fixed ++ rest)) as Hw. apply window_app in Hw. destruct Hw as [_ Hw].
    unfold rest in Hw at 2. apply window_app in Hw. destruct Hw as [Hw _]. rewrite Hf in Hw. exact Hw. }
  unfold LittleEndian_Uint16. change 13 with (11 + Z.of_nat 2) at 1.
  rewrite (le_read_window (of_bytes (fixed ++ rest)) 11 _ 2
    (fun n => vars ← subslice (of_bytes (fixed ++ rest)) 13 (13 + n); vars_loop (S (s_len vars)) vars 0 0 0) Hwf Hw).
  rewrite Z.mod_small by (change (256 ^ Z.of_nat 2) with (2 ^ 16); lia).
  rewrite subslice_returns by (cbn [s_mem of_bytes]; rewrite ?length_app; lia). cbn [mbind outcome_bind s_mem s_len of_bytes].
  replace (Z.to_nat (13 + Z.of_nat (length block) - 13)) with (length block) by lia.
  do 2 f_equal. unfold rest. rewrite app_assoc.
  assert (E : Z.to_nat 13 = length (fixed ++ le_bytes 2 (Z.of_nat (length block)))) by (rewrite length_app, length_le_bytes, Hf; reflexivity).
  rewrite E. apply drop_app_length.
Qed.

Lemma block_window block tail : window (Slice (block ++ tail) (length block)) 0 block.
Proof. unfold window. cbn [s_len s_mem]. rewrite drop_0, take_app_length. repeat split; lia. Qed.

Lemma block_wf block tail : Forall is_byte (block ++ tail) -> slice_wf (Slice (block ++ tail) (length block)).
Proof. intros Hb. split; [simpl; rewrite length_app; lia | exact Hb]. Qed.

Lemma vars_block_length vs : (length vs <= length (vars_block vs))%nat.
Proof.
  unfold vars_block. induction vs as [|v vs IH]; simpl; [lia|]. rewrite length_app. destruct v; simpl; lia.
Qed.

Lemma vars_loop_end fuel vars pos flags mode : Z.of_nat (s_len vars) <= pos -> vars_loop fuel vars pos flags mode = Ret (flags, mode).
Proof.
  intros Hp. destruct fuel; [reflexivity|]. cbn [vars_loop].
  assert (E : (pos <? Z.of_nat (s_len vars)) = false) by (apply Z.ltb_ge; lia). rewrite E. reflexivity.
Qed.

Lemma vars_loop_stop fuel vars pos c rest flags mode : window vars pos (c :: rest) -> known_code c = false ->
  vars_loop fuel vars pos flags mode = Ret (flags, mode).
Proof.
  intros Hw Hc. pose proof Hw as (Hp & Hl & _). simpl in Hl. apply window_head in Hw. destruct Hw as [E _].
  destruct fuel; [reflexivity|]. cbn [vars_loop].
  assert (Hlt : (pos <? Z.of_nat (s_len vars)) = true) by (apply Z.ltb_lt; lia). rewrite Hlt, E. cbn [mbind outcome_bind].
  unfold known_code, QFlags2Code, QSQLModeCode, QAutoIncrement, QCatalog, QCatalogNZCode, QCharsetCode in *.
  repeat match goal with |- context [?a =? ?b] => destruct (Z.eqb_spec a b); [subst; discriminate|] end. reflexivity.
Qed.

(** A turn of the loop on the SQL mode: the position does not move past it. *)
Lemma vars_loop_mode fuel vars pos m rest flags mode : slice_wf vars -> 0 <= m < 2 ^ 64 ->
  window vars pos (QSQLModeCode :: le_bytes 8 m ++ rest) ->
  vars_loop (S fuel) vars pos flags mode = vars_loop fuel vars (pos + 1) flags m.
Proof.
  intros Hwf Hm Hw. pose proof Hw as (Hp & Hl & _). simpl in Hl.
  apply window_head in Hw. destruct Hw as [E Hw]. apply window_app in Hw. destruct Hw as [Hw _].
  cbn [vars_loop]. assert (Hlt : (pos <? Z.of_nat (s_len vars)) = true) by (apply Z.ltb_lt; lia).
  rewrite Hlt, E. cbn [mbind outcome_bind]. unfold QSQLModeCode, QFlags2Code. cbn [Z.eqb Pos.eqb].
  unfold LittleEndian_Uint64. change (pos + 1 + 8) with (pos + 1 + Z.of_nat 8).
  rewrite (le_read_window vars (pos + 1) m 8 (fun v => vars_loop fuel vars (pos + 1) flags v) Hwf Hw).
  rewrite Z.mod_small by (change (256 ^ Z.of_nat 8) with (2 ^ 64); lia). reflexivity.
Qed.

(** The flags are read from the backing array, also past the end of the block. *)
Lemma vars_loop_flags fuel vars pos l flags mode : Forall is_byte (s_mem vars) ->
  index vars pos = Ret QFlags2Code -> window (of_bytes (s_mem vars)) (pos + 1) l -> length l = 4%nat ->
  vars_loop (S fuel) vars pos flags mode = vars_loop fuel vars (pos + 1 + 4) (le_nat l) mode.
Proof.
  intros Hb E Hw Hl. pose proof (proj1 (index_spec _ _ _) E) as [Hi _].
  cbn [vars_loop]. assert (Hlt : (pos <? Z.of_nat (s_len vars)) = true) by (apply Z.ltb_lt; lia).
  rewrite Hlt, E. cbn [mbind outcome_bind Z.eqb]. unfold QFlags2Code. cbn [Z.eqb].
  assert (Hr : (t ← subslice (of_bytes (s_mem vars)) (pos + 1) (pos + 1 + Z.of_nat 4); l ← read_bytes t 4;
     vars_loop fuel vars (pos + 1 + 4) (le_nat l) mode) = vars_loop fuel vars (pos + 1 + 4) (le_nat (take 4 l)) mode).
  { apply (read_window _ _ l 4 (fun l => vars_loop fuel vars (pos + 1 + 4) (le_nat l) mode));
      [split; [simpl; lia | exact Hb] | exact Hw | lia]. }
  rewrite take_ge in Hr by lia. rewrite <- Hr. change (subslice vars) with (subslice (of_bytes (s_mem vars))).
  change (Z.of_nat 4) with 4. unfold LittleEndian_Uint32.
  destruct (subslice _ _ _) as [t|]; [|reflexivity]. cbn [mbind outcome_bind]. destruct (read_bytes t 4); reflexivity.
Qed.

(** ** Claims *)

(** the status variables of a query event are read as MySQL lays them out:
    whatever flags, auto-increment, catalog and charset variables precede it, the
    SQL mode is read exactly and the flags are those of the last flags variable,
    provided the first byte of the mode is not itself the code of a variable. *)
Theorem parse_flags_and_mode header fixed vs m tail :
  length fixed = 11%nat -> Forall var_wf vs -> 0 <= m < 2 ^ 64 -> known_code (m mod 256) = false ->
  let block := vars_block vs ++ QSQLModeCode :: le_bytes 8 m in
  Z.of_nat (length block) < 2 ^ 16 -> Forall is_byte (query_event header fixed block tail) ->
  parseQueryEventVars (Z.of_nat (length header)) (of_bytes (query_event header fixed block tail)) =
  Ret (foldl var_flags 0 vs, m).
Proof.
  intros Hf Hvs Hm Hc block Hb Hbytes. rewrite parse_vars_slice by assumption.
  assert (Hbt : Forall is_byte (block ++ tail)).
  { unfold query_event in Hbytes. do 2 (apply Forall_app in Hbytes; destruct Hbytes as [_ Hbytes]).
    apply Forall_app in Hbytes. apply Hbytes. }
  pose proof (block_wf block tail Hbt) as Hwf. pose proof (block_window block tail) as Hw.
  pose proof (vars_block_length vs) as Hlen.
  assert (Hl : length block = (length (vars_block vs) + 9)%nat) by (unfold block; rewrite length_app; reflexivity).
  replace (S (length block)) with (length vs + (S (length block - length vs)))%nat by lia.
  unfold block in Hw at 3.
  destruct (vars_loop_vars _ 0 vs (S (length block - length vs)) 0 _ 0 Hwf Hvs Hw) as (pos & -> & Hpos & Hw').
  rewrite <- (app_nil_r (le_bytes 8 m)) in Hw'. rewrite (vars_loop_mode _ _ _ m [] _ _ Hwf Hm Hw').
  apply window_head in Hw'. destruct Hw' as [_ Hw']. rewrite app_nil_r in Hw'.
  eapply vars_loop_stop; [exact Hw' | exact Hc].
Qed.

Lemma parse_flags_and_mode_witness :
  parseQueryEventVars 19 (of_bytes (query_event (replicate 19 7) (replicate 11 3)
    (vars_block [VFlags2 67108864] ++ QSQLModeCode :: le_bytes 8 1193279520) [109; 121; 0])) =
  Ret (67108864, 1193279520).
Proof.
  apply (parse_flags_and_mode (replicate 19 7) (replicate 11 3) [VFlags2 67108864] 1193279520 [109; 121; 0]).
  all: concrete.
Defined.

(** The position is not moved past the SQL mode, so a mode of zero (sql_mode
    empty) makes the loop read the mode's own zero bytes as two flags variables:
    whatever flags the source sent, the result's are the two bytes that follow
    the block, shifted left by 16. *)
Theorem parse_zero_mode_takes_foreign_flags header fixed f a b tail :
  length fixed = 11%nat ->
  let block := vars_block [VFlags2 f] ++ QSQLModeCode :: le_bytes 8 0 in
  Forall is_byte (query_event header fixed block (a :: b :: tail)) ->
  parseQueryEventVars (Z.of_nat (length header)) (of_bytes (query_event header fixed block (a :: b :: tail))) =
  Ret (le_nat [0; 0; a; b], 0).
Proof.
  intros Hf block Hbytes. rewrite parse_vars_slice; [|exact Hf | reflexivity | exact Hbytes].
  assert (Hbt : Forall is_byte (block ++ a :: b :: tail)).
  { unfold query_event in Hbytes. do 2 (apply Forall_app in Hbytes; destruct Hbytes as [_ Hbytes]).
    apply Forall_app in Hbytes. apply Hbytes. }
  unfold block, vars_block in *. cbn [map concat var_bytes app] in *. rewrite app_nil_r in *.
  pose proof (length_le_bytes 4 f) as Hl.
  destruct (le_bytes 4 f) as [|b0 [|b1 [|b2 [|b3 [|]]]]]; try discriminate. clear block Hbytes Hl.
  change (le_bytes 8 0) with [0; 0; 0; 0; 0; 0; 0; 0] in *. cbn [app length] in *.
  set (vars := Slice _ 14%nat).
  assert (Hat : forall i l, window (of_bytes (s_mem vars)) (Z.of_nat i) (take l (drop i (s_mem vars))) \/ (i + l > length (s_mem vars))%nat).
  { intros i l. destruct (le_gt_dec (i + l) (length (s_mem vars))); [left | right; lia].
    unfold window, of_bytes. cbn [s_mem s_len]. rewrite Nat2Z.id, length_take, length_drop, Nat.min_l by lia. repeat split; lia. }
  assert (Hwf : slice_wf vars) by (split; [cbn; lia | exact Hbt]).
  rewrite (vars_loop_flags 14 vars 0 [b0; b1; b2; b3]); [|exact Hbt | reflexivity | | reflexivity].
  2: { destruct (Hat 1%nat 4%nat) as [Hw|Hw]; [exact Hw | cbn in Hw; lia]. }
  rewrite (vars_loop_mode 13 vars _ 0 []); [|exact Hwf | lia |].
  2: { rewrite app_nil_r. repeat split; try (cbn; lia). }
  rewrite (vars_loop_flags 12 vars _ [0; 0; 0; 0]); [|exact Hbt | reflexivity | | reflexivity].
  2: { destruct (Hat 7%nat 4%nat) as [Hw|Hw]; [exact Hw | cbn in Hw; lia]. }
  rewrite (vars_loop_flags 11 vars _ [0; 0; a; b]); [|exact Hbt | reflexivity | | reflexivity].
  2: { destruct (Hat 12%nat 4%nat) as [Hw|Hw]; [exact Hw | cbn in Hw; lia]. }
  apply vars_loop_end. cbn. lia.
Qed.

Lemma parse_zero_mode_takes_foreign_flags_witness :
  parseQueryEventVars 1 (of_bytes (query_event [9] (replicate 11 3)
    (vars_block [VFlags2 67108864] ++ QSQLModeCode :: le_bytes 8 0) [109; 121; 0])) = Ret (le_nat [0; 0; 109; 121], 0).
Proof.
  apply (parse_zero_mode_takes_foreign_flags [9] (replicate 11 3) 67108864 109 121 [0]).
  all: concrete.
Defined.
