(* ===== verification/RowAppend.v ===== *)
(** * From row events to the delta buffer (binlog_replica_applier.go, [appendRowFormatChanges])

    The row images of a full-image event are decoded cell by cell into the
    builders of the table's appender, each row preceded by its six augmented
    fields.  The theorems: a successful event adds exactly its rows, keeps the
    appender rectangular, its counters truthful and its delta ordered; an event
    that fails leaves the builders ragged. *)

From S2P Require Import Prelude GoTime Charset Schema Rbr RbrFacts Identifier Delta DeltaSpec DeltaRefine Updater.
From stdpp Require Import pretty.

#[local] Open Scope Z_scope.

(** ** The data of an event *)

(** The GTIDs of the three replication flavors. *)
Inductive GTID : Type :=
| Mysql56GTID (server : list Z) (sequence : Z)
| FilePosGTID (file : list Z) (pos : Z)
| MariadbGTID (domain server sequence : Z).

#[export] Instance GTID_eq_dec : EqDecision GTID.
Proof. solve_decision. Defined.

Record TableMap : Type := mkTableMap {
  tm_Flags : Z; tm_Database : string; tm_Name : string; tm_Types : list Z; tm_Metadata : list Z
}.

(** A row: the images and their null bitmaps. *)
Record Row : Type := mkRow {
  row_Identify : slice; row_NullIdentifyColumns : Updater.Bitmap;
  row_Data : slice; row_NullColumns : Updater.Bitmap
}.
Record Rows : Type := mkRows {
  rows_Flags : Z; rows_IdentifyColumns : Updater.Bitmap; rows_DataColumns : Updater.Bitmap; rows_Rows : list Row
}.

(** [strconv.AppendUint(nil, v, 10)]. *)
Definition AppendUint (v : Z) : list Z :=
  map (fun c => Z.of_nat (Ascii.nat_of_ascii c)) (String.list_ascii_of_string (pretty (Z.to_N (u64 v)))).

(** An indexing expression on a Go slice of anything. *)
Definition at_index {A} (l : list A) (i : nat) : outcome A := match l !! i with Some x => Ret x | None => Panic end.

Section RowAppend.
Context `{ArrowLib} `{Codecs} `{VitessLib} `{!EqDecision (cell num128 num256)}.
(** What [BinaryDictionaryBuilder.Append] leaves for a nil slice. *)
Context (dict_nil : cell num128 num256).

Abbreviation row := (list (cell num128 num256)).

(** txnTag, txnServer, txnGroup and txnSeq of the current GTID. *)
Definition txn_cells (g : option GTID) : cell num128 num256 * cell num128 num256 * cell num128 num256 * Z :=
  match g with
  | Some (Mysql56GTID server sequence) => (dict_nil, CBytes server, dict_nil, u64 sequence)
  | Some (FilePosGTID file pos) => (dict_nil, dict_nil, CBytes file, u64 pos)
  | Some (MariadbGTID domain server sequence) => (CBytes (AppendUint domain), CBytes (AppendUint server), dict_nil, sequence)
  | None => (dict_nil, dict_nil, dict_nil, 0)
  end.

Definition header_cells (action : RowEventType) (g : option GTID) (stmt : Z) : row :=
  let '(tag, server, group, seq) := txn_cells g in
  [CInt (RowEventType_code action); tag; server; group; CInt seq; CInt stmt].

(** One value on each of the builders. *)
Definition push (cs : row) (fs : list builder) : list builder := zip_with b_append cs fs.

(** The loop over the columns of one row image. *)
Fixpoint append_cells (data : slice) (nulls : Updater.Bitmap) (types metas : list Z) (i : nat) (pos : Z)
    (schema : list Column) (fields : list builder) : outcome (list builder * (Z + CellError)) :=
  match schema with
  | [] => Ret (fields, inl pos)
  | col :: schema' =>
      match fields with
      | [] => Panic
      | b :: fields' =>
          isNull ← Updater.Bit nulls i;
          if isNull : bool then
            '(fs, r) ← append_cells data nulls types metas (S i) pos schema' fields';
            Ret (AppendNull b :: fs, r)
          else
            typ ← at_index types i;
            md ← at_index metas i;
            '(b', n, err) ← CellValue data pos typ md col b;
            match err with
            | Some e => Ret (b' :: fields', inr e)
            | None =>
                '(fs, r) ← append_cells data nulls types metas (S i) (pos + n) schema' fields';
                Ret (b' :: fs, r)
            end
      end
  end.

(** The loop over the rows: one image of each, all with the same action. *)
Fixpoint append_images (action : RowEventType) (image : Row -> slice * Updater.Bitmap) (header : row)
    (types metas : list Z) (schema : list Column) (rows : list Row) (fields : list builder) (size : Z)
    : outcome (list builder * Z * option CellError) :=
  match rows with
  | [] => Ret (fields, size, None)
  | r :: rows' =>
      let aug := push header (take 6 fields) in
      let '(data, nulls) := image r in
      '(fs, res) ← append_cells data nulls types metas 0 0 schema (drop 6 fields);
      match res with
      | inr e => Ret (aug ++ fs, size, Some e)
      | inl pos => append_images action image header types metas schema rows' (aug ++ fs) (u64 (size + pos))
      end
  end.

Definition identify_image (r : Row) : slice * Updater.Bitmap := (row_Identify r, row_NullIdentifyColumns r).
Definition data_image (r : Row) : slice * Updater.Bitmap := (row_Data r, row_NullColumns r).

Definition set_fields (fs : list builder) (a : DeltaAppender) : DeltaAppender := mkAppender (a_schema a) fs (a_counters a).

(** One of the two switches of the source: the images of [action], when the event has them. *)
Definition append_action (run : bool) (action : RowEventType) (image : Row -> slice * Updater.Bitmap)
    (tm : TableMap) (schema : list Column) (rows : list Row) (g : option GTID) (stmt : Z)
    (a : DeltaAppender) (size : Z) : outcome (DeltaAppender * Z * option CellError) :=
  if run then
    '(fs, size, e) ← append_images action image (header_cells action g stmt) (tm_Types tm) (tm_Metadata tm) schema rows (a_fields a) size;
    match e with
    | Some e => Ret (set_fields fs a, size, Some e)
    | None => Ret (set_counters (UpdateActionStats action (Z.of_nat (length rows))) (set_fields fs a), size, None)
    end
  else Ret (a, size, None).

Definition is_event (event : RowEventType) (l : list RowEventType) : bool := bool_decide (event ∈ l).

(** [size] is [deltaBufSize], [stmt] is [inTxnStmtID]. *)
Definition appendRowFormatChanges (tm : TableMap) (schema : list Column) (event : RowEventType) (rows : list Row)
    (g : option GTID) (stmt : Z) (a : DeltaAppender) (size : Z) : outcome (DeltaAppender * Z * option CellError) :=
  '(a, size, e) ← append_action (is_event event [DeleteRowEvent; UpdateRowEvent]) DeleteRowEvent identify_image tm schema rows g stmt a size;
  match e with
  | Some e => Ret (a, size, Some e)
  | None =>
      '(a, size, e) ← append_action (is_event event [InsertRowEvent; UpdateRowEvent]) InsertRowEvent data_image tm schema rows g stmt a size;
      match e with
      | Some e => Ret (a, size, Some e)
      | None => Ret (set_counters (ObserveEvents event (Z.of_nat (length rows))) a, size, None)
      end
  end.

(** ** Pushing a row *)
Lemma length_push cs fs : length cs = length fs -> length (push cs fs) = length fs.
Proof. intros E. unfold push. rewrite length_zip_with, E. lia. Qed.

Lemma push_app c1 c2 f1 f2 : length c1 = length f1 -> push (c1 ++ c2) (f1 ++ f2) = push c1 f1 ++ push c2 f2.
Proof. intros E. unfold push. apply zip_with_app, E. Qed.

Lemma push_cells cs fs : length cs = length fs -> map b_cells (push cs fs) = zip_with (fun c col => col ++ [c]) cs (map b_cells fs).
Proof.
  revert fs. induction cs as [|c cs IH]; intros [|f fs] E; try discriminate; [reflexivity|].
  simpl. f_equal. apply IH. simpl in E. lia.
Qed.

(** One image: a value on every builder, or a prefix of the builders and an error. *)
Lemma append_cells_spec data nulls types metas schema : forall i pos fields fs r,
  append_cells data nulls types metas i pos schema fields = Ret (fs, r) -> length fields = length schema ->
  match r with
  | inl _ => exists cs, length cs = length fields /\ fs = push cs fields
  | inr _ => exists k cs b, (k < length fields)%nat /\ length cs = k /\ fs = push cs (take k fields) ++ drop k fields /\ fields !! k = Some b
  end.
Proof.
  induction schema as [|col schema IH]; intros i pos fields fs r E Hl; simpl in E.
  - go_inv. simplify_eq. destruct fs; [|discriminate]. exists []. split; reflexivity.
  - destruct fields as [|b fields]; [discriminate|]. simpl in Hl. injection Hl as Hl.
    assert (Hcons : forall c i' pos' fs' r', append_cells data nulls types metas i' pos' schema fields = Ret (fs', r') ->
      match r' with
      | inl _ => exists cs, length cs = length (b :: fields) /\ b_append c b :: fs' = push cs (b :: fields)
      | inr _ => exists k cs b0, (k < length (b :: fields))%nat /\ length cs = k /\
          b_append c b :: fs' = push cs (take k (b :: fields)) ++ drop k (b :: fields) /\ (b :: fields) !! k = Some b0
      end).
    { intros c i' pos' fs' r' E'. specialize (IH _ _ _ _ _ E' Hl). destruct r'.
      - destruct IH as (cs & Hcs & ->). exists (c :: cs). split; [simpl; lia | reflexivity].
      - destruct IH as (k & cs & b0 & Hk & Hcs & -> & Hb). exists (S k), (c :: cs), b0. repeat split; simpl; auto; lia. }
    go_inv; simplify_eq.
    + eapply Hcons; eauto.
    + match goal with Hc : CellValue _ _ _ _ _ _ = _ |- _ => apply CellValue_appends in Hc; simpl in Hc; subst end.
      exists 0%nat, [], b. repeat split; simpl; auto; lia.
    + match goal with Hc : CellValue _ _ _ _ _ _ = _ |- _ => apply CellValue_appends in Hc; simpl in Hc; destruct Hc as [c ->] end.
      eapply Hcons; eauto.
Qed.

(** ** The rows of the buffer *)
Definition snoc_row (cs : row) (cols : list (list (cell num128 num256))) : list (list (cell num128 num256)) :=
  zip_with (fun c col => col ++ [c]) cs cols.

Lemma rectangular_snoc n cs cols : rectangular n cols -> length cs = length cols -> rectangular (S n) (snoc_row cs cols).
Proof.
  unfold rectangular, snoc_row. intros Hr. revert cs. induction Hr as [|col cols Hc Hr IH]; intros [|c cs] E; try discriminate; constructor.
  - rewrite length_app. simpl. lia.
  - apply IH. simpl in E. lia.
Qed.

Lemma row_at_snoc_old ns cs cols i n : rectangular n cols -> length cs = length cols -> (i < n)%nat ->
  row_at (mkRecord ns (snoc_row cs cols)) i = row_at (mkRecord ns cols) i.
Proof.
  unfold rectangular, row_at, snoc_row. cbn [r_columns]. intros Hr. revert cs.
  induction Hr as [|col cols Hc Hr IH]; intros [|c cs] E Hi; try discriminate; [reflexivity|].
  cbn [zip_with omap list_omap]. rewrite lookup_app_l by lia. rewrite (IH cs) by (simpl in E; lia). reflexivity.
Qed.

Lemma row_at_snoc_new ns cs cols n : rectangular n cols -> length cs = length cols ->
  row_at (mkRecord ns (snoc_row cs cols)) n = cs.
Proof.
  unfold rectangular, row_at, snoc_row. cbn [r_columns]. intros Hr. revert cs.
  induction Hr as [|col cols Hc Hr IH]; intros [|c cs] E; try discriminate; [reflexivity|].
  cbn [zip_with omap list_omap]. rewrite <- Hc at 1. rewrite list_lookup_middle by reflexivity.
  f_equal. apply IH. simpl in E. lia.
Qed.

Lemma rows_of_snoc ns cs cols n : rectangular n cols -> length cs = length cols -> cols <> [] ->
  rows_of (mkRecord ns (snoc_row cs cols)) = rows_of (mkRecord ns cols) ++ [cs].
Proof.
  intros Hr E Hne.
  rewrite (rows_of_rectangular (mkRecord ns cols) n Hr Hne).
  rewrite (rows_of_rectangular (mkRecord ns (snoc_row cs cols)) (S n)).
  - rewrite seq_S, map_app. simpl. f_equal.
    + apply map_ext_in. intros i Hi. apply in_seq in Hi. eapply row_at_snoc_old; eauto. lia.
    + f_equal. apply row_at_snoc_new; assumption.
  - apply rectangular_snoc; assumption.
  - destruct cols as [|c cols]; [congruence|]. destruct cs; [discriminate|]. discriminate.
Qed.

(** ** Appenders *)
Section Schema.
Context (schema : list Column).

Abbreviation width := (6 + length schema)%nat.

(** [fields_ok n fs]: a value of the builders of an appender with [n] rows. *)
Definition fields_ok (n : nat) (fs : list builder) : Prop :=
  length fs = width /\ rectangular n (map b_cells fs).

Definition field_rows (fs : list builder) : list row := rows_of (mkRecord [] (map b_cells fs)).

Lemma push_ok n cs fs : fields_ok n fs -> length cs = width ->
  fields_ok (S n) (push cs fs) /\ field_rows (push cs fs) = field_rows fs ++ [cs].
Proof.
  intros [Hw Hr] Hcs. assert (E : length cs = length fs) by lia.
  unfold fields_ok, field_rows. rewrite length_push, push_cells by exact E.
  assert (E' : length cs = length (map b_cells fs)) by (rewrite length_map; exact E).
  split; [split; [exact Hw | apply rectangular_snoc; assumption]|].
  apply (rows_of_snoc [] cs _ n Hr E'). intros E0. apply (f_equal length) in E0. rewrite length_map, Hw in E0. discriminate.
Qed.

(** A failed image: the first builder has one value more than the last. *)
Lemma push_partial n cs1 cs2 k fs fs' b : fields_ok n fs -> length cs1 = 6%nat -> length cs2 = k -> (k < length schema)%nat ->
  fs' = push cs1 (take 6 fs) ++ push cs2 (take k (drop 6 fs)) ++ drop k (drop 6 fs) -> drop 6 fs !! k = Some b ->
  ~ (exists m, rectangular m (map b_cells fs')).
Proof.
  intros [Hw Hr] Hc1 Hc2 Hk -> Hb (m & Hm). unfold rectangular in *. rewrite !map_app in Hm.
  apply Forall_app in Hm. destruct Hm as [Hm1 Hm2]. apply Forall_app in Hm2. destruct Hm2 as [_ Hm2].
  destruct fs as [|f fs]; [discriminate|]. destruct cs1 as [|c cs1]; [discriminate|]. cbn [take push zip_with map] in Hm1.
  inversion Hm1 as [|? ? Hf _]; subst. inversion Hr as [|? ? Hf' Hr']; subst.
  assert (Hbm : length (b_cells b) = length (b_cells (b_append c f))).
  { rewrite Forall_forall in Hm2. apply Hm2. apply elem_of_map. exists b. split; [reflexivity|].
    apply list_elem_of_lookup. exists 0%nat. rewrite lookup_drop. rewrite Nat.add_0_r. exact Hb. }
  assert (Hbn : length (b_cells b) = length (b_cells f)).
  { rewrite Forall_forall in Hr'. apply Hr'. apply elem_of_map. exists b. split; [reflexivity|].
    apply list_elem_of_lookup. exists (5 + length cs2)%nat. rewrite lookup_drop in Hb. exact Hb. }
  simpl in Hbm. rewrite length_app in Hbm. simpl in Hbm. lia.
Qed.

Lemma append_images_spec action image header types metas rows : length header = 6%nat ->
  forall n fields size fs size' e, fields_ok n fields ->
  append_images action image header types metas schema rows fields size = Ret (fs, size', e) ->
  match e with
  | None => exists css, length css = length rows /\ fields_ok (n + length rows) fs /\
      field_rows fs = field_rows fields ++ map (app header) css
  | Some _ => ~ exists m, rectangular m (map b_cells fs)
  end.
Proof.
  intros Hh. induction rows as [|r rows IH]; intros n fields size fs size' e Hok E; simpl in E.
  - go_inv. simplify_eq. exists []. rewrite app_nil_r, Nat.add_0_r. auto.
  - destruct (image r) as [data nulls]. apply bind_Ret_inv in E. destruct E as ([fs0 res] & Ec & E).
    pose proof Hok as [Hw Hr].
    assert (Hl : length (drop 6 fields) = length schema) by (rewrite length_drop; lia).
    apply append_cells_spec in Ec; [|exact Hl]. destruct res as [pos|err].
    + destruct Ec as (cs & Hcs & ->).
      assert (Epush : push header (take 6 fields) ++ push cs (drop 6 fields) = push (header ++ cs) fields).
      { rewrite <- push_app by (rewrite Hh, length_take; lia). rewrite take_drop. reflexivity. }
      rewrite Epush in E. destruct (push_ok n (header ++ cs) fields Hok) as [Hok' Hrows]; [rewrite length_app; lia|].
      specialize (IH _ _ _ _ _ _ Hok' E). destruct e; [exact IH|].
      destruct IH as (css & Hcss & Hok'' & Hrows'). exists (cs :: css). simpl. split; [lia|].
      split; [replace (n + S (length rows))%nat with (S n + length rows)%nat by lia; exact Hok''|].
      rewrite Hrows', Hrows, <- app_assoc. reflexivity.
    + destruct Ec as (k & cs & b & Hk & Hcs & -> & Hb). simplify_eq.
      eapply push_partial; [exact Hok | exact Hh | reflexivity | rewrite <- Hl; exact Hk | reflexivity | exact Hb].
Qed.

(** ** Events *)
Abbreviation appender_ok := (appender_ok schema).

Lemma appender_fields a : appender_ok a <-> Schema a = delta_schema schema /\ fields_ok (RowCount a) (a_fields a).
Proof.
  unfold fields_ok. split.
  - intros [Hs Hw Hr]. split; [exact Hs|]. split; [exact Hw | exact Hr].
  - intros (Hs & Hw & Hr). split; [exact Hs | exact Hw | exact Hr].
Qed.

Lemma fields_ok_RowCount n a : fields_ok n (a_fields a) -> RowCount a = n.
Proof.
  intros [Hw Hr]. unfold RowCount. destruct (a_fields a); [discriminate|]. inversion Hr; subst. reflexivity.
Qed.

Lemma delta_rows_fields a : delta_rows a = field_rows (a_fields a).
Proof. reflexivity. Qed.

Lemma length_header action g stmt : length (header_cells action g stmt) = 6%nat.
Proof. unfold header_cells. destruct (txn_cells g) as [[[? ?] ?] ?]. reflexivity. Qed.

Definition new_rows (action : RowEventType) (g : option GTID) (stmt : Z) (css : list row) : list row :=
  map (app (header_cells action g stmt)) css.

Lemma append_action_ok run action image tm rows g stmt a size a' size' :
  appender_ok a -> append_action run action image tm schema rows g stmt a size = Ret (a', size', None) ->
  appender_ok a' /\ exists css, length css = (if run then length rows else 0)%nat /\
    delta_rows a' = delta_rows a ++ new_rows action g stmt css /\
    a_counters a' = (if run then UpdateActionStats action (Z.of_nat (length rows)) (a_counters a) else a_counters a).
Proof.
  intros Ha E. unfold append_action in E. destruct run.
  - apply bind_Ret_inv in E. destruct E as ([[fs sz] e] & Ei & E). destruct e; [discriminate|]. injection E as <- <-.
    apply appender_fields in Ha. destruct Ha as [Hs Hf].
    apply (append_images_spec _ _ _ _ _ _ (length_header action g stmt) _ _ _ _ _ _ Hf) in Ei.
    destruct Ei as (css & Hcss & Hf' & Hrows). split.
    + apply appender_fields. split; [exact Hs|]. cbn [a_fields set_counters set_fields].
      rewrite (fields_ok_RowCount _ (set_counters _ (set_fields fs a)) Hf'). exact Hf'.
    + exists css. split; [exact Hcss|]. split; [exact Hrows | reflexivity].
  - injection E as <- <-. split; [exact Ha|]. exists []. split; [reflexivity|].
    split; [unfold new_rows; simpl; rewrite app_nil_r; reflexivity | reflexivity].
Qed.

Lemma append_action_error run action image tm rows g stmt a size a' size' e :
  appender_ok a -> append_action run action image tm schema rows g stmt a size = Ret (a', size', Some e) ->
  ~ exists m, rectangular m (map b_cells (a_fields a')).
Proof.
  intros Ha E. unfold append_action in E. destruct run; [|discriminate].
  apply bind_Ret_inv in E. destruct E as ([[fs sz] e'] & Ei & E). destruct e'; [|discriminate]. injection E as <- <- <-.
  apply appender_fields in Ha. destruct Ha as [Hs Hf].
  apply (append_images_spec _ _ _ _ _ _ (length_header action g stmt) _ _ _ _ _ _ Hf) in Ei. exact Ei.
Qed.

Definition has_deletes (event : RowEventType) : bool := is_event event [DeleteRowEvent; UpdateRowEvent].
Definition has_inserts (event : RowEventType) : bool := is_event event [InsertRowEvent; UpdateRowEvent].

Lemma has_deletes_eq event : has_deletes event = match event with InsertRowEvent => false | _ => true end.
Proof. destruct event; reflexivity. Qed.
Lemma has_inserts_eq event : has_inserts event = match event with DeleteRowEvent => false | _ => true end.
Proof. destruct event; reflexivity. Qed.

(** The counters after an event of [n] rows. *)
Definition event_counters (event : RowEventType) (n : Z) (c : Counters) : Counters :=
  let c := if has_deletes event then UpdateActionStats DeleteRowEvent n c else c in
  let c := if has_inserts event then UpdateActionStats InsertRowEvent n c else c in
  ObserveEvents event n c.

Lemma append_event_ok tm event rows g stmt a size a' size' :
  appender_ok a -> appendRowFormatChanges tm schema event rows g stmt a size = Ret (a', size', None) ->
  appender_ok a' /\ exists ds ins,
    length ds = (if has_deletes event then length rows else 0)%nat /\
    length ins = (if has_inserts event then length rows else 0)%nat /\
    delta_rows a' = delta_rows a ++ new_rows DeleteRowEvent g stmt ds ++ new_rows InsertRowEvent g stmt ins /\
    a_counters a' = event_counters event (Z.of_nat (length rows)) (a_counters a).
Proof.
  intros Ha E. unfold appendRowFormatChanges in E.
  apply bind_Ret_inv in E. destruct E as ([[a1 s1] e1] & E1 & E). destruct e1; [discriminate|].
  apply bind_Ret_inv in E. destruct E as ([[a2 s2] e2] & E2 & E). destruct e2; [discriminate|]. injection E as <- <-.
  apply append_action_ok in E1; [|exact Ha]. destruct E1 as (Ha1 & ds & Hds & Hrows1 & Hc1).
  apply append_action_ok in E2; [|exact Ha1]. destruct E2 as (Ha2 & ins & Hins & Hrows2 & Hc2).
  split; [destruct Ha2 as [? ? ?]; split; assumption|].
  exists ds, ins. split; [exact Hds|]. split; [exact Hins|].
  split; [change (delta_rows (set_counters _ a2)) with (delta_rows a2); rewrite Hrows2, Hrows1, <- app_assoc; reflexivity|].
  cbn [set_counters a_counters]. rewrite Hc2, Hc1. reflexivity.
Qed.

Lemma append_event_error tm event rows g stmt a size a' size' e :
  appender_ok a -> appendRowFormatChanges tm schema event rows g stmt a size = Ret (a', size', Some e) -> Build a' = Panic.
Proof.
  intros Ha E. assert (Hr : ~ exists m, rectangular m (map b_cells (a_fields a'))).
  { unfold appendRowFormatChanges in E.
    apply bind_Ret_inv in E. destruct E as ([[a1 s1] e1] & E1 & E). destruct e1 as [e1|].
    { injection E as <- <- <-. eapply append_action_error; eauto. }
    apply append_action_ok in E1; [|exact Ha]. destruct E1 as [Ha1 _].
    apply bind_Ret_inv in E. destruct E as ([[a2 s2] e2] & E2 & E). destruct e2 as [e2|]; [|discriminate].
    injection E as <- <- <-. eapply append_action_error; eauto. }
  unfold Build. rewrite decide_False; [reflexivity|]. intros Hf. apply Hr. eauto.
Qed.

(** ** The invariant of the buffer *)
Abbreviation key := (key schema).
Abbreviation dkey := (dkey schema).

(** The position of an event in the delta: txn_group, txn_seq, txn_stmt. *)
Definition stamp (g : option GTID) (stmt : Z) : row :=
  let '(_, _, group, seq) := txn_cells g in [group; CInt seq; CInt stmt].
Definition stamp_of (d : row) : row := [col 3 d; col 4 d; col 5 d].

Record buffer_inv (stamps : list row) (a : DeltaAppender) : Prop := mkBufferInv {
  inv_appender : appender_ok a;
  inv_counters : counters_ok a;
  inv_actions : actions_ok (delta_rows a);
  inv_ordered : ordered schema (delta_rows a);
  inv_stamps : Forall (fun d => stamp_of d ∈ stamps) (delta_rows a)
}.

Lemma cell_cmp_refl c : cell_cmp c c = Eq.
Proof. apply good_refl, cell_good. Qed.

Lemma header_facts action g stmt cs : let d := header_cells action g stmt ++ cs in
  base_of d = cs /\ action_of d = CInt (RowEventType_code action) /\ stamp_of d = stamp g stmt.
Proof. unfold header_cells, stamp. destruct (txn_cells g) as [[[tag server] group] seq]. repeat split. Qed.

Lemma stamp_before d1 d2 : cells_cmp (stamp_of d1) (stamp_of d2) = Lt -> before d1 d2.
Proof.
  unfold before, stamp_of, order_key, cells_cmp. cbn [lex].
  destruct (cell_cmp (col 3 d1) (col 3 d2)); try discriminate; auto.
  destruct (cell_cmp (col 4 d1) (col 4 d2)); try discriminate; auto.
  destruct (cell_cmp (col 5 d1) (col 5 d2)); try discriminate; auto.
Qed.

Lemma delete_before_insert g stmt cs1 cs2 :
  before (header_cells DeleteRowEvent g stmt ++ cs1) (header_cells InsertRowEvent g stmt ++ cs2).
Proof.
  unfold before, order_key, header_cells. destruct (txn_cells g) as [[[tag server] group] seq].
  unfold col, cells_cmp. cbn [app nth lex]. rewrite !cell_cmp_refl. reflexivity.
Qed.

Lemma ordered_app l1 l2 : ordered schema l1 -> ordered schema l2 ->
  (forall d1 d2, d1 ∈ l1 -> d2 ∈ l2 -> dkey d1 = dkey d2 -> before d1 d2) -> ordered schema (l1 ++ l2).
Proof.
  intros Ho1 Ho2 H12 i j d1 d2 Hij Hd1 Hd2 Hk.
  apply lookup_app_Some in Hd1, Hd2. destruct Hd1 as [Hd1|[Hl1 Hd1]], Hd2 as [Hd2|[Hl2 Hd2]].
  - eapply Ho1; eauto.
  - apply H12; [eapply list_elem_of_lookup_2; eauto | eapply list_elem_of_lookup_2; eauto | exact Hk].
  - apply lookup_lt_Some in Hd2. lia.
  - eapply (Ho2 (i - length l1)%nat (j - length l1)%nat); eauto; lia.
Qed.

Lemma NoDup_ordered l : NoDup (map dkey l) -> ordered schema l.
Proof.
  intros Hn i j d1 d2 Hij Hd1 Hd2 Hk. exfalso.
  assert (i = j); [|lia]. eapply NoDup_lookup; [exact Hn | |]; rewrite list_lookup_fmap.
  - rewrite Hd1. reflexivity.
  - rewrite Hd2. simpl. rewrite Hk. reflexivity.
Qed.

Lemma new_rows_keys action g stmt css : map dkey (new_rows action g stmt css) = map key css.
Proof.
  unfold new_rows. rewrite map_map. apply map_ext. intros cs. unfold dkey.
  rewrite (proj1 (header_facts action g stmt cs)). reflexivity.
Qed.

Lemma new_rows_elem action g stmt css d : d ∈ new_rows action g stmt css ->
  action_of d = CInt (RowEventType_code action) /\ stamp_of d = stamp g stmt.
Proof. intros Hd. apply elem_of_map in Hd. destruct Hd as (cs & -> & _). apply header_facts. Qed.

Lemma new_rows_ordered g stmt ds ins : NoDup (map key ds) -> NoDup (map key ins) ->
  ordered schema (new_rows DeleteRowEvent g stmt ds ++ new_rows InsertRowEvent g stmt ins).
Proof.
  intros Hd Hi. apply ordered_app; [apply NoDup_ordered; rewrite new_rows_keys; exact Hd
    | apply NoDup_ordered; rewrite new_rows_keys; exact Hi |].
  intros d1 d2 H1' H2' _. apply elem_of_map in H1', H2'. destruct H1' as (c1 & -> & _), H2' as (c2 & -> & _).
  apply delete_before_insert.
Qed.

(** What the source guarantees of one row event: no key twice among its before
    images, nor among its after images. *)
Definition event_keys_ok (new : list row) : Prop :=
  NoDup (map dkey (filter is_delete new)) /\ NoDup (map dkey (filter is_insert new)).

Lemma filter_all_of (P : row -> Prop) `{!forall x, Decision (P x)} l : Forall P l -> filter P l = l.
Proof. induction 1 as [|x l Hx Hl IH]; [reflexivity|]. rewrite filter_cons, decide_True by exact Hx. f_equal. exact IH. Qed.

Lemma filter_none_of (P : row -> Prop) `{!forall x, Decision (P x)} l : Forall (fun x => ~ P x) l -> filter P l = [].
Proof. induction 1 as [|x l Hx Hl IH]; [reflexivity|]. rewrite filter_cons, decide_False by exact Hx. exact IH. Qed.

Lemma new_deletes g stmt css : Forall is_delete (new_rows DeleteRowEvent g stmt css).
Proof. apply Forall_forall. intros d Hd. apply new_rows_elem in Hd. apply Hd. Qed.
Lemma new_inserts g stmt css : Forall is_insert (new_rows InsertRowEvent g stmt css).
Proof. apply Forall_forall. intros d Hd. apply new_rows_elem in Hd. apply Hd. Qed.

Lemma event_keys_new g stmt ds ins :
  event_keys_ok (new_rows DeleteRowEvent g stmt ds ++ new_rows InsertRowEvent g stmt ins) <->
  NoDup (map key ds) /\ NoDup (map key ins).
Proof.
  unfold event_keys_ok. rewrite !filter_app.
  rewrite (filter_all_of is_delete (new_rows DeleteRowEvent g stmt ds)) by apply new_deletes.
  rewrite (filter_all_of is_insert (new_rows InsertRowEvent g stmt ins)) by apply new_inserts.
  rewrite (filter_none_of is_insert (new_rows DeleteRowEvent g stmt ds)).
  2: { eapply Forall_impl; [apply new_deletes|]. intros d Hd Hi. exact (insert_not_delete d Hi Hd). }
  rewrite (filter_none_of is_delete (new_rows InsertRowEvent g stmt ins)).
  2: { eapply Forall_impl; [apply new_inserts|]. intros d Hd. exact (insert_not_delete d Hd). }
  rewrite app_nil_r, app_nil_l, !new_rows_keys. tauto.
Qed.

(** The counters stay truthful: they count the event, and its rows are of its kind. *)
Lemma event_counters_ok event n a a' g stmt ds ins : counters_ok a ->
  length ds = (if has_deletes event then n else 0)%nat -> length ins = (if has_inserts event then n else 0)%nat ->
  delta_rows a' = delta_rows a ++ new_rows DeleteRowEvent g stmt ds ++ new_rows InsertRowEvent g stmt ins ->
  a_counters a' = event_counters event (Z.of_nat n) (a_counters a) -> counters_ok a'.
Proof.
  intros [(Hd & Hi & Hu & Hz) Hins Hdel Hzero] Hds Hin Hrows Hc.
  assert (Hnil : forall action, length ds = 0%nat -> new_rows action g stmt ds = []) by (intros action E; destruct ds; [reflexivity | discriminate]).
  assert (Hnil' : forall action, length ins = 0%nat -> new_rows action g stmt ins = []) by (intros action E; destruct ins; [reflexivity | discriminate]).
  pose proof (new_inserts g stmt ins) as Hni. pose proof (new_deletes g stmt ds) as Hnd.
  unfold event_counters in Hc. rewrite has_deletes_eq, has_inserts_eq in *.
  split; rewrite Hc, ?Hrows; destruct event; cbn in Hds, Hin |- *; try lia; intros.
  all: rewrite ?(Hnil DeleteRowEvent Hds), ?(Hnil' InsertRowEvent Hin), ?app_nil_r, ?app_nil_l.
  all: try (exfalso; lia).
  all: repeat apply Forall_app_2; auto; try (apply Hzero; lia); try (apply Hins; lia); try (apply Hdel; lia).
  all: rewrite (Hnil DeleteRowEvent) by lia; constructor.
Qed.

Lemma buffer_inv_append stamps tm event rows g stmt a size a' size' :
  buffer_inv stamps a -> (forall s, s ∈ stamps -> cells_cmp s (stamp g stmt) = Lt) ->
  appendRowFormatChanges tm schema event rows g stmt a size = Ret (a', size', None) ->
  event_keys_ok (drop (length (delta_rows a)) (delta_rows a')) ->
  buffer_inv (stamps ++ [stamp g stmt]) a'.
Proof.
  intros [Ha Hc Hact Ho Hst] Hs E Hkeys.
  destruct (append_event_ok tm event rows g stmt a size a' size' Ha E) as (Ha' & ds & ins & Hds & Hins & Hrows & Hc').
  assert (Hk : NoDup (map key ds) /\ NoDup (map key ins)).
  { apply (event_keys_new g stmt). rewrite Hrows, drop_app_length in Hkeys. exact Hkeys. }
  split; [exact Ha' | eapply event_counters_ok; eauto | | |]; rewrite Hrows.
  - apply Forall_app_2; [exact Hact|]. apply Forall_app_2.
    + eapply Forall_impl; [apply new_deletes|]. auto.
    + eapply Forall_impl; [apply new_inserts|]. auto.
  - apply ordered_app; [exact Ho | apply new_rows_ordered; apply Hk |].
    intros d1 d2 Hd1 Hd2 _. apply stamp_before. rewrite Forall_forall in Hst. 
    assert (Hs2 : stamp_of d2 = stamp g stmt) by (apply elem_of_app in Hd2; destruct Hd2 as [Hd2|Hd2]; apply new_rows_elem in Hd2; apply Hd2).
    rewrite Hs2. apply Hs, Hst, Hd1.
  - apply Forall_app_2; [|apply Forall_app_2].
    + eapply Forall_impl; [exact Hst|]. intros d Hd. apply elem_of_app. auto.
    + apply Forall_forall. intros d Hd. apply new_rows_elem in Hd. destruct Hd as [_ ->]. apply elem_of_app. right. left.
    + apply Forall_forall. intros d Hd. apply new_rows_elem in Hd. destruct Hd as [_ ->]. apply elem_of_app. right. left.
Qed.

(** Stamps of one source grow with the sequence number, then with the statement. *)
Lemma stamp_lt_mysql server1 server2 seq1 stmt1 seq2 stmt2 :
  u64 seq1 < u64 seq2 \/ (u64 seq1 = u64 seq2 /\ stmt1 < stmt2) <->
  cells_cmp (stamp (Some (Mysql56GTID server1 seq1)) stmt1) (stamp (Some (Mysql56GTID server2 seq2)) stmt2) = Lt.
Proof.
  unfold cells_cmp. cbn [stamp txn_cells lex]. rewrite cell_cmp_refl. unfold cell_cmp. cbn [cell_rank cell_content lex Z.compare].
  destruct (Z.compare_spec (u64 seq1) (u64 seq2)) as [E|E|E]; cbn [lex].
  - destruct (Z.compare_spec stmt1 stmt2); split; intros; try lia; try discriminate; auto.
  - split; intros; [reflexivity | auto].
  - split; intros; [lia | discriminate].
Qed.
End Schema.
End RowAppend.
