(* ===== verification/RowDecode.v ===== *)
(** * Decoding into a buffer that already holds rows

    A decoder looks at the type of its builder only, never at the values the
    builder holds.  So the images of a row event are what they decode to on
    empty builders, whatever the buffer held before: [event_decodes] turns a
    check on empty builders into the exact effect of [appendRowFormatChanges]. *)

From S2P Require Import Prelude GoTime Charset Schema Rbr RbrFacts Identifier Delta DeltaSpec DeltaRefine Updater RowAppend.

Section Prefix.
Context `{ArrowLib} `{Codecs} `{VitessLib}.

(** The builder with [l] in front of its values. *)
Definition prefix (l : list (cell num128 num256)) (b : builder) : builder := mkBuilder (b_type b) (l ++ b_cells b).

Definition lift (l : list (cell num128 num256)) (m : outcome cell_result) : outcome cell_result :=
  '(b, n, e) ← m; Ret (prefix l b, n, e).

Lemma prefix_append l c b : b_append c (prefix l b) = prefix l (b_append c b).
Proof. unfold b_append, prefix. simpl. rewrite app_assoc. reflexivity. Qed.

Lemma append_as_prefix l cl c b : append_as cl c (prefix l b) = (b' ← append_as cl c b; Ret (prefix l b')).
Proof. unfold append_as. cbn [b_type prefix]. case_decide; [|reflexivity]. rewrite prefix_append. reflexivity. Qed.

Lemma lift_bind {A} l (m : outcome A) f f' : (forall x, f' x = lift l (f x)) -> mbind f' m = lift l (mbind f m).
Proof. intros Hf. destruct m; [apply Hf | reflexivity]. Qed.

Lemma lift_append l cl c b n :
  (b' ← append_as cl c (prefix l b); done n b') = lift l (b' ← append_as cl c b; done n b').
Proof. rewrite append_as_prefix. destruct (append_as cl c b); reflexivity. Qed.

Lemma lift_done l n c b : done n (b_append c (prefix l b)) = lift l (done n (b_append c b)).
Proof. rewrite prefix_append. reflexivity. Qed.

Lemma lift_fail l n e b : fail n e (prefix l b) = lift l (fail n e b).
Proof. reflexivity. Qed.

Ltac lifts :=
  repeat first
  [ reflexivity
  | apply lift_append | apply lift_done | apply lift_fail
  | progress cbn [b_type prefix decimal_scale]
  | apply lift_bind; intros
  | progress unfold append_text, append_decimal
  | match goal with
    | |- (if ?c then _ else _) = lift _ (if ?c then _ else _) => destruct c
    | |- (match ?x with _ => _ end) = lift _ (match ?x with _ => _ end) => destruct x
    | |- mbind _ (if ?c then _ else _) = lift _ (mbind _ (if ?c then _ else _)) => destruct c
    end ].

Lemma cell_Enum_prefix l data pos md ct b : cell_Enum data pos md ct (prefix l b) = lift l (cell_Enum data pos md ct b).
Proof. unfold cell_Enum. cbn zeta. lifts. Qed.
Lemma cell_Set_prefix l data pos md ct b : cell_Set data pos md ct (prefix l b) = lift l (cell_Set data pos md ct b).
Proof. unfold cell_Set. cbn zeta. lifts. Qed.
Lemma cell_NewDecimal_prefix l data pos md b : cell_NewDecimal data pos md (prefix l b) = lift l (cell_NewDecimal data pos md b).
Proof. unfold cell_NewDecimal. cbn zeta. lifts. Qed.
Lemma cell_String_prefix l data pos md ct ft b : cell_String data pos md ct ft (prefix l b) = lift l (cell_String data pos md ct ft b).
Proof. unfold cell_String. cbn zeta. rewrite cell_Enum_prefix, cell_Set_prefix. lifts. Qed.

(** What a cell decodes to does not depend on the values already there. *)
Lemma CellValue_prefix l data pos typ md col b :
  CellValue data pos typ md col (prefix l b) = lift l (CellValue data pos typ md col b).
Proof.
  unfold CellValue. apply lift_bind. intros ft.
  rewrite cell_Enum_prefix, cell_Set_prefix, cell_NewDecimal_prefix, cell_String_prefix.
  unfold cell_Tiny, cell_Year, cell_Short, cell_Int24, cell_Long, cell_Float, cell_Double, cell_Timestamp, cell_LongLong,
    cell_Date, cell_Time, cell_DateTime, cell_Varchar, cell_Bit, cell_Timestamp2, cell_DateTime2, cell_Time2, cell_Blob, cell_Geometry.
  cbn zeta. lifts.
Qed.

(** ** Row images *)
Lemma append_cells_prefix data nulls types metas schema : forall i pos ls fs, length ls = length fs ->
  append_cells data nulls types metas i pos schema (zip_with prefix ls fs) =
  ('(fs', r) ← append_cells data nulls types metas i pos schema fs; Ret (zip_with prefix ls fs', r)).
Proof.
  induction schema as [|col schema IH]; intros i pos ls fs El; [reflexivity|].
  destruct fs as [|b fs], ls as [|l ls]; try discriminate; [reflexivity|]. injection El as El.
  cbn [zip_with append_cells]. destruct (Updater.Bit nulls i) as [isNull|]; [|reflexivity]. cbn [mbind outcome_bind].
  destruct isNull.
  - rewrite IH by exact El. destruct (append_cells _ _ _ _ _ _ _ fs) as [[fs' r]|]; [|reflexivity].
    cbn. unfold AppendNull. rewrite prefix_append. reflexivity.
  - destruct (at_index types i) as [typ|]; [|reflexivity]. destruct (at_index metas i) as [md|]; [|reflexivity].
    cbn [mbind outcome_bind]. rewrite CellValue_prefix. destruct (CellValue _ _ _ _ _ b) as [[[b' n] [e|]]|]; [reflexivity | | reflexivity].
    cbn [lift mbind outcome_bind]. rewrite IH by exact El.
    destruct (append_cells _ _ _ _ _ _ _ fs) as [[fs' r]|]; reflexivity.
Qed.
End Prefix.

Section Decode.
Context `{ArrowLib} `{Codecs} `{VitessLib} `{!EqDecision (cell num128 num256)}.
Context (dict_nil : cell num128 num256) (schema : list Column).
(** The types of the builders, the six augmented ones first. *)
Context (types : list DataType).

Abbreviation row := (list (cell num128 num256)).

(** The image of a row decodes, on empty builders, to the cells [cs]. *)
Definition decoded (tm : TableMap) (img : slice * Updater.Bitmap) (cs : row) : Prop :=
  length cs = length schema /\ exists n,
  append_cells (fst img) (snd img) (tm_Types tm) (tm_Metadata tm) 0 0 schema (map new_builder (drop 6 types)) =
    Ret (push cs (map new_builder (drop 6 types)), inl n).

Lemma builders_prefix fs : fs = zip_with prefix (map b_cells fs) (map new_builder (map b_type fs)).
Proof.
  induction fs as [|[t cs] fs IH]; [reflexivity|]. cbn [map zip_with]. rewrite <- IH.
  unfold prefix. simpl. rewrite app_nil_r. reflexivity.
Qed.

Lemma push_prefix fs : forall cs, length cs = length fs ->
  zip_with prefix (map b_cells fs) (push cs (map new_builder (map b_type fs))) = push cs fs.
Proof.
  induction fs as [|[t l] fs IH]; intros [|c cs] E; try discriminate; [reflexivity|].
  unfold push in *. cbn [map zip_with]. rewrite IH by (injection E; auto). reflexivity.
Qed.

Lemma decoded_any tm data nulls cs fs : decoded tm (data, nulls) cs -> map b_type fs = drop 6 types -> length fs = length schema ->
  exists n, append_cells data nulls (tm_Types tm) (tm_Metadata tm) 0 0 schema fs = Ret (push cs fs, inl n).
Proof.
  intros (Hl & n & E) Ht Hf. exists n. rewrite (builders_prefix fs) at 1.
  rewrite append_cells_prefix by (rewrite !length_map; reflexivity). rewrite Ht. cbn [fst snd] in E. rewrite E.
  cbn [mbind outcome_bind]. rewrite <- Ht, push_prefix by lia. reflexivity.
Qed.

Lemma push_types cs fs : length cs = length fs -> map b_type (push cs fs) = map b_type fs.
Proof.
  revert fs. induction cs as [|c cs IH]; intros [|f fs] E; try discriminate; [reflexivity|].
  unfold push in *. cbn [zip_with map]. rewrite IH by (injection E; auto). reflexivity.
Qed.

Definition push_all (header : row) (css : list row) (fs : list builder) : list builder :=
  foldl (fun fs cs => push (header ++ cs) fs) fs css.

Lemma push_all_ok header css : length header = 6%nat -> Forall (fun cs => length cs = length schema) css ->
  forall n fs, fields_ok schema n fs ->
  fields_ok schema (n + length css) (push_all header css fs) /\
  field_rows (push_all header css fs) = field_rows fs ++ map (app header) css /\
  map b_type (push_all header css fs) = map b_type fs.
Proof.
  intros Hh. induction 1 as [|cs css Hcs _ IH]; intros n fs Hf; cbn [push_all foldl length map].
  - rewrite Nat.add_0_r, app_nil_r. auto.
  - assert (Hw : length (header ++ cs) = (6 + length schema)%nat) by (rewrite length_app; lia).
    destruct (push_ok schema n (header ++ cs) fs Hf Hw) as [Hf' Hr].
    destruct (IH (S n) _ Hf') as (H1' & H2' & H3'). fold (push_all header css (push (header ++ cs) fs)).
    split; [replace (n + S (length css))%nat with (S n + length css)%nat by lia; exact H1'|]. rewrite H2', Hr, H3'.
    split; [rewrite <- app_assoc; reflexivity|]. apply push_types. destruct Hf as [Hfw _]. lia.
Qed.

Lemma append_images_decoded action image header tm rows css : length header = 6%nat ->
  Forall2 (fun r cs => decoded tm (image r) cs) rows css ->
  forall n fs size, fields_ok schema n fs -> map b_type fs = types ->
  exists size', append_images action image header (tm_Types tm) (tm_Metadata tm) schema rows fs size = Ret (push_all header css fs, size', None).
Proof.
  intros Hh. induction 1 as [|r cs rows css Hd _ IH]; intros n fs size Hf Ht; [eexists; reflexivity|].
  cbn [append_images]. destruct (image r) as [data nulls] eqn:Ei. pose proof Hf as [Hw _]. pose proof (proj1 Hd) as Hcs.
  destruct (decoded_any tm data nulls cs (drop 6 fs)) as [m E]; [exact Hd | rewrite <- Ht; symmetry; apply skipn_map | rewrite length_drop; lia |].
  rewrite E. cbn [mbind outcome_bind].
  assert (Ep : push header (take 6 fs) ++ push cs (drop 6 fs) = push (header ++ cs) fs).
  { rewrite <- push_app by (rewrite length_take; lia). rewrite take_drop. reflexivity. }
  rewrite Ep. assert (Hw' : length (header ++ cs) = (6 + length schema)%nat) by (rewrite length_app; lia).
  destruct (push_ok schema n (header ++ cs) fs Hf Hw') as [Hf' _].
  apply (IH (S n)); [exact Hf' | rewrite push_types by lia; exact Ht].
Qed.

Lemma append_action_decoded (run : bool) action image tm (rows : list Row) css g stmt a size :
  appender_ok schema a -> map b_type (a_fields a) = types ->
  Forall2 (fun r cs => decoded tm (image r) cs) (if run then rows else []) css ->
  exists a' size', append_action dict_nil run action image tm schema rows g stmt a size = Ret (a', size', None) /\
    appender_ok schema a' /\ map b_type (a_fields a') = types /\ delta_rows a' = delta_rows a ++ new_rows dict_nil action g stmt css.
Proof.
  intros Ha Ht Hd. unfold append_action. destruct run.
  - pose proof Ha as Ha'. apply appender_fields in Ha'. destruct Ha' as [Hs Hf].
    pose proof (length_header dict_nil action g stmt) as Hh.
    destruct (append_images_decoded action image (header_cells dict_nil action g stmt) tm rows css Hh Hd _ _ size Hf Ht) as [size' E].
    rewrite E. cbn [mbind outcome_bind]. eexists _, _. split; [reflexivity|].
    assert (Hcs : Forall (fun cs : row => length cs = length schema) css).
    { clear -Hd. induction Hd as [|r cs rows css Hd _ IH]; constructor; [apply Hd | exact IH]. }
    destruct (push_all_ok _ css Hh Hcs _ _ Hf) as (Hf' & Hr & Hty).
    split; [|split; [cbn; congruence | exact Hr]].
    apply appender_fields. split; [exact Hs|]. cbn [a_fields set_counters set_fields].
    rewrite (fields_ok_RowCount schema _ (set_counters _ (set_fields _ a)) Hf'). exact Hf'.
  - inversion Hd; subst. exists a, size. split; [reflexivity|]. split; [exact Ha|]. split; [exact Ht|].
    unfold new_rows. simpl. rewrite app_nil_r. reflexivity.
Qed.

(** A row event whose images decode succeeds on every buffer of the table and adds those images. *)
Lemma event_decodes tm event rows ds ins g stmt a size :
  appender_ok schema a -> map b_type (a_fields a) = types ->
  Forall2 (fun r cs => decoded tm (identify_image r) cs) (if has_deletes event then rows else []) ds ->
  Forall2 (fun r cs => decoded tm (data_image r) cs) (if has_inserts event then rows else []) ins ->
  exists a' size', appendRowFormatChanges dict_nil tm schema event rows g stmt a size = Ret (a', size', None) /\
    map b_type (a_fields a') = types /\
    delta_rows a' = delta_rows a ++ new_rows dict_nil DeleteRowEvent g stmt ds ++ new_rows dict_nil InsertRowEvent g stmt ins.
Proof.
  intros Ha Ht Hd Hi. unfold appendRowFormatChanges.
  destruct (append_action_decoded _ DeleteRowEvent _ tm rows ds g stmt a size Ha Ht Hd) as (a1 & s1 & E1 & Ha1 & Ht1 & Hr1).
  unfold has_deletes in E1. rewrite E1. cbn [mbind outcome_bind].
  destruct (append_action_decoded _ InsertRowEvent _ tm rows ins g stmt a1 s1 Ha1 Ht1 Hi) as (a2 & s2 & E2 & Ha2 & Ht2 & Hr2).
  unfold has_inserts in E2. rewrite E2. cbn [mbind outcome_bind].
  eexists _, _. split; [reflexivity|]. split; [exact Ht2|].
  change (delta_rows (set_counters _ a2)) with (delta_rows a2). rewrite Hr2, Hr1, <- app_assoc. reflexivity.
Qed.
End Decode.
