(* ===== verification/ReplaySpec.v ===== *)
(** * Histories, images and the buffer as slots

    The vocabulary of the end-to-end statement in Replay.v: the delta buffer as
    slots of a family of tables, the change a source makes to a table as its
    before and after images, and how both relate to deltas. *)

From S2P Require Import Prelude GoTime Charset Schema Rbr RbrFacts Identifier.
From S2P Require Import Delta DeltaSpec DeltaRefine DeltaFlush Updater RowAppend RowDecode.

(** ** The buffer as slots of a family of tables *)
Section Slots.
Context `{HA : ArrowLib} {T : Type} `{!EqDecision T}.

Fixpoint find_slot (i : T) (ts : @buffered HA T) : option DeltaAppender :=
  match ts with
  | [] => None
  | (j, a) :: ts' => if decide (i = j) then Some a else find_slot i ts'
  end.

Fixpoint put_slot (i : T) (a : DeltaAppender) (ts : @buffered HA T) : @buffered HA T :=
  match ts with
  | [] => [(i, a)]
  | (j, b) :: ts' => if decide (i = j) then (j, a) :: ts' else (j, b) :: put_slot i a ts'
  end.

Lemma find_put i j a ts : find_slot j (put_slot i a ts) = if decide (i = j) then Some a else find_slot j ts.
Proof.
  induction ts as [|[k b] ts IH]; cbn [put_slot find_slot].
  - destruct (decide (j = i)) as [->|Hn]; [rewrite decide_True; auto | rewrite decide_False; auto].
  - destruct (decide (i = k)) as [->|Hk]; cbn [find_slot].
    + destruct (decide (j = k)) as [->|Hn]; [rewrite decide_True; auto | rewrite decide_False; auto].
    + rewrite IH. destruct (decide (j = k)) as [->|Hn]; [rewrite decide_False; auto | reflexivity].
Qed.

Lemma put_put i a b ts : put_slot i b (put_slot i a ts) = put_slot i b ts.
Proof.
  induction ts as [|[k c] ts IH]; cbn [put_slot]; [rewrite decide_True; auto|].
  destruct (decide (i = k)) as [->|Hk]; cbn [put_slot]; [rewrite decide_True; auto | rewrite decide_False by exact Hk; f_equal; exact IH].
Qed.

Lemma elem_put i a ts : forall j b, (j, b) ∈ put_slot i a ts -> (j = i /\ b = a) \/ (j, b) ∈ ts.
Proof.
  induction ts as [|[k c] ts IH]; intros j b; cbn [put_slot].
  - rewrite list_elem_of_singleton. intros [= -> ->]. auto.
  - destruct (decide (i = k)) as [->|Hk]; rewrite !elem_of_cons; intros [Hj|Hj].
    + injection Hj as -> ->. auto.
    + auto.
    + auto.
    + apply IH in Hj. tauto.
Qed.

Lemma NoDup_put i a ts : NoDup (map fst ts) -> NoDup (map fst (put_slot i a ts)).
Proof.
  induction ts as [|[k c] ts IH]; intros Hn; cbn [put_slot map fst]; [apply NoDup_singleton|].
  inversion Hn as [|? ? Hk Hn']; subst. destruct (decide (i = k)) as [->|Hik]; cbn [map fst]; constructor; auto.
  intros Hin. apply elem_of_map in Hin. destruct Hin as ([j b] & -> & Hj). apply elem_put in Hj. cbn [fst] in *.
  destruct Hj as [[-> _]|Hj]; [congruence|]. apply Hk, elem_of_map. exists (j, b). auto.
Qed.

Lemma find_elem ts : NoDup (map fst ts) -> forall i a, (i, a) ∈ ts <-> find_slot i ts = Some a.
Proof.
  induction ts as [|[k c] ts IH]; intros Hn i a; cbn [find_slot]; [split; [intros Hi; inversion Hi | discriminate]|].
  inversion Hn as [|? ? Hk Hn']; subst. rewrite elem_of_cons. destruct (decide (i = k)) as [->|Hik].
  - split; [intros [Hj|Hj]; [congruence|] | intros [= ->]; auto].
    destruct Hk. apply elem_of_map. exists (k, a). auto.
  - rewrite <- IH by exact Hn'. split; [intros [Hj|Hj]; [congruence | exact Hj] | auto].
Qed.

Lemma find_map f ts i : find_slot i (map (fun p => (p.1, f p.2)) ts) = f <$> find_slot i ts.
Proof.
  induction ts as [|[k c] ts IH]; [reflexivity|]. cbn [map find_slot fst snd]. destruct (decide (i = k)); [reflexivity | exact IH].
Qed.

Context (tab : T -> tableIdentifier) `{!Inj (=) (=) tab}.

Lemma lookup_slots i ts : lookup_table (tab i) (tables_of tab ts) = find_slot i ts.
Proof.
  induction ts as [|[j a] ts IH]; [reflexivity|]. cbn [tables_of map lookup_table find_slot fst snd].
  destruct (decide (i = j)) as [->|Hn]; [rewrite decide_True; auto|]. rewrite decide_False; [exact IH | intros E; apply Hn, (inj tab), E].
Qed.

Lemma update_slots i a ts : match find_slot i ts with Some _ => True | None => False end ->
  update_table (tab i) (fun _ => a) (tables_of tab ts) = tables_of tab (put_slot i a ts).
Proof.
  induction ts as [|[j b] ts IH]; [intros []|]. cbn [tables_of map update_table put_slot find_slot fst snd].
  destruct (decide (i = j)) as [->|Hn]; [rewrite decide_True; auto|].
  rewrite decide_False by (intros E; apply Hn, (inj tab), E). intros Hf. cbn [map]. f_equal. apply IH, Hf.
Qed.

Lemma update_new i a b ts : find_slot i ts = None ->
  update_table (tab i) (fun _ => a) (tables_of tab ts ++ [(tab i, b)]) = tables_of tab (put_slot i a ts).
Proof.
  induction ts as [|[j c] ts IH]; intros Hf; cbn [tables_of map app update_table put_slot fst snd]; [rewrite decide_True; auto|].
  cbn [find_slot] in Hf. destruct (decide (i = j)) as [->|Hn]; [discriminate|].
  rewrite decide_False by (intros E; apply Hn, (inj tab), E). cbn [map]. f_equal. apply IH, Hf.
Qed.

Lemma NoDup_tabs (ts : @buffered HA T) : NoDup (map fst ts) -> NoDup (map (fun p => tab p.1) ts).
Proof.
  intros Hn. rewrite <- (map_map fst tab). induction Hn as [|i l Hi _ IH]; cbn [map]; constructor; [|exact IH].
  intros Hin. apply elem_of_map in Hin. destruct Hin as (j & E & Hj). apply (inj tab) in E. congruence.
Qed.
End Slots.

(** ** Fresh appenders *)
Section Fresh.
Context `{HA : ArrowLib} (schema : list Column) (types : list DataType).

Definition fresh_appender : DeltaAppender := mkAppender (delta_schema schema) (map new_builder types) zeroCounters.

Lemma new_fresh_appender : ToArrowSchema (map col_type (delta_schema schema)) [1; 2; 3]%nat = Ret types ->
  newDeltaAppender schema = Ret fresh_appender.
Proof. unfold newDeltaAppender, delta_schema. intros ->. reflexivity. Qed.

Lemma fresh_appender_rows : delta_rows fresh_appender = [].
Proof. unfold delta_rows, rows_of, record_of, fresh_appender. cbn. destruct types; reflexivity. Qed.

Lemma fresh_appender_ok : length types = length (delta_schema schema) -> appender_ok schema fresh_appender.
Proof.
  intros Hw. split; [reflexivity | cbn; rewrite length_map; exact Hw |].
  unfold rectangular, RowCount, fresh_appender. cbn [a_fields]. destruct types as [|t l]; cbn [map]; constructor; [reflexivity|].
  cbn. apply Forall_map, Forall_map, Forall_true. reflexivity.
Qed.

Lemma fresh_appender_counters : counters_ok fresh_appender.
Proof. split; cbn; try lia; intros; rewrite fresh_appender_rows; constructor. Qed.
End Fresh.

(** ** Applying images and deltas *)
Section Images.
Context `{HA : ArrowLib} `{!EqDecision (cell num128 num256)} (dict_nil : cell num128 num256) (schema : list Column).
Abbreviation row := (list (cell num128 num256)).

(** The change the source made: the before images go, the after images come. *)
Definition put_images (ds ins : list row) (tbl : list row) : list row :=
  foldl (fun t r => remove schema (key schema r) t ++ [r]) (foldl (fun t r => remove schema (key schema r) t) tbl ds) ins.

(** What the source guarantees of a change: keys without NULL, no key twice among the
    images of a kind, and no after image on a key that is still there. *)
Definition images_valid (ds ins : list row) (tbl : list row) : Prop :=
  NoDup (map (key schema) ds) /\ NoDup (map (key schema) ins) /\
  Forall (fun r => no_null (key schema r)) (ds ++ ins) /\
  forall r, r ∈ ins -> key schema r ∉ map (key schema) (foldl (fun t r => remove schema (key schema r) t) tbl ds).

Lemma new_rows_delete g m ds : forall tbl,
  apply_delta schema (new_rows dict_nil DeleteRowEvent g m ds) tbl = foldl (fun t r => remove schema (key schema r) t) tbl ds.
Proof.
  unfold apply_delta, new_rows. induction ds as [|r ds IH]; intros tbl; [reflexivity|]. cbn [map foldl]. rewrite <- IH. f_equal.
  destruct (header_facts dict_nil DeleteRowEvent g m r) as (Hb & Ha & _). unfold apply_action, dkey. rewrite Hb, decide_True by exact Ha.
  reflexivity.
Qed.

Lemma new_rows_insert g m ins : forall tbl,
  apply_delta schema (new_rows dict_nil InsertRowEvent g m ins) tbl = foldl (fun t r => remove schema (key schema r) t ++ [r]) tbl ins.
Proof.
  unfold apply_delta, new_rows. induction ins as [|r ins IH]; intros tbl; [reflexivity|]. cbn [map foldl]. rewrite <- IH. f_equal.
  destruct (header_facts dict_nil InsertRowEvent g m r) as (Hb & Ha & _). unfold apply_action, dkey. rewrite Hb, decide_False; [reflexivity|].
  unfold is_delete. rewrite Ha. discriminate.
Qed.

Lemma apply_delta_app ds1 ds2 tbl : apply_delta schema (ds1 ++ ds2) tbl = apply_delta schema ds2 (apply_delta schema ds1 tbl).
Proof. apply foldl_app. Qed.

Lemma apply_event g m ds ins tbl :
  apply_delta schema (new_rows dict_nil DeleteRowEvent g m ds ++ new_rows dict_nil InsertRowEvent g m ins) tbl = put_images ds ins tbl.
Proof. rewrite apply_delta_app, new_rows_delete, new_rows_insert. reflexivity. Qed.

#[global] Instance apply_delta_proper ds : Proper (same_rows ==> same_rows) (apply_delta schema ds).
Proof. intros t1 t2 E r. rewrite !apply_delta_spec. destruct (last_for _ _ _); [reflexivity | apply E]. Qed.

Lemma source_valid_app ds1 ds2 : forall tbl, source_valid schema (ds1 ++ ds2) tbl <->
  source_valid schema ds1 tbl /\ source_valid schema ds2 (apply_delta schema ds1 tbl).
Proof.
  induction ds1 as [|d ds1 IH]; intros tbl; cbn [app source_valid apply_delta foldl]; [tauto|]. rewrite IH. unfold apply_delta. tauto.
Qed.

Lemma key_same t1 t2 k : same_rows t1 t2 -> k ∈ map (key schema) t1 -> k ∈ map (key schema) t2.
Proof. intros E Hk. apply elem_of_map in Hk. destruct Hk as (r & -> & Hr). apply elem_of_map. exists r. split; [reflexivity | apply E, Hr]. Qed.

Lemma source_valid_same ds : forall t1 t2, same_rows t1 t2 -> source_valid schema ds t1 -> source_valid schema ds t2.
Proof.
  induction ds as [|d ds IH]; intros t1 t2 E Hv; [exact I|]. destruct Hv as [Hf Hv]. split.
  - intros Hi Hk. apply (Hf Hi). eapply key_same; [symmetry; exact E | exact Hk].
  - eapply IH; [|exact Hv]. exact (apply_delta_proper [d] t1 t2 E).
Qed.

Lemma source_valid_deletes ds : Forall is_delete ds -> forall tbl, source_valid schema ds tbl.
Proof.
  induction 1 as [|d ds Hd _ IH]; intros tbl; [exact I|]. split; [|apply IH]. intros Hi. destruct (insert_not_delete d Hi Hd).
Qed.

Lemma source_valid_inserts g m ins : NoDup (map (key schema) ins) -> forall tbl,
  (forall r, r ∈ ins -> key schema r ∉ map (key schema) tbl) -> source_valid schema (new_rows dict_nil InsertRowEvent g m ins) tbl.
Proof.
  induction ins as [|r ins IH]; intros Hn tbl Hf; [exact I|]. cbn [map] in Hn. apply NoDup_cons in Hn. destruct Hn as [Hr Hn].
  destruct (header_facts dict_nil InsertRowEvent g m r) as (Hb & Ha & _). cbn [new_rows map source_valid]. unfold dkey. rewrite Hb. split.
  - intros _. apply Hf. left.
  - apply IH; [exact Hn|]. intros r' Hr'. unfold apply_action, dkey. rewrite Hb, decide_False by (unfold is_delete; rewrite Ha; discriminate).
    rewrite map_app, elem_of_app. intros [Hin|Hin].
    + apply elem_of_map in Hin. destruct Hin as (x & Ex & Hx). apply elem_of_remove in Hx.
      apply (Hf r'); [right; exact Hr'|]. rewrite Ex. apply elem_of_map. exists x. tauto.
    + apply list_elem_of_singleton in Hin. apply Hr. rewrite <- Hin. apply elem_of_map. eauto.
Qed.

Lemma source_valid_event g m ds ins tbl : images_valid ds ins tbl ->
  source_valid schema (new_rows dict_nil DeleteRowEvent g m ds ++ new_rows dict_nil InsertRowEvent g m ins) tbl.
Proof.
  intros (_ & Hn & _ & Hf). apply source_valid_app. split; [apply source_valid_deletes, new_deletes|].
  rewrite new_rows_delete. apply source_valid_inserts; assumption.
Qed.

Lemma images_no_null action g m l : Forall (fun r => no_null (key schema r)) l ->
  Forall (fun d => no_null (dkey schema d)) (new_rows dict_nil action g m l).
Proof.
  intros Hl. apply Forall_map. eapply Forall_impl; [exact Hl|]. intros r Hr. unfold dkey.
  rewrite (proj1 (header_facts dict_nil action g m r)). exact Hr.
Qed.

(** Statements of one transaction are stamped in order. *)
Lemma stamp_lt_stmt g m m' : m < m' -> cells_cmp (stamp dict_nil g m) (stamp dict_nil g m') = Lt.
Proof.
  intros Hm. unfold stamp. destruct (txn_cells dict_nil g) as [[[tag server] group] seq]. unfold cells_cmp. cbn [lex].
  rewrite !cell_cmp_refl. unfold cell_cmp. cbn [cell_rank cell_content lex Z.compare].
  destruct (Z.compare_spec m m'); try lia. reflexivity.
Qed.
End Images.
