(* ===== verification/PgDecode.v ===== *)
(** * PostgreSQL values into Arrow builders (src/pgserver/logrepl/decode.go)

    [decodeToArrow] scans one column value of a logical replication message with
    the codec of its type and appends it to the Arrow builder of the column;
    [decodeArrayToArrow] does the same for arrays, element by element, and
    [writeValue] is the fallback on decoded Go values.  The codecs of
    jackc/pgx are the class [PgCodecs]. *)

From S2P Require Import Prelude GoTime Charset Schema.

#[local] Open Scope Z_scope.

(** ** The values of package pgtype *)

(** [pgtype.Numeric]: [n_Int] times ten to [n_Exp]. *)
Record Numeric : Type := mkNumeric {
  n_Int : Z; n_Exp : Z; n_NaN : bool; n_InfinityModifier : Z; n_Valid : bool
}.
(** [pgtype.Date], [pgtype.Timestamp], [pgtype.Timestamptz]: [p_Time] is the zero
    time when [p_InfinityModifier] is not zero. *)
Record PgTime : Type := mkPgTime { p_Time : GoTime; p_InfinityModifier : Z; p_Valid : bool }.

(** What [Codec.DecodeValue] returns, an [any]. *)
Inductive GoValue : Type :=
| GoBool (b : bool) | GoInt8 (z : Z) | GoInt16 (z : Z) | GoInt32 (z : Z) | GoInt64 (z : Z)
| GoUint8 (z : Z) | GoUint16 (z : Z) | GoUint32 (z : Z) | GoUint64 (z : Z)
| GoFloat32 (bits : Z) | GoFloat64 (bits : Z) | GoString (s : list Z) | GoBytes (bs : list Z)
| GoTimestamp (t : PgTime) | GoDuration (ns : Z) | GoOther.

Definition TextFormatCode : Z := 0.
Definition BinaryFormatCode : Z := 1.

(** The codecs that scan into raw bytes. *)
Inductive BytesCodec : Type := TextCodec | ByteaCodec | JSONCodec | JSONBCodec.

(** [pgtype.Map] and the codecs: each scan takes the OID, the format code and the
    data, and fails with [None].  An array scan gives the elements of the
    [FlatArray], [None] for an invalid one. *)
Class PgCodecs : Type := {
  TypeForOID : Z -> option PgType;
  scan_bool : Z -> Z -> list Z -> option bool;
  scan_qchar : Z -> Z -> list Z -> option Z;
  scan_int2 : Z -> Z -> list Z -> option Z;
  scan_int4 : Z -> Z -> list Z -> option Z;
  scan_int8 : Z -> Z -> list Z -> option Z;
  scan_float4 : Z -> Z -> list Z -> option Z;
  scan_float8 : Z -> Z -> list Z -> option Z;
  scan_timestamp : Z -> Z -> list Z -> option PgTime;
  scan_timestamptz : Z -> Z -> list Z -> option PgTime;
  scan_date : Z -> Z -> list Z -> option PgTime;
  scan_time : Z -> Z -> list Z -> option Z;       (* microseconds *)
  scan_numeric : Z -> Z -> list Z -> option Numeric;
  scan_bytes : BytesCodec -> Z -> Z -> list Z -> option (list Z);
  scan_uuid : Z -> Z -> list Z -> option (list Z);
  encode_numeric : Z -> Numeric -> option (list Z);
  encode_uuid : Z -> list Z -> list Z;
  scan_bool_array : Z -> Z -> list Z -> option (list (option bool));
  scan_int2_array : Z -> Z -> list Z -> option (list (option Z));
  scan_int4_array : Z -> Z -> list Z -> option (list (option Z));
  scan_int8_array : Z -> Z -> list Z -> option (list (option Z));
  scan_float4_array : Z -> Z -> list Z -> option (list (option Z));
  scan_float8_array : Z -> Z -> list Z -> option (list (option Z));
  scan_date_array : Z -> Z -> list Z -> option (list PgTime);
  scan_time_array : Z -> Z -> list Z -> option (list (option Z));
  scan_timestamp_array : Z -> Z -> list Z -> option (list PgTime);
  scan_timestamptz_array : Z -> Z -> list Z -> option (list PgTime);
  scan_bytes_array : Z -> Z -> list Z -> option (list (option (list Z)));
  scan_numeric_array : Z -> Z -> list Z -> option (list Numeric);
  scan_uuid_array : Z -> Z -> list Z -> option (list (option (list Z)));
  DecodeValue : PgType -> Z -> Z -> list Z -> option GoValue
}.

(** [pglogrepl.RelationMessageColumn]. *)
Record RelationMessageColumn : Type := mkRelColumn {
  rc_Flags : Z; rc_Name : string; rc_DataType : Z; rc_TypeModifier : Z
}.

Inductive DecodeError : Type :=
| ErrUnsupportedOID (oid : Z) | ErrArrayBuilder | ErrScan | ErrScale (exp : Z) | ErrEncode
| ErrArrayElement (oid : Z) | ErrConversion.

Section Decode.
Context `{ArrowLib} `{PgCodecs}.

(** What a decoder leaves: the builder, the number of bytes reported and the error. *)
Definition decode_result : Type := builder * Z * option DecodeError.
Definition done (c : cell num128 num256) (n : Z) (b : builder) : outcome decode_result := Ret (b_append c b, n, None).
Definition fail (e : DecodeError) (b : builder) : outcome decode_result := Ret (b, 0, Some e).

(** The builder's class once a [StringBuilder] is replaced by its [BinaryBuilder]. *)
Definition binary_class (t : DataType) : BuilderClass :=
  match builder_class t with StringBuilder => BinaryBuilder | c => c end.
Definition is_class (c : BuilderClass) (t : DataType) : bool := bool_decide (binary_class t = c).

(** [pow10s[i]]. *)
Definition pow10s (i : Z) : Z := 10 ^ i.

(** [v.Int] brought to [scale] digits; [Div] is Euclidean. *)
Definition rescale (v : Numeric) (scale : Z) : Z + DecodeError :=
  let exp := i32 (n_Exp v + scale) in
  if exp =? 0 then inl (n_Int v)
  else if (40 <=? exp) || (exp <=? -40) then inr (ErrScale exp)
  else if 0 <? exp then inl (n_Int v * pow10s exp)
  else inl (n_Int v / pow10s (- exp)).

(** [Encode(v, buf[:0])] writes into the array [buf] as far as its capacity goes;
    the result is not used, the array is. *)
Definition encode_into (buf res : list Z) : list Z :=
  if (length res <=? length buf)%nat then res ++ drop (length res) buf else buf.

(** [FixedSizeBinaryBuilder.Append] panics on another width. *)
Definition append_fixed (bs : list Z) (n : Z) (b : builder) : outcome decode_result :=
  match b_type b with
  | AFixedSizeBinary w => if w =? Z.of_nat (length bs) then done (CBytes bs) n b else Panic
  | _ => Panic
  end.

Definition not_a_number (v : Numeric) : bool := n_NaN v || negb (n_InfinityModifier v =? 0).

(** ** The fallback on decoded values *)
Definition writeValue (cls : BuilderClass) (val : GoValue) (b : builder) : outcome decode_result :=
  match cls, val with
  | BooleanBuilder, GoBool v => done (CBool v) 1 b
  | Int8Builder, GoInt8 v => done (CInt v) 1 b
  | Int16Builder, GoInt16 v => done (CInt v) 2 b
  | Int32Builder, GoInt32 v => done (CInt v) 4 b
  | Int64Builder, GoInt64 v => done (CInt v) 8 b
  | Uint8Builder, GoUint8 v => done (CInt v) 1 b
  | Uint16Builder, GoUint16 v => done (CInt v) 2 b
  | Uint32Builder, GoUint32 v => done (CInt v) 4 b
  | Uint64Builder, GoUint64 v => done (CInt v) 8 b
  | Float32Builder, GoFloat32 v => done (CFloat32bits v) 4 b
  | Float64Builder, GoFloat64 v => done (CFloat64bits v) 8 b
  | StringBuilder, GoString v => done (CBytes v) (Z.of_nat (length v)) b
  | BinaryBuilder, GoBytes v => done (CBytes v) (Z.of_nat (length v)) b
  | TimestampBuilder, GoTimestamp v => done (CTime (p_Time v)) 8 b
  | DurationBuilder, GoDuration v => done (CDuration v) 8 b
  | _, _ => fail ErrConversion b
  end.

(** ** Arrays *)

(** [builder.Append(true)] opens a list; the value builder appends to the open one. *)
Definition open_list (b : builder) : builder := b_append (CList []) b.
Definition push_elem (c : cell num128 num256) (b : builder) : builder :=
  match last (b_cells b) with
  | Some (CList es) => mkBuilder (b_type b) (take (length (b_cells b) - 1) (b_cells b) ++ [CList (es ++ [c])])
  | _ => b
  end.
Definition push_elems {A} (f : A -> cell num128 num256) (v : list A) (b : builder) : builder :=
  foldl (fun b e => push_elem (f e) b) b v.
Definition or_null {A} (f : A -> cell num128 num256) (o : option A) : cell num128 num256 :=
  match o with Some a => f a | None => CNull end.
Definition time_elem (f : GoTime -> cell num128 num256) (e : PgTime) : cell num128 num256 :=
  if p_Valid e then f (p_Time e) else CNull.

(** [return len(v) * n, nil] after the loop over the elements. *)
Definition elements {A} (scan : option (list A)) (f : A -> cell num128 num256) (n : Z) (b : builder) : outcome decode_result :=
  match scan with
  | None => fail ErrScan b
  | Some v => Ret (push_elems f v b, Z.of_nat (length v) * n, None)
  end.

Definition total_length (v : list (option (list Z))) : Z :=
  foldr (fun e n => match e with Some bs => Z.of_nat (length bs) | None => 0 end + n) 0 v.

Fixpoint decimal_elements (scale : Z) (v : list Numeric) (b : builder) : outcome (builder * option DecodeError) :=
  match v with
  | [] => Ret (b, None)
  | e :: v' =>
      if not_a_number e || negb (n_Valid e) then decimal_elements scale v' (push_elem CNull b)
      else match rescale e scale with
           | inr err => Ret (b, Some err)
           | inl z => d ← decimal128_FromBigInt z; decimal_elements scale v' (push_elem (CDecimal128 d) b)
           end
  end.

Fixpoint numeric_text_elements (oid : Z) (v : list Numeric) (total : Z) (b : builder) : outcome decode_result :=
  match v with
  | [] => Ret (b, total, None)
  | e :: v' =>
      if not_a_number e || negb (n_Valid e) then numeric_text_elements oid v' total (push_elem CNull b)
      else match encode_numeric oid e with
           | None => fail ErrEncode b
           | Some res => numeric_text_elements oid v' (total + Z.of_nat (length res)) (push_elem (CBytes res) b)
           end
  end.

(** One array for the text of all the elements. *)
Fixpoint uuid_text_elements (oid : Z) (v : list (option (list Z))) (buf : list Z) (b : builder) : builder :=
  match v with
  | [] => b
  | None :: v' => uuid_text_elements oid v' buf (push_elem CNull b)
  | Some bs :: v' =>
      let buf := encode_into buf (encode_uuid oid bs) in
      uuid_text_elements oid v' buf (push_elem (CBytes buf) b)
  end.

(** The value builder's type; the type assertion to [*array.ListBuilder] has succeeded. *)
Definition value_type (t : DataType) : DataType := match t with AList e => e | _ => t end.

(** The element types from BYTEA on. *)
Definition decode_text_elements (oid format scale : Z) (data : list Z) (b : builder) : outcome decode_result :=
  let values := value_type (b_type b) in
  let unsupported := fail (ErrArrayElement oid) b in
  if (oid =? ByteaOID) || (oid =? TextOID) || (oid =? VarcharOID) || (oid =? BPCharOID) || (oid =? NameOID)
       || (oid =? JSONOID) || (oid =? JSONBOID) then
    if is_class BinaryBuilder values then
      match scan_bytes_array oid format data with
      | None => fail ErrScan b
      | Some v => Ret (push_elems (or_null CBytes) v b, total_length v, None)
      end
    else unsupported
  else if oid =? NumericOID then
    match scan_numeric_array oid format data with
    | None => fail ErrScan b
    | Some v =>
        if is_class Decimal128Builder values then
          '(b, e) ← decimal_elements scale v b;
          match e with Some e => fail e b | None => Ret (b, Z.of_nat (length v) * 16, None) end
        else if is_class BinaryBuilder values then numeric_text_elements oid v 0 b
        else unsupported
    end
  else if oid =? UUIDOID then
    match scan_uuid_array oid format data with
    | None => fail ErrScan b
    | Some v =>
        if is_class FixedSizeBinaryBuilder values then
          match values with
          | AFixedSizeBinary w =>
              if (w =? 16) || forallb (fun e : option (list Z) => bool_decide (e = None)) v
              then Ret (push_elems (or_null CBytes) v b, Z.of_nat (length v) * 16, None) else Panic
          | _ => Panic
          end
        else if is_class BinaryBuilder values then
          Ret (uuid_text_elements oid v (replicate 36 0) b, Z.of_nat (length v) * 36, None)
        else unsupported
    end
  else unsupported.

Definition decodeArrayToArrow (et : PgType) (data : option (list Z)) (format scale : Z) (b : builder) : outcome decode_result :=
  match data with
  | None => Ret (AppendNull b, 0, None)
  | Some data =>
      let b := open_list b in
      let oid := pg_oid et in
      let values := value_type (b_type b) in
      let unsupported := fail (ErrArrayElement oid) b in
      if oid =? BoolOID then
        if is_class BooleanBuilder values then elements (scan_bool_array oid format data) (or_null CBool) 1 b else unsupported
      else if oid =? Int2OID then
        if is_class Int16Builder values then elements (scan_int2_array oid format data) (or_null CInt) 2 b else unsupported
      else if oid =? Int4OID then
        if is_class Int32Builder values then elements (scan_int4_array oid format data) (or_null CInt) 4 b else unsupported
      else if oid =? Int8OID then
        if is_class Int64Builder values then elements (scan_int8_array oid format data) (or_null CInt) 8 b else unsupported
      else if oid =? Float4OID then
        if is_class Float32Builder values then elements (scan_float4_array oid format data) (or_null CFloat32bits) 4 b else unsupported
      else if oid =? Float8OID then
        if is_class Float64Builder values then elements (scan_float8_array oid format data) (or_null CFloat64bits) 8 b else unsupported
      else if oid =? DateOID then
        if is_class Date32Builder values
        then elements (scan_date_array oid format data) (time_elem (fun t => CDate32 (Date32FromTime t))) 4 b else unsupported
      else if (oid =? TimeOID) || (oid =? TimetzOID) then
        if is_class Time64Builder values
        then elements (scan_time_array oid format data) (or_null (fun us => CTime64 (i64 (us * 1000)))) 8 b else unsupported
      else if oid =? TimestampOID then
        if is_class TimestampBuilder values then elements (scan_timestamp_array oid format data) (time_elem CTime) 8 b else unsupported
      else if oid =? TimestamptzOID then
        if is_class TimestampBuilder values then elements (scan_timestamptz_array oid format data) (time_elem CTime) 8 b else unsupported
      else decode_text_elements oid format scale data b
  end.

(** ** One column value *)

(** [if err := Scan; err != nil { return 0, err }; b.Append(...); return n, nil]. *)
Definition scanned {A} (scan : option A) (f : A -> cell num128 num256) (n : A -> Z) (b : builder) : outcome decode_result :=
  match scan with None => fail ErrScan b | Some v => done (f v) (n v) b end.

(** NUMERIC once it is scanned; [None] when no builder of the switch matches. *)
Definition append_numeric (oid scale : Z) (v : Numeric) (b : builder) : option (outcome decode_result) :=
  if not_a_number v then Some (Ret (AppendNull b, 0, None))
  else if is_class Decimal128Builder (b_type b) then
    Some (match rescale v scale with
          | inr e => fail e b
          | inl z => d ← decimal128_FromBigInt z; done (CDecimal128 d) 16 b
          end)
  else if is_class BinaryBuilder (b_type b) then
    Some (match encode_numeric oid v with
          | None => fail ErrEncode b
          | Some res => done (CBytes res) (Z.of_nat (length res)) b
          end)
  else None.

(** The types of the switch from TEXT on. *)
Definition decode_textual (oid format : Z) (data : list Z) (b : builder) : option (outcome decode_result) :=
  let t := b_type b in
  let when (cls : BuilderClass) (r : outcome decode_result) := if is_class cls t then Some r else None in
  if (oid =? TextOID) || (oid =? VarcharOID) || (oid =? BPCharOID) || (oid =? NameOID) then
    when BinaryBuilder (scanned (scan_bytes TextCodec oid format data) CBytes (fun v => Z.of_nat (length v)) b)
  else if oid =? ByteaOID then
    when BinaryBuilder (scanned (scan_bytes ByteaCodec oid format data) CBytes (fun v => Z.of_nat (length v)) b)
  else if oid =? UUIDOID then
    match scan_uuid oid format data with
    | None => Some (fail ErrScan b)
    | Some v =>
        if is_class FixedSizeBinaryBuilder t then Some (append_fixed v 16 b)
        else if is_class BinaryBuilder t then Some (done (CBytes (encode_into (replicate 36 0) (encode_uuid oid v))) 36 b)
        else None
    end
  else if oid =? JSONOID then
    when BinaryBuilder (scanned (scan_bytes JSONCodec oid format data) CBytes (fun v => Z.of_nat (length v)) b)
  else if oid =? JSONBOID then
    when BinaryBuilder (scanned (scan_bytes JSONBCodec oid format data) CBytes (fun v => Z.of_nat (length v)) b)
  else None.

(** The cases of the switch on the OID; [None] leaves the switch. *)
Definition decode_scalar (oid format scale : Z) (data : list Z) (b : builder) : option (outcome decode_result) :=
  let t := b_type b in
  let when (cls : BuilderClass) (r : outcome decode_result) := if is_class cls t then Some r else None in
  if oid =? BoolOID then when BooleanBuilder (scanned (scan_bool oid format data) CBool (fun _ => 1) b)
  else if oid =? QCharOID then when Uint8Builder (scanned (scan_qchar oid format data) CInt (fun _ => 1) b)
  else if oid =? Int2OID then when Int16Builder (scanned (scan_int2 oid format data) CInt (fun _ => 2) b)
  else if oid =? Int4OID then when Int32Builder (scanned (scan_int4 oid format data) CInt (fun _ => 4) b)
  else if oid =? Int8OID then when Int64Builder (scanned (scan_int8 oid format data) CInt (fun _ => 8) b)
  else if oid =? Float4OID then when Float32Builder (scanned (scan_float4 oid format data) CFloat32bits (fun _ => 4) b)
  else if oid =? Float8OID then when Float64Builder (scanned (scan_float8 oid format data) CFloat64bits (fun _ => 8) b)
  else if oid =? TimestampOID then
    when TimestampBuilder (scanned (scan_timestamp oid format data) (fun v => CTime (p_Time v)) (fun _ => 8) b)
  else if oid =? TimestamptzOID then
    when TimestampBuilder (scanned (scan_timestamptz oid format data) (fun v => CTime (p_Time v)) (fun _ => 8) b)
  else if oid =? DateOID then
    when Date32Builder (scanned (scan_date oid format data) (fun v => CDate32 (Date32FromTime (p_Time v))) (fun _ => 4) b)
  else if (oid =? TimeOID) || (oid =? TimetzOID) then
    when Time64Builder (scanned (scan_time oid format data) (fun us => CTime64 (i64 (us * 1000))) (fun _ => 8) b)
  else if oid =? NumericOID then
    if (format =? TextFormatCode) && is_class BinaryBuilder t then Some (done (CBytes data) (Z.of_nat (length data)) b)
    else match scan_numeric oid format data with
         | None => Some (fail ErrScan b)
         | Some v => append_numeric oid scale v b
         end
  else decode_textual oid format data b.

Definition numeric_scale (oid : Z) (column : RelationMessageColumn) : Z :=
  if (oid =? NumericOID) || (oid =? NumericArrayOID) then snd (fst (DecodePrecisionScale (rc_TypeModifier column))) else 0.

Definition decodeToArrow (column : RelationMessageColumn) (data : option (list Z)) (format : Z) (b : builder) : outcome decode_result :=
  match data with
  | None => Ret (AppendNull b, 0, None)
  | Some data =>
      match TypeForOID (rc_DataType column) with
      | None =>
          if bool_decide (builder_class (b_type b) = StringBuilder) && (format =? TextFormatCode)
          then done (CBytes data) (Z.of_nat (length data)) b
          else fail (ErrUnsupportedOID (rc_DataType column)) b
      | Some (mkPgType oid elem as dt) =>
          let scale := numeric_scale oid column in
          match elem with
          | Some et =>
              if bool_decide (builder_class (b_type b) = ListBuilder)
              then decodeArrayToArrow et (Some data) format scale b else fail ErrArrayBuilder b
          | None =>
              match decode_scalar oid format scale data b with
              | Some r => r
              | None =>
                  match DecodeValue dt oid format data with
                  | None => fail ErrScan b
                  | Some v => writeValue (binary_class (b_type b)) v b
                  end
              end
          end
      end
  end.
End Decode.

(** ** Decoding PostgreSQL values: one cell of the right type

    [decode_uniform]: what a column value becomes depends on the type of its
    builder and not on what the builder holds, is one cell of that type, or an
    error that leaves at most a half-filled list.  The types the relation
    message maps to native Arrow types are decoded by their own case, and
    NUMERIC values keep their value at the scale of the column. *)

Section DecodeFacts.
Context `{ArrowLib} `{PgCodecs}.

(** A value of the kind a builder of the type holds. *)
Fixpoint fits (t : DataType) (c : cell num128 num256) : bool :=
  match c with
  | CNull => true
  | _ =>
      match t, c with
      | ABoolean, CBool _ => true
      | (AInt8 | AUint8 | AInt16 | AUint16 | AInt32 | AUint32 | AInt64 | AUint64), CInt _ => true
      | AFloat32, CFloat32bits _ => true
      | AFloat64, CFloat64bits _ => true
      | ATimestamp _ _, CTime _ => true
      | ADate32, CDate32 _ => true
      | ATime64ns, CTime64 _ => true
      | ADuration _, CDuration _ => true
      | (AString | ABinary | AFixedSizeBinary _), CBytes _ => true
      | ADecimal128 _ _, CDecimal128 _ => true
      | ADecimal256 _ _, CDecimal256 _ => true
      | AList e, CList es => forallb (fits e) es
      | ADictionary _ v, _ => fits v c
      | _, _ => false
      end
  end.

(** The builder only has values of its type. *)
Definition well_typed (b : builder) : Prop := Forall (fun c => fits (b_type b) c = true) (b_cells b).

Lemma fits_null t : fits t CNull = true.
Proof. destruct t; reflexivity. Qed.

Definition uniform (t : DataType) (F : list (cell num128 num256) -> outcome decode_result) : Prop :=
  (forall l, F l = Panic) \/
  exists cs n e, (forall l, F l = Ret (mkBuilder t (l ++ cs), n, e)) /\ (length cs <= 1)%nat /\
    Forall (fun c => fits t c = true) cs /\ match e with None => length cs = 1%nat | Some _ => True end.

Lemma uniform_done t c n : fits t c = true -> uniform t (fun l => done c n (mkBuilder t l)).
Proof. intros Hc. right. exists [c], n, None. split; [reflexivity|]. split; [constructor|]. split; [constructor; auto | reflexivity]. Qed.
Lemma uniform_null t n : uniform t (fun l => Ret (AppendNull (mkBuilder t l), n, None)).
Proof. exact (uniform_done t CNull n (fits_null t)). Qed.
Lemma uniform_fail t e : uniform t (fun l => fail e (mkBuilder t l)).
Proof. right. exists [], 0, (Some e). split; [intros l; rewrite app_nil_r; reflexivity|]. split; [cbn; lia|]. split; [constructor | exact I]. Qed.
Lemma uniform_panic t : uniform t (fun _ => Panic).
Proof. left. reflexivity. Qed.
Lemma uniform_bind {A} t (m : outcome A) F : (forall a, uniform t (F a)) -> uniform t (fun l => mbind (fun a => F a l) m).
Proof. intros HF. destruct m; [apply HF | apply uniform_panic]. Qed.
Lemma uniform_ext t F G : uniform t G -> (forall l, F l = G l) -> uniform t F.
Proof.
  intros [E|(cs & n & e & E & Hr)] HF; [left | right; exists cs, n, e; split; [|exact Hr]]; intros l; rewrite HF; apply E.
Qed.

(** An open list that is filled and kept, with or without an error. *)
Lemma uniform_list t es n e : forallb (fits t) es = true ->
  uniform (AList t) (fun l => Ret (b_append (CList es) (mkBuilder (AList t) l), n, e)).
Proof.
  intros Hes. right. exists [CList es], n, e. split; [reflexivity|]. split; [constructor|].
  split; [constructor; [exact Hes | constructor]|]. destruct e; [exact I | reflexivity].
Qed.

Lemma push_elem_open c es b : push_elem c (b_append (CList es) b) = b_append (CList (es ++ [c])) b.
Proof.
  unfold push_elem, b_append. cbn [b_cells b_type]. rewrite last_snoc, length_app. cbn [length].
  replace (length (b_cells b) + 1 - 1)%nat with (length (b_cells b)) by lia. rewrite take_app_length. reflexivity.
Qed.

Lemma push_elems_open {A} (f : A -> cell num128 num256) v : forall es b,
  push_elems f v (b_append (CList es) b) = b_append (CList (es ++ map f v)) b.
Proof.
  unfold push_elems. induction v as [|x v IH]; intros es b; cbn [foldl map]; [rewrite app_nil_r; reflexivity|].
  rewrite push_elem_open, IH, <- app_assoc. reflexivity.
Qed.

Lemma fits_snoc t es c : forallb (fits t) es = true -> fits t c = true -> forallb (fits t) (es ++ [c]) = true.
Proof. intros He Hc. rewrite forallb_app, He. cbn. rewrite Hc. reflexivity. Qed.

Lemma fits_map {A} t (f : A -> cell num128 num256) v : (forall x, fits t (f x) = true) -> forallb (fits t) (map f v) = true.
Proof. intros Hf. induction v as [|x v IH]; [reflexivity|]. cbn. rewrite Hf. exact IH. Qed.

Lemma uuid_elements_open t oid v : (forall bs, fits t (CBytes bs) = true) -> forall buf es, forallb (fits t) es = true -> exists es',
  forallb (fits t) es' = true /\ forall b, uuid_text_elements oid v buf (b_append (CList es) b) = b_append (CList es') b.
Proof.
  intros Ht. induction v as [|[bs|] v IH]; intros buf es He; cbn [uuid_text_elements].
  - exists es. auto.
  - destruct (IH (encode_into buf (encode_uuid oid bs)) (es ++ [CBytes (encode_into buf (encode_uuid oid bs))])) as (es' & He' & E); [apply fits_snoc; auto|].
    exists es'. split; [exact He'|]. intros b'. rewrite push_elem_open. apply E.
  - destruct (IH buf (es ++ [CNull])) as (es' & He' & E); [apply fits_snoc; auto using fits_null|].
    exists es'. split; [exact He'|]. intros b'. rewrite push_elem_open. apply E.
Qed.

Lemma uniform_pushed {A} t (f : A -> cell num128 num256) v n : (forall x, fits t (f x) = true) ->
  uniform (AList t) (fun l => Ret (push_elems f v (open_list (mkBuilder (AList t) l)), n, None)).
Proof.
  intros Hf. apply (uniform_ext _ _ _ (uniform_list t (map f v) n None (fits_map t f v Hf))).
  intros l. unfold open_list. rewrite push_elems_open. reflexivity.
Qed.

Lemma uniform_uuids t oid v buf n : (forall bs, fits t (CBytes bs) = true) ->
  uniform (AList t) (fun l => Ret (uuid_text_elements oid v buf (open_list (mkBuilder (AList t) l)), n, None)).
Proof.
  intros Ht. destruct (uuid_elements_open t oid v Ht buf [] eq_refl) as (es & He & Eu).
  apply (uniform_ext _ _ _ (uniform_list t es n None He)). intros l. unfold open_list. rewrite Eu. reflexivity.
Qed.

Lemma uniform_elements {A} t (scan : option (list A)) f n : (forall x, fits t (f x) = true) ->
  uniform (AList t) (fun l => elements scan f n (open_list (mkBuilder (AList t) l))).
Proof.
  intros Hf. unfold elements. destruct scan as [v|]; [apply uniform_pushed, Hf | exact (uniform_list t [] 0 (Some ErrScan) eq_refl)].
Qed.

Lemma uniform_decimals t scale v k : (forall d, fits t (CDecimal128 d) = true) -> forall es, forallb (fits t) es = true ->
  uniform (AList t) (fun l =>
  '(b, e) ← decimal_elements scale v (b_append (CList es) (mkBuilder (AList t) l));
  match e with Some e => fail e b | None => Ret (b, k, None) end).
Proof.
  intros Ht. induction v as [|x v IH]; intros es He; cbn [decimal_elements mbind outcome_bind]; [apply uniform_list, He|].
  destruct (not_a_number x || negb (n_Valid x)).
  - apply (uniform_ext _ _ _ (IH (es ++ [CNull]) (fits_snoc _ _ _ He (fits_null t)))). intros l. rewrite push_elem_open. reflexivity.
  - destruct (rescale x scale) as [z|e]; [|exact (uniform_list t es 0 (Some e) He)].
    destruct (decimal128_FromBigInt z) as [d|]; [|apply uniform_panic]. cbn [mbind outcome_bind].
    apply (uniform_ext _ _ _ (IH (es ++ [CDecimal128 d]) (fits_snoc _ _ _ He (Ht d)))). intros l. rewrite push_elem_open. reflexivity.
Qed.

Lemma uniform_numeric_texts t oid v : (forall bs, fits t (CBytes bs) = true) -> forall total es, forallb (fits t) es = true ->
  uniform (AList t) (fun l => numeric_text_elements oid v total (b_append (CList es) (mkBuilder (AList t) l))).
Proof.
  intros Ht. induction v as [|x v IH]; intros total es He; cbn [numeric_text_elements]; [apply uniform_list, He|].
  destruct (not_a_number x || negb (n_Valid x)).
  - apply (uniform_ext _ _ _ (IH total (es ++ [CNull]) (fits_snoc _ _ _ He (fits_null t)))). intros l. rewrite push_elem_open. reflexivity.
  - destruct (encode_numeric oid x) as [r|]; [|exact (uniform_list t es 0 (Some ErrEncode) He)].
    apply (uniform_ext _ _ _ (IH (total + Z.of_nat (length r)) (es ++ [CBytes r]) (fits_snoc _ _ _ He (Ht r)))).
    intros l. rewrite push_elem_open. reflexivity.
Qed.

(** A builder of the class holds the values of its kind. *)
Definition of_kind (c : cell num128 num256) (cls : BuilderClass) : bool :=
  match cls, c with
  | _, CNull => true
  | BooleanBuilder, CBool _ => true
  | (Int8Builder | Uint8Builder | Int16Builder | Uint16Builder | Int32Builder | Uint32Builder | Int64Builder | Uint64Builder), CInt _ => true
  | Float32Builder, CFloat32bits _ => true
  | Float64Builder, CFloat64bits _ => true
  | TimestampBuilder, CTime _ => true
  | Date32Builder, CDate32 _ => true
  | Time64Builder, CTime64 _ => true
  | DurationBuilder, CDuration _ => true
  | (BinaryBuilder | FixedSizeBinaryBuilder), CBytes _ => true
  | Decimal128Builder, CDecimal128 _ => true
  | _, _ => false
  end.

Lemma fits_class cls t c : is_class cls t = true -> of_kind c cls = true -> fits t c = true.
Proof.
  unfold is_class. intros <-%bool_decide_eq_true Hk. destruct t; destruct c; try discriminate; try reflexivity;
    cbn in *; try destruct t2; discriminate.
Qed.

Lemma fits_string t c : builder_class t = StringBuilder -> of_kind c BinaryBuilder = true -> fits t c = true.
Proof. intros E. apply (fits_class BinaryBuilder). unfold is_class, binary_class. rewrite E. reflexivity. Qed.

Lemma fits_elem {A} cls t (f : A -> cell num128 num256) : is_class cls t = true -> (forall x, of_kind (f x) cls = true) -> forall x, fits t (f x) = true.
Proof. intros Hc Hf x. eapply fits_class; eauto. Qed.

Ltac fits_tac :=
  match goal with
  | H : is_class ?cls ?t = true |- forall x, fits ?t _ = true => apply (fits_elem cls t); [exact H | intros x; unfold or_null, time_elem; repeat case_match; reflexivity]
  | H : is_class ?cls ?t = true |- fits ?t _ = true => apply (fits_class cls t); [exact H | reflexivity]
  | H : builder_class ?t = StringBuilder |- fits ?t _ = true => apply fits_string; [exact H | reflexivity]
  end.

Ltac uniform_step :=
  first
  [ apply uniform_null | apply uniform_fail | apply uniform_panic
  | apply uniform_done; fits_tac
  | apply uniform_bind; intros
  | match goal with
    | |- uniform _ (fun l => if ?c then _ else _) => destruct c eqn:?
    | |- uniform _ (fun l => match ?x with _ => _ end) => destruct x eqn:?
    end ].

Lemma uniform_array et data format scale t : builder_class t = ListBuilder ->
  uniform t (fun l => decodeArrayToArrow et (Some data) format scale (mkBuilder t l)).
Proof.
  intros Ht. destruct t as [| | | | | | | | | | | | | | | | | | | | |e|? []]; try discriminate. clear Ht.
  unfold decodeArrayToArrow, decode_text_elements. cbn zeta. change (b_type (open_list (mkBuilder (AList e) ?l))) with (AList e). cbn [value_type].
  assert (Hu : forall err, uniform (AList e) (fun l => fail err (open_list (mkBuilder (AList e) l))))
    by (intros err; exact (uniform_list e [] 0 (Some err) eq_refl)).
  repeat first
  [ apply Hu
  | apply uniform_elements; fits_tac
  | apply uniform_pushed; fits_tac
  | apply uniform_uuids; fits_tac
  | apply uniform_decimals; [fits_tac | reflexivity]
  | apply uniform_numeric_texts; [fits_tac | reflexivity]
  | apply uniform_panic
  | match goal with
    | |- uniform _ (fun l => if ?c then _ else _) => destruct c eqn:?
    | |- uniform _ (fun l => match ?x with _ => _ end) => destruct x eqn:?
    end ].
Qed.

(** A case of the switch: taken or not, whatever the builder holds. *)
Definition switch (t : DataType) (G : list (cell num128 num256) -> option (outcome decode_result)) : Prop :=
  (forall l, G l = None) \/ exists F, uniform t F /\ forall l, G l = Some (F l).

Lemma switch_some t F : uniform t F -> switch t (fun l => Some (F l)).
Proof. intros HF. right. exists F. auto. Qed.
Lemma switch_none t : switch t (fun _ => None).
Proof. left. reflexivity. Qed.

Lemma uniform_scanned {A} t (scan : option A) f n : (forall x, fits t (f x) = true) -> uniform t (fun l => scanned scan f n (mkBuilder t l)).
Proof. intros Hf. unfold scanned. destruct scan; [apply uniform_done, Hf | apply uniform_fail]. Qed.

Lemma uniform_fixed t bs n : uniform t (fun l => append_fixed bs n (mkBuilder t l)).
Proof.
  unfold append_fixed. cbn [b_type]. destruct t; try apply uniform_panic. destruct (_ =? _); [|apply uniform_panic].
  apply uniform_done. reflexivity.
Qed.

Ltac switch_step :=
  first
  [ apply switch_none
  | apply switch_some; first [apply uniform_scanned; fits_tac | apply uniform_fixed | repeat uniform_step; fail]
  | match goal with
    | |- switch _ (fun l => if ?c then _ else _) => destruct c eqn:?
    | |- switch _ (fun l => match ?x with _ => _ end) => destruct x eqn:?
    end ].

Lemma switch_numeric oid scale v t : switch t (fun l => append_numeric oid scale v (mkBuilder t l)).
Proof. unfold append_numeric. cbn [b_type]. repeat switch_step. Qed.

Lemma switch_scalar oid format scale data t : switch t (fun l => decode_scalar oid format scale data (mkBuilder t l)).
Proof.
  unfold decode_scalar, decode_textual. cbn zeta. cbn [b_type].
  repeat first [ switch_step | apply switch_numeric
    | apply switch_some, uniform_done; match goal with H : _ && is_class _ _ = true |- _ => apply andb_prop in H; destruct H end; fits_tac ].
Qed.

Lemma uniform_value v t : uniform t (fun l => writeValue (binary_class t) v (mkBuilder t l)).
Proof.
  unfold writeValue. destruct (binary_class t) eqn:Ec; try apply uniform_fail; destruct v; try apply uniform_fail; apply uniform_done;
    eapply fits_class; try (unfold is_class; apply bool_decide_eq_true, Ec); try reflexivity.
  unfold binary_class in Ec. destruct (builder_class t); discriminate.
Qed.

(** What a value decodes to depends on the type of the builder, not on what it
    holds; it is one cell of that type, or an error with at most a half-filled list. *)
Lemma decode_uniform column data format t : uniform t (fun l => decodeToArrow column data format (mkBuilder t l)).
Proof.
  unfold decodeToArrow. cbn [b_type]. destruct data as [data|]; [|apply uniform_null].
  destruct (TypeForOID _) as [[oid elem]|].
  2: { destruct (bool_decide _) eqn:Eb; [|apply uniform_fail]. apply bool_decide_eq_true in Eb. cbn [andb].
       destruct (_ =? _); [|apply uniform_fail]. apply uniform_done, fits_string; [exact Eb | reflexivity]. }
  cbn zeta. destruct elem as [et|].
  - destruct (bool_decide _) eqn:Eb; [apply uniform_array, (proj1 (bool_decide_eq_true _)), Eb | apply uniform_fail].
  - destruct (switch_scalar oid format (numeric_scale oid column) data t) as [Hn|(F & HF & Hs)].
    + apply (uniform_ext _ _ (fun l => match DecodeValue (mkPgType oid None) oid format data with
        | None => fail ErrScan (mkBuilder t l) | Some v => writeValue (binary_class t) v (mkBuilder t l) end)).
      * destruct (DecodeValue _ _ _ _); [apply uniform_value | apply uniform_fail].
      * intros l. rewrite Hn. reflexivity.
    + apply (uniform_ext _ _ F HF). intros l. rewrite Hs. reflexivity.
Qed.

Lemma decode_appends column data format b b' n :
  decodeToArrow column data format b = Ret (b', n, None) -> exists c, b' = b_append c b.
Proof.
  destruct b as [t l]. intros E. destruct (decode_uniform column data format t) as [Hp|(cs & n' & e & Hd & _ & _ & Hc)].
  - rewrite Hp in E. discriminate.
  - rewrite Hd in E. injection E as <- <- ->. destruct cs as [|c [|]]; try discriminate. exists c. reflexivity.
Qed.

Lemma decode_elsewhere column data format t c n l :
  decodeToArrow column data format (new_builder t) = Ret (mkBuilder t [c], n, None) ->
  decodeToArrow column data format (mkBuilder t l) = Ret (mkBuilder t (l ++ [c]), n, None).
Proof.
  intros E. destruct (decode_uniform column data format t) as [Hp|(cs & n' & e & Hd & _)].
  - unfold new_builder in E. rewrite Hp in E. discriminate.
  - unfold new_builder in E. rewrite Hd in E |- *. injection E as -> <- ->. reflexivity.
Qed.

Lemma decode_typed column data format b b' n e :
  decodeToArrow column data format b = Ret (b', n, e) -> well_typed b ->
  b_type b' = b_type b /\ well_typed b' /\ (length (b_cells b) <= length (b_cells b') <= S (length (b_cells b)))%nat /\
  (e = None -> length (b_cells b') = S (length (b_cells b))).
Proof.
  destruct b as [t l]. intros E Hw. destruct (decode_uniform column data format t) as [Hp|(cs & n' & e' & Hd & Hl & Hf & Hc)].
  - rewrite Hp in E. discriminate.
  - rewrite Hd in E. injection E as <- <- <-. unfold well_typed in *. cbn [b_type b_cells] in *. rewrite length_app.
    split; [reflexivity|]. split; [apply Forall_app; auto|]. split; [lia|]. intros ->. lia.
Qed.

(** ** Native types *)

(** The types of the switch of [decodeToArrow]. *)
Definition native_oids : list Z :=
  [ BoolOID; QCharOID; Int2OID; Int4OID; Int8OID; Float4OID; Float8OID; TimestampOID; TimestamptzOID; DateOID; TimeOID; TimetzOID;
    NumericOID; TextOID; VarcharOID; BPCharOID; NameOID; ByteaOID; UUIDOID; JSONOID; JSONBOID ].

Lemma native_case oid p format scale data l : oid ∈ native_oids -> PG p = mkPgType oid None ->
  decode_scalar oid format scale data (mkBuilder (PostgresTypeToArrowType p) l) <> None.
Proof.
  intros Hin Hp. unfold PostgresTypeToArrowType. rewrite Hp.
  repeat (apply elem_of_cons in Hin; destruct Hin as [->|Hin]); [try discriminate..|inversion Hin].
  - unfold decode_scalar. cbn zeta. cbn [pgTypeToArrowType b_type]. cbn [BoolOID QCharOID Int2OID Int4OID Int8OID Float4OID Float8OID
      TimestampOID TimestamptzOID DateOID TimeOID TimetzOID NumericOID Z.eqb Pos.eqb orb].
    assert (Hn : forall v t, is_class Decimal128Builder t = true \/ is_class BinaryBuilder t = true -> append_numeric NumericOID scale v (mkBuilder t l) <> None).
    { intros v t Ht. unfold append_numeric. cbn [b_type]. destruct (not_a_number v); [discriminate|].
      destruct (is_class Decimal128Builder t); [discriminate|]. destruct (is_class BinaryBuilder t); [discriminate|]. destruct Ht; discriminate. }
    destruct ((0 <? Precision p) && (0 <=? Scale p)); [destruct (Precision p <=? 38)|];
      (destruct (_ && _); [discriminate|]; destruct (scan_numeric _ _ _); [apply Hn; auto | discriminate]).
  - unfold decode_scalar, decode_textual. cbn. destruct (scan_uuid _ _ _); discriminate.
Qed.

(** ** NUMERIC *)
Lemma rescale_exact v scale : - 2 ^ 31 <= n_Exp v + scale < 2 ^ 31 ->
  match rescale v scale with
  | inl z => if 0 <=? n_Exp v + scale then z = n_Int v * 10 ^ (n_Exp v + scale)
             else z = n_Int v / 10 ^ (- (n_Exp v + scale))
  | inr e => e = ErrScale (n_Exp v + scale) /\ 40 <= Z.abs (n_Exp v + scale)
  end.
Proof.
  intros Hr. unfold rescale. cbn zeta. unfold i32. rewrite signed_id by lia. set (x := n_Exp v + scale) in *.
  destruct (Z.eqb_spec x 0) as [->|Hx]; [cbn; lia|].
  destruct (Z.leb_spec 40 x); cbn [orb]; [split; [reflexivity | lia]|].
  destruct (Z.leb_spec x (-40)); [split; [reflexivity | lia]|].
  destruct (Z.ltb_spec 0 x), (Z.leb_spec 0 x); try lia; reflexivity.
Qed.
End DecodeFacts.
