(* ===== verification/CatalogErrors.v ===== *)
(** * Errors of DuckDB by their text (src/catalog/errors.go)

    The driver's errors are recognised by what their message contains.
    [strings_Index] and [strings_Contains] are those of package strings. *)

From S2P Require Import Prelude Identifier.

Definition strings_Index (s substr : string) : option nat := String.index 0 substr s.
Definition strings_Contains (s substr : string) : bool := match strings_Index s substr with Some _ => true | None => false end.
Definition drop_string (n : nat) (s : string) : string := String.substring n (String.length s - n) s.

Definition IsDuckDBCatalogError (err : string) : bool := strings_Contains err "Catalog Error".
Definition IsDuckDBTableAlreadyExistsError (err : string) : bool :=
  IsDuckDBCatalogError err && (strings_Contains err "Table with name" || strings_Contains err "Could not rename")
  && strings_Contains err "already exists".
Definition IsDuckDBTableNotFoundError (err : string) : bool :=
  IsDuckDBCatalogError err && strings_Contains err "Table with name" && strings_Contains err "does not exist".
Definition IsDuckDBViewNotFoundError (err : string) : bool :=
  IsDuckDBCatalogError err && strings_Contains err "View with name" && strings_Contains err "does not exist".
Definition IsDuckDBSetSchemaNotFoundError (err : string) : bool :=
  IsDuckDBCatalogError err && strings_Contains err "SET schema: No catalog + schema named".
Definition IsDuckDBIndexAlreadyExistsError (err : string) : bool :=
  IsDuckDBCatalogError err && strings_Contains err "Index with name" && strings_Contains err "already exists".
Definition IsDuckDBUniqueConstraintViolationError (err : string) : bool :=
  strings_Contains err "Constraint Error: Data contains duplicates on indexed column(s)".
Definition not_null_pattern : string := "Constraint Error: NOT NULL constraint failed: ".
Definition IsDuckDBNotNullConstraintViolationError (err : string) : bool * string :=
  match strings_Index err not_null_pattern with
  | Some idx => (true, drop_string (idx + String.length not_null_pattern) err)
  | None => (false, EmptyString)
  end.

(** ** Substrings *)
Lemma app_cons c a b : String c a +:+ b = String c (a +:+ b).
Proof. reflexivity. Qed.

Lemma prefix_app a b : String.prefix a (a +:+ b) = true.
Proof.
  induction a as [|c a IH]; [destruct b; reflexivity|]. rewrite app_cons. cbn [String.prefix]. destruct (Ascii.ascii_dec c c); [exact IH | congruence].
Qed.

Lemma index_app pre sub post : exists n, String.index 0 sub (pre +:+ sub +:+ post) = Some n /\ (n <= String.length pre)%nat.
Proof.
  induction pre as [|c pre IH].
  - exists 0%nat. cbn [String.length]. split; [|lia]. change (EmptyString +:+ sub +:+ post) with (sub +:+ post). pose proof (prefix_app sub post) as Hp.
    destruct (sub +:+ post) as [|c s] eqn:E; cbn [String.index].
    + destruct sub; [reflexivity | discriminate].
    + rewrite Hp. reflexivity.
  - destruct IH as (n & E & Hn). rewrite app_cons. cbn [String.length String.index].
    destruct (String.prefix sub (String c (pre +:+ sub +:+ post))); [exists 0%nat; split; [reflexivity | lia]|].
    rewrite E. exists (S n). split; [reflexivity | lia].
Qed.

Lemma contains_app pre sub post : strings_Contains (pre +:+ sub +:+ post) sub = true.
Proof. unfold strings_Contains, strings_Index. destruct (index_app pre sub post) as (n & -> & _). reflexivity. Qed.
