(* ===== verification/Base64.v ===== *)
(** * Base64 (encoding/base64, as src/catalog/comment.go uses it)

    [base64.StdEncoding]: the encoder, and the decoder with its treatment of
    line ends, padding and trailing characters.  The round trip
    [StdEncoding_Decode_Encode] and the alphabet of the encoder's output
    ([StdEncoding_Encode_plain]: no quotes) are what the catalog relies on. *)

From S2P Require Import Prelude Identifier.
From Stdlib Require Import Ascii.

(** Six bits, the lowest first, as [Ascii] has its eight. *)
Record sextet : Type := Sextet { x0 : bool; x1 : bool; x2 : bool; x3 : bool; x4 : bool; x5 : bool }.

Definition sextet_index (x : sextet) : nat :=
  let '(Sextet a b c d e f) := x in nat_of_ascii (Ascii a b c d e f false false).
Definition sextet_of (n : nat) : sextet :=
  let '(Ascii a b c d e f _ _) := ascii_of_nat n in Sextet a b c d e f.

Definition alphabet : list ascii :=
  String.list_ascii_of_string "ABCDEFGHIJKLMNOPQRSTUVWXYZabcdefghijklmnopqrstuvwxyz0123456789+/".
Definition padChar : ascii := "="%char.

Definition encode_sextet (x : sextet) : ascii := nth (sextet_index x) alphabet padChar.
Definition decode_sextet (c : ascii) : option sextet :=
  match list_find (fun d => d = c) alphabet with Some (n, _) => Some (sextet_of n) | None => None end.

(** ** The encoder: three bytes, the high bits first, are four characters *)
Definition sextets (a b c : ascii) : sextet * sextet * sextet * sextet :=
  let '(Ascii a0 a1 a2 a3 a4 a5 a6 a7) := a in
  let '(Ascii b0 b1 b2 b3 b4 b5 b6 b7) := b in
  let '(Ascii c0 c1 c2 c3 c4 c5 c6 c7) := c in
  (Sextet a2 a3 a4 a5 a6 a7, Sextet b4 b5 b6 b7 a0 a1, Sextet c6 c7 b0 b1 b2 b3, Sextet c0 c1 c2 c3 c4 c5).

Fixpoint StdEncoding_EncodeToString (s : string) : string :=
  match s with
  | EmptyString => EmptyString
  | String a EmptyString =>
      let '(p, q, _, _) := sextets a zero zero in
      String (encode_sextet p) (String (encode_sextet q) (String padChar (String padChar EmptyString)))
  | String a (String b EmptyString) =>
      let '(p, q, r, _) := sextets a b zero in
      String (encode_sextet p) (String (encode_sextet q) (String (encode_sextet r) (String padChar EmptyString)))
  | String a (String b (String c s')) =>
      let '(p, q, r, t) := sextets a b c in
      String (encode_sextet p) (String (encode_sextet q) (String (encode_sextet r) (String (encode_sextet t)
        (StdEncoding_EncodeToString s'))))
  end.

(** ** The decoder *)
Definition is_newline (c : ascii) : bool := bool_decide (c = ascii_of_nat 10) || bool_decide (c = ascii_of_nat 13).
Fixpoint drop_newlines (s : string) : string :=
  match s with
  | EmptyString => EmptyString
  | String c s' => if is_newline c then drop_newlines s' else String c (drop_newlines s')
  end.

Definition octets (p q r t : sextet) : ascii * ascii * ascii :=
  let '(Sextet a2 a3 a4 a5 a6 a7) := p in
  let '(Sextet b4 b5 b6 b7 a0 a1) := q in
  let '(Sextet c6 c7 b0 b1 b2 b3) := r in
  let '(Sextet c0 c1 c2 c3 c4 c5) := t in
  (Ascii a0 a1 a2 a3 a4 a5 a6 a7, Ascii b0 b1 b2 b3 b4 b5 b6 b7, Ascii c0 c1 c2 c3 c4 c5 c6 c7).

Definition sextet0 : sextet := Sextet false false false false false false.

(** A quantum of four characters at a time.  Padding is only accepted at the
    end of the text, and the bits it hides are not looked at. *)
Fixpoint decode_quanta (s : string) : option string :=
  match s with
  | EmptyString => Some EmptyString
  | String a (String b (String c (String d s'))) =>
      p ← decode_sextet a; q ← decode_sextet b;
      if decide (c = padChar) then
        match s' with
        | EmptyString => if decide (d = padChar) then let '(x, _, _) := octets p q sextet0 sextet0 in Some (String x EmptyString) else None
        | _ => None
        end
      else
        r ← decode_sextet c;
        if decide (d = padChar) then
          match s' with
          | EmptyString => let '(x, y, _) := octets p q r sextet0 in Some (String x (String y EmptyString))
          | _ => None
          end
        else
          t ← decode_sextet d;
          rest ← decode_quanta s';
          let '(x, y, z) := octets p q r t in Some (String x (String y (String z rest)))
  | _ => None
  end.

Definition StdEncoding_Decode (s : string) : option string := decode_quanta (drop_newlines s).

(** ** The round trip *)
Lemma decode_encode_sextet x : decode_sextet (encode_sextet x) = Some x.
Proof. destruct x as [[] [] [] [] [] []]; reflexivity. Qed.

Lemma encode_sextet_not_pad x : encode_sextet x <> padChar.
Proof. destruct x as [[] [] [] [] [] []]; discriminate. Qed.

Lemma octets_sextets a b c :
  let '(p, q, r, t) := sextets a b c in octets p q r t = (a, b, c).
Proof. destruct a, b, c; reflexivity. Qed.

(** Induction three bytes at a time. *)
Lemma quantum_ind (P : string -> Prop) :
  P EmptyString -> (forall a, P (String a EmptyString)) -> (forall a b, P (String a (String b EmptyString))) ->
  (forall a b c s, P s -> P (String a (String b (String c s)))) -> forall s, P s.
Proof.
  intros H0 H1 H2 H3. fix IH 1. intros [|a [|b [|c s]]]; [exact H0 | apply H1 | apply H2 | apply H3, IH].
Qed.

Lemma decode_quanta_encode s : decode_quanta (StdEncoding_EncodeToString s) = Some s.
Proof.
  induction s as [|a|a b|a b c s IH] using quantum_ind; [reflexivity| | |].
  - pose proof (octets_sextets a zero zero) as E. cbn [StdEncoding_EncodeToString].
    destruct (sextets a zero zero) as [[[p q] r] t] eqn:Es. cbn [decode_quanta]. rewrite !decode_encode_sextet. cbn.
    destruct a. injection Es as <- <- <- <-. reflexivity.
  - cbn [StdEncoding_EncodeToString]. destruct (sextets a b zero) as [[[p q] r] t] eqn:Es. cbn [decode_quanta].
    rewrite !decode_encode_sextet. cbn. rewrite decide_False by apply encode_sextet_not_pad.
    destruct a, b. injection Es as <- <- <- <-. reflexivity.
  - cbn [StdEncoding_EncodeToString]. pose proof (octets_sextets a b c) as E.
    destruct (sextets a b c) as [[[p q] r] t]. cbn [decode_quanta]. rewrite !decode_encode_sextet. cbn.
    rewrite !decide_False by apply encode_sextet_not_pad. rewrite IH. cbn. rewrite E. reflexivity.
Qed.

(** The characters of an encoded text: letters, digits, [+], [/] and [=]. *)
Definition base64_char (c : ascii) : bool := bool_decide (c ∈ alphabet) || bool_decide (c = padChar).

Fixpoint string_forall (P : ascii -> bool) (s : string) : bool :=
  match s with EmptyString => true | String c s' => P c && string_forall P s' end.

Lemma string_forall_app P a b : string_forall P (a +:+ b) = string_forall P a && string_forall P b.
Proof. induction a as [|c a IH]; [reflexivity|]. rewrite app_String. cbn. rewrite IH. apply andb_assoc. Qed.

Lemma string_forall_impl (P Q : ascii -> bool) s :
  (forall c, P c = true -> Q c = true) -> string_forall P s = true -> string_forall Q s = true.
Proof.
  intros H. induction s as [|c s IH]; [reflexivity|]. cbn. intros [Hc Hs]%andb_true_iff. rewrite (H _ Hc), IH by exact Hs. reflexivity.
Qed.

Lemma encode_sextet_char x : base64_char (encode_sextet x) = true.
Proof. destruct x as [[] [] [] [] [] []]; reflexivity. Qed.

Lemma StdEncoding_Encode_plain s : string_forall base64_char (StdEncoding_EncodeToString s) = true.
Proof.
  induction s as [|a|a b|a b c s IH] using quantum_ind; [reflexivity| | |]; cbn [StdEncoding_EncodeToString].
  - destruct (sextets a zero zero) as [[[p q] r] t]. cbn [string_forall]. rewrite !encode_sextet_char. reflexivity.
  - destruct (sextets a b zero) as [[[p q] r] t]. cbn [string_forall]. rewrite !encode_sextet_char. reflexivity.
  - destruct (sextets a b c) as [[[p q] r] t]. cbn [string_forall]. rewrite !encode_sextet_char. exact IH.
Qed.

Lemma base64_char_newline c : base64_char c = true -> is_newline c = false.
Proof. destruct c as [[] [] [] [] [] [] [] []]; vm_compute; congruence. Qed.

Lemma drop_newlines_plain s : string_forall base64_char s = true -> drop_newlines s = s.
Proof.
  induction s as [|c s IH]; [reflexivity|]. cbn. intros [Hc Hs]%andb_true_iff.
  rewrite base64_char_newline, IH by assumption. reflexivity.
Qed.

Lemma StdEncoding_Decode_Encode s : StdEncoding_Decode (StdEncoding_EncodeToString s) = Some s.
Proof. unfold StdEncoding_Decode. rewrite drop_newlines_plain by apply StdEncoding_Encode_plain. apply decode_quanta_encode. Qed.

(** The test vectors of RFC 4648, and texts the decoder refuses. *)
Example base64_foobar : StdEncoding_EncodeToString "foobar" = "Zm9vYmFy" /\ StdEncoding_EncodeToString "fooba" = "Zm9vYmE="
  /\ StdEncoding_EncodeToString "foob" = "Zm9vYg==".
Proof. vm_compute. auto. Qed.
Example base64_refused : StdEncoding_Decode "Zm9vYg=" = None /\ StdEncoding_Decode "Zg==Zg==" = None /\ StdEncoding_Decode "Zm9*" = None.
Proof. vm_compute. auto. Qed.
