(* ===== verification/GoJson.v ===== *)
(** * JSON texts (encoding/json and unicode/utf8, as src/catalog/comment.go uses them)

    A text is read as UTF-8, character by character ([runes]); [marshal] writes
    a value the way [json.Marshal] does (HTML characters, control characters
    and invalid bytes are escaped) and [json_parse] reads one with the grammar
    and the unquoting of [json.Unmarshal].

    How a value is decoded into a Go type is the class [JsonType].  Nesting
    beyond 10000 levels, which the package refuses, is not told apart, and
    field names are compared without case for ASCII. *)

From S2P Require Import Prelude Identifier CatalogErrors.
From Stdlib Require Import Ascii DecimalString.

(** ** UTF-8 *)
Definition code (c : ascii) : Z := Z.of_N (N_of_ascii c).
Definition in_range (lo hi : Z) (c : ascii) : bool := (lo <=? code c) && (code c <=? hi).

(** A character: ASCII, a valid encoding of two to four bytes, or a byte that
    starts none ([utf8.RuneError] of width 1). *)
Inductive rune : Type := RA (c : ascii) | RM (s : string) | RB (c : ascii).

Definition continuation (c : ascii) : bool := in_range 0x80 0xBF c.
Definition utf8_2 (a b : ascii) : bool := in_range 0xC2 0xDF a && continuation b.
Definition utf8_3 (a b c : ascii) : bool :=
  in_range 0xE0 0xEF a && in_range (if code a =? 0xE0 then 0xA0 else 0x80) (if code a =? 0xED then 0x9F else 0xBF) b
  && continuation c.
Definition utf8_4 (a b c d : ascii) : bool :=
  in_range 0xF0 0xF4 a && in_range (if code a =? 0xF0 then 0x90 else 0x80) (if code a =? 0xF4 then 0x8F else 0xBF) b
  && continuation c && continuation d.

Definition str1 (c : ascii) : string := String c EmptyString.

Fixpoint runes (s : string) : list rune :=
  match s with
  | EmptyString => []
  | String a s1 =>
      if code a <? 0x80 then RA a :: runes s1
      else match s1 with
           | EmptyString => [RB a]
           | String b s2 =>
               if utf8_2 a b then RM (String a (str1 b)) :: runes s2
               else match s2 with
                    | EmptyString => RB a :: runes s1
                    | String c s3 =>
                        if utf8_3 a b c then RM (String a (String b (str1 c))) :: runes s3
                        else match s3 with
                             | EmptyString => RB a :: runes s1
                             | String d s4 =>
                                 if utf8_4 a b c d then RM (String a (String b (String c (str1 d)))) :: runes s4
                                 else RB a :: runes s1
                             end
                    end
           end
  end.

Definition rune_bytes (r : rune) : string := match r with RA c | RB c => str1 c | RM s => s end.
Fixpoint flat (l : list rune) : string :=
  match l with [] => EmptyString | r :: l' => rune_bytes r +:+ flat l' end.

Definition rune_good (r : rune) : bool :=
  match r with
  | RA c => code c <? 0x80
  | RM (String a (String b EmptyString)) => utf8_2 a b
  | RM (String a (String b (String c EmptyString))) => utf8_3 a b c
  | RM (String a (String b (String c (String d EmptyString)))) => utf8_4 a b c d
  | RM _ => false
  | RB _ => false
  end.

Definition is_bad (r : rune) : bool := match r with RB _ => true | _ => false end.
(** [utf8.ValidString]. *)
Definition ValidString (s : string) : bool := negb (existsb is_bad (runes s)).

(** [utf8.AppendRune], the replacement character for what is not one. *)
Definition chr (z : Z) : ascii := ascii_of_N (Z.to_N z).
Definition replacement : string := String (chr 0xEF) (String (chr 0xBF) (str1 (chr 0xBD))).
Definition AppendRune (r : Z) : string :=
  if r <? 0x80 then str1 (chr r)
  else if r <? 0x800 then String (chr (0xC0 + r / 64)) (str1 (chr (0x80 + r mod 64)))
  else if (0xD800 <=? r) && (r <=? 0xDFFF) then replacement
  else if r <? 0x10000 then
    String (chr (0xE0 + r / 4096)) (String (chr (0x80 + r / 64 mod 64)) (str1 (chr (0x80 + r mod 64))))
  else if r <? 0x110000 then
    String (chr (0xF0 + r / 262144)) (String (chr (0x80 + r / 4096 mod 64))
      (String (chr (0x80 + r / 64 mod 64)) (str1 (chr (0x80 + r mod 64)))))
  else replacement.

(** ** Values *)
Inductive json : Type :=
| JNull | JBool (b : bool) | JNum (literal : string) | JStr (s : string)
| JArr (l : list json) | JObj (l : list (string * json)).

(** ** Writing *)
Definition bs : ascii := chr 92.
Definition text_of (s : string) : list rune := map RA (String.list_ascii_of_string s).

Definition hex_digit (n : Z) : ascii := nth (Z.to_nat n) (String.list_ascii_of_string "0123456789abcdef") "0"%char.

(** [htmlSafeSet]. *)
Definition htmlSafe (c : ascii) : bool :=
  (0x20 <=? code c) && (code c <? 0x80)
  && negb (bool_decide (c = dq) || bool_decide (c = "&"%char) || bool_decide (c = "<"%char)
           || bool_decide (c = ">"%char) || bool_decide (c = bs)).

(** [appendString] of one character. *)
Definition quote_rune (r : rune) : list rune :=
  match r with
  | RA c =>
      if htmlSafe c then [RA c]
      else if decide (c = dq \/ c = bs) then [RA bs; RA c]
      else if code c =? 8 then [RA bs; RA "b"%char]
      else if code c =? 12 then [RA bs; RA "f"%char]
      else if code c =? 10 then [RA bs; RA "n"%char]
      else if code c =? 13 then [RA bs; RA "r"%char]
      else if code c =? 9 then [RA bs; RA "t"%char]
      else RA bs :: text_of "u00" ++ [RA (hex_digit (code c / 16)); RA (hex_digit (code c mod 16))]
  | RM s =>
      if decide (s = AppendRune 0x2028) then RA bs :: text_of "u2028"
      else if decide (s = AppendRune 0x2029) then RA bs :: text_of "u2029"
      else [RM s]
  | RB _ => RA bs :: text_of "ufffd"
  end.

Definition quote (s : string) : list rune := RA dq :: concat (map quote_rune (runes s)) ++ [RA dq].

Fixpoint join_runes (l : list (list rune)) : list rune :=
  match l with [] => [] | [x] => x | x :: l' => x ++ RA ","%char :: join_runes l' end.

Fixpoint marshal (j : json) : list rune :=
  match j with
  | JNull => text_of "null"
  | JBool b => text_of (if b then "true" else "false")
  | JNum literal => text_of literal
  | JStr s => quote s
  | JArr l => RA "["%char :: join_runes (map marshal l) ++ [RA "]"%char]
  | JObj l => RA "{"%char :: join_runes (map (fun kv => quote (fst kv) ++ RA ":"%char :: marshal (snd kv)) l) ++ [RA "}"%char]
  end.

Definition json_Marshal (j : json) : string := flat (marshal j).

(** ** Reading *)
Definition is_space (c : ascii) : bool := (code c =? 32) || (code c =? 9) || (code c =? 10) || (code c =? 13).
Fixpoint skip_space (l : list rune) : list rune :=
  match l with RA c :: l' => if is_space c then skip_space l' else l | _ => l end.

Definition simple_escape (e : ascii) : option ascii :=
  if decide (e = dq) then Some dq else if decide (e = bs) then Some bs else if decide (e = "/"%char) then Some "/"%char
  else if decide (e = "b"%char) then Some (chr 8) else if decide (e = "f"%char) then Some (chr 12)
  else if decide (e = "n"%char) then Some (chr 10) else if decide (e = "r"%char) then Some (chr 13)
  else if decide (e = "t"%char) then Some (chr 9) else None.

Definition hex_value (c : ascii) : option Z :=
  if in_range 48 57 c then Some (code c - 48)
  else if in_range 97 102 c then Some (code c - 87)
  else if in_range 65 70 c then Some (code c - 55)
  else None.
Definition getu4 (a b c d : ascii) : option Z :=
  x ← hex_value a; y ← hex_value b; z ← hex_value c; w ← hex_value d; Some (((x * 16 + y) * 16 + z) * 16 + w).

Definition is_surrogate (r : Z) : bool := (0xD800 <=? r) && (r <? 0xE000).
(** [utf16.DecodeRune], where it is not the replacement character. *)
Definition surrogate_pair (r1 r2 : Z) : option Z :=
  if (0xD800 <=? r1) && (r1 <? 0xDC00) && (0xDC00 <=? r2) && (r2 <? 0xE000)
  then Some ((r1 - 0xD800) * 1024 + (r2 - 0xDC00) + 0x10000) else None.
(** The escape after a surrogate, when the two are a pair. *)
Definition paired (r : Z) (b u c d e f : ascii) : option Z :=
  if decide (b = bs /\ u = "u"%char) then r2 ← getu4 c d e f; surrogate_pair r r2 else None.

Definition prepend (s : string) (o : option (string * list rune)) : option (string * list rune) :=
  match o with Some (t, rest) => Some (s +:+ t, rest) | None => None end.

(** The characters of a string after its opening quote. *)
Fixpoint parse_string (l : list rune) : option (string * list rune) :=
  match l with
  | [] => None
  | RA c :: l1 =>
      if decide (c = dq) then Some (EmptyString, l1)
      else if decide (c = bs) then
        match l1 with
        | RA e :: l2 =>
            match simple_escape e with
            | Some x => prepend (str1 x) (parse_string l2)
            | None =>
                if decide (e = "u"%char) then
                  match l2 with
                  | RA h1 :: RA h2 :: RA h3 :: RA h4 :: l3 =>
                      match getu4 h1 h2 h3 h4 with
                      | None => None
                      | Some r =>
                          if is_surrogate r then
                            match l3 with
                            | RA b :: RA u :: RA g1 :: RA g2 :: RA g3 :: RA g4 :: l4 =>
                                match paired r b u g1 g2 g3 g4 with
                                | Some r2 => prepend (AppendRune r2) (parse_string l4)
                                | None => prepend replacement (parse_string l3)
                                end
                            | _ => prepend replacement (parse_string l3)
                            end
                          else prepend (AppendRune r) (parse_string l3)
                      end
                  | _ => None
                  end
                else None
            end
        | _ => None
        end
      else if code c <? 32 then None
      else prepend (str1 c) (parse_string l1)
  | RM s :: l1 => prepend s (parse_string l1)
  | RB _ :: l1 => prepend replacement (parse_string l1)
  end.

Definition is_digit (c : ascii) : bool := in_range 48 57 c.
Fixpoint span_digits (l : list rune) : string * list rune :=
  match l with
  | RA c :: l' => if is_digit c then let '(s, r) := span_digits l' in (String c s, r) else (EmptyString, l)
  | _ => (EmptyString, l)
  end.

(** A number is kept as its text: sign, integer part without leading zeros,
    fraction, exponent. *)
Definition parse_fraction (l : list rune) : option (string * list rune) :=
  match l with
  | RA c :: l' =>
      if decide (c = "."%char) then
        match span_digits l' with (EmptyString, _) => None | (s, r) => Some (String "." s, r) end
      else Some (EmptyString, l)
  | _ => Some (EmptyString, l)
  end.
Definition parse_exponent (l : list rune) : option (string * list rune) :=
  match l with
  | RA c :: l' =>
      if decide (c = "e"%char \/ c = "E"%char) then
        let '(sign, l'') := match l' with
                            | RA g :: l'' => if decide (g = "+"%char \/ g = "-"%char) then (str1 g, l'') else (EmptyString, l')
                            | _ => (EmptyString, l')
                            end in
        match span_digits l'' with (EmptyString, _) => None | (s, r) => Some (String c (sign +:+ s), r) end
      else Some (EmptyString, l)
  | _ => Some (EmptyString, l)
  end.
Definition parse_integer (l : list rune) : option (string * list rune) :=
  match l with
  | RA c :: l' =>
      if decide (c = "0"%char) then Some (str1 c, l')
      else match span_digits l with (EmptyString, _) => None | (s, r) => Some (s, r) end
  | _ => None
  end.
Definition parse_number (l : list rune) : option (string * list rune) :=
  let '(sign, l0) := match l with
                     | RA c :: l' => if decide (c = "-"%char) then (str1 c, l') else (EmptyString, l)
                     | _ => (EmptyString, l)
                     end in
  '(n, l1) ← parse_integer l0; '(f, l2) ← parse_fraction l1; '(e, l3) ← parse_exponent l2;
  Some (sign +:+ n +:+ f +:+ e, l3).

Fixpoint parse_literal (word : list ascii) (l : list rune) : option (list rune) :=
  match word, l with
  | [], _ => Some l
  | c :: word', RA d :: l' => if decide (c = d) then parse_literal word' l' else None
  | _, _ => None
  end.
Definition parse_word (word : string) (j : json) (l : list rune) : option (json * list rune) :=
  l' ← parse_literal (String.list_ascii_of_string word) l; Some (j, l').

(** [n] bounds the recursion: a value of [k] characters needs at most [2 k + 1]. *)
Fixpoint parse_value (n : nat) (l : list rune) : option (json * list rune) :=
  match n with
  | O => None
  | S n =>
      match skip_space l with
      | RA c :: l' =>
          if decide (c = dq) then '(s, r) ← parse_string l'; Some (JStr s, r)
          else if decide (c = "["%char) then
            match skip_space l' with
            | RA d :: r => if decide (d = "]"%char) then Some (JArr [], r)
                           else '(es, r) ← parse_elems n l'; Some (JArr es, r)
            | _ => None
            end
          else if decide (c = "{"%char) then
            match skip_space l' with
            | RA d :: r => if decide (d = "}"%char) then Some (JObj [], r)
                           else '(ms, r) ← parse_members n l'; Some (JObj ms, r)
            | _ => None
            end
          else if decide (c = "n"%char) then parse_word "null" JNull (RA c :: l')
          else if decide (c = "t"%char) then parse_word "true" (JBool true) (RA c :: l')
          else if decide (c = "f"%char) then parse_word "false" (JBool false) (RA c :: l')
          else '(lit, r) ← parse_number (RA c :: l'); Some (JNum lit, r)
      | _ => None
      end
  end
with parse_elems (n : nat) (l : list rune) : option (list json * list rune) :=
  match n with
  | O => None
  | S n =>
      '(j, r) ← parse_value n l;
      match skip_space r with
      | RA c :: r =>
          if decide (c = "]"%char) then Some ([j], r)
          else if decide (c = ","%char) then '(js, r) ← parse_elems n r; Some (j :: js, r)
          else None
      | _ => None
      end
  end
with parse_members (n : nat) (l : list rune) : option (list (string * json) * list rune) :=
  match n with
  | O => None
  | S n =>
      match skip_space l with
      | RA c :: l' =>
          if decide (c = dq) then
            '(k, r) ← parse_string l';
            match skip_space r with
            | RA d :: r =>
                if decide (d = ":"%char) then
                  '(v, r) ← parse_value n r;
                  match skip_space r with
                  | RA e :: r =>
                      if decide (e = "}"%char) then Some ([(k, v)], r)
                      else if decide (e = ","%char) then '(ms, r) ← parse_members n r; Some ((k, v) :: ms, r)
                      else None
                  | _ => None
                  end
                else None
            | _ => None
            end
          else None
      | _ => None
      end
  end.

Definition parse_fuel (l : list rune) : nat := 2 * length l + 1.

Definition json_parse (s : string) : option json :=
  let l := runes s in
  '(j, r) ← parse_value (parse_fuel l) l;
  match skip_space r with [] => Some j | _ => None end.

(** ** Integers *)
(** [strconv.FormatInt(z, 10)]. *)
Definition FormatInt (z : Z) : string := NilZero.string_of_int (Z.to_int z).
(** [strconv.ParseInt] and [ParseUint] with base 10 and a size; [None] also for a value out of range. *)
Definition ParseInt (bits : Z) (s : string) : option Z :=
  d ← NilZero.int_of_string s; let z := Z.of_int d in if (- 2 ^ (bits - 1) <=? z) && (z <? 2 ^ (bits - 1)) then Some z else None.
Definition ParseUint (bits : Z) (s : string) : option Z :=
  d ← NilZero.uint_of_string s; let z := Z.of_uint d in if z <? 2 ^ bits then Some z else None.

(** ** Decoding into Go types

    [of_json j old]: the value a variable that holds [old] has after [j] was
    decoded into it; [None] when the package reports an error. *)
Class JsonType (T : Type) : Type := {
  json_zero : T;
  json_empty : T -> bool;  (* left out under omitempty *)
  to_json : T -> json;
  of_json : json -> T -> option T
}.

Definition of_json_string (j : json) (old : string) : option string :=
  match j with JStr s => Some s | JNull => Some old | _ => None end.
Definition of_json_bool (j : json) (old : bool) : option bool :=
  match j with JBool b => Some b | JNull => Some old | _ => None end.
Definition of_json_uint (bits : Z) (j : json) (old : Z) : option Z :=
  match j with JNum lit => ParseUint bits lit | JNull => Some old | _ => None end.
Definition of_json_int (bits : Z) (j : json) (old : Z) : option Z :=
  match j with JNum lit => ParseInt bits lit | JNull => Some old | _ => None end.

(** A slice: [None] is nil.  The elements that are already there are decoded into. *)
Fixpoint of_json_elems {T} (zero : T) (decode : json -> T -> option T) (l : list json) (old : list T) : option (list T) :=
  match l with
  | [] => Some []
  | j :: l' => t ← decode j (default zero (head old)); ts ← of_json_elems zero decode l' (tail old); Some (t :: ts)
  end.
Definition of_json_slice {T} (zero : T) (decode : json -> T -> option T) (j : json) (old : option (list T)) : option (option (list T)) :=
  match j with
  | JNull => Some None
  | JArr l => ts ← of_json_elems zero decode l (default [] old); Some (Some ts)
  | _ => None
  end.
Definition to_json_slice {T} (encode : T -> json) (o : option (list T)) : json :=
  match o with None => JNull | Some l => JArr (map encode l) end.

(** The field a key names: the one with that name, else one that differs in case. *)
Definition lower_ascii (c : ascii) : ascii := if in_range 65 90 c then chr (code c + 32) else c.
Fixpoint fold_name (s : string) : string :=
  match s with EmptyString => EmptyString | String c s' => String (lower_ascii c) (fold_name s') end.
Definition find_field (names : list string) (k : string) : option string :=
  if decide (k ∈ names) then Some k
  else match list_find (fun n => fold_name n = fold_name k) names with Some (_, n) => Some n | None => None end.

(** A struct: the members of an object in order, unknown keys skipped. *)
Definition of_json_struct {T} (names : list string) (set : string -> json -> T -> option T) (j : json) (old : T) : option T :=
  match j with
  | JNull => Some old
  | JObj members =>
      foldl (fun acc kv => t ← acc; match find_field names (fst kv) with Some n => set n (snd kv) t | None => Some t end)
        (Some old) members
  | _ => None
  end.

(** A member that is left out when [empty] holds. *)
Definition omitempty (empty : bool) (name : string) (j : json) : list (string * json) :=
  if empty then [] else [(name, j)].

Definition json_Unmarshal {T} `{JsonType T} (s : string) : option T :=
  j ← json_parse s; of_json j json_zero.

Example json_quotes : json_Marshal (JObj [("text", JStr (dquote +:+ "<" +:+ str1 (chr 10)))])
  = "{" +:+ dquote +:+ "text" +:+ dquote +:+ ":" +:+ dquote +:+ str1 bs +:+ dquote +:+ str1 bs +:+ "u003c" +:+ str1 bs +:+ "n" +:+ dquote +:+ "}".
Proof. vm_compute. reflexivity. Qed.
Example json_spaces : json_parse "[1, 2.5e3 ,null]" = Some (JArr [JNum "1"; JNum "2.5e3"; JNull]) /\ json_parse "[1,]" = None /\ json_parse "01" = None.
Proof. vm_compute. auto. Qed.

(** ** JSON texts are read back

    [json_parse_marshal]: what [json.Marshal] writes, the parser reads, for
    values of integers and strings of valid UTF-8; [parse_enough]: the length
    of the text bounds the recursion of the parser.  [JsonLaws] is what a Go
    type owes for its values to survive ([json_Unmarshal_Marshal]). *)
From Stdlib Require DecimalFacts DecimalZ.

(** ** Facts about UTF-8 *)
Lemma code_bound c : 0 <= code c < 256.
Proof. unfold code. pose proof (N_ascii_bounded c). lia. Qed.

Lemma string_strong_ind (P : string -> Prop) :
  (forall s, (forall t, (String.length t < String.length s)%nat -> P t) -> P s) -> forall s, P s.
Proof.
  intros H s. remember (String.length s) as n eqn:E. revert s E. induction n as [n IH] using lt_wf_ind.
  intros s ->. apply H. intros t Ht. exact (IH _ Ht t eq_refl).
Qed.

Lemma flat_runes : forall s, flat (runes s) = s.
Proof.
  intros s. induction s as [[|a s1] IH] using string_strong_ind; [reflexivity|]. cbn [runes].
  destruct (code a <? 0x80); [cbn [flat rune_bytes]; rewrite IH by (cbn; lia); reflexivity|].
  destruct s1 as [|b s2]; [reflexivity|].
  destruct (utf8_2 a b); [cbn [flat rune_bytes]; rewrite IH by (cbn; lia); reflexivity|].
  destruct s2 as [|c s3]; [cbn [flat rune_bytes]; rewrite IH by (cbn; lia); reflexivity|].
  destruct (utf8_3 a b c); [cbn [flat rune_bytes]; rewrite IH by (cbn; lia); reflexivity|].
  destruct s3 as [|d s4]; [cbn [flat rune_bytes]; rewrite IH by (cbn; lia); reflexivity|].
  destruct (utf8_4 a b c d); cbn [flat rune_bytes]; rewrite IH by (cbn; lia); reflexivity.
Qed.

(** Every character of a text that is not a stray byte is well formed. *)
Lemma runes_good : forall s, Forall (fun r => is_bad r = false -> rune_good r = true) (runes s).
Proof.
  intros s. induction s as [[|a s1] IH] using string_strong_ind; [constructor|]. cbn [runes].
  destruct (code a <? 0x80) eqn:Ea; [constructor; [intros _; exact Ea | apply IH; cbn; lia]|].
  destruct s1 as [|b s2]; [constructor; [discriminate | constructor]|].
  destruct (utf8_2 a b) eqn:E2; [constructor; [intros _; exact E2 | apply IH; cbn; lia]|].
  destruct s2 as [|c s3]; [constructor; [discriminate | apply IH; cbn; lia]|].
  destruct (utf8_3 a b c) eqn:E3; [constructor; [intros _; exact E3 | apply IH; cbn; lia]|].
  destruct s3 as [|d s4]; [constructor; [discriminate | apply IH; cbn; lia]|].
  destruct (utf8_4 a b c d) eqn:E4; constructor; try (apply IH; cbn; lia); [intros _; exact E4 | discriminate].
Qed.

Definition good (l : list rune) : Prop := Forall (fun r => rune_good r = true) l.

Lemma ValidString_good s : ValidString s = true -> good (runes s).
Proof.
  unfold ValidString, good. intros H%negb_true_iff. pose proof (runes_good s) as Hg.
  induction Hg as [|r l Hr _ IH]; [constructor|]. cbn in H. apply orb_false_iff in H. destruct H as [Hb Hl].
  constructor; [exact (Hr Hb) | exact (IH Hl)].
Qed.

(** The lead bytes of the encodings are disjoint. *)
Lemma utf8_2_lead a b : utf8_2 a b = true -> 0xC2 <= code a <= 0xDF.
Proof. unfold utf8_2, in_range. intros H. beqs. lia. Qed.
Lemma utf8_3_lead a b c : utf8_3 a b c = true -> 0xE0 <= code a <= 0xEF.
Proof. unfold utf8_3. intros H. apply andb_true_iff in H. destruct H as [H _]. apply andb_true_iff in H. destruct H as [H _]. unfold in_range in H. beqs. lia. Qed.
Lemma utf8_4_lead a b c d : utf8_4 a b c d = true -> 0xF0 <= code a <= 0xF4.
Proof. unfold utf8_4. intros H. do 3 (apply andb_true_iff in H; destruct H as [H _]). unfold in_range in H. beqs. lia. Qed.

Lemma not_utf8_2 a b : 0xE0 <= code a -> utf8_2 a b = false.
Proof. intros H. destruct (utf8_2 a b) eqn:E; [apply utf8_2_lead in E; lia | reflexivity]. Qed.
Lemma not_utf8_3 a b c : 0xF0 <= code a -> utf8_3 a b c = false.
Proof. intros H. destruct (utf8_3 a b c) eqn:E; [apply utf8_3_lead in E; lia | reflexivity]. Qed.
Lemma not_ascii a : 0x80 <= code a -> (code a <? 0x80) = false.
Proof. intros. apply Z.ltb_ge. lia. Qed.

Lemma runes_flat l : good l -> runes (flat l) = l.
Proof.
  induction 1 as [|r l Hr _ IH]; [reflexivity|]. cbn [flat]. destruct r as [c|s|c]; [| |discriminate].
  - cbn [rune_bytes]. unfold str1. rewrite app_String. cbn [runes]. cbn in Hr. rewrite Hr.
    change (EmptyString +:+ flat l) with (flat l). rewrite IH. reflexivity.
  - cbn [rune_bytes]. destruct s as [|a [|b [|c [|d [|]]]]]; try discriminate Hr; cbn in Hr; rewrite !app_String;
      change (EmptyString +:+ flat l) with (flat l); cbn [runes].
    + pose proof (utf8_2_lead _ _ Hr). rewrite not_ascii, Hr, IH by lia. reflexivity.
    + pose proof (utf8_3_lead _ _ _ Hr). rewrite not_ascii, not_utf8_2, Hr, IH by lia. reflexivity.
    + pose proof (utf8_4_lead _ _ _ _ Hr). rewrite not_ascii, not_utf8_2, not_utf8_3, Hr, IH by lia. reflexivity.
Qed.

(** ** Strings are read back *)
Lemma parse_string_quote_rune r k :
  rune_good r = true -> parse_string (quote_rune r ++ k) = prepend (rune_bytes r) (parse_string k).
Proof.
  destruct r as [c|s|c]; intros Hr; [| |discriminate].
  - destruct c as [[] [] [] [] [] [] [] []]; try discriminate Hr; reflexivity.
  - cbn [quote_rune]. destruct (decide (s = AppendRune 0x2028)) as [->|]; [reflexivity|].
    destruct (decide (s = AppendRune 0x2029)) as [->|]; reflexivity.
Qed.

Lemma prepend_app a b o : prepend a (prepend b o) = prepend (a +:+ b) o.
Proof. destruct o as [[t r]|]; [|reflexivity]. cbn. rewrite app_assoc_string. reflexivity. Qed.

Lemma parse_string_quotes l k :
  good l -> parse_string (concat (map quote_rune l) ++ k) = prepend (flat l) (parse_string k).
Proof.
  induction 1 as [|r l Hr _ IH].
  - cbn [map concat flat]. rewrite app_nil_l. destruct (parse_string k) as [[t r]|]; reflexivity.
  - cbn [map concat flat]. rewrite <- app_assoc, parse_string_quote_rune, IH, prepend_app by exact Hr. reflexivity.
Qed.

Lemma parse_string_quote s k :
  ValidString s = true -> parse_string (concat (map quote_rune (runes s)) ++ RA dq :: k) = Some (s, k).
Proof.
  intros H. rewrite parse_string_quotes by (apply ValidString_good, H). rewrite flat_runes.
  change (parse_string (RA dq :: k)) with (Some (EmptyString, k)). cbn. rewrite app_empty_r. reflexivity.
Qed.

Lemma quote_app s k : quote s ++ k = RA dq :: concat (map quote_rune (runes s)) ++ RA dq :: k.
Proof. unfold quote. cbn [app]. rewrite <- app_assoc. reflexivity. Qed.

(** ** Integers *)
(** What cannot continue a number. *)
Definition number_end (k : list rune) : bool :=
  match k with
  | RA c :: _ => negb (is_digit c || bool_decide (c = "."%char) || bool_decide (c = "e"%char) || bool_decide (c = "E"%char))
  | _ => true
  end.

Lemma span_digits_uint d k : number_end k = true ->
  span_digits (text_of (NilEmpty.string_of_uint d) ++ k) = (NilEmpty.string_of_uint d, k).
Proof.
  intros Hk. induction d; cbn [NilEmpty.string_of_uint text_of String.list_ascii_of_string map app];
    try (change (map RA (String.list_ascii_of_string (NilEmpty.string_of_uint d))) with (text_of (NilEmpty.string_of_uint d));
         cbn [span_digits]; rewrite IHd; reflexivity).
  destruct k as [|[c|s|c] k]; try reflexivity. cbn in Hk |- *. apply negb_true_iff, orb_false_iff in Hk. destruct Hk as [Hk _].
  apply orb_false_iff in Hk. destruct Hk as [Hk _]. apply orb_false_iff in Hk. destruct Hk as [Hk _]. rewrite Hk. reflexivity.
Qed.

Lemma number_end_fraction k : number_end k = true -> parse_fraction k = Some (EmptyString, k).
Proof.
  destruct k as [|[c|s|c] k]; try reflexivity. cbn. intros H%negb_true_iff. apply orb_false_iff in H. destruct H as [H _].
  apply orb_false_iff in H. destruct H as [H _]. apply orb_false_iff in H. destruct H as [_ H].
  apply bool_decide_eq_false in H. rewrite decide_False by exact H. reflexivity.
Qed.
Lemma number_end_exponent k : number_end k = true -> parse_exponent k = Some (EmptyString, k).
Proof.
  destruct k as [|[c|s|c] k]; try reflexivity. cbn. intros H%negb_true_iff. apply orb_false_iff in H. destruct H as [H H2].
  apply orb_false_iff in H. destruct H as [_ H1]. apply bool_decide_eq_false in H1, H2. rewrite decide_False by tauto. reflexivity.
Qed.

Lemma unorm_head d : Decimal.unorm d = d -> d = Decimal.D0 Decimal.Nil \/
  (exists c s, NilEmpty.string_of_uint d = String c s /\ c <> "0"%char /\ c <> "-"%char /\ is_digit c = true).
Proof.
  intros Hd. destruct d as [|d|d|d|d|d|d|d|d|d|d]; [discriminate Hd| |right; do 2 eexists; repeat split; discriminate..].
  left. rewrite DecimalFacts.unorm_D0 in Hd. destruct (Decimal.nzhead d) eqn:E.
  1: { apply DecimalFacts.unorm_0 in E. rewrite E in Hd. symmetry. exact Hd. }
  all: exfalso; apply (DecimalFacts.nzhead_nonzero d d); rewrite <- (DecimalFacts.unorm_nzhead d); [exact Hd | rewrite E; discriminate].
Qed.

Lemma parse_integer_uint d k : Decimal.unorm d = d -> number_end k = true ->
  parse_integer (text_of (NilEmpty.string_of_uint d) ++ k) = Some (NilEmpty.string_of_uint d, k).
Proof.
  intros Hd Hk. destruct (unorm_head d Hd) as [E|(c & s & E & Hc & _ & Hdig)].
  - rewrite E. reflexivity.
  - pose proof (span_digits_uint d k Hk) as Hs. rewrite E in *. cbn [text_of String.list_ascii_of_string map app] in *.
    unfold parse_integer. rewrite decide_False by exact Hc. rewrite Hs. reflexivity.
Qed.

(** An integer is written in normal form: a sign, and digits without leading zeros. *)
Lemma FormatInt_norm z : exists d, Decimal.unorm d = d /\
  (FormatInt z = NilEmpty.string_of_uint d \/ FormatInt z = String "-" (NilEmpty.string_of_uint d)).
Proof.
  unfold FormatInt. pose proof (DecimalZ.to_of (Z.to_int z)) as Hn. rewrite DecimalZ.of_to in Hn.
  destruct (Z.to_int z) as [d|d]; cbn in Hn.
  - exists d. injection Hn as Hn. split; [auto|]. left. cbn. destruct d; try reflexivity. discriminate Hn.
  - exists d. destruct (Decimal.nzhead d) eqn:E; [discriminate Hn|..]; injection Hn as Hn; rewrite Hn in *;
      (split; [rewrite DecimalFacts.unorm_nzhead by (rewrite E; discriminate); congruence|]);
      right; destruct d; try reflexivity; discriminate.
Qed.

Lemma number_rest sign n k : number_end k = true ->
  ('(f, l2) ← parse_fraction k; '(e, l3) ← parse_exponent l2; Some (sign +:+ n +:+ f +:+ e, l3)) = Some (sign +:+ n, k).
Proof.
  intros Hk. rewrite number_end_fraction by exact Hk. cbn -[parse_exponent]. rewrite number_end_exponent by exact Hk.
  cbn. rewrite app_empty_r. reflexivity.
Qed.

Lemma uint_head d : Decimal.unorm d = d -> exists c s, NilEmpty.string_of_uint d = String c s /\ c <> "-"%char.
Proof.
  intros Hd. destruct (unorm_head d Hd) as [->|(c & s & E & _ & Hm & _)]; [|eauto]. do 2 eexists. split; [reflexivity | discriminate].
Qed.

Lemma parse_number_FormatInt z k : number_end k = true -> parse_number (text_of (FormatInt z) ++ k) = Some (FormatInt z, k).
Proof.
  intros Hk. destruct (FormatInt_norm z) as (d & Hd & [->| ->]); unfold parse_number.
  - pose proof (parse_integer_uint d k Hd Hk) as Hi. destruct (uint_head d Hd) as (c & s & E & Hm).
    rewrite E in *. cbn [text_of String.list_ascii_of_string map app] in *. rewrite decide_False by exact Hm.
    rewrite Hi. cbn [mbind option_bind]. apply (number_rest EmptyString), Hk.
  - cbn [text_of String.list_ascii_of_string map app]. rewrite decide_True by reflexivity.
    change (map RA (String.list_ascii_of_string (NilEmpty.string_of_uint d))) with (text_of (NilEmpty.string_of_uint d)).
    rewrite parse_integer_uint by assumption. cbn [mbind option_bind]. apply (number_rest (str1 "-"%char)), Hk.
Qed.

Lemma FormatInt_int z : NilZero.int_of_string (FormatInt z) = Some (Z.to_int z).
Proof.
  unfold FormatInt. apply NilZero.isi; intros E; pose proof (DecimalZ.to_of (Z.to_int z)) as Hn;
    rewrite DecimalZ.of_to, E in Hn; discriminate Hn.
Qed.

Lemma ParseInt_FormatInt bits z : - 2 ^ (bits - 1) <= z < 2 ^ (bits - 1) -> ParseInt bits (FormatInt z) = Some z.
Proof.
  intros Hz. unfold ParseInt. rewrite FormatInt_int. cbn -[Z.pow]. rewrite DecimalZ.of_to.
  destruct (Z.leb_spec (- 2 ^ (bits - 1)) z), (Z.ltb_spec z (2 ^ (bits - 1))); try lia. reflexivity.
Qed.

Lemma ParseUint_FormatInt bits z : 0 <= z < 2 ^ bits -> ParseUint bits (FormatInt z) = Some z.
Proof.
  intros Hz. unfold ParseUint. pose proof (FormatInt_int z) as Hi. unfold FormatInt in *.
  pose proof (DecimalZ.of_to z) as Hz'. destruct (Z.to_int z) as [d|d] eqn:E.
  - cbn [NilZero.string_of_int] in *. assert (Hd : NilZero.uint_of_string (NilZero.string_of_uint d) = Some d).
    { apply NilZero.usu. intros ->. pose proof (DecimalZ.to_of (Z.to_int z)) as Hn. rewrite DecimalZ.of_to, E in Hn. discriminate Hn. }
    rewrite Hd. cbn -[Z.pow]. cbn in Hz'. rewrite Hz'. destruct (Z.ltb_spec z (2 ^ bits)); [reflexivity | lia].
  - exfalso. cbn in Hz'. destruct z as [|p|p]; [discriminate E | discriminate E | lia].
Qed.

(** ** Values are read back *)
(** Integers, and strings of valid UTF-8. *)
Inductive json_ok : json -> Prop :=
| ok_null : json_ok JNull
| ok_bool b : json_ok (JBool b)
| ok_int z : json_ok (JNum (FormatInt z))
| ok_str s : ValidString s = true -> json_ok (JStr s)
| ok_arr l : Forall json_ok l -> json_ok (JArr l)
| ok_obj l : Forall (fun kv => ValidString (fst kv) = true /\ json_ok (snd kv)) l -> json_ok (JObj l).
#[export] Hint Constructors json_ok : go.

Section JsonInd.
Variable P : json -> Prop.
Hypothesis Hnull : P JNull.
Hypothesis Hbool : forall b, P (JBool b).
Hypothesis Hint : forall z, P (JNum (FormatInt z)).
Hypothesis Hstr : forall s, ValidString s = true -> P (JStr s).
Hypothesis Harr : forall l, Forall json_ok l -> Forall P l -> P (JArr l).
Hypothesis Hobj : forall l, Forall (fun kv => ValidString (fst kv) = true /\ json_ok (snd kv)) l ->
  Forall (fun kv => P (snd kv)) l -> P (JObj l).

Lemma json_ok_rect : forall j, json_ok j -> P j.
Proof.
  fix IH 2. intros j [|b|z|s Hs|l Hl|l Hl]; [exact Hnull | apply Hbool | apply Hint | apply Hstr, Hs | |].
  - apply Harr; [exact Hl|]. induction Hl as [|j' l' Hj _ IHl]; constructor; [apply IH, Hj | exact IHl].
  - apply Hobj; [exact Hl|]. induction Hl as [|kv l' [_ Hj] _ IHl]; constructor; [apply IH, Hj | exact IHl].
Qed.
End JsonInd.

(** The first character of a value. *)
Definition starts_number (c : ascii) : bool := is_digit c || bool_decide (c = "-"%char).
Definition starts_value (c : ascii) : bool :=
  starts_number c || bool_decide (c = dq) || bool_decide (c = "["%char) || bool_decide (c = "{"%char)
  || bool_decide (c = "n"%char) || bool_decide (c = "t"%char) || bool_decide (c = "f"%char).

Lemma FormatInt_head z : exists c s, FormatInt z = String c s /\ starts_number c = true.
Proof.
  destruct (FormatInt_norm z) as (d & Hd & [->| ->]); [|do 2 eexists; split; reflexivity].
  destruct (unorm_head d Hd) as [->|(c & s & -> & _ & _ & Hc)]; [do 2 eexists; split; reflexivity|].
  exists c, s. split; [reflexivity|]. unfold starts_number. rewrite Hc. reflexivity.
Qed.

Lemma starts_value_plain c : starts_value c = true -> is_space c = false /\ c <> "]"%char /\ c <> "}"%char /\ (code c <? 0x80) = true.
Proof. destruct c as [[] [] [] [] [] [] [] []]; vm_compute; intros H; try discriminate H; repeat split; discriminate. Qed.

Lemma starts_number_dispatch c : starts_number c = true ->
  c <> dq /\ c <> "["%char /\ c <> "{"%char /\ c <> "n"%char /\ c <> "t"%char /\ c <> "f"%char /\ is_space c = false.
Proof. destruct c as [[] [] [] [] [] [] [] []]; vm_compute; intros H; try discriminate H; repeat split; discriminate. Qed.

Lemma marshal_head j : json_ok j -> exists c l, marshal j = RA c :: l /\ starts_value c = true.
Proof.
  intros [|[]|z|s Hs|l Hl|l Hl]; try (do 2 eexists; split; reflexivity).
  destruct (FormatInt_head z) as (c & s & E & Hc). cbn [marshal]. rewrite E. do 2 eexists. split; [reflexivity|].
  unfold starts_value. rewrite Hc. reflexivity.
Qed.

Lemma skip_space_value c l : starts_value c = true -> skip_space (RA c :: l) = RA c :: l.
Proof. intros (E & _)%starts_value_plain. cbn. rewrite E. reflexivity. Qed.

Definition reads (j : json) : Prop := forall n k,
  (2 * length (marshal j) <= n)%nat -> number_end k = true -> parse_value n (marshal j ++ k) = Some (j, k).

Lemma reads_int z : reads (JNum (FormatInt z)).
Proof.
  intros [|n] k Hn Hk; cbn [marshal] in *; pose proof (parse_number_FormatInt z k Hk) as Hp;
    destruct (FormatInt_head z) as (c & s & E & Hc); rewrite E in *; cbn [text_of String.list_ascii_of_string map app] in *.
  - cbn in Hn. lia.
  - destruct (starts_number_dispatch c Hc) as (H1 & H2 & H3 & H4 & H5 & H6 & H7). cbn [parse_value skip_space]. rewrite H7.
    rewrite !decide_False by assumption. rewrite Hp. reflexivity.
Qed.

Lemma reads_str s : ValidString s = true -> reads (JStr s).
Proof.
  intros Hs [|n] k Hn Hk; cbn [marshal] in *; [cbn in Hn; lia|]. rewrite quote_app.
  cbn [parse_value skip_space]. change (is_space dq) with false. cbn iota. rewrite decide_True by reflexivity.
  rewrite parse_string_quote by exact Hs. reflexivity.
Qed.

Lemma elems_read l : Forall json_ok l -> Forall reads l -> l <> [] -> forall n k,
  (2 * length (join_runes (map marshal l)) + 1 <= n)%nat ->
  parse_elems n (join_runes (map marshal l) ++ RA "]"%char :: k) = Some (l, k).
Proof.
  intros Hok Hr. induction Hr as [|j l Hj Hr IH]; [contradiction|]. intros _ [|n] k Hn; [lia|].
  inversion_clear Hok as [|? ? Hj' Hok']. destruct l as [|j2 l].
  - cbn [map join_runes] in *. cbn [parse_elems]. rewrite Hj by (reflexivity || lia). reflexivity.
  - change (join_runes (map marshal (j :: j2 :: l))) with (marshal j ++ RA ","%char :: join_runes (map marshal (j2 :: l))) in *.
    rewrite <- app_assoc. cbn [app]. rewrite length_app in Hn. cbn [length] in Hn. cbn [parse_elems].
    rewrite Hj by (reflexivity || lia). cbn [mbind option_bind skip_space]. change (is_space ","%char) with false. cbn iota.
    rewrite decide_False by discriminate. rewrite decide_True by reflexivity. rewrite IH by (assumption || discriminate || lia). reflexivity.
Qed.

Definition member_runes (kv : string * json) : list rune := quote (fst kv) ++ RA ":"%char :: marshal (snd kv).

Lemma member_read k v n r : ValidString k = true -> reads v -> number_end r = true ->
  (2 * length (marshal v) <= n)%nat ->
  parse_members (S n) (member_runes (k, v) ++ r) =
  match skip_space r with
  | RA e :: r =>
      if decide (e = "}"%char) then Some ([(k, v)], r)
      else if decide (e = ","%char) then '(ms, r) ← parse_members n r; Some ((k, v) :: ms, r)
      else None
  | _ => None
  end.
Proof.
  intros Hk Hv Hr Hn. unfold member_runes. rewrite <- app_assoc. cbn [fst snd app]. rewrite quote_app.
  cbn [parse_members skip_space]. change (is_space dq) with false. cbn iota. rewrite decide_True by reflexivity.
  rewrite parse_string_quote by exact Hk. cbn [mbind option_bind skip_space]. change (is_space ":"%char) with false. cbn iota.
  rewrite decide_True by reflexivity. rewrite Hv by assumption. reflexivity.
Qed.

Lemma member_length kv : (length (marshal (snd kv)) + 3 <= length (member_runes kv))%nat.
Proof. unfold member_runes, quote. rewrite length_app. cbn [length]. rewrite !length_app. cbn [length]. lia. Qed.

Lemma members_read l : Forall (fun kv => ValidString (fst kv) = true /\ json_ok (snd kv)) l ->
  Forall (fun kv => reads (snd kv)) l -> l <> [] -> forall n k,
  (2 * length (join_runes (map member_runes l)) + 1 <= n)%nat ->
  parse_members n (join_runes (map member_runes l) ++ RA "}"%char :: k) = Some (l, k).
Proof.
  intros Hok Hr. induction Hr as [|[key v] l Hj Hr IH]; [contradiction|]. intros _ [|n] k Hn; [lia|].
  inversion_clear Hok as [|? ? Hkv Hok']. destruct Hkv as [Hk Hv]. cbn [fst snd] in *. pose proof (member_length (key, v)) as Hlen.
  cbn [snd] in Hlen. destruct l as [|kv2 l].
  - cbn [map join_runes] in *. rewrite member_read by (assumption || reflexivity || lia). reflexivity.
  - change (join_runes (map member_runes ((key, v) :: kv2 :: l)))
      with (member_runes (key, v) ++ RA ","%char :: join_runes (map member_runes (kv2 :: l))) in *.
    rewrite <- app_assoc. rewrite length_app in Hn. cbn [length] in Hn. cbn [app].
    rewrite member_read by (assumption || reflexivity || lia). cbn [skip_space]. change (is_space ","%char) with false. cbn iota.
    rewrite decide_False by discriminate. rewrite decide_True by reflexivity. rewrite IH by (assumption || discriminate || lia). reflexivity.
Qed.

Lemma join_head {A} (f : A -> list rune) a l c r : f a = RA c :: r -> exists r', join_runes (map f (a :: l)) = RA c :: r'.
Proof. intros E. destruct l; cbn [map join_runes]; rewrite E; eexists; reflexivity. Qed.

Lemma reads_arr l : Forall json_ok l -> Forall reads l -> reads (JArr l).
Proof.
  intros Hok Hr [|n] k Hn Hk; cbn [marshal] in *; [cbn in Hn; lia|]. cbn [length] in Hn. rewrite length_app in Hn. cbn [length] in Hn.
  cbn [app]. rewrite <- app_assoc. cbn [app]. cbn [parse_value skip_space]. change (is_space "["%char) with false. cbn iota.
  rewrite decide_False by discriminate. rewrite decide_True by reflexivity. destruct l as [|j l]; [reflexivity|].
  inversion Hok as [|? ? Hj _]; subst. destruct (marshal_head j Hj) as (c & r & E & Hc). destruct (join_head marshal j l c r E) as [r' E'].
  pose proof (elems_read _ Hok Hr ltac:(discriminate) n k ltac:(lia)) as He. rewrite E' in *. cbn [app] in *.
  destruct (starts_value_plain c Hc) as (_ & Hb & _). rewrite skip_space_value by exact Hc. rewrite decide_False by exact Hb.
  rewrite He. reflexivity.
Qed.

Lemma reads_obj l : Forall (fun kv => ValidString (fst kv) = true /\ json_ok (snd kv)) l ->
  Forall (fun kv => reads (snd kv)) l -> reads (JObj l).
Proof.
  intros Hok Hr [|n] k Hn Hk; cbn [marshal] in *; [cbn in Hn; lia|]. cbn [length] in Hn. rewrite length_app in Hn. cbn [length] in Hn.
  change (map (fun kv => quote (fst kv) ++ RA ":"%char :: marshal (snd kv)) l) with (map member_runes l) in *.
  cbn [app]. rewrite <- app_assoc. cbn [app]. cbn [parse_value skip_space]. change (is_space "{"%char) with false. cbn iota.
  rewrite !decide_False by discriminate. rewrite decide_True by reflexivity. destruct l as [|kv l]; [reflexivity|].
  destruct (join_head member_runes kv l dq _ ltac:(reflexivity)) as [r' E'].
  pose proof (members_read _ Hok Hr ltac:(discriminate) n k ltac:(lia)) as He. rewrite E' in *. cbn [app] in *.
  cbn [skip_space]. change (is_space dq) with false. cbn iota. rewrite decide_False by discriminate. rewrite He. reflexivity.
Qed.

Lemma parse_value_marshal j : json_ok j -> reads j.
Proof.
  induction 1 as [|[]|z|s Hs|l Hl IH|l Hl IH] using json_ok_rect.
  1-3: intros [|n] k Hn Hk; [cbn in Hn; lia | reflexivity].
  - apply reads_int.
  - apply reads_str, Hs.
  - apply reads_arr; assumption.
  - apply reads_obj; assumption.
Qed.

(** What is written is well-formed UTF-8. *)
Lemma good_app a b : good a -> good b -> good (a ++ b).
Proof. apply Forall_app_2. Qed.
Lemma good_cons c l : (code c <? 0x80) = true -> good l -> good (RA c :: l).
Proof. intros. constructor; assumption. Qed.
#[export] Hint Resolve good_app good_cons : go.

Lemma quote_rune_good r : (is_bad r = false -> rune_good r = true) -> good (quote_rune r).
Proof.
  destruct r as [c|s|c]; intros Hr; [specialize (Hr eq_refl) | specialize (Hr eq_refl) | repeat constructor].
  - destruct c as [[] [] [] [] [] [] [] []]; try discriminate Hr; repeat constructor.
  - cbn [quote_rune]. destruct (decide _); [repeat constructor|]. destruct (decide _); repeat constructor. exact Hr.
Qed.

Lemma quote_good s : good (quote s).
Proof.
  apply good_cons; [reflexivity|]. apply good_app; [|repeat constructor]. pose proof (runes_good s) as H.
  induction H as [|r l Hr _ IH]; [constructor|]. apply good_app; [apply quote_rune_good, Hr | exact IH].
Qed.

Lemma uint_good d : good (text_of (NilEmpty.string_of_uint d)).
Proof. induction d; [constructor|..]; (constructor; [reflexivity | exact IHd]). Qed.

Lemma FormatInt_good z : good (text_of (FormatInt z)).
Proof. destruct (FormatInt_norm z) as (d & _ & [->| ->]); [|apply good_cons; [reflexivity|]]; apply uint_good. Qed.

Lemma join_good l : Forall good l -> good (join_runes l).
Proof.
  induction 1 as [|x l Hx Hl IH]; [constructor|]. destruct l; [exact Hx|].
  change (good (x ++ RA ","%char :: join_runes (l :: l0))). auto with go.
Qed.

Lemma marshal_good j : json_ok j -> good (marshal j).
Proof.
  induction 1 as [|[]|z|s Hs|l Hl IH|l Hl IH] using json_ok_rect; [repeat constructor..| | | |].
  - apply FormatInt_good.
  - apply quote_good.
  - apply good_cons; [reflexivity|]. apply good_app; [|repeat constructor]. apply join_good, Forall_map. exact IH.
  - apply good_cons; [reflexivity|]. apply good_app; [|repeat constructor]. apply join_good, Forall_map. eapply Forall_impl; [exact IH|].
    intros kv Hkv. apply good_app; [apply quote_good|]. apply good_cons; [reflexivity | exact Hkv].
Qed.

Theorem json_parse_marshal j : json_ok j -> json_parse (json_Marshal j) = Some j.
Proof.
  intros Hj. unfold json_parse, json_Marshal. rewrite runes_flat by (apply marshal_good, Hj).
  pose proof (parse_value_marshal j Hj (parse_fuel (marshal j)) []) as H. rewrite app_nil_r in H.
  rewrite H by (reflexivity || unfold parse_fuel; lia). reflexivity.
Qed.

(** The length of the text bounds the recursion: more fuel than [parse_fuel]
    changes nothing. *)
Lemma skip_space_length l : (length (skip_space l) <= length l)%nat.
Proof. induction l as [|[c|s|c] l IH]; cbn; try lia. destruct (is_space c); cbn; lia. Qed.

Lemma prepend_inv a o s r : prepend a o = Some (s, r) -> exists t, o = Some (t, r).
Proof. destruct o as [[t r']|]; cbn; [intros [= _ <-]; eauto | discriminate]. Qed.

Lemma list_length_ind {A} (P : list A -> Prop) :
  (forall l, (forall t, (length t < length l)%nat -> P t) -> P l) -> forall l, P l.
Proof.
  intros H l. remember (length l) as n eqn:E. revert l E. induction n as [n IH] using lt_wf_ind.
  intros l ->. apply H. intros t Ht. exact (IH _ Ht t eq_refl).
Qed.

Lemma parse_string_length : forall l s r, parse_string l = Some (s, r) -> (length r < length l)%nat.
Proof.
  intros l. induction l as [l IH] using list_length_ind.
  assert (K : forall a l' s r, (length l' < length l)%nat -> prepend a (parse_string l') = Some (s, r) -> (length r < length l)%nat).
  { intros a l' s r Hl Hp. apply prepend_inv in Hp. destruct Hp as [t Hp]. apply IH in Hp; lia. }
  intros s r H. destruct l as [|[c|m|c] l1]; [discriminate| | |];
    [cbn [parse_string] in H | eapply K; [|exact H]; cbn; lia..].
  destruct (decide (c = dq)); [injection H as _ <-; cbn; lia|].
  destruct (decide (c = bs)); [|destruct (code c <? 32); [discriminate | eapply K; [|exact H]; cbn; lia]].
  destruct l1 as [|[x|?|?] l2]; try discriminate H.
  destruct (simple_escape x); [eapply K; [|exact H]; cbn; lia|]. destruct (decide (x = "u"%char)); [|discriminate].
  destruct l2 as [|[h1|?|?] [|[h2|?|?] [|[h3|?|?] [|[h4|?|?] l3]]]]; try discriminate H.
  destruct (getu4 h1 h2 h3 h4) as [z|]; [|discriminate]. destruct (is_surrogate z); [|eapply K; [|exact H]; cbn; lia].
  destruct l3 as [|[b|?|?] [|[u|?|?] [|[g1|?|?] [|[g2|?|?] [|[g3|?|?] [|[g4|?|?] l4]]]]]]; try (eapply K; [|exact H]; cbn; lia).
  destruct (paired z b u g1 g2 g3 g4); (eapply K; [|exact H]; cbn; lia).
Qed.

Lemma span_digits_length l s r : span_digits l = (s, r) -> (length r + String.length s = length l)%nat.
Proof.
  revert s r. induction l as [|[c|m|c] l IH]; cbn; intros s r H; try (injection H as <- <-; cbn; lia).
  destruct (is_digit c); [|injection H as <- <-; cbn; lia]. destruct (span_digits l) as [s' r'] eqn:E.
  injection H as <- <-. specialize (IH _ _ eq_refl). cbn. lia.
Qed.

Lemma parse_number_length l s r : parse_number l = Some (s, r) -> (length r < length l)%nat.
Proof.
  unfold parse_number. intros H.
  assert (Hi : forall l s r, parse_integer l = Some (s, r) -> (length r < length l)%nat).
  { clear. intros [|[c|m|c] l] s r H; try discriminate H. unfold parse_integer in H. destruct (decide _); [injection H as _ <-; cbn; lia|].
    destruct (span_digits (RA c :: l)) as [[|d s'] r'] eqn:E; [discriminate|]. apply span_digits_length in E. injection H as _ <-. cbn in *. lia. }
  assert (Hf : forall l s r, parse_fraction l = Some (s, r) -> (length r <= length l)%nat).
  { clear. intros [|[c|m|c] l] s r H; try (injection H as _ <-; lia). unfold parse_fraction in H. destruct (decide _); [|injection H as _ <-; lia].
    destruct (span_digits l) as [[|d s'] r'] eqn:E; [discriminate|]. apply span_digits_length in E. injection H as _ <-. cbn in *. lia. }
  assert (He : forall l s r, parse_exponent l = Some (s, r) -> (length r <= length l)%nat).
  { clear. intros [|[c|m|c] l] s r H; try (injection H as _ <-; lia). unfold parse_exponent in H. destruct (decide _); [|injection H as _ <-; lia].
    match type of H with (let '(_, _) := ?p in _) = _ => destruct p as [sign l''] eqn:Es end.
    destruct (span_digits l'') as [[|d s'] r'] eqn:E; [discriminate|]. apply span_digits_length in E. injection H as _ <-.
    assert (length l'' <= length l)%nat; [|cbn in *; lia].
    destruct l as [|[g|?|?] l]; try (injection Es as _ <-; cbn; lia). destruct (decide _); injection Es as _ <-; cbn; lia. }
  match type of H with (let '(_, _) := ?p in _) = _ => destruct p as [sign l0] eqn:Es end.
  assert (length l0 <= length l)%nat.
  { destruct l as [|[c|?|?] l]; try (injection Es as _ <-; lia). destruct (decide _); injection Es as _ <-; cbn; lia. }
  destruct (parse_integer l0) as [[n l1]|] eqn:E1; [|discriminate]. cbn -[parse_fraction parse_exponent] in H.
  destruct (parse_fraction l1) as [[f l2]|] eqn:E2; [|discriminate]. cbn -[parse_exponent] in H.
  destruct (parse_exponent l2) as [[e l3]|] eqn:E3; [|discriminate]. injection H as _ <-.
  apply Hi in E1. apply Hf in E2. apply He in E3. lia.
Qed.

Lemma parse_word_length w j j' l r : parse_word w j l = Some (j', r) -> (length r + length (String.list_ascii_of_string w) = length l)%nat.
Proof.
  unfold parse_word. intros H. destruct (parse_literal (String.list_ascii_of_string w) l) as [l'|] eqn:E; [|discriminate].
  injection H as _ <-. revert l l' E. induction (String.list_ascii_of_string w) as [|c w' IH]; intros l l' E; cbn in E.
  - injection E as <-. cbn. lia.
  - destruct l as [|[d|?|?] l]; try discriminate E. destruct (decide _); [|discriminate]. apply IH in E. cbn. lia.
Qed.

Lemma parse_length n :
  (forall l j r, parse_value n l = Some (j, r) -> (length r < length l)%nat) /\
  (forall l js r, parse_elems n l = Some (js, r) -> (length r < length l)%nat) /\
  (forall l ms r, parse_members n l = Some (ms, r) -> (length r < length l)%nat).
Proof.
  induction n as [|n (IHv & IHe & IHm)]; [repeat split; discriminate|]. repeat split; intros l x r H; cbn [parse_value parse_elems parse_members] in H.
  - pose proof (skip_space_length l) as Hl. destruct (skip_space l) as [|[c|?|?] l'] eqn:El; try discriminate H. cbn [length] in Hl.
    destruct (decide (c = dq)).
    { destruct (parse_string l') as [[s r']|] eqn:E; [|discriminate]. injection H as _ <-. apply parse_string_length in E. lia. }
    destruct (decide (c = "["%char)).
    { pose proof (skip_space_length l') as Hl'. destruct (skip_space l') as [|[d|?|?] r']; try discriminate H. cbn [length] in Hl'.
      destruct (decide _); [injection H as _ <-; lia|]. destruct (parse_elems n l') as [[es r2]|] eqn:E; [|discriminate].
      injection H as _ <-. apply IHe in E. lia. }
    destruct (decide (c = "{"%char)).
    { pose proof (skip_space_length l') as Hl'. destruct (skip_space l') as [|[d|?|?] r']; try discriminate H. cbn [length] in Hl'.
      destruct (decide _); [injection H as _ <-; lia|]. destruct (parse_members n l') as [[es r2]|] eqn:E; [|discriminate].
      injection H as _ <-. apply IHm in E. lia. }
    do 3 (destruct (decide _); [apply parse_word_length in H; cbn [length String.list_ascii_of_string] in H; lia|]).
    destruct (parse_number (RA c :: l')) as [[s r']|] eqn:E; [|discriminate]. injection H as _ <-. apply parse_number_length in E. cbn [length] in E. lia.
  - destruct (parse_value n l) as [[j r1]|] eqn:E; [|discriminate]. apply IHv in E. cbn -[skip_space] in H.
    pose proof (skip_space_length r1) as Hl. destruct (skip_space r1) as [|[c|?|?] r2]; try discriminate H. cbn [length] in Hl.
    destruct (decide _); [injection H as _ <-; lia|]. destruct (decide _); [|discriminate].
    destruct (parse_elems n r2) as [[js r3]|] eqn:E2; [|discriminate]. injection H as _ <-. apply IHe in E2. lia.
  - pose proof (skip_space_length l) as Hl. destruct (skip_space l) as [|[c|?|?] l']; try discriminate H. cbn [length] in Hl.
    destruct (decide _); [|discriminate]. destruct (parse_string l') as [[k r1]|] eqn:E; [|discriminate]. apply parse_string_length in E.
    cbn -[skip_space] in H. pose proof (skip_space_length r1) as Hl1. destruct (skip_space r1) as [|[d|?|?] r2]; try discriminate H. cbn [length] in Hl1.
    destruct (decide _); [|discriminate]. destruct (parse_value n r2) as [[v r3]|] eqn:E2; [|discriminate]. apply IHv in E2.
    cbn -[skip_space] in H. pose proof (skip_space_length r3) as Hl3. destruct (skip_space r3) as [|[e'|?|?] r4]; try discriminate H. cbn [length] in Hl3.
    destruct (decide _); [injection H as _ <-; lia|]. destruct (decide _); [|discriminate].
    destruct (parse_members n r4) as [[ms r5]|] eqn:E3; [|discriminate]. injection H as _ <-. apply IHm in E3. lia.
Qed.

Lemma parse_enough n : forall m,
  (forall l, (parse_fuel l <= n)%nat -> (parse_fuel l <= m)%nat -> parse_value n l = parse_value m l) /\
  (forall l, (parse_fuel l < n)%nat -> (parse_fuel l < m)%nat -> parse_elems n l = parse_elems m l) /\
  (forall l, (parse_fuel l < n)%nat -> (parse_fuel l < m)%nat -> parse_members n l = parse_members m l).
Proof.
  unfold parse_fuel. induction n as [|n IH]; intros m; [repeat split; intros; lia|].
  destruct m as [|m]; [repeat split; intros; lia|]. destruct (IH m) as (IHv & IHe & IHm). destruct (parse_length m) as (Lv & _ & _).
  repeat split; intros l Hn Hm; cbn [parse_value parse_elems parse_members].
  - pose proof (skip_space_length l) as Hl. destruct (skip_space l) as [|[c|?|?] l']; try reflexivity. cbn [length] in Hl.
    rewrite IHe, IHm by lia. reflexivity.
  - rewrite IHv by lia. destruct (parse_value m l) as [[j r]|] eqn:E; [|reflexivity]. apply Lv in E. cbn -[skip_space].
    pose proof (skip_space_length r) as Hl. destruct (skip_space r) as [|[c|?|?] r']; try reflexivity. cbn [length] in Hl.
    rewrite IHe by lia. reflexivity.
  - pose proof (skip_space_length l) as Hl. destruct (skip_space l) as [|[c|?|?] l']; try reflexivity. cbn [length] in Hl.
    destruct (decide _); [|reflexivity]. destruct (parse_string l') as [[k r1]|] eqn:E; [|reflexivity]. apply parse_string_length in E.
    cbn -[skip_space]. pose proof (skip_space_length r1) as Hl1. destruct (skip_space r1) as [|[d|?|?] r2]; try reflexivity. cbn [length] in Hl1.
    destruct (decide _); [|reflexivity]. rewrite IHv by lia. destruct (parse_value m r2) as [[v r3]|] eqn:E2; [|reflexivity]. apply Lv in E2.
    cbn -[skip_space]. pose proof (skip_space_length r3) as Hl3. destruct (skip_space r3) as [|[e'|?|?] r4]; try reflexivity. cbn [length] in Hl3.
    rewrite IHm by lia. reflexivity.
Qed.

(** ** Go types *)
(** What the round trip of a type needs: [json_valid] values have integers
    within their width and strings of valid UTF-8. *)
Class JsonLaws (T : Type) `{JsonType T} : Type := {
  json_valid : T -> Prop;
  to_json_ok : forall t, json_valid t -> json_ok (to_json t);
  of_to_json : forall t, json_valid t -> of_json (to_json t) json_zero = Some t;
  json_empty_zero : forall t, json_valid t -> json_empty t = true -> t = json_zero
}.

Theorem json_Unmarshal_Marshal {T} `{JsonLaws T} (t : T) :
  json_valid t -> json_Unmarshal (json_Marshal (to_json t)) = Some t.
Proof.
  intros Ht. unfold json_Unmarshal. rewrite json_parse_marshal by (apply to_json_ok, Ht). cbn. apply of_to_json, Ht.
Qed.

Lemma of_json_elems_map {T} (zero : T) encode decode l :
  Forall (fun t => decode (encode t) zero = Some t) l -> of_json_elems zero decode (map encode l) [] = Some l.
Proof. induction 1 as [|t l Ht _ IH]; [reflexivity|]. cbn. rewrite Ht. cbn. rewrite IH. reflexivity. Qed.

Lemma of_json_slice_to {T} (zero : T) encode decode o :
  (forall l, o = Some l -> Forall (fun t => decode (encode t) zero = Some t) l) ->
  of_json_slice zero decode (to_json_slice encode o) None = Some o.
Proof. destruct o as [l|]; [|reflexivity]. intros H. cbn. rewrite of_json_elems_map by auto. reflexivity. Qed.
