(* ===== verification/Comment.v ===== *)
(** * Managed comments (src/catalog/comment.go, src/catalog/constants.go)

    The catalog keeps what DuckDB has no place for (MySQL types, defaults, the
    sequence of a table, its checks) in the comments of its objects: JSON in
    base64 behind a prefix.  [DecodeComment_Encode]: a comment is read back;
    [Encode_plain]: its text can stand between single quotes. *)

From S2P Require Import Prelude Identifier CatalogErrors Base64 GoJson.
From Stdlib Require Import Ascii.

Definition ManagedCommentPrefix : string := "base64:".
Definition SequenceNamePrefix : string := "__sys_table_seq_".

Record Comment (T : Type) : Type := mkComment { Text : string; Meta : T }.
Arguments mkComment {T} _ _.
Arguments Text {T} _.
Arguments Meta {T} _.

Definition comment_set {T} `{JsonType T} (name : string) (j : json) (c : Comment T) : option (Comment T) :=
  if decide (name = "text") then s ← of_json_string j (Text c); Some (mkComment s (Meta c))
  else m ← of_json j (Meta c); Some (mkComment (Text c) m).

#[export] Instance Comment_json {T} `{JsonType T} : JsonType (Comment T) := {
  json_zero := mkComment EmptyString json_zero;
  json_empty := fun _ => false;
  to_json := fun c => JObj (omitempty (bool_decide (Text c = EmptyString)) "text" (JStr (Text c))
                            ++ omitempty (json_empty (Meta c)) "meta" (to_json (Meta c)));
  of_json := of_json_struct ["text"; "meta"] comment_set
}.

(** [any]: nil, or what was decoded. *)
#[export] Instance any_json : JsonType (option json) := {
  json_zero := None;
  json_empty := fun o => match o with None => true | Some _ => false end;
  to_json := fun o => default JNull o;
  of_json := fun j _ => match j with JNull => Some None | _ => Some (Some j) end
}.

Definition NewComment {T} `{JsonType T} (text : string) : Comment T := mkComment text json_zero.
Definition NewCommentWithMeta {T} (text : string) (meta : T) : Comment T := mkComment text meta.

Definition DecodeComment {T} `{JsonType T} (encodedOrRawText : string) : Comment T :=
  if negb (String.prefix ManagedCommentPrefix encodedOrRawText) then NewComment encodedOrRawText
  else match StdEncoding_Decode (drop_string (String.length ManagedCommentPrefix) encodedOrRawText) with
       | None => NewComment encodedOrRawText
       | Some decoded =>
           match json_Unmarshal decoded with
           | Some c => c
           | None => NewComment encodedOrRawText
           end
       end.

(** [json.Marshal] does not fail on these types. *)
Definition Encode {T} `{JsonType T} (c : Comment T) : string :=
  ManagedCommentPrefix +:+ StdEncoding_EncodeToString (json_Marshal (to_json c)).

(** ** Structs are read back field by field *)
Definition struct_step {T} (names : list string) (set : string -> json -> T -> option T) (acc : option T) (kv : string * json) : option T :=
  t ← acc; match find_field names (fst kv) with Some n => set n (snd kv) t | None => Some t end.

Lemma of_json_struct_obj {T} names set members (old : T) :
  of_json_struct names set (JObj members) old = foldl (struct_step names set) (Some old) members.
Proof. reflexivity. Qed.

Lemma find_field_exact names n : n ∈ names -> find_field names n = Some n.
Proof. intros H. unfold find_field. rewrite decide_True by exact H. reflexivity. Qed.

Lemma member_step {T} names set (t t' : T) n j rest :
  n ∈ names -> set n j t = Some t' ->
  foldl (struct_step names set) (Some t) ((n, j) :: rest) = foldl (struct_step names set) (Some t') rest.
Proof. intros Hn Hs. cbn [foldl]. unfold struct_step at 2. cbn. rewrite find_field_exact by exact Hn. rewrite Hs. reflexivity. Qed.

Lemma omit_step {T} names set (t t' : T) empty n j rest :
  n ∈ names -> (empty = true -> t' = t) -> (empty = false -> set n j t = Some t') ->
  foldl (struct_step names set) (Some t) (omitempty empty n j ++ rest) = foldl (struct_step names set) (Some t') rest.
Proof.
  intros Hn He Hs. destruct empty; cbn [omitempty app].
  - rewrite He by reflexivity. reflexivity.
  - apply member_step; auto.
Qed.

Lemma omitempty_ok (P : string * json -> Prop) empty n j : (empty = false -> P (n, j)) -> Forall P (omitempty empty n j).
Proof. destruct empty; cbn; [constructor | repeat constructor; auto]. Qed.

#[export, refine] Instance Comment_laws {T} `{JsonLaws T} : JsonLaws (Comment T) := {|
  json_valid := fun c => ValidString (Text c) = true /\ json_valid (Meta c);
  to_json_ok := _; of_to_json := _; json_empty_zero := _
|}.
Proof.
  - intros [text meta] [Ht Hm]. cbn in *. constructor. apply Forall_app_2; apply omitempty_ok; intros _; cbn.
    + split; [reflexivity | constructor; exact Ht].
    + split; [reflexivity | apply to_json_ok, Hm].
  - intros [text meta] [Ht Hm]. cbn [to_json of_json Comment_json]. cbn [Text Meta] in *. rewrite of_json_struct_obj.
    rewrite (omit_step _ _ _ (mkComment text json_zero)); [| set_solver | | reflexivity].
    2: { intros ->%bool_decide_eq_true. reflexivity. }
    rewrite <- (app_nil_r (omitempty _ "meta" _)). rewrite (omit_step _ _ _ (mkComment text meta)); [reflexivity | set_solver | |].
    + intros He. rewrite (json_empty_zero meta Hm He). reflexivity.
    + intros _. unfold comment_set. rewrite decide_False by discriminate. cbn [Meta Text]. rewrite of_to_json by exact Hm. reflexivity.
  - intros c _ [=].
Defined.

#[export, refine] Instance any_laws : JsonLaws (option json) := {|
  json_valid := fun o => match o with None => True | Some j => j <> JNull /\ json_ok j end;
  to_json_ok := _; of_to_json := _; json_empty_zero := _
|}.
Proof.
  - intros [j|]; [intros [_ H]; exact H | intros _; constructor].
  - intros [j|]; [|reflexivity]. intros [Hj _]. destruct j; try reflexivity. contradiction.
  - intros [j|] _; [discriminate | reflexivity].
Defined.

(** ** Comments are read back *)
Lemma string_length_app a b : String.length (a +:+ b) = (String.length a + String.length b)%nat.
Proof. induction a as [|c a IH]; [reflexivity|]. rewrite app_String. cbn. rewrite IH. reflexivity. Qed.

Lemma drop_string_app a b : drop_string (String.length a) (a +:+ b) = b.
Proof.
  unfold drop_string. replace (String.length (a +:+ b) - String.length a)%nat with (String.length b).
  2: { rewrite string_length_app. lia. }
  induction a as [|c a IH]; [|rewrite app_String; exact IH]. change (EmptyString +:+ b) with b. cbn [String.length].
  induction b as [|c b IH]; [reflexivity|]. cbn. f_equal. exact IH.
Qed.

Lemma DecodeComment_Encode {T} `{JsonLaws T} (c : Comment T) :
  ValidString (Text c) = true -> json_valid (Meta c) -> DecodeComment (Encode c) = c.
Proof.
  intros Ht Hm. unfold DecodeComment, Encode. rewrite prefix_app, drop_string_app, StdEncoding_Decode_Encode. cbn [negb].
  rewrite json_Unmarshal_Marshal by (split; assumption). reflexivity.
Qed.

Lemma DecodeComment_raw {T} `{JsonType T} s : String.prefix ManagedCommentPrefix s = false -> DecodeComment (T := T) s = NewComment s.
Proof. intros E. unfold DecodeComment. rewrite E. reflexivity. Qed.

(** The characters of a managed comment: those of base64 and the colon of the prefix. *)
Definition comment_char (c : ascii) : bool := base64_char c || bool_decide (c = ":"%char).

Lemma Encode_plain {T} `{JsonType T} (c : Comment T) : string_forall comment_char (Encode c) = true.
Proof.
  unfold Encode. rewrite string_forall_app. apply andb_true_iff. split; [reflexivity|].
  eapply string_forall_impl; [|apply StdEncoding_Encode_plain]. intros x Hx. unfold comment_char. rewrite Hx. reflexivity.
Qed.

Definition single_quote : ascii := "'"%char.
Lemma Encode_no_quote {T} `{JsonType T} (c : Comment T) : string_forall (fun x => negb (bool_decide (x = single_quote))) (Encode c) = true.
Proof.
  eapply string_forall_impl; [|apply Encode_plain]. intros x. destruct x as [[] [] [] [] [] [] [] []]; vm_compute; congruence.
Qed.

(** A comment whose text is not UTF-8 comes back changed. *)
Example invalid_text_replaced :
  DecodeComment (T := option json) (Encode (NewComment (str1 (chr 0xFF)))) = NewComment replacement.
Proof. vm_compute. reflexivity. Qed.
