(* ===== verification/Quotes.v ===== *)
(** * Quotes of MySQL and PostgreSQL (src/transpiler/converter.go)

    [NormalizeStrings] and [DenormalizeStrings] are state machines over the
    characters of a query.  The specification is a query as a list of [item]s,
    which can be spelled in either dialect: [mysql_text], [pg_text].  The
    machines translate one spelling into the other ([normalize_items],
    [denormalize_items]), for items in which no quote follows a closing quote
    directly and, read the other way, no backslashes. *)

From S2P Require Import Prelude Identifier GoJson.
From Stdlib Require Import Ascii.

Inductive stringParserState : Type :=
| notInString | inDoubleQuote | maybeEndDoubleQuote | inSingleQuote | maybeEndSingleQuote | inBackticks | maybeEndBackticks.

Definition singleQuote : rune := RA "'"%char.
Definition doubleQuote : rune := RA dq.
Definition backtick : rune := RA "`"%char.
Definition backslash : rune := RA bs.

#[export] Instance rune_eq_dec : EqDecision rune.
Proof. solve_decision. Defined.

#[export] Instance stringParserState_eq_dec : EqDecision stringParserState.
Proof. solve_decision. Defined.

(** The characters [range] yields: an invalid byte is U+FFFD. *)
Definition range_runes (q : string) : list rune := map (fun r => match r with RB _ => RM replacement | _ => r end) (runes q).

(** One turn of the loop: the state, [lastCharWasBackslash] and what is written. *)
Definition normalize_step (state : stringParserState) (last : bool) (c : rune) : stringParserState * bool * list rune :=
  match state with
  | notInString =>
      if decide (c = singleQuote) then (inSingleQuote, last, [singleQuote])
      else if decide (c = doubleQuote) then (inDoubleQuote, last, [singleQuote])
      else if decide (c = backtick) then (inBackticks, last, [doubleQuote])
      else (notInString, last, [c])
  | inDoubleQuote =>
      if decide (c = backslash) then (inDoubleQuote, negb last, if last then [c] else [])
      else if decide (c = doubleQuote) then
        if last then (inDoubleQuote, false, [c]) else (maybeEndDoubleQuote, last, [])
      else if decide (c = singleQuote) then (inDoubleQuote, false, [singleQuote; singleQuote])
      else (inDoubleQuote, false, [c])
  | maybeEndDoubleQuote =>
      if decide (c = doubleQuote) then (inDoubleQuote, last, [doubleQuote])
      else (notInString, last, [singleQuote; c])
  | inSingleQuote =>
      if decide (c = backslash) then (inSingleQuote, negb last, if last then [c] else [])
      else if decide (c = singleQuote) then
        if last then (inSingleQuote, false, [c; c]) else (maybeEndSingleQuote, last, [])
      else (inSingleQuote, false, [c])
  | maybeEndSingleQuote =>
      if decide (c = singleQuote) then (inSingleQuote, last, [singleQuote; singleQuote])
      else (notInString, last, [singleQuote; c])
  | inBackticks =>
      if decide (c = backtick) then (maybeEndBackticks, last, [])
      else (inBackticks, last, [c])
  | maybeEndBackticks =>
      if decide (c = backtick) then (inBackticks, last, [backtick])
      else (notInString, last, [doubleQuote; c])
  end.

Definition normalize_end (state : stringParserState) : list rune :=
  match state with
  | maybeEndDoubleQuote | maybeEndSingleQuote => [singleQuote]
  | maybeEndBackticks => [doubleQuote]
  | _ => []
  end.

Fixpoint normalize_loop (state : stringParserState) (last : bool) (l : list rune) : list rune :=
  match l with
  | [] => normalize_end state
  | c :: l' => let '(state, last, out) := normalize_step state last c in out ++ normalize_loop state last l'
  end.

Definition NormalizeStrings (q : string) : string := flat (normalize_loop notInString false (range_runes q)).
Definition ConvertQuery (query : string) : list string := [NormalizeStrings query].

(** The way back.  A state the loop does not know is a panic; it never gets there. *)
Definition denormalize_step (state : stringParserState) (last : bool) (c : rune) : outcome (stringParserState * bool * list rune) :=
  match state with
  | notInString =>
      Ret (if decide (c = singleQuote) then (inSingleQuote, last, [singleQuote])
           else if decide (c = doubleQuote) then (inDoubleQuote, last, [backtick])
           else (notInString, last, [c]))
  | inSingleQuote =>
      Ret (if decide (c = backslash) then (inSingleQuote, true, if last then [c] else [])
           else if decide (c = singleQuote) then
             if last then (inSingleQuote, false, [c]) else (maybeEndSingleQuote, last, [])
           else (inSingleQuote, false, [c]))
  | maybeEndSingleQuote =>
      Ret (if decide (c = singleQuote) then (inSingleQuote, last, [singleQuote; singleQuote])
           else (notInString, last, [singleQuote; c]))
  | inDoubleQuote =>
      Ret (if decide (c = backslash) then (inDoubleQuote, true, if last then [c] else [])
           else if decide (c = doubleQuote) then
             if last then (inDoubleQuote, false, [c]) else (maybeEndDoubleQuote, last, [])
           else if decide (c = backtick) then (inDoubleQuote, last, [backtick; backtick])
           else (inDoubleQuote, false, [c]))
  | maybeEndDoubleQuote =>
      Ret (if decide (c = doubleQuote) then (inDoubleQuote, last, [doubleQuote])
           else (notInString, last, [backtick; c]))
  | inBackticks | maybeEndBackticks => Panic
  end.

Definition denormalize_end (state : stringParserState) : list rune :=
  match state with maybeEndSingleQuote => [singleQuote] | maybeEndDoubleQuote => [backtick] | _ => [] end.

Fixpoint denormalize_loop (state : stringParserState) (last : bool) (l : list rune) : outcome (list rune) :=
  match l with
  | [] => Ret (denormalize_end state)
  | c :: l' =>
      '(state, last, out) ← denormalize_step state last c;
      rest ← denormalize_loop state last l'; Ret (out ++ rest)
  end.

Definition DenormalizeStrings (q : string) : outcome string :=
  l ← denormalize_loop notInString false (range_runes q); Ret (flat l).

(** ** The specification: queries as items *)

(** How one character of a MySQL string literal is spelled. *)
Inductive spelled : Type :=
| Bare (c : rune)     (* itself *)
| Escaped (c : rune)  (* behind a backslash *)
| Doubled.            (* the enclosing quote, twice *)

Inductive item : Type :=
| Other (c : rune)                                  (* outside of quotes *)
| Single (content : list spelled)                   (* 'content' *)
| Double (content : list spelled)                   (* the same in double quotes: a string in MySQL *)
| Name (content : list rune).                       (* a quoted identifier *)

Definition spell (q : rune) (s : spelled) : list rune :=
  match s with Bare c => [c] | Escaped c => [backslash; c] | Doubled => [q; q] end.

(** What a backslash and a character mean in MySQL. *)
Definition escape_meaning (c : rune) : list rune :=
  if decide (c = RA "0"%char) then [RA (chr 0)]
  else if decide (c = RA "b"%char) then [RA (chr 8)]
  else if decide (c = RA "n"%char) then [RA (chr 10)]
  else if decide (c = RA "r"%char) then [RA (chr 13)]
  else if decide (c = RA "t"%char) then [RA (chr 9)]
  else if decide (c = RA "Z"%char) then [RA (chr 26)]
  else if decide (c = RA "%"%char \/ c = RA "_"%char) then [backslash; c]
  else [c].
Definition meaning (q : rune) (s : spelled) : list rune :=
  match s with Bare c => [c] | Escaped c => escape_meaning c | Doubled => [q] end.

Definition twice (q : rune) (l : list rune) : list rune := l ≫= fun c => if decide (c = q) then [q; q] else [c].

(** MySQL: strings in single or double quotes, identifiers in backticks. *)
Definition mysql_item (i : item) : list rune :=
  match i with
  | Other c => [c]
  | Single content => singleQuote :: (content ≫= spell singleQuote) ++ [singleQuote]
  | Double content => doubleQuote :: (content ≫= spell doubleQuote) ++ [doubleQuote]
  | Name content => backtick :: twice backtick content ++ [backtick]
  end.
Definition mysql_text (l : list item) : list rune := l ≫= mysql_item.

(** PostgreSQL: a string is its characters between single quotes, those that
    are single quotes written twice; an identifier is in double quotes. *)
Definition pg_item (i : item) : list rune :=
  match i with
  | Other c => [c]
  | Single content => singleQuote :: twice singleQuote (content ≫= meaning singleQuote) ++ [singleQuote]
  | Double content => singleQuote :: twice singleQuote (content ≫= meaning doubleQuote) ++ [singleQuote]
  | Name content => doubleQuote :: twice doubleQuote content ++ [doubleQuote]
  end.
Definition pg_text (l : list item) : list rune := l ≫= pg_item.

(** A bare character is neither the enclosing quote nor a backslash; an escaped
    one means itself. *)
Definition spelled_ok (q : rune) (s : spelled) : bool :=
  match s with
  | Bare c => bool_decide (c <> q) && bool_decide (c <> backslash)
  | Escaped c => bool_decide (escape_meaning c = [c])
  | Doubled => true
  end.
Definition item_ok (i : item) : bool :=
  match i with
  | Other c => bool_decide (c <> singleQuote) && bool_decide (c <> doubleQuote) && bool_decide (c <> backtick)
  | Single content => forallb (spelled_ok singleQuote) content
  | Double content => forallb (spelled_ok doubleQuote) content
  | Name content => forallb (fun c => bool_decide (c <> doubleQuote)) content
  end.

Definition is_other (i : item) : bool := match i with Other _ => true | _ => false end.
(** A closing quote is followed by a character outside of quotes, or by the end. *)
Fixpoint separated (l : list item) : bool :=
  match l with
  | [] => true
  | i :: l' => (is_other i || match l' with j :: _ => is_other j | [] => true end) && separated l'
  end.

(** ** From MySQL to PostgreSQL *)
Lemma twice_app q a b : twice q (a ++ b) = twice q a ++ twice q b.
Proof. unfold twice. apply bind_app. Qed.

Lemma normalize_cons state last c l :
  normalize_loop state last (c :: l) =
  let '(state, last, out) := normalize_step state last c in out ++ normalize_loop state last l.
Proof. reflexivity. Qed.

(** [one_char] runs the machine over a concrete character. *)
Ltac one_char :=
  rewrite normalize_cons; cbn [normalize_step];
  repeat first [rewrite decide_True by first [reflexivity | assumption] | rewrite decide_False by first [discriminate | assumption | congruence]];
  cbn [negb app].

Lemma normalize_single content k : forallb (spelled_ok singleQuote) content = true ->
  normalize_loop inSingleQuote false ((content ≫= spell singleQuote) ++ k) =
  twice singleQuote (content ≫= meaning singleQuote) ++ normalize_loop inSingleQuote false k.
Proof.
  induction content as [|s content IH]; [reflexivity|]. cbn [forallb]. intros [Hs Hc]%andb_true_iff.
  cbn [mbind list_bind]. rewrite <- app_assoc, twice_app, <- app_assoc, <- IH by exact Hc. clear IH. destruct s as [c|c|]; cbn [spell meaning app spelled_ok] in *.
  - apply andb_true_iff in Hs. destruct Hs as [H1%bool_decide_eq_true H2%bool_decide_eq_true]. one_char.
    unfold twice. cbn. rewrite decide_False by exact H1. reflexivity.
  - apply bool_decide_eq_true in Hs. rewrite Hs. rewrite normalize_cons. cbn [normalize_step]. rewrite decide_True by reflexivity. cbn [negb app].
    rewrite normalize_cons. cbn [normalize_step]. unfold twice. cbn [mbind list_bind]. destruct (decide (c = backslash)) as [->|]; [reflexivity|].
    destruct (decide (c = singleQuote)) as [->|]; reflexivity.
  - reflexivity.
Qed.

Lemma normalize_double content k : forallb (spelled_ok doubleQuote) content = true ->
  normalize_loop inDoubleQuote false ((content ≫= spell doubleQuote) ++ k) =
  twice singleQuote (content ≫= meaning doubleQuote) ++ normalize_loop inDoubleQuote false k.
Proof.
  induction content as [|s content IH]; [reflexivity|]. cbn [forallb]. intros [Hs Hc]%andb_true_iff.
  cbn [mbind list_bind]. rewrite <- app_assoc, twice_app, <- app_assoc, <- IH by exact Hc. clear IH. destruct s as [c|c|]; cbn [spell meaning app spelled_ok] in *.
  - apply andb_true_iff in Hs. destruct Hs as [H1%bool_decide_eq_true H2%bool_decide_eq_true]. rewrite normalize_cons. cbn [normalize_step].
    rewrite decide_False by exact H2. rewrite decide_False by exact H1. unfold twice. cbn [mbind list_bind].
    destruct (decide (c = singleQuote)) as [->|]; reflexivity.
  - apply bool_decide_eq_true in Hs. rewrite Hs. rewrite normalize_cons. cbn [normalize_step]. rewrite decide_True by reflexivity. cbn [negb app].
    rewrite normalize_cons. cbn [normalize_step]. unfold twice. cbn [mbind list_bind]. destruct (decide (c = backslash)) as [->|]; [reflexivity|].
    destruct (decide (c = doubleQuote)) as [->|]; [reflexivity|]. destruct (decide (c = singleQuote)) as [->|]; reflexivity.
  - reflexivity.
Qed.

Lemma normalize_name content k : forallb (fun c => bool_decide (c <> doubleQuote)) content = true ->
  normalize_loop inBackticks false (twice backtick content ++ k) =
  twice doubleQuote content ++ normalize_loop inBackticks false k.
Proof.
  induction content as [|c content IH]; [reflexivity|]. cbn [forallb]. intros [H1%bool_decide_eq_true Hc]%andb_true_iff.
  change (c :: content) with ([c] ++ content). rewrite !twice_app, <- !app_assoc, <- IH by exact Hc. clear IH.
  unfold twice at 1 3. cbn [mbind list_bind]. rewrite (decide_False (P := c = doubleQuote)) by exact H1.
  destruct (decide (c = backtick)) as [->|]; [reflexivity|]. cbn [app]. one_char. reflexivity.
Qed.

(** After a closing quote the machine waits for the next character. *)
Definition opens (k : list rune) : bool :=
  match k with c :: _ => bool_decide (c = singleQuote) || bool_decide (c = doubleQuote) || bool_decide (c = backtick) | [] => false end.

Lemma opens_false k : opens k = false ->
  k = [] \/ exists c k', k = c :: k' /\ c <> singleQuote /\ c <> doubleQuote /\ c <> backtick.
Proof.
  destruct k as [|c k]; [auto|]. cbn. intros [[H1 H2]%orb_false_iff H3]%orb_false_iff.
  apply bool_decide_eq_false in H1, H2, H3. right. eauto 6.
Qed.

Lemma normalize_close_single k : opens k = false ->
  normalize_loop inSingleQuote false (singleQuote :: k) = singleQuote :: normalize_loop notInString false k.
Proof.
  intros Hk. destruct (opens_false k Hk) as [->|(c & k' & -> & H1 & H2 & H3)]; [reflexivity|]. one_char. one_char.
  rewrite normalize_cons. cbn [normalize_step]. rewrite !decide_False by assumption. reflexivity.
Qed.
Lemma normalize_close_double k : opens k = false ->
  normalize_loop inDoubleQuote false (doubleQuote :: k) = singleQuote :: normalize_loop notInString false k.
Proof.
  intros Hk. destruct (opens_false k Hk) as [->|(c & k' & -> & H1 & H2 & H3)]; [reflexivity|]. one_char. one_char.
  rewrite normalize_cons. cbn [normalize_step]. rewrite !decide_False by assumption. reflexivity.
Qed.
Lemma normalize_close_name k : opens k = false ->
  normalize_loop inBackticks false (backtick :: k) = doubleQuote :: normalize_loop notInString false k.
Proof.
  intros Hk. destruct (opens_false k Hk) as [->|(c & k' & -> & H1 & H2 & H3)]; [reflexivity|]. one_char. one_char.
  rewrite normalize_cons. cbn [normalize_step]. rewrite !decide_False by assumption. reflexivity.
Qed.

Lemma other_plain c : item_ok (Other c) = true -> c <> singleQuote /\ c <> doubleQuote /\ c <> backtick.
Proof. cbn. intros [[H1 H2]%andb_true_iff H3]%andb_true_iff. apply bool_decide_eq_true in H1, H2, H3. auto. Qed.

(** What follows an item that is not outside of quotes opens no quotes. *)
Lemma separated_next (print : item -> list rune) i l :
  (forall c, print (Other c) = [c]) -> is_other i = false -> separated (i :: l) = true -> forallb item_ok l = true ->
  opens (l ≫= print) = false.
Proof.
  intros Hp Hi Hs Hl. cbn in Hs. rewrite Hi in Hs. apply andb_true_iff in Hs. destruct Hs as [Hs _].
  destruct l as [|j l]; [reflexivity|]. cbn in Hs. destruct j as [c| | |]; try discriminate Hs.
  cbn [forallb] in Hl. apply andb_true_iff in Hl. destruct Hl as [Hc _]. apply other_plain in Hc. destruct Hc as (H1 & H2 & H3).
  cbn [mbind list_bind]. rewrite Hp. cbn. rewrite !bool_decide_eq_false_2 by assumption. reflexivity.
Qed.

Lemma normalize_items l : forallb item_ok l = true -> separated l = true ->
  normalize_loop notInString false (mysql_text l) = pg_text l.
Proof.
  induction l as [|i l IH]; [reflexivity|]. intros Hok Hs. pose proof Hok as Hok'. cbn [forallb] in Hok'.
  apply andb_true_iff in Hok'. destruct Hok' as [Hi Hl].
  assert (Hs' : separated l = true) by (cbn in Hs; apply andb_true_iff in Hs; tauto). specialize (IH Hl Hs').
  unfold mysql_text, pg_text in *. cbn [mbind list_bind] in *.
  pose proof (fun H => separated_next mysql_item i l (fun c => eq_refl) H Hs Hl) as Hn. cbn [mbind list_bind] in Hn.
  destruct i as [c|content|content|content]; cbn [mysql_item pg_item item_ok] in *.
  - apply other_plain in Hi. destruct Hi as (H1 & H2 & H3). cbn [app]. one_char. rewrite IH. reflexivity.
  - cbn [app]. rewrite <- !app_assoc. cbn [app]. one_char. rewrite normalize_single, normalize_close_single, IH by auto. reflexivity.
  - cbn [app]. rewrite <- !app_assoc. cbn [app]. one_char. rewrite normalize_double, normalize_close_double, IH by auto. reflexivity.
  - cbn [app]. rewrite <- !app_assoc. cbn [app]. one_char. rewrite normalize_name, normalize_close_name, IH by auto. reflexivity.
Qed.

(** ** From PostgreSQL to MySQL *)

(** The MySQL spelling the way back uses: doubled quotes, no backslashes. *)
Definition canon_item (i : item) : list rune :=
  match i with
  | Other c => [c]
  | Single content => singleQuote :: twice singleQuote (content ≫= meaning singleQuote) ++ [singleQuote]
  | Double content => singleQuote :: twice singleQuote (content ≫= meaning doubleQuote) ++ [singleQuote]
  | Name content => backtick :: twice backtick content ++ [backtick]
  end.
Definition canon_text (l : list item) : list rune := l ≫= canon_item.

Definition no_backslash (l : list rune) : bool := forallb (fun c => bool_decide (c <> backslash)) l.
Definition content_of (i : item) : list rune :=
  match i with
  | Other c => []
  | Single content => content ≫= meaning singleQuote
  | Double content => content ≫= meaning doubleQuote
  | Name content => content
  end.

Lemma denormalize_cons state last c l :
  denormalize_loop state last (c :: l) =
  ('(state, last, out) ← denormalize_step state last c; rest ← denormalize_loop state last l; Ret (out ++ rest)).
Proof. reflexivity. Qed.

Ltac one_back :=
  rewrite denormalize_cons; cbn [denormalize_step];
  repeat first [rewrite decide_True by first [reflexivity | assumption] | rewrite decide_False by first [discriminate | assumption | congruence]];
  cbn [mbind outcome_bind app].

Lemma denormalize_single content k r : no_backslash content = true -> denormalize_loop inSingleQuote false k = Ret r ->
  denormalize_loop inSingleQuote false (twice singleQuote content ++ k) = Ret (twice singleQuote content ++ r).
Proof.
  induction content as [|c content IH]; [intros _ H; exact H|]. cbn [no_backslash forallb]. intros [H1%bool_decide_eq_true Hc]%andb_true_iff Hk.
  specialize (IH Hc Hk). change (c :: content) with ([c] ++ content). rewrite !twice_app, <- !app_assoc.
  unfold twice at 1 3. cbn [mbind list_bind]. destruct (decide (c = singleQuote)) as [->|]; cbn [app].
  - one_back. one_back. rewrite IH. reflexivity.
  - one_back. rewrite IH. reflexivity.
Qed.

Lemma denormalize_name content k r : no_backslash content = true -> denormalize_loop inDoubleQuote false k = Ret r ->
  denormalize_loop inDoubleQuote false (twice doubleQuote content ++ k) = Ret (twice backtick content ++ r).
Proof.
  induction content as [|c content IH]; [intros _ H; exact H|]. cbn [no_backslash forallb]. intros [H1%bool_decide_eq_true Hc]%andb_true_iff Hk.
  specialize (IH Hc Hk). change (c :: content) with ([c] ++ content). rewrite !twice_app, <- !app_assoc.
  unfold twice at 1 3. cbn [mbind list_bind]. destruct (decide (c = doubleQuote)) as [->|]; cbn [app].
  - one_back. one_back. rewrite IH. reflexivity.
  - destruct (decide (c = backtick)) as [->|]; one_back; rewrite IH; reflexivity.
Qed.

Lemma denormalize_close_single k r : opens k = false -> denormalize_loop notInString false k = Ret r ->
  denormalize_loop inSingleQuote false (singleQuote :: k) = Ret (singleQuote :: r).
Proof.
  intros Hk Hr. destruct (opens_false k Hk) as [->|(c & k' & -> & H1 & H2 & H3)]; [injection Hr as <-; reflexivity|].
  rewrite denormalize_cons in Hr. cbn [denormalize_step mbind outcome_bind] in Hr. rewrite !decide_False in Hr by assumption.
  cbn [mbind outcome_bind] in Hr. one_back. one_back. destruct (denormalize_loop notInString false k'); [|discriminate].
  injection Hr as <-. reflexivity.
Qed.
Lemma denormalize_close_name k r : opens k = false -> denormalize_loop notInString false k = Ret r ->
  denormalize_loop inDoubleQuote false (doubleQuote :: k) = Ret (backtick :: r).
Proof.
  intros Hk Hr. destruct (opens_false k Hk) as [->|(c & k' & -> & H1 & H2 & H3)]; [injection Hr as <-; reflexivity|].
  rewrite denormalize_cons in Hr. cbn [denormalize_step mbind outcome_bind] in Hr. rewrite !decide_False in Hr by assumption.
  cbn [mbind outcome_bind] in Hr. one_back. one_back. destruct (denormalize_loop notInString false k'); [|discriminate].
  injection Hr as <-. reflexivity.
Qed.

Lemma denormalize_items l : forallb item_ok l = true -> separated l = true ->
  forallb (fun i => no_backslash (content_of i)) l = true ->
  denormalize_loop notInString false (pg_text l) = Ret (canon_text l).
Proof.
  induction l as [|i l IH]; [reflexivity|]. intros Hok Hs Hb. pose proof Hok as Hok'. cbn [forallb] in Hok', Hb.
  apply andb_true_iff in Hok', Hb. destruct Hok' as [Hi Hl], Hb as [Hbi Hbl].
  assert (Hs' : separated l = true) by (cbn in Hs; apply andb_true_iff in Hs; tauto). specialize (IH Hl Hs' Hbl).
  pose proof (fun H => separated_next pg_item i l (fun c => eq_refl) H Hs Hl) as Hn.
  unfold canon_text, pg_text in *. cbn [mbind list_bind] in *.
  destruct i as [c|content|content|content]; cbn [canon_item pg_item item_ok content_of] in *.
  - apply other_plain in Hi. destruct Hi as (H1 & H2 & H3). cbn [app]. one_back. rewrite IH. reflexivity.
  - cbn [app]. rewrite <- !app_assoc. cbn [app]. one_back.
    erewrite denormalize_single by (exact Hbi || (apply denormalize_close_single; [apply Hn; reflexivity | exact IH])). reflexivity.
  - cbn [app]. rewrite <- !app_assoc. cbn [app]. one_back.
    erewrite denormalize_single by (exact Hbi || (apply denormalize_close_single; [apply Hn; reflexivity | exact IH])). reflexivity.
  - cbn [app]. rewrite <- !app_assoc. cbn [app]. one_back.
    erewrite denormalize_name by (exact Hbi || (apply denormalize_close_name; [apply Hn; reflexivity | exact IH])). reflexivity.
Qed.

(** ** Texts *)
Lemma range_good l : good l -> range_runes (flat l) = l.
Proof.
  intros Hl. unfold range_runes. rewrite runes_flat by exact Hl. induction Hl as [|r l Hr _ IH]; [reflexivity|].
  cbn [map]. rewrite IH. destruct r; [reflexivity | reflexivity | discriminate Hr].
Qed.

(** Outside of the three kinds of quotes nothing is changed. *)
Lemma normalize_other l : forallb (fun c => item_ok (Other c)) l = true -> normalize_loop notInString false l = l.
Proof.
  induction l as [|c l IH]; [reflexivity|]. cbn [forallb]. intros [Hc Hl]%andb_true_iff. apply other_plain in Hc. destruct Hc as (H1 & H2 & H3).
  one_char. rewrite IH by exact Hl. reflexivity.
Qed.

(** The reverse machine never meets a state it does not know. *)
Lemma denormalize_total state last l : state <> inBackticks -> state <> maybeEndBackticks -> returns (denormalize_loop state last l).
Proof.
  revert state last. induction l as [|c l IH]; intros state last H1 H2; [eexists; reflexivity|]. cbn [denormalize_loop].
  destruct state; try contradiction; cbn [denormalize_step mbind outcome_bind]; repeat case_decide; try destruct last; cbn;
    match goal with |- context [denormalize_loop ?s ?b l] => destruct (IH s b) as [r ->]; [discriminate..|]; eexists; reflexivity end.
Qed.

Lemma DenormalizeStrings_total q : returns (DenormalizeStrings q).
Proof. unfold DenormalizeStrings. destruct (denormalize_total notInString false (range_runes q)) as [l ->]; [discriminate..|]. eexists. reflexivity. Qed.
