(* ===== verification/Session.v ===== *)
(** * The session and its connection (src/adapter/adapter.go)

    [Session] is [adapter.ConnectionHolder] with the operations of database/sql
    on the connection and the transaction it hands out.  A transaction is a
    handle: it stays usable, and can be rolled back, after the session has
    forgotten it.  The helpers of package adapter are definitions over it. *)

From S2P Require Import Prelude GoTime Charset Schema Identifier Delta.

Inductive RollbackResult : Type := RollbackOk | NoActiveTxn | RollbackErr.
Inductive QueryRowResult : Type := RowString (s : string) | ErrNoRows | RowErr.

(** An argument bound to a placeholder. *)
Inductive Arg : Type := ArgString (s : string) | ArgBool (b : bool).

Class Session `{DuckDB} : Type := {
  Tx : Type;
  GetCatalogConn : db -> option db;
  GetTxn : db -> option (db * Tx);
  GetCatalogTxn : db -> option (db * Tx);
  TryGetTxn : db -> option Tx;
  CloseTxn : db -> db;
  ConnExec : string -> list Arg -> db -> db * bool;
  ConnQueryRow : string -> list Arg -> db -> QueryRowResult;
  TxExec : Tx -> string -> list Arg -> db -> db * bool;
  TxCommit : Tx -> db -> db * bool;
  TxRollback : Tx -> db -> db * RollbackResult
}.

Section Adapter.
Context `{Session}.

(** Each leaves the world and whether it succeeded. *)
Definition ExecCatalog (query : string) (args : list Arg) (w : db) : db * bool :=
  match GetCatalogConn w with None => (w, false) | Some w => ConnExec query args w end.

Definition ExecCatalogInTxn (query : string) (args : list Arg) (w : db) : db * bool :=
  match GetCatalogTxn w with None => (w, false) | Some (w, tx) => TxExec tx query args w end.

Definition ExecInTxn (query : string) (args : list Arg) (w : db) : db * bool :=
  match GetTxn w with None => (w, false) | Some (w, tx) => TxExec tx query args w end.

(** [nil] when there is no connection: scanning it panics. *)
Definition QueryRowCatalog (query : string) (args : list Arg) (w : db) : outcome (db * QueryRowResult) :=
  match GetCatalogConn w with None => Panic | Some w => Ret (w, ConnQueryRow query args w) end.

Definition CommitAndCloseTxn (w : db) : db * bool :=
  match TryGetTxn w with
  | None => (w, true)
  | Some tx => let '(w, done) := TxCommit tx w in (CloseTxn w, done)
  end.
End Adapter.
