(* ===== verification/Pool.v ===== *)
(** * The connection pool and the session on it (src/catalog/connpool.go, src/backend/session.go)

    [Pool] keeps a connection and a transaction per session id.  database/sql and
    the DuckDB driver are the class [Driver]; its errors are their text.  The
    methods of [backend.Session] are the pool's at the id of the session, and make
    the pool an instance of the interface [Session] that the replication code is
    written against. *)

From S2P Require Import Prelude GoTime Charset Schema Identifier Delta CatalogErrors Session.

#[local] Open Scope Z_scope.

Inductive CloseResult : Type := CloseOk | ErrConnDone | CloseErr.

Class Driver `{DuckDB} : Type := {
  Conn : Type;
  STx : Type;
  DB_Conn : db -> option (db * Conn);
  DB_Close : db -> db * bool;
  conn_Exec : Conn -> string -> list Arg -> db -> db * option string;
  conn_QueryRow : Conn -> string -> list Arg -> db -> QueryRowResult;
  conn_BeginTx : Conn -> db -> option (db * STx);
  conn_Raw_ErrBadConn : Conn -> db -> db * bool;   (* [false] for an error that is not ErrBadConn *)
  conn_Close : Conn -> db -> db * CloseResult;
  tx_Exec : STx -> string -> list Arg -> db -> db * option string;
  tx_Commit : STx -> db -> db * bool;
  tx_Rollback : STx -> db -> db * RollbackResult
}.

Inductive PoolError : Type := ErrOpenConn | ErrCurrentSchema | ErrDatabaseNotFound (schema : string) | ErrUseSchema | ErrBeginTx.

Section Pool.
Context `{HA : ArrowLib} `{HD : !DuckDB} `{HV : !Driver}.

Record Pool : Type := mkPool { conns : gmap Z Conn; txns : gmap Z STx; engine : db }.

Definition set_conns (v : gmap Z Conn) (p : Pool) : Pool := mkPool v (txns p) (engine p).
Definition set_txns (v : gmap Z STx) (p : Pool) : Pool := mkPool (conns p) v (engine p).
Definition set_engine (v : db) (p : Pool) : Pool := mkPool (conns p) (txns p) v.

Definition query_string (c : Conn) (sql : string) (p : Pool) : option string :=
  match conn_QueryRow c sql [] (engine p) with RowString s => Some s | _ => None end.

(** [CurrentSchema] and [CurrentCatalog]. *)
Definition current (sql : string) (id : Z) (p : Pool) : string :=
  match conns p !! id with None => EmptyString | Some conn => default EmptyString (query_string conn sql p) end.
Definition CurrentSchema : Z -> Pool -> string := current "SELECT CURRENT_SCHEMA".
Definition CurrentCatalog : Z -> Pool -> string := current "SELECT CURRENT_CATALOG".

Definition GetConn (id : Z) (p : Pool) : Pool * (Conn + PoolError) :=
  match conns p !! id with
  | Some conn => (p, inl conn)
  | None =>
      match DB_Conn (engine p) with
      | None => (p, inr ErrOpenConn)
      | Some (d, c) => (set_conns (<[id := c]> (conns p)) (set_engine d p), inl c)
      end
  end.

Definition GetConnForSchema (id : Z) (schemaName : string) (p : Pool) : Pool * (Conn + PoolError) :=
  match GetConn id p with
  | (p, inr e) => (p, inr e)
  | (p, inl conn) =>
      if decide (schemaName = EmptyString) then (p, inl conn) else
      match query_string conn "SELECT CURRENT_SCHEMA" p with
      | None => (p, inr ErrCurrentSchema)
      | Some currentSchema =>
          if decide (currentSchema = schemaName) then (p, inl conn) else
          let '(d, err) := conn_Exec conn ("USE " +:+ FullSchemaName (CurrentCatalog id p) schemaName) [] (engine p) in
          let p := set_engine d p in
          match err with
          | None => (p, inl conn)
          | Some err => (p, inr (if IsDuckDBSetSchemaNotFoundError err then ErrDatabaseNotFound schemaName else ErrUseSchema))
          end
      end
  end.

(** The entry goes whatever happens. *)
Definition CloseConn (id : Z) (p : Pool) : Pool * bool :=
  match conns p !! id with
  | None => (set_conns (delete id (conns p)) p, true)
  | Some conn =>
      let '(d, raw) := conn_Raw_ErrBadConn conn (engine p) in
      let p := set_conns (delete id (conns p)) (set_engine d p) in
      if negb raw then (p, false) else
      let '(d, closed) := conn_Close conn (engine p) in
      (set_engine d p, match closed with CloseErr => false | _ => true end)
  end.

Definition GetTxn (id : Z) (schemaName : string) (p : Pool) : Pool * (STx + PoolError) :=
  match txns p !! id with
  | Some tx => (p, inl tx)
  | None =>
      match GetConnForSchema id schemaName p with
      | (p, inr e) => (p, inr e)
      | (p, inl conn) =>
          match conn_BeginTx conn (engine p) with
          | None => (p, inr ErrBeginTx)
          | Some (d, tx) => (set_txns (<[id := tx]> (txns p)) (set_engine d p), inl tx)
          end
      end
  end.

Definition TryGetTxn (id : Z) (p : Pool) : option STx := txns p !! id.
Definition CloseTxn (id : Z) (p : Pool) : Pool := set_txns (delete id (txns p)) p.

(** The maps in the order of an iteration; [lastErr] as whether there is one. *)
Definition rollback_all (txs : list STx) (d : db) : db * bool :=
  foldl (fun '(d, ok) tx => let '(d, r) := tx_Rollback tx d in (d, match r with RollbackErr => false | _ => ok end)) (d, true) txs.
Definition close_all (cs : list Conn) (d : db) (ok : bool) : db * bool :=
  foldl (fun '(d, ok) c => let '(d, r) := conn_Close c d in (d, match r with CloseErr => false | _ => ok end)) (d, ok) cs.

Definition Pool_Close (p : Pool) : Pool * bool :=
  let '(d, ok) := rollback_all (map_to_list (txns p)).*2 (engine p) in
  let '(d, ok) := close_all (map_to_list (conns p)).*2 d ok in
  let '(d, closed) := DB_Close d in
  (set_engine d p, ok && closed).

(** [db] is the new database. *)
Definition Pool_Reset (d : db) (p : Pool) : Pool * bool :=
  let '(p, ok) := Pool_Close p in
  if negb ok then (p, false) else (mkPool ∅ ∅ d, true).

(** ** The methods of the session [id] whose current database is [schema] *)

(** The pool as the world of the delta controller. *)
Definition PooledDB : DuckDB := {|
  db := Pool;
  NewArrowFromConn p := NewArrowFromConn (engine p);
  RegisterView name r p := (fun d => set_engine d p) <$> RegisterView name r (engine p);
  ReleaseView name p := set_engine (ReleaseView name (engine p)) p;
  ExecContext sql p := let '(d, r) := ExecContext sql (engine p) in (set_engine d p, r)
|}.

Definition holds {A} (r : Pool * (A + PoolError)) : option (Pool * A) := match r with (p, inl a) => Some (p, a) | (_, inr _) => None end.
Definition succeeded (p : Pool) (r : db * option string) : Pool * bool := (set_engine (fst r) p, match snd r with None => true | Some _ => false end).

Definition PooledSession (id : Z) (schema : string) : @Session HA PooledDB := {|
  Session.Tx := STx;
  Session.GetCatalogConn (p : @db HA PooledDB) := fst <$> holds (GetConn id p);
  Session.GetTxn (p : @db HA PooledDB) := holds (GetTxn id schema p);
  Session.GetCatalogTxn (p : @db HA PooledDB) := holds (GetTxn id EmptyString p);
  Session.TryGetTxn (p : @db HA PooledDB) := TryGetTxn id p;
  Session.CloseTxn (p : @db HA PooledDB) := CloseTxn id p : @db HA PooledDB;
  Session.ConnExec sql args (p : @db HA PooledDB) :=
    match conns p !! id with Some c => succeeded p (conn_Exec c sql args (engine p)) | None => (p, false) end;
  Session.ConnQueryRow sql args (p : @db HA PooledDB) :=
    match conns p !! id with Some c => conn_QueryRow c sql args (engine p) | None => RowErr end;
  Session.TxExec tx sql args (p : @db HA PooledDB) := succeeded p (tx_Exec tx sql args (engine p));
  Session.TxCommit tx (p : @db HA PooledDB) := let '(d, ok) := tx_Commit tx (engine p) in (set_engine d p, ok);
  Session.TxRollback tx (p : @db HA PooledDB) := let '(d, r) := tx_Rollback tx (engine p) in (set_engine d p, r)
|}.
End Pool.
