(* ===== verification/Logrepl.v ===== *)
(** * PostgreSQL logical replication (src/pgserver/logrepl/replication.go, ddl.go, subscription.go)

    [replicationState] with its delta buffer and session, one definition per
    operation: [append], [truncate], flush, commit, [processMessage] with a case
    per message of pgoutput, and the turn of the loop of [StartReplication] with
    its reconnection, its retries and its status updates.  The wire formats of
    jackc/pglogrepl are the class [PgLogRepl]; the clock is the argument [now],
    in milliseconds, read once per turn. *)

From S2P Require Import Prelude GoTime Charset Schema Identifier InternalTables Delta RowAppend PgDecode Session.
From stdpp Require Import pretty.

#[local] Open Scope Z_scope.

(** ** Messages (package pglogrepl) *)

Definition TupleDataTypeNull : Z := 110.   (* 'n' *)
Definition TupleDataTypeToast : Z := 117.  (* 'u' *)
Definition TupleDataTypeText : Z := 116.   (* 't' *)
Definition TupleDataTypeBinary : Z := 98.  (* 'b' *)

Record TupleDataColumn : Type := mkTupleCol { td_DataType : Z; td_Data : option (list Z) }.

Record RelationMessage : Type := mkRelation {
  RelationID : Z; Namespace : string; RelationName : string; rel_Columns : list RelationMessageColumn
}.

(** [OldTupleType]: 'K', 'O' or none. *)
Inductive OldTupleType : Type := TupleTypeKey | TupleTypeOld | TupleTypeNone.

Inductive Message : Type :=
| RelationMessageV2 (rel : RelationMessage)
| BeginMessage (FinalLSN : Z)
| CommitMessage (CommitLSN : Z)
| InsertMessageV2 (rel : Z) (tuple : list TupleDataColumn)
| UpdateMessageV2 (rel : Z) (oldType : OldTupleType) (oldTuple newTuple : list TupleDataColumn)
| DeleteMessageV2 (rel : Z) (oldType : OldTupleType) (oldTuple : list TupleDataColumn)
| TruncateMessageV2 (rels : list Z)
| TypeMessageV2 | OriginMessage | LogicalDecodingMessageV2
| StreamStartMessageV2 | StreamStopMessageV2 | StreamCommitMessageV2 | StreamAbortMessageV2
| UnknownMessage.

Record XLogData : Type := mkXLogData { xld_ServerWALEnd : Z; xld_WALData : list Z }.
Record PrimaryKeepalive : Type := mkKeepalive { pkm_ServerWALEnd : Z; pkm_ReplyRequested : bool }.

Class PgLogRepl : Type := {
  ParseV2 : list Z -> bool -> option Message;
  ParseXLogData : list Z -> option XLogData;
  ParsePrimaryKeepaliveMessage : list Z -> option PrimaryKeepalive;
  LSN_String : Z -> string;
  ParseLSN : string -> option Z
}.

Inductive LogreplError : Type :=
| ErrConn | ErrTxn | ErrFlush (e : FlushError) | ErrUpdateLsn | ErrSelectLsn | ErrCommit | ErrRollback
| ErrParse | ErrUnknownRelation (id : Z) | ErrEmptyTuple | ErrTupleFormat (dataType : Z) | ErrDecode (e : DecodeError)
| ErrUnsupportedType (oid : Z) | ErrCreateTable | ErrTruncate | ErrDeleteWithoutTuple
| ErrUse | ErrConnect | ErrSend | ErrReceive | ErrWAL | ErrKeepalive | ErrXLogData.

(** ** CREATE TABLE for a relation (ddl.go) *)

(** [pgtypes.PostgresOIDToDuckDBTypeName]. *)
Definition BitOID : Z := 1560.
Definition VarbitOID : Z := 1562.
Definition PostgresOIDToDuckDBTypeName : list (Z * string) :=
  [ (BoolOID, "BOOLEAN"); (ByteaOID, "BLOB"); (QCharOID, "UTINYINT"); (Int2OID, "SMALLINT"); (Int4OID, "INTEGER"); (Int8OID, "BIGINT");
    (Float4OID, "FLOAT"); (Float8OID, "DOUBLE"); (NumericOID, "DECIMAL"); (TextOID, "VARCHAR"); (VarcharOID, "VARCHAR");
    (BPCharOID, "VARCHAR"); (NameOID, "VARCHAR"); (DateOID, "DATE"); (TimeOID, "TIME"); (TimetzOID, "TIMETZ");
    (TimestampOID, "TIMESTAMP"); (TimestamptzOID, "TIMESTAMPTZ"); (IntervalOID, "INTERVAL"); (UUIDOID, "UUID");
    (BitOID, "BIT"); (VarbitOID, "BIT"); (JSONOID, "JSON"); (JSONBOID, "JSON"); (OIDOID, "UINTEGER"); (XIDOID, "UINTEGER");
    (CIDOID, "UINTEGER"); (TIDOID, "UBIGINT");
    (1000, "BOOLEAN[]"); (1002, "TINYINT[]"); (1005, "SMALLINT[]"); (1007, "INTEGER[]"); (1016, "BIGINT[]"); (1021, "FLOAT[]");
    (1022, "DOUBLE[]"); (NumericArrayOID, "DECIMAL[]"); (1009, "VARCHAR[]"); (1015, "VARCHAR[]"); (1014, "VARCHAR[]");
    (1003, "VARCHAR[]"); (2951, "UUID[]"); (1182, "DATE[]"); (1183, "TIME[]"); (1270, "TIMETZ[]"); (1115, "TIMESTAMP[]");
    (1185, "TIMESTAMPTZ[]"); (1187, "INTERVAL[]"); (199, "JSON[]"); (3807, "JSON[]"); (1561, "BIT[]") ].

Definition duckdb_type_name (oid : Z) : option string :=
  match list_find (fun p => fst p = oid) PostgresOIDToDuckDBTypeName with Some (_, (_, n)) => Some n | None => None end.

Definition pgTypeName (col : RelationMessageColumn) : string :=
  match duckdb_type_name (rc_DataType col) with
  | Some duckdbType =>
      if rc_DataType col =? NumericOID then
        let '(precision, scale, ok) := DecodePrecisionScale (rc_TypeModifier col) in
        if ok : bool then "DECIMAL(" +:+ pretty precision +:+ "," +:+ pretty scale +:+ ")" else "VARCHAR"
      else duckdbType
  | None => "VARCHAR"
  end.

Definition is_key (col : RelationMessageColumn) : bool := rc_Flags col =? 1.

Definition column_def (col : RelationMessageColumn) : string := QuoteIdentifierANSI (rc_Name col) +:+ " " +:+ pgTypeName col.

(** [env] is the value of REPLICATION_WITHOUT_INDEX. *)
Definition generateCreateTableStmt (env : string) (rel : RelationMessage) : string :=
  let keyColumns := map rc_Name (List.filter is_key (rel_Columns rel)) in
  "CREATE TABLE IF NOT EXISTS " +:+ ConnectIdentifiersANSI [Namespace rel; RelationName rel] +:+ " ("
  +:+ strings_Join ", " (map column_def (rel_Columns rel))
  +:+ (if negb (IsReplicationWithoutIndex env) && (0 <? length keyColumns)%nat
       then ", PRIMARY KEY (" +:+ strings_Join ", " keyColumns +:+ ")" else EmptyString)
  +:+ ");".

(** ** Stored positions (subscription.go) *)
Section Subscription.
Context `{HA : ArrowLib} `{HD : !DuckDB} `{HS : !Session} `{HP : PgLogRepl}.

Definition keyColumns : list string := ["subname"].
Definition statusValueColumns : list string := ["subenabled"].
Definition lsnValueColumns : list string := ["subskiplsn"].

Definition UpdateSubscriptionLsn (lsn name : string) (w : db) : outcome (db * bool) :=
  sql ← UpdateStmt PgSubscription keyColumns lsnValueColumns;
  Ret (ExecCatalogInTxn sql [ArgString lsn; ArgString name] w).

Definition SelectSubscriptionLsn (subscription : string) (w : db) : outcome (db * (Z + LogreplError)) :=
  sql ← SelectColumnsStmt PgSubscription lsnValueColumns;
  '(w, r) ← QueryRowCatalog sql [ArgString subscription] w;
  Ret (w, match r with
          | ErrNoRows => inl 0
          | RowErr => inr ErrSelectLsn
          | RowString lsn => match ParseLSN lsn with Some z => inl z | None => inr ErrSelectLsn end
          end).
End Subscription.

(** ** The state *)
Section Logrepl.
Context `{HA : ArrowLib} `{HG : PgCodecs} `{HD : !DuckDB} `{HS : !Session} `{HP : PgLogRepl}.
Context (viewHash : string -> string) (env : string) (subscription : string).

Record replicationState : Type := mkState {
  slotName : string;
  lastWrittenLSN : Z;
  lastReceivedLSN : Z;
  currentTransactionLSN : Z;
  lastCommitLSN : Z;
  inStream : bool;
  processMessages : bool;
  relations : gmap Z RelationMessage;
  schemas : gmap Z (list Column);
  keys : gmap Z (list nat);
  tables : Tables;
  deltaBufSize : Z;
  lastCommitTime : Z;
  commitCount : Z;
  ongoingBatchTxn : bool;
  dirtyTxn : bool;
  dirtyStream : bool;
  inTxnStmtID : Z;
  world : db
}.

Definition set_slotName (v : string) (s : replicationState) : replicationState :=
  mkState v (lastWrittenLSN s) (lastReceivedLSN s) (currentTransactionLSN s) (lastCommitLSN s) (inStream s) (processMessages s) (relations s) (schemas s) (keys s) (tables s) (deltaBufSize s) (lastCommitTime s) (commitCount s) (ongoingBatchTxn s) (dirtyTxn s) (dirtyStream s) (inTxnStmtID s) (world s).
Definition set_lastWrittenLSN (v : Z) (s : replicationState) : replicationState :=
  mkState (slotName s) v (lastReceivedLSN s) (currentTransactionLSN s) (lastCommitLSN s) (inStream s) (processMessages s) (relations s) (schemas s) (keys s) (tables s) (deltaBufSize s) (lastCommitTime s) (commitCount s) (ongoingBatchTxn s) (dirtyTxn s) (dirtyStream s) (inTxnStmtID s) (world s).
Definition set_lastReceivedLSN (v : Z) (s : replicationState) : replicationState :=
  mkState (slotName s) (lastWrittenLSN s) v (currentTransactionLSN s) (lastCommitLSN s) (inStream s) (processMessages s) (relations s) (schemas s) (keys s) (tables s) (deltaBufSize s) (lastCommitTime s) (commitCount s) (ongoingBatchTxn s) (dirtyTxn s) (dirtyStream s) (inTxnStmtID s) (world s).
Definition set_currentTransactionLSN (v : Z) (s : replicationState) : replicationState :=
  mkState (slotName s) (lastWrittenLSN s) (lastReceivedLSN s) v (lastCommitLSN s) (inStream s) (processMessages s) (relations s) (schemas s) (keys s) (tables s) (deltaBufSize s) (lastCommitTime s) (commitCount s) (ongoingBatchTxn s) (dirtyTxn s) (dirtyStream s) (inTxnStmtID s) (world s).
Definition set_lastCommitLSN (v : Z) (s : replicationState) : replicationState :=
  mkState (slotName s) (lastWrittenLSN s) (lastReceivedLSN s) (currentTransactionLSN s) v (inStream s) (processMessages s) (relations s) (schemas s) (keys s) (tables s) (deltaBufSize s) (lastCommitTime s) (commitCount s) (ongoingBatchTxn s) (dirtyTxn s) (dirtyStream s) (inTxnStmtID s) (world s).
Definition set_inStream (v : bool) (s : replicationState) : replicationState :=
  mkState (slotName s) (lastWrittenLSN s) (lastReceivedLSN s) (currentTransactionLSN s) (lastCommitLSN s) v (processMessages s) (relations s) (schemas s) (keys s) (tables s) (deltaBufSize s) (lastCommitTime s) (commitCount s) (ongoingBatchTxn s) (dirtyTxn s) (dirtyStream s) (inTxnStmtID s) (world s).
Definition set_processMessages (v : bool) (s : replicationState) : replicationState :=
  mkState (slotName s) (lastWrittenLSN s) (lastReceivedLSN s) (currentTransactionLSN s) (lastCommitLSN s) (inStream s) v (relations s) (schemas s) (keys s) (tables s) (deltaBufSize s) (lastCommitTime s) (commitCount s) (ongoingBatchTxn s) (dirtyTxn s) (dirtyStream s) (inTxnStmtID s) (world s).
Definition set_relations (v : gmap Z RelationMessage) (s : replicationState) : replicationState :=
  mkState (slotName s) (lastWrittenLSN s) (lastReceivedLSN s) (currentTransactionLSN s) (lastCommitLSN s) (inStream s) (processMessages s) v (schemas s) (keys s) (tables s) (deltaBufSize s) (lastCommitTime s) (commitCount s) (ongoingBatchTxn s) (dirtyTxn s) (dirtyStream s) (inTxnStmtID s) (world s).
Definition set_schemas (v : gmap Z (list Column)) (s : replicationState) : replicationState :=
  mkState (slotName s) (lastWrittenLSN s) (lastReceivedLSN s) (currentTransactionLSN s) (lastCommitLSN s) (inStream s) (processMessages s) (relations s) v (keys s) (tables s) (deltaBufSize s) (lastCommitTime s) (commitCount s) (ongoingBatchTxn s) (dirtyTxn s) (dirtyStream s) (inTxnStmtID s) (world s).
Definition set_keys (v : gmap Z (list nat)) (s : replicationState) : replicationState :=
  mkState (slotName s) (lastWrittenLSN s) (lastReceivedLSN s) (currentTransactionLSN s) (lastCommitLSN s) (inStream s) (processMessages s) (relations s) (schemas s) v (tables s) (deltaBufSize s) (lastCommitTime s) (commitCount s) (ongoingBatchTxn s) (dirtyTxn s) (dirtyStream s) (inTxnStmtID s) (world s).
Definition set_tables (v : Tables) (s : replicationState) : replicationState :=
  mkState (slotName s) (lastWrittenLSN s) (lastReceivedLSN s) (currentTransactionLSN s) (lastCommitLSN s) (inStream s) (processMessages s) (relations s) (schemas s) (keys s) v (deltaBufSize s) (lastCommitTime s) (commitCount s) (ongoingBatchTxn s) (dirtyTxn s) (dirtyStream s) (inTxnStmtID s) (world s).
Definition set_deltaBufSize (v : Z) (s : replicationState) : replicationState :=
  mkState (slotName s) (lastWrittenLSN s) (lastReceivedLSN s) (currentTransactionLSN s) (lastCommitLSN s) (inStream s) (processMessages s) (relations s) (schemas s) (keys s) (tables s) v (lastCommitTime s) (commitCount s) (ongoingBatchTxn s) (dirtyTxn s) (dirtyStream s) (inTxnStmtID s) (world s).
Definition set_lastCommitTime (v : Z) (s : replicationState) : replicationState :=
  mkState (slotName s) (lastWrittenLSN s) (lastReceivedLSN s) (currentTransactionLSN s) (lastCommitLSN s) (inStream s) (processMessages s) (relations s) (schemas s) (keys s) (tables s) (deltaBufSize s) v (commitCount s) (ongoingBatchTxn s) (dirtyTxn s) (dirtyStream s) (inTxnStmtID s) (world s).
Definition set_commitCount (v : Z) (s : replicationState) : replicationState :=
  mkState (slotName s) (lastWrittenLSN s) (lastReceivedLSN s) (currentTransactionLSN s) (lastCommitLSN s) (inStream s) (processMessages s) (relations s) (schemas s) (keys s) (tables s) (deltaBufSize s) (lastCommitTime s) v (ongoingBatchTxn s) (dirtyTxn s) (dirtyStream s) (inTxnStmtID s) (world s).
Definition set_ongoingBatchTxn (v : bool) (s : replicationState) : replicationState :=
  mkState (slotName s) (lastWrittenLSN s) (lastReceivedLSN s) (currentTransactionLSN s) (lastCommitLSN s) (inStream s) (processMessages s) (relations s) (schemas s) (keys s) (tables s) (deltaBufSize s) (lastCommitTime s) (commitCount s) v (dirtyTxn s) (dirtyStream s) (inTxnStmtID s) (world s).
Definition set_dirtyTxn (v : bool) (s : replicationState) : replicationState :=
  mkState (slotName s) (lastWrittenLSN s) (lastReceivedLSN s) (currentTransactionLSN s) (lastCommitLSN s) (inStream s) (processMessages s) (relations s) (schemas s) (keys s) (tables s) (deltaBufSize s) (lastCommitTime s) (commitCount s) (ongoingBatchTxn s) v (dirtyStream s) (inTxnStmtID s) (world s).
Definition set_dirtyStream (v : bool) (s : replicationState) : replicationState :=
  mkState (slotName s) (lastWrittenLSN s) (lastReceivedLSN s) (currentTransactionLSN s) (lastCommitLSN s) (inStream s) (processMessages s) (relations s) (schemas s) (keys s) (tables s) (deltaBufSize s) (lastCommitTime s) (commitCount s) (ongoingBatchTxn s) (dirtyTxn s) v (inTxnStmtID s) (world s).
Definition set_inTxnStmtID (v : Z) (s : replicationState) : replicationState :=
  mkState (slotName s) (lastWrittenLSN s) (lastReceivedLSN s) (currentTransactionLSN s) (lastCommitLSN s) (inStream s) (processMessages s) (relations s) (schemas s) (keys s) (tables s) (deltaBufSize s) (lastCommitTime s) (commitCount s) (ongoingBatchTxn s) (dirtyTxn s) (dirtyStream s) v (world s).
Definition set_world (v : db) (s : replicationState) : replicationState :=
  mkState (slotName s) (lastWrittenLSN s) (lastReceivedLSN s) (currentTransactionLSN s) (lastCommitLSN s) (inStream s) (processMessages s) (relations s) (schemas s) (keys s) (tables s) (deltaBufSize s) (lastCommitTime s) (commitCount s) (ongoingBatchTxn s) (dirtyTxn s) (dirtyStream s) (inTxnStmtID s) v.

(** [reset] and the zero value of [StartReplication]. *)
Definition reset (now : Z) (slot : string) (lsn : Z) (w : db) : replicationState :=
  mkState slot lsn 0 0 lsn false false ∅ ∅ ∅ [] 0 now 0 false false false 0 w.

(** What an operation leaves: the state and perhaps an error. *)
Definition res : Type := outcome (replicationState * option LogreplError).
Definition ok (s : replicationState) : res := Ret (s, None).
Definition err (e : LogreplError) (s : replicationState) : res := Ret (s, Some e).
Definition andThen (m : res) (k : replicationState -> res) : res :=
  '(s, e) ← m; match e with Some e => err e s | None => k s end.
#[local] Notation "'do' s <- m ; k" := (andThen m (fun s => k)) (at level 10, s name, m at level 100, k at level 200).

(** ** Flush and commit *)

(** [tx] is whether a transaction is passed. *)
Definition flushDeltaBuffer (tx : bool) (reason : FlushReason) (s : replicationState) : res :=
  '(w, ts, _, e) ← Flush viewHash tx env reason (tables s) zeroStats (world s);
  let s := set_deltaBufSize 0 (set_tables ts (set_world w s)) in
  match e with Some e => err (ErrFlush e) s | None => ok s end.

Definition committed (now : Z) (s : replicationState) : replicationState :=
  let s := set_inTxnStmtID 0 (set_dirtyStream false (set_dirtyTxn false (set_ongoingBatchTxn false s))) in
  set_lastWrittenLSN (lastCommitLSN s) (set_lastCommitTime now s).

Definition commit_body (now : Z) (reason : FlushReason) (tx : Tx) (s : replicationState) : res :=
  do s <- flushDeltaBuffer true reason s;
  '(w, saved) ← UpdateSubscriptionLsn (LSN_String (lastCommitLSN s)) subscription (world s);
  let s := set_world w s in
  if negb saved then err ErrUpdateLsn s else
  let '(w, done) := TxCommit tx (world s) in
  let s := set_world w s in
  if done : bool then ok (committed now s) else err ErrCommit s.

(** The deferred [CloseTxn] and [Rollback] run on every path. *)
Definition commitOngoingTxn (now : Z) (reason : FlushReason) (s : replicationState) : res :=
  match GetCatalogConn (world s) with
  | None => err ErrConn s
  | Some w =>
      let s := set_world w s in
      match TryGetTxn (world s) with
      | None => ok s
      | Some tx =>
          '(s, e) ← commit_body now reason tx s;
          let w := fst (TxRollback tx (CloseTxn (world s))) in
          Ret (set_world w s, e)
      end
  end.

Definition commitOngoingTxnIfClean (now : Z) (reason : FlushReason) (s : replicationState) : res :=
  if dirtyTxn s && negb (dirtyStream s) then commitOngoingTxn now reason s else ok s.

Definition mayExtendBatchTxn (now : Z) (s : replicationState) : bool * FlushReason :=
  if ongoingBatchTxn s then
    if commitCount s =? 1 then (false, InitFlushReason)
    else if 200 <=? now - lastCommitTime s then (false, TimeTickFlushReason)
    else if Z.shiftl 128 20 <=? deltaBufSize s then (false, MemoryLimitFlushReason)
    else (true, UnknownFlushReason)
  else (false, UnknownFlushReason).

(** ** Rows *)
Definition tupleDataFormat (dataType : Z) : Z := if dataType =? TupleDataTypeBinary then BinaryFormatCode else TextFormatCode.

Definition pg_header (action : RowEventType) (lsn stmt : Z) : list (cell num128 num256) :=
  [CInt (RowEventType_code action); CNull; CBytes []; CNull; CInt lsn; CInt stmt].

(** The loop over the columns of the relation. *)
Fixpoint append_columns (onlyKeys : bool) (cols : list RelationMessageColumn) (i idx : nat) (tuple : list TupleDataColumn)
    (fields : list builder) (size : Z) : outcome (list builder * Z * option LogreplError) :=
  match cols with
  | [] => Ret (fields, size, None)
  | metadata :: cols' =>
      match fields with
      | [] => Panic
      | b :: fields' =>
          let continue (b : builder) (idx : nat) (size : Z) :=
            '(fs, size, e) ← append_columns onlyKeys cols' (S i) idx tuple fields' size; Ret (b :: fs, size, e) in
          if onlyKeys && negb (is_key metadata) then continue (AppendNull b) idx size
          else
            match tuple !! (if onlyKeys then idx else i) with
            | None => Panic
            | Some col =>
                let idx := if onlyKeys then S idx else idx in
                if td_DataType col =? TupleDataTypeNull then continue (AppendNull b) idx size
                else if (td_DataType col =? TupleDataTypeText) || (td_DataType col =? TupleDataTypeBinary) then
                  '(b, length, e) ← decodeToArrow metadata (td_Data col) (tupleDataFormat (td_DataType col)) b;
                  match e with
                  | Some e => Ret (b :: fields', size, Some (ErrDecode e))
                  | None => continue b idx (size + length)
                  end
                else Ret (b :: fields', size, Some (ErrTupleFormat (td_DataType col)))
            end
      end
  end.

Definition set_appender (id : tableIdentifier) (a : DeltaAppender) (s : replicationState) : replicationState :=
  set_tables (update_table id (fun _ => a) (tables s)) s.

Definition append (relationID : Z) (tuple : list TupleDataColumn) (action event : RowEventType) (onlyKeys : bool) (s : replicationState) : res :=
  match relations s !! relationID with
  | None => err (ErrUnknownRelation relationID) s
  | Some rel =>
      let id := mkTableId (Namespace rel) (RelationName rel) in
      '(a, ts) ← GetDeltaAppender id (default [] (schemas s !! relationID)) (tables s);
      let s := set_tables ts s in
      match tuple with
      | [] =>
          if bool_decide (event = UpdateRowEvent) && bool_decide (action = DeleteRowEvent)
          then ok (set_appender id (set_counters (ObserveEvents UpdateRowEvent 1) a) s)
          else err ErrEmptyTuple s
      | _ =>
          let header := push (pg_header action (u64 (currentTransactionLSN s)) (inTxnStmtID s)) (take 6 (a_fields a)) in
          '(fs, size, e) ← append_columns onlyKeys (rel_Columns rel) 0 0 tuple (Fields a) 0;
          let a := set_fields (header ++ fs) a in
          match e with
          | Some e => err e (set_appender id a s)
          | None =>
              let a := set_counters (ObserveEvents event 1) (set_counters (UpdateActionStats action 1) a) in
              ok (set_deltaBufSize (u64 (deltaBufSize s + size)) (set_appender id a s))
          end
      end
  end.

Definition truncate (relationID : Z) (s : replicationState) : res :=
  match relations s !! relationID with
  | None => err (ErrUnknownRelation relationID) s
  | Some rel =>
      let '(w, done) := ExecInTxn ("TRUNCATE " +:+ ConnectIdentifiersANSI [Namespace rel; RelationName rel]) [] (world s) in
      if done : bool then ok (set_world w s) else err ErrTruncate (set_world w s)
  end.

Fixpoint truncate_all (rels : list Z) (s : replicationState) : res :=
  match rels with
  | [] => ok s
  | id :: rels' => do s <- truncate id s; truncate_all rels' s
  end.

(** ** Messages *)

(** The columns of a relation as a schema. *)
Fixpoint relation_schema (cols : list RelationMessageColumn) : list Column + LogreplError :=
  match cols with
  | [] => inl []
  | col :: cols' =>
      match NewPostgresType TypeForOID (rc_DataType col) (rc_TypeModifier col) with
      | None => inr (ErrUnsupportedType (rc_DataType col))
      | Some t =>
          match relation_schema cols' with
          | inr e => inr e
          | inl schema => inl (mkColumn (rc_Name col) (TPostgres t) (is_key col) :: schema)
          end
      end
  end.

Fixpoint key_indices (i : nat) (cols : list RelationMessageColumn) : list nat :=
  match cols with
  | [] => []
  | col :: cols' => if is_key col then i :: key_indices (S i) cols' else key_indices (S i) cols'
  end.

Definition process_relation (now : Z) (rel : RelationMessage) (s : replicationState) : res :=
  do s <- (match relations s !! RelationID rel with
           | Some _ => commitOngoingTxn now DDLStmtFlushReason s
           | None => ok s
           end);
  let s := set_relations (<[RelationID rel := rel]> (relations s)) s in
  match relation_schema (rel_Columns rel) with
  | inr e => err e s
  | inl schema =>
      let s := set_schemas (<[RelationID rel := schema]> (schemas s)) s in
      let s := set_keys (<[RelationID rel := key_indices 0 (rel_Columns rel)]> (keys s)) s in
      let '(w, done) := ExecCatalog (generateCreateTableStmt env rel) [] (world s) in
      if done : bool then ok (set_world w s) else err ErrCreateTable (set_world w s)
  end.

Definition process_begin (now : Z) (FinalLSN : Z) (s : replicationState) : res :=
  if FinalLSN <? lastWrittenLSN s then ok (set_processMessages false s) else
  let s := set_currentTransactionLSN FinalLSN (set_processMessages true s) in
  let '(extend, reason) := mayExtendBatchTxn now s in
  if extend : bool then ok s else
  do s <- commitOngoingTxn now reason s;
  match GetCatalogTxn (world s) with
  | None => err ErrTxn s
  | Some (w, _) => ok (set_ongoingBatchTxn true (set_world w s))
  end.

Definition process_commit (now : Z) (CommitLSN : Z) (s : replicationState) : res :=
  let s := set_commitCount (u64 (commitCount s + 1)) (set_lastCommitLSN CommitLSN s) in
  let '(extend, reason) := mayExtendBatchTxn now s in
  do s <- (if extend : bool then ok s else commitOngoingTxn now reason s);
  ok (set_processMessages false (set_inTxnStmtID 0 (set_dirtyStream false s))).

(** The end of a statement that changed rows. *)
Definition mark_dirty (s : replicationState) : replicationState :=
  set_inTxnStmtID (u64 (inTxnStmtID s + 1)) (set_dirtyStream true (set_dirtyTxn true s)).

Definition process_update (rel : Z) (oldType : OldTupleType) (oldTuple newTuple : list TupleDataColumn) (s : replicationState) : res :=
  do s <- (match oldType with
           | TupleTypeKey => append rel oldTuple DeleteRowEvent UpdateRowEvent true s
           | TupleTypeOld => append rel oldTuple DeleteRowEvent UpdateRowEvent false s
           | TupleTypeNone => append rel [] DeleteRowEvent UpdateRowEvent true s
           end);
  do s <- append rel newTuple InsertRowEvent UpdateRowEvent false s;
  ok (mark_dirty s).

Definition process_delete (rel : Z) (oldType : OldTupleType) (oldTuple : list TupleDataColumn) (s : replicationState) : res :=
  do s <- (match oldType with
           | TupleTypeKey => append rel oldTuple DeleteRowEvent DeleteRowEvent true s
           | TupleTypeOld => append rel oldTuple DeleteRowEvent DeleteRowEvent false s
           | TupleTypeNone => err ErrDeleteWithoutTuple s
           end);
  ok (mark_dirty s).

(** The flush of a TRUNCATE is given no transaction and its error is dropped. *)
Definition process_truncate (rels : list Z) (s : replicationState) : res :=
  '(s, _) ← flushDeltaBuffer false DMLStmtFlushReason s;
  do s <- truncate_all rels s;
  ok (mark_dirty s).

(** Messages of a transaction that is skipped are ignored. *)
Definition when_processing (s : replicationState) (m : res) : res := if processMessages s then m else ok s.

Definition process_logical (now : Z) (msg : Message) (s : replicationState) : res :=
  match msg with
  | RelationMessageV2 rel => process_relation now rel s
  | BeginMessage lsn => process_begin now lsn s
  | CommitMessage lsn => process_commit now lsn s
  | InsertMessageV2 rel tuple =>
      when_processing s (do s <- append rel tuple InsertRowEvent InsertRowEvent false s; ok (mark_dirty s))
  | UpdateMessageV2 rel oldType oldTuple newTuple => when_processing s (process_update rel oldType oldTuple newTuple s)
  | DeleteMessageV2 rel oldType oldTuple => when_processing s (process_delete rel oldType oldTuple s)
  | TruncateMessageV2 rels => when_processing s (process_truncate rels s)
  | StreamStartMessageV2 => ok (set_inStream true s)
  | StreamStopMessageV2 => ok (set_inStream false s)
  | TypeMessageV2 | OriginMessage | LogicalDecodingMessageV2 | StreamCommitMessageV2 | StreamAbortMessageV2 | UnknownMessage => ok s
  end.

Definition is_commit (msg : Message) : bool := match msg with CommitMessage _ => true | _ => false end.

(** The flag: the message was a commit and is to be acknowledged. *)
Definition processMessage (now : Z) (xld : XLogData) (s : replicationState) : outcome (replicationState * bool * option LogreplError) :=
  match ParseV2 (xld_WALData xld) (inStream s) with
  | None => Ret (s, false, Some ErrParse)
  | Some msg =>
      let s := if lastReceivedLSN s <? xld_ServerWALEnd xld then set_lastReceivedLSN (xld_ServerWALEnd xld) s else s in
      '(s, e) ← process_logical now msg s;
      Ret (s, match e with Some _ => false | None => is_commit msg end, e)
  end.

(** ** The loop of StartReplication *)

(** What the loop sends to the primary. *)
Inductive NetEvent : Type := StatusUpdate (write flush apply : Z) | StartedAt (lsn : Z).

Record Replicator : Type := mkReplicator {
  state : replicationState;
  primaryConn : bool;
  connErrCnt : Z;
  nextStandbyMessageDeadline : Z;
  messageReceived : bool;
  sent : list NetEvent
}.

Definition set_state (v : replicationState) (r : Replicator) : Replicator :=
  mkReplicator v (primaryConn r) (connErrCnt r) (nextStandbyMessageDeadline r) (messageReceived r) (sent r).
Definition set_primaryConn (v : bool) (r : Replicator) : Replicator :=
  mkReplicator (state r) v (connErrCnt r) (nextStandbyMessageDeadline r) (messageReceived r) (sent r).
Definition set_connErrCnt (v : Z) (r : Replicator) : Replicator :=
  mkReplicator (state r) (primaryConn r) v (nextStandbyMessageDeadline r) (messageReceived r) (sent r).
Definition set_deadline (v : Z) (r : Replicator) : Replicator :=
  mkReplicator (state r) (primaryConn r) (connErrCnt r) v (messageReceived r) (sent r).
Definition set_messageReceived (v : bool) (r : Replicator) : Replicator :=
  mkReplicator (state r) (primaryConn r) (connErrCnt r) (nextStandbyMessageDeadline r) v (sent r).
Definition log_sent (e : NetEvent) (r : Replicator) : Replicator :=
  mkReplicator (state r) (primaryConn r) (connErrCnt r) (nextStandbyMessageDeadline r) (messageReceived r) (sent r ++ [e]).

Definition maxConsecutiveFailures : Z := 10.
Definition flushInterval : Z := 200.
Definition standbyMessageTimeout : Z := 10000.

(** What the select of a turn finds.  The goroutine that receives gives up its
    message when the context is cancelled first: a deadline or a tick may drop one. *)
Inductive ReceiveError : Type := Timeout | ConnBusy | OtherReceiveError.
Inductive Received : Type :=
| StopRequested
| DeadlinePassed (dropped : option (list Z))
| TickerFired (dropped : option (list Z))
| ReceiveFailed (e : ReceiveError)
| ErrorResponse
| CopyData (data : list Z)
| OtherMessage.

(** The outside of a turn: the clock, whether a stop was requested before it,
    whether connecting and sending succeed, and what is received. *)
Record Turn : Type := mkTurn {
  t_now : Z; t_stop : bool; t_connect : bool; t_send : bool; t_received : Received
}.

(** How a turn ends: the loop goes on, or returns with or without an error. *)
Inductive TurnEnd : Type := Continue | Shutdown | Failed (e : LogreplError).

Definition turn_result : Type := outcome (Replicator * TurnEnd).
Definition of_error (e : option LogreplError) : TurnEnd := match e with Some e => Failed e | None => Continue end.

(** [handleErrWithRetry] on an error; the loop never calls it with nil. *)
Definition handleErrWithRetry (e : LogreplError) (incrementErrorCount : bool) (r : Replicator) : Replicator * TurnEnd :=
  let r := if incrementErrorCount then set_connErrCnt (connErrCnt r + 1) r else r in
  if connErrCnt r <? maxConsecutiveFailures then (set_primaryConn false r, Continue) else (r, Failed e).

Definition sendStandbyStatusUpdate (t : Turn) (r : Replicator) : Replicator * TurnEnd :=
  if t_send t then
    let s := state r in
    let r := log_sent (StatusUpdate (u64 (lastReceivedLSN s + 1)) (u64 (lastWrittenLSN s + 1)) (u64 (lastWrittenLSN s + 1))) r in
    (set_deadline (t_now t + standbyMessageTimeout) r, Continue)
  else handleErrWithRetry ErrSend false r.

(** [rollback]: the session forgets the transaction whatever happens. *)
Definition rollback (w : db) : db * option LogreplError :=
  match TryGetTxn w with
  | None => (CloseTxn w, None)
  | Some tx =>
      match TxRollback tx w with
      | (w, RollbackErr) => (CloseTxn w, Some ErrRollback)
      | (w, _) => (CloseTxn w, None)
      end
  end.

(** Reconnecting: START_REPLICATION from the position after the last written one,
    and the state is reset. *)
Definition reconnect (t : Turn) (r : Replicator) : Replicator * TurnEnd :=
  if t_connect t then
    let r := set_primaryConn true (log_sent (StartedAt (u64 (lastWrittenLSN (state r) + 1))) r) in
    let '(w, e) := rollback (world (state r)) in
    let s := set_world w (state r) in
    match e with
    | Some e => (set_state s r, Failed e)
    | None => (set_state (reset (t_now t) (slotName s) (lastWrittenLSN s) w) r, Continue)
    end
  else handleErrWithRetry ErrConnect true r.

Definition receive_error (e : ReceiveError) (r : Replicator) : Replicator * TurnEnd :=
  match e with
  | Timeout | ConnBusy => (r, Continue)
  | OtherReceiveError => handleErrWithRetry ErrReceive true r
  end.

Definition PrimaryKeepaliveMessageByteID : Z := 107. (* 'k' *)
Definition XLogDataByteID : Z := 119.                 (* 'w' *)

Definition handle_copy_data (t : Turn) (data : list Z) (r : Replicator) : turn_result :=
  match data with
  | [] => Panic
  | id :: rest =>
      if id =? PrimaryKeepaliveMessageByteID then
        match ParsePrimaryKeepaliveMessage rest with
        | None => Ret (r, Failed ErrKeepalive)
        | Some pkm =>
            let r := set_state (set_lastReceivedLSN (pkm_ServerWALEnd pkm) (state r)) r in
            Ret (if pkm_ReplyRequested pkm then sendStandbyStatusUpdate t r else (r, Continue))
        end
      else if id =? XLogDataByteID then
        match ParseXLogData rest with
        | None => Ret (r, Failed ErrXLogData)
        | Some xld =>
            '(s, commit, e) ← processMessage (t_now t) xld (state r);
            let r := set_state s r in
            Ret (match e with
                 | Some e => handleErrWithRetry e true r
                 | None => if commit : bool then sendStandbyStatusUpdate t r else (r, Continue)
                 end)
        end
      else Ret (r, Continue)
  end.

Definition handle_tick (t : Turn) (r : Replicator) : turn_result :=
  if flushInterval <? t_now t - lastCommitTime (state r) then
    '(s, e) ← commitOngoingTxnIfClean (t_now t) TimeTickFlushReason (state r);
    let r := set_state s r in
    Ret (match e with Some e => (r, Failed e) | None => sendStandbyStatusUpdate t r end)
  else Ret (r, Continue).

Definition handle_received (t : Turn) (r : Replicator) : turn_result :=
  match t_received t with
  | StopRequested => Ret (r, Shutdown)
  | DeadlinePassed _ => Ret (r, Continue)
  | TickerFired _ => handle_tick t r
  | ReceiveFailed e => Ret (receive_error e r)
  | ErrorResponse => Ret (set_messageReceived true r, Failed ErrWAL)
  | CopyData data => handle_copy_data t data (set_messageReceived true r)
  | OtherMessage => Ret (set_messageReceived true r, Continue)
  end.

(** The standby message that is due; [false] when there is no connection to receive on. *)
Definition standby_due (t : Turn) (r : Replicator) : Replicator * TurnEnd * bool :=
  if (nextStandbyMessageDeadline r <? t_now t) && (0 <? lastReceivedLSN (state r)) then
    let '(r, e) := sendStandbyStatusUpdate t r in (r, e, primaryConn r)
  else (r, Continue, true).

Definition loop_turn (t : Turn) (r : Replicator) : turn_result :=
  if t_stop t then Ret (r, Shutdown) else
  let '(r, e) := if primaryConn r then (r, Continue) else reconnect t r in
  match e with
  | Continue =>
      if negb (primaryConn r) then Ret (r, Continue) else
      let '(r, e, go) := standby_due t r in
      match e with
      | Continue => if go : bool then handle_received t r else Ret (r, Continue)
      | _ => Ret (r, e)
      end
  | _ => Ret (r, e)
  end.

(** [shutdown], deferred by [StartReplication]. *)
Definition shutdown (now : Z) (r : Replicator) : outcome Replicator :=
  '(s, _) ← commitOngoingTxnIfClean now OnCloseFlushReason (state r);
  Ret (set_state (set_world (fst (rollback (world s))) s) r).

(** Up to the loop: the stored position, the fresh state, and the schema. *)
Definition start (now : Z) (slot : string) (w : db) : outcome (Replicator + LogreplError) :=
  '(w, lsn) ← SelectSubscriptionLsn subscription w;
  match lsn with
  | inr e => Ret (inr e)
  | inl lsn =>
      let '(w, done) := ExecCatalog "USE public" [] w in
      if done : bool then Ret (inl (mkReplicator (reset now slot lsn w) false 0 (now + standbyMessageTimeout) false []))
      else Ret (inr ErrUse)
  end.

(** The turns of a run until the loop returns. *)
Inductive run : Replicator -> list Turn -> Replicator -> TurnEnd -> Prop :=
| run_nil r : run r [] r Continue
| run_cons r t r' ts r'' e : loop_turn t r = Ret (r', Continue) -> run r' ts r'' e -> run r (t :: ts) r'' e
| run_end r t r' e : loop_turn t r = Ret (r', e) -> e <> Continue -> run r [t] r' e.
End Logrepl.
