(* ===== verification/Regexp.v ===== *)
(** * Regular expressions (package regexp)

    What the program uses of Go's regexp: classes of characters, sequences,
    alternatives, greedy and lazy repetitions, groups, anchors and word
    boundaries, with the leftmost-first rule: of the possible matches the one
    that a backtracking search finds first.  [matches] is that search by
    continuations, [FindStringSubmatch] the first match and its groups,
    [FindAllStringSubmatch] the successive ones.  Characters are bytes; case is
    folded on ASCII letters. *)

From Stdlib Require Import Ascii String.
From S2P Require Import Prelude.

#[local] Open Scope list_scope.

(** ** Characters *)
Definition code (c : ascii) : nat := nat_of_ascii c.
Definition in_range (lo hi : nat) (c : ascii) : bool := (lo <=? code c)%nat && (code c <=? hi)%nat.
Definition is_upper : ascii -> bool := in_range 65 90.
Definition is_lower : ascii -> bool := in_range 97 122.
Definition is_digit : ascii -> bool := in_range 48 57.                                       (* \d *)
Definition is_word (c : ascii) : bool := is_upper c || is_lower c || is_digit c || (code c =? 95)%nat. (* \w *)
Definition is_space (c : ascii) : bool := existsb (Nat.eqb (code c)) [9; 10; 12; 13; 32]%nat. (* \s *)
Definition fold_char (c : ascii) : ascii := if is_upper c then ascii_of_nat (code c + 32) else c.
Definition char_is (a : ascii) (c : ascii) : bool := bool_decide (c = a).
Definition char_folds (a : ascii) (c : ascii) : bool := bool_decide (fold_char c = fold_char a).

(** ** Syntax *)
Inductive re : Type :=
| RChar (p : ascii -> bool)
| REmpty
| RSeq (a b : re)
| RAlt (a b : re)
| RStar (greedy : bool) (a : re)
| RGroup (n : nat) (a : re)
| RBegin | REnd | RWordBoundary.

Definition RPlus (a : re) : re := RSeq a (RStar true a).
Definition ROpt (a : re) : re := RAlt a REmpty.
Fixpoint lit_with (f : ascii -> ascii -> bool) (s : string) : re :=
  match s with EmptyString => REmpty | String c s' => RSeq (RChar (f c)) (lit_with f s') end.
Definition lit : string -> re := lit_with char_is.
Definition lit_i : string -> re := lit_with char_folds.   (* under (?i) *)
Fixpoint seq (l : list re) : re := match l with [] => REmpty | [a] => a | a :: l' => RSeq a (seq l') end.

(** ** Matching *)

(** The character before and those after. *)
Definition pos : Type := option ascii * list ascii.
Definition groups : Type := list (nat * list ascii).
Definition found : Type := groups * pos.

Definition word_at (o : option ascii) : bool := match o with Some c => is_word c | None => false end.
Definition consumed (from to : pos) : list ascii := take (length from.2 - length to.2) from.2.

Fixpoint matches (r : re) (k : pos -> groups -> option found) (p : pos) (g : groups) {struct r} : option found :=
  match r with
  | RChar f => match p.2 with c :: rest => if f c then k (Some c, rest) g else None | [] => None end
  | REmpty => k p g
  | RSeq a b => matches a (matches b k) p g
  | RAlt a b => match matches a k p g with Some x => Some x | None => matches b k p g end
  | RStar greedy a =>
      (fix loop (n : nat) (p : pos) (g : groups) : option found :=
         let more := match n with
                     | O => None
                     | S n => matches a (fun p' g' => if (length p'.2 <? length p.2)%nat then loop n p' g' else None) p g
                     end in
         if greedy then match more with Some x => Some x | None => k p g end
         else match k p g with Some x => Some x | None => more end) (length p.2) p g
  | RGroup n a => matches a (fun p' g' => k p' ((n, consumed p p') :: g')) p g
  | RBegin => match p.1 with None => k p g | Some _ => None end
  | REnd => match p.2 with [] => k p g | _ :: _ => None end
  | RWordBoundary => if xorb (word_at p.1) (word_at (head p.2)) then k p g else None
  end.

Definition here (r : re) (p : pos) : option found := matches r (fun p g => Some (g, p)) p [].

(** The leftmost match from [p] on. *)
Fixpoint find_from (r : re) (prev : option ascii) (rest : list ascii) : option (pos * found) :=
  match here r (prev, rest) with
  | Some x => Some ((prev, rest), x)
  | None => match rest with c :: rest' => find_from r (Some c) rest' | [] => None end
  end.

Definition bytes (s : string) : list ascii := list_ascii_of_string s.
Definition text (l : list ascii) : string := string_of_list_ascii l.

(** [matches[n]]: the empty string for a group that took no part. *)
Definition group (n : nat) (g : groups) : string :=
  match list_find (fun x => x.1 = n) g with Some (_, x) => text x.2 | None => EmptyString end.

Definition FindStringSubmatch (r : re) (s : string) : option groups := (fun x => x.2.1) <$> find_from r None (bytes s).
Definition MatchString (r : re) (s : string) : bool := match FindStringSubmatch r s with Some _ => true | None => false end.

(** After an empty match the search moves on by one character. *)
Fixpoint find_all (fuel : nat) (r : re) (prev : option ascii) (rest : list ascii) : list groups :=
  match fuel with
  | O => []
  | S fuel =>
      match find_from r prev rest with
      | None => []
      | Some (start, (g, (prev', rest'))) =>
          if (length rest' <? length start.2)%nat then g :: find_all fuel r prev' rest'
          else g :: match rest' with c :: rest'' => find_all fuel r (Some c) rest'' | [] => [] end
      end
  end.
Definition FindAllStringSubmatch (r : re) (s : string) : list groups := find_all (S (length (bytes s))) r None (bytes s).

(** ** Equations *)
Definition last_of (prev : option ascii) (l : list ascii) : option ascii := match last l with Some c => Some c | None => prev end.

Lemma last_of_cons prev c l : last_of prev (c :: l) = last_of (Some c) l.
Proof. unfold last_of. destruct l as [|d l]; [reflexivity|]. change (last (c :: d :: l)) with (last (d :: l)). destruct (last (d :: l)) eqn:E; [reflexivity|]. apply last_None in E. discriminate. Qed.

Lemma last_of_app prev a b : last_of prev (a ++ b) = last_of (last_of prev a) b.
Proof. revert prev. induction a as [|c a IH]; intros prev; [reflexivity|]. cbn [app]. rewrite !last_of_cons. apply IH. Qed.

Lemma bytes_app a b : bytes (a +:+ b) = bytes a ++ bytes b.
Proof. induction a as [|c a IH]; [reflexivity|]. change (String c a +:+ b) with (String c (a +:+ b)). cbn. f_equal. exact IH. Qed.
Lemma text_bytes s : text (bytes s) = s.
Proof. apply string_of_list_ascii_of_string. Qed.
Lemma bytes_text l : bytes (text l) = l.
Proof. apply list_ascii_of_string_of_list_ascii. Qed.

Lemma matches_lit f w s k prev rest g : Forall2 (fun a c => f a c = true) (bytes w) s ->
  matches (lit_with f w) k (prev, s ++ rest) g = k (last_of prev s, rest) g.
Proof.
  revert s prev. induction w as [|a w IH]; intros s prev Hf; cbn [bytes list_ascii_of_string] in Hf; inversion Hf as [|? c ? s' Hc Hs]; subst; [reflexivity|].
  cbn [lit_with matches app snd]. rewrite Hc, last_of_cons. apply IH, Hs.
Qed.

Lemma folds_refl w : Forall2 (fun a c => char_folds a c = true) (bytes w) (bytes w).
Proof. induction (bytes w); constructor; [apply bool_decide_eq_true; reflexivity | assumption]. Qed.
Lemma is_refl w : Forall2 (fun a c => char_is a c = true) (bytes w) (bytes w).
Proof. induction (bytes w); constructor; [apply bool_decide_eq_true; reflexivity | assumption]. Qed.

(** A greedy repetition of a class takes the whole run when what follows then succeeds. *)
Lemma matches_run f run k prev rest g x : forallb f run = true -> match rest with c :: _ => f c = false | [] => True end ->
  k (last_of prev run, rest) g = Some x -> matches (RStar true (RChar f)) k (prev, run ++ rest) g = Some x.
Proof.
  intros Hrun Hstop Hk. cbn [matches snd]. generalize (Nat.le_refl (length (run ++ rest))). generalize (length (run ++ rest)) at 2 3. intros n. revert prev Hk.
  revert n. induction run as [|c run IH]; intros n prev Hk Hn.
  - cbn [app] in *. destruct n as [|n]; [exact Hk|]. destruct rest as [|c rest]; [exact Hk|]. cbn [snd]. rewrite Hstop. exact Hk.
  - cbn [forallb] in Hrun. apply andb_prop in Hrun. destruct Hrun as [Hc Hrun]. cbn [app length] in *. destruct n as [|n]; [lia|]. cbn [snd length].
    rewrite Hc. destruct (Nat.ltb_spec (length (run ++ rest)) (S (length (run ++ rest)))); [|lia]. rewrite last_of_cons in Hk.
    rewrite (IH Hrun n (Some c) Hk ltac:(lia)). reflexivity.
Qed.

Lemma matches_plus f run k prev rest g x : run <> [] -> forallb f run = true -> match rest with c :: _ => f c = false | [] => True end ->
  k (last_of prev run, rest) g = Some x -> matches (RPlus (RChar f)) k (prev, run ++ rest) g = Some x.
Proof.
  intros Hne Hrun Hstop Hk. destruct run as [|c run]; [congruence|]. cbn [forallb] in Hrun. apply andb_prop in Hrun. destruct Hrun as [Hc Hrun].
  unfold RPlus. cbn [matches app snd]. rewrite Hc. rewrite last_of_cons in Hk. apply (matches_run f run k (Some c) rest g x Hrun Hstop Hk).
Qed.

(** A group records what it matched. *)
Lemma consumed_app prev s rest prev' : consumed (prev, s ++ rest) (prev', rest) = s.
Proof. unfold consumed. cbn [snd]. rewrite length_app. replace (length s + length rest - length rest)%nat with (length s) by lia. rewrite take_app_length. reflexivity. Qed.

(** A match is one the continuation accepted. *)
Lemma matches_calls r : forall k p g x, matches r k p g = Some x -> exists p' g', k p' g' = Some x.
Proof.
  induction r as [f| |a IHa b IHb|a IHa b IHb|gr a IHa|n a IHa| | |]; intros k p g x E; cbn [matches] in E.
  - destruct p.2 as [|c rest]; [discriminate|]. destruct (f c); [eauto | discriminate].
  - eauto.
  - apply IHa in E. destruct E as (p' & g' & E). apply (IHb _ _ _ _ E).
  - destruct (matches a k p g) as [y|] eqn:Ea; [injection E as ->; apply (IHa _ _ _ _ Ea) | apply (IHb _ _ _ _ E)].
  - revert E. generalize (length p.2) at 1. intros n. revert p g x. induction n as [|n IHn]; intros p g x E.
    + destruct gr, (k p g) as [y|] eqn:Ek; try discriminate; injection E as <-; eauto.
    + match type of E with context [matches a ?kk p g] => destruct (matches a kk p g) as [y|] eqn:Ea end.
      * assert (Hy : exists p' g', k p' g' = Some y).
        { apply IHa in Ea. destruct Ea as (p1 & g1 & Ea). destruct (length p1.2 <? length p.2)%nat; [apply (IHn _ _ _ Ea) | discriminate]. }
        destruct gr; [injection E as <-; exact Hy|]. destruct (k p g) as [z|] eqn:Ek; injection E as <-; [eauto | exact Hy].
      * destruct gr, (k p g) as [z|] eqn:Ek; try discriminate; injection E as <-; eauto.
  - apply IHa in E. destruct E as (p' & g' & E). eauto.
  - destruct p.1; [discriminate | eauto].
  - destruct p.2; [eauto | discriminate].
  - destruct (xorb _ _); [eauto | discriminate].
Qed.

(** A repetition of a class matched characters of the class. *)
Lemma matches_run_inv f k p g x : matches (RStar true (RChar f)) k p g = Some x ->
  exists p' v, forallb f v = true /\ p.2 = v ++ p'.2 /\ k p' g = Some x.
Proof.
  cbn [matches]. generalize (length p.2) at 1. intros n. revert p x. induction n as [|n IHn]; intros p x E.
  - exists p, []. split; [reflexivity|]. split; [reflexivity|]. exact E.
  - destruct p.2 as [|c rest] eqn:Ep.
    + exists p, []. split; [reflexivity|]. split; [symmetry; exact Ep|]. exact E.
    + destruct (f c) eqn:Ef; cycle 1.
      { exists p, []. split; [reflexivity|]. split; [symmetry; exact Ep|]. exact E. }
      match type of E with context [match (if ?b then ?m else None) with Some _ => _ | None => _ end] => destruct (if b then m else None) as [y|] eqn:Em end.
      * injection E as <-. match type of Em with (if ?b then _ else _) = _ => destruct b; [|discriminate] end.
        apply IHn in Em. destruct Em as (p' & v & Hv & Hp & Hk). exists p', (c :: v). split; [cbn; rewrite Ef; exact Hv|]. split; [|exact Hk].
        cbn [snd] in Hp. rewrite Hp. reflexivity.
      * exists p, []. split; [reflexivity|]. split; [symmetry; exact Ep|]. exact E.
Qed.

Lemma find_from_here r : forall rest prev start x, find_from r prev rest = Some (start, x) -> here r start = Some x.
Proof.
  induction rest as [|c rest IH]; intros prev start x; cbn [find_from]; destruct (here r (prev, _)) as [y|] eqn:E; intros H; try discriminate; try (injection H as <- <-; exact E).
  apply (IH _ _ _ H).
Qed.

Lemma find_all_here r : forall fuel prev rest g, In g (find_all fuel r prev rest) -> exists start p, here r start = Some (g, p).
Proof.
  induction fuel as [|fuel IH]; intros prev rest g; cbn [find_all]; [intros []|].
  destruct (find_from r prev rest) as [[start [g' [prev' rest']]]|] eqn:E; [|intros []]. apply find_from_here in E.
  destruct (length rest' <? length start.2)%nat; [|destruct rest' as [|c rest'']]; intros [->|Hg]; eauto. destruct Hg.
Qed.
