(* ===== verification/SqlText.v ===== *)
(** * SQL text: comments, statement tags, COPY (src/pgserver/stmt.go, copy.go, full_match_handler.go)

    What the front end reads off the text of a query: [RemoveLeadingComments],
    [RemoveComments] and [GuessStatementTag] as recursions on the bytes that
    are left, the COPY statements the PostgreSQL parser does not know, and
    [ParseCopyOptions] as the loop over the characters with its local variables
    as a record.  Text is taken as ASCII where the code asks for letters. *)

From Stdlib Require Import Ascii String.
From S2P Require Import Prelude Identifier CatalogErrors Regexp.

#[local] Open Scope list_scope.
#[local] Open Scope char_scope.

(** ** Package strings *)
Definition to_upper (c : ascii) : ascii := if is_lower c then ascii_of_nat (code c - 32) else c.
Definition strings_ToUpper (s : string) : string := text (map to_upper (bytes s)).
Definition strings_ToLower (s : string) : string := text (map fold_char (bytes s)).
(** [unicode.IsSpace] up to 255. *)
Definition unicode_space (c : ascii) : bool := existsb (Nat.eqb (code c)) [9; 10; 11; 12; 13; 32; 133; 160]%nat.
Fixpoint trim_left (l : list ascii) : list ascii := match l with c :: l' => if unicode_space c then trim_left l' else l | [] => [] end.
Definition strings_TrimSpace (s : string) : string := text (rev (trim_left (rev (trim_left (bytes s))))).
Definition is_letter (c : ascii) : bool := is_upper c || is_lower c.

Definition newline : ascii := "010".
Definition backslash : ascii := "092".

(** ** Comments *)

(** The rest after the comment of nesting level [n] is closed. *)
Fixpoint skip_block (n : nat) (l : list ascii) : option (list ascii) :=
  match l with
  | [] => None
  | c :: l1 =>
      match l1 with
      | d :: l2 =>
          if char_is "/" c && char_is "*" d then skip_block (S n) l2
          else if char_is "*" c && char_is "/" d then match n with S (S m) => skip_block (S m) l2 | _ => Some l2 end
          else skip_block n l1
      | [] => None
      end
  end.

(** The rest after the end of the line. *)
Fixpoint skip_line (l : list ascii) : option (list ascii) :=
  match l with [] => None | c :: l' => if char_is newline c then Some l' else skip_line l' end.

Definition starts_line_comment (l : list ascii) : bool := match l with a :: b :: _ => char_is "-" a && char_is "-" b | _ => false end.
Definition starts_block_comment (l : list ascii) : bool := match l with a :: b :: _ => char_is "/" a && char_is "*" b | _ => false end.

(** [fuel]: the length of the text is enough. *)
Fixpoint leading (fuel : nat) (l : list ascii) : list ascii :=
  match fuel with
  | O => l
  | S fuel =>
      if starts_line_comment l then match skip_line l with Some l' => leading fuel l' | None => [] end
      else if starts_block_comment l then match skip_block 1 (drop 2 l) with Some l' => leading fuel l' | None => [] end
      else match l with c :: l' => if unicode_space c then leading fuel l' else l | [] => [] end
  end.
Definition RemoveLeadingComments (query : string) : string := text (leading (String.length query) (bytes query)).

(** A literal after its opening quote: what is copied, and the rest. *)
Fixpoint string_literal (l : list ascii) : list ascii * list ascii :=
  match l with
  | [] => ([], [])
  | c :: l1 =>
      if char_is "'" c then (["'"], l1)
      else match l1 with
           | d :: l2 => if char_is backslash c then let '(out, rest) := string_literal l2 in (c :: d :: out, rest)
                        else let '(out, rest) := string_literal l1 in (c :: out, rest)
           | [] => ([c], [])
           end
  end.

Fixpoint quoted_identifier (l : list ascii) : list ascii * list ascii :=
  match l with
  | [] => ([], [])
  | c :: l1 => if char_is dq c then ([dq], l1) else let '(out, rest) := quoted_identifier l1 in (c :: out, rest)
  end.

(** The characters of a tag, and the rest. *)
Fixpoint tag_chars (l : list ascii) : list ascii * list ascii :=
  match l with
  | c :: l1 => if is_letter c || is_digit c || char_is "_" c then let '(tag, rest) := tag_chars l1 in (c :: tag, rest) else ([], l)
  | [] => ([], [])
  end.
Fixpoint prefix_of (p l : list ascii) : bool :=
  match p, l with [], _ => true | a :: p', b :: l' => char_is a b && prefix_of p' l' | _ :: _, [] => false end.
(** Up to and with the closing tag. *)
Fixpoint dollar_body (tag l : list ascii) : list ascii * list ascii :=
  if prefix_of tag l then (tag, drop (length tag) l)
  else match l with [] => ([], []) | c :: l1 => let '(out, rest) := dollar_body tag l1 in (c :: out, rest) end.

(** One piece of the text: what is written for it, and the rest. *)
Definition piece (l : list ascii) : list ascii * list ascii :=
  if starts_line_comment l then match skip_line (drop 2 l) with Some rest => ([newline], rest) | None => ([], []) end
  else if starts_block_comment l then match skip_block 1 (drop 2 l) with Some rest => ([], rest) | None => ([], []) end
  else match l with
       | [] => ([], [])
       | c :: l1 =>
           if char_is "'" c then let '(out, rest) := string_literal l1 in ("'" :: out, rest)
           else if char_is "E" c && match l1 with d :: _ => char_is "'" d | [] => false end
           then let '(out, rest) := string_literal (drop 1 l1) in ("E" :: "'" :: out, rest)
           else if char_is "$" c && match snd (tag_chars l1) with d :: _ => char_is "$" d | [] => false end
           then let tag := "$" :: fst (tag_chars l1) ++ ["$"] in
                let '(out, rest) := dollar_body tag (drop 1 (snd (tag_chars l1))) in (tag ++ out, rest)
           else if char_is dq c then let '(out, rest) := quoted_identifier l1 in (dq :: out, rest)
           else ([c], l1)
       end.
(** Every piece takes at least one character. *)
Fixpoint pieces (fuel : nat) (l : list ascii) : list ascii :=
  match fuel, l with
  | S fuel, _ :: _ => let '(out, rest) := piece l in out ++ pieces fuel rest
  | _, _ => []
  end.
Definition RemoveComments (query : string) : string := text (pieces (String.length query) (bytes query)).

(** ** Statement tags *)
Definition wellKnownStatementTags : list string :=
  ["SELECT"; "INSERT"; "UPDATE"; "DELETE"; "CALL"; "PRAGMA"; "COPY"; "ALTER"; "CREATE"; "DROP"; "PREPARE"; "EXECUTE"; "ATTACH"; "DETACH"]%string.
Definition IsWellKnownStatementTag (tag : string) : bool := bool_decide (tag ∈ wellKnownStatementTags).

Inductive StmtType : Type :=
| ST_SELECT | ST_INSERT | ST_UPDATE | ST_DELETE | ST_CALL | ST_PRAGMA | ST_COPY | ST_ALTER | ST_CREATE | ST_CREATE_FUNC | ST_DROP | ST_PREPARE
| ST_EXECUTE | ST_ATTACH | ST_DETACH | ST_TRANSACTION | ST_ANALYZE | ST_EXPLAIN | ST_SET | ST_VARIABLE_SET | ST_EXPORT | ST_LOAD | ST_RELATION | ST_OTHER.
#[export] Instance StmtType_eq : EqDecision StmtType. Proof. solve_decision. Defined.

Definition GetStatementTag (t : StmtType) : string :=
  match t with
  | ST_SELECT => "SELECT" | ST_INSERT => "INSERT" | ST_UPDATE => "UPDATE" | ST_DELETE => "DELETE" | ST_CALL => "CALL" | ST_PRAGMA => "PRAGMA"
  | ST_COPY => "COPY" | ST_ALTER => "ALTER" | ST_CREATE => "CREATE" | ST_CREATE_FUNC => "CREATE FUNCTION" | ST_DROP => "DROP" | ST_PREPARE => "PREPARE"
  | ST_EXECUTE => "EXECUTE" | ST_ATTACH => "ATTACH" | ST_DETACH => "DETACH" | ST_TRANSACTION => "TRANSACTION" | ST_ANALYZE => "ANALYZE"
  | ST_EXPLAIN => "EXPLAIN" | ST_SET => "SET" | ST_VARIABLE_SET => "SET VARIABLE" | ST_EXPORT => "EXPORT" | ST_LOAD => "LOAD"
  | ST_RELATION | ST_OTHER => "UNKNOWN"
  end%string.

Fixpoint letters (l : list ascii) : list ascii :=
  match l with c :: l' => if is_letter c || char_is "_" c then c :: letters l' else [] | [] => [] end.

Section Text.
(** [sql.RemoveSpaceAndDelimiter query ';'] of go-mysql-server. *)
Context (RemoveSpaceAndDelimiter : string -> string).

Definition GuessStatementTag (query : string) : string :=
  strings_ToUpper (text (letters (bytes (RemoveSpaceAndDelimiter (RemoveLeadingComments query))))).

(** ** COPY *)
Inductive CopyFormat : Type := CopyFormatText | CopyFormatBinary | CopyFormatCSV | CopyFormatParquet | CopyFormatJSON | CopyFormatArrow.

Definition ParseFormat (s : string) : option CopyFormat :=
  let u := strings_ToUpper s in
  if decide (u = "PARQUET"%string) then Some CopyFormatParquet
  else if decide (u = "JSON"%string) then Some CopyFormatJSON
  else if decide (u = "ARROW"%string) then Some CopyFormatArrow
  else if decide (u = "CSV"%string) then Some CopyFormatCSV
  else if decide (u = "BINARY"%string) then Some CopyFormatBinary
  else if decide (u = EmptyString) then Some CopyFormatText
  else if decide (u = "TEXT"%string) then Some CopyFormatText
  else None.

Definition any_char : re := RChar (fun c => negb (char_is newline c)).
Definition sp : re := RPlus (RChar is_space).
Definition sp0 : re := RStar true (RChar is_space).
Definition lazily (n : nat) : re := RGroup n (RStar false any_char).
(** The optional parenthesis after STDOUT or STDIN, and the end. *)
Definition copy_options : re :=
  RSeq (ROpt (Regexp.seq [sp; ROpt (Regexp.seq [lit_i "WITH"; sp0]); lit_i "("; sp0;
    ROpt (Regexp.seq [lit_i "FORMAT"; sp; RGroup 2 (RPlus (RChar is_word)); sp0; ROpt (lit_i ","); sp0]); lazily 3; sp0; lit_i ")"])) REnd.
Definition reCopyToFormat : re := Regexp.seq [RBegin; lit_i "COPY"; sp; lazily 1; sp; lit_i "TO"; sp; lit_i "STDOUT"; copy_options].
Definition reCopyFromFormat : re := Regexp.seq [RBegin; lit_i "COPY"; sp; lazily 1; sp; lit_i "FROM"; sp; lit_i "STDIN"; copy_options].

(** The target or subquery, the format and the options. *)
Definition parse_copy (r : re) (stmt : string) : option (string * CopyFormat * string) :=
  match FindStringSubmatch r (RemoveSpaceAndDelimiter (RemoveComments stmt)) with
  | None => None
  | Some m =>
      match ParseFormat (strings_TrimSpace (group 2 m)) with
      | None => None
      | Some format => Some (strings_TrimSpace (group 1 m), format, strings_TrimSpace (group 3 m))
      end
  end.
Definition ParseCopyTo : string -> option (string * CopyFormat * string) := parse_copy reCopyToFormat.
Definition ParseCopyFrom : string -> option (string * CopyFormat * string) := parse_copy reCopyFromFormat.
End Text.

(** ** The options of COPY *)
Inductive OptionValueType : Type := OptionValueTypeBool | OptionValueTypeInt | OptionValueTypeFloat | OptionValueTypeString.
Inductive OptionValue (F : Type) : Type := OptBool (b : bool) | OptInt (z : Z) | OptFloat (f : F) | OptString (s : string).
Arguments OptBool {F}. Arguments OptInt {F}. Arguments OptFloat {F}. Arguments OptString {F}.

(** [strconv.ParseBool] and [strconv.Atoi]. *)
Definition ParseBool (v : string) : option bool :=
  if bool_decide (v ∈ ["1"; "t"; "T"; "true"; "TRUE"; "True"]%string) then Some true
  else if bool_decide (v ∈ ["0"; "f"; "F"; "false"; "FALSE"; "False"]%string) then Some false else None.
Fixpoint decimal (acc : Z) (l : list ascii) : option Z :=
  match l with [] => Some acc | c :: l' => if is_digit c then decimal (acc * 10 + (Z.of_nat (code c) - 48)) l' else None end.
Definition in_int64 (z : Z) : option Z := if (- 2 ^ 63 <=? z)%Z && (z <? 2 ^ 63)%Z then Some z else None.
Definition Atoi (v : string) : option Z :=
  match bytes v with
  | [] => None
  | c :: l =>
      if char_is "-" c then match l with [] => None | _ => z ← decimal 0 l; in_int64 (- z) end
      else if char_is "+" c then match l with [] => None | _ => z ← decimal 0 l; in_int64 z end
      else z ← decimal 0 (c :: l); in_int64 z
  end.

(** A pair of quotes stands for one. *)
Fixpoint undouble (l : list ascii) : list ascii :=
  match l with
  | c :: l1 => match l1 with d :: l2 => if char_is "'" c && char_is "'" d then "'" :: undouble l2 else c :: undouble l1 | [] => [c] end
  | [] => []
  end.
Definition has_suffix_quote (l : list ascii) : bool := match last l with Some c => char_is "'" c | None => false end.
(** [v[n:len(v)-1]]. *)
Definition inside (n : nat) (l : list ascii) : outcome (list ascii) :=
  if (n <=? length l - 1)%nat then Ret (drop n (take (length l - 1) l)) else Panic.

Section CopyOptions.
Context {F : Type} (ParseFloat : string -> option F) (Unquote : string -> option string) (allowed : string -> option OptionValueType).

(** A typed value of option [k]: [None] for an error. *)
Definition string_value (v : string) : outcome (option string) :=
  let l := bytes v in
  if prefix_of ["E"; "'"] l && has_suffix_quote l then b ← inside 2 l; Ret (Unquote (text (dq :: b ++ [dq])))
  else if prefix_of ["'"] l && has_suffix_quote l then b ← inside 1 l; Ret (Some (text (undouble b)))
  else Ret None.
Definition option_value (t : OptionValueType) (v : string) : outcome (option (OptionValue F)) :=
  match t with
  | OptionValueTypeBool => Ret (if decide (v = EmptyString) then Some (OptBool true) else option_map OptBool (ParseBool v))
  | OptionValueTypeInt => Ret (option_map OptInt (Atoi v))
  | OptionValueTypeFloat => Ret (option_map OptFloat (ParseFloat v))
  | OptionValueTypeString => s ← string_value v; Ret (option_map OptString s)
  end.

Record OptState : Type := mkOpt {
  o_key : string; o_value : string; inQuotes : bool; expectComma : bool; readingKey : bool; sb : list ascii; result : gmap string (OptionValue F)
}.

(** The closure [parseOption]. *)
Definition parseOption (s : OptState) : outcome (option OptState) :=
  let k := strings_TrimSpace (o_key s) in
  if decide (k = EmptyString) then Ret (Some s) else
  let k := strings_ToUpper k in
  match allowed k with
  | None => Ret None
  | Some t =>
      r ← option_value t (strings_TrimSpace (o_value s));
      Ret (match r with
           | None => None
           | Some v => Some (mkOpt EmptyString EmptyString (inQuotes s) (expectComma s) true (sb s) (<[k := v]> (result s)))
           end)
  end.

(** The text so far is the key or the value. *)
Definition take_word (s : OptState) : OptState :=
  if readingKey s then mkOpt (text (sb s)) (o_value s) (inQuotes s) (expectComma s) (readingKey s) (sb s) (result s)
  else mkOpt (o_key s) (text (sb s)) (inQuotes s) (expectComma s) (readingKey s) (sb s) (result s).
Definition write (c : ascii) (s : OptState) : OptState :=
  mkOpt (o_key s) (o_value s) (inQuotes s) (expectComma s) (readingKey s) (sb s ++ [c]) (result s).

(** One character. *)
Definition opt_char (c : ascii) (s : OptState) : outcome (option OptState) :=
  if expectComma s && negb (char_is "," c) && negb (unicode_space c) then Ret None
  else if char_is "'" c then
    let s := mkOpt (o_key s) (o_value s) (negb (inQuotes s)) (expectComma s) (readingKey s) (sb s) (result s) in Ret (Some (write c s))
  else if char_is "," c then
    (if inQuotes s then Ret (Some (write c s))
     else r ← parseOption (take_word s);
          Ret (option_map (fun s => mkOpt (o_key s) (o_value s) (inQuotes s) false (readingKey s) [] (result s)) r))
  else if unicode_space c && negb (inQuotes s) then
    Ret (Some (match sb s with
               | [] => s
               | _ => if readingKey s then mkOpt (text (sb s)) (o_value s) (inQuotes s) (expectComma s) false [] (result s)
                      else mkOpt (o_key s) (o_value s) (inQuotes s) true (readingKey s) (sb s) (result s)
               end))
  else Ret (Some (write c s)).

Fixpoint opt_chars (l : list ascii) (s : OptState) : outcome (option OptState) :=
  match l with
  | [] => Ret (Some s)
  | c :: l' => r ← opt_char c s; match r with None => Ret None | Some s => opt_chars l' s end
  end.

Definition opt_start : OptState := mkOpt EmptyString EmptyString false false true [] ∅.
Definition opt_finish (s : OptState) : outcome (option (gmap string (OptionValue F))) :=
  match sb s with [] => Ret (Some (result s)) | _ => r ← parseOption (take_word s); Ret (option_map result r) end.
Definition ParseCopyOptions (options : string) : outcome (option (gmap string (OptionValue F))) :=
  r ← opt_chars (bytes options) opt_start; match r with None => Ret None | Some s => opt_finish s end.
End CopyOptions.

(** ** Hard-coded queries *)
Definition preProcessing (inputQuery : string) : string :=
  strings_ToLower (text (filter (fun c => existsb (Nat.eqb (code c)) [32; 10; 13; 9]%nat = false) (bytes inputQuery))).
Definition queryPatterns : list (string * string) :=
  [("SELECT pg_type.oid, enumlabel FROM pg_enum JOIN pg_type ON pg_type.oid=enumtypid ORDER BY oid, enumsortorder",
    "SELECT pg_type.oid, pg_enum.enumlabel FROM pg_enum JOIN pg_type ON pg_type.oid=enumtypid ORDER BY pg_type.oid, pg_enum.enumsortorder;")]%string.
Definition handleFullMatchQuery (inputQuery : string) : string :=
  match list_find (fun p => preProcessing p.1 = preProcessing inputQuery) queryPatterns with Some (_, p) => p.2 | None => EmptyString end.
