(* ===== verification/PsqlCommands.v ===== *)
(** * The commands of psql

    [handledPSQLCommands] of src/pgserver/connection_handler.go recognises the
    queries that psql sends for its backslash commands, in lower case, and runs
    another query in their place.  A back quote in a text below stands for the
    double quote. *)
From Stdlib Require Import Ascii String.
From stdpp Require Import base strings list.
From S2P Require Import Prelude Regexp SqlText.

#[local] Open Scope string_scope.

(** What is done for a command: a query that is converted first, a query that
    is run as it is, or an error. *)
Inductive PsqlAction : Type := ConvertAndRun (query : string) | RunPlain (query : string) | NotSupported.

Definition requote (s : string) : string := text (map (fun c => if char_is "`" c then "034"%char else c) (bytes s)).
Definition has_prefix (p s : string) : bool := prefix_of (bytes p) (bytes s).
Definition has_suffix (p s : string) : bool := prefix_of (rev (bytes p)) (rev (bytes s)).

Definition list_databases : string := requote "select d.datname as `name`,
       pg_catalog.pg_get_userbyid(d.datdba) as `owner`,
       pg_catalog.pg_encoding_to_char(d.encoding) as `encoding`,
       d.datcollate as `collate`,
       d.datctype as `ctype`,
       d.daticulocale as `icu locale`,
       case d.datlocprovider when 'c' then 'libc' when 'i' then 'icu' end as `locale provider`,
       pg_catalog.array_to_string(d.datacl, e'\n') as `access privileges`
from pg_catalog.pg_database d
order by 1;".
Definition list_databases_answer : string := requote "select d.datname as `Name`, 'postgres' as `Owner`, 'UTF8' as `Encoding`, 'en_US.UTF-8' as `Collate`, 'en_US.UTF-8' as `Ctype`, 'en-US' as `ICU Locale`, case d.datlocprovider when 'c' then 'libc' when 'i' then 'icu' end as `locale provider`, '' as `access privileges` from pg_catalog.pg_database d order by 1;".

Definition list_databases_16 : string := requote "select
  d.datname as `name`,
  pg_catalog.pg_get_userbyid(d.datdba) as `owner`,
  pg_catalog.pg_encoding_to_char(d.encoding) as `encoding`,
  case d.datlocprovider when 'c' then 'libc' when 'i' then 'icu' end as `locale provider`,
  d.datcollate as `collate`,
  d.datctype as `ctype`,
  d.daticulocale as `icu locale`,
  null as `icu rules`,
  pg_catalog.array_to_string(d.datacl, e'\n') as `access privileges`
from pg_catalog.pg_database d
order by 1;".

Definition list_tables : string := requote "select n.nspname as `schema`,
  c.relname as `name`,
  case c.relkind when 'r' then 'table' when 'v' then 'view' when 'm' then 'materialized view' when 'i' then 'index' when 's' then 'sequence' when 't' then 'toast table' when 'f' then 'foreign table' when 'p' then 'partitioned table' when 'i' then 'partitioned index' end as `type`,
  pg_catalog.pg_get_userbyid(c.relowner) as `owner`
from pg_catalog.pg_class c
     left join pg_catalog.pg_namespace n on n.oid = c.relnamespace
     left join pg_catalog.pg_am am on am.oid = c.relam
where c.relkind in ('r','p','')
      and n.nspname <> 'pg_catalog'
      and n.nspname !~ '^pg_toast'
      and n.nspname <> 'information_schema'
  and pg_catalog.pg_table_is_visible(c.oid)
order by 1,2;".
Definition list_tables_answer : string := requote "SELECT table_schema AS `Schema`, TABLE_NAME AS `Name`, 'table' AS `Type`, 'postgres' AS `Owner` FROM INFORMATION_SCHEMA.TABLES WHERE TABLE_SCHEMA <> 'pg_catalog' AND TABLE_SCHEMA <> 'information_schema' AND TABLE_TYPE = 'BASE TABLE' ORDER BY 2;".

Definition list_relations : string := requote "select n.nspname as `schema`,
  c.relname as `name`,
  case c.relkind when 'r' then 'table' when 'v' then 'view' when 'm' then 'materialized view' when 'i' then 'index' when 's' then 'sequence' when 't' then 'toast table' when 'f' then 'foreign table' when 'p' then 'partitioned table' when 'i' then 'partitioned index' end as `type`,
  pg_catalog.pg_get_userbyid(c.relowner) as `owner`
from pg_catalog.pg_class c
     left join pg_catalog.pg_namespace n on n.oid = c.relnamespace
     left join pg_catalog.pg_am am on am.oid = c.relam
where c.relkind in ('r','p','v','m','s','f','')
      and n.nspname <> 'pg_catalog'
      and n.nspname !~ '^pg_toast'
      and n.nspname <> 'information_schema'
  and pg_catalog.pg_table_is_visible(c.oid)
order by 1,2;".
Definition list_relations_answer : string := requote "SELECT table_schema AS `Schema`, TABLE_NAME AS `Name`, IF(TABLE_TYPE = 'VIEW', 'view', 'table') AS `Type`, 'postgres' AS `Owner` FROM INFORMATION_SCHEMA.TABLES WHERE TABLE_SCHEMA <> 'pg_catalog' AND TABLE_SCHEMA <> 'information_schema' AND TABLE_TYPE = 'BASE TABLE' OR TABLE_TYPE = 'VIEW' ORDER BY 2;".

Definition list_relations_14 : string := requote "select n.nspname as `schema`,
  c.relname as `name`,
  case c.relkind when 'r' then 'table' when 'v' then 'view' when 'm' then 'materialized view' when 'i' then 'index' when 's' then 'sequence' when 's' then 'special' when 't' then 'toast table' when 'f' then 'foreign table' when 'p' then 'partitioned table' when 'i' then 'partitioned index' end as `type`,
  pg_catalog.pg_get_userbyid(c.relowner) as `owner`
from pg_catalog.pg_class c
     left join pg_catalog.pg_namespace n on n.oid = c.relnamespace
     left join pg_catalog.pg_am am on am.oid = c.relam
where c.relkind in ('r','p','v','m','s','f','')
      and n.nspname <> 'pg_catalog'
      and n.nspname !~ '^pg_toast'
      and n.nspname <> 'information_schema'
  and pg_catalog.pg_table_is_visible(c.oid)
order by 1,2;".

Definition describe_prefix : string := requote "select c.oid,
  n.nspname,
  c.relname
from pg_catalog.pg_class c
     left join pg_catalog.pg_namespace n on n.oid = c.relnamespace
where c.relname operator(pg_catalog.~) '^(".
Definition describe_suffix : string := requote ")$' collate pg_catalog.default
  and pg_catalog.pg_table_is_visible(c.oid)
order by 2, 3;".

Definition list_schemas : string := requote "select n.nspname as `name`,
  pg_catalog.pg_get_userbyid(n.nspowner) as `owner`
from pg_catalog.pg_namespace n
where n.nspname !~ '^pg_' and n.nspname <> 'information_schema'
order by 1;".
Definition list_schemas_answer : string := requote "SELECT 'public' AS `Name`, 'pg_database_owner' AS `Owner`;".

Definition list_functions : string := requote "select n.nspname as `schema`,
  p.proname as `name`,
  pg_catalog.pg_get_function_result(p.oid) as `result data type`,
  pg_catalog.pg_get_function_arguments(p.oid) as `argument data types`,
 case p.prokind
  when 'a' then 'agg'
  when 'w' then 'window'
  when 'p' then 'proc'
  else 'func'
 end as `type`
from pg_catalog.pg_proc p
     left join pg_catalog.pg_namespace n on n.oid = p.pronamespace
where pg_catalog.pg_function_is_visible(p.oid)
      and n.nspname <> 'pg_catalog'
      and n.nspname <> 'information_schema'
order by 1, 2, 4;".
Definition list_functions_answer : string := requote "SELECT '' AS `Schema`, '' AS `Name`, '' AS `Result data type`, '' AS `Argument data types`, '' AS `Type` LIMIT 0;".

Definition list_views : string := requote "select n.nspname as `schema`,
  c.relname as `name`,
  case c.relkind when 'r' then 'table' when 'v' then 'view' when 'm' then 'materialized view' when 'i' then 'index' when 's' then 'sequence' when 't' then 'toast table' when 'f' then 'foreign table' when 'p' then 'partitioned table' when 'i' then 'partitioned index' end as `type`,
  pg_catalog.pg_get_userbyid(c.relowner) as `owner`
from pg_catalog.pg_class c
     left join pg_catalog.pg_namespace n on n.oid = c.relnamespace
where c.relkind in ('v','')
      and n.nspname <> 'pg_catalog'
      and n.nspname !~ '^pg_toast'
      and n.nspname <> 'information_schema'
  and pg_catalog.pg_table_is_visible(c.oid)
order by 1,2;".
Definition list_views_answer : string := requote "SELECT table_schema AS `Schema`, TABLE_NAME AS `Name`, 'view' AS `Type`, 'postgres' AS `Owner` FROM INFORMATION_SCHEMA.TABLES WHERE TABLE_SCHEMA <> 'pg_catalog' AND TABLE_SCHEMA <> 'information_schema' AND TABLE_TYPE = 'VIEW' ORDER BY 2;".

Definition list_users : string := requote "select r.rolname, r.rolsuper, r.rolinherit,
  r.rolcreaterole, r.rolcreatedb, r.rolcanlogin,
  r.rolconnlimit, r.rolvaliduntil,
  array(select b.rolname
        from pg_catalog.pg_auth_members m
        join pg_catalog.pg_roles b on (m.roleid = b.oid)
        where m.member = r.oid) as memberof
, r.rolreplication
, r.rolbypassrls
from pg_catalog.pg_roles r
where r.rolname !~ '^pg_'
order by 1;".
Definition list_users_answer : string := requote "SELECT '' FROM dual LIMIT 0;".

(** The statement is already in lower case. *)
Definition PsqlCommand (statement : string) : option PsqlAction :=
  if decide (statement = list_databases) then Some (ConvertAndRun list_databases_answer) else
  if decide (statement = list_databases_16) then Some (ConvertAndRun list_databases_answer) else
  if decide (statement = list_tables) then Some (RunPlain list_tables_answer) else
  if decide (statement = list_relations) then Some (RunPlain list_relations_answer) else
  if decide (statement = list_relations_14) then Some (RunPlain list_relations_answer) else
  if has_prefix describe_prefix statement && has_suffix describe_suffix statement then Some NotSupported else
  if decide (statement = list_schemas) then Some (RunPlain list_schemas_answer) else
  if decide (statement = list_functions) then Some (RunPlain list_functions_answer) else
  if decide (statement = list_views) then Some (RunPlain list_views_answer) else
  if decide (statement = list_users) then Some (RunPlain list_users_answer) else
  None.
#[global] Arguments PsqlCommand : simpl never.
