(* ===== verification/PgConfig.v ===== *)
(** * PostgreSQL configuration parameters (src/pgserver/pgconfig)

    The parameters that SET, SHOW and RESET know: their table
    (parameters_list.go) without the descriptions, and what a parameter accepts
    (parameters.go).  The conversion of a value to the type of a parameter
    belongs to go-mysql-server and is an argument; what is used of it is
    [SysTypesLaws].  The zone of the machine and the time zone database are
    arguments too. *)
From Stdlib Require Import Ascii String.
From stdpp Require Import base strings list.
From S2P Require Import Prelude Regexp SqlText PsqlCommands.

#[local] Open Scope string_scope.
#[local] Open Scope list_scope.
#[local] Open Scope Z_scope.

(** ** Values and types *)

(** [VFloat n k] is the decimal n / 10^k. *)
Inductive value : Type := VInt (z : Z) | VFloat (n : Z) (k : nat) | VString (s : string) | VNil.
#[export] Instance value_eq_dec : EqDecision value.
Proof. solve_decision. Defined.

(** [types.NewSystemBoolType] and the others; a missing bound is math.MaxFloat64. *)
Inductive SystemType : Type :=
| SysBool | SysString
| SysInt (lo hi : Z) (negativeOne : bool)
| SysDouble (lo : Z * nat) (hi : option (Z * nat))
| SysEnum (values : list string).

Inductive ParameterContext : Type :=
  ContextInternal | ContextPostmaster | ContextSighup | ContextSuperUserBackend | ContextBackend | ContextSuperUser | ContextUser.
Inductive ParameterSource : Type := SourceClient | SourceConfigurationFile | SourceDefault | SourceOverride.

(** The last field says whether there is a [ValidateFunc]. *)
Record PgParameter : Type := mkParameter {
  p_Name : string; p_Default : value; p_Context : ParameterContext; p_Type : SystemType; p_Source : ParameterSource; p_ResetVal : value; p_Validated : bool
}.

(** ** The table *)
Definition parameters_1 : list (string * PgParameter) := [
  ("allow_in_place_tablespaces", mkParameter "allow_in_place_tablespaces" (VInt 0) ContextSuperUser SysBool SourceDefault (VInt 0) false);
  ("allow_system_table_mods", mkParameter "allow_system_table_mods" (VInt 0) ContextSuperUser SysBool SourceDefault (VInt 0) false);
  ("application_name", mkParameter "application_name" (VString "psql") ContextUser SysString SourceClient (VString "psql") false);
  ("archive_cleanup_command", mkParameter "archive_cleanup_command" (VString EmptyString) ContextSighup SysString SourceDefault (VString EmptyString) false);
  ("archive_command", mkParameter "archive_command" (VString "(disabled)") ContextSighup SysString SourceDefault (VString EmptyString) false);
  ("archive_library", mkParameter "archive_library" (VString EmptyString) ContextSighup SysString SourceDefault (VString EmptyString) false);
  ("archive_mode", mkParameter "archive_mode" (VString "off") ContextPostmaster (SysEnum ["always"; "on"; "off"]) SourceDefault (VString "off") false);
  ("archive_timeout", mkParameter "archive_timeout" (VInt 0) ContextSighup (SysInt 0 1073741823 false) SourceDefault (VInt 0) false);
  ("array_nulls", mkParameter "array_nulls" (VInt 1) ContextUser SysBool SourceDefault (VInt 1) false);
  ("authentication_timeout", mkParameter "authentication_timeout" (VInt 60) ContextSighup (SysInt 1 600 false) SourceDefault (VInt 60) false);
  ("autovacuum", mkParameter "autovacuum" (VInt 1) ContextSighup SysBool SourceDefault (VInt 1) false);
  ("autovacuum_analyze_scale_factor", mkParameter "autovacuum_analyze_scale_factor" (VFloat 1 1) ContextSighup (SysDouble (0, 0%nat) (Some (100, 0%nat))) SourceDefault (VFloat 1 1) false);
  ("autovacuum_analyze_threshold", mkParameter "autovacuum_analyze_threshold" (VInt 50) ContextSighup (SysInt 0 2147483647 false) SourceDefault (VInt 50) false)
].

Definition parameters_2 : list (string * PgParameter) := [
  ("autovacuum_freeze_max_age", mkParameter "autovacuum_freeze_max_age" (VInt 2000000000) ContextPostmaster (SysInt 100000 2000000000 false) SourceDefault (VInt 2000000000) false);
  ("autovacuum_max_workers", mkParameter "autovacuum_max_workers" (VInt 3) ContextPostmaster (SysInt 1 262143 false) SourceDefault (VInt 3) false);
  ("autovacuum_multixact_freeze_max_age", mkParameter "autovacuum_multixact_freeze_max_age" (VInt 400000000) ContextPostmaster (SysInt 10000 2000000000 false) SourceDefault (VInt 400000000) false);
  ("autovacuum_naptime", mkParameter "autovacuum_naptime" (VInt 60) ContextSighup (SysInt 1 2147483 false) SourceDefault (VInt 60) false);
  ("autovacuum_vacuum_cost_delay", mkParameter "autovacuum_vacuum_cost_delay" (VFloat 2 0) ContextSighup (SysDouble ((-1), 0%nat) (Some (100, 0%nat))) SourceDefault (VFloat 2 0) false);
  ("autovacuum_vacuum_cost_limit", mkParameter "autovacuum_vacuum_cost_limit" (VInt (-1)) ContextSighup (SysInt (-1) 10000 true) SourceDefault (VInt (-1)) false);
  ("autovacuum_vacuum_insert_scale_factor", mkParameter "autovacuum_vacuum_insert_scale_factor" (VFloat 2 1) ContextSighup (SysDouble (0, 0%nat) (Some (100, 0%nat))) SourceDefault (VFloat 2 1) false);
  ("autovacuum_vacuum_insert_threshold", mkParameter "autovacuum_vacuum_insert_threshold" (VInt 1000) ContextSighup (SysInt (-1) 2147483647 true) SourceDefault (VInt 1000) false);
  ("autovacuum_vacuum_scale_factor", mkParameter "autovacuum_vacuum_scale_factor" (VFloat 2 1) ContextSighup (SysDouble (0, 0%nat) (Some (100, 0%nat))) SourceDefault (VFloat 2 1) false);
  ("autovacuum_vacuum_threshold", mkParameter "autovacuum_vacuum_threshold" (VInt 50) ContextSighup (SysInt 0 2147483647 false) SourceDefault (VInt 50) false);
  ("autovacuum_work_mem", mkParameter "autovacuum_work_mem" (VInt (-1)) ContextSighup (SysInt (-1) 2147483647 true) SourceDefault (VInt (-1)) false);
  ("backend_flush_after", mkParameter "backend_flush_after" (VInt 0) ContextUser (SysInt 0 256 false) SourceDefault (VInt 0) false);
  ("backslash_quote", mkParameter "backslash_quote" (VString "safe_encoding") ContextUser (SysEnum ["safe_encoding"; "on"; "ff"]) SourceDefault (VString "safe_encoding") false)
].

Definition parameters_3 : list (string * PgParameter) := [
  ("backtrace_functions", mkParameter "backtrace_functions" (VString EmptyString) ContextSuperUser SysString SourceDefault (VString EmptyString) false);
  ("bgwriter_delay", mkParameter "bgwriter_delay" (VInt 200) ContextSighup (SysInt 10 10000 false) SourceDefault (VInt 200) false);
  ("bgwriter_flush_after", mkParameter "bgwriter_flush_after" (VInt 0) ContextSighup (SysInt 0 256 false) SourceDefault (VInt 0) false);
  ("bgwriter_lru_maxpages", mkParameter "bgwriter_lru_maxpages" (VInt 100) ContextSighup (SysInt 0 1073741823 false) SourceDefault (VInt 100) false);
  ("bgwriter_lru_multiplier", mkParameter "bgwriter_lru_multiplier" (VFloat 2 0) ContextSighup (SysDouble (0, 0%nat) (Some (10, 0%nat))) SourceDefault (VFloat 2 0) false);
  ("block_size", mkParameter "block_size" (VInt 8192) ContextInternal (SysInt 8192 8192 false) SourceDefault (VInt 8192) false);
  ("bonjour", mkParameter "bonjour" (VInt 0) ContextPostmaster SysBool SourceDefault (VInt 0) false);
  ("bonjour_name", mkParameter "bonjour_name" (VString EmptyString) ContextPostmaster SysString SourceDefault (VString EmptyString) false);
  ("bytea_output", mkParameter "bytea_output" (VString "hex") ContextUser (SysEnum ["escape"; "hex"]) SourceDefault (VString "hex") false);
  ("check_function_bodies", mkParameter "check_function_bodies" (VInt 1) ContextUser SysBool SourceDefault (VInt 1) false);
  ("checkpoint_completion_target", mkParameter "checkpoint_completion_target" (VFloat 9 1) ContextSighup (SysDouble (0, 0%nat) (Some (1, 0%nat))) SourceDefault (VFloat 9 1) false);
  ("checkpoint_flush_after", mkParameter "checkpoint_flush_after" (VInt 0) ContextSighup (SysInt 0 256 false) SourceDefault (VInt 0) false);
  ("checkpoint_timeout", mkParameter "checkpoint_timeout" (VInt 300) ContextSighup (SysInt 30 86400 false) SourceDefault (VInt 300) false)
].

Definition parameters_4 : list (string * PgParameter) := [
  ("checkpoint_warning", mkParameter "checkpoint_warning" (VInt 30) ContextSighup (SysInt 0 2147483647 false) SourceDefault (VInt 30) false);
  ("client_connection_check_interval", mkParameter "client_connection_check_interval" (VInt 0) ContextUser (SysInt 0 2147483647 false) SourceDefault (VInt 0) false);
  ("client_encoding", mkParameter "client_encoding" (VString "UTF8") ContextUser SysString SourceClient (VString "UTF8") false);
  ("client_min_messages", mkParameter "client_min_messages" (VString "notice") ContextUser (SysEnum ["debug5"; "debug4"; "debug3"; "debug2"; "debug1"; "log"; "notice"; "warning"; "error"]) SourceDefault (VString "notice") false);
  ("cluster_name", mkParameter "cluster_name" (VString EmptyString) ContextPostmaster SysString SourceDefault (VString EmptyString) false);
  ("commit_delay", mkParameter "commit_delay" (VInt 0) ContextSuperUser (SysInt 0 100000 false) SourceDefault (VInt 0) false);
  ("commit_siblings", mkParameter "commit_siblings" (VInt 5) ContextUser (SysInt 0 1000 false) SourceDefault (VInt 5) false);
  ("compute_query_id", mkParameter "compute_query_id" (VString "auto") ContextSuperUser (SysEnum ["auto"; "regress"; "on"; "off"]) SourceDefault (VString "auto") false);
  ("config_file", mkParameter "config_file" (VString "postgresql.conf") ContextPostmaster SysString SourceOverride (VString "postgresql.conf") false);
  ("constraint_exclusion", mkParameter "constraint_exclusion" (VString "partition") ContextUser (SysEnum ["partition"; "on"; "off"]) SourceDefault (VString "partition") false);
  ("cpu_index_tuple_cost", mkParameter "cpu_index_tuple_cost" (VFloat 5 3) ContextUser (SysDouble (0, 0%nat) None) SourceDefault (VFloat 5 3) false);
  ("cpu_operator_cost", mkParameter "cpu_operator_cost" (VFloat 25 4) ContextUser (SysDouble (0, 0%nat) None) SourceDefault (VFloat 25 4) false);
  ("cpu_tuple_cost", mkParameter "cpu_tuple_cost" (VFloat 1 2) ContextUser (SysDouble (0, 0%nat) None) SourceDefault (VFloat 1 2) false)
].

Definition parameters_5 : list (string * PgParameter) := [
  ("createrole_self_grant", mkParameter "createrole_self_grant" (VString EmptyString) ContextUser SysString SourceDefault (VString EmptyString) false);
  ("cursor_tuple_fraction", mkParameter "cursor_tuple_fraction" (VFloat 1 1) ContextUser (SysDouble (0, 0%nat) (Some (1, 0%nat))) SourceDefault (VFloat 1 1) false);
  ("data_checksums", mkParameter "data_checksums" (VInt 0) ContextInternal SysBool SourceDefault (VInt 0) false);
  ("data_directory", mkParameter "data_directory" (VString "postgres") ContextPostmaster SysString SourceOverride (VString "postgres") false);
  ("data_directory_mode", mkParameter "data_directory_mode" (VInt 448) ContextInternal (SysInt 0 511 false) SourceDefault (VInt 448) false);
  ("data_sync_retry", mkParameter "data_sync_retry" (VInt 0) ContextPostmaster SysBool SourceDefault (VInt 0) false);
  ("datestyle", mkParameter "DateStyle" (VString "ISO, MDY") ContextUser SysString SourceConfigurationFile (VString "ISO, MDY") false);
  ("db_user_namespace", mkParameter "db_user_namespace" (VInt 0) ContextSighup SysBool SourceDefault (VInt 0) false);
  ("deadlock_timeout", mkParameter "deadlock_timeout" (VInt 1000) ContextSuperUser (SysInt 1 2147483647 false) SourceDefault (VInt 1000) false);
  ("debug_assertions", mkParameter "debug_assertions" (VInt 0) ContextInternal SysBool SourceDefault (VInt 0) false);
  ("debug_discard_caches", mkParameter "debug_discard_caches" (VInt 0) ContextSuperUser (SysInt 0 0 false) SourceDefault (VInt 0) false);
  ("debug_io_direct", mkParameter "debug_io_direct" (VString EmptyString) ContextPostmaster SysString SourceDefault (VString EmptyString) false);
  ("debug_logical_replication_streaming", mkParameter "debug_logical_replication_streaming" (VString "buffered") ContextUser (SysEnum ["buffered"; "immediate"]) SourceDefault (VString "buffered") false)
].

Definition parameters_6 : list (string * PgParameter) := [
  ("debug_parallel_query", mkParameter "debug_parallel_query" (VString "off") ContextUser (SysEnum ["off"; "on"; "regress"]) SourceDefault (VString "off") false);
  ("debug_pretty_print", mkParameter "debug_pretty_print" (VInt 1) ContextUser SysBool SourceDefault (VInt 1) false);
  ("debug_print_parse", mkParameter "debug_print_parse" (VInt 0) ContextUser SysBool SourceDefault (VInt 0) false);
  ("debug_print_plan", mkParameter "debug_print_plan" (VInt 0) ContextUser SysBool SourceDefault (VInt 0) false);
  ("debug_print_rewritten", mkParameter "debug_print_rewritten" (VInt 0) ContextUser SysBool SourceDefault (VInt 0) false);
  ("default_statistics_target", mkParameter "default_statistics_target" (VInt 100) ContextUser (SysInt 1 10000 false) SourceDefault (VInt 100) false);
  ("default_table_access_method", mkParameter "default_table_access_method" (VString "heap") ContextUser SysString SourceDefault (VString "heap") false);
  ("default_tablespace", mkParameter "default_tablespace" (VString EmptyString) ContextUser SysString SourceDefault (VString EmptyString) false);
  ("default_text_search_config", mkParameter "default_text_search_config" (VString "pg_catalog.english") ContextUser SysString SourceConfigurationFile (VString "pg_catalog.english") false);
  ("default_toast_compression", mkParameter "default_toast_compression" (VString "pglz") ContextUser (SysEnum ["pglz"; "lz4"]) SourceDefault (VString "pglz") false);
  ("default_transaction_deferrable", mkParameter "default_transaction_deferrable" (VInt 0) ContextUser SysBool SourceDefault (VInt 0) false);
  ("default_transaction_isolation", mkParameter "default_transaction_isolation" (VString "read-committed") ContextUser (SysEnum ["serializable"; "repeatable-read"; "read-committed"; "read-uncommitted"]) SourceDefault (VString "read-committed") false);
  ("default_transaction_read_only", mkParameter "default_transaction_read_only" (VInt 0) ContextUser SysBool SourceDefault (VInt 0) false)
].

Definition parameters_7 : list (string * PgParameter) := [
  ("dynamic_library_path", mkParameter "dynamic_library_path" (VString "$libdir") ContextSuperUser SysString SourceDefault (VString "$libdir") false);
  ("dynamic_shared_memory_type", mkParameter "dynamic_shared_memory_type" (VString "posix") ContextPostmaster (SysEnum ["posix"; "sysv"; "mmap"]) SourceConfigurationFile (VString "posix") false);
  ("effective_cache_size", mkParameter "effective_cache_size" (VInt 524288) ContextUser (SysInt 1 2147483647 false) SourceDefault (VInt 524288) false);
  ("effective_io_concurrency", mkParameter "effective_io_concurrency" (VInt 0) ContextUser (SysInt 0 1000 false) SourceDefault (VInt 0) false);
  ("enable_async_append", mkParameter "enable_async_append" (VInt 1) ContextUser SysBool SourceDefault (VInt 1) false);
  ("enable_bitmapscan", mkParameter "enable_bitmapscan" (VInt 1) ContextUser SysBool SourceDefault (VInt 1) false);
  ("enable_gathermerge", mkParameter "enable_gathermerge" (VInt 1) ContextUser SysBool SourceDefault (VInt 1) false);
  ("enable_hashagg", mkParameter "enable_hashagg" (VInt 1) ContextUser SysBool SourceDefault (VInt 1) false);
  ("enable_hashjoin", mkParameter "enable_hashjoin" (VInt 1) ContextUser SysBool SourceDefault (VString EmptyString) false);
  ("enable_incremental_sort", mkParameter "enable_incremental_sort" (VInt 1) ContextUser SysBool SourceDefault (VInt 1) false);
  ("enable_indexonlyscan", mkParameter "enable_indexonlyscan" (VInt 1) ContextUser SysBool SourceDefault (VInt 1) false);
  ("enable_indexscan", mkParameter "enable_indexscan" (VInt 1) ContextUser SysBool SourceDefault (VInt 1) false);
  ("enable_material", mkParameter "enable_material" (VInt 1) ContextUser SysBool SourceDefault (VInt 1) false)
].

Definition parameters_8 : list (string * PgParameter) := [
  ("enable_memoize", mkParameter "enable_memoize" (VInt 1) ContextUser SysBool SourceDefault (VInt 1) false);
  ("enable_mergejoin", mkParameter "enable_mergejoin" (VInt 1) ContextUser SysBool SourceDefault (VInt 1) false);
  ("enable_nestloop", mkParameter "enable_nestloop" (VInt 1) ContextUser SysBool SourceDefault (VInt 1) false);
  ("enable_parallel_append", mkParameter "enable_parallel_append" (VInt 1) ContextUser SysBool SourceDefault (VInt 1) false);
  ("enable_parallel_hash", mkParameter "enable_parallel_hash" (VInt 1) ContextUser SysBool SourceDefault (VInt 1) false);
  ("enable_partition_pruning", mkParameter "enable_partition_pruning" (VInt 1) ContextUser SysBool SourceDefault (VInt 1) false);
  ("enable_partitionwise_aggregate", mkParameter "enable_partitionwise_aggregate" (VInt 0) ContextUser SysBool SourceDefault (VInt 0) false);
  ("enable_partitionwise_join", mkParameter "enable_partitionwise_join" (VInt 0) ContextUser SysBool SourceDefault (VInt 0) false);
  ("enable_presorted_aggregate", mkParameter "enable_presorted_aggregate" (VInt 1) ContextUser SysBool SourceDefault (VInt 1) false);
  ("enable_seqscan", mkParameter "enable_seqscan" (VInt 1) ContextUser SysBool SourceDefault (VInt 1) false);
  ("enable_sort", mkParameter "enable_sort" (VInt 1) ContextUser SysBool SourceDefault (VInt 1) false);
  ("enable_tidscan", mkParameter "enable_tidscan" (VInt 1) ContextUser SysBool SourceDefault (VInt 1) false);
  ("escape_string_warning", mkParameter "escape_string_warning" (VInt 1) ContextUser SysBool SourceDefault (VInt 1) false)
].

Definition parameters_9 : list (string * PgParameter) := [
  ("event_source", mkParameter "event_source" (VString "PostgreSQL") ContextPostmaster SysString SourceDefault (VString "PostgreSQL") false);
  ("exit_on_error", mkParameter "exit_on_error" (VInt 0) ContextUser SysBool SourceDefault (VInt 0) false);
  ("external_pid_file", mkParameter "external_pid_file" (VString EmptyString) ContextPostmaster SysString SourceDefault (VString EmptyString) false);
  ("extra_float_digits", mkParameter "extra_float_digits" (VInt 1) ContextUser (SysInt (-15) 3 false) SourceDefault (VInt 1) false);
  ("from_collapse_limit", mkParameter "from_collapse_limit" (VInt 8) ContextUser (SysInt 1 2147483647 false) SourceDefault (VInt 8) false);
  ("fsync", mkParameter "fsync" (VInt 1) ContextSighup SysBool SourceDefault (VInt 1) false);
  ("full_page_writes", mkParameter "full_page_writes" (VInt 1) ContextSighup SysBool SourceDefault (VInt 1) false);
  ("geqo", mkParameter "geqo" (VInt 1) ContextUser SysBool SourceDefault (VInt 1) false);
  ("geqo_effort", mkParameter "geqo_effort" (VInt 5) ContextUser (SysInt 1 10 false) SourceDefault (VInt 5) false);
  ("geqo_generations", mkParameter "geqo_generations" (VInt 0) ContextUser (SysInt 0 2147483647 false) SourceDefault (VInt 0) false);
  ("geqo_pool_size", mkParameter "geqo_pool_size" (VInt 0) ContextUser (SysInt 0 2147483647 false) SourceDefault (VInt 0) false);
  ("geqo_seed", mkParameter "geqo_seed" (VFloat 0 0) ContextUser (SysDouble (0, 0%nat) (Some (1, 0%nat))) SourceDefault (VFloat 0 0) false);
  ("geqo_selection_bias", mkParameter "geqo_selection_bias" (VFloat 2 0) ContextUser (SysDouble (15, 1%nat) (Some (2, 0%nat))) SourceDefault (VFloat 2 0) false)
].

Definition parameters_10 : list (string * PgParameter) := [
  ("geqo_threshold", mkParameter "geqo_threshold" (VInt 12) ContextUser (SysInt 2 2147483647 false) SourceDefault (VInt 12) false);
  ("gin_fuzzy_search_limit", mkParameter "gin_fuzzy_search_limit" (VInt 0) ContextUser (SysInt 0 2147483647 false) SourceDefault (VInt 0) false);
  ("gin_pending_list_limit", mkParameter "gin_pending_list_limit" (VInt 4096) ContextUser (SysInt 64 2147483647 false) SourceDefault (VInt 4096) false);
  ("gss_accept_delegation", mkParameter "gss_accept_delegation" (VInt 0) ContextSighup SysBool SourceDefault (VInt 0) false);
  ("hash_mem_multiplier", mkParameter "hash_mem_multiplier" (VFloat 2 0) ContextUser (SysDouble (1, 0%nat) (Some (1000, 0%nat))) SourceDefault (VFloat 2 0) false);
  ("hba_file", mkParameter "hba_file" (VString "pg_hba.conf") ContextPostmaster SysString SourceOverride (VString "pg_hba.conf") false);
  ("hot_standby", mkParameter "hot_standby" (VInt 1) ContextPostmaster SysBool SourceDefault (VInt 1) false);
  ("hot_standby_feedback", mkParameter "hot_standby_feedback" (VInt 0) ContextSighup SysBool SourceDefault (VInt 0) false);
  ("huge_page_size", mkParameter "huge_page_size" (VInt 0) ContextPostmaster (SysInt 0 2147483647 false) SourceDefault (VInt 0) false);
  ("huge_pages", mkParameter "huge_pages" (VString "try") ContextPostmaster (SysEnum ["off"; "on"; "try"]) SourceDefault (VString "try") false);
  ("icu_validation_level", mkParameter "icu_validation_level" (VString "warning") ContextUser (SysEnum ["disabled"; "debug5"; "debug4"; "debug3"; "debug2"; "debug1"; "log"; "notice"; "warning"; "error"]) SourceDefault (VString "warning") false);
  ("ident_file", mkParameter "ident_file" (VString "pg_ident.conf") ContextPostmaster SysString SourceOverride (VString "pg_ident.conf") false);
  ("idle_in_transaction_session_timeout", mkParameter "idle_in_transaction_session_timeout" (VInt 0) ContextUser (SysInt 0 2147483647 false) SourceDefault (VInt 0) false)
].

Definition parameters_11 : list (string * PgParameter) := [
  ("idle_session_timeout", mkParameter "idle_session_timeout" (VInt 0) ContextUser (SysInt 0 2147483647 false) SourceDefault (VInt 0) false);
  ("ignore_checksum_failure", mkParameter "ignore_checksum_failure" (VInt 0) ContextSuperUser SysBool SourceDefault (VInt 0) false);
  ("ignore_invalid_pages", mkParameter "ignore_invalid_pages" (VInt 0) ContextPostmaster SysBool SourceDefault (VInt 0) false);
  ("ignore_system_indexes", mkParameter "ignore_system_indexes" (VInt 0) ContextBackend SysBool SourceDefault (VInt 0) false);
  ("in_hot_standby", mkParameter "in_hot_standby" (VInt 0) ContextInternal SysBool SourceDefault (VInt 0) false);
  ("integer_datetimes", mkParameter "integer_datetimes" (VInt 1) ContextInternal SysBool SourceDefault (VInt 1) false);
  ("intervalstyle", mkParameter "IntervalStyle" (VString "postgres") ContextUser (SysEnum ["postgres"; "postgres_verbose"; "sql_standard"; "iso_8601"]) SourceDefault (VString "postgres") false);
  ("jit", mkParameter "jit" (VInt 1) ContextUser SysBool SourceDefault (VInt 1) false);
  ("jit_above_cost", mkParameter "jit_above_cost" (VFloat 100000 0) ContextUser (SysDouble ((-1), 0%nat) None) SourceDefault (VFloat 100000 0) false);
  ("jit_debugging_support", mkParameter "jit_debugging_support" (VInt 0) ContextSuperUserBackend SysBool SourceDefault (VInt 0) false);
  ("jit_dump_bitcode", mkParameter "jit_dump_bitcode" (VInt 0) ContextSuperUser SysBool SourceDefault (VInt 0) false);
  ("jit_expressions", mkParameter "jit_expressions" (VInt 1) ContextUser SysBool SourceDefault (VInt 1) false);
  ("jit_inline_above_cost", mkParameter "jit_inline_above_cost" (VFloat 500000 0) ContextUser (SysDouble ((-1), 0%nat) None) SourceDefault (VFloat 500000 0) false)
].

Definition parameters_12 : list (string * PgParameter) := [
  ("jit_optimize_above_cost", mkParameter "jit_optimize_above_cost" (VFloat 500000 0) ContextUser (SysDouble ((-1), 0%nat) None) SourceDefault (VFloat 500000 0) false);
  ("jit_profiling_support", mkParameter "jit_profiling_support" (VInt 0) ContextSuperUserBackend SysBool SourceDefault (VInt 0) false);
  ("jit_provider", mkParameter "jit_provider" (VString "llvmjit") ContextPostmaster SysString SourceDefault (VString "llvmjit") false);
  ("jit_tuple_deforming", mkParameter "jit_tuple_deforming" (VInt 1) ContextUser SysBool SourceDefault (VInt 1) false);
  ("join_collapse_limit", mkParameter "join_collapse_limit" (VInt 8) ContextUser (SysInt 1 2147483647 false) SourceDefault (VInt 8) false);
  ("krb_caseins_users", mkParameter "krb_caseins_users" (VInt 0) ContextSighup SysBool SourceDefault (VInt 0) false);
  ("krb_server_keyfile", mkParameter "krb_server_keyfile" (VString "FILE:/usr/local/etc/postgresql/krb5.keytab") ContextSighup SysString SourceDefault (VString "FILE:/usr/local/etc/postgresql/krb5.keytab") false);
  ("lc_messages", mkParameter "lc_messages" (VString "en_US.UTF-8") ContextSuperUser SysString SourceConfigurationFile (VString "en_US.UTF-8") false);
  ("lc_monetary", mkParameter "lc_monetary" (VString "en_US.UTF-8") ContextUser SysString SourceConfigurationFile (VString "en_US.UTF-8") false);
  ("lc_numeric", mkParameter "lc_numeric" (VString "en_US.UTF-8") ContextUser SysString SourceConfigurationFile (VString "en_US.UTF-8") false);
  ("lc_time", mkParameter "lc_time" (VString "en_US.UTF-8") ContextUser SysString SourceConfigurationFile (VString "en_US.UTF-8") false);
  ("listen_addresses", mkParameter "listen_addresses" (VString "localhost") ContextPostmaster SysString SourceDefault (VString "localhost") false);
  ("lo_compat_privileges", mkParameter "lo_compat_privileges" (VInt 0) ContextSuperUser SysBool SourceDefault (VInt 0) false)
].

Definition parameters_13 : list (string * PgParameter) := [
  ("local_preload_libraries", mkParameter "local_preload_libraries" (VString EmptyString) ContextUser SysString SourceDefault (VString EmptyString) false);
  ("lock_timeout", mkParameter "lock_timeout" (VInt 0) ContextUser (SysInt 0 2147483647 false) SourceDefault (VInt 0) false);
  ("log_autovacuum_min_duration", mkParameter "log_autovacuum_min_duration" (VInt (-1)) ContextSighup (SysInt (-1) 2147483647 true) SourceDefault (VInt (-1)) false);
  ("log_checkpoints", mkParameter "log_checkpoints" (VInt 1) ContextSighup SysBool SourceDefault (VInt 1) false);
  ("log_connections", mkParameter "log_connections" (VInt 0) ContextSuperUserBackend SysBool SourceDefault (VInt 0) false);
  ("log_destination", mkParameter "log_destination" (VString "stderr") ContextSighup SysString SourceDefault (VString "stderr") false);
  ("log_directory", mkParameter "log_directory" (VString "log") ContextSighup SysString SourceDefault (VString "log") false);
  ("log_disconnections", mkParameter "log_disconnections" (VInt 0) ContextSuperUserBackend SysBool SourceDefault (VInt 0) false);
  ("log_duration", mkParameter "log_duration" (VInt 0) ContextSuperUser SysBool SourceDefault (VInt 0) false);
  ("log_error_verbosity", mkParameter "log_error_verbosity" (VString "default") ContextSuperUser (SysEnum ["terse"; "default"; "verbose"]) SourceDefault (VString "default") false);
  ("log_executor_stats", mkParameter "log_executor_stats" (VInt 0) ContextSuperUser SysBool SourceDefault (VInt 0) false);
  ("log_file_mode", mkParameter "log_file_mode" (VInt 384) ContextSighup (SysInt 0 511 false) SourceDefault (VInt 384) false);
  ("log_filename", mkParameter "log_filename" (VString "postgresql-%Y-%m-%d_%H%M%S.log") ContextSighup SysString SourceDefault (VString "postgresql-%Y-%m-%d_%H%M%S.log") false)
].

Definition parameters_14 : list (string * PgParameter) := [
  ("log_hostname", mkParameter "log_hostname" (VInt 0) ContextSighup SysBool SourceDefault (VInt 0) false);
  ("log_line_prefix", mkParameter "log_line_prefix" (VString "%m [%p]") ContextSighup SysString SourceDefault (VString "%m [%p]") false);
  ("log_lock_waits", mkParameter "log_lock_waits" (VInt 0) ContextSuperUser SysBool SourceDefault (VInt 0) false);
  ("log_min_duration_sample", mkParameter "log_min_duration_sample" (VInt (-1)) ContextSuperUser (SysInt (-1) 2147483647 true) SourceDefault (VInt (-1)) false);
  ("log_min_duration_statement", mkParameter "log_min_duration_statement" (VInt (-1)) ContextSuperUser (SysInt (-1) 2147483647 true) SourceDefault (VInt (-1)) false);
  ("log_min_error_statement", mkParameter "log_min_error_statement" (VString "error") ContextSuperUser (SysEnum ["debug5"; "debug4"; "debug3"; "debug2"; "debug1"; "info"; "notice"; "warning"; "error"; "log"; "fatal"; "panic"]) SourceDefault (VString "error") false);
  ("log_min_messages", mkParameter "log_min_messages" (VString "warning") ContextSuperUser (SysEnum ["debug5"; "debug4"; "debug3"; "debug2"; "debug1"; "info"; "notice"; "warning"; "error"; "log"; "fatal"; "panic"]) SourceDefault (VString "warning") false);
  ("log_parameter_max_length", mkParameter "log_parameter_max_length" (VInt (-1)) ContextSuperUser (SysInt (-1) 1073741823 true) SourceDefault (VInt (-1)) false);
  ("log_parameter_max_length_on_error", mkParameter "log_parameter_max_length_on_error" (VInt 0) ContextUser (SysInt (-1) 1073741823 true) SourceDefault (VInt 0) false);
  ("log_parser_stats", mkParameter "log_parser_stats" (VInt 0) ContextSuperUser SysBool SourceDefault (VInt 0) false);
  ("log_planner_stats", mkParameter "log_planner_stats" (VInt 0) ContextSuperUser SysBool SourceDefault (VInt 0) false);
  ("log_recovery_conflict_waits", mkParameter "log_recovery_conflict_waits" (VInt 0) ContextSighup SysBool SourceDefault (VInt 0) false);
  ("log_replication_commands", mkParameter "log_replication_commands" (VInt 0) ContextSuperUser SysBool SourceDefault (VInt 0) false)
].

Definition parameters_15 : list (string * PgParameter) := [
  ("log_rotation_age", mkParameter "log_rotation_age" (VInt 1440) ContextSighup (SysInt 0 35791394 false) SourceDefault (VInt 1440) false);
  ("log_rotation_size", mkParameter "log_rotation_size" (VInt 10240) ContextSighup (SysInt 0 2097151 false) SourceDefault (VInt 10240) false);
  ("log_startup_progress_interval", mkParameter "log_startup_progress_interval" (VInt 10000) ContextSighup (SysInt 1 2147483647 false) SourceDefault (VInt 10000) false);
  ("log_statement", mkParameter "log_statement" (VString "none") ContextSuperUser (SysEnum ["none"; "ddl"; "mod"; "all"]) SourceDefault (VString "none") false);
  ("log_statement_sample_rate", mkParameter "log_statement_sample_rate" (VFloat 1 0) ContextSuperUser (SysDouble (0, 0%nat) (Some (1, 0%nat))) SourceDefault (VFloat 1 0) false);
  ("log_statement_stats", mkParameter "log_statement_stats" (VInt 0) ContextSuperUser SysBool SourceDefault (VInt 0) false);
  ("log_temp_files", mkParameter "log_temp_files" (VInt (-1)) ContextSuperUser (SysInt (-1) 2147483647 true) SourceDefault (VInt (-1)) false);
  ("log_timezone", mkParameter "log_timezone" (VString "America/Los_Angeles") ContextSighup SysString SourceConfigurationFile (VString "America/Los_Angeles") false);
  ("log_transaction_sample_rate", mkParameter "log_transaction_sample_rate" (VFloat 0 0) ContextSuperUser (SysDouble (0, 0%nat) (Some (1, 0%nat))) SourceDefault (VFloat 0 0) false);
  ("log_truncate_on_rotation", mkParameter "log_truncate_on_rotation" (VInt 0) ContextSighup SysBool SourceDefault (VInt 0) false);
  ("logging_collector", mkParameter "logging_collector" (VInt 0) ContextPostmaster SysBool SourceDefault (VInt 0) false);
  ("logical_decoding_work_mem", mkParameter "logical_decoding_work_mem" (VInt 65536) ContextUser (SysInt 64 2147483647 false) SourceDefault (VInt 65536) false);
  ("maintenance_io_concurrency", mkParameter "maintenance_io_concurrency" (VInt 0) ContextUser (SysInt 0 1000 false) SourceDefault (VInt 0) false)
].

Definition parameters_16 : list (string * PgParameter) := [
  ("maintenance_work_mem", mkParameter "maintenance_work_mem" (VInt 65536) ContextUser (SysInt 1024 2147483647 false) SourceDefault (VInt 65536) false);
  ("max_connections", mkParameter "max_connections" (VInt 100) ContextPostmaster (SysInt 64 2147483647 false) SourceConfigurationFile (VInt 100) false);
  ("max_files_per_process", mkParameter "max_files_per_process" (VInt 1000) ContextPostmaster (SysInt 64 2147483647 false) SourceDefault (VInt 1000) false);
  ("max_function_args", mkParameter "max_function_args" (VInt 100) ContextInternal (SysInt 100 100 false) SourceDefault (VInt 100) false);
  ("max_identifier_length", mkParameter "max_identifier_length" (VInt 63) ContextInternal (SysInt 63 63 false) SourceDefault (VInt 63) false);
  ("max_index_keys", mkParameter "max_index_keys" (VInt 32) ContextInternal (SysInt 32 32 false) SourceDefault (VInt 32) false);
  ("max_locks_per_transaction", mkParameter "max_locks_per_transaction" (VInt 64) ContextPostmaster (SysInt 10 2147483647 false) SourceDefault (VInt 64) false);
  ("max_logical_replication_workers", mkParameter "max_logical_replication_workers" (VInt 4) ContextPostmaster (SysInt 0 262143 false) SourceDefault (VInt 4) false);
  ("max_parallel_apply_workers_per_subscription", mkParameter "max_parallel_apply_workers_per_subscription" (VInt 2) ContextSighup (SysInt 0 1024 false) SourceDefault (VInt 2) false);
  ("max_parallel_maintenance_workers", mkParameter "max_parallel_maintenance_workers" (VInt 2) ContextUser (SysInt 0 1024 false) SourceDefault (VInt 2) false);
  ("max_parallel_workers", mkParameter "max_parallel_workers" (VInt 8) ContextUser (SysInt 0 1024 false) SourceDefault (VInt 8) false);
  ("max_parallel_workers_per_gather", mkParameter "max_parallel_workers_per_gather" (VInt 2) ContextUser (SysInt 0 1024 false) SourceDefault (VInt 2) false);
  ("max_pred_locks_per_page", mkParameter "max_pred_locks_per_page" (VInt 2) ContextSighup (SysInt 0 2147483647 false) SourceDefault (VInt 2) false)
].

Definition parameters_17 : list (string * PgParameter) := [
  ("max_pred_locks_per_relation", mkParameter "max_pred_locks_per_relation" (VInt (-2)) ContextSighup (SysInt (-2147483648) 2147483647 false) SourceDefault (VInt (-2)) false);
  ("max_pred_locks_per_transaction", mkParameter "max_pred_locks_per_transaction" (VInt 64) ContextPostmaster (SysInt 10 2147483647 false) SourceDefault (VInt 64) false);
  ("max_prepared_transactions", mkParameter "max_prepared_transactions" (VInt 0) ContextPostmaster (SysInt 0 262143 false) SourceDefault (VInt 0) false);
  ("max_replication_slots", mkParameter "max_replication_slots" (VInt 10) ContextPostmaster (SysInt 0 262143 false) SourceDefault (VInt 10) false);
  ("max_slot_wal_keep_size", mkParameter "max_slot_wal_keep_size" (VInt (-1)) ContextSighup (SysInt (-1) 2147483647 true) SourceDefault (VInt (-1)) false);
  ("max_stack_depth", mkParameter "max_stack_depth" (VInt 2048) ContextSuperUser (SysInt 100 2147483647 false) SourceDefault (VInt 2048) false);
  ("max_standby_archive_delay", mkParameter "max_standby_archive_delay" (VInt 30000) ContextSighup (SysInt (-1) 2147483647 true) SourceDefault (VInt 30000) false);
  ("max_standby_streaming_delay", mkParameter "max_standby_streaming_delay" (VInt 30000) ContextSighup (SysInt (-1) 2147483647 true) SourceDefault (VInt 30000) false);
  ("max_sync_workers_per_subscription", mkParameter "max_sync_workers_per_subscription" (VInt 2) ContextSighup (SysInt 0 262143 false) SourceDefault (VInt 2) false);
  ("max_wal_senders", mkParameter "max_wal_senders" (VInt 10) ContextPostmaster (SysInt 0 262143 false) SourceDefault (VInt 10) false);
  ("max_wal_size", mkParameter "max_wal_size" (VInt 1024) ContextSighup (SysInt 2 2147483647 false) SourceConfigurationFile (VInt 1024) false);
  ("max_worker_processes", mkParameter "max_worker_processes" (VInt 8) ContextPostmaster (SysInt 0 262143 false) SourceDefault (VInt 8) false);
  ("min_dynamic_shared_memory", mkParameter "min_dynamic_shared_memory" (VInt 0) ContextPostmaster (SysInt 0 2147483647 false) SourceDefault (VInt 0) false)
].

Definition parameters_18 : list (string * PgParameter) := [
  ("min_parallel_index_scan_size", mkParameter "min_parallel_index_scan_size" (VInt 1024) ContextUser (SysInt 0 715827882 false) SourceDefault (VInt 1024) false);
  ("min_parallel_table_scan_size", mkParameter "min_parallel_table_scan_size" (VInt 1024) ContextUser (SysInt 0 715827882 false) SourceDefault (VInt 1024) false);
  ("min_wal_size", mkParameter "min_wal_size" (VInt 80) ContextSighup (SysInt 2 2147483647 false) SourceConfigurationFile (VInt 80) false);
  ("old_snapshot_threshold", mkParameter "old_snapshot_threshold" (VInt (-1)) ContextPostmaster (SysInt (-1) 86400 true) SourceDefault (VInt (-1)) false);
  ("parallel_leader_participation", mkParameter "parallel_leader_participation" (VInt 1) ContextUser SysBool SourceDefault (VInt 1) false);
  ("parallel_setup_cost", mkParameter "parallel_setup_cost" (VFloat 1000 0) ContextUser (SysDouble (0, 0%nat) None) SourceDefault (VFloat 1000 0) false);
  ("parallel_tuple_cost", mkParameter "parallel_tuple_cost" (VFloat 1 1) ContextUser (SysDouble (0, 0%nat) None) SourceDefault (VFloat 1 1) false);
  ("password_encryption", mkParameter "password_encryption" (VString "scram-sha-256") ContextUser (SysEnum ["md5"; "scram-sha-256"]) SourceDefault (VString "scram-sha-256") false);
  ("plan_cache_mode", mkParameter "plan_cache_mode" (VString "auto") ContextUser (SysEnum ["auto"; "force_generic_plan"; "force_custom_plan"]) SourceDefault (VString "auto") false);
  ("port", mkParameter "port" (VInt 5432) ContextPostmaster (SysInt 1 65535 false) SourceDefault (VInt 5432) false);
  ("post_auth_delay", mkParameter "post_auth_delay" (VInt 0) ContextBackend (SysInt 0 2147 false) SourceDefault (VInt 0) false);
  ("pre_auth_delay", mkParameter "pre_auth_delay" (VInt 0) ContextSighup (SysInt 0 60 false) SourceDefault (VInt 0) false);
  ("primary_conninfo", mkParameter "primary_conninfo" (VString EmptyString) ContextSighup SysString SourceDefault (VString EmptyString) false)
].

Definition parameters_19 : list (string * PgParameter) := [
  ("primary_slot_name", mkParameter "primary_slot_name" (VString EmptyString) ContextSighup SysString SourceDefault (VString EmptyString) false);
  ("quote_all_identifiers", mkParameter "quote_all_identifiers" (VInt 0) ContextUser SysBool SourceDefault (VInt 0) false);
  ("random_page_cost", mkParameter "random_page_cost" (VFloat 4 0) ContextUser (SysDouble (0, 0%nat) None) SourceDefault (VFloat 4 0) false);
  ("recovery_end_command", mkParameter "recovery_end_command" (VString EmptyString) ContextSighup SysString SourceDefault (VString EmptyString) false);
  ("recovery_init_sync_method", mkParameter "recovery_init_sync_method" (VString "fsync") ContextSighup (SysEnum ["fsync"]) SourceDefault (VString "fsync") false);
  ("recovery_min_apply_delay", mkParameter "recovery_min_apply_delay" (VInt 0) ContextSighup (SysInt 0 2147483647 false) SourceDefault (VInt 0) false);
  ("recovery_prefetch", mkParameter "recovery_prefetch" (VString "try") ContextSighup (SysEnum ["off"; "on"; "try"]) SourceDefault (VString "try") false);
  ("recovery_target", mkParameter "recovery_target" (VString EmptyString) ContextPostmaster SysString SourceDefault (VString EmptyString) false);
  ("recovery_target_action", mkParameter "recovery_target_action" (VString "pause") ContextPostmaster (SysEnum ["pause"; "promote"; "shutdown"]) SourceDefault (VString "pause") false);
  ("recovery_target_inclusive", mkParameter "recovery_target_inclusive" (VInt 1) ContextPostmaster SysBool SourceDefault (VInt 1) false);
  ("recovery_target_lsn", mkParameter "recovery_target_lsn" (VString EmptyString) ContextPostmaster SysString SourceDefault (VString EmptyString) false);
  ("recovery_target_name", mkParameter "recovery_target_name" (VString EmptyString) ContextPostmaster SysString SourceDefault (VString EmptyString) false);
  ("recovery_target_time", mkParameter "recovery_target_time" (VString EmptyString) ContextPostmaster SysString SourceDefault (VString EmptyString) false)
].

Definition parameters_20 : list (string * PgParameter) := [
  ("recovery_target_timeline", mkParameter "recovery_target_timeline" (VString "latest") ContextPostmaster SysString SourceDefault (VString "latest") false);
  ("recovery_target_xid", mkParameter "recovery_target_xid" (VString EmptyString) ContextPostmaster SysString SourceDefault (VString EmptyString) false);
  ("recursive_worktable_factor", mkParameter "recursive_worktable_factor" (VFloat 10 0) ContextUser (SysDouble (1, 3%nat) (Some (1000000, 0%nat))) SourceDefault (VFloat 10 0) false);
  ("remove_temp_files_after_crash", mkParameter "remove_temp_files_after_crash" (VInt 0) ContextSighup SysBool SourceDefault (VInt 0) false);
  ("reserved_connections", mkParameter "reserved_connections" (VInt 0) ContextPostmaster (SysInt 0 262143 false) SourceDefault (VInt 0) false);
  ("restart_after_crash", mkParameter "restart_after_crash" (VInt 1) ContextSighup SysBool SourceDefault (VInt 1) false);
  ("restore_command", mkParameter "restore_command" (VString EmptyString) ContextSighup SysString SourceDefault (VString EmptyString) false);
  ("row_security", mkParameter "row_security" (VInt 1) ContextUser SysBool SourceDefault (VInt 1) false);
  ("scram_iterations", mkParameter "scram_iterations" (VInt 4096) ContextUser (SysInt 1 2147483647 false) SourceDefault (VInt 4096) false);
  ("search_path", mkParameter "search_path" (VString (requote "`$user`, public,")) ContextUser SysString SourceDefault (VString (requote "`$user`, public")) false);
  ("segment_size", mkParameter "segment_size" (VInt 131072) ContextInternal (SysInt 131072 131072 false) SourceDefault (VInt 131072) false);
  ("send_abort_for_crash", mkParameter "send_abort_for_crash" (VInt 0) ContextSighup SysBool SourceDefault (VInt 0) false);
  ("send_abort_for_kill", mkParameter "send_abort_for_kill" (VInt 0) ContextSighup SysBool SourceDefault (VInt 0) false)
].

Definition parameters_21 : list (string * PgParameter) := [
  ("seq_page_cost", mkParameter "seq_page_cost" (VFloat 1 0) ContextSighup (SysDouble (0, 0%nat) None) SourceDefault (VFloat 1 0) false);
  ("server_encoding", mkParameter "server_encoding" (VString "UTF8") ContextInternal SysString SourceDefault (VString "UTF8") false);
  ("server_version", mkParameter "server_version" (VString "16.1 (Homebrew)") ContextInternal SysString SourceDefault (VString "16.1 (Homebrew)") false);
  ("server_version_num", mkParameter "server_version_num" (VInt 160001) ContextInternal (SysInt 160001 160001 false) SourceDefault (VInt 160001) false);
  ("session_preload_libraries", mkParameter "session_preload_libraries" (VString EmptyString) ContextSuperUser SysString SourceDefault (VString EmptyString) false);
  ("session_replication_role", mkParameter "session_replication_role" (VString "origin") ContextSuperUser (SysEnum ["origin"; "replica"; "local"]) SourceDefault (VString "origin") false);
  ("shared_buffers", mkParameter "shared_buffers" (VInt 16384) ContextPostmaster (SysInt 16 1073741823 false) SourceConfigurationFile (VInt 16384) false);
  ("shared_memory_size", mkParameter "shared_memory_size" (VInt 143) ContextInternal (SysInt 0 2147483647 false) SourceDefault (VInt 143) false);
  ("shared_memory_size_in_huge_pages", mkParameter "shared_memory_size_in_huge_pages" (VInt (-1)) ContextInternal (SysInt (-1) 2147483647 true) SourceDefault (VInt (-1)) false);
  ("shared_memory_type", mkParameter "shared_memory_type" (VString "mmap") ContextPostmaster (SysEnum ["sysv"; "mmap"]) SourceDefault (VString "mmap") false);
  ("shared_preload_libraries", mkParameter "shared_preload_libraries" (VString EmptyString) ContextPostmaster SysString SourceDefault (VString EmptyString) false);
  ("ssl", mkParameter "ssl" (VInt 0) ContextSighup SysBool SourceDefault (VInt 0) false);
  ("ssl_ca_file", mkParameter "ssl_ca_file" (VString EmptyString) ContextSighup SysString SourceDefault (VString EmptyString) false)
].

Definition parameters_22 : list (string * PgParameter) := [
  ("ssl_cert_file", mkParameter "ssl_cert_file" (VString "server.crt") ContextSighup SysString SourceDefault (VString "server.crt") false);
  ("ssl_ciphers", mkParameter "ssl_ciphers" (VString "HIGH:MEDIUM:+3DES:!aNULL") ContextSighup SysString SourceDefault (VString "HIGH:MEDIUM:+3DES:!aNULL") false);
  ("ssl_crl_dir", mkParameter "ssl_crl_dir" (VString EmptyString) ContextSighup SysString SourceDefault (VString EmptyString) false);
  ("ssl_crl_file", mkParameter "ssl_crl_file" (VString EmptyString) ContextSighup SysString SourceDefault (VString EmptyString) false);
  ("ssl_dh_params_file", mkParameter "ssl_dh_params_file" (VString EmptyString) ContextSighup SysString SourceDefault (VString EmptyString) false);
  ("ssl_ecdh_curve", mkParameter "ssl_ecdh_curve" (VString "prime256v1") ContextSighup SysString SourceDefault (VString "prime256v1") false);
  ("ssl_key_file", mkParameter "ssl_key_file" (VString "server.key") ContextSighup SysString SourceDefault (VString "server.key") false);
  ("ssl_library", mkParameter "ssl_library" (VString "OpenSSL") ContextInternal SysString SourceDefault (VString "OpenSSL") false);
  ("ssl_max_protocol_version", mkParameter "ssl_max_protocol_version" (VString EmptyString) ContextSighup (SysEnum [EmptyString; "TLSv1"; "TLSv1.1"; "TLSv1.2"; "TLSv1.3"]) SourceDefault (VString EmptyString) false);
  ("ssl_min_protocol_version", mkParameter "ssl_min_protocol_version" (VString "TLSv1.2") ContextSighup (SysEnum ["TLSv1"; "TLSv1.1"; "TLSv1.2"; "TLSv1.3"]) SourceDefault (VString "TLSv1.2") false);
  ("ssl_passphrase_command", mkParameter "ssl_passphrase_command" (VString EmptyString) ContextSighup SysString SourceDefault (VString EmptyString) false);
  ("ssl_passphrase_command_supports_reload", mkParameter "ssl_passphrase_command_supports_reload" (VInt 0) ContextSighup SysBool SourceDefault (VInt 0) false);
  ("ssl_prefer_server_ciphers", mkParameter "ssl_prefer_server_ciphers" (VInt 1) ContextSighup SysBool SourceDefault (VInt 1) false)
].

Definition parameters_23 : list (string * PgParameter) := [
  ("standard_conforming_strings", mkParameter "standard_conforming_strings" (VString "on") ContextUser SysString SourceDefault (VString "on") false);
  ("statement_timeout", mkParameter "statement_timeout" (VInt 0) ContextUser (SysInt 0 2147483647 false) SourceDefault (VInt 0) false);
  ("stats_fetch_consistency", mkParameter "stats_fetch_consistency" (VString "cache") ContextUser (SysEnum ["none"; "cache"; "snapshot"]) SourceDefault (VString "cache") false);
  ("superuser_reserved_connections", mkParameter "superuser_reserved_connections" (VInt 3) ContextPostmaster (SysInt 0 262143 false) SourceDefault (VInt 3) false);
  ("synchronize_seqscans", mkParameter "synchronize_seqscans" (VInt 1) ContextUser SysBool SourceDefault (VInt 1) false);
  ("synchronous_commit", mkParameter "synchronous_commit" (VString "on") ContextUser (SysEnum ["local"; "remote_write"; "remote_apply"; "on"; "off"]) SourceDefault (VString "on") false);
  ("synchronous_standby_names", mkParameter "synchronous_standby_names" (VString EmptyString) ContextSighup SysString SourceDefault (VString EmptyString) false);
  ("syslog_facility", mkParameter "syslog_facility" (VString "local0") ContextSighup (SysEnum ["local0"; "local1"; "local2"; "local3"; "local4"; "local5"; "local6"; "local7"]) SourceDefault (VString "local0") false);
  ("syslog_ident", mkParameter "syslog_ident" (VString "postgres") ContextSighup SysString SourceDefault (VString "postgres") false);
  ("syslog_sequence_numbers", mkParameter "syslog_sequence_numbers" (VInt 1) ContextSighup SysBool SourceDefault (VInt 1) false);
  ("syslog_split_messages", mkParameter "syslog_split_messages" (VInt 1) ContextSighup SysBool SourceDefault (VInt 1) false);
  ("tcp_keepalives_count", mkParameter "tcp_keepalives_count" (VInt 0) ContextUser (SysInt 0 2147483647 false) SourceDefault (VInt 0) false);
  ("tcp_keepalives_idle", mkParameter "tcp_keepalives_idle" (VInt 0) ContextUser (SysInt 0 2147483647 false) SourceDefault (VInt 0) false)
].

Definition parameters_24 (location : string) : list (string * PgParameter) := [
  ("tcp_keepalives_interval", mkParameter "tcp_keepalives_interval" (VInt 0) ContextUser (SysInt 0 2147483647 false) SourceDefault (VInt 0) false);
  ("tcp_user_timeout", mkParameter "tcp_user_timeout" (VInt 0) ContextUser (SysInt 0 2147483647 false) SourceDefault (VInt 0) false);
  ("temp_buffers", mkParameter "temp_buffers" (VInt 1024) ContextUser (SysInt 100 1073741823 false) SourceDefault (VInt 1024) false);
  ("temp_file_limit", mkParameter "temp_file_limit" (VInt (-1)) ContextSuperUser (SysInt (-1) 2147483647 true) SourceDefault (VInt (-1)) false);
  ("temp_tablespaces", mkParameter "temp_tablespaces" (VString EmptyString) ContextUser SysString SourceDefault (VString EmptyString) false);
  ("timezone", mkParameter "TimeZone" (VString location) ContextUser SysString SourceConfigurationFile (VString location) true);
  ("timezone_abbreviations", mkParameter "timezone_abbreviations" (VString "Default") ContextUser SysString SourceDefault (VString "Default") false);
  ("trace_notify", mkParameter "trace_notify" (VInt 0) ContextUser SysBool SourceDefault (VInt 0) false);
  ("trace_recovery_messages", mkParameter "trace_recovery_messages" (VString "log") ContextSighup (SysEnum ["debug5"; "debug4"; "debug3"; "debug2"; "debug1"; "log"; "notice"; "warning"; "error"]) SourceDefault (VString "log") false);
  ("trace_sort", mkParameter "trace_sort" (VInt 0) ContextUser SysBool SourceDefault (VInt 0) false);
  ("track_activities", mkParameter "track_activities" (VInt 1) ContextSuperUser SysBool SourceDefault (VInt 1) false);
  ("track_activity_query_size", mkParameter "track_activity_query_size" (VInt 1024) ContextPostmaster (SysInt 100 1048576 false) SourceDefault (VInt 1024) false);
  ("track_commit_timestamp", mkParameter "track_commit_timestamp" (VInt 0) ContextPostmaster SysBool SourceDefault (VInt 0) false)
].

Definition parameters_25 : list (string * PgParameter) := [
  ("track_counts", mkParameter "track_counts" (VInt 1) ContextSuperUser SysBool SourceDefault (VInt 1) false);
  ("track_functions", mkParameter "track_functions" (VString "none") ContextSuperUser (SysEnum ["none"; "pl"; "all"]) SourceDefault (VString "none") false);
  ("track_io_timing", mkParameter "track_io_timing" (VInt 0) ContextSuperUser SysBool SourceDefault (VInt 0) false);
  ("track_wal_io_timing", mkParameter "track_wal_io_timing" (VInt 0) ContextSuperUser SysBool SourceDefault (VInt 0) false);
  ("transaction_deferrable", mkParameter "transaction_deferrable" (VInt 0) ContextUser SysBool SourceOverride (VInt 0) false);
  ("transaction_isolation", mkParameter "transaction_isolation" (VString "READ-COMMITTED") ContextUser (SysEnum ["READ-UNCOMMITTED"; "READ-COMMITTED"; "REPEATABLE-READ"; "SERIALIZABLE"]) SourceOverride (VString "READ-COMMITTED") false);
  ("transaction_read_only", mkParameter "transaction_read_only" (VInt 0) ContextUser SysBool SourceOverride (VInt 0) false);
  ("transform_null_equals", mkParameter "transform_null_equals" (VInt 0) ContextUser SysBool SourceDefault (VInt 0) false);
  ("unix_socket_directories", mkParameter "unix_socket_directories" (VString "/tmp") ContextPostmaster SysString SourceDefault (VString "/tmp") false);
  ("unix_socket_group", mkParameter "unix_socket_group" (VString EmptyString) ContextPostmaster SysString SourceDefault (VString EmptyString) false);
  ("unix_socket_permissions", mkParameter "unix_socket_permissions" (VInt 511) ContextPostmaster (SysInt 0 511 false) SourceDefault (VInt 511) false);
  ("update_process_title", mkParameter "update_process_title" (VInt 1) ContextSuperUser SysBool SourceDefault (VInt 1) false);
  ("vacuum_buffer_usage_limit", mkParameter "vacuum_buffer_usage_limit" (VInt 256) ContextUser (SysInt 0 16777216 false) SourceDefault (VInt 256) false)
].

Definition parameters_26 : list (string * PgParameter) := [
  ("vacuum_cost_delay", mkParameter "vacuum_cost_delay" (VFloat 0 0) ContextUser (SysDouble (0, 0%nat) (Some (100, 0%nat))) SourceDefault (VFloat 0 0) false);
  ("vacuum_cost_limit", mkParameter "vacuum_cost_limit" (VInt 200) ContextUser (SysInt 1 10000 false) SourceDefault (VInt 200) false);
  ("vacuum_cost_page_dirty", mkParameter "vacuum_cost_page_dirty" (VInt 20) ContextUser (SysInt 0 10000 false) SourceDefault (VInt 20) false);
  ("vacuum_cost_page_hit", mkParameter "vacuum_cost_page_hit" (VInt 1) ContextUser (SysInt 0 10000 false) SourceDefault (VInt 1) false);
  ("vacuum_cost_page_miss", mkParameter "vacuum_cost_page_miss" (VInt 2) ContextUser (SysInt 0 10000 false) SourceDefault (VInt 2) false);
  ("vacuum_failsafe_age", mkParameter "vacuum_failsafe_age" (VInt 1600000000) ContextUser (SysInt 0 2100000000 false) SourceDefault (VInt 1600000000) false);
  ("vacuum_freeze_min_age", mkParameter "vacuum_freeze_min_age" (VInt 50000000) ContextUser (SysInt 0 1000000000 false) SourceDefault (VInt 50000000) false);
  ("vacuum_freeze_table_age", mkParameter "vacuum_freeze_table_age" (VInt 150000000) ContextUser (SysInt 0 2000000000 false) SourceDefault (VInt 150000000) false);
  ("vacuum_multixact_failsafe_age", mkParameter "vacuum_multixact_failsafe_age" (VInt 1600000000) ContextUser (SysInt 0 2100000000 false) SourceDefault (VInt 1600000000) false);
  ("vacuum_multixact_freeze_min_age", mkParameter "vacuum_multixact_freeze_min_age" (VInt 5000000) ContextUser (SysInt 0 1000000000 false) SourceDefault (VInt 5000000) false);
  ("vacuum_multixact_freeze_table_age", mkParameter "vacuum_multixact_freeze_table_age" (VInt 150000000) ContextUser (SysInt 0 2000000000 false) SourceDefault (VInt 150000000) false);
  ("wal_block_size", mkParameter "wal_block_size" (VInt 8192) ContextInternal (SysInt 8192 8192 false) SourceDefault (VInt 8192) false);
  ("wal_buffers", mkParameter "wal_buffers" (VInt 512) ContextPostmaster (SysInt (-1) 262143 true) SourceDefault (VInt 512) false)
].

Definition parameters_27 : list (string * PgParameter) := [
  ("wal_compression", mkParameter "wal_compression" (VString "off") ContextSuperUser (SysEnum ["pglz"; "lz4"; "on"; "off"]) SourceDefault (VString "off") false);
  ("wal_consistency_checking", mkParameter "wal_consistency_checking" (VString EmptyString) ContextSuperUser SysString SourceDefault (VString EmptyString) false);
  ("wal_decode_buffer_size", mkParameter "wal_decode_buffer_size" (VInt 524288) ContextPostmaster (SysInt 65535 1073741823 false) SourceDefault (VInt 524288) false);
  ("wal_init_zero", mkParameter "wal_init_zero" (VInt 1) ContextSuperUser SysBool SourceDefault (VInt 1) false);
  ("wal_keep_size", mkParameter "wal_keep_size" (VInt 0) ContextSighup (SysInt 0 2147483647 false) SourceDefault (VInt 0) false);
  ("wal_level", mkParameter "wal_level" (VString "replica") ContextPostmaster (SysEnum ["minimal"; "replica"; "logical"]) SourceDefault (VString "replica") false);
  ("wal_log_hints", mkParameter "wal_log_hints" (VInt 0) ContextPostmaster SysBool SourceDefault (VInt 0) false);
  ("wal_receiver_create_temp_slot", mkParameter "wal_receiver_create_temp_slot" (VInt 0) ContextSighup SysBool SourceDefault (VInt 0) false);
  ("wal_receiver_status_interval", mkParameter "wal_receiver_status_interval" (VInt 10) ContextSighup (SysInt 0 2147483 false) SourceDefault (VInt 10) false);
  ("wal_receiver_timeout", mkParameter "wal_receiver_timeout" (VInt 60000) ContextSighup (SysInt 0 2147483647 false) SourceDefault (VInt 60000) false);
  ("wal_recycle", mkParameter "wal_recycle" (VInt 1) ContextSuperUser SysBool SourceDefault (VInt 1) false);
  ("wal_retrieve_retry_interval", mkParameter "wal_retrieve_retry_interval" (VInt 5000) ContextSighup (SysInt 1 2147483647 false) SourceDefault (VInt 5000) false);
  ("wal_segment_size", mkParameter "wal_segment_size" (VInt 16777216) ContextInternal (SysInt 1048576 1073741824 false) SourceDefault (VInt 16777216) false)
].

Definition parameters_28 : list (string * PgParameter) := [
  ("wal_sender_timeout", mkParameter "wal_sender_timeout" (VInt 60000) ContextUser (SysInt 0 2147483647 false) SourceDefault (VInt 60000) false);
  ("wal_skip_threshold", mkParameter "wal_skip_threshold" (VInt 2048) ContextUser (SysInt 0 2147483647 false) SourceDefault (VInt 2048) false);
  ("wal_sync_method", mkParameter "wal_sync_method" (VString "open_datasync") ContextSighup (SysEnum ["fsync"; "fsync_writethrough"; "fdatasync"; "open_sync"; "open_datasync"]) SourceDefault (VString "open_datasync") false);
  ("wal_writer_delay", mkParameter "wal_writer_delay" (VInt 200) ContextSighup (SysInt 1 10000 false) SourceDefault (VInt 200) false);
  ("wal_writer_flush_after", mkParameter "wal_writer_flush_after" (VInt 128) ContextSighup (SysInt 0 2147483647 false) SourceDefault (VInt 128) false);
  ("work_mem", mkParameter "work_mem" (VInt 4096) ContextUser (SysInt 64 2147483647 false) SourceDefault (VInt 4096) false);
  ("xmlbinary", mkParameter "xmlbinary" (VString "base64") ContextUser (SysEnum ["base64"; "hex"]) SourceDefault (VString "base64") false);
  ("xmloption", mkParameter "xmloption" (VString "content") ContextUser (SysEnum ["content"; "document"]) SourceDefault (VString "content") false);
  ("zero_damaged_pages", mkParameter "zero_damaged_pages" (VInt 0) ContextSuperUser SysBool SourceDefault (VInt 0) false)
].

Section Config.
(** [time.Now().Location().String()] at the start of the program. *)
Context (location : string).

Definition postgresConfigParameters : list (string * PgParameter) :=
  parameters_1 ++ parameters_2 ++ parameters_3 ++ parameters_4 ++ parameters_5 ++ parameters_6 ++ parameters_7 ++ parameters_8 ++ parameters_9 ++ parameters_10 ++ parameters_11 ++ parameters_12 ++ parameters_13 ++ parameters_14 ++ parameters_15 ++ parameters_16 ++ parameters_17 ++ parameters_18 ++ parameters_19 ++ parameters_20 ++ parameters_21 ++ parameters_22 ++ parameters_23 ++ parameters_24 location ++ parameters_25 ++ parameters_26 ++ parameters_27 ++ parameters_28.
Definition find_parameter (name : string) : option PgParameter :=
  (fun x => x.2.2) <$> list_find (fun x => x.1 = strings_ToLower name) postgresConfigParameters.
Definition IsValidPostgresConfigParameter (name : string) : bool := match find_parameter name with Some _ => true | None => false end.
End Config.

(** ** Time zones *)

(** In multi-line mode the anchors are those of a line. *)
Fixpoint lines_of (l : list ascii) : list (list ascii) :=
  match l with
  | [] => [[]]
  | c :: l' => match lines_of l' with
               | [] => [[c]]
               | x :: xs => if char_is newline c then [] :: x :: xs else (c :: x) :: xs
               end
  end.
Definition digit2 (n : nat) : re := RGroup n (RSeq (RChar is_digit) (RChar is_digit)).
Definition tzOffsetRegex : re :=
  Regexp.seq [RBegin; RGroup 1 (RChar (fun c => char_is "+" c || char_is "-" c)); digit2 2; RChar (char_is ":"); digit2 3; REnd].
Definition number (s : string) : Z := default 0 (decimal 0 (bytes s)).
(** Nanoseconds. *)
Definition TzOffsetToDuration (d : string) : option Z :=
  match head (omap (fun l => FindStringSubmatch tzOffsetRegex (text l)) (lines_of (bytes d))) with
  | Some g =>
      let minutes := number (group 2 g) * 60 + number (group 3 g) in
      Some ((if decide (group 1 g = "-") then -1 else 1) * minutes * 60 * 10 ^ 9)
  | None => None
  end.

Section Parameters.
(** [sql.Type.Convert] of go-mysql-server and [time.LoadLocation]. *)
Context (Convert : SystemType -> value -> option value) (LoadLocation : string -> option string).

(** The [ValidateFunc] of TimeZone. *)
Definition validate_timezone (v : value) : option value :=
  match v with
  | VString s =>
      if decide (strings_ToLower s = "local") then Some (VString "America/Los_Angeles") else
      let s := if decide (strings_ToLower s = "utc") then "UTC" else s in
      match LoadLocation s with
      | Some loc => Some (VString loc)
      | None => match TzOffsetToDuration s with Some _ => Some (VString s) | None => None end
      end
  | _ => Some v
  end.

Inductive ConfigError : Type := ErrSessionOnly | ErrConvert | ErrInvalidValue | ErrCannotChangeAtRuntime.

Definition InitValue (p : PgParameter) (val : value) (global : bool) : value + ConfigError :=
  if global then inr ErrSessionOnly else
  match Convert (p_Type p) val with
  | None => inr ErrConvert
  | Some v => if p_Validated p then match validate_timezone v with Some v => inl v | None => inr ErrInvalidValue end else inl v
  end.

Definition IsReadOnly (p : PgParameter) : bool :=
  bool_decide (strings_ToLower (p_Name p) ∈ ["server_version"; "server_encoding"; "lc_collate"; "lc_ctype"; "is_superuser"])
  || match p_Context p with ContextSuperUser | ContextUser => false | _ => true end.

Definition SetValue (p : PgParameter) (val : value) (global : bool) : value + ConfigError :=
  if global then inr ErrSessionOnly else if IsReadOnly p then inr ErrCannotChangeAtRuntime else InitValue p val global.
Definition GetDefault (p : PgParameter) : value := p_Default p.
End Parameters.
