(* ===== verification/Rewrite.v ===== *)
(** * Rewriting queries (src/pgserver/stmt.go from line 266, src/pgserver/query_modifier.go, src/catalog/internal_macro.go)

    References to the tables, functions and types of PostgreSQL's catalog are
    replaced in the text of a query by regular expressions.  The names come from
    the internal tables, views and macros of the catalog. *)
From Stdlib Require Import Ascii String.
From stdpp Require Import base strings list.
From S2P Require Import Prelude Identifier InternalTables Regexp SqlText PsqlCommands.

#[local] Open Scope list_scope.

(** ** Replacing matches

    [regexp.ReplaceAllString] and [ReplaceAllStringFunc]: the function is given
    the match and its groups.  An empty match right after another match is left
    alone. *)
Fixpoint replace_from (fuel : nat) (r : re) (f : list ascii -> groups -> list ascii) (after : bool) (prev : option ascii) (rest : list ascii) : list ascii :=
  match fuel with
  | O => rest
  | S fuel =>
      match find_from r prev rest with
      | None => rest
      | Some (start, (g, (prev', rest'))) =>
          let skipped := consumed (prev, rest) start in
          match consumed start (prev', rest') with
          | [] => skipped ++ (if after && bool_decide (skipped = []) then [] else f [] g)
                    ++ match rest' with c :: rest'' => c :: replace_from fuel r f false (Some c) rest'' | [] => [] end
          | m => skipped ++ f m g ++ replace_from fuel r f true prev' rest'
          end
      end
  end.
Definition ReplaceAll (r : re) (f : list ascii -> groups -> list ascii) (s : string) : string :=
  text (replace_from (S (length (bytes s))) r f false None (bytes s)).

(** ** The names of the catalog *)
Definition alts (f : string -> re) (names : list string) : re :=
  match names with [] => REmpty | n :: names' => foldl (fun r n => RAlt r (f n)) (f n) names' end.

Definition internalTables : list (string * string) :=
  map (fun it => (it_Schema it, it_Name it)) [PersistentVariable; BinlogPosition; PgSubscription; GlobalStatus]
  ++ [("__sys__", "pg_stat_replication"); ("__sys__", "pg_range"); ("__sys__", "pg_type"); ("__sys__", "pg_proc"); ("__sys__", "pg_class");
      ("__sys__", "pg_namespace"); ("__sys__", "pg_matviews")]%string.
Definition InternalViews : list (string * string) := [("__sys__", "pg_stat_user_tables"); ("__sys__", "pg_index")]%string.
Definition internalNames : list string := map snd (filter (fun t => t.1 = "__sys__"%string) (internalTables ++ InternalViews)).

Definition SchemaNameSYS : string := "__sys__".
Definition MacroNameMyListContains : string := "my_list_contains".
Definition MacroNameMySplitListStr : string := "my_split_list_str".
(** Schema, name, whether it is a table macro. *)
Definition InternalMacros : list (string * string * bool) :=
  [("information_schema", "_pg_expandarray", true); ("pg_catalog", "pg_get_indexdef", false); ("pg_catalog", "pg_get_expr", false);
   (SchemaNameSYS, MacroNameMyListContains, false); (SchemaNameSYS, MacroNameMySplitListStr, false)]%string.
Definition macro_QualifiedName (m : string * string * bool) : string :=
  let '(schema, name, _) := m in
  if decide (strings_ToLower schema = "pg_catalog") then "__sys__." +:+ name else schema +:+ "." +:+ name.

(** ** Tables *)
Definition quote_opt : re := ROpt (RChar (char_is "034")).
Definition keyword : re := alts lit_i ["FROM"; "JOIN"; "INTO"]%string.
Definition pgCatalogRegex : re :=
  Regexp.seq [RWordBoundary; RGroup 1 keyword; sp; ROpt (lit_i "pg_catalog."); quote_opt; RGroup 2 (alts lit_i internalNames); quote_opt].
(** ["$1 __sys__.$2"] *)
Definition to_sys (_ : list ascii) (g : groups) : list ascii := bytes (group 1 g) ++ bytes " __sys__." ++ bytes (group 2 g).
Definition ConvertToSys (sql : string) : string := ReplaceAll pgCatalogRegex to_sys (RemoveComments sql).

(** ** The operator ANY *)
Definition pgAnyOpRegex : re :=
  Regexp.seq [RGroup 1 (RPlus (RChar (fun c => negb (is_space c) && negb (char_is "(" c)))); sp0; RChar (char_is "="); sp0; lit_i "any"; sp0;
              RChar (char_is "("); sp0; RGroup 2 (RStar true (RChar (fun c => negb (char_is ")" c)))); sp0; RChar (char_is ")")].
Definition to_list_contains (_ : list ascii) (g : groups) : list ascii :=
  bytes (SchemaNameSYS +:+ "." +:+ MacroNameMyListContains +:+ "(") ++ bytes (group 2 g) ++ bytes ", " ++ bytes (group 1 g) ++ bytes ")".
Definition ConvertAnyOp (sql : string) : string := ReplaceAll pgAnyOpRegex to_list_contains sql.

(** ** Type casts and columns

    The map's order does not matter: no key is a prefix of another. *)
Definition simpleStringsConversion : list (string * string) :=
  [("::regclass", "::varchar"); ("::regtype", "::varchar");
   ("proallargtypes", SchemaNameSYS +:+ "." +:+ MacroNameMySplitListStr +:+ "(proallargtypes)");
   ("proargtypes", SchemaNameSYS +:+ "." +:+ MacroNameMySplitListStr +:+ "(proargtypes)")]%string.
Definition simpleStrMatchingRegex : re := RGroup 1 (alts lit_i (map fst simpleStringsConversion)).
Definition simple_str (m : list ascii) (_ : groups) : list ascii :=
  match list_find (fun x => x.1 = strings_ToLower (text m)) simpleStringsConversion with Some (_, x) => bytes x.2 | None => [] end.
Definition SimpleStrReplacement (sql : string) : string := ReplaceAll simpleStrMatchingRegex simple_str sql.

(** ** Functions *)
Definition renamed_macros : list string :=
  map (fun m => m.1.2) (filter (fun m => strings_ToLower m.1.1 = "pg_catalog") InternalMacros).
Definition macro_name : re := RSeq quote_opt (RSeq (alts lit_i renamed_macros) quote_opt).
Definition open_paren : re := RChar (char_is "(").
Definition renameMacroRegex : re :=
  RAlt (Regexp.seq [lit_i "pg_catalog."; RGroup 1 macro_name; open_paren])
       (Regexp.seq [RGroup 2 (RAlt RBegin (RChar (fun c => negb (char_is "." c)))); RGroup 3 macro_name; open_paren]).
(** What stood before the name, the second group, is not written back.  A match
    is always found in its own text ([rename_found]). *)
Definition rename_macro (m : list ascii) (_ : groups) : list ascii :=
  match FindStringSubmatch renameMacroRegex (text m) with
  | Some sub => bytes "__sys__." ++ bytes (if decide (group 1 sub = EmptyString) then group 3 sub else group 1 sub) ++ ["("%char]
  | None => m
  end.
Definition ConvertPgCatalogFuncToSys (sql : string) : string := ReplaceAll renameMacroRegex rename_macro sql.

Definition table_macros : list string := map macro_QualifiedName (filter (fun m => m.2 = true) InternalMacros).
Definition macroRegex : re :=
  Regexp.seq [RGroup 1 (RStar true open_paren);
              RGroup 2 (Regexp.seq [RWordBoundary; alts lit_i table_macros; open_paren; RStar true (RChar (fun c => negb (char_is ")" c))); RChar (char_is ")")]);
              RGroup 3 (RStar true (RChar (char_is ")")))].
(** The groups of the match in its own text. *)
Definition wrap_macro (m : list ascii) (_ : groups) : list ascii :=
  match FindStringSubmatch macroRegex (text m) with
  | None => m
  | Some parts =>
      if has_prefix "(FROM " (group 2 parts) then m
      else bytes (group 1 parts) ++ bytes "(FROM " ++ bytes (group 2 parts) ++ [")"%char] ++ bytes (group 3 parts)
  end.
Definition ConvertToDuckDBMacro (sql : string) : string := ReplaceAll macroRegex wrap_macro sql.

(** ** Query modifiers *)
Definition NewQueryRemover (r : re) (query : string) : string := ReplaceAll r (fun _ _ => []) query.
Definition value_class : re := RStar true (RChar (fun c => negb (char_is " " c) && negb (char_is ";" c))).
Definition removeLocaleProvider : string -> string := NewQueryRemover (RSeq (lit_i "LOCALE_PROVIDER = ") value_class).
Definition removeLocale : string -> string := NewQueryRemover (RSeq (lit_i "LOCALE = ") value_class).
