(* ===== verification/RewriteFacts.v ===== *)
(** * Rewriting queries: references to the catalog

    A query as gaps and references; what the expressions match at a reference. *)

From Stdlib Require Import Ascii String.
From stdpp Require Import base strings list.
From S2P Require Import Prelude Identifier InternalTables Regexp SqlText PsqlCommands Rewrite.

#[local] Open Scope list_scope.

(** ** Regular expressions: what a match is

    [reaches r p q]: the expression can take the text from position [p] to
    position [q].  The search of [matches] finds only such positions
    ([matches_sound]) and finds one whenever there is one ([matches_complete]),
    so [MatchString] decides whether the expression occurs in the text.  Then
    the laws of replacing matches. *)

Inductive reaches : re -> pos -> pos -> Prop :=
| reach_char f prev c rest : f c = true -> reaches (RChar f) (prev, c :: rest) (Some c, rest)
| reach_empty p : reaches REmpty p p
| reach_seq a b p q t : reaches a p q -> reaches b q t -> reaches (RSeq a b) p t
| reach_left a b p q : reaches a p q -> reaches (RAlt a b) p q
| reach_right a b p q : reaches b p q -> reaches (RAlt a b) p q
| reach_stop gr a p : reaches (RStar gr a) p p
| reach_more gr a p q t : reaches a p q -> (length q.2 < length p.2)%nat -> reaches (RStar gr a) q t -> reaches (RStar gr a) p t
| reach_group n a p q : reaches a p q -> reaches (RGroup n a) p q
| reach_begin rest : reaches RBegin (None, rest) (None, rest)
| reach_end prev : reaches REnd (prev, []) (prev, [])
| reach_boundary p : xorb (word_at p.1) (word_at (head p.2)) = true -> reaches RWordBoundary p p.
Create HintDb regexp discriminated.
#[export] Hint Constructors reaches : regexp.

Lemma matches_sound r : forall k p g x, matches r k p g = Some x -> exists q g', reaches r p q /\ k q g' = Some x.
Proof.
  induction r as [f| |a IHa b IHb|a IHa b IHb|gr a IHa|n a IHa| | |]; intros k p g x E; cbn [matches] in E.
  - destruct p as [prev [|c rest]]; cbn [snd] in E; [discriminate|]. destruct (f c) eqn:Ef; [eauto with regexp | discriminate].
  - eauto with regexp.
  - apply IHa in E. destruct E as (q & g1 & Hq & E). apply IHb in E. destruct E as (t & g2 & Ht & E). eauto with regexp.
  - destruct (matches a k p g) as [y|] eqn:Ea; [injection E as ->; apply IHa in Ea; destruct Ea as (q & g1 & H & E) | apply IHb in E; destruct E as (q & g1 & H & E)]; eauto with regexp.
  - revert E. generalize (length p.2) at 1. intros n. revert p g x. induction n as [|n IHn]; intros p g x E.
    + exists p, g. split; [constructor|]. destruct gr; [exact E|]. destruct (k p g); [exact E | discriminate].
    + match type of E with context [matches a ?kk p g] => destruct (matches a kk p g) as [y|] eqn:Ea end.
      * assert (Hy : exists q g', reaches (RStar gr a) p q /\ k q g' = Some y).
        { apply IHa in Ea. destruct Ea as (q & g1 & Hq & Ea). destruct (length q.2 <? length p.2)%nat eqn:El; [|discriminate]. apply Nat.ltb_lt in El.
          apply IHn in Ea. destruct Ea as (t & g2 & Ht & Ek). exists t, g2. split; [eapply reach_more; eassumption | exact Ek]. }
        destruct gr; [injection E as <-; exact Hy|]. destruct (k p g) as [z|] eqn:Ek; injection E as <-; [exists p, g; split; [constructor | exact Ek] | exact Hy].
      * exists p, g. split; [constructor|]. destruct gr; [exact E|]. destruct (k p g); [exact E | discriminate].
  - apply IHa in E. destruct E as (q & g1 & Hq & E). eauto with regexp.
  - destruct p as [[c|] rest]; cbn [fst] in E; [discriminate | eauto with regexp].
  - destruct p as [prev [|c rest]]; cbn [snd] in E; [eauto with regexp | discriminate].
  - destruct (xorb _ _) eqn:Ex; [eauto with regexp | discriminate].
Qed.

Lemma matches_complete r : forall k p q g, reaches r p q -> (forall g', is_Some (k q g')) -> is_Some (matches r k p g).
Proof.
  induction r as [f| |a IHa b IHb|a IHa b IHb|gr a IHa|n a IHa| | |]; intros k p q g H Hk; cbn [matches].
  - inversion H as [? ? ? ? Hf| | | | | | | | | |]; subst. cbn [snd]. rewrite Hf. apply Hk.
  - inversion H; subst. apply Hk.
  - inversion H; subst. eapply IHa; [eassumption|]. intros g1. eapply IHb; eassumption.
  - inversion H; subst.
    + destruct (IHa k p q g ltac:(assumption) Hk) as [x ->]. eauto.
    + destruct (matches a k p g) as [y|]; [eauto|]. eapply IHb; eassumption.
  - assert (Hloop : forall n p g, (length p.2 <= n)%nat -> reaches (RStar gr a) p q ->
      is_Some ((fix loop (n : nat) (p : pos) (g : groups) : option found :=
         let more := match n with
                     | O => None
                     | S n => matches a (fun p' g' => if (length p'.2 <? length p.2)%nat then loop n p' g' else None) p g
                     end in
         if gr then match more with Some x => Some x | None => k p g end
         else match k p g with Some x => Some x | None => more end) n p g)).
    { clear p g H. induction n as [|n IHn]; intros p g Hn Hr.
      - inversion Hr as [| | | | |? ? ?|? ? ? q1 ? Ha Hl Hs| | | |]; subst; [|lia]. destruct (Hk g) as [x Ex]. destruct gr; rewrite Ex; eauto.
      - cbn zeta. inversion Hr as [| | | | |? ? ?|? ? ? q1 ? Ha Hl Hs| | | |]; subst.
        + destruct (Hk g) as [x Ex]. destruct gr; rewrite Ex; [destruct (matches a _ _ _); eauto | eauto].
        + match goal with |- context [matches a ?kk p g] => assert (Hm : is_Some (matches a kk p g)) end.
          { apply (IHa _ _ q1); [exact Ha|]. intros g1. destruct (Nat.ltb_spec (length q1.2) (length p.2)); [|lia]. apply IHn; [lia | exact Hs]. }
          destruct Hm as [x Hm]. rewrite Hm. destruct gr; [eauto|]. destruct (k p g); eauto. }
    apply Hloop; [lia | exact H].
  - inversion H; subst. eapply IHa; [eassumption|]. intros g1. apply Hk.
  - inversion H; subst. apply Hk.
  - inversion H; subst. apply Hk.
  - inversion H as [| | | | | | | | | |? Hx]; subst. rewrite Hx. apply Hk.
Qed.

(** The position reached is the rest of the text after some of it. *)
Lemma reaches_consumes r p q : reaches r p q -> exists s, p.2 = s ++ q.2 /\ q.1 = last_of p.1 s.
Proof.
  induction 1 as [f prev c rest Hf|p|a b p q t _ (s1 & E1 & F1) _ (s2 & E2 & F2)|a b p q _ IH|a b p q _ IH|gr a p|gr a p q t _ (s1 & E1 & F1) _ _ (s2 & E2 & F2)|n a p q _ IH|rest|prev|p _];
    try exact IH; try (exists []; split; reflexivity).
  - exists [c]. split; reflexivity.
  - exists (s1 ++ s2). rewrite E1, E2, app_assoc, F2, F1, last_of_app. split; reflexivity.
  - exists (s1 ++ s2). rewrite E1, E2, app_assoc, F2, F1, last_of_app. split; reflexivity.
Qed.

Lemma here_reaches r p x : here r p = Some x -> reaches r p x.2.
Proof. unfold here. intros E. apply matches_sound in E. destruct E as (q & g & H & E). injection E as <-. exact H. Qed.
Lemma here_complete r p q : reaches r p q -> is_Some (here r p).
Proof. intros H. apply (matches_complete r _ p q [] H). eauto. Qed.

(** An expression without anchors takes the same text anywhere. *)
Fixpoint anchor_free (r : re) : bool :=
  match r with
  | RChar _ | REmpty => true
  | RSeq a b | RAlt a b => anchor_free a && anchor_free b
  | RStar _ a | RGroup _ a => anchor_free a
  | RBegin | REnd | RWordBoundary => false
  end.
Lemma reaches_anywhere r p q : reaches r p q -> anchor_free r = true -> forall s prev rest, p.2 = s ++ q.2 -> reaches r (prev, s ++ rest) (last_of prev s, rest).
Proof.
  assert (Hnil : forall (s l : list ascii), l = s ++ l -> s = []) by (intros s l E; apply (f_equal length) in E; rewrite length_app in E; destruct s; [reflexivity | cbn in E; lia]).
  assert (Hsplit : forall a b p q t s, reaches a p q -> reaches b q t -> p.2 = s ++ t.2 -> exists s1 s2, s = s1 ++ s2 /\ p.2 = s1 ++ q.2 /\ q.2 = s2 ++ t.2).
  { intros a b p0 q0 t0 s Ha Hb E. destruct (reaches_consumes _ _ _ Ha) as (s1 & E1 & _), (reaches_consumes _ _ _ Hb) as (s2 & E2 & _).
    exists s1, s2. split; [|split; assumption]. rewrite E1, E2, app_assoc in E. apply app_inv_tail in E. symmetry. exact E. }
  induction 1 as [f prev0 c rest0 Hf|p|a b p q t H1 IH1 H2 IH2|a b p q _ IH|a b p q _ IH|gr a p|gr a p q t H1 IH1 Hl H2 IH2|n a p q _ IH|rest0|prev0|p _];
    cbn [anchor_free]; intros Haf s prev rest E; try discriminate; try (apply andb_prop in Haf; destruct Haf as [Ha Hb]).
  - cbn [snd] in E. change (c :: rest0) with ([c] ++ rest0) in E. apply app_inv_tail in E. subst s. constructor. exact Hf.
  - rewrite (Hnil _ _ E). constructor.
  - destruct (Hsplit a b p q t s H1 H2 E) as (s1 & s2 & -> & E1 & E2). rewrite last_of_app, <- app_assoc. eapply reach_seq; [apply (IH1 Ha _ _ _ E1) | apply (IH2 Hb _ _ _ E2)].
  - apply reach_left, (IH Ha _ _ _ E).
  - apply reach_right, (IH Hb _ _ _ E).
  - rewrite (Hnil _ _ E). constructor.
  - destruct (Hsplit a (RStar gr a) p q t s H1 H2 E) as (s1 & s2 & -> & E1 & E2). rewrite last_of_app, <- app_assoc. eapply reach_more; [apply (IH1 Haf _ _ _ E1)| |apply (IH2 Haf _ _ _ E2)].
    rewrite E1, length_app in Hl. cbn [snd]. rewrite !length_app. lia.
  - apply reach_group, (IH Haf _ _ _ E).
Qed.

(** ** The first match *)

(** The leftmost position from which the expression reaches some other. *)
Lemma find_from_none r : forall rest prev, find_from r prev rest = None <-> forall pre post, rest = pre ++ post -> here r (last_of prev pre, post) = None.
Proof.
  induction rest as [|c rest IH]; intros prev; cbn [find_from].
  - split.
    + destruct (here r (prev, [])) eqn:E; [discriminate|]. intros _ pre post Ep. symmetry in Ep. apply app_eq_nil in Ep. destruct Ep as [-> ->]. exact E.
    + intros H. specialize (H [] [] eq_refl). unfold last_of in H. cbn in H. rewrite H. reflexivity.
  - destruct (here r (prev, c :: rest)) as [x|] eqn:E.
    + split; [discriminate|]. intros H. specialize (H [] (c :: rest) eq_refl). unfold last_of in H. cbn in H. congruence.
    + rewrite IH. split; intros H pre post Ep.
      * destruct pre as [|d pre]; cbn [app] in Ep; [rewrite <- Ep; exact E|]. injection Ep as <- ->. rewrite last_of_cons. apply H. reflexivity.
      * rewrite <- (last_of_cons prev). apply (H (c :: pre) post). rewrite Ep. reflexivity.
Qed.

(** [MatchString] decides whether the expression occurs. *)
Lemma MatchString_occurs r s : MatchString r s = true <-> exists pre mid post, bytes s = pre ++ mid ++ post /\ reaches r (last_of None pre, mid ++ post) (last_of None (pre ++ mid), post).
Proof.
  unfold MatchString, FindStringSubmatch. destruct (find_from r None (bytes s)) as [[start [g q]]|] eqn:E; cbn.
  - split; [intros _ | reflexivity]. assert (Hs : exists pre post, bytes s = pre ++ post /\ start = (last_of None pre, post)).
    { clear -E. revert E. generalize (@None ascii) as prev. induction (bytes s) as [|c rest IH]; intros prev; cbn [find_from]; destruct (here r (prev, _)) as [y|]; intros E; try discriminate.
      - injection E as <- _. exists [], []. split; reflexivity.
      - injection E as <- _. exists [], (c :: rest). split; reflexivity.
      - destruct (IH _ E) as (pre & post & -> & ->). exists (c :: pre), post. rewrite last_of_cons. split; reflexivity. }
    destruct Hs as (pre & post & Hb & ->). apply find_from_here in E. apply here_reaches in E. cbn [snd] in E. destruct (reaches_consumes _ _ _ E) as (mid & E1 & E2). cbn [fst snd] in *.
    exists pre, mid, q.2. rewrite Hb, E1. split; [reflexivity|]. rewrite last_of_app, <- E2, <- E1. destruct q. exact E.
  - split; [discriminate|]. intros (pre & mid & post & Hb & H). rewrite find_from_none in E. specialize (E pre (mid ++ post) Hb). destruct (here_complete _ _ _ H). congruence.
Qed.

(** ** Replacing matches *)

(** No match begins in [pre] when [post] follows it. *)
Fixpoint quiet (r : re) (prev : option ascii) (pre post : list ascii) : bool :=
  match pre with
  | [] => true
  | c :: pre' => match here r (prev, c :: pre' ++ post) with Some _ => false | None => quiet r (Some c) pre' post end
  end.
(** Nor in the whole text, its end included. *)
Definition silent (r : re) (prev : option ascii) (l : list ascii) : bool :=
  quiet r prev l [] && match here r (last_of prev l, []) with Some _ => false | None => true end.

Lemma find_from_quiet r pre : forall prev post, quiet r prev pre post = true -> find_from r prev (pre ++ post) = find_from r (last_of prev pre) post.
Proof.
  induction pre as [|c pre IH]; intros prev post H; [reflexivity|]. cbn [quiet] in H. cbn [app find_from]. destruct (here r (prev, c :: pre ++ post)); [discriminate|].
  rewrite last_of_cons. apply IH, H.
Qed.
Lemma find_from_silent r l prev : silent r prev l = true -> find_from r prev l = None.
Proof.
  unfold silent. intros H. apply andb_prop in H. destruct H as [H1 H2]. rewrite <- (app_nil_r l), find_from_quiet by exact H1. cbn [find_from]. destruct (here r _); [discriminate | reflexivity].
Qed.

Lemma replace_silent fuel r f after prev l : silent r prev l = true -> replace_from fuel r f after prev l = l.
Proof. intros H. destruct fuel as [|fuel]; [reflexivity|]. cbn [replace_from]. rewrite (find_from_silent _ _ _ H). reflexivity. Qed.

(** The next match and what follows it. *)
Lemma replace_next fuel r f after prev pre m rest g : quiet r prev pre (m ++ rest) = true -> m <> [] ->
  here r (last_of prev pre, m ++ rest) = Some (g, (last_of prev (pre ++ m), rest)) ->
  replace_from (S fuel) r f after prev (pre ++ m ++ rest) = pre ++ f m g ++ replace_from fuel r f true (last_of prev (pre ++ m)) rest.
Proof.
  intros Hq Hm Hh. cbn [replace_from]. rewrite find_from_quiet by exact Hq.
  assert (E : find_from r (last_of prev pre) (m ++ rest) = Some ((last_of prev pre, m ++ rest), (g, (last_of prev (pre ++ m), rest)))).
  { destruct m as [|c m]; [congruence|]. cbn [app find_from] in *. rewrite Hh. reflexivity. }
  rewrite E. rewrite !consumed_app. destruct m as [|c m]; [congruence|]. reflexivity.
Qed.

(** Text that differs from a literal within both. *)
Fixpoint differs (f : ascii -> ascii -> bool) (w s : list ascii) : bool :=
  match w, s with a :: w', c :: s' => if f a c then differs f w' s' else true | _, _ => false end.
Lemma differs_app f w s rest : differs f w s = true -> differs f w (s ++ rest) = true.
Proof. revert s. induction w as [|a w IH]; intros [|c s] H; try discriminate. cbn [differs app] in *. destruct (f a c); [apply IH, H | reflexivity]. Qed.
Lemma matches_differs f w k prev s g : differs f (bytes w) s = true -> matches (lit_with f w) k (prev, s) g = None.
Proof.
  revert prev s. induction w as [|a w IH]; intros prev [|c s] H; try discriminate; cbn [bytes list_ascii_of_string differs] in H.
  cbn [lit_with matches snd]. destruct (f a c); [apply IH, H | reflexivity].
Qed.

(** The alternative that fits is found when those before it differ. *)
Lemma matches_alts f before w after s k prev rest g x : Forall2 (fun a c => f a c = true) (bytes w) s ->
  forallb (fun v => differs f (bytes v) s) before = true -> k (last_of prev s, rest) g = Some x ->
  matches (alts (lit_with f) (before ++ w :: after)) k (prev, s ++ rest) g = Some x.
Proof.
  intros Hw Hb Hk. assert (Hnone : forall v, In v before -> matches (lit_with f v) k (prev, s ++ rest) g = None).
  { intros v Hv. apply matches_differs, differs_app. rewrite forallb_forall in Hb. apply Hb, Hv. }
  assert (Hhit : matches (lit_with f w) k (prev, s ++ rest) g = Some x) by (rewrite matches_lit by exact Hw; exact Hk).
  assert (Hafter : forall r, matches r k (prev, s ++ rest) g = Some x -> matches (foldl (fun r n => RAlt r (lit_with f n)) r after) k (prev, s ++ rest) g = Some x).
  { clear -Hk. induction after as [|v after IH]; intros r Hr; [exact Hr|]. cbn [foldl]. apply IH. cbn [matches]. rewrite Hr. reflexivity. }
  assert (Hfold : forall l r, matches r k (prev, s ++ rest) g = None -> (forall v, In v l -> matches (lit_with f v) k (prev, s ++ rest) g = None) ->
    matches (foldl (fun r n => RAlt r (lit_with f n)) r (l ++ w :: after)) k (prev, s ++ rest) g = Some x).
  { clear Hb Hnone. induction l as [|v l IH]; intros r Hr Hv; cbn [app foldl].
    - apply Hafter. cbn [matches]. rewrite Hr. exact Hhit.
    - apply IH; [|intros u Hu; apply Hv; right; exact Hu]. cbn [matches]. rewrite Hr. apply Hv. left. reflexivity. }
  destruct before as [|v before]; cbn [app alts]; [apply Hafter, Hhit|]. apply Hfold; [apply Hnone; left; reflexivity | intros u Hu; apply Hnone; right; exact Hu].
Qed.

(** An optional character that is not there. *)
Lemma matches_opt_skip p k prev rest g : match rest with c :: _ => p c = false | [] => True end -> matches (ROpt (RChar p)) k (prev, rest) g = k (prev, rest) g.
Proof. intros H. unfold ROpt. cbn [matches snd]. destruct rest as [|c rest]; [reflexivity|]. rewrite H. reflexivity. Qed.

Lemma matches_seq a b k p g : matches (RSeq a b) k p g = matches a (matches b k) p g.
Proof. reflexivity. Qed.
Lemma matches_group n a k p g : matches (RGroup n a) k p g = matches a (fun p' g' => k p' ((n, consumed p p') :: g')) p g.
Proof. reflexivity. Qed.

(** The same letters up to case. *)
Definition folded (w : string) (s : list ascii) : bool := bool_decide (map fold_char (bytes w) = map fold_char s).
Lemma folded_folds w s : folded w s = true -> Forall2 (fun a c => char_folds a c = true) (bytes w) s.
Proof.
  unfold folded. intros H. apply bool_decide_eq_true in H. revert s H. induction (bytes w) as [|a l IH]; intros [|c s] H; cbn [map] in H; try discriminate; constructor.
  - injection H as H _. apply bool_decide_eq_true. symmetry. exact H.
  - apply IH. injection H as _ H. exact H.
Qed.

Definition keywords : list string := ["FROM"; "JOIN"; "INTO"]%string.
(** A word of [words] differs from those before it and is found among them. *)
Definition distinct (words : list string) : bool :=
  forallb (fun w => match list_find (fun v => v = w) words with Some (i, _) => forallb (fun v => differs char_folds (bytes v) (bytes w)) (take i words) | None => false end) words.
Lemma differs_folded v s s' : map fold_char s = map fold_char s' -> differs char_folds v s = differs char_folds v s'.
Proof.
  revert s s'. induction v as [|a v IH]; intros [|c s] [|c' s'] H; cbn [map] in H; try discriminate; [reflexivity ..|]. injection H as Hc Hs. cbn [differs].
  unfold char_folds. rewrite Hc. destruct (bool_decide _); [apply IH, Hs | reflexivity].
Qed.
Lemma matches_word words w s k prev rest g x : distinct words = true -> w ∈ words -> folded w s = true ->
  k (last_of prev s, rest) g = Some x -> matches (alts lit_i words) k (prev, s ++ rest) g = Some x.
Proof.
  unfold distinct. intros Hd Hw Hs Hk. rewrite forallb_forall in Hd. apply list_elem_of_In in Hw. specialize (Hd w Hw). cbn beta in Hd.
  destruct (list_find (fun v => v = w) words) as [[i v]|] eqn:E; [|discriminate]. apply list_find_Some in E. destruct E as (Hi & -> & _).
  rewrite <- (take_drop_middle words i w Hi). apply matches_alts; [apply folded_folds, Hs | | exact Hk].
  rewrite forallb_forall in Hd |- *. intros v Hv. rewrite <- (differs_folded (bytes v) (bytes w) s); [apply Hd, Hv|]. apply bool_decide_eq_true in Hs. exact Hs.
Qed.

(** ** References to tables *)
Record TableRef : Type := mkRef { gap : list ascii; kw : list ascii; blanks : list ascii; qualified : bool; table : string }.
Definition ref_text (r : TableRef) : list ascii := kw r ++ blanks r ++ (if qualified r then bytes "pg_catalog." else []) ++ bytes (table r).
Definition ref_wf (r : TableRef) : bool :=
  existsb (fun K => folded K (kw r)) keywords && negb (bool_decide (blanks r = [])) && forallb is_space (blanks r) && bool_decide (table r ∈ internalNames).

(** A name is none of what comes before it in the expression. *)
Lemma names_ok : forallb (fun n => differs char_folds (bytes "pg_catalog.") (bytes n)
  && match bytes n with c :: _ => negb (is_space c) && negb (char_is "034" c) | [] => false end) internalNames = true.
Proof. vm_compute. reflexivity. Qed.

Lemma match_reference r prev rest : ref_wf r = true -> word_at prev = false -> match rest with c :: _ => char_is "034" c = false | [] => True end ->
  here pgCatalogRegex (prev, ref_text r ++ rest) = Some ([(2%nat, bytes (table r)); (1%nat, kw r)], (last_of prev (ref_text r), rest)).
Proof.
  unfold ref_wf. rewrite !andb_true_iff. intros [[[Hkw Hne] Hsp] Hn] Hprev Hrest.
  apply existsb_exists in Hkw. destruct Hkw as (K & HK & Hkw). apply list_elem_of_In in HK. rewrite bool_decide_eq_true in Hn. apply negb_true_iff, bool_decide_eq_false in Hne.
  pose proof names_ok as Hok. rewrite forallb_forall in Hok. specialize (Hok _ (proj1 (list_elem_of_In _ _) Hn)). apply andb_prop in Hok. destruct Hok as [Hcat Hhead].
  destruct (bytes (table r)) as [|n0 name] eqn:Ename; [discriminate|]. rewrite andb_true_iff, !negb_true_iff in Hhead. destruct Hhead as [Hnsp Hnq].
  assert (Hk0 : exists c0 kw', kw r = c0 :: kw' /\ is_word c0 = true).
  { apply folded_folds in Hkw. apply list_elem_of_In in HK. destruct HK as [<-|[<-|[<-|[]]]]; cbn in Hkw; inversion Hkw as [|? c ? l Hc _]; subst; exists c, l; split; try reflexivity;
      apply bool_decide_eq_true in Hc; revert Hc; vm_compute; destruct c as [[] [] [] [] [] [] [] []]; vm_compute; intros Hc; try discriminate Hc; reflexivity. }
  destruct Hk0 as (c0 & kw' & Ekw & Hw0).
  unfold here, pgCatalogRegex, Regexp.seq. rewrite matches_seq. unfold ref_text. rewrite Ename. cbn [matches fst snd].
  assert (Hb : xorb (word_at prev) (word_at (head ((kw r ++ blanks r ++ (if qualified r then bytes "pg_catalog." else []) ++ n0 :: name) ++ rest))) = true).
  { rewrite Hprev, Ekw. cbn. rewrite Hw0. reflexivity. }
  rewrite Hb. rewrite <- app_assoc. rewrite (matches_word keywords K (kw r) _ prev _ _ ([(2%nat, n0 :: name); (1%nat, kw r)], (last_of prev (kw r ++ blanks r ++ (if qualified r then bytes "pg_catalog." else []) ++ n0 :: name), rest)));
    [reflexivity | vm_compute; reflexivity | exact HK | exact Hkw|].
  rewrite consumed_app, <- app_assoc. apply matches_plus; [exact Hne | exact Hsp | destruct (qualified r); [reflexivity | exact Hnsp] |].
  set (prev2 := last_of (last_of prev (kw r)) (blanks r)).
  assert (Hend : forall prev3 g, matches quote_opt (matches (RSeq (RGroup 2 (alts lit_i internalNames)) quote_opt) (fun p g => Some (g, p))) (prev3, (n0 :: name) ++ rest) g
    = Some ((2%nat, n0 :: name) :: g, (last_of prev3 (n0 :: name), rest))).
  { intros prev3 g. unfold quote_opt at 1. rewrite matches_opt_skip by exact Hnq. rewrite matches_seq, matches_group.
    apply (matches_word internalNames (table r)); [vm_compute; reflexivity | exact Hn | unfold folded; rewrite Ename; apply bool_decide_eq_true; reflexivity|].
    rewrite consumed_app. unfold quote_opt. rewrite matches_opt_skip by exact Hrest. reflexivity. }
  rewrite !last_of_app. fold prev2. destruct (qualified r).
  - unfold ROpt. cbn [matches]. unfold lit_i. rewrite <- app_assoc. rewrite matches_lit by apply folds_refl. rewrite (Hend _ [(1%nat, kw r)]). reflexivity.
  - unfold ROpt. cbn [matches app]. unfold lit_i. rewrite (matches_differs char_folds "pg_catalog.") by (apply (differs_app char_folds _ (n0 :: name)), Hcat). apply (Hend prev2 [(1%nat, kw r)]).
Qed.

(** The query, what the references must satisfy where they stand, and the query
    after the replacement. *)
Fixpoint query_text (refs : list TableRef) (tail : list ascii) : list ascii :=
  match refs with [] => tail | r :: refs' => gap r ++ ref_text r ++ query_text refs' tail end.
Fixpoint query_wf (prev : option ascii) (refs : list TableRef) (tail : list ascii) : bool :=
  match refs with
  | [] => silent pgCatalogRegex prev tail
  | r :: refs' =>
      let rest := query_text refs' tail in
      ref_wf r && quiet pgCatalogRegex prev (gap r) (ref_text r ++ rest) && negb (word_at (last_of prev (gap r)))
      && match rest with c :: _ => negb (char_is "034" c) | [] => true end
      && query_wf (last_of prev (gap r ++ ref_text r)) refs' tail
  end.
Fixpoint redirected (refs : list TableRef) (tail : list ascii) : list ascii :=
  match refs with [] => tail | r :: refs' => gap r ++ (kw r ++ bytes " __sys__." ++ bytes (table r)) ++ redirected refs' tail end.

Lemma replace_references refs : forall fuel after prev tail, query_wf prev refs tail = true -> (length refs <= fuel)%nat ->
  replace_from fuel pgCatalogRegex to_sys after prev (query_text refs tail) = redirected refs tail.
Proof.
  induction refs as [|r refs IH]; intros fuel after prev tail H Hf; cbn [query_text query_wf redirected] in *; [apply replace_silent, H|].
  rewrite !andb_true_iff in H. destruct H as [[[[Hr Hq] Hw] Hs] Hrest]. apply negb_true_iff in Hw. destruct fuel as [|fuel]; [cbn in Hf; lia|].
  assert (Hs' : match query_text refs tail with c :: _ => char_is "034" c = false | [] => True end) by (destruct (query_text refs tail); [exact I | apply negb_true_iff, Hs]).
  rewrite (replace_next _ _ _ _ _ _ _ _ [(2%nat, bytes (table r)); (1%nat, kw r)]).
  - rewrite IH by (exact Hrest || (cbn in Hf; lia)). unfold to_sys. change (group 1 [(2%nat, bytes (table r)); (1%nat, kw r)]) with (text (kw r)). change (group 2 [(2%nat, bytes (table r)); (1%nat, kw r)]) with (text (bytes (table r))).
    rewrite !bytes_text. reflexivity.
  - exact Hq.
  - intros E. unfold ref_text in E. apply app_eq_nil in E. destruct E as [_ E]. apply app_eq_nil in E. destruct E as [E _].
    unfold ref_wf in Hr. rewrite E, bool_decide_eq_true_2 in Hr by reflexivity. rewrite !andb_false_r in Hr. discriminate.
  - rewrite last_of_app. apply match_reference; assumption.
Qed.

Lemma wf_fuel refs : forall prev tail, query_wf prev refs tail = true -> (length refs <= length (query_text refs tail))%nat.
Proof.
  induction refs as [|r refs IH]; intros prev tail H; cbn [query_text query_wf length] in *; [lia|]. rewrite !andb_true_iff in H. destruct H as [[[[Hr _] _] _] H].
  specialize (IH _ _ H). rewrite !length_app. assert (ref_text r <> []); [|destruct (ref_text r); [congruence | cbn; lia]].
  intros E. unfold ref_text in E. apply app_eq_nil in E. destruct E as [_ E]. apply app_eq_nil in E. destruct E as [E _].
  unfold ref_wf in Hr. rewrite E, bool_decide_eq_true_2 in Hr by reflexivity. rewrite !andb_false_r in Hr. discriminate.
Qed.

(** ** Calls of functions *)
Lemma macros_ok : forallb (fun n => match bytes n with "p"%char :: c :: _ => negb (char_folds "p" c) && negb (char_folds "034" c) | _ => false end) renamed_macros = true.
Proof. vm_compute. reflexivity. Qed.

(** A call without a schema is matched with the character before it. *)
Lemma match_call prev c name rest : name ∈ renamed_macros -> char_is "." c = false -> char_is "034" c = false ->
  here renameMacroRegex (prev, c :: bytes name ++ "("%char :: rest)
  = Some ([(3%nat, bytes name); (2%nat, [c])], (Some "("%char, rest)).
Proof.
  intros Hn Hdot Hq. pose proof macros_ok as Hok. rewrite forallb_forall in Hok. specialize (Hok _ (proj1 (list_elem_of_In _ _) Hn)).
  destruct (bytes name) as [|n0 [|n1 l]] eqn:En; [discriminate | destruct n0 as [[] [] [] [] [] [] [] []]; discriminate|].
  assert (E0 : n0 = "p"%char) by (destruct n0 as [[] [] [] [] [] [] [] []]; try discriminate Hok; reflexivity). subst n0. clear Hok.
  assert (Hno : forall w, match bytes w with "p"%char :: "g"%char :: _ => True | _ => False end -> differs char_folds (bytes w) (c :: "p"%char :: n1 :: l) = true).
  { intros w Hw. destruct (bytes w) as [|a0 [|a1 w']]; [contradiction | destruct a0 as [[] [] [] [] [] [] [] []]; contradiction|]. cbn [differs].
    destruct (char_folds a0 c); [|reflexivity]. destruct a0 as [[] [] [] [] [] [] [] []]; try contradiction; destruct a1 as [[] [] [] [] [] [] [] []]; try contradiction; reflexivity. }
  assert (Hname : forall k prev' g x, k (last_of prev' ("p"%char :: n1 :: l), "("%char :: rest) g = Some x ->
    matches macro_name k (prev', ("p"%char :: n1 :: l) ++ "("%char :: rest) g = Some x).
  { intros k prev' g x Hk. unfold macro_name. rewrite matches_seq. unfold quote_opt at 1. rewrite matches_opt_skip by reflexivity. rewrite matches_seq.
    apply (matches_word renamed_macros name); [vm_compute; reflexivity | exact Hn | unfold folded; rewrite En; apply bool_decide_eq_true; reflexivity|].
    unfold quote_opt. rewrite matches_opt_skip by reflexivity. exact Hk. }
  assert (Hno_name : forall k prev' g, matches macro_name k (prev', c :: "p"%char :: n1 :: l ++ "("%char :: rest) g = None).
  { intros k prev' g. unfold macro_name. rewrite matches_seq. unfold quote_opt at 1. rewrite matches_opt_skip by exact Hq. rewrite matches_seq. cbn [alts foldl renamed_macros].
    change (alts lit_i renamed_macros) with (RAlt (lit_with char_folds "pg_get_indexdef") (lit_with char_folds "pg_get_expr")). cbn [matches].
    rewrite !(matches_differs char_folds) by (apply (differs_app char_folds _ (c :: "p"%char :: n1 :: l)), Hno; exact I). reflexivity. }
  unfold here, renameMacroRegex, Regexp.seq. cbn [matches]. unfold lit_i. rewrite (matches_differs char_folds "pg_catalog.") by (apply (differs_app char_folds _ (c :: "p"%char :: n1 :: l)), Hno; exact I).
  cbn [fst snd]. rewrite Hdot. cbn [negb].
  assert (Hb : forall k g, match prev with None => matches macro_name k (prev, c :: ("p"%char :: n1 :: l) ++ "("%char :: rest) g | Some _ => None end = None).
  { intros k g. destruct prev; [reflexivity | apply Hno_name]. }
  rewrite Hb. change (c :: ("p"%char :: n1 :: l) ++ "("%char :: rest) with ([c] ++ ("p"%char :: n1 :: l) ++ "("%char :: rest). rewrite consumed_app. apply Hname.
  rewrite consumed_app. reflexivity.
Qed.

(** What the expression matched in a query it finds again in that text alone. *)
Lemma rename_found prev m rest g prev' : here renameMacroRegex (prev, m ++ rest) = Some (g, (prev', rest)) -> is_Some (FindStringSubmatch renameMacroRegex (text m)).
Proof.
  intros H. apply here_reaches in H. cbn [snd] in H. unfold FindStringSubmatch. rewrite bytes_text.
  assert (Hr : exists q, reaches renameMacroRegex (None, m) q).
  { exists (last_of None m, []). rewrite <- (app_nil_r m) at 1. unfold renameMacroRegex in *. inversion H as [| | |? ? ? ? Hl|? ? ? ? Hl| | | | | |]; subst.
    - apply reach_left. apply (reaches_anywhere _ _ _ Hl eq_refl m None []). reflexivity.
    - apply reach_right. unfold Regexp.seq in *. inversion Hl as [| |? ? ? q ? Hg Hs| | | | | | | |]; subst. inversion Hg as [| | | | | | |? ? ? ? Ha| | |]; subst.
      inversion Ha as [| | |? ? ? ? Hb|? ? ? ? Hc| | | | | |]; subst.
      + inversion Hb; subst. eapply reach_seq; [apply reach_group, reach_left; constructor|]. apply (reaches_anywhere _ _ _ Hs eq_refl m None []). reflexivity.
      + inversion Hc as [? ? c rest' Hf| | | | | | | | | |]; subst. destruct (reaches_consumes _ _ _ Hs) as (s & Es & _). cbn [snd] in Es. subst rest'.
        assert (Em : m = c :: s) by (apply (app_inv_tail rest); cbn [app]; congruence). subst m. cbn [app]. eapply reach_seq; [apply reach_group, reach_right; constructor; exact Hf|].
        rewrite last_of_cons. apply (reaches_anywhere _ _ _ Hs eq_refl s (Some c) []). reflexivity. }
  destruct Hr as [q Hr]. destruct (here_complete _ _ _ Hr) as [x Hx]. destruct m as [|c m]; cbn [find_from]; rewrite Hx; eauto.
Qed.
