(* ===== verification/SqlTextFacts.v ===== *)
(** * Facts on SQL text

    What the scanners of [RemoveComments] copy is what they read; the fuel of
    the recursions is enough; and the option parser read word by word. *)

From Stdlib Require Import Ascii String.
From S2P Require Import Prelude Identifier CatalogErrors Regexp SqlText.

#[local] Open Scope list_scope.

(** ** Comments *)
Lemma char_is_eq a c : char_is a c = true -> c = a.
Proof. apply bool_decide_eq_true. Qed.

Lemma string_literal_app l : let '(out, rest) := string_literal l in l = out ++ rest.
Proof.
  assert (H : forall n l, (length l <= n)%nat -> let '(out, rest) := string_literal l in l = out ++ rest).
  { induction n as [|n IH]; intros [|c [|d l2]] Hn; cbn [length] in Hn; try lia; try reflexivity.
    - cbn [string_literal]. destruct (char_is "'" c) eqn:E; [apply char_is_eq in E; subst|]; reflexivity.
    - cbn [string_literal]. destruct (char_is "'" c) eqn:E; [apply char_is_eq in E; subst; reflexivity|]. destruct (char_is backslash c).
      + pose proof (IH l2 ltac:(lia)) as H. destruct (string_literal l2) as [out rest]. cbn. rewrite H. reflexivity.
      + pose proof (IH (d :: l2) ltac:(cbn; lia)) as H. change (string_literal (d :: l2)) with (string_literal (d :: l2)) in *. cbn [string_literal] in H |- *.
        destruct (if char_is "'" d then _ else _) as [out rest]. cbn. rewrite H. reflexivity. }
  apply (H (length l) l). lia.
Qed.

Lemma quoted_identifier_app l : let '(out, rest) := quoted_identifier l in l = out ++ rest.
Proof.
  induction l as [|c l IH]; [reflexivity|]. cbn [quoted_identifier]. destruct (char_is dq c) eqn:E; [apply char_is_eq in E; subst; reflexivity|].
  destruct (quoted_identifier l) as [out rest]. cbn. rewrite IH. reflexivity.
Qed.

Lemma tag_chars_app l : l = fst (tag_chars l) ++ snd (tag_chars l).
Proof. induction l as [|c l IH]; [reflexivity|]. cbn [tag_chars]. destruct (_ || _); [|reflexivity]. destruct (tag_chars l) as [tag rest]. cbn in *. rewrite IH at 1. reflexivity. Qed.

Lemma prefix_of_app p l : prefix_of p l = true -> l = p ++ drop (length p) l.
Proof.
  revert l. induction p as [|a p IH]; intros l H; [reflexivity|]. destruct l as [|b l]; [discriminate|]. cbn in H. apply andb_prop in H. destruct H as [Ha H].
  apply char_is_eq in Ha. subst b. cbn. f_equal. apply IH, H.
Qed.

Lemma dollar_body_app tag l : let '(out, rest) := dollar_body tag l in l = out ++ rest.
Proof.
  induction l as [|c l IH]; cbn [dollar_body].
  - destruct (prefix_of tag []) eqn:E; [apply (prefix_of_app tag []), E | reflexivity].
  - destruct (prefix_of tag (c :: l)) eqn:E; [apply prefix_of_app, E|]. destruct (dollar_body tag l) as [out rest]. cbn. rewrite IH. reflexivity.
Qed.

(** No comment begins here. *)
Definition no_comment (l : list ascii) : bool := negb (starts_line_comment l) && negb (starts_block_comment l).

Lemma piece_copies l : no_comment l = true -> l <> [] -> let '(out, rest) := piece l in l = out ++ rest /\ (length rest < length l)%nat.
Proof.
  intros Hn Hl. unfold no_comment in Hn. apply andb_prop in Hn. destruct Hn as [H1 H2]. apply negb_true_iff in H1, H2. unfold piece. rewrite H1, H2. clear H1 H2.
  destruct l as [|c l1]; [congruence|]. clear Hl.
  assert (Hlen : forall (pre out rest : list ascii), (c :: l1) = pre ++ out ++ rest -> pre <> [] -> (c :: l1) = (pre ++ out) ++ rest /\ (length rest < length (c :: l1))%nat).
  { intros pre out rest E Hp. split; [rewrite <- app_assoc; exact E|]. rewrite E, !length_app. destruct pre; [congruence|]. cbn. lia. }
  destruct (char_is "'" c) eqn:Ec.
  { apply char_is_eq in Ec. subst c. pose proof (string_literal_app l1) as H. destruct (string_literal l1) as [out rest]. apply (Hlen ["'"%char]); [cbn; rewrite H; reflexivity | discriminate]. }
  destruct (char_is "E" c && _) eqn:Ee.
  { apply andb_prop in Ee. destruct Ee as [Ee Ed]. apply char_is_eq in Ee. subst c. destruct l1 as [|d l2]; [discriminate|]. apply char_is_eq in Ed. subst d. change (drop 1 ("'"%char :: l2)) with l2.
    pose proof (string_literal_app l2) as H. destruct (string_literal l2) as [out rest]. apply (Hlen ["E"%char; "'"%char]); [cbn; rewrite H; reflexivity | discriminate]. }
  destruct (char_is "$" c && _) eqn:Es.
  { apply andb_prop in Es. destruct Es as [Es Ed]. apply char_is_eq in Es. subst c. pose proof (tag_chars_app l1) as Ht. destruct (tag_chars l1) as [tag l2]. cbn [fst snd] in *. destruct l2 as [|d l3]; [discriminate|]. apply char_is_eq in Ed. subst d. change (drop 1 ("$"%char :: l3)) with l3.
    pose proof (dollar_body_app ("$"%char :: tag ++ ["$"%char]) l3) as H. destruct (dollar_body _ l3) as [out rest].
    apply (Hlen ("$"%char :: tag ++ ["$"%char])); [|discriminate]. rewrite Ht, H. cbn. rewrite <- !app_assoc. reflexivity. }
  destruct (char_is dq c) eqn:Eq.
  { apply char_is_eq in Eq. subst c. pose proof (quoted_identifier_app l1) as H. destruct (quoted_identifier l1) as [out rest]. apply (Hlen [dq]); [cbn; rewrite H; reflexivity | discriminate]. }
  apply (Hlen [c] [] l1); [reflexivity | discriminate].
Qed.

(** No comment begins anywhere. *)
Fixpoint comment_free (l : list ascii) : bool := no_comment l && match l with [] => true | _ :: l' => comment_free l' end.

Lemma comment_free_app a b : comment_free (a ++ b) = true -> comment_free b = true.
Proof. induction a as [|c a IH]; [trivial|]. cbn [app comment_free]. intros H. apply andb_prop in H. apply IH, H. Qed.
Lemma comment_free_here l : comment_free l = true -> no_comment l = true.
Proof. destruct l; cbn [comment_free]; intros H; apply andb_prop in H; apply H. Qed.

Lemma pieces_copy fuel : forall l, (length l <= fuel)%nat -> comment_free l = true -> pieces fuel l = l.
Proof.
  induction fuel as [|fuel IH]; intros [|c l] Hf Hc; try reflexivity; [cbn in Hf; lia|].
  cbn [pieces]. pose proof (piece_copies (c :: l) (comment_free_here _ Hc) ltac:(discriminate)) as H. destruct (piece (c :: l)) as [out rest]. destruct H as [E Hlt].
  rewrite IH; [symmetry; exact E | lia |]. rewrite E in Hc. apply (comment_free_app out rest Hc).
Qed.

(** *** A query by its segments *)
Lemma skip_line_shorter l rest : skip_line l = Some rest -> (length rest < length l)%nat.
Proof. revert rest. induction l as [|c l IH]; [discriminate|]. cbn [skip_line]. intros rest. destruct (char_is newline c); [intros E; injection E as <-; cbn; lia|]. intros E. apply IH in E. cbn. lia. Qed.
Lemma skip_block_shorter n l rest : skip_block n l = Some rest -> (length rest < length l)%nat.
Proof.
  assert (H : forall k n l rest, (length l <= k)%nat -> skip_block n l = Some rest -> (length rest < length l)%nat).
  { induction k as [|k IH]; intros m [|c [|d l2]] rest0 Hk E; try discriminate; cbn [length] in Hk; [lia|]. cbn [skip_block] in E.
    destruct (char_is "/" c && char_is "*" d); [apply IH in E; [cbn; lia | lia]|]. destruct (char_is "*" c && char_is "/" d).
    - destruct m as [|[|m]]; [injection E as <-; cbn; lia .. |]. apply IH in E; [cbn; lia | lia].
    - change (match l2 with [] => None | _ :: _ => _ end) with (skip_block m (d :: l2)) in E. apply IH in E; cbn in *; lia. }
  apply (H (length l)). lia.
Qed.

Lemma piece_shorter l : l <> [] -> (length (snd (piece l)) < length l)%nat.
Proof.
  intros Hl. destruct (no_comment l) eqn:Hn.
  - pose proof (piece_copies l Hn Hl) as H. destruct (piece l) as [out rest]. apply H.
  - unfold piece. unfold no_comment in Hn. destruct (starts_line_comment l) eqn:E1.
    + destruct (skip_line (drop 2 l)) as [rest|] eqn:E; [|destruct l; [congruence | cbn; lia]]. apply skip_line_shorter in E. cbn [snd]. rewrite length_drop in E. lia.
    + destruct (starts_block_comment l) eqn:E2; [|discriminate]. destruct (skip_block 1 (drop 2 l)) as [rest|] eqn:E; [|destruct l; [congruence | cbn; lia]]. apply skip_block_shorter in E. cbn [snd]. rewrite length_drop in E. lia.
Qed.

Lemma pieces_fuel f : forall f' l, (length l <= f)%nat -> (length l <= f')%nat -> pieces f l = pieces f' l.
Proof.
  induction f as [|f IH]; intros f' [|c l] H1 H2; cbn [length] in *; try lia; try (destruct f'; reflexivity).
  destruct f' as [|f']; [lia|]. cbn [pieces]. pose proof (piece_shorter (c :: l) ltac:(discriminate)) as H. destruct (piece (c :: l)) as [out rest]. cbn [snd length] in H. f_equal. apply IH; lia.
Qed.

Definition stripped (l : list ascii) : list ascii := pieces (length l) l.
Lemma stripped_piece c l : stripped (c :: l) = fst (piece (c :: l)) ++ stripped (snd (piece (c :: l))).
Proof.
  unfold stripped. cbn [length pieces]. pose proof (piece_shorter (c :: l) ltac:(discriminate)) as H. destruct (piece (c :: l)) as [out rest]. cbn [fst snd length] in *. f_equal. apply pieces_fuel; lia.
Qed.

Definition not_in (l : list ascii) (c : ascii) : bool := negb (existsb (fun a => char_is a c) l).
(** A literal with its quotes doubled. *)
Fixpoint doubled (l : list ascii) : list ascii := match l with [] => [] | c :: l' => if char_is "'" c then "'"%char :: "'"%char :: doubled l' else c :: doubled l' end.
Definition quoted (l : list ascii) : list ascii := "'"%char :: doubled l ++ ["'"%char].
Definition escape (l : list ascii) : list ascii := "E"%char :: "'"%char :: l ++ ["'"%char].

(** The grammar of a query: code, 'literals', E'literals' with escapes, $tag$ strings,
    quoted identifiers, comments to the end of the line, and nested comments. *)
Inductive EscapedItem : Type := EChar (c : ascii) | EEscape (c : ascii) | EQuote.
Inductive CommentItem : Type := CChar (c : ascii) | COpen | CClose.
Inductive Segment : Type :=
| Code (s : list ascii) | Literal (s : list ascii) | Escaped (l : list EscapedItem) | Dollar (tag body : list ascii) | Quoted (s : list ascii)
| LineComment (s : list ascii) | BlockComment (l : list CommentItem).

Definition item_text (i : EscapedItem) : list ascii := match i with EChar c => [c] | EEscape c => [backslash; c] | EQuote => ["'"; "'"]%char end.
Definition mark_text (i : CommentItem) : list ascii := match i with CChar c => [c] | COpen => ["/"; "*"]%char | CClose => ["*"; "/"]%char end.
Definition dollar_tag (tag : list ascii) : list ascii := "$"%char :: tag ++ ["$"%char].
Definition written (g : Segment) : list ascii :=
  match g with
  | Code s => s
  | Literal s => quoted s
  | Escaped l => "E"%char :: "'"%char :: concat (map item_text l) ++ ["'"%char]
  | Dollar tag body => dollar_tag tag ++ body ++ dollar_tag tag
  | Quoted s => dq :: s ++ [dq]
  | LineComment s => ["-"; "-"]%char ++ s ++ [newline]
  | BlockComment l => ["/"; "*"]%char ++ concat (map mark_text l) ++ ["*"; "/"]%char
  end.
(** A comment to the end of the line leaves the end of the line, one in the line leaves nothing. *)
Definition kept_text (g : Segment) : list ascii := match g with LineComment _ => [newline] | BlockComment _ => [] | _ => written g end.

Definition tag_char (c : ascii) : bool := is_letter c || is_digit c || char_is "_" c.
(** Letters, digits and underscores up to a dollar sign. *)
Fixpoint opens_tag (l : list ascii) : bool := match l with c :: l' => char_is "$" c || (tag_char c && opens_tag l') | [] => false end.
(** Nothing but code begins in [s] when [after] follows it. *)
Fixpoint code_ok (s after : list ascii) : bool :=
  match s with
  | [] => true
  | c :: s' => no_comment (s ++ after) && not_in ["'"%char; dq] c && negb (char_is "$" c && opens_tag (s' ++ after)) && code_ok s' after
  end.
Definition item_ok (i : EscapedItem) : bool := match i with EChar c => not_in ["'"%char; backslash] c | _ => true end.
(** The tag does not occur before the end. *)
Fixpoint no_early (tag body : list ascii) : bool :=
  match body with [] => true | _ :: body' => negb (prefix_of tag (body ++ tag)) && no_early tag body' end.
Definition closes_here (l : list ascii) : bool := match l with a :: b :: _ => char_is "*" a && char_is "/" b | _ => false end.
(** At nesting level [n] the marks balance, and no other character is part of one. *)
Fixpoint comment_ok (n : nat) (l : list CommentItem) : bool :=
  match l with
  | [] => (n =? 1)%nat
  | CChar c :: l' =>
      let here := c :: concat (map mark_text l') ++ ["*"; "/"]%char in
      negb (starts_block_comment here) && negb (closes_here here) && comment_ok n l'
  | COpen :: l' => comment_ok (S n) l'
  | CClose :: l' => (2 <=? n)%nat && comment_ok (n - 1) l'
  end.
Definition segment_ok (g : Segment) (after : list ascii) : bool :=
  match g with
  | Code s => code_ok s after
  | Literal s => forallb (not_in [backslash]) s
  | Escaped l => forallb item_ok l
  | Dollar tag body => forallb tag_char tag && no_early (dollar_tag tag) body
  | Quoted s => forallb (not_in [dq]) s
  | LineComment s => forallb (not_in [newline]) s
  | BlockComment l => comment_ok 1 l
  end.
(** The segments, and after them perhaps a comment that the end of the text ends. *)
Definition trailing (trail : option (list ascii)) : list ascii := match trail with Some s => ["-"; "-"]%char ++ s | None => [] end.
Definition query_of (gs : list Segment) (trail : option (list ascii)) : list ascii := concat (map written gs) ++ trailing trail.
Fixpoint segments_ok (gs : list Segment) (trail : option (list ascii)) : bool :=
  match gs with
  | [] => match trail with Some s => forallb (not_in [newline]) s | None => true end
  | g :: gs' => segment_ok g (query_of gs' trail) && segments_ok gs' trail
  end.

Lemma not_in_cons a l c : not_in (a :: l) c = true -> char_is a c = false /\ not_in l c = true.
Proof. unfold not_in. cbn [existsb]. rewrite negb_true_iff, orb_false_iff, negb_true_iff. trivial. Qed.

(** *** Literals *)

(** A character of a literal that is no quote and no backslash. *)
Lemma string_literal_char c l : char_is "'" c = false -> char_is backslash c = false -> l <> [] ->
  string_literal (c :: l) = (c :: fst (string_literal l), snd (string_literal l)).
Proof. intros H1 H2 Hl. destruct l as [|d l2]; [congruence|]. cbn [string_literal]. rewrite H1, H2. destruct (if char_is "'" d then _ else _); reflexivity. Qed.
Lemma string_literal_escape c l : string_literal (backslash :: c :: l) = (backslash :: c :: fst (string_literal l), snd (string_literal l)).
Proof. cbn [string_literal]. change (char_is "'" backslash) with false. change (char_is backslash backslash) with true. cbn match. destruct (string_literal l); reflexivity. Qed.

Lemma stripped_quote l : stripped ("'"%char :: l) = "'"%char :: fst (string_literal l) ++ stripped (snd (string_literal l)).
Proof.
  rewrite stripped_piece. unfold piece. replace (starts_line_comment _) with false by (destruct l; reflexivity). replace (starts_block_comment _) with false by (destruct l; reflexivity).
  change (char_is "'" "'"%char) with true. cbn match. destruct (string_literal l) as [out rest]. reflexivity.
Qed.
Lemma stripped_escaped_quote l : stripped ("E"%char :: "'"%char :: l) = "E"%char :: stripped ("'"%char :: l).
Proof.
  rewrite stripped_quote, stripped_piece. unfold piece. cbn [starts_line_comment starts_block_comment].
  change (char_is "-" "E"%char && _) with false. change (char_is "/" "E"%char && _) with false. change (char_is "'" "E"%char) with false.
  change (char_is "E" "E"%char && char_is "'" "'"%char) with true. cbn match. change (drop 1 ("'"%char :: l)) with l. destruct (string_literal l); reflexivity.
Qed.

(** The scanner copies the items and goes on after the last quote; a doubled quote ends a
    literal and begins the next. *)
Lemma stripped_items l rest : forallb item_ok l = true ->
  stripped ("'"%char :: concat (map item_text l) ++ "'"%char :: rest) = "'"%char :: concat (map item_text l) ++ "'"%char :: stripped rest.
Proof.
  assert (H : forall l, forallb item_ok l = true -> let t := concat (map item_text l) ++ "'"%char :: rest in t <> [] /\
    fst (string_literal t) ++ stripped (snd (string_literal t)) = concat (map item_text l) ++ "'"%char :: stripped rest).
  { clear l. induction l as [|i l IH]; intros H; [split; [discriminate | reflexivity]|]. cbn [forallb] in H. apply andb_prop in H. destruct H as [Hi H].
    destruct (IH H) as [Hne E]. cbn zeta in *. cbn [map concat]. rewrite <- app_assoc. destruct i as [c|c|]; cbn [item_text app]; (split; [discriminate|]).
    - cbn [item_ok] in Hi. apply not_in_cons in Hi. destruct Hi as [H1 Hi]. apply not_in_cons in Hi. destruct Hi as [H2 _].
      rewrite string_literal_char by assumption. cbn [fst snd]. rewrite <- app_comm_cons, E. reflexivity.
    - rewrite string_literal_escape. cbn [fst snd]. rewrite <- !app_comm_cons, E. reflexivity.
    - cbn [string_literal]. change (char_is "'" "'"%char) with true. cbn [fst snd app]. rewrite stripped_quote, E. reflexivity. }
  intros Hl. rewrite stripped_quote. destruct (H l Hl) as [_ E]. rewrite E. reflexivity.
Qed.

(** A plain literal as items. *)
Definition plain_items (s : list ascii) : list EscapedItem := map (fun c => if char_is "'" c then EQuote else EChar c) s.
Lemma doubled_items s : concat (map item_text (plain_items s)) = doubled s.
Proof. induction s as [|c s IH]; [reflexivity|]. cbn [plain_items map concat doubled]. fold (plain_items s). destruct (char_is "'" c); cbn [item_text app]; rewrite IH; reflexivity. Qed.
Lemma plain_items_ok s : forallb (not_in [backslash]) s = true -> forallb item_ok (plain_items s) = true.
Proof.
  induction s as [|c s IH]; [trivial|]. cbn [forallb plain_items map]. fold (plain_items s). intros H. apply andb_prop in H. destruct H as [Hc H]. rewrite IH by exact H.
  apply not_in_cons in Hc. destruct Hc as [Hc _]. destruct (char_is "'" c) eqn:E; [reflexivity|]. cbn [item_ok]. unfold not_in. cbn [existsb]. rewrite E, Hc. reflexivity.
Qed.

(** *** Dollar quotes, identifiers and comments *)
Lemma tag_chars_body tag l : forallb tag_char tag = true -> tag_chars (tag ++ "$"%char :: l) = (tag, "$"%char :: l).
Proof.
  induction tag as [|c tag IH]; intros H; [reflexivity|]. cbn [forallb] in H. apply andb_prop in H. destruct H as [Hc H]. unfold tag_char in Hc.
  cbn [app tag_chars]. rewrite Hc, IH by exact H. reflexivity.
Qed.
Lemma prefix_of_enough p l rest : (length p <= length l)%nat -> prefix_of p (l ++ rest) = prefix_of p l.
Proof. revert l. induction p as [|a p IH]; intros [|b l] H; cbn [length] in H; try reflexivity; [lia|]. cbn [app prefix_of]. rewrite IH by lia. reflexivity. Qed.
Lemma prefix_of_self p rest : prefix_of p (p ++ rest) = true.
Proof. induction p as [|a p IH]; [reflexivity|]. cbn [app prefix_of]. rewrite IH. unfold char_is. rewrite bool_decide_eq_true_2 by reflexivity. reflexivity. Qed.
Lemma dollar_body_body tag body rest : no_early tag body = true -> dollar_body tag (body ++ tag ++ rest) = (body ++ tag, rest).
Proof.
  induction body as [|c body IH]; intros H.
  - cbn [app]. assert (E : prefix_of tag (tag ++ rest) = true) by apply prefix_of_self. destruct (tag ++ rest) as [|x l] eqn:El; cbn [dollar_body]; rewrite E; rewrite <- El, drop_app_length; reflexivity.
  - cbn [no_early] in H. apply andb_prop in H. destruct H as [Hp H]. apply negb_true_iff in Hp. rewrite <- app_comm_cons. cbn [dollar_body].
    assert (E : prefix_of tag (c :: body ++ tag ++ rest) = false).
    { rewrite <- Hp. rewrite app_assoc, app_comm_cons, app_comm_cons. apply prefix_of_enough. rewrite length_app. cbn. lia. }
    rewrite E, IH by exact H. reflexivity.
Qed.
Lemma quoted_identifier_body s rest : forallb (not_in [dq]) s = true -> quoted_identifier (s ++ dq :: rest) = (s ++ [dq], rest).
Proof.
  induction s as [|c s IH]; intros H; [reflexivity|]. cbn [forallb] in H. apply andb_prop in H. destruct H as [Hc H]. apply not_in_cons in Hc. destruct Hc as [H1 _].
  cbn [app quoted_identifier]. rewrite H1, IH by exact H. reflexivity.
Qed.
Lemma skip_line_body s rest : forallb (not_in [newline]) s = true -> skip_line (s ++ newline :: rest) = Some rest /\ skip_line s = None.
Proof.
  induction s as [|c s IH]; intros H; [split; reflexivity|]. cbn [forallb] in H. apply andb_prop in H. destruct H as [Hc H]. apply not_in_cons in Hc. destruct Hc as [H1 _].
  cbn [app skip_line]. rewrite H1. apply IH, H.
Qed.
Lemma skip_block_items l : forall n rest, (1 <= n)%nat -> comment_ok n l = true -> skip_block n (concat (map mark_text l) ++ "*"%char :: "/"%char :: rest) = Some rest.
Proof.
  induction l as [|i l IH]; intros n rest Hn H; [cbn in H; apply Nat.eqb_eq in H; subst; reflexivity|]. cbn [map concat]. rewrite <- app_assoc. destruct i as [c| |]; cbn [mark_text app].
  - cbn [comment_ok] in H. apply andb_prop in H. destruct H as [H Hl]. apply andb_prop in H. destruct H as [H1 H2]. apply negb_true_iff in H1, H2.
    assert (Et : exists d t, concat (map mark_text l) ++ "*"%char :: "/"%char :: rest = d :: t /\ exists t', concat (map mark_text l) ++ ["*"; "/"]%char = d :: t').
    { destruct (concat (map mark_text l)) as [|d t]; eexists _, _; (split; [reflexivity|]); eexists; reflexivity. }
    destruct Et as (d & t & Et & t' & Et'). rewrite Et' in H1, H2. cbn in H1, H2. specialize (IH n rest Hn Hl). rewrite Et in IH |- *. cbn [skip_block]. rewrite H1, H2. exact IH.
  - cbn [skip_block comment_ok] in *. apply (IH (S n) rest); [lia | exact H].
  - cbn [comment_ok] in H. apply andb_prop in H. destruct H as [H2 H]. apply Nat.leb_le in H2. destruct n as [|[|n]]; [lia | lia|]. cbn [skip_block]. apply (IH (S n) rest); [lia | exact H].
Qed.

(** *** Code *)
Lemma opens_tag_chars l : opens_tag l = match snd (tag_chars l) with d :: _ => char_is "$" d | [] => false end.
Proof.
  induction l as [|c l IH]; [reflexivity|]. cbn [opens_tag tag_chars]. fold (tag_char c). destruct (tag_char c) eqn:E.
  - rewrite IH. destruct (tag_chars l) as [tag rest]. cbn [snd andb]. destruct (char_is "$" c) eqn:Ed; [apply char_is_eq in Ed; subst c; discriminate | reflexivity].
  - cbn [snd andb]. apply orb_false_r.
Qed.
Lemma stripped_char c l : no_comment (c :: l) = true -> not_in ["'"%char; dq] c = true -> char_is "$" c && opens_tag l = false -> stripped (c :: l) = c :: stripped l.
Proof.
  intros Hn Hq Hd. apply not_in_cons in Hq. destruct Hq as [H1 Hq]. apply not_in_cons in Hq. destruct Hq as [H2 _].
  destruct (char_is "E" c && match l with d :: _ => char_is "'" d | [] => false end) eqn:Ee.
  - apply andb_prop in Ee. destruct Ee as [Ee Ed]. apply char_is_eq in Ee. subst c. destruct l as [|d l2]; [discriminate|]. apply char_is_eq in Ed. subst d. apply stripped_escaped_quote.
  - unfold no_comment in Hn. apply andb_prop in Hn. destruct Hn as [N1 N2]. apply negb_true_iff in N1, N2. rewrite opens_tag_chars in Hd.
    rewrite stripped_piece. unfold piece. rewrite N1, N2, H1, Ee, Hd, H2. reflexivity.
Qed.
Lemma stripped_code s after : code_ok s after = true -> stripped (s ++ after) = s ++ stripped after.
Proof.
  induction s as [|c s IH]; intros H; [reflexivity|]. cbn [code_ok] in H. apply andb_prop in H. destruct H as [H Hs]. apply andb_prop in H. destruct H as [H Hd]. apply andb_prop in H. destruct H as [Hn Hq].
  apply negb_true_iff in Hd. cbn [app] in *. rewrite stripped_char, IH by assumption. reflexivity.
Qed.

(** The start of a piece that is copied. *)
Lemma not_a_comment c l : char_is "-" c = false -> char_is "/" c = false -> starts_line_comment (c :: l) = false /\ starts_block_comment (c :: l) = false.
Proof. intros H1 H2. destruct l; cbn; rewrite ?H1, ?H2; split; reflexivity. Qed.

Lemma stripped_segment g rest : segment_ok g rest = true -> stripped (written g ++ rest) = kept_text g ++ stripped rest.
Proof.
  intros H. destruct g as [s|s|l|tag body|s|s|l]; cbn [segment_ok] in H; cbn [written kept_text].
  - apply stripped_code, H.
  - unfold quoted. rewrite <- doubled_items, <- !app_comm_cons, <- !app_assoc. cbn [app]. apply stripped_items, plain_items_ok, H.
  - rewrite <- !app_comm_cons, <- !app_assoc. cbn [app]. rewrite stripped_escaped_quote, stripped_items by exact H. reflexivity.
  - apply andb_prop in H. destruct H as [Ht Hb]. rewrite <- !app_assoc. unfold dollar_tag at 1. rewrite <- app_comm_cons, <- app_assoc. cbn [app].
    rewrite stripped_piece. unfold piece. destruct (not_a_comment "$"%char (tag ++ "$"%char :: body ++ dollar_tag tag ++ rest) eq_refl eq_refl) as [-> ->].
    change (char_is "'" "$"%char) with false. change (char_is "E" "$"%char) with false. change (char_is "$" "$"%char) with true. cbn [andb].
    rewrite tag_chars_body by exact Ht. cbn [fst snd]. change (char_is "$" "$"%char) with true. cbn match. change (drop 1 ("$"%char :: ?l)) with l. fold (dollar_tag tag).
    rewrite dollar_body_body by exact Hb. cbn [fst snd]. rewrite <- !app_assoc. reflexivity.
  - rewrite <- !app_comm_cons, <- !app_assoc. cbn [app]. rewrite stripped_piece. unfold piece. destruct (not_a_comment dq (s ++ dq :: rest) eq_refl eq_refl) as [-> ->].
    change (char_is "'" dq) with false. change (char_is "E" dq) with false. change (char_is "$" dq) with false. change (char_is dq dq) with true. cbn match. cbn [andb].
    rewrite quoted_identifier_body by exact H. cbn [fst snd app]. rewrite <- app_assoc. reflexivity.
  - rewrite <- !app_assoc. cbn [app]. rewrite stripped_piece. unfold piece. cbn [starts_line_comment]. change (char_is "-" "-"%char && char_is "-" "-"%char) with true. cbn match.
    change (drop 2 ("-"%char :: "-"%char :: ?l)) with l. rewrite (proj1 (skip_line_body s rest H)). reflexivity.
  - rewrite <- !app_assoc. cbn [app]. rewrite stripped_piece. unfold piece. cbn [starts_line_comment starts_block_comment]. change (char_is "-" "/"%char && char_is "-" "*"%char) with false. change (char_is "/" "/"%char && char_is "*" "*"%char) with true. cbn match.
    change (drop 2 ("/"%char :: "*"%char :: ?l)) with l. rewrite skip_block_items by (exact H || lia). reflexivity.
Qed.

Lemma stripped_segments gs trail : segments_ok gs trail = true -> stripped (query_of gs trail) = concat (map kept_text gs).
Proof.
  unfold query_of. induction gs as [|g gs IH]; cbn [segments_ok map concat]; intros H.
  - destruct trail as [s|]; [|reflexivity]. cbn [trailing app]. rewrite stripped_piece. unfold piece. cbn [starts_line_comment]. change (char_is "-" "-"%char && char_is "-" "-"%char) with true. cbn match.
    change (drop 2 ("-"%char :: "-"%char :: s)) with s. rewrite (proj2 (skip_line_body s [] H)). reflexivity.
  - apply andb_prop in H. destruct H as [Hg H]. rewrite <- app_assoc, stripped_segment, IH by assumption. reflexivity.
Qed.

Lemma length_bytes s : length (bytes s) = String.length s.
Proof. induction s as [|c s IH]; [reflexivity|]. cbn. f_equal. exact IH. Qed.
Lemma RemoveComments_stripped l : RemoveComments (text l) = text (stripped l).
Proof. unfold RemoveComments, stripped. rewrite <- length_bytes, bytes_text. reflexivity. Qed.

(** ** The options of COPY *)
Definition option_word (c : ascii) : bool := negb (unicode_space c) && not_in ["'"; ","]%char c.

Section Options.
Context {F : Type} (ParseFloat : string -> option F) (Unquote : string -> option string) (allowed : string -> option OptionValueType).
#[local] Abbreviation chars := (opt_chars ParseFloat Unquote allowed).
#[local] Abbreviation value_of := (option_value ParseFloat Unquote).

Definition at_state (key : string) (inq rk : bool) (b : list ascii) (m : gmap string (OptionValue F)) : OptState := mkOpt key EmptyString inq false rk b m.

Lemma chars_cons c l s : chars (c :: l) s = (r ← opt_char ParseFloat Unquote allowed c s; match r with None => Ret None | Some s => chars l s end).
Proof. reflexivity. Qed.

Lemma write_word c key rk b m : option_word c = true -> opt_char ParseFloat Unquote allowed c (at_state key false rk b m) = Ret (Some (at_state key false rk (b ++ [c]) m)).
Proof.
  intros H. unfold option_word in H. apply andb_prop in H. destruct H as [H1 H2]. apply negb_true_iff in H1. apply not_in_cons in H2. destruct H2 as [H2 H3]. apply not_in_cons in H3. destruct H3 as [H3 _].
  unfold opt_char. cbn [at_state expectComma inQuotes andb]. rewrite H2, H3, H1. reflexivity.
Qed.
Lemma chars_word w : forall key rk b m rest, forallb option_word w = true -> chars (w ++ rest) (at_state key false rk b m) = chars rest (at_state key false rk (b ++ w) m).
Proof.
  induction w as [|c w IH]; intros key rk b m rest H; [rewrite app_nil_r; reflexivity|]. cbn [forallb] in H. apply andb_prop in H. destruct H as [Hc H].
  cbn [app]. rewrite chars_cons, write_word by exact Hc. cbn [mbind outcome_bind]. rewrite IH by exact H. rewrite <- app_assoc. reflexivity.
Qed.

Lemma toggle_quote key q rk b m : opt_char ParseFloat Unquote allowed "'"%char (at_state key q rk b m) = Ret (Some (at_state key (negb q) rk (b ++ ["'"%char]) m)).
Proof. reflexivity. Qed.
Lemma write_quoted c key rk b m : char_is "'" c = false -> opt_char ParseFloat Unquote allowed c (at_state key true rk b m) = Ret (Some (at_state key true rk (b ++ [c]) m)).
Proof. intros H. unfold opt_char. cbn [at_state expectComma inQuotes andb negb]. rewrite H, andb_false_r. destruct (char_is "," c); reflexivity. Qed.

Lemma chars_doubled l : forall key rk b m rest, chars (doubled l ++ rest) (at_state key true rk b m) = chars rest (at_state key true rk (b ++ doubled l) m).
Proof.
  induction l as [|c l IH]; intros key rk b m rest; cbn [doubled]; [rewrite app_nil_r; reflexivity|]. destruct (char_is "'" c) eqn:Ec; cbn [app].
  - rewrite chars_cons, toggle_quote. cbn [mbind outcome_bind negb]. rewrite chars_cons, toggle_quote. cbn [mbind outcome_bind negb]. rewrite IH. rewrite <- !app_assoc. reflexivity.
  - rewrite chars_cons, write_quoted by exact Ec. cbn [mbind outcome_bind]. rewrite IH, <- app_assoc. reflexivity.
Qed.
Lemma chars_quoted l key rk b m rest : chars (quoted l ++ rest) (at_state key false rk b m) = chars rest (at_state key false rk (b ++ quoted l) m).
Proof.
  unfold quoted. cbn [app]. rewrite chars_cons, toggle_quote. cbn [mbind outcome_bind negb]. rewrite <- app_assoc, chars_doubled. cbn [app]. rewrite chars_cons, toggle_quote. cbn [mbind outcome_bind negb]. rewrite <- !app_assoc. reflexivity.
Qed.

Lemma chars_unquoted l : forall key rk b m rest, forallb (not_in ["'"]%char) l = true -> chars (l ++ rest) (at_state key true rk b m) = chars rest (at_state key true rk (b ++ l) m).
Proof.
  induction l as [|c l IH]; intros key rk b m rest H; [rewrite app_nil_r; reflexivity|]. cbn [forallb] in H. apply andb_prop in H. destruct H as [Hc H]. apply not_in_cons in Hc. destruct Hc as [Hc _].
  cbn [app]. rewrite chars_cons, write_quoted by exact Hc. cbn [mbind outcome_bind]. rewrite IH, <- app_assoc by exact H. reflexivity.
Qed.
Lemma chars_escape l key rk b m rest : forallb (not_in ["'"]%char) l = true -> chars (escape l ++ rest) (at_state key false rk b m) = chars rest (at_state key false rk (b ++ escape l) m).
Proof.
  intros H. unfold escape. cbn [app]. rewrite chars_cons, write_word by reflexivity. cbn [mbind outcome_bind]. rewrite chars_cons, toggle_quote. cbn [mbind outcome_bind negb].
  rewrite <- app_assoc, chars_unquoted by exact H. cbn [app]. rewrite chars_cons, toggle_quote. cbn [mbind outcome_bind negb]. rewrite <- !app_assoc. reflexivity.
Qed.

(** A word, a literal or a literal with escapes. *)
Inductive Token : Type := TWord (w : list ascii) | TString (s : list ascii) | TEscape (b : list ascii).
Definition token_text (t : Token) : list ascii := match t with TWord w => w | TString s => quoted s | TEscape b => escape b end.
Definition token_ok (t : Token) : Prop :=
  match t with TWord w => w <> [] /\ forallb option_word w = true | TString _ => True | TEscape b => forallb (not_in ["'"]%char) b = true end.
Lemma chars_token t key rk b m rest : token_ok t -> chars (token_text t ++ rest) (at_state key false rk b m) = chars rest (at_state key false rk (b ++ token_text t) m).
Proof. destruct t as [w|s|l]; cbn [token_ok token_text]; [intros [_ Hw]; apply chars_word, Hw | intros _; apply chars_quoted | intros Hb; apply chars_escape, Hb]. Qed.

Definition tight (l : list ascii) : Prop := match l with c :: _ => unicode_space c = false | [] => False end /\ match rev l with c :: _ => unicode_space c = false | [] => False end.
Lemma trim_tight l : tight l -> strings_TrimSpace (text l) = text l.
Proof.
  intros [H1 H2]. unfold strings_TrimSpace. rewrite bytes_text. destruct l as [|c l]; [contradiction|]. cbn [trim_left]. rewrite H1. destruct (rev (c :: l)) as [|d r] eqn:E; [contradiction|]. cbn [trim_left]. rewrite H2, <- E, rev_involutive. reflexivity.
Qed.
Lemma word_not_space c : option_word c = true -> unicode_space c = false.
Proof. unfold option_word. intros H. apply andb_prop in H. apply negb_true_iff, H. Qed.
Lemma word_tight w : w <> [] -> forallb option_word w = true -> tight w.
Proof.
  intros Hne H. rewrite forallb_forall in H. split.
  - destruct w as [|c w]; [congruence|]. apply word_not_space, H. left. reflexivity.
  - destruct (rev w) as [|c r] eqn:E; [apply (f_equal (@length _)) in E; rewrite length_rev in E; destruct w; [congruence | discriminate]|]. apply word_not_space, H, in_rev. rewrite E. left. reflexivity.
Qed.
Lemma token_tight t : token_ok t -> tight (token_text t).
Proof.
  destruct t as [w|s|l]; cbn [token_ok token_text]; [intros [Hne Hw]; apply word_tight; assumption| |]; intros _; unfold quoted, escape; (split; [reflexivity|]); rewrite ?app_comm_cons, rev_app_distr; reflexivity.
Qed.

(** What the value of an option means, by its declared type: an option that is only named
    is true; a number is its digits by their places, with a sign or without; a literal is
    what stands in it; [ParseFloat] and [Unquote] are the standard library's. *)
Fixpoint digits_value (ds : list ascii) : Z :=
  match ds with [] => 0 | c :: ds' => Z.of_nat (code c - code "0"%char) * 10 ^ Z.of_nat (length ds') + digits_value ds' end.
Inductive Sign : Type := Unsigned | Plus | Minus.
Definition sign_text (g : Sign) : list ascii := match g with Unsigned => [] | Plus => ["+"%char] | Minus => ["-"%char] end.
Definition signed_value (g : Sign) (n : Z) : Z := match g with Minus => - n | _ => n end.
Inductive denotes : OptionValueType -> option Token -> OptionValue F -> Prop :=
| DFlag : denotes OptionValueTypeBool None (OptBool true)
| DTrue w : w ∈ ["1"; "t"; "T"; "true"; "TRUE"; "True"]%string -> denotes OptionValueTypeBool (Some (TWord (bytes w))) (OptBool true)
| DFalse w : w ∈ ["0"; "f"; "F"; "false"; "FALSE"; "False"]%string -> denotes OptionValueTypeBool (Some (TWord (bytes w))) (OptBool false)
| DInt g ds : ds <> [] -> forallb is_digit ds = true -> (- 2 ^ 63 <= signed_value g (digits_value ds) < 2 ^ 63)%Z ->
    denotes OptionValueTypeInt (Some (TWord (sign_text g ++ ds))) (OptInt (signed_value g (digits_value ds)))
| DFloat w f : w <> [] -> ParseFloat (text w) = Some f -> denotes OptionValueTypeFloat (Some (TWord w)) (OptFloat f)
| DString s : denotes OptionValueTypeString (Some (TString s)) (OptString (text s))
| DEscape b s : Unquote (text (dq :: b ++ [dq])) = Some s -> denotes OptionValueTypeString (Some (TEscape b)) (OptString s).

(** A literal means what was quoted. *)
Lemma undouble_doubled l : undouble (doubled l) = l.
Proof.
  induction l as [|c l IH]; [reflexivity|]. cbn [doubled]. destruct (char_is "'" c) eqn:E.
  - apply char_is_eq in E. subst c. cbn [undouble]. change (char_is "'" "'"%char && char_is "'" "'"%char) with true. cbn match. f_equal. exact IH.
  - cbn [undouble]. destruct (doubled l) as [|d l2] eqn:El; [rewrite <- IH; reflexivity|]. rewrite E. cbn [andb]. f_equal. rewrite <- IH. reflexivity.
Qed.
Lemma last_snoc_quote l : has_suffix_quote (l ++ ["'"%char]) = true.
Proof. unfold has_suffix_quote. rewrite last_snoc. reflexivity. Qed.
Lemma quoted_value l : value_of OptionValueTypeString (text (quoted l)) = Ret (Some (OptString (text l))).
Proof.
  unfold option_value, string_value. rewrite bytes_text. unfold quoted. change (prefix_of ["E"; "'"]%char ("'"%char :: doubled l ++ ["'"%char])) with false. cbn [andb].
  change (prefix_of ["'"%char] ("'"%char :: doubled l ++ ["'"%char])) with true. rewrite app_comm_cons, last_snoc_quote. cbn [andb]. unfold inside. rewrite <- app_comm_cons. cbn [length]. rewrite length_app. cbn [length].
  destruct (Nat.leb_spec 1 (S (length (doubled l) + 1) - 1)); [|lia]. replace (S (length (doubled l) + 1) - 1)%nat with (S (length (doubled l))) by lia. cbn [mbind outcome_bind].
  change (take (S (length (doubled l))) ("'"%char :: doubled l ++ ["'"%char])) with ("'"%char :: take (length (doubled l)) (doubled l ++ ["'"%char])). rewrite take_app_length.
  change (drop 1 ("'"%char :: doubled l)) with (doubled l). rewrite undouble_doubled. reflexivity.
Qed.
Lemma escape_value b s : Unquote (text (dq :: b ++ [dq])) = Some s -> value_of OptionValueTypeString (text (escape b)) = Ret (Some (OptString s)).
Proof.
  intros E. unfold option_value, string_value. rewrite bytes_text. unfold escape. change (prefix_of ["E"; "'"]%char ("E"%char :: "'"%char :: b ++ ["'"%char])) with true. rewrite !app_comm_cons, last_snoc_quote. cbn [andb].
  unfold inside. rewrite !length_app. cbn [length]. destruct (Nat.leb_spec 2 (S (S (length b)) + 1 - 1)); [|lia]. replace (S (S (length b)) + 1 - 1)%nat with (length ("E"%char :: "'"%char :: b)) by (cbn; lia).
  rewrite take_app_length. change (drop 2 ("E"%char :: "'"%char :: b)) with b. cbn [mbind outcome_bind]. rewrite E. reflexivity.
Qed.

(** Digit by digit from the left is digits by their places. *)
Lemma digit_code c : is_digit c = true -> Z.of_nat (code c - code "0"%char) = Z.of_nat (code c) - 48.
Proof. unfold is_digit. intros H. change (code "0"%char) with 48%nat. repeat (apply andb_prop in H; destruct H as [H ?]). repeat match goal with H : (_ <=? _)%nat = true |- _ => apply Nat.leb_le in H end. lia. Qed.
Lemma decimal_digits ds : forall acc, forallb is_digit ds = true -> decimal acc ds = Some (acc * 10 ^ Z.of_nat (length ds) + digits_value ds)%Z.
Proof.
  induction ds as [|c ds IH]; intros acc H; cbn [decimal forallb digits_value length]; [f_equal; cbn; lia|]. cbn [forallb] in H. apply andb_prop in H. destruct H as [Hc H].
  rewrite Hc, IH by exact H. rewrite digit_code by exact Hc. f_equal. rewrite Nat2Z.inj_succ, Z.pow_succ_r by lia. ring.
Qed.
Lemma in_int64_some z : (- 2 ^ 63 <= z < 2 ^ 63)%Z -> in_int64 z = Some z.
Proof. intros H. unfold in_int64. rewrite (proj2 (Z.leb_le _ _)), (proj2 (Z.ltb_lt _ _)) by lia. reflexivity. Qed.
Lemma digit_not_sign c : is_digit c = true -> char_is "-" c = false /\ char_is "+" c = false.
Proof. intros H. split; apply not_true_iff_false; intros E; apply char_is_eq in E; subst c; discriminate H. Qed.
Lemma Atoi_digits g ds : ds <> [] -> forallb is_digit ds = true -> (- 2 ^ 63 <= signed_value g (digits_value ds) < 2 ^ 63)%Z ->
  Atoi (text (sign_text g ++ ds)) = Some (signed_value g (digits_value ds)).
Proof.
  intros Hne Hd Hr. unfold Atoi. rewrite bytes_text. pose proof (decimal_digits ds 0 Hd) as E. rewrite Z.mul_0_l, Z.add_0_l in E. destruct ds as [|c ds]; [congruence|].
  destruct g; cbn [sign_text app].
  - pose proof Hd as Hc. cbn [forallb] in Hc. apply andb_prop in Hc. destruct (digit_not_sign c (proj1 Hc)) as [-> ->]. rewrite E. apply in_int64_some, Hr.
  - change (char_is "-" "+"%char) with false. change (char_is "+" "+"%char) with true. cbn match. rewrite E. apply in_int64_some, Hr.
  - change (char_is "-" "-"%char) with true. cbn match. rewrite E. apply in_int64_some, Hr.
Qed.

(** The code finds what the value means. *)
Lemma denoted_value ty t v : denotes ty t v -> value_of ty (match t with Some t => text (token_text t) | None => EmptyString end) = Ret (Some v).
Proof.
  intros H. destruct H as [|w Hw|w Hw|g ds Hne Hd Hr|w f Hne Hf|s|b s Hs]; cbn [token_text].
  - reflexivity.
  - rewrite text_bytes. repeat (apply elem_of_cons in Hw; destruct Hw as [->|Hw]; [reflexivity|]). inversion Hw.
  - rewrite text_bytes. repeat (apply elem_of_cons in Hw; destruct Hw as [->|Hw]; [reflexivity|]). inversion Hw.
  - unfold option_value. rewrite Atoi_digits by assumption. reflexivity.
  - unfold option_value. rewrite Hf. reflexivity.
  - apply quoted_value.
  - apply escape_value, Hs.
Qed.

(** An option: its key, its value if it has one, and what it means. *)
Record Entry : Type := mkEntry { e_key : list ascii; e_token : option Token; e_value : OptionValue F }.
Definition upper_key (e : Entry) : string := strings_ToUpper (text (e_key e)).
Definition token_string (e : Entry) : string := match e_token e with Some t => text (token_text t) | None => EmptyString end.
Definition entry_ok (e : Entry) : Prop :=
  e_key e <> [] /\ forallb option_word (e_key e) = true /\ match e_token e with Some t => token_ok t | None => True end
  /\ exists ty, allowed (upper_key e) = Some ty /\ denotes ty (e_token e) (e_value e).
Definition entry_text (e : Entry) : list ascii := e_key e ++ match e_token e with Some t => " "%char :: token_text t | None => [] end.
Definition store_entry (m : gmap string (OptionValue F)) (e : Entry) : gmap string (OptionValue F) := <[upper_key e := e_value e]> m.

(** The words of an entry as they stand when it ends. *)
Definition read_entry (e : Entry) (m : gmap string (OptionValue F)) : OptState :=
  match e_token e with Some t => at_state (text (e_key e)) false false (token_text t) m | None => at_state EmptyString false true (e_key e) m end.

Lemma chars_entry e m rest : entry_ok e -> chars (entry_text e ++ rest) (at_state EmptyString false true [] m) = chars rest (read_entry e m).
Proof.
  intros (Hne & Hw & Ht & _). unfold entry_text, read_entry. rewrite <- app_assoc, chars_word by exact Hw. cbn [app]. destruct (e_token e) as [t|]; [|reflexivity].
  cbn [app]. rewrite chars_cons.
  assert (E : opt_char ParseFloat Unquote allowed " "%char (at_state EmptyString false true (e_key e) m) = Ret (Some (at_state (text (e_key e)) false false [] m))) by (unfold opt_char; cbn; destruct (e_key e); [congruence | reflexivity]).
  rewrite E. cbn [mbind outcome_bind]. rewrite chars_token by exact Ht. reflexivity.
Qed.

Lemma text_ne l : l <> [] -> text l <> EmptyString.
Proof. destruct l; [congruence | discriminate]. Qed.

Lemma parse_entry e m : entry_ok e -> exists s, parseOption ParseFloat Unquote allowed (take_word (read_entry e m)) = Ret (Some s)
  /\ s = mkOpt EmptyString EmptyString false false true (sb (read_entry e m)) (store_entry m e).
Proof.
  intros (Hne & Hw & Ht & ty & Ha & Hd). pose proof (denoted_value _ _ _ Hd) as Hv. fold (token_string e) in Hv. eexists. split; [|reflexivity]. unfold parseOption.
  assert (Ek : o_key (take_word (read_entry e m)) = text (e_key e)) by (unfold read_entry; destruct (e_token e); reflexivity).
  assert (Ev : strings_TrimSpace (o_value (take_word (read_entry e m))) = token_string e).
  { unfold read_entry, token_string. destruct (e_token e) as [t|]; [apply trim_tight, token_tight, Ht | reflexivity]. }
  rewrite Ek, Ev, (trim_tight _ (word_tight _ Hne Hw)), decide_False by (apply text_ne, Hne). unfold upper_key in Ha. rewrite Ha, Hv. cbn [mbind outcome_bind]. unfold store_entry, upper_key.
  unfold read_entry. destruct (e_token e); reflexivity.
Qed.

Lemma entry_sb e m : entry_ok e -> sb (read_entry e m) <> [].
Proof. intros (Hne & _ & Ht & _). unfold read_entry. destruct (e_token e) as [[w|s|l]|]; cbn; [apply Ht | discriminate | discriminate | exact Hne]. Qed.

(** The entry ends at a comma; a space after it changes nothing. *)
Lemma chars_comma e m rest : entry_ok e -> chars (","%char :: " "%char :: rest) (read_entry e m) = chars rest (at_state EmptyString false true [] (store_entry m e)).
Proof.
  intros He. rewrite chars_cons. destruct (parse_entry e m He) as (s & E & ->).
  assert (Ec : opt_char ParseFloat Unquote allowed ","%char (read_entry e m) = Ret (Some (at_state EmptyString false true [] (store_entry m e)))).
  { unfold opt_char. replace (expectComma (read_entry e m)) with false by (unfold read_entry; destruct (e_token e); reflexivity). replace (inQuotes (read_entry e m)) with false by (unfold read_entry; destruct (e_token e); reflexivity).
    change (char_is "'" ","%char) with false. change (char_is "," ","%char) with true. cbn [andb negb]. rewrite E. reflexivity. }
  rewrite Ec. cbn [mbind outcome_bind]. rewrite chars_cons. reflexivity.
Qed.

Fixpoint entries_text (es : list Entry) : list ascii :=
  match es with [] => [] | [e] => entry_text e | e :: es' => entry_text e ++ [","; " "]%char ++ entries_text es' end.

Lemma finish_entries es : forall e m, Forall entry_ok (e :: es) ->
  (r ← chars (entries_text (e :: es)) (at_state EmptyString false true [] m); match r with None => Ret None | Some s => opt_finish ParseFloat Unquote allowed s end)
  = Ret (Some (foldl store_entry m (e :: es))).
Proof.
  induction es as [|e' es IH]; intros e m Hes; inversion Hes as [|? ? He Hes']; subst.
  - cbn [entries_text foldl]. rewrite <- (app_nil_r (entry_text e)), chars_entry by exact He. cbn [opt_chars mbind outcome_bind]. unfold opt_finish.
    destruct (parse_entry e m He) as (s & E & ->). pose proof (entry_sb e m He) as Hsb. destruct (sb (read_entry e m)) eqn:Es; [congruence|]. rewrite E. reflexivity.
  - change (entries_text (e :: e' :: es)) with (entry_text e ++ ","%char :: " "%char :: entries_text (e' :: es)). rewrite chars_entry by exact He. rewrite chars_comma by exact He. apply (IH e' _ Hes').
Qed.

Lemma options_read_back e es : Forall entry_ok (e :: es) -> ParseCopyOptions ParseFloat Unquote allowed (text (entries_text (e :: es))) = Ret (Some (foldl store_entry ∅ (e :: es))).
Proof. intros H. unfold ParseCopyOptions. rewrite bytes_text. apply finish_entries, H. Qed.

End Options.
