(* ===== verification/TypeMapping.v ===== *)
(** * Types of columns (src/catalog/type_mapping.go)

    A MySQL type becomes a DuckDB type with an annotation ([DuckdbDataType]),
    which is kept in the comment of the column; a column is given its MySQL
    type back from what DuckDB reports and the annotation ([mysqlDataType]).
    The types of go-mysql-server are the class [SqlTypes], what the code relies
    on of their constructors is [SqlTypeLaws].  [mysqlDataType_restores]: the kind and the attributes
    of a type survive, up to the precision of DECIMAL and the collation of TEXT. *)

From S2P Require Import Prelude Identifier CatalogErrors GoJson Comment Quotes Schema Regexp SqlText SqlTextFacts.
From Stdlib Require Import Ascii.

(** [catalog.MySQLType]. *)
Record MySQLType : Type := mkMyType {
  my_Name : string; my_Length : Z; my_Precision : Z; my_Scale : Z; my_Unsigned : bool; my_Display : Z;
  my_Collation : Z; my_Values : list string; my_Default : string; my_AutoIncrement : bool
}.
Definition named (name : string) : MySQLType := mkMyType name 0 0 0 false 0 0 [] EmptyString false.

Record AnnotatedDuckType : Type := mkDuckType { duck_name : string; mysql : MySQLType }.

(** ** Its JSON *)
Definition set_name v (m : MySQLType) := mkMyType v (my_Length m) (my_Precision m) (my_Scale m) (my_Unsigned m) (my_Display m) (my_Collation m) (my_Values m) (my_Default m) (my_AutoIncrement m).
Definition set_length v (m : MySQLType) := mkMyType (my_Name m) v (my_Precision m) (my_Scale m) (my_Unsigned m) (my_Display m) (my_Collation m) (my_Values m) (my_Default m) (my_AutoIncrement m).
Definition set_precision v (m : MySQLType) := mkMyType (my_Name m) (my_Length m) v (my_Scale m) (my_Unsigned m) (my_Display m) (my_Collation m) (my_Values m) (my_Default m) (my_AutoIncrement m).
Definition set_scale v (m : MySQLType) := mkMyType (my_Name m) (my_Length m) (my_Precision m) v (my_Unsigned m) (my_Display m) (my_Collation m) (my_Values m) (my_Default m) (my_AutoIncrement m).
Definition set_unsigned v (m : MySQLType) := mkMyType (my_Name m) (my_Length m) (my_Precision m) (my_Scale m) v (my_Display m) (my_Collation m) (my_Values m) (my_Default m) (my_AutoIncrement m).
Definition set_display v (m : MySQLType) := mkMyType (my_Name m) (my_Length m) (my_Precision m) (my_Scale m) (my_Unsigned m) v (my_Collation m) (my_Values m) (my_Default m) (my_AutoIncrement m).
Definition set_collation v (m : MySQLType) := mkMyType (my_Name m) (my_Length m) (my_Precision m) (my_Scale m) (my_Unsigned m) (my_Display m) v (my_Values m) (my_Default m) (my_AutoIncrement m).
Definition set_values v (m : MySQLType) := mkMyType (my_Name m) (my_Length m) (my_Precision m) (my_Scale m) (my_Unsigned m) (my_Display m) (my_Collation m) v (my_Default m) (my_AutoIncrement m).
Definition set_default v (m : MySQLType) := mkMyType (my_Name m) (my_Length m) (my_Precision m) (my_Scale m) (my_Unsigned m) (my_Display m) (my_Collation m) (my_Values m) v (my_AutoIncrement m).
Definition set_auto v (m : MySQLType) := mkMyType (my_Name m) (my_Length m) (my_Precision m) (my_Scale m) (my_Unsigned m) (my_Display m) (my_Collation m) (my_Values m) (my_Default m) v.

Definition my_fields : list string :=
  ["Name"; "Length"; "Precision"; "Scale"; "Unsigned"; "Display"; "Collation"; "Values"; "Default"; "AutoIncrement"].

Definition my_set (name : string) (j : json) (m : MySQLType) : option MySQLType :=
  if decide (name = "Name") then v ← of_json_string j (my_Name m); Some (set_name v m)
  else if decide (name = "Length") then v ← of_json_uint 32 j (my_Length m); Some (set_length v m)
  else if decide (name = "Precision") then v ← of_json_uint 8 j (my_Precision m); Some (set_precision v m)
  else if decide (name = "Scale") then v ← of_json_uint 8 j (my_Scale m); Some (set_scale v m)
  else if decide (name = "Unsigned") then v ← of_json_bool j (my_Unsigned m); Some (set_unsigned v m)
  else if decide (name = "Display") then v ← of_json_uint 8 j (my_Display m); Some (set_display v m)
  else if decide (name = "Collation") then v ← of_json_uint 16 j (my_Collation m); Some (set_collation v m)
  else if decide (name = "Values") then
    v ← of_json_slice EmptyString of_json_string j (Some (my_Values m)); Some (set_values (default [] v) m)
  else if decide (name = "Default") then v ← of_json_string j (my_Default m); Some (set_default v m)
  else v ← of_json_bool j (my_AutoIncrement m); Some (set_auto v m).

Definition my_json (m : MySQLType) : json :=
  JObj (("Name", JStr (my_Name m))
    :: omitempty (my_Length m =? 0) "Length" (JNum (FormatInt (my_Length m)))
    ++ omitempty (my_Precision m =? 0) "Precision" (JNum (FormatInt (my_Precision m)))
    ++ omitempty (my_Scale m =? 0) "Scale" (JNum (FormatInt (my_Scale m)))
    ++ omitempty (negb (my_Unsigned m)) "Unsigned" (JBool (my_Unsigned m))
    ++ omitempty (my_Display m =? 0) "Display" (JNum (FormatInt (my_Display m)))
    ++ omitempty (my_Collation m =? 0) "Collation" (JNum (FormatInt (my_Collation m)))
    ++ omitempty (bool_decide (my_Values m = [])) "Values" (JArr (map JStr (my_Values m)))
    ++ omitempty (bool_decide (my_Default m = EmptyString)) "Default" (JStr (my_Default m))
    ++ omitempty (negb (my_AutoIncrement m)) "AutoIncrement" (JBool (my_AutoIncrement m))).

#[export] Instance MySQLType_json : JsonType MySQLType := {
  json_zero := named EmptyString;
  json_empty := fun _ => false;
  to_json := my_json;
  of_json := of_json_struct my_fields my_set
}.

Definition my_valid (m : MySQLType) : Prop :=
  ValidString (my_Name m) = true /\ 0 <= my_Length m < 2 ^ 32 /\ 0 <= my_Precision m < 2 ^ 8 /\ 0 <= my_Scale m < 2 ^ 8
  /\ 0 <= my_Display m < 2 ^ 8 /\ 0 <= my_Collation m < 2 ^ 16 /\ Forall (fun v => ValidString v = true) (my_Values m)
  /\ ValidString (my_Default m) = true.

Lemma my_json_ok m : my_valid m -> json_ok (my_json m).
Proof.
  intros (Hn & _ & _ & _ & _ & _ & Hv & Hd). constructor. constructor; [split; [reflexivity | constructor; exact Hn]|].
  repeat apply Forall_app_2; apply omitempty_ok; intros _; (split; [reflexivity|]); try (constructor; fail).
  - constructor. apply Forall_map. eapply Forall_impl; [exact Hv|]. intros v H. constructor. exact H.
  - constructor. exact Hd.
Qed.

Lemma uint_field bits z old : 0 <= z < 2 ^ bits -> of_json_uint bits (JNum (FormatInt z)) old = Some z.
Proof. apply ParseUint_FormatInt. Qed.

Lemma values_read l old : l <> [] -> of_json_slice EmptyString of_json_string (JArr (map JStr l)) (Some old) = Some (Some l).
Proof.
  intros _. unfold of_json_slice. cbn [default]. enough (H : forall old, of_json_elems EmptyString of_json_string (map JStr l) old = Some l).
  { cbn [mbind option_bind]. change (default [] (Some old)) with old. rewrite H. reflexivity. }
  induction l as [|s l IH]; intros o; [reflexivity|]. cbn. rewrite IH. reflexivity.
Qed.

#[local] Arguments of_json_uint : simpl never.
#[local] Arguments of_json_slice : simpl never.

(** [next_field t]: the next member of the object leaves [t]. *)
Ltac next_field t :=
  rewrite (omit_step _ _ _ t);
  [ | unfold my_fields; repeat constructor
    | let H := fresh in intros H; first [apply Z.eqb_eq in H | apply bool_decide_eq_true in H | apply negb_true_iff in H]; rewrite H; reflexivity
    | let H := fresh in intros H; unfold my_set; repeat first [rewrite decide_True by reflexivity | rewrite decide_False by discriminate]; first [rewrite uint_field by assumption | rewrite values_read by (apply bool_decide_eq_false in H; exact H) | idtac]; reflexivity ].

Lemma my_json_read m : my_valid m -> of_json (my_json m) json_zero = Some m.
Proof.
  destruct m as [name len prec scale uns disp coll vals dflt auto]. intros (Hn & H1 & H2 & H3 & H4 & H5 & Hv & Hd). cbn [my_Length my_Precision my_Scale my_Display my_Collation] in *.
  cbn [of_json MySQLType_json json_zero]. unfold my_json. rewrite of_json_struct_obj.
  cbn [my_Name my_Length my_Precision my_Scale my_Unsigned my_Display my_Collation my_Values my_Default my_AutoIncrement].
  rewrite (member_step _ _ _ (mkMyType name 0 0 0 false 0 0 [] EmptyString false)); [|unfold my_fields; repeat constructor | reflexivity].
  next_field (mkMyType name len 0 0 false 0 0 [] EmptyString false).
  next_field (mkMyType name len prec 0 false 0 0 [] EmptyString false).
  next_field (mkMyType name len prec scale false 0 0 [] EmptyString false).
  next_field (mkMyType name len prec scale uns 0 0 [] EmptyString false).
  next_field (mkMyType name len prec scale uns disp 0 [] EmptyString false).
  next_field (mkMyType name len prec scale uns disp coll [] EmptyString false).
  next_field (mkMyType name len prec scale uns disp coll vals EmptyString false).
  next_field (mkMyType name len prec scale uns disp coll vals dflt false).
  rewrite <- (app_nil_r (omitempty _ _ _)). next_field (mkMyType name len prec scale uns disp coll vals dflt auto). reflexivity.
Qed.

#[export] Instance MySQLType_laws : JsonLaws MySQLType := {|
  json_valid := my_valid; to_json_ok := my_json_ok; of_to_json := my_json_read;
  json_empty_zero := fun t _ H => False_ind _ (diff_false_true H)
|}.

(** ** The types of go-mysql-server *)
Definition Q_EXPRESSION : qtype := Q_other 31.

(** [sql.Type] with the interfaces the code asserts: [None] is a failed assertion. *)
Class SqlTypes : Type := {
  sqlType : Type;
  Type' : sqlType -> qtype;
  type_String : sqlType -> string;
  Equals : sqlType -> sqlType -> bool;
  NumberType_DisplayWidth : sqlType -> option Z;
  DatetimeType_Precision : sqlType -> option Z;
  DecimalType_attrs : sqlType -> option (Z * Z);          (* Precision, Scale *)
  StringType_attrs : sqlType -> option (Z * Z);           (* Length, Collation *)
  BitType_NumberOfBits : sqlType -> option Z;
  EnumType_attrs : sqlType -> option (list string * Z);   (* Values, Collation *)
  SetType_attrs : sqlType -> option (list string * Z);
  EnumType_At : sqlType -> Z -> option string;            (* an index from 1 *)
  CreateNumberTypeWithDisplayWidth : qtype -> Z -> option sqlType;
  CreateBitType : Z -> option sqlType;
  CreateDatetimeType : qtype -> Z -> option sqlType;
  CreateDecimalType : Z -> Z -> option sqlType;
  CreateString : qtype -> Z -> Z -> option sqlType;
  CreateBinary : qtype -> Z -> option sqlType;
  CreateEnumType : list string -> Z -> option sqlType;
  CreateSetType : list string -> Z -> option sqlType;
  types_Year : sqlType; types_Float32 : sqlType; types_Float64 : sqlType; types_Date : sqlType; types_Time : sqlType;
  types_TinyText : sqlType; types_Text : sqlType; types_MediumText : sqlType; types_LongText : sqlType;
  types_TinyBlob : sqlType; types_Blob : sqlType; types_MediumBlob : sqlType; types_LongBlob : sqlType; types_JSON : sqlType;
  TinyTextBlobMax : Z; TextBlobMax : Z; MediumTextBlobMax : Z
}.

(** ** From MySQL to DuckDB *)
Definition newCommonType (name : string) : AnnotatedDuckType := mkDuckType name (named name).
Definition newSimpleType (duckName mysqlName : string) : AnnotatedDuckType := mkDuckType duckName (named mysqlName).
Definition newStringType (duckName mysqlName : string) (length collation : Z) : AnnotatedDuckType :=
  mkDuckType duckName (set_collation (u16 collation) (set_length (u32 length) (named mysqlName))).
Definition newPrecisionType (duckName mysqlName : string) (precision : Z) : AnnotatedDuckType :=
  mkDuckType duckName (set_precision precision (named mysqlName)).
Definition newDecimalType (precision scale : Z) : AnnotatedDuckType :=
  mkDuckType ("DECIMAL(" +:+ FormatInt precision +:+ ", " +:+ FormatInt scale +:+ ")")
    (set_scale scale (set_precision precision (named "DECIMAL"))).
Definition newNumberType (name : string) (displayWidth : Z) : AnnotatedDuckType :=
  mkDuckType name (set_display (u8 displayWidth) (named name)).
Definition newUnsignedNumberType (name : string) (displayWidth : Z) : AnnotatedDuckType :=
  mkDuckType name (set_unsigned true (set_display (u8 displayWidth) (named name))).
Definition newMediumIntType (displayWidth : Z) : AnnotatedDuckType :=
  mkDuckType "INTEGER" (set_display (u8 displayWidth) (named "MEDIUMINT")).
Definition newUnsignedMediumIntType (displayWidth : Z) : AnnotatedDuckType :=
  mkDuckType "UINTEGER" (set_unsigned true (set_display (u8 displayWidth) (named "MEDIUMINT"))).
Definition newDateTimeType (mysqlName : string) (precision : Z) : AnnotatedDuckType :=
  let name := if precision =? 0 then "TIMESTAMP_S" else if precision <=? 3 then "TIMESTAMP_MS"
              else if precision <=? 6 then "TIMESTAMP" else "TIMESTAMP" in
  mkDuckType name (set_precision (u8 precision) (named mysqlName)).

(** [strings.ReplaceAll(v, "'", "''")]. *)
Fixpoint double_single (s : string) : string :=
  match s with
  | EmptyString => EmptyString
  | String c s' => if decide (c = "'"%char) then String c (String c (double_single s')) else String c (double_single s')
  end.
Definition newEnumType (values : list string) (collation : Z) : AnnotatedDuckType :=
  mkDuckType ("ENUM('" +:+ strings_Join "', '" (map double_single values) +:+ "')")
    (set_collation (u16 collation) (set_values values (named "ENUM"))).
Definition newSetType (values : list string) (collation : Z) : AnnotatedDuckType :=
  mkDuckType "VARCHAR" (set_collation (u16 collation) (set_values values (named "SET"))).

Definition DuckDBDecimalTypeMaxPrecision : Z := 38.

Section Types.
Context `{SqlTypes}.

(** An error is [inl] of its text. *)
Definition DuckdbDataType (mysqlType : sqlType) : outcome (string + AnnotatedDuckType) :=
  let number name := w ← assert_some (NumberType_DisplayWidth mysqlType); Ret (inr (newNumberType name w)) in
  let string_ duckName mysqlName := '(l, c) ← assert_some (StringType_attrs mysqlType); Ret (inr (newStringType duckName mysqlName l c)) in
  match Type' mysqlType with
  | Q_INT8 => number "TINYINT"
  | Q_UINT8 => number "UTINYINT"
  | Q_INT16 => number "SMALLINT"
  | Q_UINT16 => number "USMALLINT"
  | Q_INT24 => w ← assert_some (NumberType_DisplayWidth mysqlType); Ret (inr (newMediumIntType w))
  | Q_UINT24 => w ← assert_some (NumberType_DisplayWidth mysqlType); Ret (inr (newUnsignedMediumIntType w))
  | Q_INT32 => number "INTEGER"
  | Q_UINT32 => number "UINTEGER"
  | Q_INT64 => number "BIGINT"
  | Q_UINT64 => number "UBIGINT"
  | Q_FLOAT32 => Ret (inr (newCommonType "FLOAT"))
  | Q_FLOAT64 => Ret (inr (newCommonType "DOUBLE"))
  | Q_TIMESTAMP => p ← assert_some (DatetimeType_Precision mysqlType); Ret (inr (newDateTimeType "TIMESTAMP" p))
  | Q_DATE => Ret (inr (newCommonType "DATE"))
  | Q_TIME => Ret (inr (newSimpleType "INTERVAL" "TIME"))
  | Q_DATETIME => p ← assert_some (DatetimeType_Precision mysqlType); Ret (inr (newDateTimeType "DATETIME" p))
  | Q_YEAR => Ret (inr (newSimpleType "SMALLINT" "YEAR"))
  | Q_DECIMAL =>
      '(prec, scale) ← assert_some (DecimalType_attrs mysqlType);
      Ret (inr (if DuckDBDecimalTypeMaxPrecision <? prec then
                  newDecimalType DuckDBDecimalTypeMaxPrecision
                    (if DuckDBDecimalTypeMaxPrecision <? scale then DuckDBDecimalTypeMaxPrecision else scale)
                else newDecimalType prec scale))
  | Q_TEXT => string_ "VARCHAR" "TEXT"
  | Q_BLOB => string_ "BLOB" "BLOB"
  | Q_VARCHAR => string_ "VARCHAR" "VARCHAR"
  | Q_VARBINARY => string_ "BLOB" "VARBINARY"
  | Q_CHAR => string_ "VARCHAR" "CHAR"
  | Q_BINARY => string_ "BLOB" "BINARY"
  | Q_BIT => n ← assert_some (BitType_NumberOfBits mysqlType); Ret (inr (newPrecisionType "UBIGINT" "BIT" n))
  | Q_JSON => Ret (inr (newCommonType "JSON"))
  | Q_ENUM => '(vs, c) ← assert_some (EnumType_attrs mysqlType); Ret (inr (newEnumType vs c))
  | Q_SET => '(vs, c) ← assert_some (SetType_attrs mysqlType); Ret (inr (newSetType vs c))
  | Q_GEOMETRY => Ret (inl ("unsupported MySQL type: " +:+ type_String mysqlType))
  | Q_NULL => Panic
  | Q_other _ =>
      if decide (Type' mysqlType = Q_EXPRESSION) then Ret (inl ("unsupported MySQL type: " +:+ type_String mysqlType)) else Panic
  end.

(** ** From DuckDB to MySQL *)

(** The type's name without its parameters. *)
Definition duckName_of (name : string) : string :=
  let duckName := strings_TrimSpace (strings_ToUpper name) in
  if String.prefix "DECIMAL" duckName then "DECIMAL" else if String.prefix "ENUM" duckName then "ENUM" else duckName.

(** The first switch: the types with a display width; [inr] are the two that return at once. *)
Definition intBaseType (duckName mysqlName : string) (precision : Z) : option (qtype + option sqlType) :=
  if decide (duckName = "TINYINT") then Some (inl Q_INT8)
  else if decide (duckName = "UTINYINT") then Some (inl Q_UINT8)
  else if decide (duckName = "SMALLINT") then
    if decide (mysqlName = "YEAR") then Some (inr (Some types_Year)) else Some (inl Q_INT16)
  else if decide (duckName = "USMALLINT") then Some (inl Q_UINT16)
  else if decide (duckName = "INTEGER") then Some (inl (if decide (mysqlName = "MEDIUMINT") then Q_INT24 else Q_INT32))
  else if decide (duckName = "UINTEGER") then Some (inl (if decide (mysqlName = "MEDIUMINT") then Q_UINT24 else Q_UINT32))
  else if decide (duckName = "BIGINT") then Some (inl Q_INT64)
  else if decide (duckName = "UBIGINT") then
    if decide (mysqlName = "BIT") then Some (inr (CreateBitType precision)) else Some (inl Q_UINT64)
  else None.

Definition text_by_length (length : Z) : sqlType :=
  if length <=? TinyTextBlobMax then types_TinyText else if length <=? TextBlobMax then types_Text
  else if length <=? MediumTextBlobMax then types_MediumText else types_LongText.
Definition blob_by_length (length : Z) : sqlType :=
  if length <=? TinyTextBlobMax then types_TinyBlob else if length <=? TextBlobMax then types_Blob
  else if length <=? MediumTextBlobMax then types_MediumBlob else types_LongBlob.

(** [None]: an error, of a constructor or for an unknown type. *)
Definition mysqlDataType (duckType : AnnotatedDuckType) (numericPrecision numericScale : Z) : option sqlType :=
  let duckName := duckName_of (duck_name duckType) in
  let mysqlName := my_Name (mysql duckType) in
  match intBaseType duckName mysqlName (my_Precision (mysql duckType)) with
  | Some (inr r) => r
  | Some (inl base) => CreateNumberTypeWithDisplayWidth base (my_Display (mysql duckType))
  | None =>
      let length := my_Length (mysql duckType) in
      let precision := my_Precision (mysql duckType) in
      let collation := my_Collation (mysql duckType) in
      let values := my_Values (mysql duckType) in
      if decide (duckName = "FLOAT") then Some types_Float32
      else if decide (duckName = "DOUBLE") then Some types_Float64
      else if decide (duckName ∈ ["TIMESTAMP"; "TIMESTAMP_S"; "TIMESTAMP_MS"]) then
        CreateDatetimeType (if decide (mysqlName = "DATETIME") then Q_DATETIME else Q_TIMESTAMP) precision
      else if decide (duckName = "DATE") then Some types_Date
      else if decide (duckName ∈ ["INTERVAL"; "TIME"]) then Some types_Time
      else if decide (duckName = "DECIMAL") then CreateDecimalType numericPrecision numericScale
      else if decide (duckName ∈ ["UHUGEINT"; "HUGEINT"]) then CreateDecimalType 39 0
      else if decide (duckName = "VARINT") then CreateDecimalType 65 0
      else if decide (duckName = "VARCHAR") then
        if decide (mysqlName = "TEXT") then Some (text_by_length length)
        else if decide (mysqlName = "VARCHAR") then CreateString Q_VARCHAR length collation
        else if decide (mysqlName = "CHAR") then CreateString Q_CHAR length collation
        else if decide (mysqlName = "SET") then CreateSetType values collation
        else Some types_Text
      else if decide (duckName = "BLOB") then
        if decide (mysqlName = "BLOB") then Some (blob_by_length length)
        else if decide (mysqlName = "VARBINARY") then CreateBinary Q_VARBINARY length
        else if decide (mysqlName = "BINARY") then CreateBinary Q_BINARY length
        else Some types_Blob
      else if decide (duckName = "JSON") then Some types_JSON
      else if decide (duckName = "ENUM") then CreateEnumType values collation
      else if decide (duckName = "SET") then CreateSetType values collation
      else None
  end.
End Types.

(** [parseDefaultValue] looks at the statement [SELECT <default>] through the
    parser of vitess: a parse error, another statement, a first expression that
    is not an aliased one (a failed assertion), a call, or anything else. *)
Inductive ParsedSelect : Type :=
| ParseError (err : string) | NotSelect (kind : string) | NotAliased | FuncExpr (lowered : string) | OtherExpr.

Definition parseDefaultValue (Parse : string -> ParsedSelect) (defaultValue : string) : outcome (string + string) :=
  match Parse ("SELECT " +:+ defaultValue) with
  | ParseError err => Ret (inl err)
  | NotSelect kind => Ret (inl ("expected SELECT statement, got " +:+ kind))
  | NotAliased => Panic
  | FuncExpr lowered =>
      if decide (lowered = "current_timestamp") then Ret (inr "CURRENT_TIMESTAMP") else Ret (inr (NormalizeStrings defaultValue))
  | OtherExpr => Ret (inr (NormalizeStrings defaultValue))
  end.

(** ** What the constructors of the types owe *)
Inductive attrs : Type :=
| NoAttrs | Width (w : Z) | Prec (p : Z) | Dec (p s : Z) | Str (length collation : Z) | Bits (n : Z) | Vals (vs : list string) (collation : Z).

Section Laws.
Context `{SqlTypes}.

(** The attributes of a type, read through the interface of its kind. *)
Definition attrs_of (t : sqlType) : option attrs :=
  match Type' t with
  | Q_INT8 | Q_UINT8 | Q_INT16 | Q_UINT16 | Q_INT24 | Q_UINT24 | Q_INT32 | Q_UINT32 | Q_INT64 | Q_UINT64 =>
      w ← NumberType_DisplayWidth t; Some (Width w)
  | Q_TIMESTAMP | Q_DATETIME => p ← DatetimeType_Precision t; Some (Prec p)
  | Q_DECIMAL => '(p, s) ← DecimalType_attrs t; Some (Dec p s)
  | Q_TEXT | Q_BLOB | Q_VARCHAR | Q_VARBINARY | Q_CHAR | Q_BINARY => '(l, c) ← StringType_attrs t; Some (Str l c)
  | Q_BIT => n ← BitType_NumberOfBits t; Some (Bits n)
  | Q_ENUM => '(vs, c) ← EnumType_attrs t; Some (Vals vs c)
  | Q_SET => '(vs, c) ← SetType_attrs t; Some (Vals vs c)
  | Q_FLOAT32 | Q_FLOAT64 | Q_DATE | Q_TIME | Q_YEAR | Q_JSON => Some NoAttrs
  | Q_NULL | Q_GEOMETRY | Q_other _ => None
  end.

Definition attrs_bounds (a : attrs) : Prop :=
  match a with
  | NoAttrs => True
  | Width w => 0 <= w < 256
  | Prec p => 0 <= p <= 6
  | Dec p s => 0 < p <= 65 /\ 0 <= s <= 30 /\ s <= p
  | Str l c => 0 <= l < 2 ^ 32 /\ 0 <= c < 2 ^ 16
  | Bits n => 0 < n <= 64
  | Vals _ c => 0 <= c < 2 ^ 16
  end.

(** The constructor of each kind. *)
Definition create (q : qtype) (a : attrs) : option sqlType :=
  match a with
  | Width w => CreateNumberTypeWithDisplayWidth q w
  | Prec p => CreateDatetimeType q p
  | Dec p s => CreateDecimalType p s
  | Bits n => CreateBitType n
  | Vals vs c => if decide (q = Q_ENUM) then CreateEnumType vs c else CreateSetType vs c
  | Str l c =>
      if decide (q = Q_TEXT) then Some (text_by_length l) else if decide (q = Q_BLOB) then Some (blob_by_length l)
      else if decide (q = Q_VARCHAR \/ q = Q_CHAR) then CreateString q l c else CreateBinary q l
  | NoAttrs =>
      match q with
      | Q_FLOAT32 => Some types_Float32 | Q_FLOAT64 => Some types_Float64 | Q_DATE => Some types_Date
      | Q_TIME => Some types_Time | Q_YEAR => Some types_Year | Q_JSON => Some types_JSON | _ => None
      end
  end.

(** The kinds a column can have. *)
Definition storable (q : qtype) : bool := match q with Q_NULL | Q_GEOMETRY | Q_other _ => false | _ => true end.

(** The four sizes of MySQL's TEXT and BLOB types, by the length they hold, and the types of
    go-mysql-server of these sizes. *)
Inductive TextSize : Type := SizeTiny | SizePlain | SizeMedium | SizeLong.
Definition size_of (length : Z) : TextSize :=
  if length <? 2 ^ 8 then SizeTiny else if length <? 2 ^ 16 then SizePlain else if length <? 2 ^ 24 then SizeMedium else SizeLong.
Definition text_of_size (z : TextSize) : sqlType :=
  match z with SizeTiny => types_TinyText | SizePlain => types_Text | SizeMedium => types_MediumText | SizeLong => types_LongText end.
Definition blob_of_size (z : TextSize) : sqlType :=
  match z with SizeTiny => types_TinyBlob | SizePlain => types_Blob | SizeMedium => types_MediumBlob | SizeLong => types_LongBlob end.

(** What is kept of the attributes: a DECIMAL has at most 38 digits, and of TEXT and BLOB
    the size is kept, not the length and the collation. *)
Definition kept (q : qtype) (a a' : attrs) : Prop :=
  match a with
  | Dec p s => a' = Dec (Z.min p DuckDBDecimalTypeMaxPrecision) s
  | Str l _ => if decide (q = Q_TEXT \/ q = Q_BLOB) then exists l' c', a' = Str l' c' /\ size_of l' = size_of l else a' = a
  | _ => a' = a
  end.

Definition restored (t t' : sqlType) : Prop :=
  Type' t' = Type' t /\ forall a, attrs_of t = Some a -> exists a', attrs_of t' = Some a' /\ kept (Type' t) a a'.
End Laws.

(** A type implements the interface of its kind, with attributes in range, and
    the constructors make a type from any such attributes; the named TEXT and BLOB types
    have their sizes. *)
Class SqlTypeLaws `{SqlTypes} : Prop := {
  attrs_total : forall t, storable (Type' t) = true -> exists a, attrs_of t = Some a /\ attrs_bounds a;
  create_again : forall t a, attrs_of t = Some a -> (forall p s, a <> Dec p s) -> Type' t <> Q_TEXT -> Type' t <> Q_BLOB ->
    exists t', create (Type' t) a = Some t' /\ Type' t' = Type' t /\ attrs_of t' = Some a;
  create_decimal : forall p s, attrs_bounds (Dec p s) ->
    exists t', CreateDecimalType p s = Some t' /\ Type' t' = Q_DECIMAL /\ attrs_of t' = Some (Dec p s);
  text_blob_limits : TinyTextBlobMax = 255 /\ TextBlobMax = 65535 /\ MediumTextBlobMax = 16777215;
  text_of_size_law : forall z, Type' (text_of_size z) = Q_TEXT /\ exists l c, StringType_attrs (text_of_size z) = Some (l, c) /\ size_of l = z;
  blob_of_size_law : forall z, Type' (blob_of_size z) = Q_BLOB /\ exists l c, StringType_attrs (blob_of_size z) = Some (l, c) /\ size_of l = z
}.

(** ** The names of DuckDB's types *)
Lemma ToUpper_app a b : strings_ToUpper (a +:+ b) = strings_ToUpper a +:+ strings_ToUpper b.
Proof. unfold strings_ToUpper. rewrite bytes_app, map_app. rewrite <- (text_bytes (text (map to_upper (bytes a)) +:+ _)), bytes_app, !bytes_text. reflexivity. Qed.

Lemma trim_framed c s d : unicode_space c = false -> unicode_space d = false ->
  strings_TrimSpace (String c s +:+ str1 d) = String c s +:+ str1 d.
Proof.
  intros Hc Hd. rewrite <- (text_bytes (String c s +:+ str1 d)) at 1. rewrite trim_tight, text_bytes; [reflexivity|].
  rewrite bytes_app. split; [exact Hc|]. rewrite rev_app_distr. exact Hd.
Qed.

Lemma duckName_framed c s x d : unicode_space (to_upper c) = false -> unicode_space (to_upper d) = false ->
  strings_TrimSpace (strings_ToUpper (String c s +:+ x +:+ str1 d)) =
  strings_ToUpper (String c s) +:+ strings_ToUpper x +:+ str1 (to_upper d).
Proof.
  intros Hc Hd. rewrite !ToUpper_app. change (strings_ToUpper (str1 d)) with (str1 (to_upper d)).
  change (strings_ToUpper (String c s)) with (String (to_upper c) (strings_ToUpper s)). rewrite app_String, <- app_assoc_string.
  rewrite <- app_String. apply trim_framed; assumption.
Qed.

Lemma duckName_decimal x : duckName_of ("DECIMAL(" +:+ x +:+ ")") = "DECIMAL".
Proof. unfold duckName_of. pose proof (duckName_framed "D" "ECIMAL(" x ")" eq_refl eq_refl) as E. unfold str1 at 1 in E. rewrite E. reflexivity. Qed.
Lemma duckName_enum x : duckName_of ("ENUM('" +:+ x +:+ "')") = "ENUM".
Proof.
  unfold duckName_of. change ("ENUM('" +:+ x +:+ "')") with ("ENUM('" +:+ x +:+ "'" +:+ ")"). rewrite <- (app_assoc_string x).
  pose proof (duckName_framed "E" "NUM('" (x +:+ "'") ")" eq_refl eq_refl) as E. unfold str1 at 1 in E. rewrite E. reflexivity.
Qed.

(** ** The round trip *)
Section RoundTrip.
Context `{SqlTypeLaws}.

Lemma u8_id z : 0 <= z < 256 -> u8 z = z.
Proof. intros. unfold u8. apply Z.mod_small. lia. Qed.
Lemma u16_id z : 0 <= z < 2 ^ 16 -> u16 z = z.
Proof. intros. unfold u16. apply Z.mod_small. lia. Qed.
Lemma u32_id z : 0 <= z < 2 ^ 32 -> u32 z = z.
Proof. intros. unfold u32. apply Z.mod_small. lia. Qed.

(** The DuckDB type and the annotation, from the kind and the attributes. *)
Definition duck_of (q : qtype) (a : attrs) : AnnotatedDuckType :=
  match a with
  | NoAttrs =>
      match q with
      | Q_FLOAT32 => newCommonType "FLOAT" | Q_FLOAT64 => newCommonType "DOUBLE" | Q_DATE => newCommonType "DATE"
      | Q_TIME => newSimpleType "INTERVAL" "TIME" | Q_YEAR => newSimpleType "SMALLINT" "YEAR" | _ => newCommonType "JSON"
      end
  | Width w =>
      match q with
      | Q_INT8 => newNumberType "TINYINT" w | Q_UINT8 => newNumberType "UTINYINT" w
      | Q_INT16 => newNumberType "SMALLINT" w | Q_UINT16 => newNumberType "USMALLINT" w
      | Q_INT24 => newMediumIntType w | Q_UINT24 => newUnsignedMediumIntType w
      | Q_INT32 => newNumberType "INTEGER" w | Q_UINT32 => newNumberType "UINTEGER" w
      | Q_INT64 => newNumberType "BIGINT" w | _ => newNumberType "UBIGINT" w
      end
  | Prec p => newDateTimeType (if decide (q = Q_TIMESTAMP) then "TIMESTAMP" else "DATETIME") p
  | Dec p s => newDecimalType (Z.min p DuckDBDecimalTypeMaxPrecision) s
  | Str l c =>
      match q with
      | Q_TEXT => newStringType "VARCHAR" "TEXT" l c | Q_BLOB => newStringType "BLOB" "BLOB" l c
      | Q_VARCHAR => newStringType "VARCHAR" "VARCHAR" l c | Q_VARBINARY => newStringType "BLOB" "VARBINARY" l c
      | Q_CHAR => newStringType "VARCHAR" "CHAR" l c | _ => newStringType "BLOB" "BINARY" l c
      end
  | Bits n => newPrecisionType "UBIGINT" "BIT" n
  | Vals vs c => if decide (q = Q_ENUM) then newEnumType vs c else newSetType vs c
  end.

Ltac attr_cases :=
  repeat match goal with
  | Hx : (_ ← ?o; _) = Some _ |- _ => destruct o as [?|] eqn:?; [cbn in Hx | discriminate Hx]
  | Hx : (let '(_, _) := ?p in _) = Some _ |- _ => destruct p
  | Hx : Some _ = Some _ |- _ => injection Hx as Hx; subst
  end.

Lemma DuckdbDataType_of t a : attrs_of t = Some a -> attrs_bounds a -> DuckdbDataType t = Ret (inr (duck_of (Type' t) a)).
Proof.
  unfold attrs_of, DuckdbDataType. intros Ha Hb. destruct (Type' t) eqn:Et; try discriminate Ha; attr_cases; try reflexivity;
    repeat match goal with Hx : _ = Some _ |- _ => rewrite Hx end; try reflexivity.
  cbn [assert_some mbind outcome_bind duck_of]. destruct Hb as ((_ & _) & (_ & Hs) & _). unfold DuckDBDecimalTypeMaxPrecision.
  destruct (Z.ltb_spec 38 z); [destruct (Z.ltb_spec 38 z0); [lia|] |]; do 3 f_equal; lia.
Qed.

Lemma DuckdbDataType_total t : storable (Type' t) = true -> exists a, DuckdbDataType t = Ret (inr a).
Proof. intros Hs. destruct (attrs_total t Hs) as (a & Ha & Hb). eexists. apply DuckdbDataType_of; eassumption. Qed.

(** The names DuckDB has for the types, as the code reads them. *)
Lemma mysqlDataType_of t a dt p s : attrs_of t = Some a -> attrs_bounds a ->
  duckName_of dt = duckName_of (duck_name (duck_of (Type' t) a)) ->
  mysqlDataType (mkDuckType dt (mysql (duck_of (Type' t) a))) p s =
  match a with Dec _ _ => CreateDecimalType p s | _ => create (Type' t) a end.
Proof.
  unfold attrs_of, mysqlDataType. intros Ha Hb E. cbn [duck_name mysql]. rewrite E.
  destruct (Type' t) eqn:Et; try discriminate Ha; attr_cases; clear E;
    cbn [duck_of duck_name mysql newNumberType newCommonType newSimpleType newStringType newPrecisionType newMediumIntType newUnsignedMediumIntType newSetType];
    cbn [attrs_bounds] in Hb.
  all: try (cbn [my_Display set_display set_unsigned]; rewrite u8_id by lia; reflexivity).
  all: try reflexivity.
  all: try (assert (Hz : z = 0 \/ z = 1 \/ z = 2 \/ z = 3 \/ z = 4 \/ z = 5 \/ z = 6) by lia;
            destruct Hz as [->|[->|[->|[->|[->|[->| ->]]]]]]; reflexivity).
  all: try (cbn [my_Length my_Collation my_Values my_Name my_Precision my_Display set_length set_collation set_values named];
            rewrite ?u32_id, ?u16_id by lia; reflexivity).
  - unfold newDecimalType. cbn [duck_name]. replace ("DECIMAL(" +:+ FormatInt (z `min` DuckDBDecimalTypeMaxPrecision) +:+ ", " +:+ FormatInt z0 +:+ ")")
      with ("DECIMAL(" +:+ (FormatInt (z `min` DuckDBDecimalTypeMaxPrecision) +:+ ", " +:+ FormatInt z0) +:+ ")") by (rewrite !app_assoc_string; reflexivity).
    rewrite duckName_decimal. reflexivity.
  - rewrite decide_True by reflexivity. unfold newEnumType. cbn [duck_name mysql]. rewrite duckName_enum.
    cbn [my_Length my_Collation my_Values my_Name my_Precision my_Display set_length set_collation set_values named]. rewrite u16_id by lia. reflexivity.
  - rewrite decide_False by discriminate. unfold newSetType. cbn [duck_name mysql].
    cbn [my_Length my_Collation my_Values my_Name my_Precision my_Display set_length set_collation set_values named]. rewrite u16_id by lia. reflexivity.
Qed.

(** The code chooses the type of the length's size. *)
Lemma by_length_size l : 0 <= l -> text_by_length l = text_of_size (size_of l) /\ blob_by_length l = blob_of_size (size_of l).
Proof.
  intros Hl. unfold text_by_length, blob_by_length, size_of. destruct text_blob_limits as (-> & -> & ->).
  destruct (Z.leb_spec l 255), (Z.ltb_spec l (2 ^ 8)); try lia; [split; reflexivity|].
  destruct (Z.leb_spec l 65535), (Z.ltb_spec l (2 ^ 16)); try lia; [split; reflexivity|].
  destruct (Z.leb_spec l 16777215), (Z.ltb_spec l (2 ^ 24)); try lia; split; reflexivity.
Qed.

(** A type with attributes that are not a DECIMAL's is made again. *)
Lemma created_restored t a : attrs_of t = Some a -> attrs_bounds a -> (forall p s, a <> Dec p s) -> exists t', create (Type' t) a = Some t' /\ restored t t'.
Proof.
  intros Ha Hb Hd. destruct (decide (Type' t = Q_TEXT)) as [Et|Ht].
  { assert (exists l c, a = Str l c) as (l & c & ->) by (unfold attrs_of in Ha; rewrite Et in Ha; attr_cases; eauto).
    destruct Hb as [Hl _]. destruct (text_of_size_law (size_of l)) as (Ek & l' & c' & Es & Hz). exists (text_of_size (size_of l)). rewrite Et. cbn [create]. rewrite decide_True by reflexivity.
    rewrite (proj1 (by_length_size l ltac:(lia))). split; [reflexivity|]. split; [congruence|]. intros a0 Ha0. rewrite Ha in Ha0. injection Ha0 as <-. exists (Str l' c').
    split; [unfold attrs_of; rewrite Ek, Es; reflexivity|]. cbn [kept]. rewrite decide_True by (left; exact Et). eauto. }
  destruct (decide (Type' t = Q_BLOB)) as [Et|Hbl].
  { assert (exists l c, a = Str l c) as (l & c & ->) by (unfold attrs_of in Ha; rewrite Et in Ha; attr_cases; eauto).
    destruct Hb as [Hl _]. destruct (blob_of_size_law (size_of l)) as (Ek & l' & c' & Es & Hz). exists (blob_of_size (size_of l)). rewrite Et. cbn [create]. rewrite decide_False, decide_True by (reflexivity || discriminate).
    rewrite (proj2 (by_length_size l ltac:(lia))). split; [reflexivity|]. split; [congruence|]. intros a0 Ha0. rewrite Ha in Ha0. injection Ha0 as <-. exists (Str l' c').
    split; [unfold attrs_of; rewrite Ek, Es; reflexivity|]. cbn [kept]. rewrite decide_True by (right; exact Et). eauto. }
  destruct (create_again t a Ha Hd Ht Hbl) as (t' & Ec & Et & Hk). exists t'. split; [exact Ec|]. split; [exact Et|]. intros a0 Ha0. rewrite Ha in Ha0. injection Ha0 as <-. exists a. split; [exact Hk|].
  destruct a; try reflexivity; [exfalso; eapply Hd; reflexivity|]. cbn [kept]. rewrite decide_False by tauto. reflexivity.
Qed.

(** What is stored of a type is enough to find it again, whatever DuckDB calls
    the type as long as it is that type. *)
Lemma mysqlDataType_restores t a dt p s : DuckdbDataType t = Ret (inr a) -> storable (Type' t) = true ->
  duckName_of dt = duckName_of (duck_name a) ->
  (my_Name (mysql a) = "DECIMAL" -> p = my_Precision (mysql a) /\ s = my_Scale (mysql a)) ->
  exists t', mysqlDataType (mkDuckType dt (mysql a)) p s = Some t' /\ restored t t'.
Proof.
  intros Ed Hs Edt Hnum. destruct (attrs_total t Hs) as (at_ & Ha & Hb). rewrite (DuckdbDataType_of t at_ Ha Hb) in Ed. injection Ed as <-.
  rewrite (mysqlDataType_of t at_ dt p s Ha Hb Edt).
  destruct at_ as [|w|p'|p' s'|l c|n|vs c]; try (apply created_restored; [exact Ha | exact Hb | discriminate]).
  cbn [duck_of newDecimalType mysql my_Name my_Precision my_Scale set_scale set_precision named] in Hnum. destruct Hnum as [-> ->]; [reflexivity|].
  destruct Hb as (Hp & Hsc & Hle). destruct (create_decimal (Z.min p' DuckDBDecimalTypeMaxPrecision) s') as (t' & Ec & Et & Hk).
  { unfold attrs_bounds, DuckDBDecimalTypeMaxPrecision. lia. }
  exists t'. split; [exact Ec|]. split.
  - rewrite Et. unfold attrs_of in Ha. destruct (Type' t); try discriminate Ha; attr_cases; congruence.
  - intros a0 Ha0. rewrite Ha in Ha0. injection Ha0 as <-. eexists. split; [exact Hk | reflexivity].
Qed.
End RoundTrip.
