(* ===== verification/CatalogTable.v ===== *)
(** * Tables of the catalog (src/catalog/table.go, and src/adapter/adapter.go on its connection)

    A [Table] is the catalog's copy of a DuckDB table: its schema, and the
    extra information kept in the table's comment.  The operations build a
    batch of statements ([Stmt], with the text the code writes), run it, and
    change the copy.  DuckDB behind the session is the class [CatalogDB]; a
    failed query or statement is a text, as the driver's errors are. *)

From S2P Require Import Prelude Identifier CatalogErrors Schema GoJson Comment Quotes TypeMapping.
From S2P Require Delta.
From Stdlib Require Import Ascii.

(** ** DuckDB behind the session *)
Inductive Cell : Type := CellNull | CellStr (s : string) | CellInt (z : Z) | CellBool (b : bool) | CellInts (l : list Z).

(** The rows of a query, and the error that ended them. *)
Definition Rows : Type := list (list Cell) * option string.

Class CatalogDB : Type := {
  cdb : Type;
  GetConn : cdb -> string + cdb;
  GetCatalogConn : cdb -> string + cdb;
  ConnExec : string -> cdb -> cdb * (string + Z);
  ConnQuery : string -> list string -> cdb -> cdb * (string + Rows);
  NewRandom : cdb -> string + (cdb * string)   (* uuid.NewRandom *)
}.

(** What a column keeps of its default, the parser of defaults, and checks. *)
Class SchemaLib : Type := {
  ColumnDefault : Type;
  Default_String : ColumnDefault -> string;
  NewUnresolvedColumnDefaultValue : string -> ColumnDefault;
  Parse : string -> ParsedSelect;
  CheckDefinition : Type;
  check_Name : CheckDefinition -> string
}.

Inductive CatalogError : Type :=
| ErrDuckDB (err : string) | ErrOther (err : string)
| ErrColumnNotFound (name : string) | ErrNoAutoIncrementCol | ErrUnknownConstraint (name : string)
| ErrDuplicateKey (name : string) | ErrUniqueKeyViolation
| ErrTableAlreadyExists (name : string) | ErrTableNotFound (name : string) | ErrViewDoesNotExist (name : string)
| ErrUnsupportedFeature (what : string) | ErrTriggersNotSupported (name : string) | ErrDatabaseNotFound (name : string).

(** ** Where a query comes from (src/mycontext/keys.go) *)
Inductive QueryOriginKind : Type := FrontendQueryOrigin | InternalQueryOrigin | MySQLReplicationQueryOrigin | PostgresReplicationQueryOrigin.

(** What the code reads off a context: the value stored in it, and the global
    variable replica_is_loading_snapshot ([None]: no such variable, [Some None]:
    a value that is not an int8). *)
Record QueryContext : Type := mkContext { origin_value : option QueryOriginKind; loading_snapshot : option (option Z) }.

Definition QueryOrigin (ctx : QueryContext) : QueryOriginKind := default FrontendQueryOrigin (origin_value ctx).
Definition WithQueryOrigin (ctx : QueryContext) (kind : QueryOriginKind) : QueryContext := mkContext (Some kind) (loading_snapshot ctx).
Definition IsReplicationQuery (ctx : QueryContext) : bool :=
  match QueryOrigin ctx with MySQLReplicationQueryOrigin | PostgresReplicationQueryOrigin => true | _ => false end.

(** [env] is the environment variable behind [IsReplicationWithoutIndex]. *)
Definition isIndexCreationDisabled (env : string) (ctx : QueryContext) : bool :=
  if negb (Delta.IsReplicationWithoutIndex env) then false
  else if IsReplicationQuery ctx then true
  else match loading_snapshot ctx with Some (Some b) => negb (b =? 0) | _ => false end.

Section Adapter.
Context `{CatalogDB}.

Definition Exec (query : string) (w : cdb) : cdb * (string + Z) :=
  match GetConn w with inl err => (w, inl err) | inr w => ConnExec query w end.
Definition ExecCatalog (query : string) (w : cdb) : cdb * (string + Z) :=
  match GetCatalogConn w with inl err => (w, inl err) | inr w => ConnExec query w end.
Definition QueryCatalog (query : string) (args : list string) (w : cdb) : cdb * (string + Rows) :=
  match GetCatalogConn w with inl err => (w, inl err) | inr w => ConnQuery query args w end.

(** [QueryRowCatalog(...).Scan]: the row is nil when there is no connection, and scanning it panics. *)
Definition QueryRowCatalog (query : string) (w : cdb) : outcome (cdb * (string + list Cell)) :=
  match GetCatalogConn w with
  | inl _ => Panic
  | inr w =>
      let '(w, r) := ConnQuery query [] w in
      Ret (w, match r with
              | inl err => inl err
              | inr (row :: _, _) => inr row
              | inr ([], Some err) => inl err
              | inr ([], None) => inl "sql: no rows in result set"
              end)
  end.
End Adapter.

(** [Scan] into a variable of a type; another cell than it holds is an error. *)
Definition scan_string (c : Cell) : option string := match c with CellStr s => Some s | _ => None end.
Definition scan_int (c : Cell) : option Z := match c with CellInt z => Some z | _ => None end.
Definition scan_uint64 (c : Cell) : option Z := match c with CellInt z => if (0 <=? z) && (z <? 2 ^ 64) then Some z else None | _ => None end.
Definition scan_bool (c : Cell) : option bool := match c with CellBool b => Some b | _ => None end.
Definition scan_ints (c : Cell) : option (list Z) := match c with CellInts l => Some l | _ => None end.
Definition scan_null_string (c : Cell) : option (option string) := match c with CellNull => Some None | CellStr s => Some (Some s) | _ => None end.
Definition scan_null_int (c : Cell) : option (option Z) := match c with CellNull => Some None | CellInt z => Some (Some z) | _ => None end.
Definition scan_error : string := "sql: Scan error".

(** ** The data *)
Record ExtraTableInfo `{SchemaLib} : Type := mkInfo {
  PkOrdinals : option (list Z); Replicated : bool; Sequence : string; Checks : option (list CheckDefinition)
}.

Record ColumnInfo `{SqlTypes} : Type := mkColumnInfo {
  ci_ColumnName : string; ci_ColumnIndex : Z; ci_DataType : sqlType; ci_IsNullable : bool;
  ci_ColumnDefault : option string; ci_Comment : option string
}.

(** [sql.Column]. *)
Record SqlColumn `{SqlTypes, SchemaLib} : Type := mkSqlColumn {
  c_Name : string; c_Type : sqlType; c_Nullable : bool; c_Source : string; c_DatabaseSource : string;
  c_Default : option ColumnDefault; c_AutoIncrement : bool; c_PrimaryKey : bool; c_Comment : string; c_Extra : string
}.

Record PrimaryKeySchema `{SqlTypes, SchemaLib} : Type := mkPkSchema { pks_Schema : list SqlColumn; pks_PkOrdinals : list Z }.

Record Database : Type := mkDatabase { d_catalog : string; d_name : string }.

Record Table `{SqlTypes, SchemaLib} : Type := mkTable {
  t_db : Database; t_name : string; t_comment : Comment ExtraTableInfo; t_schema : PrimaryKeySchema; t_hasPrimaryKey : bool
}.

(** ** The JSON of the extra information *)
Section Info.
Context `{SchemaLib} `{JsonType CheckDefinition}.

Definition info_fields : list string := ["PkOrdinals"; "Replicated"; "Sequence"; "Checks"].
Definition info_set (name : string) (j : json) (i : ExtraTableInfo) : option ExtraTableInfo :=
  if decide (name = "PkOrdinals") then
    v ← of_json_slice 0 (of_json_int 64) j (PkOrdinals i); Some (mkInfo _ v (Replicated i) (Sequence i) (Checks i))
  else if decide (name = "Replicated") then v ← of_json_bool j (Replicated i); Some (mkInfo _ (PkOrdinals i) v (Sequence i) (Checks i))
  else if decide (name = "Sequence") then v ← of_json_string j (Sequence i); Some (mkInfo _ (PkOrdinals i) (Replicated i) v (Checks i))
  else v ← of_json_slice json_zero of_json j (Checks i); Some (mkInfo _ (PkOrdinals i) (Replicated i) (Sequence i) v).

#[export] Instance ExtraTableInfo_json : JsonType ExtraTableInfo := {
  json_zero := mkInfo _ None false EmptyString None;
  json_empty := fun _ => false;
  to_json := fun i => JObj [("PkOrdinals", to_json_slice (fun z => JNum (FormatInt z)) (PkOrdinals i));
                            ("Replicated", JBool (Replicated i)); ("Sequence", JStr (Sequence i));
                            ("Checks", to_json_slice to_json (Checks i))];
  of_json := of_json_struct info_fields info_set
}.
End Info.

(** ** Statements *)
Inductive Stmt : Type :=
| CreateSequence (text : string)
| AddColumnStmt (table column definition : string)
| AlterColumn (table column action : string)
| DropColumnStmt (table column : string)
| RenameColumn (table from to_ : string)
| AddPrimaryKey (table column : string)
| DropSequence (name : string)
| CommentOnColumn (column text : string)
| CommentOnTable (table text : string).

Definition stmt_text (s : Stmt) : string :=
  match s with
  | CreateSequence text => text
  | AddColumnStmt table column definition =>
      "ALTER TABLE " +:+ table +:+ " ADD COLUMN " +:+ QuoteIdentifierANSI column +:+ " " +:+ definition
  | AlterColumn table column action => "ALTER TABLE " +:+ table +:+ " ALTER COLUMN " +:+ QuoteIdentifierANSI column +:+ action
  | DropColumnStmt table column => "ALTER TABLE " +:+ table +:+ " DROP COLUMN " +:+ QuoteIdentifierANSI column
  | RenameColumn table from to_ => "ALTER TABLE " +:+ table +:+ " RENAME " +:+ QuoteIdentifierANSI from +:+ " TO " +:+ QuoteIdentifierANSI to_
  | AddPrimaryKey table column => "ALTER TABLE " +:+ table +:+ " ADD PRIMARY KEY (" +:+ QuoteIdentifierANSI column +:+ ")"
  | DropSequence name => "DROP SEQUENCE IF EXISTS " +:+ name
  | CommentOnColumn column text => "COMMENT ON COLUMN " +:+ column +:+ " IS '" +:+ text +:+ "'"
  | CommentOnTable table text => "COMMENT ON TABLE " +:+ table +:+ " IS '" +:+ text +:+ "'"
  end.
Definition batch_text (l : list Stmt) : string := strings_Join "; " (map stmt_text l).

Definition sys_schema : string := "__sys__".
(** The statement and the full name. *)
Definition getCreateSequence (temporary : bool) (sequenceName : string) : string * string :=
  let quoted := dquote +:+ sequenceName +:+ dquote in
  if temporary then ("CREATE TEMP SEQUENCE " +:+ quoted, "temp.main." +:+ quoted)
  else let fullName := sys_schema +:+ "." +:+ quoted in ("CREATE SEQUENCE " +:+ fullName, fullName).

(** [sql.NewPrimaryKeySchema]: the ordinals it ends up with. *)
Class PkSchemaLib `{SqlTypes, SchemaLib} : Type := { NewPkOrdinals : list SqlColumn -> list Z -> list Z }.

Definition tab : string := str1 (chr 9).
Definition nl : string := str1 (chr 10).
Definition columns_query : string :=
  nl +:+ tab +:+ tab +:+ "SELECT column_name, column_index, data_type, is_nullable, column_default, comment, numeric_precision, numeric_scale"
  +:+ nl +:+ tab +:+ tab +:+ "FROM duckdb_columns()"
  +:+ nl +:+ tab +:+ tab +:+ "WHERE (database_name = ? AND schema_name = ? AND table_name = ?) OR (database_name = 'temp' AND schema_name = 'main' AND table_name = ?)"
  +:+ nl +:+ tab.
Definition primary_key_query : string :=
  nl +:+ tab +:+ tab +:+ "SELECT constraint_column_indexes FROM duckdb_constraints() WHERE ((database_name = ? AND schema_name = ? AND table_name = ?) OR (database_name = 'temp' AND schema_name = 'main' AND table_name = ?)) AND constraint_type = 'PRIMARY KEY' LIMIT 1"
  +:+ nl +:+ tab.

Section Tables.
Context `{SqlTypes} `{CatalogDB} `{SchemaLib} `{JsonType CheckDefinition} `{!PkSchemaLib}.

(** ** Reading the schema *)
Definition scan_column (row : list Cell) : string + ColumnInfo :=
  match row with
  | [name; index; dataType; nullable; dflt; comment; precision; scale] =>
      match scan_string name, scan_int index, scan_string dataType, scan_bool nullable, scan_null_string dflt,
            scan_null_string comment, scan_null_int precision, scan_null_int scale with
      | Some name, Some index, Some dataType, Some nullable, Some dflt, Some comment, Some precision, Some scale =>
          let decodedComment := DecodeComment (T := MySQLType) (default EmptyString comment) in
          match mysqlDataType (mkDuckType dataType (Meta decodedComment)) (u8 (default 0 precision)) (u8 (default 0 scale)) with
          | Some t => inr (mkColumnInfo _ name index t nullable dflt comment)
          | None => inl "mysqlDataType"
          end
      | _, _, _, _, _, _, _, _ => inl scan_error
      end
  | _ => inl scan_error
  end.

Fixpoint scan_columns (rows : list (list Cell)) : string + list ColumnInfo :=
  match rows with
  | [] => inr []
  | row :: rows =>
      match scan_column row with
      | inl err => inl err
      | inr c => match scan_columns rows with inl err => inl err | inr cs => inr (c :: cs) end
      end
  end.

Definition queryColumns (catalogName schemaName tableName : string) (w : cdb) : cdb * (string + list ColumnInfo) :=
  let '(w, r) := QueryCatalog columns_query [catalogName; schemaName; tableName; tableName] w in
  (w, match r with
      | inl err => inl err
      | inr (rows, err) =>
          match scan_columns rows with
          | inl err => inl err
          | inr cs => match err with Some err => inl err | None => inr cs end
          end
      end).

(** Every error is a panic. *)
Definition getPrimaryKeyOrdinals (catalogName dbName tableName : string) (w : cdb) : outcome (cdb * list Z) :=
  let '(w, r) := QueryCatalog primary_key_query [catalogName; dbName; tableName; tableName] w in
  match r with
  | inl _ => Panic
  | inr (rows, err) =>
      ordinals ← match rows with
                 | [] => Ret []
                 | [c] :: _ => assert_some (scan_ints c)
                 | _ :: _ => Panic
                 end;
      match err with Some _ => Panic | None => Ret (w, ordinals) end
  end.

Definition schema_column (dbName tableName : string) (ci : ColumnInfo) : SqlColumn :=
  let decodedComment := DecodeComment (T := MySQLType) (default EmptyString (ci_Comment ci)) in
  let dflt := my_Default (Meta decodedComment) in
  let auto := my_AutoIncrement (Meta decodedComment) in
  mkSqlColumn _ _ (ci_ColumnName ci) (ci_DataType ci) (ci_IsNullable ci) tableName dbName
    (match ci_ColumnDefault ci with
     | Some _ => if decide (dflt = EmptyString) then None else Some (NewUnresolvedColumnDefaultValue dflt)
     | None => None
     end)
    auto false (Text decodedComment) (if auto then "auto_increment" else EmptyString).

Definition with_primary_key (c : SqlColumn) : SqlColumn :=
  mkSqlColumn _ _ (c_Name c) (c_Type c) (c_Nullable c) (c_Source c) (c_DatabaseSource c) (c_Default c) (c_AutoIncrement c) true (c_Comment c) (c_Extra c).

(** [schema[idx].PrimaryKey = true] for each ordinal; an ordinal out of range panics. *)
Fixpoint setPrimaryKeyColumns (schema : list SqlColumn) (ordinals : list Z) : outcome (list SqlColumn) :=
  match ordinals with
  | [] => Ret schema
  | i :: ordinals =>
      if (0 <=? i) && (i <? Z.of_nat (length schema)) then setPrimaryKeyColumns (alter with_primary_key (Z.to_nat i) schema) ordinals
      else Panic
  end.

Definition getPKSchema (catalogName dbName tableName : string) (w : cdb) : outcome (cdb * (CatalogError + PrimaryKeySchema)) :=
  match queryColumns catalogName dbName tableName w with
  | (w, inl err) => Ret (w, inl (ErrDuckDB err))
  | (w, inr columns) =>
      '(w, ordinals) ← getPrimaryKeyOrdinals catalogName dbName tableName w;
      schema ← setPrimaryKeyColumns (map (schema_column dbName tableName) columns) ordinals;
      Ret (w, inr (mkPkSchema _ _ schema (NewPkOrdinals schema ordinals)))
  end.

Definition NewTable (db : Database) (name : string) (comment : Comment ExtraTableInfo) (hasPrimaryKey : bool) : Table :=
  mkTable _ _ db name comment (mkPkSchema _ _ [] []) hasPrimaryKey.

Definition set_schema (s : PrimaryKeySchema) (t : Table) : Table := mkTable _ _ (t_db t) (t_name t) (t_comment t) s (t_hasPrimaryKey t).
Definition set_info (i : ExtraTableInfo) (t : Table) : Table :=
  mkTable _ _ (t_db t) (t_name t) (mkComment (Text (t_comment t)) i) (t_schema t) (t_hasPrimaryKey t).
Definition info_of (t : Table) : ExtraTableInfo := Meta (t_comment t).
Definition ords (o : option (list Z)) : list Z := default [] o.
Definition with_sequence (s : string) (i : ExtraTableInfo) : ExtraTableInfo := mkInfo _ (PkOrdinals i) (Replicated i) s (Checks i).
Definition with_pk (l : list Z) (i : ExtraTableInfo) : ExtraTableInfo := mkInfo _ (Some l) (Replicated i) (Sequence i) (Checks i).
Definition with_checks (l : option (list CheckDefinition)) (i : ExtraTableInfo) : ExtraTableInfo := mkInfo _ (PkOrdinals i) (Replicated i) (Sequence i) l.
Definition has_pk (t : Table) : Table := mkTable _ _ (t_db t) (t_name t) (t_comment t) (t_schema t) true.

(** What an operation leaves: the world, the copy and the error. *)
Definition result : Type := cdb * Table * option CatalogError.

Definition withSchema (env : string) (t : Table) (w : cdb) : outcome result :=
  '(w, r) ← getPKSchema (d_catalog (t_db t)) (d_name (t_db t)) (t_name t) w;
  match r with
  | inl err => Ret (w, t, Some err)
  | inr schema =>
      if bool_decide (pks_PkOrdinals schema = []) && Delta.IsReplicationWithoutIndex env then
        let pk := ords (PkOrdinals (info_of t)) in
        cols ← setPrimaryKeyColumns (pks_Schema schema) pk;
        Ret (w, set_schema (mkPkSchema _ _ cols (NewPkOrdinals cols pk)) t, None)
      else Ret (w, set_schema schema t, None)
  end.

Definition full_name (t : Table) : string := FullTableName (d_catalog (t_db t)) (d_name (t_db t)) (t_name t).
Definition full_column (t : Table) (column : string) : string := FullColumnName (d_catalog (t_db t)) (d_name (t_db t)) (t_name t) column.
Definition is_temporary (t : Table) : bool := bool_decide (d_catalog (t_db t) = "temp").

(** What an operation is going to do: the batch, and the change of the copy
    when it succeeds. *)
Record Plan : Type := mkPlan { p_sqls : list Stmt; p_update : Table -> Table }.

(** The common end of the operations: run the batch, change the copy, read the schema again. *)
Definition run_plan (env : string) (t : Table) (p : cdb * (CatalogError + Plan)) : outcome result :=
  match p with
  | (w, inl err) => Ret (w, t, Some err)
  | (w, inr p) =>
      match Exec (batch_text (p_sqls p)) w with
      | (w, inl err) => Ret (w, t, Some (ErrDuckDB err))
      | (w, inr _) => withSchema env (p_update p t) w
      end
  end.

(** ** Columns *)
Definition EqualFold (a b : string) : bool := bool_decide (Delta.strings_ToLower a = Delta.strings_ToLower b).

(** The DEFAULT of a new column: its annotation, the clause, the statements
    that come first and the name of the sequence. *)
Definition column_default (temporary : bool) (column : SqlColumn) (m : MySQLType) (w : cdb)
    : outcome (cdb * (CatalogError + (MySQLType * string * list Stmt * string))) :=
  match c_Default column with
  | Some d =>
      let m := set_default (Default_String d) m in
      r ← parseDefaultValue Parse (my_Default m);
      Ret (w, match r with inl err => inl (ErrOther err) | inr e => inr (m, " DEFAULT " +:+ e, [], EmptyString) end)
  | None =>
      if c_AutoIncrement column then
        match NewRandom w with
        | inl err => Ret (w, inl (ErrOther err))
        | inr (w, uuid) =>
            let '(createSequenceStmt, fullSequenceName) := getCreateSequence temporary (SequenceNamePrefix +:+ uuid) in
            Ret (w, inr (set_auto true m, " DEFAULT nextval('" +:+ fullSequenceName +:+ "')", [CreateSequence createSequenceStmt], fullSequenceName))
        end
      else Ret (w, inr (m, EmptyString, [], EmptyString))
  end.

Definition table_comment_stmt (t : Table) (info : ExtraTableInfo) : Stmt :=
  CommentOnTable (full_name t) (Encode (NewCommentWithMeta (Text (t_comment t)) info)).
Definition column_comment_stmt (t : Table) (column : SqlColumn) (m : MySQLType) : Stmt :=
  CommentOnColumn (full_column t (c_Name column)) (Encode (NewCommentWithMeta (c_Comment column) m)).

Definition AddColumn_plan (column : SqlColumn) (t : Table) (w : cdb) : outcome (cdb * (CatalogError + Plan)) :=
  typ ← DuckdbDataType (c_Type column);
  match typ with
  | inl err => Ret (w, inl (ErrOther err))
  | inr typ =>
      '(w, r) ← column_default (is_temporary t) column (mysql typ) w;
      match r with
      | inl err => Ret (w, inl err)
      | inr (m, clause, sequence, fullSequenceName) =>
          let pk := [Z.of_nat (length (pks_Schema (t_schema t)))] in
          let info := (if c_PrimaryKey column then with_pk pk else id)
                        ((if c_AutoIncrement column then with_sequence fullSequenceName else id) (info_of t)) in
          Ret (w, inr (mkPlan
            (sequence ++ [AddColumnStmt (full_name t) (c_Name column) (duck_name typ +:+ clause)]
             ++ (if c_Nullable column then [] else [AlterColumn (full_name t) (c_Name column) " SET NOT NULL"])
             ++ [column_comment_stmt t column m]
             ++ (if c_PrimaryKey column then [AddPrimaryKey (full_name t) (c_Name column)] else [])
             ++ (if c_AutoIncrement column || c_PrimaryKey column then [table_comment_stmt t info] else []))
            (fun t =>
               let t := if c_AutoIncrement column then set_info (with_sequence (Sequence info) (info_of t)) t else t in
               if c_PrimaryKey column then set_info (with_pk pk (info_of t)) (has_pk t) else t)))
      end
  end.
Definition AddColumn (env : string) (column : SqlColumn) (t : Table) (w : cdb) : outcome result :=
  p ← AddColumn_plan column t w; run_plan env t p.

Definition DropColumn_plan (columnName : string) (t : Table) : Plan :=
  let autoIncrement := existsb (fun c => c_AutoIncrement c && EqualFold (c_Name c) columnName) (pks_Schema (t_schema t)) in
  let info := with_sequence EmptyString (info_of t) in
  mkPlan
    (DropColumnStmt (full_name t) columnName
     :: if autoIncrement then [DropSequence (Sequence (info_of t)); table_comment_stmt t info] else [])
    (fun t => if autoIncrement then set_info (with_sequence EmptyString (info_of t)) t else t).
Definition DropColumn (env : string) (columnName : string) (t : Table) (w : cdb) : outcome result :=
  run_plan env t (w, inr (DropColumn_plan columnName t)).

Fixpoint find_column (columnName : string) (i : Z) (l : list SqlColumn) : option (Z * SqlColumn) :=
  match l with
  | [] => None
  | c :: l => if EqualFold (c_Name c) columnName then Some (i, c) else find_column columnName (i + 1) l
  end.

(** The part of [ModifyColumn] that handles AUTO_INCREMENT: the annotation, the
    statements, and the new name of the sequence when it changes. *)
Definition modify_auto (temporary : bool) (full columnName : string) (old column : SqlColumn) (m : MySQLType) (w : cdb)
    : cdb * (CatalogError + (MySQLType * list Stmt * option string)) :=
  if negb (c_AutoIncrement old) && c_AutoIncrement column then
    match NewRandom w with
    | inl err => (w, inl (ErrOther err))
    | inr (w, uuid) =>
        let '(createSequenceStmt, fullSequenceName) := getCreateSequence temporary (SequenceNamePrefix +:+ uuid) in
        (w, inr (set_auto true m,
                 [CreateSequence createSequenceStmt; AlterColumn full columnName (" SET DEFAULT nextval('" +:+ fullSequenceName +:+ "')")],
                 Some fullSequenceName))
    end
  else if c_AutoIncrement old && negb (c_AutoIncrement column) then
    (w, inr (m, [AlterColumn full columnName " DROP DEFAULT"], Some EmptyString))
  else (w, inr (m, [], None)).

(** The DEFAULT of a modified column. *)
Definition modify_default (full columnName : string) (column : SqlColumn) (m : MySQLType) : outcome (CatalogError + (MySQLType * list Stmt)) :=
  match c_Default column with
  | Some d =>
      if c_AutoIncrement column then Ret (inr (m, []))
      else
        let m := set_default (Default_String d) m in
        r ← parseDefaultValue Parse (my_Default m);
        Ret (match r with inl err => inl (ErrOther err) | inr e => inr (m, [AlterColumn full columnName (" SET DEFAULT " +:+ e)]) end)
  | None => Ret (inr (m, []))
  end.

Definition ModifyColumn_plan (columnName : string) (column : SqlColumn) (t : Table) (w : cdb) : outcome (cdb * (CatalogError + Plan)) :=
  typ ← DuckdbDataType (c_Type column);
  match typ with
  | inl err => Ret (w, inl (ErrOther err))
  | inr typ =>
      match find_column columnName 0 (pks_Schema (t_schema t)) with
      | None => Ret (w, inl (ErrColumnNotFound columnName))
      | Some (oldColumnIndex, old) =>
          let full := full_name t in
          d ← modify_default full columnName column (mysql typ);
          match d with
          | inl err => Ret (w, inl err)
          | inr (m, default_stmts) =>
              match modify_auto (is_temporary t) full columnName old column m w with
              | (w, inl err) => Ret (w, inl err)
              | (w, inr (m, auto_stmts, sequence)) =>
                  let add_pk := negb (c_PrimaryKey old) && c_PrimaryKey column in
                  let info := (if add_pk then with_pk [oldColumnIndex] else id)
                                (match sequence with Some s => with_sequence s (info_of t) | None => info_of t end) in
                  Ret (w, inr (mkPlan
                    ((if Equals (c_Type old) (c_Type column) then [] else [AlterColumn full columnName (" TYPE " +:+ duck_name typ)])
                     ++ (if c_Nullable old && negb (c_Nullable column) then [AlterColumn full columnName " SET NOT NULL"]
                         else if negb (c_Nullable old) && c_Nullable column then [AlterColumn full columnName " DROP NOT NULL"] else [])
                     ++ default_stmts ++ auto_stmts
                     ++ (if decide (columnName = c_Name column) then [] else [RenameColumn full columnName (c_Name column)])
                     ++ [column_comment_stmt t column m]
                     ++ (if add_pk then [AddPrimaryKey full (c_Name column)] else [])
                     ++ (if add_pk || match sequence with Some _ => true | None => false end then [table_comment_stmt t info] else []))
                    (fun t =>
                       let t := if c_PrimaryKey column then set_info (with_pk [oldColumnIndex] (info_of t)) (has_pk t) else t in
                       match sequence with Some s => set_info (with_sequence s (info_of t)) t | None => t end)))
              end
          end
      end
  end.
Definition ModifyColumn (env : string) (columnName : string) (column : SqlColumn) (t : Table) (w : cdb) : outcome result :=
  p ← ModifyColumn_plan columnName column t w; run_plan env t p.

(** ** Extra information and checks *)
Definition updateExtraTableInfo (updater : ExtraTableInfo -> ExtraTableInfo) (t : Table) (w : cdb) : result :=
  let info := updater (info_of t) in
  match Exec (stmt_text (table_comment_stmt t info)) w with
  | (w, inl err) => (w, t, Some (ErrDuckDB err))
  | (w, inr _) => (w, set_info info t, None)
  end.

Definition GetChecks (t : Table) : option (list CheckDefinition) := Checks (info_of t).

Definition CreateCheck (check : CheckDefinition) (t : Table) (w : cdb) : result :=
  updateExtraTableInfo (fun info => with_checks (Some (default [] (Checks info) ++ [check])) info) t w.

Definition DropCheck (checkName : string) (t : Table) (w : cdb) : result :=
  let old := default [] (GetChecks t) in
  let checks := List.filter (fun c => negb (bool_decide (check_Name c = checkName))) old in
  if existsb (fun c => bool_decide (check_Name c = checkName)) old
  then updateExtraTableInfo (with_checks (Some checks)) t w
  else (w, t, Some (ErrUnknownConstraint checkName)).

(** ** AUTO_INCREMENT *)
Definition not_yet_defined : string := "sequence is not yet defined in this session".
Definition currval_query (sequence : string) : string := "SELECT currval('" +:+ sequence +:+ "') + 1".
Definition nextval_query (sequence : string) : string := "SELECT nextval('" +:+ sequence +:+ "')".
Definition start_value_query (sequence : string) : string :=
  "SELECT start_value FROM duckdb_sequences() WHERE concat(schema_name, '." +:+ dquote +:+ "', sequence_name, '" +:+ dquote +:+ "') = '" +:+ sequence +:+ "'".

(** [QueryRowCatalog(...).Scan(&val)]. *)
Definition query_uint64 (query : string) (w : cdb) : outcome (cdb * (string + Z)) :=
  '(w, r) ← QueryRowCatalog query w;
  Ret (w, match r with
          | inl err => inl err
          | inr [c] => match scan_uint64 c with Some v => inr v | None => inl scan_error end
          | inr _ => inl scan_error
          end).

Definition getNextAutoIncrementValue (t : Table) (w : cdb) : outcome (cdb * (CatalogError + Z)) :=
  let sequence := Sequence (info_of t) in
  '(w, r) ← query_uint64 (currval_query sequence) w;
  match r with
  | inr v => Ret (w, inr v)
  | inl err =>
      if negb (strings_Contains err not_yet_defined) then Ret (w, inl (ErrDuckDB err))
      else '(w, r) ← query_uint64 (start_value_query sequence) w;
           Ret (w, match r with inl err => inl (ErrDuckDB err) | inr v => inr v end)
  end.

Definition PeekNextAutoIncrementValue (t : Table) (w : cdb) : outcome (cdb * (CatalogError + Z)) :=
  if decide (Sequence (info_of t) = EmptyString) then Ret (w, inl ErrNoAutoIncrementCol) else getNextAutoIncrementValue t w.

Definition set_default_stmt (t : Table) (column fullSequenceName : string) : Stmt :=
  AlterColumn (full_name t) column (" SET DEFAULT nextval('" +:+ fullSequenceName +:+ "')").

(** A new sequence takes the place of the old one. *)
Definition setAutoIncrementValue (env : string) (value : Z) (t : Table) (w : cdb) : outcome result :=
  match List.find (fun c => c_AutoIncrement c) (pks_Schema (t_schema t)) with
  | None => Ret (w, t, Some ErrNoAutoIncrementCol)
  | Some column =>
      match NewRandom w with
      | inl err => Ret (w, t, Some (ErrOther err))
      | inr (w, uuid) =>
          let '(createSequenceStmt, fullSequenceName) := getCreateSequence (is_temporary t) (SequenceNamePrefix +:+ uuid) in
          match Exec (createSequenceStmt +:+ " START WITH " +:+ FormatInt value) w with
          | (w, inl err) => Ret (w, t, Some (ErrDuckDB err))
          | (w, inr _) =>
              match Exec (stmt_text (set_default_stmt t (c_Name column) fullSequenceName)) w with
              | (w, inl err) => Ret (w, t, Some (ErrDuckDB err))
              | (w, inr _) =>
                  match updateExtraTableInfo (with_sequence fullSequenceName) t w with
                  | (w, t, Some err) => Ret (w, t, Some err)
                  | (w, t, None) => withSchema env t w
                  end
              end
          end
      end
  end.

(** The value to insert: [uint64], [int64], or anything else. *)
Inductive InsertVal : Type := ValUint64 (v : Z) | ValInt64 (v : Z) | ValOther.
Definition insert_start (v : InsertVal) : Z :=
  match v with ValUint64 v => v | ValInt64 v => if 0 <? v then v else 0 | ValOther => 0 end.

(** The copy changes too, when the sequence is replaced. *)
Definition GetNextAutoIncrementValue (env : string) (insertVal : option InsertVal) (t : Table) (w : cdb)
    : outcome (cdb * Table * (CatalogError + Z)) :=
  if decide (Sequence (info_of t) = EmptyString) then Ret (w, t, inl ErrNoAutoIncrementCol)
  else
    '(w, r) ← getNextAutoIncrementValue t w;
    match r with
    | inl err => Ret (w, t, inl err)
    | inr nextVal =>
        let start := match insertVal with Some v => insert_start v | None => 0 end in
        if (0 <? start) && (nextVal <? start) then
          '(w, t, err) ← setAutoIncrementValue env start t w;
          Ret (w, t, match err with Some err => inl err | None => inr start end)
        else
          '(w, r) ← query_uint64 (nextval_query (Sequence (info_of t))) w;
          Ret (w, t, match r with inl err => inl (ErrDuckDB err) | inr v => inr v end)
    end.

(** ** Indexes *)
Record IndexDef : Type := mkIndexDef {
  ix_Name : string; ix_Columns : list string; ix_Comment : string;
  ix_primary : bool; ix_spatial : bool; ix_fulltext : bool; ix_unique : bool
}.

Definition create_index_text (t : Table) (ix : IndexDef) : string :=
  "USE " +:+ FullSchemaName (d_catalog (t_db t)) EmptyString +:+ "; "
  +:+ "CREATE " +:+ (if ix_unique ix then "UNIQUE" else EmptyString) +:+ " INDEX " +:+ dquote +:+ EncodeIndexName (t_name t) (ix_Name ix) +:+ dquote
  +:+ " ON " +:+ FullTableName EmptyString (d_name (t_db t)) (t_name t) +:+ " ("
  +:+ strings_Join ", " (map (fun c => dquote +:+ c +:+ dquote) (ix_Columns ix)) +:+ ")"
  +:+ (if decide (ix_Comment ix = EmptyString) then EmptyString
       else "; COMMENT ON INDEX " +:+ FullIndexName (d_catalog (t_db t)) (d_name (t_db t)) (EncodeIndexName (t_name t) (ix_Name ix))
            +:+ " IS '" +:+ Encode (NewComment (T := option json) (ix_Comment ix)) +:+ "'").

Definition CreateIndex (env : string) (ctx : QueryContext) (ix : IndexDef) (t : Table) (w : cdb) : cdb * option CatalogError :=
  if isIndexCreationDisabled env ctx then (w, None)
  else if ix_primary ix then (w, Some (ErrOther "primary key cannot be created with CreateIndex, use ALTER TABLE ... ADD PRIMARY KEY instead"))
  else if ix_spatial ix then (w, Some (ErrOther "spatial indexes are not supported"))
  else if ix_fulltext ix then (w, Some (ErrOther "full text indexes are not supported"))
  else match Exec (create_index_text t ix) w with
       | (w, inr _) => (w, None)
       | (w, inl err) =>
           (w, Some (if IsDuckDBIndexAlreadyExistsError err then ErrDuplicateKey (ix_Name ix)
                     else if IsDuckDBUniqueConstraintViolationError err then ErrUniqueKeyViolation
                     else ErrDuckDB err))
       end.

Definition DropIndex (indexName : string) (t : Table) (w : cdb) : cdb * option CatalogError :=
  let sql := "USE " +:+ FullSchemaName (d_catalog (t_db t)) (d_name (t_db t)) +:+ "; DROP INDEX "
             +:+ dquote +:+ EncodeIndexName (t_name t) indexName +:+ dquote in
  match Exec sql w with (w, inl err) => (w, Some (ErrDuckDB err)) | (w, inr _) => (w, None) end.

Definition RenameIndex : CatalogError := ErrUnsupportedFeature "RenameIndex is not supported".

Definition Truncate (t : Table) (w : cdb) : cdb * (CatalogError + Z) :=
  match ExecCatalog ("TRUNCATE TABLE " +:+ full_name t) w with
  | (w, inl err) => (w, inl (ErrOther err))
  | (w, inr affected) => (w, inr affected)
  end.

(** What the parser of vitess makes of CREATE INDEX: the columns of an ALTER TABLE
    with an index specification, or an ALTER TABLE without one. *)
Inductive ParsedIndex : Type := IndexError (err : string) | IndexColumns (columns : list string) | NoIndexSpec | NotAlterTable.

Definition DecodeCreateindex (ParseIndex : string -> ParsedIndex) (createIndexSQL : string) : outcome (string + list string) :=
  denormalizedQuery ← DenormalizeStrings createIndexSQL;
  match ParseIndex denormalizedQuery with
  | IndexError err => Ret (inl err)
  | IndexColumns columns => Ret (inr columns)
  | NoIndexSpec => Panic
  | NotAlterTable => Ret (inr [])
  end.

(** [expression.NewGetFieldWithTable]. *)
Record GetField : Type := mkGetField { gf_index : Z; gf_type : sqlType; gf_db : string; gf_table : string; gf_name : string; gf_nullable : bool }.
Record Index : Type := mkIndex {
  idx_DbName : string; idx_TableName : string; idx_Exprs : list GetField; idx_Name : string; idx_Unique : bool; idx_Comment : Comment (option json)
}.
Definition NewIndex (dbName tableName name : string) (unique : bool) (comment : Comment (option json)) (exprs : list GetField) : Index :=
  mkIndex dbName tableName exprs name unique comment.

Definition indexes_query : string :=
  "SELECT index_name, is_unique, comment, sql FROM duckdb_indexes() WHERE (database_name = ? AND schema_name = ? AND table_name = ?) or (database_name = 'temp' AND schema_name = 'main' AND table_name = ?)".

(** The expressions of the primary key; an ordinal out of range panics. *)
Fixpoint pk_exprs (db table : string) (schema : list SqlColumn) (ordinals : list Z) : outcome (list GetField) :=
  match ordinals with
  | [] => Ret []
  | ord :: ordinals =>
      c ← (if 0 <=? ord then assert_some (schema !! Z.to_nat ord) else Panic);
      rest ← pk_exprs db table schema ordinals;
      Ret (mkGetField ord (c_Type c) db table (c_Name c) (c_Nullable c) :: rest)
  end.

(** [columnsInfoMap[columnName]]: a later column of the same name wins. *)
Definition column_expr (db table : string) (columns : list ColumnInfo) (name : string) : list GetField :=
  match List.find (fun c => bool_decide (ci_ColumnName c = name)) (rev columns) with
  | Some c => [mkGetField (ci_ColumnIndex c) (ci_DataType c) db table (ci_ColumnName c) (ci_IsNullable c)]
  | None => []
  end.

Definition scan_index (ParseIndex : string -> ParsedIndex) (db table : string) (columns : list ColumnInfo) (row : list Cell)
    : outcome (string + Index) :=
  match row with
  | [name; unique; comment; sql] =>
      match scan_string name, scan_bool unique, scan_null_string comment, scan_string sql with
      | Some encodedIndexName, Some isUnique, Some comment, Some createIndexSQL =>
          r ← DecodeCreateindex ParseIndex createIndexSQL;
          Ret (match r with
               | inl err => inl err
               | inr names =>
                   inr (NewIndex db table (snd (DecodeIndexName encodedIndexName)) isUnique (DecodeComment (default EmptyString comment))
                          (names ≫= column_expr db table columns))
               end)
      | _, _, _, _ => Ret (inl scan_error)
      end
  | _ => Ret (inl scan_error)
  end.

Fixpoint scan_indexes (ParseIndex : string -> ParsedIndex) (db table : string) (columns : list ColumnInfo) (rows : list (list Cell))
    : outcome (string + list Index) :=
  match rows with
  | [] => Ret (inr [])
  | row :: rows =>
      r ← scan_index ParseIndex db table columns row;
      match r with
      | inl err => Ret (inl err)
      | inr ix =>
          rs ← scan_indexes ParseIndex db table columns rows;
          Ret (match rs with inl err => inl err | inr l => inr (ix :: l) end)
      end
  end.

Definition GetIndexes (ParseIndex : string -> ParsedIndex) (t : Table) (w : cdb) : outcome (cdb * (CatalogError + list Index)) :=
  let db := d_name (t_db t) in
  let '(w, r) := QueryCatalog indexes_query [d_catalog (t_db t); db; t_name t; t_name t] w in
  match r with
  | inl err => Ret (w, inl (ErrDuckDB err))
  | inr (rows, rows_err) =>
      primary ← (if decide (pks_PkOrdinals (t_schema t) = []) then Ret []
                 else exprs ← pk_exprs db (t_name t) (pks_Schema (t_schema t)) (pks_PkOrdinals (t_schema t));
                      Ret [NewIndex db (t_name t) "PRIMARY" true (NewComment EmptyString) exprs]);
      match queryColumns (d_catalog (t_db t)) db (t_name t) w with
      | (w, inl err) => Ret (w, inl (ErrDuckDB err))
      | (w, inr columns) =>
          rs ← scan_indexes ParseIndex db (t_name t) columns rows;
          Ret (w, match rs with
                  | inl err => inl (ErrDuckDB err)
                  | inr l => match rows_err with Some err => inl (ErrDuckDB err) | None => inr (primary ++ l) end
                  end)
      end
  end.
End Tables.
