(* ===== verification/CatalogDatabase.v ===== *)
(** * Databases (src/catalog/database.go)

    A [Database] is a schema of DuckDB: creating, finding, renaming and dropping
    its tables and views, and copying the rows of a table. *)

From S2P Require Import Prelude Identifier CatalogErrors Schema InternalTables GoJson Comment Quotes TypeMapping CatalogTable.
From S2P Require Delta.
From Stdlib Require Import Ascii.

Definition tables_query : string :=
  "SELECT table_name, has_primary_key, comment FROM duckdb_tables() WHERE (database_name = ? AND schema_name = ? AND table_name ILIKE ?) OR (temporary IS TRUE AND table_name ILIKE ?)".

Definition SystemViews : list string :=
  ["duckdb_columns"; "duckdb_constraints"; "duckdb_databases"; "duckdb_indexes"; "duckdb_schemas"; "duckdb_tables"; "duckdb_types";
   "duckdb_views"; "pragma_database_list"; "sqlite_master"; "sqlite_schema"; "sqlite_temp_master"; "sqlite_temp_schema"].
Definition IsSystemView (viewName : string) : bool := bool_decide (viewName ∈ SystemViews).

(** ** Tables of a database *)
Section Databases.
Context `{SqlTypes} `{CatalogDB} `{SchemaLib} `{JsonType CheckDefinition} `{!PkSchemaLib}.

Definition scan_table (d : Database) (row : list Cell) : option Table :=
  match row with
  | [name; pk; comment] =>
      name ← scan_string name; pk ← scan_bool pk; comment ← scan_null_string comment;
      Some (NewTable d name (DecodeComment (default EmptyString comment)) pk)
  | _ => None
  end.

Definition findTables (d : Database) (pattern : string) (w : cdb) : cdb * (CatalogError + list Table) :=
  let '(w, r) := QueryCatalog tables_query [d_catalog d; d_name d; pattern; pattern] w in
  (w, match r with
      | inl err => inl (ErrDuckDB err)
      | inr (rows, err) =>
          match mapM (scan_table d) rows with
          | None => inl (ErrDuckDB scan_error)
          | Some tbls => match err with Some err => inl (ErrDuckDB err) | None => inr tbls end
          end
      end).

(** The loop over [withSchema]. *)
Fixpoint with_schemas (env : string) (l : list Table) (w : cdb) : outcome (cdb * (CatalogError + list Table)) :=
  match l with
  | [] => Ret (w, inr [])
  | t :: l =>
      '(w, t, err) ← withSchema env t w;
      match err with
      | Some err => Ret (w, inl err)
      | None =>
          '(w, r) ← with_schemas env l w;
          Ret (w, match r with inl err => inl err | inr ts => inr (t :: ts) end)
      end
  end.

Definition tablesInsensitive (env : string) (d : Database) (pattern : string) (w : cdb) : outcome (cdb * (CatalogError + list Table)) :=
  match findTables d pattern w with
  | (w, inl err) => Ret (w, inl err)
  | (w, inr tables) => with_schemas env tables w
  end.

Definition GetTableNames (env : string) (d : Database) (w : cdb) : outcome (cdb * (CatalogError + list string)) :=
  '(w, r) ← tablesInsensitive env d "%" w;
  Ret (w, match r with inl err => inl err | inr tbls => inr (map t_name tbls) end).

Definition GetTableInsensitive (env : string) (d : Database) (tblName : string) (w : cdb) : outcome (cdb * (CatalogError + option Table)) :=
  '(w, r) ← tablesInsensitive env d tblName w;
  Ret (w, match r with inl err => inl err | inr tbls => inr (head tbls) end).

(** ** Creating tables *)

(** What the loop over the columns has built. *)
Record building : Type := mkBuilding {
  b_columns : list string; b_comments : list string; b_sequenceName : string; b_fullSequenceName : string
}.

Definition create_column (d : Database) (name : string) (temporary : bool) (col : SqlColumn) (b : building) (w : cdb)
    : outcome (cdb * (CatalogError + building)) :=
  typ ← DuckdbDataType (c_Type col);
  match typ with
  | inl err => Ret (w, inl (ErrOther err))
  | inr typ =>
      let colDef := dquote +:+ c_Name col +:+ dquote +:+ " " +:+ duck_name typ +:+ (if c_Nullable col then " NULL" else " NOT NULL") in
      let fullColumnName := if temporary then FullColumnName "temp" "main" name (c_Name col)
                            else FullColumnName (d_catalog d) (d_name d) name (c_Name col) in
      let finish w m clause sequenceName fullSequenceName :=
        Ret (w, inr (mkBuilding (b_columns b ++ [colDef +:+ clause])
          (if decide (c_Comment col <> EmptyString \/ my_Name m <> EmptyString \/ c_Default col <> None)
           then b_comments b ++ ["COMMENT ON COLUMN " +:+ fullColumnName +:+ " IS '" +:+ Encode (NewCommentWithMeta (c_Comment col) m) +:+ "'"]
           else b_comments b)
          sequenceName fullSequenceName)) in
      match c_Default col with
      | Some dflt =>
          let m := set_default (Default_String dflt) (mysql typ) in
          r ← parseDefaultValue Parse (my_Default m);
          match r with
          | inl err => Ret (w, inl (ErrOther err))
          | inr defaultExpr => finish w m (" DEFAULT " +:+ defaultExpr) (b_sequenceName b) (b_fullSequenceName b)
          end
      | None =>
          if c_AutoIncrement col then
            match NewRandom w with
            | inl err => Ret (w, inl (ErrOther err))
            | inr (w, uuid) =>
                let sequenceName := SequenceNamePrefix +:+ uuid in
                let quoted := dquote +:+ sequenceName +:+ dquote in
                let fullSequenceName := if temporary then "temp.main." +:+ quoted else sys_schema +:+ "." +:+ quoted in
                finish w (set_auto true (mysql typ)) (" DEFAULT nextval('" +:+ fullSequenceName +:+ "')") sequenceName fullSequenceName
            end
          else finish w (mysql typ) EmptyString (b_sequenceName b) (b_fullSequenceName b)
      end
  end.

Fixpoint create_columns (d : Database) (name : string) (temporary : bool) (cols : list SqlColumn) (b : building) (w : cdb)
    : outcome (cdb * (CatalogError + building)) :=
  match cols with
  | [] => Ret (w, inr b)
  | col :: cols =>
      '(w, r) ← create_column d name temporary col b w;
      match r with inl err => Ret (w, inl err) | inr b => create_columns d name temporary cols b w end
  end.

(** The names of the key columns; an ordinal out of range panics. *)
Fixpoint pk_column_names (schema : list SqlColumn) (ordinals : list Z) : outcome (list string) :=
  match ordinals with
  | [] => Ret []
  | i :: ordinals =>
      c ← (if 0 <=? i then assert_some (schema !! Z.to_nat i) else Panic);
      rest ← pk_column_names schema ordinals; Ret (c_Name c :: rest)
  end.

Definition create_table_text (temporary : bool) (name fullTableName comment : string) (b : building) (primaryKeys : list string)
    (withoutIndex : bool) (pkOrdinals : option (list Z)) : string :=
  (if decide (b_sequenceName b = EmptyString) then EmptyString
   else "CREATE " +:+ (if temporary then "TEMP SEQUENCE " +:+ dquote +:+ b_sequenceName b +:+ dquote else "SEQUENCE " +:+ b_fullSequenceName b) +:+ ";")
  +:+ (if temporary then "CREATE TEMP TABLE " +:+ name else "CREATE TABLE " +:+ fullTableName) +:+ " (" +:+ strings_Join ", " (b_columns b)
  +:+ (if bool_decide (primaryKeys = []) || withoutIndex then EmptyString else ", PRIMARY KEY (" +:+ strings_Join ", " primaryKeys +:+ ")")
  +:+ ")"
  +:+ "; COMMENT ON TABLE " +:+ fullTableName +:+ " IS '"
  +:+ Encode (NewCommentWithMeta comment (mkInfo _ pkOrdinals withoutIndex (b_fullSequenceName b) None)) +:+ "'"
  +:+ foldr (fun s acc => ";" +:+ s +:+ acc) EmptyString (b_comments b).

(** [pkOrdinals] is the slice of the schema, nil or not. *)
Definition createAllTable (env : string) (ctx : QueryContext) (d : Database) (name : string) (schema : list SqlColumn) (pkOrdinals : option (list Z))
    (comment : string) (temporary : bool) (w : cdb) : outcome (cdb * option CatalogError) :=
  let fullTableName := if temporary then FullTableName "temp" "main" name else FullTableName (d_catalog d) (d_name d) name in
  '(w, r) ← create_columns d name temporary schema (mkBuilding [] [] EmptyString EmptyString) w;
  match r with
  | inl err => Ret (w, Some err)
  | inr b =>
      primaryKeys ← pk_column_names schema (ords pkOrdinals);
      let withoutIndex := isIndexCreationDisabled env ctx in
      Ret (match Exec (create_table_text temporary name fullTableName comment b primaryKeys withoutIndex pkOrdinals) w with
           | (w, inr _) => (w, None)
           | (w, inl err) => (w, Some (if IsDuckDBTableAlreadyExistsError err then ErrTableAlreadyExists name else ErrDuckDB err))
           end)
  end.

Definition CreateTable (env : string) (ctx : QueryContext) (d : Database) (name : string) (schema : list SqlColumn) (pkOrdinals : option (list Z))
    (comment : string) (w : cdb) : outcome (cdb * option CatalogError) :=
  createAllTable env ctx d name schema pkOrdinals comment false w.
Definition CreateTemporaryTable (env : string) (ctx : QueryContext) (d : Database) (name : string) (schema : list SqlColumn) (pkOrdinals : option (list Z))
    (w : cdb) : outcome (cdb * option CatalogError) :=
  createAllTable env ctx d name schema pkOrdinals EmptyString true w.

(** ** The other statements *)
(** Run a statement and translate its error. *)
Definition exec_mapped (text : string) (translate : string -> CatalogError) (w : cdb) : cdb * option CatalogError :=
  match Exec text w with (w, inr _) => (w, None) | (w, inl err) => (w, Some (translate err)) end.

Definition DropTable (d : Database) (name : string) (w : cdb) : cdb * option CatalogError :=
  exec_mapped ("DROP TABLE " +:+ FullTableName (d_catalog d) (d_name d) name)
    (fun err => if IsDuckDBTableNotFoundError err then ErrTableNotFound name else ErrDuckDB err) w.

Definition RenameTable (d : Database) (oldName newName : string) (w : cdb) : cdb * option CatalogError :=
  exec_mapped ("ALTER TABLE " +:+ FullTableName (d_catalog d) (d_name d) oldName +:+ " RENAME TO " +:+ dquote +:+ newName +:+ dquote)
    (fun err => if IsDuckDBTableNotFoundError err then ErrTableNotFound oldName
                else if IsDuckDBTableAlreadyExistsError err then ErrTableAlreadyExists newName else ErrDuckDB err) w.

Definition CreateView (d : Database) (name selectStatement : string) (w : cdb) : cdb * option CatalogError :=
  exec_mapped ("USE " +:+ FullSchemaName (d_catalog d) (d_name d) +:+ "; CREATE VIEW " +:+ dquote +:+ name +:+ dquote +:+ " AS " +:+ selectStatement) ErrDuckDB w.

Definition DropView (d : Database) (name : string) (w : cdb) : cdb * option CatalogError :=
  exec_mapped ("USE " +:+ FullSchemaName (d_catalog d) (d_name d) +:+ "; DROP VIEW " +:+ dquote +:+ name +:+ dquote)
    (fun err => if IsDuckDBViewNotFoundError err then ErrViewDoesNotExist name else ErrDuckDB err) w.

Definition views_query : string :=
  nl +:+ tab +:+ tab +:+ "SELECT DISTINCT view_name, sql" +:+ nl +:+ tab +:+ tab +:+ "FROM duckdb_views()"
  +:+ nl +:+ tab +:+ tab +:+ "WHERE schema_name = ? AND NOT internal" +:+ nl +:+ tab.

Definition scan_view (row : list Cell) : option (string * string) :=
  match row with [name; sql] => n ← scan_string name; s ← scan_string sql; Some (n, s) | _ => None end.

(** The name and the text of each view. *)
Definition extractViewDefinitions (schemaName viewName : string) (w : cdb) : cdb * (CatalogError + list (string * string)) :=
  let '(query, args) := if decide (viewName = EmptyString) then (views_query, [schemaName])
                        else (views_query +:+ " AND view_name = ?", [schemaName; viewName]) in
  let '(w, r) := QueryCatalog query args w in
  (w, match r with
      | inl err => inl (ErrDuckDB err)
      | inr (rows, err) =>
          match mapM scan_view rows with
          | None => inl (ErrDuckDB scan_error)
          | Some views =>
              match err with
              | Some err => inl (ErrDuckDB err)
              | None => inr (List.filter (fun v => negb (IsSystemView (fst v))) views)
              end
          end
      end).

Definition AllViews (d : Database) (w : cdb) : cdb * (CatalogError + list (string * string)) := extractViewDefinitions (d_name d) EmptyString w.
Definition GetViewDefinition (d : Database) (viewName : string) (w : cdb) : cdb * (CatalogError + option (string * string)) :=
  let '(w, r) := extractViewDefinitions (d_name d) viewName w in
  (w, match r with inl err => inl err | inr views => inr (head views) end).

Definition CreateTrigger (d : Database) : CatalogError := ErrTriggersNotSupported (d_name d).
Definition DropTrigger (d : Database) : CatalogError := ErrTriggersNotSupported (d_name d).

Definition CopyTableData (d : Database) (sourceTable destinationTable : string) (w : cdb) : cdb * (CatalogError + Z) :=
  match Exec ("INSERT INTO " +:+ FullTableName (d_catalog d) (d_name d) destinationTable +:+ " FROM " +:+ FullTableName (d_catalog d) (d_name d) sourceTable) w with
  | (w, inl err) => (w, inl (ErrDuckDB err))
  | (w, inr count) => (w, inr count)
  end.
End Databases.
