(* ===== verification/Provider.v ===== *)
(** * The database provider (src/catalog/provider.go)

    Catalogs are database files of the data directory: attached at start,
    created with the internal schemas, tables, views and macros, dropped.
    Databases are the schemas of the current catalog.  DuckDB behind
    [prov.storage] and [prov.pool] and the file system are the class
    [ProviderEnv]; the internal objects, whose SQL is data, are an argument. *)

From S2P Require Import Prelude Identifier CatalogErrors InternalTables GoJson Regexp SqlText CatalogTable.
From Stdlib Require Import Ascii.

Inductive FileError : Type := FileNotExist | FileExist | FileOther.

Class ProviderEnv : Type := {
  pw : Type;
  StorageExec : string -> list string -> pw -> pw * option string;
  StorageQuery : string -> pw -> pw * (string + list string);  (* a column of texts *)
  StorageCount : string -> pw -> pw * (string + Z);            (* QueryRow(...).Scan(&count) *)
  PoolExec : string -> pw -> pw * option string;
  OpenDB : string -> pw -> string + pw;                        (* duckdb.NewConnector and sql.OpenDB *)
  NewConnectionPool : pw -> pw;
  PoolReset : pw -> pw * option string;
  StorageClose : pw -> pw * option string;
  ConnectorClose : pw -> pw;
  Stat : string -> pw -> option FileError;
  Remove : string -> pw -> pw * option string;
  ReadDir : string -> pw -> string + list (string * bool);     (* name, IsDir *)
  (* CreateTemp, WriteString and Sync, and the name of the file *)
  TempFile : string -> string -> pw -> pw * (string + string)
}.

(** The internal objects with their SQL: tables with rows and the content of a
    CSV file, views, macros with the parameters and the text of each overload. *)
Record InternalTableData : Type := mkTableData { td_table : InternalTable; td_rows : list (list string); td_file : string }.
Record InternalViewData : Type := mkViewData { iv_Schema : string; iv_Name : string; iv_DDL : string }.
Record InternalMacroData : Type := mkMacroData { im_Schema : string; im_Name : string; im_IsTableMacro : bool; im_Definitions : list (list string * string) }.
Record InternalObjects : Type := mkObjects {
  o_schemas : list string; o_tables : list InternalTableData; o_views : list InternalViewData; o_macros : list InternalMacroData
}.

Definition internal_schemas : list string := ["mysql"; "__sys__"].

Definition macro_QualifiedName (m : InternalMacroData) : string :=
  if decide (strings_ToLower (im_Schema m) = "pg_catalog") then "__sys__." +:+ im_Name m else im_Schema m +:+ "." +:+ im_Name m.

Definition macro_text (m : InternalMacroData) : string :=
  "CREATE OR REPLACE MACRO " +:+ macro_QualifiedName m
  +:+ strings_Join "," (map (fun d => nl +:+ "(" +:+ strings_Join ", " (fst d) +:+ ") AS " +:+ (if im_IsTableMacro m then "TABLE" +:+ nl else nl) +:+ snd d) (im_Definitions m))
  +:+ ";".

(** [%q] of a name without quotes and backslashes. *)
Definition quoted (s : string) : string := dquote +:+ s +:+ dquote.

(** [filepath.Join] of a clean directory and a file name. *)
Definition filepath_Join (dir file : string) : string :=
  if decide (dir = EmptyString \/ dir = ".") then file else dir +:+ "/" +:+ file.

(** [objects] are the package's internal objects. *)
Record DatabaseProvider : Type := mkProvider {
  dataDir : string; defaultTimeZone : string; objects : InternalObjects;
  defaultCatalogName : string; dbFile : string; dsn : string; ready : bool
}.
Record DatabaseProviderConfig : Type := mkProviderConfig { DataDir : string; DefaultDB : string; DefaultTimeZone : string; MemoryLimit : string }.

Section Providers.
Context `{ProviderEnv}.

(** A panic is the exit of the process (logrus' Fatalln). *)
Definition step : Type := pw -> outcome (pw * option string).
Definition then_ (a b : step) : step := fun w =>
  '(w, err) ← a w; match err with Some err => Ret (w, Some err) | None => b w end.
Fixpoint steps (l : list step) : step := fun w =>
  match l with [] => Ret (w, None) | s :: l => then_ s (steps l) w end.

Definition exec_step (text : string) (args : list string) (message : string) : step := fun w =>
  let '(w, err) := StorageExec text args w in Ret (w, match err with Some err => Some (message +:+ err) | None => None end).
Definition fatal_step (text : string) : step := fun w =>
  let '(w, err) := PoolExec text w in match err with Some _ => Panic | None => Ret (w, None) end.

Definition create_schema_step (schema : string) : step :=
  exec_step ("CREATE SCHEMA IF NOT EXISTS " +:+ schema) [] ("failed to create internal schema " +:+ quoted schema +:+ ": ").

(** The rows of a file are loaded into an empty table only. *)
Definition load_file_step (t : InternalTableData) : step := fun w =>
  if decide (td_file t = EmptyString) then Ret (w, None)
  else match StorageCount (CountAllStmt (td_table t)) w with
       | (w, inl err) => Ret (w, Some ("failed to count rows in internal table " +:+ quoted (it_Name (td_table t)) +:+ ": " +:+ err))
       | (w, inr count) =>
           if negb (count =? 0) then Ret (w, None)
           else match TempFile ("initial-data-" +:+ it_Name (td_table t) +:+ ".csv") (td_file t) w with
                | (w, inl err) => Ret (w, Some err)
                | (w, inr path) =>
                    exec_step ("COPY " +:+ QualifiedName (td_table t) +:+ " FROM '" +:+ path +:+ "' (DELIMITER ',', HEADER)") []
                      ("failed to insert initial data from file into internal table " +:+ quoted (it_Name (td_table t)) +:+ ": ") w
                end
       end.

Definition upsert_step (t : InternalTable) (row : list string) : step := fun w =>
  stmt ← UpsertStmt t; exec_step stmt row ("failed to insert initial data into internal table " +:+ quoted (it_Name t) +:+ ": ") w.

Definition table_step (t : InternalTableData) : step :=
  steps ([create_schema_step (it_Schema (td_table t));
          exec_step ("CREATE TABLE IF NOT EXISTS " +:+ QualifiedName (td_table t) +:+ "(" +:+ DDL (td_table t) +:+ ")") [] ("failed to create internal table " +:+ quoted (it_Name (td_table t)) +:+ ": ")]
         ++ map (upsert_step (td_table t)) (td_rows t) ++ [load_file_step t]).

Definition view_step (v : InternalViewData) : step :=
  steps [create_schema_step (iv_Schema v);
         exec_step ("CREATE VIEW IF NOT EXISTS " +:+ iv_Schema v +:+ "." +:+ iv_Name v +:+ " AS " +:+ iv_DDL v) [] ("failed to create internal view " +:+ quoted (iv_Name v) +:+ ": ")].

Definition macro_step (m : InternalMacroData) : step :=
  steps [create_schema_step (im_Schema m); exec_step (macro_text m) [] ("failed to create internal macro " +:+ quoted (im_Name m) +:+ ": ")].

Definition initCatalog (prov : DatabaseProvider) : step :=
  let o := objects prov in
  steps (map create_schema_step (o_schemas o) ++ map table_step (o_tables o) ++ map view_step (o_views o) ++ map macro_step (o_macros o)
         ++ [fatal_step "PRAGMA enable_checkpoint_on_shutdown"]
         ++ (if decide (defaultTimeZone prov = EmptyString) then [] else [fatal_step ("SET TimeZone = '" +:+ defaultTimeZone prov +:+ "'")])
         ++ [fatal_step "CREATE SCHEMA IF NOT EXISTS public"]).

(** ** Catalogs *)
Definition is_memory (name : string) : bool := bool_decide (name = EmptyString) || bool_decide (name = "memory").
Definition catalog_file (prov : DatabaseProvider) (name : string) : string := filepath_Join (dataDir prov) (name +:+ ".db").

(** [os.IsExist] and [os.IsNotExist]; no error is neither. *)
Definition IsExist (err : option FileError) : bool := match err with Some FileExist => true | _ => false end.
Definition IsNotExist (err : option FileError) : bool := match err with Some FileNotExist => true | _ => false end.

Definition HasCatalog (prov : DatabaseProvider) (name : string) (w : pw) : bool :=
  let name := strings_TrimSpace name in
  if is_memory name then true else IsExist (Stat (catalog_file prov name) w).

Definition has_suffix (suffix s : string) : bool :=
  (String.length suffix <=? String.length s)%nat
  && bool_decide (String.substring (String.length s - String.length suffix) (String.length suffix) s = suffix).
Definition trim_suffix (suffix s : string) : string :=
  if has_suffix suffix s then String.substring 0 (String.length s - String.length suffix) s else s.

Definition AttachCatalog (prov : DatabaseProvider) (file : string * bool) (ignoreNonDB : bool) (w : pw) : pw * option string :=
  let '(fname, is_dir) := file in
  if (is_dir : bool) then (w, if ignoreNonDB then None else Some ("file " +:+ fname +:+ " is a directory"))
  else if negb (has_suffix ".db" fname) then (w, if ignoreNonDB then None else Some ("file " +:+ fname +:+ " is not a database file"))
  else
    let name := trim_suffix ".db" fname in
    let '(w, err) := StorageExec ("ATTACH IF NOT EXISTS '" +:+ filepath_Join (dataDir prov) fname +:+ "' AS " +:+ name) [] w in
    (w, match err with Some err => Some ("failed to attach database " +:+ name +:+ ": " +:+ err) | None => None end).

(** A file that cannot be attached is logged and skipped. *)
Definition attachCatalogs (prov : DatabaseProvider) (w : pw) : pw * option string :=
  match ReadDir (dataDir prov) w with
  | inl err => (w, Some ("failed to read data directory: " +:+ err))
  | inr files => (foldl (fun w f => fst (AttachCatalog prov f true w)) w files, None)
  end.

Definition attach_text (prov : DatabaseProvider) (name : string) (ifNotExists : bool) : string :=
  "ATTACH" +:+ (if ifNotExists then " IF NOT EXISTS" else EmptyString) +:+ " '" +:+ catalog_file prov name +:+ "' AS " +:+ name.

(** The deferred USE runs whatever [initCatalog] returns; its error is logged. *)
Definition CreateCatalog (prov : DatabaseProvider) (name : string) (ifNotExists : bool) (w : pw) : outcome (pw * option string) :=
  let name := strings_TrimSpace name in
  if is_memory name then Ret (w, None)
  else
    let shouldInit := IsNotExist (Stat (catalog_file prov name) w) in
    match StorageExec (attach_text prov name ifNotExists) [] w with
    | (w, Some err) => Ret (w, Some err)
    | (w, None) =>
        if negb shouldInit then Ret (w, None)
        else match StorageQuery "SELECT current_catalog" w with
             | (w, inl err) => Ret (w, Some ("failed to init catalog: " +:+ err))
             | (w, inr rows) =>
                 let lastCatalog := List.last rows EmptyString in
                 match StorageExec ("USE " +:+ name) [] w with
                 | (w, Some err) => Ret (w, Some ("failed to switch to the new catalog: " +:+ err))
                 | (w, None) =>
                     '(w, err) ← initCatalog prov w;
                     Ret (fst (StorageExec ("USE " +:+ lastCatalog) [] w), err)
                 end
             end
    end.

Definition DropCatalog (prov : DatabaseProvider) (name : string) (ifExists : bool) (w : pw) : pw * option string :=
  let name := strings_TrimSpace name in
  if is_memory name then (w, Some "cannot drop the in-memory catalog")
  else
    let dsn := catalog_file prov name in
    if IsNotExist (Stat dsn w) then (w, if ifExists then None else Some ("database file " +:+ dsn +:+ " does not exist"))
    else match StorageExec ("DETACH " +:+ name) [] w with
         | (w, Some err) => (w, Some ("failed to detach catalog " +:+ err))
         | (w, None) =>
             let '(w, err) := Remove dsn w in
             (w, match err with Some err => Some ("failed to delete database file " +:+ dsn +:+ ": " +:+ err) | None => None end)
         end.

(** ** Starting, closing and restarting *)
Definition boot_queries (memoryLimit : string) : list string :=
  ["INSTALL arrow"; "LOAD arrow"; "INSTALL icu"; "LOAD icu"; "INSTALL postgres_scanner"; "LOAD postgres_scanner"]
  ++ (if decide (memoryLimit = EmptyString) then [] else ["SET memory_limit = '" +:+ memoryLimit +:+ "'"]).

(** A failed boot query closes what was opened. *)
Definition boot_step (q : string) : step := fun w =>
  match StorageExec q [] w with
  | (w, Some err) => Ret (ConnectorClose (fst (StorageClose w)), Some ("failed to execute boot query " +:+ quoted q +:+ ": " +:+ err))
  | (w, None) => Ret (w, None)
  end.

Definition new_provider (o : InternalObjects) (config : DatabaseProviderConfig) (ready : bool) : DatabaseProvider :=
  if is_memory (DefaultDB config)
  then mkProvider (DataDir config) (DefaultTimeZone config) o "memory" EmptyString EmptyString ready
  else let file := DefaultDB config +:+ ".db" in
       mkProvider (DataDir config) (DefaultTimeZone config) o (DefaultDB config) file (filepath_Join (DataDir config) file) ready.

Definition NewDBProvider (o : InternalObjects) (config : DatabaseProviderConfig) (w : pw) : outcome (pw * (string + DatabaseProvider)) :=
  let prov := new_provider o config false in
  match OpenDB (dsn prov) w with
  | inl err => Ret (w, inl err)
  | inr w =>
      '(w, err) ← steps (map boot_step (boot_queries (MemoryLimit config))
                         ++ [initCatalog prov; fun w => Ret (attachCatalogs prov w)]) (NewConnectionPool w);
      Ret (w, match err with Some err => inl err | None => inr (new_provider o config true) end)
  end.

(** The error of the CHECKPOINT is logged; the connector is closed last. *)
Definition Close (w : pw) : pw * option string :=
  let w := fst (StorageExec "CHECKPOINT" [] w) in
  let '(w, err) := StorageClose w in (ConnectorClose w, err).

Definition readOnlySuffix : string := "?access_mode=read_only".

Definition Restart (prov : DatabaseProvider) (readOnly : bool) (w : pw) : pw * option string :=
  match Close w with
  | (w, Some err) => (w, Some err)
  | (w, None) =>
      match OpenDB (dsn prov +:+ (if readOnly then readOnlySuffix else EmptyString)) w with
      | inl err => (w, Some err)
      | inr w => PoolReset w
      end
  end.
End Providers.

(** ** Databases of the current catalog *)
Section Schemas.
Context `{CatalogDB}.

Definition schemas_query : string := "SELECT DISTINCT schema_name FROM information_schema.schemata WHERE catalog_name = ?".
Definition schema_query : string := schemas_query +:+ " AND schema_name ILIKE ?".

Definition hidden_schema (name : string) : bool := bool_decide (name ∈ ["information_schema"; "pg_catalog"; "__sys__"; "mysql"]).

(** [sort.Slice] by name: any sorted permutation; here by insertion. *)
Definition string_le (a b : string) : bool := match String.compare a b with Gt => false | _ => true end.
Fixpoint insert_sorted (x : string) (l : list string) : list string :=
  match l with [] => [x] | y :: l' => if string_le x y then x :: l else y :: insert_sorted x l' end.
Definition sort_strings (l : list string) : list string := foldr insert_sorted [] l.

Definition scan_name (row : list Cell) : option string := match row with [c] => scan_string c | _ => None end.

(** Errors are panics; the error that ends the rows is not looked at. *)
Definition AllDatabases (catalogName : string) (w : cdb) : outcome (cdb * list Database) :=
  match QueryCatalog schemas_query [catalogName] w with
  | (_, inl _) => Panic
  | (w, inr (rows, _)) =>
      names ← match mapM scan_name rows with Some l => Ret l | None => Panic end;
      Ret (w, map (mkDatabase catalogName) (sort_strings (List.filter (fun n => negb (hidden_schema n)) names)))
  end.

Definition hasDatabase (catalog name : string) (w : cdb) : cdb * (CatalogError + bool) :=
  match QueryCatalog schema_query [catalog; name] w with
  | (w, inl err) => (w, inl (ErrDuckDB err))
  | (w, inr (rows, _)) => (w, inr (negb (bool_decide (rows = []))))
  end.

Definition Database_named (catalogName name : string) (w : cdb) : cdb * (CatalogError + Database) :=
  match hasDatabase catalogName name w with
  | (w, inl err) => (w, inl err)
  | (w, inr true) => (w, inr (mkDatabase catalogName name))
  | (w, inr false) => (w, inl (ErrDatabaseNotFound name))
  end.

Definition HasDatabase (catalogName name : string) (w : cdb) : outcome (cdb * bool) :=
  match hasDatabase catalogName name w with (_, inl _) => Panic | (w, inr b) => Ret (w, b) end.

Definition CreateDatabase (catalogName name : string) (w : cdb) : cdb * option CatalogError :=
  match ExecCatalog ("CREATE SCHEMA " +:+ FullSchemaName catalogName name) w with
  | (w, inl err) => (w, Some (ErrDuckDB err)) | (w, inr _) => (w, None)
  end.
Definition DropDatabase (catalogName name : string) (w : cdb) : cdb * option CatalogError :=
  match Exec ("DROP SCHEMA " +:+ FullSchemaName catalogName name +:+ " CASCADE") w with
  | (w, inl err) => (w, Some (ErrDuckDB err)) | (w, inr _) => (w, None)
  end.
End Schemas.
