(* ===== verification/Controller.v ===== *)
(** * The replica controller (src/binlogreplication/binlog_replica_controller.go)

    START, STOP and RESET REPLICA, CHANGE REPLICATION SOURCE and FILTER, SHOW
    REPLICA STATUS and the automatic start, with what they keep on disk
    (binlog_metadata_persistence.go), how the applier connects to its source
    and finds the position to resume from (binlog_replica_applier.go,
    binlog_position_store.go).  The filters are objects the controller and the applier point to,
    so they are addresses into a heap.  The applier's goroutines and the calls
    that wait for them are part of the state; [cstep] interleaves them. *)

From S2P Require Import Prelude GoTime Charset Schema Identifier CatalogErrors Delta Filtering InternalTables GoJson Session Regexp SqlText Provider.
From stdpp Require Import gmap strings.
#[local] Open Scope Z_scope.

(** ** What the controller keeps *)
(** [mysql_db.ReplicaSourceInfo]. *)
Record ReplicaSourceInfo : Type := mkSource {
  si_Host : string; si_User : string; si_Password : string; si_Port : Z; si_Uuid : string;
  si_ConnectRetryInterval : Z; si_ConnectRetryCount : Z; si_SourceLogFile : string; si_SourceLogPos : Z
}.
Record ReplicaUser : Type := mkUser { u_IsSuperUser : bool; u_Locked : bool }.

Inductive IoState : Type := ReplicaIoNotRunning | ReplicaIoConnecting | ReplicaIoRunning.
Inductive SqlState : Type := ReplicaSqlNotRunning | ReplicaSqlRunning.
(** The three fields the status has for each kind of error. *)
Record LastError : Type := mkLastError { e_Number : Z; e_Message : string; e_Timestamp : option Z }.
Definition no_error : LastError := mkLastError 0 EmptyString None.

(** [binlogreplication.ReplicaStatus]. *)
Record ReplicaStatus : Type := mkStatus {
  SourceHost : string; SourceUser : string; SourcePort : Z; SourceLogFile : string; SourceLogPos : Z;
  SourceServerUuid : string; SourceServerId : string; ConnectRetry : Z; SourceRetryCount : Z; AutoPosition : bool;
  IoRunning : IoState; SqlRunning : SqlState; LastIo : LastError; LastSql : LastError;
  ExecutedGtidSet : string; RetrievedGtidSet : string; ReplicateDoTables : list string; ReplicateIgnoreTables : list string
}.
Definition set_running (io : IoState) (sql : SqlState) (s : ReplicaStatus) : ReplicaStatus :=
  mkStatus (SourceHost s) (SourceUser s) (SourcePort s) (SourceLogFile s) (SourceLogPos s) (SourceServerUuid s) (SourceServerId s) (ConnectRetry s) (SourceRetryCount s)
    (AutoPosition s) io sql (LastIo s) (LastSql s) (ExecutedGtidSet s) (RetrievedGtidSet s) (ReplicateDoTables s) (ReplicateIgnoreTables s).
Definition set_errors (io sql : LastError) (s : ReplicaStatus) : ReplicaStatus :=
  mkStatus (SourceHost s) (SourceUser s) (SourcePort s) (SourceLogFile s) (SourceLogPos s) (SourceServerUuid s) (SourceServerId s) (ConnectRetry s) (SourceRetryCount s)
    (AutoPosition s) (IoRunning s) (SqlRunning s) io sql (ExecutedGtidSet s) (RetrievedGtidSet s) (ReplicateDoTables s) (ReplicateIgnoreTables s).
Definition set_server_id (id : string) (s : ReplicaStatus) : ReplicaStatus :=
  mkStatus (SourceHost s) (SourceUser s) (SourcePort s) (SourceLogFile s) (SourceLogPos s) (SourceServerUuid s) id (ConnectRetry s) (SourceRetryCount s)
    (AutoPosition s) (IoRunning s) (SqlRunning s) (LastIo s) (LastSql s) (ExecutedGtidSet s) (RetrievedGtidSet s) (ReplicateDoTables s) (ReplicateIgnoreTables s).
Definition set_log_file (f : string) (s : ReplicaStatus) : ReplicaStatus :=
  mkStatus (SourceHost s) (SourceUser s) (SourcePort s) f (SourceLogPos s) (SourceServerUuid s) (SourceServerId s) (ConnectRetry s) (SourceRetryCount s)
    (AutoPosition s) (IoRunning s) (SqlRunning s) (LastIo s) (LastSql s) (ExecutedGtidSet s) (RetrievedGtidSet s) (ReplicateDoTables s) (ReplicateIgnoreTables s).

(** A goroutine of [Go]: not scheduled yet, inside [replicaBinlogEventHandler],
    returned from it. *)
Inductive Routine : Type := Spawned | Handling | Leaving.

(** [filters] and [applier_filters] are addresses of [heap]; [waiting] counts the
    calls of [StopReplica] that send on the channel of the applier; [position] is the
    applier's, [None] when it is zero. *)
Record Controller : Type := mkController {
  status : ReplicaStatus; filters : nat; applier_filters : nat; heap : gmap nat filterConfiguration;
  has_ctx : bool; client : option string; running : bool; routines : list Routine; waiting : nat; position : option string
}.
Definition set_status (s : ReplicaStatus) (c : Controller) : Controller :=
  mkController s (filters c) (applier_filters c) (heap c) (has_ctx c) (client c) (running c) (routines c) (waiting c) (position c).
Definition set_filters (a : nat) (h : gmap nat filterConfiguration) (c : Controller) : Controller :=
  mkController (status c) a (applier_filters c) h (has_ctx c) (client c) (running c) (routines c) (waiting c) (position c).
Definition set_client (u : option string) (c : Controller) : Controller :=
  mkController (status c) (filters c) (applier_filters c) (heap c) (has_ctx c) u (running c) (routines c) (waiting c) (position c).
Definition set_routines (r : bool) (l : list Routine) (c : Controller) : Controller :=
  mkController (status c) (filters c) (applier_filters c) (heap c) (has_ctx c) (client c) r l (waiting c) (position c).
Definition set_waiting (n : nat) (c : Controller) : Controller :=
  mkController (status c) (filters c) (applier_filters c) (heap c) (has_ctx c) (client c) (running c) (routines c) n (position c).
Definition set_context (c : Controller) : Controller :=
  mkController (status c) (filters c) (applier_filters c) (heap c) true (client c) (running c) (routines c) (waiting c) (position c).
Definition SetExecutionContext : Controller -> Controller := set_context.

Definition newMyBinlogReplicaController : Controller :=
  mkController
    (mkStatus EmptyString EmptyString 0 EmptyString 0 EmptyString EmptyString 60 86400 true ReplicaIoNotRunning ReplicaSqlNotRunning
       no_error no_error EmptyString EmptyString [] [])
    0 0 {[0%nat := newFilterConfiguration]} false None false [] 0 None.

(** The filters behind an address. *)
Definition deref (a : nat) (c : Controller) : filterConfiguration := default newFilterConfiguration (heap c !! a).
(** What the applier asks before it reads the rows of an event. *)
Definition applier_filters_out (c : Controller) (database name : string) : bool :=
  isTableFilteredOut (Some (deref (applier_filters c) c)) database name.

Inductive CtlError : Type :=
| ErrServerId (err : string) | ErrServerNotConfiguredAsReplica | ErrEmptyHostname | ErrEmptyUsername | ErrNoContext
| ErrLoadUser | ErrPersist (err : string) | ErrOptionType (option expected : string) | ErrAutoPosition
| ErrUnknownOption (option : string) | ErrUnsupportedFilter (option : string) | ErrFilter (err : FilterError) | ErrResetRunning
| ErrReplicationStopped | ErrConnect (err : string) | ErrFile (err : string).

(** ** The outside: the mysql database of go-mysql-server, files, variables *)
Inductive StatResult : Type := StatNotExist | StatError (err : string) | StatFile | StatDir.
Inductive SysValue : Type := SysUint32 (z : Z) | SysString (s : string) | SysOther.

Class ReplicaEnv : Type := {
  rw : Type;
  NewReplicaSourceInfo : ReplicaSourceInfo;
  GetReplicaSourceInfo : rw -> option ReplicaSourceInfo;
  PutReplicaSourceInfo : ReplicaSourceInfo -> rw -> rw;
  RemoveReplicaSourceInfo : rw -> rw;
  Persist : rw -> rw * option string;
  GetUser : string -> rw -> option ReplicaUser;
  AddSuperUser : string -> rw -> rw;
  PutUser : string -> ReplicaUser -> rw -> rw;
  DataDir : string;
  Abs : string -> string + string;
  StatPath : string -> rw -> StatResult;
  MkdirAll : string -> rw -> rw * option string;
  CreateFile : string -> rw -> rw * option string;
  RemoveFile : string -> rw -> rw * option string;
  GetGlobal : string -> rw -> option SysValue;
  ConvertServerId : SysValue -> string + SysValue     (* the type of server_id *)
}.

(** ** Source options *)
Inductive OptionValue : Type := OptString (s : string) | OptInt (z : Z) | OptTables (l : list UnresolvedTable).
Record ReplicationOption : Type := mkOption { o_Name : string; o_Value : OptionValue }.

Definition getOptionValueAsString (o : ReplicationOption) : CtlError + string :=
  match o_Value o with OptString s => inr s | _ => inl (ErrOptionType (o_Name o) "a string") end.
Definition getOptionValueAsInt (o : ReplicationOption) : CtlError + Z :=
  match o_Value o with OptInt z => inr z | _ => inl (ErrOptionType (o_Name o) "an integer") end.
Definition getOptionValueAsTableNames (o : ReplicationOption) : CtlError + list UnresolvedTable :=
  match o_Value o with OptTables l => inr l | _ => inl (ErrOptionType (o_Name o) "a list of tables") end.
Definition getOptionValueAsDatabaseNames (o : ReplicationOption) : CtlError + list string :=
  match o_Value o with OptTables l => inr (map urt_name l) | _ => inl (ErrOptionType (o_Name o) "a list of databases") end.

Definition set_Host v (i : ReplicaSourceInfo) := mkSource v (si_User i) (si_Password i) (si_Port i) (si_Uuid i) (si_ConnectRetryInterval i) (si_ConnectRetryCount i) (si_SourceLogFile i) (si_SourceLogPos i).
Definition set_User v (i : ReplicaSourceInfo) := mkSource (si_Host i) v (si_Password i) (si_Port i) (si_Uuid i) (si_ConnectRetryInterval i) (si_ConnectRetryCount i) (si_SourceLogFile i) (si_SourceLogPos i).
Definition set_Password v (i : ReplicaSourceInfo) := mkSource (si_Host i) (si_User i) v (si_Port i) (si_Uuid i) (si_ConnectRetryInterval i) (si_ConnectRetryCount i) (si_SourceLogFile i) (si_SourceLogPos i).
Definition set_Port v (i : ReplicaSourceInfo) := mkSource (si_Host i) (si_User i) (si_Password i) v (si_Uuid i) (si_ConnectRetryInterval i) (si_ConnectRetryCount i) (si_SourceLogFile i) (si_SourceLogPos i).
Definition set_Uuid v (i : ReplicaSourceInfo) := mkSource (si_Host i) (si_User i) (si_Password i) (si_Port i) v (si_ConnectRetryInterval i) (si_ConnectRetryCount i) (si_SourceLogFile i) (si_SourceLogPos i).
Definition set_ConnectRetryInterval v (i : ReplicaSourceInfo) := mkSource (si_Host i) (si_User i) (si_Password i) (si_Port i) (si_Uuid i) v (si_ConnectRetryCount i) (si_SourceLogFile i) (si_SourceLogPos i).
Definition set_ConnectRetryCount v (i : ReplicaSourceInfo) := mkSource (si_Host i) (si_User i) (si_Password i) (si_Port i) (si_Uuid i) (si_ConnectRetryInterval i) v (si_SourceLogFile i) (si_SourceLogPos i).
Definition set_SourceLogFile v (i : ReplicaSourceInfo) := mkSource (si_Host i) (si_User i) (si_Password i) (si_Port i) (si_Uuid i) (si_ConnectRetryInterval i) (si_ConnectRetryCount i) v (si_SourceLogPos i).
Definition set_SourceLogPos v (i : ReplicaSourceInfo) := mkSource (si_Host i) (si_User i) (si_Password i) (si_Port i) (si_Uuid i) (si_ConnectRetryInterval i) (si_ConnectRetryCount i) (si_SourceLogFile i) v.

Definition map_right {E A B} (f : A -> B) (r : E + A) : E + B := match r with inl e => inl e | inr a => inr (f a) end.

(** One option of CHANGE REPLICATION SOURCE; integers are cut to the width of their field. *)
Definition source_option (o : ReplicationOption) (i : ReplicaSourceInfo) : CtlError + ReplicaSourceInfo :=
  let name := strings_ToUpper (o_Name o) in
  let str set := map_right (fun v => set v i) (getOptionValueAsString o) in
  let int set := map_right (fun v : Z => set v i) (getOptionValueAsInt o) in
  if decide (name = "SOURCE_HOST") then str set_Host
  else if decide (name = "SOURCE_USER") then str set_User
  else if decide (name = "SOURCE_PASSWORD") then str set_Password
  else if decide (name = "SOURCE_PORT") then int (fun v => set_Port (u16 v))
  else if decide (name = "SOURCE_CONNECT_RETRY") then int (fun v => set_ConnectRetryInterval (u32 v))
  else if decide (name = "SOURCE_RETRY_COUNT") then int (fun v => set_ConnectRetryCount (u64 v))
  else if decide (name = "SOURCE_LOG_FILE") then str set_SourceLogFile
  else if decide (name = "SOURCE_LOG_POS") then int (fun v => set_SourceLogPos (u64 v))
  else if decide (name = "SOURCE_AUTO_POSITION") then
    match getOptionValueAsInt o with inl e => inl e | inr v => if v <? 1 then inl ErrAutoPosition else inr i end
  else inl (ErrUnknownOption (o_Name o)).

Fixpoint source_options (l : list ReplicationOption) (i : ReplicaSourceInfo) : CtlError + ReplicaSourceInfo :=
  match l with [] => inr i | o :: l => match source_option o i with inl e => inl e | inr i => source_options l i end end.

(** One option of CHANGE REPLICATION FILTER, on the object the controller points to. *)
Definition filter_option (o : ReplicationOption) (fc : filterConfiguration) : filterConfiguration * option CtlError :=
  let name := strings_ToUpper (o_Name o) in
  let databases set := match getOptionValueAsDatabaseNames o with inl e => (fc, Some e) | inr l => (set l fc, None) end in
  let tables (set : list UnresolvedTable -> filterConfiguration -> filterConfiguration * option FilterError) :=
    match getOptionValueAsTableNames o with
    | inl e => (fc, Some e)
    | inr l => let '(fc, err) := set l fc in (fc, option_map ErrFilter err)
    end in
  if decide (name = "REPLICATE_DO_DB") then databases setDoDatabases
  else if decide (name = "REPLICATE_IGNORE_DB") then databases setIgnoreDatabases
  else if decide (name = "REPLICATE_DO_TABLE") then tables setDoTables
  else if decide (name = "REPLICATE_IGNORE_TABLE") then tables setIgnoreTables
  else (fc, Some (ErrUnsupportedFilter (o_Name o))).

(** An error leaves what the options before it did. *)
Fixpoint filter_options (l : list ReplicationOption) (fc : filterConfiguration) : filterConfiguration * option CtlError :=
  match l with
  | [] => (fc, None)
  | o :: l => match filter_option o fc with (fc, Some e) => (fc, Some e) | (fc, None) => filter_options l fc end
  end.

Definition SetReplicationFilterOptions (options : list ReplicationOption) (c : Controller) : Controller * option CtlError :=
  let '(fc, err) := filter_options options (deref (filters c) c) in
  (set_filters (filters c) (<[filters c := fc]> (heap c)) c, err).

(** ** The status *)
Definition updateStatus (f : ReplicaStatus -> ReplicaStatus) (c : Controller) : Controller := set_status (f (status c)) c.

(** [message[:256]] of a longer message. *)
Definition truncated (message : string) : string :=
  if (256 <? String.length message)%nat then String.substring 0 256 message else message.
Definition setIoError (now errno : Z) (message : string) : Controller -> Controller :=
  updateStatus (fun s => set_errors (mkLastError errno (truncated message) (Some now)) (LastSql s) s).
Definition setSqlError (now errno : Z) (message : string) : Controller -> Controller :=
  updateStatus (fun s => set_errors (LastIo s) (mkLastError errno (truncated message) (Some now)) s).
Definition setSourceServerID (serverID : Z) : Controller -> Controller := updateStatus (set_server_id (FormatInt serverID)).

Definition changeSourceLogFileToInvalidIfEmpty (s : ReplicaStatus) : ReplicaStatus :=
  if decide (SourceLogFile s = EmptyString) then set_log_file "INVALID" s else s.

Definition ERFatalReplicaError : Z := 13117.
Definition ERNetReadError : Z := 1158.
Definition ERUnknownError : Z := 1105.
Definition empty_hostname : string :=
  "fatal error: Invalid (empty) hostname when attempting to connect to the source server. Connection attempt terminated".
Definition empty_username : string :=
  "fatal error: Invalid (empty) username when attempting to connect to the source server. Connection attempt terminated".
Definition not_configured : string := "server is not configured as a replica; fix with CHANGE REPLICATION SOURCE TO".
Definition binlogApplierUser : string := "my-binlog-applier".

Section Operations.
Context `{ReplicaEnv}.

(** ** On disk *)
Definition loadReplicationConfiguration (w : rw) : option ReplicaSourceInfo := GetReplicaSourceInfo w.
Definition persistReplicationConfiguration (i : ReplicaSourceInfo) (w : rw) : rw * option string := Persist (PutReplicaSourceInfo i w).
Definition deleteReplicationConfiguration (w : rw) : rw * option string := Persist (RemoveReplicaSourceInfo w).
(** Nil is dereferenced when there is no configuration. *)
Definition persistSourceUuid (uuid : string) (w : rw) : outcome (rw * option string) :=
  match loadReplicationConfiguration w with
  | None => Panic
  | Some i => Ret (persistReplicationConfiguration (set_Uuid uuid i) w)
  end.

Definition SetReplicationSourceOptions (options : list ReplicationOption) (w : rw) : rw * option CtlError :=
  match source_options options (default NewReplicaSourceInfo (loadReplicationConfiguration w)) with
  | inl e => (w, Some e)
  | inr i => let '(w, err) := persistReplicationConfiguration i w in (w, option_map ErrPersist err)
  end.

Inductive replicaRunningState : Type := running_state | not_running_state.
Definition binlogPositionDirectory : string := ".replica".
Definition replicaRunningFilename : string := "replica-running".
Definition running_path : string := filepath_Join (filepath_Join DataDir binlogPositionDirectory) replicaRunningFilename.

Definition loadReplicationRunningState (w : rw) : string + replicaRunningState :=
  match Abs running_path with
  | inl err => inl err
  | inr path => match StatPath path w with StatNotExist => inr not_running_state | StatError err => inl err | _ => inr running_state end
  end.

Definition createReplicaDir (w : rw) : rw * (string + string) :=
  let dir := filepath_Join DataDir binlogPositionDirectory in
  match StatPath dir w with
  | StatNotExist =>
      match MkdirAll dir w with
      | (w, Some err) => (w, inl ("unable to save binlog metadata: " +:+ err))
      | (w, None) => (w, inr dir)
      end
  | StatError err => (w, inl err)
  | StatFile => (w, inl ("unable to save binlog metadata: " +:+ binlogPositionDirectory +:+ " exists as a file, not a dir"))
  | StatDir => (w, inr dir)
  end.

Definition createEmptyFile (path : string) (w : rw) : rw * option string :=
  match StatPath path w with StatNotExist => CreateFile path w | StatError err => (w, Some err) | _ => (w, None) end.

Definition persistReplicaRunningState (state : replicaRunningState) (w : rw) : rw * option string :=
  match createReplicaDir w with
  | (w, inl err) => (w, Some err)
  | (w, inr dir) =>
      match Abs (filepath_Join dir replicaRunningFilename) with
      | inl err => (w, Some err)
      | inr path =>
          match state with
          | running_state => createEmptyFile path w
          | not_running_state => match StatPath path w with StatNotExist => (w, None) | StatError err => (w, Some err) | _ => RemoveFile path w end
          end
      end
  end.

(** ** Starting *)
Definition invalid_server_id : string :=
  "invalid server ID configured for @@GLOBAL.server_id (0); must be an integer greater than zero and less than 4,294,967,296".
Definition loadReplicaServerId (w : rw) : string + Z :=
  match GetGlobal "server_id" w with
  | None => inl "no server_id global system variable set"
  | Some value =>
      match (match value with SysUint32 _ => inr value | _ => ConvertServerId value end) with
      | inl err => inl err
      | inr (SysUint32 z) => if z =? 0 then inl invalid_server_id else inr z
      | inr _ => inl invalid_server_id
      end
  end.

Definition configureReplicationUser (w : rw) : rw * option CtlError :=
  match GetUser binlogApplierUser w with
  | None =>
      let w := AddSuperUser binlogApplierUser w in
      match GetUser binlogApplierUser w with
      | None => (w, Some ErrLoadUser)
      | Some u => (PutUser binlogApplierUser (mkUser (u_IsSuperUser u) true) w, None)
      end
  | Some u => if u_IsSuperUser u && u_Locked u then (w, None) else (PutUser binlogApplierUser (mkUser true true) w, None)
  end.

(** [Go] of the applier: the flag is set by the goroutine, not by the caller. *)
Definition applier_Go (c : Controller) : Controller := set_routines (running c) (routines c ++ [Spawned]) c.

Definition StartReplica (now : Z) (c : Controller) (w : rw) : Controller * rw * option CtlError :=
  if running c then (c, w, None)
  else match loadReplicaServerId w with
  | inl err => (c, w, Some (ErrServerId ("unable to start replication: " +:+ err)))
  | inr _ =>
      match loadReplicationConfiguration w with
      | None => (c, w, Some ErrServerNotConfiguredAsReplica)
      | Some i =>
          if decide (si_Host i = EmptyString) then (setIoError now ERFatalReplicaError empty_hostname c, w, Some ErrEmptyHostname)
          else if decide (si_User i = EmptyString) then (setIoError now ERFatalReplicaError empty_username c, w, Some ErrEmptyUsername)
          else if negb (has_ctx c) then (c, w, Some ErrNoContext)
          else match configureReplicationUser w with
          | (w, Some e) => (c, w, Some e)
          | (w, None) =>
              let c := applier_Go (set_client (Some binlogApplierUser) c) in
              (c, fst (persistReplicaRunningState running_state w), None)
          end
      end
  end.

Definition AutoStart (now : Z) (c : Controller) (w : rw) : Controller * rw * option CtlError :=
  match loadReplicationRunningState w with
  | inl err => (c, w, Some (ErrFile err))
  | inr not_running_state => (c, w, None)
  | inr running_state => StartReplica now c w
  end.

(** ** Stopping: the test, and what follows once the signal was received *)
Definition stop_finish (c : Controller) (w : rw) : Controller * rw :=
  (updateStatus (set_running ReplicaIoNotRunning ReplicaSqlNotRunning) c, fst (persistReplicaRunningState not_running_state w)).

Definition ResetReplica (resetAll : bool) (c : Controller) (w : rw) : Controller * rw * option CtlError :=
  if running c then (c, w, Some ErrResetRunning)
  else
    let c := updateStatus (set_errors no_error no_error) c in
    if negb resetAll then (c, w, None)
    else match deleteReplicationConfiguration w with
         | (w, Some err) => (c, w, Some (ErrPersist err))
         | (w, None) =>
             let a := fresh (dom (heap c)) in
             (set_filters a (<[a := newFilterConfiguration]> (heap c)) c, w, None)
         end.

Definition GetReplicaStatus (c : Controller) (w : rw) : ReplicaStatus :=
  let s := status c in
  match loadReplicationConfiguration w with
  | None => changeSourceLogFileToInvalidIfEmpty s
  | Some i =>
      let fc := deref (filters c) c in
      let executed := match position c with Some p => p | None => ExecutedGtidSet s end in
      let retrieved := match position c with Some p => p | None => RetrievedGtidSet s end in
      changeSourceLogFileToInvalidIfEmpty
        (mkStatus (si_Host i) (si_User i) (si_Port i) (si_SourceLogFile i) (si_SourceLogPos i) (si_Uuid i) (SourceServerId s)
           (si_ConnectRetryInterval i) (si_ConnectRetryCount i) (AutoPosition s) (IoRunning s) (SqlRunning s) (LastIo s) (LastSql s)
           executed retrieved (getDoTables fc) (getIgnoreTables fc))
  end.
End Operations.

(** ** Connecting to the source (binlog_replica_applier.go) *)

(** The network, by the number of the attempt: the connection and the queries of the
    probe (a query gives the first cell of each row), [Connect] with a flavor fails with an error,
    [StopSignal]: a stop arrives during the wait that follows.  [ToBool] is that of a
    value of Vitess. *)
Class SourceNetwork : Type := {
  ProbeConnect : Z -> option string;
  ProbeQuery : Z -> string -> string + list string;
  ToBool : string -> option bool;
  Connect : Z -> string -> option string;
  StopSignal : Z -> bool
}.

Definition fold_equal (a b : string) : bool := bool_decide (strings_ToUpper a = strings_ToUpper b).

(** MariaDB, GTID mode and the error of a probe. *)
Definition detectVersionAndGTIDMode `{SourceNetwork} (attempt : Z) : bool * bool * option string :=
  match ProbeConnect attempt with
  | Some err => (false, false, Some err)
  | None =>
      match ProbeQuery attempt "SELECT VERSION()" with
      | inl err => (false, false, Some ("failed to check MySQL version: " +:+ err))
      | inr [] => (false, false, Some "no rows returned when checking MySQL version")
      | inr (version :: _) =>
          let mariaDB := strings_Contains version "MariaDB" in
          let '(query, name) := if mariaDB then ("SELECT @@GLOBAL.GTID_STRICT_MODE", "GTID_STRICT_MODE") else ("SELECT @@GLOBAL.GTID_MODE", "GTID_MODE") in
          match ProbeQuery attempt query with
          | inl err => (mariaDB, false, Some ("failed to check " +:+ name +:+ ": " +:+ err))
          | inr [] => (mariaDB, false, Some "no rows returned when checking GTID_MODE")
          | inr (value :: _) =>
              (mariaDB, match ToBool value with Some b => b | None => fold_equal value "ON" || bool_decide (value = "1") end, None)
          end
      end
  end.

Definition FilePosFlavorID : string := "FilePos".
Definition MariadbFlavorID : string := "MariaDB".
Definition Mysql56FlavorID : string := "MySQL56".
Definition flavor_of (mariaDB gtidMode : bool) : string :=
  if negb gtidMode then FilePosFlavorID else if mariaDB then MariadbFlavorID else Mysql56FlavorID.

Inductive Connection : Type :=
| Connected (attempt : Z) (gtidMode : bool) (flavor : string)
| ConnectFailed (err : CtlError)
| OutOfFuel.

Section Connecting.
Context `{ReplicaEnv} `{SourceNetwork}.

(** One attempt: [None] is to try again. *)
Definition connect_once (now maxAttempts attempt : Z) (c : Controller) (w : rw) : Controller * option Connection :=
  match loadReplicationConfiguration w with
  | None => (setIoError now ERFatalReplicaError not_configured c, Some (ConnectFailed ErrServerNotConfiguredAsReplica))
  | Some i =>
      if decide (si_Host i = EmptyString) then (setIoError now ERFatalReplicaError empty_hostname c, Some (ConnectFailed ErrEmptyHostname))
      else if decide (si_User i = EmptyString) then (setIoError now ERFatalReplicaError empty_username c, Some (ConnectFailed ErrEmptyUsername))
      else
        let '(mariaDB, gtidMode, err) := detectVersionAndGTIDMode attempt in
        match err, maxAttempts <=? attempt with
        | Some err, true => (c, Some (ConnectFailed (ErrConnect err)))
        | _, last =>
            let flavorName := flavor_of mariaDB gtidMode in
            (c, match Connect attempt flavorName with
                | None => Some (Connected attempt gtidMode flavorName)
                | Some err =>
                    if last : bool then Some (ConnectFailed (ErrConnect err))
                    else if StopSignal attempt then Some (ConnectFailed ErrReplicationStopped) else None
                end)
        end
  end.

Fixpoint connect_loop (fuel : nat) (now maxAttempts attempt : Z) (c : Controller) (w : rw) : Controller * Connection :=
  match fuel with
  | O => (c, OutOfFuel)
  | S fuel =>
      match connect_once now maxAttempts attempt c w with
      | (c, Some r) => (c, r)
      | (c, None) => connect_loop fuel now maxAttempts (attempt + 1) c w
      end
  end.

End Connecting.

(** ** The position to resume from *)
Class PositionLib : Type := {
  Pos : Type;
  ParsePosition : string -> string -> string + Pos;   (* flavor, text *)
  Pos_IsZero : Pos -> bool;
  Pos_zero : Pos;
  first_gtid : Pos;                                    (* the set of the GTID with sequence 1 of the zero server *)
  FilePosGTID : string -> Z -> Pos;
  FilePos_File : Pos -> option string;                 (* the file of a position that is a FilePosGTID *)
  GTIDSet_String : Pos -> string
}.

Definition trim_prefix (p s : string) : string := if String.prefix p s then drop_string (String.length p) s else s.

Section Positions.
Context `{ReplicaEnv} `{HD : DuckDB} `{HS : !Session} `{PositionLib}.

Definition Load (flavor : string) (w : db) : outcome (db * (string + Pos)) :=
  stmt ← SelectStmt BinlogPosition;
  '(w, row) ← QueryRowCatalog stmt [ArgString EmptyString] w;
  Ret (w, match row with
          | ErrNoRows => inr Pos_zero
          | RowErr => inl "unable to load binlog position"
          | RowString positionString => ParsePosition flavor (trim_prefix "MySQL56/" positionString)
          end).

Definition Delete (w : db) : outcome (db * bool) :=
  stmt ← DeleteStmt BinlogPosition; Ret (ExecCatalogInTxn stmt [ArgString EmptyString] w).

(** The stored position, else the one of gtid_purged, else the very first. *)
Definition loadGtidPosition (flavor : string) (gtid_purged : option SysValue) (w : db) : outcome (db * (string + Pos)) :=
  '(w, r) ← Load flavor w;
  Ret (w, match r with
          | inl err => inl err
          | inr position =>
              match (if Pos_IsZero position then
                       match gtid_purged with
                       | Some (SysString purged) => ParsePosition flavor (trim_prefix "+" purged)
                       | _ => inr position
                       end
                     else inr position) with
              | inl err => inl err
              | inr position => inr (if Pos_IsZero position then first_gtid else position)
              end
          end).

(** Without a stored position, the file and position of the configuration, cut to 32 bits. *)
Definition loadLogFilePosition (flavor : string) (r : rw) (w : db) : outcome (db * (string + Pos)) :=
  '(w, p) ← Load flavor w;
  match p with
  | inl err => Ret (w, inl err)
  | inr position =>
      if negb (Pos_IsZero position) then Ret (w, inr position)
      else match loadReplicationConfiguration r with
           | None => Panic
           | Some i => Ret (w, inr (FilePosGTID (si_SourceLogFile i) (u32 (si_SourceLogPos i))))
           end
  end.

(** The commands on the connection: the error of the checksum handshake and of the
    binlog dump (server id, file, position); [SetExecuted] assigns gtid_executed, whose
    error is only logged. *)
Class DumpLib : Type := {
  ChecksumHandshake : option string;
  SendBinlogDumpCommand : Z -> string -> Pos -> option string;
  SetExecuted : string -> rw -> rw
}.
Context `{!DumpLib}.

(** The position it starts from, which becomes the current and the pending one; what
    it resets in the applier is [start_stream] of Applier.v. *)
Definition startReplicationEventStream (gtidMode : bool) (flavor : string) (r : rw) (w : db) : outcome (rw * db * (string + Pos)) :=
  match loadReplicaServerId r with
  | inl err => Ret (r, w, inl err)
  | inr serverId =>
      let purged := GetGlobal "gtid_purged" r in
      '(w, p) ← (if gtidMode then loadGtidPosition flavor purged w else loadLogFilePosition flavor r w);
      Ret (match p with
           | inl err => (r, w, inl err)
           | inr position =>
               let r := if gtidMode then SetExecuted (GTIDSet_String position) r else r in
               (r, w, match ChecksumHandshake with
                      | Some err => inl err
                      | None =>
                          match SendBinlogDumpCommand serverId (default EmptyString (FilePos_File position)) position with
                          | Some err => inl err
                          | None => inr position
                          end
                      end)
           end)
  end.

(** The number of attempts and the delay are those of the controller's status. *)
Definition connectAndStartReplicationEventStream `{SourceNetwork} (fuel : nat) (now : Z) (c : Controller) (r : rw) (w : db)
    : outcome (Controller * rw * db * (Connection + Pos)) :=
  let c := updateStatus (set_running ReplicaIoConnecting ReplicaSqlRunning) c in
  match connect_loop fuel now (SourceRetryCount (status c)) 0 c r with
  | (c, Connected attempt gtidMode flavor) =>
      '(r, w, p) ← startReplicationEventStream gtidMode flavor r w;
      Ret (match p with
           | inl err => (c, r, w, inl (ConnectFailed (ErrConnect err)))
           | inr position => (updateStatus (fun s => set_running ReplicaIoRunning (SqlRunning s) s) c, r, w, inr position)
           end)
  | (c, failed) => Ret (c, r, w, inl failed)
  end.
End Positions.

(** ** Interleavings *)
Section Steps.
Context `{ReplicaEnv}.

(** The operations under the mutex are atomic; [StopReplica] tests the flag,
    waits until a goroutine receives its signal, and then goes on; a goroutine
    sets the flag when it is scheduled, writes the source's uuid to the stored configuration while
    its handler runs, and clears the flag after the handler returned. *)
Inductive cstep : Controller * rw -> Controller * rw -> Prop :=
| step_start now c w c' w' e : StartReplica now c w = (c', w', e) -> cstep (c, w) (c', w')
| step_reset all c w c' w' e : ResetReplica all c w = (c', w', e) -> cstep (c, w) (c', w')
| step_source options c w w' e : SetReplicationSourceOptions options w = (w', e) -> cstep (c, w) (c, w')
| step_filter options c w c' e : SetReplicationFilterOptions options c = (c', e) -> cstep (c, w) (c', w)
| step_stop c w : running c = true -> cstep (c, w) (set_waiting (S (waiting c)) c, w)
| step_signal i n c w c' w' : waiting c = S n -> routines c !! i = Some Handling ->
    stop_finish (set_routines (running c) (<[i := Leaving]> (routines c)) (set_waiting n c)) w = (c', w') -> cstep (c, w) (c', w')
| step_begin i c w : routines c !! i = Some Spawned -> cstep (c, w) (set_routines true (<[i := Handling]> (routines c)) c, w)
| step_return i c w : routines c !! i = Some Handling -> cstep (c, w) (set_routines (running c) (<[i := Leaving]> (routines c)) c, w)
| step_end i now e c w : routines c !! i = Some Leaving ->
    cstep (c, w) (match e with Some m => setSqlError now ERUnknownError m | None => id end (set_routines false (delete i (routines c)) c), w)
| step_status io sql c w : cstep (c, w) (updateStatus (set_running io sql) c, w)
| step_io_error now errno m c w : cstep (c, w) (setIoError now errno m c, w)
| step_uuid i uuid c w w' e : routines c !! i = Some Handling -> persistSourceUuid uuid w = Ret (w', e) -> cstep (c, w) (c, w').
End Steps.

(** ** The event producer (src/binlogreplication/binlog_replica_event_producer.go)

    The goroutine that reads events from the connection and hands them to the
    applier over unbuffered channels, as a step relation: the goroutine, the
    consumer that receives, and [Stop].  The connection is the list of what its
    reads give. *)

Section Producer.
Context {Event Err : Type}.

(** What [ReadBinlogEvent] gives: sent on [errorChan] or on [eventChan]. *)
Definition msg : Type := (Err + Event)%type.

(** Where the goroutine is: at the test of the loop, in the read, after it, blocked on a
    channel, returned (both channels closed). *)
Inductive Pc : Type := AtLoop | Reading | HasRead (m : msg) | Sending (m : msg) | Returned.

(** [attached]: the consumer still selects on the channels. *)
Record binlogEventProducer : Type := mkProducer {
  p_running : bool; pc : Pc; conn : list msg; received : list msg; attached : bool
}.

Definition newBinlogEventProducer (c : list msg) : binlogEventProducer := mkProducer true AtLoop c [] true.
Definition IsRunning : binlogEventProducer -> bool := p_running.
Definition goto (q : Pc) (p : binlogEventProducer) : binlogEventProducer := mkProducer (p_running p) q (conn p) (received p) (attached p).
(** [replicaBinlogEventHandler] drops a producer it has stopped. *)
Definition Stop_producer (p : binlogEventProducer) : binlogEventProducer := mkProducer false (pc p) (conn p) (received p) false.

(** The body of the goroutine, up to the next point where it can block. *)
Definition go_step (p : binlogEventProducer) : option binlogEventProducer :=
  match pc p with
  | AtLoop => Some (goto (if IsRunning p then Reading else Returned) p)
  | Reading =>
      match conn p with
      | m :: rest => Some (mkProducer (p_running p) (HasRead m) rest (received p) (attached p))
      | [] => None
      end
  | HasRead m => Some (goto (if IsRunning p then Sending m else Returned) p)
  | Sending _ | Returned => None
  end.

Inductive pstep : binlogEventProducer -> binlogEventProducer -> Prop :=
| producer_go p p' : go_step p = Some p' -> pstep p p'
| producer_receive p m : pc p = Sending m -> attached p = true ->
    pstep p (mkProducer (p_running p) AtLoop (conn p) (received p ++ [m]) (attached p))
| producer_stop p : pstep p (Stop_producer p).

(** ** What the consumer sees *)
Definition in_hand (p : binlogEventProducer) : list msg := match pc p with HasRead m | Sending m => [m] | _ => [] end.

(** While it runs nothing is lost or reordered; once it was stopped, at most the one in its hands is. *)
Definition delivers (all : list msg) (p : binlogEventProducer) : Prop :=
  attached p = p_running p /\ (p_running p = true -> pc p <> Returned) /\
  (exists lost, all = received p ++ lost ++ conn p /\ (length lost <= 1)%nat /\ (pc p = Returned \/ lost = in_hand p)).

Lemma delivers_step all p p' : pstep p p' -> delivers all p -> delivers all p'.
Proof.
  intros Hs (Ha & Hr & lost & El & Hl & Hh). destruct Hs as [p p' E|p m E Ea|p].
  - unfold go_step, IsRunning in E. unfold delivers, in_hand in *. destruct (pc p) as [| |m|m|] eqn:Ep; [ | | | discriminate | discriminate ].
    + destruct Hh as [? | ->]; [discriminate|]. injection E as <-. cbn. destruct (p_running p); (split; [exact Ha|split; [intros; discriminate|]]);
        exists []; cbn; auto.
    + destruct Hh as [? | ->]; [discriminate|]. destruct (conn p) as [|m rest] eqn:Ec; [discriminate|]. injection E as <-. cbn.
      split; [exact Ha|]. split; [intros; discriminate|]. exists [m]. cbn. auto.
    + destruct Hh as [? | ->]; [discriminate|]. injection E as <-. cbn. destruct (p_running p); (split; [exact Ha|split; [intros; discriminate|]]);
        exists [m]; cbn; auto.
  - unfold delivers, in_hand in *. rewrite E in Hh. destruct Hh as [? | ->]; [discriminate|]. cbn. split; [exact Ha|]. split; [intros; discriminate|].
    exists []. cbn. rewrite <- app_assoc. split; [exact El|]. split; [lia|]. right. reflexivity.
  - unfold delivers, in_hand, Stop_producer in *. cbn. split; [reflexivity|]. split; [discriminate|]. exists lost. auto.
Qed.

Lemma delivers_steps all p : rtc pstep (newBinlogEventProducer all) p -> delivers all p.
Proof.
  intros Hr. remember (newBinlogEventProducer all) as p0 eqn:E. assert (H0 : delivers all p0).
  { subst. split; [reflexivity|]. split; [discriminate|]. exists []. cbn. auto. }
  clear E. induction Hr as [|p1 p2 p3 H12 _ IH]; [exact H0|]. apply IH. eapply delivers_step; eassumption.
Qed.

(** The consumer receives what was read, in order, and a consumer that still selects
    never sees a closed channel. *)
Lemma producer_delivers all p : rtc pstep (newBinlogEventProducer all) p ->
  received p `prefix_of` all /\ (attached p = true -> pc p <> Returned).
Proof.
  intros Hr. destruct (delivers_steps _ _ Hr) as (Ha & Hn & lost & El & _ & _). split; [|rewrite Ha; exact Hn].
  exists (lost ++ conn p). exact El.
Qed.

(** A producer that was stopped while it was sending is blocked for ever: the
    goroutine never ends and never closes its channels. *)
Lemma stopped_sender_blocks m p p' : pc p = Sending m -> rtc pstep (Stop_producer p) p' -> pc p' = Sending m.
Proof.
  intros Ep Hr. enough (Hgen : forall q, rtc pstep q p' -> pc q = Sending m /\ attached q = false -> pc p' = Sending m).
  { apply (Hgen _ Hr). split; [exact Ep|reflexivity]. }
  clear. intros q Hr. induction Hr as [|p1 p2 p3 H12 _ IH]; [tauto|]. intros [E1 E2]. apply IH. destruct H12 as [p p' E|p m' E Ea|p].
  - unfold go_step in E. rewrite E1 in E. discriminate.
  - congruence.
  - auto.
Qed.
End Producer.
Arguments binlogEventProducer : clear implicits.

(** ** Claims about the replica controller

    What the state machine of START, STOP and RESET REPLICA keeps, and where
    interleavings and shared objects break it. *)

Section Machine.
Context `{ReplicaEnv}.

(** ** The operations, field by field *)
Lemma StartReplica_effect now c w c' w' e : StartReplica now c w = (c', w', e) ->
  filters c' = filters c /\ applier_filters c' = applier_filters c /\ heap c' = heap c /\ running c' = running c /\ waiting c' = waiting c
  /\ (routines c' = routines c \/ (running c = false /\ routines c' = routines c ++ [Spawned])).
Proof.
  unfold StartReplica. intros E. destruct (running c) eqn:Er; [injection E as <- _ _; auto 10|].
  repeat (case_match; simplify_eq; cbn; auto 10).
Qed.

Lemma StartReplica_status now c w c' w' e : StartReplica now c w = (c', w', e) ->
  SourceRetryCount (status c') = SourceRetryCount (status c) /\ ConnectRetry (status c') = ConnectRetry (status c).
Proof. unfold StartReplica. intros E. repeat (case_match; simplify_eq; cbn; auto). Qed.

Lemma ResetReplica_effect all c w c' w' e : ResetReplica all c w = (c', w', e) ->
  applier_filters c' = applier_filters c /\ running c' = running c /\ waiting c' = waiting c /\ routines c' = routines c
  /\ (filters c' = filters c /\ heap c' = heap c
      \/ exists a, heap c !! a = None /\ filters c' = a /\ heap c' = <[a := newFilterConfiguration]> (heap c)).
Proof.
  unfold ResetReplica. intros E. destruct (running c) eqn:Er; [injection E as <- _ _; auto 10|]. destruct all; cbn in E; [|injection E as <- _ _; cbn; auto 10].
  destruct (deleteReplicationConfiguration w) as [w1 [err|]]; injection E as <- _ _; cbn; [auto 10|]. repeat split; auto.
  right. eexists. split; [|split; reflexivity]. apply not_elem_of_dom, is_fresh.
Qed.

Lemma ResetReplica_status all c w c' w' e : ResetReplica all c w = (c', w', e) ->
  SourceRetryCount (status c') = SourceRetryCount (status c) /\ ConnectRetry (status c') = ConnectRetry (status c).
Proof. unfold ResetReplica. intros E. repeat (case_match; simplify_eq; cbn; auto). Qed.

(** ** The filters of the applier *)

(** The controller has filters of its own, and the applier's are what they were. *)
Definition detached (fc : filterConfiguration) (c : Controller) : Prop :=
  heap c !! applier_filters c = Some fc /\ filters c <> applier_filters c.

Lemma detached_step fc s s' : cstep s s' -> detached fc s.1 -> detached fc s'.1.
Proof.
  unfold detached. intros Hs [Hh Hn]. destruct Hs as [now c w c' w' e E|all c w c' w' e E|options c w w' e E|options c w c' e E|c w E|i n c w c' w' E1 E2 E3|i c w E|i c w E|i now e c w E|io sql c w|now errno m c w|i uuid c w w1 e E1 E2];
    cbn [fst] in *; try (split; assumption).
  - destruct (StartReplica_effect _ _ _ _ _ _ E) as (-> & -> & -> & _). auto.
  - destruct (ResetReplica_effect _ _ _ _ _ _ E) as (-> & _ & _ & _ & [[-> ->]|(a & Ha & -> & ->)]); [auto|].
    assert (a <> applier_filters c) by (intros ->; congruence). split; [rewrite lookup_insert_ne by assumption; exact Hh | assumption].
  - unfold SetReplicationFilterOptions in E. destruct (filter_options _ _) as [fc' err]. injection E as <- _. cbn.
    split; [rewrite lookup_insert_ne by exact Hn; exact Hh | exact Hn].
  - unfold stop_finish in E3. injection E3 as <- _. cbn. auto.
  - destruct e; cbn; auto.
Qed.

Lemma detached_steps fc s s' : rtc cstep s s' -> detached fc s.1 -> detached fc s'.1.
Proof. induction 1 as [|s1 s2 s3 H12 _ IH]; [auto|]. intros Hd. apply IH. eapply detached_step; eassumption. Qed.

(** C29: after RESET REPLICA ALL the applier keeps the filters it had, for
    good: the controller makes itself a new filter object and the applier goes on pointing to the old one, so that
    whatever happens afterwards (CHANGE REPLICATION FILTER, further resets, starts
    and stops), the tables the applier leaves out are those it left out before the reset. *)
Theorem reset_all_detaches_filters (c c1 c2 : Controller) (w w1 w2 : rw) :
  is_Some (heap c !! applier_filters c) ->
  ResetReplica true c w = (c1, w1, None) -> rtc cstep (c1, w1) (c2, w2) ->
  forall database name, applier_filters_out c2 database name = applier_filters_out c database name.
Proof.
  intros [fc Hfc] E Hr database name. unfold applier_filters_out, deref. rewrite Hfc.
  assert (Hd : detached fc c1).
  { unfold ResetReplica in E. destruct (running c); [discriminate|]. cbn in E.
    destruct (deleteReplicationConfiguration w) as [w' [err|]]; [discriminate|]. injection E as <- _. unfold detached. cbn.
    assert (Hne : fresh (dom (heap c)) <> applier_filters c).
    { intros Ef. apply (is_fresh (dom (heap c))). rewrite Ef. apply elem_of_dom. eauto. }
    split; [rewrite lookup_insert_ne by exact Hne; exact Hfc | exact Hne]. }
  destruct (detached_steps fc _ _ Hr Hd) as [Hh _]. cbn in Hh. rewrite Hh. reflexivity.
Qed.

(** ** One applier at a time *)

(** START REPLICA only starts a goroutine once the one before was scheduled. *)
Definition calm (s s' : Controller * rw) : Prop :=
  cstep s s' /\ (routines s'.1 = routines s.1 ++ [Spawned] -> Spawned ∉ routines s.1).

(** At most one goroutine, and the flag is set while its handler runs. *)
Definition one_applier (c : Controller) : Prop :=
  match routines c with
  | [] | [Spawned] => running c = false
  | [Handling] | [Leaving] => running c = true
  | _ => False
  end.

Lemma one_applier_frame c c' : routines c' = routines c -> running c' = running c -> one_applier c -> one_applier c'.
Proof. unfold one_applier. intros -> ->. auto. Qed.

Lemma one_applier_at c i r : one_applier c -> routines c !! i = Some r -> i = 0%nat /\ routines c = [r].
Proof.
  unfold one_applier. destruct (routines c) as [|x [|y l]]; [discriminate| |destruct x; contradiction].
  intros _. destruct i as [|i]; [intros [= ->]; auto | discriminate].
Qed.

Lemma one_applier_step s s' : calm s s' -> one_applier s.1 -> one_applier s'.1.
Proof.
  intros [Hs Hcalm] Hi. destruct Hs as [now c w c' w' e E|all c w c' w' e E|options c w w' e E|options c w c' e E|c w E|i n c w c' w' E1 E2 E3|i c w E|i c w E|i now e c w E|io sql c w|now errno m c w|i uuid c w w1 e E1 E2];
    cbn [fst] in *; try exact Hi.
  - destruct (StartReplica_effect _ _ _ _ _ _ E) as (_ & _ & _ & Hr & _ & [El|[Hf El]]); [eapply one_applier_frame; eassumption|].
    specialize (Hcalm El). unfold one_applier in *. rewrite El, Hr. destruct (routines c) as [|x [|y l]]; [exact Hf| |destruct x; contradiction].
    destruct x; [set_solver | congruence | congruence].
  - destruct (ResetReplica_effect _ _ _ _ _ _ E) as (_ & Hr & _ & El & _). eapply one_applier_frame; eassumption.
  - unfold SetReplicationFilterOptions in E. destruct (filter_options _ _). injection E as <- _. exact Hi.
  - destruct (one_applier_at _ _ _ Hi E2) as [-> El]. unfold stop_finish in E3. injection E3 as <- _. unfold one_applier in *. cbn. rewrite El in *. exact Hi.
  - destruct (one_applier_at _ _ _ Hi E) as [-> El]. unfold one_applier in *. cbn. rewrite El. reflexivity.
  - destruct (one_applier_at _ _ _ Hi E) as [-> El]. unfold one_applier in *. cbn. rewrite El in *. exact Hi.
  - destruct (one_applier_at _ _ _ Hi E) as [-> El]. unfold one_applier. destruct e; cbn; rewrite El; reflexivity.
Qed.

(** C28: When every START REPLICA that starts a goroutine comes after the goroutine before
    it was scheduled, there is never more than one applier, however the commands, the
    goroutine and its own writes interleave.  The flag is set exactly from the moment the
    goroutine begins until it ends after its handler has returned; during all of that time
    START does nothing and RESET refuses, and before and after it RESET does not refuse. *)
Theorem one_applier_at_a_time (c : Controller) (w w0 : rw) :
  rtc calm (SetExecutionContext newMyBinlogReplicaController, w0) (c, w) ->
  (length (routines c) <= 1)%nat
  /\ (running c = true <-> (routines c = [Handling] \/ routines c = [Leaving]))
  /\ (Handling ∈ routines c \/ Leaving ∈ routines c -> (forall now, StartReplica now c w = (c, w, None)) /\ forall all, ResetReplica all c w = (c, w, Some ErrResetRunning))
  /\ (Handling ∉ routines c -> Leaving ∉ routines c -> forall all, snd (ResetReplica all c w) <> Some ErrResetRunning).
Proof.
  intros Hr. assert (Hi : one_applier c).
  { change (one_applier (c, w).1). remember (SetExecutionContext newMyBinlogReplicaController, w0) as s0 eqn:E0.
    assert (H0 : one_applier s0.1) by (subst; reflexivity). clear E0. revert H0. induction Hr as [|s1 s2 s3 H12 _ IH]; [auto|].
    intros H1. apply IH. eapply one_applier_step; eassumption. }
  assert (Hf : running c = true <-> (routines c = [Handling] \/ routines c = [Leaving])).
  { unfold one_applier in Hi. destruct (routines c) as [|x [|y l]]; [| |destruct x; contradiction]; [split; [congruence | intros [E|E]; discriminate]|].
    destruct x; split; auto; intros E; [congruence | destruct E; discriminate]. }
  split; [unfold one_applier in Hi; destruct (routines c) as [|x [|y l]]; [cbn; lia | cbn; lia | destruct x; contradiction]|]. split; [exact Hf|]. split.
  - intros Hin. assert (Hrun : running c = true).
    { apply Hf. unfold one_applier in Hi. destruct (routines c) as [|x [|y l]]; [set_solver| |destruct x; contradiction]. destruct x; [set_solver | auto | auto]. }
    split; intros; [unfold StartReplica | unfold ResetReplica]; rewrite Hrun; reflexivity.
  - intros H1 H2 all. unfold ResetReplica. destruct (running c); [destruct (proj1 Hf eq_refl) as [E|E]; rewrite E in *; set_solver|]. repeat case_match; cbn; congruence.
Qed.
End Machine.

(** ** Where it breaks *)
Section Races.
Context `{ReplicaEnv}.

(** Two START REPLICA before the first goroutine is scheduled start two
    appliers, since the flag is set by the goroutine: both handlers run, and when
    the first one returns the flag is cleared while the other still applies
    events, so that STOP REPLICA takes the replica for stopped. *)
Theorem two_starts_two_appliers now (c c1 c2 : Controller) (w w1 w2 : rw) :
  routines c = [] -> running c = false ->
  StartReplica now c w = (c1, w1, None) -> StartReplica now c1 w1 = (c2, w2, None) ->
  routines c2 = [Spawned; Spawned] /\
  exists c3, rtc cstep (c, w) (c3, w2) /\ routines c3 = [Handling] /\ running c3 = false.
Proof.
  intros El Er E1 E2.
  assert (Hs : forall c c' w w', running c = false -> StartReplica now c w = (c', w', None) -> routines c' = routines c ++ [Spawned] /\ running c' = false).
  { clear. intros c c' w w' Er E. unfold StartReplica in E. rewrite Er in E. repeat (case_match; simplify_eq; cbn; auto). }
  destruct (Hs _ _ _ _ Er E1) as [L1 R1]. destruct (Hs _ _ _ _ R1 E2) as [L2 R2]. rewrite El in L1. rewrite L1 in L2. cbn in L2.
  split; [exact L2|].
  pose (ca := set_routines true [Handling; Spawned] c2). pose (cb := set_routines true [Handling; Handling] ca).
  pose (cc := set_routines true [Leaving; Handling] cb). exists (set_routines false [Handling] cc). split; [|split; reflexivity].
  eapply rtc_l; [exact (step_start _ _ _ _ _ _ E1)|]. eapply rtc_l; [exact (step_start _ _ _ _ _ _ E2)|].
  eapply rtc_l; [apply (step_begin 0); rewrite L2; reflexivity|]. rewrite L2. eapply rtc_l; [apply (step_begin 1); reflexivity|].
  eapply rtc_l; [apply (step_return 0); reflexivity|]. apply rtc_once. apply (step_end 0 now None cc w2). reflexivity.
Qed.

(** A STOP that saw the flag of an applier that then ended by itself waits until
    another one is started. *)
Lemma stop_waits s s' : cstep s s' -> routines s.1 = [] -> (waiting s.1 <= waiting s'.1)%nat /\ (routines s'.1 = [] \/ routines s'.1 = [Spawned]).
Proof.
  intros Hs Hl. destruct Hs as [now c w c' w' e E|all c w c' w' e E|options c w w' e E|options c w c' e E|c w E|i n c w c' w' E1 E2 E3|i c w E|i c w E|i now e c w E|io sql c w|now errno m c w|i uuid c w w1 e E1 E2];
    cbn [fst] in *; try (split; [cbn; lia | left; exact Hl]).
  - destruct (StartReplica_effect _ _ _ _ _ _ E) as (_ & _ & _ & _ & Hw & [El|[_ El]]); rewrite El, Hw, Hl; auto.
  - destruct (ResetReplica_effect _ _ _ _ _ _ E) as (_ & _ & Hw & El & _). rewrite El, Hw. auto.
  - unfold SetReplicationFilterOptions in E. destruct (filter_options _ _). injection E as <- _. auto.
  - rewrite Hl in E2. discriminate.
  - rewrite Hl in E. discriminate.
  - rewrite Hl in E. discriminate.
  - rewrite Hl in E. discriminate.
Qed.

(** The attempts and the delay are never those of CHANGE REPLICATION SOURCE. *)
Lemma retry_settings_fixed c w w0 : rtc cstep (newMyBinlogReplicaController, w0) (c, w) ->
  SourceRetryCount (status c) = 86400 /\ ConnectRetry (status c) = 60.
Proof.
  intros Hr. change (c) with ((c, w).1). remember (newMyBinlogReplicaController, w0) as s0 eqn:E0.
  assert (H0 : SourceRetryCount (status s0.1) = 86400 /\ ConnectRetry (status s0.1) = 60) by (subst; split; reflexivity).
  clear E0. revert H0. induction Hr as [|s1 s2 s3 H12 _ IH]; [auto|]. intros H1. apply IH. clear IH.
  destruct H12 as [now c' w' c'' w'' e E|all c' w' c'' w'' e E|options c' w' w'' e E|options c' w' c'' e E|c' w' E|i n c' w' c'' w'' E1 E2 E3|i c' w' E|i c' w' E|i now e c' w' E|io sql c' w'|now errno m c' w'|i uuid c' w' w'' e E1 E2];
    cbn [fst] in *; try exact H1.
  - destruct (StartReplica_status _ _ _ _ _ _ E) as [-> ->]. exact H1.
  - destruct (ResetReplica_status _ _ _ _ _ _ E) as [-> ->]. exact H1.
  - unfold SetReplicationFilterOptions in E. destruct (filter_options _ _). injection E as <- _. exact H1.
  - unfold stop_finish in E3. injection E3 as <- _. exact H1.
  - destruct e; exact H1.
Qed.

(** ** The running state on disk *)
Class FileLaws : Prop := {
  CreateFile_law : forall path w w', CreateFile path w = (w', None) -> StatPath path w' = StatFile;
  RemoveFile_law : forall path w w', RemoveFile path w = (w', None) -> StatPath path w' = StatNotExist
}.
Context `{!FileLaws}.

(** What was recorded is what the next start of the server reads. *)
Lemma running_state_read_back state w w' : persistReplicaRunningState state w = (w', None) -> loadReplicationRunningState w' = inr state.
Proof.
  unfold persistReplicaRunningState, loadReplicationRunningState, createReplicaDir, running_path. intros E.
  set (dir := filepath_Join DataDir binlogPositionDirectory) in *.
  assert (E' : exists w1, match Abs (filepath_Join dir replicaRunningFilename) with
      | inl err => (w1, Some err)
      | inr path => match state with
          | running_state => createEmptyFile path w1
          | not_running_state => match StatPath path w1 with StatNotExist => (w1, None) | StatError err => (w1, Some err) | _ => RemoveFile path w1 end
          end
      end = (w', None)).
  { destruct (StatPath dir w); [destruct (MkdirAll dir w) as [w1 [err|]]; [discriminate|] | discriminate | discriminate |]; eexists; exact E. }
  clear E. destruct E' as [w1 E]. destruct (Abs _) as [err|path]; [discriminate|]. destruct state.
  - unfold createEmptyFile in E. destruct (StatPath path w1) eqn:Es.
    + rewrite (CreateFile_law _ _ _ E). reflexivity.
    + discriminate.
    + injection E as <-. rewrite Es. reflexivity.
    + injection E as <-. rewrite Es. reflexivity.
  - destruct (StatPath path w1) eqn:Es.
    + injection E as <-. rewrite Es. reflexivity.
    + discriminate.
    + rewrite (RemoveFile_law _ _ _ E). reflexivity.
    + rewrite (RemoveFile_law _ _ _ E). reflexivity.
Qed.

(** So a server that is started again starts the replica exactly when it was running. *)
Lemma auto_start_follows state now c w w' : persistReplicaRunningState state w = (w', None) ->
  AutoStart now c w' = match state with running_state => StartReplica now c w' | not_running_state => (c, w', None) end.
Proof. intros E. unfold AutoStart. rewrite (running_state_read_back _ _ _ E). destruct state; reflexivity. Qed.
End Races.

(** ** Connecting *)
Section ConnectFacts.
Context `{ReplicaEnv} `{SourceNetwork}.

Lemma connect_once_frame now maxAttempts attempt c w c' : connect_once now maxAttempts attempt c w = (c', None) -> attempt < maxAttempts.
Proof.
  unfold connect_once. repeat case_match; intros; simplify_eq;
    repeat match goal with Hx : (_ <=? _) = false |- _ => apply Z.leb_gt in Hx end; try lia; congruence.
Qed.

(** The loop ends after at most [maxAttempts + 1] attempts. *)
Lemma connect_terminates now maxAttempts : forall fuel attempt c w, maxAttempts - attempt < Z.of_nat fuel ->
  0 <= maxAttempts - attempt -> (connect_loop fuel now maxAttempts attempt c w).2 <> OutOfFuel.
Proof.
  induction fuel as [|fuel IH]; intros attempt c w Hf Hm; [lia|]. cbn [connect_loop].
  destruct (connect_once now maxAttempts attempt c w) as [c' [r|]] eqn:E.
  - unfold connect_once in E. cbn. repeat case_match; simplify_eq; discriminate.
  - apply connect_once_frame in E. apply IH; lia.
Qed.

Lemma failed_detection_flags attempt err : (detectVersionAndGTIDMode attempt).2 = Some err -> (detectVersionAndGTIDMode attempt).1.2 = false.
Proof. unfold detectVersionAndGTIDMode. repeat case_match; simplify_eq; cbn; congruence. Qed.

(** A failed detection is followed by a connection without GTIDs, also to a source that has them. *)
Lemma detection_failure_loses_gtid now maxAttempts i err c w : loadReplicationConfiguration w = Some i -> si_Host i <> EmptyString -> si_User i <> EmptyString ->
  0 < maxAttempts -> (detectVersionAndGTIDMode 0).2 = Some err -> Connect 0 FilePosFlavorID = None ->
  connect_once now maxAttempts 0 c w = (c, Some (Connected 0 false FilePosFlavorID)).
Proof.
  intros Ei Hh Hu Hm Ed Ec. unfold connect_once. rewrite Ei, !decide_False by assumption.
  pose proof (failed_detection_flags 0 err Ed) as Eg. destruct (detectVersionAndGTIDMode 0) as [[m g] e]. cbn in Ed, Eg. subst e g.
  destruct (Z.leb_spec maxAttempts 0); [lia|]. change (flavor_of m false) with FilePosFlavorID. rewrite Ec. reflexivity.
Qed.
End ConnectFacts.

(** Numbers are cut to the width of their field. *)
Example port_wraps i : source_option (mkOption "source_port" (OptInt 70000)) i = inr (set_Port 4464 i).
Proof. reflexivity. Qed.

(** ** A concrete replica *)
Record mrw : Type := mkMrw { mr_source : option ReplicaSourceInfo; mr_user : option ReplicaUser; mr_files : list string }.
Definition source0 : ReplicaSourceInfo := mkSource "primary" "repl" "secret" 3306 EmptyString 60 3 EmptyString 0.
#[export] Instance replica_model : ReplicaEnv := {|
  rw := mrw;
  NewReplicaSourceInfo := mkSource EmptyString EmptyString EmptyString 3306 EmptyString 60 86400 EmptyString 0;
  GetReplicaSourceInfo := mr_source;
  PutReplicaSourceInfo := fun i w => mkMrw (Some i) (mr_user w) (mr_files w);
  RemoveReplicaSourceInfo := fun w => mkMrw None (mr_user w) (mr_files w);
  Persist := fun w => (w, None);
  GetUser := fun _ => mr_user;
  AddSuperUser := fun _ w => mkMrw (mr_source w) (Some (mkUser true false)) (mr_files w);
  PutUser := fun _ u w => mkMrw (mr_source w) (Some u) (mr_files w);
  DataDir := "data";
  Abs := inr;
  StatPath := fun p w => if decide (p = "data/.replica") then StatDir else if decide (p ∈ mr_files w) then StatFile else StatNotExist;
  MkdirAll := fun _ w => (w, None);
  CreateFile := fun p w => (mkMrw (mr_source w) (mr_user w) (p :: mr_files w), if decide (p = "data/.replica") then Some "is a directory" else None);
  RemoveFile := fun p w => (mkMrw (mr_source w) (mr_user w) (List.filter (fun q => negb (bool_decide (q = p))) (mr_files w)),
                            if decide (p = "data/.replica") then Some "is a directory" else None);
  GetGlobal := fun _ _ => Some (SysUint32 7);
  ConvertServerId := inr
|}.

#[export] Instance replica_model_laws : FileLaws.
Proof.
  split; intros path w w' E; cbn in E |- *; destruct (decide (path = "data/.replica")) as [|Hn]; try discriminate E; injection E as <-; cbn.
  - rewrite decide_True by left. reflexivity.
  - rewrite decide_False; [reflexivity|]. intros Hi. apply list_elem_of_In, filter_In in Hi. destruct Hi as [_ Hi].
    rewrite bool_decide_eq_true_2 in Hi by reflexivity. discriminate Hi.
Qed.

Definition replica0 : rw := mkMrw (Some source0) None [].
Definition controller0 : Controller := SetExecutionContext newMyBinlogReplicaController.
Definition ignore_logs : list ReplicationOption := [mkOption "replicate_ignore_table" (OptTables [mkUrt "app" "logs"])].
Definition filtered : Controller := fst (SetReplicationFilterOptions ignore_logs controller0).
Definition after_reset : Controller * rw := let '(c, w, _) := ResetReplica true filtered replica0 in (c, w).
Definition ask_app : list ReplicationOption := [mkOption "replicate_do_db" (OptTables [mkUrt EmptyString "app"])].
Definition refiltered : Controller := fst (SetReplicationFilterOptions ask_app (fst after_reset)).

(** The table that was left out is still left out, after a reset and with a filter that asks for its database. *)
Lemma reset_all_detaches_filters_witness :
  applier_filters_out filtered "app" "logs" = true /\ applier_filters_out refiltered "app" "logs" = applier_filters_out filtered "app" "logs".
Proof.
  split; [reflexivity|]. refine (reset_all_detaches_filters filtered (fst after_reset) refiltered replica0 (snd after_reset) (snd after_reset) _ _ _ "app" "logs").
  - eexists. reflexivity.
  - reflexivity.
  - apply rtc_once. apply (step_filter ask_app _ _ _ (snd (SetReplicationFilterOptions ask_app (fst after_reset)))). apply surjective_pairing.
Defined.

Definition started (c : Controller) (w : rw) : Controller * rw := let '(c, w, _) := StartReplica 0 c w in (c, w).
Definition first_start : Controller * rw := started controller0 replica0.
Definition applying : Controller := set_routines true [Handling] (fst first_start).

Lemma one_applier_at_a_time_witness :
  routines applying = [Handling] /\ ResetReplica true applying (snd first_start) = (applying, snd first_start, Some ErrResetRunning).
Proof.
  split; [reflexivity|]. refine (proj2 (proj1 (proj2 (proj2 (one_applier_at_a_time applying (snd first_start) replica0 _))) _) true).
  - apply (rtc_l _ _ (fst first_start, snd first_start)); [split|apply rtc_once; split].
    + apply (step_start 0 _ _ _ _ None). reflexivity.
    + intros _ Hin. inversion Hin.
    + apply (step_begin 0). reflexivity.
    + intros Hx. discriminate Hx.
  - left. left.
Defined.

Lemma two_starts_two_appliers_witness :
  exists c3, rtc cstep (controller0, replica0) (c3, snd (started (fst first_start) (snd first_start))) /\ routines c3 = [Handling] /\ running c3 = false.
Proof.
  refine (proj2 (two_starts_two_appliers 0 controller0 (fst first_start) (fst (started (fst first_start) (snd first_start)))
    replica0 (snd first_start) (snd (started (fst first_start) (snd first_start))) eq_refl eq_refl eq_refl eq_refl)).
Defined.
