(* ===== verification/Inserter.v ===== *)
(** * Inserting rows (src/catalog/inserter.go)

    [rowInserter] collects the rows of an INSERT or REPLACE in a temporary
    table and copies them at the end.  The operations are functions on its
    state and the world; an error is a list of texts, empty when there is none,
    as [errors.Join] makes it.  [RowLaws] gives the statements their meaning on
    the two tables; [insert_statement_cases] is the contract. *)

From S2P Require Import Prelude Identifier Schema GoJson Comment TypeMapping CatalogTable.

(** A value of a row, as far as the code looks at it. *)
Inductive RowVal : Type := RvUint16 (z : Z) | RvString (s : string) | RvOther (token : Z).

Class RowStatements `{CatalogDB} : Type := {
  PStmt : Type;
  Prepare : string -> cdb -> cdb * (string + PStmt);
  StmtExec : PStmt -> list RowVal -> cdb -> cdb * option string;
  StmtClose : PStmt -> cdb -> cdb * option string
}.

Section Inserter.
Context `{SqlTypes} `{RowStatements} `{SchemaLib}.

Record rowInserter : Type := mkInserter {
  ri_db : string; ri_table : string; ri_schema : list SqlColumn; ri_hasPK : bool; ri_replace : bool;
  ri_once : bool; ri_conn : bool; ri_tmpTable : string; ri_stmt : option PStmt; ri_err : list string; ri_flushSQL : string; ri_enums : list nat
}.

Definition set_err (e : list string) (ri : rowInserter) : rowInserter :=
  mkInserter (ri_db ri) (ri_table ri) (ri_schema ri) (ri_hasPK ri) (ri_replace ri) (ri_once ri) (ri_conn ri) (ri_tmpTable ri) (ri_stmt ri) e (ri_flushSQL ri) (ri_enums ri).
Definition set_conn (ri : rowInserter) : rowInserter :=
  mkInserter (ri_db ri) (ri_table ri) (ri_schema ri) (ri_hasPK ri) (ri_replace ri) (ri_once ri) true (ri_tmpTable ri) (ri_stmt ri) (ri_err ri) (ri_flushSQL ri) (ri_enums ri).
Definition set_tmp (s : string) (ri : rowInserter) : rowInserter :=
  mkInserter (ri_db ri) (ri_table ri) (ri_schema ri) (ri_hasPK ri) (ri_replace ri) (ri_once ri) (ri_conn ri) s (ri_stmt ri) (ri_err ri) (ri_flushSQL ri) (ri_enums ri).
Definition set_once (ri : rowInserter) : rowInserter :=
  mkInserter (ri_db ri) (ri_table ri) (ri_schema ri) (ri_hasPK ri) (ri_replace ri) true (ri_conn ri) (ri_tmpTable ri) (ri_stmt ri) (ri_err ri) (ri_flushSQL ri) (ri_enums ri).
Definition set_prepared (s : PStmt) (flush : string) (enums : list nat) (ri : rowInserter) : rowInserter :=
  mkInserter (ri_db ri) (ri_table ri) (ri_schema ri) (ri_hasPK ri) (ri_replace ri) (ri_once ri) (ri_conn ri) (ri_tmpTable ri) (Some s) (ri_err ri) flush enums.

(** [Inserter] and [Replacer] of a table; [IsKeyless] is go-mysql-server's. *)
Definition Inserter_of (t : Table) : rowInserter :=
  mkInserter (d_name (t_db t)) (t_name t) (pks_Schema (t_schema t)) (t_hasPrimaryKey t) false false false EmptyString None [] EmptyString [].
Definition Replacer_of (IsKeyless : list SqlColumn -> bool) (t : Table) : rowInserter :=
  let hasKey := negb (bool_decide (pks_PkOrdinals (t_schema t) = [])) || negb (IsKeyless (pks_Schema (t_schema t))) in
  mkInserter (d_name (t_db t)) (t_name t) (pks_Schema (t_schema t)) (t_hasPrimaryKey t) hasKey false false EmptyString None [] EmptyString [].

(** ** The statements *)
Definition tmp_name (db table : string) (ctxID : Z) : string := db +:+ "_" +:+ table +:+ "_" +:+ FormatInt ctxID.
Definition create_text (tmp db table : string) : string :=
  "CREATE TEMP TABLE IF NOT EXISTS " +:+ QuoteIdentifierANSI tmp +:+ " AS FROM " +:+ ConnectIdentifiersANSI [db; table] +:+ " LIMIT 0".
Definition insert_text (tmp : string) (schema : list SqlColumn) : outcome string :=
  match schema with
  | [] => Panic
  | _ :: rest =>
      Ret ("INSERT INTO " +:+ QuoteIdentifierANSI tmp +:+ " VALUES (" +:+ "?"
           +:+ foldr (fun _ acc => ", ?" +:+ acc) EmptyString rest +:+ ")")
  end.
Definition flush_text (replace : bool) (tmp db table : string) : string :=
  "INSERT " +:+ (if replace then " OR REPLACE" else EmptyString) +:+ " INTO " +:+ ConnectIdentifiersANSI [db; table]
  +:+ " FROM " +:+ QuoteIdentifierANSI tmp.
Definition drop_text (tmp : string) : string := "DROP TABLE IF EXISTS temp.main." +:+ QuoteIdentifierANSI tmp.

Definition enum_columns (schema : list SqlColumn) : list nat :=
  List.filter (fun i => match schema !! i with Some c => match EnumType_attrs (c_Type c) with Some _ => true | None => false end | None => false end)
    (seq 0 (length schema)).

(** ** The operations *)
Definition init (ctxID : Z) (ri : rowInserter) (w : cdb) : outcome (cdb * rowInserter) :=
  let ri := set_tmp (tmp_name (ri_db ri) (ri_table ri) ctxID) ri in
  match GetConn w with
  | inl err => Ret (w, set_err [err] ri)
  | inr w =>
      let ri := set_conn ri in
      match ConnExec (create_text (ri_tmpTable ri) (ri_db ri) (ri_table ri)) w with
      | (w, inl err) => Ret (w, set_err [err] ri)
      | (w, inr _) =>
          insert ← insert_text (ri_tmpTable ri) (ri_schema ri);
          match Prepare insert w with
          | (w, inl err) => Ret (w, set_err [err] ri)
          | (w, inr s) =>
              Ret (w, set_prepared s (flush_text (ri_replace ri && ri_hasPK ri) (ri_tmpTable ri) (ri_db ri) (ri_table ri)) (enum_columns (ri_schema ri)) ri)
          end
      end
  end.

Definition StatementBegin (ctxID : Z) (ri : rowInserter) (w : cdb) : outcome (cdb * rowInserter) :=
  if ri_once ri then Ret (w, ri) else init ctxID (set_once ri) w.

Definition StatementComplete (ri : rowInserter) : list string := ri_err ri.

(** An enum ordinal becomes its text; [inl]: the error of an ordinal the type does not have. *)
Fixpoint convert_enums (schema : list SqlColumn) (enums : list nat) (row : list RowVal) : outcome (string + list RowVal) :=
  match enums with
  | [] => Ret (inr row)
  | i :: enums =>
      v ← assert_some (row !! i);
      match v with
      | RvUint16 idx =>
          c ← assert_some (schema !! i);
          match EnumType_At (c_Type c) idx with
          | Some s => convert_enums schema enums (<[i := RvString s]> row)
          | None => Ret (inl ("invalid enum value " +:+ FormatInt idx +:+ " for column " +:+ c_Name c))
          end
      | _ => convert_enums schema enums row
      end
  end.

(** The second component is the error returned. *)
Definition Insert (row : list RowVal) (ri : rowInserter) (w : cdb) : outcome (cdb * rowInserter * list string) :=
  match ri_err ri with
  | (_ :: _) as err => Ret (w, ri, err)
  | [] =>
      r ← convert_enums (ri_schema ri) (ri_enums ri) row;
      match r with
      | inl err => Ret (w, ri, [err])
      | inr row =>
          s ← assert_some (ri_stmt ri);
          match StmtExec s row w with
          | (w, Some err) => Ret (w, set_err [err] ri, [err])
          | (w, None) => Ret (w, ri, [])
          end
      end
  end.

Definition clear (ri : rowInserter) (w : cdb) : cdb * rowInserter :=
  let '(w, ri) := match ri_stmt ri with
                  | None => (w, ri)
                  | Some s => let '(w, err) := StmtClose s w in (w, set_err (ri_err ri ++ option_list err) ri)
                  end in
  if ri_conn ri then
    match ConnExec (drop_text (ri_tmpTable ri)) w with
    | (w, inl err) => (w, set_err (ri_err ri ++ [err]) ri)
    | (w, inr _) => (w, ri)
    end
  else (w, ri).

Definition DiscardChanges (ri : rowInserter) (w : cdb) : cdb * rowInserter * list string :=
  let '(w, ri) := clear ri w in (w, ri, ri_err ri).

(** The error is read before the deferred [clear]. *)
Definition Close (ri : rowInserter) (w : cdb) : outcome (cdb * rowInserter * list string) :=
  '(w, ri) ← match ri_err ri with
             | _ :: _ => Ret (w, ri)
             | [] =>
                 if negb (ri_conn ri) then Panic
                 else match ConnExec (ri_flushSQL ri) w with
                      | (w, inl err) => Ret (w, set_err [err] ri)
                      | (w, inr _) => Ret (w, ri)
                      end
             end;
  let err := ri_err ri in
  let '(w, ri) := clear ri w in
  Ret (w, ri, err).

(** The rows of a statement, one after the other, until one fails. *)
Fixpoint insert_rows (rows : list (list RowVal)) (ri : rowInserter) (w : cdb) : outcome (cdb * rowInserter * list string) :=
  match rows with
  | [] => Ret (w, ri, [])
  | row :: rows =>
      '(w, ri, err) ← Insert row ri w;
      match err with [] => insert_rows rows ri w | _ => Ret (w, ri, err) end
  end.

(** [Delete] is never called. *)
Definition Delete_error : string := "unexpected call to Delete".
End Inserter.

(** ** The contract *)
Section Contract.
Context `{SqlTypes} `{RowStatements} `{SchemaLib}.

(** What the statements do: [target] are the rows of the table [db.table], [temp]
    those of the temporary table [tmp], [or_replace old new] the outcome of INSERT OR REPLACE;
    [inserts s]: [s] was prepared to insert into the temporary table.  Errors leave both
    tables as they were. *)
Class RowLaws (db table tmp : string) : Type := {
  target : cdb -> list (list RowVal);
  temp : cdb -> option (list (list RowVal));
  or_replace : list (list RowVal) -> list (list RowVal) -> list (list RowVal);
  inserts : PStmt -> Prop;
  GetConn_frame : forall w w', GetConn w = inr w' -> target w' = target w /\ temp w' = temp w;
  create_law : forall w w' n, temp w = None -> ConnExec (create_text tmp db table) w = (w', inr n) ->
    temp w' = Some [] /\ target w' = target w;
  create_error : forall w w' e, ConnExec (create_text tmp db table) w = (w', inl e) -> temp w' = temp w /\ target w' = target w;
  prepare_law : forall schema text w w' r, insert_text tmp schema = Ret text -> Prepare text w = (w', r) ->
    temp w' = temp w /\ target w' = target w /\ forall s, r = inr s -> inserts s;
  insert_law : forall s row rows w w', inserts s -> temp w = Some rows -> StmtExec s row w = (w', None) ->
    temp w' = Some (rows ++ [row]) /\ target w' = target w;
  insert_error : forall s row w w' e, inserts s -> StmtExec s row w = (w', Some e) -> temp w' = temp w /\ target w' = target w;
  flush_law : forall replace rows w w' n, temp w = Some rows -> ConnExec (flush_text replace tmp db table) w = (w', inr n) ->
    target w' = (if replace then or_replace (target w) rows else target w ++ rows);
  flush_error : forall replace w w' e, ConnExec (flush_text replace tmp db table) w = (w', inl e) -> target w' = target w;
  flush_missing : forall replace w, temp w = None -> exists w' e, ConnExec (flush_text replace tmp db table) w = (w', inl e);
  drop_law : forall w w' r, ConnExec (drop_text tmp) w = (w', r) -> target w' = target w /\ (forall n, r = inr n -> temp w' = None);
  close_law : forall s w w' e, inserts s -> StmtClose s w = (w', e) -> target w' = target w /\ temp w' = temp w
}.
Context (db table tmp : string) `{!RowLaws db table tmp}.

(** A whole statement, by the contract of go-mysql-server's [EditOpenerCloser]: it is begun before
    its first row, completed after the last one or, when a row or that call failed, discarded, and closed;
    [closes]: the inserter is closed after a failure too. *)
Definition close_if (closes : bool) (ri : rowInserter) (w : cdb) : outcome (cdb * list string) :=
  if closes then '(w, _, err) ← Close ri w; Ret (w, err) else Ret (w, []).
Definition insert_statement (closes : bool) (ctxID : Z) (rows : list (list RowVal)) (ri : rowInserter) (w : cdb) : outcome (cdb * list string) :=
  '(w, ri) ← StatementBegin ctxID ri w;
  '(w, ri, err) ← insert_rows rows ri w;
  match err with
  | [] =>
      match StatementComplete ri with
      | [] => '(w, _, cerr) ← Close ri w; Ret (w, cerr)
      | err => '(w, cerr) ← close_if closes ri w; Ret (w, err ++ cerr)
      end
  | _ =>
      let '(w, ri, derr) := DiscardChanges ri w in
      '(w, cerr) ← close_if closes ri w; Ret (w, err ++ derr ++ cerr)
  end.

(** The value of a column as it is stored: the ordinal of an ENUM as its text, anything else as it is. *)
Inductive stored_value (c : SqlColumn) : RowVal -> RowVal -> Prop :=
| stored_ordinal idx s : is_Some (EnumType_attrs (c_Type c)) -> EnumType_At (c_Type c) idx = Some s -> stored_value c (RvUint16 idx) (RvString s)
| stored_same v : (is_Some (EnumType_attrs (c_Type c)) -> forall idx, v <> RvUint16 idx) -> stored_value c v v.
Definition stored_row (schema : list SqlColumn) (row row' : list RowVal) : Prop :=
  length row' = length row /\ forall i c v, schema !! i = Some c -> row !! i = Some v -> exists v', row' !! i = Some v' /\ stored_value c v v'.
(** The rows as they are stored. *)
Definition stored (schema : list SqlColumn) : list (list RowVal) -> list (list RowVal) -> Prop := Forall2 (stored_row schema).

(** What the conversion does to each place. *)
Lemma convert_places schema enums : NoDup enums -> forall row row', convert_enums schema enums row = Ret (inr row') ->
  length row' = length row /\ forall i v, row !! i = Some v ->
    match v with
    | RvUint16 idx => if decide (i ∈ enums) then exists c s, schema !! i = Some c /\ EnumType_At (c_Type c) idx = Some s /\ row' !! i = Some (RvString s) else row' !! i = Some v
    | _ => row' !! i = Some v
    end.
Proof.
  induction 1 as [|k enums Hk _ IH]; intros row row' E; cbn [convert_enums] in E.
  { injection E as <-. split; [reflexivity|]. intros i v Hv. destruct v; exact Hv. }
  destruct (row !! k) as [u|] eqn:Eu; [|discriminate]. cbn [assert_some mbind outcome_bind] in E.
  assert (Hskip : (forall idx, u <> RvUint16 idx) -> convert_enums schema enums row = Ret (inr row') -> length row' = length row /\ forall i v, row !! i = Some v ->
    match v with
    | RvUint16 idx => if decide (i ∈ k :: enums) then exists c s, schema !! i = Some c /\ EnumType_At (c_Type c) idx = Some s /\ row' !! i = Some (RvString s) else row' !! i = Some v
    | _ => row' !! i = Some v
    end).
  { intros Hu Ec. destruct (IH row row' Ec) as [Hl Hp]. split; [exact Hl|]. intros i v Hv. specialize (Hp i v Hv). destruct v as [idx|s|z]; try exact Hp.
    assert (i <> k) by (intros ->; rewrite Eu in Hv; injection Hv as ->; apply (Hu idx eq_refl)). destruct (decide (i ∈ enums)), (decide (i ∈ k :: enums)); set_solver. }
  destruct u as [idx|s|z]; [|apply Hskip; [congruence | exact E]..]. clear Hskip.
  destruct (schema !! k) as [c|] eqn:Ec; [|discriminate]. cbn [assert_some mbind outcome_bind] in E. destruct (EnumType_At (c_Type c) idx) as [s|] eqn:Es; [|discriminate].
  destruct (IH _ _ E) as [Hl Hp]. rewrite length_insert in Hl. split; [exact Hl|]. intros i v Hv. destruct (decide (i = k)) as [->|Hik].
  - rewrite Eu in Hv. injection Hv as <-. rewrite decide_True by left. exists c, s. split; [exact Ec|]. split; [exact Es|].
    apply (Hp k (RvString s)). rewrite list_lookup_insert_eq; [reflexivity | eapply lookup_lt_Some, Eu].
  - specialize (Hp i v). rewrite list_lookup_insert_ne in Hp by congruence. specialize (Hp Hv). destruct v as [idx'|s'|z]; try exact Hp.
    destruct (decide (i ∈ enums)), (decide (i ∈ k :: enums)); set_solver.
Qed.

Lemma enum_columns_in schema i c : schema !! i = Some c -> i ∈ enum_columns schema <-> is_Some (EnumType_attrs (c_Type c)).
Proof.
  intros Hc. unfold enum_columns. rewrite list_elem_of_In, filter_In, in_seq, Hc. pose proof (lookup_lt_Some _ _ _ Hc).
  destruct (EnumType_attrs (c_Type c)); split; [eauto | intros _; split; [lia | reflexivity] | intros [_ E]; discriminate | intros [? E]; discriminate].
Qed.
Lemma enum_columns_once schema : NoDup (enum_columns schema).
Proof. unfold enum_columns. apply NoDup_ListNoDup, List.NoDup_filter, seq_NoDup. Qed.

Lemma convert_stored schema row row' : convert_enums schema (enum_columns schema) row = Ret (inr row') -> stored_row schema row row'.
Proof.
  intros E. destruct (convert_places schema _ (enum_columns_once schema) row row' E) as [Hl Hp]. split; [exact Hl|]. intros i c v Hc Hv. specialize (Hp i v Hv).
  destruct v as [idx|s|z]; [|eexists; (split; [exact Hp | constructor; congruence])..]. destruct (decide (i ∈ enum_columns schema)) as [Hi|Hi].
  - destruct Hp as (c' & s & Hc' & Hs & Hr). rewrite Hc in Hc'. injection Hc' as <-. exists (RvString s). split; [exact Hr|]. constructor; [apply (enum_columns_in schema i c Hc), Hi | exact Hs].
  - eexists. split; [exact Hp|]. constructor. intros Hs. exfalso. apply Hi, (enum_columns_in schema i c Hc), Hs.
Qed.

Lemma convert_total schema enums row :
  Forall (fun i => (i < length schema)%nat) enums -> length row = length schema -> returns (convert_enums schema enums row).
Proof.
  intros He. revert row. induction He as [|i enums Hi _ IH]; intros row Hl; [eexists; reflexivity|]. cbn [convert_enums].
  destruct (lookup_lt_is_Some_2 row i) as [v Hv]; [lia|]. rewrite Hv. cbn [assert_some mbind outcome_bind].
  destruct v as [idx|s|k]; [|apply IH, Hl..]. destruct (lookup_lt_is_Some_2 schema i Hi) as [c Hc]. rewrite Hc. cbn [assert_some mbind outcome_bind].
  destruct (EnumType_At (c_Type c) idx) as [s|]; [|eexists; reflexivity]. apply IH. rewrite length_insert. exact Hl.
Qed.

Lemma enum_columns_bound schema : Forall (fun i => (i < length schema)%nat) (enum_columns schema).
Proof.
  apply Forall_forall. intros i Hi. unfold enum_columns in Hi. apply list_elem_of_In, filter_In in Hi. destruct Hi as [Hi _].
  apply in_seq in Hi. lia.
Qed.

(** The inserter writes to the temporary table; what [init] leaves when it succeeds. *)
Definition mine (ri : rowInserter) : Prop := ri_tmpTable ri = tmp /\ forall s, ri_stmt ri = Some s -> inserts s.
Definition ready (schema : list SqlColumn) (replace : bool) (ri : rowInserter) : Prop :=
  ri_schema ri = schema /\ mine ri /\ ri_conn ri = true
  /\ ri_enums ri = enum_columns schema /\ ri_flushSQL ri = flush_text replace tmp db table
  /\ is_Some (ri_stmt ri).

Lemma mine_err ri e : mine ri -> mine (set_err e ri).
Proof. exact (fun H => H). Qed.

Lemma begin_ready ctxID ri w : ri_db ri = db -> ri_table ri = table -> tmp = tmp_name db table ctxID ->
  ri_once ri = false -> ri_stmt ri = None -> ri_err ri = [] -> ri_schema ri <> [] -> temp w = None ->
  exists w' ri', StatementBegin ctxID ri w = Ret (w', ri') /\ target w' = target w /\ mine ri'
    /\ (ri_err ri' <> [] \/
        (ri_err ri' = [] /\ temp w' = Some [] /\ ready (ri_schema ri) (ri_replace ri && ri_hasPK ri) ri')).
Proof.
  intros Hd Htb Htmp Ho Hno He Hs Ht. unfold StatementBegin. rewrite Ho. unfold init. cbn. rewrite Hd, Htb, <- Htmp.
  destruct (GetConn w) as [err|w1] eqn:E1.
  { do 2 eexists. split; [reflexivity|]. split; [reflexivity|]. split; [split; [reflexivity | cbn; congruence] | left; discriminate]. }
  destruct (GetConn_frame _ _ E1) as [F1 T1].
  destruct (ConnExec (create_text tmp db table) w1) as [w2 [err|n]] eqn:E2.
  { destruct (create_error _ _ _ E2) as [_ F2]. do 2 eexists. split; [reflexivity|]. split; [congruence|]. split; [split; [reflexivity | cbn; congruence] | left; discriminate]. }
  destruct (create_law _ _ _ (eq_trans T1 Ht) E2) as [T2 F2].
  destruct (ri_schema ri) as [|c cols] eqn:Es; [contradiction|]. cbn [insert_text mbind outcome_bind]. rewrite <- Es.
  match goal with |- context [Prepare ?text w2] => destruct (Prepare text w2) as [w3 r] eqn:E3; pose proof (prepare_law (c :: cols) text w2 w3 r eq_refl E3) as (T3 & F3 & Hi) end.
  destruct r as [err|s]; do 2 eexists; (split; [reflexivity|]); (split; [congruence|]).
  - split; [split; [reflexivity | cbn; congruence] | left; discriminate].
  - assert (Hm : forall s', Some s = Some s' -> inserts s') by (intros s' [= <-]; auto).
    split; [split; [reflexivity | exact Hm]|]. right. split; [exact He|]. split; [congruence|]. rewrite Es. repeat split; eauto.
Qed.

Lemma insert_rows_ready schema replace rows : forall acc ri w,
  ready schema replace ri -> ri_err ri = [] -> temp w = Some acc -> Forall (fun r => length r = length schema) rows ->
  exists w' ri' err, insert_rows rows ri w = Ret (w', ri', err) /\ target w' = target w /\ ready schema replace ri'
    /\ (err <> [] \/ (err = [] /\ ri_err ri' = [] /\ exists rows', stored schema rows rows' /\ temp w' = Some (acc ++ rows'))).
Proof.
  induction rows as [|row rows IH]; intros acc ri w Hr He Ht Hl.
  - do 3 eexists. split; [reflexivity|]. split; [reflexivity|]. split; [exact Hr|]. right. repeat split; [exact He|]. exists []. split; [constructor|]. rewrite app_nil_r. exact Ht.
  - inversion_clear Hl as [|? ? Hrow Hrows]. cbn [insert_rows]. unfold Insert. rewrite He.
    pose proof Hr as (Es & [_ Hins] & _ & En & _ & s & Hst). specialize (Hins s Hst). rewrite Es, En.
    destruct (convert_total schema (enum_columns schema) row (enum_columns_bound schema) Hrow) as [[err|row'] Ec]; rewrite Ec; cbn [mbind outcome_bind].
    { do 3 eexists. split; [reflexivity|]. split; [reflexivity|]. split; [exact Hr|]. left. discriminate. }
    rewrite Hst. cbn [assert_some mbind outcome_bind]. destruct (StmtExec s row' w) as [w1 [err|]] eqn:E1.
    { destruct (insert_error _ _ _ _ _ Hins E1) as [_ F1]. do 3 eexists. split; [reflexivity|]. split; [exact F1|]. split; [exact Hr|]. left. discriminate. }
    destruct (insert_law s row' acc w w1 Hins Ht E1) as [T1 F1].
    destruct (IH _ _ _ Hr He T1 Hrows) as (w2 & ri2 & err & E2 & F2 & R2 & Hcase). cbn [mbind outcome_bind]. rewrite E2.
    do 3 eexists. split; [reflexivity|]. split; [congruence|]. split; [exact R2|]. destruct Hcase as [Hc|(Hc1 & Hc2 & rows' & Hst' & T2)]; [left; exact Hc|].
    right. repeat split; [exact Hc1 | exact Hc2|]. exists (row' :: rows'). split; [constructor; [apply convert_stored, Ec | exact Hst']|]. rewrite T2, <- app_assoc. reflexivity.
Qed.

Lemma clear_frame ri w w' ri' : mine ri -> clear ri w = (w', ri') -> target w' = target w /\ mine ri'
  /\ (ri_err ri' = [] -> ri_err ri = [] /\ (ri_conn ri = true -> temp w' = None))
  /\ ri_conn ri' = ri_conn ri /\ ri_flushSQL ri' = ri_flushSQL ri
  /\ (ri_err ri <> [] -> ri_err ri' <> []).
Proof.
  intros Hm. unfold clear. destruct Hm as [Htmp Hins].
  assert (Hclose : exists w1 e1, (match ri_stmt ri with
            | None => (w, ri)
            | Some s => let '(w, err) := StmtClose s w in (w, set_err (ri_err ri ++ option_list err) ri)
            end) = (w1, set_err (ri_err ri ++ e1) ri) /\ target w1 = target w).
  { destruct (ri_stmt ri) as [s|] eqn:Es.
    - destruct (StmtClose s w) as [w1 e1] eqn:E1. destruct (close_law _ _ _ _ (Hins _ eq_refl) E1) as [F1 _]. exists w1, (option_list e1). auto.
    - exists w, []. rewrite app_nil_r. destruct ri. auto. }
  destruct Hclose as (w1 & e1 & -> & F1). cbn. rewrite Htmp. destruct (ri_conn ri) eqn:Ec.
  - destruct (ConnExec (drop_text tmp) w1) as [w2 r] eqn:E2. destruct (drop_law _ _ _ E2) as [F2 T2].
    destruct r as [e|n]; intros [= <- <-]; cbn; (split; [congruence|]); (split; [split; assumption|]).
    + split; [intros He; exfalso; apply app_nil in He; destruct He; discriminate|]. repeat split; auto.
      intros Hn He. apply app_nil in He. destruct He; discriminate.
    + split; [intros He; apply app_nil in He; split; [apply He | intros _; eapply T2; reflexivity]|]. repeat split; auto.
      intros Hn He. apply app_nil in He. apply Hn, He.
  - intros [= <- <-]; cbn. split; [exact F1|]. split; [split; assumption|].
    split; [intros He; apply app_nil in He; split; [apply He | discriminate]|]. repeat split; auto.
    intros Hn He. apply app_nil in He. apply Hn, He.
Qed.

(** Closing after an error writes nothing. *)
Lemma Close_failed ri w : mine ri -> ri_err ri <> [] ->
  exists w' ri' err, Close ri w = Ret (w', ri', err) /\ err <> [] /\ target w' = target w.
Proof.
  intros Hm He. unfold Close. destruct (ri_err ri) as [|e es] eqn:E; [contradiction|]. cbn [mbind outcome_bind].
  destruct (clear ri w) as [w1 ri1] eqn:E1. destruct (clear_frame _ _ _ _ Hm E1) as [F _].
  do 3 eexists. split; [reflexivity|]. rewrite E. split; [discriminate | exact F].
Qed.

(** Closing copies the rows, or fails and copies none. *)
Lemma Close_ready schema replace rows ri w : ready schema replace ri -> ri_err ri = [] -> temp w = Some rows ->
  exists w' ri' err, Close ri w = Ret (w', ri', err)
    /\ ((err = [] /\ target w' = (if replace then or_replace (target w) rows else target w ++ rows))
        \/ (err <> [] /\ target w' = target w)).
Proof.
  intros (_ & Hm & Hc & _ & Hf & _) He Ht. unfold Close. rewrite He, Hc, Hf. cbn [negb].
  destruct (ConnExec (flush_text replace tmp db table) w) as [w1 [e|n]] eqn:E1; cbn [mbind outcome_bind].
  - destruct (clear (set_err [e] ri) w1) as [w2 ri2] eqn:E2. destruct (clear_frame _ _ _ _ (mine_err _ _ Hm) E2) as [F _].
    do 3 eexists. split; [reflexivity|]. right. split; [discriminate|]. rewrite F. eapply flush_error, E1.
  - destruct (clear ri w1) as [w2 ri2] eqn:E2. destruct (clear_frame _ _ _ _ Hm E2) as [F _].
    do 3 eexists. split; [reflexivity|]. left. split; [exact He|]. rewrite F. eapply flush_law; eassumption.
Qed.

(** After the changes were discarded, closing finds no temporary table. *)
Lemma Close_discarded schema replace ri w : ready schema replace ri ->
  exists w' ri' err, (let '(w1, ri1, _) := DiscardChanges ri w in Close ri1 w1) = Ret (w', ri', err)
    /\ err <> [] /\ target w' = target w.
Proof.
  intros (_ & Hm & Hc & _ & Hf & _). unfold DiscardChanges. destruct (clear ri w) as [w1 ri1] eqn:E1.
  destruct (clear_frame _ _ _ _ Hm E1) as (F1 & Hm1 & Hnil & Hc1 & Hf1 & _).
  destruct (ri_err ri1) as [|e es] eqn:Ee.
  2: { destruct (Close_failed ri1 w1 Hm1) as (w2 & ri2 & err & E2 & Hne & F2); [congruence|]. rewrite E2. do 3 eexists. repeat split; [exact Hne | congruence]. }
  destruct (Hnil eq_refl) as [_ Hnone]. specialize (Hnone Hc).
  destruct (flush_missing replace w1 Hnone) as (w2 & e & E2).
  unfold Close. rewrite Ee, Hc1, Hc, Hf1, Hf, E2. cbn [negb mbind outcome_bind]. destruct (clear (set_err [e] ri1) w2) as [w3 ri3] eqn:E3.
  destruct (clear_frame _ _ _ _ (mine_err _ _ Hm1) E3) as [F3 _]. do 3 eexists. split; [reflexivity|]. split; [discriminate|].
  rewrite F3, (flush_error _ _ _ _ E2). exact F1.
Qed.

Lemma insert_rows_failed rows ri w : ri_err ri <> [] ->
  exists err, insert_rows rows ri w = Ret (w, ri, err).
Proof.
  intros He. destruct rows as [|row rows]; [eexists; reflexivity|]. cbn [insert_rows]. unfold Insert.
  destruct (ri_err ri) as [|e es]; [contradiction|]. eexists. reflexivity.
Qed.

(** Closing, if it is done, after the error was stored. *)
Lemma close_if_failed closes ri w : mine ri -> ri_err ri <> [] -> exists w' err, close_if closes ri w = Ret (w', err) /\ target w' = target w.
Proof.
  intros Hm He. unfold close_if. destruct closes; [|eauto]. destruct (Close_failed ri w Hm He) as (w' & ri' & err & E & _ & F). rewrite E. cbn [mbind outcome_bind]. eauto.
Qed.
(** Discarding, and closing if it is done. *)
Lemma discard_frame closes schema replace ri w : mine ri -> ri_err ri <> [] \/ ready schema replace ri ->
  exists w' err, (let '(w1, ri1, derr) := DiscardChanges ri w in '(w2, cerr) ← close_if closes ri1 w1; Ret (w2, derr ++ cerr)) = Ret (w', err) /\ target w' = target w.
Proof.
  intros Hm Hcase. unfold DiscardChanges. destruct (clear ri w) as [w1 ri1] eqn:E1. destruct (clear_frame _ _ _ _ Hm E1) as (F1 & Hm1 & Hnil & Hc1 & Hf1 & Hk).
  destruct closes; [|do 2 eexists; split; [reflexivity | exact F1]]. cbn [close_if]. destruct Hcase as [Hne|Hr].
  - destruct (Close_failed ri1 w1 Hm1 (Hk Hne)) as (w2 & ri2 & err & E2 & _ & F2). rewrite E2. do 2 eexists. split; [reflexivity | congruence].
  - destruct (Close_discarded schema replace ri w Hr) as (w2 & ri2 & err & E2 & _ & F2). unfold DiscardChanges in E2. rewrite E1 in E2. rewrite E2. do 2 eexists. split; [reflexivity | exact F2].
Qed.

Lemma insert_statement_cases closes ctxID rows ri w : ri_db ri = db -> ri_table ri = table -> tmp = tmp_name db table ctxID ->
  ri_once ri = false -> ri_stmt ri = None -> ri_err ri = [] -> ri_schema ri <> [] ->
  Forall (fun r => length r = length (ri_schema ri)) rows -> temp w = None ->
  exists w' err, insert_statement closes ctxID rows ri w = Ret (w', err) /\
    ((err <> [] /\ target w' = target w) \/
     (err = [] /\ exists rows', stored (ri_schema ri) rows rows' /\
      target w' =
      (if ri_replace ri && ri_hasPK ri then or_replace (target w) rows' else target w ++ rows'))).
Proof.
  intros Hd Htb Htmp Ho Hno He Hs Hl Ht. unfold insert_statement.
  destruct (begin_ready ctxID ri w Hd Htb Htmp Ho Hno He Hs Ht) as (w1 & ri1 & E1 & F1 & Hm1 & Hcase). rewrite E1. cbn [mbind outcome_bind].
  assert (Hdis : forall ri2 w2 err schema replace, mine ri2 -> ri_err ri2 <> [] \/ ready schema replace ri2 -> err <> [] -> target w2 = target w ->
    exists w' err', (let '(w3, ri3, derr) := DiscardChanges ri2 w2 in '(w4, cerr) ← close_if closes ri3 w3; Ret (w4, err ++ derr ++ cerr)) = Ret (w', err') /\ err' <> [] /\ target w' = target w).
  { intros ri2 w2 err schema replace Hm2 Hw2 Hne F2. destruct (discard_frame closes schema replace ri2 w2 Hm2 Hw2) as (w3 & e3 & E3 & F3). destruct (DiscardChanges ri2 w2) as [[w4 ri4] derr].
    destruct (close_if closes ri4 w4) as [[w5 cerr]|]; [|discriminate]. cbn [mbind outcome_bind] in *. injection E3 as <- <-. do 2 eexists. split; [reflexivity|]. split; [destruct err; [contradiction | discriminate] | congruence]. }
  destruct Hcase as [Hne|(He1 & T1 & R1)].
  - destruct (insert_rows_failed rows ri1 w1 Hne) as [err E2]. rewrite E2. cbn [mbind outcome_bind]. destruct err as [|e es].
    + unfold StatementComplete. destruct (ri_err ri1) as [|e es] eqn:Ee; [contradiction|]. destruct (close_if_failed closes ri1 w1 Hm1) as (w2 & cerr & E3 & F3); [congruence|].
      rewrite E3. cbn [mbind outcome_bind]. do 2 eexists. split; [reflexivity|]. left. split; [discriminate | congruence].
    + destruct (Hdis ri1 w1 (e :: es) [] false Hm1 (or_introl Hne)) as (w2 & err & E3 & Hr3); [discriminate | exact F1|]. rewrite E3. do 2 eexists. split; [reflexivity | left; exact Hr3].
  - destruct (insert_rows_ready _ _ rows [] ri1 w1 R1 He1 T1 Hl) as (w2 & ri2 & err & E2 & F2 & R2 & Hcase). rewrite E2. cbn [mbind outcome_bind].
    destruct Hcase as [Hne|(-> & He2 & rows' & Hst & T2)].
    + destruct err as [|e es]; [contradiction|]. destruct (Hdis ri2 w2 (e :: es) _ _ (proj1 (proj2 R2)) (or_intror R2)) as (w3 & err3 & E3 & Hr3); [discriminate | congruence|].
      rewrite E3. do 2 eexists. split; [reflexivity | left; exact Hr3].
    + unfold StatementComplete. rewrite He2. destruct (Close_ready _ _ _ ri2 w2 R2 He2 T2) as (w3 & ri3 & err3 & E3 & Hcase). rewrite E3. do 2 eexists. split; [reflexivity|].
      destruct Hcase as [[-> F3]|[Hn3 F3]]; [right | left].
      * split; [reflexivity|]. exists rows'. split; [exact Hst|]. rewrite F3, F2, F1. reflexivity.
      * split; [exact Hn3 | congruence].
Qed.
End Contract.
