(* ===== verification/CatalogFacts.v ===== *)
(** * Facts about the catalog

    The extra information of a table survives its comment; every alteration
    stores in the comment what it leaves in the copy ([run_plan_synced]); what a
    created table is when it is found again; values of AUTO_INCREMENT columns;
    names as patterns. *)

From S2P Require Import Prelude Identifier CatalogErrors Schema GoJson Comment Quotes TypeMapping CatalogTable CatalogDatabase.
From S2P Require Delta.
From Stdlib Require Import Ascii.

(** ** The extra information *)
Section InfoLaws.
Context `{SchemaLib} `{JsonLaws CheckDefinition}.

Definition int64_ok (z : Z) : Prop := - 2 ^ 63 <= z < 2 ^ 63.
Definition info_valid (i : ExtraTableInfo) : Prop :=
  Forall int64_ok (default [] (PkOrdinals i)) /\ ValidString (Sequence i) = true /\ Forall json_valid (default [] (Checks i)).

Lemma slice_ok {T} (encode : T -> json) (P : T -> Prop) o :
  (forall t, P t -> json_ok (encode t)) -> Forall P (default [] o) -> json_ok (to_json_slice encode o).
Proof.
  intros He Ho. destruct o as [l|]; [|constructor]. cbn in *. constructor. apply Forall_map. eapply Forall_impl; [exact Ho | exact He].
Qed.

#[export, refine] Instance ExtraTableInfo_laws : JsonLaws ExtraTableInfo := {|
  json_valid := info_valid; to_json_ok := _; of_to_json := _; json_empty_zero := fun t _ E => False_ind _ (diff_false_true E)
|}.
Proof.
  - intros [pk repl s cs] (Hp & Hs & Hc). cbn [to_json ExtraTableInfo_json PkOrdinals Replicated Sequence Checks] in *. constructor.
    repeat constructor; cbn; try exact Hs.
    + apply (slice_ok _ (fun _ => True)); [intros; constructor | apply Forall_true; auto].
    + apply (slice_ok _ json_valid); [apply to_json_ok | exact Hc].
  - intros [pk repl s cs] (Hp & Hs & Hc). cbn [to_json of_json json_zero ExtraTableInfo_json PkOrdinals Replicated Sequence Checks] in *.
    rewrite of_json_struct_obj.
    rewrite (member_step _ _ _ (mkInfo _ pk false EmptyString None)); [|repeat constructor|].
    2: { unfold info_set. rewrite decide_True by reflexivity. cbn [PkOrdinals Replicated Sequence Checks].
         rewrite of_json_slice_to; [reflexivity|]. intros l ->. cbn in Hp. eapply Forall_impl; [exact Hp|]. intros z Hz.
         unfold of_json_int. apply ParseInt_FormatInt. exact Hz. }
    rewrite (member_step _ _ _ (mkInfo _ pk repl EmptyString None)); [|repeat constructor | reflexivity].
    rewrite (member_step _ _ _ (mkInfo _ pk repl s None)); [|repeat constructor | reflexivity].
    rewrite (member_step _ _ _ (mkInfo _ pk repl s cs)); [reflexivity|repeat constructor|].
    unfold info_set. rewrite !decide_False by discriminate. cbn [PkOrdinals Replicated Sequence Checks].
    rewrite of_json_slice_to; [reflexivity|]. intros l ->. cbn in Hc. eapply Forall_impl; [exact Hc|]. intros c Hv. apply of_to_json, Hv.
Defined.
End InfoLaws.

(** ** Alterations store what they leave in the copy *)
Section Sync.
Context `{SqlTypes} `{CatalogDB} `{SchemaLib} `{JsonType CheckDefinition} `{!PkSchemaLib}.

(** The comment a batch leaves on a table. *)
Definition last_comment (full : string) (l : list Stmt) (old : string) : string :=
  foldl (fun acc s => match s with CommentOnTable f text => if decide (f = full) then text else acc | _ => acc end) old l.

Lemma last_comment_app full a b old : last_comment full (a ++ b) old = last_comment full b (last_comment full a old).
Proof. apply foldl_app. Qed.

(** The statements of a batch that are not about table comments. *)
Definition no_table_comment (s : Stmt) : bool := match s with CommentOnTable _ _ => false | _ => true end.
Lemma last_comment_none full l old : forallb no_table_comment l = true -> last_comment full l old = old.
Proof.
  revert old. induction l as [|s l IH]; intros old Hl; [reflexivity|]. cbn in Hl. apply andb_true_iff in Hl. destruct Hl as [Hs Hl].
  unfold last_comment in *. cbn [foldl]. rewrite IH by exact Hl. destruct s; try reflexivity. discriminate Hs.
Qed.

Lemma last_comment_pre full pre post old : forallb no_table_comment pre = true -> last_comment full (pre ++ post) old = last_comment full post old.
Proof. intros Hp. rewrite last_comment_app, (last_comment_none full pre) by exact Hp. reflexivity. Qed.

Lemma last_comment_cons full s l old : no_table_comment s = true -> last_comment full (s :: l) old = last_comment full l old.
Proof. intros Hs. destruct s; try reflexivity. discriminate Hs. Qed.
Lemma last_comment_last full text old : last_comment full [CommentOnTable full text] old = text.
Proof. cbn. rewrite decide_True by reflexivity. reflexivity. Qed.

(** The plan's batch leaves the comment that encodes the copy after the plan's update. *)
Definition plan_syncs (t : Table) (p : Plan) : Prop :=
  last_comment (full_name t) (p_sqls p) (Encode (t_comment t)) = Encode (t_comment (p_update p t))
  /\ full_name (p_update p t) = full_name t.

Lemma column_default_stmts temporary column m w w' m' clause sequence full :
  column_default temporary column m w = Ret (w', inr (m', clause, sequence, full)) -> forallb no_table_comment sequence = true.
Proof.
  unfold column_default. destruct (c_Default column) as [d|].
  - destruct (parseDefaultValue Parse _) as [[err|e]|]; [discriminate| |discriminate]. intros [= _ _ _ <- _]. reflexivity.
  - destruct (c_AutoIncrement column); [|intros [= _ _ _ <- _]; reflexivity].
    destruct (NewRandom w) as [err|[w1 u]]; [discriminate|]. destruct (getCreateSequence _ _) as [s f]. intros [= _ _ _ <- _]. reflexivity.
Qed.

Lemma AddColumn_syncs column t w w' p : AddColumn_plan column t w = Ret (w', inr p) -> plan_syncs t p.
Proof.
  unfold AddColumn_plan. destruct (DuckdbDataType (c_Type column)) as [[err|typ]|]; [discriminate| |discriminate]. cbn [mbind outcome_bind].
  destruct (column_default _ _ _ _) as [[w1 [err|[[[m clause] sequence] full]]]|] eqn:Ed; [discriminate| |discriminate].
  cbn [mbind outcome_bind]. intros [= _ <-]. apply column_default_stmts in Ed. unfold plan_syncs. cbn [p_sqls p_update].
  split; [|destruct (c_PrimaryKey column), (c_AutoIncrement column); reflexivity].
  rewrite last_comment_pre by exact Ed. unfold table_comment_stmt, column_comment_stmt.
  destruct (c_Nullable column), (c_AutoIncrement column), (c_PrimaryKey column); cbn [app orb];
    rewrite ?last_comment_cons by reflexivity; rewrite ?last_comment_last; unfold NewCommentWithMeta; reflexivity.
Qed.

Lemma DropColumn_syncs columnName t : plan_syncs t (DropColumn_plan columnName t).
Proof.
  unfold plan_syncs, DropColumn_plan. cbn [p_sqls p_update]. destruct (existsb _ _); split; try reflexivity.
  cbn [last_comment foldl table_comment_stmt]. rewrite decide_True by reflexivity. reflexivity.
Qed.

Lemma modify_default_stmts full columnName column m m' l :
  modify_default full columnName column m = Ret (inr (m', l)) -> forallb no_table_comment l = true.
Proof.
  unfold modify_default. destruct (c_Default column) as [d|]; [|intros [= _ <-]; reflexivity].
  destruct (c_AutoIncrement column); [intros [= _ <-]; reflexivity|].
  destruct (parseDefaultValue Parse _) as [[err|e]|]; [discriminate| |discriminate]. intros [= _ <-]. reflexivity.
Qed.

Lemma modify_auto_stmts temporary full columnName old column m w w' m' l s :
  modify_auto temporary full columnName old column m w = (w', inr (m', l, s)) -> forallb no_table_comment l = true.
Proof.
  unfold modify_auto. destruct (negb (c_AutoIncrement old) && c_AutoIncrement column).
  - destruct (NewRandom w) as [err|[w1 u]]; [discriminate|]. destruct (getCreateSequence _ _) as [x f]. intros [= _ _ <- _]. reflexivity.
  - destruct (c_AutoIncrement old && negb (c_AutoIncrement column)); intros [= _ _ <- _]; reflexivity.
Qed.

(** The copy is only right when a column that already is the key is the whole key. *)
Definition key_kept (columnName : string) (column : SqlColumn) (t : Table) : Prop :=
  forall i old, find_column columnName 0 (pks_Schema (t_schema t)) = Some (i, old) ->
    c_PrimaryKey column = true -> c_PrimaryKey old = true -> PkOrdinals (info_of t) = Some [i].

Lemma ModifyColumn_syncs columnName column t w w' p : key_kept columnName column t ->
  ModifyColumn_plan columnName column t w = Ret (w', inr p) -> plan_syncs t p.
Proof.
  intros Hk. unfold ModifyColumn_plan. destruct (DuckdbDataType (c_Type column)) as [[err|typ]|]; [discriminate| |discriminate]. cbn [mbind outcome_bind].
  destruct (find_column columnName 0 (pks_Schema (t_schema t))) as [[i old]|] eqn:Ef; [|discriminate]. specialize (Hk _ _ Ef).
  destruct (modify_default _ _ _ _) as [[err|[m ds]]|] eqn:Ed; [discriminate| |discriminate]. cbn [mbind outcome_bind].
  destruct (modify_auto _ _ _ _ _ _ _) as [w1 [err|[[m1 as_] seq]]] eqn:Ea; [discriminate|]. intros [= _ <-].
  apply modify_default_stmts in Ed. apply modify_auto_stmts in Ea. unfold plan_syncs. cbn [p_sqls p_update].
  split; [|destruct (c_PrimaryKey column), seq; reflexivity].
  unfold table_comment_stmt, column_comment_stmt.
  assert (E : forall tail old_text, last_comment (full_name t) ((if Equals (c_Type old) (c_Type column) then [] else [AlterColumn (full_name t) columnName (" TYPE " +:+ duck_name typ)])
     ++ (if c_Nullable old && negb (c_Nullable column) then [AlterColumn (full_name t) columnName " SET NOT NULL"]
         else if negb (c_Nullable old) && c_Nullable column then [AlterColumn (full_name t) columnName " DROP NOT NULL"] else [])
     ++ ds ++ as_ ++ (if decide (columnName = c_Name column) then [] else [RenameColumn (full_name t) columnName (c_Name column)]) ++ tail) old_text
     = last_comment (full_name t) tail old_text).
  { intros tail o. rewrite !last_comment_pre; [reflexivity| | exact Ea | exact Ed | | ].
    - destruct (decide _); reflexivity.
    - destruct (c_Nullable old), (c_Nullable column); reflexivity.
    - destruct (Equals _ _); reflexivity. }
  cbn [app] in *. rewrite E. clear E Ed Ea Ef. rewrite last_comment_cons by reflexivity.
  destruct (c_PrimaryKey old) eqn:Eo, (c_PrimaryKey column) eqn:Ec, seq as [s|]; cbn [orb andb negb app]; rewrite ?last_comment_cons by reflexivity; rewrite ?last_comment_last;
    unfold NewCommentWithMeta; try reflexivity; specialize (Hk eq_refl eq_refl); destruct t as [d n [txt [pk r sq cs]] sch h]; cbn in *; rewrite Hk; reflexivity.
Qed.

(** ** The comment in DuckDB

    [proper s]: DuckDB reads the text of [s] as the one statement it spells.  A
    batch of such statements that succeeds leaves the comment it sets last. *)
Class CommentLaws : Type := {
  StoredComment : string -> cdb -> string;
  proper : Stmt -> Prop;
  exec_comment : forall l w w' n full, Forall proper l -> Exec (batch_text l) w = (w', inr n) ->
    StoredComment full w' = last_comment full l (StoredComment full w);
  conn_comment : forall w w' full, GetCatalogConn w = inr w' -> StoredComment full w' = StoredComment full w;
  query_comment : forall q args w w' r full, q = columns_query \/ q = primary_key_query -> ConnQuery q args w = (w', r) ->
    StoredComment full w' = StoredComment full w;
  random_comment : forall w w' u full, NewRandom w = inr (w', u) -> StoredComment full w' = StoredComment full w
}.
Context `{CommentLaws}.

Definition synced (t : Table) (w : cdb) : Prop := StoredComment (full_name t) w = Encode (t_comment t).

Lemma QueryCatalog_frame q args w w' r full : q = columns_query \/ q = primary_key_query ->
  QueryCatalog q args w = (w', r) -> StoredComment full w' = StoredComment full w.
Proof.
  intros Hq. unfold QueryCatalog. destruct (GetCatalogConn w) as [err|w1] eqn:E; [intros [= <- _]; reflexivity|].
  intros Hc. rewrite (query_comment _ _ _ _ _ full Hq Hc). apply conn_comment, E.
Qed.

Lemma getPKSchema_frame catalogName dbName tableName w w' r full :
  getPKSchema catalogName dbName tableName w = Ret (w', r) -> StoredComment full w' = StoredComment full w.
Proof.
  unfold getPKSchema, queryColumns, getPrimaryKeyOrdinals. destruct (QueryCatalog columns_query _ w) as [w1 r1] eqn:E1.
  pose proof (QueryCatalog_frame _ _ _ _ _ full (or_introl eq_refl) E1) as F1.
  destruct (match r1 with inl err => inl err | inr (rows, err) => _ end) as [err|columns]; [intros [= <- _]; exact F1|].
  destruct (QueryCatalog primary_key_query _ w1) as [w2 r2] eqn:E2. pose proof (QueryCatalog_frame _ _ _ _ _ full (or_intror eq_refl) E2) as F2.
  intros Hr. go_inv; congruence.
Qed.

Lemma withSchema_frame env t w w' t' err : withSchema env t w = Ret (w', t', err) ->
  (forall full, StoredComment full w' = StoredComment full w) /\ t_comment t' = t_comment t /\ full_name t' = full_name t.
Proof.
  unfold withSchema. intros Hr. go_inv; (split; [intros full; eapply getPKSchema_frame; eassumption | split; reflexivity]).
Qed.

Lemma synced_frame t t' w w' : (forall full, StoredComment full w' = StoredComment full w) -> t_comment t' = t_comment t -> full_name t' = full_name t ->
  synced t w -> synced t' w'.
Proof. unfold synced. intros Hw Hc Hf Hs. rewrite Hw, Hc, Hf. exact Hs. Qed.

Lemma run_plan_synced env t w p w' t' : synced t w -> plan_syncs t p -> Forall proper (p_sqls p) ->
  run_plan env t (w, inr p) = Ret (w', t', None) -> synced t' w'.
Proof.
  intros Hs [Hp Hf] Hprop. unfold run_plan. destruct (Exec (batch_text (p_sqls p)) w) as [w1 [err|n]] eqn:E; [discriminate|].
  intros Hr. destruct (withSchema_frame _ _ _ _ _ _ Hr) as (Fw & Fc & Ff). eapply synced_frame; [exact Fw | exact Fc | exact Ff |].
  unfold synced in *. rewrite Hf, (exec_comment _ _ _ _ _ Hprop E), Hs. exact Hp.
Qed.

Lemma batch_one s : batch_text [s] = stmt_text s.
Proof. reflexivity. Qed.

Lemma update_synced updater t w w' t' : synced t w -> proper (table_comment_stmt t (updater (info_of t))) ->
  updateExtraTableInfo updater t w = (w', t', None) -> synced t' w' /\ info_of t' = updater (info_of t).
Proof.
  intros Hs Hp. unfold updateExtraTableInfo. rewrite <- batch_one. destruct (Exec _ w) as [w1 [err|n]] eqn:E; [discriminate|].
  intros [= <- <-]. split; [|reflexivity]. unfold synced in *. rewrite (exec_comment _ _ _ _ _ (Forall_cons_2 _ _ _ Hp (Forall_nil_2 _)) E).
  unfold table_comment_stmt. change (full_name (set_info (updater (info_of t)) t)) with (full_name t). apply last_comment_last.
Qed.

Lemma column_default_frame temporary column m w w' r full :
  column_default temporary column m w = Ret (w', r) -> StoredComment full w' = StoredComment full w.
Proof.
  unfold column_default. destruct (c_Default column); [intros Hr; go_inv; reflexivity|]. destruct (c_AutoIncrement column); [|intros [= <- _]; reflexivity].
  destruct (NewRandom w) as [err|[w1 u]] eqn:E; [intros [= <- _]; reflexivity|]. destruct (getCreateSequence _ _). intros [= <- _]. eapply random_comment, E.
Qed.

Lemma AddColumn_plan_frame column t w w' r full : AddColumn_plan column t w = Ret (w', r) -> StoredComment full w' = StoredComment full w.
Proof. unfold AddColumn_plan. intros Hr. go_inv; try reflexivity; eapply column_default_frame; eassumption. Qed.

Lemma ModifyColumn_plan_frame columnName column t w w' r full :
  ModifyColumn_plan columnName column t w = Ret (w', r) -> StoredComment full w' = StoredComment full w.
Proof.
  unfold ModifyColumn_plan, modify_auto. intros Hr. go_inv; try reflexivity;
    repeat match goal with Hx : (if ?b then _ else _) = (_, _) |- _ => destruct b | Hx : match NewRandom ?w with _ => _ end = _ |- _ => destruct (NewRandom w) as [?|[? ?]] eqn:? | Hx : (let '(_, _) := ?p in _) = (_, _) |- _ => destruct p end;
    simplify_eq; try reflexivity; eapply random_comment; eassumption.
Qed.

Lemma exec_synced t w s w' n : synced t w -> proper s -> no_table_comment s = true -> Exec (stmt_text s) w = (w', inr n) -> synced t w'.
Proof.
  intros Hs Hp Hn. rewrite <- batch_one. intros E. unfold synced in *.
  rewrite (exec_comment _ _ _ _ _ (Forall_cons_2 _ _ _ Hp (Forall_nil_2 _)) E), last_comment_none; [exact Hs|]. cbn. rewrite Hn. reflexivity.
Qed.

Lemma setAuto_synced env value t w w' t' : synced t w ->
  (forall u create full, getCreateSequence (is_temporary t) (SequenceNamePrefix +:+ u) = (create, full) ->
     proper (CreateSequence (create +:+ " START WITH " +:+ FormatInt value)) /\ (forall column, proper (set_default_stmt t column full))
     /\ proper (table_comment_stmt t (with_sequence full (info_of t)))) ->
  setAutoIncrementValue env value t w = Ret (w', t', None) -> synced t' w'.
Proof.
  intros Hs Hp. unfold setAutoIncrementValue. destruct (List.find _ _) as [column|]; [|discriminate].
  destruct (NewRandom w) as [err|[w1 u]] eqn:E1; [discriminate|]. destruct (getCreateSequence _ _) as [create full] eqn:Eg.
  destruct (Hp _ _ _ Eg) as (P1 & P2 & P3). clear Hp.
  assert (Hs1 : synced t w1) by (unfold synced in *; rewrite (random_comment _ _ _ _ E1); exact Hs).
  destruct (Exec _ w1) as [w2 [err|n]] eqn:E2; [discriminate|]. assert (Hs2 : synced t w2) by (eapply exec_synced; [exact Hs1 | exact P1 | reflexivity | exact E2]).
  destruct (Exec _ w2) as [w3 [err|n']] eqn:E3; [discriminate|]. assert (Hs3 : synced t w3) by (eapply exec_synced; [exact Hs2 | apply P2 | reflexivity | exact E3]).
  destruct (updateExtraTableInfo _ t w3) as [[w4 t4] [err|]] eqn:E4; [discriminate|]. destruct (update_synced _ _ _ _ _ Hs3 P3 E4) as [Hs4 _].
  intros Hr. destruct (withSchema_frame _ _ _ _ _ _ Hr) as (Fw & Fc & Ff). eapply synced_frame; eassumption.
Qed.

(** A successful alteration, of statements DuckDB reads as intended. *)
Inductive altered (env : string) : Table * cdb -> Table * cdb -> Prop :=
| altered_add column t w w1 p w' t' : AddColumn_plan column t w = Ret (w1, inr p) -> Forall proper (p_sqls p) ->
    AddColumn env column t w = Ret (w', t', None) -> altered env (t, w) (t', w')
| altered_drop columnName t w w' t' : Forall proper (p_sqls (DropColumn_plan columnName t)) ->
    DropColumn env columnName t w = Ret (w', t', None) -> altered env (t, w) (t', w')
| altered_modify columnName column t w w1 p w' t' : key_kept columnName column t ->
    ModifyColumn_plan columnName column t w = Ret (w1, inr p) -> Forall proper (p_sqls p) ->
    ModifyColumn env columnName column t w = Ret (w', t', None) -> altered env (t, w) (t', w')
| altered_auto value t w w' t' :
    (forall u create full, getCreateSequence (is_temporary t) (SequenceNamePrefix +:+ u) = (create, full) ->
       proper (CreateSequence (create +:+ " START WITH " +:+ FormatInt value)) /\ (forall column, proper (set_default_stmt t column full))
       /\ proper (table_comment_stmt t (with_sequence full (info_of t)))) ->
    setAutoIncrementValue env value t w = Ret (w', t', None) -> altered env (t, w) (t', w')
| altered_info updater t w w' t' : proper (table_comment_stmt t (updater (info_of t))) ->
    updateExtraTableInfo updater t w = (w', t', None) -> altered env (t, w) (t', w').

Lemma altered_synced env s s' : altered env s s' -> synced s.1 s.2 -> synced s'.1 s'.2.
Proof.
  intros [column t w w1 p w' t' Ep Hp E|columnName t w w' t' Hp E|columnName column t w w1 p w' t' Hk Ep Hp E|value t w w' t' Hp E|updater t w w' t' Hp E]; cbn [fst snd]; intros Hs.
  - unfold AddColumn in E. rewrite Ep in E. eapply run_plan_synced; [|eapply AddColumn_syncs, Ep | exact Hp | exact E].
    eapply synced_frame; [intros full; eapply AddColumn_plan_frame, Ep | reflexivity | reflexivity | exact Hs].
  - eapply run_plan_synced; [exact Hs | apply DropColumn_syncs | exact Hp | exact E].
  - unfold ModifyColumn in E. rewrite Ep in E. eapply run_plan_synced; [|eapply ModifyColumn_syncs; [exact Hk | exact Ep] | exact Hp | exact E].
    eapply synced_frame; [intros full; eapply ModifyColumn_plan_frame, Ep | reflexivity | reflexivity | exact Hs].
  - eapply setAuto_synced; eassumption.
  - eapply update_synced; eassumption.
Qed.

Lemma altered_rtc_synced env s s' : rtc (altered env) s s' -> synced s.1 s.2 -> synced s'.1 s'.2.
Proof. induction 1 as [|s1 s2 s3 H12 _ IH]; [auto|]. intros Hs. apply IH. eapply altered_synced; eassumption. Qed.

(** When the batch fails the copy is what it was. *)
Lemma run_plan_failed env t w p w' err : Exec (batch_text (p_sqls p)) w = (w', inl err) ->
  run_plan env t (w, inr p) = Ret (w', t, Some (ErrDuckDB err)).
Proof. intros E. unfold run_plan. rewrite E. reflexivity. Qed.
End Sync.

(** ** AUTO_INCREMENT *)
Section Auto.
Context `{SqlTypes} `{CatalogDB} `{SchemaLib} `{JsonType CheckDefinition} `{!PkSchemaLib}.

(** The sequences of a permanent table live in the schema the catalog looks in. *)
Definition permanent (sequence : string) : Prop := exists name, sequence = sys_schema +:+ "." +:+ dquote +:+ name +:+ dquote.

(** A sequence as DuckDB documents it: its start, and the value the session
    last drew, if it drew one. *)
Class SequenceLaws : Type := {
  sequence : string -> cdb -> option (Z * option Z);
  same (w w' : cdb) := forall s, sequence s w' = sequence s w;
  currval_drawn : forall s w start v, sequence s w = Some (start, Some v) -> 0 <= v < 2 ^ 63 - 1 ->
    exists w', query_uint64 (currval_query s) w = Ret (w', inr (v + 1)) /\ same w w';
  currval_fresh : forall s w start, sequence s w = Some (start, None) ->
    exists w' err, query_uint64 (currval_query s) w = Ret (w', inl err) /\ strings_Contains err not_yet_defined = true /\ same w w';
  start_value : forall s w start last, sequence s w = Some (start, last) -> permanent s -> 0 <= start < 2 ^ 63 ->
    exists w', query_uint64 (start_value_query s) w = Ret (w', inr start) /\ same w w';
  nextval_draws : forall s w start last, sequence s w = Some (start, last) -> 0 <= match last with None => start | Some v => v + 1 end < 2 ^ 63 ->
    exists w', query_uint64 (nextval_query s) w = Ret (w', inr (match last with None => start | Some v => v + 1 end))
      /\ sequence s w' = Some (start, Some (match last with None => start | Some v => v + 1 end));
  sequence_created : forall w0 u w w' n value create full, NewRandom w0 = inr (w, u) ->
    getCreateSequence false (SequenceNamePrefix +:+ u) = (create, full) -> 0 <= value < 2 ^ 63 ->
    Exec (create +:+ " START WITH " +:+ FormatInt value) w = (w', inr n) -> sequence full w' = Some (value, None);
  sequence_default : forall t column full w w' n, Exec (stmt_text (set_default_stmt t column full)) w = (w', inr n) -> same w w';
  sequence_comment : forall t info w w' n, Exec (stmt_text (table_comment_stmt t info)) w = (w', inr n) -> same w w';
  sequence_schema : forall env t w w' t' err, withSchema env t w = Ret (w', t', err) -> same w w'
}.
Context `{SequenceLaws}.

(** The value a sequence gives next, and the range of 64-bit sequences. *)
Definition upcoming (state : Z * option Z) : Z := match snd state with None => fst state | Some v => v + 1 end.
Definition in_range64 (state : Z * option Z) : Prop :=
  0 <= fst state < 2 ^ 63 /\ match snd state with None => True | Some v => 0 <= v < 2 ^ 63 - 1 end.

Lemma next_value t w state : sequence (Sequence (info_of t)) w = Some state -> permanent (Sequence (info_of t)) -> in_range64 state ->
  exists w', getNextAutoIncrementValue t w = Ret (w', inr (upcoming state)) /\ same w w'.
Proof.
  destruct state as [start [v|]]; unfold upcoming, in_range64; cbn [fst snd]; intros Hs Hp [Hst Hv]; unfold getNextAutoIncrementValue.
  - destruct (currval_drawn _ _ _ _ Hs Hv) as (w' & -> & Hsame). exists w'. split; [reflexivity | exact Hsame].
  - destruct (currval_fresh _ _ _ Hs) as (w1 & err & -> & Hc & Hsame). cbn [mbind outcome_bind]. rewrite Hc. cbn [negb].
    rewrite <- (Hsame _) in Hs. destruct (start_value _ _ _ _ Hs Hp Hst) as (w2 & -> & Hsame2). exists w2. split; [reflexivity|].
    intros s. rewrite Hsame2. apply Hsame.
Qed.

Lemma permanent_nonempty s : permanent s -> s <> EmptyString.
Proof. intros [n ->]. discriminate. Qed.

Lemma upcoming_range state : in_range64 state -> 0 <= upcoming state < 2 ^ 63.
Proof. destruct state as [start [v|]]; unfold upcoming, in_range64; cbn; lia. Qed.

(** Without a value to insert, the next one is drawn. *)
Lemma GetNext_draws env t w state : sequence (Sequence (info_of t)) w = Some state -> permanent (Sequence (info_of t)) -> in_range64 state ->
  exists w', GetNextAutoIncrementValue env None t w = Ret (w', t, inr (upcoming state))
    /\ sequence (Sequence (info_of t)) w' = Some (fst state, Some (upcoming state)).
Proof.
  intros Hs Hp Hr. unfold GetNextAutoIncrementValue. rewrite decide_False by (apply permanent_nonempty, Hp).
  destruct (next_value t w state Hs Hp Hr) as (w1 & -> & Hsame). cbn [mbind outcome_bind]. cbn [Z.ltb andb].
  pose proof (upcoming_range state Hr) as Hu. rewrite <- (Hsame _) in Hs. destruct state as [start last].
  destruct (nextval_draws _ _ _ _ Hs Hu) as (w2 & E & Hs2). exists w2. change (0 <? 0) with false. cbn [andb]. rewrite E. split; [reflexivity | exact Hs2].
Qed.

(** A larger value to insert replaces the sequence by one that starts with it. *)
Lemma GetNext_replaces env t w w' t' state v : is_temporary t = false -> sequence (Sequence (info_of t)) w = Some state ->
  permanent (Sequence (info_of t)) -> in_range64 state -> upcoming state < v < 2 ^ 63 ->
  GetNextAutoIncrementValue env (Some (ValUint64 v)) t w = Ret (w', t', inr v) ->
  permanent (Sequence (info_of t')) /\ sequence (Sequence (info_of t')) w' = Some (v, None).
Proof.
  intros Htmp Hs Hp Hr Hv. unfold GetNextAutoIncrementValue. rewrite decide_False by (apply permanent_nonempty, Hp).
  destruct (next_value t w state Hs Hp Hr) as (w1 & -> & _). pose proof (upcoming_range state Hr) as Hu. cbn [mbind outcome_bind insert_start].
  destruct (Z.ltb_spec 0 v); [|lia]. destruct (Z.ltb_spec (upcoming state) v); [|lia]. cbn [andb].
  unfold setAutoIncrementValue. destruct (List.find _ _) as [column|]; [|discriminate].
  destruct (NewRandom w1) as [err|[w2 u]] eqn:E1; [discriminate|]. rewrite Htmp. destruct (getCreateSequence false _) as [create full] eqn:Eg.
  destruct (Exec _ w2) as [w3 [err|n]] eqn:E2; [discriminate|]. pose proof (sequence_created _ _ _ _ _ v _ _ E1 Eg ltac:(lia) E2) as Hc.
  destruct (Exec _ w3) as [w4 [err|n']] eqn:E3; [discriminate|]. pose proof (sequence_default _ _ _ _ _ _ E3 full) as S3.
  unfold updateExtraTableInfo. destruct (Exec _ w4) as [w5 [err|n'']] eqn:E4; [discriminate|]. pose proof (sequence_comment _ _ _ _ _ E4 full) as S4.
  destruct (withSchema env _ w5) as [[[w6 t6] [err|]]|] eqn:E5; [discriminate| |discriminate]. cbn [mbind outcome_bind]. intros [= <- <-].
  pose proof (sequence_schema _ _ _ _ _ _ E5 full) as S5.
  assert (Ei : info_of t6 = with_sequence full (info_of t)) by (unfold withSchema in E5; go_inv; reflexivity).
  rewrite Ei. cbn [Sequence with_sequence]. split; [|congruence]. injection Eg as _ <-. eexists. reflexivity.
Qed.
End Auto.

(** ** Columns are read back *)
Section Columns.
Context `{SqlTypeLaws} `{CatalogDB} `{SchemaLib} `{JsonType CheckDefinition} `{!PkSchemaLib}.

(** The members of an ENUM or SET are valid UTF-8. *)
Definition values_valid (t : sqlType) : Prop := forall vs c, attrs_of t = Some (Vals vs c) -> Forall (fun v => ValidString v = true) vs.

Lemma my_valid_intro name l p s u d c vs dflt auto : ValidString name = true -> 0 <= l < 2 ^ 32 -> 0 <= p < 2 ^ 8 -> 0 <= s < 2 ^ 8 -> 0 <= d < 2 ^ 8 ->
  0 <= c < 2 ^ 16 -> Forall (fun v => ValidString v = true) vs -> ValidString dflt = true -> my_valid (mkMyType name l p s u d c vs dflt auto).
Proof. unfold my_valid. cbn. auto 10. Qed.

Lemma u8_range z : 0 <= u8 z < 2 ^ 8.
Proof. apply Z.mod_pos_bound. lia. Qed.
Lemma u16_range z : 0 <= u16 z < 2 ^ 16.
Proof. apply Z.mod_pos_bound. lia. Qed.
Lemma u32_range z : 0 <= u32 z < 2 ^ 32.
Proof. apply Z.mod_pos_bound. lia. Qed.

Lemma duck_of_valid q a : attrs_bounds a -> (forall vs c, a = Vals vs c -> Forall (fun v => ValidString v = true) vs) -> my_valid (mysql (duck_of q a)).
Proof.
  intros Hb Hv. destruct a as [|w|p|p s|l c|n|vs c]; cbn [duck_of attrs_bounds] in *.
  - destruct q; apply my_valid_intro; cbn -[u8 u16 u32 Z.pow Z.min]; (reflexivity || lia || constructor).
  - pose proof (u8_range w). destruct q; apply my_valid_intro; cbn -[u8 u16 u32 Z.pow Z.min]; (reflexivity || assumption || lia || constructor).
  - pose proof (u8_range p). destruct (decide (q = Q_TIMESTAMP)); apply my_valid_intro; cbn -[u8 u16 u32 Z.pow Z.min]; (reflexivity || assumption || lia || constructor).
  - unfold DuckDBDecimalTypeMaxPrecision. apply my_valid_intro; cbn -[u8 u16 u32 Z.pow Z.min]; (reflexivity || lia || constructor).
  - pose proof (u32_range l). pose proof (u16_range c). destruct q; apply my_valid_intro; cbn -[u8 u16 u32 Z.pow Z.min]; (reflexivity || assumption || lia || constructor).
  - apply my_valid_intro; cbn -[u8 u16 u32 Z.pow Z.min]; (reflexivity || lia || constructor).
  - pose proof (u16_range c). specialize (Hv vs c eq_refl). destruct (decide (q = Q_ENUM)); apply my_valid_intro; cbn -[u8 u16 u32 Z.pow Z.min]; (reflexivity || assumption || lia || constructor).
Qed.

(** The annotation a new column is stored with. *)
Definition annotation (col : SqlColumn) (m : MySQLType) : MySQLType :=
  match c_Default col with Some d => set_default (Default_String d) m | None => if c_AutoIncrement col then set_auto true m else m end.

Lemma annotation_valid col m : my_valid m -> (forall d, c_Default col = Some d -> ValidString (Default_String d) = true) -> my_valid (annotation col m).
Proof.
  intros Hm Hd. unfold annotation. destruct (c_Default col) as [d|]; [specialize (Hd d eq_refl)|destruct (c_AutoIncrement col)];
    unfold my_valid in *; cbn; intuition.
Qed.

(** The comment a new column gets. *)
Definition column_comment (full : string) (col : SqlColumn) (m : MySQLType) : string :=
  "COMMENT ON COLUMN " +:+ full +:+ " IS '" +:+ Encode (NewCommentWithMeta (c_Comment col) (annotation col m)) +:+ "'".

Lemma create_column_comments d name temporary col b w w' b' typ : DuckdbDataType (c_Type col) = Ret (inr typ) -> my_Name (mysql typ) <> EmptyString ->
  create_column d name temporary col b w = Ret (w', inr b') ->
  b_comments b' = b_comments b ++ [column_comment (if temporary then FullColumnName "temp" "main" name (c_Name col)
                                                   else FullColumnName (d_catalog d) (d_name d) name (c_Name col)) col (mysql typ)].
Proof.
  intros Ht Hn. unfold create_column. rewrite Ht. cbn [mbind outcome_bind]. unfold column_comment, annotation.
  destruct (c_Default col) as [dflt|] eqn:Ed.
  - destruct (parseDefaultValue Parse _) as [[err|e]|]; [discriminate| |discriminate]. cbn [mbind outcome_bind]. intros [= _ <-]. cbn [b_comments].
    rewrite decide_True by (right; right; discriminate). reflexivity.
  - destruct (c_AutoIncrement col).
    + destruct (NewRandom w) as [err|[w1 u]]; [discriminate|]. intros [= _ <-]. cbn [b_comments]. rewrite decide_True by (right; left; exact Hn). reflexivity.
    + intros [= _ <-]. cbn [b_comments]. rewrite decide_True by (right; left; exact Hn). reflexivity.
Qed.

Definition null_cell (o : option Z) : Cell := match o with Some z => CellInt z | None => CellNull end.
Definition null_text (o : option string) : Cell := match o with Some s => CellStr s | None => CellNull end.

(** What DuckDB reports of a column: a name for its type, and precision and
    scale of a DECIMAL as it was declared. *)
Definition reports (typ : AnnotatedDuckType) (dt : string) (p s : option Z) : Prop :=
  duckName_of dt = duckName_of (duck_name typ)
  /\ (my_Name (mysql typ) = "DECIMAL" -> p = Some (my_Precision (mysql typ)) /\ s = Some (my_Scale (mysql typ))).

Lemma mysql_annotation_name col m : my_Name (annotation col m) = my_Name m.
Proof. unfold annotation. destruct (c_Default col); [reflexivity|]. destruct (c_AutoIncrement col); reflexivity. Qed.

(** [mysqlDataType] looks at neither the default nor the AUTO_INCREMENT flag. *)
Lemma mysqlDataType_annotation col dt m p s : mysqlDataType (mkDuckType dt (annotation col m)) p s = mysqlDataType (mkDuckType dt m) p s.
Proof. unfold annotation. destruct (c_Default col); [reflexivity|]. destruct (c_AutoIncrement col); reflexivity. Qed.

Lemma column_read_back db table col typ idx dt dflt p s :
  DuckdbDataType (c_Type col) = Ret (inr typ) -> storable (Type' (c_Type col)) = true -> values_valid (c_Type col) ->
  ValidString (c_Comment col) = true -> (forall d, c_Default col = Some d -> ValidString (Default_String d) = true /\ Default_String d <> EmptyString) ->
  reports typ dt p s -> (c_Default col <> None -> dflt <> None) ->
  exists ci, scan_column [CellStr (c_Name col); CellInt idx; CellStr dt; CellBool (c_Nullable col); null_text dflt;
                          CellStr (Encode (NewCommentWithMeta (c_Comment col) (annotation col (mysql typ)))); null_cell p; null_cell s] = inr ci
    /\ let c := schema_column db table ci in
       c_Name c = c_Name col /\ c_Nullable c = c_Nullable col /\ c_Comment c = c_Comment col
       /\ c_AutoIncrement c = match c_Default col with Some _ => false | None => c_AutoIncrement col end
       /\ c_Default c = option_map (fun d => NewUnresolvedColumnDefaultValue (Default_String d)) (c_Default col)
       /\ restored (c_Type col) (c_Type c).
Proof.
  intros Ht Hs Hv Hc Hd [Hdt Hnum] Hdflt. destruct (attrs_total (c_Type col) Hs) as (a & Ha & Hb).
  pose proof Ht as Ht'. rewrite (DuckdbDataType_of _ a Ha Hb) in Ht'. injection Ht' as Etyp.
  assert (Hm : my_valid (annotation col (mysql typ))).
  { apply annotation_valid; [|intros d Ed; apply Hd, Ed]. rewrite <- Etyp. apply duck_of_valid; [exact Hb|]. intros vs c0 ->. eapply Hv, Ha. }
  pose proof (DecodeComment_Encode (mkComment (c_Comment col) (annotation col (mysql typ))) Hc Hm) as Ec.
  assert (Hprec : my_Name (mysql typ) = "DECIMAL" -> u8 (default 0 p) = my_Precision (mysql typ) /\ u8 (default 0 s) = my_Scale (mysql typ)).
  { intros En. destruct (Hnum En) as [-> ->]. cbn [default]. destruct Hm as (_ & _ & Hp & Hsc & _).
    assert (E1 : my_Precision (annotation col (mysql typ)) = my_Precision (mysql typ)) by (unfold annotation; destruct (c_Default col); [|destruct (c_AutoIncrement col)]; reflexivity).
    assert (E2 : my_Scale (annotation col (mysql typ)) = my_Scale (mysql typ)) by (unfold annotation; destruct (c_Default col); [|destruct (c_AutoIncrement col)]; reflexivity).
    rewrite E1 in Hp. rewrite E2 in Hsc. unfold default, id. rewrite !u8_id by lia. auto. }
  destruct (mysqlDataType_restores (c_Type col) typ dt _ _ Ht Hs Hdt Hprec) as (t' & Em & Hr).
  eexists (mkColumnInfo _ (c_Name col) idx t' (c_Nullable col) dflt _). split.
  - unfold scan_column. cbn [scan_string scan_int scan_bool].
    replace (scan_null_string (null_text dflt)) with (Some dflt) by (destruct dflt; reflexivity).
    replace (scan_null_int (null_cell p)) with (Some p) by (destruct p; reflexivity).
    replace (scan_null_int (null_cell s)) with (Some s) by (destruct s; reflexivity). cbn [scan_null_string].
    unfold NewCommentWithMeta. cbn [default]. unfold id. rewrite Ec. cbn [Meta]. rewrite mysqlDataType_annotation. unfold default, id in Em. unfold default, id. rewrite Em. reflexivity.
  - unfold schema_column. cbn [ci_Comment ci_ColumnName ci_DataType ci_IsNullable ci_ColumnDefault default]. unfold NewCommentWithMeta, id. rewrite Ec. cbn [Meta Text].
    cbn [c_Name c_Nullable c_Comment c_AutoIncrement c_Default c_Type]. repeat split; try exact Hr.
    + unfold annotation. rewrite <- Etyp. destruct (c_Default col); [|destruct (c_AutoIncrement col)]; try reflexivity;
        destruct a, (Type' (c_Type col)); reflexivity.
    + unfold annotation. destruct (c_Default col) as [d|] eqn:Ed; cbn [option_map].
      * destruct dflt as [x|]; [|exfalso; apply Hdflt; [discriminate | reflexivity]]. cbn [my_Default set_default].
        rewrite decide_False by (apply (Hd d), eq_refl). reflexivity.
      * destruct dflt; [|reflexivity]. rewrite decide_True; [reflexivity|]. rewrite <- Etyp. destruct (c_AutoIncrement col), a, (Type' (c_Type col)); reflexivity.
    + apply Hr.
    + apply Hr.
Qed.
End Columns.

(** ** Names as patterns *)
(** ILIKE: [%] is any text, [_] any character, the rest compared without case. *)
Fixpoint ilike (pattern : string) : string -> bool :=
  match pattern with
  | EmptyString => fun s => match s with EmptyString => true | _ => false end
  | String c pattern =>
      if decide (c = "%"%char) then
        fix any (s : string) : bool := ilike pattern s || match s with EmptyString => false | String _ s' => any s' end
      else fun s =>
        match s with
        | EmptyString => false
        | String d s' => (bool_decide (c = "_"%char) || bool_decide (lower_ascii c = lower_ascii d)) && ilike pattern s'
        end
  end.

Definition wildcard (c : ascii) : bool := bool_decide (c = "%"%char) || bool_decide (c = "_"%char).
Fixpoint plain_name (s : string) : bool := match s with EmptyString => true | String c s' => negb (wildcard c) && plain_name s' end.

(** A name without wildcards matches the names that differ from it in case only. *)
Lemma ilike_plain name s : plain_name name = true -> ilike name s = bool_decide (fold_name name = fold_name s).
Proof.
  revert s. induction name as [|c name IH]; intros s Hp.
  - destruct s; reflexivity.
  - cbn in Hp. apply andb_true_iff in Hp. destruct Hp as [Hc Hp]. apply negb_true_iff, orb_false_iff in Hc. destruct Hc as [H1 H2].
    apply bool_decide_eq_false in H1. cbn [ilike]. rewrite decide_False by exact H1. destruct s as [|d s]; [reflexivity|]. rewrite H2, IH by exact Hp. cbn [orb fold_name].
    destruct (bool_decide_reflect (lower_ascii c = lower_ascii d)) as [->|Hn]; cbn [andb].
    + apply bool_decide_ext. split; [intros ->; reflexivity | intros [= E]; exact E].
    + symmetry. apply bool_decide_eq_false. intros [= E _]. contradiction.
Qed.

Lemma ilike_percent s : ilike "%" s = true.
Proof. induction s as [|c s IH]; [reflexivity|]. exact IH. Qed.

Section Found.
Context `{SqlTypes} `{CatalogDB} `{SchemaLib} `{JsonType CheckDefinition} `{!PkSchemaLib}.

(** The rows of duckdb_tables(). *)
Record TableRow : Type := mkTableRow { r_database : string; r_schema : string; r_temporary : bool; r_name : string; r_pk : bool; r_comment : option string }.
Definition row_cells (r : TableRow) : list Cell := [CellStr (r_name r); CellBool (r_pk r); null_text (r_comment r)].
(** The condition of [tables_query]. *)
Definition row_matches (d : Database) (pattern : string) (r : TableRow) : bool :=
  (bool_decide (r_database r = d_catalog d) && bool_decide (r_schema r = d_name d) && ilike pattern (r_name r))
  || (r_temporary r && ilike pattern (r_name r)).

Class TableLaws : Type := {
  duckdb_tables : cdb -> list TableRow;
  tables_rows : forall d pattern w, exists w',
    QueryCatalog tables_query [d_catalog d; d_name d; pattern; pattern] w
    = (w', inr (map row_cells (List.filter (row_matches d pattern) (duckdb_tables w)), None))
}.
Context `{TableLaws}.

Definition table_of (d : Database) (r : TableRow) : Table := NewTable d (r_name r) (DecodeComment (default EmptyString (r_comment r))) (r_pk r).

Lemma scan_table_cells d r : scan_table d (row_cells r) = Some (table_of d r).
Proof. unfold scan_table, row_cells, table_of. cbn. destruct (r_comment r); reflexivity. Qed.

Lemma findTables_rows d pattern w : exists w', findTables d pattern w = (w', inr (map (table_of d) (List.filter (row_matches d pattern) (duckdb_tables w)))).
Proof.
  destruct (tables_rows d pattern w) as [w' E]. exists w'. unfold findTables. rewrite E.
  assert (Em : forall l, mapM (scan_table d) (map row_cells l) = Some (map (table_of d) l)).
  { induction l as [|r l IH]; [reflexivity|]. cbn [map mapM]. rewrite scan_table_cells. cbn. rewrite IH. reflexivity. }
  rewrite Em. reflexivity.
Qed.

(** The tables of a database and the temporary ones. *)
Definition in_database (d : Database) (r : TableRow) : bool :=
  (bool_decide (r_database r = d_catalog d) && bool_decide (r_schema r = d_name d)) || r_temporary r.

Lemma row_matches_in d pattern r : row_matches d pattern r = in_database d r && ilike pattern (r_name r).
Proof. unfold row_matches, in_database. destruct (bool_decide _), (bool_decide _), (r_temporary r), (ilike _ _); reflexivity. Qed.

(** Looking for a name without wildcards finds the tables of that name. *)
Lemma findTables_named d name w : plain_name name = true ->
  exists w', findTables d name w =
    (w', inr (map (table_of d) (List.filter (fun r => in_database d r && bool_decide (fold_name name = fold_name (r_name r))) (duckdb_tables w)))).
Proof.
  intros Hn. destruct (findTables_rows d name w) as [w' E]. exists w'. rewrite E. do 3 f_equal. apply filter_ext. intros r.
  rewrite row_matches_in, ilike_plain by exact Hn. reflexivity.
Qed.
End Found.

(** ** Indexes *)
Section IndexFacts.
Context `{SqlTypes} `{CatalogDB} `{SchemaLib}.

(** The row DuckDB reports of an index is read as it was created, up to the
    columns, which are those the parser finds in its text. *)
Lemma scan_index_read ParseIndex db table columns ix names sql denorm :
  contains_dollar table = false -> contains_dollar (ix_Name ix) = false -> ValidString (ix_Comment ix) = true ->
  DenormalizeStrings sql = Ret denorm -> ParseIndex denorm = IndexColumns names ->
  scan_index ParseIndex db table columns
    [CellStr (EncodeIndexName table (ix_Name ix)); CellBool (ix_unique ix);
     CellStr (Encode (NewComment (T := option json) (ix_Comment ix))); CellStr sql]
  = Ret (inr (NewIndex db table (ix_Name ix) (ix_unique ix) (NewComment (ix_Comment ix)) (names ≫= column_expr db table columns))).
Proof.
  intros Ht Hi Hc Ed Ep. unfold scan_index. cbn [scan_string scan_bool scan_null_string]. unfold DecodeCreateindex. rewrite Ed. cbn [mbind outcome_bind]. rewrite Ep.
  cbn [mbind outcome_bind default]. unfold id. rewrite DecodeIndexName_Encode by assumption.
  rewrite (DecodeComment_Encode (NewComment (ix_Comment ix))) by (exact Hc || exact I). reflexivity.
Qed.
End IndexFacts.
