(* ===== verification/CatalogModel.v ===== *)
(** * A concrete catalog

    Instances of the parameters of the catalog's files: column types as a kind
    with attributes, check constraints with their JSON, and a small database
    with one table whose comment, columns and rows it keeps, two sequences, and a list of
    tables.  They show that the laws can hold together; the witnesses evaluate
    on them. *)

From S2P Require Import Prelude Identifier CatalogErrors Schema GoJson Comment Quotes TypeMapping CatalogTable CatalogDatabase Inserter CatalogFacts.
From S2P Require Delta.
From Stdlib Require Import Ascii.

(** ** Types *)
Definition width_of (a : attrs) : Z := match a with Width w => w mod 256 | _ => 0 end.
Definition prec_of (a : attrs) : Z := match a with Prec p => p mod 7 | _ => 0 end.
Definition dec_of (a : attrs) : Z * Z :=
  match a with Dec p s => if (0 <? p) && (p <=? 65) && (0 <=? s) && (s <=? 30) && (s <=? p) then (p, s) else (10, 0) | _ => (10, 0) end.
Definition str_of (q : qtype) (a : attrs) : Z * Z :=
  let '(l, c) := match a with Str l c => (l mod 2 ^ 32, c mod 2 ^ 16) | _ => (1, 1) end in
  (l, if decide (q = Q_BINARY \/ q = Q_VARBINARY) then 63 else c).
Definition bits_of (a : attrs) : Z := match a with Bits n => if (0 <? n) && (n <=? 64) then n else 1 | _ => 1 end.
Definition vals_of (a : attrs) : list string * Z := match a with Vals vs c => (vs, c mod 2 ^ 16) | _ => ([], 0) end.

#[export] Instance type_model : SqlTypes := {|
  sqlType := qtype * attrs;
  Type' := fst;
  type_String t := "type";
  Equals a b := bool_decide (fst a = fst b);
  NumberType_DisplayWidth t := Some (width_of (snd t));
  DatetimeType_Precision t := Some (prec_of (snd t));
  DecimalType_attrs t := Some (dec_of (snd t));
  StringType_attrs t := Some (str_of (fst t) (snd t));
  BitType_NumberOfBits t := Some (bits_of (snd t));
  EnumType_attrs t := if decide (fst t = Q_ENUM) then Some (vals_of (snd t)) else None;
  SetType_attrs t := if decide (fst t = Q_SET) then Some (vals_of (snd t)) else None;
  EnumType_At t i := if decide (fst t = Q_ENUM) then if 1 <=? i then fst (vals_of (snd t)) !! Z.to_nat (i - 1) else None else None;
  CreateNumberTypeWithDisplayWidth q w := Some (q, Width w);
  CreateBitType n := Some (Q_BIT, Bits n);
  CreateDatetimeType q p := Some (q, Prec p);
  CreateDecimalType p s := Some (Q_DECIMAL, Dec p s);
  CreateString q l c := Some (q, Str l c);
  CreateBinary q l := Some (q, Str l 63);
  CreateEnumType vs c := Some (Q_ENUM, Vals vs c);
  CreateSetType vs c := Some (Q_SET, Vals vs c);
  types_Year := (Q_YEAR, NoAttrs); types_Float32 := (Q_FLOAT32, NoAttrs); types_Float64 := (Q_FLOAT64, NoAttrs);
  types_Date := (Q_DATE, NoAttrs); types_Time := (Q_TIME, NoAttrs); types_JSON := (Q_JSON, NoAttrs);
  types_TinyText := (Q_TEXT, Str 255 1); types_Text := (Q_TEXT, Str 65535 1); types_MediumText := (Q_TEXT, Str 16777215 1);
  types_LongText := (Q_TEXT, Str 4294967295 1);
  types_TinyBlob := (Q_BLOB, Str 255 63); types_Blob := (Q_BLOB, Str 65535 63); types_MediumBlob := (Q_BLOB, Str 16777215 63);
  types_LongBlob := (Q_BLOB, Str 4294967295 63);
  TinyTextBlobMax := 255; TextBlobMax := 65535; MediumTextBlobMax := 16777215
|}.

Lemma dec_of_bounds a : let '(p, s) := dec_of a in attrs_bounds (Dec p s).
Proof.
  destruct a as [| | |p s| | |]; cbn -[Z.ltb Z.leb]; try lia.
  destruct (Z.ltb_spec 0 p), (Z.leb_spec p 65), (Z.leb_spec 0 s), (Z.leb_spec s 30), (Z.leb_spec s p); cbn; lia.
Qed.
Lemma dec_of_id p s : attrs_bounds (Dec p s) -> dec_of (Dec p s) = (p, s).
Proof.
  cbn -[Z.ltb Z.leb]. intros. destruct (Z.ltb_spec 0 p), (Z.leb_spec p 65), (Z.leb_spec 0 s), (Z.leb_spec s 30), (Z.leb_spec s p); cbn; lia || reflexivity.
Qed.
Lemma str_of_bounds q a : let '(l, c) := str_of q a in attrs_bounds (Str l c).
Proof.
  unfold str_of. destruct a; cbn -[Z.pow Z.modulo]; destruct (decide _); cbn -[Z.pow Z.modulo];
    try lia; try (pose proof (Z.mod_pos_bound length (2 ^ 32)); pose proof (Z.mod_pos_bound collation (2 ^ 16)); lia).
Qed.
Lemma bits_of_bounds a : attrs_bounds (Bits (bits_of a)).
Proof. destruct a; cbn -[Z.ltb Z.leb]; try lia. destruct (Z.ltb_spec 0 n), (Z.leb_spec n 64); cbn; lia. Qed.
Lemma vals_of_bounds a : attrs_bounds (Vals (fst (vals_of a)) (snd (vals_of a))).
Proof. destruct a; cbn -[Z.pow Z.modulo]; try lia. apply Z.mod_pos_bound. lia. Qed.

(** The attributes of a type of each kind. *)
Definition clamp (q : qtype) (a : attrs) : attrs :=
  match q with
  | Q_INT8 | Q_UINT8 | Q_INT16 | Q_UINT16 | Q_INT24 | Q_UINT24 | Q_INT32 | Q_UINT32 | Q_INT64 | Q_UINT64 => Width (width_of a)
  | Q_TIMESTAMP | Q_DATETIME => Prec (prec_of a)
  | Q_DECIMAL => Dec (fst (dec_of a)) (snd (dec_of a))
  | Q_TEXT | Q_BLOB | Q_VARCHAR | Q_VARBINARY | Q_CHAR | Q_BINARY => Str (fst (str_of q a)) (snd (str_of q a))
  | Q_BIT => Bits (bits_of a)
  | Q_ENUM | Q_SET => Vals (fst (vals_of a)) (snd (vals_of a))
  | _ => NoAttrs
  end.

Lemma attrs_model q a : attrs_of (q, a) = if storable q then Some (clamp q a) else None.
Proof.
  unfold attrs_of. cbn [Type' type_model fst snd]. destruct q; try reflexivity; cbn -[str_of dec_of vals_of];
    try (destruct (str_of _ a)); try (destruct (dec_of a)); try (destruct (vals_of a)); reflexivity.
Qed.

Lemma clamp_bounds q a : attrs_bounds (clamp q a).
Proof.
  pose proof (dec_of_bounds a) as Hd. pose proof (str_of_bounds q a) as Hs. pose proof (bits_of_bounds a) as Hb. pose proof (vals_of_bounds a) as Hv.
  assert (Hw : 0 <= width_of a < 256) by (destruct a; cbn; try lia; apply Z.mod_pos_bound; lia).
  assert (Hp : 0 <= prec_of a <= 6) by (destruct a; cbn; try lia; pose proof (Z.mod_pos_bound p 7); lia).
  destruct (dec_of a) eqn:Ed, (str_of q a) eqn:Es.
  destruct q; unfold clamp; rewrite ?Es, ?Ed; first [exact I | exact Hw | exact Hp | exact Hd | exact Hs | exact Hb | exact Hv].
Qed.

Lemma str_of_binary q a : q = Q_BINARY \/ q = Q_VARBINARY -> snd (str_of q a) = 63.
Proof. intros H. unfold str_of. destruct a; cbn; rewrite decide_True by exact H; reflexivity. Qed.

Lemma create_model q a : storable q = true -> q <> Q_DECIMAL ->
  exists a', create q (clamp q a) = Some (q, a') /\ (q <> Q_TEXT -> q <> Q_BLOB -> a' = clamp q a).
Proof.
  intros Hs Hq. pose proof (str_of_binary q a) as Hb. unfold clamp, create, text_by_length, blob_by_length.
  destruct q; try discriminate Hs; try contradiction; cbn -[str_of Z.leb vals_of];
    repeat match goal with |- context [if ?x <=? ?y then _ else _] => destruct (x <=? y) end;
    eexists; (split; [reflexivity|]); intros H1 H2; try contradiction; try reflexivity; rewrite Hb by tauto; reflexivity.
Qed.

Lemma clamp_clamp q a : clamp q (clamp q a) = clamp q a.
Proof.
  pose proof (clamp_bounds q a) as Hc. destruct q; unfold clamp in *; try reflexivity; cbn [attrs_bounds] in Hc; f_equal.
  all: try (cbn; rewrite Z.mod_small by lia; reflexivity).
  all: try (cbn -[Z.ltb Z.leb str_of dec_of bits_of] in *).
  all: try (unfold bits_of at 1; destruct (Z.ltb_spec 0 (bits_of a)), (Z.leb_spec (bits_of a) 64); cbn; lia).
  all: try (unfold dec_of at 1; repeat match goal with |- context [?x <=? ?y] => destruct (Z.leb_spec x y) | |- context [?x <? ?y] => destruct (Z.ltb_spec x y) end; cbn -[dec_of]; lia || reflexivity).
  all: unfold str_of at 1; rewrite !Z.mod_small by lia; try reflexivity; rewrite decide_True by tauto; cbn -[str_of]; try reflexivity; symmetry; apply str_of_binary; tauto.
Qed.

#[export] Instance type_model_laws : SqlTypeLaws.
Proof.
  split.
  - intros [q a] Hs. rewrite attrs_model. cbn in Hs. rewrite Hs. eexists. split; [reflexivity | apply clamp_bounds].
  - intros [q a0] a. rewrite attrs_model. cbn [Type' type_model fst]. destruct (storable q) eqn:Hs; [|discriminate]. intros [= <-] Hnd H1 H2.
    destruct (create_model q a0 Hs) as (a' & Ec & Ha'); [intros ->; eapply Hnd; reflexivity|].
    exists (q, a'). split; [exact Ec|]. split; [reflexivity|]. rewrite attrs_model, Hs, (Ha' H1 H2), clamp_clamp. reflexivity.
  - intros p s Hb. eexists. split; [reflexivity|]. split; [reflexivity|]. rewrite attrs_model. cbn [storable clamp]. rewrite dec_of_id by exact Hb. reflexivity.
  - repeat split.
  - intros z. destruct z; (split; [reflexivity|]); do 2 eexists; (split; [reflexivity|]); reflexivity.
  - intros z. destruct z; (split; [reflexivity|]); do 2 eexists; (split; [reflexivity|]); reflexivity.
Qed.

(** ** Checks and the parser *)
Record Check : Type := mkCheck { ck_Name : string; ck_CheckExpression : string; ck_Enforced : bool }.
Definition check_fields : list string := ["Name"; "CheckExpression"; "Enforced"].
Definition check_set (name : string) (j : json) (c : Check) : option Check :=
  if decide (name = "Name") then v ← of_json_string j (ck_Name c); Some (mkCheck v (ck_CheckExpression c) (ck_Enforced c))
  else if decide (name = "CheckExpression") then v ← of_json_string j (ck_CheckExpression c); Some (mkCheck (ck_Name c) v (ck_Enforced c))
  else v ← of_json_bool j (ck_Enforced c); Some (mkCheck (ck_Name c) (ck_CheckExpression c) v).

#[export] Instance schema_model : SchemaLib := {|
  ColumnDefault := string; Default_String := fun s => s; NewUnresolvedColumnDefaultValue := fun s => s;
  Parse := fun _ => OtherExpr; CheckDefinition := Check; check_Name := ck_Name
|}.

#[export] Instance check_json : JsonType CheckDefinition := {|
  json_zero := mkCheck EmptyString EmptyString false : CheckDefinition;
  json_empty := fun _ => false;
  to_json := fun c : Check => JObj [("Name", JStr (ck_Name c)); ("CheckExpression", JStr (ck_CheckExpression c)); ("Enforced", JBool (ck_Enforced c))];
  of_json := of_json_struct check_fields check_set
|}.

#[export, refine] Instance check_laws : JsonLaws CheckDefinition := {|
  json_valid := fun c : Check => ValidString (ck_Name c) = true /\ ValidString (ck_CheckExpression c) = true;
  to_json_ok := _; of_to_json := _; json_empty_zero := fun t _ E => False_ind _ (diff_false_true E)
|}.
Proof.
  - intros [n e b] [Hn He]. cbn in *. constructor. repeat constructor; assumption.
  - intros [n e b] [Hn He]. cbn [to_json of_json json_zero check_json ck_Name ck_CheckExpression ck_Enforced] in *. rewrite of_json_struct_obj.
    rewrite (member_step _ _ _ (mkCheck n EmptyString false)); [|repeat constructor | reflexivity].
    rewrite (member_step _ _ _ (mkCheck n e false)); [|repeat constructor | reflexivity].
    rewrite (member_step _ _ _ (mkCheck n e b)); [reflexivity|repeat constructor | reflexivity].
Defined.

#[export] Instance pk_model : PkSchemaLib := {| NewPkOrdinals := fun _ ordinals => ordinals |}.

(** ** The database *)
Definition db0 : Database := mkDatabase "mysql" "shop".
Definition full0 : string := FullTableName "mysql" "shop" "items".
Definition seq_name (n : string) : string := sys_schema +:+ "." +:+ dquote +:+ SequenceNamePrefix +:+ n +:+ dquote.
Definition seq0 : string := seq_name "0".
Definition seq1 : string := seq_name "1".
Definition tmp0 : string := tmp_name "shop" "items" 7.

Record mdb : Type := mkMdb {
  m_comment : string; m_seq0 : option (Z * option Z); m_seq1 : option (Z * option Z);
  m_target : list (list RowVal); m_temp : option (list (list RowVal));
  m_columns : list (list Cell); m_pk : list (list Cell); m_tables : list TableRow
}.
Definition set_m_comment c (w : mdb) := mkMdb c (m_seq0 w) (m_seq1 w) (m_target w) (m_temp w) (m_columns w) (m_pk w) (m_tables w).
Definition set_m_seq0 q (w : mdb) := mkMdb (m_comment w) q (m_seq1 w) (m_target w) (m_temp w) (m_columns w) (m_pk w) (m_tables w).
Definition set_m_seq1 q (w : mdb) := mkMdb (m_comment w) (m_seq0 w) q (m_target w) (m_temp w) (m_columns w) (m_pk w) (m_tables w).
Definition set_m_rows a t (w : mdb) := mkMdb (m_comment w) (m_seq0 w) (m_seq1 w) a t (m_columns w) (m_pk w) (m_tables w).

(** Statements are separated by semicolons; only comments on the table have an effect. *)
Fixpoint split_semi (s : string) : list string :=
  match s with
  | EmptyString => [EmptyString]
  | String c s' =>
      if decide (c = ";"%char) then EmptyString :: split_semi s'
      else match split_semi s' with p :: l => String c p :: l | [] => [str1 c] end
  end.
Definition comment_prefix : string := "COMMENT ON TABLE " +:+ full0 +:+ " IS '".
Fixpoint drop_last (s : string) : string := match s with EmptyString | String _ EmptyString => EmptyString | String c s' => String c (drop_last s') end.
Definition drop_space (s : string) : string := match s with String c s' => if decide (c = " "%char) then s' else s | _ => s end.
Definition run_piece (w : mdb) (piece : string) : mdb :=
  if String.prefix comment_prefix piece
  then set_m_comment (drop_last (drop_string (String.length comment_prefix) piece)) w
  else w.
Definition run_text (text : string) (w : mdb) : mdb := foldl run_piece w (map drop_space (split_semi text)).

Definition create_seq1 : string := "CREATE SEQUENCE " +:+ seq1 +:+ " START WITH ".

(** REPLACE by the first column. *)
Definition replace_rows (old new : list (list RowVal)) : list (list RowVal) :=
  foldl (fun acc r => List.filter (fun o => match o, r with RvOther a :: _, RvOther b :: _ => negb (a =? b) | _, _ => true end) acc ++ [r]) old new.

Definition model_exec (text : string) (w : mdb) : mdb * (string + Z) :=
  let w := run_text text w in
  if decide (text = create_text tmp0 "shop" "items") then
    (set_m_rows (m_target w) (Some (default [] (m_temp w))) w, inr 0)
  else if decide (text = drop_text tmp0) then (set_m_rows (m_target w) None w, inr 0)
  else if decide (text = flush_text false tmp0 "shop" "items") then
    match m_temp w with Some rows => (set_m_rows (m_target w ++ rows) (m_temp w) w, inr 0) | None => (w, inl "no such table") end
  else if decide (text = flush_text true tmp0 "shop" "items") then
    match m_temp w with Some rows => (set_m_rows (replace_rows (m_target w) rows) (m_temp w) w, inr 0) | None => (w, inl "no such table") end
  else if String.prefix create_seq1 text then
    match ParseInt 64 (drop_string (String.length create_seq1) text) with
    | Some v => (set_m_seq1 (Some (v, None)) w, inr 0)
    | None => (w, inl "bad sequence")
    end
  else (w, inr 0).

Definition one_int (z : Z) : string + Rows := inr ([[CellInt z]], None).
Definition model_currval (s : option (Z * option Z)) : string + Rows :=
  match s with
  | Some (_, Some v) => one_int (v + 1)
  | Some (_, None) => inl not_yet_defined
  | None => inl "no such sequence"
  end.
Definition model_query (q : string) (args : list string) (w : mdb) : mdb * (string + Rows) :=
  if decide (q = columns_query) then (w, inr (m_columns w, None))
  else if decide (q = primary_key_query) then (w, inr (m_pk w, None))
  else if decide (q = tables_query) then
    (w, match args with
        | [c; d; p; _] => inr (map row_cells (List.filter (row_matches (mkDatabase c d) p) (m_tables w)), None)
        | _ => inl "wrong number of arguments"
        end)
  else if decide (q = currval_query seq0) then (w, model_currval (m_seq0 w))
  else if decide (q = currval_query seq1) then (w, model_currval (m_seq1 w))
  else if decide (q = start_value_query seq0) then (w, match m_seq0 w with Some (start, _) => one_int start | None => inr ([], None) end)
  else if decide (q = start_value_query seq1) then (w, match m_seq1 w with Some (start, _) => one_int start | None => inr ([], None) end)
  else if decide (q = nextval_query seq0) then
    match m_seq0 w with Some s => (set_m_seq0 (Some (fst s, Some (upcoming s))) w, one_int (upcoming s)) | None => (w, inl "no such sequence") end
  else if decide (q = nextval_query seq1) then
    match m_seq1 w with Some s => (set_m_seq1 (Some (fst s, Some (upcoming s))) w, one_int (upcoming s)) | None => (w, inl "no such sequence") end
  else (w, inl "unknown query").

#[export] Instance db_model : CatalogDB := {|
  cdb := mdb; GetConn := inr; GetCatalogConn := inr; ConnExec := model_exec; ConnQuery := model_query; NewRandom := fun w => inr (w, "1")
|}.

#[export] Instance row_model : RowStatements := {|
  PStmt := unit;
  Prepare := fun text w => (w, inr tt);
  StmtExec := fun _ row (w : cdb) =>
    match m_temp w with Some rows => (set_m_rows (m_target w) (Some (rows ++ [row])) w, None) | None => (w, Some "no such table") end;
  StmtClose := fun _ w => (w, None)
|}.

(** ** The laws *)
Ltac texts := repeat first [rewrite decide_True by reflexivity | rewrite decide_False by (vm_compute; discriminate)].

Lemma run_text_frame text w : exists c, run_text text w = set_m_comment c w.
Proof.
  unfold run_text. generalize (map drop_space (split_semi text)). intros l. revert w.
  induction l as [|p l IH]; intros w; [exists (m_comment w); destruct w; reflexivity|]. cbn [foldl].
  assert (E : exists c, run_piece w p = set_m_comment c w) by (unfold run_piece; destruct (String.prefix _ _); [eexists; reflexivity | exists (m_comment w); destruct w; reflexivity]).
  destruct E as [c ->]. destruct (IH (set_m_comment c w)) as [c' ->]. exists c'. reflexivity.
Qed.
Ltac run_model := cbn [ConnExec db_model]; unfold model_exec; let c := fresh "c" in let E := fresh "E" in
  match goal with |- context [run_text ?t ?w] => destruct (run_text_frame t w) as [c E]; rewrite E; clear E end; cbn [m_target m_temp set_m_comment].

#[export, refine] Instance row_model_laws : RowLaws "shop" "items" tmp0 := {|
  target := fun w : cdb => m_target w; temp := fun w : cdb => m_temp w; or_replace := replace_rows; inserts := fun _ => True
|}.
Proof.
  - intros w w' [= <-]. auto.
  - intros w w' n Ht. run_model. texts. intros [= <- _]. cbn. rewrite Ht. auto.
  - intros w w' e. run_model. texts. discriminate.
  - intros schema text w w' r _ [= <- <-]. repeat split.
  - intros s row rows w w' _ Ht. cbn [StmtExec row_model]. rewrite Ht. intros [= <-]. auto.
  - intros s row w w' e _. cbn [StmtExec row_model]. destruct (m_temp w) eqn:E; [discriminate|]. intros [= <- _]. auto.
  - intros replace rows w w' n Ht. run_model. destruct replace; texts; rewrite Ht; intros [= <- _]; reflexivity.
  - intros replace w w' e. run_model. destruct replace; texts; (destruct (m_temp w); [discriminate|]); intros [= <- _]; reflexivity.
  - intros replace w Ht. run_model. destruct replace; texts; rewrite Ht; do 2 eexists; reflexivity.
  - intros w w' r. run_model. texts. intros [= <- <-]. cbn. auto.
  - intros s w w' e _ [= <- _]. auto.
Defined.

(** Statements without a semicolon, on the comment of this table only. *)
Fixpoint no_semi (s : string) : bool := match s with EmptyString => true | String c s' => negb (bool_decide (c = ";"%char)) && no_semi s' end.
Definition model_proper (s : Stmt) : bool :=
  no_semi (stmt_text s) && negb (String.prefix " " (stmt_text s))
  && match s with
     | CommentOnTable f _ => bool_decide (f = full0)
     | _ => negb (String.prefix comment_prefix (stmt_text s))
     end.

Lemma split_semi_plain s : no_semi s = true -> split_semi s = [s].
Proof.
  induction s as [|c s IH]; [reflexivity|]. cbn. intros H. apply andb_true_iff in H. destruct H as [Hc Hs].
  apply negb_true_iff, bool_decide_eq_false in Hc. rewrite decide_False by exact Hc. rewrite IH by exact Hs. reflexivity.
Qed.
Lemma split_semi_app s rest : no_semi s = true -> split_semi (s +:+ String ";" rest) = s :: split_semi rest.
Proof.
  induction s as [|c s IH]; [reflexivity|]. cbn [no_semi]. intros H. apply andb_true_iff in H. destruct H as [Hc Hs].
  apply negb_true_iff, bool_decide_eq_false in Hc. rewrite app_String. cbn [split_semi]. rewrite decide_False by exact Hc. rewrite IH by exact Hs. reflexivity.
Qed.
Lemma drop_last_app s c : drop_last (s +:+ str1 c) = s.
Proof.
  induction s as [|d s IH]; [reflexivity|]. rewrite app_String. cbn [drop_last]. rewrite IH. destruct s; reflexivity.
Qed.

Lemma proper_piece s w : model_proper s = true -> run_piece w (drop_space (stmt_text s)) = run_piece w (stmt_text s)
  /\ run_piece w (drop_space (String " " (stmt_text s))) = run_piece w (stmt_text s).
Proof.
  unfold model_proper. intros H. apply andb_true_iff in H. destruct H as [H _]. apply andb_true_iff in H. destruct H as [_ Hsp]. split; [|reflexivity].
  destruct (stmt_text s) as [|c t]; [reflexivity|]. cbn [drop_space]. destruct (decide (c = " "%char)) as [->|]; [|reflexivity].
  destruct t; discriminate Hsp.
Qed.

Lemma split_batch l : forall s, Forall (fun s => model_proper s = true) (s :: l) ->
  split_semi (batch_text (s :: l)) = stmt_text s :: map (fun s => String " " (stmt_text s)) l.
Proof.
  assert (Hno : forall s, model_proper s = true -> no_semi (stmt_text s) = true).
  { unfold model_proper. intros s H. apply andb_true_iff in H. destruct H as [H _]. apply andb_true_iff in H. apply H. }
  induction l as [|s' l IH]; intros s Hl; inversion_clear Hl as [|? ? Hs Hl'].
  - apply split_semi_plain, Hno, Hs.
  - change (batch_text (s :: s' :: l)) with (stmt_text s +:+ String ";" (String " " (batch_text (s' :: l)))).
    rewrite split_semi_app by (apply Hno, Hs). cbn [map]. f_equal. cbn [split_semi]. rewrite decide_False by discriminate.
    rewrite (IH s' Hl'). reflexivity.
Qed.

Lemma run_batch l w : Forall (fun s => model_proper s = true) l ->
  run_text (batch_text l) w = foldl (fun w s => run_piece w (stmt_text s)) w l.
Proof.
  destruct l as [|s l]; [reflexivity|]. intros Hl. unfold run_text. rewrite split_batch by exact Hl. cbn [map foldl]. inversion_clear Hl as [|? ? Hs Hl'].
  rewrite (proj1 (proper_piece s w Hs)). generalize (run_piece w (stmt_text s)). clear s Hs w.
  induction Hl' as [|s l Hs _ IH]; intros w; [reflexivity|]. cbn [map foldl]. rewrite (proj2 (proper_piece s w Hs)). apply IH.
Qed.

Lemma run_piece_comment s w : model_proper s = true ->
  m_comment (run_piece w (stmt_text s)) = match s with CommentOnTable _ text => text | _ => m_comment w end.
Proof.
  unfold model_proper. intros H. apply andb_true_iff in H. destruct H as [_ H]. unfold run_piece.
  destruct s; try (apply negb_true_iff in H; rewrite H; reflexivity).
  apply bool_decide_eq_true in H. subst. cbn [stmt_text].
  replace ("COMMENT ON TABLE " +:+ full0 +:+ " IS '" +:+ text +:+ "'") with (comment_prefix +:+ (text +:+ "'")).
  2: { unfold comment_prefix. rewrite !app_assoc_string. reflexivity. }
  rewrite prefix_app, drop_string_app. cbn [m_comment set_m_comment]. apply drop_last_app.
Qed.

Lemma run_batch_comment l : forall w, Forall (fun s => model_proper s = true) l ->
  m_comment (foldl (fun w s => run_piece w (stmt_text s)) w l) = last_comment full0 l (m_comment w).
Proof.
  unfold last_comment. induction l as [|s l IH]; intros w Hl; [reflexivity|]. inversion_clear Hl as [|? ? Hs Hl'].
  cbn [foldl]. rewrite IH, run_piece_comment by assumption. destruct s; try reflexivity.
  unfold model_proper in Hs. apply andb_true_iff in Hs. destruct Hs as [_ H]. apply bool_decide_eq_true in H. rewrite decide_True by exact H. reflexivity.
Qed.

Lemma other_comment full l old : full <> full0 -> Forall (fun s => model_proper s = true) l -> last_comment full l old = old.
Proof.
  intros Hf. unfold last_comment. revert old. induction l as [|s l IH]; intros old Hl; [reflexivity|]. inversion_clear Hl as [|? ? Hs Hl'].
  cbn [foldl]. rewrite IH by exact Hl'. destruct s; try reflexivity.
  unfold model_proper in Hs. apply andb_true_iff in Hs. destruct Hs as [_ H]. apply bool_decide_eq_true in H. rewrite decide_False by congruence. reflexivity.
Qed.

(** The statements of the inserter and of sequences leave the comment. *)
Lemma exec_comment_run text w w' r : model_exec text w = (w', r) -> m_comment w' = m_comment (run_text text w).
Proof.
  unfold model_exec. generalize (run_text text w). clear w. intros w. repeat (destruct (decide _)); repeat case_match; intros; simplify_eq; reflexivity.
Qed.

#[export, refine] Instance comment_model : CommentLaws := {|
  StoredComment := fun full (w : cdb) => if decide (full = full0) then m_comment w else EmptyString;
  proper := fun s => model_proper s = true
|}.
Proof.
  - intros l w w' n full Hl E. cbn in E. apply exec_comment_run in E. destruct (decide (full = full0)) as [->|Hf].
    + rewrite E, run_batch by exact Hl. apply run_batch_comment, Hl.
    + symmetry. apply other_comment; assumption.
  - intros w w' full [= <-]. reflexivity.
  - intros q args w w' r full [-> | ->] E; cbn in E; unfold model_query in E.
    + rewrite decide_True in E by reflexivity. injection E as <- _. reflexivity.
    + rewrite decide_False in E by (vm_compute; discriminate). rewrite decide_True in E by reflexivity. injection E as <- _. reflexivity.
  - intros w w' u full [= <- _]. reflexivity.
Defined.

(** ** Sequences and tables *)
Definition model_sequence (s : string) (w : mdb) : option (Z * option Z) :=
  if decide (s = seq0) then m_seq0 w else if decide (s = seq1) then m_seq1 w else None.

Lemma query_model q w : query_uint64 q w =
  Ret (fst (model_query q [] w), match snd (model_query q [] w) with
        | inr ([CellInt z] :: _, _) => match scan_uint64 (CellInt z) with Some v => inr v | None => inl scan_error end
        | inl err => inl err
        | inr (_ :: _, _) => inl scan_error
        | inr ([], Some err) => inl err
        | inr ([], None) => inl "sql: no rows in result set"
        end).
Proof.
  unfold query_uint64, QueryRowCatalog. cbn [GetCatalogConn ConnQuery db_model]. destruct (model_query q [] w) as [w' [err|[[|row rows] [err|]]]]; try reflexivity;
    cbn; destruct row as [|[] [|]]; reflexivity.
Qed.

Lemma scan_int64 z : 0 <= z < 2 ^ 63 -> scan_uint64 (CellInt z) = Some z.
Proof. intros. unfold scan_uint64. destruct (Z.leb_spec 0 z), (Z.ltb_spec z (2 ^ 64)); cbn; lia || reflexivity. Qed.

(** The queries of the two sequences. *)
Ltac which s := destruct (decide (s = seq0)) as [->|?]; [|destruct (decide (s = seq1)) as [->|?]; [|discriminate]].
Ltac run_query := rewrite query_model; unfold model_query; texts.

Lemma model_exec_sequences text w w' r : String.prefix create_seq1 text = false -> model_exec text w = (w', r) ->
  forall s, model_sequence s w' = model_sequence s w.
Proof.
  intros Hp. unfold model_exec. destruct (run_text_frame text w) as [c ->]. rewrite Hp. intros E s. unfold model_sequence.
  repeat case_match; simplify_eq; reflexivity.
Qed.

Lemma catalog_query_frame q args w : q = columns_query \/ q = primary_key_query -> fst (QueryCatalog q args w) = w.
Proof.
  unfold QueryCatalog. cbn [GetCatalogConn ConnQuery db_model]. unfold model_query. intros [-> | ->]; texts; reflexivity.
Qed.

Lemma withSchema_same env t w w' t' err : withSchema env t w = Ret (w', t', err) -> w' = w.
Proof.
  unfold withSchema, getPKSchema, queryColumns, getPrimaryKeyOrdinals.
  pose proof (catalog_query_frame columns_query [d_catalog (t_db t); d_name (t_db t); t_name t; t_name t] w (or_introl eq_refl)) as F1.
  destruct (QueryCatalog columns_query _ w) as [w1 r1]. cbn [fst] in F1. subst w1.
  destruct (match r1 with inl err => inl err | inr (rows, err) => _ end) as [e|columns]; [intros [= <- _ _]; reflexivity|].
  pose proof (catalog_query_frame primary_key_query [d_catalog (t_db t); d_name (t_db t); t_name t; t_name t] w (or_intror eq_refl)) as F2.
  destruct (QueryCatalog primary_key_query _ w) as [w2 r2]. cbn [fst] in F2. subst w2. intros Hr. go_inv; reflexivity.
Qed.

#[export, refine] Instance sequence_model : SequenceLaws := {| sequence := fun s (w : cdb) => model_sequence s w |}.
Proof.
  - intros s w start v Hs Hv. unfold model_sequence in Hs. which s; eexists; (split; [run_query; rewrite Hs; cbn -[scan_uint64]; rewrite scan_int64 by lia; reflexivity | intros s; reflexivity]).
  - intros s w start Hs. unfold model_sequence in Hs. which s; do 2 eexists; (split; [run_query; rewrite Hs; reflexivity | split; [reflexivity | intros s; reflexivity]]).
  - intros s w start last Hs _ Hv. unfold model_sequence in Hs. which s; eexists; (split; [run_query; rewrite Hs; cbn -[scan_uint64]; rewrite scan_int64 by lia; reflexivity | intros s; reflexivity]).
  - intros s w start last Hs Hv. change (match last with None => start | Some v => v + 1 end) with (upcoming (start, last)) in *.
    unfold model_sequence in Hs. which s; eexists; (split; [run_query; rewrite Hs; cbn -[scan_uint64 upcoming]; rewrite scan_int64 by exact Hv; reflexivity|]);
      unfold model_sequence; texts; reflexivity.
  - intros w0 u w w' n value create full [= <- <-] [= <- <-] Hv E. unfold Exec in E. cbn [GetConn ConnExec db_model] in E. unfold model_exec in E.
    change (("CREATE SEQUENCE " +:+ sys_schema +:+ "." +:+ dquote +:+ (SequenceNamePrefix +:+ "1") +:+ dquote) +:+ " START WITH " +:+ FormatInt value) with (create_seq1 +:+ FormatInt value) in E.
    destruct (run_text_frame (create_seq1 +:+ FormatInt value) w0) as [c Er]. rewrite Er, prefix_app, drop_string_app in E.
    rewrite ParseInt_FormatInt in E by lia.
    repeat match type of E with context [decide (create_seq1 +:+ FormatInt value = ?t)] => rewrite (decide_False (P := create_seq1 +:+ FormatInt value = t)) in E by (intros Ht; apply (f_equal (String.prefix create_seq1)) in Ht; rewrite prefix_app in Ht; discriminate Ht) end.
    injection E as <- _. reflexivity.
  - intros t column full w w' n E. eapply model_exec_sequences; [|exact E]. reflexivity.
  - intros t info w w' n E. eapply model_exec_sequences; [|exact E]. reflexivity.
  - intros env t w w' t' err E s. apply withSchema_same in E. subst. reflexivity.
Defined.

#[export, refine] Instance table_model : TableLaws := {| duckdb_tables := fun w : cdb => m_tables w |}.
Proof.
  intros [c d] pattern w. exists w. unfold QueryCatalog. cbn [GetCatalogConn ConnQuery db_model]. unfold model_query. texts. reflexivity.
Defined.
