(* ===== verification/Subscriptions.v ===== *)
(** * Subscriptions (src/pgserver/subscription_handler.go, src/pgserver/logrepl/subscription.go)

    The statements CREATE, ALTER and DROP SUBSCRIPTION: their parser, the
    snapshot, the rows of the internal table, and [UpdateSubscriptions], which
    brings the running replicators in line with those rows.  A goroutine that
    has been started and has not reached its loop yet is [spawned]. *)

From Stdlib Require Import Ascii String.
From stdpp Require Import pretty.
From S2P Require Import Prelude GoTime Charset Schema Identifier InternalTables Delta RowAppend PgDecode Session Logrepl Regexp.

#[local] Open Scope list_scope.

(** ** The statements *)
Inductive Action : Type := Create | Drop | AlterDisable | AlterEnable.
Record ConnectionDetails : Type := mkDetails { DBName : string; Host : string; Port : string; User : string; Password : string }.
Record SubscriptionConfig : Type := mkConfig {
  SubscriptionName : string; PublicationName : string; Connection : option ConnectionDetails; cfg_Action : Action
}.

Definition name_char (c : ascii) : bool := is_word c || char_is "-" c.   (* [\w-] *)
Definition not_quote (c : ascii) : bool := negb (char_is "'" c).         (* [^'] *)
Definition value_char (c : ascii) : bool := is_word c || char_is "." c || is_digit c. (* [\w\.\d] *)
Definition spaces : re := RPlus (RChar is_space).
Definition name_group (n : nat) : re := RGroup n (RPlus (RChar name_char)).

Definition createRegex : re := seq
  [ RBegin; lit_i "CREATE"; spaces; lit_i "SUBSCRIPTION"; spaces; name_group 1; spaces; lit_i "CONNECTION"; spaces;
    lit_i "'"; RGroup 2 (RPlus (RChar not_quote)); lit_i "'";
    ROpt (seq [spaces; lit_i "PUBLICATION"; spaces; name_group 3]); ROpt (lit_i ";"); REnd ].
Definition alterRegex : re := seq
  [ RBegin; lit_i "ALTER"; spaces; lit_i "SUBSCRIPTION"; spaces; name_group 1; spaces;
    RGroup 2 (RAlt (lit_i "disable") (lit_i "enable")); ROpt (lit_i ";"); REnd ].
Definition dropRegex : re := seq
  [ RBegin; lit_i "DROP"; spaces; lit_i "SUBSCRIPTION"; spaces; name_group 1; ROpt (lit_i ";"); REnd ].
Definition connectionRegex : re := seq
  [ RGroup 1 (RSeq RWordBoundary (RPlus (RChar is_word))); lit "="; RGroup 2 (RStar true (RChar value_char)) ].

Definition set_pair (details : ConnectionDetails) (pair : groups) : ConnectionDetails :=
  let key := group 1 pair in
  let value := group 2 pair in
  let '(mkDetails d h po u pw) := details in
  if decide (key = "dbname") then mkDetails value h po u pw
  else if decide (key = "host") then mkDetails d value po u pw
  else if decide (key = "port") then mkDetails d h value u pw
  else if decide (key = "user") then mkDetails d h po value pw
  else if decide (key = "password") then mkDetails d h po u value
  else details.

Definition or_default (v default : string) : string := if decide (v = EmptyString) then default else v.

(** [None] when there is no key-value pair. *)
Definition parseConnectionString (connStr : string) : option ConnectionDetails :=
  match FindAllStringSubmatch connectionRegex connStr with
  | [] => None
  | pairs =>
      let '(mkDetails d h po u pw) := foldl set_pair (mkDetails EmptyString EmptyString EmptyString EmptyString EmptyString) pairs in
      Some (mkDetails (or_default d "postgres") h (or_default po "5432") u pw)
  end.

Inductive ParsedSQL : Type := NoSubscriptionSQL | Parsed (config : SubscriptionConfig) | ParseError.

Definition parseSubscriptionSQL (sql : string) : ParsedSQL :=
  match FindStringSubmatch createRegex sql with
  | Some m =>
      match parseConnectionString (group 2 m) with
      | None => ParseError
      | Some conn => Parsed (mkConfig (group 1 m) (group 3 m) (Some conn) Create)
      end
  | None =>
      match FindStringSubmatch alterRegex sql with
      | Some m =>
          (* the word is DISABLE or ENABLE *)
          let act := text (map fold_char (bytes (group 2 m))) in
          if decide (act = "disable") then Parsed (mkConfig (group 1 m) EmptyString None AlterDisable)
          else if decide (act = "enable") then Parsed (mkConfig (group 1 m) EmptyString None AlterEnable)
          else ParseError
      | None =>
          match FindStringSubmatch dropRegex sql with
          | Some m => Parsed (mkConfig (group 1 m) EmptyString None Drop)
          | None => NoSubscriptionSQL
          end
      end
  end.

Definition ToConnectionInfo (c : ConnectionDetails) : string :=
  "dbname=" +:+ DBName c +:+ " user=" +:+ User c +:+ " password=" +:+ Password c +:+ " host=" +:+ Host c +:+ " port=" +:+ Port c.
Definition ToDNS (c : ConnectionDetails) : string :=
  "postgres://" +:+ User c +:+ ":" +:+ Password c +:+ "@" +:+ Host c +:+ ":" +:+ Port c +:+ "/" +:+ DBName c.

(** [LogicalReplicator.ReplicationDns]. *)
Definition ReplicationDns (primaryDns : string) : string :=
  primaryDns +:+ (if existsb (char_is "?") (bytes primaryDns) then "&replication=database" else "?replication=database").

(** ** The replicators *)
Record Replica : Type := mkReplica { running : bool; spawned : bool }.
Definition newReplica : Replica := mkReplica false false.
Definition spawn (r : Replica) : Replica := mkReplica (running r) true.
(** [Stop] returns at once when the loop is not running; it waits for it otherwise. *)
Definition Stop (r : Replica) : Replica := if running r then mkReplica false (spawned r) else r.
(** The goroutine reaches its loop. *)
Definition arrive (r : Replica) : Replica := if spawned r then mkReplica true false else r.

Record Subscription : Type := mkSub { Conn : string; Publication : string; LsnStr : string; Enabled : bool; Replicator : Replica }.

(** The subscriptions by name, and the replicators of those that were deleted. *)
Record Manager : Type := mkManager { subscriptionMap : gmap string Subscription; orphans : list (string * Replica) }.

Record SubRow : Type := mkSubRow { row_name : string; row_conn : string; row_pub : string; row_lsn : string; row_enabled : bool }.

Definition subMap (rows : list SubRow) : gmap string SubRow := foldl (fun m r => <[row_name r := r]> m) ∅ rows.

Inductive SubError : Type :=
| ErrContext | ErrQuery | ErrSlot (name : string) | ErrStatus | ErrCommitTxn | ErrDelete | ErrWriteSub
| ErrAttach | ErrLSN | ErrTables | ErrSchema | ErrGetTxn | ErrCopyTable | ErrPublication.

Section Manager.
(** [CreateReplicationSlotIfNotExists] for a connection and a publication. *)
Context (slot_ok : string -> string -> bool).

(** One subscription of the rows against the map: the new entry, and whether its slot failed. *)
Definition update_one (temp : SubRow) (old : option Subscription) : Subscription * bool :=
  match old with
  | None =>
      let sub := mkSub (row_conn temp) (row_pub temp) (row_lsn temp) (row_enabled temp) newReplica in
      if slot_ok (row_conn temp) (row_pub temp)
      then (if row_enabled temp then mkSub (Conn sub) (Publication sub) (LsnStr sub) (Enabled sub) (spawn (Replicator sub)) else sub, true)
      else (sub, false)
  | Some sub =>
      if Bool.eqb (row_enabled temp) (Enabled sub) then (sub, true)
      else (mkSub (Conn sub) (Publication sub) (LsnStr sub) (row_enabled temp)
              (if row_enabled temp then spawn (Replicator sub) else Stop (Replicator sub)), true)
  end.

(** The loop over the rows, in the order the map iteration gives; it stops at the first error. *)
Fixpoint update_loop (order : list string) (temps : gmap string SubRow) (m : gmap string Subscription) : gmap string Subscription * option SubError :=
  match order with
  | [] => (m, None)
  | name :: order' =>
      match temps !! name with
      | None => update_loop order' temps m
      | Some temp =>
          let '(sub, ok) := update_one temp (m !! name) in
          let m := <[name := sub]> m in
          if ok : bool then update_loop order' temps m else (m, Some (ErrSlot name))
      end
  end.

(** The subscriptions without a row are stopped and deleted. *)
Definition gone (temps : gmap string SubRow) (m : gmap string Subscription) : gmap string Subscription := filter (fun p => temps !! p.1 = None) m.
Definition kept (temps : gmap string SubRow) (m : gmap string Subscription) : gmap string Subscription := filter (fun p => temps !! p.1 <> None) m.
Definition stop_gone (temps : gmap string SubRow) (mg : Manager) : Manager :=
  mkManager (kept temps (subscriptionMap mg))
    (orphans mg ++ map (fun p => (p.1, Stop (Replicator p.2))) (map_to_list (gone temps (subscriptionMap mg)))).

(** [rows]: what the query gave, [None] for an error. *)
Definition UpdateSubscriptions (rows : option (list SubRow)) (order : list string) (mg : Manager) : Manager * option SubError :=
  match rows with
  | None => (mg, Some ErrQuery)
  | Some rows =>
      let temps := subMap rows in
      match update_loop order temps (subscriptionMap mg) with
      | (m, Some e) => (mkManager m (orphans mg), Some e)
      | (m, None) => (stop_gone temps (mkManager m (orphans mg)), None)
      end
  end.

(** All the goroutines reach their loops. *)
Definition settle_sub (s : Subscription) : Subscription := mkSub (Conn s) (Publication s) (LsnStr s) (Enabled s) (arrive (Replicator s)).
Definition settle (mg : Manager) : Manager :=
  mkManager (settle_sub <$> subscriptionMap mg) (map (fun p => (p.1, arrive p.2)) (orphans mg)).
End Manager.

(** ** The statements on the session *)
Section Execute.
Context `{HA : ArrowLib} `{HD : !DuckDB} `{HS : !Session} `{HP : PgLogRepl}.

Definition CreateSubscription (name conn pub lsn : string) (enabled : bool) (w : db) : outcome (db * bool) :=
  sql ← UpsertStmt PgSubscription;
  Ret (ExecCatalogInTxn sql [ArgString name; ArgString conn; ArgString pub; ArgString lsn; ArgBool enabled] w).
Definition UpdateSubscriptionStatus (enabled : bool) (name : string) (w : db) : outcome (db * bool) :=
  sql ← UpdateStmt PgSubscription keyColumns statusValueColumns;
  Ret (ExecCatalogInTxn sql [ArgBool enabled; ArgString name] w).
Definition UpdateAllSubscriptionStatus (enabled : bool) (w : db) : outcome (db * bool) :=
  sql ← UpdateAllStmt PgSubscription statusValueColumns;
  Ret (ExecCatalogInTxn sql [ArgBool enabled] w).
Definition DeleteSubscription (name : string) (w : db) : outcome (db * bool) :=
  sql ← DeleteStmt PgSubscription;
  Ret (ExecCatalogInTxn sql [ArgString name] w).

(** The outside of a statement: whether a context can be made, the slots, what
    the queries for the subscriptions and for the tables of the source give, and
    the order of the map iteration. *)
Record Outside : Type := mkOutside {
  o_context : bool;
  o_slot : string -> string -> bool;
  o_rows : string -> db -> option (list SubRow);
  o_order : list string;
  o_tables : string -> db -> option (list (string * string));
  o_publication : string -> string -> bool;
  o_session_id : N
}.

Definition exec_result : Type := outcome (db * Manager * option SubError).

(** [adapter.QueryCatalog]: [answer] reads the rows on the connection. *)
Definition QueryCatalog {A} (answer : db -> option A) (w : db) : db * option A :=
  match GetCatalogConn w with None => (w, None) | Some w => (w, answer w) end.

(** Commit, close, and bring the replicators in line. *)
Definition commit_and_update (o : Outside) (w : db) (mg : Manager) : exec_result :=
  match CommitAndCloseTxn w with
  | (w, false) => Ret (w, mg, Some ErrCommitTxn)
  | (w, true) =>
      let '(w, rows) := QueryCatalog (o_rows o (SelectAllStmt PgSubscription)) w in
      let '(mg, e) := UpdateSubscriptions (o_slot o) rows (o_order o) mg in Ret (w, mg, e)
  end.

Definition executeStatus (enabled : bool) (o : Outside) (config : SubscriptionConfig) (w : db) (mg : Manager) : exec_result :=
  if negb (o_context o) then Ret (w, mg, Some ErrContext) else
  '(w, done) ← UpdateSubscriptionStatus enabled (SubscriptionName config) w;
  if negb done then Ret (w, mg, Some ErrStatus) else commit_and_update o w mg.
Definition executeEnableSubscription : Outside -> SubscriptionConfig -> db -> Manager -> exec_result := executeStatus true.
Definition executeDisableSubscription : Outside -> SubscriptionConfig -> db -> Manager -> exec_result := executeStatus false.

Definition executeDrop (o : Outside) (config : SubscriptionConfig) (w : db) (mg : Manager) : exec_result :=
  if negb (o_context o) then Ret (w, mg, Some ErrContext) else
  '(w, done) ← DeleteSubscription (SubscriptionName config) w;
  if negb done then Ret (w, mg, Some ErrDelete) else commit_and_update o w mg.

(** *** The snapshot *)
Definition attachName (o : Outside) : string := "__pg_src_" +:+ pretty (o_session_id o) +:+ "__".

(** The transaction under way is committed first; its deferred close and rollback run. *)
Definition commit_current (w : db) : db * bool :=
  match TryGetTxn w with
  | None => (w, true)
  | Some tx =>
      let '(w, done) := TxCommit tx w in
      (fst (TxRollback tx (CloseTxn w)), done)
  end.

Fixpoint exec_each (sqls : list string) (w : db) : db * bool :=
  match sqls with
  | [] => (w, true)
  | sql :: sqls' => match ExecCatalogInTxn sql [] w with (w, true) => exec_each sqls' w | (w, false) => (w, false) end
  end.

Definition create_schemas (tables : list (string * string)) : list string :=
  map (fun t => "CREATE SCHEMA IF NOT EXISTS " +:+ QuoteIdentifierANSI t.1) tables.
Definition copy_tables (o : Outside) (tables : list (string * string)) : list string :=
  map (fun t => "CREATE TABLE " +:+ ConnectIdentifiersANSI [t.1; t.2] +:+ " AS FROM " +:+ ConnectIdentifiersANSI [attachName o; t.1; t.2]) tables.

(** The part between ATTACH and the deferred DETACH. *)
Definition snapshot_body (o : Outside) (w : db) : outcome (db * (Z + SubError)) :=
  '(w, r) ← QueryRowCatalog ("SELECT * FROM postgres_query('" +:+ attachName o +:+ "', 'SELECT pg_current_wal_lsn()')") [] w;
  match r with
  | RowString currentLSN =>
      match ParseLSN currentLSN with
      | None => Ret (w, inr ErrLSN)
      | Some lsn =>
          match QueryCatalog (o_tables o ("SELECT database, schema, name FROM (SHOW ALL TABLES) WHERE database = '" +:+ attachName o +:+ "'")) w with
          | (w, None) => Ret (w, inr ErrTables)
          | (w, Some tables) =>
              match exec_each (create_schemas tables) w with
              | (w, false) => Ret (w, inr ErrSchema)
              | (w, true) =>
                  match GetCatalogTxn w with
                  | None => Ret (w, inr ErrGetTxn)
                  | Some (w, txn) =>
                      let '(w, e) :=
                        match exec_each (copy_tables o tables) w with
                        | (w, false) => (w, Some ErrCopyTable)
                        | (w, true) => let '(w, done) := TxCommit txn w in (w, if done : bool then None else Some ErrCommitTxn)
                        end in
                      let w := fst (TxRollback txn (CloseTxn w)) in
                      Ret (w, match e with None => inl lsn | Some e => inr e end)
                  end
              end
          end
      end
  | _ => Ret (w, inr ErrLSN)
  end.

Definition doSnapshot (o : Outside) (conn : ConnectionDetails) (w : db) : outcome (db * (Z + SubError)) :=
  match commit_current w with
  | (w, false) => Ret (w, inr ErrCommitTxn)
  | (w, true) =>
      match ExecCatalog ("ATTACH '" +:+ ToConnectionInfo conn +:+ "' AS " +:+ attachName o +:+ " (TYPE POSTGRES, READ_ONLY)") [] w with
      | (w, false) => Ret (w, inr ErrAttach)
      | (w, true) =>
          '(w, r) ← snapshot_body o w;
          Ret (fst (ExecCatalog ("DETACH " +:+ attachName o) [] w), r)
      end
  end.

(** The deferred close and rollback run after [UpdateSubscriptions]. *)
Definition doCreateSubscription (o : Outside) (config : SubscriptionConfig) (conn : ConnectionDetails) (lsn : Z) (w : db) (mg : Manager) : exec_result :=
  if negb (o_publication o (ToDNS conn) (PublicationName config)) then Ret (w, mg, Some ErrPublication) else
  match GetCatalogTxn w with
  | None => Ret (w, mg, Some ErrGetTxn)
  | Some (w, tx) =>
      '(w, done) ← CreateSubscription (SubscriptionName config) (ToDNS conn) (PublicationName config) (LSN_String lsn) true w;
      '(w, mg, e) ← (if negb done then Ret (w, mg, Some ErrWriteSub) else commit_and_update o w mg);
      Ret (fst (TxRollback tx (CloseTxn w)), mg, e)
  end.

Definition executeCreate (o : Outside) (config : SubscriptionConfig) (w : db) (mg : Manager) : exec_result :=
  if negb (o_context o) then Ret (w, mg, Some ErrContext) else
  match Connection config with
  | None => Panic
  | Some conn =>
      '(w, r) ← doSnapshot o conn w;
      match r with
      | inr e => Ret (w, mg, Some e)
      | inl lsn => doCreateSubscription o config conn lsn w mg
      end
  end.

Definition executeSubscriptionSQL (o : Outside) (config : SubscriptionConfig) (w : db) (mg : Manager) : exec_result :=
  match cfg_Action config with
  | Create => executeCreate o config w mg
  | Drop => executeDrop o config w mg
  | AlterEnable => executeEnableSubscription o config w mg
  | AlterDisable => executeDisableSubscription o config w mg
  end.
End Execute.

(** ** Parsing subscription statements, and the replicators a set of rows asks for

    The equations of the regular expressions of src/pgserver/subscription_handler.go
    on statements written out, what a parsed connection string can hold, and
    the effect of one [UpdateSubscriptions] on each entry of the map. *)

(** ** Matching a statement piece by piece *)
Lemma seq_lit_i w b k prev rest g : matches (RSeq (lit_i w) b) k (prev, bytes w ++ rest) g = matches b k (last_of prev (bytes w), rest) g.
Proof. cbn [matches]. apply (matches_lit char_folds w (bytes w)), folds_refl. Qed.
Lemma seq_lit w b k prev rest g : matches (RSeq (lit w) b) k (prev, bytes w ++ rest) g = matches b k (last_of prev (bytes w), rest) g.
Proof. cbn [matches]. apply (matches_lit char_is w (bytes w)), is_refl. Qed.

Lemma seq_plus f run b k prev rest g x : run <> [] -> forallb f run = true -> match rest with c :: _ => f c = false | [] => True end ->
  matches b k (last_of prev run, rest) g = Some x -> matches (RSeq (RPlus (RChar f)) b) k (prev, run ++ rest) g = Some x.
Proof. intros Hne Hf Hs Hk. change (matches (RSeq (RPlus (RChar f)) b) k (prev, run ++ rest) g) with (matches (RPlus (RChar f)) (matches b k) (prev, run ++ rest) g). apply matches_plus; assumption. Qed.

Lemma seq_group n f run b k prev rest g x : run <> [] -> forallb f run = true -> match rest with c :: _ => f c = false | [] => True end ->
  matches b k (last_of prev run, rest) ((n, run) :: g) = Some x -> matches (RSeq (RGroup n (RPlus (RChar f))) b) k (prev, run ++ rest) g = Some x.
Proof.
  intros Hne Hf Hs Hk. change (matches (RPlus (RChar f)) (fun p' g' => matches b k p' ((n, consumed (prev, run ++ rest) p') :: g')) (prev, run ++ rest) g = Some x).
  apply matches_plus; try assumption. rewrite consumed_app. exact Hk.
Qed.

(** One space between two words. *)
Lemma seq_space b k prev rest g x : match rest with c :: _ => is_space c = false | [] => True end ->
  matches b k (Some " "%char, rest) g = Some x -> matches (RSeq spaces b) k (prev, " "%char :: rest) g = Some x.
Proof. intros Hs Hk. apply (seq_plus is_space [" "%char] b k prev rest g x); [discriminate | reflexivity | exact Hs | exact Hk]. Qed.

(** An anchored expression matches at the start or not at all. *)
Lemma find_anchored b s : find_from (RSeq RBegin b) None s = (fun x => ((None, s), x)) <$> here b (None, s).
Proof.
  assert (Hno : forall l c, find_from (RSeq RBegin b) (Some c) l = None) by (induction l as [|d l IH]; intros c; [reflexivity|]; cbn; apply IH).
  destruct s as [|c s]; cbn [find_from]; change (here (RSeq RBegin b) (None, ?l)) with (here b (None, l)).
  - destruct (here b (None, [])); reflexivity.
  - destruct (here b (None, c :: s)); [reflexivity|]. rewrite Hno. reflexivity.
Qed.

Lemma submatch_anchored b s : FindStringSubmatch (RSeq RBegin b) s = fst <$> here b (None, bytes s).
Proof. unfold FindStringSubmatch. rewrite find_anchored. destruct (here b (None, bytes s)); reflexivity. Qed.

Lemma seq_seq a b c k p g : matches (RSeq (RSeq a b) c) k p g = matches (RSeq a (RSeq b c)) k p g.
Proof. reflexivity. Qed.
Lemma seq_opt a b k p g x : matches (RSeq a b) k p g = Some x -> matches (RSeq (ROpt a) b) k p g = Some x.
Proof. intros E. cbn [matches ROpt]. cbn [matches] in E. rewrite E. reflexivity. Qed.

Lemma name_not_space c : name_char c = true -> is_space c = false.
Proof. destruct c as [[] [] [] [] [] [] [] []]; vm_compute; congruence. Qed.
Lemma word_is_value c : is_word c = true -> value_char c = true.
Proof. unfold value_char. intros ->. reflexivity. Qed.

Definition is_name (s : string) : Prop := s <> EmptyString /\ forallb name_char (bytes s) = true.

Lemma name_bytes s : is_name s -> bytes s <> [] /\ forallb name_char (bytes s) = true.
Proof. intros [Hne Hf]. split; [|exact Hf]. destruct s; [congruence | discriminate]. Qed.
Lemma name_starts s rest : is_name s -> match bytes s ++ rest with c :: _ => is_space c = false | [] => True end.
Proof. intros [Hne Hf]. destruct s as [|c s]; [congruence|]. cbn in *. apply andb_prop in Hf. apply name_not_space, Hf. Qed.

(** ** The statements written out *)
Definition create_statement (name conn pub : string) : string :=
  "CREATE SUBSCRIPTION " +:+ name +:+ " CONNECTION '" +:+ conn +:+ "' PUBLICATION " +:+ pub +:+ ";".
Definition alter_statement (name : string) (enable : bool) : string := "ALTER SUBSCRIPTION " +:+ name +:+ (if enable then " ENABLE;" else " DISABLE;").
Definition drop_statement (name : string) : string := "DROP SUBSCRIPTION " +:+ name +:+ ";".

(** The words of a literal, each followed by its space. *)
Ltac name_step := eapply seq_group; [apply name_bytes; assumption | apply name_bytes; assumption | reflexivity |].
Ltac space_step := apply seq_space; [first [reflexivity | apply name_starts; assumption] |].
Ltac word_step w := refine (eq_trans (seq_lit_i w _ _ _ _ _) _).

Lemma create_matches name conn pub : is_name name -> is_name pub -> conn <> EmptyString -> forallb not_quote (bytes conn) = true ->
  FindStringSubmatch createRegex (create_statement name conn pub) = Some [(3%nat, bytes pub); (2%nat, bytes conn); (1%nat, bytes name)].
Proof.
  intros Hn Hp Hc Hq. unfold createRegex. cbn [seq]. rewrite submatch_anchored. unfold create_statement. rewrite !bytes_app. unfold here.
  set (k := fun p g => Some (g, p)).
  enough (E : exists p, matches (seq [lit_i "CREATE"; spaces; lit_i "SUBSCRIPTION"; spaces; name_group 1; spaces; lit_i "CONNECTION"; spaces;
    lit_i "'"; RGroup 2 (RPlus (RChar not_quote)); lit_i "'"; ROpt (seq [spaces; lit_i "PUBLICATION"; spaces; name_group 3]); ROpt (lit_i ";"); REnd]) k
    (None, bytes "CREATE SUBSCRIPTION " ++ bytes name ++ bytes " CONNECTION '" ++ bytes conn ++ bytes "' PUBLICATION " ++ bytes pub ++ bytes ";") []
    = Some ([(3%nat, bytes pub); (2%nat, bytes conn); (1%nat, bytes name)], p)) by (destruct E as [p E]; cbn [seq] in E; rewrite E; reflexivity).
  cbn [seq]. eexists. word_step "CREATE". space_step. word_step "SUBSCRIPTION". space_step. name_step. space_step. word_step "CONNECTION". space_step. word_step "'".
  eapply seq_group; [destruct conn; [congruence | discriminate] | exact Hq | reflexivity |]. word_step "'". apply seq_opt. rewrite seq_seq. space_step.
  rewrite seq_seq. word_step "PUBLICATION". rewrite seq_seq. space_step. name_step. apply seq_opt. word_step ";". reflexivity.
Qed.

(** The expression of another statement does not match. *)
Lemma other_statement b s : here b (None, bytes s) = None -> FindStringSubmatch (RSeq RBegin b) s = None.
Proof. intros E. rewrite submatch_anchored, E. reflexivity. Qed.

Lemma alter_matches name enable : is_name name ->
  FindStringSubmatch alterRegex (alter_statement name enable) = Some [(2%nat, bytes (if enable then "ENABLE" else "DISABLE")); (1%nat, bytes name)].
Proof.
  intros Hn. unfold alterRegex. cbn [seq]. rewrite submatch_anchored. unfold alter_statement. rewrite !bytes_app. unfold here.
  set (k := fun p g => Some (g, p)).
  enough (E : exists p, matches (seq [lit_i "ALTER"; spaces; lit_i "SUBSCRIPTION"; spaces; name_group 1; spaces; RGroup 2 (RAlt (lit_i "disable") (lit_i "enable")); ROpt (lit_i ";"); REnd]) k
    (None, bytes "ALTER SUBSCRIPTION " ++ bytes name ++ bytes (if enable then " ENABLE;" else " DISABLE;")) []
    = Some ([(2%nat, bytes (if enable then "ENABLE" else "DISABLE")); (1%nat, bytes name)], p)) by (destruct E as [p E]; cbn [seq] in E; rewrite E; reflexivity).
  cbn [seq]. destruct enable; eexists; word_step "ALTER"; space_step; word_step "SUBSCRIPTION"; space_step; name_step; space_step; reflexivity.
Qed.

Lemma drop_matches name : is_name name -> FindStringSubmatch dropRegex (drop_statement name) = Some [(1%nat, bytes name)].
Proof.
  intros Hn. unfold dropRegex. cbn [seq]. rewrite submatch_anchored. unfold drop_statement. rewrite !bytes_app. unfold here.
  set (k := fun p g => Some (g, p)).
  enough (E : exists p, matches (seq [lit_i "DROP"; spaces; lit_i "SUBSCRIPTION"; spaces; name_group 1; ROpt (lit_i ";"); REnd]) k
    (None, bytes "DROP SUBSCRIPTION " ++ bytes name ++ bytes ";") [] = Some ([(1%nat, bytes name)], p)) by (destruct E as [p E]; cbn [seq] in E; rewrite E; reflexivity).
  cbn [seq]. eexists. word_step "DROP". space_step. word_step "SUBSCRIPTION". space_step. name_step. reflexivity.
Qed.

Lemma alter_is_no_create name enable : FindStringSubmatch createRegex (alter_statement name enable) = None.
Proof. apply (other_statement (seq [lit_i "CREATE"; spaces; lit_i "SUBSCRIPTION"; spaces; name_group 1; spaces; lit_i "CONNECTION"; spaces;
    lit_i "'"; RGroup 2 (RPlus (RChar not_quote)); lit_i "'"; ROpt (seq [spaces; lit_i "PUBLICATION"; spaces; name_group 3]); ROpt (lit_i ";"); REnd])).
  unfold alter_statement. rewrite bytes_app. reflexivity. Qed.
Lemma drop_is_no_create name : FindStringSubmatch createRegex (drop_statement name) = None.
Proof. apply (other_statement (seq [lit_i "CREATE"; spaces; lit_i "SUBSCRIPTION"; spaces; name_group 1; spaces; lit_i "CONNECTION"; spaces;
    lit_i "'"; RGroup 2 (RPlus (RChar not_quote)); lit_i "'"; ROpt (seq [spaces; lit_i "PUBLICATION"; spaces; name_group 3]); ROpt (lit_i ";"); REnd])).
  unfold drop_statement. rewrite bytes_app. reflexivity. Qed.
Lemma drop_is_no_alter name : FindStringSubmatch alterRegex (drop_statement name) = None.
Proof. apply (other_statement (seq [lit_i "ALTER"; spaces; lit_i "SUBSCRIPTION"; spaces; name_group 1; spaces; RGroup 2 (RAlt (lit_i "disable") (lit_i "enable")); ROpt (lit_i ";"); REnd])).
  unfold drop_statement. rewrite bytes_app. reflexivity. Qed.

(** ** Connection strings *)
Definition pair_bytes (kv : string * string) : list ascii := bytes kv.1 ++ bytes "=" ++ bytes kv.2.
Definition pair_groups (kv : string * string) : groups := [(2%nat, bytes kv.2); (1%nat, bytes kv.1)].
Definition is_pair (kv : string * string) : Prop := kv.1 <> EmptyString /\ forallb is_word (bytes kv.1) = true /\ forallb value_char (bytes kv.2) = true.
(** Nothing follows, or a space. *)
Definition at_break (rest : list ascii) : Prop := match rest with c :: _ => c = " "%char | [] => True end.

Lemma here_pair prev kv rest : is_pair kv -> word_at prev = false -> at_break rest ->
  exists prev', here connectionRegex (prev, pair_bytes kv ++ rest) = Some (pair_groups kv, (prev', rest)).
Proof.
  destruct kv as [key value]. intros (Hne & Hk & Hv) Hprev Hrest. unfold pair_bytes, pair_groups. cbn [fst snd] in *. rewrite <- !app_assoc.
  assert (Hstop : match rest with c :: _ => value_char c = false | [] => True end) by (destruct rest as [|c rest]; [exact I|]; rewrite Hrest; reflexivity).
  destruct (bytes key) as [|c kr] eqn:Ek; [destruct key; [congruence | discriminate]|].
  assert (Hc : is_word c = true) by (cbn in Hk; apply andb_prop in Hk; apply Hk).
  exists (last_of (Some "="%char) (bytes value)). unfold here, connectionRegex. cbn [seq].
  change (matches (RSeq RWordBoundary (RPlus (RChar is_word))) (fun p' g' => matches (RSeq (lit "=") (RGroup 2 (RStar true (RChar value_char)))) (fun p g => Some (g, p)) p'
    ((1%nat, consumed (prev, (c :: kr) ++ bytes "=" ++ bytes value ++ rest) p') :: g')) (prev, (c :: kr) ++ bytes "=" ++ bytes value ++ rest) [] = Some ([(2%nat, bytes value); (1%nat, c :: kr)], (last_of (Some "="%char) (bytes value), rest))).
  set (k1 := fun p' g' => _). change (matches (RSeq RWordBoundary ?b) k1 ?p []) with (if xorb (word_at prev) (is_word c) then matches b k1 p [] else None).
  rewrite Hprev, Hc. cbn [xorb]. apply matches_plus; [discriminate | exact Hk | reflexivity |]. unfold k1. rewrite consumed_app. rewrite seq_lit.
  change (matches (RStar true (RChar value_char)) (fun p' g' => Some ((2%nat, consumed (last_of (last_of prev (c :: kr)) (bytes "="), bytes value ++ rest) p') :: g', p'))
    (last_of (last_of prev (c :: kr)) (bytes "="), bytes value ++ rest) [(1%nat, c :: kr)] = Some ([(2%nat, bytes value); (1%nat, c :: kr)], (last_of (Some "="%char) (bytes value), rest))).
  apply matches_run; [exact Hv | exact Hstop |]. rewrite consumed_app. reflexivity.
Qed.

Lemma find_here r prev rest x : here r (prev, rest) = Some x -> find_from r prev rest = Some ((prev, rest), x).
Proof. intros E. destruct rest; cbn [find_from]; rewrite E; reflexivity. Qed.
Lemma find_skips r prev c rest : here r (prev, c :: rest) = None -> find_from r prev (c :: rest) = find_from r (Some c) rest.
Proof. intros E. cbn [find_from]. rewrite E. reflexivity. Qed.

Lemma no_pair_at_space prev rest : here connectionRegex (prev, " "%char :: rest) = None.
Proof. unfold here, connectionRegex. cbn. destruct (word_at prev); reflexivity. Qed.
Lemma no_pair_at_end prev : find_from connectionRegex prev [] = None.
Proof. cbn. destruct (word_at prev); reflexivity. Qed.

(** The pairs after the first, each after a space. *)
Definition tail_bytes (l : list (string * string)) : list ascii := concat (map (fun kv => " "%char :: pair_bytes kv) l).
Lemma tail_breaks l : at_break (tail_bytes l).
Proof. destruct l; reflexivity || exact I. Qed.

Lemma pair_shorter kv rest : is_pair kv -> (length rest <? length (pair_bytes kv ++ rest))%nat = true.
Proof. intros _. apply Nat.ltb_lt. unfold pair_bytes. rewrite !length_app. cbn [length bytes list_ascii_of_string]. lia. Qed.

Lemma find_all_tail l : forall fuel prev, Forall is_pair l -> (length l <= fuel)%nat -> find_all fuel connectionRegex prev (tail_bytes l) = map pair_groups l.
Proof.
  induction l as [|kv l IH]; intros fuel prev Hl Hf; cbn [length map] in *.
  - destruct fuel; [reflexivity|]. cbn [find_all]. change (tail_bytes []) with (@nil ascii). rewrite no_pair_at_end. reflexivity.
  - destruct fuel as [|fuel]; [lia|]. inversion Hl as [|? ? Hkv Hl']; subst. cbn [find_all]. change (tail_bytes (kv :: l)) with (" "%char :: pair_bytes kv ++ tail_bytes l).
    rewrite (find_skips connectionRegex _ _ _ (no_pair_at_space _ _)). destruct (here_pair (Some " "%char) kv (tail_bytes l) Hkv eq_refl (tail_breaks l)) as [prev' E].
    rewrite (find_here _ _ _ _ E). cbn [snd]. rewrite (pair_shorter kv _ Hkv). f_equal. apply IH; [assumption | lia].
Qed.

Lemma find_all_pairs kv l : Forall is_pair (kv :: l) ->
  FindAllStringSubmatch connectionRegex (text (pair_bytes kv ++ tail_bytes l)) = map pair_groups (kv :: l).
Proof.
  intros Hl. inversion Hl as [|? ? Hkv Hl']; subst. unfold FindAllStringSubmatch. rewrite bytes_text. cbn [find_all map].
  destruct (here_pair None kv (tail_bytes l) Hkv eq_refl (tail_breaks l)) as [prev' E]. rewrite (find_here _ _ _ _ E). cbn [snd]. rewrite (pair_shorter kv _ Hkv). f_equal.
  apply find_all_tail; [assumption|]. rewrite length_app. enough (length l <= length (tail_bytes l))%nat by lia.
  clear. induction l as [|kv l IH]; [cbn; lia|]. change (tail_bytes (kv :: l)) with (" "%char :: pair_bytes kv ++ tail_bytes l). cbn [length]. rewrite length_app. lia.
Qed.

Definition is_value (s : string) : Prop := forallb value_char (bytes s) = true.
Definition plain (c : ConnectionDetails) : Prop := is_value (DBName c) /\ is_value (User c) /\ is_value (Password c) /\ is_value (Host c) /\ is_value (Port c).

Lemma group_pair_key kv : group 1 (pair_groups kv) = kv.1.
Proof. unfold group, pair_groups. cbn. apply text_bytes. Qed.
Lemma group_pair_value kv : group 2 (pair_groups kv) = kv.2.
Proof. unfold group, pair_groups. cbn. apply text_bytes. Qed.

Lemma info_pairs c : ToConnectionInfo c
  = text (pair_bytes ("dbname", DBName c) ++ tail_bytes [("user", User c); ("password", Password c); ("host", Host c); ("port", Port c)]).
Proof. rewrite <- (text_bytes (ToConnectionInfo c)). f_equal. unfold ToConnectionInfo. rewrite !bytes_app. cbn. unfold pair_bytes. cbn. rewrite <- ?app_assoc, ?app_nil_r. reflexivity. Qed.

Lemma set_pair_values details kv : set_pair details (pair_groups kv)
  = (let '(mkDetails d h po u pw) := details in
     if decide (kv.1 = "dbname") then mkDetails kv.2 h po u pw else if decide (kv.1 = "host") then mkDetails d kv.2 po u pw
     else if decide (kv.1 = "port") then mkDetails d h kv.2 u pw else if decide (kv.1 = "user") then mkDetails d h po kv.2 pw
     else if decide (kv.1 = "password") then mkDetails d h po u kv.2 else details).
Proof. unfold set_pair. rewrite group_pair_key, group_pair_value. reflexivity. Qed.

Lemma parse_info c : plain c -> DBName c <> EmptyString -> Port c <> EmptyString -> parseConnectionString (ToConnectionInfo c) = Some c.
Proof.
  destruct c as [d h po u pw]. intros (H1 & H2 & H3 & H4 & H5) Hd Hp. cbn [DBName Host Port User Password] in *. unfold parseConnectionString. rewrite info_pairs, find_all_pairs.
  2: { repeat (apply Forall_cons; split); [.. | apply Forall_nil; exact I]; (split; [discriminate | split; [reflexivity | first [exact H1 | exact H2 | exact H3 | exact H4 | exact H5]]]). }
  cbn [map foldl DBName Host Port User Password]. rewrite !set_pair_values. cbn [fst snd].
  repeat first [rewrite decide_True by reflexivity | rewrite decide_False by discriminate]. unfold or_default. rewrite !decide_False by assumption. reflexivity.
Qed.

Lemma group_first a b c : group 1 [(3%nat, c); (2%nat, b); (1%nat, a)] = text a.
Proof. reflexivity. Qed.
Lemma group_middle a b c : group 2 [(3%nat, c); (2%nat, b); (1%nat, a)] = text b.
Proof. reflexivity. Qed.
Lemma group_last a b c : group 3 [(3%nat, c); (2%nat, b); (1%nat, a)] = text c.
Proof. reflexivity. Qed.

Lemma group_first_of_two a b : group 1 [(2%nat, b); (1%nat, a)] = text a.
Proof. reflexivity. Qed.
Lemma group_alone a : group 1 [(1%nat, a)] = text a.
Proof. reflexivity. Qed.

Lemma value_not_quote c : value_char c = true -> not_quote c = true.
Proof. destruct c as [[] [] [] [] [] [] [] []]; vm_compute; congruence. Qed.
Lemma values_not_quotes l : forallb value_char l = true -> forallb not_quote l = true.
Proof. rewrite !forallb_forall. intros H x Hx. apply value_not_quote, H, Hx. Qed.
Lemma info_has_no_quote c : plain c -> forallb not_quote (bytes (ToConnectionInfo c)) = true.
Proof.
  intros (H1 & H2 & H3 & H4 & H5). unfold ToConnectionInfo. rewrite !bytes_app, !forallb_app.
  repeat (apply andb_true_intro; split); first [reflexivity | apply values_not_quotes; assumption].
Qed.

(** *** What a connection string can hold *)
Lemma pair_value_plain p g p' : here connectionRegex p = Some (g, p') -> is_value (group 2 g).
Proof.
  unfold here, connectionRegex. cbn [seq]. intros E.
  change (matches (RGroup 1 (RSeq RWordBoundary (RPlus (RChar is_word)))) (matches (lit "=") (matches (RGroup 2 (RStar true (RChar value_char))) (fun p g => Some (g, p)))) p [] = Some (g, p')) in E.
  apply matches_calls in E. destruct E as (p1 & g1 & E). apply matches_calls in E. destruct E as (p2 & g2 & E).
  change (matches (RStar true (RChar value_char)) (fun p' g' => Some ((2%nat, consumed p2 p') :: g', p')) p2 g2 = Some (g, p')) in E.
  apply matches_run_inv in E. destruct E as (p3 & v & Hv & Hp & E). injection E as <- _. unfold is_value, group. cbn [list_find decide fst].
  rewrite decide_True by reflexivity. cbn [snd]. rewrite bytes_text. unfold consumed. rewrite Hp, length_app.
  replace (length v + length p3.2 - length p3.2)%nat with (length v) by lia. rewrite take_app_length. exact Hv.
Qed.

Lemma set_pair_plain d g : plain d -> is_value (group 2 g) -> plain (set_pair d g).
Proof. destruct d. intros (H1 & H2 & H3 & H4 & H5) Hg. unfold set_pair. repeat (destruct (decide _); [repeat split; assumption|]). repeat split; assumption. Qed.

Lemma set_pairs_plain l : forall d, plain d -> Forall (fun g => is_value (group 2 g)) l -> plain (foldl set_pair d l).
Proof. induction l as [|g l IH]; intros d Hd Hl; [exact Hd|]. inversion Hl; subst. cbn [foldl]. apply IH; [apply set_pair_plain; assumption | assumption]. Qed.

Lemma default_plain v default : is_value v -> is_value default -> is_value (or_default v default).
Proof. unfold or_default. destruct (decide _); intros; assumption. Qed.

Lemma parsed_plain s c : parseConnectionString s = Some c -> plain c.
Proof.
  unfold parseConnectionString. destruct (FindAllStringSubmatch connectionRegex s) as [|g l] eqn:E; [discriminate|]. intros H.
  assert (Hl : Forall (fun g => is_value (group 2 g)) (g :: l)).
  { apply List.Forall_forall. intros g' Hg. rewrite <- E in Hg. apply find_all_here in Hg. destruct Hg as (start & p & Hg). apply (pair_value_plain _ _ _ Hg). }
  pose proof (set_pairs_plain (g :: l) (mkDetails EmptyString EmptyString EmptyString EmptyString EmptyString) ltac:(repeat split) Hl) as Hd.
  destruct (foldl set_pair _ (g :: l)) as [d h po u pw]. injection H as <-. destruct Hd as (H1 & H2 & H3 & H4 & H5). cbn in *.
  repeat split; cbn [DBName Host Port User Password]; try assumption; apply default_plain; try assumption; reflexivity.
Qed.

Lemma parsed_connection_plain sql config conn : parseSubscriptionSQL sql = Parsed config -> Connection config = Some conn -> plain conn.
Proof.
  unfold parseSubscriptionSQL. intros E Hc. destruct (FindStringSubmatch createRegex sql) as [m|].
  - destruct (parseConnectionString (group 2 m)) as [c|] eqn:Ec; [|discriminate]. injection E as <-. injection Hc as <-. apply (parsed_plain _ _ Ec).
  - destruct (FindStringSubmatch alterRegex sql) as [m|].
    + destruct (decide _); [|destruct (decide _); [|discriminate]]; injection E as <-; discriminate.
    + destruct (FindStringSubmatch dropRegex sql); [injection E as <-; discriminate | discriminate].
Qed.

(** ** The replicators *)
Section Reconcile.
Context (slot_ok : string -> string -> bool).

Definition quiet (r : Replica) : Prop := running r = false /\ spawned r = false.
(** Every replicator has reached its loop, and runs when its subscription is enabled; none runs that was deleted. *)
Definition aligned (mg : Manager) : Prop :=
  (forall name s, subscriptionMap mg !! name = Some s -> running (Replicator s) = Enabled s /\ spawned (Replicator s) = false)
  /\ Forall (fun p => quiet p.2) (orphans mg).
Definition slots_ok (temps : gmap string SubRow) : Prop := forall name t, temps !! name = Some t -> slot_ok (row_conn t) (row_pub t) = true.

Lemma update_one_ok temp old : slot_ok (row_conn temp) (row_pub temp) = true -> (update_one slot_ok temp old).2 = true.
Proof. intros Hs. unfold update_one. destruct old as [sub|]; [destruct (Bool.eqb _ _); reflexivity | rewrite Hs; reflexivity]. Qed.

Lemma update_one_enabled temp old : Enabled (update_one slot_ok temp old).1 = row_enabled temp.
Proof.
  unfold update_one. destruct old as [sub|].
  - destruct (Bool.eqb _ _) eqn:E; [symmetry; apply Bool.eqb_prop, E | reflexivity].
  - destruct (slot_ok _ _); [|reflexivity]. destruct (row_enabled temp) eqn:E; cbn; congruence.
Qed.

(** Once its goroutine has arrived, the replicator runs as the row says. *)
Lemma update_one_runs temp old : slot_ok (row_conn temp) (row_pub temp) = true ->
  (forall s, old = Some s -> running (Replicator s) = Enabled s /\ spawned (Replicator s) = false) ->
  let r := arrive (Replicator (update_one slot_ok temp old).1) in running r = row_enabled temp /\ spawned r = false.
Proof.
  intros Hs Ho. unfold update_one. destruct old as [[co pu ls en [ru sp]]|].
  - destruct (Ho _ eq_refl) as [Hr Hsp]. cbn in Hr, Hsp. subst. cbn. destruct (row_enabled temp), en; split; reflexivity.
  - rewrite Hs. destruct (row_enabled temp); split; reflexivity.
Qed.

Lemma update_loop_spec order : forall temps m, NoDup order -> slots_ok temps ->
  (update_loop slot_ok order temps m).2 = None
  /\ forall name, (update_loop slot_ok order temps m).1 !! name
       = match temps !! name with
         | Some t => if decide (name ∈ order) then Some (update_one slot_ok t (m !! name)).1 else m !! name
         | None => m !! name
         end.
Proof.
  induction order as [|n order IH]; intros temps m Hnd Hok; cbn [update_loop].
  - split; [reflexivity|]. intros name. destruct (temps !! name); [|reflexivity]. rewrite decide_False; [reflexivity | apply not_elem_of_nil].
  - inversion Hnd as [|? ? Hn Hnd']; subst. destruct (temps !! n) as [t|] eqn:Et.
    + pose proof (update_one_ok t (m !! n) (Hok _ _ Et)) as Hone. destruct (update_one slot_ok t (m !! n)) as [sub ok] eqn:Eo. cbn in Hone. subst ok.
      destruct (IH temps (<[n := sub]> m) Hnd' Hok) as [He Hl]. split; [exact He|]. intros name. rewrite Hl. destruct (decide (name = n)) as [->|Hne].
      * rewrite Et, (decide_False (P := n ∈ order)) by exact Hn. rewrite decide_True by (apply elem_of_cons; auto). rewrite lookup_insert_eq, Eo. reflexivity.
      * rewrite lookup_insert_ne by congruence. destruct (temps !! name); [|reflexivity]. destruct (decide (name ∈ order)) as [Hi|Hi].
        { rewrite decide_True by (apply elem_of_cons; auto). reflexivity. }
        { rewrite decide_False; [reflexivity|]. rewrite elem_of_cons. intros [?|?]; contradiction. }
    + destruct (IH temps m Hnd' Hok) as [He Hl]. split; [exact He|]. intros name. rewrite Hl. destruct (temps !! name) eqn:En; [|reflexivity].
      assert (name <> n) by congruence. destruct (decide (name ∈ order)) as [Hi|Hi].
      * rewrite decide_True by (apply elem_of_cons; auto). reflexivity.
      * rewrite decide_False; [reflexivity|]. rewrite elem_of_cons. intros [?|?]; contradiction.
Qed.

Lemma Stop_quiet r : spawned r = false -> quiet (Stop r).
Proof. destruct r as [ru sp]. cbn. intros ->. unfold Stop, quiet. destruct ru; split; reflexivity. Qed.
Lemma arrive_quiet r : quiet r -> quiet (arrive r).
Proof. destruct r as [ru sp]. intros [Hr Hs]. cbn in *. subst. split; reflexivity. Qed.

Definition covers (order : list string) (temps : gmap string SubRow) : Prop := NoDup order /\ forall name t, temps !! name = Some t -> name ∈ order.

(** An entry of the map after the loop and after the goroutines have arrived. *)
Lemma entry_aligned order temps m name s : slots_ok temps -> covers order temps ->
  (forall name s, m !! name = Some s -> running (Replicator s) = Enabled s /\ spawned (Replicator s) = false) ->
  (update_loop slot_ok order temps m).1 !! name = Some s -> is_Some (temps !! name) ->
  running (arrive (Replicator s)) = Enabled s /\ spawned (arrive (Replicator s)) = false.
Proof.
  intros Hok [Hnd Hcov] Hm Hl [t Ht]. destruct (update_loop_spec order temps m Hnd Hok) as [_ Hspec]. rewrite Hspec, Ht, decide_True in Hl by (apply (Hcov _ _ Ht)).
  injection Hl as <-. rewrite update_one_enabled. apply update_one_runs; [apply (Hok _ _ Ht)|]. intros s Hs. apply (Hm _ _ Hs).
Qed.

Lemma loop_orphans_quiet order temps m : slots_ok temps -> covers order temps ->
  (forall name s, m !! name = Some s -> running (Replicator s) = Enabled s /\ spawned (Replicator s) = false) ->
  Forall (fun p => quiet p.2) (map (fun p => (p.1, Stop (Replicator p.2))) (map_to_list (gone temps (update_loop slot_ok order temps m).1))).
Proof.
  intros Hok [Hnd Hcov] Hm. apply List.Forall_map, Forall_forall. intros [name s] Hin. apply elem_of_map_to_list in Hin. cbn [fst snd].
  unfold gone in Hin. apply map_lookup_filter_Some in Hin. destruct Hin as [Hl Hg]. cbn in Hg. apply Stop_quiet.
  destruct (update_loop_spec order temps m Hnd Hok) as [_ Hspec]. rewrite Hspec, Hg in Hl. apply (Hm _ _ Hl).
Qed.

Lemma update_aligns rows order mg : aligned mg -> slots_ok (subMap rows) -> covers order (subMap rows) ->
  let '(mg', e) := UpdateSubscriptions slot_ok (Some rows) order mg in
  e = None /\ aligned (settle mg') /\ forall name, (Enabled <$> subscriptionMap mg' !! name) = (row_enabled <$> subMap rows !! name).
Proof.
  intros [Hm Ho] Hok Hcov. pose proof Hcov as [Hnd Hc]. unfold UpdateSubscriptions. pose proof (update_loop_spec order (subMap rows) (subscriptionMap mg) Hnd Hok) as [He Hspec].
  destruct (update_loop slot_ok order (subMap rows) (subscriptionMap mg)) as [m e] eqn:El. cbn [fst snd] in He, Hspec. subst e. split; [reflexivity|].
  assert (Hm1 : (update_loop slot_ok order (subMap rows) (subscriptionMap mg)).1 = m) by (rewrite El; reflexivity).
  split; [split|].
  - intros name s Hl. cbn [settle stop_gone subscriptionMap] in Hl. rewrite lookup_fmap in Hl. destruct (kept (subMap rows) m !! name) as [s0|] eqn:Ek; [|discriminate].
    injection Hl as <-. unfold kept in Ek. apply map_lookup_filter_Some in Ek. destruct Ek as [Ek Hin]. cbn in Hin. cbn [settle_sub Replicator Enabled].
    rewrite <- Hm1 in Ek. apply (entry_aligned order (subMap rows) (subscriptionMap mg) name s0 Hok Hcov Hm Ek). destruct (subMap rows !! name); [eauto | congruence].
  - cbn [settle stop_gone orphans]. apply List.Forall_map. apply Forall_app. split.
    + apply (Forall_impl _ _ _ Ho). intros p. apply arrive_quiet.
    + rewrite <- Hm1. apply (Forall_impl _ _ _ (loop_orphans_quiet order (subMap rows) (subscriptionMap mg) Hok Hcov Hm)). intros p. apply arrive_quiet.
  - intros name. cbn [stop_gone subscriptionMap]. unfold kept. rewrite map_lookup_filter, Hspec. destruct (subMap rows !! name) as [t|] eqn:Et.
    + rewrite decide_True by (apply (Hc _ _ Et)). cbn. rewrite Et. rewrite option_guard_True by discriminate. cbn. rewrite update_one_enabled. reflexivity.
    + destruct (subscriptionMap mg !! name) as [s|]; [|reflexivity]. cbn. rewrite Et. rewrite option_guard_False by congruence. reflexivity.
Qed.

(** One row: the map is left with its entry alone. *)
Lemma update_single name conn pub lsn enabled mg : slot_ok conn pub = true \/ is_Some (subscriptionMap mg !! name) ->
  subscriptionMap (UpdateSubscriptions slot_ok (Some [mkSubRow name conn pub lsn enabled]) [name] mg).1
  = {[name := (update_one slot_ok (mkSubRow name conn pub lsn enabled) (subscriptionMap mg !! name)).1]}.
Proof.
  intros H. unfold UpdateSubscriptions. set (t := mkSubRow name conn pub lsn enabled). cbn [subMap foldl].
  change (row_name t) with name. cbn [update_loop]. rewrite lookup_insert_eq.
  assert (E : (update_one slot_ok t (subscriptionMap mg !! name)).2 = true).
  { destruct H as [H|[s Hs]]; [apply update_one_ok, H|]. rewrite Hs. unfold update_one. destruct (Bool.eqb _ _); reflexivity. }
  destruct (update_one slot_ok t (subscriptionMap mg !! name)) as [sub ok]. cbn in E. subst ok. cbn [fst stop_gone subscriptionMap].
  apply map_eq. intros i. unfold kept. rewrite map_lookup_filter. destruct (decide (i = name)) as [->|Hne].
  - rewrite lookup_insert_eq, lookup_singleton_eq. cbn. rewrite option_guard_True; [reflexivity|]. rewrite lookup_insert_eq. discriminate.
  - rewrite lookup_singleton_ne by congruence. destruct (<[name := sub]> (subscriptionMap mg) !! i); [|reflexivity]. cbn. rewrite option_guard_False; [reflexivity|].
    rewrite lookup_insert_ne by congruence. rewrite lookup_empty. congruence.
Qed.
End Reconcile.

(** ** A statement that fails *)
Section ExecuteErrors.
Context `{HA : ArrowLib} `{HD : !DuckDB} `{HS : !Session} `{HP : PgLogRepl}.

Lemma update_loop_error slot_ok order : forall temps m m' e, update_loop slot_ok order temps m = (m', Some e) -> exists name, e = ErrSlot name.
Proof.
  induction order as [|n order IH]; intros temps m m' e; cbn [update_loop]; [discriminate|]. destruct (temps !! n); [|apply IH].
  destruct (update_one _ _ _) as [sub []]; [apply IH|]. intros E. injection E as _ <-. eauto.
Qed.

Lemma update_error slot_ok rows order mg mg' e : UpdateSubscriptions slot_ok rows order mg = (mg', Some e) -> (forall name, e <> ErrSlot name) -> mg' = mg.
Proof.
  unfold UpdateSubscriptions. destruct rows as [rows|]; [|intros E _; congruence]. destruct (update_loop _ _ _ _) as [m [e'|]] eqn:El; [|discriminate].
  intros E He. injection E as <- <-. apply update_loop_error in El. destruct El as [name ->]. destruct (He name eq_refl).
Qed.

Lemma commit_and_update_error o w mg w' mg' e : commit_and_update o w mg = Ret (w', mg', Some e) -> (forall name, e <> ErrSlot name) -> mg' = mg.
Proof.
  unfold commit_and_update. destruct (CommitAndCloseTxn w) as [w1 []]; [|intros E _; congruence]. destruct (QueryCatalog _ w1) as [w2 rows].
  destruct (UpdateSubscriptions _ _ _ _) as [mg2 e2] eqn:Eu. intros E He. injection E as _ <- ->. apply (update_error _ _ _ _ _ _ Eu He).
Qed.

Lemma status_error enabled o config w mg w' mg' e : executeStatus enabled o config w mg = Ret (w', mg', Some e) -> (forall name, e <> ErrSlot name) -> mg' = mg.
Proof.
  unfold executeStatus. destruct (negb (o_context o)); [intros E _; congruence|]. destruct (UpdateSubscriptionStatus _ _ w) as [[w1 done]|]; try discriminate. cbn [mbind].
  cbn. destruct (negb done); [intros E _; congruence|]. apply commit_and_update_error.
Qed.

Lemma drop_error o config w mg w' mg' e : executeDrop o config w mg = Ret (w', mg', Some e) -> (forall name, e <> ErrSlot name) -> mg' = mg.
Proof.
  unfold executeDrop. destruct (negb (o_context o)); [intros E _; congruence|]. destruct (DeleteSubscription _ w) as [[w1 done]|]; try discriminate.
  cbn. destruct (negb done); [intros E _; congruence|]. apply commit_and_update_error.
Qed.

Lemma doCreate_error o config conn lsn w mg w' mg' e : doCreateSubscription o config conn lsn w mg = Ret (w', mg', Some e) -> (forall name, e <> ErrSlot name) -> mg' = mg.
Proof.
  unfold doCreateSubscription. destruct (negb (o_publication o _ _)); [intros E _; congruence|]. destruct (GetCatalogTxn w) as [[w1 tx]|]; [|intros E _; congruence].
  destruct (CreateSubscription _ _ _ _ _ w1) as [[w2 done]|]; try discriminate. cbn. destruct (negb done); [cbn; intros E _; congruence|].
  destruct (commit_and_update o w2 mg) as [[[w3 mg3] e3]|] eqn:Ec; try discriminate. cbn. intros E He. injection E as _ <- ->. apply (commit_and_update_error _ _ _ _ _ _ Ec He).
Qed.

Lemma create_error o config w mg w' mg' e : executeCreate o config w mg = Ret (w', mg', Some e) -> (forall name, e <> ErrSlot name) -> mg' = mg.
Proof.
  unfold executeCreate. destruct (negb (o_context o)); [intros E _; congruence|]. destruct (Connection config) as [conn|]; [|discriminate].
  destruct (doSnapshot o conn w) as [[w1 [lsn|e1]]|]; try discriminate; cbn; [apply doCreate_error | intros E _; congruence].
Qed.
End ExecuteErrors.
