(* ===== verification/Backup.v ===== *)
(** * BACKUP and RESTORE (src/pgserver/backup_handler.go, restore_handler.go, src/storage/object_storage.go)

    The statements, the object storage they name, and the steps of a backup on
    the session, the subscriptions and the mode the provider was last opened
    in.  [url_Parse] is [url.Parse] as scheme, host and path; the upload and
    the restarts of the provider are given by what they return. *)

From Stdlib Require Import Ascii String.
From S2P Require Import Prelude GoTime Charset Schema Identifier InternalTables Delta RowAppend PgDecode CatalogErrors Session Logrepl Regexp SqlText Subscriptions.

#[local] Open Scope list_scope.

(** ** Object storage *)
Record ObjectStorageConfig : Type := mkStorage { Provider : string; Endpoint : string; Region : string; AccessKeyId : string; SecretAccessKey : string }.
Definition DummyRegion : string := "my-duck-server".
Definition supportedProvider (p : string) : bool := bool_decide (p = "s3") || bool_decide (p = "s3c").

(** [strings.SplitN full "/" 2]. *)
Fixpoint split_slash (l : list ascii) : option (list ascii * list ascii) :=
  match l with
  | [] => None
  | c :: l' => if char_is "/" c then Some ([], l') else match split_slash l' with Some (a, b) => Some (c :: a, b) | None => None end
  end.
Definition parseBucketAndPath (fullPath : string) : string * string :=
  match split_slash (bytes fullPath) with Some (a, b) => (text a, text b) | None => (fullPath, EmptyString) end.

(** [strings.Split endpoint "."]. *)
Fixpoint split_dots (l : list ascii) : list (list ascii) :=
  match l with
  | [] => [[]]
  | c :: l' =>
      if char_is "." c then [] :: split_dots l'
      else match split_dots l' with seg :: segs => (c :: seg) :: segs | [] => [[c]] end
  end.
Definition EqualFold (a : list ascii) (b : string) : bool := bool_decide (map fold_char a = map fold_char (bytes b)).

Definition parseS3RegionCode (endpoint : string) : string :=
  if decide (endpoint = EmptyString) then EmptyString else
  let segs := rev (split_dots (bytes endpoint)) in
  let segs := match segs with s :: segs' => if EqualFold s "cn" then segs' else segs | [] => segs end in
  match segs with
  | s0 :: s1 :: s2 :: _ => if EqualFold s0 "com" && EqualFold s1 "amazonaws" && negb (EqualFold s2 "s3") then text s2 else EmptyString
  | _ => EmptyString
  end.

Definition parseRegionFromEndpoint (provider endpoint : string) : option string :=
  if decide (provider = "s3") then
    let region := parseS3RegionCode endpoint in if decide (region = EmptyString) then None else Some region
  else Some DummyRegion.

Section Statements.
Context (url_Parse : string -> option (string * string * string)).

Definition parseProviderAndPath (uri : string) : option (string * string) :=
  match url_Parse uri with
  | None => None
  | Some (scheme, host, path) =>
      let provider := strings_ToLower scheme in
      if supportedProvider provider then Some (provider, host +:+ path) else None
  end.

Definition ConstructStorageConfig (remoteUri endpoint accessKeyId secretAccessKey : string) : option (ObjectStorageConfig * string) :=
  match parseProviderAndPath remoteUri with
  | None => None
  | Some (provider, remotePath) =>
      match parseRegionFromEndpoint provider endpoint with
      | None => None
      | Some region => Some (mkStorage provider endpoint region accessKeyId secretAccessKey, remotePath)
      end
  end.

(** ** The statements *)
Record BackupConfig : Type := mkBackup { DbName : string; RemotePath : string; StorageConfig : ObjectStorageConfig }.
Record RestoreConfig : Type := mkRestore { RestoreDb : string; RemoteFile : string; RestoreStorage : ObjectStorageConfig }.

Definition not_space (c : ascii) : bool := negb (is_space c).
Definition setting (name : string) (n : nat) : re :=
  ROpt (Regexp.seq [sp; lit_i name; sp0; lit_i "="; sp0; lit_i "'"; RGroup n (RPlus (RChar not_quote)); lit_i "'"]).
(** [verb] DATABASE name [prep] 'uri' and the three settings. *)
Definition storage_regex (verb prep : string) : re := Regexp.seq
  [ lit_i verb; sp; lit_i "DATABASE"; sp; RGroup 1 (RPlus (RChar not_space)); sp; lit_i prep; sp; lit_i "'";
    RGroup 2 (Regexp.seq [lit_i "s3"; ROpt (lit_i "c"); lit_i "://"; RPlus (RChar not_quote)]); lit_i "'";
    setting "ENDPOINT" 3; setting "ACCESS_KEY_ID" 4; setting "SECRET_ACCESS_KEY" 5 ].
Definition backupRegex : re := storage_regex "BACKUP" "TO".
Definition restoreRegex : re := storage_regex "RESTORE" "FROM".

Inductive StorageSQL (A : Type) : Type := NoStorageSQL | StorageError | StorageParsed (c : A).
Arguments NoStorageSQL {A}. Arguments StorageError {A}. Arguments StorageParsed {A}.

Definition parse_storage {A} (r : re) (mk : string -> string -> ObjectStorageConfig -> A) (sql : string) : StorageSQL A :=
  match FindStringSubmatch r sql with
  | None => NoStorageSQL
  | Some m =>
      let dbName := strings_TrimSpace (group 1 m) in
      let remoteUri := strings_TrimSpace (group 2 m) in
      let endpoint := strings_TrimSpace (group 3 m) in
      let accessKeyId := strings_TrimSpace (group 4 m) in
      let secretAccessKey := strings_TrimSpace (group 5 m) in
      if existsb (fun v => bool_decide (v = EmptyString)) [dbName; remoteUri; endpoint; accessKeyId; secretAccessKey] then StorageError else
      match ConstructStorageConfig remoteUri endpoint accessKeyId secretAccessKey with
      | None => StorageError
      | Some (config, remotePath) => StorageParsed (mk dbName remotePath config)
      end
  end.
Definition parseBackupSQL : string -> StorageSQL BackupConfig := parse_storage backupRegex mkBackup.
Definition parseRestoreSQL : string -> StorageSQL RestoreConfig := parse_storage restoreRegex mkRestore.
End Statements.
Arguments NoStorageSQL {A}. Arguments StorageError {A}. Arguments StorageParsed {A}.

(** ** A backup *)
Inductive BackupError : Type := BeContext | BeStop (e : option SubError) | BeCheckpoint | BeRestart | BeUpload | BeRestartAfter (msg : string) | BeStart (msg : string).

Section Execute.
Context `{HA : ArrowLib} `{HD : !DuckDB} `{HS : !Session} `{HP : PgLogRepl}.

(** The server: the session's world, the subscriptions, and whether the provider was opened read-only. *)
Record Server : Type := mkServer { srv_db : db; srv_subs : Manager; srv_readOnly : bool }.

(** What happens outside: the reopened world of a restart, the message of the upload. *)
Record BackupOutside : Type := mkBackupOutside {
  b_outside : Outside;
  b_restart : bool -> db -> option db;
  b_upload : BackupConfig -> option string
}.

(** Every status is set, committed, and the replicators are brought in line. *)
Definition set_all_replication (enabled : bool) (o : Outside) (s : Server) : outcome (Server * option (option SubError)) :=
  '(w, done) ← UpdateAllSubscriptionStatus enabled (srv_db s);
  if negb done then Ret (mkServer w (srv_subs s) (srv_readOnly s), Some None) else
  '(w, mg, e) ← commit_and_update o w (srv_subs s);
  Ret (mkServer w mg (srv_readOnly s), match e with None => None | Some e => Some (Some e) end).
Definition stopAllReplication : Outside -> Server -> outcome (Server * option (option SubError)) := set_all_replication false.
Definition startAllReplication : Outside -> Server -> outcome (Server * option (option SubError)) := set_all_replication true.

Definition doCheckpoint (s : Server) : Server * bool :=
  match ExecCatalogInTxn "CHECKPOINT" [] (srv_db s) with
  | (w, false) => (mkServer w (srv_subs s) (srv_readOnly s), false)
  | (w, true) => let '(w, done) := CommitAndCloseTxn w in (mkServer w (srv_subs s) (srv_readOnly s), done)
  end.

Definition restartServer (o : BackupOutside) (readOnly : bool) (s : Server) : Server * bool :=
  match b_restart o readOnly (srv_db s) with
  | None => (s, false)
  | Some w => (mkServer w (srv_subs s) readOnly, true)
  end.

Definition executeBackup (o : BackupOutside) (config : BackupConfig) (s : Server) : outcome (Server * (string + BackupError)) :=
  if negb (o_context (b_outside o)) then Ret (s, inr BeContext) else
  '(s, e) ← stopAllReplication (b_outside o) s;
  match e with
  | Some e => Ret (s, inr (BeStop e))
  | None =>
      match doCheckpoint s with
      | (s, false) => Ret (s, inr BeCheckpoint)
      | (s, true) =>
          match restartServer o true s with
          | (s, false) => Ret (s, inr BeRestart)
          | (s, true) =>
              match b_upload o config with
              | None => Ret (s, inr BeUpload)
              | Some msg =>
                  match restartServer o false s with
                  | (s, false) => Ret (s, inr (BeRestartAfter msg))
                  | (s, true) =>
                      '(s, e) ← startAllReplication (b_outside o) s;
                      Ret (s, match e with Some _ => inr (BeStart msg) | None => inl msg end)
                  end
              end
          end
      end
  end.
End Execute.

(** ** Facts on backups

    Endpoints written out, and the subscriptions after all of them were
    switched. *)
From S2P Require Import SqlTextFacts.

Section Stopped.
Context `{HA : ArrowLib} `{HD : !DuckDB} `{HS : !Session} `{HP : PgLogRepl}.

Lemma checkpoint_subs (s : Server) : srv_subs (doCheckpoint s).1 = srv_subs s.
Proof. unfold doCheckpoint. destruct (ExecCatalogInTxn _ _ _) as [w []]; [|reflexivity]. destruct (CommitAndCloseTxn w) as [w' d]. reflexivity. Qed.

Lemma subMap_in rows name t : subMap rows !! name = Some t -> t ∈ rows.
Proof.
  unfold subMap. assert (H : forall rows (m : gmap string SubRow), foldl (fun m r => <[row_name r := r]> m) m rows !! name = Some t -> t ∈ rows \/ m !! name = Some t).
  { induction rows0 as [|r rows0 IH]; intros m; cbn [foldl]; [auto|]. intros E. apply IH in E. destruct E as [E|E]; [left; apply elem_of_cons; auto|].
    apply lookup_insert_Some in E. destruct E as [[_ <-]|[_ E]]; [left; apply elem_of_cons; auto | auto]. }
  intros E. apply H in E. destruct E as [E|E]; [exact E|]. rewrite lookup_empty in E. discriminate.
Qed.

(** After the rows were read back with every subscription disabled, none runs. *)
Lemma stopped_subs o s s1 : aligned (srv_subs s) -> (forall name conn, o_slot o name conn = true) ->
  (forall sql w rows, o_rows o sql w = Some rows -> Forall (fun r => row_enabled r = false) rows /\ covers (o_order o) (subMap rows)) ->
  stopAllReplication o s = Ret (s1, None) -> forall name sub, subscriptionMap (settle (srv_subs s1)) !! name = Some sub -> running (Replicator sub) = false.
Proof.
  intros Hal Hslot Hrows E name sub Hl. unfold stopAllReplication, set_all_replication in E. destruct (UpdateAllSubscriptionStatus false (srv_db s)) as [[w done]|]; [|discriminate]. cbn [mbind outcome_bind] in E.
  destruct (negb done); [discriminate|]. unfold commit_and_update in E. destruct (CommitAndCloseTxn w) as [w1 []]; [|discriminate]. unfold QueryCatalog in E.
  destruct (GetCatalogConn w1) as [w2|]; [|discriminate]. destruct (o_rows o (SelectAllStmt PgSubscription) w2) as [rows|] eqn:Er; [|discriminate].
  destruct (Hrows _ _ _ Er) as [Hoff Hcov]. pose proof (update_aligns (o_slot o) rows (o_order o) (srv_subs s) Hal (fun n t _ => Hslot _ _) Hcov) as Hu.
  destruct (UpdateSubscriptions (o_slot o) (Some rows) (o_order o) (srv_subs s)) as [mg e]. cbn [mbind outcome_bind] in E. destruct Hu as (-> & Ha & Hen). injection E as <-. cbn [srv_subs] in Hl.
  destruct (proj1 Ha name sub Hl) as [Hr _]. rewrite Hr. cbn [settle subscriptionMap] in Hl. rewrite lookup_fmap in Hl. destruct (subscriptionMap mg !! name) as [s0|] eqn:E0; [|discriminate]. injection Hl as <-. cbn [settle_sub Enabled].
  specialize (Hen name). rewrite E0 in Hen. cbn in Hen. destruct (subMap rows !! name) as [t|] eqn:Et; [|discriminate]. injection Hen as ->.
  rewrite Forall_forall in Hoff. apply Hoff, (subMap_in _ _ _ Et).
Qed.
End Stopped.

Lemma split_dots_segment seg rest : forallb (not_in ["."%char]) seg = true -> split_dots (seg ++ "."%char :: rest) = seg :: split_dots rest.
Proof.
  induction seg as [|c seg IH]; intros H; [reflexivity|]. cbn [forallb] in H. apply andb_prop in H. destruct H as [Hc H]. apply not_in_cons in Hc. destruct Hc as [Hc _].
  cbn [app split_dots]. rewrite Hc, IH by exact H. reflexivity.
Qed.
