(* ===== verification/PgHandler.v ===== *)
(** * The connection handler (src/pgserver/connection_handler.go, connection_data.go)

    The messages of one client: simple queries, the extended protocol with its
    prepared statements and portals, and COPY FROM STDIN.  The handler's fields
    are a record; [M] threads it and keeps it when the code panics, because
    [receiveMessage] recovers.  The [atomic.Bool] that a statement shares with
    its portals is a cell of [cells].  The messages still to be read are
    [input], those sent are [output].

    The PostgreSQL parser and go-mysql-server are the class [PgParser]; the
    engine behind [DuckHandler], the loaders of COPY and the in-place handlers
    are the class [Backend]. *)

From Stdlib Require Import Ascii String.
From stdpp Require Import pretty.
From S2P Require Import Prelude Identifier InternalTables CatalogErrors Regexp SqlText PsqlCommands PgConfig Rewrite Subscriptions Backup.

#[local] Open Scope list_scope.

(** ** Messages *)
Record FieldDescription : Type := mkField { fd_Name : string; fd_OID : Z; fd_Size : Z; fd_Format : Z }.
Definition RowValues : Type := list (option string).

Inductive FrontendMessage : Type :=
| FTerminate | FSync
| FQuery (query : string)
| FParse (name query : string) (oids : list Z)
| FDescribe (statement : bool) (name : string)          (* object type 'S' or not *)
| FBind (portal statement : string) (formats : list Z) (params : list (option string)) (results : list Z)
| FExecute (portal : string)
| FClose (statement : bool) (name : string)
| FCopyData (data : string) | FCopyDone | FCopyFail
| FOther.                                                (* Flush and the rest *)

Inductive BackendMessage : Type :=
| BRowDescription (fields : list FieldDescription) | BDataRow (values : RowValues) | BCommandComplete (tag : string)
| BParseComplete | BBindComplete | BCloseComplete | BNoData | BEmptyQueryResponse
| BParameterDescription (oids : list Z) | BParameterStatus (name value : string) | BErrorResponse (msg : string)
| BReadyForQuery | BCopyInResponse (format : Z) | BCopyOutResponse (columns : nat) | BCopyData (data : string) | BCopyDone.

(** ** Statements *)

(** The nodes of the parser's tree the handler looks at. *)
Record CopyNode : Type := mkCopyNode { cn_schema : string; cn_table : string; cn_columns : list string; cn_format : CopyFormat }.
(** The value of a SET: DEFAULT, a name with its parts, a string, or an
    expression with its text. *)
Inductive SetExpr : Type := EDefault | EName (parts : list string) | EString (raw : string) | EOther (shown : string).
Inductive Node : Type :=
| NDeallocate (name : string) | NDiscard | NCopyFrom (stdin : bool) (c : CopyNode) | NCopyTo (c : CopyNode)
| NShowVar (name : string) | NSetVar (name : string) (values : list SetExpr) (reset resetAll : bool)
| NSetSessionCharacteristics (isolation : string) | NOther (id : Z).

Record ConvertedStatement : Type := mkStmt {
  st_String : string; st_AST : option Node; st_Tag : string; st_PgParsable : bool; st_IsExtendedQuery : bool;
  st_Subscription : option SubscriptionConfig; st_Backup : option BackupConfig; st_Restore : option RestoreConfig
}.
(** [ConvertedStatement{String: s, Tag: tag}]. *)
Definition plain_statement (s tag : string) : ConvertedStatement := mkStmt s None tag false false None None None.
Definition set_extended (b : bool) (s : ConvertedStatement) : ConvertedStatement :=
  mkStmt (st_String s) (st_AST s) (st_Tag s) (st_PgParsable s) b (st_Subscription s) (st_Backup s) (st_Restore s).
Definition set_tag (tag : string) (s : ConvertedStatement) : ConvertedStatement :=
  mkStmt (st_String s) (st_AST s) tag (st_PgParsable s) (st_IsExtendedQuery s) (st_Subscription s) (st_Backup s) (st_Restore s).

(** [Stmt] and [Closed] as addresses, [None] for nil. *)
Record PreparedStatementData : Type := mkPrepared {
  ps_Statement : ConvertedStatement; ps_ReturnFields : list FieldDescription; ps_BindVarTypes : list Z; ps_Stmt : option nat; ps_Closed : option nat
}.
Record PortalData : Type := mkPortal {
  po_Statement : ConvertedStatement; po_IsEmptyQuery : bool; po_Fields : list FieldDescription; po_ResultFormatCodes : list Z;
  po_Stmt : option nat; po_Vars : list string; po_Closed : option nat
}.

Class PgParser : Type := {
  Parse : string -> option (list (string * Node));
  ParseOne : string -> option Node;
  StatementTag : Node -> string;
  RemoveSpaceAndDelimiter : string -> string;
  url_Parse : string -> option (string * string * string)
}.

(** What a query gives: the count of affected rows, or fields and rows, with
    the error that ended the rows if there was one. *)
Inductive QueryResult : Type := QAffected (n : Z) | QRows (fields : list FieldDescription) (rows : list RowValues) (err : option string).
(** A statement prepared by DuckDB: parameter types, result fields, its kind. *)
Record PreparedInfo : Type := mkInfo { pi_params : list Z; pi_fields : list FieldDescription; pi_type : StmtType }.

Class Backend : Type := {
  engine : Type;
  Table : Type;
  Loader : Type;
  NewContext : engine -> engine * option string;
  CloseBackendConn : engine -> engine;
  PrepareParsed : string -> option Node -> engine -> engine * (PreparedInfo + string);
  StmtBind : nat -> list string -> engine -> engine * option string;
  (** a query of text and bound values; a statement handle decides how a bound one is run *)
  ExecuteQuery : string -> option Node -> engine -> engine * (QueryResult + string);
  ExecuteBound : nat -> string -> list string -> engine -> engine * (QueryResult + string);
  getStatementTag : string -> engine -> engine * (string + string);
  ScanText : Z -> Z -> option string -> option (option string);
  (** the name of the machine's time zone *)
  Location : string;
  (** the default of a system variable, the variables of the session, the text of a number with a fraction *)
  GetGlobal : string -> option value;
  SetSessionVariable : string -> value -> engine -> engine * option string;
  GetSessionVariable : string -> engine -> engine * (value + string);
  FormatFloat : Z -> nat -> string;
  (** the first row of a query on the catalog, or none *)
  QueryRow : string -> engine -> engine * (option (list value) + string);
  RunSubscription : SubscriptionConfig -> engine -> engine * option string;
  RunBackup : BackupConfig -> engine -> engine * (string + string);
  RunRestore : RestoreConfig -> engine -> engine * (string + string);
  ValidateCopyFrom : CopyNode -> engine -> engine * (Table + string);
  StartLoader : CopyNode -> Table -> string -> engine -> engine * (Loader + string);
  LoadChunk : Loader -> string -> engine -> engine * (Loader + string);
  FinishLoader : Loader -> engine -> engine * (Z + string);
  (** the messages sent while the rows are copied out, and the rows counted *)
  CopyOut : ConvertedStatement -> option CopyNode -> string -> CopyFormat -> string -> engine -> engine * (list BackendMessage * (Z + string))
}.

Section Handler.
Context `{HPP : PgParser} `{HB : Backend}.
(** Whether the message after [n] can be written to the connection. *)
Context (send_ok : nat -> bool).

Record CopyFromStdinState : Type := mkCopyState {
  copyFromStdinNode : CopyNode; targetTable : Table; rawOptions : string; dataLoader : option Loader; copyErr : option string
}.

Record Handler : Type := mkHandler {
  preparedStatements : gmap string PreparedStatementData;
  portals : gmap string PortalData;
  waitForSync : bool;
  copyFromStdinState : option CopyFromStdinState;
  cells : gmap nat bool;                 (* the values of the atomic.Bool cells *)
  next : nat;                            (* the next address *)
  closes : list nat;                     (* the statements closed, latest first *)
  eng : engine;
  input : list FrontendMessage;
  output : list BackendMessage
}.

Definition set_prepared v h := mkHandler v (portals h) (waitForSync h) (copyFromStdinState h) (cells h) (next h) (closes h) (eng h) (input h) (output h).
Definition set_portals v h := mkHandler (preparedStatements h) v (waitForSync h) (copyFromStdinState h) (cells h) (next h) (closes h) (eng h) (input h) (output h).
Definition set_waitForSync v h := mkHandler (preparedStatements h) (portals h) v (copyFromStdinState h) (cells h) (next h) (closes h) (eng h) (input h) (output h).
Definition set_copy v h := mkHandler (preparedStatements h) (portals h) (waitForSync h) v (cells h) (next h) (closes h) (eng h) (input h) (output h).
Definition set_cells v h := mkHandler (preparedStatements h) (portals h) (waitForSync h) (copyFromStdinState h) v (next h) (closes h) (eng h) (input h) (output h).
Definition set_next v h := mkHandler (preparedStatements h) (portals h) (waitForSync h) (copyFromStdinState h) (cells h) v (closes h) (eng h) (input h) (output h).
Definition set_closes v h := mkHandler (preparedStatements h) (portals h) (waitForSync h) (copyFromStdinState h) (cells h) (next h) v (eng h) (input h) (output h).
Definition set_eng v h := mkHandler (preparedStatements h) (portals h) (waitForSync h) (copyFromStdinState h) (cells h) (next h) (closes h) v (input h) (output h).
Definition set_input v h := mkHandler (preparedStatements h) (portals h) (waitForSync h) (copyFromStdinState h) (cells h) (next h) (closes h) (eng h) v (output h).
Definition set_output v h := mkHandler (preparedStatements h) (portals h) (waitForSync h) (copyFromStdinState h) (cells h) (next h) (closes h) (eng h) (input h) v.

(** ** The monad: a panic keeps the handler *)
Definition M (A : Type) : Type := Handler -> Handler * option A.
#[global] Instance M_ret : MRet M := fun A a h => (h, Some a).
#[global] Instance M_bind : MBind M := fun A B f m h => match m h with (h, Some a) => f a h | (h, None) => (h, None) end.
Definition panic {A} : M A := fun h => (h, None).
Definition get {A} (f : Handler -> A) : M A := fun h => (h, Some (f h)).
Definition modify (f : Handler -> Handler) : M unit := fun h => (f h, Some tt).
Definition run_engine {A} (f : engine -> engine * A) : M A := fun h => let '(e, a) := f (eng h) in (set_eng e h, Some a).

(** An error is [Some] message; the rest runs when there is none. *)
Definition or_error (m k : M (option string)) : M (option string) := e ← m; match e with Some e => mret (Some e) | None => k end.
Definition or_else {A} (m : M (A + string)) (k : A -> M (option string)) : M (option string) :=
  r ← m; match r with inr e => mret (Some e) | inl a => k a end.

Definition send (msg : BackendMessage) : M (option string) :=
  fun h => if send_ok (length (output h)) then (set_output (output h ++ [msg]) h, Some None) else (h, Some (Some "write error"%string)).
Fixpoint send_all (msgs : list BackendMessage) : M (option string) :=
  match msgs with [] => mret None | m :: msgs' => or_error (send m) (send_all msgs') end.

(** ** Prepared statements and portals *)
Definition close_stmt (s : option nat) : M unit :=
  match s with None => panic | Some a => modify (fun h => set_closes (a :: closes h) h) end.
(** [if Closed.CompareAndSwap(false, true) { Stmt.Close() }] *)
Definition close_once (closed stmt : option nat) : M unit :=
  match closed with
  | None => panic
  | Some c =>
      b ← get (fun h => cells h !! c);
      if decide (b = Some false) then (_ ← modify (fun h => set_cells (<[c := true]> (cells h)) h); close_stmt stmt) else mret tt
  end.
Definition deletePreparedStatement (name : string) : M unit :=
  ps ← get (fun h => preparedStatements h !! name);
  match ps with
  | None => mret tt
  | Some ps => _ ← modify (fun h => set_prepared (delete name (preparedStatements h)) h); close_once (ps_Closed ps) (ps_Stmt ps)
  end.
Definition deletePortal (name : string) : M unit :=
  p ← get (fun h => portals h !! name);
  match p with
  | None => mret tt
  | Some p => _ ← modify (fun h => set_portals (delete name (portals h)) h); close_once (po_Closed p) (po_Stmt p)
  end.
Definition store_statement (name : string) (ps : PreparedStatementData) : M unit := modify (fun h => set_prepared (<[name := ps]> (preparedStatements h)) h).
Definition store_portal (name : string) (p : PortalData) : M unit := modify (fun h => set_portals (<[name := p]> (portals h)) h).
(** A new address, with a cell that is false. *)
Definition new_cell : M nat := fun h => (set_next (S (next h)) (set_cells (<[next h := false]> (cells h)) h), Some (next h)).

Definition deallocatePreparedStatement (name : string) (query : ConvertedStatement) : M (option string) :=
  ps ← get (fun h => preparedStatements h !! name);
  match ps with
  | None => mret (Some ("prepared statement " +:+ name +:+ " does not exist"))
  | Some _ => _ ← deletePreparedStatement name; send (BCommandComplete (st_Tag query))
  end.

Definition discardAll (query : ConvertedStatement) : M (option string) :=
  _ ← modify (fun h => set_eng (CloseBackendConn (eng h)) h); send (BCommandComplete (st_Tag query)).

(** ** Results *)
Definition countsRows (tag : string) : bool :=
  bool_decide (tag ∈ ["INSERT"; "DELETE"; "UPDATE"; "MERGE"; "SELECT"; "CREATE TABLE AS"; "MOVE"; "FETCH"; "COPY"]).
Definition makeCommandComplete (tag : string) (rows : Z) : BackendMessage :=
  BCommandComplete (if countsRows tag then (if decide (tag = "INSERT") then "INSERT 0" else tag) +:+ " " +:+ pretty rows else tag).
Definition returnsRow (tag : string) : bool := bool_decide (tag ∈ ["SELECT"; "SHOW"; "FETCH"; "EXPLAIN"; "SHOW TABLES"]).
Definition isIUD (tag : string) : bool := bool_decide (tag ∈ ["INSERT"; "UPDATE"; "DELETE"]).
Definition rowsBatch : nat := 128.

Record Result : Type := mkResult { r_Fields : list FieldDescription; r_Rows : list RowValues; r_RowsAffected : Z }.
(** What the callback keeps between its calls: whether the description was sent, and the count. *)
Definition Spooled : Type := bool * Z.

Definition spoolRowsCallback (tag : string) (isExecute : bool) (res : Result) (st : Spooled) : M (Spooled + string) :=
  let '(sent, rows) := st in
  let describe := returnsRow tag && negb isExecute && negb sent in
  e ← (if describe then send (BRowDescription (r_Fields res)) else mret None);
  match e with
  | Some e => mret (inr e)
  | None =>
      e ← (if returnsRow tag then send_all (map BDataRow (r_Rows res)) else mret None);
      match e with
      | Some e => mret (inr e)
      | None => mret (inl (sent || describe, if isIUD tag then i32 (r_RowsAffected res) else i32 (rows + i32 (Z.of_nat (length (r_Rows res))))))
      end
  end.

(** [resultForDefaultIter]: full batches go to the callback; what is left of
    the rows, and whether there was a batch. *)
Fixpoint spool (tag : string) (isExecute : bool) (fields : list FieldDescription) (acc : list RowValues) (processed : bool)
  (rows : list RowValues) (st : Spooled) : M ((list RowValues * bool * Spooled) + string) :=
  if (length acc =? rowsBatch)%nat then
    r ← spoolRowsCallback tag isExecute (mkResult fields acc (Z.of_nat rowsBatch)) st;
    match r with
    | inr e => mret (inr e)
    | inl st =>
        match rows with
        | [] => mret (inl ([], true, st))
        | row :: rows' => spool tag isExecute fields [row] true rows' st
        end
    end
  else match rows with
       | [] => mret (inl (acc, processed, st))
       | row :: rows' => spool tag isExecute fields (acc ++ [row]) processed rows' st
       end.

(** [doQuery] after the query was run. *)
Definition deliver (tag : string) (isExecute : bool) (q : QueryResult) : M (Z + string) :=
  match q with
  | QAffected n => r ← spoolRowsCallback tag isExecute (mkResult [] [] n) (false, 0); mret (match r with inr e => inr e | inl (_, rows) => inl rows end)
  | QRows fields rows err =>
      r ← spool tag isExecute fields [] false rows (false, 0);
      match r with
      | inr e => mret (inr e)
      | inl (rest, processed, (sent, n)) =>
          match err with
          | Some e => mret (inr e)
          | None =>
              if bool_decide (rest = []) && processed then mret (inl n) else
              r ← spoolRowsCallback tag isExecute (mkResult fields rest (Z.of_nat (length rest))) (sent, n);
              mret (match r with inr e => inr e | inl (_, rows) => inl rows end)
          end
      end
  end.
Definition doQuery (tag : string) (isExecute : bool) (exec : engine -> engine * (QueryResult + string)) : M (Z + string) :=
  r ← run_engine exec; match r with inr e => mret (inr e) | inl q => deliver tag isExecute q end.

(** ** Running a statement *)
Definition run (statement : ConvertedStatement) : M (option string) :=
  or_else (if negb (st_PgParsable statement) && negb (IsWellKnownStatementTag (st_Tag statement))
           then run_engine (getStatementTag (st_String statement)) else mret (inl (st_Tag statement)))
    (fun tag =>
       let statement := set_tag tag statement in
       match st_Subscription statement, st_Backup statement, st_Restore statement with
       | Some c, _, _ => run_engine (RunSubscription c)
       | None, Some c, _ => or_else (run_engine (RunBackup c)) (fun msg => send (BErrorResponse msg))
       | None, None, Some c => or_else (run_engine (RunRestore c)) (fun msg => send (BErrorResponse msg))
       | None, None, None =>
           or_else (r ← doQuery tag false (ExecuteQuery (st_String statement) (st_AST statement));
                    mret (match r with inr e => inr ("fallback statement execution failed: " +:+ e) | inl n => inl n end))
             (fun rows => send (makeCommandComplete tag rows))
       end).

(** ** Statements handled in place (src/pgserver/in_place_handler.go) *)
Definition select_call (f : re) : re :=
  Regexp.seq [RBegin; sp0; lit_i "select"; sp; f; sp0; RChar (char_is ")"); sp0; ROpt (RChar (char_is ";")); sp0; REnd].
Definition pgIsInRecoveryRegex : re := select_call (Regexp.seq [lit_i "pg_catalog.pg_is_in_recovery"; RChar (char_is "(")]).
Definition pgWALLSNRegex : re :=
  select_call (Regexp.seq [lit_i "pg_catalog."; RGroup 1 (RAlt (lit_i "pg_current_wal_lsn") (lit_i "pg_last_wal_replay_lsn")); RChar (char_is "(")]).
Definition currentSettingRegex : re :=
  select_call (Regexp.seq [ROpt (RGroup 1 (RSeq (lit_i "pg_catalog") any_char)); lit_i "current_setting"; RChar (char_is "("); sp0;
                           RChar (char_is "'"); RGroup 2 (RPlus (RChar not_quote)); RChar (char_is "'")]).

(** [fmt.Sprintf("%v", v)] *)
Definition format_value (v : value) : string :=
  match v with VInt z => pretty z | VFloat n k => FormatFloat n k | VString s => s | VNil => "<nil>" end.
Definition select_as (v name : string) : string := "SELECT '" +:+ v +:+ "' AS " +:+ dquote +:+ name +:+ dquote +:+ ";".
Definition set_string (q : string) (s : ConvertedStatement) : ConvertedStatement :=
  mkStmt q (st_AST s) (st_Tag s) (st_PgParsable s) (st_IsExtendedQuery s) (st_Subscription s) (st_Backup s) (st_Restore s).
(** As [or_else], for any result. *)
Definition try {A B} (m : M (A + string)) (k : A -> M (B + string)) : M (B + string) :=
  r ← m; match r with inr e => mret (inr e) | inl a => k a end.
Definition new_context : M (unit + string) := e ← run_engine NewContext; mret (match e with Some e => inr e | None => inl tt end).

Definition isInRecovery : M (string + string) :=
  try new_context (fun _ =>
  try (run_engine (QueryRow (CountAllStmt PgSubscription))) (fun row =>
    mret (match row with
          | Some [VInt count] => inl (if (count =? 0)%Z then "f" else "t")
          | Some _ => inr "scan"
          | None => inr "no rows"
          end)%string)).
Definition readOneWALPositionStr : M (string + string) :=
  try new_context (fun _ =>
  try (run_engine (QueryRow (SelectAllStmt PgSubscription))) (fun row =>
    mret (match row with
          | None => inl "0/0"
          | Some [_; _; _; VString lsn; _] => inl lsn
          | Some _ => inr "scan"
          end)%string)).

Definition not_found (name : string) : string := "error: " +:+ name +:+ " variable was not found".
Definition queryPGSetting (name : string) : M (value + string) :=
  match GetGlobal name with
  | None => mret (inr (not_found name))
  | Some _ =>
      e ← run_engine NewContext;
      match e with
      | Some e => mret (inr ("error creating context: " +:+ e))
      | None => r ← run_engine (GetSessionVariable name); mret (match r with inr e => inr (not_found name +:+ ", err: " +:+ e) | inl v => inl v end)
      end
  end.
(** Handled, error. *)
Definition setPgSessionVar (name : string) (v : value) (useDefault : bool) (tag : string) : M (bool * option string) :=
  match GetGlobal name with
  | None => mret (false, Some (not_found name))
  | Some default_v =>
      let v := if useDefault then default_v else v in
      e ← or_error (run_engine NewContext) (run_engine (SetSessionVariable name v));
      match e with
      | Some e => mret (false, Some e)
      | None =>
          r ← run_engine (GetSessionVariable name);
          match r with
          | inr e => mret (false, Some (not_found name +:+ ", err: " +:+ e))
          | inl v => e ← or_error (send (makeCommandComplete tag 0)) (send (BParameterStatus name (format_value v))); mret (true, e)
          end
      end
  end.

Record SelectionConversion : Type := mkConversion {
  needConvert : ConvertedStatement -> bool; doConvert : ConvertedStatement -> M (ConvertedStatement + string); isConstQuery : bool
}.
Definition pure_conversion (need : string -> bool) (convert : string -> string) : SelectionConversion :=
  mkConversion (fun s => need (RemoveComments (st_String s))) (fun s => mret (inl (set_string (convert (st_String s)) s))) false.
(** The name in a call of current_setting. *)
Definition setting_name (q : string) : option string := group 2 <$> FindStringSubmatch currentSettingRegex (RemoveComments q).
Definition selectionConversions : list SelectionConversion := [
  mkConversion (fun s => MatchString pgIsInRecoveryRegex (RemoveComments (st_String s)))
    (fun s => try isInRecovery (fun v => mret (inl (set_string (select_as v "pg_is_in_recovery") s)))) false;
  mkConversion (fun s => MatchString pgWALLSNRegex (RemoveComments (st_String s)))
    (fun s => try readOneWALPositionStr (fun v => mret (inl (set_string (select_as v "pg_current_wal_lsn") s)))) false;
  mkConversion (fun s => match setting_name (st_String s) with Some name => IsValidPostgresConfigParameter Location name | None => false end)
    (fun s => match setting_name (st_String s) with
              | None => panic
              | Some name => try (queryPGSetting name) (fun v => mret (inl (set_string (select_as (format_value v) "current_setting") s)))
              end) true;
  pure_conversion (MatchString pgCatalogRegex) ConvertToSys;
  pure_conversion (fun q => MatchString renameMacroRegex q || MatchString macroRegex q)
    (fun q => ConvertToDuckDBMacro (if MatchString renameMacroRegex q then ConvertPgCatalogFuncToSys q else q));
  pure_conversion (MatchString simpleStrMatchingRegex) (fun q => SimpleStrReplacement (RemoveComments q));
  pure_conversion (MatchString pgAnyOpRegex) (fun q => ConvertAnyOp (RemoveComments q))
].

(** When a SELECT is parsed: a constant query is left for its execution. *)
Fixpoint convert_until_const (cs : list SelectionConversion) (s : ConvertedStatement) : M ((bool * ConvertedStatement) + string) :=
  match cs with
  | [] => mret (inl (false, s))
  | c :: cs' =>
      if negb (needConvert c s) then convert_until_const cs' s
      else if isConstQuery c then mret (inl (true, s))
      else try (doConvert c s) (convert_until_const cs')
  end.
Fixpoint convert_all (cs : list SelectionConversion) (converted : bool) (s : ConvertedStatement) : M ((bool * ConvertedStatement) + string) :=
  match cs with
  | [] => mret (inl (converted, s))
  | c :: cs' => if needConvert c s then try (doConvert c s) (convert_all cs' true) else convert_all cs' converted s
  end.

Definition valid_parameter (key : string) : bool := IsValidPostgresConfigParameter Location key.
Definition shouldQueryBeHandledInPlace (s : ConvertedStatement) : M ((bool * ConvertedStatement) + string) :=
  let answer b : M ((bool * ConvertedStatement) + string) := mret (inl (b, s)) in
  if decide (st_Tag s = "SELECT") then convert_until_const selectionConversions s
  else if decide (st_Tag s = "SHOW") then answer match st_AST s with Some (NShowVar _) => true | _ => false end
  else if decide (st_Tag s = "SET") then
    match st_AST s with
    | Some (NSetVar name values _ _) =>
        let key := strings_ToLower name in
        if decide (key = "database") then answer false
        else if negb (valid_parameter key) then answer false
        else if (1 <? length values)%nat then mret (inr ("error: invalid set statement: " +:+ st_String s))
        else answer true
    | Some (NSetSessionCharacteristics _) => answer true
    | _ => answer false
    end
  else if decide (st_Tag s = "RESET") then
    match st_AST s with
    | Some (NSetVar name _ reset resetAll) =>
        if negb reset && negb resetAll then mret (inr "error: invalid reset statement"%string) else answer (valid_parameter (strings_ToLower name))
    | _ => answer false
    end
  else answer false.

(** [h.run] as the answer of a handler. *)
Definition run_handled (s : ConvertedStatement) : M (bool * option string) := e ← run s; mret (true, e).
Definition unsupported (statement : string) : M (bool * option string) :=
  _ ← send (BErrorResponse ("Statement '" +:+ statement +:+ "' is not supported yet.")); mret (true, None).

Definition handle_select (s : ConvertedStatement) : M (bool * option string) :=
  r ← convert_all selectionConversions false s;
  match r with
  | inr e => mret (false, Some e)
  | inl (converted, s) => if converted : bool then run_handled s else mret (false, None)
  end.
Definition handle_show (s : ConvertedStatement) : M (bool * option string) :=
  match st_AST s with
  | Some (NShowVar name) =>
      let key := strings_ToLower name in
      if decide (key = "all") then unsupported "SHOW ALL" else
      r ← queryPGSetting key;
      match r with inr e => mret (false, Some e) | inl v => run_handled (plain_statement (select_as (format_value v) key) "SELECT") end
  | _ => mret (false, None)
  end.
(** The text of the value; [None] for a name of several parts. *)
Definition set_text (e : SetExpr) : option string :=
  match e with EDefault => Some "DEFAULT" | EName [part] => Some part | EName _ => None | EString raw => Some raw | EOther shown => Some shown end%string.
Definition set_parameter (s : ConvertedStatement) (key : string) (e : SetExpr) : M (bool * option string) :=
  if decide (key = "database") then mret (false, None)
  else if negb (valid_parameter key) then mret (false, None)
  else match set_text e with
       | None => mret (false, Some ("error: invalid value in set statement: " +:+ st_String s))
       | Some v => setPgSessionVar key (VString v) match e with EDefault => true | _ => false end "SET"
       end.
Definition space_to_dash (s : string) : string := text (map (fun c => if char_is " " c then "-"%char else c) (bytes s)).
Definition handle_set (s : ConvertedStatement) : M (bool * option string) :=
  match st_AST s with
  | Some (NSetVar name [] _ _) => panic
  | Some (NSetVar name (e :: _) _ _) => set_parameter s (strings_ToLower name) e
  | Some (NSetSessionCharacteristics isolation) => set_parameter s "default_transaction_isolation" (EOther (space_to_dash isolation))
  | _ => mret (false, Some ("error: invalid set statement: " +:+ st_String s))
  end.
Definition handle_reset (s : ConvertedStatement) : M (bool * option string) :=
  match st_AST s with
  | Some (NSetVar name _ reset resetAll) =>
      let key := strings_ToLower name in
      if negb reset && negb resetAll then mret (false, Some ("error: invalid reset statement: " +:+ st_String s))
      else if negb (valid_parameter key) then mret (false, None)
      else if resetAll then unsupported "RESET ALL" else setPgSessionVar key VNil true "RESET"
  | _ => mret (false, Some ("error: invalid reset statement: " +:+ st_String s))
  end.
Definition handleInPlaceQueries (s : ConvertedStatement) : M (bool * option string) :=
  if decide (st_Tag s = "SELECT") then handle_select s
  else if decide (st_Tag s = "SHOW") then handle_show s
  else if decide (st_Tag s = "SET") then handle_set s
  else if decide (st_Tag s = "RESET") then handle_reset s
  else mret (false, None).

(** ** From a query to its statements *)
Definition incompatible : string := "SELECT 'SQL syntax is incompatible with PostgreSQL' AS error".
Definition convert_one (stmt : string * Node) : ConvertedStatement :=
  let '(sql, node) := stmt in
  let full := handleFullMatchQuery sql in
  mkStmt (if decide (full = EmptyString) then sql else full) (Some node) (StatementTag node) true false None None None.

Definition convertQuery (query : string) : M (list ConvertedStatement) :=
  match parseSubscriptionSQL query with
  | Parsed c => mret [mkStmt query None EmptyString true false (Some c) None None]
  | _ =>
      match parseBackupSQL url_Parse query with
      | StorageParsed c => mret [mkStmt query None EmptyString true false None (Some c) None]
      | _ =>
          match parseRestoreSQL url_Parse query with
          | StorageParsed c => mret [mkStmt query None EmptyString true false None None (Some c)]
          | _ =>
              match Parse query with
              | None =>
                  match Parse incompatible with
                  | Some ((_, node) :: _) => mret [mkStmt query (Some node) (GuessStatementTag RemoveSpaceAndDelimiter query) false false None None None]
                  | _ => panic
                  end
              | Some [] => mret [plain_statement query EmptyString]
              | Some stmts => mret (map convert_one stmts)
              end
          end
      end
  end.

(** ** COPY *)
Definition copy_in_format (f : CopyFormat) : Z := match f with CopyFormatText | CopyFormatCSV | CopyFormatJSON => 0 | _ => 1 end.
Definition handleCopyFromStdinQuery (node : CopyNode) (options : string) : M (option string) :=
  or_error (run_engine NewContext)
    (or_else (run_engine (ValidateCopyFrom node))
       (fun table =>
          _ ← modify (set_copy (Some (mkCopyState node table options None None)));
          send (BCopyInResponse (copy_in_format (cn_format node))))).

Definition handleCopyToStdout (query : ConvertedStatement) (node : option CopyNode) (subquery : string) (format : CopyFormat) (options : string) : M (option string) :=
  '(msgs, r) ← run_engine (CopyOut query node subquery format options);
  or_error (send_all msgs)
    (match r with
     | inr e => mret (Some e)
     | inl rows => or_error (send BCopyDone) (send (BCommandComplete ("COPY " +:+ pretty rows)))
     end).

Definition with_format (c : CopyNode) (f : CopyFormat) : CopyNode := mkCopyNode (cn_schema c) (cn_table c) (cn_columns c) f.
Definition in_parentheses (s : string) : bool :=
  match bytes s with c :: _ => char_is "(" c | [] => false end && match last (bytes s) with Some c => char_is ")" c | None => false end.

(** Handled, end of messages, error. *)
Definition Outside3 : Type := bool * bool * option string.
Definition outside (handled eom : bool) (m : M (option string)) : M Outside3 := e ← m; mret (handled, eom, e).

(** The statements that are not passed to the engine, after the tree was looked at. *)
Definition in_place (statement : ConvertedStatement) : M Outside3 :=
  '(handled, e) ← handleInPlaceQueries statement;
  mret (handled || bool_decide (is_Some e), true, e).
Definition copy_statement (statement : ConvertedStatement) : M Outside3 :=
  match ParseCopyFrom RemoveSpaceAndDelimiter (st_String statement) with
  | Some (target, format, options) =>
      match ParseOne ("COPY " +:+ target +:+ " FROM STDIN") with
      | None => mret (false, true, Some "syntax error"%string)
      | Some (NCopyFrom _ c) => outside true false (handleCopyFromStdinQuery (with_format c format) options)
      | Some _ => panic
      end
  | None =>
      match ParseCopyTo RemoveSpaceAndDelimiter (st_String statement) with
      | Some (subquery, format, options) =>
          if in_parentheses subquery then outside true true (handleCopyToStdout statement None subquery format options) else
          match ParseOne ("COPY " +:+ subquery +:+ " TO STDOUT") with
          | None => mret (false, true, Some "syntax error"%string)
          | Some (NCopyTo c) => outside true true (handleCopyToStdout statement (Some (with_format c format)) EmptyString format options)
          | Some _ => panic
          end
      | None => in_place statement
      end
  end.
Definition handleStatementOutsideEngine (statement : ConvertedStatement) : M Outside3 :=
  match st_AST statement with
  | Some (NDeallocate name) => outside true true (deallocatePreparedStatement name statement)
  | Some NDiscard => outside true true (discardAll statement)
  | Some (NCopyFrom true c) => outside true false (handleCopyFromStdinQuery c EmptyString)
  | Some (NCopyTo c) => outside true true (handleCopyToStdout statement (Some c) EmptyString (cn_format c) EmptyString)
  | _ => if decide (st_Tag statement = "COPY") then copy_statement statement else in_place statement
  end.

(** ** Simple queries *)
Definition handledPSQLCommands (statement : string) : M (bool * option string) :=
  match PsqlCommand (strings_ToLower statement) with
  | None => mret (false, None)
  | Some NotSupported => mret (true, Some "PSQL command not yet supported"%string)
  | Some (RunPlain q) => e ← run (plain_statement q "SELECT"); mret (true, e)
  | Some (ConvertAndRun q) =>
      stmts ← convertQuery q;
      match stmts with s :: _ => e ← run s; mret (true, e) | [] => panic end
  end.
Definition handledWorkbenchCommands (statement : string) : M (bool * option string) :=
  let lower := strings_ToLower statement in
  if bool_decide (lower ∈ ["select * from current_schema()"; "select * from current_schema();"])
  then e ← run (plain_statement ("SELECT search_path AS " +:+ dquote +:+ "current_schema" +:+ dquote +:+ ";") "SELECT"); mret (true, e)
  else if bool_decide (lower ∈ ["select * from current_database()"; "select * from current_database();"])
  then e ← run (plain_statement ("SELECT DATABASE() AS " +:+ dquote +:+ "current_database" +:+ dquote +:+ ";") "SELECT"); mret (true, e)
  else mret (false, None).

(** The statements one after the other; the first error ends the query. *)
Fixpoint run_statements (eom : bool) (stmts : list ConvertedStatement) : M (bool * option string) :=
  match stmts with
  | [] => mret (eom, None)
  | s :: stmts' =>
      let s := set_extended false s in
      '(handled, eom, e) ← handleStatementOutsideEngine s;
      if handled : bool then match e with Some e => mret (true, Some e) | None => run_statements eom stmts' end
      else e ← run s; match e with Some e => mret (true, Some e) | None => run_statements true stmts' end
  end.

(** End of messages, error. *)
Definition handleQuery (query : string) : M (bool * option string) :=
  if decide (query = ";") then (e ← send (makeCommandComplete EmptyString 0); mret (true, e)) else
  '(handled, e) ← handledPSQLCommands query;
  if handled || bool_decide (is_Some e) then mret (true, e) else
  '(handled, e) ← handledWorkbenchCommands query;
  if handled || bool_decide (is_Some e) then mret (true, e) else
  statements ← convertQuery query;
  _ ← deletePreparedStatement EmptyString;
  _ ← deletePortal EmptyString;
  run_statements false statements.

(** ** The extended protocol *)

(** The types the client left open are those of the engine. *)
Definition merge_types (oids params : list Z) : list Z :=
  let all := if (length oids <? length params)%nat then oids ++ drop (length oids) params else oids in
  imap (fun i t => if decide (t = 0) then default t (params !! i) else t) all.

Definition handleParse (name query : string) (oids : list Z) : M (option string) :=
  _ ← modify (set_waitForSync true);
  statements ← convertQuery query;
  match statements with
  | [] => panic
  | statement :: _ =>
      let statement := set_extended true statement in
      if bool_decide (st_AST statement = None) && bool_decide (strings_TrimSpace (st_String statement) = EmptyString)
      then _ ← store_statement name (mkPrepared statement [] [] None None); send BParseComplete
      else or_else (shouldQueryBeHandledInPlace statement)
             (fun '(inPlace, statement) =>
                if inPlace : bool
                then c ← new_cell; _ ← store_statement name (mkPrepared statement [] [] None (Some c)); send BParseComplete
                else or_else (run_engine (PrepareParsed (st_String statement) (st_AST statement)))
                       (fun info =>
                          a ← new_cell;
                          let statement := if st_PgParsable statement then statement else set_tag (GetStatementTag (pi_type info)) statement in
                          _ ← store_statement name (mkPrepared statement (pi_fields info) (merge_types oids (pi_params info)) (Some a) (Some a));
                          send BParseComplete))
  end.

Definition sendDescribeResponse (fields : list FieldDescription) (types : option (list Z)) (tag : string) : M (option string) :=
  or_error (match types with Some types => send (BParameterDescription types) | None => mret None end)
    (send (if returnsRow tag then BRowDescription fields else BNoData)).

Definition as_text (f : FieldDescription) : FieldDescription := mkField (fd_Name f) (fd_OID f) (fd_Size f) 0.
Definition handleDescribe (statement : bool) (name : string) : M (option string) :=
  _ ← modify (set_waitForSync true);
  if statement then
    ps ← get (fun h => preparedStatements h !! name);
    match ps with
    | None => mret (Some ("prepared statement " +:+ name +:+ " does not exist"))
    | Some ps =>
        match ps_Stmt ps with
        | Some _ => sendDescribeResponse (map as_text (ps_ReturnFields ps)) (Some (ps_BindVarTypes ps)) (st_Tag (ps_Statement ps))
        | None => sendDescribeResponse [] (Some []) EmptyString
        end
    end
  else
    p ← get (fun h => portals h !! name);
    match p with
    | None => mret (Some ("portal " +:+ name +:+ " does not exist"))
    | Some p =>
        match po_Stmt p with
        | Some _ => sendDescribeResponse (po_Fields p) None (st_Tag (po_Statement p))
        | None => mret None
        end
    end.

(** The text of each value; [None] is a panic: a format code that is not there. *)
Fixpoint bind_texts (types formats : list Z) (values : list (option string)) : option (list string + string) :=
  match values, types, formats with
  | [], _, _ => Some (inl [])
  | v :: values', t :: types', f :: formats' =>
      match ScanText t f v with
      | None => Some (inr "cannot scan"%string)
      | Some text => match bind_texts types' formats' values' with
                     | Some (inl l) => Some (inl (default EmptyString text :: l))
                     | r => r
                     end
      end
  | _, _, _ => None
  end.
Definition convertBindParameters (types formatCodes : list Z) (values : list (option string)) : M (list string + string) :=
  if negb (length types =? length values)%nat then mret (inr "number of values does not match number of parameters"%string)
  else match bind_texts types formatCodes values with None => panic | Some r => mret r end.

Definition handleBind (portal statement : string) (formats : list Z) (params : list (option string)) (results : list Z) : M (option string) :=
  _ ← modify (set_waitForSync true);
  ps ← get (fun h => preparedStatements h !! statement);
  match ps with
  | None => mret (Some ("prepared statement " +:+ statement +:+ " does not exist"))
  | Some ps =>
      match ps_Stmt ps with
      | None =>
          let empty := bool_decide (strings_TrimSpace (st_String (ps_Statement ps)) = EmptyString) in
          _ ← store_portal portal (mkPortal (ps_Statement ps) empty [] [] None [] None); send BBindComplete
      | Some a =>
          match st_AST (ps_Statement ps) with
          | None => _ ← store_portal portal (mkPortal (ps_Statement ps) true [] [] None [] None); send BBindComplete
          | Some _ =>
              or_else (convertBindParameters (ps_BindVarTypes ps) formats params)
                (fun vars =>
                   or_error (run_engine (StmtBind a vars))
                     (_ ← store_portal portal (mkPortal (ps_Statement ps) false (ps_ReturnFields ps) results (Some a) vars (ps_Closed ps)); send BBindComplete))
          end
      end
  end.

Definition handleExecute (portal : string) : M (option string) :=
  _ ← modify (set_waitForSync true);
  p ← get (fun h => portals h !! portal);
  match p with
  | None => mret (Some ("portal " +:+ portal +:+ " does not exist"))
  | Some p =>
      let query := po_Statement p in
      if po_IsEmptyQuery p then or_error (send BNoData) (send BEmptyQueryResponse) else
      '(handled, _, e) ← (if negb (bool_decide (strings_ToUpper (st_Tag query) = "SELECT")) || bool_decide (po_Stmt p = None)
                          then handleStatementOutsideEngine query else mret (false, true, None));
      if handled : bool then mret e else
      match po_Stmt p with
      | None => panic
      | Some a => or_else (doQuery (st_Tag query) true (ExecuteBound a (st_String query) (po_Vars p)))
                    (fun rows => send (makeCommandComplete (st_Tag query) rows))
      end
  end.

(** ** COPY FROM STDIN *)

(** Stop, end of messages, error. *)
Definition Handled : Type := bool * bool * option string.
Definition handled (eom : bool) (e : option string) : Handled := (false, eom, e).

(** The end-of-data marker is taken off a chunk. *)
Definition cut_suffix (suffix l : list ascii) : list ascii :=
  if prefix_of (rev suffix) (rev l) then take (length l - length suffix) l else l.
Definition strip_marker (data : string) : string :=
  text (cut_suffix [backslash; "."; "013"; "010"]%char (cut_suffix [backslash; "."; "010"]%char (bytes data))).

Definition set_loader (l : option Loader) (s : CopyFromStdinState) : CopyFromStdinState :=
  mkCopyState (copyFromStdinNode s) (targetTable s) (rawOptions s) l (copyErr s).
Definition set_copyErr (e : option string) (s : CopyFromStdinState) : CopyFromStdinState :=
  mkCopyState (copyFromStdinNode s) (targetTable s) (rawOptions s) (dataLoader s) e.

(** The loader of the first chunk. *)
Definition start_loader (s : CopyFromStdinState) : M (Loader + string) :=
  match cn_format (copyFromStdinNode s) with
  | CopyFormatArrow | CopyFormatText | CopyFormatCSV => run_engine (StartLoader (copyFromStdinNode s) (targetTable s) (rawOptions s))
  | CopyFormatBinary => mret (inr "BINARY format is not supported for COPY FROM"%string)
  | _ => mret (inr "unknown format specified for COPY FROM"%string)
  end.
Definition first_chunk (s : CopyFromStdinState) (data : string) : string :=
  match dataLoader s, cn_format (copyFromStdinNode s) with None, CopyFormatText => strip_marker data | _, _ => data end.

Definition handleCopyDataHelper (data : string) : M Handled :=
  st ← get copyFromStdinState;
  match st with
  | None => mret (handled true (Some "COPY DATA message received without a COPY FROM STDIN operation in progress"%string))
  | Some s =>
      e ← or_error (run_engine NewContext)
        (or_else (match dataLoader s with Some l => mret (inl l) | None => start_loader s end)
           (fun l =>
              _ ← modify (set_copy (Some (set_loader (Some l) s)));
              or_else (run_engine (LoadChunk l (first_chunk s data)))
                (fun l => _ ← modify (set_copy (Some (set_loader (Some l) s))); mret None)));
      mret (handled false e)
  end.
Definition handleCopyData (data : string) : M Handled :=
  r ← handleCopyDataHelper data;
  match r.2 with
  | None => mret r
  | Some e =>
      st ← get copyFromStdinState;
      match st with
      | None => panic
      | Some s => _ ← modify (set_copy (Some (set_copyErr (Some e) s))); mret r
      end
  end.

Definition handleCopyDone : M Handled :=
  st ← get copyFromStdinState;
  match st with
  | None => mret (handled true (Some "COPY DONE message received without a COPY FROM STDIN operation in progress"%string))
  | Some s =>
      match copyErr s, dataLoader s with
      | Some _, _ => mret (handled false None)
      | None, None => mret (handled true (Some "no data loader found for COPY FROM STDIN operation"%string))
      | None, Some l =>
          e ← run_engine NewContext;
          match e with
          | Some e => mret (handled false (Some e))
          | None =>
              r ← run_engine (FinishLoader l);
              match r with
              | inr e => mret (handled false (Some e))
              | inl rows =>
                  _ ← modify (set_copy None);
                  e ← send (BCommandComplete ("COPY " +:+ pretty rows)); mret (handled true e)
              end
          end
      end
  end.
Definition handleCopyFail : M Handled :=
  st ← get copyFromStdinState;
  match st with
  | None => mret (handled true (Some "COPY FAIL message received without a COPY FROM STDIN operation in progress"%string))
  | Some s =>
      match dataLoader s with
      | None => mret (handled true (Some "no data loader found for COPY FROM STDIN operation"%string))
      | Some _ => _ ← modify (set_copy None); mret (handled true None)
      end
  end.

(** ** The loop *)
Definition handleMessage (msg : FrontendMessage) : M Handled :=
  match msg with
  | FTerminate => mret (true, false, None)
  | FSync => _ ← modify (set_waitForSync false); mret (handled true None)
  | FQuery q => '(eom, e) ← handleQuery q; mret (handled eom e)
  | FParse name query oids => e ← handleParse name query oids; mret (handled false e)
  | FDescribe statement name => e ← handleDescribe statement name; mret (handled false e)
  | FBind portal statement formats params results => e ← handleBind portal statement formats params results; mret (handled false e)
  | FExecute portal => e ← handleExecute portal; mret (handled false e)
  | FClose statement name =>
      _ ← (if statement : bool then deletePreparedStatement name else deletePortal name);
      e ← send BCloseComplete; mret (handled false e)
  | FCopyData data => handleCopyData data
  | FCopyDone => handleCopyDone
  | FCopyFail => handleCopyFail
  | FOther => mret (handled true (Some "unhandled message"%string))
  end.

(** What cannot be sent is a panic. *)
Definition must_send (msg : BackendMessage) : M unit := e ← send msg; match e with Some _ => panic | None => mret tt end.
Definition endOfMessages (err : option string) : M unit :=
  _ ← (match err with Some e => must_send (BErrorResponse e) | None => mret tt end);
  must_send BReadyForQuery.

(** Up to and with the next [Sync]; all when there is none. *)
Fixpoint after_sync (l : list FrontendMessage) : list FrontendMessage :=
  match l with [] => [] | FSync :: l' => l' | _ :: l' => after_sync l' end.
Definition discardToSync (h : Handler) : Handler := set_input (after_sync (input h)) h.

Inductive Received : Type := RContinue | RStop | RNoMessage | RCrash.

Definition discard_if (eom : bool) (h : Handler) : Handler := if negb eom && waitForSync h then discardToSync h else h.
(** The deferred recovery; a panic in it reaches [HandleConnection]. *)
Definition recovered (eom : bool) (h : Handler) : Handler * Received :=
  match endOfMessages (Some "panic"%string) (discard_if eom h) with (h, None) => (h, RCrash) | (h, Some _) => (h, RContinue) end.

Definition receiveMessage (h : Handler) : Handler * Received :=
  match input h with
  | [] => (h, RNoMessage)
  | msg :: rest =>
      match handleMessage msg (set_input rest h) with
      | (h, None) => recovered false h
      | (h, Some (stop, eom, err)) =>
          let after := if stop : bool then RStop else RContinue in
          match err with
          | Some e => match endOfMessages (Some e) (discard_if eom h) with (h, None) => recovered eom h | (h, Some _) => (h, after) end
          | None =>
              if eom : bool then match endOfMessages None h with (h, None) => recovered eom h | (h, Some _) => (h, after) end
              else (h, after)
          end
      end
  end.

(** The loop of [HandleConnection]; the number of messages to read is enough fuel. *)
Fixpoint serve (fuel : nat) (h : Handler) : Handler * Received :=
  match fuel with
  | O => (h, RContinue)
  | S fuel => match receiveMessage h with (h, RContinue) => serve fuel h | r => r end
  end.
End Handler.
