(* ===== verification/PgHandlerFacts.v ===== *)
(** * Facts on the connection handler

    [preserves R m]: whatever [m] does, a panic included, takes the handler
    along the preorder [R].  The operations preserve every [R] that is [Stable];
    two are used: the one that says nothing is read and no READY is sent
    ([framed]), and the one of the invariant of the prepared statements. *)

From Stdlib Require Import Ascii String.
From stdpp Require Import pretty.
From S2P Require Import Prelude Identifier InternalTables CatalogErrors Regexp SqlText PsqlCommands PgConfig Rewrite Subscriptions Backup PgHandler.

#[local] Open Scope list_scope.

(** What the in-place handlers and COPY TO send is never READY. *)
Class BackendLaws `{HB : Backend} : Prop := {
  copy_out_messages : forall s n q f o e e' msgs r, CopyOut s n q f o e = (e', (msgs, r)) -> BReadyForQuery ∉ msgs
}.

Create HintDb pg discriminated.

Section Preserves.
Context `{HPP : PgParser} `{HB : Backend} `{HL : !BackendLaws} (send_ok : nat -> bool).
Context (R : Handler -> Handler -> Prop).

Definition preserves {A} (m : M A) : Prop := forall h, R h (m h).1.

Class Stable : Prop := {
  st_refl : forall h, R h h;
  st_trans : forall h1 h2 h3, R h1 h2 -> R h2 h3 -> R h1 h3;
  st_eng : forall e h, R h (set_eng e h);
  st_copy : forall c h, R h (set_copy c h);
  st_send : forall m h, m <> BReadyForQuery -> R h (set_output (output h ++ [m]) h);
  st_delete_statement : forall name, preserves (deletePreparedStatement name);
  st_delete_portal : forall name, preserves (deletePortal name)
}.
Context `{HSt : Stable}.

Lemma keep_ret {A} (a : A) : preserves (mret a).
Proof. intros h. apply st_refl. Qed.
Lemma keep_panic {A} : preserves (@panic _ A).
Proof. intros h. apply st_refl. Qed.
Lemma keep_get {A} (f : Handler -> A) : preserves (get f).
Proof. intros h. apply st_refl. Qed.
Lemma keep_bind {A B} (m : M A) (k : A -> M B) : preserves m -> (forall a, preserves (k a)) -> preserves (m ≫= k).
Proof.
  intros Hm Hk h. unfold mbind, M_bind. specialize (Hm h). destruct (m h) as [h1 [a|]]; [|exact Hm]. cbn in Hm. eapply st_trans; [exact Hm | apply Hk].
Qed.
Lemma keep_modify f : (forall h, R h (f h)) -> preserves (modify f).
Proof. intros Hf h. apply Hf. Qed.
(** What the engine answered is known to the rest. *)
Lemma keep_engine {A B} (f : engine -> engine * A) (k : A -> M B) :
  (forall e e' a, f e = (e', a) -> preserves (k a)) -> preserves (run_engine f ≫= k).
Proof.
  intros Hk h. unfold mbind, M_bind, run_engine. destruct (f (eng h)) as [e a] eqn:E. eapply st_trans; [apply st_eng | apply (Hk _ _ _ E)].
Qed.
Lemma keep_run_engine {A} (f : engine -> engine * A) : preserves (run_engine f).
Proof. intros h. unfold run_engine. destruct (f (eng h)). apply st_eng. Qed.
Lemma keep_or_error m k : preserves m -> preserves k -> preserves (or_error m k).
Proof. intros Hm Hk. apply keep_bind; [exact Hm|]. intros [e|]; [apply keep_ret | exact Hk]. Qed.
Lemma keep_or_else {A} (m : M (A + string)) k : preserves m -> (forall a, preserves (k a)) -> preserves (or_else m k).
Proof. intros Hm Hk. apply keep_bind; [exact Hm|]. intros [a|e]; [apply Hk | apply keep_ret]. Qed.
Lemma keep_send msg : msg <> BReadyForQuery -> preserves (send send_ok msg).
Proof. intros Hm h. unfold send. destruct (send_ok _); [apply st_send, Hm | apply st_refl]. Qed.
Lemma keep_send_all msgs : BReadyForQuery ∉ msgs -> preserves (send_all send_ok msgs).
Proof.
  induction msgs as [|m msgs IH]; intros Hm; cbn [send_all]; [apply keep_ret|]. rewrite not_elem_of_cons in Hm. destruct Hm as [H1 H2].
  apply keep_or_error; [apply keep_send; congruence | apply IH, H2].
Qed.
Lemma keep_data_rows rows : preserves (send_all send_ok (map BDataRow rows)).
Proof. apply keep_send_all. induction rows; [apply not_elem_of_nil|]. cbn. rewrite not_elem_of_cons. split; [discriminate | assumption]. Qed.

(** One step along the structure of an operation. *)
Ltac keep_step :=
  match goal with
  | |- preserves (mret _) => apply keep_ret
  | |- preserves panic => apply keep_panic
  | |- preserves (get _) => apply keep_get
  | |- preserves (run_engine _) => apply keep_run_engine
  | |- preserves (send _ _) => apply keep_send; repeat case_match; discriminate
  | |- preserves (send_all _ (map BDataRow _)) => apply keep_data_rows
  | |- preserves (or_error _ _) => apply keep_or_error
  | |- preserves (or_else _ _) => apply keep_or_else; [|intros]
  | |- preserves (modify (set_copy _)) => apply keep_modify; intros; apply st_copy
  | |- preserves (_ ≫= _) => apply keep_bind; [|intros]
  | |- preserves (match ?x with _ => _ end) => destruct x
  | |- preserves (let '_ := ?x in _) => destruct x
  end.
Ltac keep := repeat first [keep_step | progress cbn beta iota | eauto with pg nocore].

Lemma keep_complete tag rows : preserves (send send_ok (makeCommandComplete tag rows)).
Proof. unfold makeCommandComplete. apply keep_send. discriminate. Qed.
Hint Resolve keep_complete : pg.

Lemma keep_callback tag isExecute res st : preserves (spoolRowsCallback send_ok tag isExecute res st).
Proof. unfold spoolRowsCallback. destruct st as [sent rows]. keep. Qed.
Hint Resolve keep_callback : pg.

Lemma keep_spool tag isExecute fields rows : forall acc processed st, preserves (spool send_ok tag isExecute fields acc processed rows st).
Proof. induction rows as [|row rows IH]; intros acc processed st; cbn [spool]; keep. Qed.
Hint Resolve keep_spool : pg.

Lemma keep_doQuery tag isExecute exec : preserves (doQuery send_ok tag isExecute exec).
Proof. unfold doQuery, deliver. keep. Qed.
Hint Resolve keep_doQuery : pg.

Lemma keep_run s : preserves (run send_ok s).
Proof. unfold run. keep. Qed.
Hint Resolve keep_run : pg.

Lemma keep_convert q : preserves (convertQuery q).
Proof. unfold convertQuery. keep. Qed.
Hint Resolve keep_convert : pg.

Lemma keep_copy_from n o : preserves (handleCopyFromStdinQuery send_ok n o).
Proof. unfold handleCopyFromStdinQuery. keep. Qed.
Hint Resolve keep_copy_from : pg.

Lemma keep_copy_to s n q f o : preserves (handleCopyToStdout send_ok s n q f o).
Proof.
  unfold handleCopyToStdout. apply keep_engine. intros e e' [msgs r] E. apply keep_or_error; [apply keep_send_all, (copy_out_messages _ _ _ _ _ _ _ _ _ E) | keep].
Qed.
Hint Resolve keep_copy_to : pg.

Lemma keep_deallocate name s : preserves (deallocatePreparedStatement send_ok name s).
Proof. unfold deallocatePreparedStatement. keep. apply st_delete_statement. Qed.
Hint Resolve keep_deallocate : pg.

Lemma keep_discard s : preserves (discardAll send_ok s).
Proof. unfold discardAll. keep. apply keep_modify. intros h. apply st_eng. Qed.
Hint Resolve keep_discard : pg.

Lemma keep_try {A B} (m : M (A + string)) (k : A -> M (B + string)) : preserves m -> (forall a, preserves (k a)) -> preserves (try m k).
Proof. intros Hm Hk. apply keep_bind; [exact Hm|]. intros [a|e]; [apply Hk | apply keep_ret]. Qed.
Lemma keep_setting name : preserves (queryPGSetting name).
Proof. unfold queryPGSetting. keep. Qed.
Hint Resolve keep_setting : pg.

Lemma keep_conversions : Forall (fun c => forall s, preserves (doConvert c s)) selectionConversions.
Proof.
  assert (Hc : preserves new_context) by (unfold new_context; keep).
  repeat constructor; intros s; cbn [doConvert pure_conversion].
  - apply keep_try; [|intros v; keep]. apply keep_try; [exact Hc|]. intros _. apply keep_try; [apply keep_run_engine|]. intros row. keep.
  - apply keep_try; [|intros v; keep]. apply keep_try; [exact Hc|]. intros _. apply keep_try; [apply keep_run_engine|]. intros row. keep.
  - destruct (setting_name (st_String s)); [|keep]. apply keep_try; [apply keep_setting|]. intros v. keep.
  - keep.
  - keep.
  - keep.
  - keep.
Qed.
Lemma keep_convert_until cs : Forall (fun c => forall s, preserves (doConvert c s)) cs -> forall s, preserves (convert_until_const cs s).
Proof.
  induction 1 as [|c cs Hc _ IH]; intros s; cbn [convert_until_const]; [keep|]. destruct (negb _); [apply IH|]. destruct (isConstQuery c); [keep|]. apply keep_try; [apply Hc | intros; apply IH].
Qed.
Lemma keep_convert_all cs : Forall (fun c => forall s, preserves (doConvert c s)) cs -> forall b s, preserves (convert_all cs b s).
Proof.
  induction 1 as [|c cs Hc _ IH]; intros b s; cbn [convert_all]; [keep|]. destruct (needConvert c s); [|apply IH]. apply keep_try; [apply Hc | intros; apply IH].
Qed.
Lemma keep_should s : preserves (shouldQueryBeHandledInPlace s).
Proof.
  unfold shouldQueryBeHandledInPlace. case_decide; [apply keep_convert_until, keep_conversions|]. keep.
Qed.
Hint Resolve keep_should : pg.
Lemma keep_set_var name v b tag : preserves (setPgSessionVar send_ok name v b tag).
Proof. unfold setPgSessionVar. keep. Qed.
Hint Resolve keep_set_var : pg.

Lemma keep_in_place s : preserves (in_place send_ok s).
Proof.
  unfold in_place. apply keep_bind; [|intros [hd e]; keep]. unfold handleInPlaceQueries. case_decide.
  - unfold handle_select, run_handled. apply keep_bind; [apply keep_convert_all, keep_conversions|]. intros r. keep.
  - unfold handle_show, handle_set, handle_reset, set_parameter, unsupported, run_handled. keep.
Qed.
Hint Resolve keep_in_place : pg.

Lemma keep_outside s : preserves (handleStatementOutsideEngine send_ok s).
Proof. unfold handleStatementOutsideEngine, copy_statement, outside. keep. Qed.
Hint Resolve keep_outside : pg.

Lemma keep_statements stmts : forall eom, preserves (run_statements send_ok eom stmts).
Proof. induction stmts as [|s stmts IH]; intros eom; cbn [run_statements]; keep. Qed.
Hint Resolve keep_statements : pg.

Lemma keep_query q : preserves (handleQuery send_ok q).
Proof.
  unfold handleQuery, handledPSQLCommands, handledWorkbenchCommands. keep; first [apply st_delete_statement | apply st_delete_portal].
Qed.

Lemma keep_describe_response fields types tag : preserves (sendDescribeResponse send_ok fields types tag).
Proof. unfold sendDescribeResponse. keep. Qed.
Hint Resolve keep_describe_response : pg.

Lemma keep_copy_data data : preserves (handleCopyData data).
Proof. unfold handleCopyData, handleCopyDataHelper, start_loader. keep. Qed.
Lemma keep_copy_done : preserves (handleCopyDone send_ok).
Proof. unfold handleCopyDone. keep. Qed.
Lemma keep_copy_fail : preserves handleCopyFail.
Proof. unfold handleCopyFail. keep. Qed.
End Preserves.

#[export] Hint Resolve keep_ret keep_panic keep_get keep_bind keep_run_engine keep_or_error keep_or_else keep_send keep_data_rows : pg.

(** ** Nothing is read, no READY is sent *)
Section Framed.
Context `{HPP : PgParser} `{HB : Backend} `{HL : !BackendLaws} (send_ok : nat -> bool).

Definition framed (h h' : Handler) : Prop :=
  input h' = input h /\ waitForSync h' = waitForSync h /\ exists new, output h' = output h ++ new /\ BReadyForQuery ∉ new.

Lemma framed_same h h' : input h' = input h -> waitForSync h' = waitForSync h -> output h' = output h -> framed h h'.
Proof. intros H1 H2 H3. split; [exact H1|]. split; [exact H2|]. exists []. rewrite app_nil_r. split; [exact H3 | apply not_elem_of_nil]. Qed.

Lemma framed_close_once c s h : framed h ((close_once c s) h).1.
Proof.
  unfold close_once. destruct c as [c|]; [|apply framed_same; reflexivity]. unfold mbind, M_bind, get, modify. destruct (decide (cells h !! c = Some false)); [|apply framed_same; reflexivity].
  destruct s; apply framed_same; reflexivity.
Qed.
Lemma framed_trans h1 h2 h3 : framed h1 h2 -> framed h2 h3 -> framed h1 h3.
Proof.
  intros (Hi & Hw & n1 & Ho & Hn) (Hi' & Hw' & n2 & Ho' & Hn'). split; [congruence|]. split; [congruence|]. exists (n1 ++ n2).
  rewrite Ho', Ho, app_assoc. split; [reflexivity|]. rewrite not_elem_of_app. split; assumption.
Qed.

#[export] Instance framed_stable : Stable framed.
Proof.
  split.
  - intros h. apply framed_same; reflexivity.
  - apply framed_trans.
  - intros e h. apply framed_same; reflexivity.
  - intros c h. apply framed_same; reflexivity.
  - intros m h Hm. split; [reflexivity|]. split; [reflexivity|]. exists [m]. split; [reflexivity|]. rewrite list_elem_of_singleton. congruence.
  - intros name h. unfold deletePreparedStatement, mbind, M_bind, get, modify. destruct (preparedStatements h !! name) as [ps|]; [|apply framed_same; reflexivity].
    eapply framed_trans; [|apply framed_close_once]. apply framed_same; reflexivity.
  - intros name h. unfold deletePortal, mbind, M_bind, get, modify. destruct (portals h !! name) as [p|]; [|apply framed_same; reflexivity].
    eapply framed_trans; [|apply framed_close_once]. apply framed_same; reflexivity.
Qed.

Lemma framed_store_statement name ps : preserves framed (store_statement name ps).
Proof. apply keep_modify. intros h. apply framed_same; reflexivity. Qed.
Lemma framed_store_portal name p : preserves framed (store_portal name p).
Proof. apply keep_modify. intros h. apply framed_same; reflexivity. Qed.
Lemma framed_new_cell : preserves framed new_cell.
Proof. intros h. apply framed_same; reflexivity. Qed.
End Framed.
#[export] Hint Resolve framed_store_statement framed_store_portal framed_new_cell keep_convert keep_should keep_outside keep_doQuery keep_complete keep_describe_response : pg.

(** The same step for an [R] that is given. *)
Ltac keep_at :=
  match goal with
  | |- preserves _ (mret _) => apply keep_ret; try typeclasses eauto
  | |- preserves _ panic => apply keep_panic; try typeclasses eauto
  | |- preserves _ (get _) => apply keep_get; try typeclasses eauto
  | |- preserves _ (run_engine _) => apply keep_run_engine; try typeclasses eauto
  | |- preserves _ (send _ _) => apply keep_send; [try typeclasses eauto | repeat case_match; discriminate]
  | |- preserves _ (or_error _ _) => apply keep_or_error; [try typeclasses eauto | |]
  | |- preserves _ (or_else _ _) => apply keep_or_else; [try typeclasses eauto | |intros]
  | |- preserves _ (_ ≫= _) => apply keep_bind; [try typeclasses eauto | |intros]
  | |- preserves _ (match ?x with _ => _ end) => destruct x
  end.
Ltac keeps := repeat first [keep_at | progress cbn beta iota | eauto with pg typeclass_instances nocore].

Section Batches.
Context `{HPP : PgParser} `{HB : Backend} `{HL : !BackendLaws} (send_ok : nat -> bool).

(** The messages of the extended protocol, and those that make the server wait for a [Sync]. *)
Definition waits (m : FrontendMessage) : bool := match m with FParse _ _ _ | FDescribe _ _ | FBind _ _ _ _ _ | FExecute _ => true | _ => false end.
Definition in_batch (m : FrontendMessage) : bool := waits m || match m with FClose _ _ => true | _ => false end.

(** After [waitForSync] was set. *)
Lemma waiting {A} (m : M A) (h : Handler) : preserves framed m -> framed (set_waitForSync true h) ((_ ← modify (set_waitForSync true); m) h).1.
Proof. intros Hm. apply (Hm (set_waitForSync true h)). Qed.

Lemma framed_parse name query oids h : framed (set_waitForSync true h) (handleParse send_ok name query oids h).1.
Proof. unfold handleParse. apply waiting. keeps. Qed.
Lemma framed_describe statement name h : framed (set_waitForSync true h) (handleDescribe send_ok statement name h).1.
Proof. unfold handleDescribe. apply waiting. keeps. Qed.
Lemma framed_bind portal statement formats params results h : framed (set_waitForSync true h) (handleBind send_ok portal statement formats params results h).1.
Proof. unfold handleBind, convertBindParameters. apply waiting. keeps. Qed.
Lemma framed_execute portal h : framed (set_waitForSync true h) (handleExecute send_ok portal h).1.
Proof. unfold handleExecute. apply waiting. keeps. Qed.
Lemma framed_close (statement : bool) name h : framed h ((_ ← (if statement then deletePreparedStatement name else deletePortal name); send send_ok BCloseComplete) h).1.
Proof.
  refine (keep_bind framed (HSt := framed_stable) _ _ _ _ h).
  - destruct statement; [apply (st_delete_statement framed) | apply (st_delete_portal framed)].
  - intros _. apply keep_send; [typeclasses eauto | discriminate].
Qed.

Lemma reply_shape (m : M (option string)) h : exists r, ((e ← m; mret (handled false e)) h) = ((m h).1, r) /\ (r = None \/ exists e, r = Some (false, false, e)).
Proof. unfold mbind, M_bind. destruct (m h) as [h1 [e|]]; eexists; (split; [reflexivity|]); [right; exists e; reflexivity | left; reflexivity]. Qed.

Lemma batch_message m h : in_batch m = true -> exists r, (handleMessage send_ok m h).2 = r
  /\ framed (if waits m then set_waitForSync true h else h) (handleMessage send_ok m h).1 /\ (r = None \/ exists e, r = Some (false, false, e)).
Proof.
  intros Hm. eexists. split; [reflexivity|]. destruct m; try discriminate; cbn [handleMessage waits].
  1: destruct (reply_shape (handleParse send_ok name query oids) h) as (r & -> & Hr); split; [apply framed_parse | exact Hr].
  1: destruct (reply_shape (handleDescribe send_ok statement name) h) as (r & -> & Hr); split; [apply framed_describe | exact Hr].
  1: destruct (reply_shape (handleBind send_ok portal statement formats params results) h) as (r & -> & Hr); split; [apply framed_bind | exact Hr].
  1: destruct (reply_shape (handleExecute send_ok portal) h) as (r & -> & Hr); split; [apply framed_execute | exact Hr].
  pose proof (framed_close statement name h) as Hf. unfold mbind, M_bind in Hf |- *.
  destruct ((if statement then deletePreparedStatement name else deletePortal name) h) as [h1 [[]|]]; [|split; [exact Hf | left; reflexivity]].
  destruct (send send_ok BCloseComplete h1) as [h2 [e|]]; (split; [exact Hf|]); [right; exists e; reflexivity | left; reflexivity].
Qed.

Context (all_sent : forall n, send_ok n = true).

Lemma send_sends msg h : send send_ok msg h = (set_output (output h ++ [msg]) h, Some None).
Proof. unfold send. rewrite all_sent. reflexivity. Qed.
Lemma end_error e h : endOfMessages send_ok (Some e) h = (set_output (output h ++ [BErrorResponse e; BReadyForQuery]) h, Some tt).
Proof.
  unfold endOfMessages, must_send, mbind, M_bind. rewrite send_sends. cbn. rewrite send_sends. cbn. unfold set_output. cbn. rewrite <- app_assoc. reflexivity.
Qed.
Lemma end_ready h : endOfMessages send_ok None h = (set_output (output h ++ [BReadyForQuery]) h, Some tt).
Proof. unfold endOfMessages, must_send, mbind, M_bind. cbn. rewrite send_sends. reflexivity. Qed.
Lemma recovered_replies eom h : recovered send_ok eom h
  = (set_output (output (discard_if eom h) ++ [BErrorResponse "panic"; BReadyForQuery]) (discard_if eom h), RContinue).
Proof. unfold recovered. rewrite end_error. reflexivity. Qed.

Lemma receive_batch m h ms : in_batch m = true -> waits m = true \/ waitForSync h = true -> input h = m :: ms ->
  exists h' new, receiveMessage send_ok h = (h', RContinue) /\ (BReadyForQuery ∉ new) /\ waitForSync h' = true
    /\ ((input h' = ms /\ output h' = output h ++ new)
        \/ exists e, input h' = after_sync ms /\ output h' = output h ++ new ++ [BErrorResponse e; BReadyForQuery]).
Proof.
  intros Hm Hw Hi. unfold receiveMessage. rewrite Hi. destruct (batch_message m (set_input ms h) Hm) as (r & Er & Hf & Hr).
  destruct (handleMessage send_ok m (set_input ms h)) as [h1 r1]. cbn [fst snd] in *. subst r1.
  assert (Hf1 : input h1 = ms /\ waitForSync h1 = true /\ exists new, output h1 = output h ++ new /\ BReadyForQuery ∉ new).
  { destruct Hf as (H1 & H2 & new & H3 & H4). destruct (waits m) eqn:Ew; cbn in H1, H2, H3; (split; [exact H1|]); (split; [|eauto]); [exact H2|]. destruct Hw as [Hw|Hw]; [congruence|]. rewrite H2. exact Hw. }
  destruct Hf1 as (H1 & H2 & new & H3 & H4).
  assert (Hfail : forall e, exists h' new', (set_output (output (discard_if false h1) ++ [BErrorResponse e; BReadyForQuery]) (discard_if false h1), RContinue) = (h', RContinue)
    /\ (BReadyForQuery ∉ new') /\ waitForSync h' = true /\ ((input h' = ms /\ output h' = output h ++ new')
        \/ exists e, input h' = after_sync ms /\ output h' = output h ++ new' ++ [BErrorResponse e; BReadyForQuery])).
  { intros e. unfold discard_if. rewrite H2. cbn [negb andb]. eexists _, new. split; [reflexivity|]. split; [exact H4|]. split; [exact H2|]. right. exists e.
    cbn [discardToSync set_input set_output input output]. rewrite H1, H3, <- app_assoc. split; reflexivity. }
  destruct Hr as [->|[[e|] ->]].
  - rewrite recovered_replies. apply Hfail.
  - rewrite end_error. apply Hfail.
  - exists h1, new. split; [reflexivity|]. split; [exact H4|]. split; [exact H2|]. left. split; [exact H1 | exact H3].
Qed.

(** Flush, and what the handler does not know: an error and a READY of its own, without skipping anything. *)
Definition is_flush (m : FrontendMessage) : bool := match m with FOther => true | _ => false end.
Definition batched (m : FrontendMessage) : bool := in_batch m || is_flush m.
Definition is_ready (m : BackendMessage) : bool := match m with BReadyForQuery => true | _ => false end.
Definition readies (l : list BackendMessage) : nat := length (List.filter is_ready l).
Definition flushes (l : list FrontendMessage) : nat := length (List.filter is_flush l).

Lemma readies_app l1 l2 : readies (l1 ++ l2) = (readies l1 + readies l2)%nat.
Proof. unfold readies. rewrite List.filter_app, length_app. reflexivity. Qed.
Lemma readies_none l : (BReadyForQuery ∉ l) -> readies l = 0%nat.
Proof.
  induction l as [|m l IH]; intros H; [reflexivity|]. apply not_elem_of_cons in H. destruct H as [Hm H]. specialize (IH H).
  destruct m; [exact IH .. | congruence | exact IH | exact IH | exact IH | exact IH].
Qed.

Lemma receive_flush h ms : input h = FOther :: ms ->
  receiveMessage send_ok h = (set_output (output h ++ [BErrorResponse "unhandled message"; BReadyForQuery]) (set_input ms h), RContinue).
Proof. intros Hi. unfold receiveMessage. rewrite Hi. cbn [handleMessage]. unfold mret, M_ret, handled. rewrite end_error. reflexivity. Qed.

Lemma after_sync_batch ms rest : forallb batched ms = true -> after_sync (ms ++ FSync :: rest) = rest.
Proof. induction ms as [|m ms IH]; intros H; [reflexivity|]. cbn [forallb] in H. apply andb_prop in H. destruct H as [Hm H]. destruct m; try discriminate; apply (IH H). Qed.

Definition reads (h h' : Handler) : Prop := receiveMessage send_ok h = (h', RContinue).

Lemma receive_sync h rest : input h = FSync :: rest ->
  reads h (set_output (output h ++ [BReadyForQuery]) (set_waitForSync false (set_input rest h))).
Proof. intros Hi. unfold reads, receiveMessage. rewrite Hi.
  change (handleMessage send_ok FSync (set_input rest h)) with (set_waitForSync false (set_input rest h), Some (false, true, @None string)). cbn beta iota. rewrite end_ready. reflexivity. Qed.

(** A batch that has begun is read to its [Sync], or to its first error and then skipped. *)
(** One message of a batch: handled, a Flush, or the one that fails. *)
Lemma receive_batched m h ms : batched m = true -> waits m = true \/ waitForSync h = true -> input h = m :: ms ->
  exists h' new, reads h h' /\ waitForSync h' = true /\
    ((input h' = ms /\ output h' = output h ++ new /\ readies new = flushes [m]) \/
     (is_flush m = false /\ input h' = after_sync ms /\ exists e, output h' = output h ++ (new ++ [BErrorResponse e]) ++ [BReadyForQuery] /\ readies new = 0%nat)).
Proof.
  intros Hm Hw Hi. destruct (is_flush m) eqn:Ef.
  - destruct m; try discriminate. destruct Hw as [Hw|Hw]; [discriminate|]. eexists _, _. split; [apply receive_flush, Hi|]. split; [exact Hw|]. left. repeat split.
  - unfold batched in Hm. rewrite Ef, orb_false_r in Hm. destruct (receive_batch m h ms Hm Hw Hi) as (h' & new & Hr & Hq & Hw' & Hc).
    exists h', new. split; [exact Hr|]. split; [exact Hw'|]. destruct Hc as [[Hi' Ho]|(e & Hi' & Ho)]; [left | right].
    + split; [exact Hi'|]. split; [exact Ho|]. unfold flushes. cbn [List.filter]. rewrite Ef. apply readies_none, Hq.
    + split; [reflexivity|]. split; [exact Hi'|]. exists e. rewrite Ho, <- !app_assoc. split; [reflexivity | apply readies_none, Hq].
Qed.

Lemma flushes_cons m ms : flushes (m :: ms) = (flushes [m] + flushes ms)%nat.
Proof. unfold flushes. cbn [List.filter]. destruct (is_flush m); reflexivity. Qed.

Lemma batch_reads ms : forall h rest, forallb batched ms = true -> (match ms with m :: _ => waits m | [] => false end = true \/ waitForSync h = true) ->
  input h = ms ++ FSync :: rest ->
  exists h' done skipped new, ms ++ [FSync] = done ++ skipped /\ nsteps reads (length done) h h' /\ input h' = rest
    /\ output h' = output h ++ new ++ [BReadyForQuery] /\ readies new = flushes done
    /\ ((skipped = [] /\ waitForSync h' = false) \/ (waitForSync h' = true /\ exists e new', new = new' ++ [BErrorResponse e])).
Proof.
  induction ms as [|m ms IH]; intros h rest Hms Hw Hi.
  - eexists _, [FSync], [], []. split; [reflexivity|]. split; [eapply nsteps_once, (receive_sync h rest Hi)|]. split; [reflexivity|]. split; [reflexivity|].
    split; [reflexivity|]. left. split; reflexivity.
  - cbn [forallb] in Hms. apply andb_prop in Hms. destruct Hms as [Hm Hms].
    destruct (receive_batched m h (ms ++ FSync :: rest) Hm Hw Hi) as (h1 & new1 & Hr & Hw1 & [(Hi1 & Ho1 & Hq1)|(Hf & Hi1 & e & Ho1 & Hq1)]).
    + destruct (IH h1 rest Hms (or_intror Hw1) Hi1) as (h' & done & skipped & new & E & Hs & Hi' & Ho' & Hq' & Hend). exists h', (m :: done), skipped, (new1 ++ new).
      split; [cbn; rewrite E; reflexivity|]. split; [eapply nsteps_l; [exact Hr | exact Hs]|]. split; [exact Hi'|]. split; [rewrite Ho', Ho1, <- !app_assoc; reflexivity|].
      split; [rewrite readies_app, flushes_cons; congruence|]. destruct Hend as [Hend|(Hw' & e & n' & ->)]; [left; exact Hend|]. right. split; [exact Hw'|]. exists e, (new1 ++ n'). rewrite app_assoc. reflexivity.
    + exists h1, [m], (ms ++ [FSync]), (new1 ++ [BErrorResponse e]). split; [reflexivity|]. split; [apply nsteps_once, Hr|]. split; [rewrite Hi1; apply after_sync_batch, Hms|].
      split; [exact Ho1|]. split; [rewrite readies_app, Hq1; unfold flushes; cbn [List.filter]; rewrite Hf; reflexivity|]. right. split; [exact Hw1|]. exists e, new1. reflexivity.
Qed.
End Batches.

(** ** Rows are delivered in batches *)
Lemma signed_shift w z : 0 < w -> exists k, signed w z = z + k * 2 ^ w.
Proof.
  intros Hw. unfold signed. pose proof (Z.div_mod z (2 ^ w) ltac:(apply Z.pow_nonzero; lia)) as E.
  destruct (_ <? _); [exists (- (z / 2 ^ w)) | exists (- (z / 2 ^ w) - 1)]; lia.
Qed.
Lemma i32_left a b : i32 (i32 a + b) = i32 (a + b).
Proof. unfold i32. destruct (signed_shift 32 a ltac:(lia)) as [k ->]. unfold signed. replace (a + k * 2 ^ 32 + b) with (a + b + k * 2 ^ 32) by lia. rewrite Z.mod_add by lia. reflexivity. Qed.
Lemma i32_right a b : i32 (a + i32 b) = i32 (a + b).
Proof. rewrite Z.add_comm, i32_left, Z.add_comm. reflexivity. Qed.
Lemma i32_idem a : i32 (i32 a) = i32 a.
Proof. pose proof (i32_left a 0) as H. rewrite !Z.add_0_r in H. exact H. Qed.

Section Rows.
Context `{HPP : PgParser} `{HB : Backend} (send_ok : nat -> bool) (all_sent : forall n, send_ok n = true).

Lemma send_all_sends msgs : forall h, send_all send_ok msgs h = (set_output (output h ++ msgs) h, Some None).
Proof.
  induction msgs as [|m msgs IH]; intros h; cbn [send_all].
  - rewrite app_nil_r. destruct h; reflexivity.
  - unfold or_error, mbind, M_bind. rewrite (send_sends _ all_sent). cbn beta iota. rewrite IH. unfold set_output. cbn. rewrite <- app_assoc. reflexivity.
Qed.

Context (tag : string) (isExecute : bool) (Hrows : returnsRow tag = true) (Hiud : isIUD tag = false).

(** What is sent before the rows when the description was not sent yet. *)
Definition described (sent : bool) (fields : list FieldDescription) : list BackendMessage := if negb isExecute && negb sent then [BRowDescription fields] else [].

Lemma callback_sends fields rows sent n k h :
  spoolRowsCallback send_ok tag isExecute (mkResult fields rows k) (sent, n) h
  = (set_output (output h ++ described sent fields ++ map BDataRow rows) h, Some (inl (sent || negb isExecute && negb sent, i32 (n + i32 (Z.of_nat (length rows)))))).
Proof.
  unfold spoolRowsCallback, described. rewrite Hrows, Hiud. cbn [andb r_Fields r_Rows r_RowsAffected]. unfold mbind, M_bind. destruct (negb isExecute && negb sent) eqn:E.
  - rewrite (send_sends _ all_sent). cbn beta iota. rewrite send_all_sends. unfold set_output. cbn. rewrite <- app_assoc. reflexivity.
  - unfold mret, M_ret. rewrite send_all_sends. reflexivity.
Qed.

Lemma described_after sent fields : described (sent || negb isExecute && negb sent) fields = [].
Proof. unfold described. destruct isExecute, sent; reflexivity. Qed.

(** The rest of [deliver] after the batches. *)
Definition finish (fields : list FieldDescription) (r : (list RowValues * bool * Spooled) + string) : M (Z + string) :=
  match r with
  | inr e => mret (inr e)
  | inl (rest, processed, (sent, n)) =>
      if bool_decide (rest = []) && processed then mret (inl n) else
      r ← spoolRowsCallback send_ok tag isExecute (mkResult fields rest (Z.of_nat (length rest))) (sent, n);
      mret (match r with inr e => inr e | inl (_, rows) => inl rows end)
  end.

Lemma finish_sends fields rest processed sent n h : n = i32 n -> (processed = true -> described sent fields = []) ->
  finish fields (inl (rest, processed, (sent, n))) h
  = (set_output (output h ++ described sent fields ++ map BDataRow rest) h, Some (inl (i32 (n + Z.of_nat (length rest))))).
Proof.
  intros Hn Hp. unfold finish. destruct (bool_decide (rest = []) && processed) eqn:E.
  - apply andb_prop in E. destruct E as [E ->]. apply bool_decide_eq_true in E. subst rest. rewrite (Hp eq_refl). cbn [map app length]. rewrite app_nil_r, Z.add_0_r, <- Hn. destruct h; reflexivity.
  - unfold mbind, M_bind. rewrite callback_sends, i32_right. reflexivity.
Qed.

Lemma spool_sends fields rows : forall acc processed sent n h, n = i32 n -> (processed = true -> described sent fields = []) ->
  (spool send_ok tag isExecute fields acc processed rows (sent, n) ≫= finish fields) h
  = (set_output (output h ++ described sent fields ++ map BDataRow (acc ++ rows)) h, Some (inl (i32 (n + Z.of_nat (length (acc ++ rows)))))).
Proof.
  induction rows as [|row rows IH]; intros acc processed sent n h Hn Hp; cbn [spool]; destruct (length acc =? rowsBatch)%nat eqn:Ea.
  - unfold mbind, M_bind. rewrite callback_sends, i32_right. unfold mret, M_ret. rewrite finish_sends; [|symmetry; apply i32_idem | intros _; apply described_after].
    rewrite described_after, i32_left. cbn [map app length]. rewrite Z.add_0_r, !app_nil_r. destruct h; reflexivity.
  - rewrite app_nil_r. unfold mbind, M_bind, mret, M_ret. apply finish_sends; assumption.
  - unfold mbind, M_bind. rewrite callback_sends, i32_right.
    refine (eq_trans (IH [row] true (sent || negb isExecute && negb sent) (i32 (n + Z.of_nat (length acc))) _ (eq_sym (i32_idem _)) (fun _ => described_after sent fields)) _).
    rewrite described_after, i32_left. cbn [app]. rewrite map_app, !length_app, <- Z.add_assoc, <- Nat2Z.inj_add. unfold set_output. cbn [output]. rewrite <- !app_assoc. reflexivity.
  - change (acc ++ row :: rows) with (acc ++ [row] ++ rows). rewrite (app_assoc acc). apply (IH (acc ++ [row]) processed sent n h Hn Hp).
Qed.

Lemma deliver_rows fields rows h : deliver send_ok tag isExecute (QRows fields rows None) h
  = (set_output (output h ++ described false fields ++ map BDataRow rows) h, Some (inl (i32 (Z.of_nat (length rows))))).
Proof. exact (spool_sends fields rows [] false false 0 h eq_refl ltac:(discriminate)). Qed.
End Rows.

(** ** Prepared statements are closed once *)
Section Closing.
Context `{HPP : PgParser} `{HB : Backend} `{HL : !BackendLaws} (send_ok : nat -> bool).

(** A statement's flag is the cell of its own address. *)
Definition linked (h : Handler) (closed stmt : option nat) : Prop := match stmt with Some a => closed = Some a /\ is_Some (cells h !! a) | None => True end.

Record handles_ok (h : Handler) : Prop := mkHandles {
  ok_once : NoDup (closes h);
  ok_flagged : forall a, a ∈ closes h -> cells h !! a = Some true;
  ok_fresh : forall a, (next h <= a)%nat -> cells h !! a = None;
  ok_statements : forall name ps, preparedStatements h !! name = Some ps -> linked h (ps_Closed ps) (ps_Stmt ps);
  ok_portals : forall name p, portals h !! name = Some p -> linked h (po_Closed p) (po_Stmt p)
}.
Definition keeps_handles (h h' : Handler) : Prop := handles_ok h -> handles_ok h'.

(** Only these five fields count. *)
Lemma handles_fields h h' : preparedStatements h' = preparedStatements h -> portals h' = portals h -> cells h' = cells h -> next h' = next h -> closes h' = closes h -> keeps_handles h h'.
Proof. intros H1 H2 H3 H4 H5 [A B C D E]. split; unfold linked in *; rewrite ?H1, ?H2, ?H3, ?H4, ?H5; assumption. Qed.

Lemma handles_close_once c s h : linked h c s -> keeps_handles h (close_once c s h).1.
Proof.
  intros Hl Hok. unfold close_once. destruct c as [c|]; [|exact Hok]. unfold mbind, M_bind, get, modify.
  destruct (decide (cells h !! c = Some false)) as [Ec|]; [|exact Hok]. destruct Hok as [A B C D E].
  assert (Hlink : forall c' s', linked h c' s' -> match s' with Some a => c' = Some a /\ is_Some (<[c := true]> (cells h) !! a) | None => True end).
  { intros c' [a|]; [|trivial]. intros [-> Ha]. split; [reflexivity|]. destruct (decide (c = a)) as [->|]; [rewrite lookup_insert_eq; eauto | rewrite lookup_insert_ne by assumption; exact Ha]. }
  assert (Hset : handles_ok (set_cells (<[c := true]> (cells h)) h)).
  { split; cbn [closes cells next preparedStatements portals set_cells]; [exact A | | |intros n ps Hn; apply Hlink, (D _ _ Hn) | intros n p Hn; apply Hlink, (E _ _ Hn)].
    - intros a Ha. destruct (decide (c = a)) as [->|]; [apply lookup_insert_eq | rewrite lookup_insert_ne by assumption; apply B, Ha].
    - intros a Ha. rewrite lookup_insert_ne; [apply C, Ha|]. intros ->. rewrite C in Ec by exact Ha. discriminate. }
  destruct s as [a|]; [|exact Hset]. destruct Hl as [Hca _]. injection Hca as ->. destruct Hset as [A' B' C' D' E']. cbn.
  split; cbn [closes cells next preparedStatements portals set_cells set_closes]; [| |exact C' | exact D' | exact E'].
  - constructor; [|exact A]. intros Ha. rewrite (B _ Ha) in Ec. discriminate.
  - intros b Hb. apply elem_of_cons in Hb. destruct Hb as [->|Hb]; [apply lookup_insert_eq | apply B', Hb].
Qed.

#[local] Instance handles_stable : Stable keeps_handles.
Proof.
  split.
  - intros h Hok. exact Hok.
  - intros h1 h2 h3 H1 H2 Hok. apply H2, H1, Hok.
  - intros e h. apply handles_fields; reflexivity.
  - intros c h. apply handles_fields; reflexivity.
  - intros m h _. apply handles_fields; reflexivity.
  - intros name h Hok. unfold deletePreparedStatement, mbind, M_bind, get, modify. destruct (preparedStatements h !! name) as [ps|] eqn:E; [|exact Hok].
    apply handles_close_once; [apply (ok_statements h Hok _ _ E)|]. destruct Hok as [A B C D F]. split; try assumption. intros n ps' Hn. cbn in Hn. apply lookup_delete_Some in Hn. apply (D n ps'), Hn.
  - intros name h Hok. unfold deletePortal, mbind, M_bind, get, modify. destruct (portals h !! name) as [p|] eqn:E; [|exact Hok].
    apply handles_close_once; [apply (ok_portals h Hok _ _ E)|]. destruct Hok as [A B C D F]. split; try assumption. intros n p' Hn. cbn in Hn. apply lookup_delete_Some in Hn. apply (F n p'), Hn.
Qed.

Lemma handles_store_statement name ps h : linked h (ps_Closed ps) (ps_Stmt ps) -> keeps_handles h (store_statement name ps h).1.
Proof.
  intros Hl [A B C D E]. split; try assumption. intros n ps' Hn. cbn in Hn. destruct (decide (name = n)) as [->|].
  - rewrite lookup_insert_eq in Hn. injection Hn as <-. exact Hl.
  - rewrite lookup_insert_ne in Hn by assumption. apply (D n ps' Hn).
Qed.
Lemma handles_store_portal name p h : linked h (po_Closed p) (po_Stmt p) -> keeps_handles h (store_portal name p h).1.
Proof.
  intros Hl [A B C D E]. split; try assumption. intros n p' Hn. cbn in Hn. destruct (decide (name = n)) as [->|].
  - rewrite lookup_insert_eq in Hn. injection Hn as <-. exact Hl.
  - rewrite lookup_insert_ne in Hn by assumption. apply (E n p' Hn).
Qed.
Lemma handles_new_cell h : keeps_handles h (new_cell h).1.
Proof.
  intros [A B C D E]. cbn.
  assert (Hne : forall a, is_Some (cells h !! a) -> a <> next h) by (intros a [b Hb] ->; rewrite C in Hb by lia; discriminate).
  assert (Hlink : forall c' s', linked h c' s' -> match s' with Some a => c' = Some a /\ is_Some (<[next h := false]> (cells h) !! a) | None => True end).
  { intros c' [a|]; [|trivial]. intros [-> Ha]. split; [reflexivity|]. rewrite lookup_insert_ne by (apply not_eq_sym, Hne, Ha). exact Ha. }
  split; cbn [closes cells next preparedStatements portals set_cells set_next]; [exact A | | |intros n ps Hn; apply Hlink, (D _ _ Hn) | intros n p Hn; apply Hlink, (E _ _ Hn)].
  - intros a Ha. rewrite lookup_insert_ne; [apply B, Ha|]. apply not_eq_sym, Hne. rewrite (B _ Ha). eauto.
  - intros a Ha. rewrite lookup_insert_ne by lia. apply C. lia.
Qed.

(** A statement stored with a new cell. *)
Lemma handles_store_new name (ps : nat -> PreparedStatementData) : (forall a, ps_Closed (ps a) = Some a /\ (ps_Stmt (ps a) = Some a \/ ps_Stmt (ps a) = None)) ->
  preserves keeps_handles (a ← new_cell; _ ← store_statement name (ps a); send send_ok BParseComplete).
Proof.
  intros Hps h Hok. pose proof (handles_new_cell h Hok) as H1. unfold mbind, M_bind.
  change (new_cell h) with ((new_cell h).1, Some (next h)). cbn beta iota.
  assert (H2 : handles_ok (store_statement name (ps (next h)) (new_cell h).1).1).
  { apply handles_store_statement; [|exact H1]. destruct (Hps (next h)) as [-> [-> | ->]]; [|exact I]. split; [reflexivity|]. cbn. rewrite lookup_insert_eq. eauto. }
  exact (keep_send send_ok keeps_handles BParseComplete ltac:(discriminate) _ H2).
Qed.

Lemma handles_wait b : preserves keeps_handles (modify (set_waitForSync b)).
Proof. intros h. apply handles_fields; reflexivity. Qed.

Lemma handles_parse name query oids : preserves keeps_handles (handleParse send_ok name query oids).
Proof.
  unfold handleParse. apply keep_bind; [typeclasses eauto | apply handles_wait | intros _]. apply keep_bind; [typeclasses eauto | apply keep_convert; typeclasses eauto | intros [|statement l]].
  { apply keep_panic; typeclasses eauto. }
  cbn beta iota. destruct (_ && _).
  { apply keep_bind; [typeclasses eauto | |intros _; keeps]. intros h. apply handles_store_statement. exact I. }
  apply keep_or_else; [typeclasses eauto | keeps |]. intros [[] s].
  { apply (handles_store_new name (fun c => mkPrepared s [] [] None (Some c))). intros a. split; [reflexivity | right; reflexivity]. }
  apply keep_or_else; [typeclasses eauto | keeps |]. intros info.
  apply (handles_store_new name (fun a => mkPrepared (if st_PgParsable s then s else set_tag (GetStatementTag (pi_type info)) s) (pi_fields info) (merge_types oids (pi_params info)) (Some a) (Some a))).
  intros a. split; [reflexivity | left; reflexivity].
Qed.

Lemma handles_store_then_send name p h : linked h (po_Closed p) (po_Stmt p) -> keeps_handles h ((_ ← store_portal name p; send send_ok BBindComplete) h).1.
Proof.
  intros Hl Hok. pose proof (handles_store_portal name p h Hl Hok) as H1. exact (keep_send send_ok keeps_handles BBindComplete ltac:(discriminate) _ H1).
Qed.

Lemma handles_bind portal statement formats params results : preserves keeps_handles (handleBind send_ok portal statement formats params results).
Proof.
  intros h Hok. unfold handleBind. unfold mbind at 1 2, M_bind at 1 2, modify, get. set (h0 := set_waitForSync true h).
  assert (H0 : handles_ok h0) by (revert Hok; apply handles_fields; reflexivity). change (preparedStatements h) with (preparedStatements h0).
  destruct (preparedStatements h0 !! statement) as [ps|] eqn:E; [|exact H0]. pose proof (ok_statements h0 H0 _ _ E) as Hl. destruct (ps_Stmt ps) as [a|]; [|apply handles_store_then_send; [exact I | exact H0]].
  destruct (st_AST (ps_Statement ps)); [|apply handles_store_then_send; [exact I | exact H0]].
  unfold or_else, convertBindParameters, mbind at 1, M_bind at 1. destruct (negb _); [exact H0|]. destruct (bind_texts _ _ _) as [[vars|e]|]; [|exact H0 | exact H0].
  unfold mret, M_ret. unfold or_error, mbind at 1, M_bind at 1, run_engine. destruct (StmtBind a vars (eng h0)) as [e [err|]].
  - revert H0. apply handles_fields; reflexivity.
  - apply handles_store_then_send; [exact Hl|]. revert H0. apply handles_fields; reflexivity.
Qed.

Lemma handles_message m : preserves keeps_handles (handleMessage send_ok m).
Proof.
  destruct m; cbn [handleMessage].
  - keeps.
  - apply keep_bind; [typeclasses eauto | apply handles_wait | intros; keeps].
  - apply keep_bind; [typeclasses eauto | apply keep_query; typeclasses eauto | intros [eom e]; keeps].
  - apply keep_bind; [typeclasses eauto | apply handles_parse | intros; keeps].
  - apply keep_bind; [typeclasses eauto | |intros; keeps]. unfold handleDescribe. apply keep_bind; [typeclasses eauto | apply handles_wait | intros _; keeps].
  - apply keep_bind; [typeclasses eauto | apply handles_bind | intros; keeps].
  - apply keep_bind; [typeclasses eauto | |intros; keeps]. unfold handleExecute. apply keep_bind; [typeclasses eauto | apply handles_wait | intros _; keeps].
  - apply keep_bind; [typeclasses eauto | |intros; keeps]. destruct statement; [apply (st_delete_statement keeps_handles) | apply (st_delete_portal keeps_handles)].
  - apply keep_copy_data; typeclasses eauto.
  - apply keep_copy_done; typeclasses eauto.
  - apply keep_copy_fail; typeclasses eauto.
  - keeps.
Qed.

Lemma handles_end err : preserves keeps_handles (endOfMessages send_ok err).
Proof.
  assert (Hm : forall msg, preserves keeps_handles (must_send send_ok msg)).
  { intros msg. unfold must_send. apply keep_bind; [typeclasses eauto | |intros [e|]; keeps]. intros h. unfold send. destruct (send_ok _); [apply handles_fields; reflexivity | intros Hok; exact Hok]. }
  unfold endOfMessages. apply keep_bind; [typeclasses eauto | |intros _; apply Hm]. destruct err; [apply Hm | keeps].
Qed.

Lemma handles_discard eom h : keeps_handles h (discard_if eom h).
Proof. unfold discard_if. destruct (_ && _); [apply handles_fields; reflexivity | intros Hok; exact Hok]. Qed.

Lemma handles_recovered eom h : keeps_handles h (recovered send_ok eom h).1.
Proof.
  intros Hok. unfold recovered. pose proof (handles_end (Some "panic"%string) _ (handles_discard eom h Hok)) as H. destruct (endOfMessages _ _ _) as [h1 [[]|]]; exact H.
Qed.

Lemma handles_receive h : keeps_handles h (receiveMessage send_ok h).1.
Proof.
  intros Hok. unfold receiveMessage. destruct (input h) as [|m rest]; [exact Hok|].
  assert (H0 : handles_ok (set_input rest h)) by (revert Hok; apply handles_fields; reflexivity). pose proof (handles_message m _ H0) as H1.
  destruct (handleMessage send_ok m (set_input rest h)) as [h1 [[[stop eom] err]|]]; [|apply handles_recovered, H1]. destruct err as [e|].
  - pose proof (handles_end (Some e) _ (handles_discard eom h1 H1)) as H2. destruct (endOfMessages _ _ _) as [h2 [[]|]]; [exact H2 | apply handles_recovered, H2].
  - destruct eom; [|exact H1]. pose proof (handles_end None _ H1) as H2. destruct (endOfMessages _ _ _) as [h2 [[]|]]; [exact H2 | apply handles_recovered, H2].
Qed.

Lemma handles_serve fuel : forall h, keeps_handles h (serve send_ok fuel h).1.
Proof.
  induction fuel as [|fuel IH]; intros h Hok; [exact Hok|]. cbn [serve]. pose proof (handles_receive h Hok) as H. destruct (receiveMessage send_ok h) as [h1 []]; try exact H. apply IH, H.
Qed.
End Closing.

(** ** A query without READY is a COPY FROM STDIN *)
Section CopyMode.
Context `{HPP : PgParser} `{HB : Backend} (send_ok : nat -> bool).

Definition in_copy (h : Handler) : Prop := is_Some (copyFromStdinState h).

Lemma copy_from_enters n o h : match handleCopyFromStdinQuery send_ok n o h with (h', Some None) => in_copy h' | _ => True end.
Proof.
  unfold handleCopyFromStdinQuery, or_error, or_else, mbind, M_bind, run_engine. destruct (NewContext (eng h)) as [e [err|]]; [exact I|]. cbn.
  destruct (ValidateCopyFrom n e) as [e' [t|err]]; [|exact I]. cbn. unfold send. destruct (send_ok _); [|exact I]. cbn. unfold in_copy. cbn. eauto.
Qed.

(** End of messages is refused only by a COPY that began. *)
Definition copy_or_end (r : Handler * option Outside3) : Prop := match r with (h', Some (handled, false, None)) => handled = true /\ in_copy h' | _ => True end.

Lemma outside_ends b m h : copy_or_end (outside b true m h).
Proof. unfold outside, mbind, M_bind. destruct (m h) as [h' [e|]]; exact I. Qed.
Lemma outside_copies n o h : copy_or_end (outside true false (handleCopyFromStdinQuery send_ok n o) h).
Proof. unfold outside, mbind, M_bind. pose proof (copy_from_enters n o h) as H. destruct (handleCopyFromStdinQuery send_ok n o h) as [h' [[e|]|]]; [exact I | split; [reflexivity | exact H] | exact I]. Qed.
Lemma in_place_ends s h : copy_or_end (in_place send_ok s h).
Proof. unfold in_place, mbind, M_bind. destruct (handleInPlaceQueries send_ok s h) as [h' [[hd e]|]]; exact I. Qed.

Lemma statement_copies s h : copy_or_end (handleStatementOutsideEngine send_ok s h).
Proof.
  assert (Hc : copy_or_end (copy_statement send_ok s h)).
  { unfold copy_statement. destruct (ParseCopyFrom _ _) as [[[t f] o]|].
    - destruct (ParseOne _) as [[]|]; first [exact I | apply outside_copies].
    - destruct (ParseCopyTo _ _) as [[[q f] o]|]; [|apply in_place_ends]. destruct (in_parentheses q); [apply outside_ends|]. destruct (ParseOne _) as [[]|]; first [exact I | apply outside_ends]. }
  unfold handleStatementOutsideEngine. destruct (st_AST s) as [[| |[]| | | | |]|]; try apply outside_ends; try apply outside_copies; destruct (decide _); first [exact Hc | apply in_place_ends].
Qed.

Lemma statements_copy stmts : forall eom h, stmts <> [] \/ eom = true ->
  match run_statements send_ok eom stmts h with (h', Some (false, None)) => in_copy h' | (_, Some (false, Some _)) => False | _ => True end.
Proof.
  assert (Hgen : forall stmts eom h, in_copy h \/ eom = true \/ stmts <> [] ->
    match run_statements send_ok eom stmts h with (h', Some (false, None)) => in_copy h' | (_, Some (false, Some _)) => False | _ => True end).
  { induction stmts0 as [|s stmts0 IH]; intros eom h H; cbn [run_statements].
    - cbn. destruct eom; [exact I|]. destruct H as [H|[H|H]]; [exact H | discriminate | contradiction].
    - unfold mbind at 1, M_bind at 1. pose proof (statement_copies (set_extended false s) h) as Hs. destruct (handleStatementOutsideEngine send_ok (set_extended false s) h) as [h1 [[[hd eom1] e]|]]; [|exact I].
      destruct hd.
      + destruct e as [e|]; [exact I|]. apply IH. destruct eom1; [right; left; reflexivity | left; apply Hs].
      + unfold mbind, M_bind. destruct (run send_ok (set_extended false s) h1) as [h2 [[e'|]|]]; try exact I. apply IH. right. left. reflexivity. }
  intros eom h H. apply Hgen. destruct H; auto.
Qed.

Lemma converts q h : match convertQuery q h with (_, Some []) => False | _ => True end.
Proof. unfold convertQuery. repeat case_match; cbn in *; simplify_eq; exact I. Qed.

(** Unless the query ends the messages it has begun a COPY. *)
Lemma query_copy q h : match handleQuery send_ok q h with (h', Some (eom, e)) => eom = false -> e = None /\ in_copy h' | (_, None) => True end.
Proof.
  unfold handleQuery. case_decide.
  { unfold mbind, M_bind. destruct (send _ _ h) as [h1 [e|]]; [discriminate | exact I]. }
  unfold mbind at 1, M_bind at 1. destruct (handledPSQLCommands send_ok q h) as [h1 [[hd e]|]]; [|exact I]. destruct (hd || _); [discriminate|].
  unfold mbind at 1, M_bind at 1. destruct (handledWorkbenchCommands send_ok q h1) as [h2 [[hd' e']|]]; [|exact I]. destruct (hd' || _); [discriminate|].
  unfold mbind at 1, M_bind at 1. pose proof (converts q h2) as Hc. destruct (convertQuery q h2) as [h3 [stmts|]]; [|exact I].
  unfold mbind, M_bind. destruct (deletePreparedStatement EmptyString h3) as [h4 [[]|]]; [|exact I]. destruct (deletePortal EmptyString h4) as [h5 [[]|]]; [|exact I].
  pose proof (statements_copy stmts false h5) as Hs. destruct (run_statements send_ok false stmts h5) as [h6 [[[] e6]|]]; [discriminate | | exact I].
  intros _. destruct stmts; [contradiction|]. specialize (Hs ltac:(left; discriminate)). destruct e6; [contradiction|]. split; [reflexivity | exact Hs].
Qed.
End CopyMode.

Lemma returns_not_iud tag : returnsRow tag = true -> isIUD tag = false.
Proof.
  unfold returnsRow, isIUD. intros H. apply bool_decide_eq_true in H. apply bool_decide_eq_false. intros H'.
  repeat first [apply elem_of_cons in H; destruct H as [->|H] | apply elem_of_nil in H; contradiction];
  repeat first [apply elem_of_cons in H'; destruct H' as [H'|H']; [discriminate|] | apply elem_of_nil in H'; contradiction].
Qed.

(** ** The three messages of a prepared query *)
Section Prepared.
Context `{HPP : PgParser} `{HB : Backend} (send_ok : nat -> bool) (all_sent : forall n, send_ok n = true).

Lemma receive_reply m msg rest h h1 : input h = msg :: rest ->
  handleMessage send_ok msg = (e ← m; mret (handled false e)) -> m (set_input rest h) = (h1, Some None) -> receiveMessage send_ok h = (h1, RContinue).
Proof. intros Hi Hm E. unfold receiveMessage. rewrite Hi, Hm. unfold mbind, M_bind. rewrite E. reflexivity. Qed.

Lemma parse_reads name q oids rest h st more info e1 : input h = FParse name q oids :: rest ->
  (forall h', convertQuery q h' = (h', Some (st :: more))) -> is_Some (st_AST st) -> st_PgParsable st = true ->
  (forall h', shouldQueryBeHandledInPlace (set_extended true st) h' = (h', Some (inl (false, set_extended true st)))) -> PrepareParsed (st_String st) (st_AST st) (eng h) = (e1, inl info) ->
  exists h1, reads send_ok h h1 /\ input h1 = rest /\ eng h1 = e1 /\ output h1 = output h ++ [BParseComplete]
    /\ preparedStatements h1 !! name = Some (mkPrepared (set_extended true st) (pi_fields info) (merge_types oids (pi_params info)) (Some (next h)) (Some (next h))).
Proof.
  intros Hi Hc [node Ha] Hp Hin Hprep. eexists. split; [eapply (receive_reply _ _ _ _ _ Hi eq_refl)|].
  - unfold handleParse, mbind, M_bind, modify. rewrite Hc.
    assert (Hne : bool_decide (st_AST (set_extended true st) = None) = false) by (apply bool_decide_eq_false; cbn; rewrite Ha; discriminate). rewrite Hne. cbn [andb].
    unfold or_else, run_engine, mbind, M_bind. rewrite Hin. cbn beta iota zeta.
    change (eng (set_waitForSync true (set_input rest h))) with (eng h). change (st_String (set_extended true st)) with (st_String st). change (st_AST (set_extended true st)) with (st_AST st).
    rewrite Hprep. cbn beta iota zeta delta [new_cell store_statement modify]. change (st_PgParsable (set_extended true st)) with (st_PgParsable st). rewrite Hp, (send_sends send_ok all_sent). reflexivity.
  - cbn. rewrite lookup_insert_eq. repeat split.
Qed.

Lemma bind_reads portal name formats params results rest h ps a vars e2 : input h = FBind portal name formats params results :: rest ->
  preparedStatements h !! name = Some ps -> ps_Stmt ps = Some a -> is_Some (st_AST (ps_Statement ps)) ->
  length (ps_BindVarTypes ps) = length params -> bind_texts (ps_BindVarTypes ps) formats params = Some (inl vars) -> StmtBind a vars (eng h) = (e2, None) ->
  exists h2, reads send_ok h h2 /\ input h2 = rest /\ eng h2 = e2 /\ output h2 = output h ++ [BBindComplete]
    /\ portals h2 !! portal = Some (mkPortal (ps_Statement ps) false (ps_ReturnFields ps) results (Some a) vars (ps_Closed ps)).
Proof.
  intros Hi Hps Ha [node Hn] Hlen Hv Hb. eexists. split; [eapply (receive_reply _ _ _ _ _ Hi eq_refl)|].
  - unfold handleBind, mbind, M_bind, modify, get. change (preparedStatements (set_waitForSync true (set_input rest h))) with (preparedStatements h). rewrite Hps, Ha, Hn.
    unfold or_else, convertBindParameters, mbind, M_bind. rewrite Hlen, Nat.eqb_refl. cbn [negb]. rewrite Hv. unfold mret, M_ret, or_error, run_engine, mbind, M_bind.
    change (eng (set_waitForSync true (set_input rest h))) with (eng h). rewrite Hb. cbn beta iota zeta delta [store_portal modify]. rewrite (send_sends send_ok all_sent). reflexivity.
  - cbn. rewrite lookup_insert_eq. repeat split.
Qed.

Lemma execute_reads portal rest h p a fields rows e3 : input h = FExecute portal :: rest ->
  portals h !! portal = Some p -> po_Stmt p = Some a -> po_IsEmptyQuery p = false -> st_Tag (po_Statement p) = "SELECT"%string ->
  ExecuteBound a (st_String (po_Statement p)) (po_Vars p) (eng h) = (e3, inl (QRows fields rows None)) ->
  exists h3, reads send_ok h h3 /\ input h3 = rest /\ eng h3 = e3
    /\ output h3 = output h ++ map BDataRow rows ++ [makeCommandComplete "SELECT" (i32 (Z.of_nat (length rows)))].
Proof.
  intros Hi Hp Ha He Ht Hx. eexists. split; [eapply (receive_reply _ _ _ _ _ Hi eq_refl)|].
  - unfold handleExecute, mbind, M_bind, modify, get. change (portals (set_waitForSync true (set_input rest h))) with (portals h). rewrite Hp, He, Ht, Ha.
    rewrite bool_decide_eq_true_2 by reflexivity. rewrite bool_decide_eq_false_2 by discriminate. cbn [negb orb]. unfold mret, M_ret. cbn beta iota.
    unfold or_else, doQuery, run_engine, mbind, M_bind. change (eng (set_waitForSync true (set_input rest h))) with (eng h). rewrite Hx.
    rewrite (deliver_rows send_ok all_sent "SELECT" true eq_refl eq_refl). cbn beta iota. rewrite (send_sends send_ok all_sent). reflexivity.
  - cbn. rewrite <- !app_assoc. repeat split.
Qed.
End Prepared.

Lemma after_no_sync rest : FSync ∉ rest -> after_sync rest = [].
Proof. induction rest as [|m rest IH]; intros H; [reflexivity|]. rewrite not_elem_of_cons in H. destruct H as [H1 H2]. destruct m; try (apply (IH H2)). congruence. Qed.

(** ** Which statements are handled in place *)
Section Stored.
Context `{HPP : PgParser} `{HB : Backend}.

(** No conversion applies. *)
Definition unconverted (s : ConvertedStatement) : bool := forallb (fun c => negb (needConvert c s)) selectionConversions.
Lemma should_plain s h : st_Tag s = "SELECT"%string -> unconverted s = true -> shouldQueryBeHandledInPlace s h = (h, Some (inl (false, s))).
Proof.
  intros Ht Hu. unfold shouldQueryBeHandledInPlace. rewrite decide_True by exact Ht. unfold unconverted in Hu. induction selectionConversions as [|c cs IH]; [reflexivity|].
  cbn [forallb] in Hu. apply andb_prop in Hu. destruct Hu as [Hc Hu]. cbn [convert_until_const]. rewrite Hc. apply IH, Hu.
Qed.

(** SHOW of a variable, SET and RESET of a parameter of PostgreSQL. *)
Definition stored_in_place (s : ConvertedStatement) : Prop :=
  (st_Tag s = "SHOW"%string /\ exists name, st_AST s = Some (NShowVar name))
  \/ (st_Tag s = "SET"%string /\ exists name e reset all, st_AST s = Some (NSetVar name [e] reset all) /\ strings_ToLower name <> "database"%string /\ valid_parameter (strings_ToLower name) = true)
  \/ (st_Tag s = "RESET"%string /\ exists name all, st_AST s = Some (NSetVar name [] true all) /\ valid_parameter (strings_ToLower name) = true).
Lemma should_stored s h : stored_in_place s -> shouldQueryBeHandledInPlace s h = (h, Some (inl (true, s))).
Proof.
  unfold shouldQueryBeHandledInPlace. intros [[-> [name ->]]|[[-> (name & e & r & a & -> & Hd & Hv)]|[-> (name & a & -> & Hv)]]].
  - reflexivity.
  - rewrite (decide_False (P := "SET"%string = "SELECT"%string)), (decide_False (P := "SET"%string = "SHOW"%string)), (decide_True (P := "SET"%string = "SET"%string)) by (reflexivity || discriminate).
    rewrite decide_False by exact Hd. rewrite Hv. reflexivity.
  - rewrite (decide_False (P := "RESET"%string = "SELECT"%string)), (decide_False (P := "RESET"%string = "SHOW"%string)), (decide_False (P := "RESET"%string = "SET"%string)), (decide_True (P := "RESET"%string = "RESET"%string)) by (reflexivity || discriminate).
    rewrite Hv. reflexivity.
Qed.
End Stored.

Section InPlace.
Context `{HPP : PgParser} `{HB : Backend} (send_ok : nat -> bool) (all_sent : forall n, send_ok n = true).

Lemma parse_in_place_reads name q oids rest h st more st' : input h = FParse name q oids :: rest ->
  (forall h', convertQuery q h' = (h', Some (st :: more))) -> is_Some (st_AST st) ->
  (forall h', shouldQueryBeHandledInPlace (set_extended true st) h' = (h', Some (inl (true, st')))) ->
  exists h1, reads send_ok h h1 /\ input h1 = rest /\ eng h1 = eng h /\ output h1 = output h ++ [BParseComplete]
    /\ preparedStatements h1 !! name = Some (mkPrepared st' [] [] None (Some (next h))) /\ cells h1 !! next h = Some false.
Proof.
  intros Hi Hc [node Ha] Hin. eexists. split; [eapply (receive_reply send_ok _ _ _ _ _ Hi eq_refl)|].
  - unfold handleParse, mbind, M_bind, modify. rewrite Hc.
    assert (Hne : bool_decide (st_AST (set_extended true st) = None) = false) by (apply bool_decide_eq_false; cbn; rewrite Ha; discriminate). rewrite Hne. cbn [andb].
    unfold or_else, mbind, M_bind. rewrite Hin.
    cbn beta iota zeta delta [new_cell store_statement modify]. rewrite (send_sends send_ok all_sent). reflexivity.
  - cbn. rewrite !lookup_insert_eq. repeat split.
Qed.

Lemma convert_pure q h : (convertQuery q h).1 = h.
Proof. unfold convertQuery. repeat case_match; reflexivity. Qed.

Lemma query_after_nil q rest h ps c : input h = FQuery q :: rest -> preparedStatements h !! EmptyString = Some ps -> ps_Stmt ps = None -> ps_Closed ps = Some c ->
  cells h !! c = Some false -> waitForSync h = false -> q <> ";"%string -> PsqlCommand (strings_ToLower q) = None ->
  strings_ToLower q ∉ ["select * from current_schema()"; "select * from current_schema();"; "select * from current_database()"; "select * from current_database();"]%string ->
  exists h', reads send_ok h h' /\ input h' = rest /\ eng h' = eng h /\ output h' = output h ++ [BErrorResponse "panic"; BReadyForQuery].
Proof.
  intros Hi Hps Hs Hcl Hc Hw Hq Hpsql Hwb. unfold reads, receiveMessage. rewrite Hi. cbn [handleMessage].
  assert (E : exists h1, handleQuery send_ok q (set_input rest h) = (h1, None) /\ input h1 = rest /\ eng h1 = eng h /\ output h1 = output h /\ waitForSync h1 = false).
  { unfold handleQuery. rewrite decide_False by exact Hq. unfold mbind at 1, M_bind at 1, handledPSQLCommands. rewrite Hpsql. unfold mret at 1, M_ret at 1. cbn [orb]. rewrite bool_decide_eq_false_2 by (intros [? ?]; discriminate).
    unfold mbind at 1, M_bind at 1, handledWorkbenchCommands. rewrite !not_elem_of_cons in Hwb. destruct Hwb as (W1 & W2 & W3 & W4 & _).
    rewrite !bool_decide_eq_false_2; [| intros H; repeat (apply elem_of_cons in H; destruct H as [H|H]; [contradiction|]); inversion H ..].
    unfold mret at 1, M_ret at 1. cbn [orb]. rewrite bool_decide_eq_false_2 by (intros [? ?]; discriminate).
    unfold mbind at 1, M_bind at 1. pose proof (convert_pure q (set_input rest h)) as Hp. destruct (convertQuery q (set_input rest h)) as [h1 r]. cbn in Hp. subst h1.
    destruct r as [stmts|]; [|eexists; split; [reflexivity|]; repeat split; exact Hw].
    unfold mbind at 1, M_bind at 1, deletePreparedStatement, get, modify, mbind, M_bind. change (preparedStatements (set_input rest h)) with (preparedStatements h). rewrite Hps, Hs, Hcl. unfold close_once, get, modify, mbind, M_bind.
    cbn [cells set_prepared set_input]. rewrite Hc, decide_True by reflexivity. eexists. split; [reflexivity|]. repeat split; exact Hw. }
  destruct E as (h1 & E & H1 & H2 & H3 & H4). unfold mbind, M_bind. rewrite E, (recovered_replies send_ok all_sent). unfold discard_if. rewrite H4, andb_false_r.
  eexists. split; [reflexivity|]. cbn. rewrite H3. repeat split; assumption.
Qed.
End InPlace.
