(* ===== verification/InPlaceFacts.v ===== *)
(** * Parameters and the statements that read and set them

    What a value of a type is, the laws of the conversion and of the variables of
    a session, and what SET, RESET and SHOW do on them. *)
From Stdlib Require Import Ascii String.
From stdpp Require Import pretty.
From S2P Require Import Prelude Identifier InternalTables CatalogErrors Regexp SqlText PsqlCommands PgConfig Rewrite Subscriptions Backup PgHandler PgHandlerFacts.

#[local] Open Scope list_scope.

(** ** Values of a type *)

(** a / 10^k <= b / 10^j *)
Definition le10 (a b : Z * nat) : bool := a.1 * 10 ^ Z.of_nat b.2 <=? b.1 * 10 ^ Z.of_nat a.2.
Definition in_type (t : SystemType) (v : value) : bool :=
  match t, v with
  | SysBool, VInt z => (z =? 0) || (z =? 1)
  | SysString, VString _ => true
  | SysInt lo hi negativeOne, VInt z => ((lo <=? z) && (z <=? hi)) || (negativeOne && (z =? -1))
  | SysDouble lo hi, VFloat n k => le10 lo (n, k) && match hi with Some hi => le10 (n, k) hi | None => true end
  | SysEnum values, VString s => bool_decide (s ∈ values)
  | _, _ => false
  end.

(** What is used of go-mysql-server's types: a value of the type is kept. *)
Definition keeps_values (Convert : SystemType -> value -> option value) : Prop := forall t v, in_type t v = true -> Convert t v = Some v.

(** An entry of the table: the key is the name in lower case, the default is of
    the parameter's type, and only TimeZone is validated. *)
Definition entry_wf (x : string * PgParameter) : bool :=
  bool_decide (strings_ToLower (p_Name x.2) = x.1) && in_type (p_Type x.2) (p_Default x.2) && (negb (p_Validated x.2) || bool_decide (x.1 = "timezone"%string)).
Lemma table_wf location : forallb entry_wf (postgresConfigParameters location) = true.
Proof. vm_compute. reflexivity. Qed.

Lemma find_parameter_wf location name p : find_parameter location name = Some p -> entry_wf (strings_ToLower name, p) = true.
Proof.
  unfold find_parameter. intros H. apply fmap_Some in H. destruct H as ((i & key & q) & Hf & ->). apply list_find_Some in Hf. destruct Hf as (Hl & E & _). cbn [fst snd] in *. subst key.
  pose proof (table_wf location) as Hw. rewrite forallb_forall in Hw. apply Hw. apply list_elem_of_In. eapply list_elem_of_lookup_2. exact Hl.
Qed.

Lemma default_is_kept Convert LoadLocation location name p : keeps_values Convert -> find_parameter location name = Some p -> strings_ToLower name <> "timezone"%string ->
  IsReadOnly p = false -> SetValue Convert LoadLocation p (GetDefault p) false = inl (GetDefault p).
Proof.
  intros Hk Hf Ht Hr. apply find_parameter_wf in Hf. unfold entry_wf in Hf. cbn [fst snd] in Hf. rewrite !andb_true_iff in Hf. destruct Hf as [[_ Hd] Hv].
  rewrite (bool_decide_eq_false_2 _ Ht), orb_false_r in Hv. apply negb_true_iff in Hv. unfold SetValue, InitValue, GetDefault. rewrite Hr, (Hk _ _ Hd), Hv. reflexivity.
Qed.

(** ** The variables of a session *)
Class SessionVarLaws `{HB : Backend} : Type := {
  Convert : SystemType -> value -> option value;
  LoadLocation : string -> option string;
  var : string -> engine -> value;
  kept : keeps_values Convert;
  ctx_ok : forall e, exists e', NewContext e = (e', None) /\ forall n, var n e' = var n e;
  global_ok : forall n p, find_parameter Location n = Some p -> GetGlobal n = Some (GetDefault p);
  get_ok : forall n p e, find_parameter Location n = Some p -> GetSessionVariable n e = (e, inl (var n e));
  set_ok : forall n p v e, find_parameter Location n = Some p ->
    match SetValue Convert LoadLocation p v false with
    | inl w => exists e', SetSessionVariable n v e = (e', None) /\ var n e' = w /\ forall m, m <> n -> var m e' = var m e
    | inr _ => exists msg, SetSessionVariable n v e = (e, Some msg)
    end
}.

Section Variables.
Context `{HPP : PgParser} `{HB : Backend} `{HV : !SessionVarLaws} (send_ok : nat -> bool) (all_sent : forall n, send_ok n = true).

(** The variables of [h'] are those of [h], but for [n]. *)
Definition same_vars_but (n : string) (h h' : Handler) : Prop := forall m, m <> n -> var m (eng h') = var m (eng h).

Lemma set_var name p v (useDefault : bool) tag h : find_parameter Location name = Some p -> countsRows tag = false ->
  match SetValue Convert LoadLocation p (if useDefault then GetDefault p else v) false with
  | inl w => exists h', setPgSessionVar send_ok name v useDefault tag h = (h', Some (true, None)) /\ output h' = output h ++ [BCommandComplete tag; BParameterStatus name (format_value w)]
      /\ var name (eng h') = w /\ same_vars_but name h h'
  | inr _ => exists h' msg, setPgSessionVar send_ok name v useDefault tag h = (h', Some (false, Some msg)) /\ output h' = output h /\ forall m, var m (eng h') = var m (eng h)
  end.
Proof.
  intros Hp Htag. set (v' := if useDefault then GetDefault p else v). destruct (ctx_ok (eng h)) as (e1 & Hc & Hv1).
  unfold setPgSessionVar. rewrite (global_ok name p Hp). fold v'. unfold or_error, run_engine, mbind, M_bind. rewrite Hc. cbn beta iota.
  change (eng (set_eng e1 h)) with e1. pose proof (set_ok name p v' e1 Hp) as Hset. destruct (SetValue Convert LoadLocation p v' false) as [w|err].
  - destruct Hset as (e2 & Hs & Hw & Ho). rewrite Hs. cbn beta iota. change (eng (set_eng e2 (set_eng e1 h))) with e2. rewrite (get_ok name p e2 Hp). cbn beta iota.
    rewrite (send_sends send_ok all_sent). cbn beta iota. rewrite (send_sends send_ok all_sent). eexists. split; [reflexivity|]. cbn [set_output set_eng output eng].
    unfold makeCommandComplete. rewrite Htag, Hw, <- app_assoc. split; [reflexivity|]. split; [reflexivity|]. intros m Hm. cbn. rewrite Ho by exact Hm. apply Hv1.
  - destruct Hset as [msg Hs]. rewrite Hs. cbn beta iota. eexists _, _. split; [reflexivity|]. split; [reflexivity|]. exact Hv1.
Qed.

Lemma query_var name p h : find_parameter Location name = Some p ->
  exists e', queryPGSetting name h = (set_eng e' h, Some (inl (var name (eng h)))) /\ forall m, var m e' = var m (eng h).
Proof.
  intros Hp. destruct (ctx_ok (eng h)) as (e1 & Hc & Hv1). exists e1. unfold queryPGSetting. rewrite (global_ok name p Hp). unfold run_engine, mbind, M_bind. rewrite Hc. cbn beta iota.
  change (eng (set_eng e1 h)) with e1. rewrite (get_ok name p e1 Hp). cbn beta iota. rewrite Hv1. split; [reflexivity | exact Hv1].
Qed.
End Variables.

Lemma fold_fold c : fold_char (fold_char c) = fold_char c.
Proof. destruct c as [[] [] [] [] [] [] [] []]; reflexivity. Qed.
Lemma lower_lower s : strings_ToLower (strings_ToLower s) = strings_ToLower s.
Proof. unfold strings_ToLower. rewrite bytes_text, map_map. f_equal. apply map_ext, fold_fold. Qed.
Lemma find_lower location name : find_parameter location (strings_ToLower name) = find_parameter location name.
Proof. unfold find_parameter. rewrite lower_lower. reflexivity. Qed.
Lemma valid_found `{HB : Backend} name p : find_parameter Location name = Some p -> valid_parameter name = true.
Proof. unfold valid_parameter, IsValidPostgresConfigParameter. intros ->. reflexivity. Qed.
