(* ===== verification/LogreplRows.v ===== *)
(** * Rows of logical replication in the delta buffer

    A tuple of pgoutput presents a row: [tuple_presents] for full tuples,
    [key_tuple_presents] for the key tuples of a replica identity, which have
    every column and NULL outside the key.  [append] turns the presented row
    into one row of the delta, stamped with the LSN of the transaction and the
    number of the statement; the buffer stays rectangular and ordered and its
    counters truthful. *)

From S2P Require Import Prelude GoTime Charset Schema Identifier Delta DeltaSpec DeltaRefine DeltaFlush.
From S2P Require Import RowAppend RowDecode ReplaySpec PgDecode Session Logrepl.

#[local] Open Scope Z_scope.

Section Tuples.
Context `{HA : ArrowLib} `{HG : PgCodecs}.

Abbreviation row := (list (cell num128 num256)).

(** The value [c] of a column whose builder has type [t]. *)
Definition col_presents (md : RelationMessageColumn) (t : DataType) (c : cell num128 num256) (td : TupleDataColumn) : Prop :=
  (td_DataType td = TupleDataTypeNull /\ c = CNull) \/
  ((td_DataType td = TupleDataTypeText \/ td_DataType td = TupleDataTypeBinary) /\
   exists n, decodeToArrow md (td_Data td) (tupleDataFormat (td_DataType td)) (new_builder t) = Ret (mkBuilder t [c], n, None)).

Inductive tuple_presents : list RelationMessageColumn -> list DataType -> row -> list TupleDataColumn -> Prop :=
| tp_nil : tuple_presents [] [] [] []
| tp_cons md cols t types c cs td tuple : col_presents md t c td -> tuple_presents cols types cs tuple ->
    tuple_presents (md :: cols) (t :: types) (c :: cs) (td :: tuple).

(** A key tuple: the key columns have their values, the others are null. *)
Inductive key_tuple_presents : list RelationMessageColumn -> list DataType -> row -> list TupleDataColumn -> Prop :=
| kp_nil : key_tuple_presents [] [] [] []
| kp_key md cols t types c cs td tuple : is_key md = true -> col_presents md t c td -> key_tuple_presents cols types cs tuple ->
    key_tuple_presents (md :: cols) (t :: types) (c :: cs) (td :: tuple)
| kp_other md cols t types cs td tuple : is_key md = false -> td_DataType td = TupleDataTypeNull -> key_tuple_presents cols types cs tuple ->
    key_tuple_presents (md :: cols) (t :: types) (CNull :: cs) (td :: tuple).

(** The key columns come first. *)
Definition keys_first (cols : list RelationMessageColumn) : Prop :=
  exists ks others, cols = ks ++ others /\ Forall (fun c => is_key c = true) ks /\ Forall (fun c => is_key c = false) others.

Lemma presents_length cols types cs tuple : tuple_presents cols types cs tuple -> length cs = length types.
Proof. induction 1; cbn; congruence. Qed.
Lemma key_presents_length cols types cs tuple : key_tuple_presents cols types cs tuple -> length cs = length types.
Proof. induction 1; cbn; congruence. Qed.

Lemma pg_push_types (cs : row) : forall fs : list builder, length cs = length fs -> map b_type (push cs fs) = map b_type fs.
Proof. induction cs as [|c cs IH]; intros [|f fs] E; try discriminate; [reflexivity|]. cbn. f_equal. apply IH. cbn in E. lia. Qed.

(** The column [md] of the loop, once its tuple column is found. *)
Lemma append_column (onlyKeys : bool) md t c td tuple cols i idx (b : builder) fields size k :
  col_presents md t c td -> b_type b = t -> tuple !! k = Some td -> k = (if onlyKeys then idx else i) ->
  onlyKeys && negb (is_key md) = false -> exists size',
  append_columns onlyKeys (md :: cols) i idx tuple (b :: fields) size =
  ('(fs, size, e) ← append_columns onlyKeys cols (S i) (if onlyKeys then S idx else idx) tuple fields size'; Ret (b_append c b :: fs, size, e)).
Proof.
  intros Hc Ht Hk -> Hkey. destruct b as [bt l]. cbn in Ht. subst bt. cbn [append_columns]. rewrite Hkey, Hk.
  destruct Hc as [[E ->]|[Ht (n & Hd)]].
  - rewrite E. cbn [Z.eqb TupleDataTypeNull Pos.eqb]. exists size. reflexivity.
  - assert (E : (td_DataType td =? TupleDataTypeNull) = false /\
      (td_DataType td =? TupleDataTypeText) || (td_DataType td =? TupleDataTypeBinary) = true) by (destruct Ht as [-> | ->]; split; reflexivity).
    destruct E as [-> ->]. rewrite (decode_elsewhere _ _ _ _ _ _ l Hd). cbn [mbind outcome_bind]. exists (size + n). reflexivity.
Qed.

Lemma append_columns_full cols types cs rest : tuple_presents cols types cs rest -> forall i idx pre fields size,
  length pre = i -> map b_type fields = types -> exists size',
  append_columns false cols i idx (pre ++ rest) fields size = Ret (push cs fields, size', None).
Proof.
  induction 1 as [|md cols t types c cs td tuple Hc Hp IH]; intros i idx pre fields size Hi Hf.
  - destruct fields; [|discriminate]. exists size. reflexivity.
  - destruct fields as [|b fields]; [discriminate|]. cbn in Hf. injection Hf as Hb Hf.
    destruct (append_column false md t c td (pre ++ td :: tuple) cols i idx b fields size i Hc Hb) as (size1 & E); auto.
    { apply list_lookup_middle. auto. }
    rewrite E. cbn iota. destruct (IH (S i) idx (pre ++ [td]) fields size1) as (size' & E'); [rewrite length_app; cbn; lia | exact Hf|].
    rewrite <- app_assoc in E'. cbn [app] in E'. rewrite E'. exists size'. reflexivity.
Qed.

(** Outside the key every builder gets a null, and the tuple is not looked at. *)
Lemma append_columns_others cols types cs rest : key_tuple_presents cols types cs rest ->
  Forall (fun c => is_key c = false) cols -> forall i idx tuple fields size, map b_type fields = types ->
  append_columns true cols i idx tuple fields size = Ret (push cs fields, size, None).
Proof.
  induction 1 as [|md cols t types c cs td rest Hk Hc Hp IH|md cols t types cs td rest Hk Hn Hp IH];
    intros Hall i idx tuple fields size Hf.
  - destruct fields; [reflexivity | discriminate].
  - inversion Hall; congruence.
  - inversion Hall as [|? ? _ Hall']; subst. destruct fields as [|b fields]; [discriminate|]. cbn in Hf. injection Hf as Hb Hf.
    cbn [append_columns]. rewrite Hk. cbn [negb andb]. rewrite (IH Hall' (S i) idx tuple fields size Hf). reflexivity.
Qed.

Lemma append_columns_keys cols types cs rest : key_tuple_presents cols types cs rest -> keys_first cols -> forall i pre fields size,
  length pre = i -> map b_type fields = types -> exists size',
  append_columns true cols i i (pre ++ rest) fields size = Ret (push cs fields, size', None).
Proof.
  induction 1 as [|md cols t types c cs td tuple Hk Hc Hp IH|md cols t types cs td tuple Hk Hn Hp _]; intros Hf i pre fields size Hi Ht.
  - destruct fields; [|discriminate]. exists size. reflexivity.
  - destruct Hf as (ks & others & Ec & Hks & Ho). destruct fields as [|b fields]; [discriminate|]. cbn in Ht. injection Ht as Hb Ht.
    destruct (append_column true md t c td (pre ++ td :: tuple) cols i i b fields size i Hc Hb) as (size1 & E); auto.
    { apply list_lookup_middle. auto. }
    { rewrite Hk. reflexivity. }
    rewrite E. cbn iota. destruct (IH) with (i := S i) (pre := pre ++ [td]) (fields := fields) (size := size1) as (size' & E').
    + destruct ks as [|k ks]; [destruct others; [discriminate|]; injection Ec as <- ->; inversion Ho; congruence|].
      injection Ec as <- ->. inversion Hks; subst. exists ks, others. auto.
    + rewrite length_app. cbn. lia.
    + exact Ht.
    + rewrite <- app_assoc in E'. cbn [app] in E'. rewrite E'. exists size'. reflexivity.
  - destruct Hf as (ks & others & Ec & Hks & Ho). destruct ks as [|k ks]; [|injection Ec as <- ->; inversion Hks; congruence].
    cbn [app] in Ec. subst others. exists size.
    apply (append_columns_others (md :: cols) (t :: types) (CNull :: cs) (td :: tuple)); [constructor; assumption | exact Ho | exact Ht].
Qed.
End Tuples.

(** ** The buffer of a table *)
Section Slot.
Context `{HA : ArrowLib} `{HG : PgCodecs} `{HQ : !EqDecision (cell num128 num256)}.
Context (schema : list Column) (types : list DataType).

Abbreviation row := (list (cell num128 num256)).
Abbreviation key := (key schema).
Abbreviation dkey := (dkey schema).

(** The delta rows of logical replication are those of a source without a server
    id, numbered by LSN. *)
Definition pg_gtid (lsn : Z) : option GTID := Some (Mysql56GTID [] lsn).
Definition pg_rows (action : RowEventType) (lsn stmt : Z) (css : list row) : list row := new_rows CNull action (pg_gtid lsn) stmt css.
Definition pg_stamp (lsn stmt : Z) : row := stamp CNull (pg_gtid lsn) stmt.

Lemma pg_header_eq action lsn stmt : pg_header action (u64 lsn) stmt = header_cells CNull action (pg_gtid lsn) stmt.
Proof. reflexivity. Qed.

Lemma pg_stamp_lt l1 m1 l2 m2 : 0 <= l1 < 2 ^ 64 -> 0 <= l2 < 2 ^ 64 -> l1 < l2 \/ (l1 = l2 /\ m1 < m2) ->
  cells_cmp (pg_stamp l1 m1) (pg_stamp l2 m2) = Lt.
Proof.
  intros H1 H2 Hlt. apply (stamp_lt_mysql CNull [] []). unfold u64. rewrite !Z.mod_small by assumption. exact Hlt.
Qed.

(** [B] bounds the stamps of the rows. *)
Record pg_slot (B : row -> Prop) (a : DeltaAppender) (tbl : list row) : Prop := mkPgSlot {
  ps_appender : appender_ok schema a;
  ps_types : map b_type (a_fields a) = types;
  ps_counters : counters_ok a;
  ps_actions : actions_ok (delta_rows a);
  ps_ordered : ordered schema (delta_rows a);
  ps_stamps : Forall (fun d => B (stamp_of d)) (delta_rows a);
  ps_keys : Forall (fun d => no_null (dkey d)) (delta_rows a);
  ps_source : event_delete (a_counters a) = 0 -> event_update (a_counters a) = 0 -> source_valid schema (delta_rows a) tbl
}.

Lemma pg_slot_delta B a tbl : pg_slot B a tbl -> delta_ok schema a tbl.
Proof. intros []. split; auto. Qed.

Lemma pg_slot_empty B a tbl : appender_ok schema a -> map b_type (a_fields a) = types -> counters_ok a -> delta_rows a = [] -> pg_slot B a tbl.
Proof.
  intros Ha Ht Hc Hr. split; rewrite ?Hr; try assumption; try constructor. intros k j d1 d2 _ Hd _. destruct k; discriminate.
Qed.

Lemma pg_slot_weaken (B B' : row -> Prop) a tbl : (forall st, B st -> B' st) -> pg_slot B a tbl -> pg_slot B' a tbl.
Proof. intros Hb [Ha Ht Hc Hact Ho He Hk Hs]. split; auto. eapply Forall_impl; [exact He|]. intros d. apply Hb. Qed.

Lemma flushed_empty a : appender_ok schema a -> delta_rows (flushed a) = [].
Proof.
  intros Ha. unfold flushed. destruct (Nat.ltb_spec 0 (RowCount a)) as [Hn|Hn]; [exact (delta_rows_emptied a)|].
  apply (empty_delta (fun _ : unit => schema) tt); [exact Ha | lia].
Qed.

Lemma pg_slot_flushed B B' a tbl tbl' : pg_slot B a tbl -> pg_slot B' (flushed a) tbl'.
Proof.
  intros [Ha Ht Hc _ _ _ _ _]. pose proof (flushed_empty a Ha) as Hr. unfold flushed in *. destruct (0 <? RowCount a)%nat.
  - pose proof (appender_ok_emptied _ _ Ha) as [Hs Hw Hrect]. apply pg_slot_empty; [split; assumption | | | exact Hr].
    + cbn. rewrite map_map. exact Ht.
    + split; cbn; try lia; intros; change (delta_rows (ResetCounters (emptied a))) with (delta_rows (emptied a));
        rewrite delta_rows_emptied; constructor.
  - apply pg_slot_empty; auto.
Qed.

(** ** One more row *)
Lemma push_row a cs : appender_ok schema a -> length cs = (6 + length schema)%nat ->
  appender_ok schema (set_fields (push cs (a_fields a)) a) /\ delta_rows (set_fields (push cs (a_fields a)) a) = delta_rows a ++ [cs].
Proof.
  intros Ha Hl. apply appender_fields in Ha. destruct Ha as [Hs Hf].
  destruct (push_ok schema _ cs (a_fields a) Hf Hl) as [Hf' Hr]. split; [|exact Hr].
  apply appender_fields. split; [exact Hs|]. cbn [a_fields set_fields].
  rewrite (fields_ok_RowCount schema _ (set_fields (push cs (a_fields a)) a) Hf'). exact Hf'.
Qed.

(** What a message changes: the images that go and come. *)
Inductive kind_ok : RowEventType -> list row -> list row -> Prop :=
| kind_insert r : kind_ok InsertRowEvent [] [r]
| kind_delete r : kind_ok DeleteRowEvent [r] []
| kind_update r : kind_ok UpdateRowEvent [] [r]
| kind_move r r' : kind_ok UpdateRowEvent [r] [r'].

Definition pg_counters (event : RowEventType) (ds : list row) (c : Counters) : Counters :=
  match event with
  | InsertRowEvent => ObserveEvents InsertRowEvent 1 (UpdateActionStats InsertRowEvent 1 c)
  | DeleteRowEvent => ObserveEvents DeleteRowEvent 1 (UpdateActionStats DeleteRowEvent 1 c)
  | UpdateRowEvent =>
      let c := ObserveEvents UpdateRowEvent 1 (match ds with [] => c | _ => UpdateActionStats DeleteRowEvent 1 c end) in
      ObserveEvents UpdateRowEvent 1 (UpdateActionStats InsertRowEvent 1 c)
  end.

Lemma pg_counters_ok event lsn stmt ds ins a a' : kind_ok event ds ins -> counters_ok a ->
  delta_rows a' = delta_rows a ++ pg_rows DeleteRowEvent lsn stmt ds ++ pg_rows InsertRowEvent lsn stmt ins ->
  a_counters a' = pg_counters event ds (a_counters a) -> counters_ok a'.
Proof.
  intros Hk [(Hd & Hi & Hu & Hz) Hins Hdel Hzero] Hr Hc.
  pose proof (new_inserts CNull (pg_gtid lsn) stmt ins) as Hni. pose proof (new_deletes CNull (pg_gtid lsn) stmt ds) as Hnd.
  unfold pg_rows in Hr. destruct Hk; cbn [pg_counters] in Hc; split; rewrite Hc, ?Hr; cbn; try lia; intros; try (exfalso; lia);
    repeat apply Forall_app_2; auto; try (apply Hins; lia); try (apply Hdel; lia); try (apply Hzero; lia); try constructor; try constructor;
    try (inversion Hni; assumption); try (inversion Hnd; assumption).
Qed.

(** What the publisher guarantees of a change on [tbl]: keys without NULL, and an
    insert, or an update that reports the old key, comes on a free key. *)
Definition change_valid (event : RowEventType) (ds ins tbl : list row) : Prop :=
  Forall (fun r => no_null (key r)) (ds ++ ins) /\
  (event = InsertRowEvent -> forall r, r ∈ ins -> key r ∉ map key tbl).

Lemma kind_keys event ds ins : kind_ok event ds ins -> NoDup (map key ds) /\ NoDup (map key ins).
Proof. destruct 1; cbn; split; repeat constructor; intros Hin; inversion Hin. Qed.

Lemma pg_rows_ordered lsn stmt ds ins event : kind_ok event ds ins ->
  ordered schema (pg_rows DeleteRowEvent lsn stmt ds ++ pg_rows InsertRowEvent lsn stmt ins).
Proof. intros Hk. destruct (kind_keys _ _ _ Hk). apply new_rows_ordered; assumption. Qed.

Lemma pg_rows_stamp action lsn stmt css : Forall (fun d => stamp_of d = pg_stamp lsn stmt) (pg_rows action lsn stmt css).
Proof. apply Forall_forall. intros d Hd. eapply new_rows_elem, Hd. Qed.

Lemma pg_event_slot (B B' : row -> Prop) a a' tbl X event lsn stmt ds ins : pg_slot B a tbl -> kind_ok event ds ins ->
  appender_ok schema a' -> map b_type (a_fields a') = types ->
  delta_rows a' = delta_rows a ++ pg_rows DeleteRowEvent lsn stmt ds ++ pg_rows InsertRowEvent lsn stmt ins ->
  a_counters a' = pg_counters event ds (a_counters a) ->
  (forall st, B st -> cells_cmp st (pg_stamp lsn stmt) = Lt) -> (forall st, B st -> B' st) -> B' (pg_stamp lsn stmt) ->
  same_rows (apply_delta schema (delta_rows a) tbl) X -> change_valid event ds ins X ->
  pg_slot B' a' tbl /\ same_rows (apply_delta schema (delta_rows a') tbl) (put_images schema ds ins X).
Proof.
  intros [_ _ Hc Hact Ho Hst Hk Hs] Hkind Ha' Ht' Hr Hc' Hlt HB Hnew HX [Hnn Hfree].
  apply Forall_app in Hnn. destruct Hnn as [Hnd Hni]. split; [split; auto|].
  - eapply pg_counters_ok; eauto.
  - rewrite Hr. apply Forall_app_2; [exact Hact|]. apply Forall_app_2.
    + eapply Forall_impl; [apply new_deletes|]. auto.
    + eapply Forall_impl; [apply new_inserts|]. auto.
  - rewrite Hr. apply ordered_app; [exact Ho | eapply pg_rows_ordered, Hkind |].
    intros d1 d2 Hd1 Hd2 _. apply stamp_before. rewrite Forall_forall in Hst.
    assert (Hs2 : stamp_of d2 = pg_stamp lsn stmt).
    { apply elem_of_app in Hd2. destruct Hd2 as [Hd2|Hd2]; eapply new_rows_elem, Hd2. }
    rewrite Hs2. apply Hlt, Hst, Hd1.
  - rewrite Hr. apply Forall_app_2; [eapply Forall_impl; [exact Hst|]; intros d; apply HB|].
    apply Forall_app_2; (eapply Forall_impl; [apply pg_rows_stamp|]; intros d Hd; cbn in Hd; rewrite Hd; exact Hnew).
  - rewrite Hr. apply Forall_app_2; [exact Hk|]. apply Forall_app_2; apply images_no_null; assumption.
  - rewrite Hc', Hr. intros Hed Heu. destruct Hc as [(Hcd & _ & Hcu & _) _ _ _].
    destruct Hkind; cbn in Hed, Heu; try (exfalso; lia). apply source_valid_app.
    split; [apply Hs; lia|]. cbn [app]. eapply source_valid_same; [symmetry; exact HX|].
    apply source_valid_inserts; [cbn; repeat constructor; intros Hin; inversion Hin | exact (Hfree eq_refl)].
  - rewrite Hr, apply_delta_app. unfold pg_rows. rewrite <- (apply_event CNull schema (pg_gtid lsn) stmt). apply apply_delta_proper, HX.
Qed.
End Slot.
