(* ===== verification/LogreplReplay.v ===== *)
(** * Replaying a PostgreSQL publication

    The specification is a history of transactions, each with the LSN of its
    commit and a list of row changes.  [PgLaws] is what the replicator relies on
    of the session and the database; the steps of this file show that every
    message of such a history is processed without an error, that the tables
    with what is buffered are the publisher's, and that what is durable is the
    state after a prefix of the history with the LSN of that prefix. *)

From S2P Require Import Prelude GoTime Charset Schema Identifier InternalTables Delta DeltaSpec DeltaRefine DeltaFlush.
From S2P Require Import RowAppend RowDecode ReplaySpec PgDecode Session Logrepl LogreplRows.

#[local] Open Scope Z_scope.

Section Laws.
Context `{HA : ArrowLib} `{HG : PgCodecs} `{HQ : !EqDecision (cell num128 num256)} `{HD : !DuckDB} `{HS : !Session} `{HP : PgLogRepl}.
Context (viewHash : string -> string) (env subscription : string).
Context {T : Type} (tab : T -> tableIdentifier) (schema_of : T -> list Column) (rel_of : T -> RelationMessage) (indexed : bool).
Context `{HF : !FlushLaws viewHash tab schema_of indexed}.

Abbreviation rows_in := (rows_in viewHash tab schema_of indexed).

(** What the session and the database promise.  [stored] is the position of the
    subscription as the open transaction sees it, [active] whether a transaction
    handle can still be committed, [idle] whether the session's connection has no
    transaction under way. *)
Class PgLaws : Type := {
  stored : db -> string;
  durable_rows : T -> db -> list (list (cell num128 num256));
  durable_lsn : db -> string;
  active : Tx -> db -> bool;
  idle : db -> bool;
  (* nothing that the replicator can see has changed *)
  same_world (d d' : db) : Prop :=
    (forall i, rows_in i d' = rows_in i d) /\ stored d' = stored d /\ (forall i, durable_rows i d' = durable_rows i d) /\
    durable_lsn d' = durable_lsn d /\ TryGetTxn d' = TryGetTxn d /\ (forall tx, active tx d' = active tx d) /\ idle d' = idle d;
  p_conn : forall d, exists d', GetCatalogConn d = Some d' /\ same_world d d';
  p_begin : forall d, TryGetTxn d = None -> idle d = true -> exists d' tx, GetCatalogTxn d = Some (d', tx) /\ TryGetTxn d' = Some tx /\ active tx d' = true /\
    (forall i, rows_in i d' = rows_in i d) /\ (forall i, durable_rows i d' = durable_rows i d) /\ durable_lsn d' = durable_lsn d;
  p_current : forall d tx, TryGetTxn d = Some tx -> GetCatalogTxn d = Some (d, tx);
  p_save : forall lsn sql d tx, UpdateStmt PgSubscription keyColumns lsnValueColumns = Ret sql -> active tx d = true ->
    exists d', TxExec tx sql [ArgString lsn; ArgString subscription] d = (d', true) /\ (forall i, rows_in i d' = rows_in i d) /\
    stored d' = lsn /\ (forall i, durable_rows i d' = durable_rows i d) /\ durable_lsn d' = durable_lsn d /\
    TryGetTxn d' = TryGetTxn d /\ active tx d' = true;
  p_commit : forall d tx, active tx d = true -> exists d', TxCommit tx d = (d', true) /\ (forall i, rows_in i d' = rows_in i d) /\
    (forall i, durable_rows i d' = rows_in i d) /\ durable_lsn d' = stored d /\ active tx d' = false /\ idle d' = true;
  p_close : forall d, (forall i, rows_in i (CloseTxn d) = rows_in i d) /\ (forall i, durable_rows i (CloseTxn d) = durable_rows i d) /\
    durable_lsn (CloseTxn d) = durable_lsn d /\ TryGetTxn (CloseTxn d) = None /\ (forall tx, active tx (CloseTxn d) = active tx d) /\ idle (CloseTxn d) = idle d;
  p_rollback_done : forall d tx, active tx d = false -> exists d' r, TxRollback tx d = (d', r) /\ same_world d d';
  p_rollback : forall d tx, active tx d = true -> exists d' r, TxRollback tx d = (d', r) /\ r <> RollbackErr /\
    (forall i, rows_in i d' = durable_rows i d) /\ (forall i, durable_rows i d' = durable_rows i d) /\ durable_lsn d' = durable_lsn d /\ idle d' = true;
  p_query : forall sql d, SelectColumnsStmt PgSubscription lsnValueColumns = Ret sql -> TryGetTxn d = None -> idle d = true ->
    exists d', QueryRowCatalog sql [ArgString subscription] d = Ret (d', RowString (durable_lsn d)) /\ same_world d d';
  p_lsn : forall l, 0 <= l < 2 ^ 64 -> ParseLSN (LSN_String l) = Some l;
  p_use : forall d, exists d', ExecCatalog "USE public" [] d = (d', true) /\ same_world d d';
  p_create : forall i d, exists d', ExecCatalog (generateCreateTableStmt env (rel_of i)) [] d = (d', true) /\ same_world d d';
  p_flush_rows : forall i j, untouched viewHash (durable_rows j) (tab i) (delta_schema (schema_of i));
  p_flush_lsn : forall i, untouched viewHash durable_lsn (tab i) (delta_schema (schema_of i));
  p_flush_txn : forall i, untouched viewHash TryGetTxn (tab i) (delta_schema (schema_of i));
  p_flush_active : forall i tx, untouched viewHash (active tx) (tab i) (delta_schema (schema_of i))
}.
End Laws.

Section Replay.
Context `{HA : ArrowLib} `{HG : PgCodecs} `{HQ : !EqDecision (cell num128 num256)} `{HD : !DuckDB} `{HS : !Session} `{HP : PgLogRepl}.
Context (viewHash : string -> string) (env subscription : string).
Context {T : Type} `{!EqDecision T} (tab : T -> tableIdentifier) `{!Inj (=) (=) tab} (schema_of : T -> list Column)
  (rel_of : T -> RelationMessage) (indexed : bool).
Context `{HF : !FlushLaws viewHash tab schema_of indexed} `{HL : !PgLaws viewHash env subscription tab schema_of rel_of indexed}.

Abbreviation row := (list (cell num128 num256)).
Abbreviation slots := (@buffered HA T).
Abbreviation rows_in := (rows_in viewHash tab schema_of indexed).
Abbreviation durable_rows := (durable_rows viewHash env subscription tab schema_of rel_of indexed).
Abbreviation durable_lsn := (durable_lsn viewHash env subscription tab schema_of rel_of indexed).
Abbreviation active := (active viewHash env subscription tab schema_of rel_of indexed).
Abbreviation idle := (idle viewHash env subscription tab schema_of rel_of indexed).
Abbreviation same_world := (same_world viewHash env subscription tab schema_of rel_of indexed).
Abbreviation law_conn := (p_conn viewHash env subscription tab schema_of rel_of indexed).
Abbreviation law_begin := (p_begin viewHash env subscription tab schema_of rel_of indexed).
Abbreviation law_current := (p_current viewHash env subscription tab schema_of rel_of indexed).
Abbreviation law_save := (p_save viewHash env subscription tab schema_of rel_of indexed).
Abbreviation law_commit := (p_commit viewHash env subscription tab schema_of rel_of indexed).
Abbreviation law_close := (p_close viewHash env subscription tab schema_of rel_of indexed).
Abbreviation law_rollback_done := (p_rollback_done viewHash env subscription tab schema_of rel_of indexed).
Abbreviation law_rollback := (p_rollback viewHash env subscription tab schema_of rel_of indexed).
Abbreviation law_query := (p_query viewHash env subscription tab schema_of rel_of indexed).
Abbreviation law_lsn := (p_lsn viewHash env subscription tab schema_of rel_of indexed).
Abbreviation law_use := (p_use viewHash env subscription tab schema_of rel_of indexed).
Abbreviation law_create := (p_create viewHash env subscription tab schema_of rel_of indexed).
Abbreviation law_flush_rows := (p_flush_rows viewHash env subscription tab schema_of rel_of indexed).
Abbreviation law_flush_lsn := (p_flush_lsn viewHash env subscription tab schema_of rel_of indexed).
Abbreviation law_flush_txn := (p_flush_txn viewHash env subscription tab schema_of rel_of indexed).
Abbreviation law_flush_active := (p_flush_active viewHash env subscription tab schema_of rel_of indexed).
Abbreviation flushDeltaBuffer := (flushDeltaBuffer viewHash env).
Abbreviation commitOngoingTxn := (commitOngoingTxn viewHash env subscription).

(** ** The tables *)
Definition types_of (i : T) : list DataType :=
  match ToArrowSchema (map col_type (delta_schema (schema_of i))) [1; 2; 3]%nat with Ret l => l | Panic => [] end.
Definition fresh (i : T) : DeltaAppender := fresh_appender (schema_of i) (types_of i).
Definition id_of (i : T) : Z := RelationID (rel_of i).

(** The relation message of a table gives its schema, which has a key. *)
Record table_ok (i : T) : Prop := mkTableOk {
  tb_name : mkTableId (Namespace (rel_of i)) (RelationName (rel_of i)) = tab i;
  tb_schema : relation_schema (rel_Columns (rel_of i)) = inl (schema_of i);
  tb_types : ToArrowSchema (map col_type (delta_schema (schema_of i))) [1; 2; 3]%nat = Ret (types_of i);
  tb_width : length (types_of i) = length (delta_schema (schema_of i));
  tb_pk : List.filter col_pk (schema_of i) <> []
}.

Context (Htables : forall i, table_ok i) (Hids : forall i j, id_of i = id_of j -> i = j).
Context (Hindexed : indexed = negb (IsReplicationWithoutIndex env)).

Abbreviation pg_slot := (fun i => pg_slot (schema_of i) (types_of i)).

(** ** The state of the replica against the publisher *)
Definition pending_rows (i : T) (ts : slots) : list row := match find_slot i ts with Some a => delta_rows a | None => [] end.
Definition current (i : T) (ts : slots) : DeltaAppender := default (fresh i) (find_slot i ts).

Record tracks_with (src : T -> list row) (B : row -> Prop) (ts : slots) (s : replicationState) : Prop := mkTracks {
  t_tables : tables s = tables_of tab ts;
  t_nodup : NoDup (map fst ts);
  t_slots : forall i a, (i, a) ∈ ts -> pg_slot i B a (rows_in i (world s));
  t_unique : forall i, unique_keys (schema_of i) (rows_in i (world s));
  t_view : forall i, same_rows (apply_delta (schema_of i) (pending_rows i ts) (rows_in i (world s))) (src i);
  t_relations : forall id rel, relations s !! id = Some rel -> exists i, id = id_of i /\ rel = rel_of i /\ schemas s !! id = Some (schema_of i)
}.
Definition tracks (src : T -> list row) (B : row -> Prop) (s : replicationState) : Prop := exists ts, tracks_with src B ts s.

Lemma pg_tracks_ext src B s s' : tables s' = tables s -> relations s' = relations s -> schemas s' = schemas s ->
  (forall i, rows_in i (world s') = rows_in i (world s)) -> tracks src B s -> tracks src B s'.
Proof.
  intros E1 E2 E3 Ew [ts [Ht Hn Hs Hu Hv Hr]]. exists ts. split; rewrite ?E1, ?E2, ?E3; auto; intros; rewrite ?Ew; auto.
Qed.

Lemma tracks_weaken src (B B' : row -> Prop) s : (forall st, B st -> B' st) -> tracks src B s -> tracks src B' s.
Proof.
  intros HB [ts [Ht Hn Hs Hu Hv Hr]]. exists ts. split; auto. intros i a Hi. eapply pg_slot_weaken; [exact HB | apply Hs, Hi].
Qed.

Lemma pg_tracks_flushable src B ts s : tracks_with src B ts s -> flushable viewHash tab schema_of indexed ts (world s).
Proof. intros [] i a Hi. split; [apply tb_pk, Htables|]. split; [apply t_unique0|]. eapply pg_slot_delta, t_slots0, Hi. Qed.

Lemma pg_tracks_schema src B ts s : tracks_with src B ts s -> forall i a, (i, a) ∈ ts -> Schema a = delta_schema (schema_of i).
Proof. intros [] i a Hi. apply (ok_schema _ _ (ps_appender _ _ _ _ _ (t_slots0 i a Hi))). Qed.

Lemma same_world_trans d1 d2 d3 : same_world d1 d2 -> same_world d2 d3 -> same_world d1 d3.
Proof.
  intros (A1 & A2 & A3 & A4 & A5 & A6 & A7) (B1 & B2 & B3 & B4 & B5 & B6 & B7).
  split; [intros j; rewrite B1; apply A1|]. split; [congruence|]. split; [intros j; rewrite B3; apply A3|]. split; [congruence|].
  split; [congruence|]. split; [intros tx; rewrite B6; apply A6 | congruence].
Qed.

(** ** Flush and commit *)
Definition flushed_slots (ts : slots) : slots := map (fun p => (p.1, flushed p.2)) ts.

Lemma flush_ok reason src B ts s : tracks_with src B ts s -> reason <> DDLStmtFlushReason ->
  exists w, flushDeltaBuffer true reason s = Ret (set_deltaBufSize 0 (set_tables (tables_of tab (flushed_slots ts)) (set_world w s)), None) /\
    (forall i, same_rows (rows_in i w) (src i) /\ unique_keys (schema_of i) (rows_in i w)) /\
    (forall i, durable_rows i w = durable_rows i (world s)) /\ durable_lsn w = durable_lsn (world s) /\
    TryGetTxn w = TryGetTxn (world s) /\ forall tx, active tx w = active tx (world s).
Proof.
  intros Ht Hr. pose proof (pg_tracks_schema _ _ _ _ Ht) as Hsch. pose proof (pg_tracks_flushable _ _ _ _ Ht) as Hfl.
  destruct Ht as [Htb Hn _ Hu Hv _]. unfold Logrepl.flushDeltaBuffer. rewrite Htb.
  destruct (Flush_writes viewHash tab schema_of indexed env reason Hindexed ts zeroStats (world s) (NoDup_tabs tab ts Hn) Hfl)
    as (w & st & Ef & Hall & Hother).
  rewrite Ef. rewrite decide_False by exact Hr. cbn [mbind outcome_bind]. exists w.
  split; [unfold ok; do 4 f_equal; unfold tables_of, flushed_slots; rewrite map_map; reflexivity|]. split.
  - intros i. specialize (Hv i). unfold pending_rows in Hv. destruct (find_slot i ts) as [a|] eqn:Ei.
    + apply (find_elem ts Hn) in Ei. destruct (Hall i a Ei) as [H1 H2]. split; [etransitivity; [exact H1 | exact Hv] | exact H2].
    + rewrite (Hother i); [split; [exact Hv | apply Hu]|]. intros Hin. apply elem_of_map in Hin. destruct Hin as ([j a] & E & Hj).
      apply (inj tab) in E. cbn in E. subst j. apply (find_elem ts Hn) in Hj. congruence.
  - pose proof (fun X (f : db -> X) Hf => Flush_frame viewHash tab schema_of env f reason ts Hf Hsch _ _ _ _ _ _ Ef) as Hframe.
    split; [intros i; apply Hframe; intros; apply law_flush_rows|]. split; [apply Hframe; intros; apply law_flush_lsn|].
    split; [apply Hframe; intros; apply law_flush_txn | intros tx; apply Hframe; intros; apply law_flush_active].
Qed.

(** A table whose rows are the publisher's, with an empty buffer. *)
Lemma tracks_flushed src B B' ts s s' : tracks_with src B ts s ->
  tables s' = tables_of tab (flushed_slots ts) -> relations s' = relations s -> schemas s' = schemas s ->
  (forall i, same_rows (rows_in i (world s')) (src i) /\ unique_keys (schema_of i) (rows_in i (world s'))) -> tracks src B' s'.
Proof.
  intros [_ Hn Hs _ _ Hr] Htb Er Es Hrows. exists (flushed_slots ts). split.
  - exact Htb.
  - unfold flushed_slots. rewrite map_map. exact Hn.
  - intros i a Hi. apply elem_of_map in Hi. destruct Hi as ([j b] & E & Hj). cbn in E. injection E as -> ->. eapply pg_slot_flushed, Hs, Hj.
  - intros i. apply Hrows.
  - intros i. unfold pending_rows, flushed_slots. rewrite (find_map flushed). destruct (find_slot i ts) as [a|] eqn:Ef; cbn.
    + apply (find_elem ts Hn) in Ef. rewrite (flushed_empty (schema_of i)) by (eapply ps_appender, Hs, Ef). apply Hrows.
    + apply Hrows.
  - intros id rel. rewrite Er, Es. apply Hr.
Qed.

(** What a restart finds. *)
Definition saved (src : T -> list row) (lsn : Z) (d : db) : Prop :=
  (forall i, same_rows (durable_rows i d) (src i) /\ unique_keys (schema_of i) (durable_rows i d)) /\ durable_lsn d = LSN_String lsn.

(** The session has an open transaction exactly during a batch; without one
    everything the session sees is durable. *)
Definition session_ok (s : replicationState) : Prop :=
  match TryGetTxn (world s) with
  | Some tx => ongoingBatchTxn s = true /\ active tx (world s) = true
  | None => ongoingBatchTxn s = false /\ (forall i, rows_in i (world s) = durable_rows i (world s)) /\ idle (world s) = true
  end.

(** What a commit leaves alone. *)
Definition reading (s : replicationState) : bool * bool * Z * Z * gmap Z RelationMessage * gmap Z (list Column) :=
  (inStream s, processMessages s, currentTransactionLSN s, lastCommitLSN s, relations s, schemas s).

Lemma reading_inv s s' : reading s' = reading s -> inStream s' = inStream s /\ processMessages s' = processMessages s /\
  currentTransactionLSN s' = currentTransactionLSN s /\ lastCommitLSN s' = lastCommitLSN s /\ relations s' = relations s /\ schemas s' = schemas s.
Proof. unfold reading. intros E. injection E. tauto. Qed.

Lemma commit_none now reason s : TryGetTxn (world s) = None -> session_ok s ->
  exists w, commitOngoingTxn now reason s = Ret (set_world w s, None) /\ same_world (world s) w /\ session_ok (set_world w s).
Proof.
  intros Hn Hs. unfold Logrepl.commitOngoingTxn. destruct (law_conn (world s)) as (w & -> & Hw).
  pose proof Hw as (Hr & _ & Hd & _ & Ht & _ & Hid). cbn [world set_world]. rewrite Ht, Hn. exists w. split; [reflexivity|]. split; [exact Hw|].
  unfold session_ok in *. cbn [world set_world ongoingBatchTxn]. rewrite Ht, Hn in *. destruct Hs as (Ho & Hv & Hi). split; [exact Ho|].
  split; [intros i; rewrite Hr, Hd; apply Hv | congruence].
Qed.

Lemma commit_open now reason src B B' s tx : tracks src B s -> reason <> DDLStmtFlushReason ->
  TryGetTxn (world s) = Some tx -> session_ok s -> exists s',
  commitOngoingTxn now reason s = Ret (s', None) /\ tracks src B' s' /\ session_ok s' /\ saved src (lastCommitLSN s) (world s') /\
  lastWrittenLSN s' = lastCommitLSN s /\ dirtyTxn s' = false /\ dirtyStream s' = false /\ inTxnStmtID s' = 0 /\ ongoingBatchTxn s' = false /\
  reading s' = reading s.
Proof.
  intros [ts Ht] Hr Htx Hs. unfold Logrepl.commitOngoingTxn.
  destruct (law_conn (world s)) as (w0 & -> & Hw0).
  destruct Hw0 as (Hr0 & _ & Hd0 & Hl0 & Ht0 & Ha0 & _). cbn [world set_world]. rewrite Ht0, Htx.
  assert (Hact : active tx w0 = true) by (rewrite Ha0; unfold session_ok in Hs; rewrite Htx in Hs; apply Hs).
  assert (Htk : tracks_with src B ts (set_world w0 s)).
  { destruct Ht as [Htb Hn Hsl Hu Hv Hrl]. split; cbn; auto; intros; rewrite ?Hr0; auto. }
  unfold commit_body. destruct (flush_ok reason src B ts _ Htk Hr) as (w1 & Ef & Hrows1 & Hd1 & Hl1 & Ht1 & Ha1).
  unfold Logrepl.flushDeltaBuffer in Ef |- *. rewrite Ef. unfold andThen. cbn [mbind outcome_bind].
  cbn [world set_world set_tables set_deltaBufSize lastCommitLSN] in *.
  unfold UpdateSubscriptionLsn. destruct (UpdateStmt PgSubscription keyColumns lsnValueColumns) as [sql|] eqn:Es; [|discriminate].
  cbn [mbind outcome_bind]. unfold ExecCatalogInTxn.
  rewrite (law_current w1 tx) by congruence.
  destruct (law_save (LSN_String (lastCommitLSN s)) sql w1 tx Es) as
    (w2 & -> & Hr2 & Hst2 & Hd2 & Hl2 & Ht2 & Ha2); [congruence|].
  cbn [negb]. cbn [world set_world].
  destruct (law_commit w2 tx Ha2) as (w3 & -> & Hr3 & Hd3 & Hl3 & Ha3 & Hi3).
  unfold ok. cbn [mbind outcome_bind].
  destruct (law_close w3) as (Hr4 & Hd4 & Hl4 & Ht4 & Ha4 & Hi4).
  change (world (committed now (set_world w3 ?x))) with w3.
  destruct (law_rollback_done (CloseTxn w3) tx) as (w5 & r & -> & Hw5); [rewrite Ha4; exact Ha3|].
  destruct Hw5 as (Hr5 & _ & Hd5 & Hl5 & Ht5 & _ & Hi5). cbn [fst].
  eexists. split; [reflexivity|].
  assert (Hrows : forall i, rows_in i w5 = rows_in i w1) by (intros i; rewrite Hr5, Hr4, Hr3, Hr2; reflexivity).
  assert (Hdur : forall i, durable_rows i w5 = rows_in i w1) by (intros i; rewrite Hd5, Hd4, Hd3, Hr2; reflexivity).
  split; [|split; [|split; [|repeat split]]].
  - eapply (tracks_flushed src B); [exact Ht | reflexivity | reflexivity | reflexivity|]. cbn. intros i. rewrite Hrows. apply Hrows1.
  - unfold session_ok. cbn. rewrite Ht5, Ht4. split; [reflexivity|]. split; [intros i; rewrite Hrows, Hdur; reflexivity | congruence].
  - split; [intros i; cbn; rewrite Hdur; apply Hrows1 | cbn; congruence].
Qed.

(** ** Changes *)

(** A row change as the publisher logs it.  The old image of an update is there
    when the key changes or the replica identity is full; [true] marks a key tuple. *)
Inductive Change : Type :=
| Insert (i : T) (tuple : list TupleDataColumn) (r : row)
| Update (i : T) (old : option (bool * list TupleDataColumn * row)) (tuple : list TupleDataColumn) (r : row)
| Delete (i : T) (onlyKeys : bool) (tuple : list TupleDataColumn) (r : row).

Definition table_of (c : Change) : T := match c with Insert i _ _ | Update i _ _ _ | Delete i _ _ _ => i end.
Definition event_of (c : Change) : RowEventType :=
  match c with Insert _ _ _ => InsertRowEvent | Update _ _ _ _ => UpdateRowEvent | Delete _ _ _ _ => DeleteRowEvent end.
Definition before_of (c : Change) : list row :=
  match c with Insert _ _ _ => [] | Update _ old _ _ => match old with Some (_, _, r) => [r] | None => [] end | Delete _ _ _ r => [r] end.
Definition after_of (c : Change) : list row := match c with Insert _ _ r | Update _ _ _ r => [r] | Delete _ _ _ _ => [] end.

Definition old_type (onlyKeys : bool) : OldTupleType := if onlyKeys then TupleTypeKey else TupleTypeOld.
Definition message_of (c : Change) : Message :=
  match c with
  | Insert i tuple _ => InsertMessageV2 (id_of i) tuple
  | Update i None tuple _ => UpdateMessageV2 (id_of i) TupleTypeNone [] tuple
  | Update i (Some (k, old, _)) tuple _ => UpdateMessageV2 (id_of i) (old_type k) old tuple
  | Delete i k tuple _ => DeleteMessageV2 (id_of i) (old_type k) tuple
  end.

(** [tuple] presents the row [cs] of table [i]; a key tuple is only understood
    when the key columns come first. *)
Definition presents_row (i : T) (onlyKeys : bool) (tuple : list TupleDataColumn) (cs : row) : Prop :=
  let cols := rel_Columns (rel_of i) in
  let types := drop 6 (types_of i) in
  if onlyKeys then keys_first cols /\ key_tuple_presents cols types cs tuple else tuple_presents cols types cs tuple.

Definition presents_change (c : Change) : Prop :=
  match c with
  | Insert i tuple r => presents_row i false tuple r
  | Update i old tuple r => presents_row i false tuple r /\ match old with Some (k, tuple', r') => presents_row i k tuple' r' | None => True end
  | Delete i k tuple r => presents_row i k tuple r
  end.

Lemma change_kind c : kind_ok (event_of c) (before_of c) (after_of c).
Proof. destruct c as [| i [[[] ]|] |]; constructor. Qed.

(** ** One append *)
Definition appended (action event : RowEventType) (lsn stmt : Z) (cs : row) (a : DeltaAppender) : DeltaAppender :=
  set_counters (ObserveEvents event 1) (set_counters (UpdateActionStats action 1)
    (set_fields (push (pg_header action (u64 lsn) stmt ++ cs) (a_fields a)) a)).

Record usable (i : T) (a : DeltaAppender) : Prop := mkUsable {
  us_ok : appender_ok (schema_of i) a;
  us_types : map b_type (a_fields a) = types_of i
}.

Lemma length_header_pg action lsn stmt : length (pg_header action lsn stmt) = 6%nat.
Proof. reflexivity. Qed.

Lemma presents_length_row i k tuple cs : presents_row i k tuple cs -> length cs = length (drop 6 (types_of i)).
Proof.
  unfold presents_row. destruct k; [intros [_ Hp]; eapply key_presents_length, Hp | intros Hp; eapply presents_length, Hp].
Qed.

Lemma schema_width i : length (types_of i) = (6 + length (schema_of i))%nat.
Proof. rewrite (tb_width _ (Htables i)). reflexivity. Qed.

Lemma appended_usable i action event lsn stmt cs a : usable i a -> length cs = length (drop 6 (types_of i)) ->
  usable i (appended action event lsn stmt cs a) /\
  delta_rows (appended action event lsn stmt cs a) = delta_rows a ++ pg_rows action lsn stmt [cs] /\
  a_counters (appended action event lsn stmt cs a) = ObserveEvents event 1 (UpdateActionStats action 1 (a_counters a)).
Proof.
  intros [Ha Ht] Hl. rewrite length_drop, schema_width in Hl.
  destruct (push_row (schema_of i) a (pg_header action (u64 lsn) stmt ++ cs) Ha) as [Ha' Hr]; [rewrite length_app, length_header_pg; lia|].
  split; [split; [destruct Ha' as [H1 H2 H3]; split; assumption|]|].
  - cbn [appended set_counters set_fields a_fields]. rewrite pg_push_types; [exact Ht|].
    rewrite length_app, length_header_pg, <- (length_map b_type), Ht, schema_width. lia.
  - split; [exact Hr | reflexivity].
Qed.

Lemma relation_schema_nonempty cols schema : relation_schema cols = inl schema -> schema <> [] -> cols <> [].
Proof. intros E Hn ->. cbn in E. injection E as <-. congruence. Qed.

Lemma presents_nonempty i k tuple cs : presents_row i k tuple cs -> tuple <> [].
Proof.
  assert (Hc : rel_Columns (rel_of i) <> []).
  { eapply relation_schema_nonempty; [apply (tb_schema _ (Htables i))|]. intros E. apply (tb_pk _ (Htables i)). rewrite E. reflexivity. }
  unfold presents_row. destruct k; [intros [_ Hp] | intros Hp]; inversion Hp; subst; congruence.
Qed.

(** The state after an append that left [a] in the slot of [i]. *)
Definition with_slot (i : T) (a : DeltaAppender) (ts : slots) (size : Z) (s : replicationState) : replicationState :=
  set_deltaBufSize size (set_tables (tables_of tab (put_slot i a ts)) s).

Lemma get_appender i ts s : tables s = tables_of tab ts -> exists tbs,
  GetDeltaAppender (tab i) (schema_of i) (tables s) = Ret (current i ts, tbs) /\
  forall a', update_table (tab i) (fun _ => a') tbs = tables_of tab (put_slot i a' ts).
Proof.
  intros Ht. unfold GetDeltaAppender. rewrite Ht, (lookup_slots tab). unfold current. destruct (find_slot i ts) as [a|] eqn:Ef.
  - exists (tables_of tab ts). split; [reflexivity|]. intros a'. apply (update_slots tab). rewrite Ef. exact I.
  - unfold fresh. rewrite (new_fresh_appender _ _ (tb_types _ (Htables i))). cbn [mbind outcome_bind]. eexists. split; [reflexivity|].
    intros a'. apply (update_new tab), Ef.
Qed.

Definition known (i : T) (s : replicationState) : Prop :=
  relations s !! id_of i = Some (rel_of i) /\ schemas s !! id_of i = Some (schema_of i).

Lemma append_step i onlyKeys tuple cs action event ts s : tables s = tables_of tab ts -> known i s -> usable i (current i ts) ->
  presents_row i onlyKeys tuple cs -> exists size, append (id_of i) tuple action event onlyKeys s =
    Ret (with_slot i (appended action event (currentTransactionLSN s) (inTxnStmtID s) cs (current i ts)) ts size s, None).
Proof.
  intros Ht [Hr Hs] [Ha Hty] Hp. unfold append. rewrite Hr, Hs. cbn [default from_option id]. rewrite (tb_name _ (Htables i)).
  destruct (get_appender i ts s Ht) as (tbs & -> & Hput). cbn [mbind outcome_bind].
  pose proof (presents_nonempty _ _ _ _ Hp) as Hne. destruct tuple as [|td tuple]; [congruence|]. clear Hne.
  cbn [currentTransactionLSN inTxnStmtID set_tables].
  assert (Hf : map b_type (Fields (current i ts)) = drop 6 (types_of i)) by (unfold Fields; rewrite <- Hty, skipn_map; reflexivity).
  assert (Hcols : exists size, append_columns onlyKeys (rel_Columns (rel_of i)) 0 0 (td :: tuple) (Fields (current i ts)) 0 =
    Ret (push cs (Fields (current i ts)), size, None)).
  { unfold presents_row in Hp. destruct onlyKeys; [destruct Hp as [Hk Hp]; apply (append_columns_keys _ _ _ _ Hp Hk 0%nat [] _ 0 eq_refl Hf)
      | apply (append_columns_full _ _ _ _ Hp 0%nat 0%nat [] _ 0 eq_refl Hf)]. }
  destruct Hcols as (size & ->). cbn [mbind outcome_bind].
  assert (Hpush : forall h, length h = 6%nat -> push h (take 6 (a_fields (current i ts))) ++ push cs (Fields (current i ts)) =
    push (h ++ cs) (a_fields (current i ts))).
  { intros h Hh. unfold Fields. rewrite <- push_app by (rewrite length_take, <- (length_map b_type), Hty, schema_width; lia).
    rewrite take_drop. reflexivity. }
  rewrite Hpush by apply length_header_pg. eexists. unfold with_slot, set_appender, ok.
  cbn [tables set_tables set_deltaBufSize]. rewrite Hput. reflexivity.
Qed.

(** ** The message of a change *)
Lemma current_put i a ts : current i (put_slot i a ts) = a.
Proof. unfold current. rewrite find_put, decide_True by reflexivity. reflexivity. Qed.

Lemma change_appends now c ts s : tables s = tables_of tab ts -> known (table_of c) s -> usable (table_of c) (current (table_of c) ts) ->
  presents_change c -> processMessages s = true ->
  exists size a, process_logical viewHash env subscription now (message_of c) s = Ret (mark_dirty (with_slot (table_of c) a ts size s), None) /\
    usable (table_of c) a /\
    delta_rows a = delta_rows (current (table_of c) ts) ++ pg_rows DeleteRowEvent (currentTransactionLSN s) (inTxnStmtID s) (before_of c)
                   ++ pg_rows InsertRowEvent (currentTransactionLSN s) (inTxnStmtID s) (after_of c) /\
    a_counters a = pg_counters (event_of c) (before_of c) (a_counters (current (table_of c) ts)).
Proof.
  intros Ht Hk Hu Hp Hpm. destruct c as [i tuple r|i old tuple r|i k tuple r]; cbn [table_of before_of after_of event_of] in *.
  - cbn [message_of process_logical]. unfold when_processing. rewrite Hpm.
    destruct (append_step i false tuple r InsertRowEvent InsertRowEvent ts s Ht Hk Hu Hp) as (size & ->).
    destruct (appended_usable i InsertRowEvent InsertRowEvent (currentTransactionLSN s) (inTxnStmtID s) r _ Hu (presents_length_row _ _ _ _ Hp)) as (Hu' & Hr & Hc).
    eexists _, _. split; [reflexivity|]. auto.
  - destruct Hp as [Hp Hold]. cbn [message_of process_logical].
    assert (H1 : exists size1 a1 m, m = (match old with Some (k, t, _) => append (id_of i) t DeleteRowEvent UpdateRowEvent k s
        | None => append (id_of i) [] DeleteRowEvent UpdateRowEvent true s end) /\ m = Ret (with_slot i a1 ts size1 s, None) /\ usable i a1 /\
      delta_rows a1 = delta_rows (current i ts) ++ pg_rows DeleteRowEvent (currentTransactionLSN s) (inTxnStmtID s) (before_of (Update i old tuple r)) /\
      a_counters a1 = ObserveEvents UpdateRowEvent 1 (match old with Some _ => UpdateActionStats DeleteRowEvent 1 (a_counters (current i ts)) | None => a_counters (current i ts) end)).
    { destruct old as [[[k t] r']|].
      - destruct (append_step i k t r' DeleteRowEvent UpdateRowEvent ts s Ht Hk Hu Hold) as (size & Es).
        destruct (appended_usable i DeleteRowEvent UpdateRowEvent (currentTransactionLSN s) (inTxnStmtID s) r' _ Hu (presents_length_row _ _ _ _ Hold)) as (Hu' & Hr & Hc).
        eexists _, _, _. split; [reflexivity|]. split; [exact Es|]. auto.
      - destruct Hk as [Hrel Hsch]. destruct (get_appender i ts s Ht) as (tbs & Eg & Hput).
        exists (deltaBufSize s), (set_counters (ObserveEvents UpdateRowEvent 1) (current i ts)). eexists. split; [reflexivity|].
        unfold append. rewrite Hrel, Hsch. cbn [default from_option id]. rewrite (tb_name _ (Htables i)), Eg. cbn [mbind outcome_bind].
        rewrite !bool_decide_true by reflexivity. cbn [andb]. unfold set_appender. cbn [tables set_tables]. rewrite Hput.
        split; [destruct s; reflexivity|]. split; [destruct Hu as [[] ?]; split; [split|]; assumption|].
        split; [cbn; rewrite app_nil_r; reflexivity | reflexivity]. }
    destruct H1 as (size1 & a1 & m & Em & E1 & Hu1 & Hr1 & Hc1).
    destruct (append_step i false tuple r InsertRowEvent UpdateRowEvent (put_slot i a1 ts) (with_slot i a1 ts size1 s)) as (size2 & E2);
      [reflexivity | exact Hk | rewrite current_put; exact Hu1 | exact Hp|].
    rewrite current_put in E2. cbn [currentTransactionLSN inTxnStmtID with_slot set_tables set_deltaBufSize] in E2.
    destruct (appended_usable i InsertRowEvent UpdateRowEvent (currentTransactionLSN s) (inTxnStmtID s) r _ Hu1 (presents_length_row _ _ _ _ Hp)) as (Hu' & Hr & Hc).
    exists size2. eexists. split; [|split; [exact Hu'|split; [rewrite Hr, Hr1, <- app_assoc; reflexivity|]]].
    + unfold process_logical, message_of. destruct old as [[[k t] r']|]; unfold when_processing, process_update; rewrite Hpm;
        [destruct k|]; cbn [old_type]; rewrite <- Em, E1; unfold andThen at 1; cbn [mbind outcome_bind]; unfold with_slot in E2 |- *; rewrite E2; unfold andThen, ok; cbn [mbind outcome_bind]; rewrite put_put; reflexivity.
    + rewrite Hc, Hc1. destruct old as [[[k t] r']|]; reflexivity.
  - cbn [message_of process_logical]. unfold when_processing, process_delete. rewrite Hpm.
    destruct (append_step i k tuple r DeleteRowEvent DeleteRowEvent ts s Ht Hk Hu Hp) as (size & Es).
    destruct (appended_usable i DeleteRowEvent DeleteRowEvent (currentTransactionLSN s) (inTxnStmtID s) r _ Hu (presents_length_row _ _ _ _ Hp)) as (Hu' & Hr & Hc).
    exists size. eexists. split; [|split; [exact Hu'|split; [rewrite Hr; cbn; reflexivity | exact Hc]]].
    destruct k; cbn [old_type]; rewrite Es; reflexivity.
Qed.

(** ** Histories *)
Record Txn : Type := mkTxn { tx_lsn : Z; tx_changes : list Change }.

Definition apply_change (src : T -> list row) (c : Change) : T -> list row := fun j =>
  if decide (j = table_of c) then put_images (schema_of j) (before_of c) (after_of c) (src j) else src j.
Definition apply_txn (src : T -> list row) (t : Txn) : T -> list row := foldl apply_change src (tx_changes t).
Definition replay (src : T -> list row) (txns : list Txn) : T -> list row := foldl apply_txn src txns.
Definition lsn_after (l : Z) (txns : list Txn) : Z := foldl (fun _ t => tx_lsn t) l txns.

(** A change the publisher can make on [src] and logs with a tuple the code understands. *)
Definition change_ok (src : T -> list row) (c : Change) : Prop :=
  presents_change c /\ change_valid (schema_of (table_of c)) (event_of c) (before_of c) (after_of c) (src (table_of c)).

(** Stamps before statement [m] of transaction [l], or of any later one. *)
Definition within (l m : Z) (st : row) : Prop := forall l' m', 0 <= l' < 2 ^ 64 -> l < l' \/ (l' = l /\ m <= m') -> cells_cmp st (pg_stamp l' m') = Lt.
Definition after (l : Z) (st : row) : Prop := forall l' m', l < l' < 2 ^ 64 -> cells_cmp st (pg_stamp l' m') = Lt.

Lemma within_next l m st : within l m st -> within l (m + 1) st.
Proof. intros Hw l' m' Hl' Hlt. apply Hw; [exact Hl' | lia]. Qed.
Lemma within_new l m : 0 <= l < 2 ^ 64 -> within l (m + 1) (pg_stamp l m).
Proof. intros Hl l' m' Hl' Hlt. apply pg_stamp_lt; [exact Hl | exact Hl' | lia]. Qed.
Lemma within_after l m st : 0 <= l -> within l m st -> after l st.
Proof. intros H0 Hw l' m' Hl'. apply Hw; lia. Qed.
Lemma after_within l l' st : 0 <= l -> l < l' -> after l st -> within l' 0 st.
Proof. intros H0 Hl Ha l2 m2 Hl2 Hlt. apply Ha. lia. Qed.

Lemma fresh_usable i : usable i (fresh i).
Proof.
  split; [apply fresh_appender_ok, tb_width, Htables|]. cbn. rewrite map_map. apply map_id.
Qed.

Lemma current_slot src B ts s i : tracks_with src B ts s -> pg_slot i B (current i ts) (rows_in i (world s)) /\
  same_rows (apply_delta (schema_of i) (delta_rows (current i ts)) (rows_in i (world s))) (src i).
Proof.
  intros [_ Hn Hs _ Hv _]. specialize (Hv i). unfold current, pending_rows in *. destruct (find_slot i ts) as [a|] eqn:Ef; cbn.
  - split; [apply Hs, (find_elem ts Hn), Ef | exact Hv].
  - unfold fresh. rewrite fresh_appender_rows. split; [|exact Hv]. destruct (fresh_usable i).
    apply pg_slot_empty; [assumption | assumption | apply fresh_appender_counters | apply fresh_appender_rows].
Qed.

(** What a change leaves alone. *)
Definition settled (s : replicationState) : Z * bool * db := (lastWrittenLSN s, ongoingBatchTxn s, world s).

Lemma change_step now c src s : let l := currentTransactionLSN s in let m := inTxnStmtID s in
  tracks src (within l m) s -> change_ok src c -> known (table_of c) s -> processMessages s = true -> 0 <= l < 2 ^ 64 -> 0 <= m < 2 ^ 64 - 1 ->
  exists s', process_logical viewHash env subscription now (message_of c) s = Ret (s', None) /\
    tracks (apply_change src c) (within l (m + 1)) s' /\ inTxnStmtID s' = m + 1 /\ dirtyTxn s' = true /\ dirtyStream s' = true /\
    reading s' = reading s /\ settled s' = settled s.
Proof.
  intros l m [ts Ht] [Hp Hv] Hk Hpm Hl Hm. set (i := table_of c) in *.
  destruct (current_slot _ _ _ _ i Ht) as [Hslot HX].
  assert (Hu : usable i (current i ts)) by (destruct Hslot; split; assumption).
  destruct (change_appends now c ts s (t_tables _ _ _ _ Ht) Hk Hu Hp Hpm) as (size & a & E & [Ha Hty] & Hr & Hc).
  fold i in E, Hr, Hc, Ha, Hty. fold l m in Hr.
  destruct (pg_event_slot (schema_of i) (types_of i) (within l m) (within l (m + 1)) (current i ts) a (rows_in i (world s)) (src i)
    (event_of c) l m (before_of c) (after_of c) Hslot (change_kind c) Ha Hty Hr Hc) as [Hslot' HX']; auto.
  { intros st Hst. apply Hst; [exact Hl | right; lia]. }
  { intros st. apply within_next. }
  { apply within_new, Hl. }
  eexists. split; [exact E|].
  assert (Eu : u64 (m + 1) = m + 1) by (unfold u64; apply Z.mod_small; lia).
  split; [|cbn; fold m; rewrite Eu; repeat split]. exists (put_slot i a ts). destruct Ht as [Htb Hn Hs Hun Hvw Hrel]. split; cbn.
  - reflexivity.
  - apply NoDup_put, Hn.
  - intros j b Hj. apply elem_put in Hj. destruct Hj as [[-> ->]|Hj]; [exact Hslot'|].
    eapply pg_slot_weaken; [|apply Hs, Hj]. intros st. apply within_next.
  - exact Hun.
  - intros j. unfold pending_rows. rewrite find_put. unfold apply_change. fold i. destruct (decide (i = j)) as [<-|Hj].
    + rewrite decide_True by reflexivity. exact HX'.
    + rewrite decide_False by congruence. apply Hvw.
  - exact Hrel.
Qed.

(** The relation message of a table that is not known yet. *)
Lemma relation_step now i src B s : tracks src B s -> relations s !! id_of i = None ->
  exists s', process_logical viewHash env subscription now (RelationMessageV2 (rel_of i)) s = Ret (s', None) /\ tracks src B s' /\ known i s' /\
    (forall j, known j s -> known j s') /\ (forall j, j <> i -> relations s' !! id_of j = relations s !! id_of j) /\ same_world (world s) (world s') /\
    inTxnStmtID s' = inTxnStmtID s /\ dirtyTxn s' = dirtyTxn s /\ dirtyStream s' = dirtyStream s /\ ongoingBatchTxn s' = ongoingBatchTxn s /\
    lastWrittenLSN s' = lastWrittenLSN s /\ lastCommitLSN s' = lastCommitLSN s /\ currentTransactionLSN s' = currentTransactionLSN s /\
    processMessages s' = processMessages s /\ inStream s' = inStream s.
Proof.
  intros Ht Hn. cbn [process_logical]. unfold process_relation. fold (id_of i). rewrite Hn. unfold andThen, ok. cbn [mbind outcome_bind].
  rewrite (tb_schema _ (Htables i)). cbn zeta. cbn [world set_keys set_schemas set_relations].
  destruct (law_create i (world s)) as (w2 & -> & Hw).
  eexists. split; [reflexivity|]. cbn. split; [|split; [split; cbn; apply lookup_insert_eq|split; [|split; [|split; [exact Hw|repeat split]]]]].
  - destruct Ht as [ts [Htb Hnd Hs Hu Hv Hr]]. exists ts. destruct Hw as [Hrows _]. split; cbn; auto; try (intros; rewrite Hrows; auto).
    intros id rel. destruct (decide (id = id_of i)) as [->|Hd].
    + rewrite lookup_insert_eq. intros [= <-]. exists i. split; [reflexivity|]. split; [reflexivity | apply lookup_insert_eq].
    + rewrite !lookup_insert_ne by auto. apply Hr.
  - intros j [H1 H2]. split; cbn; destruct (decide (id_of i = id_of j)) as [E|E].
    + congruence.
    + rewrite lookup_insert_ne by exact E. exact H1.
    + apply Hids in E. subst j. apply lookup_insert_eq.
    + rewrite lookup_insert_ne by exact E. exact H2.
  - intros j Hj. apply lookup_insert_ne. intros E. apply Hj. symmetry. apply Hids, E.
Qed.

Fixpoint valid_changes (src : T -> list row) (cs : list Change) : Prop :=
  match cs with [] => True | c :: cs' => change_ok src c /\ valid_changes (apply_change src c) cs' end.

(** Every change is possible when it comes, and the commits have increasing LSNs. *)
Fixpoint valid_txns (l : Z) (src : T -> list row) (txns : list Txn) : Prop :=
  match txns with
  | [] => True
  | t :: txns' => l < tx_lsn t < 2 ^ 64 - 1 /\ Z.of_nat (length (tx_changes t)) < 2 ^ 64 /\ valid_changes src (tx_changes t) /\
                  valid_txns (tx_lsn t) (apply_txn src t) txns'
  end.

Lemma lsn_after_app l a b : lsn_after l (a ++ b) = lsn_after (lsn_after l a) b.
Proof. apply foldl_app. Qed.
Lemma replay_app src a b : replay src (a ++ b) = replay (replay src a) b.
Proof. apply foldl_app. Qed.
Lemma valid_app a : forall l src b, valid_txns l src (a ++ b) <-> valid_txns l src a /\ valid_txns (lsn_after l a) (replay src a) b.
Proof. induction a as [|t a IH]; intros l src b; cbn [app valid_txns lsn_after replay foldl]; [tauto|]. rewrite IH. unfold lsn_after, replay. tauto. Qed.
Lemma valid_lsn a : forall l src, valid_txns l src a -> l <= lsn_after l a.
Proof.
  induction a as [|t a IH]; intros l src Hv; cbn [lsn_after foldl]; [lia|]. destruct Hv as (Hl & _ & _ & Hv).
  specialize (IH _ _ Hv). unfold lsn_after in IH. lia.
Qed.

Context (src0 : T -> list row) (L0 : Z) (HL0 : 0 <= L0 < 2 ^ 64 - 1) (H : list Txn) (HH : valid_txns L0 src0 H).

Abbreviation src_after := (replay src0).
Abbreviation lsn_at := (lsn_after L0).

Lemma prefix_valid hist todo : hist ++ todo = H -> valid_txns L0 src0 hist /\ valid_txns (lsn_at hist) (src_after hist) todo.
Proof. intros E. apply valid_app. rewrite E. exact HH. Qed.

(** What is durable: the state after a prefix of the history, which the replicator knows. *)
Definition durable_prefix (hist : list Txn) (s : replicationState) : Prop :=
  exists done rest, hist = done ++ rest /\ saved (src_after done) (lsn_at done) (world s) /\ lastWrittenLSN s = lsn_at done.

Lemma pg_durable_more hist more s : durable_prefix hist s -> durable_prefix (hist ++ more) s.
Proof. intros (done & rest & -> & Hs). exists done, (rest ++ more). rewrite app_assoc. auto. Qed.

Lemma durable_world hist s s' : (forall i, durable_rows i (world s') = durable_rows i (world s)) -> durable_lsn (world s') = durable_lsn (world s) ->
  lastWrittenLSN s' = lastWrittenLSN s -> durable_prefix hist s -> durable_prefix hist s'.
Proof.
  intros Hr Hl Hw (done & rest & -> & [Hs1 Hs2] & Hd). exists done, rest. split; [reflexivity|].
  split; [split; [intros i; rewrite Hr; apply Hs1 | congruence] | congruence].
Qed.

Lemma saved_world src lsn w w' : (forall i, durable_rows i w' = durable_rows i w) -> durable_lsn w' = durable_lsn w -> saved src lsn w -> saved src lsn w'.
Proof. intros Hr Hl [Hs1 Hs2]. split; [intros i; rewrite Hr; apply Hs1 | congruence]. Qed.

Lemma pg_saved_prefix hist s : saved (src_after hist) (lsn_at hist) (world s) -> lastWrittenLSN s = lsn_at hist -> durable_prefix hist s.
Proof. intros Hs Hw. exists hist, []. rewrite app_nil_r. auto. Qed.

Lemma written_bound hist s : valid_txns L0 src0 hist -> durable_prefix hist s -> 0 <= lastWrittenLSN s <= lsn_at hist.
Proof.
  intros Hv (done & rest & -> & _ & ->). apply valid_app in Hv. destruct Hv as [Hd Hr]. apply valid_lsn in Hd, Hr.
  rewrite lsn_after_app. lia.
Qed.

(** Between two transactions. *)
Record between (hist : list Txn) (s : replicationState) : Prop := mkBetween {
  b_tracks : tracks (src_after hist) (after (lsn_at hist)) s;
  b_lsn : lastCommitLSN s = lsn_at hist;
  b_session : session_ok s;
  b_durable : durable_prefix hist s;
  b_stream : dirtyStream s = false;
  b_stmt : inTxnStmtID s = 0;
  b_whole : inStream s = false
}.

(** Inside the transaction [t], after the changes [done]. *)
Record inside (hist : list Txn) (t : Txn) (done : list Change) (s : replicationState) : Prop := mkInside {
  i_tracks : tracks (foldl apply_change (src_after hist) done) (within (tx_lsn t) (inTxnStmtID s)) s;
  i_current : currentTransactionLSN s = tx_lsn t;
  i_lsn : lastCommitLSN s = lsn_at hist;
  i_process : processMessages s = true;
  i_session : session_ok s;
  i_durable : durable_prefix hist s;
  i_stream : dirtyStream s = match done with [] => false | _ => true end;
  i_dirty : done <> [] -> dirtyTxn s = true;
  i_stmt : inTxnStmtID s = Z.of_nat (length done);
  i_whole : inStream s = false
}.

Lemma session_ext s s' : world s' = world s -> ongoingBatchTxn s' = ongoingBatchTxn s -> session_ok s -> session_ok s'.
Proof. unfold session_ok. intros -> ->. auto. Qed.

Lemma pg_extend_reason now s ext reason : mayExtendBatchTxn now s = (ext, reason) ->
  reason <> DDLStmtFlushReason /\ (ext = true -> ongoingBatchTxn s = true).
Proof.
  unfold mayExtendBatchTxn. destruct (ongoingBatchTxn s); [|intros [= <- <-]; split; discriminate].
  repeat destruct (_ =? _); repeat destruct (_ <=? _); intros [= <- <-]; split; (discriminate || auto).
Qed.

Lemma ongoing_txn s : session_ok s -> ongoingBatchTxn s = true -> exists tx, TryGetTxn (world s) = Some tx.
Proof. unfold session_ok. destruct (TryGetTxn (world s)); [eauto | intros [E _]; congruence]. Qed.

(** A commit while the tables are those of the history [hist]. *)
Lemma pg_commit_step now reason hist B s : valid_txns L0 src0 hist -> tracks (src_after hist) B s -> session_ok s -> durable_prefix hist s ->
  lastCommitLSN s = lsn_at hist -> reason <> DDLStmtFlushReason ->
  exists s', commitOngoingTxn now reason s = Ret (s', None) /\ tracks (src_after hist) B s' /\
    session_ok s' /\ durable_prefix hist s' /\ reading s' = reading s /\ ongoingBatchTxn s' = false /\ TryGetTxn (world s') = None /\
    lastWrittenLSN s <= lastWrittenLSN s' /\
    (TryGetTxn (world s) = None -> dirtyTxn s' = dirtyTxn s /\ dirtyStream s' = dirtyStream s /\ inTxnStmtID s' = inTxnStmtID s) /\
    (TryGetTxn (world s) <> None -> saved (src_after hist) (lsn_at hist) (world s') /\
       dirtyTxn s' = false /\ dirtyStream s' = false /\ inTxnStmtID s' = 0) /\
    (saved (src_after hist) (lsn_at hist) (world s) -> saved (src_after hist) (lsn_at hist) (world s')).
Proof.
  intros Hv Ht Hs Hd Hl Hr. pose proof (written_bound _ _ Hv Hd) as Hb. destruct (TryGetTxn (world s)) as [tx|] eqn:Etx.
  - destruct (commit_open now reason _ B B s tx Ht Hr Etx Hs) as (s' & E & Ht' & Hs' & Hsv & Hw & H1 & H2 & H3 & H4 & Hrd).
    rewrite Hl in Hsv, Hw. exists s'. split; [exact E|]. split; [exact Ht'|]. split; [exact Hs'|]. split; [apply pg_saved_prefix; assumption|].
    split; [exact Hrd|]. split; [exact H4|]. split; [|split; [lia | split; [discriminate | split; auto]]].
    unfold session_ok in Hs'. destruct (TryGetTxn (world s')); [destruct Hs'; congruence | reflexivity].
  - destruct (commit_none now reason s Etx Hs) as (w & E & Hw & Hs'). exists (set_world w s). split; [exact E|].
    destruct Hw as (Hrw & _ & Hdr & Hdl & Htx & _). split; [eapply pg_tracks_ext; [.. | exact Ht]; auto|]. split; [exact Hs'|].
    split; [eapply durable_world; [.. | exact Hd]; auto|]. split; [reflexivity|].
    unfold session_ok in Hs. rewrite Etx in Hs. destruct Hs as [Ho _].
    split; [exact Ho|]. split; [cbn; congruence|]. split; [cbn; lia|]. split; [auto|]. split; [congruence|]. apply saved_world; assumption.
Qed.

(** The relations known on this connection, and the position that only grows. *)
Definition moves (s s' : replicationState) : Prop :=
  relations s' = relations s /\ schemas s' = schemas s /\ lastWrittenLSN s <= lastWrittenLSN s'.

(** ** Messages of the stream *)
Abbreviation process := (process_logical viewHash env subscription).

Lemma pg_begin_step now t hist todo s : hist ++ t :: todo = H -> between hist s ->
  exists s', process now (BeginMessage (tx_lsn t)) s = Ret (s', None) /\ inside hist t [] s' /\ TryGetTxn (world s') <> None /\ moves s s'.
Proof.
  intros E [Ht Hl Hs Hd Hst Hm Hin]. destruct (prefix_valid _ _ E) as [Hv (Htl & _)].
  pose proof (written_bound _ _ Hv Hd) as Hw. pose proof (valid_lsn _ _ _ Hv) as H0. cbn [process_logical]. unfold process_begin.
  destruct (Z.ltb_spec (tx_lsn t) (lastWrittenLSN s)); [lia|]. set (s1 := set_currentTransactionLSN _ _).
  assert (Ht1 : tracks (src_after hist) (within (tx_lsn t) 0) s1).
  { eapply pg_tracks_ext; [.. | eapply tracks_weaken; [|exact Ht]]; try reflexivity. intros st. apply after_within; lia. }
  destruct (mayExtendBatchTxn now s1) as [ext reason] eqn:Em. destruct (pg_extend_reason _ _ _ _ Em) as [Hr He]. destruct ext.
  - eexists. split; [reflexivity|]. split; [|split; [destruct (ongoing_txn s Hs (He eq_refl)) as [tx Etx]; cbn; congruence | split; [reflexivity|]; split; [reflexivity | cbn; lia]]].
    split; cbn; auto; try congruence; rewrite Hm; exact Ht1.
  - destruct (pg_commit_step now reason hist _ s1 Hv Ht1 Hs Hd Hl Hr) as (s2 & -> & Ht2 & Hs2 & Hd2 & Hrd & Ho & Htx & Hmo & Hn & Hy & Hsv).
    unfold andThen. cbn [mbind outcome_bind]. apply reading_inv in Hrd. destruct Hrd as (R1 & R2 & R3 & R4 & R5 & R6). cbn in R1, R2, R3, R4, R5, R6, Hmo.
    assert (Hid : idle (world s2) = true) by (unfold session_ok in Hs2; rewrite Htx in Hs2; apply Hs2).
    destruct (law_begin (world s2) Htx Hid) as (w & tx & -> & Htx3 & Hact & Hr3 & Hdr3 & Hdl3).
    eexists. split; [reflexivity|]. split; [|split; [cbn; congruence | split; [exact R5|]; split; [exact R6 | exact Hmo]]].
    assert (Hfl : dirtyStream s2 = false /\ inTxnStmtID s2 = 0).
    { destruct (TryGetTxn (world s1)); [destruct Hy as (_ & _ & A & B); [discriminate | auto]
        | destruct Hn as (_ & A & B); [reflexivity|]; cbn in A, B; split; congruence]. }
    destruct Hfl as [Hf1 Hf2]. split; cbn; auto; try congruence.
    + rewrite Hf2. eapply pg_tracks_ext; [.. | exact Ht2]; try reflexivity. exact Hr3.
    + unfold session_ok. cbn. rewrite Htx3. auto.
    + eapply durable_world; [.. | exact Hd2]; auto.
Qed.

Lemma inside_change now t c done rest hist todo s : hist ++ t :: todo = H -> tx_changes t = done ++ c :: rest ->
  inside hist t done s -> known (table_of c) s ->
  exists s', process now (message_of c) s = Ret (s', None) /\ inside hist t (done ++ [c]) s' /\ world s' = world s /\ moves s s'.
Proof.
  intros E Ec [Ht Hc Hl Hp Hs Hd Hst Hdi Hm Hin] Hk. destruct (prefix_valid _ _ E) as [Hv ((Hl1 & Hl2) & Hlen & Hch & _)].
  pose proof (valid_lsn _ _ _ Hv) as H0.
  assert (Hok : change_ok (foldl apply_change (src_after hist) done) c).
  { rewrite Ec in Hch. clear - Hch. revert Hch. generalize (src_after hist). induction done as [|d done IH]; intros src; cbn; [intros []; assumption|].
    intros [_ Hch]. apply IH, Hch. }
  assert (Hlen' : Z.of_nat (length done) < 2 ^ 64 - 1) by (rewrite Ec, length_app in Hlen; cbn in Hlen; lia).
  rewrite <- Hc in Ht. destruct (change_step now c _ s Ht Hok Hk Hp ltac:(lia) ltac:(lia)) as (s' & Ep & Ht' & Hm' & Hd' & Hst' & Hrd & Hse).
  apply reading_inv in Hrd. destruct Hrd as (R1 & R2 & R3 & R4 & R5 & R6). injection Hse as S1 S2 S3.
  exists s'. split; [exact Ep|]. split; [|split; [exact S3 | split; [exact R5|]; split; [exact R6 | lia]]]. rewrite Hc in Ht'.
  split; try congruence.
  - rewrite foldl_app, Hm'. exact Ht'.
  - eapply session_ext; [.. | exact Hs]; auto.
  - eapply durable_world; [.. | exact Hd]; intros; rewrite ?S3; auto.
  - rewrite Hst'. destruct done; reflexivity.
  - rewrite Hm', Hm, length_app. cbn. lia.
Qed.

Lemma inside_relation now i t done hist s : inside hist t done s -> relations s !! id_of i = None ->
  exists s', process now (RelationMessageV2 (rel_of i)) s = Ret (s', None) /\ inside hist t done s' /\ known i s' /\ (forall j, known j s -> known j s') /\
    (forall j, j <> i -> relations s' !! id_of j = relations s !! id_of j) /\ lastWrittenLSN s' = lastWrittenLSN s /\
    TryGetTxn (world s') = TryGetTxn (world s).
Proof.
  intros [Ht Hc Hl Hp Hs Hd Hst Hdi Hm Hin] Hn.
  destruct (relation_step now i _ _ s Ht Hn) as (s' & E & Ht' & Hk & Hks & Hko & Hw & F1 & F2 & F3 & F4 & F5 & F6 & F7 & F8 & F9).
  exists s'. split; [exact E|]. destruct Hw as (W1 & _ & W3 & W4 & W5 & W6 & W7). split; [|auto].
  split; try congruence.
  - unfold session_ok in *. rewrite W5, F4. destruct (TryGetTxn (world s)); [rewrite W6; exact Hs|]. destruct Hs as (A & B & D). split; [exact A|].
    split; [intros j; rewrite W1, W3; apply B | congruence].
  - eapply durable_world; [.. | exact Hd]; auto.
  - intros Hne. rewrite F2. apply Hdi, Hne.
Qed.

Lemma commit_message_step now t hist todo s : hist ++ t :: todo = H -> inside hist t (tx_changes t) s ->
  exists s', process now (CommitMessage (tx_lsn t)) s = Ret (s', None) /\ between (hist ++ [t]) s' /\
    moves s s' /\
    (TryGetTxn (world s) <> None -> dirtyTxn s = true -> ongoingBatchTxn s' = true /\ dirtyTxn s' = true \/
      saved (src_after (hist ++ [t])) (lsn_at (hist ++ [t])) (world s')).
Proof.
  intros E [Ht Hc Hl Hp Hs Hd Hst Hdi Hm Hin]. destruct (prefix_valid _ _ E) as [Hv ((Hl1 & Hl2) & _)]. pose proof (valid_lsn _ _ _ Hv) as H0.
  cbn [process_logical]. unfold process_commit. set (s1 := set_commitCount _ _).
  assert (Er : src_after (hist ++ [t]) = foldl apply_change (src_after hist) (tx_changes t)) by (rewrite replay_app; reflexivity).
  assert (El : lsn_at (hist ++ [t]) = tx_lsn t) by (rewrite lsn_after_app; reflexivity).
  assert (Ht1 : tracks (src_after (hist ++ [t])) (after (tx_lsn t)) s1).
  { rewrite Er. eapply pg_tracks_ext; [.. | eapply tracks_weaken; [|exact Ht]]; try reflexivity. intros st. apply within_after. lia. }
  destruct (mayExtendBatchTxn now s1) as [ext reason] eqn:Em. destruct (pg_extend_reason _ _ _ _ Em) as [Hr He]. destruct ext.
  - eexists. split; [reflexivity|]. split.
    + split; cbn; auto; [rewrite El; eapply pg_tracks_ext; [.. | exact Ht1]; reflexivity | apply pg_durable_more; exact Hd].
    + split; [split; [reflexivity|]; split; [reflexivity | cbn; lia]|]. intros _ Hdt. left. cbn. auto.
  - assert (Hv' : valid_txns L0 src0 (hist ++ [t])) by (apply (prefix_valid (hist ++ [t]) todo); rewrite <- app_assoc; exact E).
    destruct (pg_commit_step now reason (hist ++ [t]) _ s1 Hv' Ht1) as (s2 & E2 & Ht2 & Hs2 & Hd2 & Hrd & Ho & Htx & Hmo & Hn & Hy & Hsv);
      [exact Hs | apply pg_durable_more; exact Hd | cbn; congruence | exact Hr|].
    rewrite E2. unfold andThen. cbn [mbind outcome_bind]. apply reading_inv in Hrd. destruct Hrd as (R1 & R2 & R3 & R4 & R5 & R6). cbn in R1, R4, R5, R6, Hmo.
    eexists. split; [reflexivity|]. split.
    + split; cbn; auto; try congruence; [rewrite El; eapply pg_tracks_ext; [.. | exact Ht2]; reflexivity].
    + split; [split; [exact R5|]; split; [exact R6 | exact Hmo]|]. intros Hop _. right. cbn. apply Hy. exact Hop.
Qed.

(** ** Ticks and reconnections *)
Lemma clean_between now reason hist todo s : hist ++ todo = H -> between hist s -> reason <> DDLStmtFlushReason ->
  exists s', commitOngoingTxnIfClean viewHash env subscription now reason s = Ret (s', None) /\ between hist s' /\ moves s s' /\
    (ongoingBatchTxn s = true /\ dirtyTxn s = true \/ saved (src_after hist) (lsn_at hist) (world s) ->
     saved (src_after hist) (lsn_at hist) (world s')).
Proof.
  intros E Hb Hr. pose proof Hb as [Ht Hl Hs Hd Hst Hm Hin]. destruct (prefix_valid _ _ E) as [Hv _].
  unfold commitOngoingTxnIfClean. rewrite Hst. destruct (dirtyTxn s) eqn:Edt; cbn [negb andb];
    [|exists s; split; [reflexivity|]; split; [exact Hb|]; split; [split; [reflexivity|]; split; [reflexivity | lia] | intros [[_ E'] | Hsv]; [discriminate | exact Hsv]]].
  destruct (pg_commit_step now reason hist _ s Hv Ht Hs Hd Hl Hr) as (s' & E' & Ht' & Hs' & Hd' & Hrd & Ho & Htx & Hmo & Hn & Hy & Hsv).
  exists s'. split; [exact E'|]. apply reading_inv in Hrd. destruct Hrd as (R1 & R2 & R3 & R4 & R5 & R6).
  split; [|split; [split; [exact R5|]; split; [exact R6 | exact Hmo]|]].
  - destruct (TryGetTxn (world s)) as [tx|]; [destruct Hy as (_ & _ & A & B) | destruct Hn as (_ & A & B)]; auto; try discriminate;
      split; auto; congruence.
  - intros [[Hog _]|Hs0]; [apply Hy; destruct (ongoing_txn _ Hs Hog) as [tx ->]; discriminate | apply Hsv, Hs0].
Qed.

Lemma clean_inside now reason hist t todo done s : hist ++ t :: todo = H -> inside hist t done s -> reason <> DDLStmtFlushReason ->
  exists s', commitOngoingTxnIfClean viewHash env subscription now reason s = Ret (s', None) /\ inside hist t done s' /\ moves s s'.
Proof.
  intros E Hi Hr. pose proof Hi as [Ht Hc Hl Hp Hs Hd Hst Hdi Hm Hin]. destruct (prefix_valid _ _ E) as [Hv _].
  assert (Hstay : exists s', ok s = Ret (s', None) /\ inside hist t done s' /\ moves s s')
    by (exists s; split; [reflexivity|]; split; [exact Hi|]; split; [reflexivity|]; split; [reflexivity | lia]).
  unfold commitOngoingTxnIfClean. rewrite Hst. destruct done as [|c done]; [|rewrite andb_false_r; exact Hstay].
  destruct (dirtyTxn s) eqn:Edt; cbn [negb andb]; [|exact Hstay]. clear Hstay. cbn [foldl] in Ht.
  destruct (pg_commit_step now reason hist _ s Hv Ht Hs Hd Hl Hr) as (s' & E' & Ht' & Hs' & Hd' & Hrd & Ho & Htx & Hmo & Hn & Hy & Hsv).
  exists s'. split; [exact E'|]. apply reading_inv in Hrd. destruct Hrd as (R1 & R2 & R3 & R4 & R5 & R6).
  split; [|split; [exact R5|]; split; [exact R6 | exact Hmo]]. cbn in Hm, Hst.
  assert (Hf : dirtyStream s' = false /\ inTxnStmtID s' = 0).
  { destruct (TryGetTxn (world s)) as [tx|]; [destruct Hy as (_ & _ & A & B) | destruct Hn as (_ & A & B)]; auto; try discriminate. split; [congruence|]. lia. }
  destruct Hf as [F1 F2]. split; auto; try congruence. rewrite F2. rewrite Hm in Ht'. exact Ht'.
Qed.

(** The rollback of a lost connection leaves what is durable. *)
Lemma rollback_ok s : session_ok s -> exists w, rollback (world s) = (w, None) /\
  (forall i, rows_in i w = durable_rows i (world s)) /\ (forall i, durable_rows i w = durable_rows i (world s)) /\
  durable_lsn w = durable_lsn (world s) /\ TryGetTxn w = None /\ idle w = true.
Proof.
  unfold session_ok, rollback. destruct (TryGetTxn (world s)) as [tx|].
  - intros [_ Ha]. destruct (law_rollback (world s) tx Ha) as (w & r & -> & Hr & H1 & H2 & H3 & H4).
    destruct (law_close w) as (C1 & C2 & C3 & C4 & _ & C6). exists (CloseTxn w). split; [destruct r; congruence|].
    split; [intros i; rewrite C1; apply H1|]. split; [intros i; rewrite C2; apply H2|]. split; [congruence|]. split; congruence.
  - intros (_ & Hs & Hi). destruct (law_close (world s)) as (C1 & C2 & C3 & C4 & _ & C6). exists (CloseTxn (world s)). split; [reflexivity|].
    split; [intros i; rewrite C1; apply Hs|]. split; [exact C2|]. split; [exact C3|]. split; congruence.
Qed.

(** The state after a reset at the position of what is durable. *)
Lemma reset_between now slot hist w : saved (src_after hist) (lsn_at hist) w -> (forall i, rows_in i w = durable_rows i w) -> TryGetTxn w = None -> idle w = true ->
  between hist (reset now slot (lsn_at hist) w).
Proof.
  intros Hs Hw Hn Hidle. split; cbn; auto.
  - exists []. split; cbn.
    + reflexivity.
    + constructor.
    + intros i a Hi. inversion Hi.
    + intros i. rewrite Hw. apply Hs.
    + intros i. rewrite Hw. apply Hs.
    + intros id rel. rewrite lookup_empty. discriminate.
  - unfold session_ok. cbn. rewrite Hn. auto.
  - apply pg_saved_prefix; [exact Hs | reflexivity].
Qed.

(** ** The publisher's side of a connection *)
Inductive Phase : Type :=
| Idle (hist todo : list Txn)
| Sending (hist : list Txn) (t : Txn) (done rest : list Change) (todo : list Txn).

(** What the walsender has sent on this connection, and the relations it has announced on it. *)
Record Stream : Type := mkStream { phase : Phase; announced : list T }.

(** START_REPLICATION skips the transactions that committed before the position. *)
Definition starts (from : Z) (c : Stream) : Prop := exists hist todo, c = mkStream (Idle hist todo) [] /\ hist ++ todo = H /\
  Forall (fun t => tx_lsn t < from) hist /\ Forall (fun t => from <= tx_lsn t) todo.

Inductive sends : Stream -> Message -> Stream -> Prop :=
| sends_begin hist t todo an :
    sends (mkStream (Idle hist (t :: todo)) an) (BeginMessage (tx_lsn t)) (mkStream (Sending hist t [] (tx_changes t) todo) an)
| sends_relation hist t done rest todo an i : i ∉ an ->
    sends (mkStream (Sending hist t done rest todo) an) (RelationMessageV2 (rel_of i)) (mkStream (Sending hist t done rest todo) (i :: an))
| sends_change hist t done c rest todo an : table_of c ∈ an ->
    sends (mkStream (Sending hist t done (c :: rest) todo) an) (message_of c) (mkStream (Sending hist t (done ++ [c]) rest todo) an)
| sends_commit hist t done todo an :
    sends (mkStream (Sending hist t done [] todo) an) (CommitMessage (tx_lsn t)) (mkStream (Idle (hist ++ [t]) todo) an)
| sends_type c : sends c TypeMessageV2 c
| sends_origin c : sends c OriginMessage c
| sends_logical c : sends c LogicalDecodingMessageV2 c.

(** A tick or a deadline that comes first drops the message that was being
    received.  In these streams it may drop a keepalive or a message that belongs
    to no transaction, nothing else ([dropped_row_is_missing] is what happens then). *)
Definition dropped (rcv : Received) : option (list Z) := match rcv with DeadlinePassed d | TickerFired d => d | _ => None end.
Definition harmless (c : Stream) (rcv : Received) : Prop :=
  match dropped rcv with
  | None => True
  | Some data =>
      (exists rest, data = PrimaryKeepaliveMessageByteID :: rest) \/
      exists rest xld msg, data = XLogDataByteID :: rest /\ ParseXLogData rest = Some xld /\ ParseV2 (xld_WALData xld) false = Some msg /\ sends c msg c
  end.

(** What a turn of the loop receives. *)
Inductive receives : Stream -> Received -> Stream -> Prop :=
| receives_wal c rest xld msg c' : ParseXLogData rest = Some xld -> ParseV2 (xld_WALData xld) false = Some msg -> sends c msg c' ->
    receives c (CopyData (XLogDataByteID :: rest)) c'
| receives_keepalive c rest pkm : ParsePrimaryKeepaliveMessage rest = Some pkm -> receives c (CopyData (PrimaryKeepaliveMessageByteID :: rest)) c
| receives_none c rcv : (forall data, rcv <> CopyData data) -> harmless c rcv -> receives c rcv c.

(** A turn: a new stream when the loop reconnects, then what is received on it. *)
Definition feeds (r : Replicator) (c : Stream) (t : Turn) (c' : Stream) : Prop := exists c1,
  (if primaryConn r then c1 = c else starts (u64 (lastWrittenLSN (state r) + 1)) c1) /\ receives c1 (t_received t) c'.

(** ** The invariant *)
Definition phase_inv (p : Phase) (s : replicationState) : Prop :=
  match p with
  | Idle hist todo => hist ++ todo = H /\ between hist s
  | Sending hist t done rest todo => hist ++ t :: todo = H /\ tx_changes t = done ++ rest /\ inside hist t done s
  end.

Record stream_inv (c : Stream) (s : replicationState) : Prop := mkStreamInv {
  si_phase : phase_inv (phase c) s;
  si_known : forall i, i ∈ announced c -> known i s;
  si_unknown : forall i, i ∉ announced c -> relations s !! id_of i = None
}.

(** What has been told to the primary to be flushed is durable. *)
Definition told (s : replicationState) (e : NetEvent) : Prop :=
  match e with
  | StatusUpdate _ flush apply => flush <= lastWrittenLSN s + 1 /\ apply <= lastWrittenLSN s + 1
  | StartedAt lsn => lsn <= lastWrittenLSN s + 1
  end.

Record base_inv (r : Replicator) : Prop := mkBaseInv {
  ba_phase : exists p, phase_inv p (state r);
  ba_told : Forall (told (state r)) (sent r)
}.

Record sys_inv (r : Replicator) (c : Stream) : Prop := mkSysInv {
  sy_base : base_inv r;
  sy_stream : primaryConn r = true -> stream_inv c (state r)
}.

Lemma phase_session p s : phase_inv p s -> session_ok s.
Proof. destruct p; [intros [_ []] | intros (_ & _ & [])]; assumption. Qed.

Lemma pg_phase_durable p s : phase_inv p s -> durable_prefix H s.
Proof. destruct p; [intros [<- []] | intros (<- & _ & [])]; apply pg_durable_more; assumption. Qed.

Lemma phase_in_stream p s : phase_inv p s -> inStream s = false.
Proof. destruct p; [intros [_ []] | intros (_ & _ & [])]; assumption. Qed.

Lemma told_mono s s' e : lastWrittenLSN s <= lastWrittenLSN s' -> told s e -> told s' e.
Proof. destruct e; cbn; lia. Qed.

Lemma stream_moves c c' s s' : stream_inv c s -> moves s s' -> announced c' = announced c -> phase_inv (phase c') s' -> stream_inv c' s'.
Proof.
  intros [_ Hk Hu] (M1 & M2 & _) Ea Hp. split; [exact Hp| |]; rewrite Ea; [intros i Hi | intros i Hi].
  - unfold known. rewrite M1, M2. apply Hk, Hi.
  - rewrite M1. apply Hu, Hi.
Qed.

(** Every message the publisher can send is processed. *)
Lemma message_ok now c msg c' s : sends c msg c' -> stream_inv c s ->
  exists s', process now msg s = Ret (s', None) /\ stream_inv c' s' /\ lastWrittenLSN s <= lastWrittenLSN s'.
Proof.
  assert (Hsame : forall c s, stream_inv c s -> exists s', ok s = Ret (s', None) /\ stream_inv c s' /\ lastWrittenLSN s <= lastWrittenLSN s')
    by (intros ? s0 ?; exists s0; split; [reflexivity|]; split; [assumption | lia]).
  intros Hs Hi. pose proof Hi as [Hp Hk Hu]. destruct Hs as [hist t todo an|hist t done rest todo an i Hn|hist t done ch rest todo an Ha|hist t done todo an| | |];
    cbn [phase announced phase_inv] in *; try (apply Hsame; exact Hi).
  - destruct Hp as [E Hb]. destruct (pg_begin_step now t hist todo s E Hb) as (s' & -> & Hin & _ & Hm). exists s'. split; [reflexivity|].
    split; [|apply Hm]. apply (stream_moves _ _ _ _ Hi Hm); [reflexivity|]. cbn. auto.
  - destruct Hp as (E & Ec & Hin). destruct (inside_relation now i t done hist s Hin (Hu i Hn)) as (s' & -> & Hin' & Hki & Hks & Hko & Hw & _).
    exists s'. split; [reflexivity|]. split; [|lia]. split; cbn; auto.
    + intros j Hj. apply elem_of_cons in Hj. destruct Hj as [->|Hj]; [exact Hki | apply Hks, Hk, Hj].
    + intros j Hj. apply not_elem_of_cons in Hj. destruct Hj as [Hj1 Hj2]. rewrite (Hko j Hj1). apply Hu, Hj2.
  - destruct Hp as (E & Ec & Hin). destruct (inside_change now t ch done rest hist todo s E Ec Hin (Hk _ Ha)) as (s' & -> & Hin' & _ & Hm).
    exists s'. split; [reflexivity|]. split; [|apply Hm]. apply (stream_moves _ _ _ _ Hi Hm); [reflexivity|].
    cbn. rewrite Ec, <- app_assoc. auto.
  - destruct Hp as (E & Ec & Hin). rewrite app_nil_r in Ec. rewrite <- Ec in Hin.
    destruct (commit_message_step now t hist todo s E Hin) as (s' & -> & Hb & Hm & _). exists s'. split; [reflexivity|].
    split; [|apply Hm]. apply (stream_moves _ _ _ _ Hi Hm); [reflexivity|]. cbn. rewrite <- app_assoc. auto.
Qed.

Lemma tick_ok now reason c s : stream_inv c s -> reason <> DDLStmtFlushReason ->
  exists s', commitOngoingTxnIfClean viewHash env subscription now reason s = Ret (s', None) /\ stream_inv c s' /\ lastWrittenLSN s <= lastWrittenLSN s'.
Proof.
  intros Hi Hr. pose proof Hi as [Hp _ _]. destruct (phase c) as [hist todo|hist t done rest todo] eqn:Ep.
  - destruct Hp as [E Hb]. destruct (clean_between now reason hist todo s E Hb Hr) as (s' & -> & Hb' & Hm & _). exists s'. split; [reflexivity|].
    split; [|apply Hm]. apply (stream_moves _ _ _ _ Hi Hm); [reflexivity|]. rewrite Ep. cbn. auto.
  - destruct Hp as (E & Ec & Hin). destruct (clean_inside now reason hist t todo done s E Hin Hr) as (s' & -> & Hin' & Hm). exists s'. split; [reflexivity|].
    split; [|apply Hm]. apply (stream_moves _ _ _ _ Hi Hm); [reflexivity|]. rewrite Ep. cbn. auto.
Qed.

(** ** Starting a stream *)
Lemma valid_bounds a : forall l src, valid_txns l src a -> Forall (fun t => l < tx_lsn t <= lsn_after l a) a.
Proof.
  induction a as [|t a IH]; intros l src Hv; [constructor|]. destruct Hv as (Hl & _ & _ & Hv). pose proof (valid_lsn _ _ _ Hv) as H1.
  specialize (IH _ _ Hv). change (lsn_after l (t :: a)) with (lsn_after (tx_lsn t) a). constructor; [lia|].
  eapply Forall_impl; [exact IH|]. cbn. lia.
Qed.

Lemma valid_top a : forall l src, l < 2 ^ 64 - 1 -> valid_txns l src a -> lsn_after l a < 2 ^ 64 - 1.
Proof. induction a as [|t a IH]; intros l src Hl Hv; [exact Hl|]. destruct Hv as (Ht & _ & _ & Hv). eapply IH; [|exact Hv]. lia. Qed.

Lemma split_at (P : Txn -> Prop) a : forall b c d, a ++ b = c ++ d -> Forall P a -> Forall (fun t => ~ P t) b -> Forall P c -> Forall (fun t => ~ P t) d -> a = c.
Proof.
  induction a as [|x a IH]; intros b [|y c] d E Ha Hb Hc Hd; cbn in E; [reflexivity| | |].
  - subst b. inversion Hb; inversion Hc; contradiction.
  - subst d. inversion Hd; inversion Ha; contradiction.
  - injection E as -> E. inversion Ha; inversion Hc; subst. f_equal. eapply IH; eauto.
Qed.

(** The stream resumes right after what is durable. *)
Lemma starts_resume c s done rest : starts (u64 (lastWrittenLSN s + 1)) c -> lastWrittenLSN s = lsn_at done -> done ++ rest = H ->
  c = mkStream (Idle done rest) [].
Proof.
  intros (hist & todo & -> & E & Hh & Ht) Hw E'. destruct (prefix_valid _ _ E') as [Hv1 Hv2].
  pose proof (valid_top _ _ _ (proj2 HL0) Hv1). pose proof (valid_lsn _ _ _ Hv1). unfold u64 in Hh, Ht. rewrite Z.mod_small in Hh, Ht by lia.
  assert (hist = done) as ->; [|f_equal; f_equal; rewrite <- E' in E; apply app_inv_head in E; exact E].
  rewrite Hw in Hh, Ht. apply (split_at (fun t => tx_lsn t < lsn_at done + 1) hist todo done rest); [congruence | exact Hh | | |].
  - eapply Forall_impl; [exact Ht|]. cbn. lia.
  - eapply Forall_impl; [apply (valid_bounds _ _ _ Hv1)|]. cbn. lia.
  - eapply Forall_impl; [apply (valid_bounds _ _ _ Hv2)|]. cbn. lia.
Qed.

(** ** Turns of the loop *)

(** The loop returns on a stop request, on an error of the primary, or after too
    many failures of the network; never with an error of its own. *)
Definition turn_end (t : Turn) (r : Replicator) (e : TurnEnd) : Prop :=
  match e with
  | Continue => True
  | Shutdown => t_stop t = true \/ t_received t = StopRequested
  | Failed ErrWAL => t_received t = ErrorResponse
  | Failed (ErrConnect | ErrSend | ErrReceive) => maxConsecutiveFailures <= connErrCnt r
  | Failed _ => False
  end.

Definition turn_done (t : Turn) (r' : Replicator) (e : TurnEnd) (c : Stream) : Prop :=
  base_inv r' /\ (e = Continue -> primaryConn r' = true -> stream_inv c (state r')) /\ turn_end t r' e.

Lemma written_range p s : phase_inv p s -> 0 <= lastWrittenLSN s < 2 ^ 64 - 1.
Proof.
  intros Hp. apply pg_phase_durable in Hp. pose proof (written_bound _ _ HH Hp). pose proof (valid_top _ _ _ (proj2 HL0) HH). lia.
Qed.

Lemma written_next p s : phase_inv p s -> u64 (lastWrittenLSN s + 1) = lastWrittenLSN s + 1.
Proof. intros Hp. pose proof (written_range _ _ Hp). unfold u64. apply Z.mod_small. lia. Qed.

Lemma retry_done t c e incr r : base_inv r -> e = ErrConnect \/ e = ErrSend \/ e = ErrReceive ->
  let '(r', e') := handleErrWithRetry e incr r in turn_done t r' e' c /\ (e' = Continue -> primaryConn r' = false).
Proof.
  intros Hb He. unfold handleErrWithRetry. set (r1 := if incr then _ else r).
  assert (Hb1 : base_inv r1) by (destruct Hb, incr; split; assumption).
  destruct (Z.ltb_spec (connErrCnt r1) maxConsecutiveFailures) as [Hlt|Hge]; (split; [split|]); try discriminate; auto.
  - destruct Hb1. split; assumption.
  - split; [discriminate | exact I].
  - split; [discriminate|]. destruct He as [-> | [-> | ->]]; exact Hge.
Qed.

Lemma send_done t c r : base_inv r -> (primaryConn r = true -> stream_inv c (state r)) ->
  let '(r', e) := sendStandbyStatusUpdate t r in turn_done t r' e c /\
  (e = Continue -> if t_send t then primaryConn r' = primaryConn r /\ state r' = state r else primaryConn r' = false).
Proof.
  intros Hb Hs. unfold sendStandbyStatusUpdate. destruct (t_send t).
  - split; [|auto]. split; [|split; [auto | exact I]]. destruct Hb as [[p Hp] Ht]. split; cbn; [eauto|].
    apply Forall_app_2; [exact Ht|]. constructor; [|constructor]. cbn. rewrite (written_next _ _ Hp). lia.
  - pose proof (retry_done t c ErrSend false r Hb ltac:(auto)) as Hr. destruct (handleErrWithRetry ErrSend false r) as [r' e].
    destruct Hr as [H1 H2]. split; [exact H1 | exact H2].
Qed.

Lemma base_moves r s' c : base_inv r -> stream_inv c s' -> lastWrittenLSN (state r) <= lastWrittenLSN s' -> base_inv (set_state s' r).
Proof.
  intros [_ Ht] [Hp _ _] Hw. split; cbn; [eauto|]. eapply Forall_impl; [exact Ht|]. intros e. apply told_mono, Hw.
Qed.

Lemma stream_received c lsn s : stream_inv c s -> stream_inv c (set_lastReceivedLSN lsn s).
Proof.
  intros [Hp Hk Hu]. split; [|exact Hk | exact Hu]. destruct (phase c); cbn in *; [destruct Hp as [E Hp] | destruct Hp as (E & Ec & Hp)];
    (split; [exact E|]); [|split; [exact Ec|]]; destruct Hp; split; auto; (eapply pg_tracks_ext; [.. | eassumption]; reflexivity).
Qed.

Lemma process_message_ok now c c' xld msg s : ParseV2 (xld_WALData xld) false = Some msg -> sends c msg c' -> stream_inv c s ->
  exists s' b, processMessage viewHash env subscription now xld s = Ret (s', b, None) /\ stream_inv c' s' /\ lastWrittenLSN s <= lastWrittenLSN s'.
Proof.
  intros Ep Hs Hi. unfold processMessage. rewrite (phase_in_stream _ _ (si_phase _ _ Hi)), Ep. set (s1 := if _ <? _ then _ else s).
  assert (Hi1 : stream_inv c s1) by (unfold s1; destruct (_ <? _); [apply stream_received|]; exact Hi).
  assert (Hw : lastWrittenLSN s1 = lastWrittenLSN s) by (unfold s1; destruct (_ <? _); reflexivity).
  destruct (message_ok now c msg c' s1 Hs Hi1) as (s' & -> & Hi' & Hm). cbn [mbind outcome_bind]. exists s', (is_commit msg).
  split; [reflexivity|]. split; [exact Hi' | lia].
Qed.

Lemma received_done t c c' r : base_inv r -> stream_inv c (state r) -> receives c (t_received t) c' ->
  exists r' e, handle_received viewHash env subscription t r = Ret (r', e) /\ turn_done t r' e c'.
Proof.
  intros Hb Hi Hr. unfold handle_received.
  assert (Hsend : forall r, base_inv r -> stream_inv c' (state r) -> exists r' e, Ret (sendStandbyStatusUpdate t r) = Ret (r', e) /\ turn_done t r' e c').
  { intros r1 Hb1 Hi1. pose proof (send_done t c' r1 Hb1 (fun _ => Hi1)) as Hsd. destruct (sendStandbyStatusUpdate t r1) as [r' e].
    exists r', e. split; [reflexivity | apply Hsd]. }
  assert (Hb2 : base_inv (set_messageReceived true r)) by (destruct Hb; split; assumption).
  inversion Hr as [? rest xld msg ? Ex Ep Hs E1 E2 E3|? rest pkm Ek E1 E2 E3|? rcv Hn _ E1 E2 E3]; subst.
  - unfold handle_copy_data. change (XLogDataByteID =? PrimaryKeepaliveMessageByteID) with false. rewrite Z.eqb_refl, Ex. cbn iota.
    destruct (process_message_ok (t_now t) c c' xld msg (state r) Ep Hs Hi) as (s' & b & Epm & Hi' & Hw).
    cbn [state set_messageReceived]. rewrite Epm. cbn [mbind outcome_bind].
    pose proof (base_moves (set_messageReceived true r) s' c' Hb2 Hi' Hw) as Hb3.
    destruct b; [apply Hsend; assumption|]. eexists _, _. split; [reflexivity|]. split; [exact Hb3|]. split; [auto | exact I].
  - unfold handle_copy_data. rewrite Z.eqb_refl, Ek. cbn [state set_messageReceived].
    pose proof (stream_received c' (pkm_ServerWALEnd pkm) _ Hi) as Hi'.
    assert (Hb3 : base_inv (set_state (set_lastReceivedLSN (pkm_ServerWALEnd pkm) (state r)) (set_messageReceived true r)))
      by (apply (base_moves _ _ c' Hb2 Hi'); cbn; lia).
    destruct (pkm_ReplyRequested pkm); [apply Hsend; assumption|]. eexists _, _. split; [reflexivity|]. split; [exact Hb3|]. split; [auto | exact I].
  - destruct (t_received t) as [|dr|dr|re| |data|] eqn:Er.
    + eexists _, _. split; [reflexivity|]. split; [exact Hb|]. split; [discriminate | right; exact Er].
    + eexists _, _. split; [reflexivity|]. split; [exact Hb|]. split; [auto | exact I].
    + unfold handle_tick. destruct (flushInterval <? _); [|eexists _, _; split; [reflexivity|]; split; [exact Hb|]; split; [auto | exact I]].
      destruct (tick_ok (t_now t) TimeTickFlushReason c' (state r) Hi ltac:(discriminate)) as (s' & -> & Hi' & Hw). cbn [mbind outcome_bind].
      apply Hsend; [apply (base_moves _ _ c'); assumption | exact Hi'].
    + destruct re; [eexists _, _; split; [reflexivity|]; split; [exact Hb|]; split; [auto | exact I].. |]. cbn [receive_error].
      pose proof (retry_done t c' ErrReceive true r Hb ltac:(auto)) as Hrt. destruct (handleErrWithRetry ErrReceive true r) as [r' e].
      exists r', e. split; [reflexivity | apply Hrt].
    + eexists _, _. split; [reflexivity|]. split; [exact Hb2|]. split; [discriminate | exact Er].
    + exfalso. apply (Hn data). reflexivity.
    + eexists _, _. split; [reflexivity|]. split; [exact Hb2|]. split; [auto | exact I].
Qed.

Lemma reset_stream now slot hist rest w : hist ++ rest = H -> saved (src_after hist) (lsn_at hist) w -> (forall i, rows_in i w = durable_rows i w) ->
  TryGetTxn w = None -> idle w = true -> stream_inv (mkStream (Idle hist rest) []) (reset now slot (lsn_at hist) w).
Proof.
  intros E Hs Hw Hn Hidle. split; cbn; [split; [exact E | apply reset_between; assumption] | intros i Hi; inversion Hi | intros i _; apply lookup_empty].
Qed.

Lemma reconnect_done t c1 r : base_inv r -> primaryConn r = false -> starts (u64 (lastWrittenLSN (state r) + 1)) c1 ->
  let '(r', e) := reconnect t r in turn_done t r' e c1.
Proof.
  intros Hb Hnc Hst. unfold reconnect. destruct (t_connect t).
  - pose proof Hb as [[p Hp] Ht]. destruct (rollback_ok _ (phase_session _ _ Hp)) as (w & Ew & Hr & Hd & Hl & Hn & Hi).
    cbn [state set_primaryConn log_sent]. rewrite Ew. pose proof (written_next _ _ Hp) as Hnx.
    destruct (pg_phase_durable _ _ Hp) as (done & rest & EH & Hsv & Hlw).
    assert (Hsi : stream_inv c1 (reset (t_now t) (slotName (state r)) (lastWrittenLSN (state r)) w)).
    { rewrite (starts_resume _ _ _ _ Hst Hlw (eq_sym EH)), Hlw. apply reset_stream; auto.
      - eapply saved_world; [.. | exact Hsv]; auto.
      - intros i. rewrite Hr, Hd. reflexivity. }
    split; [|split; [intros _ _; exact Hsi | exact I]]. split; cbn; [exists (phase c1); apply Hsi|].
    apply Forall_app_2; [exact Ht|]. constructor; [|constructor]. cbn. lia.
  - pose proof (retry_done t c1 ErrConnect true r Hb ltac:(auto)) as Hrt. destruct (handleErrWithRetry ErrConnect true r) as [r' e]. apply Hrt.
Qed.

Lemma turn_ok t r c c' : sys_inv r c -> feeds r c t c' -> exists r' e, loop_turn viewHash env subscription t r = Ret (r', e) /\ turn_done t r' e c'.
Proof.
  intros [Hb Hs] (c1 & Hc1 & Hrc). unfold loop_turn. destruct (t_stop t) eqn:Est.
  { eexists _, _. split; [reflexivity|]. split; [exact Hb|]. split; [discriminate | left; exact Est]. }
  assert (Hcon : let '(r1, e1) := if primaryConn r then (r, Continue) else reconnect t r in turn_done t r1 e1 c1).
  { destruct (primaryConn r) eqn:Ep; [subst c1; split; [exact Hb|]; split; [auto | exact I] | apply reconnect_done; assumption]. }
  destruct (if primaryConn r then (r, Continue) else reconnect t r) as [r1 e1]. destruct Hcon as (Hb1 & Hs1 & He1).
  destruct e1; [|eexists _, _; split; [reflexivity|]; split; [exact Hb1|]; split; [discriminate | exact He1]..].
  specialize (Hs1 eq_refl). destruct (primaryConn r1) eqn:Ep1; cbn [negb];
    [|eexists _, _; split; [reflexivity|]; split; [exact Hb1|]; split; [congruence | exact I]].
  specialize (Hs1 eq_refl). unfold standby_due. destruct (_ && _); [|apply (received_done t c1); assumption].
  pose proof (send_done t c1 r1 Hb1 (fun _ => Hs1)) as Hsd. destruct (sendStandbyStatusUpdate t r1) as [r2 e2]. destruct Hsd as ((Hb2 & Hs2 & He2) & Hc2).
  destruct e2; [|eexists _, _; split; [reflexivity|]; split; [exact Hb2|]; split; [discriminate | exact He2]..].
  destruct (primaryConn r2) eqn:Ep2; [apply (received_done t c1); auto|].
  eexists _, _. split; [reflexivity|]. split; [exact Hb2|]. split; [congruence | exact I].
Qed.

(** ** Restarts *)

(** What a crash leaves of the database, for a new session on it. *)
Definition reopened (d d' : db) : Prop :=
  (forall i, rows_in i d' = durable_rows i d) /\ (forall i, durable_rows i d' = durable_rows i d) /\ durable_lsn d' = durable_lsn d /\ TryGetTxn d' = None /\ idle d' = true.

Lemma start_ok now slot hist rest d w : hist ++ rest = H -> saved (src_after hist) (lsn_at hist) d -> reopened d w ->
  exists r, start subscription now slot w = Ret (inl r) /\ base_inv r /\ primaryConn r = false /\ lastWrittenLSN (state r) = lsn_at hist.
Proof.
  intros E Hs (Hr & Hd & Hl & Hn & Hi). apply (saved_world _ _ _ w) in Hs; [|assumption..].
  destruct (prefix_valid _ _ E) as [Hv _]. pose proof (valid_lsn _ _ _ Hv). pose proof (valid_top _ _ _ (proj2 HL0) Hv).
  unfold start, SelectSubscriptionLsn. destruct (SelectColumnsStmt PgSubscription lsnValueColumns) as [sql|] eqn:Es; [|discriminate].
  cbn [mbind outcome_bind]. destruct (law_query sql w Es Hn Hi) as (w1 & -> & Hw1). cbn [mbind outcome_bind].
  rewrite (proj2 Hs), law_lsn by lia. cbn iota. destruct (law_use w1) as (w3 & -> & Hw3).
  pose proof (same_world_trans _ _ _ Hw1 Hw3) as (B1 & _ & B3 & B4 & B5 & _ & B7).
  eexists. split; [reflexivity|]. split; [|auto]. split; cbn; [|constructor]. exists (Idle hist rest). cbn. split; [exact E|].
  apply reset_between; [eapply saved_world; [.. | exact Hs]; auto | | congruence | congruence]. intros i. rewrite B1, B3, Hr, Hd. reflexivity.
Qed.

(** A step of the replica: a turn after which the loop goes on, or a new start on
    what a crash, or a return of the loop and its [shutdown], left. *)
Inductive step : Replicator * Stream -> Replicator * Stream -> Prop :=
| step_turn t r c r' c' : feeds r c t c' -> loop_turn viewHash env subscription t r = Ret (r', Continue) -> step (r, c) (r', c')
| step_crash now slot r c w r' : reopened (world (state r)) w -> start subscription now slot w = Ret (inl r') -> step (r, c) (r', c)
| step_return t now slot r c c' r1 e r2 w r' : feeds r c t c' -> loop_turn viewHash env subscription t r = Ret (r1, e) ->
    shutdown viewHash env subscription now r1 = Ret r2 -> reopened (world (state r2)) w -> start subscription now slot w = Ret (inl r') -> step (r, c) (r', c').

Lemma phase_clean now reason p s : phase_inv p s -> reason <> DDLStmtFlushReason ->
  exists s', commitOngoingTxnIfClean viewHash env subscription now reason s = Ret (s', None) /\ phase_inv p s'.
Proof.
  intros Hp Hr. destruct p as [hist todo|hist t done rest todo].
  - destruct Hp as [E Hb]. destruct (clean_between now reason hist todo s E Hb Hr) as (s' & -> & Hb' & _). exists s'. cbn. auto.
  - destruct Hp as (E & Ec & Hi). destruct (clean_inside now reason hist t todo done s E Hi Hr) as (s' & -> & Hi' & _). exists s'. cbn. auto.
Qed.

(** [shutdown] leaves a prefix of the history, all of it durable. *)
Lemma shutdown_ok now r : base_inv r -> exists r', shutdown viewHash env subscription now r = Ret r' /\ durable_prefix H (state r') /\
  (forall i, rows_in i (world (state r')) = durable_rows i (world (state r'))) /\ TryGetTxn (world (state r')) = None.
Proof.
  intros [[p Hp] _]. unfold shutdown. destruct (phase_clean now OnCloseFlushReason p _ Hp ltac:(discriminate)) as (s' & -> & Hp'). cbn [mbind outcome_bind].
  destruct (rollback_ok _ (phase_session _ _ Hp')) as (w & -> & Hr & Hd & Hl & Hn & _). cbn [fst]. eexists. split; [reflexivity|]. cbn.
  split; [eapply durable_world; [.. | apply (pg_phase_durable _ _ Hp')]; auto|]. split; [intros i; rewrite Hr, Hd; reflexivity | exact Hn].
Qed.

Lemma start_again now slot s w r' : durable_prefix H s -> reopened (world s) w -> start subscription now slot w = Ret (inl r') ->
  base_inv r' /\ primaryConn r' = false.
Proof.
  intros (done & rest & E & Hs & _) Hw Est. destruct (start_ok now slot done rest _ w (eq_sym E) Hs Hw) as (r & E' & Hb & Hc & _).
  rewrite E' in Est. injection Est as ->. auto.
Qed.

Lemma step_inv r c r' c' : step (r, c) (r', c') -> sys_inv r c -> sys_inv r' c'.
Proof.
  intros Hst Hi. inversion Hst as [t ? ? ? ? Hf El|now slot ? ? w ? Hw Es|t now slot ? ? ? r1 e r2 w ? Hf El Hsh Hw Es]; subst.
  - destruct (turn_ok t r c c' Hi Hf) as (r1 & e & E & Hb & Hs & _). rewrite El in E. injection E as <- <-. split; auto.
  - destruct Hi as [[[p Hp] _] _]. destruct (start_again _ _ _ _ _ (pg_phase_durable _ _ Hp) Hw Es) as [Hb Hc]. split; [exact Hb | congruence].
  - destruct (turn_ok t r c c' Hi Hf) as (r1' & e' & E & Hb & _). rewrite El in E. injection E as <- <-.
    destruct (shutdown_ok now r1 Hb) as (r2' & E & Hd & _). rewrite Hsh in E. injection E as <-.
    destruct (start_again _ _ _ _ _ Hd Hw Es) as [Hb' Hc]. split; [exact Hb' | congruence].
Qed.

Lemma steps_inv x y : rtc step x y -> sys_inv x.1 x.2 -> sys_inv y.1 y.2.
Proof. induction 1 as [|[r c] [r1 c1] z Hs _ IH]; [auto|]. intros Hi. apply IH. eapply step_inv; eassumption. Qed.

(** ** Progress *)

(** A turn in which a message of the stream arrives and nothing fails. *)
Definition arrives (c : Stream) (t : Turn) (c' : Stream) : Prop := t_stop t = false /\ t_send t = true /\
  exists rest xld msg, t_received t = CopyData (XLogDataByteID :: rest) /\ ParseXLogData rest = Some xld /\ ParseV2 (xld_WALData xld) false = Some msg /\ sends c msg c'.

(** The turns that deliver the transaction [t] after [hist]. *)
Inductive delivers (hist : list Txn) (t : Txn) (todo : list Txn) : Stream -> list Turn -> Stream -> Prop :=
| delivers_last c turn c' : arrives c turn c' -> phase c' = Idle (hist ++ [t]) todo -> delivers hist t todo c [turn] c'
| delivers_more c turn c1 ts c' done rest : arrives c turn c1 -> phase c1 = Sending hist t done rest todo ->
    delivers hist t todo c1 ts c' -> delivers hist t todo c (turn :: ts) c'.

(** Nothing is left to do, or a tick will do it. *)
Definition settles (hist : list Txn) (s : replicationState) : Prop :=
  ongoingBatchTxn s = true /\ dirtyTxn s = true \/ saved (src_after hist) (lsn_at hist) (world s).

Definition open_during (c : Stream) (s : replicationState) : Prop :=
  match phase c with Idle _ _ => True | Sending _ _ _ _ _ => TryGetTxn (world s) <> None end.

(** What a message does to a transaction that is delivered without a tick. *)
Definition advances (c c' : Stream) (s' : replicationState) : Prop :=
  match phase c, phase c' with
  | Idle _ _, Idle _ _ => True
  | _, Sending _ _ _ _ _ => TryGetTxn (world s') <> None
  | Sending _ t _ _ _, Idle hist' _ => tx_changes t <> [] -> settles hist' s'
  end.

Lemma message_progress now c msg c' s : sends c msg c' -> stream_inv c s -> open_during c s ->
  exists s', process now msg s = Ret (s', None) /\ advances c c' s'.
Proof.
  intros Hs [Hp Hk Hu] Ho. unfold open_during in Ho. unfold advances.
  destruct Hs as [hist t todo an|hist t done rest todo an i Hn|hist t done ch rest todo an Ha|hist t done todo an|c|c|c]; cbn [phase announced phase_inv] in *.
  - destruct Hp as [E Hb]. destruct (pg_begin_step now t hist todo s E Hb) as (s' & -> & _ & Ht & _). eauto.
  - destruct Hp as (E & Ec & Hin). destruct (inside_relation now i t done hist s Hin (Hu i Hn)) as (s' & -> & _ & _ & _ & _ & _ & Ht).
    exists s'. split; [reflexivity | congruence].
  - destruct Hp as (E & Ec & Hin). destruct (inside_change now t ch done rest hist todo s E Ec Hin (Hk _ Ha)) as (s' & -> & _ & Hw & _).
    exists s'. split; [reflexivity | congruence].
  - destruct Hp as (E & Ec & Hin). rewrite app_nil_r in Ec. rewrite <- Ec in Hin.
    destruct (commit_message_step now t hist todo s E Hin) as (s' & -> & _ & _ & Hset). exists s'. split; [reflexivity|].
    intros Hne. apply Hset; [exact Ho | apply (i_dirty _ _ _ _ Hin), Hne].
  - exists s. split; [reflexivity|]. destruct (phase c); auto.
  - exists s. split; [reflexivity|]. destruct (phase c); auto.
  - exists s. split; [reflexivity|]. destruct (phase c); auto.
Qed.

Lemma message_turn now c c' xld msg s : ParseV2 (xld_WALData xld) false = Some msg -> sends c msg c' -> stream_inv c s -> open_during c s ->
  exists s' b, processMessage viewHash env subscription now xld s = Ret (s', b, None) /\ stream_inv c' s' /\ lastWrittenLSN s <= lastWrittenLSN s' /\ advances c c' s'.
Proof.
  intros Ep Hs Hi Ho. destruct (process_message_ok now c c' xld msg s Ep Hs Hi) as (s' & b & E & Hi' & Hw). exists s', b.
  split; [exact E|]. split; [exact Hi'|]. split; [exact Hw|]. unfold processMessage in E. rewrite (phase_in_stream _ _ (si_phase _ _ Hi)), Ep in E.
  set (s1 := if _ <? _ then _ else s) in E. cbn zeta in E.
  assert (Hi1 : stream_inv c s1 /\ open_during c s1) by (unfold s1; destruct (_ <? _); [split; [apply stream_received|]; assumption | auto]).
  destruct (message_progress now c msg c' s1 Hs (proj1 Hi1) (proj2 Hi1)) as (s2 & E2 & Hadv). rewrite E2 in E. cbn [mbind outcome_bind] in E.
  injection E as <- _. exact Hadv.
Qed.

Record connected (r : Replicator) (c : Stream) : Prop := mkConnected { co_base : base_inv r; co_conn : primaryConn r = true; co_stream : stream_inv c (state r) }.

Lemma send_connected t c r : connected r c -> t_send t = true -> exists r', sendStandbyStatusUpdate t r = (r', Continue) /\ connected r' c /\ state r' = state r /\
  sent r' = sent r ++ [StatusUpdate (u64 (lastReceivedLSN (state r) + 1)) (lastWrittenLSN (state r) + 1) (lastWrittenLSN (state r) + 1)].
Proof.
  intros [Hb Hc Hs] Ht. pose proof (send_done t c r Hb (fun _ => Hs)) as Hsd. unfold sendStandbyStatusUpdate in *. rewrite Ht in *.
  destruct Hsd as [(Hb' & Hs' & _) _]. eexists. split; [reflexivity|]. split; [split; [exact Hb' | exact Hc | exact Hs]|]. split; [reflexivity|].
  cbn. rewrite (written_next _ _ (si_phase _ _ Hs)). reflexivity.
Qed.

(** The part of a turn before it receives. *)
Lemma turn_head t c r : connected r c -> t_stop t = false -> t_send t = true ->
  exists r', loop_turn viewHash env subscription t r = handle_received viewHash env subscription t r' /\ connected r' c /\ state r' = state r.
Proof.
  intros Hc Hst Hse. unfold loop_turn. rewrite Hst, (co_conn _ _ Hc). cbn zeta beta iota. rewrite (co_conn _ _ Hc). cbn [negb].
  unfold standby_due. destruct (_ && _); [|exists r; auto]. destruct (send_connected t c r Hc Hse) as (r' & -> & Hc' & E & _).
  exists r'. rewrite (co_conn _ _ Hc'). auto.
Qed.

Lemma arrive_turn t c c' r : connected r c -> arrives c t c' -> open_during c (state r) ->
  exists r', loop_turn viewHash env subscription t r = Ret (r', Continue) /\ connected r' c' /\ advances c c' (state r').
Proof.
  intros Hc (Hst & Hse & rest & xld & msg & Er & Ex & Ep & Hs) Ho. destruct (turn_head t c r Hc Hst Hse) as (r1 & -> & Hc1 & E1). rewrite <- E1 in Ho.
  unfold handle_received. rewrite Er. unfold handle_copy_data. change (XLogDataByteID =? PrimaryKeepaliveMessageByteID) with false. rewrite Z.eqb_refl, Ex.
  destruct Hc1 as [Hb Hcn Hi]. destruct (message_turn (t_now t) c c' xld msg (state r1) Ep Hs Hi Ho) as (s' & b & E & Hi' & Hw & Hadv).
  cbn [state set_messageReceived]. rewrite E. cbn [mbind outcome_bind].
  assert (Hc2 : connected (set_state s' (set_messageReceived true r1)) c').
  { split; [|exact Hcn | exact Hi']. apply (base_moves _ _ c'); [destruct Hb; split; assumption | exact Hi' | exact Hw]. }
  destruct b; [|eexists; split; [reflexivity|]; auto]. destruct (send_connected t c' _ Hc2 Hse) as (r' & -> & Hc3 & E3 & _).
  exists r'. split; [reflexivity|]. split; [exact Hc3|]. rewrite E3. exact Hadv.
Qed.

Lemma deliver_run hist t todo c ts c' : delivers hist t todo c ts c' -> tx_changes t <> [] ->
  (phase c = Idle hist (t :: todo) \/ exists done rest, phase c = Sending hist t done rest todo) -> forall r, connected r c -> open_during c (state r) ->
  exists r', run viewHash env subscription r ts r' Continue /\ connected r' c' /\ phase c' = Idle (hist ++ [t]) todo /\ settles (hist ++ [t]) (state r').
Proof.
  intros Hd Hne. induction Hd as [c turn c' Ha Hp|c turn c1 ts c' done rest Ha Hp Hd IH]; intros Hph r Hc Ho;
    destruct (arrive_turn turn c _ r Hc Ha Ho) as (r1 & E1 & Hc1 & Hadv); unfold advances in Hadv; rewrite Hp in Hadv.
  - exists r1. split; [eapply run_cons; [exact E1 | constructor]|]. split; [exact Hc1|]. split; [exact Hp|].
    destruct Hph as [Hph|(done & rest & Hph)]; rewrite Hph in Hadv; [|apply Hadv, Hne].
    destruct Ha as (_ & _ & ? & ? & msg & _ & _ & _ & Hs). exfalso.
    destruct Hs; cbn in *; try congruence; rewrite Hph in Hp; injection Hp as Hp _; apply (f_equal length) in Hp; rewrite length_app in Hp; cbn in Hp; lia.
  - destruct (IH ltac:(eauto) r1 Hc1) as (r2 & Hr & Hc2 & Hp2 & Hset).
    + unfold open_during. rewrite Hp. destruct (phase c); exact Hadv.
    + exists r2. split; [eapply run_cons; [exact E1 | exact Hr] | auto].
Qed.

Lemma saved_written hist todo s : hist ++ todo = H -> between hist s -> saved (src_after hist) (lsn_at hist) (world s) -> lastWrittenLSN s = lsn_at hist.
Proof.
  intros E Hb [_ Hl]. destruct (prefix_valid _ _ E) as [Hv _]. destruct (b_durable _ _ Hb) as (done & rest & -> & [_ Hl'] & ->).
  pose proof (valid_top _ _ _ (proj2 HL0) Hv) as Ht. pose proof (valid_lsn _ _ _ Hv) as H0. apply valid_app in Hv. destruct Hv as [Hv1 Hv2].
  pose proof (valid_lsn _ _ _ Hv1). pose proof (valid_lsn _ _ _ Hv2). rewrite lsn_after_app in Ht, H0.
  assert (Es : ParseLSN (LSN_String (lsn_at done)) = ParseLSN (LSN_String (lsn_at (done ++ rest)))) by congruence.
  rewrite !law_lsn in Es by (rewrite ?lsn_after_app; lia). congruence.
Qed.

(** A tick makes it durable and tells the primary. *)
Lemma tick_turn t hist todo c r : connected r c -> phase c = Idle hist todo -> settles hist (state r) ->
  t_stop t = false -> t_send t = true -> t_received t = TickerFired None -> flushInterval < t_now t - lastCommitTime (state r) ->
  exists r', loop_turn viewHash env subscription t r = Ret (r', Continue) /\ connected r' c /\ saved (src_after hist) (lsn_at hist) (world (state r')) /\
    lastWrittenLSN (state r') = lsn_at hist /\ exists received earlier, sent r' = earlier ++ [StatusUpdate received (lsn_at hist + 1) (lsn_at hist + 1)].
Proof.
  intros Hc Hp Hset Hst Hse Er Ht. destruct (turn_head t c r Hc Hst Hse) as (r1 & -> & Hc1 & E1). rewrite <- E1 in Hset, Ht.
  unfold handle_received, handle_tick. rewrite Er. destruct (Z.ltb_spec flushInterval (t_now t - lastCommitTime (state r1))); [|lia].
  pose proof Hc1 as [Hb Hcn Hi]. pose proof (si_phase _ _ Hi) as Hph. rewrite Hp in Hph. destruct Hph as [E Hbt].
  destruct (clean_between (t_now t) TimeTickFlushReason hist todo _ E Hbt ltac:(discriminate)) as (s' & -> & Hbt' & Hm & Hsv).
  cbn [mbind outcome_bind]. specialize (Hsv Hset).
  assert (Hc2 : connected (set_state s' r1) c).
  { assert (Hi2 : stream_inv c s') by (apply (stream_moves c c _ _ Hi Hm); [reflexivity|]; rewrite Hp; cbn; auto).
    split; [apply (base_moves _ _ c); [exact Hb | exact Hi2 | apply Hm] | exact Hcn | exact Hi2]. }
  destruct (send_connected t c _ Hc2 Hse) as (r' & -> & Hc3 & E3 & E4). pose proof (saved_written _ _ _ E Hbt' Hsv) as Hwr.
  exists r'. rewrite E3. split; [reflexivity|]. split; [exact Hc3|]. split; [exact Hsv|]. split; [exact Hwr|]. cbn in E4. rewrite Hwr in E4. eauto.
Qed.
End Replay.
