(* ===== verification/PoolFacts.v ===== *)
(** * What the connection pool promises

    The sessions of a pool do not disturb each other, a session gets one
    connection and one transaction at a time, and a pool over a driver that
    behaves ([DriverLaws]) is the session that logical replication relies on. *)

From S2P Require Import Prelude GoTime Charset Schema Identifier InternalTables Delta DeltaSpec DeltaRefine DeltaFlush.
From S2P Require Import RowAppend RowDecode ReplaySpec PgDecode CatalogErrors Session Pool Logrepl LogreplRows LogreplReplay.

#[local] Open Scope Z_scope.

Section Entries.
Context `{HA : ArrowLib} `{HD : !DuckDB} `{HV : !Driver}.

(** The other sessions keep their connections and transactions. *)
Definition others_keep (id : Z) (p p' : Pool) : Prop :=
  forall id', id' <> id -> conns p' !! id' = conns p !! id' /\ txns p' !! id' = txns p !! id'.

Lemma others_refl id p : others_keep id p p.
Proof. split; reflexivity. Qed.
Lemma others_trans id p1 p2 p3 : others_keep id p1 p2 -> others_keep id p2 p3 -> others_keep id p1 p3.
Proof. intros H1 H2 id' Hne. destruct (H1 id' Hne), (H2 id' Hne). split; congruence. Qed.

Lemma GetConn_others id p : others_keep id p (fst (GetConn id p)).
Proof.
  unfold GetConn. destruct (conns p !! id); [apply others_refl|]. destruct (DB_Conn (engine p)) as [[d c]|]; [|apply others_refl].
  intros id' Hne. cbn. rewrite lookup_insert_ne by auto. split; reflexivity.
Qed.

Lemma GetConnForSchema_others id schema p : others_keep id p (fst (GetConnForSchema id schema p)).
Proof.
  unfold GetConnForSchema. pose proof (GetConn_others id p) as Ho. destruct (GetConn id p) as [p1 [conn|e]]; [|exact Ho].
  case_decide; [exact Ho|]. destruct (query_string _ _ _) as [cur|]; [|exact Ho]. case_decide; [exact Ho|].
  destruct (conn_Exec _ _ _ _) as [d [err|]]; (eapply others_trans; [exact Ho | split; reflexivity]).
Qed.

Lemma GetTxn_others id schema p : others_keep id p (fst (GetTxn id schema p)).
Proof.
  unfold GetTxn. destruct (txns p !! id); [apply others_refl|]. pose proof (GetConnForSchema_others id schema p) as Ho.
  destruct (GetConnForSchema id schema p) as [p1 [conn|e]]; [|exact Ho]. destruct (conn_BeginTx _ _) as [[d tx]|]; [|exact Ho].
  eapply others_trans; [exact Ho|]. intros id' Hne. cbn. rewrite lookup_insert_ne by auto. split; reflexivity.
Qed.

Lemma CloseConn_others id p : others_keep id p (fst (CloseConn id p)).
Proof.
  unfold CloseConn. destruct (conns p !! id); [|intros id' Hne; cbn; rewrite lookup_delete_ne by auto; split; reflexivity].
  destruct (conn_Raw_ErrBadConn _ _) as [d []]; cbn [negb]; [destruct (conn_Close _ _) as [d' r]|];
    intros id' Hne; cbn; rewrite lookup_delete_ne by auto; split; reflexivity.
Qed.

Lemma CloseTxn_others id p : others_keep id p (CloseTxn id p).
Proof. intros id' Hne. cbn. rewrite lookup_delete_ne by auto. split; reflexivity. Qed.

(** What was handed out is what is handed out again. *)
Lemma GetConn_again id p p' c : GetConn id p = (p', inl c) -> conns p' !! id = Some c /\ GetConn id p' = (p', inl c).
Proof.
  unfold GetConn. destruct (conns p !! id) as [c0|] eqn:Ec.
  - intros [= <- <-]. rewrite Ec. auto.
  - destruct (DB_Conn (engine p)) as [[d c1]|]; [|discriminate]. intros [= <- <-]. cbn. rewrite lookup_insert_eq. auto.
Qed.

Lemma GetTxn_again id schema schema' p p' tx : GetTxn id schema p = (p', inl tx) -> txns p' !! id = Some tx /\ GetTxn id schema' p' = (p', inl tx).
Proof.
  unfold GetTxn. destruct (txns p !! id) as [tx0|] eqn:Et.
  - intros [= <- <-]. rewrite Et. auto.
  - destruct (GetConnForSchema id schema p) as [p1 [conn|e]]; [|discriminate]. destruct (conn_BeginTx conn (engine p1)) as [[d tx1]|]; [|discriminate].
    intros [= <- <-]. cbn. rewrite lookup_insert_eq. auto.
Qed.

Lemma GetConn_txns id p : txns (fst (GetConn id p)) = txns p.
Proof. unfold GetConn. destruct (conns p !! id); [reflexivity|]. destruct (DB_Conn (engine p)) as [[d c]|]; reflexivity. Qed.
End Entries.

(** ** The laws of the driver, for the connection of one session *)
Section Laws.
Context `{HA : ArrowLib} `{HG : PgCodecs} `{HQ : !EqDecision (cell num128 num256)} `{HD : !DuckDB} `{HV : !Driver} `{HP : PgLogRepl}.
Context (viewHash : string -> string) (env subscription : string).
Context {T : Type} (tab : T -> tableIdentifier) (schema_of : T -> list Column) (rel_of : T -> RelationMessage) (indexed : bool).
Context `{HF : !FlushLaws viewHash tab schema_of indexed}.

Abbreviation rows_in := (rows_in viewHash tab schema_of indexed).

Class DriverLaws : Type := {
  d_stored : db -> string;
  d_durable_rows : T -> db -> list (list (cell num128 num256));
  d_durable_lsn : db -> string;
  d_active : STx -> db -> bool;
  d_idle : db -> bool;
  quiet (d d' : db) : Prop :=
    (forall i, rows_in i d' = rows_in i d) /\ d_stored d' = d_stored d /\ (forall i, d_durable_rows i d' = d_durable_rows i d) /\
    d_durable_lsn d' = d_durable_lsn d /\ (forall tx, d_active tx d' = d_active tx d) /\ d_idle d' = d_idle d;
  d_open : forall d, exists d' c, DB_Conn d = Some (d', c) /\ quiet d d';
  d_begin : forall c d, d_idle d = true -> exists d' tx, conn_BeginTx c d = Some (d', tx) /\ d_active tx d' = true /\
    (forall i, rows_in i d' = rows_in i d) /\ (forall i, d_durable_rows i d' = d_durable_rows i d) /\ d_durable_lsn d' = d_durable_lsn d;
  d_save : forall lsn sql d tx, UpdateStmt PgSubscription keyColumns lsnValueColumns = Ret sql -> d_active tx d = true ->
    exists d', tx_Exec tx sql [ArgString lsn; ArgString subscription] d = (d', None) /\ (forall i, rows_in i d' = rows_in i d) /\
    d_stored d' = lsn /\ (forall i, d_durable_rows i d' = d_durable_rows i d) /\ d_durable_lsn d' = d_durable_lsn d /\ d_active tx d' = true;
  d_commit : forall d tx, d_active tx d = true -> exists d', tx_Commit tx d = (d', true) /\ (forall i, rows_in i d' = rows_in i d) /\
    (forall i, d_durable_rows i d' = rows_in i d) /\ d_durable_lsn d' = d_stored d /\ d_active tx d' = false /\ d_idle d' = true;
  d_rollback_done : forall d tx, d_active tx d = false -> exists d' r, tx_Rollback tx d = (d', r) /\ quiet d d';
  d_rollback : forall d tx, d_active tx d = true -> exists d' r, tx_Rollback tx d = (d', r) /\ r <> RollbackErr /\
    (forall i, rows_in i d' = d_durable_rows i d) /\ (forall i, d_durable_rows i d' = d_durable_rows i d) /\ d_durable_lsn d' = d_durable_lsn d /\
    d_idle d' = true;
  d_query : forall c sql d, SelectColumnsStmt PgSubscription lsnValueColumns = Ret sql -> d_idle d = true ->
    conn_QueryRow c sql [ArgString subscription] d = RowString (d_durable_lsn d);
  d_lsn : forall l, 0 <= l < 2 ^ 64 -> ParseLSN (LSN_String l) = Some l;
  d_use : forall c d, exists d', conn_Exec c "USE public" [] d = (d', None) /\ quiet d d';
  d_create : forall c i d, exists d', conn_Exec c (generateCreateTableStmt env (rel_of i)) [] d = (d', None) /\ quiet d d';
  d_flush_rows : forall i j, untouched viewHash (d_durable_rows j) (tab i) (delta_schema (schema_of i));
  d_flush_lsn : forall i, untouched viewHash d_durable_lsn (tab i) (delta_schema (schema_of i));
  d_flush_active : forall i tx, untouched viewHash (d_active tx) (tab i) (delta_schema (schema_of i))
}.
End Laws.

(** ** The pool under the delta controller *)
Section Lift.
Context `{HA : ArrowLib} `{HQ : !EqDecision (cell num128 num256)} `{HD : !DuckDB} `{HV : !Driver}.
Context (viewHash : string -> string).

Abbreviation world := (@db HA PooledDB).

Lemma pooled_exec sql (p : world) : ExecContext (DuckDB := PooledDB) sql p = (set_engine (fst (ExecContext sql (engine p))) p, snd (ExecContext sql (engine p))).
Proof. cbn. destruct (ExecContext sql (engine p)). reflexivity. Qed.

(** A law of the engine about one statement, for the pool. *)
Ltac lifted L := intros; edestruct L as (?d & ?E & ?Hr); [eassumption.. |];
  eexists (set_engine _ _); rewrite pooled_exec; match goal with E : ExecContext _ _ = _ |- _ => rewrite E end; split; [reflexivity | cbn; assumption].
Ltac lifted2 L := intros; edestruct L as (?d & ?T & ?E & ?Hr); [eassumption.. |];
  eexists (set_engine _ _), _; rewrite pooled_exec; match goal with E : ExecContext _ _ = _ |- _ => rewrite E end; split; [reflexivity | cbn; eassumption].

Lemma pooled_sql_laws t schema indexed : SqlLaws viewHash t schema indexed -> SqlLaws (H0 := PooledDB) viewHash t schema indexed.
Proof.
  intros L. refine {| base := (fun p : world => base _ _ _ _ (SqlLaws := L) (engine p)) : @db HA PooledDB -> _;
    view := (fun p : world => view _ _ _ _ (SqlLaws := L) (engine p)) : @db HA PooledDB -> _;
    temp := (fun p : world => temp _ _ _ _ (SqlLaws := L) (engine p)) : @db HA PooledDB -> _ |}.
  - intros p. apply (arrow_law _ _ _ _ (SqlLaws := L)).
  - intros r p. destruct (register_law _ _ _ _ (SqlLaws := L) r (engine p)) as (d' & E & Hr). exists (set_engine d' p). cbn. rewrite E. auto.
  - intros p. rewrite pooled_exec. apply (drop_view_law _ _ _ _ (SqlLaws := L)).
  - intros p. apply (release_law _ _ _ _ (SqlLaws := L)).
  - intros p. rewrite pooled_exec. apply (drop_temp_law _ _ _ _ (SqlLaws := L)).
  - intros a r p. lifted (insert_only_law _ _ _ _ (SqlLaws := L) a r (engine p)).
  - intros a r p. lifted (delete_only_law _ _ _ _ (SqlLaws := L) a r (engine p)).
  - intros a r p. lifted2 (zero_delete_law _ _ _ _ (SqlLaws := L) a r (engine p)).
  - intros a r p. lifted2 (materialize_law _ _ _ _ (SqlLaws := L) a r (engine p)).
  - intros T p. lifted (general_insert_law _ _ _ _ (SqlLaws := L) T (engine p)).
  - intros a T p. lifted (general_delete_law _ _ _ _ (SqlLaws := L) a T (engine p)).
  - intros a T p. lifted (no_index_delete_law _ _ _ _ (SqlLaws := L) a T (engine p)).
  - intros T p. lifted (no_index_insert_law _ _ _ _ (SqlLaws := L) T (engine p)).
Defined.

(** What the controller's statements do not touch in the engine they do not touch in the pool. *)
Lemma pooled_untouched {X} (f : db -> X) t schema : untouched viewHash f t schema ->
  untouched (H0 := PooledDB) viewHash (fun p : world => f (engine p)) t schema.
Proof.
  intros [H1 H2 H3]. split.
  - intros r p p' E. cbn in E. destruct (RegisterView _ r (engine p)) as [d|] eqn:Er; [|discriminate]. injection E as <-. apply (H1 _ _ _ Er).
  - intros p. apply H2.
  - intros a sql p Hs Hin. rewrite pooled_exec. apply (H3 a sql (engine p) Hs Hin).
Qed.

Lemma pooled_untouched_txns {X} (f : gmap Z STx -> X) t schema : untouched (H0 := PooledDB) viewHash (fun p : world => f (txns p)) t schema.
Proof.
  split.
  - intros r p p' E. cbn in E. destruct (RegisterView _ r (engine p)) as [d|]; [|discriminate]. injection E as <-. reflexivity.
  - reflexivity.
  - intros a sql p _ _. rewrite pooled_exec. reflexivity.
Qed.

Lemma pooled_flush_laws {T} (tab : T -> tableIdentifier) schema_of indexed : FlushLaws viewHash tab schema_of indexed ->
  FlushLaws (H0 := PooledDB) viewHash tab schema_of indexed.
Proof.
  intros L. refine {| table_laws i := pooled_sql_laws (tab i) (schema_of i) indexed (table_laws _ _ _ _ (FlushLaws := L) i) |}.
  intros i j Hne. exact (pooled_untouched _ _ _ (frame_law _ _ _ _ (FlushLaws := L) i j Hne)).
Defined.
End Lift.

(** ** The pool is the session of logical replication *)
Section PoolSession.
Context `{HA : ArrowLib} `{HG : PgCodecs} `{HQ : !EqDecision (cell num128 num256)} `{HD : !DuckDB} `{HV : !Driver} `{HP : PgLogRepl}.
Context (viewHash : string -> string) (env subscription : string).
Context {T : Type} (tab : T -> tableIdentifier) (schema_of : T -> list Column) (rel_of : T -> RelationMessage) (indexed : bool).
Context (HF : FlushLaws viewHash tab schema_of indexed) (HL : DriverLaws viewHash env subscription tab schema_of rel_of indexed).
Context (id : Z) (schema : string).

Abbreviation world := (@db HA PooledDB).
Abbreviation active := (d_active viewHash env subscription tab schema_of rel_of indexed).
Abbreviation quiet := (quiet viewHash env subscription tab schema_of rel_of indexed).

(** A connection for the session, on an engine that looks the same. *)
Lemma pool_conn (p : Pool) : exists p' c, GetConn id p = (p', inl c) /\ conns p' !! id = Some c /\ txns p' = txns p /\ quiet (engine p) (engine p').
Proof.
  unfold GetConn. destruct (conns p !! id) as [c|] eqn:Ec.
  - exists p, c. split; [reflexivity|]. split; [exact Ec|]. split; [reflexivity|]. repeat split.
  - destruct (d_open viewHash env subscription tab schema_of rel_of indexed (engine p)) as (d & c & -> & Hq).
    eexists _, c. split; [reflexivity|]. cbn. split; [apply lookup_insert_eq|]. split; [reflexivity | exact Hq].
Qed.

(** The session sees what the engine shows. *)
Lemma quiet_trans d1 d2 d3 : quiet d1 d2 -> quiet d2 d3 -> quiet d1 d3.
Proof.
  intros (A1 & A2 & A3 & A4 & A5 & A6) (B1 & B2 & B3 & B4 & B5 & B6). split; [intros i; rewrite B1; apply A1|].
  split; [congruence|]. split; [intros i; rewrite B3; apply A3|]. split; [congruence|]. split; [intros tx; rewrite B5; apply A5 | congruence].
Qed.

Lemma pool_exec_catalog sql (p : world) : (forall c d, exists d', conn_Exec c sql [] d = (d', None) /\ quiet d d') ->
  exists p' : Pool, ExecCatalog (H1 := PooledSession id schema) sql [] p = (p', true) /\ txns p' = txns p /\ quiet (engine p) (engine p').
Proof.
  intros Hsql. unfold ExecCatalog. cbn [GetCatalogConn PooledSession]. destruct (pool_conn p) as (p1 & c & E & Ec & Et & Hq).
  rewrite E. cbn [holds fmap option_fmap option_map fst]. cbn [ConnExec PooledSession]. rewrite Ec.
  destruct (Hsql c (engine p1)) as (d' & Ed & Hq'). rewrite Ed. exists (set_engine d' p1). split; [reflexivity|]. split; [exact Et|].
  eapply quiet_trans; eassumption.
Qed.

Ltac same_entries := repeat match goal with
  | |- _ /\ _ => split
  | _ => assumption
  | _ => reflexivity
  | E : txns _ = txns _ |- _ => cbn; unfold Pool.TryGetTxn; rewrite E; reflexivity
  end.

Definition pool_pg_laws : PgLaws (HD := PooledDB) (HS := PooledSession id schema) (HF := pooled_flush_laws viewHash tab schema_of indexed HF)
  viewHash env subscription tab schema_of rel_of indexed.
Proof.
  refine {| stored := (fun p : world => d_stored _ _ _ _ _ _ _ (DriverLaws := HL) (engine p)) : @db HA PooledDB -> _;
    durable_rows := (fun i (p : world) => d_durable_rows _ _ _ _ _ _ _ (DriverLaws := HL) i (engine p)) : T -> @db HA PooledDB -> _;
    durable_lsn := (fun p : world => d_durable_lsn _ _ _ _ _ _ _ (DriverLaws := HL) (engine p)) : @db HA PooledDB -> _;
    LogreplReplay.active := (fun tx (p : world) => active tx (engine p)) : @Tx HA PooledDB (PooledSession id schema) -> @db HA PooledDB -> _;
    idle := (fun p : world => d_idle _ _ _ _ _ _ _ (DriverLaws := HL) (engine p)) : @db HA PooledDB -> _ |}.
  - intros p. cbn [GetCatalogConn PooledSession]. destruct (pool_conn p) as (p1 & c & -> & _ & Et & Hq). exists p1. split; [reflexivity|].
    destruct Hq as (Q1 & Q2 & Q3 & Q4 & Q5 & Q6). same_entries.
  - intros p Hn Hi. cbn in Hn. cbn [GetCatalogTxn PooledSession]. unfold GetTxn. unfold Pool.TryGetTxn in Hn. rewrite Hn.
    unfold GetConnForSchema. destruct (pool_conn p) as (p1 & c & -> & _ & Et & (Q1 & Q2 & Q3 & Q4 & Q5 & Q6)).
    rewrite decide_True by reflexivity.
    destruct (d_begin _ _ _ _ _ _ _ (DriverLaws := HL) c (engine p1)) as (d' & tx & -> & Ha & B1 & B2 & B3); [cbn in Hi; congruence|].
    eexists _, tx. split; [reflexivity|]. split; [apply lookup_insert_eq|]. split; [exact Ha|]. cbn.
    split; [intros i; etransitivity; [apply (B1 i) | apply (Q1 i)]|]. split; [intros i; rewrite B2; apply Q3 | congruence].
  - intros p tx Ht. cbn in Ht |- *. unfold GetTxn. unfold Pool.TryGetTxn in Ht. rewrite Ht. reflexivity.
  - intros lsn sql p tx Es Ha. destruct (d_save _ _ _ _ _ _ _ (DriverLaws := HL) lsn sql (engine p) tx Es Ha) as (d' & E & H1 & H2 & H3 & H4 & H5).
    exists (set_engine d' p). cbn [TxExec PooledSession]. rewrite E. split; [reflexivity|]. same_entries.
  - intros p tx Ha. destruct (d_commit _ _ _ _ _ _ _ (DriverLaws := HL) (engine p) tx Ha) as (d' & E & H1 & H2 & H3 & H4 & H5).
    exists (set_engine d' p). cbn [TxCommit PooledSession]. rewrite E. split; [reflexivity|]. auto.
  - intros p. split; [reflexivity|]. split; [reflexivity|]. split; [reflexivity|]. split; [apply lookup_delete_eq | split; reflexivity].
  - intros p tx Ha. destruct (d_rollback_done _ _ _ _ _ _ _ (DriverLaws := HL) (engine p) tx Ha) as (d' & r & E & (Q1 & Q2 & Q3 & Q4 & Q5 & Q6)).
    exists (set_engine d' p), r. cbn [TxRollback PooledSession]. rewrite E. split; [reflexivity|]. same_entries.
  - intros p tx Ha. destruct (d_rollback _ _ _ _ _ _ _ (DriverLaws := HL) (engine p) tx Ha) as (d' & r & E & Hr & H1 & H2 & H3 & H4).
    exists (set_engine d' p), r. cbn [TxRollback PooledSession]. rewrite E. split; [reflexivity|]. auto.
  - intros sql p Es Hn Hi. unfold QueryRowCatalog. cbn [GetCatalogConn PooledSession]. destruct (pool_conn p) as (p1 & c & -> & Ec & Et & (Q1 & Q2 & Q3 & Q4 & Q5 & Q6)).
    exists p1. cbn [holds fmap option_fmap option_map fst]. cbn [ConnQueryRow PooledSession]. rewrite Ec.
    rewrite (d_query _ _ _ _ _ _ _ (DriverLaws := HL) c sql (engine p1) Es) by (cbn in Hi; congruence). rewrite Q4. split; [reflexivity|].
    same_entries.
  - apply (d_lsn _ _ _ _ _ _ _ (DriverLaws := HL)).
  - intros p. destruct (pool_exec_catalog "USE public" p) as (p' & E & Et & (Q1 & Q2 & Q3 & Q4 & Q5 & Q6)); [intros c d; apply (d_use _ _ _ _ _ _ _ (DriverLaws := HL))|].
    exists p'. split; [exact E|]. same_entries.
  - intros i p. destruct (pool_exec_catalog (generateCreateTableStmt env (rel_of i)) p) as (p' & E & Et & (Q1 & Q2 & Q3 & Q4 & Q5 & Q6));
      [intros c d; apply (d_create _ _ _ _ _ _ _ (DriverLaws := HL))|].
    exists p'. split; [exact E|]. same_entries.
  - intros i j. apply (pooled_untouched viewHash (d_durable_rows _ _ _ _ _ _ _ (DriverLaws := HL) j)), (d_flush_rows _ _ _ _ _ _ _ (DriverLaws := HL)).
  - intros i. apply (pooled_untouched viewHash (d_durable_lsn _ _ _ _ _ _ _ (DriverLaws := HL))), (d_flush_lsn _ _ _ _ _ _ _ (DriverLaws := HL)).
  - intros i. exact (pooled_untouched_txns viewHash (fun m => m !! id) _ _).
  - intros i tx. apply (pooled_untouched viewHash (active tx)), (d_flush_active _ _ _ _ _ _ _ (DriverLaws := HL)).
Defined.
End PoolSession.
