(* ===== verification/Applier.v ===== *)
(** * The binlog applier (src/binlogreplication/binlog_replica_applier.go)

    The state of [binlogReplicaApplier] with its delta buffer, the plan-node
    predicates of src/mysqlutil, the position store's [Save], and one
    definition per handler: flush, commit, query, row event, event, and the
    turn of the event loop.  The SQL engine, the session and the catalog are
    the operations of the class [Engine]; the clock is the argument [now]. *)

From S2P Require Import Prelude GoTime Charset Schema Rbr RbrFacts Identifier InternalTables.
From S2P Require Import Delta DeltaSpec DeltaRefine Filtering Updater QueryVars RowAppend.

(** ** Plan nodes (mysqlutil.go) *)
Inductive Node : Type :=
| StartTransaction | Commit | LockTables | UnlockTables
| InsertInto | UpdateNode | DeleteFrom | LoadData
| CreateDB | DropDB | AlterDB | CreateTable | DropTable | RenameTable
| AddColumn | RenameColumn | DropColumn | ModifyColumn | AlterDefaultSet | AlterDefaultDrop
| Truncate | AnalyzeTable | CreateIndex | DropIndex | AlterIndex | CreateView | DropView
| DropRole | CreateRole | AlterUser | CreateUser | DropUser | Grant | RenameUser
| StartReplica | StopReplica | ResetReplica | ChangeReplicationSource
| OtherNode.

Definition CauseImplicitCommitAfter (node : Node) : bool :=
  match node with
  | CreateDB | DropDB | AlterDB | CreateTable | DropTable | RenameTable
  | AddColumn | RenameColumn | DropColumn | ModifyColumn | AlterDefaultSet | AlterDefaultDrop
  | Truncate | AnalyzeTable | CreateIndex | DropIndex | AlterIndex | CreateView | DropView
  | DropRole | CreateRole | AlterUser | CreateUser | DropUser | Grant | RenameUser
  | StartReplica | StopReplica | ResetReplica | ChangeReplicationSource => true
  | _ => false
  end.

Definition CauseImplicitCommitBefore (node : Node) : bool :=
  match node with
  | StartTransaction | LockTables | UnlockTables => true
  | _ => CauseImplicitCommitAfter node
  end.

Definition CauseSchemaChange (node : Node) : bool :=
  match node with
  | CreateDB | DropDB | AlterDB | CreateTable | DropTable | RenameTable
  | AddColumn | RenameColumn | DropColumn | ModifyColumn | AlterDefaultSet | AlterDefaultDrop
  | CreateIndex | DropIndex | AlterIndex | CreateView | DropView => true
  | _ => false
  end.

(** A schema change always commits, before and after. *)
Lemma schema_change_commits node : CauseSchemaChange node = true ->
  CauseImplicitCommitAfter node = true /\ CauseImplicitCommitBefore node = true.
Proof. destruct node; try discriminate; split; reflexivity. Qed.

(** ** Events *)
Record Format : Type := mkFormat { HeaderLength : Z; ChecksumAlgorithm : Z }.
Record Query : Type := mkQuery { q_Database : string; q_SQL : string }.

(** A [mysql.BinlogEvent]: its kind, and what its accessors give under a format
    ([None] for an error). *)
Inductive BinlogEvent : Type :=
| EvRand
| EvXID
| EvQuery (query : Format -> option Query) (bytes : slice)
| EvRotate
| EvFormatDescription (format : option Format)
| EvPreviousGTIDs (ok : Format -> bool)
| EvGTID (gtid : Format -> option (GTID * bool))
| EvTableMap (id : Format -> Z) (map : Format -> option TableMap)
| EvRows (kind : RowEventType) (id : Format -> Z) (rows : Format -> TableMap -> option Rows)
| EvHeartbeat
| EvStop
| EvOther (bytes : slice).

Record TableInfo : Type := mkTableInfo { ti_Schema : list Column; ti_PkOrdinals : list nat; ti_Name : string }.

Inductive ApplierError : Type :=
| ErrConn | ErrTxn | ErrFlush (e : FlushError) | ErrEmptyPosition | ErrSavePosition
| ErrQuery | ErrCommit | ErrPrepareQuery | ErrEvent | ErrUuid
| ErrUnknownEvent (code : Z) | ErrNoTableMap (id : Z) | ErrTableSchema | ErrSchemaMismatch
| ErrCell (e : CellError) | ErrUpdater (e : Updater.UpdaterError) | ErrParseRow
| ErrUnsupportedFlags (flags : Z) | ErrChecksum | ErrStream | ErrReconnect | ErrApplyingQuery (e : ApplierError).

Inductive QueryResult : Type := QueryOk | NothingToCommit | QueryErr.
Inductive TxResult : Type := TxOk | TxDone | TxErr.
Inductive CommitKind : Type := NormalCommit | ImplicitCommitBeforeStmt | ImplicitCommitAfterStmt.

#[export] Instance Node_eq_dec : EqDecision Node.
Proof. solve_decision. Defined.

#[export] Instance CommitKind_eq_dec : EqDecision CommitKind.
Proof. solve_decision. Defined.

Definition rowFlag_endOfStatement : Z := 1.
Definition rowFlag_noForeignKeyChecks : Z := 2.
Definition QFlagOptionAutoIsNull : Z := 16384.
Definition QFlagOptionNotAutocommit : Z := 524288.
Definition QFlagOptionNoForeignKeyChecks : Z := 67108864.
Definition QFlagOptionRelaxedUniqueChecks : Z := 134217728.

(** [flags &^ bit] where the bit is set. *)
Definition clear_flag (flags bit : Z) : Z := Z.land flags (Z.lnot bit).

(** ** What the applier calls *)
Class Engine `{DuckDB} : Type := {
  Position : Type;
  AppendGTID : Position -> option GTID -> Position;
  Position_IsZero : Position -> bool;
  Position_String : Position -> string;
  StripChecksum : Format -> BinlogEvent -> BinlogEvent * bool;
  (* the session (package adapter) *)
  GetCatalogConn : db -> bool;
  GetCatalogTxn : db -> option db;
  GetTxn : db -> option db;
  TryGetTxn : db -> bool;
  TxCommit : db -> db * TxResult;
  TxRollback : db -> db;
  CloseTxn : db -> db;
  getAutocommit : db -> bool;
  SetSessionVariable : string -> Z -> db -> db;
  (* a statement with arguments in the session's transaction *)
  ExecArgs : string -> list string -> db -> db * bool;
  (* the engine: analysing and running a query in a database *)
  PrepareQuery : string -> string -> db -> option Node;
  RunQuery : string -> string -> db -> db * QueryResult;
  SetGtidExecuted : string -> db -> db;
  LookupTable : string -> string -> db -> option TableInfo;
  SourceServer : GTID -> string;
  persistSourceUuid : string -> db -> option db;
  (* the row-by-row writer: values, decoding and prepared statements *)
  value : Type;
  nil_value : value;
  vitess_CellValue : slice -> Z -> Z -> Z -> Column -> option (value * Z);
  convertSqlTypesValue : value -> Column -> option value;
  PrepareStmt : string -> db -> bool;
  ExecStmt : string -> list value -> db -> option db;
  row_Equals : list value -> list value -> list Column -> option bool
}.

Section Applier.
Context `{HA : ArrowLib} `{Codecs} `{VitessLib} `{HD : !DuckDB} `{HE : !Engine}.
Context (dict_nil : cell num128 num256) (viewHash : string -> string).
(** The environment variable REPLICATION_WITHOUT_INDEX and the filters. *)
Context (env : string) (filters : option filterConfiguration).

Record Applier : Type := mkApplier {
  format : option Format;
  tableMapsById : gmap Z TableMap;
  tablesByName : gmap (string * string) TableInfo;
  currentGtid : option GTID;
  previousGtid : option GTID;
  replicationSourceUuid : string;
  currentPosition : Position;
  pendingPosition : Position;
  ongoingBatchTxn : bool;
  dirtyTxn : bool;
  dirtyStream : bool;
  inTxnStmtID : Z;
  deltaBufSize : Z;
  lastCommitTime : Z;
  tables : Tables;
  world : db;
  lastSqlError : option ApplierError
}.

Definition set_format (v : option Format) (s : Applier) : Applier :=
  mkApplier v (tableMapsById s) (tablesByName s) (currentGtid s) (previousGtid s) (replicationSourceUuid s) (currentPosition s) (pendingPosition s) (ongoingBatchTxn s) (dirtyTxn s) (dirtyStream s) (inTxnStmtID s) (deltaBufSize s) (lastCommitTime s) (tables s) (world s) (lastSqlError s).
Definition set_tableMapsById (v : gmap Z TableMap) (s : Applier) : Applier :=
  mkApplier (format s) v (tablesByName s) (currentGtid s) (previousGtid s) (replicationSourceUuid s) (currentPosition s) (pendingPosition s) (ongoingBatchTxn s) (dirtyTxn s) (dirtyStream s) (inTxnStmtID s) (deltaBufSize s) (lastCommitTime s) (tables s) (world s) (lastSqlError s).
Definition set_tablesByName (v : gmap (string * string) TableInfo) (s : Applier) : Applier :=
  mkApplier (format s) (tableMapsById s) v (currentGtid s) (previousGtid s) (replicationSourceUuid s) (currentPosition s) (pendingPosition s) (ongoingBatchTxn s) (dirtyTxn s) (dirtyStream s) (inTxnStmtID s) (deltaBufSize s) (lastCommitTime s) (tables s) (world s) (lastSqlError s).
Definition set_currentGtid (v : option GTID) (s : Applier) : Applier :=
  mkApplier (format s) (tableMapsById s) (tablesByName s) v (previousGtid s) (replicationSourceUuid s) (currentPosition s) (pendingPosition s) (ongoingBatchTxn s) (dirtyTxn s) (dirtyStream s) (inTxnStmtID s) (deltaBufSize s) (lastCommitTime s) (tables s) (world s) (lastSqlError s).
Definition set_previousGtid (v : option GTID) (s : Applier) : Applier :=
  mkApplier (format s) (tableMapsById s) (tablesByName s) (currentGtid s) v (replicationSourceUuid s) (currentPosition s) (pendingPosition s) (ongoingBatchTxn s) (dirtyTxn s) (dirtyStream s) (inTxnStmtID s) (deltaBufSize s) (lastCommitTime s) (tables s) (world s) (lastSqlError s).
Definition set_replicationSourceUuid (v : string) (s : Applier) : Applier :=
  mkApplier (format s) (tableMapsById s) (tablesByName s) (currentGtid s) (previousGtid s) v (currentPosition s) (pendingPosition s) (ongoingBatchTxn s) (dirtyTxn s) (dirtyStream s) (inTxnStmtID s) (deltaBufSize s) (lastCommitTime s) (tables s) (world s) (lastSqlError s).
Definition set_currentPosition (v : Position) (s : Applier) : Applier :=
  mkApplier (format s) (tableMapsById s) (tablesByName s) (currentGtid s) (previousGtid s) (replicationSourceUuid s) v (pendingPosition s) (ongoingBatchTxn s) (dirtyTxn s) (dirtyStream s) (inTxnStmtID s) (deltaBufSize s) (lastCommitTime s) (tables s) (world s) (lastSqlError s).
Definition set_pendingPosition (v : Position) (s : Applier) : Applier :=
  mkApplier (format s) (tableMapsById s) (tablesByName s) (currentGtid s) (previousGtid s) (replicationSourceUuid s) (currentPosition s) v (ongoingBatchTxn s) (dirtyTxn s) (dirtyStream s) (inTxnStmtID s) (deltaBufSize s) (lastCommitTime s) (tables s) (world s) (lastSqlError s).
Definition set_ongoingBatchTxn (v : bool) (s : Applier) : Applier :=
  mkApplier (format s) (tableMapsById s) (tablesByName s) (currentGtid s) (previousGtid s) (replicationSourceUuid s) (currentPosition s) (pendingPosition s) v (dirtyTxn s) (dirtyStream s) (inTxnStmtID s) (deltaBufSize s) (lastCommitTime s) (tables s) (world s) (lastSqlError s).
Definition set_dirtyTxn (v : bool) (s : Applier) : Applier :=
  mkApplier (format s) (tableMapsById s) (tablesByName s) (currentGtid s) (previousGtid s) (replicationSourceUuid s) (currentPosition s) (pendingPosition s) (ongoingBatchTxn s) v (dirtyStream s) (inTxnStmtID s) (deltaBufSize s) (lastCommitTime s) (tables s) (world s) (lastSqlError s).
Definition set_dirtyStream (v : bool) (s : Applier) : Applier :=
  mkApplier (format s) (tableMapsById s) (tablesByName s) (currentGtid s) (previousGtid s) (replicationSourceUuid s) (currentPosition s) (pendingPosition s) (ongoingBatchTxn s) (dirtyTxn s) v (inTxnStmtID s) (deltaBufSize s) (lastCommitTime s) (tables s) (world s) (lastSqlError s).
Definition set_inTxnStmtID (v : Z) (s : Applier) : Applier :=
  mkApplier (format s) (tableMapsById s) (tablesByName s) (currentGtid s) (previousGtid s) (replicationSourceUuid s) (currentPosition s) (pendingPosition s) (ongoingBatchTxn s) (dirtyTxn s) (dirtyStream s) v (deltaBufSize s) (lastCommitTime s) (tables s) (world s) (lastSqlError s).
Definition set_deltaBufSize (v : Z) (s : Applier) : Applier :=
  mkApplier (format s) (tableMapsById s) (tablesByName s) (currentGtid s) (previousGtid s) (replicationSourceUuid s) (currentPosition s) (pendingPosition s) (ongoingBatchTxn s) (dirtyTxn s) (dirtyStream s) (inTxnStmtID s) v (lastCommitTime s) (tables s) (world s) (lastSqlError s).
Definition set_lastCommitTime (v : Z) (s : Applier) : Applier :=
  mkApplier (format s) (tableMapsById s) (tablesByName s) (currentGtid s) (previousGtid s) (replicationSourceUuid s) (currentPosition s) (pendingPosition s) (ongoingBatchTxn s) (dirtyTxn s) (dirtyStream s) (inTxnStmtID s) (deltaBufSize s) v (tables s) (world s) (lastSqlError s).
Definition set_tables (v : Tables) (s : Applier) : Applier :=
  mkApplier (format s) (tableMapsById s) (tablesByName s) (currentGtid s) (previousGtid s) (replicationSourceUuid s) (currentPosition s) (pendingPosition s) (ongoingBatchTxn s) (dirtyTxn s) (dirtyStream s) (inTxnStmtID s) (deltaBufSize s) (lastCommitTime s) v (world s) (lastSqlError s).
Definition set_world (v : db) (s : Applier) : Applier :=
  mkApplier (format s) (tableMapsById s) (tablesByName s) (currentGtid s) (previousGtid s) (replicationSourceUuid s) (currentPosition s) (pendingPosition s) (ongoingBatchTxn s) (dirtyTxn s) (dirtyStream s) (inTxnStmtID s) (deltaBufSize s) (lastCommitTime s) (tables s) v (lastSqlError s).
Definition set_lastSqlError (v : option ApplierError) (s : Applier) : Applier :=
  mkApplier (format s) (tableMapsById s) (tablesByName s) (currentGtid s) (previousGtid s) (replicationSourceUuid s) (currentPosition s) (pendingPosition s) (ongoingBatchTxn s) (dirtyTxn s) (dirtyStream s) (inTxnStmtID s) (deltaBufSize s) (lastCommitTime s) (tables s) (world s) v.

(** A handler leaves a state and perhaps an error; [do s <- m; k] stops at the error. *)
Definition res : Type := outcome (Applier * option ApplierError).
Definition ok (s : Applier) : res := Ret (s, None).
Definition err (e : ApplierError) (s : Applier) : res := Ret (s, Some e).
Definition andThen (m : res) (k : Applier -> res) : res :=
  '(s, e) ← m; match e with Some e => err e s | None => k s end.
#[local] Notation "'do' s <- m ; k" := (andThen m (fun s => k)) (at level 10, s name, m at level 100, k at level 200).

Definition setSqlError (e : ApplierError) (s : Applier) : Applier := set_lastSqlError (Some e) s.

(** ** Flush and commit *)
Definition flushDeltaBuffer (reason : FlushReason) (s : Applier) : res :=
  if negb (GetCatalogConn (world s)) then err ErrConn s else
  match GetCatalogTxn (world s) with
  | None => err ErrTxn s
  | Some w =>
      '(w, ts, _, e) ← Flush viewHash true env reason (tables s) zeroStats w;
      let s := set_deltaBufSize 0 (set_tables ts (set_world w s)) in
      match e with
      | Some e => err (ErrFlush e) (set_world (CloseTxn (TxRollback (world s))) (setSqlError (ErrFlush e) s))
      | None => ok s
      end
  end.

(** [positionStore.Save] (binlog_position_store.go). *)
Definition defaultChannelName : string := EmptyString.
Definition Save (position : Position) (s : Applier) : res :=
  if Position_IsZero position then err ErrEmptyPosition s else
  match GetCatalogTxn (world s) with
  | None => err ErrSavePosition s
  | Some w =>
      sql ← UpsertStmt BinlogPosition;
      let '(w, done) := ExecArgs sql [defaultChannelName; Position_String position] w in
      if done : bool then ok (set_world w s) else err ErrSavePosition (set_world w s)
  end.

(** [execute]: an error other than "nothing to commit" is returned. *)
Definition execute (database query : string) (s : Applier) : res :=
  match RunQuery database query (world s) with
  | (w, QueryErr) => err ErrQuery (set_world w s)
  | (w, _) => ok (set_world w s)
  end.

(** The COMMIT of the session, then of a transaction that was started by hand. *)
Definition commit_session (kind : CommitKind) (s : Applier) : res :=
  do s <- (if negb (bool_decide (kind = ImplicitCommitAfterStmt)) || negb (getAutocommit (world s))
           then execute EmptyString "COMMIT" s else ok s);
  if TryGetTxn (world s) then
    match TxCommit (world s) with
    | (w, TxErr) => err ErrCommit (set_world w s)
    | (w, _) => ok (set_world (CloseTxn w) s)
    end
  else ok s.

Definition reset_flags (s : Applier) : Applier :=
  set_inTxnStmtID 0 (set_dirtyStream false (set_dirtyTxn false (set_ongoingBatchTxn false s))).

Definition commitOngoingTxn (now : Z) (kind : CommitKind) (reason : FlushReason) (s : Applier) : res :=
  do s <- flushDeltaBuffer reason s;
  let s := if decide (kind = ImplicitCommitBeforeStmt) then s
           else set_pendingPosition (AppendGTID (pendingPosition s) (currentGtid s)) s in
  do s <- Save (pendingPosition s) s;
  do s <- commit_session kind s;
  let s := set_lastCommitTime now (reset_flags s) in
  let s := set_currentPosition (pendingPosition s) s in
  ok (set_world (SetGtidExecuted (Position_String (currentPosition s)) (world s)) s).

(** Milliseconds. *)
Definition mayExtendBatchTxn (now : Z) (s : Applier) : bool * FlushReason :=
  if ongoingBatchTxn s then
    if 200 <=? now - lastCommitTime s then (false, TimeTickFlushReason)
    else if Z.shiftl 128 20 <=? deltaBufSize s then (false, MemoryLimitFlushReason)
    else (true, UnknownFlushReason)
  else (false, UnknownFlushReason).

Definition extendOrCommitBatchTxn (now : Z) (s : Applier) : res :=
  let '(extend, reason) := mayExtendBatchTxn now s in
  if extend then ok (set_dirtyStream false (set_pendingPosition (AppendGTID (pendingPosition s) (currentGtid s)) s))
  else commitOngoingTxn now NormalCommit reason s.

(** ** Queries *)

(** The first switch of [executeQueryWithEngine] for a node that is neither an
    extendable BEGIN nor a COMMIT: implicitCommit, flushChangelog, flushReason. *)
Definition query_plan (node : Node) (beginReason : FlushReason) : bool * bool * FlushReason :=
  match node with
  | StartTransaction => (true, true, beginReason)
  | InsertInto | UpdateNode | DeleteFrom | LoadData => (false, true, DMLStmtFlushReason)
  | _ =>
      let before := CauseImplicitCommitBefore node in
      (before, before, if CauseSchemaChange node then DDLStmtFlushReason else UnknownFlushReason)
  end.

Definition executeQueryWithEngine (now : Z) (query : Query) (s : Applier) : res :=
  if bool_decide (q_Database query = "mysql") && String.prefix "TRUNCATE TABLE time_zone" (q_SQL query) then
    commitOngoingTxn now ImplicitCommitAfterStmt DMLStmtFlushReason s
  else
  match PrepareQuery (q_Database query) (q_SQL query) (world s) with
  | None => err ErrPrepareQuery s
  | Some node =>
      let '(extendable, beginReason) := mayExtendBatchTxn now s in
      match node with
      | Commit => extendOrCommitBatchTxn now s
      | _ =>
        if bool_decide (node = StartTransaction) && extendable then
          ok (set_dirtyStream true (set_pendingPosition (AppendGTID (pendingPosition s) (previousGtid s)) s))
        else
          let '(implicitCommit, flushChangelog, flushReason) := query_plan node beginReason in
          let s := if CauseSchemaChange node then set_tablesByName ∅ s else s in
          do s <- (if flushChangelog then flushDeltaBuffer flushReason s else ok s);
          do s <- (if implicitCommit && dirtyTxn s then commitOngoingTxn now ImplicitCommitBeforeStmt flushReason s else ok s);
          do s <- execute (q_Database query) (q_SQL query) s;
          let s := set_dirtyStream true (set_dirtyTxn true s) in
          let s := set_ongoingBatchTxn (bool_decide (node = StartTransaction)) s in
          if CauseImplicitCommitAfter node then commitOngoingTxn now ImplicitCommitAfterStmt flushReason s else ok s
      end
  end.

(** ** Row events *)
Definition getTableSchema (tableName databaseName : string) (s : Applier) : option (Applier * TableInfo) :=
  let key := (strings_ToLower databaseName, strings_ToLower tableName) in
  match tablesByName s !! key with
  | Some info => Some (s, info)
  | None =>
      match LookupTable databaseName tableName (world s) with
      | None => None
      | Some info => Some (set_tablesByName (<[key := info]> (tablesByName s)) s, info)
      end
  end.

(** [parseRow]: one value per column of the table; an absent column is nil. *)
Fixpoint parseRow_loop (types metas : list Z) (schema : list Column) (present nulls : Updater.Bitmap) (data : slice)
    (i : nat) (pos : Z) : outcome (option (list value)) :=
  match types with
  | [] => Ret (Some [])
  | typ :: types' =>
      column ← at_index schema i;
      here ← Updater.Bit present i;
      if negb here then
        rest ← parseRow_loop types' metas schema present nulls data (S i) pos;
        Ret (rest ≫= fun vs => Some (nil_value :: vs))
      else
        isNull ← Updater.Bit nulls i;
        if isNull : bool then
          (* convertSqlTypesValue of NULL is nil *)
          rest ← parseRow_loop types' metas schema present nulls data (S i) pos;
          Ret (rest ≫= fun vs => Some (nil_value :: vs))
        else
          md ← at_index metas i;
          match vitess_CellValue data pos typ md column with
          | None => Ret None
          | Some (v, n) =>
              match convertSqlTypesValue v column with
              | None => Ret None
              | Some v =>
                  rest ← parseRow_loop types' metas schema present nulls data (S i) (pos + n);
                  Ret (rest ≫= fun vs => Some (v :: vs))
              end
          end
  end.
Definition parseRow (tm : TableMap) (schema : list Column) (present nulls : Updater.Bitmap) (data : slice) : outcome (option (list value)) :=
  parseRow_loop (tm_Types tm) (tm_Metadata tm) schema present nulls data 0 0.

(** An image that is not there is the nil row. *)
Definition parse_image (tm : TableMap) (schema : list Column) (present nulls : Updater.Bitmap) (data : slice) : outcome (option (list value)) :=
  if (0 <? s_len data)%nat then parseRow tm schema present nulls data else Ret (Some []).

Fixpoint parse_rows (tm : TableMap) (schema : list Column) (rows : Rows) (l : list Row)
    : outcome (option (list (list value) * list (list value))) :=
  match l with
  | [] => Ret (Some ([], []))
  | r :: l' =>
      i ← parse_image tm schema (rows_IdentifyColumns rows) (row_NullIdentifyColumns r) (row_Identify r);
      match i with
      | None => Ret None
      | Some i =>
          d ← parse_image tm schema (rows_DataColumns rows) (row_NullColumns r) (row_Data r);
          match d with
          | None => Ret None
          | Some d => rest ← parse_rows tm schema rows l'; Ret (rest ≫= fun '(ids, ds) => Some (i :: ids, d :: ds))
          end
      end
  end.

Definition writeChanges (tm : TableMap) (tableName : string) (info : TableInfo) (event : RowEventType) (rows : Rows)
    (s : Applier) : res :=
  parsed ← parse_rows tm (ti_Schema info) rows (rows_Rows rows);
  match parsed with
  | None => err ErrParseRow s
  | Some (identityRows, dataRows) =>
      match GetTxn (world s) with
      | None => err ErrTxn s
      | Some w =>
          tu ← Updater.newTableUpdater PrepareStmt (tm_Database tm) tableName (ti_Schema info) (ti_PkOrdinals info)
                 (length (tm_Types tm)) (rows_IdentifyColumns rows) (rows_DataColumns rows) event w;
          match tu with
          | inr e => err (ErrUpdater e) (set_world w s)
          | inl tu =>
              '(w, e) ← match event with
                        | DeleteRowEvent => Updater.Delete ExecStmt tu identityRows w
                        | InsertRowEvent => Ret (Updater.Insert ExecStmt tu dataRows w)
                        | UpdateRowEvent => Updater.Update PrepareStmt ExecStmt row_Equals nil_value tu identityRows dataRows w
                        end;
              match e with
              | Some e => err (ErrUpdater e) (set_world w s)
              | None => ok (set_world w s)
              end
          end
      end
  end.

(** [appendRowFormatChanges] on the applier's appender of the table. *)
Definition append_row_event (tm : TableMap) (tableName : string) (schema : list Column) (event : RowEventType) (rows : Rows)
    (s : Applier) : res :=
  let id := mkTableId (tm_Database tm) tableName in
  '(a, ts) ← GetDeltaAppender id schema (tables s);
  '(a, size, e) ← appendRowFormatChanges dict_nil tm schema event (rows_Rows rows) (currentGtid s) (inTxnStmtID s) a (deltaBufSize s);
  let s := set_deltaBufSize size (set_tables (update_table id (fun _ => a) ts) s) in
  match e with
  | Some e => err (ErrCell e) s
  | None => ok s
  end.

Definition supported_flags (flags : Z) : Z := clear_flag (clear_flag flags rowFlag_endOfStatement) rowFlag_noForeignKeyChecks.

(** All the columns are present, in the images the event kind has. *)
Definition is_row_format (event : RowEventType) (rows : Rows) (fieldCount : nat) : bool :=
  match event with
  | DeleteRowEvent => (Updater.BitCount (rows_IdentifyColumns rows) =? fieldCount)%nat
  | UpdateRowEvent => (Updater.BitCount (rows_IdentifyColumns rows) =? fieldCount)%nat
                      && (Updater.BitCount (rows_DataColumns rows) =? fieldCount)%nat
  | InsertRowEvent => (Updater.BitCount (rows_DataColumns rows) =? fieldCount)%nat
  end.

Definition processRowEvent (kind : RowEventType) (id : Format -> Z) (rows : Format -> TableMap -> option Rows) (s : Applier) : res :=
  match format s with
  | None => Panic
  | Some fmt =>
      match tableMapsById s !! id fmt with
      | None => err (ErrNoTableMap (id fmt)) s
      | Some tm =>
          if bool_decide (tm_Database tm = "mysql") then ok s
          else if isTableFilteredOut filters (tm_Database tm) (tm_Name tm) then ok s
          else match rows fmt tm with
          | None => err ErrEvent s
          | Some rows =>
              let flags := supported_flags (rows_Flags rows) in
              let s := if flags =? 0 then s else setSqlError (ErrUnsupportedFlags flags) s in
              match getTableSchema (tm_Name tm) (tm_Database tm) s with
              | None => err ErrTableSchema s
              | Some (s, info) =>
                  let fieldCount := length (ti_Schema info) in
                  if negb (length (tm_Types tm) =? fieldCount)%nat then err ErrSchemaMismatch s
                  else if is_row_format kind rows fieldCount && (0 <? length (ti_PkOrdinals info))%nat then
                    append_row_event tm (ti_Name info) (ti_Schema info) kind rows s
                  else writeChanges tm (ti_Name info) info kind rows (set_ongoingBatchTxn false s)
              end
          end
      end
  end.

(** ** Events *)
Definition flag_set (flags bit : Z) : bool := 0 <? Z.land flags bit.
Definition b2z (b : bool) : Z := if b then 1 else 0.

(** The session variables a query event carries. *)
Definition set_query_vars (flags : Z) (w : db) : db :=
  SetSessionVariable "unique_checks" (b2z (negb (flag_set flags QFlagOptionRelaxedUniqueChecks)))
    (SetSessionVariable "foreign_key_checks" (b2z (negb (flag_set flags QFlagOptionNoForeignKeyChecks)))
      (SetSessionVariable "autocommit" (b2z (negb (flag_set flags QFlagOptionNotAutocommit)))
        (SetSessionVariable "sql_auto_is_null" (b2z (flag_set flags QFlagOptionAutoIsNull)) w))).

Definition next_stmt (s : Applier) : Applier := set_inTxnStmtID (u64 (inTxnStmtID s + 1)) s.

(** A QUERY_EVENT: an error of the query is recorded, not returned. *)
Definition process_query (now : Z) (query : Format -> option Query) (bytes : slice) (s : Applier) : res :=
  match format s with
  | None => Panic
  | Some fmt =>
      match query fmt with
      | None => err ErrEvent s
      | Some q =>
          '(flags, _) ← parseQueryEventVars (HeaderLength fmt) bytes;
          let s := set_world (set_query_vars flags (world s)) s in
          '(s, e) ← executeQueryWithEngine now q s;
          let s := match e with Some e => setSqlError (ErrApplyingQuery e) s | None => s end in
          ok (next_stmt s)
      end
  end.

(** A GTID_EVENT. *)
Definition process_gtid (now : Z) (gtid : Format -> option (GTID * bool)) (s : Applier) : res :=
  match format s with
  | None => Panic
  | Some fmt =>
      match gtid fmt with
      | None => err ErrEvent s
      | Some (g, isBegin) =>
          let s := set_currentGtid (Some g) (set_previousGtid (currentGtid s) s) in
          do s <- (if isBegin : bool then executeQueryWithEngine now (mkQuery EmptyString "BEGIN") s else ok s);
          if bool_decide (replicationSourceUuid s = EmptyString) then
            match persistSourceUuid (SourceServer g) (world s) with
            | None => err ErrUuid s
            | Some w => ok (set_replicationSourceUuid (SourceServer g) (set_world w s))
            end
          else ok s
      end
  end.

(** A TABLE_MAP_EVENT. *)
Definition process_table_map (id : Format -> Z) (map : Format -> option TableMap) (s : Applier) : res :=
  match format s with
  | None => Panic
  | Some fmt =>
      match map fmt with
      | None => err ErrEvent s
      | Some tm =>
          if id fmt =? 16777215 then ok (set_tableMapsById ∅ s)
          else
            let flags := supported_flags (tm_Flags tm) in
            let s := if flags =? 0 then s else setSqlError (ErrUnsupportedFlags flags) s in
            ok (set_tableMapsById (<[id fmt := tm]> (tableMapsById s)) s)
      end
  end.

Definition mark_dirty (s : Applier) : Applier := next_stmt (set_dirtyStream true (set_dirtyTxn true s)).

Definition processBinlogEvent (now : Z) (event : BinlogEvent) (s : Applier) : res :=
  let '(event, s) :=
    match format s, event with
    | None, _ | _, EvFormatDescription _ => (event, s)
    | Some fmt, _ => let '(event', stripped) := StripChecksum fmt event in
                     (event', if stripped : bool then s else setSqlError ErrChecksum s)
    end in
  match event with
  | EvRand => ok s
  | EvXID => extendOrCommitBatchTxn now s
  | EvQuery query bytes => process_query now query bytes s
  | EvRotate => match currentGtid s with Some _ => extendOrCommitBatchTxn now s | None => ok s end
  | EvFormatDescription None => err ErrEvent s
  | EvFormatDescription (Some fmt) => ok (set_format (Some fmt) s)
  | EvPreviousGTIDs valid => match format s with
                             | None => Panic
                             | Some fmt => if valid fmt then ok s else err ErrEvent s
                             end
  | EvGTID gtid => process_gtid now gtid s
  | EvTableMap id map => process_table_map id map s
  | EvRows kind id rows => do s <- processRowEvent kind id rows s; ok (mark_dirty s)
  | EvHeartbeat | EvStop => ok s
  | EvOther bytes =>
      code ← index bytes 4;
      if (code =? 161) || (code =? 163) then ok s else err (ErrUnknownEvent code) s
  end.

(** ** The event loop *)
Inductive Input : Type :=
| InEvent (event : BinlogEvent)
| InSqlError         (* an SQL error of the stream that is no lost connection: ignored *)
| InIoError          (* any other error of the stream: recorded *)
| InBadConnection    (* the connection is lost, and opened again *)
| InTick.

(** An error of a turn is recorded and the loop goes on. *)
Definition record_error (m : res) : outcome Applier :=
  '(s, e) ← m; Ret (match e with Some e => setSqlError e s | None => s end).

(** [startReplicationEventStream]: the state a new stream starts from, at the stored position. *)
Definition start_stream (now : Z) (position : Position) (s : Applier) : Applier :=
  let s := set_pendingPosition position (set_currentPosition position s) in
  let s := set_currentGtid None (set_previousGtid None (set_format None s)) in
  let s := set_lastCommitTime now (reset_flags s) in
  set_deltaBufSize 0 (set_tables (Close (tables s)) s).

Definition loop_turn (now : Z) (position : Position) (input : Input) (s : Applier) : outcome Applier :=
  match input with
  | InEvent event => record_error (processBinlogEvent now event s)
  | InSqlError => Ret s
  | InIoError => Ret (setSqlError ErrStream s)
  | InBadConnection => Ret (start_stream now position s)
  | InTick => if ongoingBatchTxn s && negb (dirtyStream s) then record_error (extendOrCommitBatchTxn now s) else Ret s
  end.

(** The stop signal: the last flush of the loop. *)
Definition loop_stop (now : Z) (s : Applier) : outcome Applier :=
  if ongoingBatchTxn s && negb (dirtyStream s)
  then record_error (commitOngoingTxn now NormalCommit OnCloseFlushReason s) else Ret s.

(** The connection is lost and opening it again fails: the loop ends, and the
    goroutine of [Go] records the error it returns. *)
Definition loop_lost (s : Applier) : Applier := setSqlError ErrReconnect s.

(** The events a run processes, in order; the stream may be reconnected in between. *)
Inductive run : Applier -> list (Z * Input) -> Applier -> Prop :=
| run_nil s : run s [] s
| run_cons s now position input s' rest s'' :
    loop_turn now position input s = Ret s' -> run s' rest s'' -> run s ((now, input) :: rest) s''.
End Applier.
