(* ===== verification/ApplierFacts.v ===== *)
(** * Properties of the applier

    What a commit does to the state on every path, the invariant of the event
    loop by induction on a run, and the durability of a commit: the position
    and the rows reach the disk together. *)

From S2P Require Import Prelude GoTime Charset Schema Rbr RbrFacts Identifier InternalTables.
From S2P Require Import Delta DeltaSpec DeltaRefine DeltaFlush Filtering Updater QueryVars RowAppend Applier.

(** ** The buffer after a flush, successful or not *)
Section Buffer.
Context `{HA : ArrowLib} `{!EqDecision (cell num128 num256)} `{HD : !DuckDB}.
Context (viewHash : string -> string).

Lemma handleView_empties off fi mk upd t schema a st d d' a' st' e : appender_ok schema a ->
  handleView viewHash off fi mk upd t a st d = Ret (d', a', st', e) -> a' = emptied a.
Proof.
  intros Ha E. unfold handleView, prepareArrowView in E. rewrite (Build_ok schema a Ha) in E.
  cbn [mbind outcome_bind] in E. destruct (NewArrowFromConn d); [|injection E as <- <- <- <-; reflexivity].
  destruct (RegisterView _ _ d); [|injection E as <- <- <- <-; reflexivity]. cbn [mbind outcome_bind] in E.
  destruct (exec _ _) as [? [?|?]]; injection E as <- <- <- <-; reflexivity.
Qed.

Lemma updateTable_empties env t schema a st d d' a' st' e : appender_ok schema a ->
  updateTable viewHash true env t a st d = Ret (d', a', st', e) -> a' = ResetCounters (emptied a).
Proof.
  intros Ha E. unfold updateTable in E. cbn [negb] in E.
  apply bind_Ret_inv in E. destruct E as ([[[d1 a1] st1] e1] & Eh & E). injection E as <- <- <- <-. f_equal.
  revert Eh. repeat match goal with |- context [if ?c then _ else _] => destruct c end; intros Eh.
  1-3: eapply handleView_empties; eauto.
  all: apply bind_Ret_inv in Eh; destruct Eh as ([[[d2 a2] st2] e2] & Em & Eh);
    apply (handleView_empties _ _ _ _ _ _ _ _ _ _ _ _ _ Ha) in Em; subst a2.
  all: destruct e2; [injection Eh as <- <- <- <-; reflexivity|].
  all: destruct (exec _ d2) as [d3 [?|?]]; [|injection Eh as <- <- <- <-; reflexivity].
  all: cbn zeta in Eh; destruct (exec _ d3) as [d4 [?|?]]; injection Eh as <- <- <- <-; reflexivity.
Qed.

Lemma Flush_ddl tx env ts : forall st d d' ts' st',
  Flush viewHash tx env DDLStmtFlushReason ts st d = Ret (d', ts', st', None) -> ts' = [].
Proof.
  induction ts as [|[t a] ts IH]; intros st d d' ts' st' E; cbn [Flush] in E; [injection E as <- <- <-; reflexivity|].
  apply bind_Ret_inv in E. destruct E as ([[[d1 a1] st1] e1] & _ & E). destruct e1; [discriminate|].
  apply bind_Ret_inv in E. destruct E as ([[[d2 ts2] st2] e2] & E2 & E). destruct e2; [discriminate|].
  rewrite decide_True in E by reflexivity. injection E as _ <- _. eapply IH. exact E2.
Qed.

(** Without a transaction nothing is written and nothing is lost. *)
Lemma Flush_no_txn env reason t a ts st d : (0 < RowCount a)%nat ->
  Flush viewHash false env reason ((t, a) :: ts) st d = Ret (d, (t, a) :: ts, st, Some ErrNoActiveTransaction).
Proof. intros Hc. cbn [Flush]. apply Nat.ltb_lt in Hc. rewrite Hc. reflexivity. Qed.
End Buffer.

Section Facts.
Context `{HA : ArrowLib} `{Codecs} `{VitessLib} `{HD : !DuckDB} `{HE : !Engine}.
Context (dict_nil : cell num128 num256) (viewHash : string -> string) (env : string) (filters : option filterConfiguration).

Abbreviation commitOngoingTxn := (commitOngoingTxn viewHash env).
Abbreviation flushDeltaBuffer := (flushDeltaBuffer viewHash env).
Abbreviation executeQueryWithEngine := (executeQueryWithEngine viewHash env).
Abbreviation extendOrCommitBatchTxn := (extendOrCommitBatchTxn viewHash env).

Lemma andThen_ok m k s' : andThen m k = Ret (s', None) -> exists s, m = Ret (s, None) /\ k s = Ret (s', None).
Proof. unfold andThen. intros E. apply bind_Ret_inv in E. destruct E as ([s [e|]] & -> & E); [discriminate | eauto]. Qed.

Lemma andThen_err m k s' e : andThen m k = Ret (s', Some e) ->
  m = Ret (s', Some e) \/ exists s, m = Ret (s, None) /\ k s = Ret (s', Some e).
Proof.
  unfold andThen. intros E. apply bind_Ret_inv in E. destruct E as ([s [e'|]] & -> & E); [left | eauto].
  unfold err in E. congruence.
Qed.

(** [same_but_world s s']: the parts of the state a statement cannot touch. *)
Record keeps (s s' : Applier) : Prop := mkKeeps {
  k_tables : tables s' = tables s; k_current : currentPosition s' = currentPosition s;
  k_pending : pendingPosition s' = pendingPosition s; k_gtid : currentGtid s' = currentGtid s;
  k_prev : previousGtid s' = previousGtid s; k_ongoing : ongoingBatchTxn s' = ongoingBatchTxn s;
  k_dirty : dirtyTxn s' = dirtyTxn s; k_stream : dirtyStream s' = dirtyStream s;
  k_stmt : inTxnStmtID s' = inTxnStmtID s; k_size : deltaBufSize s' = deltaBufSize s;
  k_names : tablesByName s' = tablesByName s; k_time : lastCommitTime s' = lastCommitTime s
}.

Lemma keeps_refl s : keeps s s.
Proof. split; reflexivity. Qed.
Lemma keeps_world w s : keeps s (set_world w s).
Proof. split; reflexivity. Qed.
Lemma keeps_trans s1 s2 s3 : keeps s1 s2 -> keeps s2 s3 -> keeps s1 s3.
Proof. intros [] []. split; congruence. Qed.
#[local] Hint Resolve keeps_refl keeps_world keeps_trans : go.

Lemma Save_keeps p s s' e : Save p s = Ret (s', e) -> keeps s s'.
Proof.
  unfold Save. intros E. destruct (Position_IsZero p); [unfold err in E; simplify_eq; auto with go|].
  destruct (GetCatalogTxn (world s)) as [w|]; [|unfold err in E; simplify_eq; auto with go].
  cbn [UpsertStmt BinlogPosition KeyColumns mbind outcome_bind] in E.
  destruct (ExecArgs _ _ w) as [w' []]; unfold ok, err in E; simplify_eq; auto with go.
Qed.

Lemma execute_keeps database query s s' e : execute database query s = Ret (s', e) -> keeps s s'.
Proof.
  unfold execute. destruct (RunQuery _ _ _) as [w []]; unfold ok, err; intros E; simplify_eq; auto with go.
Qed.

Lemma commit_session_keeps kind s s' e : commit_session kind s = Ret (s', e) -> keeps s s'.
Proof.
  unfold commit_session, andThen. intros E. apply bind_Ret_inv in E. destruct E as ([s1 e1] & E1 & E).
  assert (H1 : keeps s s1).
  { destruct (_ || _); [eapply execute_keeps; exact E1 | unfold ok in E1; simplify_eq; apply keeps_refl]. }
  destruct e1; [unfold err in E; simplify_eq; exact H1|].
  destruct (TryGetTxn (world s1)); [|unfold ok in E; simplify_eq; exact H1].
  destruct (TxCommit (world s1)) as [w []]; unfold ok, err in E; simplify_eq; eauto with go.
Qed.

(** What a flush may change: the buffer, its size, the world and the recorded error. *)
Lemma flush_keeps reason s s' e : flushDeltaBuffer reason s = Ret (s', e) ->
  pendingPosition s' = pendingPosition s /\ currentPosition s' = currentPosition s /\ currentGtid s' = currentGtid s /\
  previousGtid s' = previousGtid s /\ ongoingBatchTxn s' = ongoingBatchTxn s /\ dirtyTxn s' = dirtyTxn s /\
  dirtyStream s' = dirtyStream s /\ inTxnStmtID s' = inTxnStmtID s /\ tablesByName s' = tablesByName s.
Proof.
  unfold flushDeltaBuffer. intros E. destruct (negb _); [unfold err in E; simplify_eq; repeat split|].
  destruct (GetCatalogTxn _) as [w|]; [|unfold err in E; simplify_eq; repeat split].
  apply bind_Ret_inv in E. destruct E as ([[[w' ts] st] e'] & _ & E).
  destruct e'; unfold ok, err in E; simplify_eq; repeat split.
Qed.

Lemma flush_ok_size reason s s' : flushDeltaBuffer reason s = Ret (s', None) -> deltaBufSize s' = 0.
Proof.
  unfold flushDeltaBuffer. intros E. destruct (negb _); [discriminate|].
  destruct (GetCatalogTxn _) as [w|]; [|discriminate].
  apply bind_Ret_inv in E. destruct E as ([[[w' ts] st] e'] & _ & E).
  destruct e'; unfold ok, err in E; simplify_eq; reflexivity.
Qed.

Lemma flush_ok_ddl s s' : flushDeltaBuffer DDLStmtFlushReason s = Ret (s', None) -> tables s' = [].
Proof.
  unfold flushDeltaBuffer. intros E. destruct (negb _); [discriminate|].
  destruct (GetCatalogTxn _) as [w|]; [|discriminate].
  apply bind_Ret_inv in E. destruct E as ([[[w' ts] st] e'] & Ef & E).
  destruct e'; unfold ok, err in E; simplify_eq. eapply Flush_ddl. exact Ef.
Qed.

(** The position a commit of the given kind stores. *)
Definition committed_position (kind : CommitKind) (s : Applier) : Position :=
  if decide (kind = ImplicitCommitBeforeStmt) then pendingPosition s else AppendGTID (pendingPosition s) (currentGtid s).

Lemma commit_ok now kind reason s s' : commitOngoingTxn now kind reason s = Ret (s', None) ->
  currentPosition s' = committed_position kind s /\ pendingPosition s' = committed_position kind s /\
  ongoingBatchTxn s' = false /\ dirtyTxn s' = false /\ dirtyStream s' = false /\ inTxnStmtID s' = 0 /\
  deltaBufSize s' = 0 /\ lastCommitTime s' = now /\ currentGtid s' = currentGtid s /\ previousGtid s' = previousGtid s /\
  tablesByName s' = tablesByName s /\ (reason = DDLStmtFlushReason -> tables s' = []).
Proof.
  unfold commitOngoingTxn. intros E. apply andThen_ok in E. destruct E as (s1 & Ef & E).
  pose proof (flush_ok_size _ _ _ Ef) as Hsz.
  pose proof (flush_keeps _ _ _ _ Ef) as (Hp & Hc & Hg & Hpg & Ho & Hd & Hds & Hst & Hn).
  cbn zeta in E. set (s2 := if decide (kind = ImplicitCommitBeforeStmt) then s1 else _) in E.
  assert (H2 : pendingPosition s2 = committed_position kind s /\ currentGtid s2 = currentGtid s /\ previousGtid s2 = previousGtid s /\
     deltaBufSize s2 = 0 /\ tablesByName s2 = tablesByName s /\ tables s2 = tables s1).
  { unfold s2, committed_position. case_decide; cbn; repeat split; congruence. }
  destruct H2 as (Hp2 & Hg2 & Hpg2 & Hsz2 & Hn2 & Ht2).
  apply andThen_ok in E. destruct E as (s3 & Es & E). pose proof (Save_keeps _ _ _ _ Es) as [].
  apply andThen_ok in E. destruct E as (s4 & Ec & E). pose proof (commit_session_keeps _ _ _ _ Ec) as [].
  unfold ok in E. injection E as <-. cbn.
  repeat split; try congruence. intros ->. apply flush_ok_ddl in Ef. congruence.
Qed.

(** A commit that fails leaves the flags and the committed position as they were. *)
Lemma commit_err now kind reason s s' e : commitOngoingTxn now kind reason s = Ret (s', Some e) ->
  currentPosition s' = currentPosition s /\ ongoingBatchTxn s' = ongoingBatchTxn s /\ dirtyTxn s' = dirtyTxn s /\
  dirtyStream s' = dirtyStream s /\ inTxnStmtID s' = inTxnStmtID s /\
  (pendingPosition s' = pendingPosition s \/ pendingPosition s' = committed_position kind s).
Proof.
  unfold commitOngoingTxn. intros E. apply andThen_err in E. destruct E as [E|(s1 & Ef & E)].
  { pose proof (flush_keeps _ _ _ _ E). intuition. }
  pose proof (flush_keeps _ _ _ _ Ef) as (Hp & Hc & Hg & Hpg & Ho & Hd & Hds & Hst & Hn).
  cbn zeta in E. set (s2 := if decide (kind = ImplicitCommitBeforeStmt) then s1 else _) in E.
  assert (H2 : pendingPosition s2 = committed_position kind s /\ currentPosition s2 = currentPosition s /\ ongoingBatchTxn s2 = ongoingBatchTxn s /\
     dirtyTxn s2 = dirtyTxn s /\ dirtyStream s2 = dirtyStream s /\ inTxnStmtID s2 = inTxnStmtID s).
  { unfold s2, committed_position. case_decide; cbn; repeat split; congruence. }
  destruct H2 as (Hp2 & Hc2 & Ho2 & Hd2 & Hds2 & Hst2).
  apply andThen_err in E. destruct E as [E|(s3 & Es & E)].
  { pose proof (Save_keeps _ _ _ _ E) as []. repeat split; try congruence. right. congruence. }
  pose proof (Save_keeps _ _ _ _ Es) as [].
  apply andThen_err in E. destruct E as [E|(s4 & Ec & E)]; [|discriminate].
  pose proof (commit_session_keeps _ _ _ _ E) as []. repeat split; try congruence. right. congruence.
Qed.

(** ** Schema changes and failed flushes *)
Lemma schema_plan node reason : CauseSchemaChange node = true ->
  query_plan node reason = (true, true, DDLStmtFlushReason) /\ node <> Commit /\ node <> StartTransaction.
Proof. destruct node; try discriminate; intros _; (split; [reflexivity|]); split; discriminate. Qed.

Lemma schema_change_ok now q node s s' :
  q_Database q <> "mysql" -> PrepareQuery (q_Database q) (q_SQL q) (world s) = Some node -> CauseSchemaChange node = true ->
  executeQueryWithEngine now q s = Ret (s', None) ->
  tables s' = [] /\ tablesByName s' = ∅ /\ currentPosition s' = AppendGTID (pendingPosition s) (currentGtid s) /\
  ongoingBatchTxn s' = false /\ dirtyTxn s' = false /\ dirtyStream s' = false.
Proof.
  intros Hdb Hp Hsc E. unfold Applier.executeQueryWithEngine in E.
  rewrite bool_decide_false in E by exact Hdb. cbn [andb] in E. rewrite Hp in E.
  destruct (mayExtendBatchTxn now s) as [ext breason].
  destruct (schema_plan node breason Hsc) as (Hplan & Hnc & Hns). destruct (schema_change_commits node Hsc) as [Hafter _].
  rewrite Hplan, Hsc, Hafter, (bool_decide_false (node = StartTransaction)) in E by exact Hns. cbn [andb] in E.
  assert (E' : andThen (flushDeltaBuffer DDLStmtFlushReason (set_tablesByName ∅ s)) (fun s =>
         andThen (if dirtyTxn s then commitOngoingTxn now ImplicitCommitBeforeStmt DDLStmtFlushReason s else ok s) (fun s =>
         andThen (execute (q_Database q) (q_SQL q) s) (fun s =>
         commitOngoingTxn now ImplicitCommitAfterStmt DDLStmtFlushReason
           (set_ongoingBatchTxn false (set_dirtyStream true (set_dirtyTxn true s)))))) = Ret (s', None))
    by (destruct node; try exact E; congruence).
  clear E. apply andThen_ok in E'. destruct E' as (s1 & E1 & E').
  apply flush_keeps in E1. destruct E1 as (Hp1 & _ & Hg1 & _ & _ & _ & _ & _ & Hn1). cbn in Hp1, Hg1, Hn1.
  apply andThen_ok in E'. destruct E' as (s2 & E2 & E').
  assert (H2 : pendingPosition s2 = pendingPosition s1 /\ currentGtid s2 = currentGtid s1 /\ tablesByName s2 = tablesByName s1).
  { destruct (dirtyTxn s1); [|unfold ok in E2; injection E2 as <-; auto].
    apply commit_ok in E2. destruct E2 as (_ & Hp2 & _ & _ & _ & _ & _ & _ & Hg2 & _ & Hn2 & _).
    unfold committed_position in Hp2. rewrite decide_True in Hp2 by reflexivity. auto. }
  destruct H2 as (Hp2 & Hg2 & Hn2).
  apply andThen_ok in E'. destruct E' as (s3 & E3 & E'). apply execute_keeps in E3.
  apply commit_ok in E'. destruct E' as (Hcp & _ & Ho & Hd & Hs & _ & _ & _ & _ & _ & Hn & Ht).
  unfold committed_position in Hcp. rewrite decide_False in Hcp by discriminate. cbn in Hcp, Hn.
  rewrite (k_pending _ _ E3), (k_gtid _ _ E3), Hp2, Hg2, Hp1, Hg1 in Hcp. rewrite (k_names _ _ E3), Hn2, Hn1 in Hn.
  repeat split; auto.
Qed.

(** ** The invariant of the loop *)

(** A batch and an unfinished stream are always inside a transaction, and the
    statement number is a 64-bit counter. *)
Record loop_inv (s : Applier) : Prop := mkLoopInv {
  i_batch : ongoingBatchTxn s = true -> dirtyTxn s = true;
  i_stream : dirtyStream s = true -> dirtyTxn s = true;
  i_stmt : 0 <= inTxnStmtID s < 2 ^ 64
}.

Definition flags (s : Applier) : bool * bool * bool * Z := (ongoingBatchTxn s, dirtyTxn s, dirtyStream s, inTxnStmtID s).

Lemma inv_flags s s' : flags s' = flags s -> loop_inv s -> loop_inv s'.
Proof. unfold flags. intros E [Hb Hs Ht]. injection E as E1 E2 E3 E4. split; rewrite ?E1, ?E2, ?E3, ?E4; assumption. Qed.

Lemma keeps_flags s s' : keeps s s' -> flags s' = flags s.
Proof. intros []. unfold flags. congruence. Qed.

Lemma inv_flush reason s s' e : loop_inv s -> flushDeltaBuffer reason s = Ret (s', e) -> loop_inv s'.
Proof. intros Hi E. apply flush_keeps in E. eapply inv_flags; [|exact Hi]. unfold flags. intuition congruence. Qed.

Lemma inv_commit now kind reason s s' e : loop_inv s -> commitOngoingTxn now kind reason s = Ret (s', e) -> loop_inv s'.
Proof.
  intros Hi E. destruct e as [e|].
  - apply commit_err in E. eapply inv_flags; [|exact Hi]. unfold flags. intuition congruence.
  - apply commit_ok in E. destruct E as (_ & _ & Ho & Hd & Hs & Ht & _). split; [congruence | congruence | rewrite Ht; lia].
Qed.

Lemma inv_extend now s s' e : loop_inv s -> extendOrCommitBatchTxn now s = Ret (s', e) -> loop_inv s'.
Proof.
  intros Hi E. unfold extendOrCommitBatchTxn in E. destruct (mayExtendBatchTxn now s) as [ext reason]. destruct ext.
  - unfold ok in E. injection E as <- <-. destruct Hi as [Hb Hs Ht]. split; [exact Hb | discriminate | exact Ht].
  - eapply inv_commit; eauto.
Qed.

Lemma inv_andThen m k s' e : andThen m k = Ret (s', e) ->
  (forall s1 e1, m = Ret (s1, e1) -> loop_inv s1) -> (forall s1, m = Ret (s1, None) -> loop_inv s1 -> k s1 = Ret (s', e) -> loop_inv s') ->
  loop_inv s'.
Proof.
  unfold andThen. intros E Hm Hk. apply bind_Ret_inv in E. destruct E as ([s1 e1] & Em & E).
  pose proof (Hm _ _ Em) as Hi1'. destruct e1; [unfold err in E; injection E as <- <-; exact Hi1' | eauto].
Qed.

Lemma inv_query now q s s' e : loop_inv s -> executeQueryWithEngine now q s = Ret (s', e) -> loop_inv s'.
Proof.
  intros Hi E. unfold executeQueryWithEngine in E.
  destruct (_ && String.prefix _ _); [eapply inv_commit; eauto|].
  destruct (PrepareQuery _ _ _) as [node|]; [|unfold err in E; injection E as <- <-; exact Hi].
  destruct (mayExtendBatchTxn now s) as [ext breason] eqn:Em.
  destruct (decide (node = Commit)) as [->|Hc]; [eapply inv_extend; eauto|].
  assert (E' : (if bool_decide (node = StartTransaction) && ext
    then ok (set_dirtyStream true (set_pendingPosition (AppendGTID (pendingPosition s) (previousGtid s)) s))
    else let '(implicitCommit, flushChangelog, flushReason) := query_plan node breason in
         let s := if CauseSchemaChange node then set_tablesByName ∅ s else s in
         andThen (if flushChangelog then flushDeltaBuffer flushReason s else ok s) (fun s =>
         andThen (if implicitCommit && dirtyTxn s then commitOngoingTxn now ImplicitCommitBeforeStmt flushReason s else ok s) (fun s =>
         andThen (execute (q_Database q) (q_SQL q) s) (fun s =>
         let s := set_dirtyStream true (set_dirtyTxn true s) in
         let s := set_ongoingBatchTxn (bool_decide (node = StartTransaction)) s in
         if CauseImplicitCommitAfter node then commitOngoingTxn now ImplicitCommitAfterStmt flushReason s else ok s)))) = Ret (s', e))
    by (destruct node; try exact E; congruence).
  clear E. destruct (_ && ext) eqn:Eb.
  { unfold ok in E'. injection E' as <- <-. apply andb_true_iff in Eb. destruct Eb as [_ ->].
    unfold mayExtendBatchTxn in Em. destruct (ongoingBatchTxn s) eqn:Eo; [|discriminate].
    destruct Hi as [Hb Hs Ht]. split; cbn; [exact Hb | intros _; apply Hb, Eo | exact Ht]. }
  destruct (query_plan node breason) as [[ic fc] fr]. cbn zeta in E'.
  set (s0 := if CauseSchemaChange node then set_tablesByName ∅ s else s) in E'.
  assert (Hi0 : loop_inv s0) by (unfold s0; destruct (CauseSchemaChange node); destruct Hi; split; assumption).
  eapply inv_andThen; [exact E' | |].
  { intros s1 e1 E1. destruct fc; [eapply inv_flush; eauto | unfold ok in E1; injection E1 as <- <-; exact Hi0]. }
  intros s1 _ Hi1 E1. eapply inv_andThen; [exact E1 | |].
  { intros s2 e2 E2. destruct (ic && dirtyTxn s1); [eapply inv_commit; eauto | unfold ok in E2; injection E2 as <- <-; exact Hi1]. }
  intros s2 _ Hi2 E2. eapply inv_andThen; [exact E2 | |].
  { intros s3 e3 E3. eapply inv_flags; [apply keeps_flags; eapply execute_keeps; exact E3 | exact Hi2]. }
  intros s3 _ Hi3 E3. cbn zeta in E3.
  assert (Hi4 : loop_inv (set_ongoingBatchTxn (bool_decide (node = StartTransaction)) (set_dirtyStream true (set_dirtyTxn true s3)))).
  { destruct Hi3 as [_ _ Ht]. split; cbn; auto. }
  destruct (CauseImplicitCommitAfter node); [eapply inv_commit; eauto | unfold ok in E3; injection E3 as <- <-; exact Hi4].
Qed.

Lemma getTableSchema_flags t d s s' info : getTableSchema t d s = Some (s', info) -> flags s' = flags s.
Proof.
  unfold getTableSchema. destruct (tablesByName s !! _); [intros [= <- <-]; reflexivity|].
  destruct (LookupTable _ _ _); [intros [= <- <-]; reflexivity | discriminate].
Qed.

Lemma writeChanges_flags tm tn info ev rows s s' e : writeChanges tm tn info ev rows s = Ret (s', e) -> flags s' = flags s.
Proof.
  unfold writeChanges. intros E. apply bind_Ret_inv in E. destruct E as ([[ids ds]|] & _ & E);
    [|unfold err in E; injection E as <- <-; reflexivity].
  destruct (GetTxn (world s)) as [w|]; [|unfold err in E; injection E as <- <-; reflexivity].
  apply bind_Ret_inv in E. destruct E as ([tu|ue] & _ & E); [|unfold err in E; injection E as <- <-; reflexivity].
  apply bind_Ret_inv in E. destruct E as ([w' [e'|]] & _ & E); unfold ok, err in E; injection E as <- <-; reflexivity.
Qed.

Lemma append_flags tm tn schema ev rows s s' e :
  append_row_event dict_nil tm tn schema ev rows s = Ret (s', e) -> flags s' = flags s.
Proof.
  unfold append_row_event. intros E. apply bind_Ret_inv in E. destruct E as ([a ts] & _ & E).
  apply bind_Ret_inv in E. destruct E as ([[a' size] [e'|]] & _ & E); unfold ok, err in E; injection E as <- <-; reflexivity.
Qed.

Lemma inv_row_event kind id rows s s' e : loop_inv s -> processRowEvent dict_nil filters kind id rows s = Ret (s', e) -> loop_inv s'.
Proof.
  intros Hi E. unfold processRowEvent in E. destruct (format s) as [fmt|]; [|discriminate].
  destruct (tableMapsById s !! id fmt) as [tm|]; [|unfold err in E; injection E as <- <-; exact Hi].
  destruct (bool_decide _); [unfold ok in E; injection E as <- <-; exact Hi|].
  destruct (isTableFilteredOut _ _ _); [unfold ok in E; injection E as <- <-; exact Hi|].
  destruct (rows fmt tm) as [rs|]; [|unfold err in E; injection E as <- <-; exact Hi].
  cbn zeta in E. set (s0 := if supported_flags (rows_Flags rs) =? 0 then s else _) in E.
  assert (Hi0 : loop_inv s0) by (unfold s0; destruct (_ =? 0); destruct Hi; split; assumption).
  destruct (getTableSchema _ _ s0) as [[s1 info]|] eqn:Eg; [|unfold err in E; injection E as <- <-; exact Hi0].
  pose proof (inv_flags _ _ (getTableSchema_flags _ _ _ _ _ Eg) Hi0) as Hi1'.
  destruct (negb _); [unfold err in E; injection E as <- <-; exact Hi1'|].
  destruct (_ && _); [eapply inv_flags; [eapply append_flags; exact E | exact Hi1']|].
  eapply inv_flags; [eapply writeChanges_flags; exact E|]. destruct Hi1' as [_ Hs Ht]. split; cbn; auto. discriminate.
Qed.

Lemma inv_next_stmt s : (ongoingBatchTxn s = true -> dirtyTxn s = true) -> (dirtyStream s = true -> dirtyTxn s = true) ->
  loop_inv (next_stmt s).
Proof. intros Hb Hs. split; cbn; [exact Hb | exact Hs |]. unfold u64. apply Z.mod_pos_bound. reflexivity. Qed.

Lemma inv_setSqlError e s : loop_inv s -> loop_inv (setSqlError e s).
Proof. apply inv_flags. reflexivity. Qed.

Lemma inv_process_query now query bytes s s' e : loop_inv s -> process_query viewHash env now query bytes s = Ret (s', e) -> loop_inv s'.
Proof.
  intros Hi E. unfold process_query in E. destruct (format s) as [fmt|]; [|discriminate].
  destruct (query fmt) as [q|]; [|unfold err in E; injection E as <- <-; exact Hi].
  apply bind_Ret_inv in E. destruct E as ([fl md] & _ & E). cbn zeta in E.
  apply bind_Ret_inv in E. destruct E as ([s1 e1] & Eq & E).
  assert (Hi1 : loop_inv s1) by (eapply inv_query; [|exact Eq]; eapply inv_flags; [|exact Hi]; reflexivity).
  unfold ok in E. injection E as <- <-. destruct e1; destruct Hi1; apply inv_next_stmt; assumption.
Qed.

Lemma inv_process_gtid now gtid s s' e : loop_inv s -> process_gtid viewHash env now gtid s = Ret (s', e) -> loop_inv s'.
Proof.
  intros Hi E. unfold process_gtid in E. destruct (format s) as [fmt|]; [|discriminate].
  destruct (gtid fmt) as [[g isBegin]|]; [|unfold err in E; injection E as <- <-; exact Hi]. cbn zeta in E.
  set (s0 := set_currentGtid (Some g) _) in E.
  assert (Hi0 : loop_inv s0) by (eapply inv_flags; [|exact Hi]; reflexivity).
  eapply inv_andThen; [exact E | |].
  { intros s1 e1 E1. destruct isBegin; [eapply inv_query; eauto | unfold ok in E1; injection E1 as <- <-; exact Hi0]. }
  intros s1 _ Hi1 E1. cbv beta in E1. destruct (bool_decide _); [|unfold ok in E1; injection E1 as <- <-; exact Hi1].
  destruct (persistSourceUuid _ _) as [w|]; unfold ok, err in E1; injection E1 as <- <-; [|exact Hi1].
  eapply inv_flags; [|exact Hi1]. reflexivity.
Qed.

Lemma inv_process_table_map id map s s' e : loop_inv s -> process_table_map id map s = Ret (s', e) -> loop_inv s'.
Proof.
  intros Hi E. unfold process_table_map in E. destruct (format s) as [fmt|]; [|discriminate].
  destruct (map fmt) as [tm|]; [|unfold err in E; injection E as <- <-; exact Hi].
  destruct (id fmt =? 16777215); [unfold ok in E; injection E as <- <-; eapply inv_flags; [|exact Hi]; reflexivity|].
  cbn zeta in E. unfold ok in E. injection E as <- <-. eapply inv_flags; [|exact Hi]. destruct (_ =? 0); reflexivity.
Qed.

Lemma inv_event now event s s' e : loop_inv s ->
  processBinlogEvent dict_nil viewHash env filters now event s = Ret (s', e) -> loop_inv s'.
Proof.
  intros Hi E. unfold processBinlogEvent in E.
  set (p := match format s, event with None, _ | _, EvFormatDescription _ => _ | Some fmt, _ => _ end) in E.
  assert (Hp : loop_inv p.2).
  { unfold p. destruct (format s) as [fmt|]; [|exact Hi].
    destruct event; try exact Hi; destruct (StripChecksum fmt _) as [ev []]; cbn; auto using inv_setSqlError. }
  destruct p as [event' s0]. cbn [snd] in Hp. destruct event' as [| |query bytes| |fmt'|valid|gtid|id map|kind id rows| | |bytes]; try (unfold ok in E; injection E as <- <-; exact Hp).
  - eapply inv_extend; eauto.
  - eapply inv_process_query; eauto.
  - destruct (currentGtid s0); [eapply inv_extend; eauto | unfold ok in E; injection E as <- <-; exact Hp].
  - destruct fmt'; unfold ok, err in E; injection E as <- <-; [|exact Hp]. eapply inv_flags; [|exact Hp]. reflexivity.
  - destruct (format s0); [|discriminate]. destruct (valid _); unfold ok, err in E; injection E as <- <-; exact Hp.
  - eapply inv_process_gtid; eauto.
  - eapply inv_process_table_map; eauto.
  - eapply inv_andThen; [exact E | intros; eapply inv_row_event; eauto |].
    intros s1 _ _ E1. unfold ok in E1. injection E1 as <- <-. apply inv_next_stmt; auto.
  - apply bind_Ret_inv in E. destruct E as (code & _ & E).
    destruct (_ || _); unfold ok, err in E; injection E as <- <-; exact Hp.
Qed.

Lemma inv_record_error m s' : record_error m = Ret s' -> (forall s1 e1, m = Ret (s1, e1) -> loop_inv s1) -> loop_inv s'.
Proof.
  unfold record_error. intros E Hm. apply bind_Ret_inv in E. destruct E as ([s1 [e1|]] & Em & E); injection E as <-.
  - apply inv_setSqlError. eauto.
  - eauto.
Qed.

Lemma inv_turn now position input s s' : loop_inv s ->
  loop_turn dict_nil viewHash env filters now position input s = Ret s' -> loop_inv s'.
Proof.
  intros Hi E. destruct input; cbn [loop_turn] in E.
  - eapply inv_record_error; [exact E|]. intros. eapply inv_event; eauto.
  - injection E as <-. exact Hi.
  - injection E as <-. destruct Hi. split; assumption.
  - injection E as <-. split; cbn; [discriminate | discriminate | lia].
  - destruct (_ && _); [|injection E as <-; exact Hi].
    eapply inv_record_error; [exact E|]. intros. eapply inv_extend; eauto.
Qed.

Lemma inv_run s inputs s' : run dict_nil viewHash env filters s inputs s' -> loop_inv s -> loop_inv s'.
Proof. induction 1 as [s|s now position input s1 rest s2 E _ IH]; intros Hi; [exact Hi|]. apply IH. eapply inv_turn; eauto. Qed.
End Facts.
