(* ===== verification/Durability.v ===== *)
(** * A commit is atomic: rows and position reach the disk together

    [EngineLaws] is what the applier relies on of the session: a transaction
    sees its own writes, COMMIT makes them durable.  [commit_durable]: after
    [commitOngoingTxn] the durable state has every buffered delta applied and
    the position that covers exactly those transactions, so a replica that
    restarts from the stored position neither skips nor repeats a change. *)

From S2P Require Import Prelude GoTime Charset Schema Rbr Identifier InternalTables.
From S2P Require Import Delta DeltaSpec DeltaRefine DeltaFlush Filtering RowAppend Applier ApplierFacts.

Section Durability.
Context `{HA : ArrowLib} `{!EqDecision (cell num128 num256)} `{HD : !DuckDB} `{HE : !Engine}.
Context (viewHash : string -> string) (env : string).
Context {T : Type} (tab : T -> tableIdentifier) (schema_of : T -> list Column) (indexed : bool).
Context `{HF : !FlushLaws viewHash tab schema_of indexed}.

Abbreviation rows_in := (rows_in viewHash tab schema_of indexed).

(** The same rows and stored position, as the open transaction sees them. *)
Definition same_view (position : db -> string) (d d' : db) : Prop :=
  (forall i, rows_in i d' = rows_in i d) /\ position d' = position d.

Class EngineLaws : Type := {
  position : db -> string;
  durable_rows : T -> db -> list (list (cell num128 num256));
  durable_position : db -> string;
  conn_law : forall d, GetCatalogConn d = true;
  txn_law : forall d, exists d', GetCatalogTxn d = Some d' /\ same_view position d d' /\ TryGetTxn d' = true;
  save_law : forall p d sql, UpsertStmt BinlogPosition = Ret sql -> exists d',
    ExecArgs sql [defaultChannelName; p] d = (d', true) /\ (forall i, rows_in i d' = rows_in i d) /\ position d' = p /\
    TryGetTxn d' = TryGetTxn d;
  commit_query_law : forall d, exists d' r, RunQuery EmptyString "COMMIT" d = (d', r) /\ r <> QueryErr /\ same_view position d d' /\
    (TryGetTxn d' = true \/ ((forall i, durable_rows i d' = rows_in i d') /\ durable_position d' = position d'));
  tx_commit_law : forall d, TryGetTxn d = true -> exists d' r, TxCommit d = (d', r) /\ r <> TxErr /\ same_view position d d' /\
    (forall i, durable_rows i d' = rows_in i d') /\ durable_position d' = position d';
  close_law : forall d, same_view position d (CloseTxn d) /\
    (forall i, durable_rows i (CloseTxn d) = durable_rows i d) /\ durable_position (CloseTxn d) = durable_position d;
  executed_law : forall p d, same_view position d (SetGtidExecuted p d) /\
    (forall i, durable_rows i (SetGtidExecuted p d) = durable_rows i d) /\ durable_position (SetGtidExecuted p d) = durable_position d
}.

Context `{HL : !EngineLaws}.

(** Everything the open transaction sees is durable. *)
Definition all_durable (d : db) : Prop := (forall i, durable_rows i d = rows_in i d) /\ durable_position d = position d.

(** What the buffered deltas make of the tables, whose keys stay unique. *)
Definition applied (ts : buffered) (d d' : db) : Prop :=
  (forall i a, (i, a) ∈ ts -> same_rows (rows_in i d') (apply_delta (schema_of i) (delta_rows a) (rows_in i d)) /\
                              unique_keys (schema_of i) (rows_in i d')) /\
  (forall j, tab j ∉ map (fun p => tab p.1) ts -> rows_in j d' = rows_in j d).

Lemma applied_view ts d1 d2 d3 : applied ts d1 d2 -> (forall i, rows_in i d3 = rows_in i d2) -> applied ts d1 d3.
Proof. intros [Ha Ho] E. split; [intros i a Hin; rewrite E; auto | intros j Hj; rewrite E; auto]. Qed.

Lemma applied_view_l ts d1 d2 d3 : applied ts d2 d3 -> (forall i, rows_in i d2 = rows_in i d1) -> applied ts d1 d3.
Proof. intros [Ha Ho] E. split; [intros i a Hin; rewrite <- E; auto | intros j Hj; rewrite <- E; auto]. Qed.

Lemma flushable_view ts d1 d2 : flushable viewHash tab schema_of indexed ts d1 -> (forall i, rows_in i d2 = rows_in i d1) ->
  flushable viewHash tab schema_of indexed ts d2.
Proof. intros Hf E i a Hin. unfold flushable in Hf. rewrite E. apply Hf, Hin. Qed.

(** The buffers after a flush. *)
Definition after_flush (reason : FlushReason) (ts : @buffered HA T) : Tables :=
  if decide (reason = DDLStmtFlushReason) then [] else map (fun p => (tab p.1, flushed p.2)) ts.

Lemma flush_writes reason s ts : indexed = negb (IsReplicationWithoutIndex env) ->
  tables s = tables_of tab ts -> NoDup (map (fun p => tab p.1) ts) -> flushable viewHash tab schema_of indexed ts (world s) ->
  exists s', flushDeltaBuffer viewHash env reason s = Ret (s', None) /\ applied ts (world s) (world s') /\
    tables s' = after_flush reason ts.
Proof.
  intros Hix Ht Hnd Hf. unfold flushDeltaBuffer. rewrite conn_law. cbn [negb].
  destruct (txn_law (world s)) as (w & -> & [Hv _] & _). rewrite Ht.
  destruct (Flush_writes viewHash tab schema_of indexed env reason Hix ts zeroStats w Hnd (flushable_view _ _ _ Hf Hv))
    as (w' & st' & -> & Hall & Hother).
  cbn [mbind outcome_bind]. eexists. split; [reflexivity|]. split; [|reflexivity].
  apply (applied_view_l ts (world s) w w'); [|exact Hv]. split; [intros i a Hin; apply Hall, Hin | exact Hother].
Qed.

Lemma Save_stores p s : Position_IsZero p = false ->
  exists s', Save p s = Ret (s', None) /\ (forall i, rows_in i (world s') = rows_in i (world s)) /\
    position (world s') = Position_String p /\ TryGetTxn (world s') = true.
Proof.
  intros Hz. unfold Save. rewrite Hz. destruct (txn_law (world s)) as (w & -> & [Hv _] & Htx).
  destruct (UpsertStmt BinlogPosition) as [sql|] eqn:Es; [|discriminate]. cbn [mbind outcome_bind].
  destruct (save_law (Position_String p) w sql Es) as (w' & -> & Hr & Hp & Htx').
  eexists. split; [reflexivity|]. cbn. split; [intros i; rewrite Hr; apply Hv|]. split; [exact Hp | congruence].
Qed.

Lemma commit_session_durable kind s : TryGetTxn (world s) = true ->
  exists s', commit_session kind s = Ret (s', None) /\ same_view position (world s) (world s') /\ all_durable (world s').
Proof.
  intros Htx. unfold commit_session.
  assert (H1 : exists s1, (if negb (bool_decide (kind = ImplicitCommitAfterStmt)) || negb (getAutocommit (world s))
      then execute EmptyString "COMMIT" s else ok s) = Ret (s1, None) /\ same_view position (world s) (world s1) /\
      (TryGetTxn (world s1) = true \/ all_durable (world s1))).
  { destruct (_ || _).
    - unfold execute. destruct (commit_query_law (world s)) as (d' & r & -> & Hr & Hv & Hd).
      exists (set_world d' s). destruct r; [| |congruence]; (split; [reflexivity|]); split; assumption.
    - exists s. split; [reflexivity|]. split; [split; reflexivity | auto]. }
  destruct H1 as (s1 & -> & Hv1 & Hd1). unfold andThen. cbn [mbind outcome_bind].
  destruct (TryGetTxn (world s1)) eqn:Et.
  - destruct (tx_commit_law (world s1) Et) as (d' & r & -> & Hr & Hv & Hdr & Hdp).
    destruct (close_law d') as ([Hcv Hcp] & Hcr & Hcdp).
    exists (set_world (CloseTxn d') s1). destruct r; [| |congruence]; (split; [reflexivity|]).
    all: destruct Hv1 as [Hv1 Hp1], Hv as [Hv Hp]; split; [split; [intros i; cbn; rewrite Hcv, Hv; apply Hv1 | cbn; congruence]
      | split; [intros i; cbn; rewrite Hcr, Hdr, Hcv; reflexivity | cbn; congruence]].
  - exists s1. split; [reflexivity|]. split; [exact Hv1 | destruct Hd1; [discriminate | assumption]].
Qed.

Lemma commit_durable now kind reason s ts : indexed = negb (IsReplicationWithoutIndex env) ->
  tables s = tables_of tab ts -> NoDup (map (fun p => tab p.1) ts) -> flushable viewHash tab schema_of indexed ts (world s) ->
  Position_IsZero (committed_position kind s) = false ->
  exists s', commitOngoingTxn viewHash env now kind reason s = Ret (s', None) /\
    applied ts (world s) (world s') /\ all_durable (world s') /\
    durable_position (world s') = Position_String (committed_position kind s) /\
    currentPosition s' = committed_position kind s /\ tables s' = after_flush reason ts.
Proof.
  intros Hix Ht Hnd Hf Hz. unfold commitOngoingTxn.
  destruct (flush_writes reason s ts Hix Ht Hnd Hf) as (s1 & Ef & Happ & Hts). rewrite Ef.
  pose proof (flush_keeps _ _ _ _ _ _ Ef) as (Hp & _ & Hg & _).
  unfold andThen at 1. cbn [mbind outcome_bind]. cbn zeta.
  set (s2 := if decide (kind = ImplicitCommitBeforeStmt) then s1 else _).
  assert (H2 : pendingPosition s2 = committed_position kind s /\ world s2 = world s1 /\ tables s2 = tables s1).
  { unfold s2, committed_position. case_decide; cbn; repeat split; congruence. }
  destruct H2 as (Hp2 & Hw2 & Ht2).
  destruct (Save_stores (pendingPosition s2) s2) as (s3 & Es & Hr3 & Hp3 & Htx3); [rewrite Hp2; exact Hz|].
  rewrite Es. unfold andThen at 1. cbn [mbind outcome_bind].
  destruct (commit_session_durable kind s3 Htx3) as (s4 & Ec & [Hv4 Hpos4] & [Hdr Hdp]). rewrite Ec.
  unfold andThen at 1. cbn [mbind outcome_bind]. eexists. split; [reflexivity|].
  pose proof (Save_keeps _ _ _ _ Es) as []. pose proof (commit_session_keeps _ _ _ _ Ec) as [].
  cbn. destruct (executed_law (Position_String (pendingPosition s4)) (world s4)) as ([Hev Hep] & Her & Hedp).
  split; [apply (applied_view ts _ (world s1)); [exact Happ | intros i; rewrite Hev, Hv4, Hr3, Hw2; reflexivity]|].
  split; [split; [intros i; rewrite Her, Hdr, Hev; reflexivity | congruence]|].
  split; [rewrite Hedp, Hdp, Hpos4, Hp3, Hp2; reflexivity|].
  split; [congruence | congruence].
Qed.

(** ** A flush that fails *)

(** What a rollback restores; the statements of a flush leave what is durable alone. *)
Class RollbackLaws : Type := {
  open_keeps : forall d d' i, GetCatalogTxn d = Some d' -> durable_rows i d' = durable_rows i d;
  statements_keep : forall i j, untouched viewHash (durable_rows j) (tab i) (delta_schema (schema_of i));
  rollback_law : forall d i, rows_in i (TxRollback d) = durable_rows i d /\ durable_rows i (TxRollback d) = durable_rows i d
}.
Context `{HB : !RollbackLaws}.

(** A table without buffered rows is not written by a flush. *)
Lemma Flush_idle reason j ts : (forall i a, (i, a) ∈ ts -> Schema a = delta_schema (schema_of i)) ->
  (forall i a, (i, a) ∈ ts -> tab i = tab j -> RowCount a = 0%nat) ->
  forall st d d' tbs st' e, Flush viewHash true env reason (tables_of tab ts) st d = Ret (d', tbs, st', e) -> rows_in j d' = rows_in j d.
Proof.
  induction ts as [|[i a] ts IH]; intros Hs Hz st d d' tbs st' e E; cbn [tables_of map Flush fst snd] in E;
    [injection E as <- <- <- <-; reflexivity|].
  apply bind_Ret_inv in E. destruct E as ([[[d1 a1] st1] e1] & E1 & E).
  assert (Hd1 : rows_in j d1 = rows_in j d).
  { destruct (decide (tab i = tab j)) as [Et|Et]; [rewrite (Hz i a (list_elem_of_here _ _) Et) in E1; injection E1 as <- <- <- <-; reflexivity|].
    destruct (0 <? RowCount a)%nat; [|injection E1 as <- <- <- <-; reflexivity].
    exact (frame_updateTable viewHash _ _ _ (frame_law viewHash tab schema_of indexed i j Et) _ _ _ _ _ _ _ _ _ (Hs i a (list_elem_of_here _ _)) E1). }
  destruct e1; [injection E as <- <- <- <-; exact Hd1|].
  apply bind_Ret_inv in E. destruct E as ([[[d2 ts2] st2] e2] & E2 & E). injection E as <- <- <- <-.
  rewrite <- Hd1. eapply IH; [| |exact E2]; [intros k b Hk; apply Hs; right; exact Hk | intros k b Hk; apply Hz; right; exact Hk].
Qed.

(** The buffers a flush leaves that fails at the table after [done]. *)
Definition after_failure (reason : FlushReason) (done : @buffered HA T) (i : T) (a : DeltaAppender) (rest : @buffered HA T) : @buffered HA T :=
  (if decide (reason = DDLStmtFlushReason) then [] else map (fun p => (p.1, flushed p.2)) done) ++ (i, flushed a) :: rest.

Lemma Flush_stops reason ts : (forall i a, (i, a) ∈ ts -> appender_ok (schema_of i) a) ->
  forall st d d' tbs st' e, Flush viewHash true env reason (tables_of tab ts) st d = Ret (d', tbs, st', Some e) ->
  exists done i a rest, ts = done ++ (i, a) :: rest /\ (0 < RowCount a)%nat /\ tbs = tables_of tab (after_failure reason done i a rest).
Proof.
  induction ts as [|[i a] ts IH]; intros Ha st d d' tbs st' e E; cbn [tables_of map Flush fst snd] in E; [discriminate|].
  apply bind_Ret_inv in E. destruct E as ([[[d1 a1] st1] e1] & E1 & E).
  assert (Hf : a1 = flushed a /\ (e1 <> None -> (0 < RowCount a)%nat)).
  { unfold flushed. destruct (Nat.ltb_spec 0 (RowCount a)) as [Hc|Hc].
    - split; [exact (updateTable_empties _ _ _ _ _ _ _ _ _ _ _ (Ha i a (list_elem_of_here _ _)) E1) | auto].
    - injection E1 as <- <- <- <-. split; [reflexivity | congruence]. }
  destruct Hf as [-> Hc]. destruct e1 as [e1|].
  - injection E as <- <- <- <-. exists [], i, a, ts. split; [reflexivity|]. split; [apply Hc; discriminate|].
    unfold after_failure. destruct (decide _); reflexivity.
  - apply bind_Ret_inv in E. destruct E as ([[[d2 ts2] st2] e2] & E2 & E). injection E as <- <- <- ->.
    destruct (IH (fun k b Hk => Ha k b (list_elem_of_further _ _ _ Hk)) _ _ _ _ _ _ E2) as (done & k & b & rest & -> & Hb & ->).
    exists ((i, a) :: done), k, b, rest. split; [reflexivity|]. split; [exact Hb|]. unfold after_failure. destruct (decide _); reflexivity.
Qed.

Lemma RowCount_flushed a : RowCount (flushed a) = 0%nat.
Proof.
  unfold flushed. destruct (Nat.ltb_spec 0 (RowCount a)) as [Hc|Hc]; [|lia].
  unfold RowCount, emptied, ResetCounters. cbn. destruct (a_fields a); reflexivity.
Qed.

(** The flushed tables of [after_failure] have nothing left to write. *)
Lemma after_failure_idle reason done i a rest j : NoDup (map (fun p => tab p.1) (done ++ (i, a) :: rest)) ->
  j ∈ map fst (done ++ [(i, a)]) -> forall k b, (k, b) ∈ after_failure reason done i a rest -> tab k = tab j -> RowCount b = 0%nat.
Proof.
  intros Hn Hj k b Hk Et. unfold after_failure in Hk. apply elem_of_app in Hk. rewrite elem_of_cons in Hk. destruct Hk as [Hk|[Hk|Hk]].
  - destruct (decide (reason = DDLStmtFlushReason)); [inversion Hk|]. apply elem_of_map in Hk. destruct Hk as ([k' c] & E & _). injection E as -> ->. apply RowCount_flushed.
  - injection Hk as -> ->. apply RowCount_flushed.
  - exfalso. rewrite cons_middle, app_assoc, map_app in Hn. apply NoDup_app in Hn. destruct Hn as (_ & Hd & _). apply (Hd (tab j)).
    + apply elem_of_map in Hj. destruct Hj as (x & -> & Hx). apply elem_of_map. eauto.
    + apply elem_of_map. exists (k, b). auto.
Qed.

(** The rows of the tables a failed flush has visited never become durable,
    whatever commit succeeds next, and that commit's position covers them. *)
Lemma failed_flush_lost now reason reason' ts s s1 s2 e :
  tables s = tables_of tab ts -> NoDup (map (fun p => tab p.1) ts) -> (forall i a, (i, a) ∈ ts -> appender_ok (schema_of i) a) ->
  flushDeltaBuffer viewHash env reason s = Ret (s1, Some (ErrFlush e)) ->
  commitOngoingTxn viewHash env now NormalCommit reason' s1 = Ret (s2, None) ->
  (forall j, rows_in j (world s1) = durable_rows j (world s) /\ durable_rows j (world s1) = durable_rows j (world s)) /\
  (exists done i a rest, ts = done ++ (i, a) :: rest /\ (0 < RowCount a)%nat /\
     forall j, j ∈ map fst (done ++ [(i, a)]) -> durable_rows j (world s2) = durable_rows j (world s)) /\
  durable_position (world s2) = Position_String (AppendGTID (pendingPosition s) (currentGtid s)).
Proof.
  intros Ht Hn Ha Ef Ec. pose proof (flush_keeps _ _ _ _ _ _ Ef) as (Hp & _ & Hg & _).
  assert (Hsch : forall i a, (i, a) ∈ ts -> Schema a = delta_schema (schema_of i)) by (intros i a Hi; apply (ok_schema _ _ (Ha i a Hi))).
  unfold flushDeltaBuffer in Ef. rewrite conn_law in Ef. cbn [negb] in Ef.
  destruct (GetCatalogTxn (world s)) as [w|] eqn:Ew; [|discriminate]. rewrite Ht in Ef.
  apply bind_Ret_inv in Ef. destruct Ef as ([[[w' tbs] st] e'] & Efl & Ef). destruct e' as [e'|]; [|discriminate]. injection Ef as <- <-.
  destruct (Flush_stops reason ts Ha _ _ _ _ _ _ Efl) as (done & i & a & rest & Ets & Hc & Etb).
  assert (Hd : forall j, durable_rows j w' = durable_rows j (world s)).
  { intros j. rewrite <- (open_keeps _ _ j Ew).
    eapply (Flush_frame viewHash tab schema_of env (durable_rows j)); [intros k; apply statements_keep | exact Hsch | exact Efl]. }
  assert (H1 : forall j, rows_in j (CloseTxn (TxRollback w')) = durable_rows j (world s) /\ durable_rows j (CloseTxn (TxRollback w')) = durable_rows j (world s)).
  { intros j. destruct (close_law (TxRollback w')) as ([Hv _] & Hdr & _), (rollback_law w' j) as [Hr Hr']. rewrite Hv, Hdr, Hr, Hr'. auto. }
  split; [exact H1|]. cbn [pendingPosition currentGtid set_world setSqlError set_lastSqlError set_deltaBufSize set_tables] in Hp, Hg.
  unfold commitOngoingTxn in Ec. apply andThen_ok in Ec. destruct Ec as (s3 & Ef3 & Ec).
  pose proof (flush_keeps _ _ _ _ _ _ Ef3) as (Hp3 & _ & Hg3 & _). cbn in Hp3, Hg3.
  assert (H3 : forall j, j ∈ map fst (done ++ [(i, a)]) -> rows_in j (world s3) = durable_rows j (world s)).
  { intros j Hj. unfold flushDeltaBuffer in Ef3. rewrite conn_law in Ef3. cbn [negb world set_world tables setSqlError set_lastSqlError set_tables set_deltaBufSize] in Ef3.
    destruct (txn_law (CloseTxn (TxRollback w'))) as (w3 & Ew3 & [Hv3 _] & _). rewrite Ew3, Etb in Ef3.
    apply bind_Ret_inv in Ef3. destruct Ef3 as ([[[w4 tbs4] st4] e4] & Efl4 & Ef3). destruct e4; [discriminate|]. unfold ok in Ef3. injection Ef3 as <-.
    cbn [world set_world set_tables set_deltaBufSize]. rewrite <- (proj1 (H1 j)), <- (Hv3 j). eapply Flush_idle; [| |exact Efl4].
    - intros k b Hk. unfold after_failure in Hk. assert (Hsf : forall x, Schema (flushed x) = Schema x) by (intros x; unfold flushed; destruct (_ <? _)%nat; reflexivity).
      apply elem_of_app in Hk. rewrite elem_of_cons in Hk. destruct Hk as [Hk|[Hk|Hk]].
      + destruct (decide (reason = DDLStmtFlushReason)); [inversion Hk|]. apply elem_of_map in Hk. destruct Hk as ([k' c] & E & Hk). injection E as -> ->. rewrite Hsf. apply Hsch. rewrite Ets. apply elem_of_app. auto.
      + injection Hk as -> ->. rewrite Hsf. apply Hsch. rewrite Ets. apply elem_of_app. right. left.
      + apply Hsch. rewrite Ets. apply elem_of_app. right. right. exact Hk.
    - apply after_failure_idle; [rewrite <- Ets; exact Hn | exact Hj]. }
  cbn zeta in Ec. rewrite decide_False in Ec by discriminate. set (s4 := set_pendingPosition _ s3) in Ec.
  apply andThen_ok in Ec. destruct Ec as (s5 & Es & Ec).
  destruct (Position_IsZero (pendingPosition s4)) eqn:Ez; [unfold Save in Es; rewrite Ez in Es; discriminate|].
  destruct (Save_stores (pendingPosition s4) s4 Ez) as (s5' & Es' & Hr5 & Hp5 & Htx). rewrite Es in Es'. injection Es' as <-.
  apply andThen_ok in Ec. destruct Ec as (s6 & E6 & Ec).
  destruct (commit_session_durable NormalCommit s5 Htx) as (s6' & E6' & [Hv6 Hp6] & [Hdr Hdp]). rewrite E6 in E6'. injection E6' as <-.
  unfold ok in Ec. injection Ec as <-. cbn. destruct (executed_law (Position_String (pendingPosition s6)) (world s6)) as (_ & Her & Hedp). split.
  - exists done, i, a, rest. split; [exact Ets|]. split; [exact Hc|]. intros j Hj. rewrite Her, Hdr, Hv6, Hr5. apply H3, Hj.
  - rewrite Hedp, Hdp, Hp6, Hp5. cbn. congruence.
Qed.
End Durability.
