(* ===== verification/Replay.v ===== *)
(** * Replaying a stream of transactions

    The end-to-end statement of the replica.  The specification is a history of
    transactions, each a list of row changes, applied to the tables in order.
    A [stream] is any sequence of loop inputs that presents such a history, as
    MariaDB logs it (a GTID event that begins the transaction) or as MySQL does
    (a GTID event, then the query BEGIN): table map and row events, XID or
    COMMIT, with ticks, idle events and rotations in between and any clock.
    [replay_stream]: the loop processes it without an error, the
    tables with what is buffered are those of the source at every moment, what
    is durable is always the state after a prefix of the history, with the
    position of that prefix, and stopping makes the whole history durable. *)

From S2P Require Import Prelude GoTime Charset Schema Rbr RbrFacts Identifier InternalTables.
From S2P Require Import Delta DeltaSpec DeltaRefine DeltaFlush Filtering Updater QueryVars RowAppend RowDecode ReplaySpec.
From S2P Require Import Applier ApplierFacts Durability.

Section Replay.
Context `{HA : ArrowLib} `{HC : Codecs} `{HV : VitessLib} `{HQ : !EqDecision (cell num128 num256)} `{HD : !DuckDB} `{HE : !Engine}.
Context (dict_nil : cell num128 num256) (viewHash : string -> string) (env : string) (filters : option filterConfiguration).
Context {T : Type} `{!EqDecision T} (tab : T -> tableIdentifier) `{!Inj (=) (=) tab} (schema_of : T -> list Column) (indexed : bool).
Context `{HF : !FlushLaws viewHash tab schema_of indexed} `{HL : !EngineLaws viewHash tab schema_of indexed}.

Abbreviation row := (list (cell num128 num256)).
Abbreviation slots := (@buffered HA T).
Abbreviation rows_in := (rows_in viewHash tab schema_of indexed).
Abbreviation position := (position viewHash tab schema_of indexed).
Abbreviation durable_rows := (durable_rows viewHash tab schema_of indexed).
Abbreviation durable_position := (durable_position viewHash tab schema_of indexed).
Abbreviation same_view := (same_view viewHash tab schema_of indexed position).

(** ** What else the stream relies on *)
Definition same_catalog (d d' : db) : Prop := forall x y, LookupTable x y d' = LookupTable x y d.
Definition same_durable (d d' : db) : Prop :=
  (forall i, durable_rows i d' = durable_rows i d) /\ durable_position d' = durable_position d.

Class ReplayLaws : Type := {
  r_txn : forall d d', GetCatalogTxn d = Some d' -> same_catalog d d' /\ same_durable d d';
  r_flush_catalog : forall i x y, untouched viewHash (LookupTable x y) (tab i) (delta_schema (schema_of i));
  r_flush_rows : forall i j, untouched viewHash (durable_rows j) (tab i) (delta_schema (schema_of i));
  r_flush_position : forall i, untouched viewHash durable_position (tab i) (delta_schema (schema_of i));
  r_save : forall sql p d d', UpsertStmt BinlogPosition = Ret sql -> ExecArgs sql [defaultChannelName; p] d = (d', true) -> same_catalog d d';
  r_commit : forall d d' r, RunQuery EmptyString "COMMIT" d = (d', r) -> same_catalog d d';
  r_tx_commit : forall d d' r, TxCommit d = (d', r) -> same_catalog d d';
  r_close : forall d, same_catalog d (CloseTxn d);
  r_executed : forall p d, same_catalog d (SetGtidExecuted p d);
  r_begin_node : forall x d, PrepareQuery x "BEGIN" d = Some StartTransaction;
  r_commit_node : forall x d, PrepareQuery x "COMMIT" d = Some Commit;
  r_begin : forall x d, exists d' r, RunQuery x "BEGIN" d = (d', r) /\ r <> QueryErr /\
    same_view d d' /\ same_catalog d d' /\ same_durable d d';
  r_session : forall x v d, same_view d (SetSessionVariable x v d) /\ same_catalog d (SetSessionVariable x v d) /\
    same_durable d (SetSessionVariable x v d);
  r_uuid : forall u d, exists d', persistSourceUuid u d = Some d' /\ same_view d d' /\ same_catalog d d' /\ same_durable d d';
  r_append_none : forall p, AppendGTID p None = p;
  r_append_twice : forall p g, AppendGTID (AppendGTID p g) g = AppendGTID p g;
  r_append_zero : forall p g, Position_IsZero (AppendGTID p (Some g)) = false
}.

Context `{HR : !ReplayLaws}.

Lemma same_catalog_trans d1 d2 d3 : same_catalog d1 d2 -> same_catalog d2 d3 -> same_catalog d1 d3.
Proof. intros H12 H23 x y. rewrite H23. apply H12. Qed.
Lemma same_durable_trans d1 d2 d3 : same_durable d1 d2 -> same_durable d2 d3 -> same_durable d1 d3.
Proof. intros [Hr Hp] [Hr' Hp']. split; [intros i; rewrite Hr'; apply Hr | congruence]. Qed.
#[local] Hint Resolve same_catalog_trans same_durable_trans r_close r_executed : go.

(** ** Frames of flush and commit *)
Lemma flush_frame reason s s' ts : tables s = tables_of tab ts ->
  (forall i a, (i, a) ∈ ts -> Schema a = delta_schema (schema_of i)) ->
  flushDeltaBuffer viewHash env reason s = Ret (s', None) ->
  same_catalog (world s) (world s') /\ same_durable (world s) (world s').
Proof.
  intros Ht Hs E. unfold flushDeltaBuffer in E. destruct (negb _); [discriminate|].
  destruct (GetCatalogTxn (world s)) as [w|] eqn:Ew; [|discriminate]. destruct (r_txn _ _ Ew) as [Hc Hd].
  rewrite Ht in E. apply bind_Ret_inv in E. destruct E as ([[[w' tbs] st] e] & Ef & E).
  destruct e; [discriminate|]. unfold ok in E. injection E as <-. cbn [world set_deltaBufSize set_tables set_world]. split.
  - intros x y. rewrite <- Hc. eapply (Flush_frame viewHash tab schema_of env (LookupTable x y)); [intros; apply r_flush_catalog | exact Hs | exact Ef].
  - eapply same_durable_trans; [exact Hd|]. split.
    + intros j. eapply (Flush_frame viewHash tab schema_of env (durable_rows j)); [intros; apply r_flush_rows | exact Hs | exact Ef].
    + eapply (Flush_frame viewHash tab schema_of env durable_position); [intros; apply r_flush_position | exact Hs | exact Ef].
Qed.

Lemma Save_catalog p s s' : Save p s = Ret (s', None) -> same_catalog (world s) (world s').
Proof.
  unfold Save. intros E. destruct (Position_IsZero p); [discriminate|].
  destruct (GetCatalogTxn (world s)) as [w|] eqn:Ew; [|discriminate]. destruct (r_txn _ _ Ew) as [Hc _].
  destruct (UpsertStmt BinlogPosition) as [sql|] eqn:Es; [|discriminate]. cbn [mbind outcome_bind] in E.
  destruct (ExecArgs _ _ w) as [w' []] eqn:Ex; [|discriminate]. unfold ok in E. injection E as <-. cbn [world set_world].
  eapply same_catalog_trans; [exact Hc|]. eapply r_save; eauto.
Qed.

Lemma commit_session_catalog kind s s' : commit_session kind s = Ret (s', None) -> same_catalog (world s) (world s').
Proof.
  unfold commit_session. intros E. apply andThen_ok in E. destruct E as (s1 & E1 & E).
  assert (H1 : same_catalog (world s) (world s1)).
  { destruct (_ || _); [|unfold ok in E1; injection E1 as <-; intros x y; reflexivity].
    unfold execute in E1. destruct (RunQuery _ _ _) as [w []] eqn:Er; unfold ok, err in E1; try discriminate; injection E1 as <-;
      eapply r_commit; exact Er. }
  destruct (TryGetTxn (world s1)); [|unfold ok in E; injection E as <-; exact H1].
  destruct (TxCommit (world s1)) as [w []] eqn:Et; unfold ok, err in E; try discriminate; injection E as <-; cbn [world set_world];
    (eapply same_catalog_trans; [exact H1|]); (eapply same_catalog_trans; [eapply r_tx_commit; exact Et | apply r_close]).
Qed.

Lemma commit_catalog now kind reason s s' ts : tables s = tables_of tab ts ->
  (forall i a, (i, a) ∈ ts -> Schema a = delta_schema (schema_of i)) ->
  commitOngoingTxn viewHash env now kind reason s = Ret (s', None) -> same_catalog (world s) (world s').
Proof.
  intros Ht Hs E. unfold commitOngoingTxn in E. apply andThen_ok in E. destruct E as (s1 & Ef & E).
  destruct (flush_frame _ _ _ ts Ht Hs Ef) as [Hc _]. cbn zeta in E.
  set (s2 := if decide (kind = ImplicitCommitBeforeStmt) then s1 else _) in E.
  assert (H2 : world s2 = world s1) by (unfold s2; case_decide; reflexivity).
  apply andThen_ok in E. destruct E as (s3 & E3 & E). apply Save_catalog in E3. rewrite H2 in E3.
  apply andThen_ok in E. destruct E as (s4 & E4 & E). apply commit_session_catalog in E4.
  unfold ok in E. injection E as <-. cbn. eauto with go.
Qed.

(** ** The tables of the stream *)

(** The builder types of a table's appender. *)
Definition types_of (i : T) : list DataType :=
  match ToArrowSchema (map col_type (delta_schema (schema_of i))) [1; 2; 3]%nat with Ret l => l | Panic => [] end.
Definition fresh (i : T) : DeltaAppender := fresh_appender (schema_of i) (types_of i).

(** How the catalog describes the table, and the key the applier caches it under. *)
Context (pks : T -> list nat).
Definition info_of (i : T) : TableInfo := mkTableInfo (schema_of i) (pks i) (tableName (tab i)).
Definition cache_key (x y : string) : string * string := (strings_ToLower x, strings_ToLower y).
(** [x.y] of a table map names table [i]: table names are compared without case. *)
Definition denotes (i : T) (x y : string) : Prop := x = dbName (tab i) /\ strings_ToLower y = strings_ToLower (tableName (tab i)).
Definition key_of (i : T) : string * string := cache_key (dbName (tab i)) (tableName (tab i)).

Record table_ok (i : T) : Prop := mkTableOk {
  tb_types : ToArrowSchema (map col_type (delta_schema (schema_of i))) [1; 2; 3]%nat = Ret (types_of i);
  tb_width : length (types_of i) = length (delta_schema (schema_of i));
  tb_pk : List.filter col_pk (schema_of i) <> [];
  tb_ordinals : pks i <> [];
  tb_user : dbName (tab i) <> "mysql"
}.

Context (Htables : forall i, table_ok i) (Hkeys : forall i j, key_of i = key_of j -> i = j).
Context (Hindexed : indexed = negb (IsReplicationWithoutIndex env)).

Lemma new_fresh i : newDeltaAppender (schema_of i) = Ret (fresh i).
Proof. apply new_fresh_appender, (tb_types _ (Htables i)). Qed.

Lemma fresh_rows i : delta_rows (fresh i) = [].
Proof. apply fresh_appender_rows. Qed.

Lemma fresh_ok i : appender_ok (schema_of i) (fresh i).
Proof. apply fresh_appender_ok, tb_width, Htables. Qed.

(** ** The buffer of a table in a run *)

(** [st] comes before every statement of [g] numbered [m] or more. *)
Definition earlier (g : option GTID) (m : Z) (st : row) : Prop := forall m', m <= m' -> cells_cmp st (stamp dict_nil g m') = Lt.

Record slot_ok (g : option GTID) (m : Z) (i : T) (a : DeltaAppender) (tbl : list row) : Prop := mkSlotOk {
  sl_appender : appender_ok (schema_of i) a;
  sl_types : map b_type (a_fields a) = types_of i;
  sl_counters : counters_ok a;
  sl_actions : actions_ok (delta_rows a);
  sl_ordered : ordered (schema_of i) (delta_rows a);
  sl_earlier : Forall (fun d => earlier g m (stamp_of d)) (delta_rows a);
  sl_keys : Forall (fun d => no_null (dkey (schema_of i) d)) (delta_rows a);
  sl_source : source_valid (schema_of i) (delta_rows a) tbl
}.

(** An appender without rows fits every table and every moment. *)
Lemma slot_empty g m i a tbl : appender_ok (schema_of i) a -> map b_type (a_fields a) = types_of i -> counters_ok a ->
  delta_rows a = [] -> slot_ok g m i a tbl.
Proof.
  intros Ha Ht Hc Hr. split; rewrite ?Hr; try assumption; try constructor. intros k j d1 d2 _ Hd _. destruct k; discriminate.
Qed.

Lemma slot_delta g m i a tbl : slot_ok g m i a tbl -> delta_ok (schema_of i) a tbl.
Proof. intros []. split; auto. Qed.

Lemma slot_flushed g m g' m' i a tbl tbl' : slot_ok g m i a tbl -> slot_ok g' m' i (flushed a) tbl'.
Proof.
  intros [Ha Ht Hc _ _ _ _ _]. unfold flushed. destruct (Nat.ltb_spec 0 (RowCount a)) as [Hn|Hn].
  - pose proof (appender_ok_emptied _ _ Ha) as [Hs Hw Hr]. apply slot_empty.
    + split; assumption.
    + cbn. rewrite map_map. exact Ht.
    + split; cbn; try lia; intros; change (delta_rows (ResetCounters (emptied a))) with (delta_rows (emptied a));
        rewrite delta_rows_emptied; constructor.
    + exact (delta_rows_emptied a).
  - apply slot_empty; auto. apply (empty_delta schema_of i); [exact Ha | lia].
Qed.

(** Later statements and later transactions keep a slot good. *)
Lemma slot_later g m g' m' i a tbl : (forall st, earlier g m st -> earlier g' m' st) -> slot_ok g m i a tbl -> slot_ok g' m' i a tbl.
Proof. intros Hl [Ha Ht Hc Hact Ho He Hk Hs]. split; auto. eapply Forall_impl; [exact He|]. intros d. apply Hl. Qed.

Definition gtid_before (g g' : option GTID) : Prop := forall m m', cells_cmp (stamp dict_nil g m) (stamp dict_nil g' m') = Lt.

Lemma earlier_next g m m' st : m <= m' -> earlier g m st -> earlier g m' st.
Proof. intros Hm He m2 Hm2. apply He. lia. Qed.

Lemma earlier_txn g m g' m' st : gtid_before g g' -> earlier g m st -> earlier g' m' st.
Proof. intros Hg He m2 _. eapply (g_trans _ cells_good); [apply (He m); lia | apply Hg]. Qed.

(** ** The state of the replica against the source *)
Definition pending_rows (i : T) (ts : slots) : list row := match find_slot i ts with Some a => delta_rows a | None => [] end.

Record tracks_with (src : T -> list row) (ts : slots) (s : Applier) : Prop := mkTracks {
  t_tables : tables s = tables_of tab ts;
  t_nodup : NoDup (map fst ts);
  t_slots : forall i a, (i, a) ∈ ts -> slot_ok (currentGtid s) (inTxnStmtID s) i a (rows_in i (world s));
  t_unique : forall i, unique_keys (schema_of i) (rows_in i (world s));
  t_view : forall i, same_rows (apply_delta (schema_of i) (pending_rows i ts) (rows_in i (world s))) (src i);
  t_stmt : 0 <= inTxnStmtID s;
  t_cache : forall i info, tablesByName s !! key_of i = Some info -> info = info_of i;
  t_catalog : forall i x y, denotes i x y -> LookupTable x y (world s) = Some (info_of i)
}.
Definition tracks (src : T -> list row) (s : Applier) : Prop := exists ts, tracks_with src ts s.

Lemma tracks_schema src ts s : tracks_with src ts s -> forall i a, (i, a) ∈ ts -> Schema a = delta_schema (schema_of i).
Proof. intros [] i a Hi. apply (ok_schema _ _ (sl_appender _ _ _ _ _ (t_slots0 i a Hi))). Qed.

Lemma tracks_flushable src ts s : tracks_with src ts s -> flushable viewHash tab schema_of indexed ts (world s).
Proof.
  intros [] i a Hi. split; [apply tb_pk, Htables|]. split; [apply t_unique0|]. eapply slot_delta, t_slots0, Hi.
Qed.

Definition flushed_slots (ts : slots) : slots := map (fun p => (p.1, flushed p.2)) ts.

Lemma after_flush_slots reason ts : reason <> DDLStmtFlushReason -> after_flush tab reason ts = tables_of tab (flushed_slots ts).
Proof.
  intros Hr. unfold after_flush. rewrite decide_False by exact Hr. unfold tables_of, flushed_slots. rewrite map_map. reflexivity.
Qed.

Lemma flushed_rows i g m tbl a : slot_ok g m i a tbl -> delta_rows (flushed a) = [].
Proof.
  intros [Ha _ _ _ _ _ _ _]. unfold flushed. destruct (Nat.ltb_spec 0 (RowCount a)) as [Hn|Hn].
  - exact (delta_rows_emptied a).
  - apply (empty_delta schema_of i); [exact Ha | lia].
Qed.

(** Whatever applied the buffer and emptied it leaves a replica that shows the same tables. *)
Lemma tracks_applied src ts s s' reason : tracks_with src ts s -> reason <> DDLStmtFlushReason ->
  applied viewHash tab schema_of indexed ts (world s) (world s') -> tables s' = after_flush tab reason ts ->
  same_catalog (world s) (world s') -> tablesByName s' = tablesByName s -> 0 <= inTxnStmtID s' ->
  tracks_with src (flushed_slots ts) s' /\ forall i, same_rows (rows_in i (world s')) (src i).
Proof.
  intros [Ht Hn Hs Hu Hv Hst Hca Hct] Hr [Ha Ho] Ht' Hc Hn' Hst'. rewrite (after_flush_slots _ _ Hr) in Ht'.
  assert (Hrows : forall i, same_rows (rows_in i (world s')) (src i) /\ unique_keys (schema_of i) (rows_in i (world s'))).
  { intros i. specialize (Hv i). unfold pending_rows in Hv. destruct (find_slot i ts) as [a|] eqn:Ef.
    - apply (find_elem ts Hn) in Ef. destruct (Ha i a Ef) as [H1 H2]. split; [etransitivity; [exact H1 | exact Hv] | exact H2].
    - rewrite (Ho i); [split; [exact Hv | apply Hu]|]. intros Hin. apply elem_of_map in Hin. destruct Hin as ([j a] & E & Hj).
      apply (inj tab) in E. cbn in E. subst j. apply (find_elem ts Hn) in Hj. congruence. }
  split; [|intros i; apply Hrows]. split.
  - exact Ht'.
  - unfold flushed_slots. rewrite map_map. exact Hn.
  - intros i a Hi. apply elem_of_map in Hi. destruct Hi as ([j b] & E & Hj). cbn in E. injection E as -> ->.
    eapply slot_flushed, Hs, Hj.
  - intros i. apply Hrows.
  - intros i. unfold pending_rows, flushed_slots. rewrite (find_map flushed). destruct (find_slot i ts) as [a|] eqn:Ef; cbn.
    + apply (find_elem ts Hn) in Ef. rewrite (flushed_rows i _ _ _ a (Hs i a Ef)). apply Hrows.
    + apply Hrows.
  - exact Hst'.
  - rewrite Hn'. exact Hca.
  - intros i x y Hd. rewrite Hc. apply Hct, Hd.
Qed.

(** What a restart finds. *)
Definition saved (src : T -> list row) (p : Position) (d : db) : Prop :=
  (forall i, same_rows (durable_rows i d) (src i)) /\ durable_position d = Position_String p.

Lemma flush_tracks reason src s : tracks src s -> reason <> DDLStmtFlushReason ->
  exists s', flushDeltaBuffer viewHash env reason s = Ret (s', None) /\ tracks src s' /\ same_durable (world s) (world s').
Proof.
  intros [ts Ht] Hr. pose proof Ht as [Htb Hn _ _ _ Hst _ _].
  destruct (flush_writes viewHash env tab schema_of indexed reason s ts Hindexed Htb (NoDup_tabs tab ts Hn) (tracks_flushable _ _ _ Ht))
    as (s' & E & Happ & Htb').
  exists s'. split; [exact E|]. destruct (flush_frame _ _ _ ts Htb (tracks_schema _ _ _ Ht) E) as [Hc Hd].
  pose proof (flush_keeps _ _ _ _ _ _ E) as (_ & _ & Hg & _ & _ & _ & _ & Hm & Hnm). split; [|exact Hd].
  destruct (tracks_applied src ts s s' reason Ht Hr Happ Htb' Hc Hnm) as [H1 _]; [lia|]. eexists. exact H1.
Qed.

(** What only the reading of events and errors change. *)
Definition reader (s : Applier) : option Format * gmap Z TableMap * option ApplierError :=
  (format s, tableMapsById s, lastSqlError s).

Lemma flush_reader reason s s' : flushDeltaBuffer viewHash env reason s = Ret (s', None) -> reader s' = reader s.
Proof.
  unfold flushDeltaBuffer. intros E. destruct (negb (GetCatalogConn _)); [discriminate|]. destruct (GetCatalogTxn _); [|discriminate].
  apply bind_Ret_inv in E. destruct E as ([[[w' tbs] st] e] & _ & E). destruct e; [discriminate|]. unfold ok in E. injection E as <-. reflexivity.
Qed.

Lemma execute_reader database query s s' : execute database query s = Ret (s', None) -> reader s' = reader s.
Proof. unfold execute. destruct (RunQuery _ _ _) as [w []]; unfold ok, err; intros E; try discriminate; injection E as <-; reflexivity. Qed.

Lemma commit_reader now kind reason s s' : commitOngoingTxn viewHash env now kind reason s = Ret (s', None) -> reader s' = reader s.
Proof.
  unfold commitOngoingTxn. intros E. apply andThen_ok in E. destruct E as (s1 & Ef & E). apply flush_reader in Ef. rewrite <- Ef. clear Ef.
  cbn zeta in E. set (s2 := if decide (kind = ImplicitCommitBeforeStmt) then s1 else _) in E.
  assert (H2 : reader s2 = reader s1) by (unfold s2; case_decide; reflexivity). rewrite <- H2. clear H2.
  apply andThen_ok in E. destruct E as (s3 & E3 & E).
  assert (H3 : reader s3 = reader s2).
  { unfold Save in E3. destruct (Position_IsZero _); [discriminate|]. destruct (GetCatalogTxn _); [|discriminate].
    destruct (UpsertStmt BinlogPosition); [|discriminate]. cbn [mbind outcome_bind] in E3.
    destruct (ExecArgs _ _ _) as [w []]; unfold ok, err in E3; [injection E3 as <-; reflexivity | discriminate]. }
  rewrite <- H3. clear H3. apply andThen_ok in E. destruct E as (s4 & E4 & E). unfold ok in E. injection E as <-.
  change (reader s4 = reader s3). unfold commit_session in E4. apply andThen_ok in E4. destruct E4 as (s5 & E5 & E4).
  assert (H5 : reader s5 = reader s3) by (destruct (_ || _); [eapply execute_reader; exact E5 | unfold ok in E5; injection E5 as <-; reflexivity]).
  destruct (TryGetTxn _); [|unfold ok in E4; injection E4 as <-; exact H5].
  destruct (TxCommit _) as [w []]; unfold ok, err in E4; try discriminate; injection E4 as <-; exact H5.
Qed.

Lemma commit_tracks now kind reason src s : tracks src s -> reason <> DDLStmtFlushReason ->
  Position_IsZero (committed_position kind s) = false ->
  exists s', commitOngoingTxn viewHash env now kind reason s = Ret (s', None) /\ tracks src s' /\
    saved src (committed_position kind s) (world s').
Proof.
  intros [ts Ht] Hr Hz. pose proof Ht as [Htb Hn _ _ _ Hst _ _].
  destruct (commit_durable viewHash env tab schema_of indexed now kind reason s ts Hindexed Htb (NoDup_tabs tab ts Hn)
    (tracks_flushable _ _ _ Ht) Hz) as (s' & E & Happ & [Hdr Hdp] & Hpos & _ & Htb').
  exists s'. split; [exact E|]. pose proof (commit_catalog _ _ _ _ _ ts Htb (tracks_schema _ _ _ Ht) E) as Hc.
  pose proof (commit_ok _ _ _ _ _ _ _ E) as (_ & _ & _ & _ & _ & Hm & _ & _ & _ & _ & Hnm & _).
  destruct (tracks_applied src ts s s' reason Ht Hr Happ Htb' Hc Hnm) as [H1 H2]; [lia|].
  split; [eexists; exact H1|]. split; [intros i; rewrite Hdr; apply H2 | exact Hpos].
Qed.

(** ** Histories *)

(** One row event: its table, the id and contents of its table map, the rows as
    logged, and what they decode to. *)
Record Change : Type := mkChange {
  ch_table : T; ch_id : Z; ch_map : TableMap; ch_kind : RowEventType; ch_rows : Rows;
  ch_before : list row; ch_after : list row
}.
Record Txn : Type := mkTxn { tx_gtid : GTID; tx_changes : list Change }.

Definition apply_change (src : T -> list row) (c : Change) : T -> list row := fun j =>
  if decide (j = ch_table c) then put_images (schema_of j) (ch_before c) (ch_after c) (src j) else src j.
Definition apply_txn (src : T -> list row) (t : Txn) : T -> list row := foldl apply_change src (tx_changes t).
Definition replay (src : T -> list row) (txns : list Txn) : T -> list row := foldl apply_txn src txns.
Definition position_after (p : Position) (txns : list Txn) : Position := foldl (fun p t => AppendGTID p (Some (tx_gtid t))) p txns.

(** A change the source can make on [src] and logs with full row images. *)
Record change_ok (src : T -> list row) (c : Change) : Prop := mkChangeOk {
  co_denotes : denotes (ch_table c) (tm_Database (ch_map c)) (tm_Name (ch_map c));
  co_id : ch_id c <> 16777215;
  co_map_flags : supported_flags (tm_Flags (ch_map c)) = 0;
  co_row_flags : supported_flags (rows_Flags (ch_rows c)) = 0;
  co_kept : isTableFilteredOut filters (tm_Database (ch_map c)) (tm_Name (ch_map c)) = false;
  co_width : length (tm_Types (ch_map c)) = length (schema_of (ch_table c));
  co_full : is_row_format (ch_kind c) (ch_rows c) (length (schema_of (ch_table c))) = true;
  co_before : Forall2 (fun r cs => decoded (schema_of (ch_table c)) (types_of (ch_table c)) (ch_map c) (identify_image r) cs)
    (if has_deletes (ch_kind c) then rows_Rows (ch_rows c) else []) (ch_before c);
  co_after : Forall2 (fun r cs => decoded (schema_of (ch_table c)) (types_of (ch_table c)) (ch_map c) (data_image r) cs)
    (if has_inserts (ch_kind c) then rows_Rows (ch_rows c) else []) (ch_after c);
  co_valid : images_valid (schema_of (ch_table c)) (ch_before c) (ch_after c) (src (ch_table c))
}.

(** ** A row event *)
Lemma slot_event g m i a tbl X tm event rows size a' size' ds ins : slot_ok g m i a tbl ->
  appendRowFormatChanges dict_nil tm (schema_of i) event rows g m a size = Ret (a', size', None) ->
  map b_type (a_fields a') = types_of i ->
  delta_rows a' = delta_rows a ++ new_rows dict_nil DeleteRowEvent g m ds ++ new_rows dict_nil InsertRowEvent g m ins ->
  same_rows (apply_delta (schema_of i) (delta_rows a) tbl) X -> images_valid (schema_of i) ds ins X ->
  slot_ok g (m + 1) i a' tbl /\ same_rows (apply_delta (schema_of i) (delta_rows a') tbl) (put_images (schema_of i) ds ins X).
Proof.
  intros [Ha Ht Hc Hact Ho He Hk Hs] E Ht' Hr HX Hv. pose proof Hv as (Hd & Hi & Hnn & _). apply Forall_app in Hnn. destruct Hnn as [Hnd Hni].
  assert (Hinv : buffer_inv (schema_of i) (map stamp_of (delta_rows a) ++ [stamp dict_nil g m]) a').
  { eapply (buffer_inv_append dict_nil (schema_of i)); [| |exact E|].
    - split; auto. apply Forall_forall. intros d Hdd. apply elem_of_map. eauto.
    - intros st Hst. apply elem_of_map in Hst. destruct Hst as (d & -> & Hdd). rewrite Forall_forall in He. apply He; [exact Hdd | lia].
    - rewrite Hr, drop_app_length. apply event_keys_new. auto. }
  destruct Hinv as [Ha' Hc' Hact' Ho' Hst']. split.
  - split; auto.
    + rewrite Hr. apply Forall_app_2; [eapply Forall_impl; [exact He|]; intros d; apply earlier_next; lia|].
      assert (Hnew : forall d, stamp_of d = stamp dict_nil g m -> earlier g (m + 1) (stamp_of d)).
      { intros d -> m' Hm'. apply stamp_lt_stmt. lia. }
      apply Forall_app_2; apply Forall_forall; intros d Hdd; apply Hnew; eapply (new_rows_elem dict_nil); exact Hdd.
    + rewrite Hr. apply Forall_app_2; [exact Hk|]. apply Forall_app_2; apply images_no_null; assumption.
    + rewrite Hr. apply source_valid_app. split; [exact Hs|]. eapply source_valid_same; [symmetry; exact HX|].
      apply source_valid_event, Hv.
  - rewrite Hr, apply_delta_app. rewrite apply_event.
    rewrite <- !(apply_event dict_nil (schema_of i) g m). apply apply_delta_proper, HX.
Qed.

Lemma table_schema src ts s i x y : tracks_with src ts s -> denotes i x y -> exists m,
  getTableSchema y x s = Some (set_tablesByName m s, info_of i) /\ tracks_with src ts (set_tablesByName m s).
Proof.
  intros Htr Hd. pose proof Htr as [Ht Hn Hs Hu Hv Hst Hca Hct]. destruct Hd as [Hx Hy].
  assert (Ek : (strings_ToLower x, strings_ToLower y) = key_of i) by (unfold key_of, cache_key; rewrite Hx, Hy; reflexivity).
  unfold getTableSchema. rewrite Ek. destruct (tablesByName s !! key_of i) as [info|] eqn:El.
  - rewrite (Hca i info El). exists (tablesByName s). destruct s. split; [reflexivity | exact Htr].
  - rewrite (Hct i x y (conj Hx Hy)). eexists. split; [reflexivity|]. split; auto.
    intros j info. cbn. destruct (decide (key_of i = key_of j)) as [E|E].
    + apply Hkeys in E. subst j. rewrite lookup_insert_eq. congruence.
    + rewrite lookup_insert_ne by exact E. apply Hca.
Qed.

(** The slot an event of table [i] goes to. *)
Lemma event_slot src ts s i : tracks_with src ts s -> exists a tbs,
  GetDeltaAppender (tab i) (schema_of i) (tables s) = Ret (a, tbs) /\
  slot_ok (currentGtid s) (inTxnStmtID s) i a (rows_in i (world s)) /\
  same_rows (apply_delta (schema_of i) (delta_rows a) (rows_in i (world s))) (src i) /\
  forall a', update_table (tab i) (fun _ => a') tbs = tables_of tab (put_slot i a' ts).
Proof.
  intros [Ht Hn Hs Hu Hv _ _ _]. unfold GetDeltaAppender. rewrite Ht, (lookup_slots tab). specialize (Hv i). unfold pending_rows in Hv.
  destruct (find_slot i ts) as [a|] eqn:Ef.
  - exists a, (tables_of tab ts). split; [reflexivity|]. split; [apply Hs, (find_elem ts Hn), Ef|]. split; [exact Hv|].
    intros a'. apply (update_slots tab). rewrite Ef. exact I.
  - rewrite new_fresh. cbn [mbind outcome_bind]. exists (fresh i), (tables_of tab ts ++ [(tab i, fresh i)]). split; [reflexivity|].
    split; [|split; [rewrite fresh_rows; exact Hv | intros a'; apply (update_new tab), Ef]].
    apply slot_empty; [apply fresh_ok | cbn; rewrite map_map; apply map_id | | apply fresh_rows].
    apply fresh_appender_counters.
Qed.

Lemma append_tracks src s c : tracks src s -> change_ok src c -> exists s',
  append_row_event dict_nil (ch_map c) (tableName (tab (ch_table c))) (schema_of (ch_table c)) (ch_kind c) (ch_rows c) s = Ret (s', None) /\
  tracks (apply_change src c) (set_inTxnStmtID (inTxnStmtID s + 1) s') /\ world s' = world s /\ reader s' = reader s /\
  keeps (set_deltaBufSize (deltaBufSize s') (set_tables (tables s') s)) s'.
Proof.
  intros [ts Htr] [Hden _ _ _ _ _ _ Hb Hf Hv]. set (i := ch_table c) in *.
  assert (Eid : mkTableId (tm_Database (ch_map c)) (tableName (tab i)) = tab i) by (destruct Hden as [-> _]; destruct (tab i); reflexivity).
  unfold append_row_event. rewrite Eid.
  destruct (event_slot src ts s i Htr) as (a & tbs & Eg & Hslot & HX & Hput). rewrite Eg. cbn [mbind outcome_bind].
  destruct (event_decodes dict_nil (schema_of i) (types_of i) (ch_map c) (ch_kind c) (rows_Rows (ch_rows c)) (ch_before c) (ch_after c)
    (currentGtid s) (inTxnStmtID s) a (deltaBufSize s) (sl_appender _ _ _ _ _ Hslot) (sl_types _ _ _ _ _ Hslot) Hb Hf)
    as (a' & size' & Ea & Ht' & Hr').
  rewrite Ea. cbn [mbind outcome_bind]. eexists. split; [reflexivity|]. split; [|repeat split].
  destruct (slot_event _ _ _ _ _ _ _ _ _ _ _ _ _ _ Hslot Ea Ht' Hr' HX Hv) as [Hslot' HX'].
  destruct Htr as [Ht Hn Hs Hu Hvw Hst Hca Hct]. exists (put_slot i a' ts). split; cbn.
  - apply Hput.
  - apply NoDup_put, Hn.
  - intros j b Hj. apply elem_put in Hj. destruct Hj as [[-> ->]|Hj]; [exact Hslot'|].
    eapply slot_later; [|apply Hs, Hj]. intros st. apply earlier_next. lia.
  - exact Hu.
  - intros j. unfold pending_rows. rewrite find_put. unfold apply_change. fold i. destruct (decide (i = j)) as [<-|Hj].
    + rewrite decide_True by reflexivity. exact HX'.
    + rewrite decide_False by congruence. apply Hvw.
  - lia.
  - exact Hca.
  - exact Hct.
Qed.

(** ** Steps of the loop *)
Lemma tracks_ext src s s' : tables s' = tables s -> currentGtid s' = currentGtid s -> inTxnStmtID s' = inTxnStmtID s ->
  world s' = world s -> tablesByName s' = tablesByName s -> tracks src s -> tracks src s'.
Proof. intros E1 E2 E3 E4 E5 [ts []]. exists ts. split; rewrite ?E1, ?E2, ?E3, ?E4, ?E5; assumption. Qed.

Lemma tracks_world src s w : same_view (world s) w -> same_catalog (world s) w -> tracks src s -> tracks src (set_world w s).
Proof.
  intros [Hr _] Hc [ts [Ht Hn Hs Hu Hv Hst Hca Hct]]. exists ts.
  split; cbn; auto; intros; rewrite ?Hr, ?Hc; eauto.
Qed.

(** A new transaction may begin. *)
Lemma tracks_gtid src s g g' : gtid_before (currentGtid s) g -> tracks src s -> tracks src (set_currentGtid g (set_previousGtid g' s)).
Proof.
  intros Hg [ts [Ht Hn Hs Hu Hv Hst Hca Hct]]. exists ts. split; auto. cbn. intros i a Hi.
  eapply slot_later; [|apply Hs, Hi]. intros st. apply earlier_txn, Hg.
Qed.

Context (fmt : Format) (src0 : T -> list row) (P0 : Position).

Definition durable_prefix (hist : list Txn) (d : db) : Prop :=
  exists done rest, hist = done ++ rest /\ saved (replay src0 done) (position_after P0 done) d.

Lemma durable_more hist more d : durable_prefix hist d -> durable_prefix (hist ++ more) d.
Proof. intros (done & rest & -> & Hs). exists done, (rest ++ more). rewrite app_assoc. auto. Qed.

Lemma durable_same hist d d' : same_durable d d' -> durable_prefix hist d -> durable_prefix hist d'.
Proof.
  intros [Hr Hp] (done & rest & -> & Hs1 & Hs2). exists done, rest. split; [reflexivity|].
  split; [intros i; rewrite Hr; apply Hs1 | congruence].
Qed.

Lemma saved_prefix hist d : saved (replay src0 hist) (position_after P0 hist) d -> durable_prefix hist d.
Proof. exists hist, []. rewrite app_nil_r. auto. Qed.

(** Between two transactions: everything of the history is applied or buffered. *)
Record between (hist : list Txn) (s : Applier) : Prop := mkBetween {
  bt_tracks : tracks (replay src0 hist) s;
  bt_pos : pendingPosition s = position_after P0 hist;
  bt_gtid : AppendGTID (pendingPosition s) (currentGtid s) = pendingPosition s;
  bt_zero : dirtyTxn s = true -> Position_IsZero (pendingPosition s) = false;
  bt_batch : ongoingBatchTxn s = true -> dirtyTxn s = true;
  bt_stream : dirtyStream s = false;
  bt_durable : durable_prefix hist (world s);
  bt_done : ongoingBatchTxn s = false -> saved (replay src0 hist) (position_after P0 hist) (world s);
  bt_format : format s = Some fmt
}.

(** Inside the transaction [g], with the tables of the source at [src]. *)
Record inside (hist : list Txn) (g : GTID) (src : T -> list row) (s : Applier) : Prop := mkInside {
  in_tracks : tracks src s;
  in_pos : pendingPosition s = position_after P0 hist;
  in_gtid : currentGtid s = Some g;
  in_batch : ongoingBatchTxn s = true;
  in_dirty : dirtyTxn s = true;
  in_stream : dirtyStream s = true;
  in_durable : durable_prefix hist (world s);
  in_format : format s = Some fmt
}.

Lemma extend_reason now s ext reason : mayExtendBatchTxn now s = (ext, reason) -> reason <> DDLStmtFlushReason /\ (ext = true -> ongoingBatchTxn s = true).
Proof.
  unfold mayExtendBatchTxn. destruct (ongoingBatchTxn s); [|intros [= <- <-]; split; [discriminate | discriminate]].
  destruct (_ <=? _); [intros [= <- <-]; split; [discriminate | auto]|].
  destruct (_ <=? _); intros [= <- <-]; (split; [discriminate | auto]).
Qed.

Lemma reader_inv s s' : reader s' = reader s -> format s' = format s /\ tableMapsById s' = tableMapsById s /\ lastSqlError s' = lastSqlError s.
Proof. unfold reader. intros E. injection E. auto. Qed.

(** A commit between transactions or at the end of one. *)
Lemma commit_step now reason hist p src s : tracks src s -> reason <> DDLStmtFlushReason -> format s = Some fmt ->
  AppendGTID (pendingPosition s) (currentGtid s) = p -> Position_IsZero p = false ->
  p = position_after P0 hist -> src = replay src0 hist -> AppendGTID p (currentGtid s) = p ->
  exists s', commitOngoingTxn viewHash env now NormalCommit reason s = Ret (s', None) /\ between hist s' /\
    inTxnStmtID s' = 0 /\ lastSqlError s' = lastSqlError s /\ currentGtid s' = currentGtid s.
Proof.
  intros Ht Hr Hf Hp Hz Hpos -> Htw.
  assert (Ec : committed_position NormalCommit s = p) by (unfold committed_position; rewrite decide_False by discriminate; exact Hp).
  destruct (commit_tracks now NormalCommit reason _ s Ht Hr) as (s' & E & Ht' & Hs'); [rewrite Ec; exact Hz|].
  rewrite Ec in Hs'. exists s'. split; [exact E|].
  pose proof (commit_ok _ _ _ _ _ _ _ E) as (_ & Hpend & Ho & Hd & Hds & Hm & _ & _ & Hg & _ & _ & _).
  destruct (reader_inv _ _ (commit_reader _ _ _ _ _ E)) as (Hfm & _ & Her). rewrite Ec in Hpend.
  split; [|split; [exact Hm | split; [exact Her | exact Hg]]]. subst p.
  split; try congruence; rewrite ?Hpend, ?Hg; auto.
  apply saved_prefix. rewrite <- Hpos. exact Hs'.
Qed.

Lemma tick_step now hist s : between hist s -> exists s', loop_turn dict_nil viewHash env filters now P0 InTick s = Ret s' /\ between hist s' /\
  inTxnStmtID s' <= inTxnStmtID s /\ lastSqlError s' = lastSqlError s /\ currentGtid s' = currentGtid s.
Proof.
  intros Hb. pose proof Hb as [Ht Hp Hg Hz Hba Hst Hdu Hdo Hf]. cbn [loop_turn]. rewrite Hst. cbn [negb].
  destruct (ongoingBatchTxn s) eqn:Eo; cbn [andb]; [|exists s; split; [reflexivity|]; split; [exact Hb|]; split; [lia | auto]].
  assert (Hm : 0 <= inTxnStmtID s) by (destruct Ht as [ts []]; assumption).
  unfold extendOrCommitBatchTxn. destruct (mayExtendBatchTxn now s) as [ext reason] eqn:Em.
  destruct (extend_reason _ _ _ _ Em) as [Hr _]. destruct ext.
  - unfold record_error, ok. cbn [mbind outcome_bind]. eexists. split; [reflexivity|]. split; [|cbn; split; [lia | auto]].
    split; cbn; rewrite ?Hg; auto; try congruence. eapply tracks_ext; [.. | exact Ht]; reflexivity.
  - destruct (commit_step now reason hist (pendingPosition s) _ s Ht Hr Hf Hg (Hz (Hba eq_refl)) Hp eq_refl Hg) as (s' & E & Hb' & Hm' & He' & Hg').
    rewrite E. unfold record_error. cbn [mbind outcome_bind]. exists s'. split; [reflexivity|]. split; [exact Hb'|]. split; [lia | auto].
Qed.

(** The XID of the transaction [t]. *)
Lemma xid_step now hist t s : inside hist (tx_gtid t) (apply_txn (replay src0 hist) t) s ->
  exists s', extendOrCommitBatchTxn viewHash env now s = Ret (s', None) /\ between (hist ++ [t]) s' /\
    inTxnStmtID s' <= inTxnStmtID s /\ lastSqlError s' = lastSqlError s /\ currentGtid s' = Some (tx_gtid t).
Proof.
  intros [Ht Hp Hg Hba Hd Hst Hdu Hf].
  assert (Er : replay src0 (hist ++ [t]) = apply_txn (replay src0 hist) t) by (unfold replay; rewrite foldl_app; reflexivity).
  assert (Ep : AppendGTID (pendingPosition s) (currentGtid s) = position_after P0 (hist ++ [t])).
  { rewrite Hp, Hg. unfold position_after. rewrite foldl_app. reflexivity. }
  assert (Hz : Position_IsZero (position_after P0 (hist ++ [t])) = false) by (rewrite <- Ep, Hg; apply r_append_zero).
  assert (Hm : 0 <= inTxnStmtID s) by (destruct Ht as [ts []]; assumption).
  unfold extendOrCommitBatchTxn. destruct (mayExtendBatchTxn now s) as [ext reason] eqn:Em.
  destruct (extend_reason _ _ _ _ Em) as [Hr _]. destruct ext.
  - eexists. split; [reflexivity|]. split; [|cbn; split; [lia | auto]].
    split; cbn; rewrite ?Ep; auto; try congruence.
    + rewrite Er. eapply tracks_ext; [.. | exact Ht]; reflexivity.
    + rewrite <- Ep. apply r_append_twice.
    + apply durable_more, Hdu.
  - destruct (commit_step now reason (hist ++ [t]) _ _ s Ht Hr Hf Ep Hz eq_refl (eq_sym Er)) as (s' & E & Hb' & Hm' & He' & Hg').
    { rewrite <- Ep. apply r_append_twice. }
    exists s'. split; [exact E|]. split; [exact Hb'|]. split; [lia|]. split; [exact He' | congruence].
Qed.

(** ** Events *)

(** [raw] is the event [ev] once its checksum is stripped. *)
Definition presents (raw ev : BinlogEvent) : Prop := (forall f, raw <> EvFormatDescription f) /\ StripChecksum fmt raw = (ev, true).

Abbreviation process := (processBinlogEvent dict_nil viewHash env filters).

Lemma process_presented now raw ev s : format s = Some fmt -> presents raw ev ->
  process now raw s = match ev with
    | EvXID => extendOrCommitBatchTxn viewHash env now s
    | EvGTID gtid => process_gtid viewHash env now gtid s
    | EvTableMap id map => process_table_map id map s
    | EvRows kind id rows => andThen (processRowEvent dict_nil filters kind id rows s) (fun s => ok (mark_dirty s))
    | EvQuery query bytes => process_query viewHash env now query bytes s
    | EvRotate => match currentGtid s with Some _ => extendOrCommitBatchTxn viewHash env now s | None => ok s end
    | EvRand | EvHeartbeat | EvStop => ok s
    | EvPreviousGTIDs valid => match format s with None => Panic | Some fmt => if valid fmt then ok s else err ErrEvent s end
    | EvOther bytes => code ← index bytes 4; if (code =? 161) || (code =? 163) then ok s else err (ErrUnknownEvent code) s
    | EvFormatDescription _ => process now raw s
    end.
Proof.
  intros Hf [Hn Hs]. destruct ev; try reflexivity; unfold processBinlogEvent; rewrite Hf; destruct raw; try (rewrite Hs; cbn beta iota zeta; rewrite ?Hf; reflexivity);
    edestruct Hn; reflexivity.
Qed.

(** Two states that differ only in the source's UUID and in what a restart and the tables do not show. *)
Record moved (s s' : Applier) : Prop := mkMoved {
  mv_tables : tables s' = tables s; mv_names : tablesByName s' = tablesByName s; mv_format : format s' = format s;
  mv_current : currentGtid s' = currentGtid s; mv_previous : previousGtid s' = previousGtid s;
  mv_pending : pendingPosition s' = pendingPosition s;
  mv_batch : ongoingBatchTxn s' = ongoingBatchTxn s; mv_dirty : dirtyTxn s' = dirtyTxn s; mv_stream : dirtyStream s' = dirtyStream s;
  mv_stmt : inTxnStmtID s' = inTxnStmtID s; mv_error : lastSqlError s' = lastSqlError s;
  mv_view : same_view (world s) (world s'); mv_catalog : same_catalog (world s) (world s'); mv_durable : same_durable (world s) (world s')
}.

Lemma moved_tracks src s s' : moved s s' -> tracks src s -> tracks src s'.
Proof.
  intros [] Ht. apply (tracks_ext src (set_world (world s') s)); cbn; try congruence. apply tracks_world; assumption.
Qed.

Lemma moved_world s w : same_view (world s) w -> same_catalog (world s) w -> same_durable (world s) w -> moved s (set_world w s).
Proof. intros. split; cbn; auto. Qed.

Lemma moved_inside hist g src s s' : moved s s' -> inside hist g src s -> inside hist g src s'.
Proof.
  intros Hm [Ht Hp Hg Hba Hd Hst Hdu Hf]. pose proof (moved_tracks _ _ _ Hm Ht). destruct Hm.
  split; try congruence. eapply durable_same; eauto.
Qed.

(** The GTID of a transaction that has not begun was read. *)
Record announced (hist : list Txn) (g : GTID) (s : Applier) : Prop := mkAnnounced {
  an_tracks : tracks (replay src0 hist) s;
  an_pos : pendingPosition s = position_after P0 hist;
  an_previous : AppendGTID (pendingPosition s) (previousGtid s) = pendingPosition s;
  an_gtid : currentGtid s = Some g;
  an_zero : dirtyTxn s = true -> Position_IsZero (pendingPosition s) = false;
  an_batch : ongoingBatchTxn s = true -> dirtyTxn s = true;
  an_durable : durable_prefix hist (world s);
  an_format : format s = Some fmt
}.

Lemma moved_announced hist g s s' : moved s s' -> announced hist g s -> announced hist g s'.
Proof.
  intros Hm [Ht Hp Hg Hc Hz Hba Hdu Hf]. pose proof (moved_tracks _ _ _ Hm Ht). destruct Hm.
  split; try congruence; [rewrite mv_pending0, mv_dirty0; exact Hz | rewrite mv_batch0, mv_dirty0; exact Hba|]. eapply durable_same; eauto.
Qed.

Lemma announce hist g s : between hist s -> gtid_before (currentGtid s) (Some g) ->
  announced hist g (set_currentGtid (Some g) (set_previousGtid (currentGtid s) s)).
Proof. intros [Ht Hp Hg Hz Hba Hst Hdu Hdo Hf] Hbef. split; cbn; auto. apply tracks_gtid; assumption. Qed.

(** The source's UUID is stored once. *)
Lemma uuid_step g s : exists s',
  (if bool_decide (replicationSourceUuid s = EmptyString) then
     match persistSourceUuid (SourceServer g) (world s) with
     | None => err ErrUuid s
     | Some w => ok (set_replicationSourceUuid (SourceServer g) (set_world w s))
     end
   else ok s) = Ret (s', None) /\ moved s s'.
Proof.
  case_bool_decide.
  - destruct (r_uuid (SourceServer g) (world s)) as (w & -> & Hvw & Hcat & Hdur). eexists. split; [reflexivity|]. split; cbn; auto.
  - exists s. split; [reflexivity|]. split; try reflexivity; repeat split.
Qed.

(** BEGIN, from a GTID event or a query event: the batch is extended, or committed without the new transaction. *)
Lemma begin_query now database hist g s1 : announced hist g s1 ->
  exists s2, executeQueryWithEngine viewHash env now (mkQuery database "BEGIN") s1 = Ret (s2, None) /\
    inside hist g (replay src0 hist) s2 /\ inTxnStmtID s2 <= inTxnStmtID s1 /\ lastSqlError s2 = lastSqlError s1.
Proof.
  intros [Ht1 Hp Hg Hc Hz Hba Hdu Hf].
  assert (Hm : 0 <= inTxnStmtID s1) by (destruct Ht1 as [ts []]; assumption).
  unfold executeQueryWithEngine. cbn [q_Database q_SQL].
  replace (String.prefix "TRUNCATE TABLE time_zone" "BEGIN") with false by reflexivity. rewrite andb_false_r.
  rewrite r_begin_node. destruct (mayExtendBatchTxn now s1) as [ext reason] eqn:Em. destruct (extend_reason _ _ _ _ Em) as [Hr He].
  rewrite bool_decide_true by reflexivity. cbn [andb]. destruct ext.
  - specialize (He eq_refl). eexists. split; [reflexivity|]. split; [|cbn; split; [lia | reflexivity]].
    split; cbn; rewrite ?Hg; auto. eapply tracks_ext; [.. | exact Ht1]; reflexivity.
  - cbn [query_plan CauseSchemaChange CauseImplicitCommitAfter].
    destruct (flush_tracks reason _ s1 Ht1 Hr) as (s2 & E2 & Ht2 & Hd2). rewrite E2.
    pose proof (flush_keeps _ _ _ _ _ _ E2) as (Hp2 & _ & Hg2 & _ & _ & Hdi2 & _ & Hm2 & _).
    destruct (reader_inv _ _ (flush_reader _ _ _ E2)) as (Hf2 & _ & He2). unfold andThen at 1. cbn [mbind outcome_bind andb].
    assert (H3 : exists s3, (if dirtyTxn s2 then commitOngoingTxn viewHash env now ImplicitCommitBeforeStmt reason s2 else ok s2) = Ret (s3, None) /\
      tracks (replay src0 hist) s3 /\ durable_prefix hist (world s3) /\ pendingPosition s3 = pendingPosition s1 /\ currentGtid s3 = Some g /\
      inTxnStmtID s3 <= inTxnStmtID s1 /\ lastSqlError s3 = lastSqlError s1 /\ format s3 = Some fmt).
    { destruct (dirtyTxn s2) eqn:Ed.
      - assert (Ec : committed_position ImplicitCommitBeforeStmt s2 = pendingPosition s1)
          by (unfold committed_position; rewrite decide_True by reflexivity; exact Hp2).
        destruct (commit_tracks now ImplicitCommitBeforeStmt reason _ s2 Ht2 Hr) as (s3 & E3 & Ht3 & Hs3); [rewrite Ec; apply Hz; congruence|].
        pose proof (commit_ok _ _ _ _ _ _ _ E3) as (_ & Hp3 & _ & _ & _ & Hm3 & _ & _ & Hg3 & _).
        destruct (reader_inv _ _ (commit_reader _ _ _ _ _ E3)) as (Hf3 & _ & He3).
        exists s3. split; [exact E3|]. split; [exact Ht3|]. rewrite Ec in Hs3, Hp3. rewrite Hp in Hs3.
        split; [apply saved_prefix, Hs3|]. repeat split; try congruence; try lia.
      - exists s2. split; [reflexivity|]. split; [exact Ht2|]. split; [eapply durable_same; eauto|]. repeat split; try congruence; try lia. }
    destruct H3 as (s3 & E3 & Ht3 & Hdu3 & Hp3 & Hg3 & Hm3 & He3 & Hf3). rewrite E3. unfold andThen at 1. cbn [mbind outcome_bind].
    destruct (r_begin database (world s3)) as (w & r & Eq & Hrr & Hvw & Hcat & Hdur). unfold execute. rewrite Eq.
    exists (set_ongoingBatchTxn true (set_dirtyStream true (set_dirtyTxn true (set_world w s3)))).
    split; [destruct r; [reflexivity | reflexivity | congruence]|]. split; [|cbn; split; [lia | exact He3]].
    split; cbn; auto; try congruence.
    + eapply tracks_ext; [.. | apply (tracks_world _ s3 w Hvw Hcat Ht3)]; reflexivity.
    + eapply durable_same; eauto.
Qed.

(** MariaDB: the GTID event begins the transaction. *)
Lemma begin_step now hist g gtid raw s : between hist s -> gtid_before (currentGtid s) (Some g) ->
  presents raw (EvGTID gtid) -> gtid fmt = Some (g, true) ->
  exists s', process now raw s = Ret (s', None) /\ inside hist g (replay src0 hist) s' /\
    inTxnStmtID s' <= inTxnStmtID s /\ lastSqlError s' = lastSqlError s.
Proof.
  intros Hb Hbef Hpr Hgt. rewrite (process_presented now raw _ s (bt_format _ _ Hb) Hpr). unfold process_gtid. rewrite (bt_format _ _ Hb), Hgt.
  destruct (begin_query now EmptyString hist g _ (announce _ _ _ Hb Hbef)) as (s2 & E2 & Hin2 & Hm2 & He2).
  rewrite E2. unfold andThen at 1. cbn [mbind outcome_bind]. destruct (uuid_step g s2) as (s3 & E3 & Hmv). exists s3. split; [exact E3|].
  split; [eapply moved_inside; eassumption|]. destruct Hmv. cbn in Hm2, He2. split; [lia | congruence].
Qed.

(** MySQL: the GTID event only announces it. *)
Lemma gtid_step now hist g gtid raw s : between hist s -> gtid_before (currentGtid s) (Some g) ->
  presents raw (EvGTID gtid) -> gtid fmt = Some (g, false) ->
  exists s', process now raw s = Ret (s', None) /\ announced hist g s' /\ inTxnStmtID s' = inTxnStmtID s /\ lastSqlError s' = lastSqlError s.
Proof.
  intros Hb Hbef Hpr Hgt. rewrite (process_presented now raw _ s (bt_format _ _ Hb) Hpr). unfold process_gtid. rewrite (bt_format _ _ Hb), Hgt.
  unfold andThen at 1, ok at 1. cbn [mbind outcome_bind].
  destruct (uuid_step g (set_currentGtid (Some g) (set_previousGtid (currentGtid s) s))) as (s3 & E3 & Hmv). exists s3. split; [exact E3|].
  split; [eapply moved_announced; [exact Hmv | apply announce; assumption]|]. destruct Hmv. cbn in *. auto.
Qed.

Lemma query_vars_moved flags s : moved s (set_world (set_query_vars flags (world s)) s).
Proof.
  assert (Hst : forall x v d d', same_view d d' /\ same_catalog d d' /\ same_durable d d' ->
    same_view d (SetSessionVariable x v d') /\ same_catalog d (SetSessionVariable x v d') /\ same_durable d (SetSessionVariable x v d')).
  { intros x v d d' ([Hr Hp] & Hc & Hd). destruct (r_session x v d') as ([Hr' Hp'] & Hc' & Hd').
    split; [split; [intros i; rewrite Hr'; apply Hr | congruence]|]. split; [eapply same_catalog_trans | eapply same_durable_trans]; eassumption. }
  assert (Hq : same_view (world s) (set_query_vars flags (world s)) /\ same_catalog (world s) (set_query_vars flags (world s)) /\
    same_durable (world s) (set_query_vars flags (world s))) by (unfold set_query_vars; repeat apply Hst; repeat split).
  destruct Hq as (H1 & H2 & H3). apply moved_world; assumption.
Qed.

(** A query event whose query succeeds. *)
Lemma query_step now query bytes raw q vars s s1 : format s = Some fmt -> presents raw (EvQuery query bytes) -> query fmt = Some q ->
  parseQueryEventVars (HeaderLength fmt) bytes = Ret vars ->
  executeQueryWithEngine viewHash env now q (set_world (set_query_vars vars.1 (world s)) s) = Ret (s1, None) ->
  process now raw s = Ret (next_stmt s1, None).
Proof.
  intros Hf Hpr Hq Hv E. rewrite (process_presented now raw _ s Hf Hpr). unfold process_query. rewrite Hf, Hq, Hv. destruct vars as [flags mode].
  cbn [mbind outcome_bind fst] in *. rewrite E. reflexivity.
Qed.

Lemma tracks_next src s : tracks src s -> inTxnStmtID s + 1 < 2 ^ 64 -> tracks src (next_stmt s) /\ inTxnStmtID (next_stmt s) = inTxnStmtID s + 1.
Proof.
  intros [ts [Ht Hn Hs Hu Hv Hst Hca Hct]] Hb.
  assert (Eu : inTxnStmtID (next_stmt s) = inTxnStmtID s + 1) by (cbn; unfold u64; rewrite Z.mod_small; lia).
  split; [|exact Eu]. exists ts. split; rewrite ?Eu; auto; try lia.
  intros i a Hi. eapply slot_later; [|apply Hs, Hi]. intros st. apply earlier_next. lia.
Qed.

(** MySQL: the transaction begins with a query. *)
Lemma begin_query_step now hist g query bytes database vars raw s : announced hist g s -> inTxnStmtID s + 1 < 2 ^ 64 ->
  presents raw (EvQuery query bytes) -> query fmt = Some (mkQuery database "BEGIN") -> parseQueryEventVars (HeaderLength fmt) bytes = Ret vars ->
  exists s', process now raw s = Ret (s', None) /\ inside hist g (replay src0 hist) s' /\
    inTxnStmtID s' <= inTxnStmtID s + 1 /\ lastSqlError s' = lastSqlError s.
Proof.
  intros Ha Hn Hpr Hq Hv.
  destruct (begin_query now database hist g _ (moved_announced _ _ _ _ (query_vars_moved vars.1 s) Ha)) as (s1 & E & Hi & Hm & He).
  exists (next_stmt s1). split; [eapply query_step; eauto; apply (an_format _ _ _ Ha)|]. cbn in Hm, He.
  destruct Hi as [Ht Hp Hg Hba Hd Hst Hdu Hf]. destruct (tracks_next _ s1 Ht ltac:(lia)) as [Ht' Eu].
  split; [split; auto|]. rewrite Eu. split; [lia | exact He].
Qed.

(** A transaction that ends with a COMMIT query. *)
Lemma commit_query_step now hist t query bytes database vars raw s : inside hist (tx_gtid t) (apply_txn (replay src0 hist) t) s ->
  inTxnStmtID s + 1 < 2 ^ 64 ->
  presents raw (EvQuery query bytes) -> query fmt = Some (mkQuery database "COMMIT") -> parseQueryEventVars (HeaderLength fmt) bytes = Ret vars ->
  exists s', process now raw s = Ret (s', None) /\ between (hist ++ [t]) s' /\
    inTxnStmtID s' <= inTxnStmtID s + 1 /\ lastSqlError s' = lastSqlError s /\ currentGtid s' = Some (tx_gtid t).
Proof.
  intros Hi Hn Hpr Hq Hv.
  destruct (xid_step now hist t _ (moved_inside _ _ _ _ _ (query_vars_moved vars.1 s) Hi)) as (s1 & E & Hb & Hm & He & Hg).
  cbn in Hm, He. exists (next_stmt s1). split.
  - eapply query_step; eauto; [apply (in_format _ _ _ _ Hi)|]. unfold executeQueryWithEngine. cbn [q_Database q_SQL].
    replace (String.prefix "TRUNCATE TABLE time_zone" "COMMIT") with false by reflexivity. rewrite andb_false_r, r_commit_node.
    destruct (mayExtendBatchTxn _ _). exact E.
  - destruct Hb as [Ht Hp Hg' Hz Hba Hst Hdu Hdo Hf]. destruct (tracks_next _ s1 Ht ltac:(lia)) as [Ht' Eu].
    split; [split; auto|]. rewrite Eu. split; [lia | auto].
Qed.

(** The end of a log file, between transactions: the batch is extended or committed. *)
Lemma rotate_step now hist raw s : between hist s -> presents raw EvRotate ->
  exists s', process now raw s = Ret (s', None) /\ between hist s' /\
    inTxnStmtID s' <= inTxnStmtID s /\ lastSqlError s' = lastSqlError s /\ currentGtid s' = currentGtid s.
Proof.
  intros Hb Hpr. pose proof Hb as [Ht Hp Hg Hz Hba Hst Hdu Hdo Hf]. rewrite (process_presented now raw _ s Hf Hpr).
  destruct (currentGtid s) as [g|] eqn:Eg; [|exists s; split; [reflexivity|]; split; [exact Hb|]; split; [lia | auto]].
  assert (Hm : 0 <= inTxnStmtID s) by (destruct Ht as [ts []]; assumption). rewrite <- Eg in Hg.
  unfold extendOrCommitBatchTxn. destruct (mayExtendBatchTxn now s) as [ext reason] eqn:Em.
  destruct (extend_reason _ _ _ _ Em) as [Hr _]. destruct ext.
  - eexists. split; [reflexivity|]. split; [|cbn; split; [lia | auto]].
    split; cbn; rewrite ?Hg; auto; try congruence. eapply tracks_ext; [.. | exact Ht]; reflexivity.
  - assert (Hnz : Position_IsZero (pendingPosition s) = false) by (rewrite <- Hg, Eg; apply r_append_zero).
    destruct (commit_step now reason hist (pendingPosition s) _ s Ht Hr Hf Hg Hnz Hp eq_refl Hg) as (s' & E & Hb' & Hm' & He' & Hg').
    exists s'. split; [exact E|]. split; [exact Hb'|]. split; [lia|]. split; [exact He' | congruence].
Qed.

(** Events that say nothing of rows or transactions. *)
Definition idle_event (ev : BinlogEvent) : Prop :=
  match ev with
  | EvRand | EvHeartbeat | EvStop => True
  | EvPreviousGTIDs valid => valid fmt = true
  | EvOther bytes => index bytes 4 = Ret 161 \/ index bytes 4 = Ret 163
  | _ => False
  end.
(** Such an event, or the description of the same format again. *)
Definition idle (raw : BinlogEvent) : Prop :=
  raw = EvFormatDescription (Some fmt) \/ exists ev, presents raw ev /\ idle_event ev.

Lemma idle_step now raw s : format s = Some fmt -> idle raw -> process now raw s = Ret (s, None).
Proof.
  intros Hf [->|(ev & Hpr & Hi)].
  - unfold processBinlogEvent. rewrite Hf. unfold ok, set_format. rewrite <- Hf. destruct s. reflexivity.
  - rewrite (process_presented now raw ev s Hf Hpr). destruct ev; cbn [idle_event] in Hi; try reflexivity; try contradiction; [rewrite Hf, Hi; reflexivity | destruct Hi as [Hi|Hi]; rewrite Hi; reflexivity].
Qed.

Lemma map_step now id map raw c s src hist g : inside hist g src s -> change_ok src c ->
  presents raw (EvTableMap id map) -> id fmt = ch_id c -> map fmt = Some (ch_map c) ->
  exists s', process now raw s = Ret (s', None) /\ inside hist g src s' /\ tableMapsById s' !! ch_id c = Some (ch_map c) /\
    inTxnStmtID s' = inTxnStmtID s /\ lastSqlError s' = lastSqlError s.
Proof.
  intros [Ht Hp Hg Hba Hd Hst Hdu Hf] Hc Hpr Hid Hmap. rewrite (process_presented now raw _ s Hf Hpr). unfold process_table_map.
  rewrite Hf, Hmap, Hid. destruct (Z.eqb_spec (ch_id c) 16777215) as [E|_]; [destruct (co_id _ _ Hc E)|].
  rewrite (co_map_flags _ _ Hc). cbn [Z.eqb]. eexists. split; [reflexivity|]. split; [|cbn; rewrite lookup_insert_eq; auto].
  split; cbn; auto. eapply tracks_ext; [.. | exact Ht]; reflexivity.
Qed.

Lemma row_step now id rows raw c s src hist g : inside hist g src s -> change_ok src c -> tableMapsById s !! ch_id c = Some (ch_map c) ->
  inTxnStmtID s + 1 < 2 ^ 64 ->
  presents raw (EvRows (ch_kind c) id rows) -> id fmt = ch_id c -> rows fmt (ch_map c) = Some (ch_rows c) ->
  exists s', process now raw s = Ret (s', None) /\ inside hist g (apply_change src c) s' /\
    inTxnStmtID s' = inTxnStmtID s + 1 /\ lastSqlError s' = lastSqlError s.
Proof.
  intros [Ht Hp Hg Hba Hd Hst Hdu Hf] Hc Htm Hb64 Hpr Hid Hrows. rewrite (process_presented now raw _ s Hf Hpr). unfold processRowEvent.
  assert (Hm : 0 <= inTxnStmtID s) by (destruct Ht as [ts []]; assumption).
  rewrite Hf, Hid, Htm. pose proof (co_denotes _ _ Hc) as Hden. pose proof Hden as [Hdb _].
  rewrite bool_decide_false by (rewrite Hdb; apply tb_user, Htables). rewrite (co_kept _ _ Hc), Hrows, (co_row_flags _ _ Hc). cbn [Z.eqb].
  destruct Ht as [ts Ht]. destruct (table_schema src ts s _ _ _ Ht Hden) as (m & Eg & Ht1). rewrite Eg. cbn zeta. cbn [ti_Schema ti_PkOrdinals ti_Name info_of].
  rewrite (co_width _ _ Hc), Nat.eqb_refl, (co_full _ _ Hc). cbn [negb andb].
  destruct (pks (ch_table c)) as [|o os] eqn:Ek; [destruct (tb_ordinals _ (Htables (ch_table c)) Ek)|]. cbn [length Nat.ltb Nat.leb].
  destruct (append_tracks src (set_tablesByName m s) c (ex_intro _ ts Ht1) Hc) as (s2 & E2 & Ht2 & Hw2 & Hr2 & Hk2).
  rewrite E2. unfold andThen. cbn [mbind outcome_bind]. eexists. split; [reflexivity|].
  destruct Hk2 as [_ Hcp Hpp Hcg _ Hon _ _ Hin _ _ _]. cbn in Hpp, Hcg, Hon, Hin, Hw2, Ht2. destruct (reader_inv _ _ Hr2) as (Hf2 & _ & He2). cbn in Hf2, He2.
  assert (Eu : u64 (inTxnStmtID s2 + 1) = inTxnStmtID s + 1) by (unfold u64; rewrite Hin, Z.mod_small; lia).
  unfold mark_dirty, next_stmt. cbn. rewrite Eu. split; [|auto]. split; cbn; try congruence.
  eapply tracks_ext; [.. | exact Ht2]; cbn; try reflexivity; exact Eu.
Qed.

(** ** Streams *)
Inductive phase : Type :=
| Between
| Announced (t : Txn)
| Inside (t : Txn) (rest : list Change)
| Mapped (t : Txn) (c : Change) (rest : list Change).

(** A tick may come at any time but between a GTID event that only announces
    its transaction and the BEGIN that follows (see [tick_before_begin_skips] of ReplayClaims.v). *)
Definition may_tick (ph : phase) : bool := match ph with Announced _ => false | _ => true end.

(** The inputs that present the transactions of a history, as MariaDB logs them
    (a GTID event that begins the transaction) or as MySQL does (a GTID event,
    then the query BEGIN), ended by an XID or by the query COMMIT, at any times,
    with ticks, idle events and, between transactions, rotations to a new log file. *)
Inductive stream : phase -> list Txn -> list (Z * Input) -> Prop :=
| stream_end : stream Between [] []
| stream_tick ph txns now rest : may_tick ph = true -> stream ph txns rest -> stream ph txns ((now, InTick) :: rest)
| stream_idle ph txns now raw rest : idle raw -> stream ph txns rest -> stream ph txns ((now, InEvent raw) :: rest)
| stream_rotate txns now raw rest : presents raw EvRotate -> stream Between txns rest -> stream Between txns ((now, InEvent raw) :: rest)
| stream_begin t txns now raw gtid rest :
    presents raw (EvGTID gtid) -> gtid fmt = Some (tx_gtid t, true) -> stream (Inside t (tx_changes t)) txns rest ->
    stream Between (t :: txns) ((now, InEvent raw) :: rest)
| stream_gtid t txns now raw gtid rest :
    presents raw (EvGTID gtid) -> gtid fmt = Some (tx_gtid t, false) -> stream (Announced t) txns rest ->
    stream Between (t :: txns) ((now, InEvent raw) :: rest)
| stream_begin_query t txns now raw query bytes database vars rest :
    presents raw (EvQuery query bytes) -> query fmt = Some (mkQuery database "BEGIN") ->
    parseQueryEventVars (HeaderLength fmt) bytes = Ret vars -> stream (Inside t (tx_changes t)) txns rest ->
    stream (Announced t) txns ((now, InEvent raw) :: rest)
| stream_map t c cs txns now raw id map rest :
    presents raw (EvTableMap id map) -> id fmt = ch_id c -> map fmt = Some (ch_map c) ->
    stream (Mapped t c cs) txns rest -> stream (Inside t (c :: cs)) txns ((now, InEvent raw) :: rest)
| stream_rows t c cs txns now raw id rows rest :
    presents raw (EvRows (ch_kind c) id rows) -> id fmt = ch_id c -> rows fmt (ch_map c) = Some (ch_rows c) ->
    stream (Inside t cs) txns rest -> stream (Mapped t c cs) txns ((now, InEvent raw) :: rest)
| stream_commit t txns now raw rest :
    presents raw EvXID -> stream Between txns rest -> stream (Inside t []) txns ((now, InEvent raw) :: rest)
| stream_commit_query t txns now raw query bytes database vars rest :
    presents raw (EvQuery query bytes) -> query fmt = Some (mkQuery database "COMMIT") ->
    parseQueryEventVars (HeaderLength fmt) bytes = Ret vars -> stream Between txns rest ->
    stream (Inside t []) txns ((now, InEvent raw) :: rest).

Fixpoint valid_changes (src : T -> list row) (cs : list Change) : Prop :=
  match cs with [] => True | c :: cs' => change_ok src c /\ valid_changes (apply_change src c) cs' end.

(** Every change is possible when it comes, and the transactions are ordered by their GTIDs. *)
Fixpoint valid_txns (g : option GTID) (src : T -> list row) (txns : list Txn) : Prop :=
  match txns with
  | [] => True
  | t :: txns' => gtid_before g (Some (tx_gtid t)) /\ valid_changes src (tx_changes t) /\
                  valid_txns (Some (tx_gtid t)) (apply_txn src t) txns'
  end.

(** At most one statement for BEGIN, one for each row event and one for COMMIT. *)
Definition statements (txns : list Txn) : Z := foldr (fun t n => Z.of_nat (length (tx_changes t)) + 2 + n) 0 txns.

Lemma statements_nonneg txns : 0 <= statements txns.
Proof. induction txns as [|t txns IH]; cbn [statements foldr]; [lia | unfold statements in IH; lia]. Qed.

Abbreviation run := (run dict_nil viewHash env filters).

(** The outcome of a stream: it runs to its end, and at every moment on the way what
    is durable is a prefix of the history. *)
Definition good_run (hist : list Txn) (s : Applier) (inputs : list (Z * Input)) : Prop :=
  (exists s', run s inputs s' /\ between hist s' /\ lastSqlError s' = lastSqlError s) /\
  forall ins1 ins2, inputs = ins1 ++ ins2 -> exists s1, run s ins1 s1 /\ durable_prefix hist (world s1).

Lemma good_step hist s s1 now input rest : loop_turn dict_nil viewHash env filters now P0 input s = Ret s1 ->
  durable_prefix hist (world s) -> lastSqlError s1 = lastSqlError s -> good_run hist s1 rest -> good_run hist s ((now, input) :: rest).
Proof.
  intros E Hd He [(s' & Hr & Hb & He') Hp]. split.
  - exists s'. split; [econstructor; eauto|]. split; [exact Hb | congruence].
  - intros [|x ins1] ins2 Ei; [exists s; split; [constructor | exact Hd]|]. cbn in Ei. injection Ei as <- Ei.
    destruct (Hp ins1 ins2 Ei) as (s2 & Hr2 & Hd2). exists s2. split; [econstructor; eauto | exact Hd2].
Qed.

Lemma turn_event now raw s s1 : process now raw s = Ret (s1, None) ->
  loop_turn dict_nil viewHash env filters now P0 (InEvent raw) s = Ret s1.
Proof. intros E. cbn [loop_turn]. rewrite E. reflexivity. Qed.

(** What holds within a transaction with [done] applied and [cs] to come. *)
Definition inside_inv (t : Txn) (cs : list Change) (txns hist : list Txn) (s : Applier) : Prop := exists done,
  tx_changes t = done ++ cs /\
  inside hist (tx_gtid t) (foldl apply_change (replay src0 hist) done) s /\
  valid_changes (foldl apply_change (replay src0 hist) done) cs /\
  valid_txns (Some (tx_gtid t)) (apply_txn (replay src0 hist) t) txns /\
  inTxnStmtID s + Z.of_nat (length cs) + 1 + statements txns < 2 ^ 64.

Definition phase_inv (ph : phase) (txns : list Txn) (hist : list Txn) (s : Applier) : Prop :=
  match ph with
  | Between => between hist s /\ valid_txns (currentGtid s) (replay src0 hist) txns /\ inTxnStmtID s + statements txns < 2 ^ 64
  | Announced t => announced hist (tx_gtid t) s /\ valid_changes (replay src0 hist) (tx_changes t) /\
      valid_txns (Some (tx_gtid t)) (apply_txn (replay src0 hist) t) txns /\
      inTxnStmtID s + Z.of_nat (length (tx_changes t)) + 2 + statements txns < 2 ^ 64
  | Inside t cs => inside_inv t cs txns hist s
  | Mapped t c cs => inside_inv t (c :: cs) txns hist s /\ tableMapsById s !! ch_id c = Some (ch_map c)
  end.
Definition whole (ph : phase) (txns hist : list Txn) : list Txn :=
  match ph with Between => hist ++ txns | Announced t | Inside t _ | Mapped t _ _ => hist ++ t :: txns end.

Lemma phase_facts ph txns hist s : phase_inv ph txns hist s ->
  durable_prefix (whole ph txns hist) (world s) /\ format s = Some fmt /\
  (may_tick ph = true -> ph <> Between -> dirtyStream s = true).
Proof.
  destruct ph; cbn [phase_inv whole may_tick].
  - intros (Hb & _). split; [apply durable_more, (bt_durable _ _ Hb)|]. split; [apply (bt_format _ _ Hb) | congruence].
  - intros (Ha & _). split; [apply durable_more, (an_durable _ _ _ Ha)|]. split; [apply (an_format _ _ _ Ha) | discriminate].
  - intros (done & _ & Hi & _). split; [apply durable_more, (in_durable _ _ _ _ Hi)|]. split; [apply (in_format _ _ _ _ Hi) | intros; apply (in_stream _ _ _ _ Hi)].
  - intros [(done & _ & Hi & _) _]. split; [apply durable_more, (in_durable _ _ _ _ Hi)|]. split; [apply (in_format _ _ _ _ Hi) | intros; apply (in_stream _ _ _ _ Hi)].
Qed.

(** The first row event is still to come. *)
Lemma inside_start t txns hist s : inside hist (tx_gtid t) (replay src0 hist) s -> valid_changes (replay src0 hist) (tx_changes t) ->
  valid_txns (Some (tx_gtid t)) (apply_txn (replay src0 hist) t) txns ->
  inTxnStmtID s + Z.of_nat (length (tx_changes t)) + 1 + statements txns < 2 ^ 64 -> inside_inv t (tx_changes t) txns hist s.
Proof. intros Hi Hc Hv Hn. exists []. auto. Qed.

(** The last one was applied. *)
Lemma inside_finish t txns hist s : inside_inv t [] txns hist s -> inside hist (tx_gtid t) (apply_txn (replay src0 hist) t) s /\
  valid_txns (Some (tx_gtid t)) (replay src0 (hist ++ [t])) txns /\ inTxnStmtID s + 1 + statements txns < 2 ^ 64.
Proof.
  intros (done & Hd & Hi & _ & Hv & Hn). rewrite app_nil_r in Hd. cbn [length] in Hn.
  split; [unfold apply_txn; rewrite Hd; exact Hi|]. split; [unfold replay; rewrite foldl_app; exact Hv | lia].
Qed.

Lemma inside_map now id map raw t c cs txns hist s : inside_inv t (c :: cs) txns hist s ->
  presents raw (EvTableMap id map) -> id fmt = ch_id c -> map fmt = Some (ch_map c) ->
  exists s', process now raw s = Ret (s', None) /\ phase_inv (Mapped t c cs) txns hist s' /\ lastSqlError s' = lastSqlError s.
Proof.
  intros (done & Hd & Hi & (Hc & Hcs) & Hv & Hn) Hpr Hid Hm.
  destruct (map_step now id map raw c s _ _ _ Hi Hc Hpr Hid Hm) as (s' & E & Hin & Htm & Hst & He).
  exists s'. split; [exact E|]. split; [|exact He]. split; [|exact Htm]. exists done. rewrite Hst. split; [exact Hd|]. split; [exact Hin|]. split; [split; assumption | auto].
Qed.

Lemma inside_rows now id rows raw t c cs txns hist s : phase_inv (Mapped t c cs) txns hist s ->
  presents raw (EvRows (ch_kind c) id rows) -> id fmt = ch_id c -> rows fmt (ch_map c) = Some (ch_rows c) ->
  exists s', process now raw s = Ret (s', None) /\ inside_inv t cs txns hist s' /\ lastSqlError s' = lastSqlError s.
Proof.
  intros [(done & Hd & Hi & (Hc & Hcs) & Hv & Hn) Htm] Hpr Hid Hr. cbn [length] in Hn. pose proof (statements_nonneg txns) as Hsn.
  destruct (row_step now id rows raw c s _ _ _ Hi Hc Htm ltac:(lia) Hpr Hid Hr) as (s' & E & Hin & Hst & He).
  exists s'. split; [exact E|]. split; [|exact He]. exists (done ++ [c]). rewrite foldl_app, <- app_assoc, Hst.
  split; [exact Hd|]. split; [exact Hin|]. split; [exact Hcs|]. split; [exact Hv | lia].
Qed.

Lemma stream_runs ph txns inputs : stream ph txns inputs ->
  forall hist s, phase_inv ph txns hist s -> good_run (whole ph txns hist) s inputs.
Proof.
  induction 1 as [|ph txns now rest Htk _ IH|ph txns now raw rest Hid _ IH|txns now raw rest Hpr _ IH|t txns now raw gtid rest Hpr Hg _ IH
    |t txns now raw gtid rest Hpr Hg _ IH|t txns now raw query bytes database vars rest Hpr Hq Hvs _ IH
    |t c cs txns now raw id map rest Hpr Hid Hm _ IH|t c cs txns now raw id rows rest Hpr Hid Hr _ IH
    |t txns now raw rest Hpr _ IH|t txns now raw query bytes database vars rest Hpr Hq Hvs _ IH]; intros hist s Hinv;
    destruct (phase_facts _ _ _ _ Hinv) as (Hdur & Hfmt & Hds).
  - destruct Hinv as (Hb & _ & _). cbn [whole]. rewrite app_nil_r. split.
    + exists s. split; [constructor|]. auto.
    + intros [|? ?] ins2 Ei; [|discriminate]. exists s. split; [constructor | apply (bt_durable _ _ Hb)].
  - assert (Hph : ph = Between \/ ph <> Between) by (destruct ph; [left; reflexivity | right; discriminate ..]). destruct Hph as [->|Hph].
    + destruct Hinv as (Hb & Hv & Hn). destruct (tick_step now hist s Hb) as (s1 & E & Hb1 & Hm1 & He1 & Hg1).
      eapply good_step; [exact E | exact Hdur | exact He1 | apply IH]. cbn [phase_inv]. rewrite Hg1. split; [exact Hb1|]. split; [exact Hv | lia].
    + eapply (good_step _ s s); [|exact Hdur | reflexivity | apply IH, Hinv].
      cbn [loop_turn]. rewrite (Hds Htk Hph), andb_false_r. reflexivity.
  - eapply (good_step _ s s); [apply turn_event, idle_step; assumption | exact Hdur | reflexivity | apply IH, Hinv].
  - destruct Hinv as (Hb & Hv & Hn). destruct (rotate_step now hist raw s Hb Hpr) as (s1 & E & Hb1 & Hm1 & He1 & Hg1).
    eapply good_step; [apply turn_event, E | exact Hdur | exact He1 | apply IH]. cbn [phase_inv]. rewrite Hg1. split; [exact Hb1|]. split; [exact Hv | lia].
  - destruct Hinv as (Hb & (Hbef & Hc & Hv) & Hn). cbn [statements foldr] in Hn. fold (statements txns) in Hn.
    destruct (begin_step now hist _ gtid raw s Hb Hbef Hpr Hg) as (s1 & E & Hi & Hm & He).
    eapply good_step; [apply turn_event, E | exact Hdur | exact He | apply IH]. apply inside_start; auto. lia.
  - destruct Hinv as (Hb & (Hbef & Hc & Hv) & Hn). cbn [statements foldr] in Hn. fold (statements txns) in Hn.
    destruct (gtid_step now hist _ gtid raw s Hb Hbef Hpr Hg) as (s1 & E & Ha & Hm & He).
    eapply good_step; [apply turn_event, E | exact Hdur | exact He | apply IH]. split; [exact Ha|]. split; [exact Hc|]. split; [exact Hv | lia].
  - destruct Hinv as (Ha & Hc & Hv & Hn). pose proof (statements_nonneg txns) as Hsn.
    destruct (begin_query_step now hist _ query bytes database vars raw s Ha ltac:(lia) Hpr Hq Hvs) as (s1 & E & Hi & Hm & He).
    eapply good_step; [apply turn_event, E | exact Hdur | exact He | apply IH]. apply inside_start; auto. lia.
  - destruct (inside_map now id map raw _ _ _ _ _ _ Hinv Hpr Hid Hm) as (s1 & E & Hi & He).
    eapply good_step; [apply turn_event, E | exact Hdur | exact He | apply (IH hist s1 Hi)].
  - destruct (inside_rows now id rows raw _ _ _ _ _ _ Hinv Hpr Hid Hr) as (s1 & E & Hi & He).
    eapply good_step; [apply turn_event, E | exact Hdur | exact He | apply (IH hist s1 Hi)].
  - apply inside_finish in Hinv. destruct Hinv as (Hi & Hv & Hn). destruct (xid_step now hist t s Hi) as (s1 & E & Hb & Hm & He & Hg).
    eapply good_step; [apply turn_event; rewrite (process_presented now raw EvXID s Hfmt Hpr); exact E | exact Hdur | exact He|].
    cbn [whole]. rewrite cons_middle, app_assoc. apply (IH (hist ++ [t]) s1). split; [exact Hb|]. rewrite Hg. split; [exact Hv | lia].
  - apply inside_finish in Hinv. destruct Hinv as (Hi & Hv & Hn). pose proof (statements_nonneg txns) as Hsn.
    destruct (commit_query_step now hist t query bytes database vars raw s Hi ltac:(lia) Hpr Hq Hvs) as (s1 & E & Hb & Hm & He & Hg).
    eapply good_step; [apply turn_event, E | exact Hdur | exact He|].
    cbn [whole]. rewrite cons_middle, app_assoc. apply (IH (hist ++ [t]) s1). split; [exact Hb|]. rewrite Hg. split; [exact Hv | lia].
Qed.

(** Stopping between transactions makes the whole history durable. *)
Lemma stop_saves now hist s : between hist s -> exists s', loop_stop viewHash env now s = Ret s' /\
  saved (replay src0 hist) (position_after P0 hist) (world s') /\ lastSqlError s' = lastSqlError s.
Proof.
  intros [Ht Hp Hg Hz Hba Hst Hdu Hdo Hf]. unfold loop_stop. rewrite Hst. cbn [negb].
  destruct (ongoingBatchTxn s) eqn:Eo; cbn [andb]; [|exists s; auto].
  destruct (commit_step now OnCloseFlushReason hist (pendingPosition s) _ s Ht ltac:(discriminate) Hf Hg (Hz (Hba eq_refl)) Hp eq_refl Hg)
    as (s' & E & Hb' & _ & He' & _).
  rewrite E. unfold record_error. cbn [mbind outcome_bind]. exists s'. split; [reflexivity|]. split; [|exact He'].
  apply (bt_done _ _ Hb'). pose proof (commit_ok _ _ _ _ _ _ _ E) as (_ & _ & Ho & _). exact Ho.
Qed.

Lemma replay_stream txns inputs s : stream Between txns inputs -> between [] s -> valid_txns (currentGtid s) src0 txns ->
  inTxnStmtID s + statements txns < 2 ^ 64 ->
  (exists s', run s inputs s' /\ tracks (replay src0 txns) s' /\ lastSqlError s' = lastSqlError s /\
     forall now, exists s'', loop_stop viewHash env now s' = Ret s'' /\
       saved (replay src0 txns) (position_after P0 txns) (world s'') /\ lastSqlError s'' = lastSqlError s) /\
  forall ins1 ins2, inputs = ins1 ++ ins2 -> exists s1, run s ins1 s1 /\ durable_prefix txns (world s1).
Proof.
  intros Hs Hb Hv Hn. destruct (stream_runs _ _ _ Hs [] s) as [(s' & Hr & Hb' & He') Hp]; [cbn; auto|]. cbn [whole app] in *.
  split; [|exact Hp]. exists s'. split; [exact Hr|]. split; [apply (bt_tracks _ _ Hb')|]. split; [exact He'|].
  intros now. destruct (stop_saves now txns s' Hb') as (s'' & E & Hsv & He''). exists s''. split; [exact E|]. split; [exact Hsv | congruence].
Qed.
End Replay.
