(* ===== verification/EngineModel.v ===== *)
(** * A concrete engine

    The session, catalog and position store over the in-memory database of
    Models.v: a transaction is opened on demand, COMMIT makes the rows and the
    position durable.  The laws of Durability.v and of Replay.v hold of it. *)

From stdpp Require Import pretty.
From S2P Require Import Prelude GoTime Charset Schema Rbr RbrSafe Identifier InternalTables.
From S2P Require Import Delta DeltaSpec DeltaRefine DeltaFlush Models Filtering Updater QueryVars RowAppend Applier ApplierFacts Durability Replay.

#[local] Open Scope Z_scope.

#[export] Instance outcome_eq_dec {A} `{!EqDecision A} : EqDecision (outcome A).
Proof. solve_decision. Defined.

Definition gtid_text (g : GTID) : string :=
  match g with
  | Mysql56GTID _ n => pretty (Z.to_N n)
  | FilePosGTID _ p => pretty (Z.to_N p)
  | MariadbGTID _ _ n => pretty (Z.to_N n)
  end.

(** Adding to a GTID set. *)
Definition add_gtid (g : GTID) (p : list GTID) : list GTID := if decide (g ∈ p) then p else p ++ [g].
Lemma add_gtid_twice g p : add_gtid g (add_gtid g p) = add_gtid g p.
Proof.
  unfold add_gtid at 1. rewrite decide_True; [reflexivity|]. unfold add_gtid. case_decide; [assumption|]. apply elem_of_app. right. left.
Qed.

#[export] Instance engine_model : Engine := {|
  Position := list GTID;
  AppendGTID p g := match g with Some g => add_gtid g p | None => p end;
  Position_IsZero p := match p with [] => true | _ => false end;
  Position_String p := strings_Join "," (map gtid_text p);
  StripChecksum _ e := (e, true);
  GetCatalogConn _ := true;
  GetCatalogTxn m := Some (open_txn m);
  GetTxn m := Some (open_txn m);
  TryGetTxn m := m_open m;
  TxCommit m := (make_durable m, TxOk);
  TxRollback m := undo_txn m;
  CloseTxn m := end_txn m;
  getAutocommit _ := true;
  SetSessionVariable _ _ m := m;
  ExecArgs sql args m :=
    match args with
    | [_; p] => if decide (UpsertStmt BinlogPosition = Ret sql) then (store_position p m, true) else (m, false)
    | _ => (m, false)
    end;
  PrepareQuery _ sql _ :=
    if decide (sql = "BEGIN") then Some StartTransaction
    else if decide (sql = "COMMIT") then Some Commit
    else if decide (sql = "DROP TABLE x") then Some DropTable else Some OtherNode;
  RunQuery _ sql m := if decide (sql = "COMMIT") then (end_txn (make_durable m), QueryOk) else (m, QueryOk);
  SetGtidExecuted _ m := m;
  LookupTable _ _ _ := Some (mkTableInfo schema0 [0%nat] "t");
  SourceServer _ := "uuid";
  persistSourceUuid _ m := Some m;
  value := Z;
  nil_value := 0;
  vitess_CellValue data pos _ _ _ := match index data pos with Ret v => Some (v, 1) | Panic => None end;
  convertSqlTypesValue v _ := Some v;
  PrepareStmt _ _ := true;
  ExecStmt _ _ m := Some m;
  row_Equals a b _ := Some (bool_decide (a = b))
|}.

#[export] Instance engine_model_laws indexed : EngineLaws hash0 tab0 schema_of0 indexed.
Proof.
  refine {| position := m_pos : db -> string; durable_rows := fun (_ : unit) (m : db) => fst (m_durable m);
            durable_position := fun m : db => snd (m_durable m) |}.
  - reflexivity.
  - intros d. exists (open_txn d). repeat split.
  - intros p d sql E. exists (store_position p d). cbn [ExecArgs engine_model].
    rewrite decide_True by exact E. repeat split.
  - intros d. exists (end_txn (make_durable d)), QueryOk. cbn [RunQuery engine_model].
    rewrite decide_True by reflexivity. split; [reflexivity|]. split; [discriminate|]. split; [repeat split|].
    right. repeat split.
  - intros d _. exists (make_durable d), TxOk. split; [reflexivity|]. split; [discriminate|]. repeat split.
  - intros d. repeat split.
  - intros p d. repeat split.
Defined.

#[export] Instance rollback_model_laws indexed : RollbackLaws hash0 tab0 schema_of0 indexed (HL := engine_model_laws indexed).
Proof.
  split.
  - intros d d' i E. injection E as <-. reflexivity.
  - intros i j. exact (outside_untouched (fun x => x.1.1.1) _).
  - intros d i. split; reflexivity.
Defined.

#[export] Instance replay_model_laws indexed : ReplayLaws hash0 tab0 schema_of0 indexed (HL := engine_model_laws indexed).
Proof.
  split.
  - intros d d' E. injection E as <-. repeat split.
  - intros i x y. split; reflexivity.
  - intros i j. exact (outside_untouched (fun x => x.1.1.1) _).
  - intros i. exact (outside_untouched (fun x => x.1.1.2) _).
  - intros sql p d d' _ _ x y. reflexivity.
  - intros d d' r _ x y. reflexivity.
  - intros d d' r _ x y. reflexivity.
  - intros d x y. reflexivity.
  - intros p d x y. reflexivity.
  - reflexivity.
  - reflexivity.
  - intros x d. exists d, QueryOk. split; [reflexivity|]. split; [discriminate|]. repeat split.
  - intros x v d. repeat split.
  - intros u d. exists d. repeat split.
  - reflexivity.
  - intros p [g|]; [|reflexivity]. apply add_gtid_twice.
  - intros p g. cbn [AppendGTID Position_IsZero engine_model]. unfold add_gtid. case_decide as Hg; [destruct p; [inversion Hg | reflexivity] | destruct p; reflexivity].
Defined.
