(* ===== verification/PgModel.v ===== *)
(** * A concrete session for logical replication

    The session, the codecs and the wire formats over the in-memory database of
    Models.v.  The laws of LogreplReplay.v hold of it. *)

From S2P Require Import Prelude GoTime Charset Schema Identifier InternalTables Delta DeltaSpec DeltaRefine DeltaFlush Models.
From S2P Require Import RowAppend RowDecode ReplaySpec PgDecode Session Logrepl LogreplRows LogreplReplay.

From Stdlib Require Import Ascii.

#[local] Open Scope Z_scope.

(** ** LSNs as strings of bits *)
Fixpoint bits (p : positive) : string :=
  match p with
  | xH => EmptyString
  | xO p => String "0"%char (bits p)
  | xI p => String "1"%char (bits p)
  end.
Fixpoint of_bits (s : string) : positive :=
  match s with
  | EmptyString => xH
  | String c s => if decide (c = "0"%char) then xO (of_bits s) else xI (of_bits s)
  end.
Lemma of_bits_bits p : of_bits (bits p) = p.
Proof. induction p as [p IH|p IH|]; cbn; rewrite ?IH; reflexivity. Qed.

Definition lsn_text (l : Z) : string := bits (Z.to_pos (l + 1)).
Definition text_lsn (s : string) : option Z := Some (Z.pos (of_bits s) - 1).
Lemma text_lsn_text l : 0 <= l -> text_lsn (lsn_text l) = Some l.
Proof. intros Hl. unfold text_lsn, lsn_text. rewrite of_bits_bits, Z2Pos.id by lia. f_equal. lia. Qed.

(** ** Codecs: decimal text *)
Definition digits (data : list Z) : Z := foldl (fun z d => 10 * z + (d - 48)) 0 data.

#[export] Instance codecs_model : PgCodecs := {|
  TypeForOID oid := if decide (oid ∈ [BoolOID; Int4OID; NumericOID; TextOID]) then Some (mkPgType oid None) else None;
  scan_bool _ _ data := match data with [116] => Some true | [102] => Some false | _ => None end;
  scan_qchar _ _ _ := None;
  scan_int2 _ _ data := Some (digits data);
  scan_int4 _ _ data := Some (digits data);
  scan_int8 _ _ data := Some (digits data);
  scan_float4 _ _ _ := None;
  scan_float8 _ _ _ := None;
  scan_timestamp _ _ _ := None;
  scan_timestamptz _ _ _ := None;
  scan_date _ _ _ := None;
  scan_time _ _ _ := None;
  scan_numeric _ _ data := Some (mkNumeric (digits data) 0 false 0 true);
  scan_bytes _ _ _ data := Some data;
  scan_uuid _ _ _ := None;
  encode_numeric _ _ := None;
  encode_uuid _ bs := bs;
  scan_bool_array _ _ _ := None;
  scan_int2_array _ _ _ := None;
  scan_int4_array _ _ _ := None;
  scan_int8_array _ _ _ := None;
  scan_float4_array _ _ _ := None;
  scan_float8_array _ _ _ := None;
  scan_date_array _ _ _ := None;
  scan_time_array _ _ _ := None;
  scan_timestamp_array _ _ _ := None;
  scan_timestamptz_array _ _ _ := None;
  scan_bytes_array _ _ _ := None;
  scan_numeric_array _ _ _ := None;
  scan_uuid_array _ _ _ := None;
  DecodeValue _ _ _ _ := None
|}.

(** ** The session *)
#[export] Instance session_model : Session := {|
  Tx := unit;
  GetCatalogConn m := Some m;
  GetTxn m := Some (if m_open m then m else open_txn m, tt);
  GetCatalogTxn m := Some (if m_open m then m else open_txn m, tt);
  TryGetTxn m := if m_open m then Some tt else None;
  CloseTxn m := end_txn m;
  ConnExec _ _ m := (m, true);
  ConnQueryRow _ _ m := RowString (snd (m_durable m));
  TxExec _ sql args m :=
    match args with
    | [ArgString lsn; _] => (store_position lsn m, true)
    | [] => (Models.set_rows [] m, true) (* TRUNCATE *)
    | _ => (m, false)
    end;
  TxCommit _ m := if m_live m then (make_durable m, true) else (m, false);
  TxRollback _ m := if m_live m then (undo_txn m, RollbackOk) else (m, NoActiveTxn)
|}.

(** The messages on the wire are the numbers of their place in [wire]. *)
Definition wire_model (wire : list Message) : PgLogRepl := {|
  ParseV2 data _ := match data with [n] => wire !! Z.to_nat n | _ => None end;
  ParseXLogData data := Some (mkXLogData 0 data);
  ParsePrimaryKeepaliveMessage _ := Some (mkKeepalive 0 true);
  LSN_String := lsn_text;
  ParseLSN := text_lsn
|}.

(** ** The table *)
Definition rel0 : RelationMessage := mkRelation 7 "db" "t" [mkRelColumn 1 "id" Int4OID (-1); mkRelColumn 0 "v" Int4OID (-1)].
Definition rel_of0 (_ : unit) : RelationMessage := rel0.
Definition pg_int4 : SqlType := TPostgres (mkPostgresType (mkPgType Int4OID None) 0 0 4 false).

#[export] Instance pg_flush_laws indexed : FlushLaws hash0 tab0 (schema_of_with pg_int4) indexed := flush_model_laws_with pg_int4 indexed eq_refl.

Lemma pg_table_ok i : table_ok tab0 (schema_of_with pg_int4) rel_of0 i.
Proof. split; try reflexivity. discriminate. Qed.

Lemma pg_model_laws wire env indexed : PgLaws (HP := wire_model wire) hash0 env "sub" tab0 (schema_of_with pg_int4) rel_of0 indexed.
Proof.
  refine {| stored := m_pos : db -> string; durable_rows := fun (_ : unit) (m : db) => fst (m_durable m);
            durable_lsn := fun m : db => snd (m_durable m); active := fun (_ : Tx) (m : db) => m_live m; idle := fun m : db => negb (m_live m) |}.
  - intros d. exists d. split; [reflexivity|]. repeat split.
  - intros d Hn _. exists (open_txn d), tt. cbn in Hn |- *. destruct (m_open d); [discriminate|]. repeat split.
  - intros d [] Ht. cbn in *. destruct (m_open d); [reflexivity | discriminate].
  - intros lsn sql d tx _ Ha. exists (store_position lsn d). repeat split. exact Ha.
  - intros d tx Ha. exists (make_durable d). cbn. rewrite Ha. repeat split.
  - intros d. repeat split.
  - intros d tx Ha. exists d, NoActiveTxn. cbn. rewrite Ha. repeat split.
  - intros d tx Ha. exists (undo_txn d), RollbackOk. cbn. rewrite Ha. repeat split. discriminate.
  - intros sql d _ _ _. exists d. repeat split.
  - intros l Hl. apply text_lsn_text. lia.
  - intros d. exists d. repeat split.
  - intros i d. exists d. repeat split.
  - intros i j. exact (outside_untouched (fun x => x.1.1.1) _).
  - intros i. exact (outside_untouched (fun x => x.1.1.2) _).
  - intros i. exact (outside_untouched (fun x => if x.1.2 then Some tt else None) _).
  - intros i tx. exact (outside_untouched (fun x => x.2) _).
Defined.
