(* ===== verification/CellClaims.v ===== *)
(** * Claims about the cell decoder (src/binlog/rbr.go) and the charsets

    Round trips against MySQL's storage formats, the agreement of the decoder
    with [CellLength], what it does to the builder, and that it returns on every
    well-typed cell. *)

From S2P Require Import Prelude GoTime Charset Schema Rbr RbrFacts RbrDecimal RbrTime RbrSafe Delta Models.

(** A column of a plain type, for the witnesses. *)
Definition column_of (q : qtype) : Column := mkColumn "c" (plain_type q) false.

Section Claims.
Context `{ArrowLib} `{Codecs} `{VitessLib}.

(** an integer cell of any width (TINY, SHORT, INT24, LONG, LONGLONG), signed or
    unsigned, is decoded to the number MySQL stored in little-endian order, for every
    number of its range, and the decoder consumes exactly the width. *)
Theorem cell_int_roundtrip data pos typ n sgn uns md col ft b v :
  int_type typ n sgn uns -> Type_of (col_type col) = Ret ft ->
  slice_wf data -> window data pos (le_bytes n v) -> int_range (IsSigned ft) n v ->
  builder_class (b_type b) = (if IsSigned ft then sgn else uns) ->
  CellValue data pos typ md col b = Ret (b_append (CInt v) b, Z.of_nat n, None).
Proof. apply CellValue_int_window. Qed.

(** C38: A packed DECIMAL(p,s) cell of MySQL (p to 65, s to p), positive or negative, is
    decoded exactly, into a Decimal128 or a Decimal256 builder of scale S, and the decoder
    consumes the size of the format.  When s is not 0 and not above S, the builder gets the
    value with its fraction padded to scale S; when s is 0, it gets the integer as it is,
    which is the stored value when S is 0 too (see [decimal_scale0_not_padded] for the other
    case), both when the number fits the builder's 127 or 255 bits.  When s is above S, the
    decoder returns an error and appends nothing. *)
Theorem cell_decimal_roundtrip `{!ArrowLaws} `{!ArrowLaws256} data pos p s neg coeff col ft b S w :
  Type_of (col_type col) = Ret ft -> decimal_builder (b_type b) S w ->
  0 <= s <= p -> 0 < p <= 65 -> 0 <= coeff < 10 ^ p -> slice_wf data -> window data pos (decimal_encode p s neg coeff) ->
  if (0 <? s) && (S <? s) then CellValue data pos TypeNewDecimal (p * 256 + s) col b = Ret (b, decimal_size p s, Some (ErrFractionalDigits s S))
  else let stored := if s =? 0 then coeff else coeff * 10 ^ (S - s) in
       stored < 2 ^ w -> exists c, CellValue data pos TypeNewDecimal (p * 256 + s) col b = Ret (b_append c b, decimal_size p s, None)
         /\ decimal_value c = Some (if neg then - stored else stored).
Proof. apply CellValue_decimal_window. Qed.

(** a DATETIME(fsp) cell of any precision gives back the date, the time and the
    microseconds that were stored. *)
Theorem cell_datetime2_roundtrip data pos fsp y mo d h m s us col ft b :
  Type_of (col_type col) = Ret ft -> frac_ok fsp us ->
  0 <= y <= 9999 -> 0 <= mo <= 12 -> 0 <= d <= 31 -> 0 <= h < 24 -> 0 <= m < 60 -> 0 <= s < 60 ->
  builder_class (b_type b) = TimestampBuilder -> slice_wf data -> window data pos (datetime2_encode fsp y mo d h m s us) ->
  CellValue data pos TypeDateTime2 fsp col b
  = Ret (b_append (CTime (time_Date y mo d h m s (us * 1000))) b, 5 + Z.of_nat (frac_bytes fsp), None).
Proof. intros Hft. intros. unfold CellValue. rewrite Hft, bind_Ret. cbn -[cell_DateTime2 time_Date]. apply cell_DateTime2_window; assumption. Qed.

(** a TIMESTAMP(fsp) cell of any precision gives back the Unix second and the
    microseconds that were stored. *)
Theorem cell_timestamp2_roundtrip data pos fsp sec us col ft b :
  Type_of (col_type col) = Ret ft -> frac_ok fsp us -> 0 <= sec < 2 ^ 32 ->
  builder_class (b_type b) = TimestampBuilder -> slice_wf data -> window data pos (timestamp2_encode fsp sec us) ->
  CellValue data pos TypeTimestamp2 fsp col b
  = Ret (b_append (CTime (time_Unix sec (us * 1000))) b, 4 + Z.of_nat (frac_bytes fsp), None).
Proof. intros Hft. intros. unfold CellValue. rewrite Hft, bind_Ret. cbn -[cell_Timestamp2 time_Unix]. apply cell_Timestamp2_window; assumption. Qed.

(** a TIME(fsp) cell of any precision and either sign gives back the signed
    duration that was stored, through the borrow the format uses for negative
    fractions. *)
Theorem cell_time2_roundtrip data pos fsp neg h m s us col ft b :
  Type_of (col_type col) = Ret ft -> frac_ok fsp us -> 0 <= h < 1024 -> 0 <= m < 60 -> 0 <= s < 60 ->
  builder_class (b_type b) = DurationBuilder -> window data pos (time2_encode fsp neg h m s us) ->
  CellValue data pos TypeTime2 fsp col b
  = Ret (b_append (CDuration ((if neg then -1 else 1) * ((h * 3600 + m * 60 + s) * 1000000 + us))) b,
         3 + Z.quot (fsp + 1) 2, None).
Proof. intros Hft. intros. unfold CellValue. rewrite Hft, bind_Ret. cbn -[cell_Time2 Z.mul]. apply cell_Time2_window; assumption. Qed.

(** Whatever the bytes, a cell that is decoded without error appends exactly one
    value to the builder, and a cell that gives an error leaves the builder as it
    was: the columns of a row advance together. *)
Theorem cell_appends_one data pos typ md col b b' n e :
  CellValue data pos typ md col b = Ret (b', n, e) ->
  match e with None => exists c, b' = b_append c b | Some _ => b' = b end.
Proof. intros E. exact (CellValue_appends _ _ _ _ _ _ _ E). Qed.

(** C39: the length a successful decode reports is the length [CellLength] computes
    for the same bytes, so both walk a row image in step. *)
Theorem cell_length_agrees data pos typ md col b b' n :
  fsp_ok typ md -> CellValue data pos typ md col b = Ret (b', n, None) -> CellLength data pos typ md = Ret (n, None).
Proof. intros Hf E. exact (CellLength_of_cell _ _ _ _ _ _ _ Hf E eq_refl). Qed.

(** C22: For every column type and every type code MySQL logs it with, when the data
    holds the whole cell and the builder is the one chosen for the column, the decoder
    returns: no index out of range, no failed type assertion.  The bytes are any for most
    types; a DECIMAL cell holds the packed digits of a number of the column's precision,
    and a JSON cell, binary or text, a document that the JSON parser accepts (the code
    panics on one that it does not). *)
Theorem cell_never_panics `{!VitessLaws} `{!ArrowLaws} `{!ArrowLaws256} data pos typ md col m b n :
  slice_wf data -> 0 <= pos -> 0 <= md -> col_type col = TMySQL m -> logged data pos typ md m ->
  toArrowType (col_type col) = Ret (b_type b) ->
  CellLength data pos typ md = Ret (n, None) -> pos + n <= Z.of_nat (s_len data) ->
  returns (CellValue data pos typ md col b).
Proof. apply CellValue_safe_logged. Qed.

(** The old TIME format: the sign of a negative time is applied to the hours only.
    The duration appended for [-h:m:s] is [-(h*3600) + m*60 + s] seconds, which is
    wrong for every negative time whose minutes or seconds are not zero. *)
Theorem old_time_sign_lost data pos h m s col ft b :
  Type_of (col_type col) = Ret ft -> 0 <= h <= 838 -> 0 <= m < 60 -> 0 <= s < 60 -> 0 < h * 10000 + m * 100 + s ->
  builder_class (b_type b) = DurationBuilder -> window data pos (time_encode true h m s) ->
  exists us, CellValue data pos TypeTime 0 col b = Ret (b_append (CDuration us) b, 3, None) /\
    us = - ((h * 3600 + m * 60 + s) * 1000000) + 2 * (m * 60 + s) * 1000000.
Proof.
  intros Hft Hh Hm Hs Hn Hb Hw. eexists. unfold CellValue. rewrite Hft, bind_Ret. cbn -[cell_Time Z.mul].
  split; [apply (cell_Time_value data pos true h m s b); try assumption; left; lia | lia].
Qed.

(** A DECIMAL(p,0) cell is not rescaled: the builder, whose scale may be larger,
    gets the bare integer, although a comment of the source says that missing
    fractional digits are padded. *)
Theorem decimal_scale0_not_padded `{!ArrowLaws} data pos p neg coeff col ft b P S :
  Type_of (col_type col) = Ret ft -> b_type b = ADecimal128 P S -> 0 < p < 256 -> decimal_size p 0 <= 40 ->
  0 <= coeff < 10 ^ p -> coeff < 2 ^ 127 -> slice_wf data -> window data pos (decimal_encode p 0 neg coeff) ->
  exists num, CellValue data pos TypeNewDecimal (p * 256) col b
              = Ret (b_append (CDecimal128 num) b, decimal_size p 0, None) /\
              value128 num = (if neg then - coeff else coeff).
Proof.
  intros Hft Hb Hp Hl Hc Hr Hwf Hw. unfold CellValue. rewrite Hft, bind_Ret. cbn -[cell_NewDecimal].
  rewrite <- (Z.add_0_r (p * 256)). rewrite (cell_NewDecimal_digits _ _ p 0 neg coeff) by (assumption || lia).
  unfold finish_decimal. cbn [Z.eqb]. unfold append_decimal. rewrite Hb. cbn [builder_class].
  destruct (decimal128_FromBigInt_exact coeff) as (n & -> & Hn); [lia|]. cbn [mbind outcome_bind].
  eexists. split; [reflexivity|]. destruct neg; [|exact Hn]. rewrite decimal128_Negate_exact by lia. lia.
Qed.
End Claims.

(** Text encoded into any supported character set and decoded again is the text:
    the source's [EncodeBytes] and [DecodeBytes] are inverse where encoding succeeds. *)
Theorem charset_roundtrip `{CodecLaws} id s t : EncodeBytes id s = (t, None) -> DecodeBytes id t = (s, None).
Proof. apply decode_encode_bytes. Qed.

(** the precision and scale PostgreSQL packs into a numeric type modifier are
    unpacked exactly. *)
Theorem numeric_typmod_roundtrip p s : 0 <= p < 2 ^ 15 -> 0 <= s < 2 ^ 15 -> 0 < p ->
  DecodePrecisionScale (p * 2 ^ 16 + s + 4) = (p, s, true).
Proof. apply DecodePrecisionScale_roundtrip. Qed.

(** ** Witnesses *)
Definition int_builder : builder := new_builder AInt32.

Lemma cell_int_roundtrip_witness :
  CellValue (of_bytes (7 :: le_bytes 3 (-5))) 1 TypeInt24 0 (column_of Q_INT24) int_builder
  = Ret (b_append (CInt (-5)) int_builder, 3, None).
Proof.
  apply (cell_int_roundtrip _ 1 TypeInt24 3 Int32Builder Uint32Builder 0 (column_of Q_INT24) Q_INT24 int_builder (-5)).
  - constructor.
  - reflexivity.
  - split; [simpl; lia | concrete].
  - vm_compute. repeat split; discriminate.
  - vm_compute. repeat split; discriminate.
  - reflexivity.
Defined.

Lemma cell_decimal_roundtrip_witness :
  exists c : cell num128 num256, CellValue (of_bytes (decimal_encode 10 4 true 123456789)) 0 TypeNewDecimal (10 * 256 + 4)
      (column_of Q_DECIMAL) (new_builder (ADecimal128 12 6))
    = Ret (b_append c (new_builder (ADecimal128 12 6)), decimal_size 10 4, None) /\ decimal_value c = Some (- (123456789 * 10 ^ 2)).
Proof.
  apply (cell_decimal_roundtrip (of_bytes (decimal_encode 10 4 true 123456789)) 0 10 4 true 123456789 (column_of Q_DECIMAL) Q_DECIMAL (new_builder (ADecimal128 12 6)) 6 127).
  all: try reflexivity; try (vm_compute; repeat split; discriminate || reflexivity); try discriminate; try constructor.
  - simpl. lia.
  - concrete.
Defined.

Lemma cell_datetime2_roundtrip_witness :
  CellValue (of_bytes (datetime2_encode 3 2024 2 29 23 59 58 123000)) 0 TypeDateTime2 3 (column_of Q_DATETIME) (new_builder (ATimestamp Microsecond "UTC"))
  = Ret (b_append (CTime (time_Date 2024 2 29 23 59 58 (123000 * 1000))) (new_builder (ATimestamp Microsecond "UTC")), 7, None).
Proof.
  apply (cell_datetime2_roundtrip (of_bytes (datetime2_encode 3 2024 2 29 23 59 58 123000)) 0 3 2024 2 29 23 59 58 123000 (column_of Q_DATETIME) Q_DATETIME).
  all: try reflexivity; try (vm_compute; repeat split; discriminate || reflexivity).
  split; [simpl; lia | concrete].
Defined.

Lemma cell_timestamp2_roundtrip_witness :
  CellValue (of_bytes (timestamp2_encode 6 1709251198 654321)) 0 TypeTimestamp2 6 (column_of Q_TIMESTAMP) (new_builder (ATimestamp Microsecond "UTC"))
  = Ret (b_append (CTime (time_Unix 1709251198 (654321 * 1000))) (new_builder (ATimestamp Microsecond "UTC")), 7, None).
Proof.
  apply (cell_timestamp2_roundtrip (of_bytes (timestamp2_encode 6 1709251198 654321)) 0 6 1709251198 654321 (column_of Q_TIMESTAMP) Q_TIMESTAMP).
  all: try reflexivity; try (vm_compute; repeat split; discriminate || reflexivity).
  split; [simpl; lia | concrete].
Defined.

Lemma cell_time2_roundtrip_witness :
  CellValue (of_bytes (time2_encode 2 true 12 34 56 780000)) 0 TypeTime2 2 (column_of Q_TIME) (new_builder (ADuration Microsecond))
  = Ret (b_append (CDuration (-1 * ((12 * 3600 + 34 * 60 + 56) * 1000000 + 780000))) (new_builder (ADuration Microsecond)), 4, None).
Proof.
  apply (cell_time2_roundtrip (of_bytes (time2_encode 2 true 12 34 56 780000)) 0 2 true 12 34 56 780000 (column_of Q_TIME) Q_TIME).
  all: try reflexivity; try (vm_compute; repeat split; discriminate || reflexivity).
Defined.

Lemma cell_appends_one_witness : exists c, b_append (CInt 200) (new_builder AUint8) = b_append c (new_builder AUint8).
Proof.
  apply (cell_appends_one (of_bytes [200]) 0 TypeTiny 0 (column_of Q_UINT8) (new_builder AUint8) (b_append (CInt 200) (new_builder AUint8)) 1 None).
  reflexivity.
Defined.

Lemma cell_length_agrees_witness : CellLength (of_bytes [2; 104; 105]) 0 TypeVarchar 10 = Ret (3, None).
Proof.
  apply (cell_length_agrees (of_bytes [2; 104; 105]) 0 TypeVarchar 10
    (mkColumn "c" (TMySQL (mkMySQLType Q_VARCHAR (Some CharacterSet_utf8mb4) None None None None)) false)
    (new_builder AString) (b_append (CBytes [104; 105]) (new_builder AString)) 3).
  - intros [E|E]; discriminate.
  - reflexivity.
Defined.

Lemma cell_never_panics_witness :
  returns (CellValue (of_bytes (decimal_encode 10 4 true 123456789)) 0 TypeNewDecimal (10 * 256 + 4)
    (mkColumn "c" (TMySQL (mkMySQLType Q_DECIMAL None None None None (Some (10, 4)))) false) (new_builder (ADecimal128 10 4))).
Proof.
  apply (cell_never_panics (of_bytes (decimal_encode 10 4 true 123456789)) 0 TypeNewDecimal (10 * 256 + 4) _ (mkMySQLType Q_DECIMAL None None None None (Some (10, 4))) _ 5).
  all: try reflexivity; try (vm_compute; discriminate).
  - split; [simpl; lia | concrete].
  - apply (logged_decimal _ _ 10 4 true 123456789); try reflexivity; try (vm_compute; repeat split; discriminate || reflexivity).
Defined.

Lemma old_time_sign_lost_witness :
  exists us, CellValue (of_bytes (time_encode true 1 30 15)) 0 TypeTime 0 (column_of Q_TIME) (new_builder (ADuration Microsecond))
    = Ret (b_append (CDuration us) (new_builder (ADuration Microsecond)), 3, None) /\
    us = - ((1 * 3600 + 30 * 60 + 15) * 1000000) + 2 * (30 * 60 + 15) * 1000000.
Proof.
  apply (old_time_sign_lost (of_bytes (time_encode true 1 30 15)) 0 1 30 15 (column_of Q_TIME) Q_TIME).
  all: try reflexivity; try (vm_compute; repeat split; discriminate || reflexivity).
Defined.

Lemma decimal_scale0_not_padded_witness :
  exists num : num128, CellValue (of_bytes (decimal_encode 5 0 false 42)) 0 TypeNewDecimal (5 * 256) (column_of Q_DECIMAL) (new_builder (ADecimal128 10 2))
    = Ret (b_append (CDecimal128 num) (new_builder (ADecimal128 10 2)), decimal_size 5 0, None) /\ value128 num = 42.
Proof.
  apply (decimal_scale0_not_padded (of_bytes (decimal_encode 5 0 false 42)) 0 5 false 42 (column_of Q_DECIMAL) Q_DECIMAL _ 10 2).
  all: try reflexivity; try (vm_compute; repeat split; discriminate || reflexivity).
  split; [simpl; lia | concrete].
Defined.

Lemma charset_roundtrip_witness : DecodeBytes CharacterSet_latin1 [104; 233] = ([104; 233], None).
Proof. apply (charset_roundtrip CharacterSet_latin1 [104; 233] [104; 233]). reflexivity. Defined.

Lemma numeric_typmod_roundtrip_witness : DecodePrecisionScale (10 * 2 ^ 16 + 2 + 4) = (10, 2, true).
Proof. apply (numeric_typmod_roundtrip 10 2); lia. Defined.
