(* ===== verification/CatalogClaims.v ===== *)
(** * Claims about the catalog's SQL text (src/catalog/identifier.go, internal_tables.go) *)

From S2P Require Import Prelude Identifier InternalTables.

(** a path of identifiers, each quoted, is read back by a SQL lexer as the same
    identifiers, whatever characters they contain: quoting is injective and nothing
    in a name can end the identifier early. *)
Theorem quoted_path_reads_back l : l <> [] -> read_path (length l) (ConnectIdentifiersANSI l) = Some l.
Proof. apply read_path_connect. Qed.

Lemma quoted_path_reads_back_witness :
  read_path 2 (ConnectIdentifiersANSI ["db"; String dq "; DROP TABLE x"]) = Some ["db"; String dq "; DROP TABLE x"].
Proof. apply (quoted_path_reads_back ["db"; String dq "; DROP TABLE x"]). discriminate. Defined.

(** an index name encoded with its table is decoded to both, when neither name
    contains a dollar sign. *)
Theorem index_name_roundtrip table index :
  contains_dollar table = false -> contains_dollar index = false ->
  DecodeIndexName (EncodeIndexName table index) = (table, index).
Proof. apply DecodeIndexName_Encode. Qed.

Lemma index_name_roundtrip_witness : DecodeIndexName (EncodeIndexName "orders" "by_date") = ("orders", "by_date").
Proof. apply (index_name_roundtrip "orders" "by_date"); reflexivity. Defined.

(** The full names, unlike the ANSI ones, do not escape quotes: a schema whose
    name contains a quote, a dot and a quote has the full name of another catalog's
    schema. *)
Theorem full_schema_name_ambiguous a b : a <> EmptyString -> b <> EmptyString ->
  FullSchemaName EmptyString (a +:+ dquote +:+ "." +:+ dquote +:+ b) = FullSchemaName a b.
Proof.
  intros Ha Hb. unfold FullSchemaName. rewrite decide_True by reflexivity. rewrite !decide_False by assumption.
  rewrite !app_assoc_string. reflexivity.
Qed.

Lemma full_schema_name_ambiguous_witness :
  FullSchemaName EmptyString ("c" +:+ dquote +:+ "." +:+ dquote +:+ "s") = FullSchemaName "c" "s".
Proof. apply (full_schema_name_ambiguous "c" "s"); discriminate. Defined.

(** The upsert statement of an internal table has one parameter for each of its
    key and value columns, which is what its callers bind. *)
Theorem upsert_binds_every_column it s : plain_names it -> UpsertStmt it = Ret s ->
  placeholders s = (length (KeyColumns it) + length (ValueColumns it))%nat.
Proof.
  intros Hp E. pose proof (placeholders_name it Hp) as Hn. unfold UpsertStmt in E.
  destruct (KeyColumns it) as [|k keys]; [discriminate|]. injection E as <-.
  rewrite !placeholders_app, Hn, !(placeholders_concat (fun _ => ", ?") 1) by reflexivity.
  count_params. simpl length. lia.
Qed.

Lemma upsert_binds_every_column_witness :
  placeholders "INSERT OR REPLACE INTO __sys__.binlog_position VALUES (?, ?)" = 2%nat.
Proof. apply (upsert_binds_every_column BinlogPosition); [repeat constructor | reflexivity]. Defined.

(** The lookup statement of an internal table has one parameter for each key column. *)
Lemma select_binds_every_key it s : plain_names it -> SelectStmt it = Ret s ->
  placeholders s = length (KeyColumns it).
Proof.
  intros Hp E. pose proof (placeholders_name it Hp) as Hn. unfold SelectStmt in E.
  apply bind_Ret_inv in E. destruct E as (cols & Ec & E). apply bind_Ret_inv in E. destruct E as (keys & Ek & E). injection E as <-.
  inversion Hp as [|? ? _ Hp1]; subst. inversion Hp1 as [|? ? _ Hp2]; subst. apply Forall_app in Hp2. destruct Hp2 as [Hk Hv].
  rewrite !placeholders_app, Hn, (placeholders_params " AND " _ _ Hk eq_refl Ek).
  assert (Hc : placeholders cols = 0%nat); [|rewrite Hc; count_params; lia].
  clear - Ec Hv. destruct (ValueColumns it) as [|c cs]; [discriminate|]. injection Ec as <-.
  inversion Hv as [|? ? H0 Hcs]; subst. unfold id. rewrite placeholders_app, H0. cbn [Nat.add]. clear - Hcs.
  induction Hcs as [|c cs Hc Hcs IH]; [reflexivity|]. cbn [map foldr]. rewrite !placeholders_app, Hc, IH. reflexivity.
Qed.


(** With two key columns the DELETE statement is not SQL: the second condition
    follows the first parameter without a separator. *)
Theorem delete_stmt_two_keys it k1 k2 : KeyColumns it = [k1; k2] ->
  DeleteStmt it = Ret ("DELETE FROM " +:+ QualifiedName it +:+ " WHERE " +:+ k1 +:+ " = ?" +:+ k2 +:+ " = ?").
Proof.
  intros Hk. unfold DeleteStmt. rewrite Hk. cbn [first_then map foldr mbind outcome_bind]. f_equal.
  unfold eq_param. rewrite !app_assoc_string. cbn. rewrite app_empty_r. reflexivity.
Qed.

Lemma delete_stmt_two_keys_witness :
  DeleteStmt (mkInternalTable "s" "t" ["a"; "b"] [] EmptyString) = Ret "DELETE FROM s.t WHERE a = ?b = ?".
Proof. exact (delete_stmt_two_keys (mkInternalTable "s" "t" ["a"; "b"] [] EmptyString) "a" "b" eq_refl). Defined.
