(* ===== verification/DeltaClaims.v ===== *)
(** * Claims about the delta buffer (src/delta) and the row events that fill it *)

From S2P Require Import Prelude GoTime Charset Schema Rbr RbrFacts Identifier Delta DeltaSpec DeltaRefine DeltaFlush.
From S2P Require Import Models Updater RowAppend QueryVars Applier ApplierFacts.

Section Refinement.
Context `{ArrowLib} `{!EqDecision (cell num128 num256)} `{!DuckDB}.
Context (viewHash : string -> string) (t : tableIdentifier) (schema : list Column) (indexed : bool).
Context `{HL : !SqlLaws viewHash t schema indexed}.

End Refinement.

Section Flushing.
Context `{ArrowLib} `{!EqDecision (cell num128 num256)} `{!DuckDB}.
Context (viewHash : string -> string) {T : Type} (tab : T -> tableIdentifier) (schema_of : T -> list Column) (indexed : bool).
Context `{!FlushLaws viewHash tab schema_of indexed}.

End Flushing.

Section Errors.
Context `{ArrowLib} `{!EqDecision (cell num128 num256)} `{!DuckDB}.

(** Without a transaction a flush of buffered rows fails and loses nothing: the
    database, every buffered row and every counter are as before. *)
Lemma flush_without_transaction_keeps viewHash env reason t a ts st d : (0 < RowCount a)%nat ->
  Flush viewHash false env reason ((t, a) :: ts) st d = Ret (d, (t, a) :: ts, st, Some ErrNoActiveTransaction).
Proof. apply Flush_no_txn. Qed.

(** The write of a table's delta empties its buffer even when it fails: after
    [updateTable] returns, with or without an error, no row is buffered and the
    counters are zero, so the rows of a failed write are not there to be retried. *)
Lemma failed_write_drops_rows viewHash env t schema a st d d' a' st' e : appender_ok schema a ->
  updateTable viewHash true env t a st d = Ret (d', a', st', e) -> delta_rows a' = [] /\ a_counters a' = zeroCounters.
Proof.
  intros Ha E. rewrite (updateTable_empties viewHash env t schema a st d d' a' st' e Ha E).
  split; [exact (delta_rows_emptied a) | reflexivity].
Qed.
End Errors.

(** The room reserved for the next delta is the next power of two: at least the
    rows of the last delta and less than twice as many. *)
Lemma grow_to_next_power n : (1 <= n)%nat ->
  exists k, 0 <= k /\ growTo n = 2 ^ k /\ Z.of_nat n <= growTo n < 2 * Z.of_nat n.
Proof.
  intros Hn. unfold growTo. destruct (Nat.leb_spec n 1) as [Hl|Hl].
  - exists 0. replace n with 1%nat by lia. repeat split; vm_compute; discriminate.
  - set (m := Z.of_nat n - 1). assert (Hm : 0 < m) by lia.
    pose proof (Z.log2_spec m Hm) as [H1 H2]. pose proof (Z.log2_nonneg m) as H0.
    exists (Z.log2 m + 1). rewrite Z.shiftl_mul_pow2, Z.mul_1_l by lia.
    change (Z.log2 m + 1) with (Z.succ (Z.log2 m)) in *. rewrite Z.pow_succ_r in * by lia. repeat split; lia.
Qed.

Section Events.
Context `{ArrowLib} `{Codecs} `{VitessLib} `{!EqDecision (cell num128 num256)}.
Context (dict_nil : cell num128 num256) (schema : list Column).

(** A row event that succeeds appends exactly its rows to the delta: the before
    images as deletes, then the after images as inserts, each stamped with the
    transaction and the statement, every column one value longer per row; and the
    counters count the event and its rows. *)
Theorem row_event_adds_its_rows tm event rows g stmt a size a' size' :
  appender_ok schema a -> appendRowFormatChanges dict_nil tm schema event rows g stmt a size = Ret (a', size', None) ->
  appender_ok schema a' /\ exists ds ins,
    length ds = (if has_deletes event then length rows else 0)%nat /\
    length ins = (if has_inserts event then length rows else 0)%nat /\
    delta_rows a' = delta_rows a ++ new_rows dict_nil DeleteRowEvent g stmt ds ++ new_rows dict_nil InsertRowEvent g stmt ins /\
    a_counters a' = event_counters event (Z.of_nat (length rows)) (a_counters a).
Proof. apply append_event_ok. Qed.

(** The buffer invariant is kept by every row event: a rectangular appender,
    truthful counters, and a delta whose actions on one key come in increasing order,
    provided the event's transaction and statement come after those already buffered.
    With it a flush may rely on the counters and on LAST ... ORDER BY. *)
Theorem row_event_keeps_invariant stamps tm event rows g stmt a size a' size' :
  buffer_inv schema stamps a -> (forall s, s ∈ stamps -> cells_cmp s (stamp dict_nil g stmt) = Lt) ->
  appendRowFormatChanges dict_nil tm schema event rows g stmt a size = Ret (a', size', None) ->
  event_keys_ok schema (drop (length (delta_rows a)) (delta_rows a')) ->
  buffer_inv schema (stamps ++ [stamp dict_nil g stmt]) a'.
Proof. apply buffer_inv_append. Qed.

(** a row event that fails on a cell leaves the columns of the appender with
    different lengths, and building the record for the next flush panics. *)
Theorem failed_row_event_poisons_buffer tm event rows g stmt a size a' size' e :
  appender_ok schema a -> appendRowFormatChanges dict_nil tm schema event rows g stmt a size = Ret (a', size', Some e) ->
  Build a' = Panic.
Proof. apply append_event_error. Qed.

(** The delta is ordered by sequence number without regard to the server: a row of a
    later transaction of another server with a smaller sequence number sorts before an
    earlier one, so of two actions on the same key the condensed delta keeps the
    earlier. *)
Theorem later_server_loses a1 a2 server1 server2 seq1 seq2 stmt1 stmt2 cs1 cs2 T :
  u64 seq2 < u64 seq1 -> key schema cs1 = key schema cs2 ->
  let d1 := header_cells dict_nil a1 (Some (Mysql56GTID server1 seq1)) stmt1 ++ cs1 in
  let d2 := header_cells dict_nil a2 (Some (Mysql56GTID server2 seq2)) stmt2 ++ cs2 in
  condensed schema [d1; d2] T -> T = [d1].
Proof.
  intros Hs Hk d1 d2 (Hn & Hmax & Hall).
  destruct (header_facts dict_nil a1 (Some (Mysql56GTID server1 seq1)) stmt1 cs1) as (Hb1 & _ & Hs1).
  destruct (header_facts dict_nil a2 (Some (Mysql56GTID server2 seq2)) stmt2 cs2) as (Hb2 & _ & Hs2). fold d1 in Hb1, Hs1. fold d2 in Hb2, Hs2.
  assert (Hkey : dkey schema d1 = dkey schema d2) by (unfold dkey; rewrite Hb1, Hb2; exact Hk).
  assert (Hbefore : before d2 d1) by (apply stamp_before; rewrite Hs1, Hs2; apply stamp_lt_mysql; auto).
  assert (H2 : d2 ∉ T).
  { intros Hd2. destruct (Hmax d2 Hd2) as [_ Hno]. apply (Hno d1); [left | exact Hkey | exact Hbefore]. }
  assert (Hin : forall d, d ∈ T -> d = d1).
  { intros d Hd. destruct (Hmax d Hd) as [Hds _]. apply elem_of_cons in Hds. destruct Hds as [Hds|Hds]; [exact Hds|].
    apply list_elem_of_singleton in Hds. exfalso. apply H2. rewrite <- Hds. exact Hd. }
  destruct (Hall d1 ltac:(left)) as (x & Hx & _). destruct T as [|y T]; [inversion Hx|].
  rewrite (Hin y ltac:(left)) in *. destruct T as [|z T]; [reflexivity|].
  rewrite (Hin z ltac:(right; left)) in Hn. apply NoDup_cons in Hn. destruct Hn as [Hni _]. destruct Hni. left.
Qed.
End Events.

(** ** Witnesses *)

(** The builders of the example table, and a delta of three actions: the row of key
    1 is replaced, a row with key 2 is added. *)
Definition delta_types : list DataType :=
  match ToArrowSchema (map col_type (delta_schema schema0)) [1; 2; 3]%nat with Ret l => l | Panic => [] end.
Definition g0 : option GTID := Some (Mysql56GTID [1; 1] 7).
Definition example_rows : list row :=
  [ header_cells CNull DeleteRowEvent g0 0 ++ [CInt 1; CInt 10];
    header_cells CNull InsertRowEvent g0 0 ++ [CInt 1; CInt 20];
    header_cells CNull InsertRowEvent g0 1 ++ [CInt 2; CInt 30] ].
Definition example_fields (rows : list row) : list builder := foldl (fun fs r => push r fs) (map new_builder delta_types) rows.
Definition example_appender : DeltaAppender :=
  mkAppender (delta_schema schema0) (example_fields example_rows) (mkCounters 0 1 1 1 2).
Definition empty_appender : DeltaAppender := mkAppender (delta_schema schema0) (example_fields []) zeroCounters.
Definition example_db : @db arrow_model duckdb_model := mkMem [[CInt 1; CInt 10]; [CInt 3; CInt 5]] "p" None None ([], "p") true true.

Lemma empty_appender_ok : appender_ok schema0 empty_appender.
Proof. split; [reflexivity | reflexivity |]. unfold rectangular. repeat constructor. Qed.

Lemma example_appender_ok : appender_ok schema0 example_appender.
Proof. split; [reflexivity | reflexivity |]. unfold rectangular. repeat constructor. Qed.

Lemma example_delta_rows : delta_rows example_appender = example_rows.
Proof. reflexivity. Qed.

Lemma example_ordered : ordered schema0 example_rows.
Proof.
  intros i j d1 d2 Hij H1 H2 Hk.
  destruct i as [|[|[|i]]], j as [|[|[|j]]]; try lia; try discriminate;
    injection H1 as <-; injection H2 as <-; try (discriminate Hk); reflexivity.
Qed.

Lemma example_delta_ok tbl : delta_ok schema0 example_appender tbl.
Proof.
  split; rewrite ?example_delta_rows.
  - apply example_appender_ok.
  - split; rewrite ?example_delta_rows; cbn; try lia; try discriminate.
  - unfold actions_ok. repeat constructor; unfold is_delete, is_insert; first [left; reflexivity | right; reflexivity].
  - apply example_ordered.
  - repeat constructor; unfold no_null; cbn; rewrite list_elem_of_singleton; discriminate.
  - cbn. discriminate.
Qed.

Lemma example_unique : unique_keys schema0 (m_rows example_db).
Proof.
  unfold unique_keys. cbn. repeat constructor; [rewrite list_elem_of_singleton; discriminate | intros Hn; inversion Hn].
Qed.



Definition t1 : tableIdentifier := mkTableId "db" "other".

(** Three rows that the counters take for inserts, for a table the database does not have. *)
Definition failing_appender : DeltaAppender := set_counters (fun _ => mkCounters 0 1 0 0 3) example_appender.

(** An INSERT event of one row: two 32-bit integers. *)
Definition example_tm : TableMap := mkTableMap 0 "db" "t" [TypeLong; TypeLong] [0; 0].
Definition insert_row : Row := mkRow (of_bytes []) [] (of_bytes (le_bytes 4 5 ++ le_bytes 4 50)) [false; false].
(** The same with the first column logged as a type the decoder does not know. *)
Definition bad_tm : TableMap := mkTableMap 0 "db" "t" [TypeLong; 200] [0; 0].

Definition appended : DeltaAppender :=
  mkAppender (delta_schema schema0) (example_fields [header_cells CNull InsertRowEvent g0 3 ++ [CInt 5; CInt 50]]) (mkCounters 0 1 0 0 1).

Lemma insert_event : appendRowFormatChanges CNull example_tm schema0 InsertRowEvent [insert_row] g0 3 empty_appender 0 = Ret (appended, 8, None).
Proof. reflexivity. Qed.

Lemma row_event_adds_its_rows_witness :
  appender_ok schema0 appended /\ exists ds ins : list row, length ds = 0%nat /\ length ins = 1%nat /\
    delta_rows appended = delta_rows empty_appender ++ new_rows CNull DeleteRowEvent g0 3 ds ++ new_rows CNull InsertRowEvent g0 3 ins /\
    a_counters appended = event_counters InsertRowEvent 1 zeroCounters.
Proof.
  apply (row_event_adds_its_rows CNull schema0 example_tm InsertRowEvent [insert_row] g0 3 empty_appender 0 appended 8).
  - exact empty_appender_ok.
  - exact insert_event.
Defined.

Lemma empty_inv : buffer_inv schema0 [] empty_appender.
Proof.
  split; [exact empty_appender_ok | | constructor | intros i j d1 d2 _ Hd _; destruct i; discriminate | constructor].
  split; cbn; [lia | constructor | constructor | constructor].
Qed.

Lemma row_event_keeps_invariant_witness : buffer_inv schema0 [stamp CNull g0 3] appended.
Proof.
  apply (row_event_keeps_invariant CNull schema0 [] example_tm InsertRowEvent [insert_row] g0 3 empty_appender 0 appended 8).
  - exact empty_inv.
  - intros s Hs. inversion Hs.
  - exact insert_event.
  - split; cbn; [constructor | apply NoDup_singleton].
Defined.

Definition poisoned : DeltaAppender := mkAppender (delta_schema schema0)
  (push (header_cells CNull InsertRowEvent g0 3) (take 6 (example_fields [])) ++ [b_append (CInt 5) (new_builder AInt32); new_builder AInt32]) zeroCounters.

Lemma failed_row_event_poisons_buffer_witness : Build poisoned = Panic.
Proof.
  apply (failed_row_event_poisons_buffer CNull schema0 bad_tm InsertRowEvent [insert_row] g0 3 empty_appender 0 poisoned 0 (ErrUnsupportedType 200)).
  - exact empty_appender_ok.
  - reflexivity.
Defined.

Lemma later_server_loses_witness :
  condense [header_cells CNull InsertRowEvent (Some (Mysql56GTID [1] 100)) 0 ++ [CInt 1; CInt 10];
            header_cells CNull InsertRowEvent (Some (Mysql56GTID [2] 5)) 1 ++ [CInt 1; CInt 99]]
  = [header_cells CNull InsertRowEvent (Some (Mysql56GTID [1] 100)) 0 ++ [CInt 1; CInt 10]].
Proof.
  apply (later_server_loses CNull schema0 InsertRowEvent InsertRowEvent [1] [2] 100 5 0 1 [CInt 1; CInt 10] [CInt 1; CInt 99]).
  - reflexivity.
  - reflexivity.
  - apply condense_condensed.
Defined.
