(* ===== verification/ReplicaClaims.v ===== *)
(** * Claims about the replication filters and the row-by-row writer
    (src/binlogreplication/binlog_replica_filtering.go, src/replica/updater.go) *)

From S2P Require Import Prelude Schema Identifier Delta Filtering Updater.
From stdpp Require Import gmap strings.

#[local] Open Scope Z_scope.

(** a table is replicated exactly when the rules admit it: its database is listed
    (or none is), or not ignored where none is listed; among the listed tables of its
    database if that database has any; and not among its ignored tables.  Names are
    compared without regard to case. *)
Theorem filter_decides_the_rules fc database name :
  isTableFilteredOut (Some fc) database name = false <->
  passes fc (strings_ToLower database) (strings_ToLower name).
Proof. apply isTableFilteredOut_false. Qed.

(** after the ignored tables are set, a table is ignored exactly when it is in the
    list, up to case, given that no other rule is set. *)
Theorem ignore_tables_takes_effect urts database name :
  verifyAllTablesAreQualified urts = None ->
  isTableFilteredOut (Some (fst (setIgnoreTables urts newFilterConfiguration))) database name = true <->
  Exists (listed (strings_ToLower database) (strings_ToLower name)) urts.
Proof.
  intros Hq. unfold setIgnoreTables. rewrite Hq. cbn [fst].
  pose proof (isTableFilteredOut_false (mkFilters ∅ ∅ ∅ (foldl addTable ∅ urts)) database name) as Hf.
  unfold passes in Hf. cbn [doDatabases ignoreDatabases doTables ignoreTables] in Hf.
  pose proof (addTables_lookup urts ∅ (strings_ToLower database) (strings_ToLower name)) as Hl.
  assert (Hempty : ~ exists ts : gset string, (∅ : gmap string (gset string)) !! strings_ToLower database = Some ts /\ strings_ToLower name ∈ ts).
  { intros (ts & E & _). rewrite lookup_empty in E. discriminate. }
  cbn [doDatabases ignoreDatabases doTables newFilterConfiguration].
  destruct (isTableFilteredOut _ database name) eqn:E; split; intros HX; try reflexivity; try discriminate.
  - destruct (Hl) as [Hl1 _]. destruct (foldl addTable ∅ urts !! strings_ToLower database) as [ts|] eqn:Et.
    + destruct (decide (strings_ToLower name ∈ ts)) as [Hin|Hin]; [destruct Hl1; [eauto | assumption | contradiction]|].
      assert (true = false); [|discriminate]. apply Hf. split; [auto|]. split; [set_solver|].
      split; [intros ? E'; rewrite lookup_empty in E'; discriminate | congruence].
    + assert (true = false); [|discriminate]. apply Hf. split; [auto|]. split; [set_solver|].
      split; [intros ? E'; rewrite lookup_empty in E'; discriminate | congruence].
  - destruct Hf as [Hf _]. destruct (Hf eq_refl) as (_ & _ & _ & Hig). destruct Hl as [_ Hl2].
    destruct (Hl2 (or_introl HX)) as (ts & Ets & Hin). exfalso. exact (Hig ts Ets Hin).
Qed.

Lemma ignore_tables_takes_effect_witness :
  isTableFilteredOut (Some (fst (setIgnoreTables [mkUrt "Db" "Secret"] newFilterConfiguration))) "DB" "SECRET" = true <->
  Exists (listed "db" "secret") [mkUrt "Db" "Secret"].
Proof. apply (ignore_tables_takes_effect [mkUrt "Db" "Secret"] "DB" "SECRET"). reflexivity. Defined.

(** A list of do-tables is not exhaustive, although a comment of the source says that a
    table must be listed to be replicated: a table of a database that has no entry in
    the list passes the filter. *)
Theorem do_tables_ignore_other_databases urts database name :
  verifyAllTablesAreQualified urts = None ->
  Forall (fun urt => strings_ToLower (urt_database urt) <> strings_ToLower database) urts ->
  isTableFilteredOut (Some (fst (setDoTables urts newFilterConfiguration))) database name = false.
Proof.
  intros Hq Hdb. unfold setDoTables. rewrite Hq. cbn [fst]. apply isTableFilteredOut_false. unfold passes.
  cbn [doDatabases ignoreDatabases doTables ignoreTables newFilterConfiguration].
  split; [auto|]. split; [set_solver|]. split; [|intros ? E; rewrite lookup_empty in E; discriminate].
  intros ts Et. exfalso. pose proof (proj1 (addTables_db urts ∅ (strings_ToLower database)) (mk_is_Some _ _ Et)) as [Hx|Hx].
  - rewrite Exists_exists in Hx. destruct Hx as (urt & Hin & E). rewrite Forall_forall in Hdb. exact (Hdb urt Hin (eq_sym E)).
  - rewrite lookup_empty in Hx. destruct Hx. discriminate.
Qed.

Lemma do_tables_ignore_other_databases_witness :
  isTableFilteredOut (Some (fst (setDoTables [mkUrt "db1" "t"] newFilterConfiguration))) "db2" "x" = false.
Proof. apply (do_tables_ignore_other_databases [mkUrt "db1" "t"] "db2" "x"); [reflexivity | repeat constructor; discriminate]. Defined.

Section Writer.
Context {W value : Type} (prepare : string -> W -> bool) (run : string -> list value -> W -> option W).
Context (row_Equals : list value -> list value -> list Column -> option bool) (nil_value : value).

(** an UPDATE event with a partial row image cannot be applied: rows are parsed to
    the full width of the table, so the arguments never fit the buffer sized by the
    columns present, and slicing it panics. *)
Theorem partial_update_never_applies databaseName tableName schema pkOrdinals identifyColumns dataColumns tu w
    keys keyRows values valueRows :
  let columnCount := length schema in
  length identifyColumns = columnCount -> length dataColumns = columnCount ->
  length keys = columnCount -> length values = columnCount ->
  length pkOrdinals = length (Updater.getPrimaryKeyIndices schema identifyColumns) \/ Updater.getPrimaryKeyIndices schema identifyColumns = [] ->
  (Updater.BitCount identifyColumns < columnCount \/ Updater.BitCount dataColumns < columnCount)%nat ->
  Updater.newTableUpdater prepare databaseName tableName schema pkOrdinals columnCount identifyColumns dataColumns UpdateRowEvent w = Ret (inl tu) ->
  Updater.tu_replace tu = false ->
  Updater.Update prepare run row_Equals nil_value tu (keys :: keyRows) (values :: valueRows) w = Panic.
Proof. apply Updater.partial_update_panics. Qed.

(** an UPDATE event that carries the primary key in both images cannot be applied
    either: the updater is built without its transaction handle, and after the inserts
    the cleanup statement is prepared on a nil handle. *)
Theorem key_update_never_applies databaseName tableName schema pkOrdinals columnCount identifyColumns dataColumns tu w w'
    keyRows valueRows :
  Updater.newTableUpdater prepare databaseName tableName schema pkOrdinals columnCount identifyColumns dataColumns UpdateRowEvent w = Ret (inl tu) ->
  Updater.isPkUpdate schema 0 identifyColumns dataColumns = Ret true ->
  Updater.Insert run tu valueRows w = (w', None) ->
  Updater.Update prepare run row_Equals nil_value tu keyRows valueRows w = Panic.
Proof. apply Updater.pk_update_panics. Qed.

(** A DELETE event whose image holds only the key, in a table whose key is not its
    first column, is run with the wrong argument: the position of the key is counted
    among the columns present while the row has a slot for every column, so the
    condition compares the key with the absent first column's nil. *)
Theorem minimal_delete_uses_absent_column databaseName tableName a id v w :
  col_pk a = false -> col_pk id = true -> (forall sql, prepare sql w = true) ->
  exists tu, Updater.newTableUpdater prepare databaseName tableName [a; id] [1%nat] 2 [false; true] [] DeleteRowEvent w = Ret (inl tu) /\
    Updater.tu_stmt tu = "DELETE FROM " +:+ (Updater.quoteIdentifier databaseName +:+ "." +:+ Updater.quoteIdentifier tableName)
                         +:+ " WHERE " +:+ Updater.condition (col_name id) /\
    Updater.Delete run tu [[nil_value; v]] w =
      match run (Updater.tu_stmt tu) [nil_value] w with
      | Some w' => Ret (w', None) | None => Ret (w, Some (Updater.ErrExecStmt (Updater.tu_stmt tu))) end.
Proof.
  intros Ha Hid Hp. unfold Updater.newTableUpdater, Updater.getPrimaryKeyIndices.
  cbn [Updater.pkIndices_loop lookup list_lookup]. rewrite Ha, Hid. cbn. rewrite Hp. eexists. split; [reflexivity|].
  split; reflexivity.
Qed.
End Writer.

Definition col_a : Column := mkColumn "a" (plain_type Q_INT32) false.
Definition col_id : Column := mkColumn "id" (plain_type Q_INT32) true.
Definition run0 (sql : string) (args : list Z) (w : nat) : option nat := Some (S w).

Lemma partial_update_never_applies_witness :
  Updater.Update (fun _ _ => true) run0 (fun _ _ _ => Some true) 0
    (Updater.mkUpdater false
       (fst match Updater.buildUpdateTemplate (Updater.quoteIdentifier "d" +:+ "." +:+ Updater.quoteIdentifier "t") 2 [col_id; col_a] [0%nat] [true; false] [false; true] with Ret p => p | Panic => (EmptyString, 0%nat) end)
       false EmptyString 2 [] [0%nat] []) [[1; 0]] [[0; 9]] 0%nat = Panic.
Proof.
  apply (partial_update_never_applies (fun _ _ => true) run0 (fun _ _ _ => Some true) 0 "d" "t" [col_id; col_a] [0%nat] [true; false] [false; true] _ 0%nat [1; 0] [] [0; 9] []).
  all: try reflexivity.
  - left. reflexivity.
  - left. cbn. lia.
Defined.

Lemma key_update_never_applies_witness :
  Updater.Update (fun _ _ => true) run0 (fun _ _ _ => Some true) 0
    (Updater.mkUpdater false (fst (Updater.buildInsertTemplate (Updater.quoteIdentifier "d" +:+ "." +:+ Updater.quoteIdentifier "t") 1 true)) true
       (fst match Updater.buildDeleteTemplate (Updater.quoteIdentifier "d" +:+ "." +:+ Updater.quoteIdentifier "t") 1 [col_id] [0%nat] [true] with Ret p => p | Panic => (EmptyString, 0%nat) end)
       1 [] [0%nat] [0%nat]) [[1]] [[2]] 0%nat = Panic.
Proof.
  apply (key_update_never_applies (fun _ _ => true) run0 (fun _ _ _ => Some true) 0 "d" "t" [col_id] [0%nat] 1 [true] [true] _ 0%nat 1%nat [[1]] [[2]]).
  all: reflexivity.
Defined.

Lemma minimal_delete_uses_absent_column_witness :
  exists tu, Updater.newTableUpdater (fun _ _ => true) "d" "t" [col_a; col_id] [1%nat] 2 [false; true] [] DeleteRowEvent 0%nat = Ret (inl tu) /\
    Updater.tu_stmt tu = "DELETE FROM " +:+ (Updater.quoteIdentifier "d" +:+ "." +:+ Updater.quoteIdentifier "t")
                         +:+ " WHERE " +:+ Updater.condition "id" /\
    Updater.Delete run0 tu [[0; 7]] 0%nat = Ret (1%nat, None).
Proof. apply (minimal_delete_uses_absent_column (fun _ _ => true) run0 0 "d" "t" col_a col_id 7 0%nat); reflexivity. Defined.
