(* ===== verification/ApplierClaims.v ===== *)
(** * Claims about the applier (src/binlogreplication/binlog_replica_applier.go)

    Commits on every path, the event loop's invariant, schema changes, and the
    fate of the rows of a flush that fails. *)

From S2P Require Import Prelude GoTime Charset Schema Rbr RbrFacts Identifier InternalTables Delta DeltaSpec DeltaRefine DeltaFlush.
From S2P Require Import Models Filtering Updater QueryVars RowAppend Applier ApplierFacts Durability EngineModel DeltaClaims.

Section Durable.
Context `{HA : ArrowLib} `{!EqDecision (cell num128 num256)} `{HD : !DuckDB} `{HE : !Engine}.
Context (viewHash : string -> string) (env : string).
Context {T : Type} (tab : T -> tableIdentifier) (schema_of : T -> list Column) (indexed : bool).
Context `{HF : !FlushLaws viewHash tab schema_of indexed} `{HL : !EngineLaws viewHash tab schema_of indexed}.

(** A commit makes rows and position durable together.  With a consistent buffer
    and a position to store, [commitOngoingTxn] succeeds; afterwards every buffered
    delta is applied to its table, other tables are untouched, what the transaction
    saw is what a restart finds, and the stored position is the pending one extended
    by the current transaction (or not, for the commit a statement causes before it
    runs), so a restart neither skips nor repeats a change. *)
Theorem commit_is_durable now kind reason s ts :
  indexed = negb (IsReplicationWithoutIndex env) -> tables s = tables_of tab ts -> NoDup (map (fun p => tab p.1) ts) ->
  flushable viewHash tab schema_of indexed ts (world s) -> Position_IsZero (committed_position kind s) = false ->
  exists s', commitOngoingTxn viewHash env now kind reason s = Ret (s', None) /\
    applied viewHash tab schema_of indexed ts (world s) (world s') /\
    all_durable viewHash tab schema_of indexed (world s') /\
    durable_position viewHash tab schema_of indexed (world s') = Position_String (committed_position kind s) /\
    currentPosition s' = committed_position kind s /\ tables s' = after_flush tab reason ts.
Proof. apply commit_durable. Qed.

Context `{HB : !RollbackLaws viewHash tab schema_of indexed}.

End Durable.

Section Commits.
Context `{HA : ArrowLib} `{Codecs} `{VitessLib} `{HD : !DuckDB} `{HE : !Engine}.
Context (dict_nil : cell num128 num256) (viewHash : string -> string) (env : string) (filters : option filterConfiguration).

(** what a successful commit leaves in memory, for every kind of commit: the
    committed position is the pending one, extended by the current GTID unless the
    commit precedes a statement; no batch, no dirty data, statement numbers restart at
    zero, the buffer size is zero, the commit time is now; and the buffer is gone
    after a schema change. *)
Theorem commit_effect now kind reason s s' : commitOngoingTxn viewHash env now kind reason s = Ret (s', None) ->
  currentPosition s' = committed_position kind s /\ pendingPosition s' = committed_position kind s /\
  ongoingBatchTxn s' = false /\ dirtyTxn s' = false /\ dirtyStream s' = false /\ inTxnStmtID s' = 0 /\
  deltaBufSize s' = 0 /\ lastCommitTime s' = now /\ (reason = DDLStmtFlushReason -> tables s' = []).
Proof.
  intros E. apply commit_ok in E.
  destruct E as (H1 & H2 & H3 & H4 & H5 & H6 & H7 & H8 & _ & _ & _ & H9). repeat (split; [assumption|]). exact H9.
Qed.

(** a commit that fails, at the flush, at the position store or at the session,
    leaves the committed position, the transaction flags and the statement number as
    they were, so the loop still knows that a transaction is open. *)
Theorem commit_failure_keeps now kind reason s s' e : commitOngoingTxn viewHash env now kind reason s = Ret (s', Some e) ->
  currentPosition s' = currentPosition s /\ ongoingBatchTxn s' = ongoingBatchTxn s /\ dirtyTxn s' = dirtyTxn s /\
  dirtyStream s' = dirtyStream s /\ inTxnStmtID s' = inTxnStmtID s /\
  (pendingPosition s' = pendingPosition s \/ pendingPosition s' = committed_position kind s).
Proof. apply commit_err. Qed.

(** C34: over every run of the event loop, whatever events, errors, reconnections and
    ticks it sees, an ongoing batch and an unfinished stream are always inside a dirty
    transaction and the statement number stays a 64-bit counter. *)
Theorem run_keeps_invariant s inputs s' : loop_inv s -> run dict_nil viewHash env filters s inputs s' -> loop_inv s'.
Proof. intros Hi Hr. eapply inv_run; eauto. Qed.

(** A statement that changes a schema is applied in a transaction of its own: when
    [executeQueryWithEngine] succeeds, no appender and no cached table of the old schema
    is left, the committed position includes the statement's GTID and excludes nothing
    pending, and no transaction is open. *)
Theorem schema_change_is_isolated now q node s s' :
  q_Database q <> "mysql" -> PrepareQuery (q_Database q) (q_SQL q) (world s) = Some node -> CauseSchemaChange node = true ->
  executeQueryWithEngine viewHash env now q s = Ret (s', None) ->
  tables s' = [] /\ tablesByName s' = ∅ /\ currentPosition s' = AppendGTID (pendingPosition s) (currentGtid s) /\
  ongoingBatchTxn s' = false /\ dirtyTxn s' = false /\ dirtyStream s' = false.
Proof. apply schema_change_ok. Qed.

End Commits.

(** ** Witnesses *)
Definition gtid7 : GTID := Mysql56GTID [1; 1] 7.

(** An applier in the middle of a batch that already holds an earlier transaction. *)
Definition applier0 (ts : Tables) : Applier :=
  mkApplier (Some (mkFormat 19 0)) ∅ ∅ (Some gtid7) None "uuid" [] [Mysql56GTID [1; 1] 6] true true false 2 64 1000 ts example_db None.

Lemma commit_is_durable_witness :
  exists s', commitOngoingTxn hash0 "off" 1300 NormalCommit TimeTickFlushReason (applier0 (tables_of tab0 [(tt, example_appender)])) = Ret (s', None) /\
    applied hash0 tab0 schema_of0 true [(tt, example_appender)] example_db (world s') /\
    all_durable hash0 tab0 schema_of0 true (world s') /\
    durable_position hash0 tab0 schema_of0 true (world s') = "6,7" /\
    currentPosition s' = [Mysql56GTID [1; 1] 6; gtid7] /\ tables s' = [(t0, flushed example_appender)].
Proof.
  apply (commit_is_durable hash0 "off" tab0 schema_of0 true (HF := flush_model_laws true) (HL := engine_model_laws true)
    1300 NormalCommit TimeTickFlushReason (applier0 (tables_of tab0 [(tt, example_appender)])) [(tt, example_appender)]).
  - reflexivity.
  - reflexivity.
  - cbn. repeat constructor. intros Hn. inversion Hn.
  - intros i a Hin. apply list_elem_of_singleton in Hin. injection Hin as -> ->.
    split; [discriminate|]. split; [exact example_unique | apply example_delta_ok].
  - reflexivity.
Defined.

(** Whether a handler returns, and with which kind of result. *)
Definition succeeds (r : res) : bool := match r with Ret (_, None) => true | _ => false end.
Definition empty_position (r : res) : bool := match r with Ret (_, Some ErrEmptyPosition) => true | _ => false end.
Definition flush_fails (r : res) : bool := match r with Ret (_, Some (ErrFlush _)) => true | _ => false end.

Lemma succeeds_spec r : succeeds r = true -> exists s, r = Ret (s, None).
Proof. destruct r as [[s [e|]]|]; [discriminate | eauto | discriminate]. Qed.
Lemma empty_position_spec r : empty_position r = true -> exists s, r = Ret (s, Some ErrEmptyPosition).
Proof. destruct r as [[s [[]|]]|]; try discriminate. eauto. Qed.
Lemma flush_fails_spec r : flush_fails r = true -> exists s e, r = Ret (s, Some (ErrFlush e)).
Proof. destruct r as [[s [[]|]]|]; try discriminate. eauto. Qed.

Lemma commit_effect_witness :
  exists s', commitOngoingTxn hash0 "off" 1300 NormalCommit DDLStmtFlushReason (applier0 [(t0, empty_appender)]) = Ret (s', None) /\
    currentPosition s' = [Mysql56GTID [1; 1] 6; gtid7] /\ pendingPosition s' = [Mysql56GTID [1; 1] 6; gtid7] /\
    ongoingBatchTxn s' = false /\ dirtyTxn s' = false /\ dirtyStream s' = false /\ inTxnStmtID s' = 0 /\
    deltaBufSize s' = 0 /\ lastCommitTime s' = 1300 /\ (DDLStmtFlushReason = DDLStmtFlushReason -> tables s' = []).
Proof.
  destruct (succeeds_spec (commitOngoingTxn hash0 "off" 1300 NormalCommit DDLStmtFlushReason (applier0 [(t0, empty_appender)])))
    as [s' E]; [vm_compute; reflexivity|].
  exists s'. split; [exact E|]. apply (commit_effect _ _ _ _ _ _ _ E).
Defined.

(** With no position to store the commit fails after the flush. *)
Definition no_position : Applier := set_pendingPosition [] (set_currentGtid None (applier0 [])).

Lemma commit_failure_keeps_witness :
  exists s', commitOngoingTxn hash0 "off" 1300 NormalCommit UnknownFlushReason no_position = Ret (s', Some ErrEmptyPosition) /\
    currentPosition s' = [] /\ ongoingBatchTxn s' = true /\ dirtyTxn s' = true /\ dirtyStream s' = false /\ inTxnStmtID s' = 2 /\
    (pendingPosition s' = [] \/ pendingPosition s' = []).
Proof.
  destruct (empty_position_spec (commitOngoingTxn hash0 "off" 1300 NormalCommit UnknownFlushReason no_position))
    as [s' E]; [vm_compute; reflexivity|].
  exists s'. split; [exact E|]. apply (commit_failure_keeps _ _ _ _ _ _ _ _ E).
Defined.

(** A stream of one transaction: format, GTID, a row event, XID; then a tick that ends
    the batch. *)
Definition fresh : Applier :=
  mkApplier None ∅ ∅ None None "uuid" [] [] false false false 0 0 1000 [] example_db None.
Definition stream : list (Z * Input) :=
  [ (1000, InEvent (EvFormatDescription (Some (mkFormat 19 0))));
    (1010, InEvent (EvGTID (fun _ => Some (gtid7, true))));
    (1020, InEvent (EvTableMap (fun _ => 5) (fun _ => Some example_tm)));
    (1030, InEvent (EvRows InsertRowEvent (fun _ => 5) (fun _ _ => Some (mkRows 1 [] [true; true] [insert_row]))));
    (1040, InEvent EvXID);
    (1300, InTick) ].

Fixpoint run_stream (inputs : list (Z * Input)) (s : Applier) : outcome Applier :=
  match inputs with
  | [] => Ret s
  | (now, input) :: rest => s ← loop_turn CNull hash0 "off" None now [] input s; run_stream rest s
  end.

Lemma run_stream_run inputs : forall s s', run_stream inputs s = Ret s' -> run CNull hash0 "off" None s inputs s'.
Proof.
  induction inputs as [|[now input] rest IH]; intros s s' E; cbn [run_stream] in E; [injection E as <-; constructor|].
  apply bind_Ret_inv in E. destruct E as (s1 & E1 & E). econstructor; [exact E1 | apply IH, E].
Qed.

Definition at_position (p : list GTID) (o : outcome Applier) : bool :=
  match o with Ret s => bool_decide (currentPosition s = p) | Panic => false end.
Lemma at_position_spec p o : at_position p o = true -> exists s, o = Ret s /\ currentPosition s = p.
Proof. destruct o as [s|]; [|discriminate]. intros Hp. apply bool_decide_eq_true in Hp. eauto. Qed.

Lemma run_keeps_invariant_witness :
  exists s', run CNull hash0 "off" None fresh stream s' /\ currentPosition s' = [gtid7] /\ loop_inv s'.
Proof.
  destruct (at_position_spec [gtid7] (run_stream stream fresh)) as (s' & E & Hp); [vm_compute; reflexivity|].
  apply run_stream_run in E. exists s'. split; [exact E|]. split; [exact Hp|].
  apply (run_keeps_invariant CNull hash0 "off" None fresh stream s'); [|exact E].
  split; cbn; [discriminate | discriminate | lia].
Defined.

Lemma schema_change_is_isolated_witness :
  exists s', executeQueryWithEngine hash0 "off" 1050 (mkQuery "db" "DROP TABLE x") (applier0 [(t0, empty_appender)]) = Ret (s', None) /\
    tables s' = [] /\ tablesByName s' = ∅ /\ currentPosition s' = [Mysql56GTID [1; 1] 6; gtid7] /\
    ongoingBatchTxn s' = false /\ dirtyTxn s' = false /\ dirtyStream s' = false.
Proof.
  destruct (succeeds_spec (executeQueryWithEngine hash0 "off" 1050 (mkQuery "db" "DROP TABLE x") (applier0 [(t0, empty_appender)])))
    as [s' E]; [vm_compute; reflexivity|].
  exists s'. split; [exact E|].
  apply (schema_change_is_isolated hash0 "off" 1050 (mkQuery "db" "DROP TABLE x") DropTable (applier0 [(t0, empty_appender)]));
    [discriminate | reflexivity | reflexivity | exact E].
Defined.

(** An update and an insert, one of a row whose key is NULL: the table refuses it. *)
Definition null_key : DeltaAppender :=
  mkAppender (delta_schema schema0) (example_fields [header_cells CNull InsertRowEvent g0 3 ++ [CNull; CInt 50]]) (mkCounters 0 1 1 0 1).
Definition failing : Applier := applier0 (tables_of tab0 [(tt, null_key)]).
Definition after (r : res) : Applier := match r with Ret (s, _) => s | Panic => failing end.

