(* ===== verification/ReplayClaims.v ===== *)
(** * Claims about whole streams: the replica holds what the source committed *)

From S2P Require Import Prelude GoTime Charset Schema Rbr RbrFacts Identifier InternalTables Delta DeltaSpec DeltaRefine DeltaFlush.
From S2P Require Import Models Filtering Updater QueryVars RowAppend RowDecode ReplaySpec Applier ApplierFacts Durability Replay EngineModel.
From S2P Require Import DeltaClaims.

Section EndToEnd.
Context `{HA : ArrowLib} `{HC : Codecs} `{HV : VitessLib} `{HQ : !EqDecision (cell num128 num256)} `{HD : !DuckDB} `{HE : !Engine}.
Context (dict_nil : cell num128 num256) (viewHash : string -> string) (env : string) (filters : option filterConfiguration).
Context {T : Type} `{!EqDecision T} (tab : T -> tableIdentifier) `{!Inj (=) (=) tab} (schema_of : T -> list Column) (indexed : bool).
Context `{HF : !FlushLaws viewHash tab schema_of indexed} `{HL : !EngineLaws viewHash tab schema_of indexed}.
Context `{HR : !ReplayLaws viewHash tab schema_of indexed} (pks : T -> list nat) (fmt : Format).

(** C1: Exactly-once replication, end to end.  From a replica that agrees with the
    source, a stream that presents a history of transactions is processed without an error
    or a panic; the tables together with what is buffered are then the source's, and when
    the loop is stopped a restart finds exactly the source's rows and the position of
    exactly that history.  The transactions are in the order of their GTIDs and consist of
    changes of rows with full images that decode, each a table map and a row event without
    flags, in user tables with a primary key that are not filtered out and differ in more than case; each is begun by a
    GTID event as in MariaDB or by a GTID event and the query BEGIN as in MySQL, and ended
    by an XID or COMMIT.  Any clock; ticks anywhere but between that GTID event and its
    BEGIN; idle events, rotations; batches extended or committed as time and memory demand;
    fewer than 2^64 statements in a batch, and nothing failing in the engine. *)
Theorem replica_follows_source src P txns inputs s :
  (forall i, table_ok tab schema_of pks i) -> (forall i j, key_of tab i = key_of tab j -> i = j) ->
  indexed = negb (IsReplicationWithoutIndex env) ->
  stream fmt Between txns inputs -> between dict_nil viewHash tab schema_of indexed pks fmt src P [] s ->
  valid_txns dict_nil filters tab schema_of (currentGtid s) src txns -> inTxnStmtID s + statements txns < 2 ^ 64 ->
  exists s', run dict_nil viewHash env filters s inputs s' /\ lastSqlError s' = lastSqlError s /\
    tracks dict_nil viewHash tab schema_of indexed pks (replay schema_of src txns) s' /\
    forall now, exists s'', loop_stop viewHash env now s' = Ret s'' /\ lastSqlError s'' = lastSqlError s /\
      saved viewHash tab schema_of indexed (replay schema_of src txns) (position_after P txns) (world s'').
Proof.
  intros Ht Hk Hi Hst Hb Hv Hn.
  destruct (replay_stream dict_nil viewHash env filters tab schema_of indexed pks Ht Hk Hi fmt src P txns inputs s Hst Hb Hv Hn)
    as [(s' & Hr & Htr & He & Hstop) _].
  exists s'. split; [exact Hr|]. split; [exact He|]. split; [exact Htr|].
  intros now. destruct (Hstop now) as (s'' & E & Hs & He'). exists s''. auto.
Qed.

(** C2: A crash loses nothing and repeats nothing.  At every moment of a stream as in C1
    (after any prefix of its inputs) what is durable is the state after a prefix of the
    history together with the position of that same prefix, so a restart resumes with
    the first transaction whose rows are missing.  The tick between MySQL's GTID event
    and its BEGIN is excluded, and has to be: see [tick_before_begin_skips]. *)
Theorem crash_leaves_a_prefix src P txns inputs s :
  (forall i, table_ok tab schema_of pks i) -> (forall i j, key_of tab i = key_of tab j -> i = j) ->
  indexed = negb (IsReplicationWithoutIndex env) ->
  stream fmt Between txns inputs -> between dict_nil viewHash tab schema_of indexed pks fmt src P [] s ->
  valid_txns dict_nil filters tab schema_of (currentGtid s) src txns -> inTxnStmtID s + statements txns < 2 ^ 64 ->
  forall seen unseen, inputs = seen ++ unseen ->
  exists s' done rest, run dict_nil viewHash env filters s seen s' /\ txns = done ++ rest /\
    saved viewHash tab schema_of indexed (replay schema_of src done) (position_after P done) (world s').
Proof.
  intros Ht Hk Hi Hst Hb Hv Hn seen unseen E.
  destruct (replay_stream dict_nil viewHash env filters tab schema_of indexed pks Ht Hk Hi fmt src P txns inputs s Hst Hb Hv Hn) as [_ Hp].
  destruct (Hp seen unseen E) as (s' & Hr & done & rest & Et & Hs). exists s', done, rest. auto.
Qed.
End EndToEnd.

(** ** Witnesses *)

(** A table with one row; a transaction that inserts a row and one that updates the other. *)
Definition rows0 : list row := [[CInt 1; CInt 10]].
Definition src1 (_ : unit) : list row := rows0.
Definition db1 : @db arrow_model duckdb_model := mkMem rows0 EmptyString None None (rows0, EmptyString) false false.
Definition fmt0 : Format := mkFormat 19 1.
Definition pks0 (_ : unit) : list nat := [0%nat].
Definition replica0 : Applier := mkApplier (Some fmt0) ∅ ∅ None None EmptyString [] [] false false false 0 0 1000 [] db1 None.

Definition update_row : Row :=
  mkRow (of_bytes (le_bytes 4 1 ++ le_bytes 4 10)) [false; false] (of_bytes (le_bytes 4 1 ++ le_bytes 4 11)) [false; false].
Definition change1 : Change :=
  mkChange tt 5 example_tm InsertRowEvent (mkRows 1 [] [true; true] [insert_row]) [] [[CInt 5; CInt 50]].
Definition change2 : Change :=
  mkChange tt 5 example_tm UpdateRowEvent (mkRows 1 [true; true] [true; true] [update_row]) [[CInt 1; CInt 10]] [[CInt 1; CInt 11]].
Definition gtid_no (n : Z) : GTID := Mysql56GTID [1; 1] n.
Definition history : list Txn := [mkTxn (gtid_no 7) [change1]; mkTxn (gtid_no 8) [change2]].

Definition ev_gtid (n : Z) : BinlogEvent := EvGTID (fun _ => Some (gtid_no n, true)).
Definition ev_map : BinlogEvent := EvTableMap (fun _ => 5) (fun _ => Some example_tm).
Definition ev_rows (c : Change (T := unit)) : BinlogEvent := EvRows (ch_kind c) (fun _ => 5) (fun _ _ => Some (ch_rows c)).
Definition query_bytes : slice := of_bytes (replicate 32 0).
Definition ev_query (sql : string) : BinlogEvent := EvQuery (fun _ => Some (mkQuery "db" sql)) query_bytes.
Definition ev_announce (n : Z) : BinlogEvent := EvGTID (fun _ => Some (gtid_no n, false)).

(** The first transaction as MariaDB logs it, the second as MySQL does. *)
Definition seen : list (Z * Input) :=
  [ (1010, InEvent (ev_gtid 7)); (1020, InEvent ev_map); (1030, InEvent (ev_rows change1)); (1040, InEvent EvXID);
    (1100, InTick); (1105, InEvent EvHeartbeat); (1110, InEvent (ev_announce 8)); (1115, InEvent (ev_query "BEGIN")); (1120, InEvent ev_map) ].
Definition unseen : list (Z * Input) :=
  [ (1125, InTick); (1130, InEvent (ev_rows change2)); (1300, InTick); (1310, InEvent EvXID); (1320, InEvent EvRotate);
    (1330, InEvent (EvFormatDescription (Some fmt0))) ].

Lemma model_presents raw : (forall f, raw <> EvFormatDescription f) -> presents fmt0 raw raw.
Proof. intros Hn. split; [exact Hn | reflexivity]. Qed.

Ltac presented := apply model_presents; discriminate.

Lemma history_stream : stream fmt0 Between history (seen ++ unseen).
Proof.
  eapply stream_begin; [presented | reflexivity |].
  eapply (stream_map _ _ change1); [presented | reflexivity | reflexivity |].
  eapply (stream_rows _ _ change1); [presented | reflexivity | reflexivity |].
  eapply stream_commit; [presented|]. apply stream_tick; [reflexivity|].
  apply stream_idle; [right; exists EvHeartbeat; split; [presented | exact I]|].
  eapply stream_gtid; [presented | reflexivity |]. eapply stream_begin_query; [presented | reflexivity | vm_compute; reflexivity |].
  eapply (stream_map _ _ change2); [presented | reflexivity | reflexivity |]. apply stream_tick; [reflexivity|].
  eapply (stream_rows _ _ change2); [presented | reflexivity | reflexivity |].
  apply stream_tick; [reflexivity|]. eapply stream_commit; [presented|]. apply stream_rotate; [presented|].
  apply stream_idle; [left; reflexivity|]. apply stream_end.
Qed.

Lemma tables0_ok i : table_ok tab0 schema_of0 pks0 i.
Proof. split; try reflexivity; discriminate. Qed.

Lemma replica0_between indexed :
  between CNull hash0 tab0 schema_of0 indexed pks0 fmt0 src1 [] [] replica0 (HF := flush_model_laws indexed) (HL := engine_model_laws indexed).
Proof.
  assert (Hs : saved hash0 tab0 schema_of0 indexed src1 [] db1 (HF := flush_model_laws indexed) (HL := engine_model_laws indexed)).
  { split; [intros i; reflexivity | reflexivity]. }
  split; try reflexivity; try discriminate; [|exists [], []; split; [reflexivity | exact Hs] | intros _; exact Hs].
  exists []. split; cbn; try reflexivity; try lia.
  - constructor.
  - intros i a Hi. inversion Hi.
  - intros i. unfold unique_keys. cbn. apply NoDup_singleton.
  - intros i info. rewrite lookup_empty. discriminate.
Qed.

Lemma no_null_int z : no_null [CInt z : cell num128 num256].
Proof. unfold no_null. rewrite list_elem_of_singleton. discriminate. Qed.

Lemma change1_ok : change_ok None tab0 schema_of0 src1 change1.
Proof.
  split; try reflexivity; try discriminate.
  - split; reflexivity.
  - constructor.
  - repeat constructor. exists 8. reflexivity.
  - split; [constructor|]. split; [apply NoDup_singleton|]. split; [repeat constructor; apply no_null_int|].
    intros r Hr. apply list_elem_of_singleton in Hr. subst. cbn. rewrite list_elem_of_singleton. discriminate.
Qed.

Definition src2 : unit -> list row := apply_txn schema_of0 src1 (mkTxn (gtid_no 7) [change1]).

Lemma change2_ok : change_ok None tab0 schema_of0 src2 change2.
Proof.
  split; try reflexivity; try discriminate.
  - split; reflexivity.
  - repeat constructor. exists 8. reflexivity.
  - repeat constructor. exists 8. reflexivity.
  - split; [apply NoDup_singleton|]. split; [apply NoDup_singleton|]. split; [repeat constructor; apply no_null_int|].
    intros r Hr. apply list_elem_of_singleton in Hr. subst.
    intros Hk. change (foldl _ (src2 _) _) with [[CInt 5 : cell num128 num256; CInt 50]] in Hk. cbn in Hk.
    apply list_elem_of_singleton in Hk. discriminate.
Qed.

Lemma history_valid : valid_txns CNull None tab0 schema_of0 None src1 history.
Proof.
  split; [intros m m'; reflexivity|]. split; [split; [exact change1_ok | exact I]|].
  split; [intros m m'; reflexivity|]. split; [split; [exact change2_ok | exact I] | exact I].
Qed.

#[local] Instance tab0_inj : Inj (=) (=) tab0.
Proof. intros [] [] _. reflexivity. Qed.

Lemma replica_follows_source_witness :
  replay schema_of0 src1 history tt = [[CInt 5; CInt 50]; [CInt 1; CInt 11]] /\
  exists s', run CNull hash0 "off" None replica0 (seen ++ unseen) s' /\ lastSqlError s' = None /\
    tracks CNull hash0 tab0 schema_of0 true pks0 (replay schema_of0 src1 history) s' /\
    forall now, exists s'', loop_stop hash0 "off" now s' = Ret s'' /\ lastSqlError s'' = None /\
      saved hash0 tab0 schema_of0 true (replay schema_of0 src1 history) [gtid_no 7; gtid_no 8] (world s'').
Proof.
  split; [reflexivity|].
  apply (replica_follows_source CNull hash0 "off" None tab0 schema_of0 true (HF := flush_model_laws true) (HL := engine_model_laws true)
    (HR := replay_model_laws true) pks0 fmt0 src1 [] history (seen ++ unseen) replica0).
  - exact tables0_ok.
  - intros [] [] _. reflexivity.
  - reflexivity.
  - exact history_stream.
  - apply replica0_between.
  - exact history_valid.
  - vm_compute. reflexivity.
Defined.

Lemma crash_leaves_a_prefix_witness :
  exists s' done rest, run CNull hash0 "off" None replica0 seen s' /\ history = done ++ rest /\
    saved hash0 tab0 schema_of0 true (replay schema_of0 src1 done) (position_after [] done) (world s').
Proof.
  apply (crash_leaves_a_prefix CNull hash0 "off" None tab0 schema_of0 true (HF := flush_model_laws true) (HL := engine_model_laws true)
    (HR := replay_model_laws true) pks0 fmt0 src1 [] history (seen ++ unseen) replica0) with (unseen := unseen).
  - exact tables0_ok.
  - intros [] [] _. reflexivity.
  - reflexivity.
  - exact history_stream.
  - apply replica0_between.
  - exact history_valid.
  - vm_compute. reflexivity.
  - reflexivity.
Defined.

(** ** The tick between a GTID event and its BEGIN *)
Fixpoint drive (inputs : list (Z * Input)) (s : Applier) : outcome Applier :=
  match inputs with
  | [] => Ret s
  | (now, input) :: rest => s ← loop_turn CNull hash0 "off" None now [] input s; drive rest s
  end.

(** The same transactions as MySQL logs them, the loop's timer firing 200 ms after
    the last commit, between the second GTID event and its BEGIN. *)
Definition early_tick : list (Z * Input) :=
  [ (1010, InEvent (ev_announce 7)); (1015, InEvent (ev_query "BEGIN")); (1020, InEvent ev_map); (1030, InEvent (ev_rows change1));
    (1040, InEvent EvXID); (1250, InEvent (ev_announce 8)); (1255, InTick) ].

(** The stored position then covers transaction 8, none of whose rows were even
    received: a restart would not ask for it again. *)
Example tick_before_begin_skips :
  (fun s => (m_durable (world s), currentPosition s)) <$> (match drive early_tick replica0 with Ret s => Some s | Panic => None end) =
  Some (([[CInt 1; CInt 10]; [CInt 5; CInt 50]], "7,8"%string), [gtid_no 7; gtid_no 8]).
Proof. vm_compute. reflexivity. Qed.
