(* ===== verification/LogreplClaims.v ===== *)
(** * Claims about logical replication from PostgreSQL *)

From S2P Require Import Prelude GoTime Charset Schema Identifier InternalTables Delta DeltaSpec DeltaRefine DeltaFlush Models.
From S2P Require Import RowAppend RowDecode ReplaySpec PgDecode Session Logrepl LogreplRows LogreplReplay PgModel.

#[local] Open Scope Z_scope.

Section EndToEnd.
Context `{HA : ArrowLib} `{HG : PgCodecs} `{HQ : !EqDecision (cell num128 num256)} `{HD : !DuckDB} `{HS : !Session} `{HP : PgLogRepl}.
Context (viewHash : string -> string) (env subscription : string).
Context {T : Type} `{!EqDecision T} (tab : T -> tableIdentifier) `{!Inj (=) (=) tab} (schema_of : T -> list Column)
  (rel_of : T -> RelationMessage) (indexed : bool).
Context `{HF : !FlushLaws viewHash tab schema_of indexed} `{HL : !PgLaws viewHash env subscription tab schema_of rel_of indexed}.

Abbreviation saved := (saved viewHash env subscription tab schema_of rel_of indexed).
Abbreviation reopened := (reopened viewHash env subscription tab schema_of rel_of indexed).
Abbreviation tracks := (tracks viewHash tab schema_of rel_of indexed).
Abbreviation step := (step viewHash env subscription tab schema_of rel_of indexed).
Abbreviation valid_txns := (valid_txns schema_of rel_of).
Abbreviation replay := (replay schema_of).
Abbreviation tables_ok := (forall i, table_ok tab schema_of rel_of i).
Abbreviation distinct_ids := (forall i j, id_of rel_of i = id_of rel_of j -> i = j).

Lemma reachable_inv src0 L0 H now slot d w c0 r0 r c :
  tables_ok -> distinct_ids -> indexed = negb (IsReplicationWithoutIndex env) -> 0 <= L0 < 2 ^ 64 - 1 -> valid_txns L0 src0 H ->
  saved src0 L0 d -> reopened d w -> start subscription now slot w = Ret (inl r0) -> rtc (step H) (r0, c0) (r, c) ->
  sys_inv viewHash env subscription tab schema_of rel_of indexed src0 L0 H r c.
Proof.
  intros Ht Hids Hix HL0 HH Hs Hw Est Hr.
  destruct (start_ok viewHash env subscription tab schema_of rel_of indexed src0 L0 HL0 H HH now slot [] H d w eq_refl Hs Hw) as (r1 & E & Hb & Hc & _).
  rewrite Est in E. injection E as <-.
  refine (steps_inv viewHash env subscription tab schema_of rel_of indexed Ht Hids Hix src0 L0 HL0 H HH (r0, c0) (r, c) Hr _).
  split; [exact Hb | cbn; congruence].
Qed.

(** The contract of the publisher in C3 to C7.  The history is one of
    [valid_txns]: transactions of inserts, updates and deletes on tables with a key,
    each change possible when it comes, whose tuples have a value that decodes for every
    column (no unchanged TOAST values) and whose key tuples have the key in the first
    columns.  A connection ([feeds]) carries each transaction as BEGIN, its changes and
    COMMIT, every relation once before its first change, with keepalives and messages
    that belong to no transaction in between: no TRUNCATE, no streamed transactions, no
    relation twice; and no turn drops a message of a transaction because a tick or a
    deadline comes first.  Section Limits shows what the loop does with each of those. *)

(** C3: a PostgreSQL replica follows its publisher through reconnections, crashes
    and restarts.  Take a history of transactions of inserts, updates and deletes in
    tables with a key, in which every tuple has a value that decodes for each column
    (no unchanged TOAST value) and key tuples have the key columns first; a replica
    whose tables are its initial state; and any run of the loop on connections that
    carry the transactions as BEGIN, changes and COMMIT (no TRUNCATE, no streaming
    before the commit), with each relation announced once per connection, and on which
    no tick or deadline drops a message of a transaction: keepalives, ticks, lost
    connections, refused ones, crashes and restarts anywhere, any clock.  At every moment
    what is durable is the state after a prefix of the history with the LSN of exactly
    that prefix; and while a connection lasts the tables with what is buffered are the
    publisher's at the point of the stream that was received. *)
Theorem pg_replica_follows_publisher src0 L0 H now slot d w c0 r0 r c :
  tables_ok -> distinct_ids -> indexed = negb (IsReplicationWithoutIndex env) -> 0 <= L0 < 2 ^ 64 - 1 -> valid_txns L0 src0 H ->
  saved src0 L0 d -> reopened d w -> start subscription now slot w = Ret (inl r0) -> rtc (step H) (r0, c0) (r, c) ->
  (exists done rest, H = done ++ rest /\ saved (replay src0 done) (lsn_after L0 done) (world (state r))) /\
  (primaryConn r = true ->
   match phase c with
   | Idle hist todo => hist ++ todo = H /\ exists B, tracks (replay src0 hist) B (state r)
   | Sending hist t done rest todo => hist ++ t :: todo = H /\ tx_changes t = done ++ rest /\
       exists B, tracks (foldl (apply_change schema_of) (replay src0 hist) done) B (state r)
   end).
Proof.
  intros Ht Hids Hix HL0 HH Hs Hw Est Hr.
  destruct (reachable_inv src0 L0 H now slot d w c0 r0 r c Ht Hids Hix HL0 HH Hs Hw Est Hr) as [[[p Hp] _] Hst]. split.
  - pose proof (pg_phase_durable viewHash env subscription tab schema_of rel_of indexed src0 L0 H HH p _ Hp) as Hdur. destruct Hdur as (done & rest & E & Hsv & _). eauto.
  - intros Hc. destruct (Hst Hc) as [Hph _ _]. destruct (phase c); cbn in Hph.
    + destruct Hph as [E []]. eauto.
    + destruct Hph as (E & Ec & []). eauto.
Qed.

(** C4: nothing is acknowledged before it is durable.  In every state that such a run
    reaches (the contract of C3: in particular no message of a transaction is dropped by
    a tick or a deadline), every transaction that the publisher may discard because of a
    standby status update or of the position of a START_REPLICATION (its LSN is below
    the one that was sent) is among those whose rows and position a restart finds. *)
Theorem pg_acknowledged_is_durable src0 L0 H now slot d w c0 r0 r c :
  tables_ok -> distinct_ids -> indexed = negb (IsReplicationWithoutIndex env) -> 0 <= L0 < 2 ^ 64 - 1 -> valid_txns L0 src0 H ->
  saved src0 L0 d -> reopened d w -> start subscription now slot w = Ret (inl r0) -> rtc (step H) (r0, c0) (r, c) ->
  exists done rest, H = done ++ rest /\ saved (replay src0 done) (lsn_after L0 done) (world (state r)) /\
    forall e t, e ∈ sent r -> t ∈ H ->
      match e with StatusUpdate _ flush apply => tx_lsn t < flush \/ tx_lsn t < apply | StartedAt lsn => tx_lsn t < lsn end -> t ∈ done.
Proof.
  intros Ht Hids Hix HL0 HH Hs Hw Est Hr.
  destruct (reachable_inv src0 L0 H now slot d w c0 r0 r c Ht Hids Hix HL0 HH Hs Hw Est Hr) as [[[p Hp] Htold] _].
  pose proof (pg_phase_durable viewHash env subscription tab schema_of rel_of indexed src0 L0 H HH p _ Hp) as Hdur. destruct Hdur as (done & rest & E & Hsv & Hlw). exists done, rest. split; [exact E|]. split; [exact Hsv|].
  intros e t He Hin Hlt. rewrite Forall_forall in Htold. specialize (Htold e He).
  assert (Hle : tx_lsn t <= lsn_after L0 done) by (rewrite <- Hlw; destruct e; cbn in Htold; lia).
  rewrite E in Hin. apply elem_of_app in Hin. destruct Hin as [Hin|Hin]; [exact Hin|]. exfalso.
  rewrite E in HH. apply valid_app in HH. destruct HH as [_ Hv]. apply valid_bounds in Hv. rewrite Forall_forall in Hv. specialize (Hv t Hin). lia.
Qed.

(** C6: the loop has no failure of its own.  In every state that such a run reaches,
    and for whatever is received next within the same contract (the changes of C3, with
    tuples that decode; keepalives, ticks, failures of the connection), the turn of the
    loop returns; it ends the loop only on a stop request, on an error response of the
    primary, or when connecting, sending or receiving has failed [maxConsecutiveFailures]
    times; and the [shutdown] that then runs leaves no transaction open, everything the
    session sees in the tables durable, and that is the state after a prefix of the
    history with its LSN. *)
Theorem pg_loop_never_fails_itself src0 L0 H now slot d w c0 r0 r c t c' :
  tables_ok -> distinct_ids -> indexed = negb (IsReplicationWithoutIndex env) -> 0 <= L0 < 2 ^ 64 - 1 -> valid_txns L0 src0 H ->
  saved src0 L0 d -> reopened d w -> start subscription now slot w = Ret (inl r0) -> rtc (step H) (r0, c0) (r, c) ->
  feeds rel_of H r c t c' ->
  exists r' e, loop_turn viewHash env subscription t r = Ret (r', e) /\ turn_end t r' e /\
    forall now', exists r'', shutdown viewHash env subscription now' r' = Ret r'' /\ TryGetTxn (world (state r'')) = None /\
      (forall i, rows_in viewHash tab schema_of indexed i (world (state r'')) =
                 durable_rows viewHash env subscription tab schema_of rel_of indexed i (world (state r''))) /\
      exists done rest, H = done ++ rest /\ saved (replay src0 done) (lsn_after L0 done) (world (state r'')).
Proof.
  intros Ht Hids Hix HL0 HH Hs Hw Est Hr Hf.
  pose proof (reachable_inv src0 L0 H now slot d w c0 r0 r c Ht Hids Hix HL0 HH Hs Hw Est Hr) as Hi.
  destruct (turn_ok viewHash env subscription tab schema_of rel_of indexed Ht Hids Hix src0 L0 HL0 H HH t r c c' Hi Hf) as (r' & e & E & Hb & _ & He).
  exists r', e. split; [exact E|]. split; [exact He|]. intros now'.
  destruct (shutdown_ok viewHash env subscription tab schema_of rel_of indexed Ht Hix src0 L0 HL0 H HH now' r' Hb) as (r'' & E'' & (done & rest & EH & Hsv & _) & Hv & Hn).
  exists r''. split; [exact E''|]. split; [exact Hn|]. split; [exact Hv|]. eauto.
Qed.

(** C5: progress.  Once a transaction with at least one change has been delivered
    whole, message by message with nothing failing and no tick in between, the first
    tick more than [flushInterval] after the last commit makes it durable with its LSN,
    and tells the publisher that everything up to it is flushed. *)
Theorem pg_transaction_becomes_durable src0 L0 H now slot d w c0 r0 r c hist t todo ts c' :
  tables_ok -> distinct_ids -> indexed = negb (IsReplicationWithoutIndex env) -> 0 <= L0 < 2 ^ 64 - 1 -> valid_txns L0 src0 H ->
  saved src0 L0 d -> reopened d w -> start subscription now slot w = Ret (inl r0) -> rtc (step H) (r0, c0) (r, c) ->
  primaryConn r = true -> phase c = Idle hist (t :: todo) -> tx_changes t <> [] -> delivers rel_of hist t todo c ts c' ->
  exists r1, run viewHash env subscription r ts r1 Continue /\
    forall tick, t_stop tick = false -> t_send tick = true -> t_received tick = TickerFired None ->
      flushInterval < t_now tick - lastCommitTime (state r1) ->
      exists r2 received earlier, loop_turn viewHash env subscription tick r1 = Ret (r2, Continue) /\
        saved (replay src0 (hist ++ [t])) (tx_lsn t) (world (state r2)) /\
        sent r2 = earlier ++ [StatusUpdate received (tx_lsn t + 1) (tx_lsn t + 1)].
Proof.
  intros Ht Hids Hix HL0 HH Hs Hw Est Hr Hc Hph Hne Hd.
  destruct (reachable_inv src0 L0 H now slot d w c0 r0 r c Ht Hids Hix HL0 HH Hs Hw Est Hr) as [Hb Hst].
  destruct (deliver_run viewHash env subscription tab schema_of rel_of indexed Ht Hids Hix src0 L0 HL0 H HH hist t todo c ts c' Hd Hne (or_introl Hph) r)
    as (r1 & Hrun & Hc1 & Hp1 & Hset); [split; auto | unfold open_during; rewrite Hph; exact I|].
  exists r1. split; [exact Hrun|]. intros tick H1 H2 H3 H4.
  destruct (tick_turn viewHash env subscription tab schema_of rel_of indexed Ht Hix src0 L0 HL0 H HH tick _ todo c' r1 Hc1 Hp1 Hset H1 H2 H3 H4)
    as (r2 & E & _ & Hsv & _ & received & earlier & Esent).
  rewrite lsn_after_app in Hsv, Esent. exists r2, received, earlier. auto.
Qed.
End EndToEnd.

(** ** What the loop does outside that contract *)
Section Limits.
Context `{HA : ArrowLib} `{HG : PgCodecs} `{HD : !DuckDB} `{HS : !Session} `{HP : PgLogRepl}.
Context (viewHash : string -> string) (env subscription : string).

(** Without a transaction nothing is flushed. *)
Lemma Flush_nothing reason ts : forall st d, reason <> DDLStmtFlushReason -> exists e, Flush viewHash false env reason ts st d = Ret (d, ts, st, e).
Proof.
  induction ts as [|[t a] ts IH]; intros st d Hr; [exists None; reflexivity|]. cbn [Flush]. destruct (0 <? RowCount a)%nat.
  - exists (Some ErrNoActiveTransaction). reflexivity.
  - cbn [mbind outcome_bind]. destruct (IH st d Hr) as (e & ->). cbn [mbind outcome_bind]. rewrite decide_False by exact Hr. eauto.
Qed.

Lemma truncate_all_tables rels : forall s s' e, truncate_all rels s = Ret (s', e) -> tables s' = tables s.
Proof.
  induction rels as [|id rels IH]; intros s s' e E; cbn [truncate_all] in E; [injection E as <- _; reflexivity|].
  unfold truncate in E. destruct (relations s !! id) as [rel|]; [|injection E as <- _; reflexivity].
  destruct (ExecInTxn _ _ _) as [w []]; unfold andThen in E; cbn [mbind outcome_bind] in E; [|injection E as <- _; reflexivity].
  apply IH in E. exact E.
Qed.

(** Rows written before a TRUNCATE come back after it.  The flush that precedes a
    TRUNCATE is given no transaction and its error is dropped, so the buffer is exactly
    what it was: the statement empties the table, and the rows that were inserted before
    it in the same batch are still there to be written by the next commit. *)
Theorem truncate_leaves_the_buffer now rels s s' e :
  process_logical viewHash env subscription now (TruncateMessageV2 rels) s = Ret (s', e) -> tables s' = tables s.
Proof.
  cbn [process_logical]. unfold when_processing. destruct (processMessages s); [|intros [= <- _]; reflexivity].
  unfold process_truncate, flushDeltaBuffer. destruct (Flush_nothing DMLStmtFlushReason (tables s) zeroStats (world s) ltac:(discriminate)) as (fe & ->).
  cbn [mbind outcome_bind].
  assert (Hrest : forall s1, tables s1 = tables s -> andThen (truncate_all rels s1) (fun s => ok (mark_dirty s)) = Ret (s', e) -> tables s' = tables s).
  { intros s1 E1 E2. unfold andThen in E2. destruct (truncate_all rels s1) as [[s2 e2]|] eqn:Et; [|discriminate].
    apply truncate_all_tables in Et. cbn [mbind outcome_bind] in E2. destruct e2; injection E2 as <- _; cbn; congruence. }
  destruct fe; cbn [err ok mbind outcome_bind]; apply Hrest; reflexivity.
Qed.

(** A message that belongs to a transaction, or opens or ends a block of a streamed one. *)
Definition streamed (msg : Message) : bool :=
  match msg with
  | InsertMessageV2 _ _ | UpdateMessageV2 _ _ _ _ | DeleteMessageV2 _ _ _ | TruncateMessageV2 _
  | StreamStartMessageV2 | StreamStopMessageV2 | StreamCommitMessageV2 | StreamAbortMessageV2 => true
  | _ => false
  end.

Fixpoint process_all (now : Z) (msgs : list Message) (s : replicationState) : res :=
  match msgs with
  | [] => ok s
  | m :: ms => andThen (process_logical viewHash env subscription now m s) (process_all now ms)
  end.

(** a transaction that the publisher streams before it commits is lost.  Such a
    transaction has no BEGIN and no COMMIT, only stream blocks and a stream commit: its
    messages are all ignored, without an error, and nothing is buffered or written. *)
Theorem streamed_transaction_is_lost now msgs s : processMessages s = false -> forallb streamed msgs = true ->
  exists s', process_all now msgs s = Ret (s', None) /\ tables s' = tables s /\ world s' = world s /\ dirtyTxn s' = dirtyTxn s /\
    lastCommitLSN s' = lastCommitLSN s /\ lastWrittenLSN s' = lastWrittenLSN s.
Proof.
  revert s. induction msgs as [|m ms IH]; intros s Hp Hm; [exists s; repeat split; reflexivity|].
  cbn [forallb] in Hm. apply andb_prop in Hm. destruct Hm as [Hm Hms]. cbn [process_all].
  assert (E : exists s1, process_logical viewHash env subscription now m s = ok s1 /\ processMessages s1 = false /\ tables s1 = tables s /\ world s1 = world s /\
    dirtyTxn s1 = dirtyTxn s /\ lastCommitLSN s1 = lastCommitLSN s /\ lastWrittenLSN s1 = lastWrittenLSN s).
  { destruct m; try discriminate; cbn [process_logical]; unfold when_processing; rewrite ?Hp; eexists; (split; [reflexivity|]); repeat split; exact Hp. }
  destruct E as (s1 & -> & Hp1 & E1 & E2 & E3 & E4 & E5). unfold andThen, ok. cbn [mbind outcome_bind].
  destruct (IH s1 Hp1 Hms) as (s' & -> & F1 & F2 & F3 & F4 & F5). exists s'. split; [reflexivity|]. repeat split; congruence.
Qed.

(** an old key is misread when the key is not in the first columns.  A key tuple
    has a value for every column of the relation, NULL outside the key, but the loop
    takes its values one after the other for the key columns only: with columns before
    the key, the key of the row to delete is read as NULL. *)
Theorem key_tuple_misread (others : list RelationMessageColumn) key_col (fields : list builder) nul rest size :
  others <> [] -> Forall (fun c => is_key c = false) others -> is_key key_col = true -> length fields = S (length others) ->
  td_DataType nul = TupleDataTypeNull ->
  append_columns true (others ++ [key_col]) 0 0 (nul :: rest) fields size = Ret (map AppendNull fields, size, None).
Proof.
  intros Hne Ho Hk Hl Hn. clear Hne. generalize 0%nat at 1. revert fields Hl.
  induction others as [|md others IH]; intros fields Hl i.
  - destruct fields as [|b [|]]; try discriminate. cbn [app append_columns]. rewrite Hk. cbn [negb andb lookup list_lookup].
    rewrite Hn. reflexivity.
  - inversion Ho as [|? ? Hm Ho']; subst. destruct fields as [|b fields]; [discriminate|]. cbn [app append_columns]. rewrite Hm. cbn [negb andb].
    rewrite (IH Ho' fields) by (cbn in Hl; lia). reflexivity.
Qed.

(** A message that arrives together with a tick is lost.  The goroutine that
    receives it drops it when the tick (or the deadline) is taken first: the turn does
    exactly what it does without the message, the connection goes on, and no error is
    recorded. *)
Theorem tick_drops_a_message t t' data r : t_received t = TickerFired (Some data) -> t_received t' = TickerFired None ->
  t_now t' = t_now t -> t_stop t' = t_stop t -> t_connect t' = t_connect t -> t_send t' = t_send t ->
  loop_turn viewHash env subscription t r = loop_turn viewHash env subscription t' r.
Proof.
  destruct t as [now stop con snd rcv], t' as [now' stop' con' snd' rcv']. cbn [t_received t_now t_stop t_connect t_send].
  intros -> -> -> -> -> ->. reflexivity.
Qed.

(** ** Failures *)
Lemma retry_counts e incr r : connErrCnt r <= connErrCnt (fst (handleErrWithRetry e incr r)).
Proof. unfold handleErrWithRetry. destruct incr; cbn; destruct (_ <? _); cbn; lia. Qed.

Lemma send_counts t r : connErrCnt r <= connErrCnt (fst (sendStandbyStatusUpdate t r)).
Proof. unfold sendStandbyStatusUpdate. destruct (t_send t); [cbn; lia | apply retry_counts]. Qed.

Lemma reconnect_counts t r : connErrCnt r <= connErrCnt (fst (reconnect t r)).
Proof. unfold reconnect. destruct (t_connect t); [|apply retry_counts]. destruct (rollback _) as [w []]; cbn; lia. Qed.

Lemma received_counts t r r' e : handle_received viewHash env subscription t r = Ret (r', e) -> connErrCnt r <= connErrCnt r'.
Proof.
  assert (Hfst : forall (x : Replicator * TurnEnd) k, k <= connErrCnt (fst x) -> Ret x = Ret (r', e) -> k <= connErrCnt r') by (intros x k Hx [= ->]; exact Hx).
  unfold handle_received. destruct (t_received t); try (intros [= <- _]; cbn; lia).
  - unfold handle_tick. destruct (_ <? _); [|intros [= <- _]; lia]. destruct (commitOngoingTxnIfClean _ _ _ _ _ _) as [[s [x|]]|]; try discriminate; cbn [mbind outcome_bind].
    + intros [= <- _]. cbn. lia.
    + apply Hfst. apply (send_counts t (set_state s r)).
  - destruct e0; [intros [= <- _]; lia.. |]. apply Hfst. cbn [receive_error]. apply retry_counts.
  - unfold handle_copy_data. destruct data as [|id rest]; [discriminate|]. destruct (id =? _).
    + destruct (ParsePrimaryKeepaliveMessage rest) as [pkm|]; [|intros [= <- _]; cbn; lia].
      apply Hfst. destruct (pkm_ReplyRequested pkm); [etransitivity; [|apply send_counts]|]; cbn; lia.
    + destruct (id =? _); [|intros [= <- _]; cbn; lia]. destruct (ParseXLogData rest) as [xld|]; [|intros [= <- _]; cbn; lia].
      destruct (processMessage _ _ _ _ _ _) as [[[s b] [x|]]|]; try discriminate; cbn [mbind outcome_bind]; apply Hfst.
      * etransitivity; [|apply retry_counts]. cbn. lia.
      * destruct b; [etransitivity; [|apply send_counts]|]; cbn; lia.
Qed.

(** the count of "consecutive" failures counts all failures.  No turn of the loop
    ever lowers it, however many messages are received in between: the loop gives up
    after the tenth failure of its whole life. *)
Theorem failure_count_never_resets r ts r' e : run viewHash env subscription r ts r' e -> connErrCnt r <= connErrCnt r'.
Proof.
  assert (Ht : forall t r r' e, loop_turn viewHash env subscription t r = Ret (r', e) -> connErrCnt r <= connErrCnt r').
  { clear. intros t r r' e. unfold loop_turn. destruct (t_stop t); [intros [= <- _]; lia|].
    assert (H1 : connErrCnt r <= connErrCnt (fst (if primaryConn r then (r, Continue) else reconnect t r)))
      by (destruct (primaryConn r); [cbn; lia | apply reconnect_counts]).
    destruct (if primaryConn r then (r, Continue) else reconnect t r) as [r1 e1]. cbn in H1.
    destruct e1; try (intros [= <- _]; lia). destruct (negb _); [intros [= <- _]; lia|].
    assert (H2 : connErrCnt r1 <= connErrCnt (fst (fst (standby_due t r1)))).
    { unfold standby_due. destruct (_ && _); [|cbn; lia]. pose proof (send_counts t r1) as Hs. destruct (sendStandbyStatusUpdate t r1). exact Hs. }
    destruct (standby_due t r1) as [[r2 e2] go]. cbn in H2. destruct e2; try (intros [= <- _]; lia).
    destruct go; [|intros [= <- _]; lia]. intros E. apply received_counts in E. lia. }
  induction 1 as [r|r t r1 ts r2 e E _ IH|r t r1 e E _]; [lia | apply Ht in E; lia | apply Ht in E; exact E].
Qed.

(** C37: the loop terminates when the primary cannot be reached.  Ten turns without a
    connection end it with the connection error, whatever the rest of those turns is. *)
Theorem unreachable_primary_ends_the_loop r ts : primaryConn r = false -> connErrCnt r = 0 -> length ts = 10%nat ->
  Forall (fun t => t_connect t = false /\ t_stop t = false) ts ->
  exists r', run viewHash env subscription r ts r' (Failed ErrConnect) /\ world (state r') = world (state r).
Proof.
  assert (Hgen : forall n ts r, length ts = S n -> primaryConn r = false -> connErrCnt r + Z.of_nat n = maxConsecutiveFailures - 1 ->
    Forall (fun t => t_connect t = false /\ t_stop t = false) ts ->
    exists r', run viewHash env subscription r ts r' (Failed ErrConnect) /\ world (state r') = world (state r)).
  { clear. induction n as [|n IH]; intros [|t ts] r Hl Hc Hn Hf; try discriminate; inversion Hf as [|? ? [Hcn Hst] Hf']; subst.
    - destruct ts; [|discriminate]. eexists. split; [eapply run_end; [|discriminate]|].
      + unfold loop_turn, reconnect. rewrite Hst, Hc, Hcn. unfold handleErrWithRetry. cbn [connErrCnt set_connErrCnt].
        destruct (Z.ltb_spec (connErrCnt r + 1) maxConsecutiveFailures); [lia|]. reflexivity.
      + reflexivity.
    - destruct (IH ts (set_primaryConn false (set_connErrCnt (connErrCnt r + 1) r))) as (r' & Hr & Hw); [cbn in Hl; lia | reflexivity | cbn; lia | exact Hf'|].
      exists r'. split; [|exact Hw]. eapply run_cons; [|exact Hr].
      unfold loop_turn, reconnect. rewrite Hst, Hc, Hcn. unfold handleErrWithRetry. cbn [connErrCnt set_connErrCnt].
      destruct (Z.ltb_spec (connErrCnt r + 1) maxConsecutiveFailures); [|lia]. reflexivity. }
  intros Hc Hz Hl Hf. apply (Hgen 9%nat ts r Hl Hc); [rewrite Hz; reflexivity | exact Hf].
Qed.
End Limits.

(** ** Values *)
Section Values.
Context `{HA : ArrowLib} `{HG : PgCodecs}.

Definition builders_typed (fs : list builder) : Prop := Forall well_typed fs.

(** A builder gets at most one value; it gets exactly one when there is no error. *)
Definition grown (e : option LogreplError) (b b' : builder) : Prop :=
  b_type b' = b_type b /\ (length (b_cells b) <= length (b_cells b') <= S (length (b_cells b)))%nat /\
  (e = None -> length (b_cells b') = S (length (b_cells b))).

Lemma null_typed b : well_typed b -> well_typed (AppendNull b).
Proof. intros Hw. unfold well_typed, AppendNull, b_append. cbn. apply Forall_app_2; [exact Hw|]. constructor; [apply fits_null | constructor]. Qed.
Lemma null_grown e b : grown e b (AppendNull b).
Proof. unfold grown, AppendNull, b_append. cbn. rewrite length_app. cbn. split; [reflexivity|]. split; [lia|]. intros _. lia. Qed.
Lemma same_grown e b : e <> None -> grown e b b.
Proof. intros He. split; [reflexivity|]. split; [lia | contradiction]. Qed.

(** C35: type safety of the row decoder.  Whatever the tuple and the wire values are,
    when the columns of a message have been appended every builder keeps its type and
    has only values of that type; each has one more value, and after an error (the row
    is then incomplete) at most one more. *)
Theorem pg_row_is_well_typed onlyKeys cols i idx tuple fields size fs n e :
  append_columns onlyKeys cols i idx tuple fields size = Ret (fs, n, e) -> length fields = length cols -> builders_typed fields ->
  builders_typed fs /\ Forall2 (grown e) fields fs.
Proof.
  revert i idx fields size fs n. induction cols as [|md cols IH]; intros i idx fields size fs n E Hl Hw.
  { destruct fields; [|discriminate]. injection E as <- _ _. split; constructor. }
  destruct fields as [|b fields]; [discriminate|]. cbn in Hl. injection Hl as Hl. inversion Hw as [|? ? Hb Hws]; subst. cbn [append_columns] in E.
  assert (Hstop : e <> None -> builders_typed fields /\ Forall2 (grown e) fields fields).
  { intros He. split; [exact Hws|]. apply Forall_Forall2_diag, Forall_true. intros x. apply same_grown, He. }
  assert (Hcont : forall b' idx' size', well_typed b' -> (forall e', grown e' b b') ->
    ('(fs, size, e) ← append_columns onlyKeys cols (S i) idx' tuple fields size'; Ret (b' :: fs, size, e)) = Ret (fs, n, e) ->
    builders_typed fs /\ Forall2 (grown e) (b :: fields) fs).
  { intros b' idx' size' Hb' Hg Ec. destruct (append_columns onlyKeys cols (S i) idx' tuple fields size') as [[[fs1 n1] e1]|] eqn:Er; [|discriminate].
    injection Ec as <- <- <-. destruct (IH _ _ _ _ _ _ Er Hl Hws) as [H1 H2]. split; constructor; auto. }
  destruct (onlyKeys && negb (is_key md)); [apply Hcont in E; [exact E | apply null_typed, Hb | intros; apply null_grown]|].
  destruct (tuple !! _) as [td|]; [|discriminate]. cbn zeta in E.
  destruct (td_DataType td =? TupleDataTypeNull); [apply Hcont in E; [exact E | apply null_typed, Hb | intros; apply null_grown]|].
  destruct (_ || _).
  - destruct (decodeToArrow md (td_Data td) (tupleDataFormat (td_DataType td)) b) as [[[b1 m] [de|]]|] eqn:Ed; cbn [mbind outcome_bind] in E; try discriminate;
      destruct (decode_typed _ _ _ _ _ _ _ Ed Hb) as (D1 & D2 & D3 & D4).
    + injection E as <- _ <-. destruct Hstop as [H1 H2]; [discriminate|]. split; constructor; auto. split; [exact D1|]. split; [exact D3 | discriminate].
    + apply Hcont in E; [exact E | exact D2|]. intros e'. split; [exact D1|]. split; [exact D3|]. intros _. apply D4. reflexivity.
  - injection E as <- _ <-. destruct Hstop as [H1 H2]; [discriminate|]. split; constructor; auto. apply same_grown. discriminate.
Qed.

(** C36: NUMERIC within bounds.  A finite value whose scaled integer is below 10^38 in
    magnitude (any value of a numeric(p, s) column with p at most 38) is appended without
    a panic, as that integer exactly, or rounded towards minus infinity when the wire
    value has more digits than the column; only a shift of 40 digits or more is an error. *)
Theorem pg_numeric_within_bounds `{!ArrowLaws} oid scale v p sc l : let x := n_Exp v + scale in
  not_a_number v = false -> - 40 < x < 40 -> Z.abs (n_Int v) * 10 ^ Z.max 0 x < 10 ^ 38 ->
  exists c, append_numeric oid scale v (mkBuilder (ADecimal128 p sc) l) = Some (Ret (mkBuilder (ADecimal128 p sc) (l ++ [CDecimal128 c]), 16, None)) /\
    value128 c = if 0 <=? x then n_Int v * 10 ^ x else n_Int v / 10 ^ (- x).
Proof.
  intros x Hn Hx Hb. unfold append_numeric. rewrite Hn. cbn [b_type]. change (is_class Decimal128Builder (ADecimal128 p sc)) with true. cbn iota.
  pose proof (rescale_exact v scale) as Hr. fold x in Hr. specialize (Hr ltac:(lia)).
  destruct (rescale v scale) as [z|err]; [|destruct Hr; lia].
  assert (Hz : Z.abs z < 2 ^ 127).
  { assert (H38 : 10 ^ 38 < 2 ^ 127) by reflexivity. destruct (Z.leb_spec 0 x) as [H0|H0]; rewrite Hr.
    - rewrite Z.abs_mul, (Z.abs_eq (10 ^ x)) by (apply Z.pow_nonneg; lia). rewrite Z.max_r in Hb by lia. lia.
    - rewrite Z.max_l in Hb by lia. change (10 ^ 0) with 1 in Hb. assert (Hd : 1 <= 10 ^ (- x)) by (apply (Z.pow_le_mono_r 10 0 (- x)); lia).
      pose proof (Z.div_mod (n_Int v) (10 ^ (- x)) ltac:(lia)). pose proof (Z.mod_pos_bound (n_Int v) (10 ^ (- x)) ltac:(lia)). nia. }
  destruct (decimal128_FromBigInt_exact z Hz) as (c & -> & Hc). cbn [mbind outcome_bind]. exists c. split; [reflexivity|]. rewrite Hc. destruct (0 <=? x); exact Hr.
Qed.
End Values.

(** ** Witnesses *)

(** A table with one row; a transaction that inserts a row and one that updates the
    other, with the bytes that stand for their messages. *)
Definition text (data : list Z) : TupleDataColumn := mkTupleCol TupleDataTypeText (Some data).
Definition null : TupleDataColumn := mkTupleCol TupleDataTypeNull None.
Definition insert5 : Change := Insert tt [text [53]; text [53; 48]] [CInt 5; CInt 50].
Definition update1 : Change := Update tt None [text [49]; text [49; 49]] [CInt 1; CInt 11].
Definition delete5 : Change := Delete tt true [text [53]; null] [CInt 5; CNull].
Definition txn1 : Txn := mkTxn 110 [insert5].
Definition txn2 : Txn := mkTxn 120 [update1; delete5].
Definition wal : list Txn := [txn1; txn2].
Definition wire : list Message :=
  [BeginMessage 110; RelationMessageV2 rel0; message_of rel_of0 insert5; CommitMessage 110;
   BeginMessage 120; message_of rel_of0 update1; message_of rel_of0 delete5; CommitMessage 120].

#[local] Instance wire0 : PgLogRepl := wire_model wire.
#[local] Instance laws0 : PgLaws hash0 "on" "sub" tab0 (schema_of_with pg_int4) rel_of0 false := pg_model_laws wire "on" false.
#[local] Instance tab0_injective : Inj (=) (=) tab0.
Proof. intros [] [] _. reflexivity. Qed.

Definition pub_rows (_ : unit) : list row := [[CInt 1; CInt 10]].
Definition db0 : @db arrow_model duckdb_model := mkMem (pub_rows tt) EmptyString None None (pub_rows tt, lsn_text 100) false false.

Definition turn (now : Z) (rcv : Received) : Turn := mkTurn now false true true rcv.
Definition turn_msg (now n : Z) : Turn := turn now (CopyData [XLogDataByteID; n]).
Definition next (r : Replicator) (t : Turn) : Replicator :=
  match loop_turn hash0 "on" "sub" t r with Ret (r', Continue) => r' | _ => r end.
Definition rep0 : Replicator := mkReplicator (reset 1000 "slot" 100 db0) false 0 (1000 + standbyMessageTimeout) false [].

(** The connection, the first transaction, then a tick. *)
Definition turns1 : list Turn := [turn_msg 1010 0; turn_msg 1020 1; turn_msg 1030 2; turn_msg 1040 3].
Definition tick1 : Turn := turn 1500 (TickerFired None).
Definition turn0 : Turn := turn 1005 (DeadlinePassed None).
Definition repc : Replicator := next rep0 turn0.
Definition rep1 : Replicator := next (next (next (next repc (turn_msg 1010 0)) (turn_msg 1020 1)) (turn_msg 1030 2)) (turn_msg 1040 3).
Definition rep2 : Replicator := next rep1 tick1.
Definition idle0 : Stream := mkStream (Idle [] wal) [].
Definition idle1 : Stream := mkStream (Idle [txn1] [txn2]) [tt].

Lemma start0 : start "sub" 1000 "slot" db0 = Ret (inl rep0).
Proof. reflexivity. Qed.

Lemma saved0 : saved hash0 "on" "sub" tab0 (schema_of_with pg_int4) rel_of0 false pub_rows 100 db0.
Proof.
  split; [|reflexivity]. intros i. split; [reflexivity|]. cbn. unfold unique_keys. cbn. apply NoDup_singleton.
Qed.

Lemma reopened0 : reopened hash0 "on" "sub" tab0 (schema_of_with pg_int4) rel_of0 false db0 db0.
Proof. repeat split. Qed.

Lemma int_no_null z : no_null [CInt z : cell num128 num256].
Proof. unfold no_null. rewrite list_elem_of_singleton. discriminate. Qed.

Lemma wal_valid : valid_txns (schema_of_with pg_int4) rel_of0 100 pub_rows wal.
Proof.
  assert (Hcol : forall md bs z, decodeToArrow md (Some bs) TextFormatCode (new_builder AInt32) = Ret (mkBuilder AInt32 [CInt z], 4, None) ->
    col_presents md AInt32 (CInt z) (text bs)) by (intros md bs z E; right; split; [left; reflexivity | exists 4; exact E]).
  split; [cbn; lia|]. split; [cbn; lia|]. split; [split; [|exact I]|].
  { split; [repeat (constructor; try (apply Hcol; reflexivity))|]. split; [repeat constructor; apply int_no_null|].
    intros _ r Hr. apply list_elem_of_singleton in Hr. subst. cbn. rewrite list_elem_of_singleton. discriminate. }
  split; [cbn; lia|]. split; [cbn; lia|]. split; [|exact I]. split; [|split; [|exact I]].
  - split; [split; [repeat (constructor; try (apply Hcol; reflexivity)) | exact I]|]. split; [repeat constructor; apply int_no_null | discriminate].
  - split; [|split; [repeat constructor; apply int_no_null | discriminate]]. split.
    + exists [mkRelColumn 1 "id" Int4OID (-1)], [mkRelColumn 0 "v" Int4OID (-1)]. repeat constructor.
    + apply kp_key; [reflexivity | apply Hcol; reflexivity|]. apply kp_other; [reflexivity | reflexivity|]. constructor.
Qed.

Lemma starts0 : starts wal 101 idle0.
Proof. exists [], wal. split; [reflexivity|]. split; [reflexivity|]. split; [constructor|]. repeat constructor; cbn; lia. Qed.

Ltac arrive := split; [reflexivity|]; split; [reflexivity|]; eexists _, _, _; split; [reflexivity|]; split; [reflexivity|]; split; [reflexivity|].

Lemma arrives_feeds rel_of H c t c' r : arrives rel_of c t c' -> primaryConn r = true -> feeds rel_of H r c t c' (T := unit).
Proof.
  intros (_ & _ & rest & xld & msg & E & Ex & Ep & Hs) Hc. exists c. rewrite Hc. split; [reflexivity|]. rewrite E. eapply receives_wal; eassumption.
Qed.

Definition sending (done rest : list Change) (an : list unit) : Stream := mkStream (Sending [] txn1 done rest [txn2]) an.

Lemma arrive1 : arrives rel_of0 idle0 (turn_msg 1010 0) (sending [] [insert5] []).
Proof. arrive. apply sends_begin. Qed.
Lemma arrive2 : arrives rel_of0 (sending [] [insert5] []) (turn_msg 1020 1) (sending [] [insert5] [tt]).
Proof. arrive. apply (sends_relation rel_of0 [] txn1 [] [insert5] [txn2] [] tt). intros Hn. inversion Hn. Qed.
Lemma arrive3 : arrives rel_of0 (sending [] [insert5] [tt]) (turn_msg 1030 2) (sending [insert5] [] [tt]).
Proof. arrive. apply (sends_change rel_of0 [] txn1 [] insert5 [] [txn2] [tt]). left. Qed.
Lemma arrive4 : arrives rel_of0 (sending [insert5] [] [tt]) (turn_msg 1040 3) idle1.
Proof. arrive. apply (sends_commit rel_of0 [] txn1). Qed.

Abbreviation steps0 := (rtc (step hash0 "on" "sub" tab0 (schema_of_with pg_int4) rel_of0 false wal)).

Lemma next_step t r c c' : feeds rel_of0 wal r c t c' ->
  match loop_turn hash0 "on" "sub" t r with Ret (_, Continue) => True | _ => False end ->
  step hash0 "on" "sub" tab0 (schema_of_with pg_int4) rel_of0 false wal (r, c) (next r t, c').
Proof.
  intros Hf Hn. eapply step_turn; [exact Hf|]. unfold next. destruct (loop_turn hash0 "on" "sub" t r) as [[r' []]|]; try contradiction. reflexivity.
Qed.

Lemma reach_connected : steps0 (rep0, idle0) (repc, idle0).
Proof.
  apply rtc_once, next_step; [|vm_compute; exact I]. exists idle0. split; [exact starts0|]. apply receives_none; [discriminate | exact I].
Qed.

Lemma reach1 : steps0 (rep0, idle0) (rep1, idle1).
Proof.
  unfold rep1. etransitivity; [exact reach_connected|].
  eapply rtc_l; [apply next_step; [apply (arrives_feeds _ _ _ _ _ _ arrive1); vm_compute; reflexivity | vm_compute; exact I]|].
  eapply rtc_l; [apply next_step; [apply (arrives_feeds _ _ _ _ _ _ arrive2); vm_compute; reflexivity | vm_compute; exact I]|].
  eapply rtc_l; [apply next_step; [apply (arrives_feeds _ _ _ _ _ _ arrive3); vm_compute; reflexivity | vm_compute; exact I]|].
  eapply rtc_l; [apply next_step; [apply (arrives_feeds _ _ _ _ _ _ arrive4); vm_compute; reflexivity | vm_compute; exact I]|]. apply rtc_refl.
Qed.

Lemma ids0 : forall i j, id_of rel_of0 i = id_of rel_of0 j -> i = j.
Proof. intros [] [] _. reflexivity. Qed.

(** The state after the first transaction. *)
Lemma pg_replica_follows_publisher_witness :
  (exists done rest, wal = done ++ rest /\ saved hash0 "on" "sub" tab0 (schema_of_with pg_int4) rel_of0 false
     (replay (schema_of_with pg_int4) pub_rows done) (lsn_after 100 done) (world (state rep1))) /\
  (primaryConn rep1 = true -> [txn1] ++ [txn2] = wal /\
     exists B, tracks hash0 tab0 (schema_of_with pg_int4) rel_of0 false (replay (schema_of_with pg_int4) pub_rows [txn1]) B (state rep1)).
Proof.
  exact (pg_replica_follows_publisher hash0 "on" "sub" tab0 (schema_of_with pg_int4) rel_of0 false pub_rows 100 wal 1000 "slot" db0 db0 idle0 rep0 rep1 idle1
    pg_table_ok ids0 eq_refl ltac:(lia) wal_valid saved0 reopened0 start0 reach1).
Defined.

Lemma pg_acknowledged_is_durable_witness : exists done rest, wal = done ++ rest /\
  saved hash0 "on" "sub" tab0 (schema_of_with pg_int4) rel_of0 false (replay (schema_of_with pg_int4) pub_rows done) (lsn_after 100 done) (world (state rep1)) /\
  forall e t, e ∈ sent rep1 -> t ∈ wal ->
    match e with StatusUpdate _ flush apply => tx_lsn t < flush \/ tx_lsn t < apply | StartedAt lsn => tx_lsn t < lsn end -> t ∈ done.
Proof.
  exact (pg_acknowledged_is_durable hash0 "on" "sub" tab0 (schema_of_with pg_int4) rel_of0 false pub_rows 100 wal 1000 "slot" db0 db0 idle0 rep0 rep1 idle1
    pg_table_ok ids0 eq_refl ltac:(lia) wal_valid saved0 reopened0 start0 reach1).
Defined.

Lemma pg_loop_never_fails_itself_witness : exists r' e, loop_turn hash0 "on" "sub" tick1 rep1 = Ret (r', e) /\ turn_end tick1 r' e /\
  forall now', exists r'', shutdown hash0 "on" "sub" now' r' = Ret r'' /\ TryGetTxn (world (state r'')) = None /\
    (forall i, rows_in hash0 tab0 (schema_of_with pg_int4) false i (world (state r'')) =
               durable_rows hash0 "on" "sub" tab0 (schema_of_with pg_int4) rel_of0 false i (world (state r''))) /\
    exists done rest, wal = done ++ rest /\ saved hash0 "on" "sub" tab0 (schema_of_with pg_int4) rel_of0 false
      (replay (schema_of_with pg_int4) pub_rows done) (lsn_after 100 done) (world (state r'')).
Proof.
  apply (pg_loop_never_fails_itself hash0 "on" "sub" tab0 (schema_of_with pg_int4) rel_of0 false pub_rows 100 wal 1000 "slot" db0 db0 idle0 rep0 rep1 idle1 tick1 idle1
    pg_table_ok ids0 eq_refl ltac:(lia) wal_valid saved0 reopened0 start0 reach1).
  exists idle1. assert (Hc : primaryConn rep1 = true) by (vm_compute; reflexivity). rewrite Hc. split; [reflexivity|]. apply receives_none; [discriminate | exact I].
Defined.

Lemma delivers1 : delivers rel_of0 [] txn1 [txn2] idle0 turns1 idle1.
Proof.
  eapply delivers_more; [exact arrive1 | reflexivity|]. eapply delivers_more; [exact arrive2 | reflexivity|].
  eapply delivers_more; [exact arrive3 | reflexivity|]. eapply delivers_last; [exact arrive4 | reflexivity].
Qed.

Lemma pg_transaction_becomes_durable_witness : exists r1, run hash0 "on" "sub" repc turns1 r1 Continue /\
  forall tick, t_stop tick = false -> t_send tick = true -> t_received tick = TickerFired None -> flushInterval < t_now tick - lastCommitTime (state r1) ->
    exists r2 received earlier, loop_turn hash0 "on" "sub" tick r1 = Ret (r2, Continue) /\
      saved hash0 "on" "sub" tab0 (schema_of_with pg_int4) rel_of0 false (replay (schema_of_with pg_int4) pub_rows [txn1]) 110 (world (state r2)) /\
      sent r2 = earlier ++ [StatusUpdate received 111 111].
Proof.
  exact (pg_transaction_becomes_durable hash0 "on" "sub" tab0 (schema_of_with pg_int4) rel_of0 false pub_rows 100 wal 1000 "slot" db0 db0 idle0 rep0 repc idle0
    [] txn1 [txn2] turns1 idle1 pg_table_ok ids0 eq_refl ltac:(lia) wal_valid saved0 reopened0 start0 reach_connected
    ltac:(vm_compute; reflexivity) eq_refl ltac:(discriminate) delivers1).
Defined.

(** A row is inserted and the table is truncated in one transaction: the row is there
    after the commit. *)
Definition fresh_state : replicationState := reset 1000 "slot" 100 db0.
Definition after_insert : replicationState :=
  match process_all hash0 "on" "sub" 1010 [BeginMessage 110; RelationMessageV2 rel0; message_of rel_of0 insert5] fresh_state with
  | Ret (s, None) => s
  | _ => fresh_state
  end.
Definition after_truncate : replicationState :=
  match process_logical hash0 "on" "sub" 1020 (TruncateMessageV2 [7]) after_insert with Ret (s, None) => s | _ => fresh_state end.
Definition after_commit : replicationState :=
  match process_logical hash0 "on" "sub" 1030 (CommitMessage 110) after_truncate with Ret (s, None) => s | _ => fresh_state end.

Lemma truncated_row_survives : m_rows (world after_truncate) = [] /\ fst (m_durable (world after_commit)) = [[CInt 5; CInt 50]].
Proof. vm_compute. split; reflexivity. Qed.

Lemma truncate_leaves_the_buffer_witness : tables after_truncate = tables after_insert /\ length (tables after_insert) = 1%nat.
Proof.
  split; [|vm_compute; reflexivity].
  apply (truncate_leaves_the_buffer hash0 "on" "sub" 1020 [7] after_insert after_truncate None).
  assert (E : match process_logical hash0 "on" "sub" 1020 (TruncateMessageV2 [7]) after_insert with Ret (_, None) => True | _ => False end) by (vm_compute; exact I).
  unfold after_truncate. destruct (process_logical hash0 "on" "sub" 1020 (TruncateMessageV2 [7]) after_insert) as [[s [e|]]|]; try contradiction. reflexivity.
Defined.

Lemma streamed_transaction_is_lost_witness : exists s',
  process_all hash0 "on" "sub" 1010 [StreamStartMessageV2; message_of rel_of0 insert5; StreamStopMessageV2; StreamCommitMessageV2] fresh_state = Ret (s', None) /\
  tables s' = [] /\ world s' = db0 /\ dirtyTxn s' = false /\ lastCommitLSN s' = 100 /\ lastWrittenLSN s' = 100.
Proof.
  exact (streamed_transaction_is_lost hash0 "on" "sub" 1010 [StreamStartMessageV2; message_of rel_of0 insert5; StreamStopMessageV2; StreamCommitMessageV2]
    fresh_state eq_refl eq_refl).
Defined.

Definition col_v : RelationMessageColumn := mkRelColumn 0 "v" Int4OID (-1).
Definition col_id : RelationMessageColumn := mkRelColumn 1 "id" Int4OID (-1).

Lemma key_tuple_misread_witness :
  append_columns true ([col_v] ++ [col_id]) 0 0 [null; text [53]] [new_builder AInt32; new_builder AInt32] 0 =
  Ret ([mkBuilder AInt32 [CNull]; mkBuilder AInt32 [CNull]], 0, None).
Proof.
  apply (key_tuple_misread [col_v] col_id [new_builder AInt32; new_builder AInt32] null [text [53]] 0); try reflexivity; try discriminate.
  constructor; [reflexivity | constructor].
Defined.

Definition no_network (now : Z) : Turn := mkTurn now false false false (DeadlinePassed None).

Definition failed_once : Replicator := set_primaryConn false (set_connErrCnt (connErrCnt rep0 + 1) rep0).

Lemma failure_count_never_resets_witness : connErrCnt rep0 <= connErrCnt failed_once.
Proof.
  apply (failure_count_never_resets hash0 "on" "sub" rep0 [no_network 1001] failed_once Continue).
  apply (run_cons _ _ _ _ _ failed_once); [reflexivity | apply run_nil].
Defined.

Lemma unreachable_primary_ends_the_loop_witness : exists r',
  run hash0 "on" "sub" rep0 (map no_network [1; 2; 3; 4; 5; 6; 7; 8; 9; 10]) r' (Failed ErrConnect) /\ world (state r') = world (state rep0).
Proof.
  apply (unreachable_primary_ends_the_loop hash0 "on" "sub" rep0 (map no_network [1; 2; 3; 4; 5; 6; 7; 8; 9; 10])); try reflexivity.
  repeat constructor.
Defined.

Lemma pg_row_is_well_typed_witness : builders_typed [mkBuilder AInt32 [CInt 5]; mkBuilder AInt32 [CNull]] /\
  Forall2 (grown None) [new_builder AInt32; new_builder AInt32] [mkBuilder AInt32 [CInt 5]; mkBuilder AInt32 [CNull]].
Proof.
  apply (pg_row_is_well_typed false [col_id; col_v] 0 0 [text [53]; null] [new_builder AInt32; new_builder AInt32] 0 _ 4 None); try reflexivity.
  repeat constructor.
Defined.

(** 12.5 in a numeric(10, 2) column. *)
Lemma pg_numeric_within_bounds_witness : exists c,
  append_numeric NumericOID 2 (mkNumeric 125 (-1) false 0 true) (new_builder (ADecimal128 10 2)) =
    Some (Ret (mkBuilder (ADecimal128 10 2) [CDecimal128 c], 16, None)) /\ value128 c = 1250.
Proof.
  apply (pg_numeric_within_bounds NumericOID 2 (mkNumeric 125 (-1) false 0 true) 10 2 []); cbn; try reflexivity; lia.
Defined.

(** The insert of the first transaction arrives with a tick: after its commit the row
    is missing, and the transaction is acknowledged as flushed. *)
Definition dropping : Turn := turn 1030 (TickerFired (Some [XLogDataByteID; 2])).
Definition rep_lost : Replicator :=
  next (next (next (next repc (turn_msg 1010 0)) (turn_msg 1020 1)) dropping) (turn_msg 1040 3).

Lemma dropped_row_is_missing : fst (m_durable (world (state rep_lost))) = [[CInt 1; CInt 10]] /\
  last (sent rep_lost) = Some (StatusUpdate 1 111 111).
Proof. vm_compute. split; reflexivity. Qed.

Lemma tick_drops_a_message_witness : loop_turn hash0 "on" "sub" dropping repc = loop_turn hash0 "on" "sub" (turn 1030 (TickerFired None)) repc.
Proof. apply (tick_drops_a_message hash0 "on" "sub" dropping (turn 1030 (TickerFired None)) [XLogDataByteID; 2] repc); reflexivity. Defined.
