(* ===== verification/PoolClaims.v ===== *)
(** * Claims about the connection pool *)

From S2P Require Import Prelude GoTime Charset Schema Identifier InternalTables Delta DeltaSpec DeltaRefine DeltaFlush Models.
From S2P Require Import RowAppend RowDecode ReplaySpec PgDecode CatalogErrors Session Pool Logrepl LogreplRows LogreplReplay PoolFacts PgModel LogreplClaims.

#[local] Open Scope Z_scope.

Section Sessions.
Context `{HA : ArrowLib} `{HD : !DuckDB} `{HV : !Driver}.

(** What a session does with the pool. *)
Inductive PoolOp : Type := OpGetConn | OpGetConnForSchema (schema : string) | OpGetTxn (schema : string) | OpCloseTxn | OpCloseConn.

Definition run_op (id : Z) (p : Pool) (o : PoolOp) : Pool :=
  match o with
  | OpGetConn => fst (GetConn id p)
  | OpGetConnForSchema schema => fst (GetConnForSchema id schema p)
  | OpGetTxn schema => fst (GetTxn id schema p)
  | OpCloseTxn => CloseTxn id p
  | OpCloseConn => fst (CloseConn id p)
  end.

Lemma run_ops_others id ops : forall p, others_keep id p (foldl (run_op id) p ops).
Proof.
  induction ops as [|o ops IH]; intros p; [apply others_refl|]. cbn [foldl]. eapply others_trans; [|apply IH].
  destruct o; cbn; [apply GetConn_others | apply GetConnForSchema_others | apply GetTxn_others | apply CloseTxn_others | apply CloseConn_others].
Qed.

(** C8: sessions do not interfere.  Whatever sequence of operations a session performs
    on the pool, every other session keeps its connection and its transaction; and a
    session is handed the same connection and the same transaction until it closes them,
    whatever schema it asks for. *)
Theorem sessions_do_not_interfere id id' ops p schema schema' p1 tx : id' <> id ->
  GetTxn id' schema p = (p1, inl tx) ->
  let p2 := foldl (run_op id) p1 ops in
  TryGetTxn id' p2 = Some tx /\ GetTxn id' schema' p2 = (p2, inl tx) /\ conns p2 !! id' = conns p1 !! id'.
Proof.
  intros Hne E p2. destruct (GetTxn_again id' schema schema' p p1 tx E) as [Ht _].
  destruct (run_ops_others id ops p1 id' Hne) as [Hc Htx]. fold p2 in Hc, Htx. unfold TryGetTxn, GetTxn. rewrite Htx, Ht. auto.
Qed.

(** closing a connection leaves its transaction behind.  After [CloseConn] the pool
    still hands out the transaction of the closed connection, and no new one is begun. *)
Theorem closed_connection_keeps_transaction id schema schema' p p1 tx : GetTxn id schema p = (p1, inl tx) ->
  let p2 := fst (CloseConn id p1) in conns p2 !! id = None /\ GetTxn id schema' p2 = (p2, inl tx).
Proof.
  intros E p2. destruct (GetTxn_again id schema schema' p p1 tx E) as [Ht _].
  assert (H2 : conns p2 !! id = None /\ txns p2 !! id = Some tx).
  { unfold p2, CloseConn. destruct (conns p1 !! id) as [c|]; [|cbn; rewrite lookup_delete_eq; auto].
    destruct (conn_Raw_ErrBadConn c (engine p1)) as [d []]; cbn [negb]; [destruct (conn_Close c _)|]; cbn; rewrite lookup_delete_eq; auto. }
  destruct H2 as [Hc Htx]. split; [exact Hc|]. unfold GetTxn. rewrite Htx. reflexivity.
Qed.
End Sessions.

Section Composition.
Context `{HA : ArrowLib} `{HG : PgCodecs} `{HQ : !EqDecision (cell num128 num256)} `{HD : !DuckDB} `{HV : !Driver} `{HP : PgLogRepl}.
Context (viewHash : string -> string) (env subscription : string).
Context {T : Type} `{!EqDecision T} (tab : T -> tableIdentifier) `{!Inj (=) (=) tab} (schema_of : T -> list Column)
  (rel_of : T -> RelationMessage) (indexed : bool).
Context (HF : FlushLaws viewHash tab schema_of indexed) (HL : DriverLaws viewHash env subscription tab schema_of rel_of indexed).

Abbreviation durable_rows := (d_durable_rows viewHash env subscription tab schema_of rel_of indexed).
Abbreviation durable_lsn := (d_durable_lsn viewHash env subscription tab schema_of rel_of indexed).
Abbreviation idle := (d_idle viewHash env subscription tab schema_of rel_of indexed).

(** The engine holds the rows [src] at the position [lsn]. *)
Definition engine_holds (src : T -> list (list (cell num128 num256))) (lsn : Z) (d : db) : Prop :=
  (forall i, same_rows (durable_rows i d) (src i) /\ unique_keys (schema_of i) (durable_rows i d)) /\ durable_lsn d = LSN_String lsn.

(** C7: replication on the pool.  The replication loop, run on the session [id] of the
    connection pool over any driver that behaves as documented, keeps the engine at the
    state after a prefix of the publisher's history with the LSN of that prefix, through
    reconnections, crashes and restarts: for the histories and runs of C3, and for any
    pool in which the session has no transaction when it starts, no connection has one
    under way, and what is read is what is durable. *)
Theorem pooled_replica_follows_publisher id schema src0 L0 H now slot (p0 : Pool) c0 r0 r c :
  (forall i, table_ok tab schema_of rel_of i) -> (forall i j, id_of rel_of i = id_of rel_of j -> i = j) ->
  indexed = negb (IsReplicationWithoutIndex env) -> 0 <= L0 < 2 ^ 64 - 1 -> valid_txns schema_of rel_of L0 src0 H ->
  engine_holds src0 L0 (engine p0) -> (forall i, rows_in viewHash tab schema_of indexed i (engine p0) = durable_rows i (engine p0)) ->
  txns p0 !! id = None -> idle (engine p0) = true ->
  start (HS := PooledSession id schema) subscription now slot p0 = Ret (inl r0) ->
  rtc (step viewHash env subscription tab schema_of rel_of indexed (HS := PooledSession id schema)
        (HF := pooled_flush_laws viewHash tab schema_of indexed HF)
        (HL := pool_pg_laws viewHash env subscription tab schema_of rel_of indexed HF HL id schema) H) (r0, c0) (r, c) ->
  exists done rest, H = done ++ rest /\ engine_holds (replay schema_of src0 done) (lsn_after L0 done) (engine (world (state r))).
Proof.
  intros Ht Hids Hix HL0 HH Hs Hw Hn Hi Est Hr.
  set (HF' := pooled_flush_laws viewHash tab schema_of indexed HF). set (HS' := PooledSession id schema).
  set (HL' := pool_pg_laws viewHash env subscription tab schema_of rel_of indexed HF HL id schema).
  destruct (reachable_inv viewHash env subscription tab schema_of rel_of indexed (HS := HS') (HF := HF') (HL := HL')
    src0 L0 H now slot p0 p0 c0 r0 r c Ht Hids Hix HL0 HH Hs) as [[[p Hp] _] _]; [|exact Est | exact Hr|].
  - split; [exact Hw|]. split; [reflexivity|]. split; [reflexivity|]. split; [exact Hn | exact Hi].
  - destruct (pg_phase_durable viewHash env subscription tab schema_of rel_of indexed (HS := HS') (HF := HF') (HL := HL') src0 L0 H HH p _ Hp)
      as (done & rest & E & Hsv & _). exists done, rest. split; [exact E | exact Hsv].
Qed.
End Composition.

(** ** Witnesses *)
#[local] Existing Instance wire0.
#[local] Existing Instance tab0_injective.
#[local] Instance driver_model : Driver := {|
  Conn := unit;
  STx := unit;
  DB_Conn m := Some (m, tt);
  DB_Close m := (m, true);
  conn_Exec _ _ _ m := (m, None);
  conn_QueryRow _ _ _ m := RowString (snd (m_durable m));
  conn_BeginTx _ m := if m_live m then None else Some (open_txn m, tt);
  conn_Raw_ErrBadConn _ m := (m, true);
  conn_Close _ m := (m, CloseOk);
  tx_Exec _ _ args m := match args with [ArgString lsn; _] => (store_position lsn m, None) | _ => (m, Some "unsupported") end;
  tx_Commit _ m := if m_live m then (make_durable m, true) else (m, false);
  tx_Rollback _ m := if m_live m then (undo_txn m, RollbackOk) else (m, NoActiveTxn)
|}.

#[local] Instance driver_model_laws : DriverLaws hash0 "on" "sub" tab0 (schema_of_with pg_int4) rel_of0 false.
Proof.
  refine {| d_stored := m_pos : db -> string; d_durable_rows := fun (_ : unit) (m : db) => fst (m_durable m);
            d_durable_lsn := fun m : db => snd (m_durable m); d_active := fun (_ : STx) (m : db) => m_live m; d_idle := fun m : db => negb (m_live m) |}.
  - intros d. exists d, tt. repeat split.
  - intros c d Hi. exists (open_txn d), tt. cbn in *. destruct (m_live d); [discriminate|]. repeat split.
  - intros lsn sql d tx _ Ha. exists (store_position lsn d). repeat split. exact Ha.
  - intros d tx Ha. exists (make_durable d). cbn. rewrite Ha. repeat split.
  - intros d tx Ha. exists d, NoActiveTxn. cbn. rewrite Ha. repeat split.
  - intros d tx Ha. exists (undo_txn d), RollbackOk. cbn. rewrite Ha. repeat split. discriminate.
  - intros c sql d _ _. reflexivity.
  - intros l Hl. apply text_lsn_text. lia.
  - intros c d. exists d. repeat split.
  - intros c i d. exists d. repeat split.
  - intros i j. exact (outside_untouched (fun x => x.1.1.1) _).
  - intros i. exact (outside_untouched (fun x => x.1.1.2) _).
  - intros i tx. exact (outside_untouched (fun x => x.2) _).
Defined.

Definition pool0 : Pool := mkPool ∅ ∅ db0.

Lemma sessions_do_not_interfere_witness : let p2 := foldl (run_op 1) (fst (GetTxn 2 "public" pool0)) [OpGetConn; OpCloseTxn; OpCloseConn] in
  TryGetTxn 2 p2 = Some tt /\ GetTxn 2 EmptyString p2 = (p2, inl tt) /\ conns p2 !! 2 = conns (fst (GetTxn 2 "public" pool0)) !! 2.
Proof.
  apply (sessions_do_not_interfere 1 2 [OpGetConn; OpCloseTxn; OpCloseConn] pool0 "public" EmptyString (fst (GetTxn 2 "public" pool0)) tt); [discriminate | reflexivity].
Defined.

Lemma closed_connection_keeps_transaction_witness : let p2 := fst (CloseConn 1 (fst (GetTxn 1 "public" pool0))) in
  conns p2 !! 1 = None /\ GetTxn 1 "public" p2 = (p2, inl tt).
Proof. apply (closed_connection_keeps_transaction 1 "public" "public" pool0 (fst (GetTxn 1 "public" pool0)) tt). reflexivity. Defined.

Abbreviation PoolReplicator := (@Replicator arrow_model (@PooledDB arrow_model duckdb_model driver_model)).
#[local] Instance session7 : @Session arrow_model PooledDB := PooledSession 7 "public".
Definition pool_next (r : PoolReplicator) (t : Turn) : PoolReplicator :=
  match loop_turn hash0 "on" "sub" t r with Ret (r', Continue) => r' | _ => r end.
Definition pool_rep0 : PoolReplicator := mkReplicator (reset 1000 "slot" 100 (fst (GetConn 7 pool0) : @db _ PooledDB)) false 0 (1000 + standbyMessageTimeout) false [].
Definition pool_repc : PoolReplicator := pool_next pool_rep0 turn0.
Definition pool_rep1 : PoolReplicator :=
  pool_next (pool_next (pool_next (pool_next pool_repc (turn_msg 1010 0)) (turn_msg 1020 1)) (turn_msg 1030 2)) (turn_msg 1040 3).

Abbreviation pool_step := (step hash0 "on" "sub" tab0 (schema_of_with pg_int4) rel_of0 false
  (HF := pooled_flush_laws hash0 tab0 (schema_of_with pg_int4) false (pg_flush_laws false))
  (HL := pool_pg_laws hash0 "on" "sub" tab0 (schema_of_with pg_int4) rel_of0 false (pg_flush_laws false) driver_model_laws 7 "public") wal).

Lemma pool_next_step t r c c' : feeds rel_of0 wal r c t c' ->
  match loop_turn hash0 "on" "sub" t r with Ret (_, Continue) => True | _ => False end -> pool_step (r, c) (pool_next r t, c').
Proof.
  intros Hf Hn. eapply step_turn; [exact Hf|]. unfold pool_next. destruct (loop_turn hash0 "on" "sub" t r) as [[r' []]|]; try contradiction. reflexivity.
Qed.

Lemma pool_arrives c t c' (r : PoolReplicator) : arrives rel_of0 c t c' -> primaryConn r = true -> feeds rel_of0 wal r c t c'.
Proof.
  intros (_ & _ & rest & xld & msg & E & Ex & Ep & Hs) Hc. exists c. rewrite Hc. split; [reflexivity|]. rewrite E. eapply receives_wal; eassumption.
Qed.

Lemma pool_reach : rtc pool_step (pool_rep0, idle0) (pool_rep1, idle1).
Proof.
  unfold pool_rep1.
  eapply rtc_l; [apply (pool_next_step turn0 pool_rep0 idle0 idle0); [exists idle0; split; [exact starts0 | apply receives_none; [discriminate | exact I]] | vm_compute; exact I]|].
  eapply rtc_l; [apply pool_next_step; [apply (pool_arrives _ _ _ _ arrive1); vm_compute; reflexivity | vm_compute; exact I]|].
  eapply rtc_l; [apply pool_next_step; [apply (pool_arrives _ _ _ _ arrive2); vm_compute; reflexivity | vm_compute; exact I]|].
  eapply rtc_l; [apply pool_next_step; [apply (pool_arrives _ _ _ _ arrive3); vm_compute; reflexivity | vm_compute; exact I]|].
  eapply rtc_l; [apply pool_next_step; [apply (pool_arrives _ _ _ _ arrive4); vm_compute; reflexivity | vm_compute; exact I]|]. apply rtc_refl.
Qed.

Lemma pooled_replica_follows_publisher_witness : exists done rest, wal = done ++ rest /\
  engine_holds hash0 "on" "sub" tab0 (schema_of_with pg_int4) rel_of0 false (pg_flush_laws false) driver_model_laws
    (replay (schema_of_with pg_int4) pub_rows done) (lsn_after 100 done) (engine (world (state pool_rep1))).
Proof.
  apply (pooled_replica_follows_publisher hash0 "on" "sub" tab0 (schema_of_with pg_int4) rel_of0 false (pg_flush_laws false) driver_model_laws
    7 "public" pub_rows 100 wal 1000 "slot" pool0 idle0 pool_rep0 pool_rep1 idle1 pg_table_ok ids0 eq_refl ltac:(lia) wal_valid);
    [|reflexivity | reflexivity | reflexivity | reflexivity | exact pool_reach].
  split; [|reflexivity]. intros i. split; [reflexivity|]. unfold unique_keys. cbn. apply NoDup_singleton.
Defined.
