(* ===== verification/SubscriptionClaims.v ===== *)
(** * Subscriptions: the claims

    The statements read back what they were written from, the running
    replicators follow the rows of the internal table, and a statement that
    fails before it reaches them changes none; what a connection string cannot
    say, and the replicators that escape. *)

From Stdlib Require Import Ascii String.
From S2P Require Import Prelude GoTime Charset Schema Identifier InternalTables Delta RowAppend PgDecode Session Logrepl Regexp Subscriptions Models EngineModel PgModel LogreplClaims.

#[local] Open Scope list_scope.

(** ** Statements *)

(** C10: A statement that creates, enables, disables or drops a subscription is
    parsed to exactly what it was written from: the names, the action, and for
    CREATE the publication and every field of the connection, for names of
    letters, digits, underscores and hyphens and for connection values of
    letters, digits, underscores and dots. *)
Theorem subscription_statements_roundtrip name pub c enable :
  is_name name -> is_name pub -> plain c -> DBName c <> EmptyString -> Port c <> EmptyString ->
  parseSubscriptionSQL (create_statement name (ToConnectionInfo c) pub) = Parsed (mkConfig name pub (Some c) Create)
  /\ parseSubscriptionSQL (alter_statement name enable) = Parsed (mkConfig name EmptyString None (if enable then AlterEnable else AlterDisable))
  /\ parseSubscriptionSQL (drop_statement name) = Parsed (mkConfig name EmptyString None Drop).
Proof.
  intros Hn Hp Hc Hd Hpo. unfold parseSubscriptionSQL. split; [|split].
  - rewrite create_matches; [| assumption | assumption | discriminate | apply info_has_no_quote, Hc].
    rewrite group_middle, text_bytes, parse_info by assumption. rewrite group_last, group_first, !text_bytes. reflexivity.
  - rewrite alter_is_no_create, alter_matches by assumption. rewrite group_first_of_two, (text_bytes name). destruct enable; reflexivity.
  - rewrite drop_is_no_create, drop_is_no_alter, drop_matches by assumption. rewrite group_alone, text_bytes. reflexivity.
Qed.

Definition mysub : ConnectionDetails := mkDetails "postgres" "127.0.0.1" "5432" "postgres" "root".

Lemma subscription_statements_roundtrip_witness :
  is_name "mysub" /\ plain mysub
  /\ parseSubscriptionSQL "CREATE SUBSCRIPTION mysub CONNECTION 'dbname=postgres user=postgres password=root host=127.0.0.1 port=5432' PUBLICATION mypub;"
     = Parsed (mkConfig "mysub" "mypub" (Some mysub) Create).
Proof.
  assert (Hn : is_name "mysub") by (split; [discriminate | reflexivity]). assert (Hp : plain mysub) by (repeat split). split; [exact Hn|]. split; [exact Hp|].
  apply (subscription_statements_roundtrip "mysub" "mypub" mysub true); first [exact Hn | exact Hp | discriminate | split; [discriminate | reflexivity]].
Defined.

(** Whatever the statement, the connection it is parsed to holds only
    letters, digits, underscores and dots: a host name with a hyphen or a
    password with any other character is cut there without an error, and the
    server connects elsewhere or is refused. *)
Theorem connection_values_are_plain sql config conn :
  parseSubscriptionSQL sql = Parsed config -> Connection config = Some conn -> plain conn.
Proof. apply parsed_connection_plain. Qed.

Definition hyphenated : string := "CREATE SUBSCRIPTION s CONNECTION 'dbname=d user=u password=a-b host=my-db.internal port=5432' PUBLICATION p".

Lemma connection_values_are_plain_witness :
  let conn := mkDetails "d" "my" "5432" "u" "a" in
  parseSubscriptionSQL hyphenated = Parsed (mkConfig "s" "p" (Some conn) Create) /\ plain conn.
Proof.
  intros conn. assert (E : parseSubscriptionSQL hyphenated = Parsed (mkConfig "s" "p" (Some conn) Create)) by (vm_compute; reflexivity).
  split; [exact E|]. exact (connection_values_are_plain hyphenated _ conn E eq_refl).
Defined.

(** ** Replicators *)

(** The calls of [UpdateSubscriptions] so far, each with the rows it read and the order
    of its map, and each after the goroutines of the one before reached their loops. *)
Definition after_calls (slot_ok : string -> string -> bool) (calls : list (list SubRow * list string)) : Manager :=
  foldl (fun mg c => settle (UpdateSubscriptions slot_ok (Some c.1) c.2 mg).1) (mkManager ∅ []) calls.
Definition callable (slot_ok : string -> string -> bool) (c : list SubRow * list string) : Prop :=
  slots_ok slot_ok (subMap c.1) /\ covers c.2 (subMap c.1).

Lemma after_calls_aligned slot_ok calls : Forall (callable slot_ok) calls -> aligned (after_calls slot_ok calls).
Proof.
  induction calls as [|c calls IH] using rev_ind; intros Hc.
  - split; [|constructor]. intros name s. cbn. rewrite lookup_empty. discriminate.
  - apply Forall_app in Hc. destruct Hc as [Hc Hl]. apply Forall_cons in Hl. destruct Hl as [[Hs Hcov] _].
    unfold after_calls. rewrite foldl_app. cbn [foldl]. fold (after_calls slot_ok calls).
    pose proof (update_aligns slot_ok c.1 c.2 _ (IH Hc) Hs Hcov) as H. destruct (UpdateSubscriptions _ _ _ _) as [mg' e]. apply H.
Qed.


Definition row_a (enabled : bool) : SubRow := mkSubRow "a" "postgres://u:p@h:5432/d" "pub_a" "0/0" enabled.
Definition row_b : SubRow := mkSubRow "b" "postgres://u:p@h:5432/d" "pub_b" "0/0" true.
Definition rows_ab : list SubRow := [row_a true; row_b].
(** Then [a] is stopped, [b] is gone, [c] is new. *)
Definition rows_ac : list SubRow := [row_a false; mkSubRow "c" "postgres://u:p@h:5432/d" "pub_c" "0/0" true].
Definition manager_ab : Manager := after_calls (fun _ _ => true) [(rows_ab, ["b"; "a"])].

Lemma covers_two n1 n2 r1 r2 : n1 <> n2 -> row_name r1 = n1 -> row_name r2 = n2 -> covers [n2; n1] (subMap [r1; r2]).
Proof.
  intros Hn H1 H2. split; [repeat constructor; set_solver|]. intros name t. unfold subMap. cbn [foldl]. rewrite H1, H2, !lookup_insert_Some.
  intros [[<- _]|[_ [[<- _]|[_ H]]]]; [set_solver.. | rewrite lookup_empty in H; discriminate].
Qed.


(** A subscription that is created and disabled again before the goroutine
    of its replicator has reached its loop keeps replicating: [Stop] finds
    nothing running, the goroutine arrives later, the subscription is marked
    disabled, and no further [UpdateSubscriptions] with those rows stops it. *)
Theorem early_disable_is_lost (slot_ok : string -> string -> bool) name conn pub lsn mg :
  slot_ok conn pub = true -> subscriptionMap mg !! name = None ->
  let rows enabled := Some [mkSubRow name conn pub lsn enabled] in
  let created := (UpdateSubscriptions slot_ok (rows true) [name] mg).1 in
  let disabled := settle (UpdateSubscriptions slot_ok (rows false) [name] created).1 in
  (exists s, subscriptionMap disabled !! name = Some s /\ Enabled s = false /\ running (Replicator s) = true)
  /\ subscriptionMap (UpdateSubscriptions slot_ok (rows false) [name] disabled).1 = subscriptionMap disabled.
Proof.
  intros Hs Hn rows created disabled.
  assert (Hc : subscriptionMap created = {[name := mkSub conn pub lsn true (mkReplica false true)]}).
  { unfold created, rows. rewrite update_single, Hn by (left; exact Hs). unfold update_one. cbn [row_conn row_pub row_lsn row_enabled]. rewrite Hs. reflexivity. }
  assert (Hd : subscriptionMap disabled = {[name := mkSub conn pub lsn false (mkReplica true false)]}).
  { unfold disabled. cbn [settle subscriptionMap]. unfold rows. rewrite update_single, Hc, lookup_singleton_eq by (left; exact Hs). rewrite map_fmap_singleton. reflexivity. }
  split.
  - eexists. rewrite Hd, lookup_singleton_eq. repeat split.
  - unfold rows. rewrite update_single, Hd, lookup_singleton_eq by (left; exact Hs). reflexivity.
Qed.

Lemma early_disable_is_lost_witness :
  let rows enabled := Some [row_a enabled] in
  let created := (UpdateSubscriptions (fun _ _ => true) (rows true) ["a"] (mkManager ∅ [])).1 in
  exists s, subscriptionMap (settle (UpdateSubscriptions (fun _ _ => true) (rows false) ["a"] created).1) !! "a" = Some s
    /\ Enabled s = false /\ running (Replicator s) = true.
Proof. apply (early_disable_is_lost (fun _ _ => true) "a" "postgres://u:p@h:5432/d" "pub_a" "0/0" (mkManager ∅ []) eq_refl (lookup_empty _)). Defined.

(** A subscription whose replication slot could not be made is in the map as
    enabled with nothing running; the next [UpdateSubscriptions] finds it there
    and does not try again, whatever the slots do then. *)
Lemma failed_slot_is_never_retried (slot_ok later : string -> string -> bool) name conn pub lsn mg :
  slot_ok conn pub = false -> subscriptionMap mg !! name = None ->
  let rows := Some [mkSubRow name conn pub lsn true] in
  let '(failed, e) := UpdateSubscriptions slot_ok rows [name] mg in
  e = Some (ErrSlot name)
  /\ subscriptionMap failed !! name = Some (mkSub conn pub lsn true newReplica)
  /\ subscriptionMap (UpdateSubscriptions later rows [name] failed).1 !! name = Some (mkSub conn pub lsn true newReplica).
Proof.
  intros Hs Hn rows. unfold rows at 1, UpdateSubscriptions at 1. cbn [subMap foldl row_name update_loop]. rewrite lookup_insert_eq, Hn. unfold update_one. cbn [row_conn row_pub row_lsn row_enabled]. rewrite Hs.
  cbn [subscriptionMap]. split; [reflexivity|]. split; [apply lookup_insert_eq|]. unfold rows. rewrite update_single by (right; cbn [subscriptionMap]; rewrite lookup_insert_eq; eauto). cbn [subscriptionMap]. rewrite lookup_insert_eq. apply lookup_singleton_eq.
Qed.

(** ** The statements on the session *)
Section Execute.
Context `{HA : ArrowLib} `{HD : !DuckDB} `{HS : !Session} `{HP : PgLogRepl}.

(** C11: A statement that fails touches the replicators only when the failure
    is that of a replication slot: when the context, the snapshot, the
    publication, the row or its commit fails, or the rows cannot be read back,
    the map of subscriptions and its replicators are what they were. *)
Theorem failed_statement_leaves_the_replicators (o : Outside) config w mg w' mg' e :
  executeSubscriptionSQL o config w mg = Ret (w', mg', Some e) -> (forall name, e <> ErrSlot name) -> mg' = mg.
Proof.
  intros E He. unfold executeSubscriptionSQL in E. destruct (cfg_Action config).
  - apply (create_error o config w mg w' mg' e E He).
  - apply (drop_error o config w mg w' mg' e E He).
  - apply (status_error false o config w mg w' mg' e E He).
  - apply (status_error true o config w mg w' mg' e E He).
Qed.
End Execute.

#[local] Existing Instance wire0.
(** The publication cannot be made on the primary. *)
Definition outside0 : Outside := mkOutside true (fun _ _ => true) (fun _ _ => Some rows_ac) ["c"; "a"] (fun _ _ => Some []) (fun _ _ => false) 7.
Definition config0 : SubscriptionConfig := mkConfig "mysub" "mypub" (Some mysub) Create.

Lemma failed_statement_leaves_the_replicators_witness :
  exists w', executeSubscriptionSQL outside0 config0 db0 manager_ab = Ret (w', manager_ab, Some ErrPublication) /\ manager_ab = manager_ab.
Proof.
  assert (E : exists w', executeSubscriptionSQL outside0 config0 db0 manager_ab = Ret (w', manager_ab, Some ErrPublication)) by (eexists; vm_compute; reflexivity).
  destruct E as [w' E]. exists w'. split; [exact E|]. apply (failed_statement_leaves_the_replicators outside0 config0 db0 manager_ab w' manager_ab ErrPublication E). intros name. discriminate.
Defined.
