(* ===== verification/PgHandlerClaims.v ===== *)
(** * The connection handler: the claims

    The replies of the simple and of the extended protocol, the life of the
    prepared statements, what is sent for the rows of a result, and what a
    prepared query is run with; then where the replies go wrong. *)

From Stdlib Require Import Ascii String.
From stdpp Require Import pretty.
From S2P Require Import Prelude Identifier InternalTables CatalogErrors Regexp SqlText PsqlCommands PgConfig Rewrite Subscriptions Backup PgHandler PgHandlerFacts.

#[local] Open Scope list_scope.

Section Protocol.
Context `{HPP : PgParser} `{HB : Backend} `{HL : !BackendLaws} (send_ok : nat -> bool) (all_sent : forall n, send_ok n = true).

(** C12: When every reply can be written to the connection, a batch of the extended
    protocol (Parse, Bind, Describe, Execute, Close and Flush messages, the first of
    them no Close or Flush, up to a Sync) is answered by exactly one READY at its end,
    and by one more for each Flush that is read, which the handler does not know and
    answers by an error.  Either every message was handled, or the first that failed, by
    an error or a panic, is reported and the messages up to the Sync are skipped unread;
    the messages after the Sync are untouched. *)
Theorem batch_gets_one_ready m ms rest h : waits m = true -> forallb batched ms = true -> input h = m :: ms ++ FSync :: rest ->
  exists h' done skipped new, m :: ms ++ [FSync] = done ++ skipped /\ nsteps (reads send_ok) (length done) h h' /\ input h' = rest
    /\ output h' = output h ++ new ++ [BReadyForQuery] /\ readies new = flushes done
    /\ ((skipped = [] /\ waitForSync h' = false) \/ (waitForSync h' = true /\ exists e new', new = new' ++ [BErrorResponse e])).
Proof.
  intros Hm Hms Hi. apply (batch_reads send_ok all_sent (m :: ms) h rest); [|left; exact Hm | exact Hi].
  cbn [forallb]. unfold batched at 1, in_batch. rewrite Hm. exact Hms.
Qed.

(** C13: When every reply can be written to the connection, a simple query is answered
    by exactly one READY, at the end, whatever its statements do and even when the
    handler panics; the only exception is a COPY FROM STDIN, which leaves the handler in
    COPY mode without READY.  No other message is consumed, unless the handler panics
    while [waitForSync] is still set, as it is after an extended batch that failed: then
    the messages up to the next Sync are thrown away. *)
Theorem query_gets_one_ready q rest h : input h = FQuery q :: rest ->
  exists h' new, receiveMessage send_ok h = (h', RContinue) /\ (BReadyForQuery ∉ new)
    /\ (output h' = output h ++ new ++ [BReadyForQuery] \/ (output h' = output h ++ new /\ is_Some (copyFromStdinState h')))
    /\ (input h' = rest \/
        (waitForSync h = true /\ (handleQuery send_ok q (set_input rest h)).2 = None /\ input h' = after_sync rest)).
Proof.
  intros Hi. unfold receiveMessage. rewrite Hi. cbn [handleMessage]. pose proof (keep_query send_ok framed q (set_input rest h)) as (H1 & H2 & new & H3 & H4).
  pose proof (query_copy send_ok q (set_input rest h)) as Hc. unfold mbind, M_bind. destruct (handleQuery send_ok q (set_input rest h)) as [h1 r]. cbn [fst snd set_input input output waitForSync] in H1, H2, H3.
  assert (Herr : forall e, BReadyForQuery ∉ new ++ [BErrorResponse e]) by (intros e; rewrite not_elem_of_app, list_elem_of_singleton; split; [exact H4 | discriminate]).
  destruct r as [[eom [e|]]|]; cbn [mret M_ret handled].
  - rewrite (end_error send_ok all_sent). destruct eom; [|destruct (Hc eq_refl); discriminate]. eexists _, (new ++ [BErrorResponse e]). split; [reflexivity|]. split; [apply Herr|].
    split; [left; cbn; rewrite H3, <- !app_assoc; reflexivity | left; exact H1].
  - destruct eom.
    + rewrite (end_ready send_ok all_sent). eexists _, new. split; [reflexivity|]. split; [exact H4|]. split; [left; cbn; rewrite H3, <- app_assoc; reflexivity | left; exact H1].
    + eexists _, new. split; [reflexivity|]. split; [exact H4|]. split; [right; split; [exact H3 | apply (Hc eq_refl)] | left; exact H1].
  - rewrite (recovered_replies send_ok all_sent). eexists _, (new ++ [BErrorResponse "panic"]). split; [reflexivity|]. split; [apply Herr|]. unfold discard_if. rewrite H2. cbn [negb andb].
    destruct (waitForSync h) eqn:Ew; cbn; rewrite H3, <- !app_assoc; (split; [left; reflexivity|]); [right; rewrite H1; auto | left; exact H1].
Qed.
End Protocol.

(** ** Prepared statements *)
Definition new_handler `{HPP : PgParser} `{HB : Backend} (e : engine) (messages : list FrontendMessage) : Handler :=
  mkHandler ∅ ∅ false None ∅ 0 [] e messages [].

Section Statements.
Context `{HPP : PgParser} `{HB : Backend} `{HL : !BackendLaws} (send_ok : nat -> bool).

(** C14: Whatever messages a client sends, whatever fails and whether or not
    the connection breaks, no prepared statement of DuckDB is closed twice,
    although a statement and its portals share it. *)
Theorem prepared_closed_once e messages fuel : NoDup (closes (serve send_ok fuel (new_handler e messages)).1).
Proof.
  apply ok_once, (handles_serve send_ok fuel). split; cbn.
  - constructor.
  - intros a Ha. inversion Ha.
  - intros a _. apply lookup_empty.
  - intros name ps H. rewrite lookup_empty in H. discriminate.
  - intros name p H. rewrite lookup_empty in H. discriminate.
Qed.
End Statements.

(** ** Results *)
Section Results.
Context `{HPP : PgParser} `{HB : Backend} (send_ok : nat -> bool) (all_sent : forall n, send_ok n = true).

(** C15: For a statement that returns rows the client gets one description,
    every row of the result exactly once and in order, however many batches of
    128 they fill, and the count of the rows (as 32 bits) in the completion. *)
Theorem rows_are_delivered_once s h e' fields rows : st_PgParsable s = true -> st_Subscription s = None -> st_Backup s = None -> st_Restore s = None ->
  returnsRow (st_Tag s) = true -> ExecuteQuery (st_String s) (st_AST s) (eng h) = (e', inl (QRows fields rows None)) ->
  run send_ok s h = (set_output (output h ++ [BRowDescription fields] ++ map BDataRow rows ++ [makeCommandComplete (st_Tag s) (i32 (Z.of_nat (length rows)))]) (set_eng e' h), Some None).
Proof.
  intros Hp Hs Hb Hr Ht Hq. assert (Hi : isIUD (st_Tag s) = false) by apply (returns_not_iud _ Ht).
  unfold run, or_else at 1. rewrite Hp. cbn [negb andb]. unfold mbind at 1, M_bind at 1, mret at 1, M_ret at 1. cbn [set_tag st_Subscription st_Backup st_Restore st_String st_AST]. rewrite Hs, Hb, Hr.
  unfold or_else, doQuery, run_engine, mbind, M_bind. rewrite Hq. rewrite (deliver_rows send_ok all_sent (st_Tag s) false Ht Hi). unfold mret, M_ret. cbn beta iota. rewrite (send_sends send_ok all_sent).
  unfold set_output, described. cbn. rewrite <- !app_assoc. reflexivity.
Qed.

(** The texts [vars] of values that are not NULL, each read with its type and format. *)
Inductive reads_as : list Z -> list Z -> list (option string) -> list string -> Prop :=
| reads_as_nil : reads_as [] [] [] []
| reads_as_cons t types f formats v values x vars : ScanText t f (Some v) = Some (Some x) -> reads_as types formats values vars ->
    reads_as (t :: types) (f :: formats) (Some v :: values) (x :: vars).

Lemma reads_as_texts types formats values vars : reads_as types formats values vars ->
  length types = length values /\ bind_texts types formats values = Some (inl vars).
Proof.
  induction 1 as [|t types f formats v values x vars Hs _ [IH1 IH2]]; [split; reflexivity|]. cbn [length bind_texts]. rewrite Hs, IH2. split; [congruence | reflexivity].
Qed.

(** The type of parameter [i]: the client's, or the engine's where the client left it open. *)
Definition parameter_type (oids found : list Z) (i : nat) : option Z :=
  match oids !! i with
  | Some t => if decide (t = 0) then Some (default 0 (found !! i)) else Some t
  | None => found !! i
  end.

Lemma merge_types_lookup oids found i : merge_types oids found !! i = parameter_type oids found i.
Proof.
  unfold merge_types, parameter_type. rewrite list_lookup_imap. destruct (Nat.ltb_spec (length oids) (length found)) as [Hl|Hl].
  - destruct (oids !! i) as [t|] eqn:E.
    + rewrite lookup_app_l by (eapply lookup_lt_Some; exact E). rewrite E. cbn. destruct (decide (t = 0)) as [->|]; reflexivity.
    + apply lookup_ge_None in E. rewrite lookup_app_r, lookup_drop by exact E. replace (length oids + (i - length oids))%nat with i by lia.
      destruct (found !! i) as [t|]; [|reflexivity]. cbn. destruct (decide (t = 0)); reflexivity.
  - destruct (oids !! i) as [t|] eqn:E; cbn; [destruct (decide (t = 0)) as [->|]; reflexivity|].
    apply lookup_ge_None in E. symmetry. apply lookup_ge_None. lia.
Qed.

(** C16: A SELECT that the PostgreSQL parser reads and the handler does not answer
    itself or rewrite, parsed under any statement name, bound with values that are not
    NULL and one format code for each, and executed, is run by the engine on the text
    that was parsed with the texts of the values that were bound, each read with the type
    the client gave or, where it gave none, the one the engine found; and when every
    reply can be written, the client gets the completions of the three messages around
    the rows.  (A NULL is run as the empty string, [null_parameter_is_empty]; without
    format codes the Bind fails, [default_formats_fail].) *)
Theorem prepared_query_roundtrip name q oids portal formats params results rest h st more info types e1 e2 e3 vars fields rows :
  input h = FParse name q oids :: FBind portal name formats params results :: FExecute portal :: rest ->
  (forall h', convertQuery q h' = (h', Some (st :: more))) -> is_Some (st_AST st) -> st_PgParsable st = true -> st_Tag st = "SELECT"%string ->
  unconverted (set_extended true st) = true ->
  PrepareParsed (st_String st) (st_AST st) (eng h) = (e1, inl info) ->
  (forall i, types !! i = parameter_type oids (pi_params info) i) -> reads_as types formats params vars ->
  StmtBind (next h) vars e1 = (e2, None) -> ExecuteBound (next h) (st_String st) vars e2 = (e3, inl (QRows fields rows None)) ->
  exists h', nsteps (reads send_ok) 3 h h' /\ input h' = rest /\ eng h' = e3
    /\ output h' = output h ++ [BParseComplete; BBindComplete] ++ map BDataRow rows ++ [makeCommandComplete "SELECT" (i32 (Z.of_nat (length rows)))].
Proof.
  intros Hi Hc [node Ha] Hp Ht Hin Hprep Htypes Hread Hbind Hexec. destruct (reads_as_texts _ _ _ _ Hread) as [Hlen Hvars].
  replace types with (merge_types oids (pi_params info)) in Hlen, Hvars by (apply list_eq; intros i; rewrite merge_types_lookup, Htypes; reflexivity).
  destruct (parse_reads send_ok all_sent name q oids _ h st more info e1 Hi Hc ltac:(eauto) Hp (fun h' => should_plain (set_extended true st) h' Ht Hin) Hprep) as (h1 & Hr1 & Hi1 & He1 & Ho1 & Hs1).
  destruct (bind_reads send_ok all_sent portal name formats params results _ h1 _ (next h) vars e2 Hi1 Hs1 eq_refl ltac:(cbn; rewrite Ha; eauto) Hlen Hvars ltac:(rewrite He1; exact Hbind)) as (h2 & Hr2 & Hi2 & He2 & Ho2 & Hp2).
  destruct (execute_reads send_ok all_sent portal _ h2 _ (next h) fields rows e3 Hi2 Hp2 eq_refl eq_refl Ht ltac:(rewrite He2; exact Hexec)) as (h3 & Hr3 & Hi3 & He3 & Ho3).
  exists h3. split; [eapply nsteps_l; [exact Hr1|]; eapply nsteps_l; [exact Hr2|]; apply nsteps_once, Hr3|]. split; [exact Hi3|]. split; [exact He3|].
  rewrite Ho3, Ho2, Ho1, <- !app_assoc. reflexivity.
Qed.
End Results.

(** ** Where the replies go wrong *)
Section Defects.
Context `{HPP : PgParser} `{HB : Backend} (send_ok : nat -> bool) (all_sent : forall n, send_ok n = true).

(** A query that is neither the probe nor one of psql's or a workbench's. *)
Definition ordinary (q : string) : Prop :=
  q <> ";"%string /\ PsqlCommand (strings_ToLower q) = None
  /\ (strings_ToLower q ∉ ["select * from current_schema()"; "select * from current_schema();"; "select * from current_database()"; "select * from current_database();"]%string).

(** After a statement that is handled in place (SET, SHOW, RESET or a
    current_setting) was parsed as the unnamed statement, the next simple query
    is not run: dropping the unnamed statement closes a nil DuckDB statement,
    the panic is reported as an error, and the engine is not asked. *)
Theorem in_place_poisons_next_query q0 oids q rest h st more :
  input h = FParse EmptyString q0 oids :: FSync :: FQuery q :: rest -> ordinary q ->
  (forall h', convertQuery q0 h' = (h', Some (st :: more))) -> is_Some (st_AST st) -> stored_in_place (set_extended true st) ->
  exists h', nsteps (reads send_ok) 3 h h' /\ input h' = rest /\ eng h' = eng h
    /\ output h' = output h ++ [BParseComplete; BReadyForQuery; BErrorResponse "panic"; BReadyForQuery].
Proof.
  intros Hi Hq Hc Ha Hin. destruct (parse_in_place_reads send_ok all_sent EmptyString q0 oids _ h st more _ Hi Hc Ha (fun h' => should_stored _ h' Hin)) as (h1 & Hr1 & Hi1 & He1 & Ho1 & Hs1 & Hc1).
  pose proof (receive_sync send_ok all_sent h1 (FQuery q :: rest) Hi1) as Hr2. set (h2 := set_output _ _) in Hr2.
  destruct (query_after_nil send_ok all_sent q rest h2 _ (next h) eq_refl ltac:(exact Hs1) eq_refl eq_refl Hc1 eq_refl (proj1 Hq) (proj1 (proj2 Hq)) (proj2 (proj2 Hq))) as (h3 & Hr3 & Hi3 & He3 & Ho3).
  exists h3. split; [eapply nsteps_l; [exact Hr1|]; eapply nsteps_l; [exact Hr2|]; apply nsteps_once, Hr3|]. split; [exact Hi3|]. split; [rewrite He3; exact He1|].
  rewrite Ho3. unfold h2. cbn [set_output output]. rewrite Ho1, <- !app_assoc. reflexivity.
Qed.

(** A Bind that gives no parameter format codes, which by the protocol
    means that every parameter is text, fails whenever there is a parameter:
    the code that is not there is indexed, the panic is reported, the portal is
    not created and the batch is skipped. *)
Theorem default_formats_fail portal name params results rest h ps a : input h = FBind portal name [] params results :: rest ->
  preparedStatements h !! name = Some ps -> ps_Stmt ps = Some a -> is_Some (st_AST (ps_Statement ps)) -> length (ps_BindVarTypes ps) = length params -> params <> [] ->
  exists h', receiveMessage send_ok h = (h', RContinue) /\ input h' = after_sync rest /\ portals h' = portals h /\ eng h' = eng h
    /\ output h' = output h ++ [BErrorResponse "panic"; BReadyForQuery].
Proof.
  intros Hi Hps Ha [node Hn] Hlen Hne. unfold receiveMessage. rewrite Hi. cbn [handleMessage].
  assert (E : handleBind send_ok portal name [] params results (set_input rest h) = (set_waitForSync true (set_input rest h), None)).
  { unfold handleBind, mbind, M_bind, modify, get. change (preparedStatements (set_waitForSync true (set_input rest h))) with (preparedStatements h). rewrite Hps, Ha, Hn.
    unfold or_else, convertBindParameters, mbind, M_bind. rewrite Hlen, Nat.eqb_refl. cbn [negb]. destruct params as [|v params]; [congruence|]. destruct (ps_BindVarTypes ps); reflexivity. }
  unfold mbind, M_bind. rewrite E. rewrite (recovered_replies send_ok all_sent). eexists. split; [reflexivity|]. repeat split.
Qed.

(** A NULL parameter is run as the empty string. *)
Lemma null_parameter_is_empty t f types formats params : ScanText t f None = Some None -> ScanText t f (Some EmptyString) = Some (Some EmptyString) ->
  bind_texts (t :: types) (f :: formats) (None :: params) = bind_texts (t :: types) (f :: formats) (Some EmptyString :: params).
Proof. intros H1 H2. cbn [bind_texts]. rewrite H1, H2. reflexivity. Qed.

(** Skipping to the Sync does not end the wait for it, so after a batch
    that failed the handler still waits; when a chunk of a COPY cannot be loaded
    then, every message the client has sent since is thrown away up to a Sync
    that a simple-protocol client never sends, queries included. *)
Theorem copy_failure_discards_queries data rest h s l e1 e2 err : input h = FCopyData data :: rest -> waitForSync h = true -> (FSync ∉ rest) ->
  copyFromStdinState h = Some s -> dataLoader s = Some l -> NewContext (eng h) = (e1, None) -> LoadChunk l (first_chunk s data) e1 = (e2, inr err) ->
  exists h', receiveMessage send_ok h = (h', RContinue) /\ input h' = [] /\ waitForSync h' = true
    /\ output h' = output h ++ [BErrorResponse err; BReadyForQuery].
Proof.
  intros Hi Hw Hsync Hs Hl Hc Hload. unfold receiveMessage. rewrite Hi. cbn [handleMessage].
  assert (E : exists s', handleCopyData data (set_input rest h) = (set_copy (Some s') (set_eng e2 (set_input rest h)), Some (false, false, Some err))).
  { eexists. unfold handleCopyData, handleCopyDataHelper, get, mbind, M_bind. cbn [set_input copyFromStdinState]. rewrite Hs. unfold or_error, or_else, run_engine, mbind, M_bind. cbn [set_input eng]. rewrite Hc, Hl.
    cbn. rewrite Hload. cbn. reflexivity. }
  destruct E as [s' E]. rewrite E. rewrite (end_error send_ok all_sent). unfold discard_if. cbn [set_copy set_eng set_input waitForSync negb andb]. rewrite Hw.
  eexists. split; [reflexivity|]. cbn. split; [apply (after_no_sync rest Hsync)|]. split; [exact Hw | reflexivity].
Qed.
End Defects.

(** ** A backend the claims can be tried on

    The engine is the list of the queries it was asked; a query of text [SHOW]
    is handled in place, one of text [COPY] is a COPY FROM STDIN, every other
    returns one row; a chunk of text [bad] cannot be loaded. *)
Definition node0 : CopyNode := mkCopyNode "public" "t" [] CopyFormatText.
#[local] Instance parser_model : PgParser := {|
  Parse q := if decide (q = EmptyString) then Some [] else if decide (q = "SHOW"%string) then Some [(q, NShowVar "work_mem")]
             else if decide (q = "COPY"%string) then Some [(q, NCopyFrom true node0)] else Some [(q, NOther 0)];
  ParseOne _ := None;
  StatementTag n := match n with NShowVar _ => "SHOW" | NCopyFrom _ _ => "COPY" | _ => "SELECT" end;
  RemoveSpaceAndDelimiter q := q;
  url_Parse _ := None
|}.
Definition field0 : FieldDescription := mkField "v" 25 4 0.
#[local] Instance backend_model : Backend := {|
  engine := list string;
  Table := unit;
  Loader := list string;
  NewContext e := (e, None);
  CloseBackendConn e := e;
  PrepareParsed q _ e := (e, inl (mkInfo [25] [field0] ST_SELECT));
  StmtBind _ _ e := (e, None);
  ExecuteQuery q _ e := (q :: e, inl (QRows [field0] [[Some q]] None));
  ExecuteBound _ q vars e := (q :: e, inl (QRows [field0] [map Some vars] None));
  getStatementTag _ e := (e, inl "SELECT"%string);
  ScanText _ _ v := Some v;
  Location := "UTC";
  GetGlobal name := if decide (name = "work_mem"%string) then Some (VInt 4096) else None;
  SetSessionVariable _ _ e := (e, None);
  GetSessionVariable _ e := (e, inl (VInt 4096));
  FormatFloat n k := pretty n;
  QueryRow _ e := (e, inl None);
  RunSubscription _ e := (e, None);
  RunBackup _ e := (e, inr "no storage"%string);
  RunRestore _ e := (e, inr "no storage"%string);
  ValidateCopyFrom _ e := (e, inl tt);
  StartLoader _ _ _ e := (e, inl []);
  LoadChunk l d e := (e, if decide (d = "bad"%string) then inr "bad chunk"%string else inl (d :: l));
  FinishLoader l e := (e, inl (Z.of_nat (length l)));
  CopyOut _ _ _ _ _ e := (e, ([BCopyOutResponse 1; BCopyData "x"], inl 1))
|}.
#[local] Instance backend_model_laws : BackendLaws.
Proof.
  split.
  - intros s n q f o e e' msgs r E. cbn in E. injection E as _ <- _. rewrite !not_elem_of_cons. repeat split; try discriminate. apply not_elem_of_nil.
Qed.
Definition always (n : nat) : bool := true.
Definition no_queries : engine := ([] : list string).
Definition asked (q : string) : engine := ([q] : list string).

Definition failing_batch : list FrontendMessage := [FParse "s" "SELECT 1" []; FOther; FExecute "p"; FExecute "q"; FSync].
Definition after_batch : Handler := new_handler no_queries (failing_batch ++ [FQuery "SELECT 2"]).
Lemma batch_gets_one_ready_witness : exists h' done skipped new, failing_batch = done ++ skipped /\ nsteps (reads always) (length done) after_batch h' /\ input h' = [FQuery "SELECT 2"]
  /\ output h' = new ++ [BReadyForQuery] /\ readies new = flushes done
  /\ ((skipped = [] /\ waitForSync h' = false) \/ (waitForSync h' = true /\ exists e new', new = new' ++ [BErrorResponse e])).
Proof. exact (batch_gets_one_ready always (fun _ => eq_refl) (FParse "s" "SELECT 1" []) [FOther; FExecute "p"; FExecute "q"] [FQuery "SELECT 2"] after_batch eq_refl eq_refl eq_refl). Defined.

(** What the batch is answered by here: the Flush is unknown, the next message fails. *)
Example failing_batch_replies : output (serve always 3 after_batch).1
  = [BParseComplete; BErrorResponse "unhandled message"; BReadyForQuery; BErrorResponse "portal p does not exist"; BReadyForQuery].
Proof. vm_compute. reflexivity. Qed.

Lemma query_gets_one_ready_witness : exists h' new, receiveMessage always (new_handler no_queries [FQuery "SELECT 1"]) = (h', RContinue) /\ (BReadyForQuery ∉ new)
  /\ (output h' = new ++ [BReadyForQuery] \/ (output h' = new /\ is_Some (copyFromStdinState h'))).
Proof.
  destruct (query_gets_one_ready always (fun _ => eq_refl) "SELECT 1" [] (new_handler no_queries [FQuery "SELECT 1"]) eq_refl) as (h' & new & H1 & H2 & H3 & _).
  exists h', new. split; [exact H1|]. split; [exact H2 | exact H3].
Defined.

(** A panic while the handler still waits for the Sync of a failed batch: the simple
    query that comes next is thrown away with what caused it. *)
Definition stale_handler : Handler := mkHandler {[ EmptyString := mkPrepared (mkStmt "SHOW" (Some (NShowVar "work_mem")) "SHOW" true true None None None) [] [] None (Some 0%nat) ]}
  ∅ true None {[ 0%nat := false ]} 1 [] no_queries [FQuery "SELECT 1"; FQuery "SELECT 2"] [].
Example panic_discards_next_query : (fun h => (input h, output h)) (receiveMessage always stale_handler).1 = ([], [BErrorResponse "panic"; BReadyForQuery]).
Proof. vm_compute. reflexivity. Qed.

Lemma prepared_closed_once_witness : NoDup (closes (serve always 9 (new_handler no_queries
  [FParse "s" "SELECT $1" []; FBind "p" "s" [0] [Some "7"%string] []; FClose true "s"; FClose false "p"; FSync])).1).
Proof. apply (prepared_closed_once always). Defined.

Definition select1 : ConvertedStatement := mkStmt "SELECT 1" (Some (NOther 0)) "SELECT" true false None None None.
Lemma rows_are_delivered_once_witness : output (run always select1 (new_handler no_queries [])).1 = [BRowDescription [field0]; BDataRow [Some "SELECT 1"%string]; BCommandComplete "SELECT 1"].
Proof. rewrite (rows_are_delivered_once always (fun _ => eq_refl) select1 (new_handler no_queries []) (asked "SELECT 1") [field0] [[Some "SELECT 1"%string]]); vm_compute; reflexivity. Defined.

Lemma prepared_query_roundtrip_witness : exists h',
  nsteps (reads always) 3 (new_handler no_queries [FParse EmptyString "SELECT $1" []; FBind "p" EmptyString [0] [Some "7"%string] []; FExecute "p"]) h'
  /\ eng h' = asked "SELECT $1" /\ output h' = [BParseComplete; BBindComplete; BDataRow [Some "7"%string]; BCommandComplete "SELECT 1"].
Proof.
  destruct (prepared_query_roundtrip always (fun _ => eq_refl) EmptyString "SELECT $1" [] "p" [0] [Some "7"%string] [] [] (new_handler no_queries [FParse EmptyString "SELECT $1" []; FBind "p" EmptyString [0] [Some "7"%string] []; FExecute "p"])
    (mkStmt "SELECT $1" (Some (NOther 0)) "SELECT" true false None None None) [] (mkInfo [25] [field0] ST_SELECT) [25] no_queries no_queries (asked "SELECT $1") ["7"%string] [field0] [[Some "7"%string]]
    eq_refl) as (h' & Hs & _ & He & Ho); [intros h'; vm_compute; reflexivity | eexists; reflexivity | reflexivity | reflexivity | vm_compute; reflexivity | reflexivity | intros [|[|]]; reflexivity
     | constructor; [reflexivity | constructor] | reflexivity | reflexivity |].
  exists h'. split; [exact Hs|]. split; [exact He | exact Ho].
Defined.

Lemma in_place_poisons_next_query_witness : exists h',
  nsteps (reads always) 3 (new_handler no_queries [FParse EmptyString "SHOW" []; FSync; FQuery "SELECT 1"]) h' /\ eng h' = no_queries
  /\ output h' = [BParseComplete; BReadyForQuery; BErrorResponse "panic"; BReadyForQuery].
Proof.
  destruct (in_place_poisons_next_query always (fun _ => eq_refl) "SHOW" [] "SELECT 1" [] (new_handler no_queries [FParse EmptyString "SHOW" []; FSync; FQuery "SELECT 1"])
    (mkStmt "SHOW" (Some (NShowVar "work_mem")) "SHOW" true false None None None) [] eq_refl) as (h' & Hs & _ & He & Ho).
  - split; [discriminate|]. split; [reflexivity|]. rewrite !not_elem_of_cons. repeat split; try (vm_compute; discriminate). apply not_elem_of_nil.
  - intros h'. vm_compute. reflexivity.
  - eexists. reflexivity.
  - left. split; [reflexivity | eexists; reflexivity].
  - exists h'. split; [exact Hs|]. split; [exact He | exact Ho].
Defined.

Definition one_parameter : PreparedStatementData := mkPrepared select1 [field0] [25] (Some 0%nat) (Some 0%nat).
Definition bound_handler : Handler := mkHandler {[ "s"%string := one_parameter ]} ∅ false None {[ 0%nat := false ]} 1 [] no_queries [FBind "p" "s" [] [Some "7"%string] []; FExecute "p"; FSync] [].
Lemma default_formats_fail_witness : exists h', receiveMessage always bound_handler = (h', RContinue) /\ input h' = [] /\ portals h' = ∅ /\ output h' = [BErrorResponse "panic"; BReadyForQuery].
Proof.
  destruct (default_formats_fail always (fun _ => eq_refl) "p" "s" [Some "7"%string] [] [FExecute "p"; FSync] bound_handler one_parameter 0%nat eq_refl (lookup_singleton_eq _ _) eq_refl ltac:(eexists; reflexivity) eq_refl ltac:(discriminate)) as (h' & H1 & H2 & H3 & _ & H4).
  exists h'. split; [exact H1|]. split; [exact H2|]. split; [exact H3 | exact H4].
Defined.

Definition no_rows : Loader := ([] : list string).
Definition copying : CopyFromStdinState := mkCopyState node0 (tt : unit) EmptyString (Some no_rows) None.
Definition copy_handler : Handler := mkHandler ∅ ∅ true (Some copying) ∅ 0 [] no_queries [FCopyData "bad"; FCopyDone; FQuery "SELECT 1"] [].
Lemma copy_failure_discards_queries_witness : exists h', receiveMessage always copy_handler = (h', RContinue) /\ input h' = [] /\ output h' = [BErrorResponse "bad chunk"; BReadyForQuery].
Proof.
  destruct (copy_failure_discards_queries always (fun _ => eq_refl) "bad" [FCopyDone; FQuery "SELECT 1"] copy_handler copying no_rows no_queries no_queries "bad chunk" eq_refl eq_refl) as (h' & H1 & H2 & _ & H3);
    [rewrite !not_elem_of_cons; repeat split; try discriminate; apply not_elem_of_nil | reflexivity .. |].
  exists h'. split; [exact H1|]. split; [exact H2 | exact H3].
Defined.
