(* ===== verification/InPlaceClaims.v ===== *)
(** * Properties of rewriting, parameters and the statements handled in place *)
From Stdlib Require Import Ascii String.
From stdpp Require Import pretty.
From S2P Require Import Prelude Identifier InternalTables CatalogErrors Regexp SqlText SqlTextFacts PsqlCommands PgConfig Rewrite.
From S2P Require Import Subscriptions Backup PgHandler PgHandlerFacts InPlaceFacts PgHandlerClaims RewriteFacts.

#[local] Open Scope list_scope.

(** ** Rewriting *)

(** [ConvertToSys] redirects every reference to a table of PostgreSQL's
    catalog and changes nothing else: in a query without comments written as
    gaps and references (FROM, JOIN or INTO in any case, blanks, the name with or
    without pg_catalog), each reference becomes the keyword and the name in
    __sys__, and the gaps are kept character by character. *)
Theorem catalog_references_redirected q refs tail : bytes (RemoveComments q) = query_text refs tail -> query_wf None refs tail = true ->
  ConvertToSys q = text (redirected refs tail).
Proof.
  intros Hq Hw. unfold ConvertToSys, ReplaceAll. rewrite Hq, replace_references; [reflexivity | exact Hw|]. pose proof (wf_fuel _ _ _ Hw). lia.
Qed.

Definition two_refs : list TableRef :=
  [mkRef (bytes "SELECT * ") (bytes "FROM") (bytes " ") true "pg_class"; mkRef (bytes " c ") (bytes "join") (bytes "  ") false "pg_namespace"].
Lemma catalog_references_redirected_witness :
  ConvertToSys "SELECT * FROM pg_catalog.pg_class c join  pg_namespace n" = "SELECT * FROM __sys__.pg_class c join __sys__.pg_namespace n"%string.
Proof. rewrite (catalog_references_redirected _ two_refs (bytes " n")); vm_compute; reflexivity. Defined.

(** The name is not asked to end: other tables are redirected too, and a quoted
    one loses its opening quote only. *)
Example longer_name_redirected : ConvertToSys "SELECT * FROM pg_classes" = "SELECT * FROM __sys__.pg_classes"%string.
Proof. vm_compute. reflexivity. Qed.
Example longer_quoted_name_broken : ConvertToSys (requote "SELECT * FROM `pg_classes`") = requote "SELECT * FROM __sys__.pg_classes`".
Proof. vm_compute. reflexivity. Qed.

(** A call of a catalog function without its schema loses the character
    before it, whatever it is: the blank after SELECT, a comma, or the last
    letter of another function's name. *)
Theorem unqualified_call_loses_character pre c name tail : name ∈ renamed_macros -> char_is "." c = false -> char_is "034" c = false ->
  quiet renameMacroRegex None pre ((c :: bytes name ++ ["("%char]) ++ tail) = true -> silent renameMacroRegex (Some "("%char) tail = true ->
  ConvertPgCatalogFuncToSys (text (pre ++ c :: bytes name ++ "("%char :: tail)) = text (pre ++ bytes "__sys__." ++ bytes name ++ "("%char :: tail).
Proof.
  intros Hn Hd Hq Hpre Htail. assert (Hsub : FindStringSubmatch renameMacroRegex (text (c :: bytes name ++ ["("%char])) = Some [(3%nat, bytes name); (2%nat, [c])]).
  { unfold FindStringSubmatch. rewrite bytes_text. cbn [find_from]. rewrite (match_call None c name [] Hn Hd Hq). reflexivity. }
  unfold ConvertPgCatalogFuncToSys, ReplaceAll. rewrite bytes_text.
  replace (pre ++ c :: bytes name ++ "("%char :: tail) with (pre ++ (c :: bytes name ++ ["("%char]) ++ tail) by (cbn [app]; rewrite <- !app_assoc; reflexivity).
  rewrite (replace_next _ _ _ _ _ _ _ _ [(3%nat, bytes name); (2%nat, [c])]); [|exact Hpre | discriminate|].
  - unfold rename_macro. rewrite Hsub. change (group 1 [(3%nat, bytes name); (2%nat, [c])]) with EmptyString. rewrite decide_True by reflexivity.
    change (group 3 [(3%nat, bytes name); (2%nat, [c])]) with (text (bytes name)). rewrite bytes_text, replace_silent.
    + cbn [app]. rewrite <- !app_assoc. reflexivity.
    + replace (last_of None (pre ++ c :: bytes name ++ ["("%char])) with (Some "("%char); [exact Htail|].
      rewrite last_of_app, app_comm_cons, last_of_app. reflexivity.
  - cbn [app]. rewrite <- app_assoc. cbn [app]. rewrite match_call by assumption. rewrite last_of_app, app_comm_cons, last_of_app. reflexivity.
Qed.

Lemma unqualified_call_loses_character_witness :
  ConvertPgCatalogFuncToSys "SELECT pg_get_expr(a, b)" = "SELECT__sys__.pg_get_expr(a, b)"%string.
Proof. apply (unqualified_call_loses_character (bytes "SELECT") " " "pg_get_expr" (bytes "a, b)")); vm_compute; (reflexivity || set_solver). Defined.

(** With the schema the call is redirected; the end of another name is a call too. *)
Example qualified_call_kept : ConvertPgCatalogFuncToSys "SELECT pg_catalog.pg_get_expr(a)" = "SELECT __sys__.pg_get_expr(a)"%string.
Proof. vm_compute. reflexivity. Qed.
Example other_function_renamed : ConvertPgCatalogFuncToSys "SELECT my_pg_get_expr(a)" = "SELECT my__sys__.pg_get_expr(a)"%string.
Proof. vm_compute. reflexivity. Qed.
(** The comment of [ConvertToDuckDBMacro] promises one pair of parentheses. *)
Example macro_wrapped_twice : ConvertToDuckDBMacro "SELECT (information_schema._pg_expandarray(k)).x" = "SELECT ((FROM information_schema._pg_expandarray(k))).x"%string.
Proof. vm_compute. reflexivity. Qed.

(** ** Parameters *)
(** A value as an SQL literal, and the query that selects it. *)
Definition sql_literal (v : string) : string := text (SqlTextFacts.quoted (bytes v)).
Definition selecting (v name : string) : string := "SELECT " +:+ sql_literal v +:+ " AS " +:+ dquote +:+ name +:+ dquote +:+ ";".
Definition quote_free (v : string) : Prop := forallb (not_in ["'"%char]) (bytes v) = true.

Lemma doubled_longer l : (length l <= length (doubled l))%nat.
Proof. induction l as [|c l IH]; [reflexivity|]. cbn [doubled]. destruct (char_is "'" c); cbn [length]; lia. Qed.
Lemma doubled_same l : doubled l = l <-> forallb (not_in ["'"%char]) l = true.
Proof.
  induction l as [|c l IH]; [split; reflexivity|]. cbn [doubled forallb]. unfold not_in at 1. cbn [existsb]. rewrite orb_false_r. destruct (char_is "'" c); cbn [negb andb].
  - split; [intros E | discriminate]. apply (f_equal (@length _)) in E. cbn [length] in E. pose proof (doubled_longer l). lia.
  - rewrite <- IH. split; [intros E; injection E; auto | intros ->; reflexivity].
Qed.
Lemma bytes_inj a b : bytes a = bytes b -> a = b.
Proof. intros E. rewrite <- (text_bytes a), <- (text_bytes b), E. reflexivity. Qed.
(** The text that the code sends is the query that selects the value exactly when the
    value has no quote in it. *)
Lemma select_as_selecting v name : select_as v name = selecting v name <-> quote_free v.
Proof.
  unfold quote_free. rewrite <- doubled_same. unfold select_as, selecting, sql_literal, SqlTextFacts.quoted. split.
  - intros E. apply (f_equal bytes) in E. rewrite !bytes_app, bytes_text in E. cbn [bytes app] in E. injection E as E. rewrite <- !app_assoc in E. cbn [app] in E. symmetry. apply (app_inv_tail _ _ _ E).
  - intros E. apply bytes_inj. rewrite !bytes_app, bytes_text, E. cbn. rewrite <- app_assoc. reflexivity.
Qed.

Section Parameters.
Context `{HPP : PgParser} `{HB : Backend} `{HV : !SessionVarLaws} (send_ok : nat -> bool) (all_sent : forall n, send_ok n = true).

(** The statements SET name = e, SHOW name and RESET name as the parser gives them. *)
Definition set_statement (q name : string) (e : SetExpr) : ConvertedStatement := mkStmt q (Some (NSetVar name [e] false false)) "SET" true false None None None.
Definition show_statement (q name : string) : ConvertedStatement := mkStmt q (Some (NShowVar name)) "SHOW" true false None None None.
Definition reset_statement (q name : string) : ConvertedStatement := mkStmt q (Some (NSetVar name [] true false)) "RESET" true false None None None.

(** C19: SET of a known parameter, its name neither database nor all, does what the parameter decides, on a
    connection that takes every message.  When it accepts the value (after conversion and
    validation, and unless it is read-only) the client gets SET and the new value as a
    parameter status, no other variable changes, and a SHOW that follows runs one query,
    which is the query that selects that value as a literal under the parameter's name
    exactly when the value has no quote in it: the code does not double quotes.  When the
    parameter does not accept the value, the statement fails and nothing is sent or
    changed. *)
Theorem set_is_shown q q' name p e v h : find_parameter Location name = Some p -> strings_ToLower name <> "database"%string -> strings_ToLower name <> "all"%string -> set_text e = Some v ->
  match SetValue Convert LoadLocation p match e with EDefault => GetDefault p | _ => VString v end false with
  | inl w => exists h1 e2 sql, handleInPlaceQueries send_ok (set_statement q name e) h = (h1, Some (true, None))
      /\ output h1 = output h ++ [BCommandComplete "SET"; BParameterStatus (strings_ToLower name) (format_value w)] /\ same_vars_but (strings_ToLower name) h h1
      /\ handleInPlaceQueries send_ok (show_statement q' name) h1 = run_handled send_ok (plain_statement sql "SELECT") (set_eng e2 h1)
      /\ (sql = selecting (format_value w) (strings_ToLower name) <-> quote_free (format_value w))
  | inr _ => exists h1 msg, handleInPlaceQueries send_ok (set_statement q name e) h = (h1, Some (false, Some msg)) /\ output h1 = output h
      /\ forall m, var m (eng h1) = var m (eng h)
  end.
Proof.
  intros Hp Hdb Hall Hv. set (key := strings_ToLower name) in *. assert (Hk : find_parameter Location key = Some p) by (unfold key; rewrite find_lower; exact Hp).
  assert (Hset : handleInPlaceQueries send_ok (set_statement q name e) h = setPgSessionVar send_ok key (VString v) match e with EDefault => true | _ => false end "SET" h).
  { unfold handleInPlaceQueries. cbn [set_statement st_Tag st_AST]. rewrite (decide_False (P := "SET"%string = "SELECT"%string)), (decide_False (P := "SET"%string = "SHOW"%string)), (decide_True (P := "SET"%string = "SET"%string)) by (reflexivity || discriminate).
    unfold handle_set, set_parameter. cbn [set_statement st_AST]. fold key. rewrite decide_False by exact Hdb. rewrite (valid_found key p Hk), Hv. reflexivity. }
  assert (Hshow : forall h1, exists e2, handleInPlaceQueries send_ok (show_statement q' name) h1 = run_handled send_ok (plain_statement (select_as (format_value (var key (eng h1))) key) "SELECT") (set_eng e2 h1)).
  { intros h1. destruct (query_var key p h1 Hk) as (e2 & Hq & _). exists e2. unfold handleInPlaceQueries. cbn [show_statement st_Tag st_AST].
    rewrite (decide_False (P := "SHOW"%string = "SELECT"%string)), (decide_True (P := "SHOW"%string = "SHOW"%string)) by (reflexivity || discriminate).
    unfold handle_show. cbn [show_statement st_AST]. fold key. rewrite decide_False by exact Hall. unfold mbind at 1, M_bind at 1. rewrite Hq. reflexivity. }
  rewrite Hset. pose proof (set_var send_ok all_sent key p (VString v) match e with EDefault => true | _ => false end "SET" h Hk eq_refl) as H.
  assert (E : (if match e with EDefault => true | _ => false end then GetDefault p else VString v) = match e with EDefault => GetDefault p | _ => VString v end) by (destruct e; reflexivity).
  rewrite E in H. destruct (SetValue Convert LoadLocation p _ false) as [w|err]; [|exact H].
  destruct H as (h1 & H1 & H2 & H3 & H4). destruct (Hshow h1) as (e2 & H5). exists h1, e2, (select_as (format_value w) key). rewrite H3 in H5. split; [exact H1|]. split; [exact H2|]. split; [exact H4|]. split; [exact H5 | apply select_as_selecting].
Qed.

(** RESET of any parameter that can be changed, the time zone apart,
    succeeds and restores the default of the table: every default is a value of
    the parameter's own type, within its bounds or among its choices. *)
Theorem reset_restores_default q name p h : find_parameter Location name = Some p -> IsReadOnly p = false -> strings_ToLower name <> "timezone"%string ->
  exists h', handleInPlaceQueries send_ok (reset_statement q name) h = (h', Some (true, None)) /\ var (strings_ToLower name) (eng h') = GetDefault p /\ in_type (p_Type p) (GetDefault p) = true
    /\ output h' = output h ++ [BCommandComplete "RESET"; BParameterStatus (strings_ToLower name) (format_value (GetDefault p))] /\ same_vars_but (strings_ToLower name) h h'.
Proof.
  intros Hp Hr Htz. set (key := strings_ToLower name) in *. assert (Hk : find_parameter Location key = Some p) by (unfold key; rewrite find_lower; exact Hp).
  assert (Hreset : handleInPlaceQueries send_ok (reset_statement q name) h = setPgSessionVar send_ok key VNil true "RESET" h).
  { unfold handleInPlaceQueries. cbn [reset_statement st_Tag st_AST].
    rewrite (decide_False (P := "RESET"%string = "SELECT"%string)), (decide_False (P := "RESET"%string = "SHOW"%string)), (decide_False (P := "RESET"%string = "SET"%string)), (decide_True (P := "RESET"%string = "RESET"%string)) by (reflexivity || discriminate).
    unfold handle_reset. cbn [reset_statement st_AST negb andb]. fold key. rewrite (valid_found key p Hk). reflexivity. }
  rewrite Hreset. pose proof (set_var send_ok all_sent key p VNil true "RESET" h Hk eq_refl) as H. cbn beta iota in H. rewrite (default_is_kept Convert LoadLocation Location name p kept Hp Htz Hr) in H.
  destruct H as (h' & H1 & H2 & H3 & H4). exists h'. split; [exact H1|]. split; [exact H3|]. split; [|split; [exact H2 | exact H4]].
  apply find_parameter_wf in Hp. unfold entry_wf in Hp. rewrite !andb_true_iff in Hp. apply Hp.
Qed.

(** Only the first of several values is set. *)
Lemma set_keeps_first_value q name e es : handle_set send_ok (mkStmt q (Some (NSetVar name (e :: es) false false)) "SET" true false None None None) = handle_set send_ok (set_statement q name e).
Proof. reflexivity. Qed.

(** A prepared pg_is_in_recovery is answered with the state at its Parse. *)
Lemma recovery_frozen s h h1 : st_Tag s = "SELECT"%string -> st_String s = "select pg_catalog.pg_is_in_recovery()"%string -> isInRecovery h = (h1, Some (inl "t"%string)) ->
  shouldQueryBeHandledInPlace s h = (h1, Some (inl (false, set_string (select_as "t" "pg_is_in_recovery") s))).
Proof.
  intros Ht Hs Hr. unfold shouldQueryBeHandledInPlace. rewrite decide_True by exact Ht. unfold selectionConversions. cbn [convert_until_const needConvert doConvert isConstQuery].
  rewrite Hs. change (MatchString pgIsInRecoveryRegex (RemoveComments "select pg_catalog.pg_is_in_recovery()")) with true. cbn [negb].
  unfold try, mbind, M_bind. rewrite Hr. cbn beta iota. unfold mret at 1, M_ret at 1. cbn [st_String set_string pure_conversion needConvert].
  set (q := select_as "t" "pg_is_in_recovery"). change (MatchString pgWALLSNRegex (RemoveComments q)) with false. change (setting_name q) with (@None string).
  change (MatchString pgCatalogRegex (RemoveComments q)) with false. change (MatchString renameMacroRegex (RemoveComments q) || MatchString macroRegex (RemoveComments q)) with false.
  change (MatchString simpleStrMatchingRegex (RemoveComments q)) with false. change (MatchString pgAnyOpRegex (RemoveComments q)) with false. reflexivity.
Qed.
End Parameters.

(** Go names the zone of the machine Local; the validation of TimeZone takes that
    for Los Angeles, so RESET moves the session there. *)
Lemma reset_moves_time_zone Convert LoadLocation p : keeps_values Convert -> find_parameter "Local" "TimeZone" = Some p ->
  SetValue Convert LoadLocation p (GetDefault p) false = inl (VString "America/Los_Angeles").
Proof.
  intros Hk Hp. assert (E : p = mkParameter "TimeZone" (VString "Local") ContextUser SysString SourceConfigurationFile (VString "Local") true) by (vm_compute in Hp; injection Hp as <-; reflexivity).
  subst p. unfold SetValue, InitValue, GetDefault. cbn [p_Type p_Default]. rewrite (Hk SysString (VString "Local") eq_refl). reflexivity.
Qed.
(** The reset value of a boolean is a text. *)
Lemma hashjoin_reset_value p : find_parameter "UTC" "enable_hashjoin" = Some p -> in_type (p_Type p) (p_ResetVal p) = false.
Proof. intros H. vm_compute in H. injection H as <-. reflexivity. Qed.

(** ** A store of variables the claims can be tried on *)
Definition convert_model (t : SystemType) (v : value) : option value := if in_type t v then Some v else None.
Definition load_model (s : string) : option string := Some s.
Definition set_model (n : string) (v : value) (e : gmap string value) : gmap string value * option string :=
  match find_parameter "UTC" n with
  | None => (e, Some "unknown"%string)
  | Some p => match SetValue convert_model load_model p v false with inl w => (<[n := w]> e, None) | inr _ => (e, Some "refused"%string) end
  end.
Definition var_model (n : string) (e : gmap string value) : value :=
  match e !! n with Some v => v | None => match find_parameter "UTC" n with Some p => GetDefault p | None => VNil end end.
#[local] Instance vars_backend : Backend := {|
  engine := gmap string value;
  Table := unit;
  Loader := unit;
  NewContext e := (e, None);
  CloseBackendConn e := e;
  PrepareParsed _ _ e := (e, inr "none"%string);
  StmtBind _ _ e := (e, None);
  ExecuteQuery _ _ e := (e, inl (QAffected 0));
  ExecuteBound _ _ _ e := (e, inl (QAffected 0));
  getStatementTag _ e := (e, inl "SELECT"%string);
  ScanText _ _ v := Some v;
  Location := "UTC";
  GetGlobal n := GetDefault <$> find_parameter "UTC" n;
  SetSessionVariable := set_model;
  GetSessionVariable n e := (e, inl (var_model n e));
  FormatFloat n _ := pretty n;
  QueryRow _ e := (e, inl None);
  RunSubscription _ e := (e, None);
  RunBackup _ e := (e, inr "none"%string);
  RunRestore _ e := (e, inr "none"%string);
  ValidateCopyFrom _ e := (e, inl tt);
  StartLoader _ _ _ e := (e, inl tt);
  LoadChunk l _ e := (e, inl l);
  FinishLoader _ e := (e, inl 0);
  CopyOut _ _ _ _ _ e := (e, ([], inl 0))
|}.
#[local] Instance vars_laws : SessionVarLaws.
Proof.
  refine (Build_SessionVarLaws vars_backend convert_model load_model var_model _ _ _ _ _).
  - intros t v H. unfold convert_model. rewrite H. reflexivity.
  - intros e. exists e. split; reflexivity.
  - intros n p H. cbn [GetGlobal vars_backend]. rewrite (H : find_parameter "UTC" n = Some p). reflexivity.
  - intros n p e _. reflexivity.
  - intros n p v e H. cbn [SetSessionVariable vars_backend]. unfold set_model. rewrite (H : find_parameter "UTC" n = Some p).
    destruct (SetValue convert_model load_model p v false) as [w|err]; [|eauto]. eexists. split; [reflexivity|]. unfold var_model. split; [rewrite lookup_insert_eq; reflexivity|].
    intros m Hm. rewrite lookup_insert_ne by congruence. reflexivity.
Defined.
#[local] Instance parser_none : PgParser := {| Parse _ := None; ParseOne _ := None; StatementTag _ := EmptyString; RemoveSpaceAndDelimiter q := q; url_Parse _ := None |}.
Definition no_vars : engine := (∅ : gmap string value).
Definition application_name : PgParameter := mkParameter "application_name" (VString "psql") ContextUser SysString SourceClient (VString "psql") false.
Definition fresh : Handler := mkHandler ∅ ∅ false None ∅ 0 [] no_vars [] [].

Lemma set_is_shown_witness : exists h1 e2, handleInPlaceQueries always (set_statement "SET application_name = 'x'" "application_name" (EString "x")) fresh = (h1, Some (true, None))
  /\ output h1 = [BCommandComplete "SET"; BParameterStatus "application_name" "x"] /\ same_vars_but "application_name" fresh h1
  /\ handleInPlaceQueries always (show_statement "SHOW application_name" "application_name") h1
     = run_handled always (plain_statement (requote "SELECT 'x' AS `application_name`;") "SELECT") (set_eng e2 h1).
Proof.
  assert (Hp : find_parameter "UTC" "application_name" = Some application_name) by (vm_compute; reflexivity).
  destruct (set_is_shown always (fun _ => eq_refl) "SET application_name = 'x'" "SHOW application_name" "application_name" application_name (EString "x") "x" fresh Hp ltac:(vm_compute; discriminate) ltac:(vm_compute; discriminate) eq_refl)
    as (h1 & e2 & sql & H1 & H2 & H3 & H4 & H5).
  exists h1, e2. split; [exact H1|]. split; [exact H2|]. split; [exact H3|]. rewrite <- (proj2 H5 eq_refl : sql = requote "SELECT 'x' AS `application_name`;"). exact H4.
Defined.

(** A value with a quote in it: the query is not one that selects it. *)
Lemma quote_is_not_doubled name : select_as "it's" name <> selecting "it's" name.
Proof. intros E. apply select_as_selecting in E. discriminate E. Qed.

Lemma reset_restores_default_witness : exists h', handleInPlaceQueries always (reset_statement "RESET application_name" "application_name") fresh = (h', Some (true, None))
  /\ output h' = [BCommandComplete "RESET"; BParameterStatus "application_name" "psql"].
Proof.
  assert (Hp : find_parameter "UTC" "application_name" = Some application_name) by (vm_compute; reflexivity).
  destruct (reset_restores_default always (fun _ => eq_refl) "RESET application_name" "application_name" application_name fresh Hp eq_refl ltac:(vm_compute; discriminate)) as (h' & H1 & _ & _ & H2 & _).
  exists h'. split; [exact H1 | exact H2].
Defined.
