(* ===== verification/FrontClaims.v ===== *)
(** * SQL text and backups: the claims

    Comments, COPY options and storage endpoints are read back from what was
    written; what a failed backup leaves behind. *)

From Stdlib Require Import Ascii String.
From S2P Require Import Prelude GoTime Charset Schema Identifier InternalTables Delta RowAppend PgDecode CatalogErrors Session Logrepl Models EngineModel PgModel LogreplClaims.
From S2P Require Import Regexp SqlText SqlTextFacts Subscriptions Backup.

#[local] Open Scope list_scope.

(** ** SQL text *)

(** C17: [RemoveComments] removes exactly the comments.  Of an ASCII query written as
    code, 'literals' without backslashes, E'literals' with backslash escapes (quotes
    doubled in both), $tag$ strings, quoted identifiers, comments to the end of the line
    or of the text and comments in the line, nested to any depth, it keeps the code, the
    literals, the strings and the identifiers character by character, whatever comment
    marks they contain, and leaves a line break for a comment to the end of the line and
    nothing for the others.  A backslash in a plain literal is taken for an escape, see
    [plain_backslash_misread]. *)
Theorem comments_are_removed segments trail : segments_ok segments trail = true ->
  RemoveComments (text (query_of segments trail)) = text (concat (map kept_text segments)).
Proof. intros H. rewrite RemoveComments_stripped, stripped_segments by exact H. reflexivity. Qed.

Lemma comments_are_removed_witness :
  RemoveComments "SELECT a-1, '--''x', $t$ /* $t$, E'\'--' /* c /* n */ d */ FROM t -- end" = "SELECT a-1, '--''x', $t$ /* $t$, E'\'--'  FROM t ".
Proof.
  exact (comments_are_removed
    [Code (bytes "SELECT a-1, "); Literal (bytes "--'x"); Code (bytes ", "); Dollar (bytes "t") (bytes " /* "); Code (bytes ", ");
     Escaped [EEscape "'"%char; EChar "-"%char; EChar "-"%char]; Code (bytes " ");
     BlockComment (map CChar (bytes " c ") ++ [COpen] ++ map CChar (bytes " n ") ++ [CClose] ++ map CChar (bytes " d ")); Code (bytes " FROM t ")]
    (Some (bytes " end")) eq_refl).
Defined.

(** By the standard a backslash is no escape in a plain literal: here the literal ends
    before the comment, which is kept. *)
Lemma plain_backslash_misread : RemoveComments "SELECT '\' -- c" = "SELECT '\' -- c".
Proof. reflexivity. Qed.

(** A text in which no comment begins is returned as it is. *)
Lemma comment_free_unchanged l : comment_free l = true -> RemoveComments (text l) = text l.
Proof. intros H. rewrite RemoveComments_stripped. unfold stripped. rewrite pieces_copy; [reflexivity | lia | exact H]. Qed.

(** Nothing is left where a comment separated two words. *)
Lemma comment_joins_words : RemoveComments "SELECT/**/1" = "SELECT1".
Proof. reflexivity. Qed.

(** C18: The options of COPY are read back from their text, options separated by a comma
    and a space.  Every option is stored under its name in upper case with what its value
    means under the option's declared type, the last one when a name is repeated: an option
    that is only named is true; a boolean is one of Go's words for true or false; an
    integer is its decimal digits by their places, with a sign or without, when it fits 64
    bits; 'text' with its quotes doubled is that text, which may hold spaces, commas and
    quotes; E'text' without a quote in it is what [strconv.Unquote] makes of it, and a
    float what [strconv.ParseFloat] makes of it. *)
Theorem copy_options_read_back {F} (ParseFloat : string -> option F) Unquote allowed e es :
  Forall (entry_ok ParseFloat Unquote allowed) (e :: es) ->
  ParseCopyOptions ParseFloat Unquote allowed (text (entries_text (e :: es))) = Ret (Some (foldl store_entry ∅ (e :: es))).
Proof. apply options_read_back. Qed.

Definition no_float (s : string) : option Z := None.
Definition no_unquote (s : string) : option string := None.
Definition csv_options (k : string) : option OptionValueType :=
  if decide (k = "DELIMITER") then Some OptionValueTypeString else if decide (k = "HEADER" \/ k = "FORCE") then Some OptionValueTypeBool
  else if decide (k = "QUOTE_COUNT") then Some OptionValueTypeInt else None.

Lemma copy_options_read_back_witness :
  ParseCopyOptions no_float no_unquote csv_options "Delimiter ', ''', header, quote_count -042, force f"
  = Ret (Some (<["FORCE" := OptBool false]> (<["QUOTE_COUNT" := OptInt (-42)]> (<["HEADER" := OptBool true]> (<["DELIMITER" := OptString ", '"]> ∅))))).
Proof.
  refine (copy_options_read_back no_float no_unquote csv_options (mkEntry (bytes "Delimiter") (Some (TString (bytes ", '"))) (OptString ", '"))
    [mkEntry (bytes "header") None (OptBool true); mkEntry (bytes "quote_count") (Some (TWord (bytes "-042"))) (OptInt (-42)); mkEntry (bytes "force") (Some (TWord (bytes "f"))) (OptBool false)] _).
  repeat (apply Forall_cons; split); [| | | |apply Forall_nil; exact I]; (split; [discriminate|]); (split; [reflexivity|]).
  - split; [exact I|]. exists OptionValueTypeString. split; [reflexivity|]. exact (DString _ _ (bytes ", '")).
  - split; [exact I|]. exists OptionValueTypeBool. split; [reflexivity|]. constructor.
  - split; [split; [discriminate | reflexivity]|]. exists OptionValueTypeInt. split; [reflexivity|]. apply (DInt _ _ Minus (bytes "042")); [discriminate | reflexivity | vm_compute; split; congruence].
  - split; [split; [discriminate | reflexivity]|]. exists OptionValueTypeBool. split; [reflexivity|]. apply (DFalse _ _ "f"). right. left.
Defined.

(** A value that is one quote takes a slice that ends before it begins. *)
Lemma lone_quote_panics : ParseCopyOptions no_float no_unquote csv_options "DELIMITER '" = Panic.
Proof. reflexivity. Qed.

(** ** Backups *)
Section Backups.
Context `{HA : ArrowLib} `{HD : !DuckDB} `{HS : !Session} `{HP : PgLogRepl}.

(** When the upload of a backup fails, the server is left read-only and
    with every subscription stopped, although it was neither before: the
    statement returns between the two restarts. *)
Theorem failed_upload_stops_the_server (o : BackupOutside) config s s' :
  aligned (srv_subs s) -> (forall name conn, o_slot (b_outside o) name conn = true) ->
  (forall sql w rows, o_rows (b_outside o) sql w = Some rows -> Forall (fun r => row_enabled r = false) rows /\ covers (o_order (b_outside o)) (subMap rows)) ->
  executeBackup o config s = Ret (s', inr BeUpload) ->
  srv_readOnly s' = true /\ forall name sub, subscriptionMap (settle (srv_subs s')) !! name = Some sub -> running (Replicator sub) = false.
Proof.
  intros Hal Hslot Hrows. unfold executeBackup. destruct (negb _); [discriminate|].
  destruct (stopAllReplication (b_outside o) s) as [[s1 e]|] eqn:Estop; [|discriminate]. cbn [mbind outcome_bind]. destruct e as [e|]; [discriminate|].
  destruct (doCheckpoint s1) as [s2 done] eqn:Ec. pose proof (checkpoint_subs s1) as Hsub. rewrite Ec in Hsub. cbn in Hsub. destruct done; [|discriminate].
  unfold restartServer at 1. destruct (b_restart o true (srv_db s2)) as [w|]; [|discriminate]. destruct (b_upload o config) as [msg|].
  - unfold restartServer. destruct (b_restart o false _); [|discriminate]. destruct (startAllReplication _ _) as [[? [?|]]|]; discriminate.
  - intros E. injection E as <-. split; [reflexivity|]. cbn [srv_subs]. rewrite Hsub. apply (stopped_subs (b_outside o) s s1 Hal Hslot Hrows Estop).
Qed.
End Backups.

#[local] Existing Instance wire0.
Definition sub_a : Subscription := mkSub "postgres://u:p@h:5432/d" "pub_a" "0/0" true (mkReplica true false).
Definition server0 : Server := mkServer db0 (mkManager (<["a" := sub_a]> ∅) []) false.
Definition outside_off : Outside := mkOutside true (fun _ _ => true) (fun _ _ => Some [mkSubRow "a" "postgres://u:p@h:5432/d" "pub_a" "0/0" false]) ["a"] (fun _ _ => Some []) (fun _ _ => true) 7.
(** The engine takes the two statements; the storage cannot be reached. *)
Definition no_storage : BackupOutside := mkBackupOutside outside_off (fun _ w => Some w) (fun _ => None).
Definition backup0 : BackupConfig := mkBackup "db" "bucket/db" (mkStorage "s3c" "minio:9000" DummyRegion "k" "s").

#[local] Instance session_any : @Session arrow_model duckdb_model := {|
  Tx := unit; GetCatalogConn m := Some m; GetTxn m := Some (m, tt); GetCatalogTxn m := Some (m, tt); TryGetTxn m := Some tt; CloseTxn m := m;
  ConnExec _ _ m := (m, true); ConnQueryRow _ _ m := ErrNoRows; TxExec _ _ _ m := (m, true); TxCommit _ m := (m, true); TxRollback _ m := (m, RollbackOk)
|}.

Lemma failed_upload_stops_the_server_witness : exists s', executeBackup no_storage backup0 server0 = Ret (s', inr BeUpload)
  /\ srv_readOnly server0 = false /\ srv_readOnly s' = true /\ forall name sub, subscriptionMap (settle (srv_subs s')) !! name = Some sub -> running (Replicator sub) = false.
Proof.
  assert (Hal : aligned (srv_subs server0)).
  { split; [|constructor]. intros name s. cbn [server0 srv_subs subscriptionMap]. rewrite lookup_insert_Some. intros [[_ <-]|[_ H]]; [split; reflexivity | rewrite lookup_empty in H; discriminate]. }
  assert (Hrows : forall sql w rows, o_rows outside_off sql w = Some rows -> Forall (fun r => row_enabled r = false) rows /\ covers (o_order outside_off) (subMap rows)).
  { intros sql w rows Hr. injection Hr as <-. split; [repeat constructor|]. split; [repeat constructor; set_solver|]. intros name t. unfold subMap. cbn [foldl row_name]. rewrite lookup_insert_Some.
    intros [[<- _]|[_ H]]; [set_solver | rewrite lookup_empty in H; discriminate]. }
  assert (E : match executeBackup no_storage backup0 server0 with Ret (_, inr BeUpload) => True | _ => False end) by (vm_compute; exact I).
  destruct (executeBackup no_storage backup0 server0) as [[s' [msg|e]]|] eqn:Eb; try contradiction. destruct e; try contradiction. exists s'. split; [reflexivity|]. split; [reflexivity|].
  exact (failed_upload_stops_the_server no_storage backup0 server0 s' Hal (fun _ _ => eq_refl) Hrows Eb).
Defined.

(** ** Endpoints *)

(** The region of an S3 endpoint is read back, in China and elsewhere. *)
Lemma region_read_back region china : forallb (not_in ["."%char]) (bytes region) = true -> region <> EmptyString -> EqualFold (bytes region) "s3" = false ->
  parseRegionFromEndpoint "s3" ("s3." +:+ region +:+ ".amazonaws.com" +:+ (if china : bool then ".cn" else EmptyString)) = Some region.
Proof.
  intros Hd Hne Hs. set (endpoint := "s3." +:+ _).
  assert (Hb : bytes endpoint = bytes "s3." ++ bytes region ++ bytes ".amazonaws.com" ++ bytes (if china then ".cn" else EmptyString)) by (unfold endpoint; rewrite !bytes_app; reflexivity).
  assert (Hsplit : split_dots (bytes endpoint) = [bytes "s3"; bytes region; bytes "amazonaws"; bytes "com"] ++ (if china then [bytes "cn"] else [])).
  { rewrite Hb. change (bytes "s3." ++ ?l) with (bytes "s3" ++ "."%char :: l). rewrite split_dots_segment by reflexivity. change (bytes ".amazonaws.com" ++ ?l) with ("."%char :: bytes "amazonaws" ++ "."%char :: bytes "com" ++ l).
    rewrite split_dots_segment by exact Hd. rewrite split_dots_segment by reflexivity. destruct china; reflexivity. }
  assert (Hr : parseS3RegionCode endpoint = region).
  { unfold parseS3RegionCode. rewrite decide_False by (intros H; rewrite H in Hb; discriminate Hb). rewrite Hsplit.
    destruct china; cbn [app rev]; change (EqualFold (bytes "cn") "cn") with true; change (EqualFold (bytes "com") "cn") with false; cbn match; rewrite Hs; cbn; apply text_bytes. }
  unfold parseRegionFromEndpoint. rewrite decide_True by reflexivity. rewrite Hr, decide_False by exact Hne. reflexivity.
Qed.
