(* ===== verification/SchemaClaims.v ===== *)
(** * Claims about the catalog and the text of statements *)

From S2P Require Import Prelude Identifier CatalogErrors Schema Regexp SqlText Base64 GoJson Comment Quotes TypeMapping CatalogTable CatalogDatabase Provider Inserter CatalogFacts CatalogModel.
From S2P Require Delta.
From Stdlib Require Import Ascii.

(** ** The text of statements *)

(** C33: [NormalizeStrings] turns a MySQL query in valid UTF-8 into the PostgreSQL query that
    means the same: read as strings in single or double quotes, with doubled
    quotes and backslash escapes of characters that mean themselves, names in
    backticks without double quotes, and text without quotes, of which some stands behind
    every closing quote that is not the last character, every string comes out in single
    quotes with its single quotes doubled, every name in double quotes, and the
    rest unchanged.  When there is no backslash in a string or in a name of the result,
    [DenormalizeStrings] turns it back into a MySQL query of the same strings and names;
    see [name_backslash_lost] and [string_backslash_lost] for the others. *)
Theorem strings_are_translated (l : list item) :
  forallb item_ok l = true -> separated l = true -> good (mysql_text l) ->
  NormalizeStrings (flat (mysql_text l)) = flat (pg_text l)
  /\ (good (pg_text l) -> forallb (fun i => no_backslash (content_of i)) l = true ->
      DenormalizeStrings (flat (pg_text l)) = Ret (flat (canon_text l))).
Proof.
  intros Hok Hs Hg. unfold NormalizeStrings, DenormalizeStrings. split.
  - rewrite range_good by exact Hg. rewrite normalize_items by assumption. reflexivity.
  - intros Hg' Hb. rewrite range_good by exact Hg'. rewrite denormalize_items by assumption. reflexivity.
Qed.

Definition query_items : list item :=
  map (fun c => Other (RA c)) (String.list_ascii_of_string "SELECT ")
  ++ [Single [Bare (RA "i"%char); Doubled; Escaped backslash]; Other (RA ","%char); Double [Bare (RA "'"%char); Escaped (RA "x"%char)]; Other (RA " "%char); Name [RA "a"%char; RA "`"%char]].

Lemma strings_are_translated_witness :
  (forallb item_ok query_items = true /\ separated query_items = true)
  /\ NormalizeStrings (flat (mysql_text query_items)) = flat (pg_text query_items).
Proof.
  split; [split; reflexivity|].
  refine (proj1 (strings_are_translated query_items eq_refl eq_refl _)). unfold good. vm_compute. repeat constructor.
Defined.

(** On the way back a backslash, which means itself in PostgreSQL, is taken for an escape, in
    a name and in a string. *)
Example name_backslash_lost :
  NormalizeStrings ("`a" +:+ str1 (chr 92) +:+ "b`") = dquote +:+ "a" +:+ str1 (chr 92) +:+ "b" +:+ dquote
  /\ DenormalizeStrings (dquote +:+ "a" +:+ str1 (chr 92) +:+ "b" +:+ dquote) = Ret "`ab`".
Proof. split; vm_compute; reflexivity. Qed.
Example string_backslash_lost : DenormalizeStrings ("'a" +:+ str1 (chr 92) +:+ "b'") = Ret "'ab'".
Proof. vm_compute. reflexivity. Qed.

(** A newline escape becomes the letter n; a double quote in a name is not
    doubled; a quote that follows a closing quote at once is taken for text. *)
Example newline_escape_lost : NormalizeStrings ("'a" +:+ str1 (chr 92) +:+ "nb'") = "'anb'".
Proof. vm_compute. reflexivity. Qed.
Example name_quote_not_doubled : NormalizeStrings ("`a" +:+ dquote +:+ "b`") = dquote +:+ "a" +:+ dquote +:+ "b" +:+ dquote.
Proof. vm_compute. reflexivity. Qed.
Example adjacent_name_not_translated : NormalizeStrings "'a'`b`" = "'a'`b" +:+ dquote.
Proof. vm_compute. reflexivity. Qed.

(** ** The copy of a table and its comment *)
Section Copy.
Context `{SqlTypes} `{CatalogDB} `{SchemaLib} `{JsonLaws CheckDefinition} `{!PkSchemaLib} `{!CommentLaws}.

(** C31: whatever sequence of alterations a table goes through (adding,
    dropping and modifying columns, changing the AUTO_INCREMENT value or the
    checks), each successful, the comment stored in DuckDB decodes to the extra
    information of the catalog's copy (key ordinals, sequence, checks), provided they agreed at
    the start, DuckDB reads the statements as intended, no modified column is
    part of a larger key, and the information is valid text. *)
Theorem copy_agrees_with_comment env (t t' : Table) (w w' : cdb) :
  synced t w -> rtc (altered env) (t, w) (t', w') ->
  ValidString (Text (t_comment t')) = true -> json_valid (info_of t') ->
  DecodeComment (StoredComment (full_name t') w') = t_comment t'.
Proof.
  intros Hs Hr Ht Hi. pose proof (altered_rtc_synced env _ _ Hr Hs) as Hs'. unfold synced in Hs'. cbn in Hs'. rewrite Hs'.
  apply DecodeComment_Encode; assumption.
Qed.

(** The AUTO_INCREMENT flag of a column that keeps it is lost: the comment its
    modification writes does not have the flag. *)
Lemma modify_forgets_auto_increment temporary full columnName old column m w :
  c_AutoIncrement old = true -> c_AutoIncrement column = true -> modify_auto temporary full columnName old column m w = (w, inr (m, [], None)).
Proof. intros Ho Hc. unfold modify_auto. rewrite Ho, Hc. reflexivity. Qed.

(** A default that is taken away stays in DuckDB: no statement drops it. *)
Lemma modify_keeps_old_default full columnName column m : c_Default column = None -> modify_default full columnName column m = Ret (inr (m, [])).
Proof. intros E. unfold modify_default. rewrite E. reflexivity. Qed.

(** A column of a composite key becomes the whole key of the copy, and the comment keeps the old key. *)
Lemma modify_shrinks_key columnName column t w w' p i old :
  ModifyColumn_plan columnName column t w = Ret (w', inr p) -> find_column columnName 0 (pks_Schema (t_schema t)) = Some (i, old) ->
  c_PrimaryKey old = true -> c_PrimaryKey column = true -> c_AutoIncrement old = c_AutoIncrement column ->
  last_comment (full_name t) (p_sqls p) (Encode (t_comment t)) = Encode (t_comment t)
  /\ PkOrdinals (info_of (p_update p t)) = Some [i].
Proof.
  intros E Ef Ho Hc Ha. unfold ModifyColumn_plan in E. destruct (DuckdbDataType (c_Type column)) as [[err|typ]|]; [discriminate| |discriminate].
  cbn [mbind outcome_bind] in E. rewrite Ef in E. destruct (modify_default _ _ _ _) as [[err|[m ds]]|] eqn:Ed; [discriminate| |discriminate].
  cbn [mbind outcome_bind] in E. assert (Eau : forall tmp f, modify_auto tmp f columnName old column m w = (w, inr (m, [], None))).
  { intros tmp f. unfold modify_auto. rewrite Ha. destruct (c_AutoIncrement column); reflexivity. }
  rewrite Eau in E. injection E as _ <-. apply modify_default_stmts in Ed. cbn [p_sqls p_update]. rewrite Ho, Hc. cbn [negb andb orb app]. split; [|reflexivity].
  apply last_comment_none. rewrite !forallb_app, Ed. destruct (Equals _ _), (c_Nullable old), (c_Nullable column), (decide _); reflexivity.
Qed.

(** *** Dropping a column *)
Lemma setPrimaryKeyColumns_out_of_range ordinals : forall schema i, In i ordinals -> Z.of_nat (length schema) <= i -> setPrimaryKeyColumns schema ordinals = Panic.
Proof.
  induction ordinals as [|o ordinals IH]; intros schema i; [intros []|]. intros [->|Hi] Hlt; cbn [setPrimaryKeyColumns].
  - destruct (Z.leb_spec 0 i), (Z.ltb_spec i (Z.of_nat (length schema))); cbn; lia || reflexivity.
  - destruct (_ && _); [|reflexivity]. apply (IH _ i Hi). rewrite length_alter. exact Hlt.
Qed.

(** Dropping a column does not adjust the key ordinals of the extra
    information: when tables have no index (the default setting) and an ordinal
    is no longer the number of a column after the drop, the statement
    succeeds in DuckDB and the server then panics with an index out of range. *)
Theorem dropped_column_panics env columnName (t : Table) (w w1 w2 : cdb) n schema i :
  Delta.IsReplicationWithoutIndex env = true ->
  Exec (batch_text (p_sqls (DropColumn_plan columnName t))) w = (w1, inr n) ->
  getPKSchema (d_catalog (t_db t)) (d_name (t_db t)) (t_name t) w1 = Ret (w2, inr schema) -> pks_PkOrdinals schema = [] ->
  In i (ords (PkOrdinals (info_of t))) -> Z.of_nat (length (pks_Schema schema)) <= i ->
  DropColumn env columnName t w = Panic.
Proof.
  intros He E Es Hp Hi Hlt. unfold DropColumn, run_plan. rewrite E. unfold withSchema, DropColumn_plan. cbn [p_update].
  assert (Ed : forall b : bool, t_db (if b then set_info (with_sequence EmptyString (info_of t)) t else t) = t_db t
    /\ t_name (if b then set_info (with_sequence EmptyString (info_of t)) t else t) = t_name t
    /\ PkOrdinals (info_of (if b then set_info (with_sequence EmptyString (info_of t)) t else t)) = PkOrdinals (info_of t)) by (intros []; auto).
  edestruct Ed as (-> & -> & ->). rewrite Es. cbn [mbind outcome_bind]. rewrite Hp, He. cbn [bool_decide andb].
  rewrite (setPrimaryKeyColumns_out_of_range _ _ i Hi Hlt). reflexivity.
Qed.
End Copy.

(** A table with one column, a key column added to it, and then a check. *)
Definition column0 (name : string) (pk auto : bool) : SqlColumn :=
  mkSqlColumn _ _ name (Q_INT32, Width 11) false "items" "shop" None auto pk "the key" EmptyString.
Definition column_row (name : string) (m : MySQLType) : list Cell :=
  [CellStr name; CellInt 0; CellStr "INTEGER"; CellBool false; CellNull; CellStr (Encode (NewCommentWithMeta (T := MySQLType) "the key" m)); CellNull; CellNull].
Definition int_type : MySQLType := mkMyType "INTEGER" 0 0 0 false 11 0 [] EmptyString false.
Definition table0 (info : ExtraTableInfo) : Table :=
  mkTable _ _ db0 "items" (NewCommentWithMeta "stock" info) (mkPkSchema _ _ [column0 "sku" false false] []) false.
Definition world0 (info : ExtraTableInfo) : mdb :=
  mkMdb (Encode (NewCommentWithMeta "stock" info)) None None [] None [column_row "sku" int_type; column_row "id" int_type] [[CellInts [1]]] [].
Definition info0 : ExtraTableInfo := mkInfo _ None false EmptyString None.

Definition after_add : Table * mdb :=
  match AddColumn EmptyString (column0 "id" true true) (table0 info0) (world0 info0) with Ret (w, t, None) => (t, w) | _ => (table0 info0, world0 info0) end.
Definition check0 : Check := mkCheck "positive" "id > 0" true.
Definition after_check : Table * mdb :=
  let '(w, t, _) := CreateCheck check0 (fst after_add) (snd after_add) in (t, w).

Definition plan_add : Plan :=
  match AddColumn_plan (column0 "id" true true) (table0 info0) (world0 info0) with Ret (_, inr p) => p | _ => mkPlan [] id end.

Lemma table_altered : rtc (altered EmptyString) (table0 info0, world0 info0) (fst after_check, snd after_check).
Proof.
  assert (E1 : AddColumn_plan (column0 "id" true true) (table0 info0) (world0 info0) = Ret (world0 info0, inr plan_add)) by reflexivity.
  assert (E2 : Forall proper (p_sqls plan_add)) by repeat constructor.
  assert (E3 : AddColumn EmptyString (column0 "id" true true) (table0 info0) (world0 info0) = Ret (snd after_add, fst after_add, None)) by reflexivity.
  apply rtc_l with (fst after_add, snd after_add); [exact (altered_add EmptyString _ _ _ _ _ _ _ E1 E2 E3) | apply rtc_once].
  refine (altered_info EmptyString (fun info => with_checks (Some (default [] (Checks info) ++ [check0 : CheckDefinition])) info) _ _ _ _ _ _); reflexivity.
Qed.

Lemma copy_agrees_with_comment_witness :
  synced (table0 info0) (world0 info0)
  /\ DecodeComment (T := ExtraTableInfo) (StoredComment (full_name (fst after_check)) (snd after_check)) = t_comment (fst after_check)
  /\ (PkOrdinals (info_of (fst after_check)), Checks (info_of (fst after_check))) = (Some [1], Some [check0 : CheckDefinition]).
Proof.
  assert (Hs : synced (table0 info0) (world0 info0)) by reflexivity. split; [exact Hs|]. split; [|reflexivity].
  refine (copy_agrees_with_comment EmptyString _ (fst after_check) _ (snd after_check) Hs table_altered _ _); [reflexivity|].
  split; [repeat constructor; vm_compute; discriminate || reflexivity|]. split; [reflexivity|]. repeat constructor.
Defined.

(** The key is the second column; the first one is dropped. *)
Definition info_key1 : ExtraTableInfo := mkInfo _ (Some [1]) true EmptyString None.
Definition world_dropped : mdb := mkMdb (Encode (NewCommentWithMeta "stock" info_key1)) None None [] None [column_row "id" int_type] [] [].
Lemma dropped_column_panics_witness : DropColumn EmptyString "sku" (table0 info_key1) world_dropped = Panic.
Proof.
  refine (dropped_column_panics EmptyString "sku" (table0 info_key1) world_dropped world_dropped world_dropped 0 _ 1 _ _ _ _ _ _);
    [reflexivity.. | left; reflexivity | cbn; lia].
Defined.

(** ** Columns *)
Section ColumnClaims.
Context `{SqlTypeLaws} `{CatalogDB} `{SchemaLib} `{JsonType CheckDefinition} `{!PkSchemaLib}.

Lemma annotated_name q a : my_Name (mysql (duck_of q a)) <> EmptyString.
Proof. destruct a; cbn; repeat case_decide; destruct q; discriminate. Qed.

(** C32: A column of CREATE TABLE is found again as it was declared: the
    statement sets a comment that contains no quote, and from that comment and
    what DuckDB reports of the column (its name, its nullability, a name for
    its type, precision and scale of a DECIMAL, and some default if it has one)
    the catalog reads back the column's name, nullability, comment, default,
    AUTO_INCREMENT flag (for a column without a default) and MySQL type: its kind and its
    attributes, a DECIMAL with at most 38 digits, and of TEXT and BLOB the size (TINY, none,
    MEDIUM or LONG) that the declared length falls into, without length and collation.
    Texts are valid UTF-8 and a default is not empty. *)
Theorem column_survives_catalog d name temporary col b w w' b' typ :
  DuckdbDataType (c_Type col) = Ret (inr typ) -> storable (Type' (c_Type col)) = true -> values_valid (c_Type col) ->
  ValidString (c_Comment col) = true -> (forall dflt, c_Default col = Some dflt -> ValidString (Default_String dflt) = true /\ Default_String dflt <> EmptyString) ->
  create_column d name temporary col b w = Ret (w', inr b') ->
  exists comment,
    b_comments b' = b_comments b ++ ["COMMENT ON COLUMN " +:+ (if temporary then FullColumnName "temp" "main" name (c_Name col)
                                                               else FullColumnName (d_catalog d) (d_name d) name (c_Name col))
                                     +:+ " IS '" +:+ comment +:+ "'"]
    /\ string_forall (fun x => negb (bool_decide (x = single_quote))) comment = true
    /\ forall idx dt dflt p s, reports typ dt p s -> (c_Default col <> None -> dflt <> None) ->
       exists ci, scan_column [CellStr (c_Name col); CellInt idx; CellStr dt; CellBool (c_Nullable col); null_text dflt; CellStr comment; null_cell p; null_cell s] = inr ci
       /\ let c := schema_column (d_name d) name ci in
          c_Name c = c_Name col /\ c_Nullable c = c_Nullable col /\ c_Comment c = c_Comment col
          /\ c_AutoIncrement c = match c_Default col with Some _ => false | None => c_AutoIncrement col end
          /\ c_Default c = option_map (fun d => NewUnresolvedColumnDefaultValue (Default_String d)) (c_Default col)
          /\ restored (c_Type col) (c_Type c).
Proof.
  intros Ht Hs Hv Hc Hd Hcr. exists (Encode (NewCommentWithMeta (c_Comment col) (annotation col (mysql typ)))). split; [|split].
  - eapply create_column_comments; [exact Ht | | exact Hcr]. destruct (attrs_total (c_Type col) Hs) as (a & Ha & Hb).
    rewrite (DuckdbDataType_of _ a Ha Hb) in Ht. injection Ht as <-. apply annotated_name.
  - apply Encode_no_quote.
  - intros idx dt dflt p s Hr Hdf. exact (column_read_back (d_name d) name col typ idx dt dflt p s Ht Hs Hv Hc Hd Hr Hdf).
Qed.
End ColumnClaims.

Definition price : SqlColumn := mkSqlColumn _ _ "price" (Q_DECIMAL, Dec 40 2) true "items" "shop" (Some "1.5" : option ColumnDefault) false false "it's net" EmptyString.
Definition price_type : AnnotatedDuckType := duck_of Q_DECIMAL (Dec 40 2).
Definition start0 : cdb := world0 info0.
Definition no_columns : building := mkBuilding [] [] EmptyString EmptyString.

Lemma column_survives_catalog_witness :
  exists comment ci, scan_column [CellStr "price"; CellInt 2; CellStr "DECIMAL(38,2)"; CellBool true; CellStr "1.5"; CellStr comment; CellInt 38; CellInt 2] = inr ci
    /\ c_Default (schema_column "shop" "items" ci) = Some "1.5" /\ restored (c_Type price) (c_Type (schema_column "shop" "items" ci)).
Proof.
  destruct (create_column db0 "items" false price no_columns start0) as [[w' [err|b']]|] eqn:E; [discriminate E| |discriminate E].
  assert (Hv : values_valid (c_Type price)) by (intros vs c; discriminate).
  assert (Hd : forall dflt : ColumnDefault, c_Default price = Some dflt -> ValidString (Default_String dflt) = true /\ Default_String dflt <> EmptyString) by (intros dflt [= <-]; split; [reflexivity | discriminate]).
  destruct (column_survives_catalog db0 "items" false price no_columns start0 w' b' price_type eq_refl eq_refl Hv eq_refl Hd E) as (comment & _ & _ & Hread).
  exists comment. destruct (Hread 2 "DECIMAL(38,2)" (Some "1.5") (Some 38) (Some 2)) as (ci & Es & _ & _ & _ & _ & Ed & Er).
  - split; [reflexivity|]. intros _. split; reflexivity.
  - discriminate.
  - exists ci. split; [exact Es|]. split; [exact Ed | exact Er].
Defined.

(** ** Rows *)
Section InsertClaim.
Context `{SqlTypes} `{RowStatements} `{SchemaLib} (db table tmp : string) `{!RowLaws db table tmp}.

(** C30: An INSERT or REPLACE is all or nothing, also when opening the connection, creating
    the temporary table, preparing, inserting a row, completing, copying or cleaning up
    fails, and whether or not the inserter is closed after a failure: it returns without a
    panic, and either it reports an error and the table's rows are what they were, or it
    reports none and the table has in addition exactly the rows of the statement, in which
    the ordinal of an ENUM column is replaced by the text the type has for it and every other
    value is kept.  A REPLACE into a table whose key DuckDB has leaves what INSERT OR REPLACE
    makes of the rows; one into a table whose key is only declared in the comment appends
    them like an INSERT (see [replace_appends_without_key]).  The statement starts with a new
    inserter and no temporary table of its name, and its rows have a value for every column. *)
Theorem insert_all_or_nothing closes ctxID rows (ri : rowInserter) (w : cdb) :
  ri_db ri = db -> ri_table ri = table -> tmp = tmp_name db table ctxID ->
  ri_once ri = false -> ri_stmt ri = None -> ri_err ri = [] -> ri_schema ri <> [] ->
  Forall (fun r => length r = length (ri_schema ri)) rows -> temp w = None ->
  exists w' err, insert_statement closes ctxID rows ri w = Ret (w', err) /\
    ((err <> [] /\ target w' = target w) \/
     (err = [] /\ exists rows', stored (ri_schema ri) rows rows' /\
      target w' = (if ri_replace ri && ri_hasPK ri then or_replace (target w) rows' else target w ++ rows'))).
Proof. exact (insert_statement_cases db table tmp closes ctxID rows ri w). Qed.
End InsertClaim.

Definition size_column : SqlColumn := mkSqlColumn _ _ "size" (Q_ENUM, Vals ["S"; "L"] 1) true "items" "shop" (None : option ColumnDefault) false false EmptyString EmptyString.
Definition inserter0 : rowInserter := mkInserter "shop" "items" [column0 "id" true false; size_column] true true false false EmptyString None [] EmptyString [].
Definition stocked : cdb := mkMdb EmptyString None None [[RvOther 1; RvString "S"]; [RvOther 2; RvString "S"]] None [] [] [].

Lemma insert_all_or_nothing_witness :
  exists w' err, insert_statement true 7 [[RvOther 2; RvUint16 2]] inserter0 stocked = Ret (w', err) /\
    ((err <> [] /\ target w' = target stocked) \/
     (err = [] /\ exists rows', stored (ri_schema inserter0) [[RvOther 2; RvUint16 2]] rows' /\ target w' = or_replace (target stocked) rows')).
Proof.
  refine (insert_all_or_nothing "shop" "items" tmp0 true 7 [[RvOther 2; RvUint16 2]] inserter0 stocked eq_refl eq_refl eq_refl eq_refl eq_refl eq_refl _ _ eq_refl);
    [discriminate | repeat constructor].
Defined.

(** What the statement of the witness leaves, evaluated. *)
Example insert_evaluated :
  (match insert_statement true 7 [[RvOther 2; RvUint16 2]] inserter0 stocked with Ret (w, err) => Some (m_target w, m_temp w, err) | Panic => None end)
  = Some ([[RvOther 1; RvString "S"]; [RvOther 2; RvString "L"]], None, []).
Proof. reflexivity. Qed.

(** A table whose key is in its comment but not in DuckDB: REPLACE leaves two rows with the key 2. *)
Definition declared_key : Table := mkTable _ _ db0 "items" (NewCommentWithMeta "stock" info0) (mkPkSchema _ _ [column0 "id" true false; size_column] [0]) false.
Example replace_appends_without_key :
  (match insert_statement true 7 [[RvOther 2; RvUint16 2]] (Replacer_of (fun _ => false) declared_key) stocked with Ret (w, err) => Some (m_target w, err) | Panic => None end)
  = Some ([[RvOther 1; RvString "S"]; [RvOther 2; RvString "S"]; [RvOther 2; RvString "L"]], []).
Proof. reflexivity. Qed.

(** ** AUTO_INCREMENT *)
Section AutoClaim.
Context `{SqlTypes} `{CatalogDB} `{SchemaLib} `{JsonType CheckDefinition} `{!PkSchemaLib} `{!SequenceLaws}.

(** After a row was inserted with an explicit value larger than the next
    one, the value is given out again: [GetNextAutoIncrementValue] replaces the
    sequence by one that starts with that value and returns it without drawing it, so that
    the next row without a value gets the same value. *)
Theorem auto_increment_repeats env (t t' : Table) (w w' : cdb) state v :
  is_temporary t = false -> sequence (Sequence (info_of t)) w = Some state -> permanent (Sequence (info_of t)) -> in_range64 state ->
  upcoming state < v < 2 ^ 63 ->
  GetNextAutoIncrementValue env (Some (ValUint64 v)) t w = Ret (w', t', inr v) ->
  exists w'', GetNextAutoIncrementValue env None t' w' = Ret (w'', t', inr v).
Proof.
  intros Htmp Hs Hp Hr Hv E. pose proof (upcoming_range state Hr) as Hu. destruct (GetNext_replaces env t w w' t' state v Htmp Hs Hp Hr Hv E) as [Hp' Hs'].
  destruct (GetNext_draws env t' w' (v, None) Hs' Hp') as (w'' & E' & _); [split; cbn; lia|]. exists w''. exact E'.
Qed.
End AutoClaim.

Definition info_seq : ExtraTableInfo := mkInfo _ (Some [0]) false seq0 None.
Definition auto_type : MySQLType := mkMyType "INTEGER" 0 0 0 false 11 0 [] EmptyString true.
Definition table_seq : Table := mkTable _ _ db0 "items" (NewCommentWithMeta "stock" info_seq) (mkPkSchema _ _ [column0 "id" true true] [0]) true.
Definition world_seq : cdb :=
  mkMdb (Encode (NewCommentWithMeta "stock" info_seq)) (Some (1, Some 4)) None [] None [column_row "id" auto_type] [[CellInts [0]]] [].
Definition after_ten : cdb * Table :=
  match GetNextAutoIncrementValue EmptyString (Some (ValUint64 10)) table_seq world_seq with Ret (w, t, _) => (w, t) | Panic => (world_seq, table_seq) end.

Lemma auto_increment_repeats_witness :
  GetNextAutoIncrementValue EmptyString (Some (ValUint64 10)) table_seq world_seq = Ret (fst after_ten, snd after_ten, inr 10)
  /\ exists w'', GetNextAutoIncrementValue EmptyString None (snd after_ten) (fst after_ten) = Ret (w'', snd after_ten, inr 10).
Proof.
  assert (E : GetNextAutoIncrementValue EmptyString (Some (ValUint64 10)) table_seq world_seq = Ret (fst after_ten, snd after_ten, inr 10)) by reflexivity.
  split; [exact E|]. refine (auto_increment_repeats EmptyString table_seq (snd after_ten) world_seq (fst after_ten) (1, Some 4) 10 eq_refl eq_refl _ _ _ E).
  - exists (SequenceNamePrefix +:+ "0"). reflexivity.
  - split; cbn; lia.
  - cbn. lia.
Defined.

(** ** Names *)
Section NameClaim.
Context `{SqlTypes} `{CatalogDB} `{SchemaLib} `{JsonType CheckDefinition} `{!PkSchemaLib} `{!TableLaws}.

(** Looking for a name without the characters % and _ finds exactly the
    tables of the database, and the temporary ones, whose name differs from it in case only, each with
    its comment decoded and its key flag; the name % finds all of them. *)
Theorem tables_found_by_name d name (w : cdb) :
  plain_name name = true ->
  (exists w', findTables d name w =
     (w', inr (map (table_of d) (List.filter (fun r => in_database d r && bool_decide (fold_name name = fold_name (r_name r))) (duckdb_tables w)))))
  /\ (exists w', findTables d "%" w = (w', inr (map (table_of d) (List.filter (in_database d) (duckdb_tables w))))).
Proof.
  intros Hn. split; [apply findTables_named, Hn|]. destruct (findTables_rows d "%" w) as [w' E]. exists w'. rewrite E. do 3 f_equal.
  apply filter_ext. intros r. rewrite row_matches_in, ilike_percent, andb_true_r. reflexivity.
Qed.

(** A name with an underscore also finds other tables. *)
Lemma underscore_is_wildcard d (w : cdb) r : duckdb_tables w = [r] -> in_database d r = true -> r_name r = "axb" ->
  exists w', findTables d "a_b" w = (w', inr [table_of d r]).
Proof.
  intros Ht Hd Hn. destruct (findTables_rows d "a_b" w) as [w' E]. exists w'. rewrite E, Ht. cbn [List.filter]. rewrite row_matches_in, Hd, Hn. reflexivity.
Qed.
End NameClaim.

Definition world_tables : cdb :=
  mkMdb EmptyString None None [] None [] []
    [mkTableRow "mysql" "shop" false "Items" true (Some "raw"); mkTableRow "mysql" "other" false "items" false None; mkTableRow "temp" "main" true "tmp" false None].
Lemma tables_found_by_name_witness :
  plain_name "items" = true /\ exists w', findTables db0 "items" world_tables = (w', inr [NewTable db0 "Items" (NewComment "raw") true]).
Proof. split; [reflexivity|]. exact (proj1 (tables_found_by_name db0 "items" world_tables eq_refl)). Defined.

(** ** Catalogs *)
Section CatalogFiles.
Context `{ProviderEnv}.

(** [os.Stat] does not fail with [fs.ErrExist]: no catalog in a file is ever found. *)
Lemma HasCatalog_false prov name w : is_memory (strings_TrimSpace name) = false -> (forall file, Stat file w <> Some FileExist) ->
  HasCatalog prov name w = false.
Proof.
  intros Hm Hs. unfold HasCatalog. rewrite Hm. specialize (Hs (catalog_file prov (strings_TrimSpace name))).
  destruct (Stat _ w) as [[]|]; try reflexivity. contradiction.
Qed.

(** A catalog whose file exists is attached and not initialised, also when an
    earlier attempt failed halfway through its initialisation. *)
Lemma CreateCatalog_again prov name w w' : is_memory (strings_TrimSpace name) = false ->
  Stat (catalog_file prov (strings_TrimSpace name)) w = None ->
  StorageExec (attach_text prov (strings_TrimSpace name) true) [] w = (w', None) ->
  CreateCatalog prov name true w = Ret (w', None).
Proof. intros Hm Hs E. unfold CreateCatalog. rewrite Hm, Hs, E. reflexivity. Qed.

(** What a restart leaves attached is what opening the default database attaches. *)
Lemma Restart_reopens_default prov readOnly w w' (attached : pw -> list string) :
  (forall file w0 w1, OpenDB file w0 = inr w1 -> attached w1 = [file]) ->
  (forall w0 w1 r, PoolReset w0 = (w1, r) -> attached w1 = attached w0) ->
  Restart prov readOnly w = (w', None) -> attached w' = [dsn prov +:+ (if readOnly then readOnlySuffix else EmptyString)].
Proof.
  intros Ho Hp. unfold Restart. destruct (Provider.Close w) as [w1 [err|]]; [discriminate|].
  destruct (OpenDB _ w1) as [err|w2] eqn:E; [discriminate|]. intros Er. rewrite (Hp _ _ _ Er). apply (Ho _ _ _ E).
Qed.
End CatalogFiles.
