(* ===== verification/Scram.v ===== *)
(** * SCRAM authentication (src/pgserver/authentication_scram.go)

    The server's side of SCRAM-SHA-256: the parsers of the client's two messages,
    the check of the proof, and the loop of [handleAuthentication] over the
    messages it receives.  Bytes are characters.  The cryptography and the roles are
    those of doltgresql (packages auth and rfc5802): class [Rfc5802]. *)

From S2P Require Import Prelude Charset Identifier CatalogErrors Base64 GoJson Comment.
From stdpp Require Import strings list.
From Stdlib Require Import Ascii.

(** [auth.Role] and its password, what the code reads of them. *)
Record ScramSha256Password : Type := mkPassword { pw_Salt : string; pw_StoredKey : string; pw_ServerKey : string }.
Record Role : Type := mkRole { r_Name : string; CanLogin : bool; Password : option ScramSha256Password }.

Class Rfc5802 : Type := {
  H : string -> string;
  ClientSignature : string -> string -> string;        (* stored key, message *)
  ServerSignature : string -> string -> string;        (* server key, message *)
  StoredKey : string -> string;
  Xor : string -> string -> string;
  Equals : string -> string -> bool;
  ToBase64 : string -> string;
  Base64ToOctetString : string -> string;
  GenerateRandomOctetString : nat -> string            (* by the number of messages sent before *)
}.

Inductive SASLBindingFlag : Type := NoFlag | NoClientSupport | AssumedNoServerSupport | Used.
Record SASLInitial : Type := mkInitial {
  si_Flag : SASLBindingFlag; si_BindName : string; si_Binding : string; si_Authzid : string; si_Username : string; si_Nonce : string; si_RawData : string
}.
Record SASLContinue : Type := mkContinue { sc_Nonce : string; sc_Salt : string; sc_Iterations : Z }.
Record SASLResponse : Type := mkResponse { sr_GS2Header : string; sr_Nonce : string; sr_ClientProof : string; sr_RawData : string }.
Definition no_initial : SASLInitial := mkInitial NoFlag EmptyString EmptyString EmptyString EmptyString EmptyString EmptyString.
Definition no_continue : SASLContinue := mkContinue EmptyString EmptyString 0.

Inductive ScramError : Type :=
| MechanismNotSupported (m : string) | TooFewSections | MalformedFlag | MalformedBinding | MalformedFlagOptions (c : ascii)
| MalformedAuthzid | MalformedHeader | UnknownHeaderOption (c : ascii) | InitialMissingNonce
| AttributeTooSmall | InconsistentHeader | NonceMismatch | UnknownAttribute (c : ascii) | ResponseMissingNonce
| AuthenticationFailed (user : string) | UnknownMessage | SendFailed (err : string) | ReceiveFailed.

#[global] Instance ScramError_eq : EqDecision ScramError. Proof. solve_decision. Defined.

Definition SASLMechanism_SCRAM_SHA_256 : string := "SCRAM-SHA-256".
Definition comma : ascii := ",".

(** ** Strings *)
(** [strings.Split(s, ",")]. *)
Fixpoint split_comma (s : string) : list string :=
  match s with
  | EmptyString => [EmptyString]
  | String c s' =>
      if decide (c = comma) then EmptyString :: split_comma s'
      else match split_comma s' with [] => [String c EmptyString] | x :: l => String c x :: l end
  end.
(** [strings.LastIndex(s, p)]. *)
Fixpoint last_index (p s : string) : option nat :=
  match s with
  | EmptyString => if String.prefix p EmptyString then Some O else None
  | String _ s' => match last_index p s' with Some n => Some (S n) | None => if String.prefix p s then Some O else None end
  end.

(** ** The first message of the client *)
Definition read_flag (flag : string) : ScramError + (SASLBindingFlag * string) :=
  match flag with
  | EmptyString => inl MalformedFlag
  | String c _ =>
      if decide (c = "n"%char) then inr (NoClientSupport, EmptyString)
      else if decide (c = "p"%char) then
        if (String.length flag <? 3)%nat then inl MalformedBinding else inr (Used, drop_string 2 flag)
      else if decide (c = "y"%char) then inr (AssumedNoServerSupport, EmptyString)
      else inl (MalformedFlagOptions c)
  end.

Definition read_authzid (authzid : string) : ScramError + string :=
  if decide (authzid = EmptyString) then inr EmptyString
  else if (String.length authzid <? 3)%nat then inl MalformedAuthzid else inr (drop_string 2 authzid).

(** The remaining sections: binding, user name, nonce. *)
Fixpoint read_header (sections : list string) (acc : string * string * string) : ScramError + (string * string * string) :=
  match sections with
  | [] => inr acc
  | section :: sections =>
      let '(binding, username, nonce) := acc in
      if (String.length section <? 2)%nat then inl MalformedHeader
      else match section with
      | EmptyString => inl MalformedHeader
      | String c _ =>
          if decide (c = "c"%char) then read_header sections (drop_string 2 section, username, nonce)
          else if decide (c = "n"%char) then read_header sections (binding, drop_string 2 section, nonce)
          else if decide (c = "r"%char) then read_header sections (binding, username, drop_string 2 section)
          else inl (UnknownHeaderOption c)
      end
  end.

Definition readSASLInitial (mechanism data : string) : ScramError + SASLInitial :=
  if decide (mechanism <> SASLMechanism_SCRAM_SHA_256) then inl (MechanismNotSupported mechanism)
  else match split_comma data with
  | flag :: authzid :: ((_ :: _) as header) =>
      match read_flag flag with
      | inl e => inl e
      | inr (f, bind) =>
          match read_authzid authzid with
          | inl e => inl e
          | inr a =>
              match read_header header (EmptyString, EmptyString, EmptyString) with
              | inl e => inl e
              | inr (binding, username, nonce) =>
                  if decide (nonce = EmptyString) then inl InitialMissingNonce
                  else inr (mkInitial f bind binding a username nonce data)
              end
          end
      end
  | _ => inl TooFewSections
  end.

(** ** The second message of the client *)
Fixpoint read_attributes (header nonce : string) (sections : list string) (acc : string * string * string) : ScramError + (string * string * string) :=
  match sections with
  | [] => inr acc
  | section :: sections =>
      let '(gs2, n, proof) := acc in
      if (String.length section <? 3)%nat then inl AttributeTooSmall
      else match section with
      | EmptyString => inl AttributeTooSmall
      | String c _ =>
          let value := drop_string 2 section in
          if decide (c = "c"%char) then
            if decide (value <> header) then inl InconsistentHeader else read_attributes header nonce sections (value, n, proof)
          else if decide (c = "p"%char) then read_attributes header nonce sections (gs2, n, value)
          else if decide (c = "r"%char) then
            if decide (value <> nonce) then inl NonceMismatch else read_attributes header nonce sections (gs2, value, proof)
          else inl (UnknownAttribute c)
      end
  end.

Definition readSASLResponse (header nonce data : string) : ScramError + SASLResponse :=
  match read_attributes header nonce (split_comma data) (EmptyString, EmptyString, EmptyString) with
  | inl e => inl e
  | inr (gs2, n, proof) =>
      if decide (n = EmptyString) then inl ResponseMissingNonce
      else if decide (proof = EmptyString) then inl ResponseMissingNonce      (* the code's message too *)
      else inr (mkResponse gs2 n proof data)
  end.

(** ** The messages the proof is about *)
Definition base64HeaderBytes (si : SASLInitial) : string :=
  match si_Flag si with NoFlag => EmptyString | NoClientSupport => "n," | AssumedNoServerSupport => "y," | Used => "p=" +:+ si_BindName si +:+ "," end
  +:+ si_Authzid si +:+ ",".
Definition Base64Header (si : SASLInitial) : string := StdEncoding_EncodeToString (base64HeaderBytes si).
Definition MessageBare (si : SASLInitial) : string :=
  let p := base64HeaderBytes si in if String.prefix p (si_RawData si) then drop_string (String.length p) (si_RawData si) else si_RawData si.
Definition Encode_continue (sc : SASLContinue) : string := "r=" +:+ sc_Nonce sc +:+ ",s=" +:+ sc_Salt sc +:+ ",i=" +:+ FormatInt (sc_Iterations sc).
Definition MessageWithoutProof (sr : SASLResponse) : string :=
  match last_index ",p=" (sr_RawData sr) with None => sr_RawData sr | Some n => String.substring 0 n (sr_RawData sr) end.
Definition auth_message (si : SASLInitial) (sc : SASLContinue) (sr : SASLResponse) : string :=
  MessageBare si +:+ "," +:+ Encode_continue sc +:+ "," +:+ MessageWithoutProof sr.

Section Server.
Context `{Rfc5802}.

Definition verifySASLClientProof (user : Role) (si : SASLInitial) (sc : SASLContinue) (sr : SASLResponse) : ScramError + string :=
  let failed := inl (AuthenticationFailed (r_Name user)) in
  if negb (CanLogin user) then failed
  else match Password user with
  | None => failed
  | Some pw =>
      let clientProof := Base64ToOctetString (sr_ClientProof sr) in
      let authMessage := auth_message si sc sr in
      let clientSignature := ClientSignature (pw_StoredKey pw) authMessage in
      if negb (String.length clientProof =? String.length clientSignature)%nat then failed
      else
        let clientKey := Xor clientSignature clientProof in
        if negb (Equals (StoredKey clientKey) (pw_StoredKey pw)) then failed
        else inr (ToBase64 (ServerSignature (pw_ServerKey pw) authMessage))
  end.

(** ** The exchange *)
Inductive ClientMessage : Type := MSASLInitialResponse (mechanism data : string) | MSASLResponse (data : string) | MOther.
Inductive ServerMessage : Type :=
| AuthenticationOk | AuthenticationSASL (mechanisms : list string) | AuthenticationSASLContinue (data : string)
| AuthenticationSASLFinal (data : string) | ErrorResponse (code : string) (err : ScramError).

(** [SendError n]: why the message after the first [n] cannot be sent. *)
Context (SendError : nat -> option string).
Definition auth_send (m : ServerMessage) (out : list ServerMessage) : list ServerMessage * option ScramError :=
  match SendError (length out) with Some err => (out, Some (SendFailed err)) | None => (out ++ [m], None) end.

(** A salt for a user that has none: it must not change from one attempt to the next. *)
Definition salt_of (role : Role) (username : string) : string :=
  match Password role with
  | Some pw => ToBase64 (pw_Salt pw)
  | None => ToBase64 (String.substring 0 16 (H username))
  end.
Definition reject (code : string) (e : ScramError) (out : list ServerMessage) : list ServerMessage * option ScramError :=
  (fst (auth_send (ErrorResponse code e) out), Some e).

(** The loop, over what [Receive] gives; the connection ends after the last message. *)
Fixpoint auth_loop (role : Role) (username : string) (msgs : list ClientMessage) (si : SASLInitial) (sc : SASLContinue) (out : list ServerMessage)
    : list ServerMessage * option ScramError :=
  match msgs with
  | [] => (out, Some ReceiveFailed)
  | MSASLInitialResponse mechanism data :: msgs =>
      match readSASLInitial mechanism data with
      | inl e => reject "XX000" e out
      | inr si =>
          let sc := mkContinue (si_Nonce si +:+ ToBase64 (GenerateRandomOctetString (length out))) (salt_of role username) 4096 in
          match auth_send (AuthenticationSASLContinue (Encode_continue sc)) out with
          | (out, Some e) => (out, Some e)
          | (out, None) => auth_loop role username msgs si sc out
          end
      end
  | MSASLResponse data :: _ =>
      match readSASLResponse (Base64Header si) (sc_Nonce sc) data with
      | inl e => reject "XX000" e out
      | inr sr =>
          match verifySASLClientProof role si sc sr with
          | inl e => reject "28P01" e out
          | inr serverSignature =>
              match auth_send (AuthenticationSASLFinal ("v=" +:+ serverSignature)) out with
              | (out, Some e) => (out, Some e)
              | (out, None) => auth_send AuthenticationOk out
              end
          end
      end
  | MOther :: _ => (out, Some UnknownMessage)
  end.

(** The user of the startup message, or postgres; the host is the peer's, or localhost. *)
Definition connection_user (user : option string) (unix : bool) (peer : string) : string * string :=
  match user with
  | Some (String _ _ as username) => (username, if unix then "localhost" else if decide (peer = EmptyString) then "localhost" else peer)
  | _ => ("postgres", "localhost")
  end.

Definition handleAuthentication (EnableAuthentication : bool) (GetRole : string -> Role) (user : option string) (unix : bool) (peer : string)
    (msgs : list ClientMessage) : (string * string) * (list ServerMessage * option ScramError) :=
  let '(username, host) := connection_user user unix peer in
  ((username, host),
   if negb EnableAuthentication then auth_send AuthenticationOk []
   else match auth_send (AuthenticationSASL [SASLMechanism_SCRAM_SHA_256]) [] with
        | (out, Some e) => (out, Some e)
        | (out, None) => auth_loop (GetRole username) username msgs no_initial no_continue out
        end).
End Server.

(** ** The superuser *)
Class RoleStore : Type := {
  roles : Type;
  DropRole : string -> roles -> roles;
  CreateDefaultRole : string -> roles -> Role;
  SetRole : Role -> roles -> roles;
  NewScramSha256Password : string -> string + ScramSha256Password
}.
(** With it, whether authentication stays enabled. *)
Definition InitSuperuser `{RoleStore} (password : string) (w : roles) (EnableAuthentication : bool) : outcome (roles * bool) :=
  let w := DropRole "postgres" (DropRole "doltgres" w) in
  let postgres := CreateDefaultRole "postgres" w in
  match NewScramSha256Password password with
  | inl _ => Panic
  | inr pw => Ret (SetRole (mkRole (r_Name postgres) true (Some pw)) w, if decide (password = EmptyString) then false else EnableAuthentication)
  end.

(** ** Claims about authentication

    A client is accepted only with a proof for the session's nonces; a client
    that follows RFC 5802 and knows the key is accepted, unless it names an
    authorization identity. *)

(** ** Strings *)
Definition no_comma : string -> bool := string_forall (fun c => negb (bool_decide (c = comma))).

Lemma split_comma_plain s : no_comma s = true -> split_comma s = [s].
Proof.
  induction s as [|c s IH]; [reflexivity|]. unfold no_comma in *. cbn [string_forall]. intros E. apply andb_true_iff in E. destruct E as [Ec Es].
  apply negb_true_iff, bool_decide_eq_false_1 in Ec. cbn [split_comma]. rewrite decide_False, IH by assumption. reflexivity.
Qed.

Lemma split_comma_cut s rest : no_comma s = true -> split_comma (s +:+ "," +:+ rest) = s :: split_comma rest.
Proof.
  induction s as [|c s IH]; intros E.
  - cbn. reflexivity.
  - unfold no_comma in *. cbn [string_forall] in E. apply andb_true_iff in E. destruct E as [Ec Es].
    apply negb_true_iff, bool_decide_eq_false_1 in Ec. change (String c s +:+ "," +:+ rest) with (String c (s +:+ "," +:+ rest)).
    cbn [split_comma]. rewrite decide_False, IH by assumption. reflexivity.
Qed.

Lemma last_index_none p s : no_comma s = true -> last_index (String comma p) s = None.
Proof.
  induction s as [|c s IH]; [reflexivity|]. unfold no_comma in *. cbn [string_forall]. intros E. apply andb_true_iff in E. destruct E as [Ec Es].
  apply negb_true_iff, bool_decide_eq_false_1 in Ec. cbn [last_index]. rewrite IH by assumption. cbn [String.prefix].
  destruct (ascii_dec comma c); [congruence|reflexivity].
Qed.

Lemma last_index_at p a b : no_comma p = true -> no_comma b = true -> last_index (String comma p) (a +:+ String comma p +:+ b) = Some (String.length a).
Proof.
  intros Hp Hb. induction a as [|c a IH].
  - change (EmptyString +:+ String comma p +:+ b) with (String comma (p +:+ b)). cbn [last_index].
    rewrite last_index_none by (unfold no_comma in *; rewrite string_forall_app, Hp, Hb; reflexivity).
    cbn [String.prefix]. destruct (ascii_dec comma comma); [|congruence].
    rewrite CatalogErrors.prefix_app. reflexivity.
  - change (String c a +:+ String comma p +:+ b) with (String c (a +:+ String comma p +:+ b)). cbn [last_index String.length]. rewrite IH. reflexivity.
Qed.

Lemma substring_front a b : String.substring 0 (String.length a) (a +:+ b) = a.
Proof.
  induction a as [|c a IH]; [destruct b; reflexivity|]. change (String c a +:+ b) with (String c (a +:+ b)). cbn [String.length String.substring].
  rewrite IH. reflexivity.
Qed.

(** ** Accepted only with a proof *)
Section Accepted.
Context `{Rfc5802} (SendError : nat -> option string).

(** What the loop keeps: before the first message of the client no nonce, afterwards that of the
    challenge that was sent. *)
Definition challenged (si : SASLInitial) (sc : SASLContinue) (out : list ServerMessage) : Prop :=
  sc_Nonce sc = EmptyString \/
  (AuthenticationSASLContinue (Encode_continue sc) ∈ out /\ exists k, sc_Nonce sc = si_Nonce si +:+ ToBase64 (GenerateRandomOctetString k)).

(** A proof for the key of [role], over the messages of one session. *)
Definition proves (role : Role) (si : SASLInitial) (sc : SASLContinue) (sr : SASLResponse) : Prop :=
  CanLogin role = true /\ exists pw, Password role = Some pw /\
  Equals (StoredKey (Xor (ClientSignature (pw_StoredKey pw) (auth_message si sc sr)) (Base64ToOctetString (sr_ClientProof sr)))) (pw_StoredKey pw) = true.

Lemma verify_proves role si sc sr v : verifySASLClientProof role si sc sr = inr v -> proves role si sc sr.
Proof.
  unfold verifySASLClientProof, proves. destruct (CanLogin role); [|discriminate]. cbn. destruct (Password role) as [pw|]; [|discriminate].
  destruct (_ =? _)%nat; [|discriminate]. cbn. destruct (Equals _ _) eqn:E; [|discriminate]. intros _. eauto.
Qed.

Lemma attributes_nonce header nonce sections : forall acc gs2 n proof, read_attributes header nonce sections acc = inr (gs2, n, proof) ->
  n = nonce \/ n = acc.1.2.
Proof.
  induction sections as [|section sections IH]; intros [[g0 n0] p0] gs2 n proof E; cbn [read_attributes] in E; [injection E as _ -> _; auto|].
  destruct (String.length section <? 3)%nat; [discriminate|]. destruct section as [|c section]; [discriminate|]. set (value := drop_string 2 _) in E.
  destruct (decide (c = "c"%char)).
  { destruct (decide (value <> header)); [discriminate|]. exact (IH _ _ _ _ E). }
  destruct (decide (c = "p"%char)); [exact (IH _ _ _ _ E)|]. destruct (decide (c = "r"%char)); [|discriminate].
  destruct (decide (value <> nonce)) as [|Hv]; [discriminate|]. apply IH in E. left. destruct E as [E|E]; [exact E|]. cbn in E. subst n.
  apply dec_stable. exact Hv.
Qed.

Lemma response_nonce header nonce data sr : readSASLResponse header nonce data = inr sr -> sr_Nonce sr = nonce /\ nonce <> EmptyString.
Proof.
  unfold readSASLResponse. destruct (read_attributes _ _ _ _) as [|[[gs2 n] proof]] eqn:E; [discriminate|]. apply attributes_nonce in E. cbn in E.
  destruct (decide (n = EmptyString)); [discriminate|]. destruct (decide (proof = EmptyString)); [discriminate|]. intros [= <-]. cbn.
  destruct E as [-> | ->]; [auto|contradiction].
Qed.

Lemma loop_accepts role username msgs : forall si sc out out', challenged si sc out ->
  auth_loop SendError role username msgs si sc out = (out', None) ->
  exists si sc sr data, MSASLResponse data ∈ msgs /\ readSASLResponse (Base64Header si) (sc_Nonce sc) data = inr sr /\ proves role si sc sr
  /\ challenged si sc out' /\ AuthenticationOk ∈ out'.
Proof.
  induction msgs as [|m msgs IH]; intros si sc out out' Hc E; [discriminate|]. cbn [auth_loop] in E. destruct m as [mechanism data|data|].
  - destruct (readSASLInitial mechanism data) as [e|si']; [discriminate|]. unfold auth_send in E. destruct (SendError (length out)); [discriminate|].
    apply IH in E.
    + destruct E as (a & b & sr & d & Hd & E). exists a, b, sr, d. split; [right; exact Hd | exact E].
    + right. split; [apply elem_of_app; right; left | exists (length out); reflexivity].
  - destruct (readSASLResponse _ _ _) as [e|sr] eqn:Er; [discriminate|]. destruct (verifySASLClientProof _ _ _ _) as [e|v] eqn:Ev; [discriminate|].
    unfold auth_send in E. destruct (SendError (length out)); [discriminate|]. destruct (SendError _); [discriminate|]. injection E as <-.
    exists si, sc, sr, data. split; [left|]. split; [exact Er|]. split; [eapply verify_proves; exact Ev|]. split; [|apply elem_of_app; right; left].
    destruct Hc as [Hc|[Hc Hk]]; [left; exact Hc | right; split; [|exact Hk]]. apply elem_of_app. left. apply elem_of_app. left. exact Hc.
  - discriminate.
Qed.

(** The exchange, from its first message. *)
Lemma handle_accepts GetRole user unix peer msgs username host out :
  handleAuthentication SendError true GetRole user unix peer msgs = ((username, host), (out, None)) ->
  exists si sc sr data,
    MSASLResponse data ∈ msgs /\ readSASLResponse (Base64Header si) (sc_Nonce sc) data = inr sr
    /\ proves (GetRole username) si sc sr
    /\ AuthenticationSASLContinue (Encode_continue sc) ∈ out
    /\ sr_Nonce sr = sc_Nonce sc /\ exists k, sc_Nonce sc = si_Nonce si +:+ ToBase64 (GenerateRandomOctetString k).
Proof.
  unfold handleAuthentication. destruct (connection_user user unix peer) as [u h]. intros E. injection E as -> -> E.
  unfold auth_send in E. cbn in E. destruct (SendError 0); [discriminate|].
  assert (Hc0 : challenged no_initial no_continue [AuthenticationSASL [SASLMechanism_SCRAM_SHA_256]]) by (left; reflexivity).
  destruct (loop_accepts _ _ _ _ _ _ _ Hc0 E) as (si & sc & sr & data & Hd & Er & Hp & Hc & _).
  destruct (response_nonce _ _ _ _ Er) as [En Hne]. destruct Hc as [Hc|[Hs Hk]]; [contradiction|].
  exists si, sc, sr, data. auto 10.
Qed.

(** C24: with authentication enabled a client is accepted only when the role
    can log in and has a password, and the client answered a challenge the server sent:
    with the nonce of that challenge, which ends in the server's random bytes,
    and with a proof that, combined with the signature of the session's messages under the stored key, gives back a key
    that hashes to the stored one.  In particular no message before the challenge can be accepted, and
    nobody without a password is. *)
Theorem accepted_has_proof GetRole user unix peer msgs username host out :
  handleAuthentication SendError true GetRole user unix peer msgs = ((username, host), (out, None)) ->
  exists si sc sr data,
    MSASLResponse data ∈ msgs /\ readSASLResponse (Base64Header si) (sc_Nonce sc) data = inr sr
    /\ proves (GetRole username) si sc sr
    /\ AuthenticationSASLContinue (Encode_continue sc) ∈ out
    /\ sr_Nonce sr = sc_Nonce sc /\ exists k, sc_Nonce sc = si_Nonce si +:+ ToBase64 (GenerateRandomOctetString k).
Proof. apply handle_accepts. Qed.
End Accepted.

(** ** A client of RFC 5802 *)
Class Rfc5802Laws `{Rfc5802} : Prop := {
  base64_law : forall x, Base64ToOctetString (ToBase64 x) = x;
  base64_plain : forall x, no_comma (ToBase64 x) = true;
  base64_length : forall x, (String.length x <= String.length (ToBase64 x))%nat;
  xor_law : forall a b, String.length a = String.length b -> String.length (Xor a b) = String.length a /\ Xor a (Xor a b) = b;
  equals_law : forall a b, Equals a b = true <-> a = b
}.

Section Client.
Context `{Rfc5802Laws}.

(** The client's messages: with the header [gs2] (flag and authorization identity), its user
    name and nonce, and then with what the challenge gave, and the proof. *)
Definition client_first (gs2 user nonce : string) : string := gs2 +:+ "n=" +:+ user +:+ ",r=" +:+ nonce.
Definition client_final_bare (gs2 nonce : string) : string := "c=" +:+ StdEncoding_EncodeToString gs2 +:+ ",r=" +:+ nonce.
Definition client_auth_message (gs2 user nonce challenge fullNonce : string) : string :=
  ("n=" +:+ user +:+ ",r=" +:+ nonce) +:+ "," +:+ challenge +:+ "," +:+ client_final_bare gs2 fullNonce.
Definition client_final (gs2 clientKey user nonce challenge fullNonce : string) : string :=
  client_final_bare gs2 fullNonce +:+ ",p=" +:+
  ToBase64 (Xor (ClientSignature (StoredKey clientKey) (client_auth_message gs2 user nonce challenge fullNonce)) clientKey).

(** The headers without channel binding and without an authorization identity. *)
Definition plain_header (gs2 : string) (flag : SASLBindingFlag) : Prop :=
  (gs2 = "n,," /\ flag = NoClientSupport) \/ (gs2 = "y,," /\ flag = AssumedNoServerSupport).

Lemma length_cons2 c d s : (String.length (String c (String d s)) <? 2)%nat = false.
Proof. reflexivity. Qed.
Lemma drop_two c d s : drop_string 2 (String c (String d s)) = s.
Proof. exact (drop_string_app (String c (String d EmptyString)) s). Qed.

Lemma header_username u rest b u0 n : read_header (String "n" (String "=" u) :: rest) (b, u0, n) = read_header rest (b, u, n).
Proof. cbn [read_header]. rewrite length_cons2, drop_two. reflexivity. Qed.
Lemma header_nonce v rest b u n : read_header (String "r" (String "=" v) :: rest) (b, u, n) = read_header rest (b, u, v).
Proof. cbn [read_header]. rewrite length_cons2, drop_two. reflexivity. Qed.

Lemma client_first_read gs2 flag user nonce : plain_header gs2 flag -> no_comma user = true -> no_comma nonce = true -> nonce <> EmptyString ->
  readSASLInitial SASLMechanism_SCRAM_SHA_256 (client_first gs2 user nonce)
  = inr (mkInitial flag EmptyString EmptyString EmptyString user nonce (client_first gs2 user nonce)).
Proof.
  intros Hg Hu Hn Hne. unfold readSASLInitial. rewrite decide_False by (intros Hx; apply Hx; reflexivity).
  assert (Es : exists f, split_comma (client_first gs2 user nonce) = [f; EmptyString; "n=" +:+ user; "r=" +:+ nonce] /\ read_flag f = inr (flag, EmptyString)).
  { assert (Et : split_comma ("n=" +:+ user +:+ "," +:+ "r=" +:+ nonce) = ["n=" +:+ user; "r=" +:+ nonce]).
    { change ("n=" +:+ user +:+ "," +:+ "r=" +:+ nonce) with (("n=" +:+ user) +:+ "," +:+ ("r=" +:+ nonce)).
      rewrite split_comma_cut, split_comma_plain by (exact Hu || exact Hn). reflexivity. }
    unfold client_first. destruct Hg as [[-> ->]|[-> ->]].
    - exists "n". split; [|reflexivity]. change ("n,," +:+ "n=" +:+ user +:+ ",r=" +:+ nonce) with ("n" +:+ "," +:+ EmptyString +:+ "," +:+ ("n=" +:+ user +:+ "," +:+ "r=" +:+ nonce)).
      rewrite !split_comma_cut by reflexivity. rewrite Et. reflexivity.
    - exists "y". split; [|reflexivity]. change ("y,," +:+ "n=" +:+ user +:+ ",r=" +:+ nonce) with ("y" +:+ "," +:+ EmptyString +:+ "," +:+ ("n=" +:+ user +:+ "," +:+ "r=" +:+ nonce)).
      rewrite !split_comma_cut by reflexivity. rewrite Et. reflexivity. }
  destruct Es as (f & -> & Ef). rewrite Ef. change (read_authzid EmptyString) with (@inr ScramError string EmptyString).
  change ("n=" +:+ user) with (String "n" (String "=" user)). change ("r=" +:+ nonce) with (String "r" (String "=" nonce)).
  rewrite header_username, header_nonce. cbn [read_header]. rewrite decide_False by assumption. reflexivity.
Qed.

Lemma length_cons3 c d s : s <> EmptyString -> (String.length (String c (String d s)) <? 3)%nat = false.
Proof. destruct s; [congruence|]. reflexivity. Qed.

Lemma attribute_header h nonce rest g n p : h <> EmptyString ->
  read_attributes h nonce (String "c" (String "=" h) :: rest) (g, n, p) = read_attributes h nonce rest (h, n, p).
Proof. intros Hh. cbn [read_attributes]. rewrite length_cons3, drop_two by exact Hh. cbn [decide]. rewrite (decide_False (P := h <> h)) by congruence. reflexivity. Qed.
Lemma attribute_nonce h nonce rest g n p : nonce <> EmptyString ->
  read_attributes h nonce (String "r" (String "=" nonce) :: rest) (g, n, p) = read_attributes h nonce rest (g, nonce, p).
Proof. intros Hn. cbn [read_attributes]. rewrite length_cons3, drop_two by exact Hn. rewrite (decide_False (P := nonce <> nonce)) by congruence. reflexivity. Qed.
Lemma attribute_proof h nonce v rest g n p : v <> EmptyString ->
  read_attributes h nonce (String "p" (String "=" v) :: rest) (g, n, p) = read_attributes h nonce rest (g, n, v).
Proof. intros Hv. cbn [read_attributes]. rewrite length_cons3, drop_two by exact Hv. reflexivity. Qed.

Lemma encoded_plain s : no_comma (StdEncoding_EncodeToString s) = true.
Proof. eapply string_forall_impl; [|apply StdEncoding_Encode_plain]. intros c. destruct c as [[] [] [] [] [] [] [] []]; vm_compute; congruence. Qed.
Lemma encoded_nonempty s : s <> EmptyString -> StdEncoding_EncodeToString s <> EmptyString.
Proof. intros Hs. destruct s as [|a [|b [|c s]]]; [congruence| | |]; cbn [StdEncoding_EncodeToString]; destruct (sextets _ _ _) as [[[? ?] ?] ?]; discriminate. Qed.

(** The final message is read back: its proof is the last attribute, and the server expects the client's header. *)
Lemma client_final_read gs2 fullNonce proof : no_comma fullNonce = true -> fullNonce <> EmptyString -> no_comma proof = true -> proof <> EmptyString ->
  gs2 <> EmptyString ->
  let data := client_final_bare gs2 fullNonce +:+ ",p=" +:+ proof in
  readSASLResponse (StdEncoding_EncodeToString gs2) fullNonce data = inr (mkResponse (StdEncoding_EncodeToString gs2) fullNonce proof data)
  /\ MessageWithoutProof (mkResponse (StdEncoding_EncodeToString gs2) fullNonce proof data) = client_final_bare gs2 fullNonce.
Proof.
  intros Hn Hne Hp Hpe Hg data. set (h := StdEncoding_EncodeToString gs2) in *.
  pose proof (encoded_plain gs2 : no_comma h = true) as Hh. pose proof (encoded_nonempty gs2 Hg : h <> EmptyString) as Hhe.
  split.
  - unfold readSASLResponse. assert (Es : split_comma data = ["c=" +:+ h; "r=" +:+ fullNonce; "p=" +:+ proof]).
    { subst data. unfold client_final_bare. fold h.
      change ("c=" +:+ h +:+ ",r=" +:+ fullNonce) with (("c=" +:+ h) +:+ "," +:+ ("r=" +:+ fullNonce)). rewrite !app_assoc_string.
      change (",p=" +:+ proof) with ("," +:+ ("p=" +:+ proof)). change ("c=" +:+ h +:+ ?r) with (("c=" +:+ h) +:+ r).
      rewrite split_comma_cut by exact Hh. change ("r=" +:+ fullNonce +:+ ?r) with (("r=" +:+ fullNonce) +:+ r).
      rewrite split_comma_cut, split_comma_plain by (exact Hn || exact Hp). reflexivity. }
    rewrite Es. change ("c=" +:+ h) with (String "c" (String "=" h)). change ("r=" +:+ fullNonce) with (String "r" (String "=" fullNonce)).
    change ("p=" +:+ proof) with (String "p" (String "=" proof)). rewrite attribute_header, attribute_nonce, attribute_proof by assumption.
    cbn [read_attributes]. rewrite !decide_False by assumption. reflexivity.
  - unfold MessageWithoutProof. cbn [sr_RawData]. subst data. change (",p=" +:+ proof) with (String comma "p=" +:+ proof).
    rewrite last_index_at by (reflexivity || assumption). apply substring_front.
Qed.

Lemma named_user username unix peer : username <> EmptyString -> exists host, connection_user (Some username) unix peer = (username, host).
Proof. destruct username; [congruence|]. eexists. reflexivity. Qed.

Context (SendError : nat -> option string).

(** C25: a client that follows RFC 5802, without channel binding and without
    an authorization identity, and that knows the key of the role, is accepted:
    after its two messages the server has sent the mechanisms, the challenge, its own
    signature of the same messages, and the acceptance. *)
Theorem honest_client_accepted GetRole gs2 flag username nonce unix peer clientKey pw
    (role := GetRole username) (full := nonce +:+ ToBase64 (GenerateRandomOctetString 1))
    (challenge := Encode_continue (mkContinue full (ToBase64 (pw_Salt pw)) 4096)) :
  (forall n, SendError n = None) -> username <> EmptyString ->
  plain_header gs2 flag -> no_comma username = true -> no_comma nonce = true -> nonce <> EmptyString ->
  CanLogin role = true -> Password role = Some pw -> pw_StoredKey pw = StoredKey clientKey -> clientKey <> EmptyString ->
  (forall m, String.length (ClientSignature (pw_StoredKey pw) m) = String.length clientKey) ->
  (handleAuthentication SendError true GetRole (Some username) unix peer
     [MSASLInitialResponse SASLMechanism_SCRAM_SHA_256 (client_first gs2 username nonce);
      MSASLResponse (client_final gs2 clientKey username nonce challenge full)]).2
  = ([AuthenticationSASL [SASLMechanism_SCRAM_SHA_256]; AuthenticationSASLContinue challenge;
      AuthenticationSASLFinal ("v=" +:+ ToBase64 (ServerSignature (pw_ServerKey pw) (client_auth_message gs2 username nonce challenge full)));
      AuthenticationOk], None).
Proof.
  intros Hsend Hu0 Hg Hu Hn Hne Hlog Hpw Hkey Hk0 Hlen.
  assert (Hfull : no_comma full = true /\ full <> EmptyString).
  { subst full. unfold no_comma in *. rewrite string_forall_app, Hn, base64_plain. split; [reflexivity|]. destruct nonce; [congruence|discriminate]. }
  destruct Hfull as [Hf Hfe].
  set (si := mkInitial flag EmptyString EmptyString EmptyString username nonce (client_first gs2 username nonce)).
  assert (Hh : base64HeaderBytes si = gs2) by (destruct Hg as [[-> ->]|[-> ->]]; reflexivity).
  assert (Hb : MessageBare si = "n=" +:+ username +:+ ",r=" +:+ nonce).
  { unfold MessageBare. rewrite Hh. cbn [si_RawData si]. unfold client_first. rewrite CatalogErrors.prefix_app. apply drop_string_app. }
  set (message := client_auth_message gs2 username nonce challenge full).
  set (signature := ClientSignature (pw_StoredKey pw) message).
  assert (Hs : String.length signature = String.length clientKey) by apply Hlen.
  destruct (xor_law signature clientKey Hs) as [Hxl Hx].
  assert (Hp : ToBase64 (Xor signature clientKey) <> EmptyString).
  { intros E. pose proof (base64_length (Xor signature clientKey)) as Hl. rewrite E, Hxl, Hs in Hl. destruct clientKey; [congruence|]. cbn in Hl. lia. }
  assert (Hg0 : gs2 <> EmptyString) by (destruct Hg as [[-> _]|[-> _]]; discriminate).
  destruct (client_final_read gs2 full (ToBase64 (Xor signature clientKey)) Hf Hfe (base64_plain _) Hp Hg0) as [Er Ew].
  unfold handleAuthentication. destruct (named_user username unix peer Hu0) as [host ->]. change (GetRole username) with role.
  cbn [negb snd]. unfold auth_send at 1. rewrite Hsend. cbn [app auth_loop]. rewrite (client_first_read gs2 flag) by assumption. fold si.
  change (length [AuthenticationSASL _]) with 1%nat. unfold salt_of. rewrite Hpw. change (si_Nonce si) with nonce. fold full. fold challenge.
  unfold auth_send at 1. rewrite Hsend. cbn [app]. unfold client_final. rewrite <- Hkey. fold message. fold signature.
  change (Base64Header si) with (StdEncoding_EncodeToString (base64HeaderBytes si)). rewrite Hh. cbn [sc_Nonce]. rewrite Er.
  unfold verifySASLClientProof. rewrite Hlog, Hpw. cbn [negb sr_ClientProof].
  assert (Em : forall sr, MessageWithoutProof sr = client_final_bare gs2 full -> auth_message si (mkContinue full (ToBase64 (pw_Salt pw)) 4096) sr = message).
  { intros sr Esr. unfold auth_message. rewrite Hb, Esr. reflexivity. }
  rewrite (Em _ Ew), base64_law. fold signature. rewrite Hxl, Nat.eqb_refl. cbn [negb]. rewrite Hx.
  rewrite (proj2 (equals_law _ _) (eq_sym Hkey)). cbn [negb]. unfold auth_send. rewrite !Hsend. reflexivity.
Qed.
(** ** An authorization identity *)
Lemma authzid_first_read id user nonce : no_comma id = true -> id <> EmptyString -> no_comma user = true -> no_comma nonce = true -> nonce <> EmptyString ->
  readSASLInitial SASLMechanism_SCRAM_SHA_256 (client_first ("n,a=" +:+ id +:+ ",") user nonce)
  = inr (mkInitial NoClientSupport EmptyString EmptyString id user nonce (client_first ("n,a=" +:+ id +:+ ",") user nonce)).
Proof.
  intros Hi Hie Hu Hn Hne. unfold readSASLInitial. rewrite decide_False by (intros Hx; apply Hx; reflexivity).
  assert (Es : split_comma (client_first ("n,a=" +:+ id +:+ ",") user nonce) = ["n"; "a=" +:+ id; "n=" +:+ user; "r=" +:+ nonce]).
  { unfold client_first. rewrite !app_assoc_string.
    change ("n,a=" +:+ id +:+ "," +:+ "n=" +:+ user +:+ ",r=" +:+ nonce)
      with ("n" +:+ "," +:+ (("a=" +:+ id) +:+ "," +:+ (("n=" +:+ user) +:+ "," +:+ ("r=" +:+ nonce)))).
    rewrite !split_comma_cut, split_comma_plain by (reflexivity || exact Hi || exact Hu || exact Hn). reflexivity. }
  rewrite Es. change (read_flag "n") with (@inr ScramError _ (NoClientSupport, EmptyString)).
  unfold read_authzid. rewrite decide_False by discriminate. change ("a=" +:+ id) with (String "a" (String "=" id)). rewrite length_cons3, drop_two by exact Hie.
  change ("n=" +:+ user) with (String "n" (String "=" user)). change ("r=" +:+ nonce) with (String "r" (String "=" nonce)).
  rewrite header_username, header_nonce. cbn [read_header]. rewrite decide_False by assumption. reflexivity.
Qed.

(** A client that sends an authorization identity is refused, whatever its
    key: RFC 5802 has it repeat its header [n,a=id,] in the final message, and the server
    rebuilds the header without the [a=], so that the two never agree and the
    exchange ends with the error of an inconsistent header. *)
Theorem authzid_is_refused GetRole id username user nonce unix peer (gs2 := "n,a=" +:+ id +:+ ",") full rest :
  (forall n, SendError n = None) -> no_comma id = true -> id <> EmptyString -> no_comma user = true -> no_comma nonce = true -> nonce <> EmptyString ->
  (handleAuthentication SendError true GetRole username unix peer
     [MSASLInitialResponse SASLMechanism_SCRAM_SHA_256 (client_first gs2 user nonce); MSASLResponse (client_final_bare gs2 full +:+ rest)]).2.2
  = Some InconsistentHeader.
Proof.
  intros Hsend Hi Hie Hu Hn Hne. unfold handleAuthentication. destruct (connection_user username unix peer) as [u h]. cbn [negb snd].
  unfold auth_send at 1. rewrite Hsend. cbn [app auth_loop]. subst gs2. rewrite authzid_first_read by assumption.
  unfold auth_send at 1. rewrite Hsend. cbn [sc_Nonce si_Nonce].
  set (si := mkInitial NoClientSupport _ _ _ _ _ _). set (gs2 := "n,a=" +:+ id +:+ ",").
  assert (Hd : StdEncoding_EncodeToString gs2 <> Base64Header si).
  { intros E. apply (f_equal StdEncoding_Decode) in E. unfold Base64Header in E. rewrite !StdEncoding_Decode_Encode in E. subst gs2.
    assert (Hx : forall x, Some (String "n" (String "," (String "a" (String "=" x)))) = Some (String "n" (String "," x)) -> False).
    { intros x [= Ex]. apply (f_equal String.length) in Ex. cbn in Ex. lia. }
    exact (Hx (id +:+ ",") E). }
  assert (Er : forall n, readSASLResponse (Base64Header si) n (client_final_bare gs2 full +:+ rest) = inl InconsistentHeader); [|rewrite Er; reflexivity].
  intros n. unfold readSASLResponse, client_final_bare. rewrite !app_assoc_string. change (",r=" +:+ full +:+ rest) with ("," +:+ ("r=" +:+ full +:+ rest)).
  change ("c=" +:+ ?h +:+ ?r) with (("c=" +:+ h) +:+ r).
  rewrite split_comma_cut by exact (encoded_plain gs2). change ("c=" +:+ ?h) with (String "c" (String "=" h)). cbn [read_attributes].
  rewrite length_cons3, drop_two by (apply encoded_nonempty; discriminate). rewrite (decide_True (P := _ <> Base64Header si)) by exact Hd. reflexivity.
Qed.
End Client.

(** The error of a final message without a proof names the nonce. *)
Example missing_proof_names_nonce : readSASLResponse "biws" "xyz" "c=biws,r=xyz" = inl ResponseMissingNonce.
Proof. reflexivity. Qed.
(** The channel binding attribute can be left out. *)
Example header_is_optional : exists sr, readSASLResponse "biws" "xyz" "r=xyz,p=AAAA" = inr sr.
Proof. eexists. reflexivity. Qed.

(** ** A concrete exchange *)
Fixpoint xor_string (a b : string) : string :=
  match a, b with
  | String (Ascii a0 a1 a2 a3 a4 a5 a6 a7) a, String (Ascii b0 b1 b2 b3 b4 b5 b6 b7) b =>
      String (Ascii (xorb a0 b0) (xorb a1 b1) (xorb a2 b2) (xorb a3 b3) (xorb a4 b4) (xorb a5 b5) (xorb a6 b6) (xorb a7 b7)) (xor_string a b)
  | _, _ => EmptyString
  end.
(** Four bytes of a text. *)
Definition four (s : string) : string := String.substring 0 4 (s +:+ "1234").
#[export] Instance rfc5802_model : Rfc5802 := {|
  H := four; ClientSignature := fun k m => four (k +:+ m); ServerSignature := fun k m => four (k +:+ m); StoredKey := fun k => "k" +:+ k;
  Xor := xor_string; Equals := fun a b => bool_decide (a = b);
  ToBase64 := StdEncoding_EncodeToString; Base64ToOctetString := fun s => default EmptyString (StdEncoding_Decode s);
  GenerateRandomOctetString := fun _ => "random"
|}.

Lemma encode_length s : (String.length s <= String.length (StdEncoding_EncodeToString s))%nat.
Proof.
  induction s as [|a|a b|a b c s IH] using quantum_ind; cbn [StdEncoding_EncodeToString]; [apply Nat.le_refl| | |];
    destruct (sextets _ _ _) as [[[? ?] ?] ?]; cbn; lia.
Qed.

#[export] Instance rfc5802_model_laws : Rfc5802Laws.
Proof.
  split; cbn [Base64ToOctetString ToBase64 Xor Equals rfc5802_model].
  - intros x. rewrite StdEncoding_Decode_Encode. reflexivity.
  - apply encoded_plain.
  - apply encode_length.
  - induction a as [|a0 a IH]; intros [|b0 b] E; try discriminate E; [split; reflexivity|]. injection E as E. destruct (IH b E) as [E1 E2].
    destruct a0, b0. cbn. rewrite E1, E2. split; [reflexivity|]. f_equal. f_equal;
    match goal with |- xorb ?x (xorb ?x ?y) = ?y => destruct x, y; reflexivity end.
  - intros a b. apply bool_decide_eq_true.
Qed.

Definition alice_password : ScramSha256Password := mkPassword "salt" "ksecr" "server".
Definition alice_roles (name : string) : Role := mkRole name true (Some alice_password).
Definition never_fails (n : nat) : option string := None.
Definition full_nonce : string := "abc" +:+ StdEncoding_EncodeToString "random".
Definition alice_challenge : string := Encode_continue (mkContinue full_nonce (StdEncoding_EncodeToString "salt") 4096).
Definition alice_messages : list ClientMessage :=
  [MSASLInitialResponse SASLMechanism_SCRAM_SHA_256 (client_first "n,," "alice" "abc");
   MSASLResponse (client_final "n,," "secr" "alice" "abc" alice_challenge full_nonce)].
Definition alice_outcome : (string * string) * (list ServerMessage * option ScramError) :=
  handleAuthentication never_fails true alice_roles (Some "alice") true EmptyString alice_messages.

Lemma honest_client_accepted_witness : AuthenticationOk ∈ alice_outcome.2.1 /\ alice_outcome.2.2 = None.
Proof.
  assert (E : alice_outcome.2 = ([AuthenticationSASL [SASLMechanism_SCRAM_SHA_256]; AuthenticationSASLContinue alice_challenge;
      AuthenticationSASLFinal ("v=" +:+ ToBase64 (ServerSignature "server" (client_auth_message "n,," "alice" "abc" alice_challenge full_nonce)));
      AuthenticationOk], None)).
  { refine (honest_client_accepted never_fails alice_roles "n,," NoClientSupport "alice" "abc" true EmptyString "secr" alice_password
      (fun _ => eq_refl) _ (or_introl (conj eq_refl eq_refl)) eq_refl eq_refl _ eq_refl eq_refl eq_refl _ (fun _ => eq_refl)); discriminate. }
  rewrite E. split; [cbn; right; right; right; left | reflexivity].
Defined.

Lemma accepted_has_proof_witness : exists si sc sr, proves (alice_roles "alice") si sc sr /\ sr_Nonce sr = sc_Nonce sc.
Proof.
  assert (E : alice_outcome = (("alice", "localhost"), (alice_outcome.2.1, None))) by (vm_compute; reflexivity).
  destruct (accepted_has_proof never_fails alice_roles (Some "alice") true EmptyString alice_messages "alice" "localhost" alice_outcome.2.1 E)
    as (si & sc & sr & data & _ & _ & Hp & _ & Hn & _).
  exists si, sc, sr. split; [exact Hp | exact Hn].
Defined.

Lemma authzid_is_refused_witness :
  (handleAuthentication never_fails true alice_roles (Some "alice") true EmptyString
     [MSASLInitialResponse SASLMechanism_SCRAM_SHA_256 (client_first "n,a=bob," "alice" "abc");
      MSASLResponse (client_final "n,a=bob," "secr" "alice" "abc" alice_challenge full_nonce)]).2.2 = Some InconsistentHeader.
Proof.
  refine (authzid_is_refused never_fails alice_roles "bob" (Some "alice") "alice" "abc" true EmptyString full_nonce _ (fun _ => eq_refl) eq_refl _ eq_refl eq_refl _); discriminate.
Defined.
