(* ===== verification/JsonBinary.v ===== *)
(** * The binary JSON encoder (src/binlogreplication/binlog_json_serialization.go)

    MySQL's internal encoding of a JSON document, as it appears in binlog
    events: [encodeJsonDoc] and its helpers, with the widths and wrap-around of
    the code, and [decode], a reader of the part of the documented format the encoder
    writes.  [json_doc_roundtrip]: what was encoded is read back, for every
    document within the bounds of [sizes_fit]; the lemmas after it show
    what the encoder writes outside them. *)

From S2P Require Import Prelude.
From stdpp Require Import list.
#[local] Open Scope Z_scope.

(** A value of [JSONWrapper.ToInterface].  Strings are bytes, a double is its bits, a map is its
    members in the order of the sorted keys; [JOther] is any other Go type. *)
#[local] Unset Elimination Schemes.
Inductive JsonValue : Type :=
| JNull | JBool (b : bool) | JString (s : list Z) | JDouble (bits : Z)
| JArray (l : list JsonValue) | JObject (members : list (list Z * JsonValue)) | JOther.
#[local] Set Elimination Schemes.

Definition jsonTypeSmallObject : Z := 0x00.
Definition jsonTypeLargeObject : Z := 0x01.
Definition jsonTypeSmallArray : Z := 0x02.
Definition jsonTypeLargeArray : Z := 0x03.
Definition jsonTypeLiteral : Z := 0x04.
Definition jsonTypeDouble : Z := 0x0b.
Definition jsonTypeString : Z := 0x0c.
Definition jsonLiteralValueNull : Z := 0x00.
Definition jsonLiteralValueTrue : Z := 0x01.
Definition jsonLiteralValueFalse : Z := 0x02.
Definition maxOffsetSize : Z := 65535.

Inductive JsonError : Type := TooManyElements (n : Z) | UnexpectedBufferLength | OffsetTooLarge | StringTooLarge | UnexpectedType.

Definition appendForEncoding (bytes : list Z) (value : Z) (largeEncoding : bool) : list Z :=
  if largeEncoding then bytes ++ [u8 value; u8 (Z.shiftr value 8); u8 (Z.shiftr value 16); u8 (Z.shiftr value 24)]
  else bytes ++ [u8 value; u8 (Z.shiftr value 8)].

Definition appendStringLength (bytes : list Z) (length : Z) : JsonError + list Z :=
  if 0x1FFFFF <? length then inl StringTooLarge
  else if 0x3FFF <? length then
    inr (bytes ++ [u8 (Z.lor (Z.land length 0x7F) 0x80); u8 (Z.lor (Z.shiftr length 7) 0x80); u8 (Z.shiftr length 14)])
  else if 0x7F <? length then inr (bytes ++ [u8 (Z.lor (Z.land length 0x7F) 0x80); u8 (Z.shiftr length 7)])
  else inr (bytes ++ [u8 length]).

Definition calculateInitialArrayValuesOffset (arrayLength : Z) (largeEncoding : bool) : Z :=
  if largeEncoding then u32 (4 + 4 + arrayLength * 5) else u32 (2 + 2 + arrayLength * 3).
Definition calculateInitialObjectKeysOffset (objectLength : Z) (largeEncoding : bool) : Z :=
  if largeEncoding then u32 (4 + 4 + objectLength * 6 + objectLength * 5) else u32 (2 + 2 + objectLength * 4 + objectLength * 3).

Abbreviation len l := (Z.of_nat (length l)).

(** The value entries, the values and the next offset. *)
Record Buffers : Type := mkBuffers { b_entries : list Z; b_values : list Z; b_next : Z }.

(** [uint32] wraps: a value of more than [maxOffsetSize] bytes passes the test. *)
Definition offset_too_large (largeEncoding : bool) (next : Z) (value : list Z) : bool :=
  negb largeEncoding && (u32 (maxOffsetSize - u32 (len value)) <? next).

(** One encoded value: literals are inlined in its entry. *)
Definition append_value (largeEncoding : bool) (typeId : Z) (encodedValue : list Z) (st : Buffers) : JsonError + Buffers :=
  if typeId =? jsonTypeLiteral then
    match encodedValue with
    | [x] => inr (mkBuffers (appendForEncoding (b_entries st ++ [typeId]) x largeEncoding) (b_values st) (b_next st))
    | _ => inl UnexpectedBufferLength
    end
  else if offset_too_large largeEncoding (b_next st) encodedValue then inl OffsetTooLarge
  else inr (mkBuffers (appendForEncoding (b_entries st ++ [typeId]) (b_next st) largeEncoding) (b_values st ++ encodedValue)
                      (u32 (b_next st + u32 (len encodedValue)))).

Section Containers.
Context (encodeJsonValue : JsonValue -> JsonError + (Z * list Z)).

Fixpoint array_loop (largeEncoding : bool) (l : list JsonValue) (st : Buffers) : JsonError + Buffers :=
  match l with
  | [] => inr st
  | element :: l =>
      match encodeJsonValue element with
      | inl e => inl e
      | inr (typeId, encodedValue) =>
          match append_value largeEncoding typeId encodedValue st with inl e => inl e | inr st => array_loop largeEncoding l st end
      end
  end.

Definition encodeJsonArray (jsonArray : list JsonValue) (largeEncoding : bool) : JsonError + (Z * list Z) :=
  if negb largeEncoding && (maxOffsetSize <? len jsonArray) then inl (TooManyElements (len jsonArray))
  else match array_loop largeEncoding jsonArray (mkBuffers [] [] (calculateInitialArrayValuesOffset (len jsonArray) largeEncoding)) with
  | inl e => inl e
  | inr st =>
      let encodedArray := appendForEncoding [] (u32 (len jsonArray)) largeEncoding in
      let encodedArray := appendForEncoding encodedArray (b_next st) largeEncoding in
      inr (if largeEncoding then jsonTypeLargeArray else jsonTypeSmallArray, encodedArray ++ b_entries st ++ b_values st)
  end.

(** The key entries, the keys and the next offset; the second byte of a length
    is [byte(len << 8)]. *)
Fixpoint keys_loop (largeEncoding : bool) (l : list (list Z * JsonValue)) (st : Buffers) : JsonError + Buffers :=
  match l with
  | [] => inr st
  | (key, _) :: l =>
      if offset_too_large largeEncoding (b_next st) key then inl OffsetTooLarge
      else keys_loop largeEncoding l
             (mkBuffers (appendForEncoding (b_entries st) (b_next st) largeEncoding ++ [u8 (len key); u8 (Z.shiftl (len key) 8)])
                        (b_values st ++ key) (u32 (b_next st + u32 (len key))))
  end.

Fixpoint members_loop (largeEncoding : bool) (l : list (list Z * JsonValue)) (st : Buffers) : JsonError + Buffers :=
  match l with
  | [] => inr st
  | (_, value) :: l =>
      match encodeJsonValue value with
      | inl e => inl e
      | inr (typeId, encodedValue) =>
          match append_value largeEncoding typeId encodedValue st with inl e => inl e | inr st => members_loop largeEncoding l st end
      end
  end.

Definition encodeJsonObject (jsonObject : list (list Z * JsonValue)) (largeEncoding : bool) : JsonError + (Z * list Z) :=
  match keys_loop largeEncoding jsonObject (mkBuffers [] [] (calculateInitialObjectKeysOffset (len jsonObject) largeEncoding)) with
  | inl e => inl e
  | inr keys =>
      match members_loop largeEncoding jsonObject (mkBuffers [] [] (b_next keys)) with
      | inl e => inl e
      | inr st =>
          let encodedObject := appendForEncoding [] (u32 (len jsonObject)) largeEncoding in
          let encodedObject := appendForEncoding encodedObject (b_next st) largeEncoding in
          inr (if largeEncoding then jsonTypeLargeObject else jsonTypeSmallObject,
               encodedObject ++ b_entries keys ++ b_entries st ++ b_values keys ++ b_values st)
      end
  end.
End Containers.

(** The small encoding first, the large one when it fails. *)
Fixpoint encodeJsonValue (v : JsonValue) : JsonError + (Z * list Z) :=
  match v with
  | JNull => inr (jsonTypeLiteral, [jsonLiteralValueNull])
  | JBool b => inr (jsonTypeLiteral, [if b then jsonLiteralValueTrue else jsonLiteralValueFalse])
  | JString s => match appendStringLength [] (len s) with inl e => inl e | inr buffer => inr (jsonTypeString, buffer ++ s) end
  | JDouble bits => inr (jsonTypeDouble, le_bytes 8 bits)
  | JArray l => match encodeJsonArray encodeJsonValue l false with inr r => inr r | inl _ => encodeJsonArray encodeJsonValue l true end
  | JObject l => match encodeJsonObject encodeJsonValue l false with inr r => inr r | inl _ => encodeJsonObject encodeJsonValue l true end
  | JOther => inl UnexpectedType
  end.

Definition encodeJsonDoc (v : JsonValue) : JsonError + list Z :=
  match encodeJsonValue v with inl e => inl e | inr (typeId, encodedValue) => inr (typeId :: encodedValue) end.

(** ** A reader of the format *)
Definition width (large : bool) : nat := if large then 4 else 2.
Definition read_uint (w : nat) (b : list Z) : option Z := if decide (w <= length b)%nat then Some (le_nat (take w b)) else None.

Definition read_literal (x : Z) : option JsonValue :=
  if x =? jsonLiteralValueNull then Some JNull
  else if x =? jsonLiteralValueTrue then Some (JBool true) else if x =? jsonLiteralValueFalse then Some (JBool false) else None.

(** Seven bits a byte, the low ones first. *)
Definition read_length (b : list Z) : option (Z * list Z) :=
  match b with
  | b0 :: r =>
      if b0 <? 128 then Some (b0, r)
      else match r with
      | b1 :: r =>
          if b1 <? 128 then Some (b0 - 128 + 128 * b1, r)
          else match r with b2 :: r => Some (b0 - 128 + 128 * (b1 - 128) + 16384 * b2, r) | [] => None end
      | [] => None
      end
  | [] => None
  end.

Section Readers.
Context (decode : Z -> list Z -> option JsonValue).

(** [n] entries at [es], of the container whose bytes are [b]. *)
Fixpoint read_entries (w : nat) (n : nat) (es b : list Z) : option (list JsonValue) :=
  match n with
  | O => Some []
  | S n =>
      match es with
      | [] => None
      | t :: es =>
          x ← read_uint w es;
          v ← (if t =? jsonTypeLiteral then read_literal x else decode t (drop (Z.to_nat x) b));
          vs ← read_entries w n (drop w es) b;
          Some (v :: vs)
      end
  end.

Fixpoint read_keys (w : nat) (n : nat) (es b : list Z) : option (list (list Z)) :=
  match n with
  | O => Some []
  | S n =>
      x ← read_uint w es;
      l ← read_uint 2 (drop w es);
      ks ← read_keys w n (drop (w + 2) es) b;
      Some (take (Z.to_nat l) (drop (Z.to_nat x) b) :: ks)
  end.

(** The count, and the container's bytes: as many as its size says. *)
Definition read_header (w : nat) (b : list Z) : option (nat * list Z) :=
  count ← read_uint w b;
  size ← read_uint w (drop w b);
  if decide (Z.to_nat size <= length b)%nat then Some (Z.to_nat count, take (Z.to_nat size) b) else None.

Definition read_array (w : nat) (b : list Z) : option JsonValue :=
  '(n, b) ← read_header w b; vs ← read_entries w n (drop (2 * w) b) b; Some (JArray vs).
Definition read_object (w : nat) (b : list Z) : option JsonValue :=
  '(n, b) ← read_header w b;
  ks ← read_keys w n (drop (2 * w) b) b;
  vs ← read_entries w n (drop (2 * w + n * (w + 2)) b) b;
  Some (JObject (zip ks vs)).
End Readers.

(** A value of a type, at the beginning of the bytes. *)
Fixpoint decode (fuel : nat) (t : Z) (b : list Z) : option JsonValue :=
  match fuel with
  | O => None
  | S fuel =>
      if t =? jsonTypeLiteral then match b with x :: _ => read_literal x | [] => None end
      else if t =? jsonTypeDouble then x ← read_uint 8 b; Some (JDouble x)
      else if t =? jsonTypeString then
        '(n, r) ← read_length b; if decide (Z.to_nat n <= length r)%nat then Some (JString (take (Z.to_nat n) r)) else None
      else if t =? jsonTypeSmallArray then read_array (decode fuel) 2 b
      else if t =? jsonTypeLargeArray then read_array (decode fuel) 4 b
      else if t =? jsonTypeSmallObject then read_object (decode fuel) 2 b
      else if t =? jsonTypeLargeObject then read_object (decode fuel) 4 b
      else None
  end.
Definition decode_doc (fuel : nat) (b : list Z) : option JsonValue := match b with t :: b => decode fuel t b | [] => None end.

(** From the test of the encoder: [["foo", "bar", true, "baz"]] and the object with foo: "bar" and zap: true. *)
Example array_bytes : encodeJsonDoc (JArray [JString [102; 111; 111]; JString [98; 97; 114]; JBool true; JString [98; 97; 122]])
  = inr [0x2; 0x4; 0x0; 0x1c; 0x0; 0xc; 0x10; 0x0; 0xc; 0x14; 0x0; 0x4; 0x1; 0x0; 0xc; 0x18; 0x0; 0x3; 0x66; 0x6f; 0x6f; 0x3; 0x62; 0x61; 0x72; 0x3; 0x62; 0x61; 0x7a].
Proof. reflexivity. Qed.
Example object_bytes : encodeJsonDoc (JObject [([102; 111; 111], JString [98; 97; 114]); ([122; 97; 112], JBool true)])
  = inr [0x0; 0x2; 0x0; 0x1c; 0x0; 0x12; 0x0; 0x3; 0x0; 0x15; 0x0; 0x3; 0x0; 0xc; 0x18; 0x0; 0x4; 0x1; 0x0; 0x66; 0x6f; 0x6f; 0x7a; 0x61; 0x70; 0x3; 0x62; 0x61; 0x72].
Proof. reflexivity. Qed.

(** ** Claims about the binary JSON encoder

    [json_doc_roundtrip]: the encoder against the reader of the format.  A
    container's bytes are a header, entries and values ([entries_of],
    [values_of]); both loops write that layout and the reader finds every value at
    its offset. *)

(** ** Numbers *)
Lemma appendForEncoding_bytes b v large : appendForEncoding b v large = b ++ le_bytes (width large) v.
Proof. destruct large; cbn; rewrite !Z.shiftr_div_pow2 by lia; unfold u8; rewrite ?Z.div_div by lia; reflexivity. Qed.

Lemma read_uint_bytes w v r : 0 <= v < 256 ^ Z.of_nat w -> read_uint w (le_bytes w v ++ r) = Some v.
Proof.
  intros Hv. unfold read_uint. rewrite decide_True by (rewrite length_app, length_le_bytes; lia).
  rewrite take_app_length' by (symmetry; apply length_le_bytes). rewrite le_nat_bytes, Z.mod_small by exact Hv. reflexivity.
Qed.

Lemma drop_bytes w v r : drop w (le_bytes w v ++ r) = r.
Proof. apply drop_app_length'. symmetry. apply length_le_bytes. Qed.

Definition limit (large : bool) : Z := 256 ^ Z.of_nat (width large).
Lemma limit_value large : limit large = if large then 2 ^ 32 else 2 ^ 16.
Proof. destruct large; reflexivity. Qed.

(** ** The layout of a container *)
Definition item : Type := (Z * list Z)%type.
Definition lit (i : item) : bool := i.1 =? jsonTypeLiteral.

Fixpoint values_of (items : list item) : list Z :=
  match items with [] => [] | i :: items => (if lit i then [] else i.2) ++ values_of items end.
Fixpoint entries_of (w : nat) (off : Z) (items : list item) : list Z :=
  match items with
  | [] => []
  | i :: items =>
      if lit i then i.1 :: le_bytes w (hd 0 i.2) ++ entries_of w off items
      else i.1 :: le_bytes w off ++ entries_of w (off + len i.2) items
  end.

Lemma length_entries_of w items : forall off, length (entries_of w off items) = (length items * (w + 1))%nat.
Proof. induction items as [|i items IH]; intros off; [reflexivity|]. cbn. destruct (lit i); cbn; rewrite length_app, length_le_bytes, IH; lia. Qed.

Lemma values_of_literals items : forallb lit items = true -> values_of items = [].
Proof. induction items as [|i items IH]; [reflexivity|]. cbn. destruct (lit i); [exact IH|discriminate]. Qed.

(** An inlined literal is one byte. *)
Definition item_ok (i : item) : Prop := lit i = true -> exists x, i.2 = [x].

Fixpoint items_loop (large : bool) (items : list item) (st : Buffers) : JsonError + Buffers :=
  match items with
  | [] => inr st
  | i :: items => match append_value large i.1 i.2 st with inl e => inl e | inr st => items_loop large items st end
  end.

(** The state of a loop after the items. *)
Definition laid_out (large : bool) (items : list item) (st : Buffers) : Buffers :=
  mkBuffers (b_entries st ++ entries_of (width large) (b_next st) items) (b_values st ++ values_of items) (b_next st + len (values_of items)).

Lemma append_literal large i st : item_ok i -> lit i = true -> append_value large i.1 i.2 st
  = inr (mkBuffers (b_entries st ++ i.1 :: le_bytes (width large) (hd 0 i.2)) (b_values st) (b_next st)).
Proof.
  intros Hok Hl. destruct (Hok Hl) as [x Hx]. unfold append_value. unfold lit in Hl. rewrite Hl, Hx. cbn [hd].
  rewrite appendForEncoding_bytes, <- app_assoc. reflexivity.
Qed.

Lemma append_nonliteral large i st : lit i = false -> 0 <= b_next st -> b_next st + len i.2 < limit large ->
  append_value large i.1 i.2 st
  = inr (mkBuffers (b_entries st ++ i.1 :: le_bytes (width large) (b_next st)) (b_values st ++ i.2) (b_next st + len i.2)).
Proof.
  intros Hl H0 Hb. unfold append_value. unfold lit in Hl. rewrite Hl, limit_value in *.
  assert (Hlim : b_next st + len i.2 < 2 ^ 32) by (destruct large; lia).
  assert (Hu : u32 (len i.2) = len i.2) by (apply Z.mod_small; lia).
  assert (Hf : offset_too_large large (b_next st) i.2 = false).
  { unfold offset_too_large. destruct large; [reflexivity|]. cbn [negb andb]. rewrite Hu. unfold maxOffsetSize.
    unfold u32. rewrite Z.mod_small by lia. apply Z.ltb_ge. lia. }
  rewrite Hf, Hu, appendForEncoding_bytes, <- app_assoc. unfold u32. rewrite Z.mod_small by lia. reflexivity.
Qed.

(** When everything fits, the loop lays out the items. *)
Lemma items_loop_fits large items : forall st, Forall item_ok items -> 0 <= b_next st -> b_next st + len (values_of items) < limit large ->
  items_loop large items st = inr (laid_out large items st).
Proof.
  induction items as [|i items IH]; intros st Hok H0 Hb; cbn [items_loop].
  - unfold laid_out. cbn. rewrite !app_nil_r, Z.add_0_r. destruct st; reflexivity.
  - apply Forall_cons in Hok. destruct Hok as [Hi Hok]. cbn [values_of] in Hb. destruct (lit i) eqn:Hl.
    + rewrite append_literal by assumption. rewrite IH by assumption. unfold laid_out. cbn [b_entries b_values b_next values_of entries_of]. rewrite Hl.
      rewrite <- app_assoc. reflexivity.
    + rewrite length_app in Hb. rewrite append_nonliteral by (assumption || lia). rewrite IH by (cbn [b_next]; assumption || lia).
      unfold laid_out. cbn [b_entries b_values b_next values_of entries_of]. rewrite Hl, <- !app_assoc, length_app. do 2 f_equal. lia.
Qed.

(** The small encoding only succeeds when the values fit, as long as each is short enough for the test not to wrap. *)
Lemma items_loop_small items : forall st st', Forall item_ok items -> Forall (fun i : item => len i.2 <= 65535) items -> 0 <= b_next st ->
  items_loop false items st = inr st' -> forallb lit items = true \/ b_next st + len (values_of items) < 2 ^ 16.
Proof.
  induction items as [|i items IH]; intros st st' Hok Hs H0 E; [auto|].
  apply Forall_cons in Hok. destruct Hok as [Hi Hok]. apply Forall_cons in Hs. destruct Hs as [Hsi Hs]. cbn [items_loop forallb values_of] in *.
  destruct (lit i) eqn:Hl.
  - rewrite append_literal in E by assumption. refine (IH _ _ Hok Hs _ E). exact H0.
  - right. rewrite length_app. destruct (append_value false i.1 i.2 st) as [e|st1] eqn:Ea; [discriminate|].
    assert (Hb : b_next st + len i.2 <= 65535).
    { unfold append_value in Ea. unfold lit in Hl. rewrite Hl in Ea. unfold offset_too_large in Ea. cbn [negb andb] in Ea.
      unfold maxOffsetSize, u32 in Ea. rewrite (Z.mod_small (len i.2)) in Ea by lia. rewrite (Z.mod_small (65535 - _)) in Ea by lia.
      destruct (Z.ltb_spec (65535 - len i.2) (b_next st)); [discriminate|]. lia. }
    rewrite append_nonliteral in Ea by (assumption || (rewrite limit_value; lia)). injection Ea as <-.
    destruct (fun Hn => IH _ _ Hok Hs Hn E) as [Hall|Hb']; [cbn [b_next]; lia| |].
    + rewrite values_of_literals by exact Hall. cbn [length]. lia.
    + cbn [b_next] in Hb'. lia.
Qed.

(** ** Reading it back *)
(** [v] is what an item stands for. *)
Definition reads (dec : Z -> list Z -> option JsonValue) (i : item) (v : JsonValue) : Prop :=
  if lit i then exists x, i.2 = [x] /\ 0 <= x < 256 /\ read_literal x = Some v else forall rest, dec i.1 (i.2 ++ rest) = Some v.

Lemma read_entries_layout dec large b items vs : Forall2 (reads dec) items vs -> forall off rest rest',
  0 <= off -> off + len (values_of items) < limit large -> drop (Z.to_nat off) b = values_of items ++ rest' ->
  read_entries dec (width large) (length items) (entries_of (width large) off items ++ rest) b = Some vs.
Proof.
  induction 1 as [|i v items vs Hi _ IH]; intros off rest rest' H0 Hb Hd; [reflexivity|].
  cbn [length entries_of values_of] in *. unfold reads in Hi. destruct (lit i) eqn:Hl.
  - destruct Hi as (x & Ex & Hx & Er). rewrite Ex. cbn [hd app read_entries]. rewrite <- app_assoc.
    rewrite read_uint_bytes by (destruct large; cbn; lia). cbn. unfold lit in Hl. rewrite Hl, Er. cbn. rewrite drop_bytes, (IH off rest rest') by assumption. reflexivity.
  - rewrite length_app in Hb. cbn [app read_entries]. rewrite <- app_assoc. rewrite read_uint_bytes by (unfold limit in Hb; lia). cbn.
    unfold lit in Hl. rewrite Hl, Hd, <- app_assoc, Hi. cbn. rewrite drop_bytes, (IH (off + len i.2) rest rest'); [reflexivity|lia|lia|].
    rewrite Z2Nat.inj_add, Nat2Z.id by lia. rewrite <- drop_drop, Hd, <- app_assoc. apply drop_app_length.
Qed.

(** ** Keys *)
Fixpoint key_entries (w : nat) (off : Z) (keys : list (list Z)) : list Z :=
  match keys with [] => [] | k :: keys => le_bytes w off ++ le_bytes 2 (len k) ++ key_entries w (off + len k) keys end.

Lemma length_key_entries w keys : forall off, length (key_entries w off keys) = (length keys * (w + 2))%nat.
Proof. induction keys as [|k keys IH]; intros off; [reflexivity|]. cbn [key_entries length]. rewrite !length_app, !length_le_bytes, IH. lia. Qed.

Lemma key_length_bytes n : 0 <= n <= 255 -> [u8 n; u8 (Z.shiftl n 8)] = le_bytes 2 n.
Proof.
  intros Hn. cbn. unfold u8. rewrite Z.shiftl_mul_pow2 by lia. change (2 ^ 8) with 256. rewrite Z.mod_mul by lia.
  rewrite (Z.div_small n) by lia. reflexivity.
Qed.

Lemma key_fits large next key : 0 <= next -> next + len key < limit large ->
  offset_too_large large next key = false /\ u32 (next + u32 (len key)) = next + len key.
Proof.
  intros H0 Hb. rewrite limit_value in Hb. assert (next + len key < 2 ^ 32) by (destruct large; lia).
  unfold offset_too_large, u32, maxOffsetSize. rewrite (Z.mod_small (len key)) by lia. split; [|apply Z.mod_small; lia].
  destruct large; [reflexivity|]. cbn [negb andb]. rewrite Z.mod_small by lia. apply Z.ltb_ge. lia.
Qed.

Lemma keys_loop_fits large l : forall st, Forall (fun k => len k <= 255) (map fst l) -> 0 <= b_next st -> b_next st + len (concat (map fst l)) < limit large ->
  keys_loop large l st = inr (mkBuffers (b_entries st ++ key_entries (width large) (b_next st) (map fst l)) (b_values st ++ concat (map fst l))
                                        (b_next st + len (concat (map fst l)))).
Proof.
  induction l as [|[k v] l IH]; intros st Hk H0 Hb; cbn [keys_loop map fst concat key_entries] in *.
  - cbn [length]. rewrite !app_nil_r, Z.add_0_r. destruct st; reflexivity.
  - apply Forall_cons in Hk. destruct Hk as [Hk1 Hk]. rewrite length_app in Hb.
    destruct (key_fits large (b_next st) k H0) as [-> ->]; [lia|]. rewrite IH by (cbn [b_next]; assumption || lia). cbn [b_entries b_values b_next].
    rewrite appendForEncoding_bytes, key_length_bytes, <- !app_assoc, length_app by lia. do 2 f_equal. lia.
Qed.

Lemma keys_loop_small l : forall st st', Forall (fun k => len k <= 255) (map fst l) -> 0 <= b_next st ->
  keys_loop false l st = inr st' -> l = [] \/ b_next st + len (concat (map fst l)) < 2 ^ 16.
Proof.
  induction l as [|[k v] l IH]; intros st st' Hk H0 E; [auto|]. right. cbn [keys_loop map fst concat] in *.
  apply Forall_cons in Hk. destruct Hk as [Hk1 Hk]. rewrite length_app. destruct (offset_too_large false (b_next st) k) eqn:Eo; [discriminate|].
  assert (Hb : b_next st + len k <= 65535).
  { unfold offset_too_large, maxOffsetSize, u32 in Eo. cbn [negb andb] in Eo. rewrite (Z.mod_small (len k)) in Eo by lia.
    rewrite Z.mod_small in Eo by lia. apply Z.ltb_ge in Eo. lia. }
  destruct (key_fits false (b_next st) k H0) as [_ En]; [rewrite limit_value; lia|]. rewrite En in E.
  destruct (fun Hn => IH _ _ Hk Hn E) as [->|Hb']; [cbn [b_next]; lia | cbn; lia | cbn [b_next] in Hb'; lia].
Qed.

Lemma read_keys_layout large b keys : Forall (fun k => len k <= 255) keys -> forall off rest rest',
  0 <= off -> off + len (concat keys) < limit large -> drop (Z.to_nat off) b = concat keys ++ rest' ->
  read_keys (width large) (length keys) (key_entries (width large) off keys ++ rest) b = Some keys.
Proof.
  induction 1 as [|k keys Hk _ IH]; intros off rest rest' H0 Hb Hd; [reflexivity|]. cbn [length key_entries concat read_keys] in *.
  rewrite length_app in Hb. rewrite <- !app_assoc. rewrite read_uint_bytes by (unfold limit in Hb; lia). cbn [mbind option_bind]. rewrite drop_bytes.
  rewrite read_uint_bytes by (cbn; lia). cbn [mbind option_bind]. rewrite <- drop_drop, !drop_bytes.
  rewrite (IH (off + len k) rest rest'); [|lia|lia|].
  - cbn [mbind option_bind]. rewrite Hd, Nat2Z.id, <- app_assoc, take_app_length. reflexivity.
  - rewrite Z2Nat.inj_add, Nat2Z.id by lia. rewrite <- drop_drop, Hd, <- app_assoc. apply drop_app_length.
Qed.

(** ** Containers *)
Lemma array_loop_items enc large l items : Forall2 (fun v i => enc v = inr i) l items -> forall st, array_loop enc large l st = items_loop large items st.
Proof. induction 1 as [|v [t b] l items Ei _ IH]; intros st; [reflexivity|]. cbn. rewrite Ei. destruct (append_value _ _ _ _); auto. Qed.
Lemma members_loop_items enc large l items : Forall2 (fun v i => enc v = inr i) (map snd l) items -> forall st, members_loop enc large l st = items_loop large items st.
Proof.
  revert items. induction l as [|[k v] l IH]; intros items Hl; inversion Hl as [|? [t b] ? items' Ei Hl']; subst; [reflexivity|].
  intros st. cbn. rewrite Ei. destruct (append_value _ _ _ _); auto.
Qed.

(** What a container is: its count, its size, and its body. *)
Definition container (w : nat) (n : Z) (body : list Z) : list Z := le_bytes w n ++ le_bytes w (Z.of_nat (2 * w) + len body) ++ body.

Lemma read_header_container large n body rest : 0 <= n < limit large -> Z.of_nat (2 * width large) + len body < limit large ->
  read_header (width large) (container (width large) n body ++ rest) = Some (Z.to_nat n, container (width large) n body).
Proof.
  intros Hn Hs. unfold read_header, container. rewrite <- !app_assoc. rewrite read_uint_bytes by exact Hn. cbn [mbind option_bind]. rewrite drop_bytes.
  rewrite read_uint_bytes by (unfold limit in Hs; lia). cbn [mbind option_bind].
  assert (El : Z.to_nat (Z.of_nat (2 * width large) + len body) = length (container (width large) n body)).
  { unfold container. rewrite !length_app, !length_le_bytes. lia. }
  unfold container in El. rewrite El.
  rewrite decide_True by (rewrite !length_app; lia). do 2 f_equal. rewrite !app_assoc. rewrite take_app_length'; [reflexivity|].
  rewrite !length_app. lia.
Qed.

Lemma drop_container w n body : drop (2 * w) (container w n body) = body.
Proof. unfold container. replace (2 * w)%nat with (w + w)%nat by lia. rewrite <- drop_drop, !drop_bytes. reflexivity. Qed.
Lemma drop_container_more w n a b : drop (2 * w + length a) (container w n (a ++ b)) = b.
Proof. rewrite <- drop_drop, drop_container. apply drop_app_length. Qed.

Definition array_type (large : bool) : Z := if large then jsonTypeLargeArray else jsonTypeSmallArray.
Definition object_type (large : bool) : Z := if large then jsonTypeLargeObject else jsonTypeSmallObject.
Definition array_offset (large : bool) (n : Z) : Z := Z.of_nat (2 * width large) + n * Z.of_nat (width large + 1).
Definition object_offset (large : bool) (n : Z) : Z := Z.of_nat (2 * width large) + n * Z.of_nat (2 * width large + 3).
Definition array_body (large : bool) (items : list item) : list Z := entries_of (width large) (array_offset large (len items)) items ++ values_of items.
Definition object_body (large : bool) (keys : list (list Z)) (items : list item) : list Z :=
  key_entries (width large) (object_offset large (len items)) keys
  ++ entries_of (width large) (object_offset large (len items) + len (concat keys)) items ++ concat keys ++ values_of items.

Lemma array_body_length large items : Z.of_nat (2 * width large) + len (array_body large items) = array_offset large (len items) + len (values_of items).
Proof. unfold array_body, array_offset. rewrite length_app, length_entries_of. lia. Qed.
Lemma object_body_length large keys items : length keys = length items ->
  Z.of_nat (2 * width large) + len (object_body large keys items) = object_offset large (len items) + len (concat keys) + len (values_of items).
Proof. intros El. unfold object_body, object_offset. rewrite !length_app, length_key_entries, length_entries_of, El. lia. Qed.

Section Encoded.
Context (enc : JsonValue -> JsonError + item).

Lemma array_fits large l items : Forall2 (fun v i => enc v = inr i) l items -> Forall item_ok items ->
  array_offset large (len items) + len (values_of items) < limit large ->
  encodeJsonArray enc l large = inr (array_type large, container (width large) (len items) (array_body large items)).
Proof.
  intros H2 Hok Hb. pose proof (Forall2_length _ _ _ H2) as El. unfold encodeJsonArray. rewrite El.
  assert (Hn : len items < limit large) by (unfold array_offset in Hb; lia).
  replace (negb large && (maxOffsetSize <? len items)) with false
    by (symmetry; destruct large; [reflexivity|]; apply Z.ltb_ge; rewrite limit_value in Hn; unfold maxOffsetSize; lia).
  assert (Eo : calculateInitialArrayValuesOffset (len items) large = array_offset large (len items)).
  { unfold array_offset, calculateInitialArrayValuesOffset, u32 in *. rewrite limit_value in Hb. destruct large; cbn [width] in *; rewrite Z.mod_small by lia; lia. }
  rewrite Eo, (array_loop_items enc large l items H2), items_loop_fits by (assumption || (cbn [b_next]; unfold array_offset in *; lia)).
  cbn [b_entries b_values b_next laid_out]. rewrite !appendForEncoding_bytes. cbn [app]. unfold u32. rewrite Z.mod_small
    by (rewrite limit_value in Hn; destruct large; lia).
  unfold container. rewrite array_body_length, <- app_assoc. reflexivity.
Qed.

Lemma object_fits large l items : Forall2 (fun v i => enc v = inr i) (map snd l) items -> Forall item_ok items ->
  Forall (fun k => len k <= 255) (map fst l) ->
  object_offset large (len items) + len (concat (map fst l)) + len (values_of items) < limit large ->
  encodeJsonObject enc l large = inr (object_type large, container (width large) (len items) (object_body large (map fst l) items)).
Proof.
  intros H2 Hok Hk Hb. pose proof (Forall2_length _ _ _ H2) as El. rewrite length_map in El. unfold encodeJsonObject. rewrite El.
  assert (Hn : len items < limit large) by (unfold object_offset in Hb; lia).
  assert (Eo : calculateInitialObjectKeysOffset (len items) large = object_offset large (len items)).
  { unfold object_offset, calculateInitialObjectKeysOffset, u32 in *. rewrite limit_value in Hb. destruct large; cbn [width] in *; rewrite Z.mod_small by lia; lia. }
  rewrite Eo, keys_loop_fits by (assumption || (cbn [b_next]; unfold object_offset in *; lia)). cbn [b_next b_entries b_values].
  rewrite (members_loop_items enc large l items H2), items_loop_fits by (assumption || (cbn [b_next]; unfold object_offset in *; lia)).
  cbn [b_entries b_values b_next laid_out]. rewrite !appendForEncoding_bytes. cbn [app]. unfold u32. rewrite Z.mod_small
    by (rewrite limit_value in Hn; destruct large; lia).
  unfold container. rewrite object_body_length by (rewrite length_map; exact El). rewrite <- app_assoc. reflexivity.
Qed.

(** The small encoding, or the large one when that fails. *)
Lemma array_encoded l items : Forall2 (fun v i => enc v = inr i) l items -> Forall item_ok items -> Forall (fun i : item => len i.2 <= 65535) items ->
  (forallb lit items = false \/ array_offset false (len items) < 2 ^ 16) -> array_offset true (len items) + len (values_of items) < 2 ^ 32 ->
  exists large, array_offset large (len items) + len (values_of items) < limit large /\
    match encodeJsonArray enc l false with inr r => inr r | inl _ => encodeJsonArray enc l true end
    = inr (array_type large, container (width large) (len items) (array_body large items)).
Proof.
  intros H2 Hok Hs Hlit Hbig. destruct (encodeJsonArray enc l false) as [e|r] eqn:E.
  - exists true. split; [rewrite limit_value; exact Hbig|]. apply array_fits; [exact H2|exact Hok|rewrite limit_value; exact Hbig].
  - assert (Hb : array_offset false (len items) + len (values_of items) < 2 ^ 16).
    { pose proof (Forall2_length _ _ _ H2) as El. unfold encodeJsonArray in E. rewrite El in E. cbn [negb andb] in E.
      destruct (Z.ltb_spec maxOffsetSize (len items)) as [|Hn]; [discriminate|]. unfold maxOffsetSize in Hn.
      assert (Eo : calculateInitialArrayValuesOffset (len items) false = array_offset false (len items)).
      { unfold array_offset, calculateInitialArrayValuesOffset, u32. cbn [width]. rewrite Z.mod_small by lia. lia. }
      rewrite Eo, (array_loop_items enc false l items H2) in E. destruct (items_loop false items _) as [e|st] eqn:Ei; [discriminate|].
      apply items_loop_small in Ei; [|assumption|assumption|cbn [b_next]; unfold array_offset; lia]. cbn [b_next] in Ei.
      destruct Ei as [Hall|Hb]; [|exact Hb]. destruct Hlit as [Hl|Hl]; [congruence|]. rewrite values_of_literals by exact Hall. cbn [length]. lia. }
    exists false. split; [rewrite limit_value; exact Hb|]. rewrite <- E. apply array_fits; [exact H2|exact Hok|rewrite limit_value; exact Hb].
Qed.

Lemma object_encoded l items : Forall2 (fun v i => enc v = inr i) (map snd l) items -> Forall item_ok items -> Forall (fun i : item => len i.2 <= 65535) items ->
  Forall (fun k => len k <= 255) (map fst l) ->
  object_offset true (len items) + len (concat (map fst l)) + len (values_of items) < 2 ^ 32 ->
  exists large, object_offset large (len items) + len (concat (map fst l)) + len (values_of items) < limit large /\
    match encodeJsonObject enc l false with inr r => inr r | inl _ => encodeJsonObject enc l true end
    = inr (object_type large, container (width large) (len items) (object_body large (map fst l) items)).
Proof.
  intros H2 Hok Hs Hk Hbig. destruct (encodeJsonObject enc l false) as [e|r] eqn:E.
  - exists true. split; [rewrite limit_value; exact Hbig|]. apply object_fits; [exact H2|exact Hok|exact Hk|rewrite limit_value; exact Hbig].
  - assert (Hb : object_offset false (len items) + len (concat (map fst l)) + len (values_of items) < 2 ^ 16).
    { pose proof (Forall2_length _ _ _ H2) as El. rewrite length_map in El. unfold encodeJsonObject in E. rewrite El in E.
      assert (Hn : len items * 11 < 2 ^ 32) by (unfold object_offset in Hbig; cbn [width] in Hbig; lia).
      assert (Eo : calculateInitialObjectKeysOffset (len items) false = object_offset false (len items)).
      { unfold object_offset, calculateInitialObjectKeysOffset, u32. cbn [width]. rewrite Z.mod_small by lia. lia. }
      rewrite Eo in E. set (o := object_offset false (len items)) in *. assert (Ho : 0 <= o) by (unfold o, object_offset; lia).
      destruct (keys_loop false l _) as [e|ks] eqn:Ek; [discriminate|].
      destruct l as [|m l]; [destruct items; [|discriminate El]; unfold o, object_offset; cbn; lia|].
      pose proof Ek as Ek0. apply keys_loop_small in Ek0; [|exact Hk|exact Ho]. destruct Ek0 as [|Hkb]; [discriminate|]. cbn [b_next] in Hkb.
      rewrite keys_loop_fits in Ek by (assumption || (cbn [b_next]; rewrite ?limit_value; assumption || lia)). injection Ek as <-. cbn [b_next] in E.
      rewrite (members_loop_items enc false (m :: l) items H2) in E. destruct (items_loop false items _) as [e|st] eqn:Ei; [discriminate|].
      apply items_loop_small in Ei; [|assumption|assumption|cbn [b_next]; lia]. cbn [b_next] in Ei.
      destruct Ei as [Hall|Hb]; [|exact Hb]. rewrite (values_of_literals items) by exact Hall. cbn [length]. lia. }
    exists false. split; [rewrite limit_value; exact Hb|]. rewrite <- E. apply object_fits; [exact H2|exact Hok|exact Hk|rewrite limit_value; exact Hb].
Qed.
End Encoded.

(** ** Documents *)
Lemma JsonValue_nested_ind (P : JsonValue -> Prop) :
  P JNull -> (forall b, P (JBool b)) -> (forall s, P (JString s)) -> (forall bits, P (JDouble bits)) ->
  (forall l, Forall P l -> P (JArray l)) -> (forall l, Forall P (map snd l) -> P (JObject l)) -> P JOther -> forall v, P v.
Proof.
  intros Hn Hb Hs Hd Ha Ho Hx. fix IH 1. intros [|b|s|bits|l|l|]; [exact Hn | apply Hb | apply Hs | apply Hd | | | exact Hx].
  - apply Ha. induction l as [|v l IHl]; constructor; [apply IH | exact IHl].
  - apply Ho. induction l as [|[k v] l IHl]; constructor; [apply IH | exact IHl].
Qed.

Definition encoded_length (v : JsonValue) : Z := match encodeJsonValue v with inr (_, b) => len b | inl _ => 0 end.
Definition is_literal (v : JsonValue) : bool := match v with JNull | JBool _ => true | _ => false end.
Definition total (l : list JsonValue) : Z := foldr (fun v n => encoded_length v + n) 0 l.

(** Within the bounds of the encoder: every value inside another one takes at most 65535 bytes,
    keys at most 255, strings at most 2097151, a container of at most 4 GiB; an array
    of literals alone must fit the small encoding. *)
Fixpoint sizes_fit (v : JsonValue) : bool :=
  match v with
  | JNull | JBool _ => true
  | JString s => len s <=? 0x1FFFFF
  | JDouble bits => (0 <=? bits) && (bits <? 2 ^ 64)
  | JArray l =>
      forallb sizes_fit l && forallb (fun e => encoded_length e <=? 65535) l
      && (negb (forallb is_literal l) || (array_offset false (len l) <? 2 ^ 16)) && (array_offset true (len l) + total l <? 2 ^ 32)
  | JObject l =>
      forallb (fun m => sizes_fit m.2) l && forallb (fun m => (encoded_length m.2 <=? 65535) && (len m.1 <=? 255)) l
      && (object_offset true (len l) + len (concat (map fst l)) + total (map snd l) <? 2 ^ 32)
  | JOther => false
  end.

Fixpoint depth (v : JsonValue) : nat :=
  match v with
  | JArray l => S (foldr (fun e n => Nat.max (depth e) n) 0%nat l)
  | JObject l => S (foldr (fun m n => Nat.max (depth m.2) n) 0%nat l)
  | _ => 1
  end.

(** A value is encoded, and read back from the beginning of any bytes. *)
Definition good (v : JsonValue) (i : item) : Prop :=
  encodeJsonValue v = inr i /\ lit i = is_literal v /\ (lit i = true -> exists x, i.2 = [x] /\ 0 <= x < 256 /\ read_literal x = Some v)
  /\ forall fuel rest, (depth v <= fuel)%nat -> decode fuel i.1 (i.2 ++ rest) = Some v.

Lemma good_item_ok v i : good v i -> item_ok i.
Proof. intros (_ & _ & H & _) Hl. destruct (H Hl) as (x & E & _). eauto. Qed.

Lemma good_reads fuel v i : good v i -> (depth v <= fuel)%nat -> reads (decode fuel) i v.
Proof. intros (_ & _ & Hl & Hd) Hf. unfold reads. destruct (lit i); [apply Hl; reflexivity|]. intros rest. apply Hd. exact Hf. Qed.

Lemma total_values l items : Forall2 good l items -> len (values_of items) <= total l.
Proof.
  induction 1 as [|v i l items Hg _ IH]; cbn [values_of total foldr]; [reflexivity|]. fold (total l). rewrite length_app.
  assert (E : encoded_length v = len i.2) by (destruct Hg as (E & _); unfold encoded_length; rewrite E; destruct i; reflexivity).
  rewrite E. destruct (lit i); cbn [length]; lia.
Qed.

(** The byte of a length that is followed by another one. *)
Lemma lor_128_byte m : 0 <= m -> u8 (Z.lor m 0x80) = m mod 128 + 128.
Proof.
  intros Hm. unfold u8. rewrite <- Z.land_ones, Z.land_lor_distr_l by lia. change (Z.land 0x80 (Z.ones 8)) with 128. rewrite Z.land_ones by lia.
  assert (Hall : forallb (fun n => Z.lor (Z.of_nat n) 128 =? Z.of_nat n mod 128 + 128) (seq 0 256) = true) by reflexivity.
  pose proof (Z.mod_pos_bound m (2 ^ 8) eq_refl) as Hb. rewrite forallb_forall in Hall.
  specialize (Hall (Z.to_nat (m mod 2 ^ 8)) ltac:(apply in_seq; change (2 ^ 8) with 256 in *; lia)). rewrite Z2Nat.id in Hall by lia.
  apply Z.eqb_eq in Hall. rewrite Hall. change (2 ^ 8) with (128 * 2). rewrite Z.rem_mul_r by lia.
  rewrite Z.mul_comm, Z.mod_add, Z.mod_mod by lia. reflexivity.
Qed.

Lemma string_length_read n : 0 <= n <= 0x1FFFFF -> exists buffer, appendStringLength [] n = inr buffer /\ forall r, read_length (buffer ++ r) = Some (n, r).
Proof.
  intros Hn. unfold appendStringLength. destruct (Z.ltb_spec 0x1FFFFF n); [lia|].
  change 0x7F with (Z.ones 7) at 1 3. rewrite !Z.land_ones by lia. rewrite !Z.shiftr_div_pow2 by lia. change (2 ^ 7) with 128. change (2 ^ 14) with (128 * 128).
  rewrite <- Z.div_div by lia. pose proof (Z.mod_pos_bound n 128 eq_refl). pose proof (Z.div_mod n 128 ltac:(lia)) as D1.
  pose proof (Z.div_pos n 128 ltac:(lia) eq_refl). pose proof (Z.mod_pos_bound (n / 128) 128 eq_refl). pose proof (Z.div_mod (n / 128) 128 ltac:(lia)) as D2.
  rewrite !lor_128_byte, Z.mod_mod by lia.
  destruct (Z.ltb_spec 0x3FFF n) as [C3|C3]; [|destruct (Z.ltb_spec 0x7F n) as [C2|C2]]; eexists; (split; [reflexivity|]); intros r; unfold u8; cbn [app read_length].
  - rewrite (Z.mod_small (n / 128 / 128)) by lia. destruct (Z.ltb_spec (n mod 128 + 128) 128); [lia|]. destruct (Z.ltb_spec (n / 128 mod 128 + 128) 128); [lia|].
    do 2 f_equal. lia.
  - rewrite (Z.mod_small (n / 128)) by lia. destruct (Z.ltb_spec (n mod 128 + 128) 128); [lia|]. destruct (Z.ltb_spec (n / 128) 128); [|lia].
    do 2 f_equal. lia.
  - rewrite (Z.mod_small n) by lia. destruct (Z.ltb_spec n 128); [reflexivity|lia].
Qed.

Lemma good_string s : len s <= 0x1FFFFF -> exists i, good (JString s) i.
Proof.
  intros Hs. destruct (string_length_read (len s)) as (buffer & Eb & Er); [lia|]. exists (jsonTypeString, buffer ++ s). split; [cbn; rewrite Eb; reflexivity|].
  split; [reflexivity|]. split; [discriminate|]. intros [|fuel] rest Hf; cbn in Hf; [lia|]. cbn [decode fst snd].
  change (jsonTypeString =? jsonTypeLiteral) with false. change (jsonTypeString =? jsonTypeDouble) with false. change (jsonTypeString =? jsonTypeString) with true.
  cbn iota. rewrite <- app_assoc, Er. cbn [mbind option_bind]. rewrite Nat2Z.id, decide_True by (rewrite length_app; lia). rewrite take_app_length. reflexivity.
Qed.

Lemma good_double bits : 0 <= bits < 2 ^ 64 -> exists i, good (JDouble bits) i.
Proof.
  intros Hb. exists (jsonTypeDouble, le_bytes 8 bits). split; [reflexivity|]. split; [reflexivity|]. split; [discriminate|].
  intros [|fuel] rest Hf; cbn in Hf; [lia|]. cbn [decode fst snd]. change (jsonTypeDouble =? jsonTypeLiteral) with false. change (jsonTypeDouble =? jsonTypeDouble) with true.
  cbn iota. rewrite read_uint_bytes by exact Hb. reflexivity.
Qed.

Lemma good_all l : Forall (fun v => sizes_fit v = true -> exists i, good v i) l -> forallb sizes_fit l = true -> exists items, Forall2 good l items.
Proof.
  induction 1 as [|v l Hv _ IH]; cbn; intros E; [exists []; constructor|]. apply andb_true_iff in E. destruct E as [E1 E2].
  destruct (Hv E1) as [i Hi], (IH E2) as [items Hl]. exists (i :: items). constructor; assumption.
Qed.

(** What the two kinds of container share about their encoded values. *)
Lemma good_items l items : Forall2 good l items -> Forall (fun e => encoded_length e <= 65535) l ->
  Forall2 (fun v i => encodeJsonValue v = inr i) l items /\ Forall item_ok items /\ Forall (fun i : item => len i.2 <= 65535) items
  /\ forallb lit items = forallb is_literal l.
Proof.
  induction 1 as [|v i l items Hg _ IH]; intros Hl; [auto using Forall2_nil, Forall_nil|].
  apply Forall_cons in Hl. destruct Hl as [H1 Hl]. destruct (IH Hl) as (A & B & C & D). pose proof (good_item_ok v i Hg) as Hok. destruct Hg as (E & El & _).
  unfold encoded_length in H1. rewrite E in H1. destruct i as [t b].
  split; [constructor; assumption|]. split; [constructor; assumption|]. split; [constructor; assumption|]. cbn [forallb]. rewrite El, D. reflexivity.
Qed.

Lemma forallb_Forall_leb {A} (f : A -> Z) n l : forallb (fun e => f e <=? n) l = true -> Forall (fun e => f e <= n) l.
Proof. intros H. apply List.Forall_forall. intros x Hx. apply Z.leb_le. rewrite forallb_forall in H. apply H. exact Hx. Qed.

Lemma decode_array fuel large rest items vs : Forall2 (reads (decode fuel)) items vs ->
  array_offset large (len items) + len (values_of items) < limit large ->
  decode (S fuel) (array_type large) (container (width large) (len items) (array_body large items) ++ rest) = Some (JArray vs).
Proof.
  intros Hr Hb. transitivity (read_array (decode fuel) (width large) (container (width large) (len items) (array_body large items) ++ rest)); [destruct large; reflexivity|].
  unfold read_array. pose proof (array_body_length large items) as El.
  rewrite read_header_container by (unfold array_offset in *; lia). cbn [mbind option_bind]. rewrite drop_container, Nat2Z.id. unfold array_body at 1.
  rewrite (read_entries_layout _ large _ items vs Hr _ _ []); [reflexivity|unfold array_offset; lia|exact Hb|].
  rewrite app_nil_r. unfold array_body. replace (Z.to_nat _) with (2 * width large + length (entries_of (width large) (array_offset large (len items)) items))%nat.
  - apply drop_container_more.
  - rewrite length_entries_of. unfold array_offset. lia.
Qed.

Lemma decode_object fuel large rest keys items vs : length keys = length items -> Forall (fun k => len k <= 255) keys -> Forall2 (reads (decode fuel)) items vs ->
  object_offset large (len items) + len (concat keys) + len (values_of items) < limit large ->
  decode (S fuel) (object_type large) (container (width large) (len items) (object_body large keys items) ++ rest) = Some (JObject (zip keys vs)).
Proof.
  intros Hl Hk Hr Hb. transitivity (read_object (decode fuel) (width large) (container (width large) (len items) (object_body large keys items) ++ rest)); [destruct large; reflexivity|].
  unfold read_object. pose proof (object_body_length large keys items Hl) as El.
  rewrite read_header_container by (unfold object_offset in *; lia). cbn [mbind option_bind]. rewrite Nat2Z.id.
  set (o := object_offset large (len items)) in *. assert (Ho : 0 <= o) by (unfold o, object_offset; lia).
  assert (Ek : drop (Z.to_nat o) (container (width large) (len items) (object_body large keys items)) = concat keys ++ values_of items).
  { unfold object_body. fold o. rewrite app_assoc. replace (Z.to_nat o) with (2 * width large + length (key_entries (width large) o keys ++ entries_of (width large) (o + len (concat keys)) items))%nat.
    - apply drop_container_more.
    - rewrite length_app, length_key_entries, length_entries_of, Hl. unfold o, object_offset. lia. }
  replace (length items * (width large + 2))%nat with (length (key_entries (width large) o keys)) by (rewrite length_key_entries, Hl; reflexivity).
  set (es := entries_of (width large) (o + len (concat keys)) items).
  assert (E1 : drop (2 * width large) (container (width large) (len items) (object_body large keys items)) = key_entries (width large) o keys ++ es ++ concat keys ++ values_of items)
    by (rewrite drop_container; reflexivity).
  assert (E2 : drop (2 * width large + length (key_entries (width large) o keys)) (container (width large) (len items) (object_body large keys items)) = es ++ concat keys ++ values_of items)
    by (rewrite <- drop_drop, E1; apply drop_app_length).
  set (whole := container _ _ _) in *. rewrite E1, E2. assert (Er : forall n rest, n = length keys -> read_keys (width large) n (key_entries (width large) o keys ++ rest) whole = Some keys).
  { intros n r ->. apply (read_keys_layout large _ keys Hk o _ (values_of items)); assumption || lia. }
  rewrite Er by (symmetry; exact Hl). cbn [mbind option_bind]. unfold es.
  rewrite (read_entries_layout _ large _ items vs Hr (o + len (concat keys)) _ []); [reflexivity|lia|lia|].
  rewrite Z2Nat.inj_add, Nat2Z.id by lia. rewrite <- drop_drop, Ek, app_nil_r. apply drop_app_length.
Qed.

Lemma depth_elements fuel l items : Forall2 good l items -> (foldr (fun e n => Nat.max (depth e) n) 0%nat l <= fuel)%nat -> Forall2 (reads (decode fuel)) items l.
Proof.
  induction 1 as [|v i l items Hg _ IH]; cbn [foldr]; intros Hf; constructor; [apply good_reads; [exact Hg|lia] | apply IH; lia].
Qed.

Lemma foldr_map_snd (l : list (list Z * JsonValue)) : foldr (fun e n => Nat.max (depth e) n) 0%nat (map snd l) = foldr (fun m n => Nat.max (depth m.2) n) 0%nat l.
Proof. induction l as [|m l IH]; [reflexivity|]. cbn. rewrite IH. reflexivity. Qed.

Lemma sizes_fit_good v : sizes_fit v = true -> exists i, good v i.
Proof.
  induction v as [|b|s|bits|l IH|l IH|] using JsonValue_nested_ind; cbn [sizes_fit]; intros Hf.
  - exists (jsonTypeLiteral, [jsonLiteralValueNull]). repeat split; [intros _; exists 0; repeat split; lia|]. intros [|fuel] rest Hd; [cbn in Hd; lia|reflexivity].
  - exists (jsonTypeLiteral, [if b then jsonLiteralValueTrue else jsonLiteralValueFalse]). repeat split.
    + intros _. exists (if b then 1 else 2). destruct b; repeat split; lia.
    + intros [|fuel] rest Hd; [cbn in Hd; lia|]. destruct b; reflexivity.
  - apply good_string. lia.
  - apply good_double. lia.
  - rewrite !andb_true_iff in Hf. destruct Hf as [[[Hs Hl] Hlit] Hbig]. apply Z.ltb_lt in Hbig. apply forallb_Forall_leb in Hl.
    destruct (good_all l IH Hs) as [items Hg]. destruct (good_items l items Hg Hl) as (H2 & Hok & Hle & Hli). pose proof (Forall2_length _ _ _ Hg) as El.
    pose proof (total_values l items Hg) as Ht. rewrite El in *.
    destruct (array_encoded encodeJsonValue l items H2 Hok Hle) as (large & Hb & E); [|lia|].
    { rewrite Hli. apply orb_true_iff in Hlit. destruct Hlit as [Hx|Hx]; [left; apply negb_true_iff; exact Hx | right; apply Z.ltb_lt; exact Hx]. }
    eexists. split; [exact E|]. split; [destruct large; reflexivity|]. split; [destruct large; discriminate|].
    intros [|fuel] rest Hd; cbn [depth] in Hd; [lia|]. apply decode_array; [|exact Hb]. apply depth_elements; [exact Hg|lia].
  - rewrite !andb_true_iff in Hf. destruct Hf as [[Hs Hl] Hbig]. apply Z.ltb_lt in Hbig.
    assert (Hs' : forallb sizes_fit (map snd l) = true) by (clear -Hs; induction l as [|m l IHl]; [reflexivity|]; cbn in *; destruct (sizes_fit m.2); [auto|discriminate]).
    assert (Hlk : Forall (fun e => encoded_length e <= 65535) (map snd l) /\ Forall (fun k => len k <= 255) (map fst l)).
    { clear -Hl. induction l as [|m l IHl]; [split; constructor|]. cbn in Hl. rewrite !andb_true_iff in Hl. destruct Hl as [[A B] C]. destruct (IHl C) as [D F].
      split; constructor; (assumption || (apply Z.leb_le; assumption)). }
    destruct Hlk as [Hle0 Hk]. destruct (good_all _ IH Hs') as [items Hg]. destruct (good_items _ items Hg Hle0) as (H2 & Hok & Hle & _).
    pose proof (Forall2_length _ _ _ Hg) as El. rewrite length_map in El. pose proof (total_values _ items Hg) as Ht. rewrite El in *.
    destruct (object_encoded encodeJsonValue l items H2 Hok Hle Hk) as (large & Hb & E); [lia|].
    eexists. split; [exact E|]. split; [destruct large; reflexivity|]. split; [destruct large; discriminate|].
    intros [|fuel] rest Hd; cbn [depth] in Hd; [lia|]. cbn [fst snd].
    rewrite (decode_object fuel large rest (map fst l) items (map snd l)); [|rewrite length_map; exact El|exact Hk| |exact Hb].
    + f_equal. f_equal. clear. induction l as [|[k v] l IHl]; [reflexivity|]. cbn. f_equal. exact IHl.
    + apply depth_elements; [exact Hg|]. rewrite foldr_map_snd. lia.
  - discriminate.
Qed.

(** C26: a JSON document within the bounds of the encoder is encoded, and a
    reader of MySQL's documented binary format gets the same document back from the bytes: every
    offset, size, count, key and string length it stores is right, for the small
    and the large formats and for any nesting. *)
Theorem json_doc_roundtrip (v : JsonValue) (fuel : nat) : sizes_fit v = true -> (depth v <= fuel)%nat ->
  exists b, encodeJsonDoc v = inr b /\ decode_doc fuel b = Some v.
Proof.
  intros Hf Hd. destruct (sizes_fit_good v Hf) as ([t b] & E & _ & _ & Hr). exists (t :: b). unfold encodeJsonDoc. rewrite E. split; [reflexivity|].
  rewrite <- (app_nil_r b). exact (Hr fuel [] Hd).
Qed.

Definition sample : JsonValue :=
  JObject [([97], JArray [JBool true; JNull; JString [102; 111; 111]; JArray []]); ([98; 99], JDouble 4607182418800017408)].
Lemma json_doc_roundtrip_witness : exists b, encodeJsonDoc sample = inr b /\ decode_doc 4 b = Some sample.
Proof. apply (json_doc_roundtrip sample 4); [reflexivity | cbn; lia]. Defined.

(** ** Outside the bounds *)

(** The second byte of a key's length is always zero: a reader gets a longer key cut. *)
Lemma long_key_is_cut k : 255 < len k < 60000 -> exists b, encodeJsonDoc (JObject [(k, JNull)]) = inr b
  /\ decode_doc 2 b = Some (JObject [(take (Z.to_nat (len k mod 256)) k, JNull)]).
Proof.
  intros Hk. set (body := le_bytes 2 11 ++ le_bytes 2 (len k mod 256) ++ [4; 0; 0] ++ k).
  assert (Hb : Z.of_nat (2 * width false) + len body = 11 + len k) by (unfold body; rewrite !length_app, !length_le_bytes; cbn [length width]; lia).
  assert (E : encodeJsonValue (JObject [(k, JNull)]) = inr (object_type false, container 2 1 body)).
  { assert (Ek : keys_loop false [(k, JNull)] (mkBuffers [] [] 11) = inr (mkBuffers (le_bytes 2 11 ++ le_bytes 2 (len k mod 256)) k (11 + len k))).
    { cbn [keys_loop b_next b_entries b_values]. destruct (key_fits false 11 k) as [-> ->]; [lia|rewrite limit_value; lia|].
      rewrite appendForEncoding_bytes. do 2 f_equal. cbn. unfold u8. rewrite Z.shiftl_mul_pow2 by lia. change (2 ^ 8) with 256.
      rewrite Z.mod_mul, Z.mod_mod, (Z.div_small (_ mod _)) by (try apply Z.mod_pos_bound; lia). reflexivity. }
    cbn [encodeJsonValue]. unfold encodeJsonObject. change (calculateInitialObjectKeysOffset (len [(k, JNull)]) false) with 11. rewrite Ek.
    cbn [members_loop encodeJsonValue b_next]. rewrite (append_literal false (jsonTypeLiteral, [jsonLiteralValueNull])); [|intros _; eexists; reflexivity|reflexivity].
    cbn [b_next b_entries b_values]. rewrite !appendForEncoding_bytes. unfold container. rewrite (Hb : Z.of_nat (2 * 2) + _ = _). unfold body. rewrite <- !app_assoc, app_nil_r. reflexivity. }
  exists (object_type false :: container 2 1 body). unfold encodeJsonDoc. rewrite E. split; [reflexivity|].
  cbn [decode_doc]. rewrite <- (app_nil_r (container 2 1 body)). change 2%nat with (width false) at 2.
  transitivity (read_object (decode 1) 2 (container (width false) 1 body ++ [])); [reflexivity|]. unfold read_object.
  rewrite (read_header_container false) by (rewrite limit_value; lia). cbn [mbind option_bind]. change (2 * 2)%nat with (2 * width false)%nat. rewrite drop_container.
  change (Z.to_nat 1) with 1%nat. pose proof (Z.mod_pos_bound (len k) 256 eq_refl).
  assert (Ed : drop (Z.to_nat 11) (container (width false) 1 body) = k) by reflexivity.
  assert (Ee : drop (2 * width false + 1 * (2 + 2)) (container (width false) 1 body) = [4; 0; 0] ++ k) by reflexivity.
  set (whole := container _ _ _) in *. unfold body. cbn [read_keys]. rewrite read_uint_bytes by (cbn; lia). cbn [mbind option_bind].
  rewrite drop_bytes, read_uint_bytes by (cbn; lia). cbn [mbind option_bind]. rewrite Ed, Ee. reflexivity.
Qed.

(** A value of more than 65535 bytes makes the test for the small encoding wrap: the array is
    small, and the size it stores is not that of its bytes. *)
Lemma long_value_wraps s : 65535 <= len s <= 0x1FFFFF -> exists b, encodeJsonDoc (JArray [JString s]) = inr b
  /\ hd 0 b = jsonTypeSmallArray /\ len b = 11 + len s /\ read_uint 2 (drop 3 b) = Some ((10 + len s) mod 2 ^ 16).
Proof.
  intros Hs. assert (Ea : exists x, length x = 3%nat /\ appendStringLength [] (len s) = inr x).
  { unfold appendStringLength. destruct (Z.ltb_spec 0x1FFFFF (len s)); [lia|]. destruct (Z.ltb_spec 0x3FFF (len s)); [|lia]. eexists. split; [|reflexivity]. reflexivity. }
  destruct Ea as (x & Hx & Ea). assert (Ev : encodeJsonValue (JString s) = inr (jsonTypeString, x ++ s)) by (cbn [encodeJsonValue]; rewrite Ea; reflexivity).
  assert (Hl : len (x ++ s) = 3 + len s) by (rewrite length_app, Hx; lia).
  set (st := mkBuffers (jsonTypeString :: le_bytes 2 7) (x ++ s) (10 + len s)).
  assert (El : array_loop encodeJsonValue false [JString s] (mkBuffers [] [] 7) = inr st).
  { cbn [array_loop]. rewrite Ev. unfold append_value. change (jsonTypeString =? jsonTypeLiteral) with false. cbn iota. cbn [b_next b_entries b_values].
    unfold offset_too_large, u32, maxOffsetSize. rewrite Hl, !(Z.mod_small (3 + len s)), (Z.mod_small (7 + _)) by lia. cbn [negb andb].
    rewrite <- (Z.mod_add (65535 - (3 + len s)) 1) by lia. rewrite Z.mod_small by lia. destruct (Z.ltb_spec (65535 - (3 + len s) + 1 * 2 ^ 32) 7); [lia|].
    rewrite appendForEncoding_bytes. unfold st. do 2 f_equal. lia. }
  exists (jsonTypeSmallArray :: le_bytes 2 1 ++ le_bytes 2 (10 + len s) ++ b_entries st ++ b_values st). split; [|split; [reflexivity|split]].
  - unfold encodeJsonDoc. cbn [encodeJsonValue]. unfold encodeJsonArray. change (len [JString s]) with 1. cbn [negb andb]. change (maxOffsetSize <? 1) with false. cbn iota.
    change (calculateInitialArrayValuesOffset 1 false) with 7. rewrite El. rewrite !appendForEncoding_bytes. cbn [app width]. rewrite <- app_assoc. reflexivity.
  - cbn [length]. rewrite !length_app, !length_le_bytes. unfold st. cbn [b_entries b_values length]. rewrite length_le_bytes, length_app, Hx. lia.
  - cbn [drop]. rewrite (drop_bytes 2 1). unfold read_uint. rewrite decide_True by (rewrite length_app, length_le_bytes; lia).
    rewrite take_app_length' by (symmetry; apply length_le_bytes). rewrite le_nat_bytes. reflexivity.
Qed.

(** The offsets of an array of literals are never tested, so neither is its size. *)
Lemma many_literals_wrap n : 21844 <= Z.of_nat n <= 65535 -> exists b, encodeJsonDoc (JArray (replicate n JNull)) = inr b
  /\ hd 0 b = jsonTypeSmallArray /\ length b = (5 + 3 * n)%nat /\ read_uint 2 (drop 3 b) = Some ((4 + 3 * Z.of_nat n) mod 2 ^ 16).
Proof.
  intros Hn. set (items := replicate n (jsonTypeLiteral, [jsonLiteralValueNull]) : list item).
  assert (El : forall m st, array_loop encodeJsonValue false (replicate m JNull) st
      = inr (mkBuffers (b_entries st ++ entries_of 2 (b_next st) (replicate m (jsonTypeLiteral, [jsonLiteralValueNull]))) (b_values st) (b_next st))).
  { induction m as [|m IH]; intros st; cbn [replicate array_loop entries_of]; [rewrite app_nil_r; destruct st; reflexivity|]. cbn [encodeJsonValue].
    rewrite (append_literal false (jsonTypeLiteral, [jsonLiteralValueNull])); [|intros _; eexists; reflexivity|reflexivity]. rewrite IH. cbn [b_entries b_values b_next].
    rewrite <- app_assoc. reflexivity. }
  exists (jsonTypeSmallArray :: le_bytes 2 (Z.of_nat n) ++ le_bytes 2 (4 + 3 * Z.of_nat n) ++ entries_of 2 (4 + 3 * Z.of_nat n) items). split; [|split; [reflexivity|split]].
  - unfold encodeJsonDoc. cbn [encodeJsonValue]. unfold encodeJsonArray. rewrite length_replicate. cbn [negb andb].
    destruct (Z.ltb_spec maxOffsetSize (Z.of_nat n)) as [Hx|_]; [unfold maxOffsetSize in Hx; lia|].
    assert (Eo : calculateInitialArrayValuesOffset (Z.of_nat n) false = 4 + 3 * Z.of_nat n).
    { unfold calculateInitialArrayValuesOffset, u32. rewrite Z.mod_small by lia. lia. }
    rewrite Eo, El. cbn [b_entries b_values b_next]. rewrite !appendForEncoding_bytes. unfold u32. rewrite Z.mod_small by lia. cbn [app width].
    rewrite <- app_assoc, app_nil_r. reflexivity.
  - cbn [length]. rewrite !length_app, !length_le_bytes, length_entries_of. unfold items. rewrite length_replicate. lia.
  - cbn [drop]. rewrite (drop_bytes 2). unfold read_uint. rewrite decide_True by (rewrite length_app, length_le_bytes; lia).
    rewrite take_app_length' by (symmetry; apply length_le_bytes). rewrite le_nat_bytes. reflexivity.
Qed.
