(* ===== verification/LoadData.v ===== *)
(** * LOAD DATA (src/backend/loaddata.go)

    Which LOAD DATA statements DuckDB can run, the test of the directory, and
    the INSERT over [read_csv] they become.  [filepath.Clean], [Dir] and [Abs] are modelled; the
    file system, the system variables and the connection are the class [LoadEnv]. *)

From S2P Require Import Prelude Charset Schema Identifier CatalogErrors Regexp SqlText GoJson TypeMapping.
From stdpp Require Import strings list.
From Stdlib Require Import Ascii.
#[local] Open Scope Z_scope.

(** ** Paths (package filepath, Unix) *)
Fixpoint path_parts (s : string) : list string :=
  match s with
  | EmptyString => [EmptyString]
  | String c s' =>
      if decide (c = "/"%char) then EmptyString :: path_parts s'
      else match path_parts s' with [] => [String c EmptyString] | x :: l => String c x :: l end
  end.
Fixpoint join_parts (l : list string) : string :=
  match l with [] => EmptyString | [x] => x | x :: l => x +:+ "/" +:+ join_parts l end.

Definition rooted (path : string) : bool := String.prefix "/" path.
(** The elements so far, the last one first. *)
Definition clean_step (root : bool) (acc : list string) (part : string) : list string :=
  if decide (part = EmptyString) then acc
  else if decide (part = ".") then acc
  else if decide (part = "..") then
    match acc with
    | [] => if root then [] else [".."]
    | x :: acc' => if decide (x = "..") then ".." :: acc else acc'
    end
  else part :: acc.
Definition clean_parts (path : string) : list string := rev (foldl (clean_step (rooted path)) [] (path_parts path)).
Definition filepath_Clean (path : string) : string :=
  let out := (if rooted path then "/" else EmptyString) +:+ join_parts (clean_parts path) in
  if decide (out = EmptyString) then "." else out.

(** Everything up to the last slash, cleaned. *)
Definition filepath_Dir (path : string) : string :=
  filepath_Clean (match rev (path_parts path) with [] | [_] => EmptyString | _ :: dirs => join_parts (rev dirs) +:+ "/" end).
Definition filepath_Abs (cwd : string + string) (path : string) : string + string :=
  if rooted path then inr (filepath_Clean path)
  else match cwd with inl err => inl err | inr d => inr (filepath_Clean (d +:+ "/" +:+ path)) end.

(** ** The statement *)
(** [plan.LoadData]; expressions are only tested for nil. *)
Record LoadData : Type := mkLoad {
  Local : bool; File : string; FieldsTerminatedBy : string; FieldsEnclosedBy : string; FieldsEscapedBy : string;
  LinesStartingBy : string; LinesTerminatedBy : string; Charset : string; IgnoreNum : Z; IsIgnore : bool; IsReplace : bool;
  ColNames : list string; SetExprs : list bool; UserVars : list bool     (* true: not nil *)
}.

Definition isUnixSystem : bool := true.
Definition areAllExpressionsNil (exprs : list bool) : bool := forallb negb exprs.
Definition newline : string := String "010" EmptyString.
Definition carriage : string := String "013" EmptyString.
Definition isSupportedLineTerminator (t : string) : bool :=
  bool_decide (t = newline) || bool_decide (t = carriage) || bool_decide (t = carriage +:+ newline).
Definition isSupportedFileCharacterSet (charset : string) : bool :=
  bool_decide (charset = EmptyString) || String.prefix "utf8" (strings_ToLower charset)
  || bool_decide (strings_ToLower charset = "ascii") || bool_decide (strings_ToLower charset = "binary").
Definition isRewritableLoadData (node : LoadData) : bool :=
  negb (Local node && negb isUnixSystem)
  && (String.length (FieldsTerminatedBy node) =? 1)%nat && (String.length (FieldsEnclosedBy node) <=? 1)%nat && (String.length (FieldsEscapedBy node) <=? 1)%nat
  && (String.length (LinesStartingBy node) =? 0)%nat && isSupportedLineTerminator (LinesTerminatedBy node)
  && areAllExpressionsNil (SetExprs node) && areAllExpressionsNil (UserVars node) && isSupportedFileCharacterSet (Charset node).

(** [strconv.QuoteRune] of the rune of a one-byte string; a byte of 128 or more is not UTF-8 and becomes U+FFFD. *)
Definition hex_digit (n : nat) : ascii := ascii_of_nat (if (n <? 10)%nat then 48 + n else 87 + n).
Definition quote_rune (c : ascii) : string :=
  let n := nat_of_ascii c in
  let esc := fun x : ascii => String "'" (String "\" (String x "'")) in
  if (n =? 7)%nat then esc "a"%char else if (n =? 8)%nat then esc "b"%char else if (n =? 12)%nat then esc "f"%char
  else if (n =? 10)%nat then esc "n"%char else if (n =? 13)%nat then esc "r"%char else if (n =? 9)%nat then esc "t"%char
  else if (n =? 11)%nat then esc "v"%char else if (n =? 39)%nat then esc "'"%char
  else if (n <? 32)%nat || (n =? 127)%nat then
    "'\x" +:+ String (hex_digit (n / 16)) (String (hex_digit (n mod 16)) "'")
  else if (128 <=? n)%nat then String "'" (String "239" (String "191" (String "189" "'")))
  else String "'" (String c "'").

(** For strings of at most one byte, which is what [isRewritableLoadData] lets through. *)
Definition singleQuotedDuckChar (s : string) : string :=
  match s with
  | EmptyString => "''"
  | String c _ => if decide (c = "\"%char) then "'\'" else quote_rune c
  end.

(** Why a file is refused; [ErrLoadDataCannotOpen] wraps it. *)
Inductive DirError : Type := DirFailed (err : string) | ErrSecureFilePriv.
Inductive LoadError : Type :=
| NoVariable (name : string) | LocalInfileDisabled | LoadInfileFailed (err : string) | PipeFailed (err : string)
| CannotOpen (err : DirError) | ColumnNotFound (table col : string) | TypeError (err : string) | ExecFailed (err : string).

Inductive LoadSysVar : Type := LsNil | LsString (s : string) | LsInt8 (z : Z) | LsOther.

Class LoadEnv `{SqlTypes} : Type := {
  lw : Type;
  SysVar : string -> lw -> option LoadSysVar;
  StatId : string -> lw -> string + Z;                        (* what SameFile compares *)
  Getwd : string + string;
  LoadInfile : string -> lw -> option string;                 (* the error *)
  CreatePipe : string -> lw -> lw * (string + string);
  RemovePipe : string -> lw -> lw;
  IndexOf : list (string * sqlType) -> string -> string -> option nat;
  ExecLoad : string -> lw -> lw * (string + (Z * Z))          (* rows affected, last insert id *)
}.

Section Load.
Context `{LoadEnv}.

(** ** The test of the directory *)
Definition isUnderSecureFileDir (secureFileDir : LoadSysVar) (fileStr : string) (w : lw) : outcome (option DirError) :=
  match secureFileDir with
  | LsNil | LsString EmptyString => Ret None
  | LsString dir =>
      Ret (match StatId dir w with
           | inl err => Some (DirFailed err)
           | inr s =>
               match StatId (filepath_Dir fileStr) w with
               | inl err => Some (DirFailed err)
               | inr f =>
                   if s =? f then None
                   else match filepath_Abs Getwd fileStr with
                   | inl err => Some (DirFailed err)
                   | inr fileAbsPath =>
                       let secureFileDirAbsPath := match filepath_Abs Getwd dir with inl _ => EmptyString | inr p => p end in
                       if String.prefix secureFileDirAbsPath fileAbsPath then None else Some ErrSecureFilePriv
                   end
               end
           end)
  | _ => Panic
  end.

(** ** The statement for DuckDB *)
Definition columnTypeHint (col : string * sqlType) : outcome (LoadError + string) :=
  dt ← DuckdbDataType col.2;
  Ret (match dt with
       | inl err => inl (TypeError err)
       | inr dt => inr (QuoteIdentifierANSI col.1 +:+ ": '" +:+ (if decide (Type' col.2 = Q_ENUM) then "VARCHAR" else duck_name dt) +:+ "'")
       end).

Fixpoint hints (l : list (LoadError + (string * sqlType))) : outcome (LoadError + list string) :=
  match l with
  | [] => Ret (inr [])
  | inl e :: _ => Ret (inl e)
  | inr col :: l =>
      h ← columnTypeHint col;
      match h with
      | inl e => Ret (inl e)
      | inr h => r ← hints l; Ret (match r with inl e => inl e | inr hs => inr (h :: hs) end)
      end
  end.

Definition columnTypeHints (table : string) (schema : list (string * sqlType)) (colNames : list string) : outcome (LoadError + string) :=
  let cols := match colNames with
    | [] => map inr schema
    | _ => map (fun col => match IndexOf schema col table with None => inl (ColumnNotFound table col) | Some i =>
             match schema !! i with Some c => inr c | None => inl (ColumnNotFound table col) end end) colNames
    end in
  r ← hints cols;
  Ret (match r with inl e => inl e | inr hs => inr ("{" +:+ String.concat ", " hs +:+ "}") end).

(** The text up to the column types. *)
Definition load_text (keyless : bool) (database table : string) (load : LoadData) (filePath : string) : string :=
  "INSERT"
  +:+ (if IsIgnore load && negb keyless then " OR IGNORE" else if IsReplace load && negb keyless then " OR REPLACE" else EmptyString)
  +:+ " INTO " +:+ ConnectIdentifiersANSI [database; table]
  +:+ (match ColNames load with [] => EmptyString | cols => " (" +:+ String.concat ", " (map QuoteIdentifierANSI cols) +:+ ")" end)
  +:+ " FROM read_csv('" +:+ filePath +:+ "'" +:+ ", auto_detect = false, header = false, null_padding = true"
  +:+ ", new_line = " +:+ (if (String.length (LinesTerminatedBy load) =? 1)%nat then singleQuotedDuckChar (LinesTerminatedBy load) else "'\r\n'")
  +:+ ", sep = " +:+ singleQuotedDuckChar (FieldsTerminatedBy load)
  +:+ ", quote = " +:+ singleQuotedDuckChar (FieldsEnclosedBy load)
  +:+ (if decide (FieldsEscapedBy load = "\") then ", escape = ''" else ", escape = " +:+ singleQuotedDuckChar (FieldsEscapedBy load))
  +:+ ", allow_quoted_nulls = false, nullstr = "
  +:+ (if (0 <? String.length (FieldsEnclosedBy load))%nat || (String.length (FieldsEscapedBy load) =? 0)%nat then "'NULL'" else "'\N'")
  +:+ (if 0 <? IgnoreNum load then ", skip = " +:+ FormatInt (IgnoreNum load) else EmptyString)
  +:+ ", columns = ".

(** The destination: [no_key] is [IsKeyless] of the schema; for a table of the catalog,
    whether it is replicated and whether it has a physical key. *)
Record Destination : Type := mkDst { d_database : string; d_table : string; d_schema : list (string * sqlType); no_key : bool; catalog_table : option (bool * bool) }.
Definition is_keyless (dst : Destination) : bool :=
  if no_key dst then true
  else match catalog_table dst with Some (replicated, hasPrimaryKey) => replicated || negb hasPrimaryKey | None => false end.

Definition executeLoadData (dst : Destination) (load : LoadData) (filePath : string) (w : lw) : outcome (lw * (LoadError + (Z * Z))) :=
  h ← columnTypeHints (d_table dst) (d_schema dst) (ColNames load);
  match h with
  | inl e => Ret (w, inl e)
  | inr h =>
      let duckSQL := load_text (is_keyless dst) (d_database dst) (d_table dst) load filePath +:+ h +:+ ")" in
      Ret (match ExecLoad duckSQL w with (w, inl err) => (w, inl (ExecFailed err)) | (w, inr r) => (w, inr r) end)
  end.

Definition buildServerSideLoadData (dst : Destination) (load : LoadData) (w : lw) : outcome (lw * (LoadError + (Z * Z))) :=
  match SysVar "secure_file_priv" w with
  | None => Ret (w, inl (NoVariable "secure_file_priv"))
  | Some secureFileDir =>
      err ← isUnderSecureFileDir secureFileDir (File load) w;
      match err with Some e => Ret (w, inl (CannotOpen e)) | None => executeLoadData dst load (File load) w end
  end.

(** The goroutine copies what the client sends into the pipe. *)
Definition buildClientSideLoadData (dst : Destination) (load : LoadData) (w : lw) : outcome (lw * (LoadError + (Z * Z))) :=
  match SysVar "local_infile" w with
  | None => Ret (w, inl (NoVariable "local_infile"))
  | Some (LsInt8 z) =>
      if z =? 0 then Ret (w, inl LocalInfileDisabled)
      else match LoadInfile (File load) w with
      | Some err => Ret (w, inl (LoadInfileFailed err))
      | None =>
          match CreatePipe "load-data" w with
          | (w, inl err) => Ret (w, inl (PipeFailed err))
          | (w, inr pipePath) => '(w, r) ← executeLoadData dst load pipePath w; Ret (RemovePipe pipePath w, r)
          end
      end
  | Some _ => Panic
  end.

Definition buildLoadData (dst : Destination) (load : LoadData) (w : lw) : outcome (lw * (LoadError + (Z * Z))) :=
  if Local load then buildClientSideLoadData dst load w else buildServerSideLoadData dst load w.
End Load.

(** ** What the statements do *)
Section LoadFacts.
Context `{LoadEnv}.

(** With secure_file_priv set, a statement that gets as far as the database reads a file of that
    directory, or one whose absolute path begins with the directory's. *)
Lemma server_load_checks_dir dst load dir w w' r : SysVar "secure_file_priv" w = Some (LsString dir) -> dir <> EmptyString ->
  buildServerSideLoadData dst load w = Ret (w', r) -> (exists e, r = inl (CannotOpen e) /\ w' = w) \/
  (exists s f, StatId dir w = inr s /\ StatId (filepath_Dir (File load)) w = inr f /\
    (s = f \/ exists p, filepath_Abs Getwd (File load) = inr p /\ String.prefix (match filepath_Abs Getwd dir with inl _ => EmptyString | inr d => d end) p = true)).
Proof.
  unfold buildServerSideLoadData. intros -> Hd. unfold isUnderSecureFileDir. destruct dir as [|c dir]; [congruence|]. clear Hd. set (d := String c dir).
  destruct (StatId d w) as [err|s] eqn:Es; [cbn; intros [= <- <-]; left; eauto|].
  destruct (StatId (filepath_Dir (File load)) w) as [err|f] eqn:Ef; [cbn; intros [= <- <-]; left; eauto|].
  destruct (Z.eqb_spec s f) as [->|Hn]; [intros _; right; eauto 10|].
  destruct (filepath_Abs Getwd (File load)) as [err|p] eqn:Ep; [cbn; intros [= <- <-]; left; eauto|].
  destruct (String.prefix _ p) eqn:Ex; [intros _; right; eauto 10 | cbn; intros [= <- <-]; left; eauto].
Qed.

(** "Begins with" is of the text: a directory whose name continues that of the allowed one is allowed too. *)
Lemma secure_dir_admits_siblings dir rest w s f : rooted dir = true -> filepath_Clean dir = dir -> rooted (dir +:+ rest) = true ->
  filepath_Clean (dir +:+ rest) = dir +:+ rest -> StatId dir w = inr s -> StatId (filepath_Dir (dir +:+ rest)) w = inr f ->
  isUnderSecureFileDir (LsString dir) (dir +:+ rest) w = Ret None.
Proof.
  intros Hr Hc Hr' Hc' Es Ef. unfold isUnderSecureFileDir. destruct dir as [|c d] eqn:Ed; [reflexivity|]. rewrite <- Ed in *. rewrite Es, Ef.
  destruct (s =? f); [reflexivity|]. unfold filepath_Abs. rewrite Hr, Hr', Hc, Hc', CatalogErrors.prefix_app. reflexivity.
Qed.

(** Without a key of its own the table gets no OR IGNORE and no OR REPLACE. *)
Lemma keyless_load_is_plain database table load filePath :
  load_text true database table load filePath
  = load_text false database table (mkLoad (Local load) (File load) (FieldsTerminatedBy load) (FieldsEnclosedBy load) (FieldsEscapedBy load)
      (LinesStartingBy load) (LinesTerminatedBy load) (Charset load) (IgnoreNum load) false false (ColNames load) (SetExprs load) (UserVars load)) filePath.
Proof. unfold load_text. rewrite !andb_false_r. reflexivity. Qed.
End LoadFacts.

Example sibling_is_clean : rooted "/data/secure" = true /\ filepath_Clean "/data/secure" = "/data/secure"
  /\ filepath_Clean ("/data/secure" +:+ "-other/f.csv") = "/data/secure-other/f.csv" /\ filepath_Dir "/data/secure-other/f.csv" = "/data/secure-other".
Proof. repeat split; reflexivity. Qed.
(** Dots are resolved before the comparison. *)
Example dots_are_resolved : filepath_Abs (inr "/home") "/data/secure/../private/./f" = inr "/data/private/f" /\ filepath_Abs (inr "/home") "../x//y" = inr "/x/y".
Proof. split; reflexivity. Qed.
(** The quote is escaped with a backslash, which DuckDB does not read as an escape. *)
Example quote_char_breaks : singleQuotedDuckChar "'" = "'\''" /\ singleQuotedDuckChar (String "009" EmptyString) = "'\t'" /\ singleQuotedDuckChar "|" = "'|'".
Proof. repeat split; reflexivity. Qed.
