(* ===== verification/DataLoader.v ===== *)
(** * Loading through a pipe (src/pgserver/dataloader.go)

    COPY FROM STDIN writes what the client sends into a FIFO that a COPY
    statement of DuckDB reads: the statement [buildSQL] builds, and the protocol
    of [PipeDataLoader] between three routines: the reader ([executeCopy]), the
    writer that opens the pipe ([Start]), and the connection that calls [LoadChunk],
    [Abort] and [Finish].  The states are finitely many: [loader_states] computes
    those that can be reached, and the checks below run over them all. *)

From S2P Require Import Prelude Identifier LoadData.
From stdpp Require Import strings list gmap.
From Stdlib Require Import Ascii.

(** ** The statement *)
(** [tree.CopyOptions]: the delimiter and the null string are given as the parser prints them, quote and escape are raw. *)
Record CopyOptions : Type := mkCopy {
  HasHeader : bool; Header : bool; TextFormat : bool; Delimiter : option string; Quote : option string; Escape : option string; Null : option string
}.

Definition buildSQL (schema table : string) (columns : option string) (pipePath : string) (o : CopyOptions) : string :=
  let clause name given text :=
    match given with Some v => ", " +:+ name +:+ " " +:+ v | None => if TextFormat o then ", " +:+ name +:+ " " +:+ text else EmptyString end in
  "COPY " +:+ (if decide (schema = EmptyString) then EmptyString else schema +:+ ".") +:+ table
  +:+ match columns with Some cols => " (" +:+ cols +:+ ")" | None => EmptyString end
  +:+ " FROM '" +:+ pipePath +:+ "' (FORMAT CSV, AUTO_DETECT false" +:+ ", HEADER " +:+ (if HasHeader o && Header o then "true" else "false")
  +:+ clause "SEP" (Delimiter o) "'\t'" +:+ clause "QUOTE" (option_map singleQuotedDuckChar (Quote o)) "''" +:+ clause "ESCAPE" (option_map singleQuotedDuckChar (Escape o)) "''" +:+ clause "NULLSTR" (Null o) "'\N'" +:+ ")".

Example copy_text : buildSQL "s" "t" None "p" (mkCopy false false true None None None None)
  = "COPY s.t FROM 'p' (FORMAT CSV, AUTO_DETECT false, HEADER false, SEP '\t', QUOTE '', ESCAPE '', NULLSTR '\N')".
Proof. reflexivity. Qed.

(** [int32(rows)]. *)
Definition RowsLoaded (rows : Z) : Z := (rows + 2 ^ 31) mod 2 ^ 32 - 2 ^ 31.
Example rows_wrap : RowsLoaded (2 ^ 31) = (- 2 ^ 31)%Z.
Proof. reflexivity. Qed.

(** ** The routines *)
(** The reader: COPY has not opened the pipe; it has; it failed; the error is stored; it opens the pipe once to
    unblock the writer; opened; it succeeded; the channel of the row count is closed. *)
Inductive Reader : Type := RStart | ROpen | RFailed | RStored | RUnblocking | RUnblocked | RSucceeded | RExited.
(** The writer: in [OpenFile]; returned; [blocked] is cleared; done. *)
Inductive Writer : Type := WOpening | WReturned | WCleared | WDone.
(** The connection: waits for [ready]; is between two chunks; writes a chunk; waits for the reader in [Abort] or in
    [Finish]; has its result. *)
Inductive Caller : Type := CWaiting | CLoading | CWriting | CAborting | CFinishing | CFailed | CLoaded.
Inductive Ready : Type := NotReady | ReadyOk | ReadyError.

(** [success]: COPY has given its rows; [eof]: the writing end was closed after it was opened; [rescueFailed]: the
    reader could not open the pipe to unblock the writer. *)
Record Loader : Type := mkLoader {
  reader : Reader; writer : Writer; caller : Caller; ready : Ready;
  blocked : bool; err : bool; errPipe : bool; pipe : bool; eof : bool; canceled : bool; success : bool; rescueFailed : bool
}.
#[global] Instance Reader_eq : EqDecision Reader. Proof. solve_decision. Defined.
#[global] Instance Writer_eq : EqDecision Writer. Proof. solve_decision. Defined.
#[global] Instance Caller_eq : EqDecision Caller. Proof. solve_decision. Defined.
#[global] Instance Ready_eq : EqDecision Ready. Proof. solve_decision. Defined.
#[global] Instance Loader_eq : EqDecision Loader. Proof. solve_decision. Defined.

Definition Start : Loader := mkLoader RStart WOpening CWaiting NotReady true false false false false false false false.

Definition set_reader r s := mkLoader r (writer s) (caller s) (ready s) (blocked s) (err s) (errPipe s) (pipe s) (eof s) (canceled s) (success s) (rescueFailed s).
Definition set_writer w s := mkLoader (reader s) w (caller s) (ready s) (blocked s) (err s) (errPipe s) (pipe s) (eof s) (canceled s) (success s) (rescueFailed s).
Definition set_caller c s := mkLoader (reader s) (writer s) c (ready s) (blocked s) (err s) (errPipe s) (pipe s) (eof s) (canceled s) (success s) (rescueFailed s).
Definition set_ready r s := mkLoader (reader s) (writer s) (caller s) r (blocked s) (err s) (errPipe s) (pipe s) (eof s) (canceled s) (success s) (rescueFailed s).
Definition clear_blocked s := mkLoader (reader s) (writer s) (caller s) (ready s) false (err s) (errPipe s) (pipe s) (eof s) (canceled s) (success s) (rescueFailed s).
Definition set_err s := mkLoader (reader s) (writer s) (caller s) (ready s) (blocked s) true (errPipe s) (pipe s) (eof s) (canceled s) (success s) (rescueFailed s).
Definition set_errPipe s := mkLoader (reader s) (writer s) (caller s) (ready s) (blocked s) (err s) true (pipe s) (eof s) (canceled s) (success s) (rescueFailed s).
Definition set_pipe s := mkLoader (reader s) (writer s) (caller s) (ready s) (blocked s) (err s) (errPipe s) true (eof s) (canceled s) (success s) (rescueFailed s).
Definition close_pipe s := mkLoader (reader s) (writer s) (caller s) (ready s) (blocked s) (err s) (errPipe s) (pipe s) true (canceled s) (success s) (rescueFailed s).
Definition cancel s := mkLoader (reader s) (writer s) (caller s) (ready s) (blocked s) (err s) (errPipe s) (pipe s) (eof s) true (success s) (rescueFailed s).
Definition set_success s := mkLoader (reader s) (writer s) (caller s) (ready s) (blocked s) (err s) (errPipe s) (pipe s) (eof s) (canceled s) true (rescueFailed s).
Definition no_rescue s := mkLoader (reader s) (writer s) (caller s) (ready s) (blocked s) (err s) (errPipe s) (pipe s) (eof s) (canceled s) (success s) true.

(** The writing end is open; some reading end is: that of COPY or that of the rescue. *)
Definition writing (s : Loader) : bool := match writer s with WOpening => false | _ => negb (eof s) end.
Definition reading (s : Loader) : bool := match reader s with ROpen | RUnblocked => true | RStored | RFailed | RStart | RUnblocking | RSucceeded => false | RExited => errPipe s end.

(** A step that the routine takes by itself, or one that something outside (the disk, DuckDB, the client) may cause. *)
Inductive Move : Type := Goes (s : Loader) | May (s : Loader).

(** [executeCopy].  COPY may fail at any moment, and does when its context was canceled; the error of the rescue
    [OpenFile] is dropped and nil stored. *)
Definition executeCopy_step (s : Loader) : list Move :=
  match reader s with
  | RStart => May (set_reader RFailed s) :: match writer s with WOpening => [Goes (set_writer WReturned (set_reader ROpen s))] | _ => [] end
  | ROpen => (if canceled s then Goes (set_reader RFailed s) else May (set_reader RFailed s)) :: (if eof s then [Goes (set_reader RSucceeded s)] else [])
  | RFailed => [Goes (set_reader RStored (set_err s))]
  | RStored => [Goes (if blocked s then set_reader RUnblocking s else set_reader RExited s)]
  | RUnblocking =>
      May (set_reader RExited (no_rescue s)) ::
      match writer s with
      | WOpening => [Goes (set_writer WReturned (set_reader RUnblocked s))]
      | _ => if writing s then [Goes (set_reader RUnblocked s)] else []
      end
  | RUnblocked => [Goes (set_reader RExited (set_errPipe s))]
  | RSucceeded => [May (set_reader RExited (set_err s)); Goes (set_reader RExited (set_success s))]
  | RExited => []
  end.

(** The goroutine of [Start]; [OpenFile] returns with a reader (above), or with an error. *)
Definition writer_step (s : Loader) : list Move :=
  match writer s with
  | WOpening => [May (set_writer WDone (close_pipe (clear_blocked (set_ready ReadyError s))))]
  | WReturned => [Goes (set_writer WCleared (clear_blocked s))]
  | WCleared => [Goes (if errPipe s then set_writer WDone (close_pipe (set_ready ReadyError s)) else set_writer WDone (set_ready ReadyOk (set_pipe s)))]
  | WDone => []
  end.

(** The connection.  Between two chunks the client sends another one, ends, or gives up: [LoadChunk] and [Finish] fail
    when an error is stored; a write returns while COPY reads and fails when no reading end is open; closing the pipe
    may fail. *)
Definition caller_step (s : Loader) : list Move :=
  let abort := cancel (set_err (set_caller CAborting s)) in
  match caller s with
  | CWaiting => match ready s with NotReady => [] | ReadyOk => [Goes (set_caller CLoading s)] | ReadyError => [Goes (set_caller CFailed s)] end
  | CLoading =>
      May abort ::
      (if err s then [Goes (set_caller CFailed s)]
       else [Goes (set_caller CWriting s); Goes (close_pipe (set_caller CFinishing s)); May (close_pipe (set_caller CFailed s))])
  | CWriting => if reading s then [Goes (set_caller CLoading s); May abort] else [Goes abort]
  | CAborting => match reader s with RExited => [Goes (close_pipe (set_caller CFailed s))] | _ => [] end
  | CFinishing => match reader s with RExited => [Goes (set_caller (if err s then CFailed else CLoaded) s)] | _ => [] end
  | CFailed | CLoaded => []
  end.

Definition loader_moves (s : Loader) : list Move := executeCopy_step s ++ writer_step s ++ caller_step s.
Definition next (m : Move) : Loader := match m with Goes s | May s => s end.
Definition loader_steps (s : Loader) : list Loader := map next (loader_moves s).
Definition lstep (s s' : Loader) : Prop := s' ∈ loader_steps s.
(** Some routine goes on without anything from outside. *)
Definition goes_on (s : Loader) : bool := existsb (fun m => match m with Goes _ => true | May _ => false end) (loader_moves s).

(** ** The states that can be reached *)
Definition add_new (seen : list Loader) (l : list Loader) : list Loader := foldl (fun seen s => if decide (s ∈ seen) then seen else s :: seen) seen l.
Fixpoint explore (fuel : nat) (seen : list Loader) : list Loader :=
  match fuel with O => seen | S fuel => explore fuel (add_new seen (flat_map loader_steps seen)) end.
Definition loader_states : list Loader := Eval vm_compute in explore 25 [Start].

Lemma loader_states_closed : forallb (fun s => forallb (fun s' => bool_decide (s' ∈ loader_states)) (loader_steps s)) loader_states = true.
Proof. vm_compute. reflexivity. Qed.

(** A test that holds of all of them holds of every state that can be reached. *)
Lemma reachable_check (P : Loader -> bool) : forallb P loader_states = true -> forall s, rtc lstep Start s -> P s = true.
Proof.
  intros HP s Hr. assert (Hin : s ∈ loader_states).
  { remember Start as s0 eqn:E. assert (H0 : s0 ∈ loader_states) by (subst; apply (bool_decide_unpack _); vm_compute; exact I). clear E.
    induction Hr as [|s1 s2 s3 H12 _ IH]; [exact H0|]. apply IH. pose proof loader_states_closed as Hc. rewrite forallb_forall in Hc.
    specialize (Hc s1 (proj1 (list_elem_of_In _ _) H0)). rewrite forallb_forall in Hc. specialize (Hc s2 (proj1 (list_elem_of_In _ _) H12)).
    apply bool_decide_eq_true in Hc. exact Hc. }
  rewrite forallb_forall in HP. apply HP, list_elem_of_In, Hin.
Qed.

(** ** Claims *)
(** How far the routines are; the chunks of the client apart. *)
Definition rank (s : Loader) : nat :=
  match reader s with RStart => 0 | ROpen => 1 | RFailed => 2 | RSucceeded => 3 | RStored => 4 | RUnblocking => 5 | RUnblocked => 6 | RExited => 7 end
  + match writer s with WOpening => 0 | WReturned => 1 | WCleared => 2 | WDone => 3 end
  + match caller s with CWaiting => 0 | CLoading | CWriting => 1 | CAborting | CFinishing => 2 | CFailed | CLoaded => 3 end.
Definition finished (s : Loader) : bool := match caller s with CFailed | CLoaded => true | _ => false end.

(** The connection waits for a writer that waits for a reader that is gone. *)
Definition stranded (s : Loader) : bool :=
  bool_decide (caller s = CWaiting) && bool_decide (ready s = NotReady) && bool_decide (writer s = WOpening) && bool_decide (reader s = RExited) && err s && rescueFailed s.
(** The beginning or the end of a chunk: nothing else changes. *)
Definition chunk (s s' : Loader) : bool :=
  bool_decide (caller s = CLoading /\ s' = set_caller CWriting s) || bool_decide (caller s = CWriting /\ s' = set_caller CLoading s).

Definition load_ok (s : Loader) : bool :=
  (finished s || goes_on s || stranded s)
  && forallb (fun s' => chunk s s' || (rank s <? rank s')%nat) (loader_steps s) && (rank s <=? 13)%nat
  && (negb (bool_decide (caller s = CLoaded)) || (success s && negb (err s)))
  && (negb (bool_decide (caller s = CLoading \/ caller s = CWriting)) || (pipe s && writing s))
  && (negb (errPipe s) || err s).

Lemma load_ok_everywhere : forallb load_ok loader_states = true.
Proof. vm_compute. reflexivity. Qed.

Lemma load_ok_reached s : rtc lstep Start s -> load_ok s = true.
Proof. exact (reachable_check _ load_ok_everywhere s). Qed.
Lemma rank_bounded s : rtc lstep Start s -> (rank s <= 13)%nat.
Proof. intros Hr. pose proof (load_ok_reached s Hr) as Hc. unfold load_ok in Hc. rewrite !andb_true_iff, Nat.leb_le in Hc. tauto. Qed.

(** C27: However the three routines of a COPY FROM STDIN interleave, whatever fails (the statement at any moment, the
    opening of the pipe at either end, writes, closing) and whether the client sends chunks, ends or gives up: until the
    connection has its result some routine goes on by itself, except when the reader, after a COPY that failed, could
    not open the pipe to unblock the writer: the connection then waits forever, see [failed_rescue_strands].  Every step
    that is not the beginning or the end of a chunk brings a routine forward, and there are at most thirteen of those.
    The load is reported as done only when the statement has given its rows and no error was stored; data is only
    written through a pipe that is open; and the writer that finds the reader's rescue pipe finds an error with it.
    It is assumed that a COPY statement whose context is canceled, or that reaches the end of the pipe, ends. *)
Theorem copy_load_ends (s : Loader) : rtc lstep Start s ->
  (caller s = CFailed \/ caller s = CLoaded \/ goes_on s = true
   \/ (rescueFailed s = true /\ err s = true /\ caller s = CWaiting /\ reader s = RExited /\ writer s = WOpening))
  /\ (forall s', lstep s s' -> chunk s s' = true \/ (rank s < rank s' <= 13)%nat)
  /\ (caller s = CLoaded -> success s = true /\ err s = false)
  /\ (caller s = CLoading \/ caller s = CWriting -> pipe s = true /\ writing s = true) /\ (errPipe s = true -> err s = true).
Proof.
  intros Hr. pose proof (load_ok_reached s Hr) as Hc. unfold load_ok in Hc. rewrite !andb_true_iff in Hc.
  destruct Hc as [[[[[Hp Hrank] _] Hl] Hpipe] Herr]. split; [|split; [|split; [|split]]].
  - rewrite !orb_true_iff in Hp. destruct Hp as [[Hp|Hp]|Hp]; [unfold finished in Hp; destruct (caller s); auto; discriminate | auto|].
    unfold stranded in Hp. rewrite !andb_true_iff, !bool_decide_eq_true in Hp. tauto.
  - intros s' Hs. rewrite forallb_forall in Hrank. specialize (Hrank s' (proj1 (list_elem_of_In _ _) Hs)). rewrite orb_true_iff, Nat.ltb_lt in Hrank.
    destruct Hrank as [Hk|Hk]; [left; exact Hk|]. right. split; [exact Hk|]. apply rank_bounded. eapply rtc_r; [exact Hr|exact Hs].
  - intros E. rewrite E in Hl. cbn in Hl. apply andb_true_iff in Hl. rewrite negb_true_iff in Hl. exact Hl.
  - intros E. rewrite bool_decide_true in Hpipe by exact E. apply andb_true_iff, Hpipe.
  - intros E. rewrite E in Herr. exact Herr.
Qed.

(** A run, as the list of its states. *)
Fixpoint is_run (s : Loader) (l : list Loader) : bool :=
  match l with [] => true | s' :: l => bool_decide (s' ∈ loader_steps s) && is_run s' l end.
Fixpoint final (s : Loader) (l : list Loader) : Loader := match l with [] => s | s' :: l => final s' l end.
Lemma run_reaches l : forall s, is_run s l = true -> rtc lstep s (final s l).
Proof.
  induction l as [|s' l IH]; intros s E; [apply rtc_refl|]. cbn [is_run] in E. apply andb_true_iff in E. destruct E as [E1 E2].
  apply bool_decide_eq_true in E1. eapply rtc_l; [exact E1|]. exact (IH s' E2).
Qed.

(** COPY opens the pipe, the client sends a chunk and finishes, COPY gives its rows. *)
Definition loaded_run : list Loader :=
  [ mkLoader ROpen WReturned CWaiting NotReady true false false false false false false false;
    mkLoader ROpen WCleared CWaiting NotReady false false false false false false false false;
    mkLoader ROpen WDone CWaiting ReadyOk false false false true false false false false;
    mkLoader ROpen WDone CLoading ReadyOk false false false true false false false false;
    mkLoader ROpen WDone CWriting ReadyOk false false false true false false false false;
    mkLoader ROpen WDone CLoading ReadyOk false false false true false false false false;
    mkLoader ROpen WDone CFinishing ReadyOk false false false true true false false false;
    mkLoader RSucceeded WDone CFinishing ReadyOk false false false true true false false false;
    mkLoader RExited WDone CFinishing ReadyOk false false false true true false true false;
    mkLoader RExited WDone CLoaded ReadyOk false false false true true false true false ].
Lemma copy_load_ends_witness : let s := final Start loaded_run in caller s = CLoaded /\ success s = true /\ err s = false.
Proof.
  split; [reflexivity|]. refine (proj1 (proj2 (proj2 (copy_load_ends (final Start loaded_run) _))) eq_refl).
  apply run_reaches. vm_compute. reflexivity.
Defined.

(** COPY fails before it opens the pipe, and the writer looks for the rescue pipe
    before the reader has stored it: [Start] reports success. *)
Definition race_run : list Loader :=
  [ mkLoader RFailed WOpening CWaiting NotReady true false false false false false false false;
    mkLoader RStored WOpening CWaiting NotReady true true false false false false false false;
    mkLoader RUnblocking WOpening CWaiting NotReady true true false false false false false false;
    mkLoader RUnblocked WReturned CWaiting NotReady true true false false false false false false;
    mkLoader RUnblocked WCleared CWaiting NotReady false true false false false false false false;
    mkLoader RUnblocked WDone CWaiting ReadyOk false true false true false false false false;
    mkLoader RExited WDone CWaiting ReadyOk false true true true false false false false;
    mkLoader RExited WDone CLoading ReadyOk false true true true false false false false;
    mkLoader RExited WDone CFailed ReadyOk false true true true false false false false ].
Lemma start_reports_success : exists s, rtc lstep Start s /\ ready s = ReadyOk /\ err s = true /\ success s = false
  /\ loader_steps s = [] /\ writing s = true /\ errPipe s = true.
Proof.
  exists (final Start race_run). split; [apply run_reaches; vm_compute; reflexivity|]. repeat split; reflexivity.
Qed.

(** COPY fails before it opens the pipe, and the reader cannot open it either (no file descriptor is left, the file is
    gone): the error is dropped, nobody opens the pipe any more, and the connection waits for the writer. *)
Definition stranded_run : list Loader :=
  [ mkLoader RFailed WOpening CWaiting NotReady true false false false false false false false;
    mkLoader RStored WOpening CWaiting NotReady true true false false false false false false;
    mkLoader RUnblocking WOpening CWaiting NotReady true true false false false false false false;
    mkLoader RExited WOpening CWaiting NotReady true true false false false false false true ].
Lemma failed_rescue_strands : exists s, rtc lstep Start s /\ caller s = CWaiting /\ err s = true /\ goes_on s = false.
Proof. exists (final Start stranded_run). split; [apply run_reaches; vm_compute; reflexivity|]. repeat split; reflexivity. Qed.

(** ** COPY TO STDOUT (src/pgserver/connection_handler.go, datawriter.go)

    The statement DuckDB runs into a pipe, what is read from the pipe and sent
    to the client, and the end of the command.  A pipe is the text DuckDB writes into it,
    or, where it is read in chunks, what each read gives.  The goroutine that
    reads has ended before the result is looked at, as the code waits for it. *)
From S2P Require Import GoJson Base64.
#[local] Open Scope Z_scope.

(** ** The statement *)
Inductive OutFormat : Type := OutParquet | OutJSON | OutText | OutCSV | OutBinary.

(** What is copied: a table, or a query in parentheses. *)
Inductive CopySource : Type := SourceTable (schema table : string) (columns : option string) | SourceQuery (query : string).
Definition source_text (src : CopySource) : string :=
  match src with
  | SourceTable schema table columns =>
      (if decide (schema = EmptyString) then EmptyString else QuoteIdentifierANSI schema +:+ ".") +:+ QuoteIdentifierANSI table
      +:+ match columns with Some c => "(" +:+ c +:+ ")" | None => EmptyString end
  | SourceQuery q => q
  end.

(** The options: [Null] is already a literal when it gets its quotes. *)
Definition writer_options (text : bool) (o : CopyOptions) : string :=
  let clause name given other := match given with Some v => ", " +:+ name +:+ " " +:+ v | None => if text then ", " +:+ name +:+ " " +:+ other else EmptyString end in
  ", HEADER " +:+ (if HasHeader o && Header o then "true" else "false")
  +:+ clause "DELIMITER" (Delimiter o) "'\t'" +:+ clause "QUOTE" (option_map singleQuotedDuckChar (Quote o)) "''"
  +:+ clause "ESCAPE" (option_map singleQuotedDuckChar (Escape o)) "''"
  +:+ clause "NULLSTR" (option_map (fun n => "'" +:+ n +:+ "'") (Null o)) "'\N'".

Definition NewDuckDataWriter (src : CopySource) (pipePath : string) (format : OutFormat) (o : CopyOptions) (rawOptions : string) : string + string :=
  let head := "COPY " +:+ source_text src +:+ " TO '" +:+ pipePath in
  let raw := if decide (rawOptions = EmptyString) then EmptyString else ", " +:+ rawOptions in
  match format with
  | OutParquet => inr (head +:+ "' (FORMAT PARQUET" +:+ raw +:+ ")")
  | OutJSON => inr (head +:+ "' (FORMAT JSON" +:+ raw +:+ ")")
  | OutText | OutCSV =>
      inr (head +:+ "' (FORMAT CSV" +:+ (if decide (rawOptions = EmptyString) then writer_options (match format with OutText => true | _ => false end) o else raw) +:+ ")")
  | OutBinary => inl "BINARY format is not supported for COPY TO"
  end.

(** ** What the client gets *)
Inductive OutMessage : Type := CopyOutResponse (columns : nat) | CopyData (data : string) | CopyDone | CommandComplete (tag : string).
Inductive OutError : Type := OutSend (err : string) | BufferFull | ReadFailed (err : string) | CopyFailed (err : string).

(** The size of the buffer of [bufio.NewReader]. *)
Definition bufferSize : nat := 4096.
Definition newline_char : ascii := "010".

(** [ReadSlice]: a line with its newline and the rest; the buffer is full; the end, with what is left. *)
Inductive Slice : Type := SliceLine (line rest : string) | SliceFull | SliceEOF (tail : string).
Fixpoint cut_line (s : string) : option (string * string) :=
  match s with
  | EmptyString => None
  | String c s' =>
      if decide (c = newline_char) then Some (String c EmptyString, s')
      else match cut_line s' with Some (l, r) => Some (String c l, r) | None => None end
  end.
Definition ReadSlice (s : string) : Slice :=
  match cut_line s with
  | Some (line, rest) => if (String.length line <=? bufferSize)%nat then SliceLine line rest else SliceFull
  | None => if (bufferSize <=? String.length s)%nat then SliceFull else SliceEOF s
  end.

Fixpoint tabs (s : string) : nat := match s with EmptyString => 0 | String c s' => (if decide (c = "009"%char) then 1 else 0) + tabs s' end.

Section Client.
Context (SendError : nat -> option string).

Definition out_send (m : OutMessage) (out : list OutMessage) : list OutMessage * option OutError :=
  match SendError (length out) with Some err => (out, Some (OutSend err)) | None => (out ++ [m], None) end.

(** Text format: one message a line; the response goes out with the first one. *)
Fixpoint text_loop (fuel : nat) (responded : bool) (s : string) (out : list OutMessage) : list OutMessage * option OutError :=
  match fuel with
  | O => (out, None)
  | S fuel =>
      match ReadSlice s with
      | SliceEOF _ => (out, None)
      | SliceFull => (out, Some BufferFull)
      | SliceLine line rest =>
          match (if responded then (out, None) else out_send (CopyOutResponse (tabs line + 1)) out) with
          | (out, Some e) => (out, Some e)
          | (out, None) =>
              match out_send (CopyData line) out with (out, Some e) => (out, Some e) | (out, None) => text_loop fuel true rest out end
          end
      end
  end.

(** The other formats: what each read gives, or its error. *)
Fixpoint chunk_loop (chunks : list (string + string)) (out : list OutMessage) : list OutMessage * option OutError :=
  match chunks with
  | [] => (out, None)
  | inl err :: _ => (out, Some (ReadFailed err))
  | inr EmptyString :: chunks => chunk_loop chunks out
  | inr data :: chunks => match out_send (CopyData data) out with (out, Some e) => (out, Some e) | (out, None) => chunk_loop chunks out end
  end.

Definition copy_reader (pipe : string + list (string + string)) (out : list OutMessage) : list OutMessage * option OutError :=
  match pipe with
  | inl text => text_loop (S (String.length text)) false text out
  | inr chunks => match out_send (CopyOutResponse 1) out with (out, Some e) => (out, Some e) | (out, None) => chunk_loop chunks out end
  end.

(** The end of [handleCopyToStdout], with the result of the statement. *)
Definition copy_to_stdout (pipe : string + list (string + string)) (result : string + Z) : list OutMessage * option OutError :=
  let '(out, globalErr) := copy_reader pipe [] in
  match result with
  | inl err => (out, Some (CopyFailed err))
  | inr rowCount =>
      match globalErr with
      | Some e => (out, Some e)
      | None =>
          match out_send CopyDone out with
          | (out, Some e) => (out, Some e)
          | (out, None) => out_send (CommandComplete ("COPY " +:+ FormatInt rowCount)) out
          end
      end
  end.
End Client.

(** ** Lines *)
Definition no_newline : string -> bool := string_forall (fun c => negb (bool_decide (c = newline_char))).
Definition line_of (body : string) : string := body +:+ String newline_char EmptyString.
Fixpoint lines_text (l : list string) : string := match l with [] => EmptyString | b :: l => line_of b +:+ lines_text l end.

Lemma cut_line_cut body rest : no_newline body = true -> cut_line (line_of body +:+ rest) = Some (line_of body, rest).
Proof.
  induction body as [|c body IH]; intros E; [reflexivity|]. unfold no_newline in *. cbn [string_forall] in E. apply andb_true_iff in E. destruct E as [Ec Eb].
  apply negb_true_iff, bool_decide_eq_false_1 in Ec. change (line_of (String c body) +:+ rest) with (String c (line_of body +:+ rest)). cbn [cut_line].
  rewrite decide_False, IH by assumption. reflexivity.
Qed.

Lemma length_append a b : String.length (a +:+ b) = (String.length a + String.length b)%nat.
Proof. induction a as [|c a IH]; [reflexivity|]. change (String c a +:+ b) with (String c (a +:+ b)). cbn [String.length]. rewrite IH. reflexivity. Qed.

(** A line that fits the buffer. *)
Definition short_line (b : string) : Prop := no_newline b = true /\ (String.length b < bufferSize)%nat.

Lemma text_loop_lines l : Forall short_line l -> forall fuel out, (String.length (lines_text l) < fuel)%nat ->
  text_loop (fun _ => None) fuel true (lines_text l) out = (out ++ map (fun b => CopyData (line_of b)) l, None).
Proof.
  induction 1 as [|b l [Hb Hs] _ IH]; intros [|fuel] out Hf; try (cbn in Hf; lia).
  - cbn. rewrite app_nil_r. reflexivity.
  - cbn [text_loop lines_text]. unfold ReadSlice. rewrite cut_line_cut by exact Hb. cbn [lines_text] in Hf.
    rewrite length_append in Hf. assert (El : String.length (line_of b) = S (String.length b)) by (unfold line_of; rewrite length_append; cbn; lia).
    rewrite El. destruct (Nat.leb_spec (S (String.length b)) bufferSize); [|lia]. unfold out_send. rewrite IH by lia. cbn [map]. rewrite <- app_assoc. reflexivity.
Qed.

(** Lines that fit the buffer are delivered one by one after one response, and the command ends. *)
Lemma text_copy_delivers b l rows : Forall short_line (b :: l) ->
  copy_to_stdout (fun _ => None) (inl (lines_text (b :: l))) (inr rows)
  = (CopyOutResponse (tabs (line_of b) + 1) :: map (fun x => CopyData (line_of x)) (b :: l) ++ [CopyDone; CommandComplete ("COPY " +:+ FormatInt rows)], None).
Proof.
  intros Hall. apply Forall_cons in Hall. destruct Hall as [[Hb Hs] Hl]. unfold copy_to_stdout, copy_reader. cbn [text_loop lines_text].
  unfold ReadSlice. rewrite cut_line_cut by exact Hb. assert (El : String.length (line_of b) = S (String.length b)) by (unfold line_of; rewrite length_append; cbn; lia).
  rewrite El. destruct (Nat.leb_spec (S (String.length b)) bufferSize); [|lia]. unfold out_send at 1 2. cbn [app].
  rewrite text_loop_lines; [|exact Hl|rewrite length_append, El; lia]. unfold out_send. cbn [map app]. rewrite <- app_assoc. reflexivity.
Qed.

(** A line longer than the buffer of the reader ends the command with an error, in the middle of the data. *)
Lemma long_line_fails b rest rows : no_newline b = true -> (bufferSize <= String.length b)%nat ->
  copy_to_stdout (fun _ => None) (inl (line_of b +:+ rest)) (inr rows) = ([], Some BufferFull).
Proof.
  intros Hb Hs. unfold copy_to_stdout, copy_reader. cbn [text_loop]. unfold ReadSlice. rewrite cut_line_cut by exact Hb.
  assert (El : String.length (line_of b) = S (String.length b)) by (unfold line_of; rewrite length_append; cbn; lia).
  rewrite El. destruct (Nat.leb_spec (S (String.length b)) bufferSize); [lia|]. reflexivity.
Qed.

(** Without rows the end of the copy is sent, but never its beginning. *)
Example empty_copy_has_no_response : copy_to_stdout (fun _ => None) (inl EmptyString) (inr 0) = ([CopyDone; CommandComplete "COPY 0"], None).
Proof. reflexivity. Qed.
(** What follows the last newline is dropped. *)
Example partial_line_dropped : copy_to_stdout (fun _ => None) (inl (line_of "a" +:+ "b")) (inr 2)
  = ([CopyOutResponse 1; CopyData (line_of "a"); CopyDone; CommandComplete "COPY 2"], None).
Proof. reflexivity. Qed.
(** A null string, which the parser prints with its quotes, is quoted twice. *)
Example null_quoted_twice : NewDuckDataWriter (SourceQuery "(q)") "p" OutCSV (mkCopy false false false None None None (Some "'x'")) EmptyString
  = inr "COPY (q) TO 'p' (FORMAT CSV, HEADER false, NULLSTR ''x'')".
Proof. reflexivity. Qed.
