(* ===== verification/Executor.v ===== *)
(** * The MySQL executor (src/backend/executor.go)

    [Build] decides for a plan whether DuckDB runs it or the framework does
    (go-mysql-server's own builder), after the delta buffer was flushed.  A plan is a
    tree of nodes and expressions with what the code asks of them.  The framework,
    the translation and the connection are the class [ExecEnv]. *)

From S2P Require Import Prelude Charset Schema Identifier CatalogErrors Regexp SqlText GoJson TypeMapping LoadData.
From stdpp Require Import strings list.
#[local] Open Scope Z_scope.

(** The kinds of node the code tells apart: those of the first switch that always go to the framework are [KFramework]. *)
Inductive Kind : Type :=
| KFramework | KInsertInto | KUse | KResolvedTable | KSubqueryAlias | KTableAlias | KDistinct | KOrderedDistinct
| KTableCopier | KUpdate | KDeleteFrom | KExpressioner | KOther.
#[global] Instance Kind_eq : EqDecision Kind. Proof. solve_decision. Defined.

(** A table reference: its database, and whether the table is one of the catalog. *)
Record TableRef : Type := mkRef { t_Database : string; t_catalog : bool }.

(** Nodes have expressions and children; an expression has a function (true: DATABASE()), whether it is a system or user
    variable, its children, and the nodes of its subqueries. *)
#[local] Unset Elimination Schemes.
Inductive Node : Type := mkNode (kind : Kind) (table : option TableRef) (exprs : list Expr) (children : list Node)
with Expr : Type := mkExpr (fn : option bool) (var : bool) (args : list Expr) (nodes : list Node).
#[local] Set Elimination Schemes.

Definition node_kind (n : Node) : Kind := let '(mkNode k _ _ _) := n in k.

(** ** What a plan touches *)
(** [tableAndFuncCollector]: tables and functions, those of subqueries included. *)
Fixpoint collect (n : Node) : list TableRef * list bool :=
  let '(mkNode _ t es cs) := n in
  let rs := map collect_expr es ++ map collect cs in
  (option_list t ++ concat (map fst rs), concat (map snd rs))
with collect_expr (e : Expr) : list TableRef * list bool :=
  let '(mkExpr f _ args ns) := e in
  let rs := map collect ns ++ map collect_expr args in
  (concat (map fst rs), option_list f ++ concat (map snd rs)).

Fixpoint expr_variable (e : Expr) : bool := let '(mkExpr _ v args _) := e in v || existsb expr_variable args.
(** [transform.InspectExpressions]: the expressions of the nodes of the tree. *)
Fixpoint containsVariable (n : Node) : bool := let '(mkNode _ _ es cs) := n in existsb expr_variable es || existsb containsVariable cs.

Definition system_database (name : string) : bool := bool_decide (name ∈ ["mysql"; "information_schema"; "sys"]).
Definition IsPureDataQuery (n : Node) : bool :=
  let '(tables, functions) := collect n in
  negb (existsb (fun t => system_database (t_Database t)) tables) && existsb t_catalog tables && negb (existsb id functions).

(** ** Routing *)
(** An INSERT: its source when that is LOAD DATA; its destination when that is insertable, with its columns' auto increment and the
    number of its checks ([None]: they cannot be read, or the table has none). *)
Record Insert `{SqlTypes} : Type := mkInsert { i_load : option LoadData; i_dst : option (Destination * bool * option nat) }.

(** A plan: the node, its data query, and what the kinds carry: the INSERT, the database of USE, the
    kind of the source of a CREATE TABLE AS, the name of the table of [SELECT * FROM table]. *)
Record Plan `{SqlTypes} : Type := mkPlan { root : Node; insert : option Insert; use_db : string; copy_source : option Node; resolved : string * string }.

Inductive ExecResult : Type := BaseResult (n : nat) | Rows (n : nat) | OkResult (affected insertId : Z) (found : option Z).
Inductive ExecError : Type :=
| FlushFailed (err : string) | ConnFailed (err : string) | BaseError (err : string) | ErrTranspiler (err : string) | ErrDatabaseNotFound (name : string)
| ErrNonNullable (column : string) | QueryFailed (err : string) | LoadFailed (err : LoadError).

Class ExecEnv `{LoadEnv} : Type := {
  FlushDeltaBuffer : lw -> lw * option string;
  BaseBuild : Node -> lw -> lw * (string + nat);
  GetConnForSchema : lw -> lw * option string;
  Translate : string -> string + string;
  CurrentCatalog : string;
  ConnExec : string -> lw -> lw * (string + (Z * Z));
  ConnQuery : string -> lw -> lw * (string + nat);
  ClientFoundRows : bool
}.

Section Build.
Context `{ExecEnv}.

Definition base (n : Node) (w : lw) : lw * (ExecError + ExecResult) :=
  match BaseBuild n w with (w, inl err) => (w, inl (BaseError err)) | (w, inr r) => (w, inr (BaseResult r)) end.

Definition executeQuery (query : string) (p : Plan) (w : lw) : lw * (ExecError + ExecResult) :=
  let duckSQL := if decide (node_kind (root p) = KResolvedTable) then inr ("FROM " +:+ ConnectIdentifiersANSI [(resolved p).1; (resolved p).2]) else Translate query in
  match duckSQL with
  | inl err => (w, inl (ErrTranspiler err))
  | inr text => match ConnQuery text w with (w, inl err) => (w, inl (QueryFailed err)) | (w, inr n) => (w, inr (Rows n)) end
  end.

Definition executeDML (query : string) (p : Plan) (w : lw) : lw * (ExecError + ExecResult) :=
  match Translate query with
  | inl err => (w, inl (ErrTranspiler err))
  | inr text =>
      match ConnExec text w with
      | (w, inl err) =>
          (w, inl (let '(yes, column) := IsDuckDBNotNullConstraintViolationError err in if yes : bool then ErrNonNullable column else QueryFailed err))
      | (w, inr (affected, insertId)) =>
          (w, inr (OkResult affected insertId (if decide (node_kind (root p) = KUpdate) then if ClientFoundRows then Some affected else None else None)))
      end
  end.

(** The tree that is inspected: for CREATE TABLE AS, its source. *)
Definition inspected (p : Plan) : Node :=
  match node_kind (root p), copy_source p with KTableCopier, Some source => source | _, _ => root p end.

(** What an INSERT does before the general rule: [None] to go on. *)
Definition build_insert (p : Plan) (i : Insert) (w : lw) : option (outcome (lw * (ExecError + ExecResult))) :=
  match i_load i with
  | Some load =>
      match i_dst i with
      | Some (dst, _, _) =>
          if isRewritableLoadData load then
            Some ('(w, r) ← buildLoadData dst load w; Ret (w, match r with inl e => inl (LoadFailed e) | inr (n, id) => inr (OkResult n id None) end))
          else Some (Ret (base (root p) w))
      | None => Some (Ret (base (root p) w))
      end
  | None =>
      match i_dst i with
      | Some (_, hasAutoIncrement, checks) =>
          if hasAutoIncrement then Some (Ret (base (root p) w))
          else match checks with Some (S _) => Some (Ret (base (root p) w)) | _ => None end
      | None => None
      end
  end.

(** DuckDB's part of the switch on the node. *)
Definition build_duck (query : string) (p : Plan) (w : lw) : lw * (ExecError + ExecResult) :=
  match node_kind (root p) with
  | KUse =>
      match ConnExec ("USE " +:+ FullSchemaName CurrentCatalog (use_db p)) w with
      | (w, inl err) => (w, inl (if IsDuckDBSetSchemaNotFoundError err then ErrDatabaseNotFound (use_db p) else QueryFailed err))
      | (w, inr _) => base (root p) w
      end
  | KResolvedTable | KSubqueryAlias | KTableAlias | KDistinct | KOrderedDistinct => executeQuery query p w
  | KTableCopier =>
      match copy_source p with
      | Some source => if decide (node_kind source = KResolvedTable) then base (root p) w else executeDML query p w
      | None => executeDML query p w
      end
  | KInsertInto | KUpdate => executeDML query p w
  | KExpressioner => executeQuery query p w
  | KDeleteFrom => executeDML query p w
  | KFramework | KOther => base (root p) w
  end.

Definition build_rest (query : string) (p : Plan) (w : lw) : lw * (ExecError + ExecResult) :=
  let tree := inspected p in
  if containsVariable tree || negb (IsPureDataQuery tree) then base (root p) w
  else match GetConnForSchema w with
  | (w, Some err) => (w, inl (ConnFailed err))
  | (w, None) => build_duck query p w
  end.

Definition Build (query : string) (p : Plan) (w : lw) : outcome (lw * (ExecError + ExecResult)) :=
  match FlushDeltaBuffer w with
  | (w, Some err) => Ret (w, inl (FlushFailed err))
  | (w, None) =>
      match node_kind (root p), insert p with
      | KFramework, _ => Ret (base (root p) w)
      | KInsertInto, Some i => match build_insert p i w with Some r => r | None => Ret (build_rest query p w) end
      | _, _ => Ret (build_rest query p w)
      end
  end.

(** ** What reaches DuckDB *)

(** A plan that touches a system database, that has no table of the catalog, that calls DATABASE() or
    uses a variable is run by the framework on what the flush left, and so is every plan
    of the framework's kinds; only LOAD DATA goes elsewhere. *)
Lemma impure_plans_go_to_the_framework query p w w1 :
  FlushDeltaBuffer w = (w1, None) -> (forall i, insert p = Some i -> i_load i = None) ->
  node_kind (root p) = KFramework \/ containsVariable (inspected p) = true \/ IsPureDataQuery (inspected p) = false ->
  Build query p w = Ret (base (root p) w1).
Proof.
  intros Ef Hload Hp. unfold Build. rewrite Ef.
  assert (Hrest : node_kind (root p) <> KFramework -> build_rest query p w1 = base (root p) w1).
  { intros Hk. unfold build_rest. destruct Hp as [?|[-> | ->]]; [contradiction|reflexivity|rewrite orb_true_r; reflexivity]. }
  destruct (node_kind (root p)) eqn:Ek; try (rewrite Hrest by discriminate; reflexivity); [reflexivity|].
  destruct (insert p) as [i|] eqn:Ei; [|rewrite Hrest by discriminate; reflexivity]. specialize (Hload i eq_refl). unfold build_insert. rewrite Hload.
  destruct (i_dst i) as [[[dst auto] checks]|]; [destruct auto; [reflexivity|]; destruct checks as [[|n]|]; try reflexivity|]; rewrite Hrest by discriminate; reflexivity.
Qed.

(** Nothing runs when the delta buffer cannot be flushed. *)
Lemma failed_flush_runs_nothing query p w w1 err : FlushDeltaBuffer w = (w1, Some err) -> Build query p w = Ret (w1, inl (FlushFailed err)).
Proof. intros E. unfold Build. rewrite E. reflexivity. Qed.

(** The count of matched rows is that of changed rows. *)
Lemma update_counts query p w w1 text n id : Translate query = inr text -> ConnExec text w = (w1, inr (n, id)) -> node_kind (root p) = KUpdate ->
  ClientFoundRows = true -> executeDML query p w = (w1, inr (OkResult n id (Some n))).
Proof. intros Et Ec Ek Ef. unfold executeDML. rewrite Et, Ec, Ek, Ef. reflexivity. Qed.
End Build.

(** A subquery's tables count. *)
Example subquery_is_seen :
  IsPureDataQuery (mkNode KExpressioner None [mkExpr None false [] [mkNode KResolvedTable (Some (mkRef "mysql" false)) [] []]]
                     [mkNode KResolvedTable (Some (mkRef "app" true)) [] []]) = false.
Proof. reflexivity. Qed.
