(* ===== verification/MySession.v ===== *)
(** * The MySQL session (src/backend/session.go)

    Transactions of a session, which may have a transaction of DuckDB under
    them, and the global variables it persists in the catalog, with the SQL of the internal
    table.  The session of the framework, the transactions of the pool and the
    statements are the class [SessionEnv]. *)

From S2P Require Import Prelude Charset Schema Identifier CatalogErrors InternalTables GoJson.
From stdpp Require Import strings list.
#[local] Open Scope Z_scope.

(** A value of a variable: the types [GetPersistedValue] knows, and the others by their name and text. *)
Inductive VarValue : Type := VarString (s : string) | VarInt (z : Z) | VarBool (b : bool) | VarOther (type text : string).
(** [%T] of a value. *)
Definition go_type (v : VarValue) : string := match v with VarString _ => "string" | VarInt _ => "int" | VarBool _ => "bool" | VarOther t _ => t end.
(** The text of a value in a TEXT column. *)
Definition as_text (v : VarValue) : string :=
  match v with VarString s => s | VarInt z => FormatInt z | VarBool b => if b then "true" else "false" | VarOther _ s => s end.

Inductive PersistRow : Type := PrNoRows | PrErr (err : string) | PrRow (value vtype : string).

Class SessionEnv : Type := {
  sw : Type;
  Tx : Type;
  BaseStart : sw -> sw * option string;
  BaseCommit : sw -> sw * option string;
  BaseRollback : sw -> sw * option string;
  IgnoreAutoCommit : sw -> bool;
  IsSessionAutocommit : sw -> string + bool;
  GetTxn : bool -> sw -> sw * (string + Tx);                  (* read only *)
  CommitTx : Tx -> sw -> sw * option string;
  RollbackTx : Tx -> sw -> sw * option string;
  CloseTxn : sw -> sw;
  GetGlobalVar : string -> sw -> bool;
  CatalogConn : sw -> sw * option string;
  ExecOn : string -> list string -> sw -> sw * option string;
  QueryRowOn : string -> list string -> sw -> sw * PersistRow
}.

Section Session.
Context `{SessionEnv}.

(** ** Transactions *)

(** The transaction of DuckDB, when there is one: with autocommit there is none. *)
Definition StartTransaction (readOnly : bool) (w : sw) : sw * (string + option Tx) :=
  match BaseStart w with
  | (w, Some err) => (w, inl err)
  | (w, None) =>
      let start := if IgnoreAutoCommit w then inr true
                   else match IsSessionAutocommit w with inl err => inl err | inr autocommit => inr (negb autocommit) end in
      match start with
      | inl err => (w, inl err)
      | inr false => (w, inr None)
      | inr true => match GetTxn readOnly w with (w, inl err) => (w, inl err) | (w, inr tx) => (w, inr (Some tx)) end
      end
  end.

(** The deferred [CloseTxn] runs last, also after an error. *)
Definition end_transaction (finish : Tx -> sw -> sw * option string) (base : sw -> sw * option string) (tx : option Tx) (w : sw) : sw * option string :=
  match tx with
  | None => base w
  | Some tx =>
      let '(w, err) := match finish tx w with (w, Some err) => (w, Some err) | (w, None) => base w end in
      (CloseTxn w, err)
  end.
Definition CommitTransaction : option Tx -> sw -> sw * option string := end_transaction CommitTx BaseCommit.
Definition Rollback : option Tx -> sw -> sw * option string := end_transaction RollbackTx BaseRollback.

(** ** Persisted variables *)
Definition ExecContext (query : string) (args : list string) (w : sw) : sw * option string :=
  match CatalogConn w with (w, Some err) => (w, Some err) | (w, None) => ExecOn query args w end.
(** Without a connection the row is nil, and reading it panics. *)
Definition QueryRow (query : string) (args : list string) (w : sw) : outcome (sw * PersistRow) :=
  match CatalogConn w with (w, Some _) => Panic | (w, None) => Ret (QueryRowOn query args w) end.

Inductive PersistError : Type := ErrUnknownSystemVariable (name : string) | ErrExec (err : string) | ErrAtoi (value : string) | ErrUnknownType (vtype : string).

Definition PersistGlobal (name : string) (value : VarValue) (w : sw) : outcome (sw * option PersistError) :=
  if negb (GetGlobalVar name w) then Ret (w, Some (ErrUnknownSystemVariable name))
  else stmt ← UpsertStmt PersistentVariable;
       let '(w, err) := ExecContext stmt [name; as_text value; go_type value] w in Ret (w, option_map ErrExec err).

Definition RemovePersistedGlobal (name : string) (w : sw) : outcome (sw * option PersistError) :=
  stmt ← DeleteStmt PersistentVariable;
  let '(w, err) := ExecContext stmt [name] w in Ret (w, option_map ErrExec err).

(** The name of the table, without its schema. *)
Definition remove_all_text : string := "DELETE FROM " +:+ it_Name PersistentVariable.
Definition RemoveAllPersistedGlobals (w : sw) : sw * option PersistError :=
  let '(w, err) := ExecContext remove_all_text [] w in (w, option_map ErrExec err).

Definition read_value (value vtype : string) : PersistError + option VarValue :=
  if decide (vtype = "string") then inr (Some (VarString value))
  else if decide (vtype = "int") then match ParseInt 64 value with Some z => inr (Some (VarInt z)) | None => inl (ErrAtoi value) end
  else if decide (vtype = "bool") then inr (Some (VarBool (bool_decide (value = "true"))))
  else inl (ErrUnknownType vtype).

Definition GetPersistedValue (name : string) (w : sw) : outcome (sw * (PersistError + option VarValue)) :=
  stmt ← SelectStmt PersistentVariable;
  '(w, row) ← QueryRow stmt [name] w;
  Ret (w, match row with
          | PrNoRows => inr None
          | PrErr err => inl (ErrExec err)
          | PrRow value vtype => read_value value vtype
          end).

(** ** Facts *)
(** A transaction of DuckDB is always closed, whatever its commit gives; the framework's transaction ends only after it. *)
Lemma transaction_is_closed tx w : (exists w', fst (CommitTransaction (Some tx) w) = CloseTxn w') /\ (exists w', fst (Rollback (Some tx) w) = CloseTxn w').
Proof. unfold CommitTransaction, Rollback, end_transaction. split; repeat case_match; eexists; reflexivity. Qed.

(** With autocommit nothing of DuckDB is started. *)
Lemma autocommit_starts_nothing readOnly w w1 : BaseStart w = (w1, None) -> IgnoreAutoCommit w1 = false -> IsSessionAutocommit w1 = inr true ->
  StartTransaction readOnly w = (w1, inr None).
Proof. intros E Ei Ea. unfold StartTransaction. rewrite E, Ei, Ea. reflexivity. Qed.

(** What the statements of the internal table do. *)
Class PersistLaws : Prop := {
  upsert_select : forall u s name value vtype w w' w1, UpsertStmt PersistentVariable = Ret u -> SelectStmt PersistentVariable = Ret s ->
    ExecOn u [name; value; vtype] w = (w1, None) -> CatalogConn w1 = (w', None) -> QueryRowOn s [name] w' = (w', PrRow value vtype)
}.
Context `{!PersistLaws}.

(** A variable persisted with a type that can be read is read back; one of any other Go type is stored and never read again. *)
Lemma persisted_value_read_back name v w w1 w2 : PersistGlobal name v w = Ret (w1, None) -> CatalogConn w1 = (w2, None) ->
  match v with VarInt z => - 2 ^ 63 <= z < 2 ^ 63 | VarOther t _ => t <> "string" /\ t <> "int" /\ t <> "bool" | _ => True end ->
  GetPersistedValue name w1 = Ret (w2, match v with VarOther t _ => inl (ErrUnknownType t) | _ => inr (Some v) end).
Proof.
  intros E Ec Hv. unfold PersistGlobal in E. destruct (GetGlobalVar name w); [|discriminate]. cbn [negb] in E.
  unfold GetPersistedValue, QueryRow, ExecContext in *. destruct (UpsertStmt PersistentVariable) as [u|] eqn:Eu; [|discriminate].
  destruct (SelectStmt PersistentVariable) as [s|] eqn:Es; [|vm_compute in Es; discriminate]. cbn in E |- *.
  destruct (CatalogConn w) as [w0 [err|]]; [discriminate|]. destruct (ExecOn u _ w0) as [w1' [err|]] eqn:Ex; [discriminate|]. injection E as ->.
  rewrite Ec. cbn. rewrite (upsert_select u s name (as_text v) (go_type v) w0 w2 w1 Eu Es Ex Ec).
  unfold read_value. destruct v as [x|z|b|t x]; cbn [as_text go_type]; try reflexivity.
  - cbn. rewrite ParseInt_FormatInt by lia. reflexivity.
  - destruct b; reflexivity.
  - destruct Hv as (H1 & H2 & H3). rewrite !decide_False by assumption. reflexivity.
Qed.
End Session.

(** The statement for one variable names the schema, the one for all of them does not. *)
Example remove_all_misses_schema : remove_all_text = "DELETE FROM persistent_variable" /\
  DeleteStmt PersistentVariable = Ret "DELETE FROM __sys__.persistent_variable WHERE name = ?".
Proof. split; reflexivity. Qed.
