(* ===== verification/Startup.v ===== *)
(** * The start of a connection (src/pgserver/connection_handler.go)

    What happens before the first query: requests for encryption, the startup
    message, authentication (Scram.v), the parameters the server reports, and the
    initial database.  The client's startup messages are a list; so are the
    messages of its authentication. *)

From S2P Require Import Prelude Charset Identifier CatalogErrors Base64 GoJson Comment Scram.
From stdpp Require Import strings list.
#[local] Open Scope Z_scope.

(** What [ReceiveStartupMessage] gives, before the end of the connection: a startup message with its user and
    database parameters, a request for encryption, another message, or an error. *)
Inductive StartMessage : Type := StartupMessage (user database : option string) | SSLRequest | GSSEncRequest | OtherStart | StartReadError.

Inductive Sent : Type :=
| SentByte (b : string) | SentAuth (m : ServerMessage) | ParameterStatus (name value : string) | BackendKeyData | FatalError (code : string)
| ReadyForQuery.

#[global] Instance ServerMessage_eq : EqDecision ServerMessage. Proof. solve_decision. Defined.
#[global] Instance Sent_eq : EqDecision Sent. Proof. solve_decision. Defined.

Inductive StartError : Type :=
| ReceiveStartFailed | WriteFailed (err : string) | AuthError (e : ScramError) | VariableNotFound (name : string) | ParseFailed (err : string)
| DatabaseError (err : string) | UnexpectedStart.

(** The parameters, with the values that are not read from the variables. *)
Definition sessParams : list (string * option string) :=
  [("in_hot_standby", None); ("integer_datetimes", Some "on"); ("TimeZone", None); ("IntervalStyle", None); ("is_superuser", Some "on");
   ("application_name", None); ("default_transaction_read_only", None); ("scram_iterations", None); ("DateStyle", None);
   ("standard_conforming_strings", None); ("session_authorization", Some "postgres"); ("client_encoding", None); ("server_version", None);
   ("server_encoding", None)].

Class StartEnv : Type := {
  hasCertificate : bool;
  EnableAuthentication : bool;
  GetRole : string -> Role;
  RemoteUnix : bool;
  RemoteHost : string;
  GlobalText : string -> option string;                 (* the value of a global variable, formatted *)
  DefaultCatalogName : option string;                   (* of the provider, when there is one *)
  ParseOne : string -> option string;                   (* the error *)
  ComQuery : string -> option string;                   (* the error *)
  SendError : nat -> option string                      (* why the message after the first n cannot be sent *)
}.

Section Startup.
Context `{Rfc5802} `{StartEnv}.

Definition put (m : Sent) (out : list Sent) : list Sent * option StartError :=
  match SendError (length out) with Some err => (out, Some (WriteFailed err)) | None => (out ++ [m], None) end.

Fixpoint send_params (l : list (string * option string)) (out : list Sent) : list Sent * option StartError :=
  match l with
  | [] => (out, None)
  | (name, fixed) :: l =>
      match (match fixed with Some v => Some v | None => GlobalText name end) with
      | None => (out, Some (VariableNotFound name))
      | Some v => match put (ParameterStatus name v) out with (out, Some e) => (out, Some e) | (out, None) => send_params l out end
      end
  end.
Definition sendClientStartupMessages (out : list Sent) : list Sent * option StartError :=
  match send_params sessParams out with (out, Some e) => (out, Some e) | (out, None) => put BackendKeyData out end.

(** The database of the message, or the user's name; postgres and mysql stand for the default catalog. *)
Definition initial_database (user : string) (database : option string) : bool * string :=
  let '(specified, db) := match database with Some (String _ _ as d) => (true, d) | _ => (false, user) end in
  (specified, if bool_decide (db = "postgres") || bool_decide (db = "mysql") then default db DefaultCatalogName else db).
Definition chooseInitialDatabase (user : string) (database : option string) (out : list Sent) : list Sent * option StartError :=
  let '(specified, db) := initial_database user database in
  match ParseOne ("SET database TO " +:+ db +:+ ";") with
  | Some err => (out, Some (ParseFailed err))
  | None =>
      match ComQuery ("USE " +:+ db +:+ ".public;") with
      | Some err => if specified : bool then (fst (put (FatalError "3D000") out), Some (DatabaseError err)) else (out, None)
      | None => (out, None)
      end
  end.

(** Authentication after [n] messages were sent. *)
Definition authenticate (user : option string) (msgs : list ClientMessage) (out : list Sent) : string * (list Sent * option StartError) :=
  let '((username, _), (sent, err)) := Scram.handleAuthentication (fun k => SendError (length out + k)) EnableAuthentication GetRole user RemoteUnix RemoteHost msgs in
  (username, (out ++ map SentAuth sent, option_map AuthError err)).

(** After authentication: whether to go on, and the error. *)
Definition welcome (username : string) (database : option string) (out : list Sent) : list Sent * (bool * option StartError) :=
  match sendClientStartupMessages out with
  | (out, Some e) => (out, (false, Some e))
  | (out, None) =>
      match chooseInitialDatabase username database out with
      | (out, Some e) => (out, (false, Some e))
      | (out, None) => let '(out, e) := put ReadyForQuery out in (out, (true, e))
      end
  end.

Fixpoint handleStartup (starts : list StartMessage) (msgs : list ClientMessage) (out : list Sent) : list Sent * (bool * option StartError) :=
  match starts with
  | [] => (out, (false, None))
  | StartReadError :: _ => (out, (false, Some ReceiveStartFailed))
  | StartupMessage user database :: _ =>
      match authenticate user msgs out with
      | (_, (out, Some e)) => (out, (false, Some e))
      | (username, (out, None)) => welcome username database out
      end
  | SSLRequest :: starts =>
      match put (SentByte (if hasCertificate then "S" else "N")) out with
      | (out, Some e) => (out, (false, Some e))
      | (out, None) => handleStartup starts msgs out
      end
  | GSSEncRequest :: starts =>
      match put (SentByte "N") out with
      | (out, Some e) => (out, (false, Some e))
      | (out, None) => handleStartup starts msgs out
      end
  | OtherStart :: _ => (out, (false, Some UnexpectedStart))
  end.

(** ** Nobody gets ready without a proof *)
(** Messages were added, READY not among them. *)
Definition adds (out out' : list Sent) : Prop := exists l, out' = out ++ l /\ ReadyForQuery ∉ l.

Lemma adds_refl out : adds out out.
Proof. exists []. split; [symmetry; apply app_nil_r | apply not_elem_of_nil]. Qed.
Lemma adds_trans a b c : adds a b -> adds b c -> adds a c.
Proof. intros (l & -> & Hl) (l' & -> & Hl'). exists (l ++ l'). rewrite app_assoc, not_elem_of_app. auto. Qed.

Lemma put_adds m out : m <> ReadyForQuery -> adds out (fst (put m out)).
Proof.
  intros Hm. unfold put. destruct (SendError (length out)); [apply adds_refl|]. exists [m]. split; [reflexivity|].
  intros Hin. apply list_elem_of_singleton in Hin. congruence.
Qed.

Lemma send_params_adds l : forall out, adds out (fst (send_params l out)).
Proof.
  induction l as [|[name fixed] l IH]; intros out; cbn; [apply adds_refl|].
  destruct (match fixed with Some v => Some v | None => GlobalText name end) as [v|]; [|apply adds_refl].
  pose proof (put_adds (ParameterStatus name v) out ltac:(discriminate)) as Hp. destruct (put _ out) as [out1 [e|]]; [exact Hp|].
  eapply adds_trans; [exact Hp|apply IH].
Qed.

Lemma startup_messages_add out : adds out (fst (sendClientStartupMessages out)).
Proof.
  unfold sendClientStartupMessages. pose proof (send_params_adds sessParams out) as Hp. destruct (send_params _ out) as [out1 [e|]]; [exact Hp|].
  eapply adds_trans; [exact Hp|apply put_adds; discriminate].
Qed.

Lemma database_adds user database out : adds out (fst (chooseInitialDatabase user database out)).
Proof.
  unfold chooseInitialDatabase. destruct (initial_database user database) as [specified db]. destruct (ParseOne _); [apply adds_refl|].
  destruct (ComQuery _); [|apply adds_refl]. destruct specified; [apply put_adds; discriminate|apply adds_refl].
Qed.

Lemma authenticate_adds user msgs out : adds out (fst (snd (authenticate user msgs out))).
Proof.
  unfold authenticate. destruct (Scram.handleAuthentication _ _ _ _ _ _ _) as [[u h] [sent err]]. exists (map SentAuth sent). split; [reflexivity|].
  intros Hin. apply list_elem_of_fmap in Hin. destruct Hin as (m & Hm & _). discriminate.
Qed.

Lemma welcome_keeps m username database out : m ∈ out -> m ∈ fst (welcome username database out).
Proof.
  intros Hin. unfold welcome. assert (Hadd : forall o o', adds o o' -> m ∈ o -> m ∈ o') by (intros o o' (l & -> & _) Ho; apply elem_of_app; auto).
  pose proof (Hadd _ _ (startup_messages_add out) Hin) as In1. destruct (sendClientStartupMessages out) as [out1 [e|]]; [exact In1|].
  pose proof (Hadd _ _ (database_adds username database out1) In1) as In2. destruct (chooseInitialDatabase _ _ out1) as [out2 [e|]]; [exact In2|].
  unfold put. destruct (SendError (length out2)); cbn in *; [exact In2|]. apply elem_of_app. auto.
Qed.

(** C23: with authentication enabled, a connection is told it is ready for
    queries only after its client proved to know the key of the role it connects as, in answer
    to a challenge of this very exchange: whatever requests for encryption come
    first, whatever the client sends, and whichever message fails to be sent. *)
Theorem ready_only_with_proof starts msgs : EnableAuthentication = true -> forall out out' r,
  ReadyForQuery ∉ out -> handleStartup starts msgs out = (out', r) -> ReadyForQuery ∈ out' ->
  exists user database username si sc sr data,
    StartupMessage user database ∈ starts /\ username = (connection_user user RemoteUnix RemoteHost).1
    /\ MSASLResponse data ∈ msgs /\ readSASLResponse (Base64Header si) (sc_Nonce sc) data = inr sr /\ proves (GetRole username) si sc sr
    /\ SentAuth (AuthenticationSASLContinue (Encode_continue sc)) ∈ out' /\ sr_Nonce sr = sc_Nonce sc.
Proof.
  intros Hon. induction starts as [|m starts IH]; intros out out' r Hnot E Hin; cbn [handleStartup] in E; [injection E as <- _; contradiction|].
  assert (Hadd : forall o, adds out o -> ReadyForQuery ∉ o) by (intros o (l & -> & Hl); rewrite not_elem_of_app; auto).
  assert (Hstep : forall b, (let '(o, e) := put (SentByte b) out in match e with Some e => (o, (false, Some e)) | None => handleStartup starts msgs o end) = (out', r) ->
    exists o, (ReadyForQuery ∉ o) /\ handleStartup starts msgs o = (out', r)).
  { intros b Eb. pose proof (Hadd _ (put_adds (SentByte b) out ltac:(discriminate))) as Hn. destruct (put (SentByte b) out) as [o [e|]]; [|eauto].
    injection Eb as <- _. contradiction. }
  destruct m as [user database| | | |].
  - pose proof (Hadd _ (authenticate_adds user msgs out)) as Hn1. destruct (authenticate user msgs out) as [username [out1 [e1|]]] eqn:Ea; [injection E as <- _; contradiction|].
    unfold authenticate in Ea. destruct (Scram.handleAuthentication _ _ _ _ _ _ _) as [[u h] [sent err]] eqn:Eh. rewrite Hon in Eh.
    injection Ea as -> <- Ee. destruct err; [discriminate|].
    assert (Eu : username = (connection_user user RemoteUnix RemoteHost).1).
    { unfold Scram.handleAuthentication in Eh. destruct (connection_user user RemoteUnix RemoteHost) as [u0 h0]. injection Eh as -> _ _. reflexivity. }
    apply handle_accepts in Eh. destruct Eh as (si & sc & sr & data & Hd & Er & Hp & Hs & Hnonce & _).
    exists user, database, username, si, sc, sr, data. split; [left|]. split; [exact Eu|]. split; [exact Hd|]. split; [exact Er|]. split; [exact Hp|]. split; [|exact Hnonce].
    assert (Eo : out' = fst (welcome username database (out ++ map SentAuth sent))) by (rewrite E; reflexivity). rewrite Eo. apply welcome_keeps, elem_of_app. right. apply list_elem_of_fmap. eexists. split; [reflexivity|exact Hs].
  - destruct (Hstep (if hasCertificate then "S" else "N")) as (o & Hn & Eo); [destruct (put _ out) as [o [e|]]; exact E|].
    destruct (IH o out' r Hn Eo Hin) as (user & database & username & si & sc & sr & data & Hst & Hx).
    exists user, database, username, si, sc, sr, data. split; [right; exact Hst|exact Hx].
  - destruct (Hstep "N") as (o & Hn & Eo); [destruct (put _ out) as [o [e|]]; exact E|].
    destruct (IH o out' r Hn Eo Hin) as (user & database & username & si & sc & sr & data & Hst & Hx).
    exists user, database, username, si, sc, sr, data. split; [right; exact Hst|exact Hx].
  - injection E as -> _. contradiction.
  - injection E as -> _. contradiction.
Qed.
End Startup.

(** A client that asks for encryption first. *)
#[export] Instance start_model : StartEnv := {|
  hasCertificate := false; EnableAuthentication := true; GetRole := alice_roles; RemoteUnix := true; RemoteHost := EmptyString;
  GlobalText := fun _ => Some "value"; DefaultCatalogName := Some "db0"; ParseOne := fun _ => None; ComQuery := fun _ => None; SendError := fun _ => None
|}.
Definition alice_starts : list StartMessage := [SSLRequest; StartupMessage (Some "alice") None].
Definition alice_session : list Sent * (bool * option StartError) := handleStartup alice_starts alice_messages [].

Lemma ready_only_with_proof_witness : alice_session.2 = (true, None) /\
  exists user database username si sc sr data,
    StartupMessage user database ∈ alice_starts /\ username = (connection_user user RemoteUnix RemoteHost).1
    /\ MSASLResponse data ∈ alice_messages /\ readSASLResponse (Base64Header si) (sc_Nonce sc) data = inr sr /\ proves (GetRole username) si sc sr
    /\ SentAuth (AuthenticationSASLContinue (Encode_continue sc)) ∈ alice_session.1 /\ sr_Nonce sr = sc_Nonce sc.
Proof.
  split; [vm_compute; reflexivity|]. apply (@ready_only_with_proof rfc5802_model start_model alice_starts alice_messages eq_refl [] alice_session.1 alice_session.2).
  - apply not_elem_of_nil.
  - unfold alice_session. destruct (handleStartup alice_starts alice_messages []); reflexivity.
  - apply (bool_decide_unpack _). vm_compute. exact I.
Defined.

(** Without a name of its own the database is the user's, and a missing one is no error. *)
Example database_of_the_user : initial_database "bob" None = (false, "bob") /\ initial_database "bob" (Some "mysql") = (true, "db0").
Proof. split; reflexivity. Qed.
